(* ===== verification/_CoqProject ===== *)
-Q . S2P
Prelude.v
GoStrings.v
Regex.v
Base64.v
JsonUnique.v
NetUrl.v
Version.v
FormulaId.v
Graph.v
ClosureGraph.v
Metadata.v
Resolution.v
OciReference.v
OciResolve.v
Resolver.v
CatalogFields.v
FetchPolicy.v
Fetcher.v
FetchFiles.v
BottleStreams.v
BottleHeader.v
BottleLinks.v
BottleVerify.v
BottleFacts.v
BottleReceipt.v
InstalledReceipt.v
InstalledFacts.v
PolicyV2.v
TapPolicy.v
CatalogRequest.v
CatalogTap.v
CatalogClosure.v
CatalogArtifact.v
CatalogSet.v
Jws.v
CatalogKeys.v
CatalogPayload.v
CatalogAuth.v
CatalogResolver.v
ResolutionV2.v
ResolutionV2Facts.v
Release.v
Config.v
ResolverV2.v
ResolutionV2Text.v
BottleExpectation.v
CatalogStore.v
CatalogClient.v
CatalogService.v
