(* ===== verification/Prelude.v ===== *)
(** * dalec-homebrew: a verification library

    dalec-homebrew is a BuildKit frontend, written in Go, that installs Homebrew
    bottles into container images. It resolves requested Formulae against the
    signed Homebrew catalog, selects and verifies one bottle per Formula in an
    OCI registry, writes the result down as an immutable resolution record, and
    materializes that record into an image without asking the network again. A
    companion catalog service generates, signs and serves the catalogs of
    third-party taps.

    This library models the parts that decide what is installed, in the order
    in which they call each other, and proves them correct.

    ** Files

    - [Prelude] (this file): the error monad [result], sorting, the tactics
      [res_inv] and [case_bool], the hint database [dalec] and the lemmas on
      lists and results that all files share.
    - [GoStrings]: what the program uses of Go's strings, strconv, path,
      slices and unicode/utf8. The Unicode tables are the class
      [UnicodeTables], whose laws fix the ASCII rows only.
    - [Regex]: the program's anchored regular expressions, with a matcher that
      computes and a proof that it decides the language.
    - [Base64]: the encodings of encoding/base64 the program uses, with their
      round trips.
    - [Graph]: depth-first search with cycle detection and a plain marking
      walk, over any graph; the recursion of [topoOrder],
      [validateDependencyCycles] and the reachability check of records.
    - [Version]: internal/homebrew/version.
    - [FormulaId]: internal/homebrew/formulaid.
    - [Metadata]: internal/homebrew/metadata, [types.go] and [catalog.go], from
      the decoded JSON values to the catalog and its lookups.
    - [Resolution]: internal/resolution, [record.go].
    - [OciReference]: internal/homebrew/oci, [reference.go] and [identity.go].
    - [OciResolve]: internal/homebrew/oci, [resolve.go] and the response checks
      of [client.go]. The registry is the class [RegistryClient].
    - [Resolver]: internal/resolver, [resolver.go]. Its two interfaces,
      [Catalog] and [BottleResolver], are the classes [CatalogSource] and
      [BottleSource] with their laws; [Metadata] and [OciResolve] give the
      instances, so the theorems of the resolver hold of the program as it is
      assembled.
    - [ClosureGraph]: what the validators of internal/catalog and
      internal/resolution share about dependency graphs: references exist, an
      order lists every node once with dependencies first, the roots reach all.
    - [NetUrl]: the parser of net/url as an interface.
    - [JsonUnique]: the check for repeated JSON members, which eleven packages
      carry a copy of, over the token stream of encoding/json.
    - [FetchPolicy], [Fetcher], [FetchFiles]: internal/fetcher: requests and
      evidence, hosts, addresses and the guarded dialer; the redirect loop with
      its bounded copy, and probing; the publication of bottle and evidence in
      a file system shared with other processes.
    - [BottleStreams], [BottleHeader], [BottleLinks], [BottleVerify]:
      internal/bottle, [verify.go] and [formula.go]: the streaming readers and
      the placeholder search, the checks of one tar header, symbolic and hard
      links of the whole archive, and the verification from the reader to the
      inventory. [BottleFacts] has the facts about all of it.
    - [BottleReceipt], [InstalledReceipt]: [receipt.go] and [inspect.go]: the
      receipt inside a bottle, the receipt of an installed keg and its repair.
      [InstalledFacts] has the facts about the second.
    - [PolicyV2]: policy/v2, [policy.go], with the embedded document.
    - [ResolutionV2]: internal/resolution, [v2.go]: [ValidateV2] and everything
      it calls. [ResolutionV2Facts] has its declarative counterpart and the
      composition with the fetcher.
    - [ResolutionV2Text]: the canonical form, strict decoding and digest of
      those records. [ResolverV2]: internal/resolver, [v2.go], which makes them
      from catalog results and from records of the first version, and
      [project_v2.go], the view by rack name.
    - [Release], [Config]: internal/release and internal/config: component
      manifests, generated bindings, and how a frontend merges what was compiled
      into it with the arguments of an invocation.
    - [BottleExpectation]: [types.go] of internal/bottle, what a record of the
      second version says about a bottle, composed with its verification.
    - [CatalogFields]: the field validators of internal/catalog, [validate.go]:
      names, digests, media types, paths, URLs, timestamps.
    - [TapPolicy]: policy/v2, [tap.go] and [tap_prebuilt.go], the embedded policy
      of third-party taps.
    - [CatalogRequest]: the closure request of internal/catalog, its validator,
      canonical form and identity.
    - [CatalogTap]: one tap's catalog document, its validator and canonical form.
    - [CatalogClosure]: the closure documents of internal/catalog, their
      validator and [compare.go].
    - [CatalogArtifact]: references to bottle and prebuilt artifacts, and what
      binds an artifact to its Formula.
    - [CatalogSet]: the signed set of tap catalogs, its validity period, its
      binding to a request and the decoding of a referenced catalog.
    - [Jws]: internal/homebrew/metadata, [jws.go] and [keys.go], the verification
      of signed documents. RSA, SHA-512, PEM and X.509 are the class
      [SignatureLib].
    - [CatalogKeys], [CatalogPayload], [CatalogAuth], [CatalogClient]:
      internal/catalogkeys, the canonical payload of internal/catalog,
      internal/catalogauth and internal/catalogclient: the pinned key policy,
      signing and verifying a catalog set, and the client's protocol in a world
      of HTTP exchanges, sleeps and a clock that may answer anything.
    - [CatalogResolver]: internal/catalogresolver, [resolver.go]: the authority
      over Homebrew's and the taps' catalogs, renames between them, and the
      closure the catalog service signs. Homebrew's catalog is the class
      [CoreCatalog], which [Metadata] instantiates.
    - [CatalogStore], [CatalogService]: internal/catalogservice, [store.go] and
      [service.go], with the operation documents of internal/catalog. The
      service is a state machine whose steps are the critical sections of its
      mutex; the interface [CatalogAPI] stands for the request and result
      documents, which the service passes on without looking inside.

    ** How code becomes definitions

    A Go function that returns an error returns [result E T], with one
    constructor of [E] per error the code distinguishes; a function that
    collects errors ([errors.Join]) returns the list of them. A map is a
    [gmap], a set of names a [gset], and iteration over a map is made explicit:
    it is sorted where the code sorts it, and otherwise the result is proved not
    to depend on the order. A Go string is a [string] of bytes, an [int] a [Z]
    with its range ([max_int]) where the code can meet it, a time a number of
    nanoseconds. A file system call may fail, before or after its effect: the
    outcomes are an argument ([IO]), and every theorem holds for all of them.
    Concurrency is interleaving of critical sections, with the goroutines in
    the state.

    What is not in the repository is a parameter: the Unicode tables, the
    registry's answers and hash function, [go-digest], distribution references,
    [net/url], the clock. Laws on them are the documented behaviour the code
    relies on, and each theorem that uses one has a witness with a concrete
    instance.

    ** What the theorems show

    - Resolution. [Resolver.Resolve_closure]: the record holds exactly the
      closure of the requested roots under the signed dependencies, in an order
      that installs dependencies first, every minimum satisfied.
      [Resolve_terminates], [metadata_no_cycle] and [oci_Resolve_accepts]: it
      ends, never for lack of fuel or because of a cycle, and its own validation
      can only object to the caller's options. [validateRuntimeCompatibility_iff]
      is the runtime baseline.
    - Records. [Resolution.Validate_iff] relates the validator to a declarative
      definition of a good record; [Canonical_order_free] and [Canonical_stable]
      make the canonical form canonical; [ValidateForMaterialization_pinned]
      says what a record must pin before it is used offline.
    - Bottles. [OciResolve.Resolve_verified]: the chain from the index to the
      layer was checked against the authenticated checksum; [Resolve_node_wf]:
      its node fits the record; the remaining theorems cover the parsers of
      annotations and paths.
    - Records of the second version. [ResolutionV2Facts.ValidateV2_iff] is the
      declarative counterpart of [ValidateV2]; [ValidateV2_transports] says what
      binds a bottle to its transport and provenance. Two compositions follow:
      [fetched_bottle], what the fetcher wrote for a transport of the record, and
      [BottleExpectation.VerifyNodeV2_bound], what the verifier accepted for one
      of its nodes. [ResolverV2.RecordV2FromCatalog_faithful] says what a record
      keeps of the result that was verified, [ProjectV2ForRuntime_closure] and
      [core_upgrade_roundtrip] that the view by rack is the same graph, and
      [ResolutionV2Text.recordV2_roundtrip] that a text stands for one record, but
      for the runtime profile, which the text does not have.
    - Signatures. [Jws.VerifyJWS_authentic] and
      [CatalogAuth.VerifyAccepted_authentic] say what a verified document
      implies, [Sign_VerifyAccepted] that the two sides agree, and
      [CatalogKeys.key_policy_iff] which key policies are accepted.
      [CatalogClient.Resolve_trusted] composes them: what a client returns was
      signed by an accepted key for its request, whatever the network did;
      [Resolve_total] and [poll_delay_bounds] say that it ends and how it waits.
    - Releases. [Release.BindingsFor_components]: a valid manifest binds
      its own components, which a record accepts under the conditions it names. [Config.FromBuildOpts_release_bound] and
      [SupportsNonCoreTaps_compiled]: an invocation cannot change them;
      [generated_bindings_complete]: what the release generator produces is a
      complete set of bindings. [manifest_roundtrip] and
      [SelectDalecFrontend_pinned] complete the component.
    - Fetching. [Fetcher.Fetch_confined] and [DialContext_public] confine the
      network, [isPublicIP_iff] says to what; [Fetch_verified] and
      [FetchToFiles_atomic] say what is on disk afterwards.
    - Bottle archives. [BottleFacts.Verify_authentic] and [Verify_contained]: what
      was verified is the authenticated bottle and unpacks inside its keg;
      [validateCollisionsAndHardlinks_safe] relates link resolution to the walk
      an operating system does, [validateCollisionsAndHardlinks_total] shows that
      it ends; [placeholderDetector_exact], [countingTailReader_exact] and
      [boundedGzipStream_replays] relate the streaming code to the whole stream.
      [compareReceiptDependencies_iff], [resolvedInstalledDependencies_exact],
      [VerifyInstalledReceipt_sound] and
      [NormalizeInstalledReceiptDependencies_safe] are about receipts.
    - Documents of the catalog service. The [_iff] theorems of [CatalogTap],
      [CatalogClosure] and [CatalogSet] relate the validators to declarative
      predicates; [CanonicalRequest_identifies] and [CompareClosure_iff] say what
      canonical bytes identify; [CatalogResolver.compute_closure_correct] and
      [Resolve_prebuilt_pinned] are about the closure the service signs.
      [JsonUnique.unique_json_iff] is the strictness of the JSON documents.
    - Catalog. [Metadata.ParseCatalog_wf] is the invariant of a loaded catalog,
      [Lookup_sound] and [Lookup_not_found_iff] its lookup,
      [validateDependencyCycles_iff] and [resolveMigration_terminates] its graph
      algorithms.
    - Names. Round trips and injectivity of identities ([FormulaId],
      [OciReference]), versions and their comparison ([Version]);
      [naming_agrees] relates the two packages that compute the same names.
    - Catalog service. [CatalogService.service_invariant] holds in every
      reachable state, across faults, shutdown and restart;
      [generationDone_progress] excludes a deadlock on the slot channel;
      [pending_answer_scheduled] and [New_resumes] say that accepted work is
      scheduled, with the one exception the first names, and survives a restart; [evictOperations_exact] and
      [gcCatalogs_exact] say what is deleted; [sequence_history_monotone] covers
      the sequence numbers of published catalogs.

    Some theorems record behaviour that looks unintended:
    [Version.Compare_not_transitive], [OciResolve.validateChangedFiles_parent],
    [CatalogClient.retry_after_wraps], [Config.ConfigExample.hosted_policy_accepted]
    [CatalogService.ServiceExample.reposted_waits_for_poll] and
    [CatalogService.shutdown_can_block_restart]; the validators of prebuilt
    paths in [CatalogFields] and [ResolutionV2] accept the path [..] itself.

    ** Fuel

    Recursion that is not structural carries fuel, and each bound is proved to
    be enough: [resolveMigration] takes one more than the number of migrations;
    the depth-first search the number of nodes ([dfs_fuel]); the marking walk
    the size of the nodes and names it can meet ([walk_all_fuel]); [Resolve] the
    number of roots plus, for every catalog Formula, one more than the largest
    number of dependencies ([Resolve_terminates]); [resolveMapping] of the
    catalog resolver two more than the mappings, its work list one more than
    [MaxClosureNodes]; the JSON walk twice the tokens and two; the fetch loop one
    round more than [MaxRedirects]; following links in an archive the components
    of the target and, for each of [MaxDepth] links, the longest link text
    ([validateCollisionsAndHardlinks_total]); the graphs of installed receipts
    two more than the nodes. The Go code has no such bounds; the theorems show
    that none is needed.

    ** What is not modelled

    JSON text (documents are modelled from their tokens or decoded values on,
    and printing is an interface with a round-trip law), the arithmetic of
    signatures and hashes, TLS, HTTP transport, context cancellation and progress
    reports. What gzip, archive/tar, the network, the temporary files and the
    hash functions return is quantified over. An error is a code or a text
    without the values it prints. Left out are the packages that mostly drive
    file systems, subprocesses and BuildKit (materializer, runtimefs, prebuilt,
    the catalog generators and extractor, the artifact store, frontend, test
    runner, commands), the runtime checks, the fetching and caching of Homebrew's
    metadata, the referrers of an OCI registry, and the packages spec and policy.
    Natural continuations, in this order: spec and policy, the path policies of
    runtimefs, the raw documents of the catalog extractor. *)

From stdpp Require Export base tactics option list gmap strings sorting.
From Stdlib Require Export ZArith.
From Stdlib Require Ascii.
Export Stdlib.Strings.Ascii (ascii(..), N_of_ascii, ascii_of_N).
Export (notations) Stdlib.Strings.Ascii.
From stdpp Require Import options.

(** ** Fallible computations

    Go functions that return [(T, error)] are modelled as [result E T]: [Err]
    carries a value of the component's own error type, one constructor per
    [return ..., err] of the source. *)

Inductive result (E A : Type) : Type :=
| Ok (a : A)
| Err (e : E).
Arguments Ok {E A} a.
Arguments Err {E A} e.

#[export] Instance result_ret {E} : MRet (result E) := λ A a, Ok a.
#[export] Instance result_bind {E} : MBind (result E) := λ A B f m,
  match m with Ok a => f a | Err e => Err e end.
#[export] Instance result_fmap {E} : FMap (result E) := λ A B f m,
  match m with Ok a => Ok (f a) | Err e => Err e end.

#[export] Instance result_eq_dec {E A} `{EqDecision E, EqDecision A} : EqDecision (result E A).
Proof. solve_decision. Defined.

(** [check b e] is the Go statement [if b { return e }]. *)
Definition check {E} (b : bool) (e : E) : result E unit := if b then Err e else Ok tt.

(** [is_ok m] is the Go test [err == nil]. *)
Definition is_ok {E A} (m : result E A) : bool := match m with Ok _ => true | Err _ => false end.

(** [map_err f m] is [fmt.Errorf("...: %w", err)]: the error wrapped. *)
Definition map_err {E F A} (f : E → F) (m : result E A) : result F A :=
  match m with Ok a => Ok a | Err e => Err (f e) end.

(** [mapM_res f l] runs [f] over [l] in order, stopping at the first error:
    the Go loop [for _, x := range l { y, err := f(x); if err != nil { return err } ... }]. *)
Fixpoint mapM_res {E A B} (f : A → result E B) (l : list A) : result E (list B) :=
  match l with
  | [] => Ok []
  | x :: l => y ← f x; ys ← mapM_res f l; Ok (y :: ys)
  end.

(** [foldM_res f a l] threads an accumulator through the same loop. *)
Fixpoint foldM_res {E A S} (f : S → A → result E S) (s : S) (l : list A) : result E S :=
  match l with
  | [] => Ok s
  | x :: l => s' ← f s x; foldM_res f s' l
  end.

(** ** Sorting

    [slices.Sort] and [slices.SortFunc] with a comparison of a string key. The
    source's sort is not stable; the lemmas below that name the result of a
    sort ask for distinct keys, where every sorting routine gives the same
    list. *)

Definition key_le {A} (key : A → string) : relation A := λ x y, String.le (key x) (key y).

#[export] Instance key_le_dec {A} (key : A → string) : RelDecision (key_le key).
Proof. intros x y. unfold key_le. apply _. Defined.

Definition sort_by {A} (key : A → string) (l : list A) : list A := merge_sort (key_le key) l.

Definition slices_Sort (l : list string) : list string := merge_sort String.le l.

Arguments sort_by : simpl never.
Arguments slices_Sort : simpl never.

(** [uniqueFirst seen l] keeps the first occurrence of every string, in order. *)
Fixpoint uniqueFirst (seen : gset string) (l : list string) : list string :=
  match l with
  | [] => []
  | x :: l => if decide (x ∈ seen) then uniqueFirst seen l else x :: uniqueFirst ({[x]} ∪ seen) l
  end.

(** ** Tactics *)

(** [res_inv H] takes apart a hypothesis that a chain of binds and checks ended
    in [Ok]: one equation per call that succeeded. *)
Ltac res_inv_step H :=
  match type of H with
  | Err _ = Ok _ => discriminate H
  | Ok _ = Err _ => discriminate H
  | Ok _ = Ok _ => injection H as H; try subst
  | mbind _ ?m = Ok _ =>
      let E := fresh "E" in destruct m eqn:E; cbn [mbind result_bind] in H; [|discriminate H]
  | (if ?b then Err _ else _) = Ok _ =>
      let E := fresh "E" in destruct b eqn:E; [discriminate H|]
  | (if ?b then _ else Err _) = Ok _ =>
      let E := fresh "E" in destruct b eqn:E; [|discriminate H]
  | check ?b _ = Ok _ =>
      let E := fresh "E" in unfold check in H; destruct b eqn:E; [discriminate H|clear H]
  | map_err _ ?m = Ok _ =>
      let E := fresh "E" in unfold map_err in H; destruct m eqn:E; [|discriminate H]
  end.
Ltac res_inv H :=
  repeat res_inv_step H;
  repeat match goal with
  | E : check _ _ = Ok _ |- _ => res_inv_step E
  | E : map_err _ _ = Ok _ |- _ => res_inv_step E
  | E : mbind _ _ = Ok _ |- _ => res_inv_step E
  | E : Ok _ = Ok _ |- _ => res_inv_step E
  end.

(** [case_bool] turns boolean tests of the code into propositions. *)
Ltac case_bool :=
  repeat match goal with
  | H : (_ && _) = true |- _ => apply andb_prop in H as [? ?]
  | H : (_ || _) = false |- _ => apply orb_false_elim in H as [? ?]
  | H : negb _ = true |- _ => apply negb_true_iff in H
  | H : negb _ = false |- _ => apply negb_false_iff in H
  | H : bool_decide _ = true |- _ => apply bool_decide_eq_true in H
  | H : bool_decide _ = false |- _ => apply bool_decide_eq_false in H
  | H : (_ =? _)%Z = true |- _ => apply Z.eqb_eq in H
  | H : (_ =? _)%Z = false |- _ => apply Z.eqb_neq in H
  | H : (_ <? _)%Z = true |- _ => apply Z.ltb_lt in H
  | H : (_ <? _)%Z = false |- _ => apply Z.ltb_ge in H
  | H : (_ <=? _)%Z = true |- _ => apply Z.leb_le in H
  | H : (_ <=? _)%Z = false |- _ => apply Z.leb_gt in H
  | H : (_ =? _)%nat = true |- _ => apply Nat.eqb_eq in H
  | H : (_ =? _)%nat = false |- _ => apply Nat.eqb_neq in H
  | H : (_ <? _)%nat = true |- _ => apply Nat.ltb_lt in H
  | H : (_ <? _)%nat = false |- _ => apply Nat.ltb_ge in H
  | H : (_ <=? _)%nat = true |- _ => apply Nat.leb_le in H
  | H : (_ <=? _)%nat = false |- _ => apply Nat.leb_gt in H
  end.

Create HintDb dalec.
Create Rewrite HintDb dalec.

(** ** Generic lemmas *)

Lemma bind_ok {E A B} (m : result E A) (f : A → result E B) b :
  m ≫= f = Ok b ↔ ∃ a, m = Ok a ∧ f a = Ok b.
Proof. destruct m; cbn; naive_solver. Qed.

Lemma check_ok {E} b (e : E) u : check b e = Ok u ↔ b = false.
Proof. destruct b, u; cbn; naive_solver. Qed.

Lemma map_err_ok {E F A} (f : E → F) (m : result E A) a : map_err f m = Ok a ↔ m = Ok a.
Proof. destruct m; cbn; naive_solver. Qed.

Lemma mapM_res_ok {E A B} (f : A → result E B) l ys :
  mapM_res f l = Ok ys ↔ Forall2 (λ x y, f x = Ok y) l ys.
Proof.
  revert ys. induction l as [|x l IH]; intros ys; cbn.
  - split; [intros [= <-]; constructor | intros H; by inversion H].
  - rewrite bind_ok. split.
    + intros (y & Hy & (ys' & Hys & [= <-])%bind_ok). constructor; [done|]. by apply IH.
    + intros H; inversion H as [|? y ? ys' Hy Hys]; subst. exists y. split; [done|].
      apply bind_ok. exists ys'. split; [by apply IH | done].
Qed.

Lemma mapM_res_elem {E A B} (f : A → result E B) l ys x :
  mapM_res f l = Ok ys → x ∈ l → ∃ y, y ∈ ys ∧ f x = Ok y.
Proof.
  intros Hf%mapM_res_ok Hx. apply list_elem_of_lookup in Hx as [i Hi].
  destruct (Forall2_lookup_l _ _ _ _ _ Hf Hi) as (y & Hy & ?). exists y. split; [|done].
  by eapply list_elem_of_lookup_2.
Qed.

Lemma foldM_res_app {E A S} (f : S → A → result E S) s l1 l2 :
  foldM_res f s (l1 ++ l2) = s' ← foldM_res f s l1; foldM_res f s' l2.
Proof. revert s. induction l1 as [|x l1 IH]; intros s; cbn; [done|]. destruct (f s x); cbn; auto. Qed.

(** The loop rule: an invariant on the accumulator and the part of the list
    already visited. *)
Lemma foldM_res_inv {E A S} (I : list A → S → Prop) (f : S → A → result E S) s l s' :
  I [] s →
  (∀ done x s1 s2, I done s1 → x ∈ l → f s1 x = Ok s2 → I (done ++ [x]) s2) →
  foldM_res f s l = Ok s' → I l s'.
Proof.
  intros H0 Hstep Hf.
  assert (∀ l2 l1 s1, l = l1 ++ l2 → I l1 s1 → foldM_res f s1 l2 = Ok s' → I l s') as Haux.
  { induction l2 as [|x l2 IH]; intros l1 s1 Hl HI Hr; cbn in Hr.
    - res_inv Hr. by rewrite app_nil_r in *.
    - res_inv Hr. apply (IH (l1 ++ [x]) a); [by rewrite <-app_assoc| |done].
      eapply Hstep; [done | | done]. subst l. set_solver. }
  by apply (Haux l [] s).
Qed.

(** A loop that fails does so at one element, after a prefix that succeeded. *)
Lemma foldM_res_err {E A S} (f : S → A → result E S) s l e :
  foldM_res f s l = Err e →
  ∃ l1 x l2 s1, l = l1 ++ x :: l2 ∧ foldM_res f s l1 = Ok s1 ∧ f s1 x = Err e.
Proof.
  revert s. induction l as [|x l IH]; intros s; cbn; [done|].
  destruct (f s x) as [s'|e'] eqn:E'; cbn; [|intros [= ->]; by exists [], x, l, s].
  intros (l1 & y & l2 & s1 & -> & H1 & H2)%IH. exists (x :: l1), y, l2, s1. cbn. by rewrite E'.
Qed.

(** ** Errors a computation does not raise *)

Definition never {E X} (P : E → Prop) (m : result E X) : Prop := ∀ e, P e → m ≠ Err e.

Section never.
Context {E : Type} (P : E → Prop).

Lemma never_bind {X Y} (m : result E X) (k : X → result E Y) : never P m → (∀ a, never P (k a)) → never P (m ≫= k).
Proof. destruct m as [a|e]; cbn; intros H1 H2 e' He'; [by apply H2|]. intros [= ->]. by apply (H1 e' He'). Qed.

Lemma never_err_inv {X} (m : result E X) e : never P m → P e → m = Err e → False.
Proof. intros Hm He. by apply Hm. Qed.

Lemma never_ok {X} (a : X) : never P (Ok a).
Proof. done. Qed.

Lemma never_err {X} e : ¬ P e → never P (Err e : result E X).
Proof. intros He e' He'. congruence. Qed.

Lemma never_map_err {F X} (f : F → E) (m : result F X) : (∀ e, ¬ P (f e)) → never P (map_err f m).
Proof. destruct m; cbn; intros Hf e' He'; [done|]. intros [= <-]. by eapply Hf. Qed.

Lemma never_map_err_from {F X} (f : F → E) (Q : F → Prop) (m : result F X) :
  (∀ e, P (f e) → Q e) → never Q m → never P (map_err f m).
Proof. destruct m; cbn; intros Hf Hm e' He'; [done|]. intros [= <-]. by apply (Hm _ (Hf _ He')). Qed.

Lemma never_check b (e : E) : ¬ P e → never P (check b e).
Proof. destruct b; cbn; intros He e' He'; congruence. Qed.

Lemma never_foldM {A S} (f : S → A → result E S) s l : (∀ s a, never P (f s a)) → never P (foldM_res f s l).
Proof. intros Hf e He (l1 & x & l2 & s1 & _ & _ & Hx)%foldM_res_err. by eapply Hf. Qed.

End never.

(** [never_tac] closes the goal that a straight-line computation raises none of
    the errors, up to the lemmas on the computations it calls. *)
Ltac never_tac :=
  repeat match goal with
  | |- never _ (Ok _) => apply never_ok
  | |- never _ (Err _) => apply never_err; cbn; tauto
  | |- never _ (mbind _ _) => apply never_bind; [|intros ?]
  | |- never _ (map_err _ _) => apply never_map_err; cbn; tauto
  | |- never _ (check _ _) => apply never_check; cbn; tauto
  | |- never _ (foldM_res _ _ _) => apply never_foldM; intros ? ?
  | |- never _ (match ?x with _ => _ end) => destruct x
  end.

#[export] Instance key_le_trans {A} (key : A → string) : Transitive (key_le key).
Proof. intros x y z. unfold key_le. apply transitivity. Qed.

#[export] Instance key_le_total {A} (key : A → string) : Total (key_le key).
Proof. intros x y. unfold key_le. apply total, _. Qed.

Lemma sort_by_Permutation {A} (key : A → string) l : sort_by key l ≡ₚ l.
Proof. apply merge_sort_Permutation. Qed.

Lemma sort_by_StronglySorted {A} (key : A → string) l : StronglySorted (key_le key) (sort_by key l).
Proof. apply StronglySorted_merge_sort; apply _. Qed.

Lemma slices_Sort_Permutation l : slices_Sort l ≡ₚ l.
Proof. apply merge_sort_Permutation. Qed.

Lemma elem_of_sort_by {A} (key : A → string) l x : x ∈ sort_by key l ↔ x ∈ l.
Proof. by rewrite sort_by_Permutation. Qed.

Lemma elem_of_slices_Sort l x : x ∈ slices_Sort l ↔ x ∈ l.
Proof. by rewrite slices_Sort_Permutation. Qed.

Lemma sort_by_fmap_Permutation {A} (key : A → string) l : key <$> sort_by key l ≡ₚ key <$> l.
Proof. by rewrite sort_by_Permutation. Qed.

Lemma NoDup_fmap_inj {A} (key : A → string) l x y :
  NoDup (key <$> l) → x ∈ l → y ∈ l → key x = key y → x = y.
Proof.
  intros Hnd (i & Hi)%list_elem_of_lookup (j & Hj)%list_elem_of_lookup Hk.
  assert (i = j) as ->.
  { eapply NoDup_lookup; [exact Hnd| |]; rewrite list_lookup_fmap; [by rewrite Hi|].
    rewrite Hj. cbn. by rewrite Hk. }
  congruence.
Qed.

(** With distinct keys the sorted list is unique: whatever the sorting
    algorithm, two permutations of the same elements sort to the same list. *)
Lemma sorted_by_unique {A} (key : A → string) l1 l2 :
  NoDup (key <$> l1) → l1 ≡ₚ l2 →
  StronglySorted (key_le key) l1 → StronglySorted (key_le key) l2 → l1 = l2.
Proof.
  intros Hnd Hp H1 H2. apply (StronglySorted_unique_strong (key_le key)); try done.
  intros x y Hx Hy Hxy Hyx. apply (NoDup_fmap_inj key l1); [done..|by rewrite Hp|].
  by apply (anti_symm String.le).
Qed.

Lemma sort_by_unique {A} (key : A → string) l1 l2 :
  NoDup (key <$> l1) → l1 ≡ₚ l2 → sort_by key l1 = sort_by key l2.
Proof.
  intros Hnd Hp. apply (sorted_by_unique key); try apply sort_by_StronglySorted.
  - by rewrite sort_by_Permutation.
  - by rewrite !sort_by_Permutation.
Qed.

Lemma slices_Sort_sorted l : StronglySorted String.le (slices_Sort l).
Proof. apply StronglySorted_merge_sort; apply _. Qed.

Lemma slices_Sort_unique l1 l2 : l1 ≡ₚ l2 → slices_Sort l1 = slices_Sort l2.
Proof.
  intros Hp. apply (StronglySorted_unique String.le); try apply slices_Sort_sorted.
  by rewrite !slices_Sort_Permutation.
Qed.

#[export] Instance slices_Sort_proper : Proper (Permutation ==> eq) slices_Sort.
Proof. intros l1 l2. apply slices_Sort_unique. Qed.

Lemma slices_Sort_id l : StronglySorted String.le l → slices_Sort l = l.
Proof.
  intros. apply (StronglySorted_unique String.le); [apply slices_Sort_sorted|done|].
  apply slices_Sort_Permutation.
Qed.

Lemma sort_by_id {A} (key : A → string) l :
  NoDup (key <$> l) → StronglySorted (key_le key) l → sort_by key l = l.
Proof.
  intros Hnd Hs. symmetry. apply (sorted_by_unique key); try done.
  - by rewrite sort_by_Permutation.
  - apply sort_by_StronglySorted.
Qed.

Lemma StronglySorted_fmap_key {A} (key : A → string) (h : A → A) l :
  (∀ x, key (h x) = key x) → StronglySorted (key_le key) l → StronglySorted (key_le key) (h <$> l).
Proof.
  intros Hh. induction 1 as [|x l Hs IH Hx]; cbn; constructor; [done|]. rewrite Forall_fmap.
  eapply Forall_impl; [exact Hx|]. intros y. unfold key_le, compose. by rewrite !Hh.
Qed.

Lemma fmap_sort_by {A} (key : A → string) (h : A → A) l :
  (∀ x, key (h x) = key x) → NoDup (key <$> l) → h <$> sort_by key l = sort_by key (h <$> l).
Proof.
  intros Hh Hnd. assert (∀ k : list A, key <$> (h <$> k) = key <$> k) as Hk.
  { intros k. rewrite <-list_fmap_compose. apply list_fmap_ext. intros i x _. apply Hh. }
  apply (sorted_by_unique key).
  - rewrite Hk. by rewrite sort_by_Permutation.
  - by rewrite !sort_by_Permutation.
  - apply StronglySorted_fmap_key; [done|]. apply sort_by_StronglySorted.
  - apply sort_by_StronglySorted.
Qed.

Lemma elem_of_uniqueFirst seen l x : x ∈ uniqueFirst seen l ↔ x ∈ l ∧ x ∉ seen.
Proof.
  revert seen. induction l as [|y l IH]; intros seen; cbn; [set_solver|].
  case_decide; [rewrite IH; set_solver|].
  rewrite elem_of_cons, IH. destruct (decide (x = y)); set_solver.
Qed.

Lemma NoDup_uniqueFirst seen l : NoDup (uniqueFirst seen l).
Proof.
  revert seen. induction l as [|y l IH]; intros seen; cbn; [constructor|].
  case_decide; [done|]. constructor; [|done]. rewrite elem_of_uniqueFirst. set_solver.
Qed.

#[export] Hint Rewrite @elem_of_sort_by elem_of_slices_Sort : dalec.

Lemma tc_mono {A} (R S : relation A) x y : (∀ a b, R a b → S a b) → tc R x y → tc S x y.
Proof.
  intros Hsub. induction 1 as [a b He|a b c He _ IH]; [by apply tc_once, Hsub|]. eapply tc_l; [by apply Hsub|done].
Qed.
