(* ===== verification/GoStrings.v ===== *)
(** * Go's strings, strconv, path and unicode/utf8

    A Go string is a sequence of bytes; it is modelled by [string], whose
    characters are the bytes 0 to 255. This file holds the functions of the Go
    standard library that the components call, and their lemmas. The Unicode
    character tables ([unicode.IsDigit], [unicode.IsLetter], [unicode.ToLower])
    are the class [UnicodeTables]: its laws fix the ASCII rows, everything
    proved holds whatever the other rows are. *)

From S2P Require Import Prelude.
From stdpp Require Import options.
Local Open Scope Z_scope.

(** ** Bytes *)

Definition byte (c : ascii) : Z := Z.of_N (N_of_ascii c).

Definition byte_in (lo hi : Z) (c : ascii) : bool := (lo <=? byte c) && (byte c <=? hi).

(** [c >= 'a' && c <= 'z'], [c >= '0' && c <= '9'] *)
Definition isLower (c : ascii) : bool := byte_in 97 122 c.
Definition isUpper (c : ascii) : bool := byte_in 65 90 c.
Definition isDigit (c : ascii) : bool := byte_in 48 57 c.
Definition isHexLower (c : ascii) : bool := isDigit c || byte_in 97 102 c.
Definition isHex (c : ascii) : bool := isHexLower c || byte_in 65 70 c.

Definition ascii_eqb (a b : ascii) : bool := bool_decide (a = b).
#[global] Arguments ascii_eqb : simpl never.

(** [for _, c := range []byte(s) { if !f(c) { ... } }] *)
Fixpoint all_bytes (f : ascii → bool) (s : string) : bool :=
  match s with
  | "" => true
  | String c s => f c && all_bytes f s
  end.

Fixpoint any_byte (f : ascii → bool) (s : string) : bool :=
  match s with
  | "" => false
  | String c s => f c || any_byte f s
  end.

(** [strings.NewReplacer] with single-byte patterns and replacements *)
Fixpoint map_bytes (f : ascii → ascii) (s : string) : string :=
  match s with
  | "" => ""
  | String c s => String (f c) (map_bytes f s)
  end.

(** ** strings *)

(** [len(s)] *)
Definition strlen (s : string) : Z := Z.of_nat (String.length s).

(** [strings.Count(s, c)] for a one-byte [c] *)
Fixpoint strings_Count (s : string) (c : ascii) : nat :=
  match s with
  | "" => 0
  | String d s => (if ascii_eqb d c then 1 else 0) + strings_Count s c
  end.

(** [strings.Contains(s, c)] for a one-byte [c] *)
Definition strings_Contains (s : string) (c : ascii) : bool := any_byte (ascii_eqb c) s.

(** [strings.Contains(s, sub)] *)
Fixpoint strings_ContainsString (s sub : string) : bool :=
  String.prefix sub s || match s with "" => false | String _ s => strings_ContainsString s sub end.

(** [strings.ContainsAny(s, chars)] for ASCII [chars] *)
Definition strings_ContainsAny (s chars : string) : bool :=
  any_byte (λ c, strings_Contains chars c) s.

(** [strings.Split(s, c)] for a one-byte [c]: one more part than separators *)
Fixpoint strings_Split (s : string) (c : ascii) : list string :=
  match s with
  | "" => [""]
  | String d s =>
      if ascii_eqb d c then "" :: strings_Split s c
      else match strings_Split s c with
           | [] => [String d ""]
           | p :: ps => String d p :: ps
           end
  end.

(** [strings.Join(parts, sep)] *)
Fixpoint strings_Join (sep : string) (parts : list string) : string :=
  match parts with
  | [] => ""
  | [p] => p
  | p :: ps => p +:+ sep +:+ strings_Join sep ps
  end.

(** [before, after, found := strings.Cut(s, c)] *)
Fixpoint strings_Cut (s : string) (c : ascii) : string * string * bool :=
  match s with
  | "" => ("", "", false)
  | String d s =>
      if ascii_eqb d c then ("", s, true)
      else let '(b, a, f) := strings_Cut s c in (String d b, a, f)
  end.

(** The parts before and after the last occurrence of a byte
    ([strings.LastIndexByte]) *)
Fixpoint cut_last (s : string) (c : ascii) : option (string * string) :=
  match s with
  | "" => None
  | String d s' =>
      match cut_last s' c with
      | Some (b, a) => Some (String d b, a)
      | None => if ascii_eqb d c then Some ("", s') else None
      end
  end.

(** [strings.HasPrefix(s, p)], [strings.TrimPrefix(s, p)], [strings.HasSuffix(s, p)] *)
Definition strings_HasPrefix (s p : string) : bool := String.prefix p s.

Fixpoint drop_bytes (n : nat) (s : string) : string :=
  match n, s with
  | S n, String _ s => drop_bytes n s
  | _, _ => s
  end.

Definition strings_TrimPrefix (s p : string) : string :=
  if strings_HasPrefix s p then drop_bytes (String.length p) s else s.

Definition strings_HasSuffix (s p : string) : bool :=
  strings_HasPrefix (String.rev s) (String.rev p).

(** [strings.TrimLeft(s, c)] for a one-byte cutset *)
Fixpoint strings_TrimLeft (s : string) (c : ascii) : string :=
  match s with
  | String d s' => if ascii_eqb d c then strings_TrimLeft s' c else s
  | "" => ""
  end.

(** [strings.Compare(a, b)] *)
Definition strings_Compare (a b : string) : Z :=
  match String.compare a b with Lt => -1 | Eq => 0 | Gt => 1 end.

(** ** strconv *)

Definition digit_char (d : Z) : ascii := ascii_of_N (Z.to_N (48 + d)).
Definition digit_value (c : ascii) : Z := byte c - 48.

Fixpoint itoa_go (fuel : nat) (z : Z) (acc : string) : string :=
  match fuel with
  | O => acc
  | S fuel =>
      let acc := String (digit_char (z mod 10)) acc in
      if z <? 10 then acc else itoa_go fuel (z / 10) acc
  end.

(** The decimal digits of a natural number: as many as its binary length is enough. *)
Definition utoa (z : Z) : string := itoa_go (S (Z.to_nat (Z.log2 z))) z "".

(** [strconv.Itoa(z)] *)
Definition strconv_Itoa (z : Z) : string := if z <? 0 then "-" +:+ utoa (- z) else utoa z.

Fixpoint digits_value_go (acc : Z) (s : string) : Z :=
  match s with
  | "" => acc
  | String c s => digits_value_go (10 * acc + digit_value c) s
  end.

(** The number a string of decimal digits denotes *)
Definition digits_value (s : string) : Z := digits_value_go 0 s.

(** The values of Go's [int] on the 64-bit platforms the program supports *)
Definition max_int : Z := 2 ^ 63 - 1.
Definition min_int : Z := - 2 ^ 63.

Inductive atoi_error := ErrSyntax | ErrRange.

#[export] Instance atoi_error_eq_dec : EqDecision atoi_error.
Proof. solve_decision. Defined.

(** [strconv.Atoi(s)]: an optional sign, at least one digit, the range of [int] *)
Definition strconv_Atoi (s : string) : result atoi_error Z :=
  let '(neg, ds) := match s with
                    | String "-" r => (true, r)
                    | String "+" r => (false, r)
                    | _ => (false, s)
                    end in
  if bool_decide (ds = "") || negb (all_bytes isDigit ds) then Err ErrSyntax
  else let v := if neg then - digits_value ds else digits_value ds in
       if (v <? min_int) || (max_int <? v) then Err ErrRange else Ok v.

(** ** unicode/utf8 *)

Definition RuneError : Z := 65533.

Definition cont (c : ascii) : bool := byte_in 128 191 c.
Definition lead2 (a : ascii) : bool := byte_in 194 223 a.
Definition lead3 (a b : ascii) : bool :=
  (byte_in 224 224 a && byte_in 160 191 b) || (byte_in 225 236 a && cont b)
  || (byte_in 237 237 a && byte_in 128 159 b) || (byte_in 238 239 a && cont b).
Definition lead4 (a b : ascii) : bool :=
  (byte_in 240 240 a && byte_in 144 191 b) || (byte_in 241 243 a && cont b)
  || (byte_in 244 244 a && byte_in 128 143 b).

(** [for _, r := range s]: the runes of a string, each with the bytes it was
    decoded from; a byte that starts no valid encoding is [RuneError], width 1. *)
Fixpoint utf8_decode (s : string) : list (Z * string) :=
  match s with
  | "" => []
  | String a s1 =>
      if byte a <? 128 then (byte a, String a "") :: utf8_decode s1
      else
        let bad := (RuneError, String a "") :: utf8_decode s1 in
        match s1 with
        | "" => bad
        | String b s2 =>
            if lead2 a && cont b
            then ((byte a - 192) * 64 + (byte b - 128), String a (String b "")) :: utf8_decode s2
            else
              match s2 with
              | "" => bad
              | String c s3 =>
                  if lead3 a b && cont c
                  then ((byte a - 224) * 4096 + (byte b - 128) * 64 + (byte c - 128),
                        String a (String b (String c ""))) :: utf8_decode s3
                  else
                    match s3 with
                    | "" => bad
                    | String d s4 =>
                        if lead4 a b && cont c && cont d
                        then ((byte a - 240) * 262144 + (byte b - 128) * 4096
                                + (byte c - 128) * 64 + (byte d - 128),
                              String a (String b (String c (String d "")))) :: utf8_decode s4
                        else bad
                    end
              end
        end
  end.

(** [utf8.ValidString(s)] *)
Definition utf8_ValidString (s : string) : bool :=
  forallb (λ '(r, b), negb ((r =? RuneError) && (strlen b =? 1))) (utf8_decode s).

Definition char_of (z : Z) : ascii := ascii_of_N (Z.to_N z).

(** [utf8.AppendRune]: the encoding of a code point *)
Definition utf8_encode (r : Z) : string :=
  if r <? 128 then String (char_of r) ""
  else if r <? 2048 then String (char_of (192 + r / 64)) (String (char_of (128 + r mod 64)) "")
  else if r <? 65536 then
    String (char_of (224 + r / 4096)) (String (char_of (128 + (r / 64) mod 64))
      (String (char_of (128 + r mod 64)) ""))
  else
    String (char_of (240 + r / 262144)) (String (char_of (128 + (r / 4096) mod 64))
      (String (char_of (128 + (r / 64) mod 64)) (String (char_of (128 + r mod 64)) ""))).

(** [unicode.IsSpace]: Unicode's White_Space property *)
Definition unicode_IsSpace (r : Z) : bool :=
  ((9 <=? r) && (r <=? 13)) || (r =? 32) || (r =? 133) || (r =? 160) || (r =? 5760)
  || ((8192 <=? r) && (r <=? 8202)) || (r =? 8232) || (r =? 8233) || (r =? 8239)
  || (r =? 8287) || (r =? 12288).

Fixpoint drop_spaces (l : list (Z * string)) : list (Z * string) :=
  match l with
  | [] => []
  | x :: l' => if unicode_IsSpace x.1 then drop_spaces l' else l
  end.

(** [strings.TrimSpace(s)] *)
Definition strings_TrimSpace (s : string) : string :=
  foldr (λ x acc, x.2 +:+ acc) "" (reverse (drop_spaces (reverse (drop_spaces (utf8_decode s))))).

(** [hex.DecodeString] succeeds: an even number of hexadecimal digits *)
Definition hex_decodable (s : string) : bool := Nat.even (String.length s) && all_bytes isHex s.

(** ** slices.SortFunc with a comparison function

    [cmp_on f c] compares a field; [cmp_then c1 c2] is the source's
    [if c := c1(a, b); c != 0 { return c }; return c2(a, b)]. *)

Definition cmp_on {A B} (f : A → B) (cmp : B → B → Z) (a b : A) : Z := cmp (f a) (f b).

Definition cmp_then {A} (c1 c2 : A → A → Z) (a b : A) : Z :=
  if negb (c1 a b =? 0) then c1 a b else c2 a b.

(** [false] before [true] *)
Definition bool_Compare (a b : bool) : Z := if Bool.eqb a b then 0 else if negb a then -1 else 1.

Definition cmp_le {A} (cmp : A → A → Z) : relation A := λ a b, cmp a b <= 0.

#[export] Instance cmp_le_dec {A} (cmp : A → A → Z) : RelDecision (cmp_le cmp).
Proof. intros a b. unfold cmp_le. apply _. Defined.

Definition slices_SortFunc {A} (cmp : A → A → Z) (l : list A) : list A := merge_sort (cmp_le cmp) l.
Arguments slices_SortFunc : simpl never.

(** ** The Unicode tables *)

Class UnicodeTables := {
  unicode_IsDigit : Z → bool;
  unicode_IsLetter : Z → bool;
  unicode_ToLower : Z → Z;
  unicode_Fold : Z → Z;
  IsDigit_ascii c : byte c < 128 → unicode_IsDigit (byte c) = isDigit c;
  IsLetter_ascii c : byte c < 128 → unicode_IsLetter (byte c) = isLower c || isUpper c;
  ToLower_ascii c : byte c < 128 →
    unicode_ToLower (byte c) = if isUpper c then byte c + 32 else byte c;
  Fold_ascii c : byte c < 128 →
    unicode_Fold (byte c) = if isUpper c then byte c + 32 else byte c;
}.

(** The tables restricted to their ASCII rows: the instance the concrete
    evaluations use. *)
Definition ascii_tables : UnicodeTables.
Proof.
  refine {|
    unicode_IsDigit r := (48 <=? r) && (r <=? 57);
    unicode_IsLetter r := ((97 <=? r) && (r <=? 122)) || ((65 <=? r) && (r <=? 90));
    unicode_ToLower r := if (65 <=? r) && (r <=? 90) then r + 32 else r;
    unicode_Fold r := if (65 <=? r) && (r <=? 90) then r + 32 else r;
  |}; done.
Defined.

(** [strings.ToLower(s)]: rune by rune, an undecodable byte becoming [RuneError] *)
Definition strings_ToLower `{!UnicodeTables} (s : string) : string :=
  foldr (λ x acc, utf8_encode (unicode_ToLower x.1) +:+ acc) "" (utf8_decode s).

(** [strings.EqualFold(s, t)]: the runes agree up to simple case folding
    ([unicode_Fold] picks one rune of each folding class) *)
Definition strings_EqualFold `{!UnicodeTables} (s t : string) : bool :=
  bool_decide ((unicode_Fold ∘ fst) <$> utf8_decode s = (unicode_Fold ∘ fst) <$> utf8_decode t).

(** [strings.TrimSuffix(s, p)] *)
Definition strings_TrimSuffix (s p : string) : string :=
  if strings_HasSuffix s p then String.substring 0 (String.length s - String.length p) s else s.

(** ** path *)

Definition path_IsAbs (p : string) : bool := strings_HasPrefix p "/".

Fixpoint strip_trailing_slashes (s : string) : string :=
  match s with
  | "" => ""
  | String c s =>
      match strip_trailing_slashes s with
      | "" => if ascii_eqb c "/" then "" else String c ""
      | r => String c r
      end
  end.

(** [path.Base(p)] *)
Definition path_Base (p : string) : string :=
  if bool_decide (p = "") then "."
  else match strip_trailing_slashes p with
       | "" => "/"
       | r => List.last (strings_Split r "/") ""
       end.

(** The component stack of [path.Clean], innermost first *)
Definition clean_step (rooted : bool) (out : list string) (part : string) : list string :=
  if bool_decide (part = "") || bool_decide (part = ".") then out
  else if bool_decide (part = "..") then
    match out with
    | [] => if rooted then [] else [".."]
    | x :: out' => if bool_decide (x = "..") then ".." :: out else out'
    end
  else part :: out.

(** [path.Clean(p)] *)
Definition path_Clean (p : string) : string :=
  let rooted := strings_HasPrefix p "/" in
  let out := reverse (foldl (clean_step rooted) [] (strings_Split p "/")) in
  if rooted then "/" +:+ strings_Join "/" out
  else match out with [] => "." | _ => strings_Join "/" out end.

(** ** Lemmas: bytes and concatenation *)

Lemma ascii_eqb_eq a b : ascii_eqb a b = true ↔ a = b.
Proof. unfold ascii_eqb. by rewrite bool_decide_eq_true. Qed.

Lemma ascii_eqb_neq a b : ascii_eqb a b = false ↔ a ≠ b.
Proof. unfold ascii_eqb. by rewrite bool_decide_eq_false. Qed.

Lemma ascii_eqb_refl a : ascii_eqb a a = true.
Proof. by apply ascii_eqb_eq. Qed.

Lemma byte_range c : 0 <= byte c < 256.
Proof. unfold byte. pose proof (Ascii.N_ascii_bounded c). lia. Qed.

Lemma byte_inj a b : byte a = byte b → a = b.
Proof.
  unfold byte. intros H%N2Z.inj. by rewrite <-(Ascii.ascii_N_embedding a), H, Ascii.ascii_N_embedding.
Qed.

Lemma byte_char_of z : 0 <= z < 256 → byte (char_of z) = z.
Proof. intros. unfold byte, char_of. rewrite Ascii.N_ascii_embedding; lia. Qed.

Lemma byte_in_spec lo hi c : byte_in lo hi c = true ↔ lo <= byte c <= hi.
Proof. unfold byte_in. rewrite andb_true_iff, !Z.leb_le. done. Qed.

Lemma app_nil_l_str s : "" +:+ s = s.
Proof. done. Qed.

Lemma app_cons_str c a b : String c a +:+ b = String c (a +:+ b).
Proof. done. Qed.

Lemma app_nil_r_str s : s +:+ "" = s.
Proof. induction s as [|c s IH]; [done|]. by rewrite app_cons_str, IH. Qed.

Lemma app_assoc_str a b c : (a +:+ b) +:+ c = a +:+ (b +:+ c).
Proof. induction a as [|d a IH]; [done|]. by rewrite !app_cons_str, IH. Qed.

Lemma length_app_str a b : String.length (a +:+ b) = (String.length a + String.length b)%nat.
Proof. induction a as [|d a IH]; [done|]. rewrite app_cons_str. cbn. by rewrite IH. Qed.

Lemma strlen_app a b : strlen (a +:+ b) = strlen a + strlen b.
Proof. unfold strlen. rewrite length_app_str. lia. Qed.

Lemma strlen_nil : strlen "" = 0.
Proof. done. Qed.

Lemma strlen_cons c s : strlen (String c s) = Z.succ (strlen s).
Proof. unfold strlen. cbn [String.length]. lia. Qed.

Lemma strlen_nonneg s : 0 <= strlen s.
Proof. unfold strlen. lia. Qed.

Lemma all_bytes_app f a b : all_bytes f (a +:+ b) = all_bytes f a && all_bytes f b.
Proof. induction a as [|d a IH]; [done|]. rewrite app_cons_str. cbn. by rewrite IH, andb_assoc. Qed.

Lemma any_byte_app f a b : any_byte f (a +:+ b) = any_byte f a || any_byte f b.
Proof. induction a as [|d a IH]; [done|]. rewrite app_cons_str. cbn. by rewrite IH, orb_assoc. Qed.

Lemma all_bytes_impl (f g : ascii → bool) s :
  (∀ c, f c = true → g c = true) → all_bytes f s = true → all_bytes g s = true.
Proof.
  intros Hfg. induction s as [|c s IH]; cbn; [done|]. intros [H1 H2]%andb_prop.
  by rewrite (Hfg _ H1), (IH H2).
Qed.

Lemma any_byte_all f s : any_byte f s = negb (all_bytes (λ c, negb (f c)) s).
Proof. induction s as [|c s IH]; cbn; [done|]. rewrite IH. by destruct (f c). Qed.

Lemma map_bytes_app f a b : map_bytes f (a +:+ b) = map_bytes f a +:+ map_bytes f b.
Proof. induction a as [|d a IH]; [done|]. rewrite !app_cons_str. cbn. by rewrite IH, app_cons_str. Qed.

(** ** Lemmas: Count, Contains, Split, Join *)

Lemma Count_app a b c : strings_Count (a +:+ b) c = (strings_Count a c + strings_Count b c)%nat.
Proof. induction a as [|d a IH]; [done|]. rewrite app_cons_str. cbn. rewrite IH. lia. Qed.

Lemma Count_cons_eq s c : strings_Count (String c s) c = S (strings_Count s c).
Proof. cbn. by rewrite ascii_eqb_refl. Qed.

Lemma Contains_false_Count s c : strings_Contains s c = false ↔ strings_Count s c = 0%nat.
Proof.
  unfold strings_Contains. induction s as [|d s IH]; cbn; [done|].
  destruct (ascii_eqb c d) eqn:E.
  - apply ascii_eqb_eq in E as ->. rewrite ascii_eqb_refl. cbn. by split.
  - apply ascii_eqb_neq in E. rewrite (proj2 (ascii_eqb_neq d c)) by done. done.
Qed.

(** Bytes that all satisfy a predicate false of [c] contain no [c]. *)
Lemma all_bytes_Count0 f s c : all_bytes f s = true → f c = false → strings_Count s c = 0%nat.
Proof.
  intros Hs Hc. induction s as [|d s IH]; cbn in *; [done|]. case_bool.
  destruct (ascii_eqb d c) eqn:E; [apply ascii_eqb_eq in E; congruence|]. auto.
Qed.

Lemma Split_nonempty s c : strings_Split s c ≠ [].
Proof. destruct s as [|d s]; cbn; [done|]. destruct (ascii_eqb d c); [done|]. by destruct (strings_Split s c). Qed.

Lemma Split_length s c : length (strings_Split s c) = S (strings_Count s c).
Proof.
  induction s as [|d s IH]; cbn; [done|]. destruct (ascii_eqb d c); cbn; [lia|].
  pose proof (Split_nonempty s c). destruct (strings_Split s c); cbn in *; [done|lia].
Qed.

Lemma Split_no_sep s c : strings_Count s c = 0%nat → strings_Split s c = [s].
Proof.
  induction s as [|d s IH]; cbn; [done|]. destruct (ascii_eqb d c); [lia|]. intros H. by rewrite IH.
Qed.

Lemma Split_cons a b c :
  strings_Count a c = 0%nat → strings_Split (a +:+ String c b) c = a :: strings_Split b c.
Proof.
  induction a as [|d a IH]; rewrite ?app_cons_str, ?app_nil_l_str; cbn.
  - intros _. by rewrite ascii_eqb_refl.
  - destruct (ascii_eqb d c); [lia|]. intros H. by rewrite IH.
Qed.

Lemma Split_parts s c : Forall (λ p, strings_Count p c = 0%nat) (strings_Split s c).
Proof.
  induction s as [|d s IH]; cbn; [by repeat constructor|].
  destruct (ascii_eqb d c) eqn:E; [by constructor|].
  destruct (strings_Split s c) as [|p ps]; [repeat constructor; cbn; by rewrite E|].
  inversion IH; subst. constructor; [|done]. cbn. by rewrite E.
Qed.

Lemma Join_cons sep p ps : ps ≠ [] → strings_Join sep (p :: ps) = p +:+ sep +:+ strings_Join sep ps.
Proof. by destruct ps. Qed.

Lemma Join_Split s c : strings_Join (String c "") (strings_Split s c) = s.
Proof.
  induction s as [|d s IH]; [done|]. cbn [strings_Split].
  pose proof (Split_nonempty s c) as Hne.
  destruct (ascii_eqb d c) eqn:E.
  - apply ascii_eqb_eq in E as ->. rewrite Join_cons, IH by done. done.
  - destruct (strings_Split s c) as [|p ps]; [done|].
    destruct ps as [|q ps]; cbn in *; [by rewrite IH|]. by rewrite app_cons_str, IH.
Qed.

(** ** Lemmas: Compare *)

Lemma Compare_antisym a b : strings_Compare b a = - strings_Compare a b.
Proof. unfold strings_Compare. rewrite (String.compare_antisym b a). by destruct (String.compare a b). Qed.

Lemma string_compare_refl a : String.compare a a = Eq.
Proof. induction a as [|c a IH]; cbn; [done|]. unfold Ascii.compare. by rewrite N.compare_refl. Qed.

Lemma Compare_refl a : strings_Compare a a = 0.
Proof. unfold strings_Compare. by rewrite string_compare_refl. Qed.

Lemma Compare_eq a b : strings_Compare a b = 0 ↔ a = b.
Proof.
  split; [|intros ->; apply Compare_refl]. unfold strings_Compare.
  destruct (String.compare a b) eqn:E; [|done..]. by apply String.compare_eq_iff in E.
Qed.

Lemma Compare_cons c d a b :
  strings_Compare (String c a) (String d b)
  = if byte c <? byte d then -1 else if byte d <? byte c then 1 else strings_Compare a b.
Proof.
  unfold strings_Compare, byte. cbn. unfold Ascii.compare.
  destruct (N.compare_spec (N_of_ascii c) (N_of_ascii d)) as [E|E|E].
  - rewrite E. by rewrite Z.ltb_irrefl.
  - destruct (Z.ltb_spec (Z.of_N (N_of_ascii c)) (Z.of_N (N_of_ascii d))); [done|lia].
  - destruct (Z.ltb_spec (Z.of_N (N_of_ascii c)) (Z.of_N (N_of_ascii d))); [lia|].
    destruct (Z.ltb_spec (Z.of_N (N_of_ascii d)) (Z.of_N (N_of_ascii c))); [done|lia].
Qed.

(** ** Lemmas: Itoa and Atoi *)

Lemma digit_char_byte d : 0 <= d < 10 → byte (digit_char d) = 48 + d.
Proof. intros. unfold byte, digit_char. rewrite Ascii.N_ascii_embedding; lia. Qed.

Lemma digit_char_isDigit d : 0 <= d < 10 → isDigit (digit_char d) = true.
Proof. intros. apply byte_in_spec. rewrite digit_char_byte; lia. Qed.

Lemma digit_value_char d : 0 <= d < 10 → digit_value (digit_char d) = d.
Proof. intros. unfold digit_value. rewrite digit_char_byte; lia. Qed.

Lemma digits_value_go_app acc a b :
  digits_value_go acc (a +:+ b) = digits_value_go (digits_value_go acc a) b.
Proof.
  revert acc. induction a as [|c a IH]; intros acc; [done|]. rewrite app_cons_str. cbn. apply IH.
Qed.

Lemma digits_value_go_linear acc s :
  digits_value_go acc s = acc * 10 ^ strlen s + digits_value_go 0 s.
Proof.
  revert acc. induction s as [|c s IH]; intros acc.
  - cbn. rewrite strlen_nil. lia.
  - cbn [digits_value_go]. rewrite IH, (IH (10 * 0 + _)).
    rewrite strlen_cons, Z.pow_succ_r by apply strlen_nonneg. lia.
Qed.

Lemma itoa_go_spec fuel z acc :
  0 <= z < 2 ^ Z.of_nat fuel → (0 < fuel)%nat →
  ∃ ds, itoa_go fuel z acc = ds +:+ acc ∧ ds ≠ "" ∧ all_bytes isDigit ds = true ∧ digits_value ds = z.
Proof.
  revert z acc. induction fuel as [|fuel IH]; intros z acc Hz Hf; [lia|]. cbn [itoa_go].
  assert (0 <= z mod 10 < 10) as Hm by (apply Z.mod_pos_bound; lia).
  destruct (Z.ltb_spec z 10) as [Hlt|Hge].
  - exists (String (digit_char (z mod 10)) ""). rewrite Z.mod_small in * by lia.
    split_and!; [done..| |]; cbn; [by rewrite digit_char_isDigit|].
    unfold digits_value. cbn. rewrite digit_value_char; lia.
  - rewrite Nat2Z.inj_succ, Z.pow_succ_r in Hz by lia.
    assert (0 <= z / 10 < 2 ^ Z.of_nat fuel) as Hd.
    { split; [apply Z.div_pos; lia|]. apply Z.div_lt_upper_bound; lia. }
    assert (0 < fuel)%nat as Hf' by (destruct fuel; [cbn in Hz; lia|lia]).
    destruct (IH _ (String (digit_char (z mod 10)) acc) Hd Hf') as (ds & -> & Hne & Hall & Hv).
    exists (ds +:+ String (digit_char (z mod 10)) ""). split_and!.
    + by rewrite app_assoc_str.
    + by destruct ds.
    + rewrite all_bytes_app, Hall. cbn. by rewrite digit_char_isDigit.
    + unfold digits_value in *. rewrite digits_value_go_app, Hv. cbn [digits_value_go].
      rewrite digit_value_char by done. pose proof (Z.div_mod z 10). lia.
Qed.

Lemma utoa_spec z :
  0 <= z → utoa z ≠ "" ∧ all_bytes isDigit (utoa z) = true ∧ digits_value (utoa z) = z.
Proof.
  intros Hz. unfold utoa.
  destruct (itoa_go_spec (S (Z.to_nat (Z.log2 z))) z "") as (ds & -> & Hds); [|lia|].
  - rewrite Nat2Z.inj_succ, Z2Nat.id by apply Z.log2_nonneg.
    destruct (decide (z = 0)) as [->|]; [done|]. pose proof (Z.log2_spec z). lia.
  - by rewrite app_nil_r_str.
Qed.

Lemma utoa_inj x y : 0 <= x → 0 <= y → utoa x = utoa y → x = y.
Proof. intros Hx Hy H. destruct (utoa_spec x), (utoa_spec y); [done..|]. destruct_and!. congruence. Qed.

(** A string of digits has no sign, so [strconv.Atoi] reads its value. *)
Lemma Atoi_digits ds :
  ds ≠ "" → all_bytes isDigit ds = true → digits_value ds <= max_int →
  0 <= digits_value ds → strconv_Atoi ds = Ok (digits_value ds).
Proof.
  intros Hne Hall Hmax Hpos. unfold strconv_Atoi.
  assert (match ds with String "-" r => (true, r) | String "+" r => (false, r) | _ => (false, ds) end
          = (false, ds)) as ->.
  { destruct ds as [|c ds]; [done|]. cbn in Hall. case_bool.
    destruct c as [[] [] [] [] [] [] [] []]; try done. }
  rewrite bool_decide_eq_false_2, Hall by done. cbn.
  destruct (Z.ltb_spec (digits_value ds) min_int) as [H|_]; [unfold min_int in H; lia|].
  destruct (Z.ltb_spec max_int (digits_value ds)); [lia|done].
Qed.

Lemma Atoi_Itoa z : 0 <= z <= max_int → strconv_Atoi (strconv_Itoa z) = Ok z.
Proof.
  intros [H1 H2]. unfold strconv_Itoa. destruct (Z.ltb_spec z 0); [lia|].
  destruct (utoa_spec z) as (Hne & Hall & Hv); [done|].
  rewrite (Atoi_digits (utoa z)), Hv; [done|done|done|lia|lia].
Qed.

Lemma Itoa_digits z : 0 <= z → strconv_Itoa z ≠ "" ∧ all_bytes isDigit (strconv_Itoa z) = true.
Proof.
  intros Hz. unfold strconv_Itoa. destruct (Z.ltb_spec z 0); [lia|]. by destruct (utoa_spec z) as (?&?&?).
Qed.

Lemma Itoa_value z : 0 <= z → digits_value (strconv_Itoa z) = z.
Proof.
  intros Hz. unfold strconv_Itoa. destruct (Z.ltb_spec z 0); [lia|]. by destruct (utoa_spec z) as (?&?&?).
Qed.

(** ** Lemmas: ASCII strings *)

Definition isAscii (c : ascii) : bool := byte c <? 128.

Lemma utf8_decode_ascii s :
  all_bytes isAscii s = true →
  utf8_decode s = (λ c, (byte c, String c "")) <$> String.list_ascii_of_string s.
Proof.
  induction s as [|c s IH]; [done|]. cbn [all_bytes]. intros [Hc Hs]%andb_prop.
  cbn [utf8_decode]. unfold isAscii in Hc. rewrite Hc, IH by done. done.
Qed.

Lemma char_of_byte c : char_of (byte c) = c.
Proof. unfold char_of, byte. rewrite N2Z.id. apply Ascii.ascii_N_embedding. Qed.

Lemma utf8_encode_ascii c : isAscii c = true → utf8_encode (byte c) = String c "".
Proof. intros H. unfold utf8_encode, isAscii in *. by rewrite H, char_of_byte. Qed.

Lemma ToLower_id `{!UnicodeTables} s :
  all_bytes (λ c, isAscii c && negb (isUpper c)) s = true → strings_ToLower s = s.
Proof.
  intros Hs. unfold strings_ToLower. rewrite utf8_decode_ascii.
  2: { revert Hs. apply all_bytes_impl. intros c. by intros [? _]%andb_prop. }
  induction s as [|c s IH]; [done|]. cbn [all_bytes] in Hs. case_bool.
  cbn [String.list_ascii_of_string fmap list_fmap foldr fst].
  rewrite IH by done. unfold isAscii in *. rewrite ToLower_ascii by (apply Z.ltb_lt; done).
  destruct (isUpper c); [done|]. by rewrite utf8_encode_ascii.
Qed.

(** On ASCII strings every table agrees with the ASCII rows. *)
Lemma ToLower_ascii_tables `{U : !UnicodeTables} s :
  all_bytes isAscii s = true → strings_ToLower s = @strings_ToLower ascii_tables s.
Proof.
  intros Hs. unfold strings_ToLower. rewrite utf8_decode_ascii by done.
  induction s as [|c s IH]; [done|]. cbn [all_bytes] in Hs. case_bool.
  cbn [String.list_ascii_of_string fmap list_fmap foldr fst]. rewrite IH by done.
  unfold isAscii in *. by rewrite !ToLower_ascii by (apply Z.ltb_lt; done).
Qed.

(** ** Comparison functions that order *)

(** What [slices.SortFunc] asks of its argument *)
Class CmpOrder {A} (cmp : A → A → Z) : Prop := {
  cmp_swap a b : cmp b a = - cmp a b;
  cmp_trans a b c : cmp a b <= 0 → cmp b c <= 0 → cmp a c <= 0;
}.

(** A comparison that tells different values apart: the sorted list is unique. *)
Class CmpTotal {A} (cmp : A → A → Z) : Prop := cmp_eq a b : cmp a b = 0 → a = b.

Lemma Compare_le a b : strings_Compare a b <= 0 ↔ String.le a b.
Proof.
  unfold strings_Compare, String.le, String.leb. by destruct (String.compare a b).
Qed.

#[export] Instance Compare_order : CmpOrder strings_Compare.
Proof.
  split; [apply Compare_antisym|]. intros a b c. rewrite !Compare_le. apply transitivity.
Qed.

#[export] Instance Compare_total : CmpTotal strings_Compare.
Proof. intros a b. apply Compare_eq. Qed.

#[export] Instance bool_Compare_order : CmpOrder bool_Compare.
Proof. split; intros [] []; try intros []; cbn; lia. Qed.

#[export] Instance bool_Compare_total : CmpTotal bool_Compare.
Proof. intros [] []; cbn; done. Qed.

#[export] Instance cmp_on_order {A B} (f : A → B) cmp : CmpOrder cmp → CmpOrder (cmp_on f cmp).
Proof. intros H. split; unfold cmp_on; intros; [apply cmp_swap | by eapply cmp_trans]. Qed.

Lemma cmp_zero_trans {A} (cmp : A → A → Z) `{!CmpOrder cmp} a b c :
  cmp a b <= 0 → cmp b c <= 0 → cmp a c = 0 → cmp a b = 0 ∧ cmp b c = 0.
Proof.
  intros Hab Hbc Hac. pose proof (cmp_swap a c). pose proof (cmp_swap a b). pose proof (cmp_swap b c).
  pose proof (cmp_trans c a b). pose proof (cmp_trans b c a). lia.
Qed.

#[export] Instance cmp_then_order {A} (c1 c2 : A → A → Z) :
  CmpOrder c1 → CmpOrder c2 → CmpOrder (cmp_then c1 c2).
Proof.
  intros H1 H2. split; unfold cmp_then.
  - intros a b. rewrite (@cmp_swap _ c1 _ a b), (@cmp_swap _ c2 _ a b).
    destruct (c1 a b =? 0) eqn:E1, (- c1 a b =? 0) eqn:E2; cbn; case_bool; lia.
  - intros a b c.
    destruct (c1 a b =? 0) eqn:E1, (c1 b c =? 0) eqn:E2, (c1 a c =? 0) eqn:E3; cbn; case_bool; intros Hab Hbc;
      pose proof (@cmp_trans _ c1 _ a b c); pose proof (@cmp_zero_trans _ c1 _ a b c);
      try lia; by eapply cmp_trans.
Qed.

(** A lexicographic comparison separates values that one of its keys separates. *)
Lemma cmp_then_total {A} (c1 c2 : A → A → Z) :
  (∀ a b, c1 a b = 0 → c2 a b = 0 → a = b) → CmpTotal (cmp_then c1 c2).
Proof.
  intros H a b. unfold cmp_then. destruct (c1 a b =? 0) eqn:E; cbn; case_bool; [by apply H|done].
Qed.

Lemma SortFunc_Permutation {A} (cmp : A → A → Z) l : slices_SortFunc cmp l ≡ₚ l.
Proof. apply merge_sort_Permutation. Qed.

Lemma SortFunc_sorted {A} (cmp : A → A → Z) `{!CmpOrder cmp} l :
  StronglySorted (cmp_le cmp) (slices_SortFunc cmp l).
Proof.
  apply StronglySorted_merge_sort.
  - intros a b c. unfold cmp_le. apply cmp_trans.
  - intros a b. unfold cmp_le. pose proof (@cmp_swap _ cmp _ a b). lia.
Qed.

(** Where the comparison separates the elements of the list, every sorting
    routine gives the same result. *)
Lemma SortFunc_unique_in {A} (cmp : A → A → Z) `{!CmpOrder cmp} l1 l2 :
  (∀ x y, x ∈ l1 → y ∈ l1 → cmp x y = 0 → x = y) → l1 ≡ₚ l2 → slices_SortFunc cmp l1 = slices_SortFunc cmp l2.
Proof.
  intros Heq Hp. apply (StronglySorted_unique_strong (cmp_le cmp)); try by apply SortFunc_sorted.
  - intros x y. rewrite !SortFunc_Permutation, <-Hp. intros Hx Hy. unfold cmp_le. intros Hxy Hyx.
    rewrite (@cmp_swap _ cmp _ x y) in Hyx. apply Heq; [done..|lia].
  - by rewrite !SortFunc_Permutation.
Qed.

Lemma SortFunc_unique {A} (cmp : A → A → Z) `{!CmpOrder cmp, !CmpTotal cmp} l1 l2 :
  l1 ≡ₚ l2 → slices_SortFunc cmp l1 = slices_SortFunc cmp l2.
Proof. intros Hp. apply SortFunc_unique_in; [done| |done]. intros x y _ _. apply cmp_eq. Qed.

(** ** Lists that differ in the order of their elements

    and in what [R] ignores of the elements *)
Definition shuffled {A} (R : relation A) (l k : list A) : Prop := ∃ m, m ≡ₚ k ∧ Forall2 R l m.

Lemma shuffled_norm {A B} (R : relation A) (norm : A → B) l k :
  (∀ x y, x ∈ l → R x y → norm x = norm y) → shuffled R l k → norm <$> l ≡ₚ norm <$> k.
Proof.
  intros Hn (m & Hm & Hf). rewrite <-Hm. clear Hm k. induction Hf as [|x y l m Hxy _ IH]; [done|].
  cbn [fmap list_fmap]. rewrite (Hn x y); [|set_solver|done]. rewrite IH; [done|set_solver].
Qed.

Lemma shuffled_elem {A} (R : relation A) l k y : shuffled R l k → y ∈ k → ∃ x, x ∈ l ∧ R x y.
Proof.
  intros (m & Hm & Hf). rewrite <-Hm. intros (i & Hi)%list_elem_of_lookup.
  destruct (Forall2_lookup_r _ _ _ _ _ Hf Hi) as (x & Hx & Hxy). exists x. split; [|done].
  by eapply list_elem_of_lookup_2.
Qed.

Lemma shuffled_all {A} (R : relation A) (P : A → Prop) l k :
  (∀ x y, R x y → P x → P y) → shuffled R l k → (∀ x, x ∈ l → P x) → ∀ y, y ∈ k → P y.
Proof. intros HR Hs Hl y Hy. destruct (shuffled_elem R l k y Hs Hy) as (x & Hx & Hxy). eapply HR; [done|by apply Hl]. Qed.

Lemma shuffled_perm {A} (R : relation A) `{!Reflexive R} l k : l ≡ₚ k → shuffled R l k.
Proof. intros Hp. exists l. split; [done|]. by apply Forall_Forall2_diag, Forall_true. Qed.

Lemma shuffled_fmap {A} (R : relation A) (f : A → A) l k :
  (∀ x, x ∈ l → R x (f x)) → k ≡ₚ f <$> l → shuffled R l k.
Proof.
  intros Hf Hp. exists (f <$> l). split; [by symmetry|]. clear Hp k. induction l as [|x l IH]; cbn [fmap list_fmap]; [constructor|].
  constructor; [apply Hf; set_solver|apply IH; set_solver].
Qed.

Lemma shuffled_of_norm {A B} (R : relation A) (norm : A → B) l k :
  (∀ x y, norm x = norm y → R x y) → norm <$> l ≡ₚ norm <$> k → shuffled R l k.
Proof.
  intros HR (m & Hm & Hp)%Permutation_map_inv. exists m. split; [by symmetry|]. clear Hp k.
  revert m Hm. induction l as [|x l IH]; intros [|y m]; cbn; intros Hm; try done; constructor.
  - apply HR. congruence.
  - apply IH. congruence.
Qed.

(** Sorting by a key and normalizing each element forgets both the order and
    what [R] ignores. *)
Lemma shuffled_sort_by {A} (R : relation A) (key : A → string) (norm : A → A) l k :
  (∀ x, key (norm x) = key x) → (∀ x y, R x y → key x = key y) → (∀ x y, x ∈ l → R x y → norm x = norm y) →
  NoDup (key <$> l) → shuffled R l k → norm <$> sort_by key l = norm <$> sort_by key k.
Proof.
  intros Hk HR Hn Hnd Hs. assert (key <$> l ≡ₚ key <$> k) as Hkeys by (apply (shuffled_norm R); [by auto|done]).
  rewrite !fmap_sort_by; [|done| |done|done].
  - apply sort_by_unique; [|by eapply shuffled_norm]. rewrite <-list_fmap_compose.
    assert (key ∘ norm <$> l = key <$> l) as ->; [|done]. apply list_fmap_ext. intros i x _. apply Hk.
  - by rewrite <-Hkeys.
Qed.

(** ** Clean relative paths *)

Lemma Split_Join l c :
  l ≠ [] → Forall (λ p, strings_Count p c = 0%nat) l → strings_Split (strings_Join (String c "") l) c = l.
Proof.
  intros Hne Hl. induction Hl as [|p l Hp Hl IH]; [done|]. destruct l as [|q l]; [by apply Split_no_sep|].
  rewrite Join_cons by done. rewrite app_cons_str, app_nil_l_str, Split_cons by done. by rewrite IH.
Qed.

(** A path below its directory: every element is a proper name. *)
Definition contained (v : string) : Prop :=
  ∀ p, p ∈ strings_Split v "/" → p ≠ "" ∧ p ≠ "." ∧ p ≠ "..".

(** The stack of [path.Clean] on a relative path: proper names above a run of
    [..]. *)
Definition clean_stack (out : list string) : Prop :=
  Forall (λ p, p ≠ "" ∧ p ≠ "." ∧ strings_Count p "/" = 0%nat) out ∧
  ∃ l k, out = l ++ replicate k ".." ∧ ".." ∉ l.

Lemma clean_step_stack out part :
  strings_Count part "/" = 0%nat → clean_stack out → clean_stack (clean_step false out part).
Proof.
  intros Hp [Hf (l & k & -> & Hl)]. unfold clean_step.
  destruct (bool_decide (part = "") || bool_decide (part = ".")) eqn:E; [by split; [|exists l, k]|].
  apply orb_false_iff in E as [?%bool_decide_eq_false ?%bool_decide_eq_false].
  case_bool_decide as Hd.
  - subst part. destruct l as [|x l]; cbn.
    + destruct k as [|k]; cbn.
      * split; [by repeat constructor|]. by exists [], 1%nat.
      * split; [by constructor|]. by exists [], (S (S k)).
    + rewrite bool_decide_eq_false_2 by set_solver. cbn in Hf. apply Forall_cons in Hf as [_ Hf].
      split; [done|]. exists l, k. set_solver.
  - split; [by constructor|]. exists (part :: l), k. set_solver.
Qed.

Lemma path_Clean_contained v :
  path_IsAbs v = false → path_Clean v = v → v ≠ "." → v ≠ ".." → strings_HasPrefix v "../" = false → contained v.
Proof.
  intros Ha Hc H1 H2 H3. unfold path_Clean in Hc. unfold path_IsAbs in Ha. rewrite Ha in Hc.
  assert (∀ parts out, Forall (λ p, strings_Count p "/" = 0%nat) parts → clean_stack out →
    clean_stack (foldl (clean_step false) out parts)) as Hfold.
  { induction parts as [|p parts IH]; intros out Hp Ho; cbn; [done|]. apply Forall_cons in Hp as [? ?].
    apply IH; [done|]. by apply clean_step_stack. }
  destruct (Hfold (strings_Split v "/") []) as [Hf (l & k & He & Hl)].
  { apply Split_parts. }
  { split; [constructor|]. exists [], 0%nat. set_solver. }
  set (out := foldl (clean_step false) [] (strings_Split v "/")) in *. clearbody out.
  destruct (reverse out) as [|p r] eqn:Er; [by subst|].
  assert (Forall (λ p, strings_Count p "/" = 0%nat) (p :: r)) as Hn.
  { rewrite <-Er. apply Forall_reverse. eapply Forall_impl; [exact Hf|]. naive_solver. }
  assert (strings_Split v "/" = p :: r) as Hs.
  { rewrite <-Hc at 1. apply Split_Join; done. }
  destruct k as [|k].
  - intros q Hq. rewrite Hs, <-Er, elem_of_reverse in Hq. cbn in He. rewrite app_nil_r in He. subst l.
    rewrite Forall_forall in Hf. destruct (Hf q Hq) as (? & ? & _). split_and!; [done..|]. by intros ->.
  - exfalso. rewrite He, reverse_app, reverse_replicate in Er. cbn in Er. injection Er as <- Hr.
    destruct r as [|q r]; cbn in Hc; [by subst|].
    rewrite <-Hc in H3. unfold strings_HasPrefix in H3. rewrite !app_cons_str, !app_nil_l_str in H3.
    cbn in H3. by destruct (match r with [] => _ | _ => _ end).
Qed.

Lemma Atoi_range s n : strconv_Atoi s = Ok n → min_int <= n <= max_int.
Proof.
  unfold strconv_Atoi. destruct (match s with String _ _ => _ | _ => _ end) as [neg ds].
  destruct (bool_decide _ || _); [done|]. destruct ((_ <? min_int) || _) eqn:E; [done|].
  apply orb_false_iff in E as [?%Z.ltb_ge ?%Z.ltb_ge]. intros [= <-]. lia.
Qed.
