(* ===== verification/Regex.v ===== *)
(** * Go regular expressions, as far as the program uses them

    Every pattern of the program is anchored ([^...$]) over ASCII classes, so a
    match is membership of the whole string in a regular language over bytes.
    [regex] is the syntax, [matches] a derivative matcher that computes, [lang]
    the language, and [matches_spec] says the matcher decides it. *)

From S2P Require Import Prelude GoStrings.
From stdpp Require Import options.

Inductive regex :=
| RNone
| REps
| RCls (f : ascii → bool)
| RCat (r1 r2 : regex)
| RAlt (r1 r2 : regex)
| RStar (r : regex).

(** [r+], [r?], [r{0,n}] *)
Definition RPlus (r : regex) : regex := RCat r (RStar r).
Definition ROpt (r : regex) : regex := RAlt REps r.
Fixpoint RUpto (n : nat) (r : regex) : regex :=
  match n with O => REps | S n => ROpt (RCat r (RUpto n r)) end.

(** A literal string *)
Fixpoint RStr (s : string) : regex :=
  match s with
  | "" => REps
  | String c s => RCat (RCls (ascii_eqb c)) (RStr s)
  end.

(** A class given by its members, as in [[._]] *)
Definition one_of (chars : string) : ascii → bool := strings_Contains chars.

Fixpoint nullable (r : regex) : bool :=
  match r with
  | RNone => false
  | REps => true
  | RCls _ => false
  | RCat r1 r2 => nullable r1 && nullable r2
  | RAlt r1 r2 => nullable r1 || nullable r2
  | RStar _ => true
  end.

(** Smart constructors that keep derivatives small *)
Definition cat (r1 r2 : regex) : regex :=
  match r1 with RNone => RNone | REps => r2 | _ => RCat r1 r2 end.
Definition alt (r1 r2 : regex) : regex :=
  match r1, r2 with RNone, _ => r2 | _, RNone => r1 | _, _ => RAlt r1 r2 end.

Fixpoint deriv (c : ascii) (r : regex) : regex :=
  match r with
  | RNone => RNone
  | REps => RNone
  | RCls f => if f c then REps else RNone
  | RCat r1 r2 =>
      if nullable r1 then alt (cat (deriv c r1) r2) (deriv c r2) else cat (deriv c r1) r2
  | RAlt r1 r2 => alt (deriv c r1) (deriv c r2)
  | RStar r => cat (deriv c r) (RStar r)
  end.

Fixpoint matches (r : regex) (s : string) : bool :=
  match s with
  | "" => nullable r
  | String c s => matches (deriv c r) s
  end.

(** The language of an expression *)
Inductive lang : regex → string → Prop :=
| lang_eps : lang REps ""
| lang_cls f c : f c = true → lang (RCls f) (String c "")
| lang_cat r1 r2 s1 s2 : lang r1 s1 → lang r2 s2 → lang (RCat r1 r2) (s1 +:+ s2)
| lang_alt_l r1 r2 s : lang r1 s → lang (RAlt r1 r2) s
| lang_alt_r r1 r2 s : lang r2 s → lang (RAlt r1 r2) s
| lang_star_nil r : lang (RStar r) ""
| lang_star_cons r s1 s2 : lang r s1 → lang (RStar r) s2 → lang (RStar r) (s1 +:+ s2).

#[export] Hint Constructors lang : dalec.

Lemma app_eq_nil_str a b : a +:+ b = "" → a = "" ∧ b = "".
Proof. destruct a; [done|]. by rewrite app_cons_str. Qed.

Lemma lang_cat_iff r1 r2 s : lang (RCat r1 r2) s ↔ ∃ s1 s2, s = s1 +:+ s2 ∧ lang r1 s1 ∧ lang r2 s2.
Proof. split; [inversion 1; subst; eauto | intros (s1 & s2 & -> & ? & ?); by constructor]. Qed.

Lemma nullable_spec r : nullable r = true ↔ lang r "".
Proof.
  induction r as [| |f|r1 IH1 r2 IH2|r1 IH1 r2 IH2|r IH]; cbn.
  - split; [done|]. by inversion 1.
  - split; eauto with dalec.
  - split; [done|]. by inversion 1.
  - rewrite andb_true_iff, IH1, IH2. split.
    + intros [H1 H2]. by apply (lang_cat r1 r2 "" "").
    + intros (s1 & s2 & Heq & H1 & H2)%lang_cat_iff.
      symmetry in Heq. by apply app_eq_nil_str in Heq as [-> ->].
  - rewrite orb_true_iff, IH1, IH2. split; [intros []; eauto with dalec|]. inversion 1; auto.
  - split; eauto with dalec.
Qed.

Lemma lang_cat_smart r1 r2 s : lang (cat r1 r2) s ↔ lang (RCat r1 r2) s.
Proof.
  rewrite lang_cat_iff. destruct r1; cbn; try apply lang_cat_iff.
  - split; [by inversion 1|]. intros (? & ? & _ & H & _); inversion H.
  - split; [intros H; exists "", s; eauto with dalec|].
    intros (s1 & s2 & -> & H & ?); by inversion H.
Qed.

Lemma lang_alt_iff r1 r2 s : lang (RAlt r1 r2) s ↔ lang r1 s ∨ lang r2 s.
Proof. split; [inversion 1; auto | intros []; eauto with dalec]. Qed.

Lemma lang_alt_smart r1 r2 s : lang (alt r1 r2) s ↔ lang (RAlt r1 r2) s.
Proof.
  rewrite lang_alt_iff.
  destruct r1, r2; cbn; rewrite ?lang_alt_iff; try tauto;
    (split; [tauto|]; intros [H|H]; first [done | by inversion H]).
Qed.

Lemma lang_star_step r c s :
  lang (RStar r) (String c s) → ∃ s1 s2, s = s1 +:+ s2 ∧ lang r (String c s1) ∧ lang (RStar r) s2.
Proof.
  intros H. remember (RStar r) as r' eqn:Er. remember (String c s) as s' eqn:Es.
  revert c s Er Es. induction H as [| | | | | |r' s1 s2 H1 _ H2 IH2]; intros ch st Er Es; try done.
  injection Er as ->. destruct s1 as [|d s1]; [by apply IH2|].
  rewrite app_cons_str in Es. injection Es as -> <-. by exists s1, s2.
Qed.

Lemma deriv_spec c r s : lang (deriv c r) s ↔ lang r (String c s).
Proof.
  revert s. induction r as [| |f|r1 IH1 r2 IH2|r1 IH1 r2 IH2|r IH]; intros s; cbn.
  - split; inversion 1.
  - split; inversion 1.
  - destruct (f c) eqn:E; split; intros H; inversion H; subst; eauto with dalec; congruence.
  - assert (lang (cat (deriv c r1) r2) s ↔ ∃ s1 s2, s = s1 +:+ s2 ∧ lang r1 (String c s1) ∧ lang r2 s2)
      as Hcat.
    { rewrite lang_cat_smart, lang_cat_iff. by setoid_rewrite IH1. }
    assert (lang (RCat r1 r2) (String c s) ↔
      (lang r1 "" ∧ lang r2 (String c s)) ∨ ∃ s1 s2, s = s1 +:+ s2 ∧ lang r1 (String c s1) ∧ lang r2 s2)
      as ->.
    { rewrite lang_cat_iff. split.
      - intros ([|d s1] & s2 & Heq & H1 & H2).
        + left. rewrite app_nil_l_str in Heq. by subst.
        + rewrite app_cons_str in Heq. injection Heq as -> ->. eauto 6.
      - intros [[H1 H2]|(s1 & s2 & -> & H1 & H2)]; [by exists "", (String c s)|].
        by exists (String c s1), s2. }
    destruct (nullable r1) eqn:E.
    + apply nullable_spec in E. rewrite lang_alt_smart, lang_alt_iff, Hcat, IH2. tauto.
    + assert (¬ lang r1 "") by (rewrite <-nullable_spec, E; done). rewrite Hcat. tauto.
  - rewrite lang_alt_smart, !lang_alt_iff, IH1, IH2. done.
  - rewrite lang_cat_smart, lang_cat_iff. setoid_rewrite IH. split.
    + intros (s1 & s2 & -> & H1 & H2). by apply (lang_star_cons r (String c s1) s2).
    + apply lang_star_step.
Qed.

(** The matcher decides the language. *)
Lemma matches_spec r s : matches r s = true ↔ lang r s.
Proof.
  revert r. induction s as [|c s IH]; intros r; cbn; [apply nullable_spec|].
  rewrite IH. apply deriv_spec.
Qed.

Lemma lang_star_cls f s : lang (RStar (RCls f)) s ↔ all_bytes f s = true.
Proof.
  split.
  - intros H. remember (RStar (RCls f)) as r eqn:Er. revert Er.
    induction H as [| | | | | |r s1 s2 H1 _ _ IH2]; intros Er; try done.
    injection Er as ->. inversion H1 as [|? c Hc| | | | |]; subst.
    rewrite app_cons_str, app_nil_l_str. cbn. by rewrite Hc, IH2.
  - induction s as [|c s IH]; cbn; [constructor|]. intros [H1 H2]%andb_prop.
    apply (lang_star_cons _ (String c "") s); eauto with dalec.
Qed.

(** The shape of most of the program's patterns: one class, then a class repeated. *)
Lemma matches_cls_star f g s :
  matches (RCat (RCls f) (RStar (RCls g))) s
  = match s with "" => false | String c s => f c && all_bytes g s end.
Proof.
  apply eq_bool_prop_intro. rewrite !Is_true_true, matches_spec, lang_cat_iff. split.
  - intros (s1 & s2 & -> & H1 & H2%lang_star_cls). inversion H1 as [|? c Hc| | | | |]; subst.
    rewrite app_cons_str, app_nil_l_str. by rewrite Hc, H2.
  - destruct s as [|c s]; [done|]. intros [H1 H2]%andb_prop.
    exists (String c ""), s. split_and!; [done|by constructor|by apply lang_star_cls].
Qed.

Lemma lang_upto_cls n f s :
  lang (RUpto n (RCls f)) s ↔ all_bytes f s = true ∧ (String.length s ≤ n)%nat.
Proof.
  revert s. induction n as [|n IH]; intros s; cbn.
  - split; [by inversion 1|]. destruct s; [constructor|]. cbn; intros [_ ?]; lia.
  - unfold ROpt. rewrite lang_alt_iff, lang_cat_iff. split.
    + intros [H|(s1 & s2 & -> & H1 & H2)]; [inversion H; cbn; split; [done|lia]|].
      inversion H1 as [|? c Hc| | | | |]; subst. apply IH in H2 as [Ha Hl].
      rewrite app_cons_str, app_nil_l_str. cbn. rewrite Hc, Ha. split; [done|lia].
    + intros [Ha Hl]. destruct s as [|c s]; [left; constructor|right]. cbn in *.
      apply andb_prop in Ha as [Hc Ha]. exists (String c ""), s.
      split_and!; [done|by constructor|]. apply IH. split; [done|lia].
Qed.
