(* ===== verification/Base64.v ===== *)
(** * encoding/base64, strict

    [base64.URLEncoding.Strict] and [base64.RawURLEncoding.Strict], as far as the
    JWS code uses them: texts without white space. Four symbols carry three
    bytes; the last group may be shorter, with padding or without it, and its
    unused bits must be zero. [base64.StdEncoding] is the same with two other
    symbols; its decoder skips line ends. *)

From S2P Require Import Prelude GoStrings.
From stdpp Require Import options.
Open Scope Z_scope.

Definition alphabet_symbol (v : Z) : ascii :=
  char_of (if v <? 26 then 65 + v else if v <? 52 then 71 + v else if v <? 62 then v - 4 else if v =? 62 then 45 else 95).

Definition symbol_value (c : ascii) : option Z :=
  let b := byte c in
  if (65 <=? b) && (b <=? 90) then Some (b - 65)
  else if (97 <=? b) && (b <=? 122) then Some (b - 71)
  else if (48 <=? b) && (b <=? 57) then Some (b + 4)
  else if b =? 45 then Some 62
  else if b =? 95 then Some 63
  else None.

(** ** Encoding without padding: [RawURLEncoding.EncodeToString] *)

Fixpoint base64_encode (s : string) : string :=
  match s with
  | String a (String b (String c rest)) =>
      String (alphabet_symbol (byte a / 4)) (String (alphabet_symbol (byte a mod 4 * 16 + byte b / 16))
        (String (alphabet_symbol (byte b mod 16 * 4 + byte c / 64)) (String (alphabet_symbol (byte c mod 64)) (base64_encode rest))))
  | String a (String b EmptyString) =>
      String (alphabet_symbol (byte a / 4)) (String (alphabet_symbol (byte a mod 4 * 16 + byte b / 16))
        (String (alphabet_symbol (byte b mod 16 * 4)) EmptyString))
  | String a EmptyString => String (alphabet_symbol (byte a / 4)) (String (alphabet_symbol (byte a mod 4 * 16)) EmptyString)
  | EmptyString => EmptyString
  end.

(** ** Decoding: the groups of the text, the last one with its padding if [padded] *)

Definition group2 (a b : ascii) : option string :=
  x ← symbol_value a; y ← symbol_value b;
  if y mod 16 =? 0 then Some (String (char_of (x * 4 + y / 16)) "") else None.

Definition group3 (a b c : ascii) : option string :=
  x ← symbol_value a; y ← symbol_value b; z ← symbol_value c;
  if z mod 4 =? 0 then Some (String (char_of (x * 4 + y / 16)) (String (char_of (y mod 16 * 16 + z / 4)) "")) else None.

Definition group4 (a b c d : ascii) : option string :=
  x ← symbol_value a; y ← symbol_value b; z ← symbol_value c; w ← symbol_value d;
  Some (String (char_of (x * 4 + y / 16)) (String (char_of (y mod 16 * 16 + z / 4)) (String (char_of (z mod 4 * 64 + w)) ""))).

Definition is_pad (c : ascii) : bool := ascii_eqb c "=".

Fixpoint base64_decode (padded : bool) (s : string) : option string :=
  match s with
  | EmptyString => Some ""
  | String a (String b (String c (String d rest))) =>
      if padded && is_pad d && bool_decide (rest = "") then if is_pad c then group2 a b else group3 a b c
      else out ← group4 a b c d; outs ← base64_decode padded rest; Some (out +:+ outs)
  | String a (String b (String c EmptyString)) => if padded then None else group3 a b c
  | String a (String b EmptyString) => if padded then None else group2 a b
  | String a EmptyString => None
  end.

(** ** What was encoded is decoded *)

(** A fact about the values of the symbols, checked one by one *)
Lemma symbols_checked (P : Z → bool) v : forallb P (seqZ 0 64) = true → 0 <= v < 64 → P v = true.
Proof. intros HP Hv. eapply forallb_forall; [exact HP|]. apply list_elem_of_In, elem_of_seqZ. lia. Qed.

Lemma symbol_value_symbol v : 0 <= v < 64 → symbol_value (alphabet_symbol v) = Some v.
Proof.
  intros Hv. pose proof (symbols_checked (λ v, bool_decide (symbol_value (alphabet_symbol v) = Some v)) v) as H.
  apply bool_decide_eq_true in H; [done| |done]. vm_compute. reflexivity.
Qed.

Lemma string_ind3 (P : string → Prop) :
  P "" → (∀ a, P (String a "")) → (∀ a b, P (String a (String b ""))) →
  (∀ a b c s, P s → P (String a (String b (String c s)))) → ∀ s, P s.
Proof.
  intros H0 H1 H2 H3. fix IH 1. intros [|a [|b [|c s]]]; [exact H0|apply H1|apply H2|apply H3, IH].
Qed.

Lemma byte_high c m k : 0 < m → 256 = m * k → 0 <= byte c / m < k.
Proof.
  intros Hm Hk. pose proof (byte_range c). split; [apply Z.div_pos; lia|]. apply Z.div_lt_upper_bound; [done|]. lia.
Qed.

Lemma pack_div h l m : 0 <= l < m → (h * m + l) / m = h.
Proof. intros H. rewrite Z.div_add_l by lia. rewrite Z.div_small by lia. lia. Qed.

Lemma pack_mod h l m : 0 <= l < m → (h * m + l) mod m = l.
Proof. intros H. rewrite Z.add_comm, Z.mod_add by lia. by apply Z.mod_small. Qed.

Lemma pack_div0 h m : 0 < m → (h * m) / m = h.
Proof. intros. apply Z.div_mul. lia. Qed.

Lemma unpack c m : 0 < m → byte c / m * m + byte c mod m = byte c.
Proof. intros. pose proof (Z.div_mod (byte c) m). lia. Qed.

(** The parts of the bytes of a group, with their ranges *)
Ltac byte_parts a :=
  pose proof (byte_high a 4 64 eq_refl eq_refl); pose proof (byte_high a 16 16 eq_refl eq_refl); pose proof (byte_high a 64 4 eq_refl eq_refl);
  pose proof (Z.mod_pos_bound (byte a) 4 eq_refl); pose proof (Z.mod_pos_bound (byte a) 16 eq_refl); pose proof (Z.mod_pos_bound (byte a) 64 eq_refl);
  pose proof (unpack a 4 eq_refl); pose proof (unpack a 16 eq_refl); pose proof (unpack a 64 eq_refl).

Ltac b64_cbn := cbn -[Z.mul Z.add Z.div Z.modulo alphabet_symbol symbol_value group2 group3 group4].

Lemma group2_encoded a : group2 (alphabet_symbol (byte a / 4)) (alphabet_symbol (byte a mod 4 * 16)) = Some (String a "").
Proof.
  byte_parts a. unfold group2. rewrite !symbol_value_symbol by lia. b64_cbn. rewrite Z.mod_mul, pack_div0 by lia. cbn [Z.eqb].
  by rewrite unpack, char_of_byte.
Qed.

Lemma group3_encoded a b :
  group3 (alphabet_symbol (byte a / 4)) (alphabet_symbol (byte a mod 4 * 16 + byte b / 16)) (alphabet_symbol (byte b mod 16 * 4))
  = Some (String a (String b "")).
Proof.
  byte_parts a. byte_parts b. unfold group3. rewrite !symbol_value_symbol by lia. b64_cbn.
  rewrite Z.mod_mul, pack_div0, pack_div, pack_mod by lia. cbn [Z.eqb]. by rewrite !unpack, !char_of_byte.
Qed.

Lemma group4_encoded a b c :
  group4 (alphabet_symbol (byte a / 4)) (alphabet_symbol (byte a mod 4 * 16 + byte b / 16))
    (alphabet_symbol (byte b mod 16 * 4 + byte c / 64)) (alphabet_symbol (byte c mod 64)) = Some (String a (String b (String c ""))).
Proof.
  byte_parts a. byte_parts b. byte_parts c. unfold group4. rewrite !symbol_value_symbol by lia. b64_cbn.
  rewrite !pack_div, !pack_mod by lia. by rewrite !unpack, !char_of_byte.
Qed.

Lemma base64_decode_encode s : base64_decode false (base64_encode s) = Some s.
Proof.
  induction s as [|a|a b|a b c s IH] using string_ind3; [done|apply group2_encoded|apply group3_encoded|].
  cbn [base64_encode base64_decode andb]. by rewrite group4_encoded, IH.
Qed.

(** Every encoded text is made of the alphabet: it has no white space, padding or
    character of the other alphabet. *)
Definition outside_alphabet (c : ascii) : bool := strings_Contains "+/=" c || (byte c <=? 32).

Lemma base64_encode_strict s : any_byte outside_alphabet (base64_encode s) = false.
Proof.
  assert (∀ v s, 0 <= v < 64 → any_byte outside_alphabet s = false → any_byte outside_alphabet (String (alphabet_symbol v) s) = false) as Hc.
  { intros v s' Hv Hs. cbn [any_byte]. rewrite Hs, orb_false_r. apply negb_true_iff.
    refine (symbols_checked (λ v, negb (outside_alphabet (alphabet_symbol v))) v _ Hv). vm_compute. reflexivity. }
  induction s as [|a|a b|a b c s IH] using string_ind3; [done|..]; cbn [base64_encode]; byte_parts a; try byte_parts b; try byte_parts c;
    repeat (apply Hc; [lia|]); done.
Qed.

(** ** The standard alphabet with padding: [StdEncoding] and [StdEncoding.Strict] *)

Definition std_symbol (c : ascii) : ascii := if ascii_eqb "-" c then "+"%char else if ascii_eqb "_" c then "/"%char else c.

(** A symbol of the standard alphabet as one of the URL-safe alphabet; the two symbols
    that only the latter has become one that neither has. *)
Definition url_symbol (c : ascii) : ascii :=
  if ascii_eqb "+" c then "-"%char else if ascii_eqb "/" c then "_"%char
  else if ascii_eqb "-" c || ascii_eqb "_" c then " "%char else c.

Fixpoint pad_group (s : string) : string :=
  match s with
  | String a (String b (String c (String d rest))) => String a (String b (String c (String d (pad_group rest))))
  | String a (String b (String c EmptyString)) => String a (String b (String c "="))
  | String a (String b EmptyString) => String a (String b "==")
  | _ => s
  end.

Fixpoint drop_newlines (s : string) : string :=
  match s with
  | EmptyString => ""
  | String c s => if (byte c =? 10) || (byte c =? 13) then drop_newlines s else String c (drop_newlines s)
  end.

Definition base64_StdEncode (s : string) : string := pad_group (map_bytes std_symbol (base64_encode s)).

Definition base64_StdDecode (s : string) : option string := base64_decode true (map_bytes url_symbol (drop_newlines s)).

(** A symbol of the alphabet survives the change of alphabets and is no line end. *)
Lemma std_symbol_kept v :
  0 <= v < 64 → ((byte (std_symbol (alphabet_symbol v)) =? 10) || (byte (std_symbol (alphabet_symbol v)) =? 13)) = false ∧
    url_symbol (std_symbol (alphabet_symbol v)) = alphabet_symbol v ∧ is_pad (alphabet_symbol v) = false.
Proof.
  intros Hv.
  pose proof (symbols_checked (λ v, bool_decide (((byte (std_symbol (alphabet_symbol v)) =? 10) || (byte (std_symbol (alphabet_symbol v)) =? 13)) = false ∧
    url_symbol (std_symbol (alphabet_symbol v)) = alphabet_symbol v ∧ is_pad (alphabet_symbol v) = false)) v) as H.
  apply bool_decide_eq_true in H; [exact H| |exact Hv]. vm_compute. reflexivity.
Qed.

Lemma std_symbol_step v s :
  0 <= v < 64 → map_bytes url_symbol (drop_newlines (String (std_symbol (alphabet_symbol v)) s)) =
    String (alphabet_symbol v) (map_bytes url_symbol (drop_newlines s)).
Proof. intros (Hn & Hu & _)%std_symbol_kept. cbn [drop_newlines]. rewrite Hn. cbn [map_bytes]. by rewrite Hu. Qed.

Lemma base64_Std_roundtrip s : base64_StdDecode (base64_StdEncode s) = Some s.
Proof.
  unfold base64_StdDecode, base64_StdEncode.
  induction s as [|a|a b|a b c s IH] using string_ind3; [done|..]; cbn [base64_encode map_bytes pad_group];
    byte_parts a; try byte_parts b; try byte_parts c; rewrite !std_symbol_step by lia.
  - apply group2_encoded.
  - cbn [drop_newlines map_bytes base64_decode]. change (map_bytes url_symbol (drop_newlines "=")) with "=". cbn [base64_decode andb].
    destruct (std_symbol_kept (byte b mod 16 * 4)) as (_ & _ & ->); [lia|]. apply group3_encoded.
  - cbn [base64_decode]. destruct (std_symbol_kept (byte c mod 64)) as (_ & _ & ->); [lia|]. cbn [andb].
    by rewrite group4_encoded, IH.
Qed.
