(* ===== verification/JsonUnique.v ===== *)
(** * Duplicate members in JSON documents

    [encoding/json] keeps the last of two members with one name, which would let
    a signed document be read in two ways. Every package that decodes signed or
    digest-bound JSON therefore walks the decoder's tokens first and rejects a
    document in which an object has two members of one name, or which is followed
    by anything else. The packages carry their own copies of the walk, which
    differ in two respects ([variant]): whether the closing token of an object or
    array is compared with the expected one or only read, and whether the nesting
    is bounded. The decoder is the stream of tokens it delivers; the path a copy
    prints in its message is not part of the model. *)

From S2P Require Import Prelude GoStrings.
From stdpp Require Import options.

(** ** The decoder *)

(** [json.Token]: a delimiter, a string (a value or a member name), or a number, boolean or null *)
Inductive token := TDelim (c : ascii) | TString (s : string) | TOther.

#[export] Instance token_eq_dec : EqDecision token.
Proof. solve_decision. Defined.

(** What is left to read, and whether the text ends there ([io.EOF]) or a syntax error follows. *)
Record decoder := MkDecoder { dec_tokens : list token; dec_broken : bool }.

Inductive json_error :=
| JSyntax | JEOF | JKeyNotString | JDuplicate (key : string) | JClosing | JDelimiter | JDepth | JTrailing | JFuel.

#[export] Instance json_error_eq_dec : EqDecision json_error.
Proof. solve_decision. Defined.

(** [Decoder.Token] *)
Definition Token (d : decoder) : result json_error (token * decoder) :=
  match dec_tokens d with
  | [] => Err (if dec_broken d then JSyntax else JEOF)
  | t :: ts => Ok (t, MkDecoder ts (dec_broken d))
  end.

(** [Decoder.More]: the next token exists and closes nothing *)
Definition More (d : decoder) : bool :=
  match dec_tokens d with
  | [] => false
  | t :: _ => negb (bool_decide (t = TDelim "]") || bool_decide (t = TDelim "}"))
  end.

(** ** The walk *)

Record variant := MkVariant { vr_checks_closing : bool; vr_max_depth : option nat }.

Definition too_deep (v : variant) (depth : nat) : bool :=
  match vr_max_depth v with Some m => (m <? depth)%nat | None => false end.

Definition closing (v : variant) (c : ascii) (d : decoder) : result json_error decoder :=
  '(t, d) ← Token d;
  _ ← check (vr_checks_closing v && negb (bool_decide (t = TDelim c))) JClosing;
  Ok d.

(** One value, or the rest of an object's members or of an array's items. *)
Inductive place := AtValue | AtMembers (seen : gset string) | AtItems.

Fixpoint walk (fuel : nat) (v : variant) (p : place) (depth : nat) (d : decoder) : result json_error decoder :=
  match fuel with
  | O => Err JFuel
  | S fuel =>
      match p with
      | AtValue =>
          _ ← check (too_deep v depth) JDepth;
          '(t, d) ← Token d;
          match t with
          | TDelim c =>
              if bool_decide (c = "{"%char) then walk fuel v (AtMembers ∅) depth d
              else if bool_decide (c = "["%char) then walk fuel v AtItems depth d
              else Err JDelimiter
          | _ => Ok d
          end
      | AtMembers seen =>
          if More d then
            '(t, d) ← Token d;
            match t with
            | TString key =>
                _ ← check (bool_decide (key ∈ seen)) (JDuplicate key);
                d ← walk fuel v AtValue (S depth) d;
                walk fuel v (AtMembers ({[key]} ∪ seen)) depth d
            | _ => Err JKeyNotString
            end
          else closing v "}" d
      | AtItems =>
          if More d then
            d ← walk fuel v AtValue (S depth) d;
            walk fuel v AtItems depth d
          else closing v "]" d
      end
  end.

Definition walk_fuel (d : decoder) : nat := 2 * length (dec_tokens d) + 2.

Definition unique_json (v : variant) (d : decoder) : result json_error unit :=
  rest ← walk (walk_fuel d) v AtValue 0 d;
  match Token rest with
  | Err JEOF => Ok tt
  | Err e => Err e
  | Ok _ => Err JTrailing
  end.

(** ** The copies

    Most compare the closing token; those of policy/v2, catalogkeys and
    catalogextractor only read it, and rely on the decoder to refuse a wrong one.
    internal/catalog bounds the nesting. *)

Definition MaxJSONDepth : nat := 128.

Definition fetcher_rejectDuplicateJSONMembers := unique_json (MkVariant true None).
Definition metadata_rejectDuplicateJSONKeys := unique_json (MkVariant true None).
Definition oci_rejectDuplicateJSONKeys := unique_json (MkVariant true None).
Definition catalog_validateUniqueJSON := unique_json (MkVariant true (Some MaxJSONDepth)).
Definition catalogservice_validateUniqueJSON := unique_json (MkVariant true None).
Definition bottle_validateUniqueJSON := unique_json (MkVariant true None).
Definition release_validateUniqueJSON := unique_json (MkVariant true None).
Definition runtimefs_validateUniqueJSON := unique_json (MkVariant true None).
Definition validateUniqueJSONV2 := unique_json (MkVariant true None).
Definition policy_validateUniqueJSON := unique_json (MkVariant false None).
Definition catalogkeys_validateUniqueJSON := unique_json (MkVariant false None).
Definition catalogextractor_validateUniqueJSON := unique_json (MkVariant false None).

(** ** Documents *)

Inductive json := JString (s : string) | JOther | JObject (members : list (string * json)) | JArray (items : list json).

Section json_ind.
Variable P : json → Prop.
Hypothesis P_string : ∀ s, P (JString s).
Hypothesis P_other : P JOther.
Hypothesis P_object : ∀ ms, Forall (λ m, P m.2) ms → P (JObject ms).
Hypothesis P_array : ∀ vs, Forall P vs → P (JArray vs).

Fixpoint json_nested_ind (v : json) : P v :=
  match v with
  | JString s => P_string s
  | JOther => P_other
  | JObject ms =>
      P_object ms ((fix go ms : Forall (λ m, P m.2) ms :=
        match ms with [] => Forall_nil_2 _ | m :: ms => Forall_cons_2 _ m ms (json_nested_ind m.2) (go ms) end) ms)
  | JArray vs =>
      P_array vs ((fix go vs : Forall P vs :=
        match vs with [] => Forall_nil_2 _ | v :: vs => Forall_cons_2 _ v vs (json_nested_ind v) (go vs) end) vs)
  end.
End json_ind.

(** The tokens of a document *)
Fixpoint tokens (v : json) : list token :=
  match v with
  | JString s => [TString s]
  | JOther => [TOther]
  | JObject ms => TDelim "{" :: (concat ((λ m, TString m.1 :: tokens m.2) <$> ms) ++ [TDelim "}"])
  | JArray vs => TDelim "[" :: (concat (tokens <$> vs) ++ [TDelim "]"])
  end.

(** A token that closes an object or an array: the expected one, or, for a copy that
    only reads it, the other one too. The decoder refuses a wrong one before a copy
    sees it. *)
Definition closes (exact : bool) (expected c : ascii) : Prop := c = expected ∨ (exact = false ∧ (c = "]"%char ∨ c = "}"%char)).

(** The token streams a copy reads as a document, its members or its items *)
Inductive spells (exact : bool) : json → list token → Prop :=
| sp_string s : spells exact (JString s) [TString s]
| sp_other : spells exact JOther [TOther]
| sp_object ms ts : spells_members exact ms ts → spells exact (JObject ms) (TDelim "{" :: ts)
| sp_array vs ts : spells_items exact vs ts → spells exact (JArray vs) (TDelim "[" :: ts)
with spells_members (exact : bool) : list (string * json) → list token → Prop :=
| sp_no_members c : closes exact "}" c → spells_members exact [] [TDelim c]
| sp_member key v ms ts ts' : spells exact v ts → spells_members exact ms ts' → spells_members exact ((key, v) :: ms) (TString key :: ts ++ ts')
with spells_items (exact : bool) : list json → list token → Prop :=
| sp_no_items c : closes exact "]" c → spells_items exact [] [TDelim c]
| sp_item v vs ts ts' : spells exact v ts → spells_items exact vs ts' → spells_items exact (v :: vs) (ts ++ ts').

Scheme spells_mut := Induction for spells Sort Prop
  with spells_members_mut := Induction for spells_members Sort Prop
  with spells_items_mut := Induction for spells_items Sort Prop.
Combined Scheme spells_all_ind from spells_mut, spells_members_mut, spells_items_mut.

(** No object in the document has two members of one name. *)
Inductive unique : json → Prop :=
| unique_string s : unique (JString s)
| unique_other : unique JOther
| unique_object ms : NoDup ms.*1 → Forall (λ m, unique m.2) ms → unique (JObject ms)
| unique_array vs : Forall unique vs → unique (JArray vs).

(** The levels of nesting below the document's own *)
Fixpoint nesting (v : json) : nat :=
  match v with
  | JString _ | JOther => 0
  | JObject ms => max_list ((λ m, S (nesting m.2)) <$> ms)
  | JArray vs => max_list ((λ v, S (nesting v)) <$> vs)
  end.

(** ** Correctness of the walk *)

Definition depth_ok (vr : variant) (depth : nat) : Prop := too_deep vr depth = false.

Lemma depth_ok_le vr d d' : (d ≤ d')%nat → depth_ok vr d' → depth_ok vr d.
Proof. unfold depth_ok, too_deep. destruct (vr_max_depth vr); [|done]. rewrite !Nat.ltb_ge. lia. Qed.

Definition good_value vr depth v : Prop := unique v ∧ depth_ok vr (depth + nesting v).

Definition good_members vr depth (seen : gset string) (ms : list (string * json)) : Prop :=
  NoDup ms.*1 ∧ Forall (λ m, m.1 ∉ seen ∧ good_value vr (S depth) m.2) ms.

Definition good_items vr depth vs : Prop := Forall (good_value vr (S depth)) vs.

Lemma depth_ok_max {A} vr depth (f : A → nat) l :
  depth_ok vr depth → Forall (λ x, depth_ok vr (S depth + f x)) l ↔ depth_ok vr (depth + max_list ((λ x, S (f x)) <$> l)).
Proof.
  intros Hd. induction l as [|x l IH]; cbn.
  - rewrite Nat.add_0_r. split; [done|constructor].
  - rewrite Forall_cons, IH. split.
    + intros [H1 H2]. destruct (Nat.max_spec (S (f x)) (max_list ((λ x, S (f x)) <$> l))) as [[_ E]|[_ E]]; rewrite E; [done|].
      by rewrite Nat.add_succ_r.
    + intros H. split; eapply depth_ok_le; try exact H; lia.
Qed.

Lemma good_object vr depth ms :
  depth_ok vr depth → good_value vr depth (JObject ms) ↔ good_members vr depth ∅ ms.
Proof.
  intros Hd. unfold good_value, good_members. cbn [nesting].
  rewrite <-(depth_ok_max vr depth (λ m : string * json, nesting m.2) ms Hd). split.
  - intros [Hu Hw]. inversion Hu as [| |? Hn Hf|]; subst. split; [done|].
    apply Forall_forall. intros m Hm. rewrite Forall_forall in Hf, Hw. split; [set_solver|split; [by apply Hf|by apply Hw]].
  - intros [Hn Hf]. rewrite Forall_forall in Hf. split; [constructor; [done|]|]; apply Forall_forall; intros m Hm; by apply Hf.
Qed.

Lemma good_array vr depth vs : depth_ok vr depth → good_value vr depth (JArray vs) ↔ good_items vr depth vs.
Proof.
  intros Hd. unfold good_value, good_items. cbn [nesting]. rewrite <-(depth_ok_max vr depth nesting vs Hd). split.
  - intros [Hu Hw]. inversion Hu as [| | |? Hf]; subst. rewrite Forall_forall in Hf, Hw |- *. intros v Hv. split; auto.
  - intros Hf. rewrite Forall_forall in Hf. split; [constructor|]; apply Forall_forall; intros v Hv; by apply Hf.
Qed.

(** ** Streams *)

(** With the closing tokens compared there is one stream per document. *)
Lemma spells_exact :
  (∀ v ts, spells true v ts → ts = tokens v) ∧
  (∀ ms ts, spells_members true ms ts → ts = concat ((λ m, TString m.1 :: tokens m.2) <$> ms) ++ [TDelim "}"]) ∧
  (∀ vs ts, spells_items true vs ts → ts = concat (tokens <$> vs) ++ [TDelim "]"]).
Proof.
  apply spells_all_ind; try done.
  - intros ms ts _ ->. done.
  - intros vs ts _ ->. done.
  - by intros c [->|[? _]].
  - intros key v ms ts ts' _ -> _ ->. cbn. by rewrite <-app_assoc.
  - by intros c [->|[? _]].
  - intros v vs ts ts' _ -> _ ->. cbn. by rewrite <-app_assoc.
Qed.

(** The tokens of a document are a stream of it for every copy. *)
Lemma spells_tokens exact v : spells exact v (tokens v).
Proof.
  induction v as [s| |ms IH|vs IH] using json_nested_ind; cbn [tokens]; [constructor|constructor|apply sp_object|apply sp_array].
  - induction IH as [|[key v] ms Hv _ IH]; [constructor; by left|]. cbn. rewrite <-app_assoc. by constructor.
  - induction IH as [|v vs Hv _ IH]; [constructor; by left|]. cbn. rewrite <-app_assoc. by constructor.
Qed.

Lemma spells_open exact v ts : spells exact v ts → ∃ t ts', ts = t :: ts' ∧ t ≠ TDelim "]" ∧ t ≠ TDelim "}".
Proof. destruct 1; eauto 10. Qed.

Lemma spells_items_open exact vs ts : spells_items exact vs ts → (0 < length ts)%nat.
Proof. destruct 1 as [|v vs ts ts' (t & l & -> & _)%spells_open _]; cbn; lia. Qed.

Lemma More_open d t ts : dec_tokens d = t :: ts → t ≠ TDelim "]" → t ≠ TDelim "}" → More d = true.
Proof. intros Hd H1 H2. unfold More. rewrite Hd. by rewrite !bool_decide_eq_false_2. Qed.

Section walk.
Variable vr : variant.
Local Notation exact := (vr_checks_closing vr).

(** What a successful walk has read *)
Definition read (p : place) (depth : nat) (ts : list token) : Prop :=
  match p with
  | AtValue => ∃ v, spells exact v ts ∧ good_value vr depth v
  | AtMembers seen => ∃ ms, spells_members exact ms ts ∧ good_members vr depth seen ms
  | AtItems => ∃ vs, spells_items exact vs ts ∧ good_items vr depth vs
  end.

Lemma Token_ok d t d' : Token d = Ok (t, d') → dec_tokens d = t :: dec_tokens d' ∧ dec_broken d' = dec_broken d.
Proof. unfold Token. destruct (dec_tokens d) as [|t' ts]; [by destruct (dec_broken d)|]. by intros [= <- <-]. Qed.

Lemma closing_ok expected d d' :
  closing vr expected d = Ok d' → More d = false → ∃ c, closes exact expected c ∧ dec_tokens d = TDelim c :: dec_tokens d' ∧ dec_broken d' = dec_broken d.
Proof.
  unfold closing. intros ([t d1] & [Ht Hb]%Token_ok & H)%bind_ok Hm. apply bind_ok in H as ([] & Hc%check_ok & [= ->]).
  unfold More in Hm. rewrite Ht in Hm. apply negb_false_iff, orb_true_iff in Hm. rewrite !bool_decide_eq_true in Hm.
  apply andb_false_iff in Hc as [Hc|Hc%negb_false_iff%bool_decide_eq_true].
  - destruct Hm as [->| ->]; [exists "]"%char|exists "}"%char]; split_and!; try done; right; auto.
  - subst t. exists expected. split_and!; [by left|done..].
Qed.

Lemma walk_sound fuel p depth d d' :
  depth_ok vr depth ∨ p = AtValue → walk fuel vr p depth d = Ok d' →
  ∃ ts, dec_tokens d = ts ++ dec_tokens d' ∧ dec_broken d' = dec_broken d ∧ read p depth ts.
Proof.
  revert p depth d d'. induction fuel as [|fuel IH]; intros p depth d d' Hdepth; cbn [walk]; [done|]. destruct p as [|seen|].
  - intros ([] & Hd%check_ok & H)%bind_ok. apply bind_ok in H as ([t d1] & [Ht Hb]%Token_ok & H). destruct t as [c|str|].
    + destruct (bool_decide_reflect (c = "{"%char)) as [->|_]; [|destruct (bool_decide_reflect (c = "["%char)) as [->|_]; [|done]].
      * apply IH in H as (ts & Hts & Hb' & ms & Hsp & Hg); [|by left]. exists (TDelim "{" :: ts). rewrite Ht, Hts. split_and!; [done|congruence|].
        exists (JObject ms). split; [by constructor|]. by apply good_object.
      * apply IH in H as (ts & Hts & Hb' & vs & Hsp & Hg); [|by left]. exists (TDelim "[" :: ts). rewrite Ht, Hts. split_and!; [done|congruence|].
        exists (JArray vs). split; [by constructor|]. by apply good_array.
    + injection H as <-. exists [TString str]. split_and!; [done..|]. exists (JString str). split; [constructor|]. split; [constructor|].
      cbn. by rewrite Nat.add_0_r.
    + injection H as <-. exists [TOther]. split_and!; [done..|]. exists JOther. split; [constructor|]. split; [constructor|]. cbn. by rewrite Nat.add_0_r.
  - destruct (More d) eqn:Hm.
    + intros ([t d1] & [Ht Hb]%Token_ok & H)%bind_ok. destruct t as [c|key|]; [done| |done].
      apply bind_ok in H as ([] & Hk%check_ok%bool_decide_eq_false & H). apply bind_ok in H as (d2 & Hv & H).
      apply IH in Hv as (ts & Hts & Hb' & v & Hsp & Hg); [|by right]. destruct Hdepth as [Hdepth|]; [|done].
      apply IH in H as (ts' & Hts' & Hb'' & ms & Hsp' & Hnd & Hf); [|by left]. exists (TString key :: ts ++ ts').
      rewrite Ht, Hts, Hts'. split_and!; [cbn; by rewrite app_assoc|congruence|]. exists ((key, v) :: ms). split; [by constructor|].
      rewrite Forall_forall in Hf. split.
      * cbn. apply NoDup_cons. split; [|done]. intros ([k w] & -> & Hin)%list_elem_of_fmap. destruct (Hf _ Hin) as [Hn _]. cbn in Hn. set_solver.
      * apply Forall_cons. split; [done|]. apply Forall_forall. intros m Hin. destruct (Hf _ Hin). split; [set_solver|done].
    + intros (c & Hc & Hts & Hb)%closing_ok; [|done]. exists [TDelim c]. split_and!; [done..|]. exists []. split; [by constructor|]. split; constructor.
  - destruct (More d) eqn:Hm.
    + intros (d1 & Hv & H)%bind_ok. apply IH in Hv as (ts & Hts & Hb & v & Hsp & Hg); [|by right]. destruct Hdepth as [Hdepth|]; [|done].
      apply IH in H as (ts' & Hts' & Hb' & vs & Hsp' & Hf); [|by left]. exists (ts ++ ts'). rewrite Hts, Hts'.
      split_and!; [by rewrite app_assoc|congruence|]. exists (v :: vs). split; [by constructor|]. by constructor.
    + intros (c & Hc & Hts & Hb)%closing_ok; [|done]. exists [TDelim c]. split_and!; [done..|]. exists []. split; [by constructor|]. constructor.
Qed.

Lemma closing_reads expected c rest broken : closes exact expected c → closing vr expected (MkDecoder (TDelim c :: rest) broken) = Ok (MkDecoder rest broken).
Proof.
  intros [->|[He _]]; unfold closing; cbn; [rewrite bool_decide_eq_true_2 by done; by rewrite andb_false_r|by rewrite He].
Qed.

Lemma closes_not_More expected c rest broken :
  expected = "]"%char ∨ expected = "}"%char → closes exact expected c → More (MkDecoder (TDelim c :: rest) broken) = false.
Proof.
  intros He Hc. assert (c = "]"%char ∨ c = "}"%char) as [->| ->]; [|done..]. destruct Hc as [->|[_ ?]]; done.
Qed.

Lemma walk_complete :
  (∀ v ts, spells exact v ts → ∀ fuel depth rest broken, (2 * length ts ≤ fuel)%nat → good_value vr depth v →
    walk fuel vr AtValue depth (MkDecoder (ts ++ rest) broken) = Ok (MkDecoder rest broken)) ∧
  (∀ ms ts, spells_members exact ms ts → ∀ fuel depth seen rest broken, (2 * length ts ≤ fuel)%nat → good_members vr depth seen ms →
    walk fuel vr (AtMembers seen) depth (MkDecoder (ts ++ rest) broken) = Ok (MkDecoder rest broken)) ∧
  (∀ vs ts, spells_items exact vs ts → ∀ fuel depth rest broken, (2 * length ts ≤ fuel)%nat → good_items vr depth vs →
    walk fuel vr AtItems depth (MkDecoder (ts ++ rest) broken) = Ok (MkDecoder rest broken)).
Proof.
  assert (∀ depth v, good_value vr depth v → too_deep vr depth = false) as Hdeep by (intros depth v [_ Hd]; eapply depth_ok_le; [|exact Hd]; lia).
  apply spells_all_ind.
  - intros str fuel depth rest broken Hf Hg%Hdeep. destruct fuel as [|fuel]; [cbn in Hf; lia|]. cbn [walk]. by rewrite Hg.
  - intros fuel depth rest broken Hf Hg%Hdeep. destruct fuel as [|fuel]; [cbn in Hf; lia|]. cbn [walk]. by rewrite Hg.
  - intros ms ts _ IH fuel depth rest broken Hf Hg. destruct fuel as [|fuel]; [cbn in Hf; lia|]. cbn [walk]. rewrite (Hdeep _ _ Hg).
    apply IH; [cbn in Hf; lia|]. apply good_object; [by eapply Hdeep|done].
  - intros vs ts _ IH fuel depth rest broken Hf Hg. destruct fuel as [|fuel]; [cbn in Hf; lia|]. cbn [walk]. rewrite (Hdeep _ _ Hg).
    apply IH; [cbn in Hf; lia|]. apply good_array; [by eapply Hdeep|done].
  - intros c Hc fuel depth seen rest broken Hf _. destruct fuel as [|fuel]; [cbn in Hf; lia|]. cbn [walk app].
    rewrite (closes_not_More "}" c) by auto. by apply closing_reads.
  - intros key v ms ts ts' _ IHv _ IHms fuel depth seen rest broken Hf [Hnd [[Hk Hv] Hms]%Forall_cons].
    destruct fuel as [|fuel]; [cbn in Hf; lia|]. cbn [length] in Hf. rewrite length_app in Hf. cbn [walk app].
    rewrite (More_open _ (TString key) ((ts ++ ts') ++ rest)) by done. cbn [Token dec_tokens mbind result_bind]. cbn in Hk.
    rewrite bool_decide_eq_false_2 by done. cbn [check mbind result_bind]. rewrite <-app_assoc, IHv by (done || lia). cbn [mbind result_bind].
    cbn in Hnd. apply NoDup_cons in Hnd as [Hn Hnd]. apply IHms; [lia|]. split; [done|]. rewrite Forall_forall in Hms |- *. intros m Hm.
    destruct (Hms m Hm) as [? ?]. split; [|done]. intros [Heq|?]%elem_of_union; [|done]. apply elem_of_singleton in Heq.
    apply Hn. rewrite <-Heq. by apply list_elem_of_fmap_2.
  - intros c Hc fuel depth rest broken Hf _. destruct fuel as [|fuel]; [cbn in Hf; lia|]. cbn [walk app].
    rewrite (closes_not_More "]" c) by auto. by apply closing_reads.
  - intros v vs ts ts' Hsp IHv Hit IHvs fuel depth rest broken Hf [Hv Hvs]%Forall_cons. apply spells_items_open in Hit. destruct (spells_open _ _ _ Hsp) as (t & ts1 & Ht & H1 & H2).
    rewrite length_app in Hf. assert (0 < length ts)%nat by (rewrite Ht; cbn; lia). destruct fuel as [|fuel]; [lia|]. cbn [walk].
    rewrite <-app_assoc, (More_open _ t (ts1 ++ ts' ++ rest)) by (rewrite ?Ht; done). rewrite IHv by (done || lia). cbn [mbind result_bind].
    apply IHvs; [lia|done].
Qed.

(** The walk never stops for lack of fuel: every round but the one that opens a value
    reads a token, and what follows it is shorter. *)
Definition step_cost (p : place) : nat := match p with AtValue => 0 | _ => 1 end.

Lemma walk_shorter fuel p depth d d' : walk fuel vr p depth d = Ok d' → (length (dec_tokens d') < length (dec_tokens d))%nat.
Proof.
  revert p depth d d'. induction fuel as [|fuel IH]; intros p depth d d'; cbn [walk]; [done|].
  assert (∀ c, closing vr c d = Ok d' → (length (dec_tokens d') < length (dec_tokens d))%nat) as Hclose.
  { unfold closing. intros c ([t d1] & [Ht _]%Token_ok & H)%bind_ok. apply bind_ok in H as (? & _ & [= ->]). rewrite Ht. cbn. lia. }
  destruct p as [|seen|].
  - intros ([] & _ & H)%bind_ok. apply bind_ok in H as ([t d1] & [Ht _]%Token_ok & H). rewrite Ht. cbn.
    destruct t as [c|str|]; [|injection H as <-; lia..]. destruct (bool_decide _); [apply IH in H; lia|]. destruct (bool_decide _); [apply IH in H; lia|done].
  - destruct (More d); [|apply Hclose]. intros ([t d1] & [Ht _]%Token_ok & H)%bind_ok. rewrite Ht. cbn. destruct t as [c|key|]; [done| |done].
    apply bind_ok in H as ([] & _ & H). apply bind_ok in H as (d2 & Hv%IH & H%IH). lia.
  - destruct (More d); [|apply Hclose]. intros (d2 & Hv%IH & H%IH)%bind_ok. lia.
Qed.

Lemma walk_fueled fuel p depth d : (2 * length (dec_tokens d) + step_cost p < fuel)%nat → walk fuel vr p depth d ≠ Err JFuel.
Proof.
  revert p depth d. induction fuel as [|fuel IH]; intros p depth d Hf; [lia|]. cbn [walk].
  assert (∀ c, closing vr c d ≠ Err JFuel) as Hclose.
  { intros c. unfold closing, Token, check. destruct (dec_tokens d); cbn; [by destruct (dec_broken d)|]. by destruct (_ && _). }
  destruct p as [|seen|]; cbn in Hf.
  - destruct (too_deep vr depth); cbn; [done|]. unfold Token. destruct (dec_tokens d) as [|t ts]; cbn in *; [by destruct (dec_broken d)|].
    destruct t as [c|str|]; try done. destruct (bool_decide _); [apply IH; cbn; lia|]. destruct (bool_decide _); [apply IH; cbn; lia|done].
  - destruct (More d) eqn:Hm; [|apply Hclose]. unfold Token. destruct (dec_tokens d) as [|t ts]; cbn in *; [by destruct (dec_broken d)|].
    destruct t as [c|key|]; try done. unfold check. destruct (bool_decide _); cbn; [done|].
    destruct (walk fuel vr AtValue (S depth) _) as [d1|e] eqn:Hv; cbn.
    + apply walk_shorter in Hv. cbn in Hv. apply IH. cbn. lia.
    + intros [= ->]. revert Hv. apply IH. cbn. lia.
  - destruct (More d) eqn:Hm; [|apply Hclose]. destruct (walk fuel vr AtValue (S depth) d) as [d1|e] eqn:Hv; cbn.
    + apply walk_shorter in Hv. apply IH. cbn. lia.
    + intros [= ->]. revert Hv. apply IH. cbn. lia.
Qed.

End walk.

(** C33: [unique_json] (every copy of validateUniqueJSON and
    rejectDuplicateJSONMembers) always ends, on every stream of tokens the decoder
    may deliver, whole or cut off, and accepts it exactly when it is the stream of one
    document, with nothing after it, in which no object at any level has two members of
    one name and which is nested within the copy's bound. For a copy that compares the
    closing tokens the streams of a document are its tokens; one that only reads them
    also takes the other closing delimiter, and leaves its refusal to the decoder. *)
Theorem unique_json_iff (vr : variant) (d : decoder) :
  unique_json vr d ≠ Err JFuel ∧
  (unique_json vr d = Ok tt ↔
     dec_broken d = false ∧ ∃ v, spells (vr_checks_closing vr) v (dec_tokens d) ∧ unique v ∧ too_deep vr (nesting v) = false) ∧
  ∀ v ts, (spells true v ts ↔ ts = tokens v) ∧ spells false v (tokens v).
Proof.
  split_and!.
  - unfold unique_json. destruct (walk _ _ _ _ _) as [rest|e] eqn:Hw; cbn.
    + unfold Token. destruct (dec_tokens rest); [by destruct (dec_broken rest)|done].
    + intros [= ->]. revert Hw. apply walk_fueled. unfold walk_fuel. cbn. lia.
  - unfold unique_json. split.
    + intros (rest & Hw & H)%bind_ok. apply walk_sound in Hw as (ts & Hts & Hb & v & Hsp & Hu & Hd); [|by right].
      unfold Token in H. destruct (dec_tokens rest) as [|t l] eqn:Hr; [|done]. destruct (dec_broken rest) eqn:Hbr; [done|].
      rewrite app_nil_r in Hts. split; [congruence|]. exists v. by rewrite Hts.
    + intros (Hb & v & Hsp & Hu & Hd). destruct d as [ts broken]. cbn [dec_tokens dec_broken] in *. subst broken.
      pose proof (proj1 (walk_complete vr) v ts Hsp (walk_fuel (MkDecoder ts false)) 0%nat [] false) as Hw. rewrite app_nil_r in Hw.
      rewrite Hw; [done|unfold walk_fuel; cbn; lia|by split].
  - intros v ts. split; [split; [apply (proj1 spells_exact)|intros ->; apply spells_tokens]|apply spells_tokens].
Qed.
