(* ===== verification/NetUrl.v ===== *)
(** * net/url and net, as far as the program uses them

    [url.Parse] and the escaping functions of its results are an interface:
    every theorem holds for whatever parser implements it. What the program
    does with a parsed URL (its fields, [Hostname], [Port]) is defined here. *)

From S2P Require Import Prelude GoStrings.
From stdpp Require Import options.

(** The fields of [url.URL] the program inspects; [url_HasUser] is [User != nil]. *)
Record URL := MkURL {
  url_Scheme : string; url_Opaque : string; url_HasUser : bool; url_Host : string;
  url_Path : string; url_RawPath : string; url_ForceQuery : bool; url_RawQuery : string;
  url_Fragment : string; url_RawFragment : string;
}.

Class NetURL := {
  (** [url.Parse] *)
  url_Parse : string → option URL;
  (** [URL.EscapedPath] *)
  url_EscapedPath : URL → string;
  (** [url.PathUnescape] *)
  url_PathUnescape : string → option string;
  (** [net.ParseIP(host) != nil] *)
  net_IsIP : string → bool;
}.

(** [splitHostPort] *)
Definition splitHostPort (hostPort : string) : string * string :=
  let '(host, port) := match cut_last hostPort ":" with
                       | Some (h, p) => if all_bytes isDigit p then (h, p) else (hostPort, "")
                       | None => (hostPort, "")
                       end in
  (if strings_HasPrefix host "[" && strings_HasSuffix host "]"
   then String.substring 1 (String.length host - 2) host else host, port).

Definition url_Hostname (u : URL) : string := (splitHostPort (url_Host u)).1.

Definition url_Port (u : URL) : string := (splitHostPort (url_Host u)).2.

(** A parser for [https://host/path], enough for concrete documents *)
Definition https_only : NetURL :=
  {| url_Parse s :=
       if strings_HasPrefix s "https://" then
         let rest := strings_TrimPrefix s "https://" in
         let '(host, path, slash) := strings_Cut rest "/" in
         Some (MkURL "https" "" false host (if slash then "/" +:+ path else "") "" false "" "" "")
       else None;
     url_EscapedPath u := url_Path u;
     url_PathUnescape s := Some s;
     net_IsIP s := false |}.
