(* ===== verification/Version.v ===== *)
(** * internal/homebrew/version: PkgVersion syntax and version ordering

    [PkgVersion]/[SplitPkgVersion] and the names built from them, and the
    comparison the resolver checks bottle minimums with. *)

From S2P Require Import Prelude GoStrings Regex.
From stdpp Require Import options.
Local Open Scope Z_scope.

Definition no_newline (s : string) : bool := negb (strings_Contains s "010").

(** [revisionSuffix], a greedy prefix, an underscore and digits: the split at the last underscore,
    when digits follow it and no newline precedes it. *)
Definition revisionSuffix (v : string) : option (string * string) :=
  match cut_last v "_" with
  | Some (b, a) =>
      if bool_decide (a ≠ "") && all_bytes isDigit a && no_newline b then Some (b, a) else None
  | None => None
  end.

(** [safeName] = [^[a-z0-9][a-z0-9+_.@-]*$] *)
Definition safeName : regex :=
  RCat (RCls (λ c, isLower c || isDigit c))
       (RStar (RCls (λ c, isLower c || isDigit c || one_of "+_.@-" c))).

Definition PkgVersion (stable : string) (revision : Z) : string :=
  if 0 <? revision then stable +:+ "_" +:+ strconv_Itoa revision else stable.

Inductive version_error :=
| RevisionSyntax (e : atoi_error)
| EmptyPackageVersion
| InvalidFormulaName
| InvalidComponent.

Definition SplitPkgVersion (v : string) : result version_error (string * Z) :=
  match revisionSuffix v with
  | Some (b, a) =>
      match strconv_Atoi a with
      | Err e => Err (RevisionSyntax e)
      | Ok n => Ok (b, n)
      end
  | None =>
      if bool_decide (strings_TrimSpace v = "") then Err EmptyPackageVersion else Ok (v, 0)
  end.

Definition ImageTag (pkgVersion : string) (bottleRebuild : Z) : string :=
  if 0 <? bottleRebuild then pkgVersion +:+ "-" +:+ strconv_Itoa bottleRebuild else pkgVersion.

(** [strings.NewReplacer("@", "/", "+", "x")] *)
Definition escape_char (c : ascii) : ascii :=
  if ascii_eqb c "@" then "/" else if ascii_eqb c "+" then "x" else c.

Definition validName (name : string) : bool :=
  matches safeName name && negb (strings_ContainsAny name "/\").

Definition OCIFormulaPath (name : string) : result version_error string :=
  if negb (validName name) then Err InvalidFormulaName else Ok (map_bytes escape_char name).

(** The loop over the two labelled components runs in map order; both failures
    are one error here. *)
Definition validComponent (v : string) : bool :=
  negb (bool_decide (v = "") || bool_decide (path_Base v ≠ v) || strings_ContainsAny v "/\").

Definition BottleFilename (name pkgVersion bottleTag : string) (rebuild : Z) : result version_error string :=
  if negb (validName name) then Err InvalidFormulaName
  else if negb (validComponent pkgVersion && validComponent bottleTag) then Err InvalidComponent
  else
    let suffix := if 0 <? rebuild then "." +:+ strconv_Itoa rebuild else "" in
    Ok (name +:+ "--" +:+ pkgVersion +:+ "." +:+ bottleTag +:+ ".bottle" +:+ suffix +:+ ".tar.gz").

(** ** Tokens *)

Record token := Token { value : string; numeric : bool }.

Record tok_state := TokState { tok_out : list token; tok_buf : string; tok_kind : Z }.

Definition flush (st : tok_state) : tok_state :=
  if bool_decide (tok_buf st = "") then st
  else TokState (tok_out st ++ [Token (tok_buf st) (tok_kind st =? 1)]) "" (tok_kind st).

Section unicode.
Context {U : UnicodeTables}.

Definition rune_kind (r : Z) : Z :=
  if unicode_IsDigit r then 1 else if unicode_IsLetter r then 2 else 0.

(** One iteration of the loop over [strings.ToLower(v)] *)
Definition tok_step (st : tok_state) (r : Z) : tok_state :=
  let k := rune_kind r in
  if k =? 0 then let st := flush st in TokState (tok_out st) (tok_buf st) 0
  else
    let st := if negb (tok_kind st =? 0) && negb (tok_kind st =? k) then flush st else st in
    TokState (tok_out st) (tok_buf st +:+ utf8_encode r) k.

Definition tokenize (v : string) : list token :=
  tok_out (flush (foldl tok_step (TokState [] "" 0) (fst <$> utf8_decode (strings_ToLower v)))).

End unicode.

(** ** Comparison *)

Definition orZero (s : string) : string := if bool_decide (s = "") then "0" else s.

Definition compareNumeric (a b : string) : Z :=
  let a := orZero (strings_TrimLeft a "0") in
  let b := orZero (strings_TrimLeft b "0") in
  if strlen a <? strlen b then -1
  else if strlen b <? strlen a then 1
  else strings_Compare a b.

Definition alphaRank (value : string) : Z :=
  if bool_decide (value = "dev") then -5
  else if bool_decide (value = "alpha") || bool_decide (value = "a") then -4
  else if bool_decide (value = "beta") || bool_decide (value = "b") then -3
  else if bool_decide (value = "pre") || bool_decide (value = "preview") then -2
  else if bool_decide (value = "rc") then -1
  else 1.

Fixpoint compareEndToRemainder (rest : list token) : Z :=
  match rest with
  | [] => 0
  | t :: rest =>
      if numeric t then
        if negb (compareNumeric (value t) "0" =? 0) then -1 else compareEndToRemainder rest
      else if alphaRank (value t) <? 0 then 1 else -1
  end.

Definition compareAlpha (a b : string) : Z :=
  if bool_decide (a = b) then 0
  else
    let oa := alphaRank a in
    let ob := alphaRank b in
    if negb (oa =? ob) then if oa <? ob then -1 else 1
    else strings_Compare a b.

(** The loop of [Compare] over the two token lists *)
Fixpoint compareTokens (ta tb : list token) : Z :=
  match ta, tb with
  | [], [] => 0
  | [], _ => compareEndToRemainder tb
  | _, [] => - compareEndToRemainder ta
  | x :: ta', y :: tb' =>
      if numeric x && numeric y then
        let c := compareNumeric (value x) (value y) in
        if negb (c =? 0) then c else compareTokens ta' tb'
      else if negb (Bool.eqb (numeric x) (numeric y)) then
        if numeric x then 1 else -1
      else
        let c := compareAlpha (value x) (value y) in
        if negb (c =? 0) then c else compareTokens ta' tb'
  end.

Definition Compare `{!UnicodeTables} (a b : string) : Z := compareTokens (tokenize a) (tokenize b).

Definition AtLeast `{!UnicodeTables} (selectedVersion : string) (selectedRevision : Z)
    (minimumVersion : string) (minimumRevision : Z) : bool :=
  let c := Compare selectedVersion minimumVersion in
  if negb (c =? 0) then 0 <? c else minimumRevision <=? selectedRevision.

(** ** Reference definitions *)

(** A version with numeric segments separated by dots *)
Definition dotted (xs : list Z) : string := strings_Join "." (strconv_Itoa <$> xs).

(** The order of such versions: segment by segment, missing segments being 0 *)
Definition segment (xs : list Z) (i : nat) : Z := nth i xs 0.

Fixpoint first_nonzero (xs : list Z) : Z :=
  match xs with
  | [] => 0
  | x :: xs => if x =? 0 then first_nonzero xs else Z.sgn x
  end.

Fixpoint cmp_padded (xs ys : list Z) : Z :=
  match xs, ys with
  | [], _ => - first_nonzero ys
  | _, [] => first_nonzero xs
  | x :: xs, y :: ys => if x =? y then cmp_padded xs ys else Z.sgn (x - y)
  end.

(** ** Lemmas: numeric comparison *)

Lemma isDigit_value c : isDigit c = true → 0 <= digit_value c <= 9.
Proof. intros H%byte_in_spec. unfold digit_value. lia. Qed.

Lemma digits_value_bounds s : all_bytes isDigit s = true → 0 <= digits_value s < 10 ^ strlen s.
Proof.
  induction s as [|c s IH]; [done|]. cbn [all_bytes]. intros [Hc Hs]%andb_prop.
  specialize (IH Hs). apply isDigit_value in Hc. unfold digits_value in *. cbn [digits_value_go].
  rewrite digits_value_go_linear.
  rewrite strlen_cons, Z.pow_succ_r by apply strlen_nonneg. nia.
Qed.

Lemma digits_value_cons c s :
  digits_value (String c s) = digit_value c * 10 ^ strlen s + digits_value s.
Proof. unfold digits_value. cbn [digits_value_go]. rewrite digits_value_go_linear. lia. Qed.

Lemma Compare_digits a b :
  all_bytes isDigit a = true → all_bytes isDigit b = true → strlen a = strlen b →
  strings_Compare a b = Z.sgn (digits_value a - digits_value b).
Proof.
  revert b. induction a as [|c a IH]; intros [|d b] Ha Hb Hl; [done|..]; rewrite ?strlen_cons, ?strlen_nil in Hl.
  { pose proof (strlen_nonneg b). lia. }
  { pose proof (strlen_nonneg a). lia. }
  cbn [all_bytes] in *. case_bool.
  assert (strlen a = strlen b) as Hl' by lia.
  rewrite Compare_cons, !digits_value_cons, Hl'.
  pose proof (digits_value_bounds a ltac:(done)) as Ba.
  pose proof (digits_value_bounds b ltac:(done)) as Bb. rewrite Hl' in Ba.
  assert (∀ x, digit_value x = byte x - 48) as Hdv by done. rewrite !Hdv in *.
  repeat case_match; case_bool.
  - symmetry. apply Z.sgn_neg. nia.
  - symmetry. apply Z.sgn_pos. nia.
  - assert (byte c = byte d) as -> by lia. rewrite IH by done. f_equal. lia.
Qed.

Lemma TrimLeft_zero a :
  all_bytes isDigit a = true →
  let t := strings_TrimLeft a "0" in
  digits_value t = digits_value a ∧ all_bytes isDigit t = true ∧
  (t = "" ∨ 10 ^ (strlen t - 1) <= digits_value t).
Proof.
  induction a as [|c a IH]; cbn [all_bytes strings_TrimLeft]; [cbn; auto|]. intros [Hc Ha]%andb_prop.
  destruct (ascii_eqb c "0") eqn:E.
  - apply ascii_eqb_eq in E as ->. destruct (IH Ha) as (Hv & Hd & Ht). split_and!; [|done..].
    rewrite Hv, digits_value_cons. change (digit_value "0") with 0. lia.
  - split_and!; [done|cbn; by rewrite Hc|]. right.
    rewrite digits_value_cons. pose proof (digits_value_bounds a Ha).
    rewrite strlen_cons. replace (Z.succ (strlen a) - 1) with (strlen a) by lia.
    apply ascii_eqb_neq in E. pose proof (isDigit_value c Hc) as [Hc1 Hc2].
    assert (digit_value c ≠ 0) as Hne.
    { intros H0. apply E. apply byte_inj. unfold digit_value in H0. change (byte "0") with 48. lia. }
    pose proof (Z.pow_nonneg 10 (strlen a)). nia.
Qed.

(** Numeric tokens compare as the numbers they denote, whatever their length. *)
Lemma compareNumeric_value a b :
  all_bytes isDigit a = true → all_bytes isDigit b = true →
  compareNumeric a b = Z.sgn (digits_value a - digits_value b).
Proof.
  intros Ha Hb. unfold compareNumeric.
  assert (∀ s, all_bytes isDigit s = true →
    let t := orZero (strings_TrimLeft s "0") in
    digits_value t = digits_value s ∧ all_bytes isDigit t = true ∧ 1 <= strlen t ∧
    (strlen t = 1 ∨ 10 ^ (strlen t - 1) <= digits_value t)) as Hcanon.
  { intros s Hs t. subst t. pose proof (TrimLeft_zero s Hs) as (Hv & Hd & Ht). cbn zeta in *.
    unfold orZero. case_bool_decide as E.
    - rewrite <-Hv, E. split_and!; try done. by left.
    - destruct Ht as [Ht|Ht]; [done|]. split_and!; [done..| |by right].
      destruct (strings_TrimLeft s "0") as [|d t]; [done|]. rewrite strlen_cons.
      pose proof (strlen_nonneg t). lia. }
  destruct (Hcanon a Ha) as (<- & Hda & Hla & Hca). destruct (Hcanon b Hb) as (<- & Hdb & Hlb & Hcb).
  clear Ha Hb Hcanon.
  generalize dependent (orZero (strings_TrimLeft a "0")).
  generalize dependent (orZero (strings_TrimLeft b "0")). clear a b. intros b Hdb Hlb Hcb a Hda Hla Hca.
  pose proof (digits_value_bounds a Hda). pose proof (digits_value_bounds b Hdb).
  assert (∀ x y, strlen x < strlen y → 1 <= strlen x →
    (strlen y = 1 ∨ 10 ^ (strlen y - 1) <= digits_value y) →
    10 ^ strlen x <= digits_value y) as Hlt.
  { intros x y Hxy Hx [Hy|Hy]; [lia|]. etrans; [|exact Hy]. apply Z.pow_le_mono_r; lia. }
  repeat case_match; case_bool.
  - symmetry. apply Z.sgn_neg. specialize (Hlt a b). lia.
  - symmetry. apply Z.sgn_pos. specialize (Hlt b a). lia.
  - apply Compare_digits; [done..|lia].
Qed.

(** ** Lemmas: tokens of a dotted version *)

Lemma list_ascii_app a b :
  String.list_ascii_of_string (a +:+ b)
  = String.list_ascii_of_string a ++ String.list_ascii_of_string b.
Proof. induction a as [|c a IH]; [done|]. rewrite app_cons_str. cbn. by rewrite IH. Qed.

Section tokens.
Context {U : UnicodeTables}.

Definition bytes_of (s : string) : list Z := byte <$> String.list_ascii_of_string s.

Lemma bytes_of_app a b : bytes_of (a +:+ b) = bytes_of a ++ bytes_of b.
Proof. unfold bytes_of. by rewrite list_ascii_app, fmap_app. Qed.

Lemma digit_kind c : isDigit c = true → rune_kind (byte c) = 1 ∧ utf8_encode (byte c) = String c "".
Proof.
  intros H. assert (isAscii c = true) as Ha.
  { unfold isAscii. apply byte_in_spec in H. lia. }
  split; [|by apply utf8_encode_ascii].
  unfold rune_kind. rewrite IsDigit_ascii, H; [done|]. by apply Z.ltb_lt.
Qed.

Lemma fold_digits s out buf k :
  all_bytes isDigit s = true → k = 0 ∨ k = 1 → s ≠ "" →
  foldl tok_step (TokState out buf k) (bytes_of s) = TokState out (buf +:+ s) 1.
Proof.
  revert buf k. induction s as [|c s IH]; intros buf k Hs Hk Hne; [done|].
  cbn [all_bytes] in Hs. case_bool. unfold bytes_of. cbn [String.list_ascii_of_string fmap list_fmap foldl].
  destruct (digit_kind c) as [Hkind Henc]; [done|].
  assert (tok_step (TokState out buf k) (byte c) = TokState out (buf +:+ String c "") 1) as ->.
  { unfold tok_step. rewrite Hkind, Henc. by destruct Hk as [-> | ->]. }
  destruct s as [|d s]; [done|]. unfold bytes_of in IH. rewrite IH; [|done|by right|done].
  by rewrite app_assoc_str.
Qed.

Lemma step_dot out buf : buf ≠ "" →
  tok_step (TokState out buf 1) (byte ".") = TokState (out ++ [Token buf true]) "" 0.
Proof.
  intros Hb. unfold tok_step, rune_kind. rewrite IsDigit_ascii, IsLetter_ascii by done. cbn.
  unfold flush. cbn. by rewrite bool_decide_eq_false_2.
Qed.

Lemma dotted_cons x xs : xs ≠ [] → dotted (x :: xs) = strconv_Itoa x +:+ "." +:+ dotted xs.
Proof. intros. unfold dotted. cbn [fmap list_fmap]. apply Join_cons. by destruct xs. Qed.

Lemma fold_dotted xs out :
  Forall (λ x, 0 <= x) xs → xs ≠ [] →
  ∃ st, foldl tok_step (TokState out "" 0) (bytes_of (dotted xs)) = st ∧
    tok_out (flush st) = out ++ ((λ x, Token (strconv_Itoa x) true) <$> xs).
Proof.
  revert out. induction xs as [|x xs IH]; intros out Hpos Hne; [done|].
  inversion Hpos as [|? ? Hx Hxs]; subst. destruct (Itoa_digits x Hx) as [Hnx Hdx].
  destruct (decide (xs = [])) as [->|Hxs'].
  - eexists; split; [done|]. unfold dotted. cbn [fmap list_fmap strings_Join].
    rewrite fold_digits by auto. unfold flush. cbn [tok_buf tok_out tok_kind].
    by rewrite app_nil_l_str, bool_decide_eq_false_2.
  - rewrite dotted_cons, !bytes_of_app, !foldl_app, fold_digits by auto.
    change (bytes_of ".") with [byte "."]. cbn [foldl].
    rewrite step_dot by (by rewrite app_nil_l_str). destruct (IH (out ++ [Token ("" +:+ strconv_Itoa x) true]))
      as (st & -> & Hst); [done..|]. eexists; split; [done|]. rewrite Hst, <-app_assoc. done.
Qed.

Lemma dotted_bytes xs :
  Forall (λ x, 0 <= x) xs → all_bytes (λ c, isDigit c || ascii_eqb c ".") (dotted xs) = true.
Proof.
  induction xs as [|x xs IH]; intros Hpos; [done|]. inversion Hpos as [|? ? Hx Hxs]; subst.
  destruct (Itoa_digits x Hx) as [_ Hdx].
  assert (all_bytes (λ c, isDigit c || ascii_eqb c ".") (strconv_Itoa x) = true).
  { revert Hdx. apply all_bytes_impl. intros c ->. done. }
  destruct (decide (xs = [])) as [->|Hne]; [done|].
  rewrite dotted_cons, !all_bytes_app by done. rewrite (IH Hxs). by apply andb_true_iff.
Qed.

Lemma tokenize_dotted xs :
  Forall (λ x, 0 <= x) xs → tokenize (dotted xs) = (λ x, Token (strconv_Itoa x) true) <$> xs.
Proof.
  intros Hpos. destruct (decide (xs = [])) as [->|Hne]; [done|].
  pose proof (dotted_bytes xs Hpos) as Hb. unfold tokenize.
  assert (∀ c, isDigit c || ascii_eqb c "." = true → isAscii c && negb (isUpper c) = true) as Hasc.
  { intros c [H|H]%orb_true_iff.
    - apply byte_in_spec in H. unfold isAscii, isUpper, byte_in.
      destruct (Z.ltb_spec (byte c) 128), (Z.leb_spec 65 (byte c)); lia.
    - apply ascii_eqb_eq in H as ->. done. }
  rewrite ToLower_id by (revert Hb; by apply all_bytes_impl).
  rewrite utf8_decode_ascii.
  2: { revert Hb. apply all_bytes_impl. intros c [? _]%Hasc%andb_prop. done. }
  rewrite <-list_fmap_compose. cbn.
  destruct (fold_dotted xs [] Hpos Hne) as (st & Hst & Hout). unfold bytes_of in Hst.
  by rewrite <-Hst in Hout.
Qed.

End tokens.

(** ** Lemmas: the comparison *)

Lemma compareNumeric_antisym a b : compareNumeric b a = - compareNumeric a b.
Proof.
  unfold compareNumeric. rewrite Compare_antisym. repeat case_match; case_bool; lia.
Qed.

Lemma compareAlpha_antisym a b : compareAlpha b a = - compareAlpha a b.
Proof.
  unfold compareAlpha. rewrite Compare_antisym.
  rewrite (bool_decide_ext (b = a) (a = b)) by done. rewrite (Z.eqb_sym (alphaRank b)).
  repeat case_match; case_bool; lia.
Qed.

Lemma compareTokens_antisym ta tb : compareTokens tb ta = - compareTokens ta tb.
Proof.
  revert tb. induction ta as [|x ta IH]; intros [|y tb]; cbn [compareTokens]; try lia.
  rewrite (compareNumeric_antisym (value x) (value y)), (compareAlpha_antisym (value x) (value y)), IH.
  destruct (numeric x), (numeric y); cbn; try lia.
  all: repeat case_match; case_bool; lia.
Qed.

Lemma compareEnd_Itoa xs :
  Forall (λ x, 0 <= x) xs →
  compareEndToRemainder ((λ x, Token (strconv_Itoa x) true) <$> xs) = - first_nonzero xs.
Proof.
  induction 1 as [|x xs Hx _ IH]; [done|]. cbn [fmap list_fmap compareEndToRemainder numeric value first_nonzero].
  destruct (Itoa_digits x Hx) as [_ Hd]. rewrite compareNumeric_value by done.
  rewrite Itoa_value by done. change (digits_value "0") with 0. rewrite Z.sub_0_r, IH.
  destruct (Z.eqb_spec x 0) as [->|Hne]; [done|].
  rewrite Z.sgn_pos by lia. done.
Qed.

Lemma compareTokens_Itoa xs ys :
  Forall (λ x, 0 <= x) xs → Forall (λ y, 0 <= y) ys →
  compareTokens ((λ x, Token (strconv_Itoa x) true) <$> xs) ((λ y, Token (strconv_Itoa y) true) <$> ys)
  = cmp_padded xs ys.
Proof.
  intros Hxs. revert ys. induction Hxs as [|x xs Hx Hxs IH]; intros ys Hys.
  - destruct Hys as [|y ys Hy Hys]; [done|].
    cbn [fmap list_fmap compareTokens cmp_padded]. apply (compareEnd_Itoa (y :: ys)). by constructor.
  - destruct Hys as [|y ys Hy Hys].
    + pose proof (compareEnd_Itoa (x :: xs)) as He. cbn [fmap list_fmap compareTokens cmp_padded] in *.
      rewrite He by (by constructor). lia.
    + cbn [fmap list_fmap compareTokens cmp_padded numeric value andb]. rewrite (IH ys Hys).
      rewrite compareNumeric_value by (apply Itoa_digits; done). rewrite !Itoa_value by done.
      destruct (Z.eqb_spec x y) as [->|Hne]; [by rewrite Z.sub_diag|].
      destruct (Z.eqb_spec (Z.sgn (x - y)) 0) as [E|]; [|done]. apply Z.sgn_null_iff in E. lia.
Qed.

Lemma first_nonzero_spec ys :
  Forall (λ y, 0 <= y) ys →
  (first_nonzero ys = 0 ∧ ∀ i, segment ys i = 0) ∨
  (first_nonzero ys = 1 ∧ ∃ i, (∀ j, (j < i)%nat → segment ys j = 0) ∧ 0 < segment ys i).
Proof.
  induction 1 as [|y ys Hy _ IH]; [left; split; [done|]; by intros [|i]|]. cbn [first_nonzero].
  destruct (Z.eqb_spec y 0) as [->|Hne].
  - destruct IH as [[-> Hz]|[-> (i & Hlt & Hi)]]; [left|right]; (split; [done|]).
    + intros [|i]; [done|]. apply Hz.
    + exists (S i). split; [|done]. intros [|j] Hj; [done|]. apply Hlt. lia.
  - right. split; [apply Z.sgn_pos; lia|]. exists O. split; [lia|]. cbn. lia.
Qed.

(** The padded comparison is decided by the first segment where the two differ. *)
Lemma cmp_padded_spec xs ys :
  Forall (λ x, 0 <= x) xs → Forall (λ y, 0 <= y) ys →
  (cmp_padded xs ys = 0 ∧ ∀ i, segment xs i = segment ys i) ∨
  ∃ i, (∀ j, (j < i)%nat → segment xs j = segment ys j) ∧ segment xs i ≠ segment ys i ∧
       cmp_padded xs ys = Z.sgn (segment xs i - segment ys i).
Proof.
  intros Hxs. revert ys. induction Hxs as [|x xs Hx Hxs IH]; intros ys Hys.
  - cbn [cmp_padded]. assert (∀ i, segment [] i = 0) as Hnil by (by intros []).
    destruct (first_nonzero_spec ys Hys) as [[-> Hz]|[-> (i & Hlt & Hi)]]; [left|right].
    + split; [done|]. intros i. by rewrite Hz, Hnil.
    + exists i. rewrite Hnil. split_and!; [|lia|symmetry; apply Z.sgn_neg; lia].
      intros j Hj. by rewrite Hnil, Hlt.
  - destruct Hys as [|y ys Hy Hys].
    + cbn [cmp_padded]. assert (∀ i, segment [] i = 0) as Hnil by (by intros []).
      destruct (first_nonzero_spec (x :: xs)) as [[-> Hz]|[-> (i & Hlt & Hi)]]; [by constructor|left|right].
      * split; [done|]. intros i. by rewrite Hz, Hnil.
      * exists i. rewrite Hnil. split_and!; [|lia|symmetry; apply Z.sgn_pos; lia].
        intros j Hj. by rewrite Hnil, Hlt.
    + cbn [cmp_padded]. destruct (Z.eqb_spec x y) as [->|Hne].
      * destruct (IH ys Hys) as [[-> Heq]|(i & Hlt & Hi & ->)]; [left|right].
        -- split; [done|]. intros [|i]; [done|]. apply Heq.
        -- exists (S i). split_and!; [|done..]. intros [|j] Hj; [done|]. apply Hlt. lia.
      * right. exists O. split_and!; [lia|done..].
Qed.

(** ** Lemmas: the revision suffix *)

Lemma cut_last_spec a b c : strings_Count b c = 0%nat → cut_last (a +:+ String c b) c = Some (a, b).
Proof.
  intros Hb. assert (cut_last b c = None) as Hn.
  { clear a. induction b as [|d b IH]; cbn in *; [done|]. destruct (ascii_eqb d c); [lia|]. by rewrite IH. }
  induction a as [|d a IH]; rewrite ?app_cons_str, ?app_nil_l_str; cbn [cut_last].
  - by rewrite Hn, ascii_eqb_refl.
  - by rewrite IH.
Qed.

Lemma revisionSuffix_digits stable ds :
  no_newline stable = true → ds ≠ "" → all_bytes isDigit ds = true →
  revisionSuffix (stable +:+ "_" +:+ ds) = Some (stable, ds).
Proof.
  intros Hn Hne Hd. unfold revisionSuffix. change ("_" +:+ ds) with (String "_" ds).
  rewrite cut_last_spec by (by apply (all_bytes_Count0 isDigit)).
  by rewrite Hn, Hd, bool_decide_eq_true_2.
Qed.

(** ** Properties *)

(** [Compare] is antisymmetric and its answer is the sign -1, 0 or 1, for
    all byte strings: swapping the arguments negates the answer, so a version
    equals itself and no two versions are each greater than the other. *)
Theorem Compare_swap `{!UnicodeTables} a b :
  Compare b a = - Compare a b ∧ Compare a a = 0.
Proof.
  split; [apply compareTokens_antisym|].
  pose proof (compareTokens_antisym (tokenize a) (tokenize a)). unfold Compare. lia.
Qed.

(** On dotted numeric versions of any length and any magnitude, [Compare]
    is the comparison of the first differing segment, a missing segment
    counting as 0; it is 0 exactly when all segments agree. *)
Theorem Compare_dotted `{!UnicodeTables} xs ys
  (Hxs : Forall (λ x, 0 <= x) xs) (Hys : Forall (λ y, 0 <= y) ys) :
  (Compare (dotted xs) (dotted ys) = 0 ∧ ∀ i, segment xs i = segment ys i) ∨
  ∃ i, (∀ j, (j < i)%nat → segment xs j = segment ys j) ∧ segment xs i ≠ segment ys i ∧
       Compare (dotted xs) (dotted ys) = Z.sgn (segment xs i - segment ys i).
Proof.
  unfold Compare. rewrite !tokenize_dotted, compareTokens_Itoa by done. by apply cmp_padded_spec.
Qed.

Lemma Compare_dotted_witness :
  Forall (λ x, 0 <= x) [1; 10] ∧
  ((@Compare ascii_tables (dotted [1; 10]) (dotted [1; 9; 3]) = 0 ∧
      ∀ i, segment [1; 10] i = segment [1; 9; 3] i) ∨
   ∃ i, (∀ j, (j < i)%nat → segment [1; 10] j = segment [1; 9; 3] j) ∧
        segment [1; 10] i ≠ segment [1; 9; 3] i ∧
        @Compare ascii_tables (dotted [1; 10]) (dotted [1; 9; 3])
        = Z.sgn (segment [1; 10] i - segment [1; 9; 3] i)).
Proof.
  split; [repeat constructor; lia|].
  apply (@Compare_dotted ascii_tables); repeat constructor; lia.
Defined.

(** [Compare] is not a preorder on all versions: [1] and [1.0] compare
    equal, yet [1p] is above the first and below the second. *)
Theorem Compare_not_transitive :
  ∃ a b c, @Compare ascii_tables a b = 0 ∧ @Compare ascii_tables a c = -1 ∧
           @Compare ascii_tables b c = 1.
Proof. exists "1", "1.0", "1p". split_and!; vm_compute; reflexivity. Qed.

(** [SplitPkgVersion] inverts [PkgVersion] for every revision an [int] can
    hold, when the stable version is not blank, has no newline and does not
    itself end in an underscore and digits. *)
Theorem SplitPkgVersion_PkgVersion stable revision
  (Hrev : 0 <= revision <= max_int)
  (Hblank : strings_TrimSpace stable ≠ "")
  (Hline : no_newline stable = true)
  (Hsuffix : revisionSuffix stable = None) :
  SplitPkgVersion (PkgVersion stable revision) = Ok (stable, revision).
Proof.
  unfold PkgVersion. destruct (Z.ltb_spec 0 revision) as [Hpos|Hz].
  - destruct (Itoa_digits revision) as [Hne Hd]; [lia|].
    unfold SplitPkgVersion. by rewrite revisionSuffix_digits, Atoi_Itoa.
  - assert (revision = 0) as -> by lia. unfold SplitPkgVersion.
    by rewrite Hsuffix, bool_decide_eq_false_2.
Qed.

Lemma SplitPkgVersion_PkgVersion_witness :
  SplitPkgVersion (PkgVersion "3.14" 2) = Ok ("3.14", 2).
Proof. apply (SplitPkgVersion_PkgVersion "3.14" 2); vm_compute; done. Defined.

(** The side condition on the stable version is needed: a version that already
    ends in a revision suffix loses it. *)
Example SplitPkgVersion_ambiguous : SplitPkgVersion (PkgVersion "1_2" 0) = Ok ("1", 2).
Proof. reflexivity. Qed.
