(* ===== verification/FormulaId.v ===== *)
(** * internal/homebrew/formulaid: canonical Formula and tap identities

    [Parse] reads a bare Formula name or [owner/tap/formula], [FormulaID_String]
    writes the canonical form. The round trips and the safety of every
    component as a path element are the properties the rest of the program
    relies on when it builds repository names and file names from an identity. *)

From S2P Require Import Prelude GoStrings.
From stdpp Require Import options.
Local Open Scope Z_scope.

Definition coreOwner : string := "homebrew".
Definition coreTapName : string := "core".

Definition maxOwnerBytes : Z := 39.
Definition maxTapBytes : Z := 91.
Definition maxFormulaBytes : Z := 252.
Definition maxTapIDBytes : Z := maxOwnerBytes + 1 + maxTapBytes.
Definition maxFormulaIDBytes : Z := maxTapIDBytes + 1 + maxFormulaBytes.

(** The components an error can name, and why one is refused *)
Inductive component := COwner | CTap | CFormula.

Inductive id_reason :=
| ComponentEmpty (k : component)
| ComponentDots (k : component)
| ComponentTooLong (k : component)
| BadFirstOrLast (k : component)
| BadVersionedSyntax
| BadCharacters (k : component)
| InTap (why : id_reason)
| IdentityTooLong
| WrongShape.

Inductive id_error :=
| ErrInvalidFormulaID (why : id_reason)
| ErrInvalidTap (why : id_reason)
| ErrDuplicateRoot (first i : nat)
| ErrRoot (i : nat) (e : id_error).

(** A non-zero value comes only from [newTap] and [newFormulaID]; the zero
    value has empty fields. *)
Record Tap := MkTap { tap_owner : string; tap_name : string }.
Record FormulaID := MkFormulaID { id_tap : Tap; id_name : string }.

#[export] Instance Tap_eq_dec : EqDecision Tap.
Proof. solve_decision. Defined.
#[export] Instance FormulaID_eq_dec : EqDecision FormulaID.
Proof. solve_decision. Defined.
#[export] Instance Tap_countable : Countable Tap.
Proof.
  apply (inj_countable' (λ t, (tap_owner t, tap_name t)) (λ p, MkTap p.1 p.2)). by intros [].
Defined.
#[export] Instance FormulaID_countable : Countable FormulaID.
Proof.
  apply (inj_countable' (λ i, (id_tap i, id_name i)) (λ p, MkFormulaID p.1 p.2)). by intros [].
Defined.

Definition zeroTap : Tap := MkTap "" "".
Definition zeroFormulaID : FormulaID := MkFormulaID zeroTap "".

Definition CoreTap : Tap := MkTap coreOwner coreTapName.

Definition isLowerAlphaNumeric (c : ascii) : bool := isLower c || isDigit c.

Definition validateComponent (kind : component) (value : string) (maxBytes : Z) : result id_reason unit :=
  _ ← check (bool_decide (value = "")) (ComponentEmpty kind);
  _ ← check (bool_decide (value = ".") || bool_decide (value = "..")) (ComponentDots kind);
  check (maxBytes <? strlen value) (ComponentTooLong kind).

(** [value[0]] and [value[len(value)-1]] of a non-empty value *)
Definition first_byte (s : string) : ascii := match s with String c _ => c | "" => "000"%char end.
Fixpoint last_byte (s : string) : ascii :=
  match s with
  | "" => "000"%char
  | String c "" => c
  | String _ s => last_byte s
  end.

(** The loop of [validateOwner] *)
Fixpoint owner_chars (previousHyphen : bool) (s : string) : bool :=
  match s with
  | "" => true
  | String c s =>
      if isLowerAlphaNumeric c then owner_chars false s
      else if ascii_eqb c "-" && negb previousHyphen then owner_chars true s
      else false
  end.

Definition validateOwner (owner : string) : result id_reason unit :=
  _ ← validateComponent COwner owner maxOwnerBytes;
  _ ← check (negb (isLowerAlphaNumeric (first_byte owner))
             || negb (isLowerAlphaNumeric (last_byte owner))) (BadFirstOrLast COwner);
  check (negb (owner_chars false owner)) (BadCharacters COwner).

Definition validateTapName (name : string) : result id_reason unit :=
  _ ← validateComponent CTap name maxTapBytes;
  _ ← check (negb (isLowerAlphaNumeric (first_byte name))) (BadFirstOrLast CTap);
  check (negb (all_bytes (λ c, isLowerAlphaNumeric c || strings_Contains "._-" c) name))
        (BadCharacters CTap).

Definition validateFormulaName (name : string) : result id_reason unit :=
  _ ← validateComponent CFormula name maxFormulaBytes;
  _ ← check (negb (isLowerAlphaNumeric (first_byte name))) (BadFirstOrLast CFormula);
  _ ← check ((1 <? strings_Count name "@")%nat || strings_HasSuffix name "@") BadVersionedSyntax;
  check (negb (all_bytes (λ c, isLowerAlphaNumeric c || strings_Contains "+_.@-" c) name))
        (BadCharacters CFormula).

Definition validateTap (tap : Tap) : result id_reason unit :=
  _ ← validateOwner (tap_owner tap);
  validateTapName (tap_name tap).

Definition newTap (owner name : string) : result id_reason Tap :=
  _ ← validateOwner owner;
  _ ← validateTapName name;
  Ok (MkTap owner name).

Definition newFormulaID (tap : Tap) (name : string) : result id_reason FormulaID :=
  _ ← map_err InTap (validateTap tap);
  _ ← validateFormulaName name;
  Ok (MkFormulaID tap name).

Definition NewTap (owner name : string) : result id_error Tap := map_err ErrInvalidTap (newTap owner name).

Definition New (tap : Tap) (name : string) : result id_error FormulaID :=
  map_err ErrInvalidFormulaID (newFormulaID tap name).

Definition ParseTap (input : string) : result id_error Tap :=
  if maxTapIDBytes <? strlen input then Err (ErrInvalidTap IdentityTooLong)
  else if negb (strings_Count input "/" =? 1)%nat then Err (ErrInvalidTap WrongShape)
  else
    let '(owner, name, _) := strings_Cut input "/" in
    map_err ErrInvalidTap (newTap owner name).

Definition Tap_String (t : Tap) : string :=
  if bool_decide (t = zeroTap) then "" else tap_owner t +:+ "/" +:+ tap_name t.

Definition Parse (input : string) : result id_error FormulaID :=
  if maxFormulaIDBytes <? strlen input then Err (ErrInvalidFormulaID IdentityTooLong)
  else
    match strings_Count input "/" with
    | 0%nat => map_err ErrInvalidFormulaID (newFormulaID CoreTap input)
    | 2%nat =>
        match strings_Split input "/" with
        | [p0; p1; p2] =>
            map_err ErrInvalidFormulaID (tap ← newTap p0 p1; newFormulaID tap p2)
        | _ => Err (ErrInvalidFormulaID WrongShape)
        end
    | _ => Err (ErrInvalidFormulaID WrongShape)
    end.

Definition FormulaID_String (id : FormulaID) : string :=
  if bool_decide (id = zeroFormulaID) then "" else Tap_String (id_tap id) +:+ "/" +:+ id_name id.

(** The loop of [ParseRoots]: [seen] maps an identity to the first index that named it. *)
Fixpoint ParseRoots_loop (i : nat) (seen : gmap FormulaID nat) (roots : list string)
    : result id_error (list FormulaID) :=
  match roots with
  | [] => Ok []
  | root :: roots =>
      match Parse root with
      | Err e => Err (ErrRoot i e)
      | Ok id =>
          match seen !! id with
          | Some first => Err (ErrDuplicateRoot first i)
          | None => ids ← ParseRoots_loop (S i) (<[id := i]> seen) roots; Ok (id :: ids)
          end
      end
  end.

Definition ParseRoots (roots : list string) : result id_error (list FormulaID) :=
  ParseRoots_loop 0 ∅ roots.

#[global] Arguments validateOwner : simpl never.
#[global] Arguments validateTapName : simpl never.
#[global] Arguments validateFormulaName : simpl never.
#[global] Arguments validateTap : simpl never.

(** ** Well-formed identities *)

Definition valid_tap (t : Tap) : Prop := validateTap t = Ok tt.
Definition valid_id (i : FormulaID) : Prop := valid_tap (id_tap i) ∧ validateFormulaName (id_name i) = Ok tt.

(** A string that names one entry of a directory: not empty, no separator, no
    parent or current directory, and short enough for a file name once [.rb]
    is appended. *)
Definition path_element (s : string) : Prop :=
  s ≠ "" ∧ strings_Contains s "/" = false ∧ strings_Contains s "\" = false ∧
  s ≠ "." ∧ s ≠ ".." ∧ strlen s + 3 <= 255.

(** ** Lemmas *)

Lemma validateComponent_ok k v n u :
  validateComponent k v n = Ok u → v ≠ "" ∧ v ≠ "." ∧ v ≠ ".." ∧ strlen v <= n.
Proof.
  unfold validateComponent. intros H. res_inv H. case_bool. done.
Qed.

Lemma owner_chars_all prev s :
  owner_chars prev s = true → all_bytes (λ c, isLowerAlphaNumeric c || ascii_eqb c "-") s = true.
Proof.
  revert prev. induction s as [|c s IH]; intros prev; cbn; [done|].
  destruct (isLowerAlphaNumeric c); cbn; [apply IH|].
  destruct (ascii_eqb c "-"); cbn; [|done]. destruct prev; cbn; [done|]. apply IH.
Qed.

(** What each validator promises of its argument *)
Lemma validateOwner_ok owner u :
  validateOwner owner = Ok u → owner ≠ "" ∧ strings_Count owner "/" = 0%nat ∧ strlen owner <= maxOwnerBytes.
Proof.
  unfold validateOwner. intros H. res_inv H. apply validateComponent_ok in E as (? & _ & _ & ?).
  case_bool. split_and!; [done| |done].
  apply (all_bytes_Count0 (λ c, isLowerAlphaNumeric c || ascii_eqb c "-")); [|done].
  by eapply owner_chars_all.
Qed.

Lemma validateTapName_ok name u :
  validateTapName name = Ok u → name ≠ "" ∧ strings_Count name "/" = 0%nat ∧ strlen name <= maxTapBytes.
Proof.
  unfold validateTapName. intros H. res_inv H. apply validateComponent_ok in E as (? & _ & _ & ?).
  case_bool. split_and!; [done| |done]. by eapply all_bytes_Count0.
Qed.

Lemma validateFormulaName_ok name u :
  validateFormulaName name = Ok u →
  path_element name ∧ strings_Count name "/" = 0%nat ∧ strlen name <= maxFormulaBytes.
Proof.
  unfold validateFormulaName. intros H. res_inv H. apply validateComponent_ok in E as (? & ? & ? & ?).
  case_bool. unfold path_element. split_and!; try done.
  - apply Contains_false_Count. by eapply all_bytes_Count0.
  - apply Contains_false_Count. by eapply all_bytes_Count0.
  - unfold maxFormulaBytes in *. lia.
  - by eapply all_bytes_Count0.
Qed.

Lemma unit_ok {E} (m : result E unit) u : m = Ok u → m = Ok tt.
Proof. by destruct u. Qed.

Lemma newTap_ok owner name t : newTap owner name = Ok t ↔ t = MkTap owner name ∧ valid_tap t.
Proof.
  unfold newTap, valid_tap, validateTap. split.
  - intros H. res_inv H. cbn. split; [done|]. rewrite E. cbn. by eapply unit_ok.
  - intros [-> (u & H1 & H2)%bind_ok]. cbn in *. by rewrite H1, H2.
Qed.

Lemma newFormulaID_ok tap name i : newFormulaID tap name = Ok i ↔ i = MkFormulaID tap name ∧ valid_id i.
Proof.
  unfold newFormulaID, valid_id, valid_tap. split.
  - intros H. res_inv H. cbn. split; [done|]. split; by eapply unit_ok.
  - intros [-> [H1 H2]]. cbn in *. by rewrite H1, H2.
Qed.

Lemma valid_tap_parts t :
  valid_tap t →
  validateOwner (tap_owner t) = Ok tt ∧ validateTapName (tap_name t) = Ok tt.
Proof. unfold valid_tap, validateTap. intros H. res_inv H. split; [by eapply unit_ok|done]. Qed.

Lemma Cut_cons a b c : strings_Count a c = 0%nat → strings_Cut (a +:+ String c b) c = (a, b, true).
Proof.
  induction a as [|d a IH]; rewrite ?app_cons_str, ?app_nil_l_str; cbn.
  - by rewrite ascii_eqb_refl.
  - destruct (ascii_eqb d c); [lia|]. intros H. by rewrite IH.
Qed.

Lemma Tap_String_valid t : valid_tap t → Tap_String t = tap_owner t +:+ "/" +:+ tap_name t.
Proof.
  intros [Ho _]%valid_tap_parts. unfold Tap_String. rewrite bool_decide_eq_false_2; [done|].
  intros ->. done.
Qed.

Lemma FormulaID_String_valid i :
  valid_id i →
  FormulaID_String i = tap_owner (id_tap i) +:+ "/" +:+ tap_name (id_tap i) +:+ "/" +:+ id_name i.
Proof.
  intros [Ht _]. unfold FormulaID_String. rewrite bool_decide_eq_false_2.
  - rewrite Tap_String_valid by done. by rewrite !app_assoc_str.
  - intros ->. done.
Qed.

Lemma ParseTap_valid t : valid_tap t → ParseTap (Tap_String t) = Ok t.
Proof.
  intros Ht. rewrite Tap_String_valid by done. destruct (valid_tap_parts t Ht) as [Ho Hn].
  destruct (validateOwner_ok _ _ Ho) as (_ & Hos & Hol). destruct (validateTapName_ok _ _ Hn) as (_ & Hns & Hnl).
  unfold ParseTap. change ("/" +:+ tap_name t) with (String "/" (tap_name t)).
  rewrite strlen_app, strlen_cons, Cut_cons, Count_app, Count_cons_eq, Hos, Hns by done. cbn [Nat.add Nat.eqb negb].
  destruct (Z.ltb_spec maxTapIDBytes (strlen (tap_owner t) + Z.succ (strlen (tap_name t)))).
  { unfold maxTapIDBytes, maxOwnerBytes, maxTapBytes in *. lia. }
  apply map_err_ok, newTap_ok. by destruct t.
Qed.

Lemma Parse_valid i : valid_id i → Parse (FormulaID_String i) = Ok i.
Proof.
  intros Hi. rewrite FormulaID_String_valid by done. destruct Hi as [Ht Hf].
  destruct (valid_tap_parts _ Ht) as [Ho Hn].
  destruct (validateOwner_ok _ _ Ho) as (_ & Hos & Hol). destruct (validateTapName_ok _ _ Hn) as (_ & Hns & Hnl).
  destruct (validateFormulaName_ok _ _ Hf) as (_ & Hfs & Hfl).
  unfold Parse.
  change ("/" +:+ tap_name (id_tap i) +:+ "/" +:+ id_name i)
    with (String "/" (tap_name (id_tap i) +:+ String "/" (id_name i))).
  rewrite !strlen_app, !strlen_cons, !strlen_app, !strlen_cons.
  rewrite !Split_cons, Split_no_sep by done.
  rewrite !Count_app, !Count_cons_eq, !Count_app, !Count_cons_eq, Hos, Hns, Hfs. cbn [Nat.add].
  destruct (Z.ltb_spec maxFormulaIDBytes (strlen (tap_owner (id_tap i)) +
    Z.succ (strlen (tap_name (id_tap i)) + Z.succ (strlen (id_name i))))).
  { unfold maxFormulaIDBytes, maxTapIDBytes, maxOwnerBytes, maxTapBytes, maxFormulaBytes in *. lia. }
  apply map_err_ok, bind_ok. exists (id_tap i). split.
  - apply newTap_ok. by destruct (id_tap i).
  - apply newFormulaID_ok. by destruct i.
Qed.

Lemma Parse_ok_valid s i : Parse s = Ok i → valid_id i.
Proof.
  unfold Parse. intros H. repeat case_match; try done; res_inv H.
  all: match goal with E : newFormulaID _ _ = Ok _ |- _ => by apply newFormulaID_ok in E as [_ ?] end.
Qed.

Lemma ParseTap_ok_valid s t : ParseTap s = Ok t → valid_tap t.
Proof.
  unfold ParseTap. intros H. repeat case_match; try done; res_inv H.
  match goal with E : newTap _ _ = Ok _ |- _ => by apply newTap_ok in E as [_ ?] end.
Qed.

Lemma core_tap_valid : valid_tap CoreTap.
Proof. reflexivity. Qed.

(** A name without a separator parses exactly when it is a valid Formula name,
    and then to the core identity with that name. *)
Lemma Parse_bare name i :
  strings_Count name "/" = 0%nat →
  Parse name = Ok i ↔ i = MkFormulaID CoreTap name ∧ validateFormulaName name = Ok tt.
Proof.
  intros Hs. split.
  - unfold Parse. rewrite Hs. intros H. destruct (_ <? _); [done|]. res_inv H.
    match goal with E : newFormulaID _ _ = Ok _ |- _ => apply newFormulaID_ok in E as [-> [_ ?]] end.
    done.
  - intros [-> Hn]. destruct (validateFormulaName_ok _ _ Hn) as (_ & _ & Hl). unfold Parse. rewrite Hs.
    destruct (Z.ltb_spec maxFormulaIDBytes (strlen name)) as [H|_].
    { unfold maxFormulaIDBytes, maxTapIDBytes, maxOwnerBytes, maxTapBytes, maxFormulaBytes in *. lia. }
    apply map_err_ok, newFormulaID_ok. split; [done|]. by split.
Qed.

Lemma Parse_explicit_core name i :
  strings_Count name "/" = 0%nat →
  Parse ("homebrew/core/" +:+ name) = Ok i ↔ i = MkFormulaID CoreTap name ∧ validateFormulaName name = Ok tt.
Proof.
  intros Hs. split.
  - unfold Parse.
    change ("homebrew/core/" +:+ name) with ("homebrew" +:+ String "/" ("core" +:+ String "/" name)).
    rewrite !Split_cons, Split_no_sep by done.
    rewrite !Count_app, !Count_cons_eq, !Count_app, !Count_cons_eq, Hs.
    change (strings_Count "homebrew" "/") with 0%nat. change (strings_Count "core" "/") with 0%nat.
    change (newTap "homebrew" "core") with (@Ok id_reason _ CoreTap). cbn [Nat.add mbind result_bind].
    intros H. destruct (_ <? _); [done|]. apply map_err_ok in H as E.
    apply newFormulaID_ok in E as [-> [_ ?]]. done.
  - intros [-> Hn].
    change ("homebrew/core/" +:+ name) with ("homebrew" +:+ "/" +:+ "core" +:+ "/" +:+ name).
    assert (valid_id (MkFormulaID CoreTap name)) as Hv by by split.
    pose proof (Parse_valid _ Hv) as HP. by rewrite FormulaID_String_valid in HP.
Qed.

Lemma ParseRoots_loop_ok i seen roots ids :
  ParseRoots_loop i seen roots = Ok ids ↔
  Forall2 (λ r id, Parse r = Ok id) roots ids ∧ NoDup ids ∧ Forall (λ id, seen !! id = None) ids.
Proof.
  revert i seen ids. induction roots as [|r roots IH]; intros i seen ids; cbn [ParseRoots_loop].
  { split; [intros [= <-]; split_and!; constructor|]. intros (H & _); by inversion H. }
  destruct (Parse r) as [id|e] eqn:Er.
  2: { split; [done|]. intros (H & _); inversion H; congruence. }
  destruct (seen !! id) eqn:Es.
  { split; [done|]. intros (H & _ & Hf). inversion H; subst. inversion Hf; subst. congruence. }
  rewrite bind_ok. split.
  - intros (ids' & (Hf & Hnd & Hs)%IH & [= <-]).
    assert (id ∉ ids') as Hni.
    { intros Hin. rewrite Forall_forall in Hs. specialize (Hs _ Hin). by rewrite lookup_insert_eq in Hs. }
    split_and!; [by constructor|by constructor|]. constructor; [done|].
    eapply Forall_impl; [exact Hs|]. intros x Hx. by apply lookup_insert_None in Hx as [? _].
  - intros (Hf & Hnd & Hs). inversion Hf as [|? id' ? ids' Hr Hrs]; subst.
    assert (id' = id) as -> by congruence. apply NoDup_cons in Hnd as [Hni Hnd].
    inversion Hs as [|? ? _ Hs']; subst. exists ids'. split; [|done]. apply IH. split_and!; [done..|].
    rewrite Forall_forall in *. intros x Hx. rewrite lookup_insert_ne; [by apply Hs'|]. intros ->. done.
Qed.

(** ** Properties *)

(** [Parse] accepts only canonical identities and [String] is its inverse:
    whatever input parsed to [id], the canonical text of [id] parses back to
    [id], so distinct identities have distinct texts. *)
Theorem Parse_String_roundtrip s id (Hs : Parse s = Ok id) :
  Parse (FormulaID_String id) = Ok id ∧
  ∀ s' id', Parse s' = Ok id' → FormulaID_String id = FormulaID_String id' → id = id'.
Proof.
  apply Parse_ok_valid in Hs. pose proof (Parse_valid _ Hs) as Hp. split; [done|].
  intros s' id' Hs' Heq. apply Parse_ok_valid in Hs'. apply Parse_valid in Hs'. congruence.
Qed.

Lemma Parse_String_roundtrip_witness :
  Parse "azure/kubelogin/kubelogin" = Ok (MkFormulaID (MkTap "azure" "kubelogin") "kubelogin") ∧
  Parse (FormulaID_String (MkFormulaID (MkTap "azure" "kubelogin") "kubelogin"))
  = Ok (MkFormulaID (MkTap "azure" "kubelogin") "kubelogin").
Proof.
  split; [reflexivity|].
  apply (Parse_String_roundtrip "azure/kubelogin/kubelogin" _ eq_refl).
Defined.

(** A bare Formula name and its explicit [homebrew/core/] form are the same
    identity: for every string without a separator, one parses exactly when the
    other does, to the same value. *)
Theorem Parse_bare_is_core name id (Hname : strings_Contains name "/" = false) :
  Parse name = Ok id ↔ Parse ("homebrew/core/" +:+ name) = Ok id.
Proof. apply Contains_false_Count in Hname. by rewrite Parse_bare, Parse_explicit_core. Qed.

Lemma Parse_bare_is_core_witness :
  Parse "python@3.14" = Ok (MkFormulaID CoreTap "python@3.14") ↔
  Parse ("homebrew/core/" +:+ "python@3.14") = Ok (MkFormulaID CoreTap "python@3.14").
Proof. apply (Parse_bare_is_core "python@3.14"). reflexivity. Defined.

(** [ParseRoots] succeeds exactly when every root parses and no two roots
    are the same identity, and then returns the identities in input order. *)
Theorem ParseRoots_spec roots ids :
  ParseRoots roots = Ok ids ↔ Forall2 (λ r id, Parse r = Ok id) roots ids ∧ NoDup ids.
Proof.
  unfold ParseRoots. rewrite ParseRoots_loop_ok. split; [naive_solver|].
  intros [? ?]. split_and!; [done..|]. apply Forall_true. intros. apply lookup_empty.
Qed.

(** The name of a parsed Formula is a safe path element: it is not empty,
    [.] or [..], has no slash or backslash, and with [.rb] appended fits in the
    255 bytes of a file name. *)
Theorem Parse_name_safe s id (Hs : Parse s = Ok id) : path_element (id_name id).
Proof. apply Parse_ok_valid in Hs as [_ Hn]. by destruct (validateFormulaName_ok _ _ Hn). Qed.

Lemma Parse_name_safe_witness : Parse "jq" = Ok (MkFormulaID CoreTap "jq") ∧ path_element "jq".
Proof. split; [reflexivity|]. apply (Parse_name_safe "jq" (MkFormulaID CoreTap "jq") eq_refl). Defined.
