(* ===== verification/Graph.v ===== *)
(** * Depth-first search with cycle detection

    Three functions of the program walk a dependency graph depth first, keep
    the colour of every node and the stack of open nodes, stop with the cycle
    when they meet an open node, and (two of them) collect the nodes in
    post-order as the installation order: [resolver.topoOrder],
    [catalogresolver.topo] and [metadata.validateDependencyCycles]. The walk is
    defined once here, over any node type and successor function, with the
    facts that make it correct: the post-order is a topological order of
    exactly the reachable nodes, an error exhibits a cycle, and fuel above the
    number of nodes always suffices. *)

From S2P Require Import Prelude.
From stdpp Require Export relations.
From stdpp Require Import options.

Section dfs.
Context {K : Type} `{Countable K}.
Context (succ : K → list K).

(** [state[x]]: absent is 0, [Gray] is 1 (open), [Black] is 2 (finished). *)
Inductive color := Gray | Black.

#[global] Instance color_eq_dec : EqDecision color.
Proof. solve_decision. Defined.

Record dfs_state := DfsState { dcolor : gmap K color; dstack : list K; dorder : list K }.

Inductive dfs_error :=
| Cycle (path : list K)
| OutOfFuel.

Definition dfs_init : dfs_state := DfsState ∅ [] [].

(** [stack[slices.Index(stack, x):]], from 0 when absent, then [x] again *)
Fixpoint index_of (x : K) (l : list K) : option nat :=
  match l with
  | [] => None
  | y :: l => if decide (y = x) then Some 0 else S <$> index_of x l
  end.

Definition cycle_path (stack : list K) (x : K) : list K :=
  drop (default 0 (index_of x stack)) stack ++ [x].

Definition open (x : K) (st : dfs_state) : dfs_state :=
  DfsState (<[x := Gray]> (dcolor st)) (dstack st ++ [x]) (dorder st).

Definition close (x : K) (st : dfs_state) : dfs_state :=
  DfsState (<[x := Black]> (dcolor st)) (take (length (dstack st) - 1) (dstack st)) (dorder st ++ [x]).

(** The body of [visit] for a node not seen before *)
Fixpoint dfs_visit (fuel : nat) (x : K) (st : dfs_state) : result dfs_error dfs_state :=
  match fuel with
  | O => Err OutOfFuel
  | S fuel =>
      st' ← foldM_res (λ s d,
              match dcolor s !! d with
              | None => dfs_visit fuel d s
              | Some Gray => Err (Cycle (cycle_path (dstack s) d))
              | Some Black => Ok s
              end) (open x st) (succ x);
      Ok (close x st')
  end.

(** The switch on the colour, then the body *)
Definition dfs_enter (fuel : nat) (s : dfs_state) (d : K) : result dfs_error dfs_state :=
  match dcolor s !! d with
  | None => dfs_visit fuel d s
  | Some Gray => Err (Cycle (cycle_path (dstack s) d))
  | Some Black => Ok s
  end.

Definition dfs_run (fuel : nat) (roots : list K) : result dfs_error dfs_state :=
  foldM_res (dfs_enter fuel) dfs_init roots.

Definition dfs (fuel : nat) (roots : list K) : result dfs_error (list K) :=
  dorder <$> dfs_run fuel roots.

(** The loop that visits every node not seen before, whatever its colour is otherwise *)
Definition dfs_all (fuel : nat) (nodes : list K) : result dfs_error dfs_state :=
  foldM_res (λ s n, match dcolor s !! n with None => dfs_visit fuel n s | Some _ => Ok s end)
            dfs_init nodes.

(** ** The graph *)

Definition edge (x y : K) : Prop := y ∈ succ x.

Definition reachable (roots : list K) (x : K) : Prop := ∃ r, r ∈ roots ∧ rtc edge r x.

(** Consecutive elements are edges. *)
Fixpoint chain (l : list K) : Prop :=
  match l with
  | x :: ((y :: _) as l') => edge x y ∧ chain l'
  | _ => True
  end.

(** A walk of at least one edge from a node to itself *)
Definition is_cycle (p : list K) : Prop :=
  chain p ∧ 2 ≤ length p ∧ head p = last p.

(** Every node comes after its successors. *)
Definition topo_sorted (order : list K) : Prop :=
  ∀ l1 x l2, order = l1 ++ x :: l2 → ∀ d, edge x d → d ∈ l1.

Definition acyclic_from (roots : list K) : Prop :=
  ∀ x, reachable roots x → ¬ tc edge x x.

(** ** Chains *)

Lemma chain_app_l l1 l2 : chain (l1 ++ l2) → chain l1.
Proof.
  induction l1 as [|x l1 IH]; [done|]. destruct l1 as [|y l1]; [done|]. cbn. intros [? ?]. split; [done|]. by apply IH.
Qed.

Lemma chain_app_r l1 l2 : chain (l1 ++ l2) → chain l2.
Proof.
  induction l1 as [|x l1 IH]; [done|]. intros Hc. apply IH.
  destruct (l1 ++ l2) eqn:E; cbn in *; rewrite ?E in *; [done|]. by destruct Hc.
Qed.

Lemma chain_snoc l x d : chain (l ++ [x]) → edge x d → chain ((l ++ [x]) ++ [d]).
Proof.
  intros Hc Hd. induction l as [|y l IH]; [done|].
  destruct l as [|z l]; cbn in *; [naive_solver|]. destruct Hc as [? Hc]. split; [done|]. by apply IH.
Qed.

Lemma chain_rtc x l y : chain (x :: l) → y ∈ x :: l → rtc edge x y.
Proof.
  revert x. induction l as [|z l IH]; intros x Hc Hy.
  - by apply list_elem_of_singleton in Hy as ->.
  - apply elem_of_cons in Hy as [->|Hy]; [done|]. destruct Hc as [He Hc]. eapply rtc_l; [exact He|]. by apply IH.
Qed.

(** A cycle is a closed walk: its first node reaches itself by at least one edge. *)
Lemma is_cycle_tc p : is_cycle p → ∃ x, head p = Some x ∧ tc edge x x.
Proof.
  intros (Hc & Hl & Hh). destruct p as [|x [|y p]]; cbn in Hl; [lia..|]. exists x. split; [done|].
  destruct Hc as [He Hc].
  assert (x ∈ y :: p) as Hx. { cbn in Hh. apply last_Some_elem_of. by rewrite <-Hh. }
  pose proof (chain_rtc _ _ _ Hc Hx) as Hr. by eapply tc_rtc_r; [apply tc_once|].
Qed.

(** ** Topological orders *)

Lemma topo_sorted_snoc order x :
  topo_sorted order → (∀ d, edge x d → d ∈ order) → topo_sorted (order ++ [x]).
Proof.
  intros Ht Hx l1 y l2 Heq d Hd.
  destruct (decide (l2 = [])) as [->|Hne].
  - apply app_inj_tail in Heq as [-> ->]. by apply Hx.
  - destruct (exists_last Hne) as (l2' & z & ->).
    rewrite app_comm_cons, app_assoc in Heq. apply app_inj_tail in Heq as [-> _].
    by eapply Ht.
Qed.

Lemma topo_sorted_closed order x y : topo_sorted order → x ∈ order → rtc edge x y → y ∈ order.
Proof.
  intros Ht Hx. induction 1 as [|x z y He _ IH]; [done|]. apply IH.
  apply list_elem_of_split in Hx as (l1 & l2 & ->). rewrite elem_of_app. left. by eapply Ht.
Qed.

(** In a duplicate-free topological order an edge goes strictly backwards, so
    no node reaches itself. *)
Lemma topo_sorted_acyclic order x : NoDup order → topo_sorted order → x ∈ order → ¬ tc edge x x.
Proof.
  intros Hnd Ht Hx.
  assert (∀ x y, tc edge x y → x ∈ order → ∃ i j, order !! i = Some x ∧ order !! j = Some y ∧ j < i) as Hback.
  { assert (∀ x y, edge x y → x ∈ order → ∃ i j, order !! i = Some x ∧ order !! j = Some y ∧ j < i) as H1.
    { intros a b He Ha. apply list_elem_of_split in Ha as (l1 & l2 & Hsp).
      assert (b ∈ l1) as (j & Hj)%list_elem_of_lookup by by eapply Ht.
      exists (length l1), j. rewrite Hsp. split_and!.
      - by rewrite lookup_app_r, Nat.sub_diag by lia.
      - by apply lookup_app_l_Some.
      - by eapply lookup_lt_Some. }
    induction 1 as [a b He|a b c He _ IH]; intros Ha; [by apply H1|].
    destruct (H1 a b He Ha) as (i & j & Hi & Hj & Hlt).
    destruct IH as (i' & k & Hi' & Hk & Hlt'); [by eapply list_elem_of_lookup_2|].
    assert (i' = j) as -> by by eapply NoDup_lookup.
    exists i, k. split_and!; [done..|lia]. }
  intros Hc. destruct (Hback _ _ Hc Hx) as (i & j & Hi & Hj & Hlt).
  assert (i = j) by by eapply NoDup_lookup. lia.
Qed.

(** ** The invariant of the walk *)

Record dfs_inv (st : dfs_state) : Prop := {
  inv_gray x : dcolor st !! x = Some Gray ↔ x ∈ dstack st;
  inv_black x : dcolor st !! x = Some Black ↔ x ∈ dorder st;
  inv_stack : NoDup (dstack st);
  inv_order : NoDup (dorder st);
  inv_topo : topo_sorted (dorder st);
  inv_chain : chain (dstack st);
}.

(** What visiting [x] adds: [x] and nodes it reaches, the stack as before. *)
Definition visited (x : K) (st st' : dfs_state) : Prop :=
  dfs_inv st' ∧ dstack st' = dstack st ∧ x ∈ dorder st' ∧
  ∃ ext, dorder st' = dorder st ++ ext ∧ ∀ y, y ∈ ext → rtc edge x y.

Lemma dfs_inv_init : dfs_inv dfs_init.
Proof.
  split; unfold dfs_init; cbn [dcolor dstack dorder].
  - intros x. rewrite lookup_empty. set_solver.
  - intros x. rewrite lookup_empty. set_solver.
  - constructor.
  - constructor.
  - intros l1 y l2 Heq. by destruct l1.
  - done.
Qed.

Lemma dfs_inv_open st x :
  dfs_inv st → dcolor st !! x = None → chain (dstack st ++ [x]) → dfs_inv (open x st).
Proof.
  intros [Hg Hb Hs Ho Ht Hc] Hx Hch. split; cbn; try done.
  - intros y. rewrite elem_of_app, list_elem_of_singleton, <-Hg.
    destruct (decide (x = y)) as [->|]; [rewrite lookup_insert_eq; naive_solver|].
    rewrite lookup_insert_ne by done. naive_solver.
  - intros y. destruct (decide (x = y)) as [->|]; [|by rewrite lookup_insert_ne by done].
    rewrite lookup_insert_eq, <-Hb, Hx. done.
  - apply NoDup_app. split_and!; [done| |apply NoDup_singleton].
    intros y Hy ->%list_elem_of_singleton. apply Hg in Hy. congruence.
Qed.

Lemma dfs_inv_close st0 st x :
  dfs_inv st → dstack st = dstack st0 ++ [x] → (∀ d, edge x d → d ∈ dorder st) →
  dfs_inv (close x st) ∧ dstack (close x st) = dstack st0.
Proof.
  intros [Hg Hb Hs Ho Ht Hc] Hst Hd.
  assert (take (length (dstack st) - 1) (dstack st) = dstack st0) as Htk.
  { rewrite Hst, length_app. cbn. rewrite Nat.add_sub. by rewrite take_app_length. }
  split; [|done]. rewrite Hst in *. apply NoDup_app in Hs as (Hs0 & Hdisj & _).
  assert (dcolor st !! x = Some Gray) as Hxg by (apply Hg; set_solver).
  split; cbn; rewrite ?Hst, ?Htk; try done.
  - intros y. destruct (decide (x = y)) as [<-|Hne].
    + rewrite lookup_insert_eq. split; [done|]. intros Hin. exfalso. eapply Hdisj; [done|]. set_solver.
    + rewrite lookup_insert_ne, Hg by done. set_solver.
  - intros y. rewrite elem_of_app, list_elem_of_singleton, <-Hb.
    destruct (decide (x = y)) as [->|]; [rewrite lookup_insert_eq; naive_solver|].
    rewrite lookup_insert_ne by done. naive_solver.
  - apply NoDup_app. split_and!; [done| |apply NoDup_singleton].
    intros y Hy ->%list_elem_of_singleton. apply Hb in Hy. congruence.
  - by apply topo_sorted_snoc.
  - by eapply chain_app_l.
Qed.

(** The switch, given what the body does *)
Lemma dfs_enter_ok fuel :
  (∀ x st st', dfs_inv st → dcolor st !! x = None → chain (dstack st ++ [x]) →
     dfs_visit fuel x st = Ok st' → visited x st st') →
  ∀ d s s', dfs_inv s → chain (dstack s ++ [d]) → dfs_enter fuel s d = Ok s' → visited d s s'.
Proof.
  intros IH d s s' Hi Hch. unfold dfs_enter. destruct (dcolor s !! d) as [[]|] eqn:E; [done| |by apply IH].
  intros [= <-]. split_and!; [done..|by apply inv_black|]. exists []. rewrite app_nil_r. split; [done|set_solver].
Qed.

Lemma dfs_visit_ok fuel x st st' :
  dfs_inv st → dcolor st !! x = None → chain (dstack st ++ [x]) →
  dfs_visit fuel x st = Ok st' → visited x st st'.
Proof.
  revert x st st'. induction fuel as [|fuel IH]; intros x st st' Hi Hx Hch; cbn [dfs_visit]; [done|].
  intros (s & Hf & [= <-])%bind_ok.
  assert (dfs_inv s ∧ dstack s = dstack st ++ [x] ∧
    (∃ ext, dorder s = dorder st ++ ext ∧ ∀ y, y ∈ ext → rtc edge x y) ∧
    ∀ d, d ∈ succ x → d ∈ dorder s) as (Hs & Hstk & (ext & Hext & Hr) & Hall).
  { apply (foldM_res_inv (λ dn s, dfs_inv s ∧ dstack s = dstack st ++ [x] ∧
      (∃ ext, dorder s = dorder st ++ ext ∧ ∀ y, y ∈ ext → rtc edge x y) ∧
      ∀ d, d ∈ dn → d ∈ dorder s) _ _ _ _) in Hf; [done| |].
    - split_and!; [by apply dfs_inv_open|done| |set_solver]. exists []. rewrite app_nil_r. split; [done|set_solver].
    - intros dn d s1 s2 (Hi1 & Hst1 & (ext & Hext & Hr) & Hdn) Hd Hstep.
      assert (edge x d) as He by done.
      assert (chain (dstack s1 ++ [d])) as Hc1 by (rewrite Hst1; by apply chain_snoc).
      destruct (dfs_enter_ok fuel IH d s1 s2 Hi1 Hc1 Hstep) as (Hi2 & Hst2 & Hin & ext2 & Hext2 & Hr2).
      split_and!; [done|by rewrite Hst2| |].
      + exists (ext ++ ext2). rewrite Hext2, Hext, app_assoc. split; [done|].
        intros y [?|?]%elem_of_app; [by apply Hr|]. eapply rtc_l; [exact He|]. by apply Hr2.
      + intros e [He'| ->%list_elem_of_singleton]%elem_of_app; [|done].
        rewrite Hext2. apply elem_of_app. left. by apply Hdn. }
  destruct (dfs_inv_close st s x Hs Hstk Hall) as [Hic Hsc].
  split_and!; [done|done|cbn; set_solver|]. exists (ext ++ [x]). cbn. rewrite Hext, app_assoc. split; [done|].
  intros y [?| ->%list_elem_of_singleton]%elem_of_app; [by apply Hr|done].
Qed.

Lemma dfs_run_ok fuel roots st :
  dfs_run fuel roots = Ok st →
  dfs_inv st ∧ dstack st = [] ∧ (∀ r, r ∈ roots → r ∈ dorder st) ∧
  ∀ x, x ∈ dorder st → reachable roots x.
Proof.
  intros Hf.
  apply (foldM_res_inv (λ dn s, dfs_inv s ∧ dstack s = [] ∧ (∀ r, r ∈ dn → r ∈ dorder s) ∧
     ∀ x, x ∈ dorder s → reachable roots x) _ _ _ _) in Hf; [done| |].
  - split_and!; [apply dfs_inv_init|done|set_solver|set_solver].
  - intros dn r s1 s2 (Hi & Hst & Hdn & Hre) Hr Hstep.
    apply (dfs_enter_ok fuel (dfs_visit_ok fuel)) in Hstep as (Hi2 & Hst2 & Hin & ext & Hext & Hr2);
      [|done|by rewrite Hst].
    split_and!; [done|by rewrite Hst2| |].
    + intros e [?| ->%list_elem_of_singleton]%elem_of_app; [|done]. rewrite Hext. set_solver.
    + intros x. rewrite Hext. intros [?|?]%elem_of_app; [by apply Hre|]. exists r. auto.
Qed.

(** A successful walk returns a duplicate-free topological order of exactly
    the nodes reachable from the roots. *)
Lemma dfs_correct fuel roots order :
  dfs fuel roots = Ok order →
  NoDup order ∧ topo_sorted order ∧ ∀ x, x ∈ order ↔ reachable roots x.
Proof.
  unfold dfs. intros Hd. destruct (dfs_run fuel roots) as [st|] eqn:E; [|done]. injection Hd as <-.
  apply dfs_run_ok in E as (Hi & _ & Hroots & Hre). split_and!; [apply Hi|apply Hi|].
  intros x. split; [apply Hre|]. intros (r & Hr & Hrx).
  eapply topo_sorted_closed; [apply Hi|by apply Hroots|done].
Qed.

(** ** A reported cycle is one *)

Lemma index_of_elem x l : x ∈ l → ∃ i, index_of x l = Some i ∧ l !! i = Some x.
Proof.
  clear succ. induction l as [|y l IH]; [set_solver|]. intros Hx. cbn. case_decide as E; [exists 0; by subst|].
  destruct IH as (i & -> & Hi); [set_solver|]. by exists (S i).
Qed.

Lemma cycle_path_is_cycle stack d : chain (stack ++ [d]) → d ∈ stack → is_cycle (cycle_path stack d).
Proof.
  intros Hc (i & Hi & Hl)%index_of_elem. unfold cycle_path. rewrite Hi. change (default 0 (Some i)) with i.
  rewrite <-(take_drop i stack), <-app_assoc in Hc. apply chain_app_r in Hc.
  rewrite (drop_S _ _ _ Hl) in *. split_and!; [done| |].
  - cbn. rewrite length_app. cbn. lia.
  - cbn. symmetry. by rewrite app_comm_cons, last_snoc.
Qed.

Lemma cycle_path_last stack d : last (cycle_path stack d) = Some d.
Proof. unfold cycle_path. apply last_snoc. Qed.

Lemma dfs_enter_cycle fuel :
  (∀ x st p, dfs_inv st → dcolor st !! x = None → chain (dstack st ++ [x]) →
     dfs_visit fuel x st = Err (Cycle p) → is_cycle p ∧ ∃ y, last p = Some y ∧ rtc edge x y) →
  ∀ d s p, dfs_inv s → chain (dstack s ++ [d]) → dfs_enter fuel s d = Err (Cycle p) →
    is_cycle p ∧ ∃ y, last p = Some y ∧ rtc edge d y.
Proof.
  intros IH d s p Hi Hch. unfold dfs_enter. destruct (dcolor s !! d) as [[]|] eqn:E; [|done|by apply IH].
  intros [= <-]. split; [apply cycle_path_is_cycle; [done|by apply inv_gray]|].
  exists d. split; [apply cycle_path_last|done].
Qed.

(** Every element of the loop over the successors is entered with the
    invariant and an extended stack. *)
Lemma dfs_children fuel x st l1 l2 s1 :
  dfs_inv st → dcolor st !! x = None → chain (dstack st ++ [x]) → succ x = l1 ++ l2 →
  foldM_res (dfs_enter fuel) (open x st) l1 = Ok s1 →
  dfs_inv s1 ∧ dstack s1 = dstack st ++ [x].
Proof.
  intros Hi Hx Hch Hl Hf.
  apply (foldM_res_inv (λ _ s, dfs_inv s ∧ dstack s = dstack st ++ [x]) _ _ _ _) in Hf; [done| |].
  - split; [by apply dfs_inv_open|done].
  - intros dn d s2 s3 (Hi2 & Hst2) Hd Hstep.
    apply (dfs_enter_ok fuel (dfs_visit_ok fuel)) in Hstep as (Hi3 & Hst3 & _); [split; congruence|done|].
    rewrite Hst2. apply chain_snoc; [done|]. unfold edge. rewrite Hl. set_solver.
Qed.

Lemma dfs_visit_cycle fuel x st p :
  dfs_inv st → dcolor st !! x = None → chain (dstack st ++ [x]) →
  dfs_visit fuel x st = Err (Cycle p) → is_cycle p ∧ ∃ y, last p = Some y ∧ rtc edge x y.
Proof.
  revert x st p. induction fuel as [|fuel IH]; intros x st p Hi Hx Hch; cbn [dfs_visit]; [done|]. intros He.
  destruct (foldM_res _ _ _) as [s|e] eqn:Hf in He; [done|]. cbn in He. injection He as ->.
  apply foldM_res_err in Hf as (l1 & d & l2 & s1 & Hl & Hf & Hd).
  destruct (dfs_children fuel x st l1 (d :: l2) s1) as [Hi1 Hst1]; [done..|].
  assert (edge x d) as Hed by (unfold edge; rewrite Hl; set_solver).
  apply (dfs_enter_cycle fuel IH) in Hd as (Hcy & y & Hy & Hr); [|done|rewrite Hst1; by apply chain_snoc].
  split; [done|]. exists y. split; [done|]. by eapply rtc_l.
Qed.

(** An error reports a real cycle through a node reachable from the roots. *)
Lemma dfs_cycle_sound fuel roots p :
  dfs fuel roots = Err (Cycle p) → is_cycle p ∧ ∃ y, head p = Some y ∧ reachable roots y.
Proof.
  unfold dfs. intros Hd. destruct (dfs_run fuel roots) as [|e] eqn:E; [done|]. injection Hd as ->.
  apply foldM_res_err in E as (l1 & r & l2 & s1 & -> & Hf & Hr).
  apply dfs_run_ok in Hf as (Hi & Hst & _).
  apply (dfs_enter_cycle fuel (dfs_visit_cycle fuel)) in Hr as (Hc & y & Hy & Hry); [|done|by rewrite Hst].
  split; [done|]. exists y. split; [destruct Hc as (_ & _ & ->); done|]. exists r. split; [set_solver|done].
Qed.

(** Between two roots no node is open, so the two loops agree. *)
Lemma dfs_all_run fuel roots : dfs_all fuel roots = dfs_run fuel roots.
Proof.
  unfold dfs_all, dfs_run.
  assert (dfs_inv dfs_init ∧ dstack dfs_init = []) as [Hi Hst] by (split; [apply dfs_inv_init|done]).
  generalize dependent dfs_init. induction roots as [|r roots IH]; intros s Hi Hst; [done|]. cbn [foldM_res].
  assert (match dcolor s !! r with None => dfs_visit fuel r s | Some _ => Ok s end = dfs_enter fuel s r) as ->.
  { unfold dfs_enter. destruct (dcolor s !! r) as [[]|] eqn:E; [|done..].
    apply (inv_gray _ Hi) in E. rewrite Hst in E. set_solver. }
  destruct (dfs_enter fuel s r) as [s'|] eqn:E; [cbn|done].
  apply (dfs_enter_ok fuel (dfs_visit_ok fuel)) in E as (Hi' & Hst' & _); [|done|by rewrite Hst].
  apply IH; [done|congruence].
Qed.

(** ** Enough fuel *)

Definition closed_set (U : gset K) : Prop := ∀ x y, x ∈ U → edge x y → y ∈ U.

Lemma stack_bound (U : gset K) st x :
  dfs_inv st → dcolor st !! x = None → (∀ y, y ∈ dstack st ++ [x] → y ∈ U) →
  length (dstack st) < size U.
Proof.
  intros Hi Hx Hsub.
  assert (NoDup (dstack st ++ [x])) as Hnd.
  { apply NoDup_app. split_and!; [apply Hi| |apply NoDup_singleton].
    intros y Hy ->%list_elem_of_singleton. apply (inv_gray _ Hi) in Hy. congruence. }
  assert (size (list_to_set (dstack st ++ [x]) : gset K) ≤ size U) as Hle.
  { apply subseteq_size. intros y. rewrite elem_of_list_to_set. apply Hsub. }
  rewrite size_list_to_set in Hle by done. rewrite length_app in Hle. cbn in Hle. lia.
Qed.

Lemma dfs_visit_fuel (U : gset K) fuel x st :
  closed_set U → dfs_inv st → dcolor st !! x = None → chain (dstack st ++ [x]) →
  (∀ y, y ∈ dstack st ++ [x] → y ∈ U) → size U ≤ length (dstack st) + fuel →
  dfs_visit fuel x st ≠ Err OutOfFuel.
Proof.
  intros HU. revert x st. induction fuel as [|fuel IH]; intros x st Hi Hx Hch Hsub Hsz.
  { pose proof (stack_bound U st x Hi Hx Hsub). lia. }
  cbn [dfs_visit]. intros He. destruct (foldM_res _ _ _) as [s|e] eqn:Hf in He; [done|].
  cbn in He. injection He as ->.
  apply foldM_res_err in Hf as (l1 & d & l2 & s1 & Hl & Hf & Hd).
  destruct (dfs_children fuel x st l1 (d :: l2) s1) as [Hi1 Hst1]; [done..|].
  assert (edge x d) as Hed by (unfold edge; rewrite Hl; set_solver).
  destruct (dcolor s1 !! d) as [[]|] eqn:Ec; [done..|].
  revert Hd. apply IH; [done|done|rewrite Hst1; by apply chain_snoc| |].
  - intros y. rewrite Hst1. intros [?| ->%list_elem_of_singleton]%elem_of_app; [by apply Hsub|].
    eapply HU; [|exact Hed]. apply Hsub. set_solver.
  - rewrite Hst1, length_app. cbn. lia.
Qed.

Lemma dfs_fuel (U : gset K) fuel roots :
  closed_set U → (∀ r, r ∈ roots → r ∈ U) → size U ≤ fuel → dfs fuel roots ≠ Err OutOfFuel.
Proof.
  intros HU Hr Hsz. unfold dfs. intros Hd. destruct (dfs_run fuel roots) as [|e] eqn:E; [done|].
  injection Hd as ->. apply foldM_res_err in E as (l1 & r & l2 & s1 & -> & Hf & He).
  apply dfs_run_ok in Hf as (Hi & Hst & _). unfold dfs_enter in He.
  destruct (dcolor s1 !! r) as [[]|] eqn:Ec; [done..|]. revert He. apply (dfs_visit_fuel U); [done..| | |].
  - by rewrite Hst.
  - rewrite Hst. intros y ->%list_elem_of_singleton. apply Hr. set_solver.
  - rewrite Hst. cbn. lia.
Qed.

(** With enough fuel the walk succeeds exactly on acyclic graphs. *)
Lemma dfs_ok_iff (U : gset K) fuel roots :
  closed_set U → (∀ r, r ∈ roots → r ∈ U) → size U ≤ fuel →
  (∃ order, dfs fuel roots = Ok order) ↔ acyclic_from roots.
Proof.
  intros HU Hr Hsz. split.
  - intros (order & (Hnd & Ht & Hre)%dfs_correct) x Hx%Hre. by eapply topo_sorted_acyclic.
  - intros Hac. destruct (dfs fuel roots) as [order|[p|]] eqn:E; [by eauto| |].
    + apply dfs_cycle_sound in E as [Hc (y & Hy & Hre)]. exfalso.
      apply is_cycle_tc in Hc as (x & Hx & Htc). assert (x = y) as -> by congruence. by eapply Hac.
    + exfalso. by eapply dfs_fuel.
Qed.

(** ** Marking what can be reached *)

(** The recursive [walk] closure: mark a name, then walk its successors unless
    it was marked before. *)
Fixpoint walk (fuel : nat) (seen : gset K) (x : K) : result (dfs_error) (gset K) :=
  if decide (x ∈ seen) then Ok seen else
  match fuel with
  | 0 => Err OutOfFuel
  | S fuel => foldM_res (walk fuel) ({[x]} ∪ seen) (succ x)
  end.

Definition walk_all (fuel : nat) (roots : list K) : result (dfs_error) (gset K) :=
  foldM_res (walk fuel) ∅ roots.

(** What one [walk] adds: the start, only reachable names, and every successor
    of each name it added. *)
Definition marked (start : K → Prop) (seen seen' : gset K) : Prop :=
  seen ⊆ seen' ∧ (∀ x, start x → x ∈ seen') ∧
  (∀ y, y ∈ seen' → y ∈ seen ∨ ∃ x, start x ∧ rtc edge x y) ∧
  (∀ y d, y ∈ seen' → edge y d → y ∈ seen ∨ d ∈ seen').

Lemma marked_fold fuel l seen seen' :
  (∀ x s s', walk fuel s x = Ok s' → marked (eq x) s s') →
  foldM_res (walk fuel) seen l = Ok seen' → marked (.∈ l) seen seen'.
Proof.
  intros Hw. apply (foldM_res_inv (λ l s, marked (.∈ l) seen s)); [unfold marked; set_solver|].
  intros l1 x s1 s2 (Hs & Hst & Hre & Hcl) _ (Hs' & Hst' & Hre' & Hcl')%Hw. split_and!.
  - set_solver.
  - intros y [?| ->%list_elem_of_singleton]%elem_of_app; [by apply Hs', Hst | by apply Hst'].
  - intros y [Hy|(z & <- & Hz)]%Hre'; [|right; exists x; set_solver].
    apply Hre in Hy as [?|(z & ? & ?)]; [by left|]. right. exists z. set_solver.
  - intros y d Hy Hd. destruct (Hcl' y d Hy Hd) as [Hy1|]; [|by right].
    destruct (Hcl y d Hy1 Hd); [by left|]. right. by apply Hs'.
Qed.

Lemma walk_marked fuel x seen seen' : walk fuel seen x = Ok seen' → marked (eq x) seen seen'.
Proof.
  revert x seen seen'. induction fuel as [|fuel IH]; intros x seen seen'; cbn [walk]; case_decide; try done.
  { intros [= <-]. split_and!; try done; set_solver. }
  { intros [= <-]. split_and!; try done; set_solver. }
  intros (Hs & Hst & Hre & Hcl)%(marked_fold fuel); [|exact IH]. split_and!.
  - set_solver.
  - set_solver.
  - intros y Hy. destruct (Hre y Hy) as [[->%elem_of_singleton|?]%elem_of_union|(z & Hz & ?)].
    + right. by exists x.
    + by left.
    + right. exists x. split; [done|]. by eapply rtc_l.
  - intros y d Hy Hd. destruct (Hcl y d Hy Hd) as [[->%elem_of_singleton|?]%elem_of_union|?]; [|by left|by right].
    right. by apply Hst.
Qed.

Lemma walk_all_ok fuel roots seen :
  walk_all fuel roots = Ok seen → ∀ x, x ∈ seen ↔ reachable roots x.
Proof.
  intros (_ & Hst & Hre & Hcl)%(marked_fold fuel); [|apply walk_marked]. intros x. split.
  - intros [?%not_elem_of_empty|?]%Hre; done.
  - intros (r & Hr%Hst & Hx). induction Hx as [|r y z He _ IH]; [done|]. apply IH.
    destruct (Hcl r y Hr He) as [?%not_elem_of_empty|]; done.
Qed.

Lemma walk_fuel (U : gset K) fuel x seen :
  closed_set U → x ∈ U → size (U ∖ seen) ≤ fuel → ∃ seen', walk fuel seen x = Ok seen' ∧ seen ⊆ seen'.
Proof.
  intros HU. revert x seen. induction fuel as [|fuel IH]; intros x seen Hx Hsz; cbn [walk];
    case_decide as Hin; [by eauto| |by eauto|].
  { assert (U ∖ seen ≡ ∅) by (apply size_empty_inv; lia). set_solver. }
  assert (∀ y, y ∈ succ x → y ∈ U) as Hsub by (intros y; by apply HU).
  assert (size (U ∖ ({[x]} ∪ seen)) ≤ fuel) as Hsz'.
  { assert (size (U ∖ ({[x]} ∪ seen)) < size (U ∖ seen)); [|lia]. apply subset_size. set_solver. }
  assert (seen ⊆ {[x]} ∪ seen) as Hs by set_solver. revert Hs Hsz'.
  generalize ({[x]} ∪ seen) as s. clear Hin Hsz. induction (succ x) as [|d l IHl]; intros s Hs Hsz; cbn.
  { by exists s. }
  destruct (IH d s) as (s' & -> & Hs'); [set_solver|done|]. cbn. apply IHl; [set_solver|set_solver|].
  etrans; [|exact Hsz]. apply subseteq_size. set_solver.
Qed.

Lemma walk_all_fuel (U : gset K) fuel roots :
  closed_set U → (∀ r, r ∈ roots → r ∈ U) → size U ≤ fuel → ∃ seen, walk_all fuel roots = Ok seen.
Proof.
  intros HU. unfold walk_all. generalize (∅ : gset K) as s. induction roots as [|r l IH]; intros s Hr Hsz; cbn.
  { by exists s. }
  destruct (walk_fuel U fuel r s) as (s' & -> & _); [done|set_solver| |cbn; apply IH; set_solver].
  etrans; [|exact Hsz]. apply subseteq_size. set_solver.
Qed.

(** ** Marking what can be reached and reporting cycles *)

(** The [visit] closure of [catalog.ValidateClosureResult] does not stop at an
    open node: it notes the cycle and goes on. *)
Record mark_state := MarkState { mcolor : gmap K color; mreach : gset K; mcycles : list K }.

Fixpoint mark (fuel : nat) (st : mark_state) (x : K) : result dfs_error mark_state :=
  match mcolor st !! x with
  | Some Gray => Ok (MarkState (mcolor st) (mreach st) (mcycles st ++ [x]))
  | Some Black => Ok (MarkState (mcolor st) ({[x]} ∪ mreach st) (mcycles st))
  | None =>
      match fuel with
      | 0 => Err OutOfFuel
      | S fuel =>
          st' ← foldM_res (mark fuel) (MarkState (<[x := Gray]> (mcolor st)) ({[x]} ∪ mreach st) (mcycles st)) (succ x);
          Ok (MarkState (<[x := Black]> (mcolor st')) (mreach st') (mcycles st'))
      end
  end.

Definition mark_all (fuel : nat) (roots : list K) : result dfs_error mark_state :=
  foldM_res (mark fuel) (MarkState ∅ ∅ []) roots.

(** Its marks are those of [walk]. *)
Definition mark_like_walk (m : result dfs_error mark_state) (w : result dfs_error (gset K)) : Prop :=
  match m, w with
  | Ok st, Ok seen => mreach st = seen ∧ dom (mcolor st) = seen
  | Err _, Err _ => True
  | _, _ => False
  end.

Lemma mark_fold_walk fuel l st :
  (∀ x st, dom (mcolor st) = mreach st → mark_like_walk (mark fuel st x) (walk fuel (mreach st) x)) →
  dom (mcolor st) = mreach st →
  mark_like_walk (foldM_res (mark fuel) st l) (foldM_res (walk fuel) (mreach st) l).
Proof.
  intros Hm. revert st. induction l as [|x l IH]; intros st Hd; cbn; [done|].
  specialize (Hm x st Hd). destruct (mark fuel st x) as [st'|], (walk fuel (mreach st) x) as [s|]; try done; cbn.
  destruct Hm as [<- Hd']. by apply IH.
Qed.

Lemma mark_walk fuel x st :
  dom (mcolor st) = mreach st → mark_like_walk (mark fuel st x) (walk fuel (mreach st) x).
Proof.
  revert x st. induction fuel as [|fuel IH]; intros x st Hd; cbn [mark walk].
  - destruct (mcolor st !! x) as [[]|] eqn:Ec.
    1,2: apply elem_of_dom_2 in Ec; rewrite Hd in Ec; rewrite decide_True by done; cbn; split; set_solver.
    rewrite decide_False; [done|]. rewrite <-Hd. by apply not_elem_of_dom.
  - destruct (mcolor st !! x) as [[]|] eqn:Ec.
    1,2: apply elem_of_dom_2 in Ec; rewrite Hd in Ec; rewrite decide_True by done; cbn; split; set_solver.
    rewrite decide_False by (rewrite <-Hd; by apply not_elem_of_dom).
    pose proof (mark_fold_walk fuel (succ x) (MarkState (<[x:=Gray]> (mcolor st)) ({[x]} ∪ mreach st) (mcycles st)) IH) as Hf.
    cbn [mcolor mreach] in Hf. rewrite dom_insert_L, Hd in Hf. specialize (Hf eq_refl).
    destruct (foldM_res (mark fuel) _ _) as [st'|] eqn:Em, (foldM_res (walk fuel) _ _) as [s|] eqn:Ew; try done; cbn.
    destruct Hf as [Hr Hd']. split; [done|]. rewrite dom_insert_L, Hd'.
    apply marked_fold in Ew as (Hs & _); [|apply walk_marked]. set_solver.
Qed.

Lemma mark_all_walk fuel roots : mark_like_walk (mark_all fuel roots) (walk_all fuel roots).
Proof.
  apply (mark_fold_walk fuel roots (MarkState ∅ ∅ [])); [|cbn; apply dom_empty_L]. intros. by apply mark_walk.
Qed.

(** It reports nothing where the search that stops at a cycle succeeds. *)
Lemma mark_fold_dfs fuel l st s s' :
  (∀ x st s s', dfs_enter fuel s x = Ok s' → mcolor st = dcolor s →
    ∃ st', mark fuel st x = Ok st' ∧ mcolor st' = dcolor s' ∧ mcycles st' = mcycles st) →
  foldM_res (dfs_enter fuel) s l = Ok s' → mcolor st = dcolor s →
  ∃ st', foldM_res (mark fuel) st l = Ok st' ∧ mcolor st' = dcolor s' ∧ mcycles st' = mcycles st.
Proof.
  intros Hm. revert st s. induction l as [|x l IH]; intros st s; cbn.
  { intros [= <-] Hc. by exists st. }
  intros (s1 & Hx & Hl)%bind_ok Hc. destruct (Hm x st s s1 Hx Hc) as (st1 & -> & Hc1 & Hy1). cbn.
  destruct (IH st1 s1 Hl Hc1) as (st' & ? & ? & ?). exists st'. split_and!; [done..|congruence].
Qed.

Lemma mark_dfs fuel x st s s' :
  dfs_enter fuel s x = Ok s' → mcolor st = dcolor s →
  ∃ st', mark fuel st x = Ok st' ∧ mcolor st' = dcolor s' ∧ mcycles st' = mcycles st.
Proof.
  revert x st s s'. induction fuel as [|fuel IH]; intros x st s s'; unfold dfs_enter; intros Hd Hc; cbn [mark];
    rewrite Hc; destruct (dcolor s !! x) as [[]|] eqn:Ec; try done.
  - injection Hd as <-. by eexists.
  - injection Hd as <-. by eexists.
  - cbn [dfs_visit] in Hd. apply bind_ok in Hd as (s1 & Hf & [= <-]).
    destruct (mark_fold_dfs fuel (succ x) (MarkState (<[x:=Gray]> (dcolor s)) ({[x]} ∪ mreach st) (mcycles st))
      (open x s) s1 IH) as (st' & -> & Hc' & Hy'); [exact Hf|done|].
    eexists. split; [done|]. cbn. by rewrite Hc'.
Qed.

Lemma mark_all_spec (U : gset K) fuel roots :
  closed_set U → (∀ r, r ∈ roots → r ∈ U) → size U ≤ fuel →
  ∃ st, mark_all fuel roots = Ok st ∧ (∀ x, x ∈ mreach st ↔ reachable roots x) ∧
        (acyclic_from roots → mcycles st = []).
Proof.
  intros HU Hr Hsz. destruct (walk_all_fuel U fuel roots HU Hr Hsz) as (seen & Hw).
  pose proof (mark_all_walk fuel roots) as Hm. rewrite Hw in Hm.
  destruct (mark_all fuel roots) as [st|] eqn:Em; [|done]. destruct Hm as [Hs _]. exists st. split; [done|]. split.
  - rewrite Hs. by eapply walk_all_ok.
  - intros Hac. apply (dfs_ok_iff U fuel roots HU Hr Hsz) in Hac as (order & Hd).
    unfold dfs in Hd. destruct (dfs_run fuel roots) as [s'|] eqn:Er; [|done].
    destruct (mark_fold_dfs fuel roots (MarkState ∅ ∅ []) dfs_init s' (mark_dfs fuel)) as (st' & Hst' & _ & Hy); [done..|].
    unfold mark_all in Em. rewrite Hst' in Em. by injection Em as <-.
Qed.

End dfs.

Arguments dfs_state K {_ _}.
Arguments mark_state K {_ _}.
Arguments dfs_error K : clear implicits.
