(* ===== verification/ClosureGraph.v ===== *)
(** * Closures: named nodes, their dependencies and an install order

    Two documents of the program carry a resolved closure, the resolution
    record and the platform result of a signed catalog set, and two validators
    check the same facts of them with the same data structures: a map from
    names to nodes, a map of positions, a walk from the requested roots. This
    file holds what the two have in common, over any type of nodes with a name
    and a list of dependency names. *)

From S2P Require Import Prelude GoStrings Graph.
From stdpp Require Import options.

(** ** Collected problems

    [errors.Join] of a list of errors is [nil] exactly when the list is empty. *)

Definition err_if {E} (b : bool) (e : E) : list E := if b then [e] else [].

Definition err_of {E F A} (wrap : E → F) (m : result E A) : list F :=
  match m with Ok _ => [] | Err e => [wrap e] end.

Lemma err_if_nil {E} b (e : E) : err_if b e = [] ↔ b = false.
Proof. by destruct b. Qed.

Lemma err_of_nil {E F} (wrap : E → F) (m : result E unit) : err_of wrap m = [] ↔ m = Ok tt.
Proof. by destruct m as [[]|]. Qed.

Lemma app_nil_iff {A} (l k : list A) : l ++ k = [] ↔ l = [] ∧ k = [].
Proof. destruct l; cbn; naive_solver. Qed.

Lemma bind_nil {A B} (f : A → list B) l : l ≫= f = [] ↔ ∀ x, x ∈ l → f x = [].
Proof.
  induction l as [|x l IH]; cbn; [set_solver|]. rewrite app_nil_iff, IH.
  setoid_rewrite elem_of_cons. naive_solver.
Qed.

#[export] Hint Rewrite @err_if_nil @err_of_nil @app_nil_iff @bind_nil orb_false_iff andb_false_iff
  negb_false_iff negb_true_iff bool_decide_eq_true bool_decide_eq_false Z.leb_gt Z.eqb_neq Z.eqb_eq : errs.

(** ** Lists without repetitions *)

(** Two lists without repetitions, one inside the other and equally long *)
Lemma NoDup_same_length {A} (l k : list A) :
  NoDup l → NoDup k → (∀ x, x ∈ l → x ∈ k) → length l = length k → l ≡ₚ k.
Proof.
  intros Hl Hk Hsub Hlen. apply submseteq_length_Permutation; [|lia]. by apply NoDup_submseteq.
Qed.

(** A loop that checks each element, fills a set of the keys it met and reports
    the repeated ones *)
Fixpoint each_once {A E} (check : A → list E) (key : A → string) (duplicate : A → E) (seen : gset string) (l : list A)
    : list E :=
  match l with
  | [] => []
  | x :: l =>
      check x ++ err_if (bool_decide (key x ∈ seen)) (duplicate x) ++
      each_once check key duplicate ({[key x]} ∪ seen) l
  end.

Lemma each_once_nil_seen {A E} (check : A → list E) key duplicate seen l :
  each_once check key duplicate seen l = [] ↔
  (∀ x, x ∈ l → check x = []) ∧ NoDup (key <$> l) ∧ ∀ x, x ∈ key <$> l → x ∉ seen.
Proof.
  revert seen. induction l as [|a l IH]; intros seen; cbn [each_once fmap list_fmap].
  { split; [intros _; split_and!; [set_solver|constructor|set_solver]|done]. }
  autorewrite with errs. rewrite IH, NoDup_cons. setoid_rewrite elem_of_cons. split.
  - intros (Hc & Ha & Hl & Hnd & Hd). split_and!; [|intros Hin; apply (Hd _ Hin); set_solver|done|].
    + intros x [->|Hx]; [done|by apply Hl].
    + intros x [->|Hx]; [done|]. specialize (Hd x Hx). set_solver.
  - intros (Hc & [Ha Hnd] & Hd). split_and!; [by apply Hc; left|by apply Hd; left|by auto|done|].
    intros x Hx [->%elem_of_singleton|?]%elem_of_union; [done|]. by eapply Hd; [right|].
Qed.

Lemma each_once_nil {A E} (check : A → list E) key duplicate l :
  each_once check key duplicate ∅ l = [] ↔ (∀ x, x ∈ l → check x = []) ∧ NoDup (key <$> l).
Proof. rewrite each_once_nil_seen. set_solver. Qed.

(** The same loop with a map from rack names to identities: two identities may
    not share a name. *)
Fixpoint each_racked {A E} (check : A → list E) (key name : A → string) (duplicate : A → E) (shared : string → A → E)
    (seen : gset string) (racks : gmap string string) (l : list A) : list E :=
  match l with
  | [] => []
  | x :: l =>
      check x ++ err_if (bool_decide (key x ∈ seen)) (duplicate x) ++
      match racks !! name x with
      | Some prior => err_if (negb (bool_decide (prior = key x))) (shared prior x)
      | None => []
      end ++
      each_racked check key name duplicate shared ({[key x]} ∪ seen) (<[name x := key x]> racks) l
  end.

Lemma each_racked_nil_seen {A E} (check : A → list E) key name duplicate shared seen racks l :
  each_racked check key name duplicate shared seen racks l = [] ↔
  each_once check key duplicate seen l = [] ∧
  (∀ x y, x ∈ l → y ∈ l → name x = name y → key x = key y) ∧
  (∀ x k, x ∈ l → racks !! name x = Some k → k = key x).
Proof.
  revert seen racks. induction l as [|a l IH]; intros seen racks; cbn [each_racked each_once]; [set_solver|].
  rewrite !app_nil_iff, IH. setoid_rewrite elem_of_cons. setoid_rewrite lookup_insert_Some. clear IH.
  split.
  - intros (Hc & Hd & Hr & Ho & Hn & Hk). split_and!; [done..| |].
    + intros x y [->|Hx] [->|Hy] Hxy; [done| | |by apply Hn].
      * apply (Hk y (key a) Hy). by left.
      * symmetry. apply (Hk x (key a) Hx). by left.
    + intros x k [->|Hx] Hl; [|].
      * rewrite Hl in Hr. autorewrite with errs in Hr. done.
      * destruct (decide (name a = name x)) as [He|He]; [|apply (Hk x k Hx); by right].
        rewrite <-(Hk x (key a) Hx) by (by left). rewrite <-He in Hl. rewrite Hl in Hr. by autorewrite with errs in Hr.
  - intros ((Hc & Hd & Ho) & Hn & Hk). split_and!; try done.
    + destruct (racks !! name a) as [k|] eqn:Hl; [|done]. autorewrite with errs. by apply (Hk a); [left|].
    + intros x y Hx Hy. by apply Hn; right.
    + intros x k Hx [[He <-]|[_ Hl]]; [by apply Hn; [left|right|]|]. apply (Hk x); [by right|done].
Qed.

Lemma each_racked_nil {A E} (check : A → list E) key name duplicate shared l :
  each_racked check key name duplicate shared ∅ ∅ l = [] ↔
  (∀ x, x ∈ l → check x = []) ∧ NoDup (key <$> l) ∧ ∀ x y, x ∈ l → y ∈ l → name x = name y → key x = key y.
Proof. rewrite each_racked_nil_seen, each_once_nil. set_solver. Qed.

#[export] Hint Rewrite @each_once_nil @each_racked_nil : errs.

(** ** Orders *)

(** [topo_sorted] by positions *)
Lemma topo_sorted_positions succ (order : list string) :
  NoDup order →
  topo_sorted succ order ↔
  ∀ i x y, order !! i = Some x → edge succ x y → ∃ j, order !! j = Some y ∧ (j < i)%nat.
Proof.
  intros Hnd. split.
  - intros Ht i x y Hi He. pose proof (take_drop_middle order i x Hi) as Hs.
    assert (y ∈ take i order) as (j & Hj)%list_elem_of_lookup by (by eapply Ht).
    apply lookup_take_Some in Hj as [? ?]. by exists j.
  - intros Hp l1 x l2 -> d Hd. destruct (Hp (length l1) x d) as (j & Hj & Hlt); [by apply list_lookup_middle|done|].
    rewrite lookup_app_l in Hj by lia. by eapply list_elem_of_lookup_2.
Qed.

Lemma reachable_ext {K} `{Countable K} (s1 s2 : K → list K) roots x :
  (∀ x y, edge s1 x y ↔ edge s2 x y) → reachable s1 roots x ↔ reachable s2 roots x.
Proof.
  intros He. unfold reachable. split; intros (r & Hr & Hx); exists r; (split; [done|]);
    (eapply rtc_subrel; [|exact Hx]); intros ??; apply He.
Qed.

(** The loop over an install order: the position of every name, what it reports
    of each name and the names that occur twice *)
Fixpoint positions {E} (problems : string → list E) (duplicate : string → E)
    (position : gmap string nat) (i : nat) (order : list string) : list E * gmap string nat :=
  match order with
  | [] => ([], position)
  | name :: order =>
      let errs := problems name ++ err_if (bool_decide (is_Some (position !! name))) (duplicate name) in
      let '(errs', position') := positions problems duplicate (<[name := i]> position) (S i) order in
      (errs ++ errs', position')
  end.

Lemma positions_nil {E} (problems : string → list E) duplicate pos i order :
  (positions problems duplicate pos i order).1 = [] ↔
  (∀ x, x ∈ order → problems x = []) ∧ NoDup order ∧ ∀ x, x ∈ order → pos !! x = None.
Proof.
  revert pos i. induction order as [|a order IH]; intros pos i; cbn [positions].
  { split; [intros _; split_and!; [set_solver|constructor|set_solver]|done]. }
  specialize (IH (<[a:=i]> pos) (S i)). destruct (positions problems duplicate _ _ order) as [errs p].
  cbn [fst] in *. autorewrite with errs. rewrite IH, NoDup_cons. clear IH.
  setoid_rewrite elem_of_cons. setoid_rewrite lookup_insert_None. split.
  - intros ((Ha & Hp) & Hl & Hnd & Hd). split_and!; [|set_solver|done|].
    + intros x [->|?]; [done|by apply Hl].
    + intros x [->|?]; [by apply eq_None_not_Some|by apply Hd].
  - intros (Hl & (Hn & Hnd) & Hd). split_and!; auto.
    + apply eq_None_not_Some. apply Hd. by left.
    + intros x Hx. split; [by apply Hd; right|]. by intros <-.
Qed.

Lemma positions_lookup {E} (problems : string → list E) duplicate pos i order x j :
  NoDup order → (∀ x, x ∈ order → pos !! x = None) →
  (positions problems duplicate pos i order).2 !! x = Some j ↔
  pos !! x = Some j ∨ ∃ k, order !! k = Some x ∧ j = (i + k)%nat.
Proof.
  revert pos i. induction order as [|a order IH]; intros pos i; cbn [positions].
  { intros _ _. split; [by left|]. by intros [?|(k & ? & _)]. }
  intros [Ha Hnd]%NoDup_cons Hp. setoid_rewrite elem_of_cons in Hp. specialize (IH (<[a:=i]> pos) (S i) Hnd).
  destruct (positions problems duplicate _ _ order) as [errs p]. cbn [snd] in *. rewrite IH; clear IH.
  2: { intros y Hy. rewrite lookup_insert_ne; [by apply Hp; right|]. by intros <-. }
  rewrite lookup_insert_Some. split.
  - intros [[[<- <-]|[? ?]]|(k & ? & ->)]; [right; exists 0%nat; split; [done|lia]|by left|].
    right. exists (S k). split; [done|lia].
  - intros [Hx|([|k] & Hk & ->)].
    + left. right. split; [|done]. intros <-. rewrite Hp in Hx; [done|by left].
    + injection Hk as ->. left. left. split; [done|lia].
    + right. exists k. split; [done|lia].
Qed.

Lemma positions_order {E} (problems : string → list E) duplicate order x j :
  NoDup order → (positions problems duplicate ∅ 0 order).2 !! x = Some j ↔ order !! j = Some x.
Proof.
  intros Hnd. rewrite positions_lookup by done. rewrite lookup_empty. split.
  - by intros [?|(k & ? & ->)].
  - intros ?. right. by exists j.
Qed.

(** ** Nodes *)

Section keyed.
Context {N : Type} (key : N → string).

(** [nodes[node.ID] = node], for every node of the list *)
Definition keyed_map (m : gmap string N) (l : list N) : gmap string N := foldl (λ m n, <[key n := n]> m) m l.

Lemma keyed_map_is_Some m l x : is_Some (keyed_map m l !! x) ↔ x ∈ key <$> l ∨ is_Some (m !! x).
Proof.
  revert m. induction l as [|n l IH]; intros m; cbn; [set_solver|]. rewrite IH, lookup_insert_is_Some', elem_of_cons.
  naive_solver.
Qed.

Lemma keyed_map_known l x : is_Some (keyed_map ∅ l !! x) ↔ x ∈ key <$> l.
Proof. rewrite keyed_map_is_Some, lookup_empty. split; [intros [?|?%is_Some_None]; done|by left]. Qed.

Lemma keyed_map_lookup m l x n :
  NoDup (key <$> l) → (∀ y, y ∈ key <$> l → m !! y = None) →
  keyed_map m l !! x = Some n ↔ (n ∈ l ∧ key n = x) ∨ m !! x = Some n.
Proof.
  revert m. induction l as [|a l IH]; intros m; cbn [keyed_map foldl fmap list_fmap]; [set_solver|].
  intros [Ha Hnd]%NoDup_cons Hm. setoid_rewrite elem_of_cons in Hm. fold (keyed_map (<[key a:=a]> m) l).
  rewrite IH; [|done|].
  2: { intros y Hy. rewrite lookup_insert_ne; [by apply Hm; right|]. by intros <-. }
  rewrite lookup_insert_Some, elem_of_cons. split.
  - intros [[? ?]|[[<- <-]|[? ?]]]; auto.
  - intros [[[->|?] <-]|Hx]; [by auto|by auto|]. right. right. split; [|done]. intros <-.
    rewrite Hm in Hx; [done|by left].
Qed.

Lemma keyed_map_dom l : dom (keyed_map ∅ l) = list_to_set (key <$> l) :> gset string.
Proof. apply set_eq. intros x. by rewrite elem_of_dom, keyed_map_known, elem_of_list_to_set. Qed.

Lemma keyed_map_size l : NoDup (key <$> l) → size (keyed_map ∅ l) = length l.
Proof. intros Hnd. rewrite <-size_dom, keyed_map_dom, size_list_to_set by done. by rewrite length_fmap. Qed.

End keyed.

Section nodes.
Context {N : Type} (key : N → string) (deps : N → list string).

#[local] Notation keyed_map := (keyed_map key).
#[local] Notation keyed_map_known := (keyed_map_known key).
#[local] Notation keyed_map_lookup := (keyed_map_lookup key).

(** The edges of the closure: what the walks follow *)
Definition map_succ (nodes : gmap string N) (name : string) : list string :=
  match nodes !! name with None => [] | Some n => deps n end.

(** The same, of the list of nodes *)
Definition list_succ (l : list N) (name : string) : list string :=
  l ≫= λ n, if bool_decide (key n = name) then deps n else [].

(** Every name a walk can meet, which bounds its recursion *)
Definition universe (nodes : gmap string N) (roots : list string) : gset string :=
  list_to_set roots ∪ dom nodes ∪ list_to_set (map_to_list nodes ≫= λ e, deps e.2).

(** The loop over the nodes that looks up the position of each and of its
    dependencies *)
Definition order_problems {E} (omits : string → E) (before : string → string → E)
    (position : gmap string nat) (l : list N) : list E :=
  l ≫= λ n,
    match position !! key n with
    | None => [omits (key n)]
    | Some pos =>
        deps n ≫= λ dep,
          err_if (match position !! dep with
                  | None => true
                  | Some depPos => bool_decide (pos <= depPos)%nat
                  end) (before (key n) dep)
    end.

(** The closure: one node per name, nothing missing, everything needed by a
    root, and an install order that puts every dependency first. *)
Record closure_ok (roots : list string) (l : list N) (order : list string) : Prop := {
  cw_unique : NoDup (key <$> l);
  cw_roots : ∀ x, x ∈ roots → x ∈ key <$> l;
  cw_deps : ∀ x y, edge (list_succ l) x y → y ∈ key <$> l;
  cw_order : order ≡ₚ key <$> l;
  cw_topo : topo_sorted (list_succ l) order;
  cw_needed : ∀ x, x ∈ key <$> l → reachable (list_succ l) roots x;
}.

Lemma edge_list_succ l x y : edge (list_succ l) x y ↔ ∃ n, n ∈ l ∧ key n = x ∧ y ∈ deps n.
Proof.
  unfold edge, list_succ. rewrite list_elem_of_bind. split.
  - intros (n & Hy & Hn). case_bool_decide; [by eauto|set_solver].
  - intros (n & Hn & Hx & Hy). exists n. by rewrite bool_decide_true.
Qed.

Lemma edge_map_succ l x y :
  NoDup (key <$> l) → edge (map_succ (keyed_map ∅ l)) x y ↔ edge (list_succ l) x y.
Proof.
  intros Hnd. rewrite edge_list_succ. unfold edge, map_succ. split.
  - destruct (keyed_map ∅ l !! x) as [n|] eqn:E; [|set_solver].
    apply keyed_map_lookup in E as [[? ?]|?]; [|done..|set_solver]. by eauto.
  - intros (n & Hn & Hx & Hy). assert (keyed_map ∅ l !! x = Some n) as ->; [|done].
    apply keyed_map_lookup; [done|set_solver|by left].
Qed.

Lemma universe_closed nodes roots : closed_set (map_succ nodes) (universe nodes roots).
Proof.
  intros x y _. unfold edge, map_succ, universe. destruct (nodes !! x) as [n|] eqn:E; [|set_solver].
  intros Hy. apply elem_of_union_r, elem_of_list_to_set, list_elem_of_bind. exists (x, n).
  split; [done|]. by apply elem_of_map_to_list.
Qed.

Lemma universe_roots nodes roots x : x ∈ roots → x ∈ universe nodes roots.
Proof. unfold universe. set_solver. Qed.

Lemma missing_deps_nil {E} (report : N → string → E) l :
  (l ≫= λ n, deps n ≫= λ dep, err_if (bool_decide (keyed_map ∅ l !! dep = None)) (report n dep)) = [] ↔
  ∀ x y, edge (list_succ l) x y → y ∈ key <$> l.
Proof.
  setoid_rewrite edge_list_succ. setoid_rewrite <-keyed_map_known. rewrite bind_nil. split.
  - intros H x y (n & Hn & <- & Hy). specialize (H n Hn). apply bind_nil with (x := y) in H; [|done].
    by apply err_if_nil, bool_decide_eq_false, not_eq_None_Some in H.
  - intros H n Hn. apply bind_nil. intros dep Hdep. apply err_if_nil, bool_decide_eq_false, not_eq_None_Some.
    by apply (H (key n)); exists n.
Qed.

(** A loop over the map of nodes finds what a loop over the list finds. *)
Lemma keyed_bind_nil {E} (f : string * N → list E) l :
  NoDup (key <$> l) → (map_to_list (keyed_map ∅ l) ≫= f) = [] ↔ (l ≫= λ n, f (key n, n)) = [].
Proof.
  intros Hnd. rewrite !bind_nil. split.
  - intros H n Hn. apply H, elem_of_map_to_list, keyed_map_lookup; [done|set_solver|by left].
  - intros H [x n] [[Hn <-]|?]%elem_of_map_to_list%keyed_map_lookup; [by apply H|done|done|set_solver].
Qed.

(** The reachability check: a walk from the roots, then a loop over the nodes *)
Lemma reachable_check_nil {E} (fuel : E) (report : string → E) l roots :
  NoDup (key <$> l) →
  match walk_all (map_succ (keyed_map ∅ l)) (size (universe (keyed_map ∅ l) roots)) roots with
  | Err _ => [fuel]
  | Ok seen => map_to_list (keyed_map ∅ l) ≫= λ e, err_if (bool_decide (e.1 ∉ seen)) (report e.1)
  end = [] ↔ ∀ x, x ∈ key <$> l → reachable (list_succ l) roots x.
Proof.
  intros Hnd. destruct (walk_all_fuel (map_succ (keyed_map ∅ l)) (universe (keyed_map ∅ l) roots)
    (size (universe (keyed_map ∅ l) roots)) roots) as (seen & Hw).
  { apply universe_closed. }
  { apply universe_roots. }
  { done. }
  rewrite Hw, keyed_bind_nil, bind_nil by done. pose proof (walk_all_ok _ _ _ _ Hw) as Hseen.
  assert (∀ x, x ∈ seen ↔ reachable (list_succ l) roots x) as Hs.
  { intros x. rewrite Hseen. apply reachable_ext. intros ??. by apply edge_map_succ. }
  setoid_rewrite <-Hs. split.
  - intros He x (n & -> & Hn)%list_elem_of_fmap. specialize (He n Hn).
    apply err_if_nil, bool_decide_eq_false in He. by apply dec_stable.
  - intros He n Hn. apply err_if_nil, bool_decide_eq_false. intros Hns. apply Hns, He. by apply (list_elem_of_fmap_2 key).
Qed.

(** The order checks, given that what is reported of a name includes that it is
    unknown. *)
Lemma order_checks_nil {E} (problems : string → list E) duplicate (omits : string → E) before (P : string → Prop) l order :
  NoDup (key <$> l) → (∀ x, problems x = [] ↔ P x ∧ x ∈ key <$> l) →
  (length order = length l ∧ (positions problems duplicate ∅ 0 order).1 = [] ∧
   order_problems omits before (positions problems duplicate ∅ 0 order).2 l = []) ↔
  (∀ x, x ∈ order → P x) ∧ order ≡ₚ key <$> l ∧ topo_sorted (list_succ l) order.
Proof.
  intros Hnd HP. pose proof (positions_nil problems duplicate ∅ 0 order) as Hnil.
  pose proof (λ x j, positions_order problems duplicate order x j) as Hpos.
  destruct (positions problems duplicate ∅ 0 order) as [errs pos]. cbn [fst snd] in *. rewrite Hnil.
  setoid_rewrite HP. split.
  - intros (Hlen & (Hin & Hno & _) & Hd). assert (order ≡ₚ key <$> l) as Hperm.
    { apply NoDup_same_length; [done..|apply Hin|by rewrite length_fmap]. }
    split_and!; [apply Hin|done|]. apply topo_sorted_positions; [done|]. setoid_rewrite edge_list_succ.
    intros i x y Hi (n & Hn & <- & Hy). unfold order_problems in Hd. rewrite bind_nil in Hd. specialize (Hd n Hn).
    apply Hpos in Hi; [|done]. rewrite Hi in Hd. apply bind_nil with (x := y) in Hd; [|done].
    apply err_if_nil in Hd. destruct (pos !! y) as [j|] eqn:Ej; [|done].
    apply bool_decide_eq_false in Hd. exists j. split; [by apply Hpos|lia].
  - intros (Hall & Hperm & Ht). assert (NoDup order) as Hno by (by rewrite Hperm).
    split_and!; [by rewrite Hperm, length_fmap| |done|done|].
    { intros x Hx. split; [by apply Hall|]. by rewrite <-Hperm. }
    rewrite topo_sorted_positions in Ht by done. setoid_rewrite edge_list_succ in Ht.
    apply bind_nil. intros n Hn.
    assert (key n ∈ order) as (i & Hi)%list_elem_of_lookup by (rewrite Hperm; by apply list_elem_of_fmap_2).
    rewrite (proj2 (Hpos _ _ Hno) Hi). apply bind_nil. intros dep Hdep. apply err_if_nil.
    destruct (Ht i (key n) dep) as (j & Hj & Hlt); [done|by exists n|].
    rewrite (proj2 (Hpos _ _ Hno) Hj). apply bool_decide_eq_false. lia.
Qed.

(** A closure has no cycle. *)
Lemma closure_acyclic roots l order : closure_ok roots l order → acyclic_from (map_succ (keyed_map ∅ l)) roots.
Proof.
  intros Hc x Hx Htc. assert (NoDup order) as Hnd by (rewrite (cw_order _ _ _ Hc); apply Hc).
  assert (∀ a b, edge (map_succ (keyed_map ∅ l)) a b ↔ edge (list_succ l) a b) as He.
  { intros. apply edge_map_succ, Hc. }
  eapply (topo_sorted_acyclic (list_succ l) order x); [done|apply Hc| |].
  - assert (x ∈ key <$> l) as Hin; [|by rewrite (cw_order _ _ _ Hc)].
    destruct Hx as (r & Hr & Hx). apply rtc_inv_r in Hx as [->|(y & _ & Hy)]; [by apply Hc|].
    eapply (cw_deps _ _ _ Hc y), He. done.
  - eapply tc_mono; [|exact Htc]. intros a b. apply He.
Qed.

(** A closure is one whatever the order of its nodes and roots. *)
Lemma closure_ok_ext roots1 roots2 l k order :
  roots1 ≡ₚ roots2 → key <$> l ≡ₚ key <$> k → (∀ x y, edge (list_succ l) x y ↔ edge (list_succ k) x y) →
  closure_ok roots1 l order → closure_ok roots2 k order.
Proof.
  intros Hr Hk He [Hu Hro Hd Ho Ht Hn]. split.
  - by rewrite <-Hk.
  - intros x. rewrite <-Hr, <-Hk. apply Hro.
  - intros x y Hy%He. rewrite <-Hk. by eapply Hd.
  - by rewrite <-Hk.
  - intros l1 x l2 Hs d Hxd%He. by eapply Ht.
  - intros x. rewrite <-Hk. intros (r & Hin & Hx)%Hn. exists r. rewrite <-Hr. split; [done|].
    eapply rtc_subrel; [|exact Hx]. intros ? ?. apply He.
Qed.

End nodes.

Arguments cw_unique {N key deps roots l order}.
Arguments cw_roots {N key deps roots l order}.
Arguments cw_deps {N key deps roots l order}.
Arguments cw_order {N key deps roots l order}.
Arguments cw_topo {N key deps roots l order}.
Arguments cw_needed {N key deps roots l order}.
