(* ===== verification/Metadata.v ===== *)
(** * internal/homebrew/metadata: the signed Formula catalog

    From the decoded Formula array and the decoded migration object to the
    catalog of canonical names, aliases, old names and resolved migrations, and
    its [Lookup]. JSON text is decoded by the standard library; the model
    starts from the decoded values ([rawFormula], [json]). *)

From S2P Require Import Prelude GoStrings Regex Graph.
From S2P Require Export NetUrl.
From stdpp Require Import options.
Local Open Scope Z_scope.

(** ** encoding/json, as far as this component uses it *)

(** A decoded JSON value; object members keep their order, duplicates having
    been rejected before. *)
Inductive json :=
| JNull
| JBool (b : bool)
| JNumber (text : string)
| JString (s : string)
| JArray (l : list json)
| JObject (members : list (string * json)).

(** [json.Unmarshal] into a [string], a [[]string] and a map: [null] leaves the
    zero value. *)
Definition unmarshal_string (v : json) : option string :=
  match v with JString s => Some s | JNull => Some "" | _ => None end.

Definition unmarshal_strings (v : json) : option (list string) :=
  match v with JArray l => mapM unmarshal_string l | JNull => Some [] | _ => None end.

Definition unmarshal_object (v : json) : option (list (string * json)) :=
  match v with JObject m => Some m | JNull => Some [] | _ => None end.

(** ** Types *)

Record BottleFile := MkBottleFile {
  bf_Tag : string; bf_Cellar : string; bf_URL : string; bf_SHA256 : string;
}.

Record Bottle := MkBottle { b_Rebuild : Z; b_RootURL : string; b_Files : list BottleFile }.

Record Variation := MkVariation {
  v_Tag : string; v_Dependencies : list string; v_OverridesDependencies : bool;
  v_KegOnly : bool; v_OverridesKegOnly : bool;
}.

Record Formula := MkFormula {
  f_Name : string; f_FullName : string; f_Tap : string;
  f_OldNames : list string; f_Aliases : list string; f_VersionedFormulae : list string;
  f_Description : string; f_License : string; f_Homepage : string;
  f_StableVersion : string; f_Revision : Z; f_VersionScheme : Z;
  f_KegOnly : bool; f_Disabled : bool;
  f_Dependencies : list string; f_Variations : list Variation; f_Bottle : option Bottle;
}.

Record Migration := MkMigration {
  m_Name : string; m_Target : string; m_TargetName : string; m_InCore : bool;
}.

Inductive MatchKind := MatchCanonical | MatchAlias | MatchOldName | MatchMigration.

#[export] Instance MatchKind_eq_dec : EqDecision MatchKind.
Proof. solve_decision. Defined.

Record Match := MkMatch {
  mt_Requested : string; mt_Canonical : string; mt_Kind : MatchKind; mt_Formula : Formula;
}.

(** The sentinel errors, and the reasons a catalog is refused *)
Inductive claim := ClaimCanonical | ClaimAlias (n : string) | ClaimOldName (n : string) | ClaimMigration.

Inductive problem :=
| EmptyStableVersion
| NegativeRevision
| NegativeVersionScheme
| InvalidName (kind name : string)
| DuplicateName (kind name : string)
| InvalidUsesFromMacOS
| UnknownUsesKind (kind : string)
| InvalidVariationTag (tag : string)
| MissingStableBottle
| UnexpectedStableBottle
| NegativeRebuild
| InvalidRootURL
| EmptyBottleFiles
| InvalidBottleTag (tag : string)
| EmptyCellar (tag : string)
| InvalidBottleURL (tag : string)
| InvalidBottleSHA256 (tag : string)
| EmptyMigrationTarget (name : string)
| MalformedMigrationTarget (name : string)
| MigrationTargetNotString (name : string)
| DuplicateCanonical (name : string) (previous : claim)
| SelfVersioned (name : string)
| NonVersioned (name versioned : string)
| MissingVersioned (name versioned : string)
| DuplicateIdentity (name : string) (previous kind : claim)
| MissingDependency (name dependency : string)
| DependencyCycle (tag : string) (path : list string)
| CycleSearchFuel
| SameNameMigration (name : string)
| MigrationCycle (path : list string)
| MissingMigration (name : string)
| MigrationToVersioned (name target : string)
| MigrationToUnknown (name target : string)
| MigrationFuel.

Inductive meta_error :=
| ErrInvalidCatalog (why : problem)
| ErrInvalidFormulaName (name : string)
| ErrOutOfCore (target : string)
| ErrFormulaNotFound
| ErrVersionedFormulaNotExplicit
| ErrBottleUnavailable
| ErrFormulaDisabled.

(** ** Formula accessors *)

Fixpoint find_tag (tag : string) (files : list BottleFile) : option BottleFile :=
  match files with
  | [] => None
  | f :: files => if bool_decide (bf_Tag f = tag) then Some f else find_tag tag files
  end.

(** [Bottle.File]: the exact tag, else the portable [all] tag *)
Definition Bottle_File (b : Bottle) (tag : string) : option BottleFile :=
  match find_tag tag (b_Files b) with
  | Some f => Some f
  | None => if bool_decide (tag ≠ "all") then find_tag "all" (b_Files b) else None
  end.

Definition Formula_PkgVersion (f : Formula) : string :=
  if 0 <? f_Revision f then f_StableVersion f +:+ "_" +:+ strconv_Itoa (f_Revision f)
  else f_StableVersion f.

Fixpoint variation_deps (tag : string) (vs : list Variation) : option (list string) :=
  match vs with
  | [] => None
  | v :: vs =>
      if bool_decide (v_Tag v = tag) && v_OverridesDependencies v then Some (v_Dependencies v)
      else variation_deps tag vs
  end.

Definition DependenciesFor (f : Formula) (tag : string) : list string :=
  default (f_Dependencies f) (variation_deps tag (f_Variations f)).

Fixpoint variation_keg_only (tag : string) (vs : list Variation) : option bool :=
  match vs with
  | [] => None
  | v :: vs =>
      if bool_decide (v_Tag v = tag) && v_OverridesKegOnly v then Some (v_KegOnly v)
      else variation_keg_only tag vs
  end.

Definition KegOnlyFor (f : Formula) (tag : string) : bool :=
  default (f_KegOnly f) (variation_keg_only tag (f_Variations f)).

Definition BottleFor (f : Formula) (tag : string) : result meta_error BottleFile :=
  match f_Bottle f with
  | None => Err ErrBottleUnavailable
  | Some b => match Bottle_File b tag with Some file => Ok file | None => Err ErrBottleUnavailable end
  end.

(** ** Names *)

(** [formulaNamePattern] = [^[a-z0-9][a-z0-9+_.@-]*$], [bottleTagPattern] = [^[a-z0-9][a-z0-9_]*$] *)
Definition formulaNamePattern : regex :=
  RCat (RCls (λ c, isLower c || isDigit c))
       (RStar (RCls (λ c, isLower c || isDigit c || one_of "+_.@-" c))).

Definition bottleTagPattern : regex :=
  RCat (RCls (λ c, isLower c || isDigit c)) (RStar (RCls (λ c, isLower c || isDigit c || one_of "_" c))).

Definition validateSimpleName (name : string) : result meta_error unit :=
  check (negb (matches formulaNamePattern name) || strings_ContainsAny name "/\") (ErrInvalidFormulaName name).

Fixpoint validateUniqueNames_loop (kind : string) (seen : gset string) (names : list string) : result problem unit :=
  match names with
  | [] => Ok tt
  | name :: names =>
      _ ← map_err (λ _, InvalidName kind name) (validateSimpleName name);
      if decide (name ∈ seen) then Err (DuplicateName kind name)
      else validateUniqueNames_loop kind ({[name]} ∪ seen) names
  end.

Definition validateUniqueNames (kind : string) (names : list string) : result problem unit :=
  validateUniqueNames_loop kind ∅ names.

Definition uniqueSorted (values : list string) : list string := slices_Sort (uniqueFirst ∅ values).

Definition sortedClone (l : list string) : list string := slices_Sort l.

(** ** Raw records, as decoded *)

Record rawBottleFile := MkRawBottleFile { rbf_Cellar : string; rbf_URL : string; rbf_SHA256 : string }.

Record rawBottle := MkRawBottle {
  rb_Rebuild : Z; rb_RootURL : string; rb_Files : gmap string rawBottleFile;
}.

Record rawVariation := MkRawVariation { rv_Dependencies : option (list string); rv_KegOnly : option bool }.

Record rawFormula := MkRawFormula {
  rf_Name : string; rf_FullName : string; rf_Tap : string;
  rf_OldNames : list string; rf_OldName : string; rf_Aliases : list string;
  rf_VersionedFormulae : list string;
  rf_Description : string; rf_License : string; rf_Homepage : string;
  rf_Stable : string; rf_VersionsBottle : bool;
  rf_Revision : Z; rf_VersionScheme : Z;
  rf_BottleStable : option rawBottle;
  rf_KegOnly : bool; rf_Disabled : bool;
  rf_Dependencies : list string; rf_RecommendedDependencies : list string;
  rf_UsesFromMacOS : list json; rf_Variations : gmap string rawVariation;
}.

(** ** Normalization *)

(** The inner loop over an array of kinds: is [no_linkage] among them? *)
Fixpoint uses_kinds (runtime : bool) (kinds : list string) : result problem bool :=
  match kinds with
  | [] => Ok runtime
  | item :: kinds =>
      if bool_decide (item = "no_linkage") then uses_kinds true kinds
      else if bool_decide (item ≠ "build") && bool_decide (item ≠ "test") then Err (UnknownUsesKind item)
      else uses_kinds runtime kinds
  end.

(** One entry of [uses_from_macos]: the dependencies it contributes *)
Definition uses_entry (raw : json) : result problem (list string) :=
  match unmarshal_string raw with
  | Some name => Ok [name]
  | None =>
      match unmarshal_object raw with
      | Some [(dependency, kindRaw)] =>
          match unmarshal_string kindRaw with
          | Some kind =>
              if bool_decide (kind = "build") || bool_decide (kind = "test") then Ok []
              else if bool_decide (kind = "no_linkage") then Ok [dependency]
              else Err (UnknownUsesKind kind)
          | None =>
              match unmarshal_strings kindRaw with
              | None => Err InvalidUsesFromMacOS
              | Some kinds =>
                  runtime ← uses_kinds false kinds; Ok (if (runtime : bool) then [dependency] else [])
              end
          end
      | _ => Err InvalidUsesFromMacOS
      end
  end.

Definition runtimeUsesFromMacOS (values : list json) : result problem (list string) :=
  out ← mapM_res uses_entry values; Ok (uniqueSorted (concat out)).

Section normalize.
Context {U : UnicodeTables} {N : NetURL}.

Definition validateAbsoluteHTTPSURL (value : string) : bool :=
  match url_Parse value with
  | None => false
  | Some u =>
      bool_decide (url_Scheme u = "https") && negb (bool_decide (url_Host u = ""))
      && negb (url_HasUser u) && bool_decide (url_Fragment u = "")
  end.

Definition validateSHA256 (value : string) : bool :=
  (strlen value =? 64) && bool_decide (value = strings_ToLower value) && hex_decodable value.

Definition normalizeBottleFile (entry : string * rawBottleFile) : result problem BottleFile :=
  let '(tag, file) := entry in
  _ ← check (negb (matches bottleTagPattern tag)) (InvalidBottleTag tag);
  _ ← check (bool_decide (strings_TrimSpace (rbf_Cellar file) = "")) (EmptyCellar tag);
  _ ← check (negb (validateAbsoluteHTTPSURL (rbf_URL file))) (InvalidBottleURL tag);
  _ ← check (negb (validateSHA256 (rbf_SHA256 file))) (InvalidBottleSHA256 tag);
  Ok (MkBottleFile tag (rbf_Cellar file) (rbf_URL file) (rbf_SHA256 file)).

Definition normalizeBottle (raw : rawBottle) : result problem Bottle :=
  _ ← check (rb_Rebuild raw <? 0) NegativeRebuild;
  _ ← check (negb (validateAbsoluteHTTPSURL (rb_RootURL raw))) InvalidRootURL;
  _ ← check (bool_decide (rb_Files raw = ∅)) EmptyBottleFiles;
  files ← mapM_res normalizeBottleFile (sort_by fst (map_to_list (rb_Files raw)));
  Ok (MkBottle (rb_Rebuild raw) (rb_RootURL raw) files).

(** One entry of the variations loop, in tag order *)
Definition normalizeVariation (recommended uses : list string) (entry : string * rawVariation)
    : result problem Variation :=
  let '(tag, rv) := entry in
  _ ← check (negb (matches bottleTagPattern tag)) (InvalidVariationTag tag);
  deps ← match rv_Dependencies rv with
         | None => Ok ([], false)
         | Some deps =>
             _ ← validateUniqueNames "variation dependency" deps;
             Ok (uniqueSorted (deps ++ recommended ++ uses), true)
         end;
  let '(keg, overridesKeg) := match rv_KegOnly rv with None => (false, false) | Some b => (b, true) end in
  Ok (MkVariation tag deps.1 deps.2 keg overridesKeg).

Definition normalizeFormula (raw : rawFormula) : result meta_error Formula :=
  _ ← validateSimpleName (rf_Name raw);
  _ ← check (bool_decide (rf_Tap raw ≠ "homebrew/core")) (ErrOutOfCore (rf_Tap raw));
  _ ← check (bool_decide (rf_FullName raw ≠ rf_Name raw)
             && bool_decide (rf_FullName raw ≠ "homebrew/core/" +:+ rf_Name raw)) (ErrOutOfCore (rf_FullName raw));
  map_err ErrInvalidCatalog (
    _ ← check (bool_decide (strings_TrimSpace (rf_Stable raw) = "")) EmptyStableVersion;
    _ ← check (rf_Revision raw <? 0) NegativeRevision;
    _ ← check (rf_VersionScheme raw <? 0) NegativeVersionScheme;
    let oldNames := rf_OldNames raw ++ (if bool_decide (rf_OldName raw = "") then [] else [rf_OldName raw]) in
    _ ← validateUniqueNames "oldname" oldNames;
    _ ← validateUniqueNames "alias" (rf_Aliases raw);
    _ ← validateUniqueNames "versioned Formula" (rf_VersionedFormulae raw);
    _ ← validateUniqueNames "dependency" (rf_Dependencies raw);
    _ ← validateUniqueNames "recommended dependency" (rf_RecommendedDependencies raw);
    uses ← runtimeUsesFromMacOS (rf_UsesFromMacOS raw);
    let dependencies := uniqueSorted (rf_Dependencies raw ++ rf_RecommendedDependencies raw ++ uses) in
    _ ← validateUniqueNames "dependency" dependencies;
    variations ← mapM_res (normalizeVariation (rf_RecommendedDependencies raw) uses)
                          (sort_by fst (map_to_list (rf_Variations raw)));
    bottle ← (if rf_VersionsBottle raw then
                match rf_BottleStable raw with
                | None => Err MissingStableBottle
                | Some rb => Some <$> normalizeBottle rb
                end
              else match rf_BottleStable raw with
                   | None => Ok None
                   | Some _ => Err UnexpectedStableBottle
                   end);
    Ok (MkFormula (rf_Name raw) ("homebrew/core/" +:+ rf_Name raw) (rf_Tap raw)
          (sortedClone oldNames) (sortedClone (rf_Aliases raw)) (sortedClone (rf_VersionedFormulae raw))
          (rf_Description raw) (rf_License raw) (rf_Homepage raw)
          (rf_Stable raw) (rf_Revision raw) (rf_VersionScheme raw)
          (rf_KegOnly raw) (rf_Disabled raw) dependencies variations bottle)).

Definition parseFormulae (raws : list rawFormula) : result meta_error (list Formula) :=
  mapM_res normalizeFormula raws.

End normalize.

Definition normalizeMigration (name target : string) : result problem Migration :=
  _ ← check (bool_decide (strings_TrimSpace target = "")) (EmptyMigrationTarget name);
  let bad := Err (MalformedMigrationTarget name) in
  match strings_Split target "/" with
  | [p0] =>
      _ ← map_err (λ _, InvalidName "migration target" p0) (validateSimpleName p0);
      Ok (MkMigration name target p0 true)
  | [p0; p1] =>
      if bool_decide (p0 = "homebrew") && bool_decide (p1 = "core") then Ok (MkMigration name target name true)
      else if bool_decide (p0 = "") || bool_decide (p1 = "") then bad
      else Ok (MkMigration name target "" false)
  | [p0; p1; p2] =>
      _ ← map_err (λ _, InvalidName "migration target name" p2) (validateSimpleName p2);
      if bool_decide (p0 = "") || bool_decide (p1 = "") then bad
      else Ok (MkMigration name target p2 (bool_decide (p0 = "homebrew") && bool_decide (p1 = "core")))
  | _ => bad
  end.

Definition parseMigration (entry : string * json) : result problem Migration :=
  let '(name, raw) := entry in
  _ ← map_err (λ _, InvalidName "migration source" name) (validateSimpleName name);
  match unmarshal_string raw with
  | None => Err (MigrationTargetNotString name)
  | Some target => normalizeMigration name target
  end.

Definition parseMigrations (object : gmap string json) : result problem (list Migration) :=
  mapM_res parseMigration (sort_by fst (map_to_list object)).

(** ** The catalog *)

Record migrationResolution := MkResolution { mr_canonical : string; mr_externalTarget : string }.

Record Catalog := MkCatalog {
  c_canonical : gmap string Formula;
  c_aliases : gmap string string;
  c_oldNames : gmap string string;
  c_migrations : gmap string Migration;
  c_resolvedMigrations : gmap string migrationResolution;
  c_canonicalNames : list string;
}.

Definition claimIndex (claimed : gmap string claim) (name : string) (kind : claim)
    : result problem (gmap string claim) :=
  match claimed !! name with
  | Some previous => Err (DuplicateIdentity name previous kind)
  | None => Ok (<[name := kind]> claimed)
  end.

(** First loop of [buildCatalog]: canonical names *)
Definition addCanonical (acc : gmap string claim * gmap string Formula * list string) (f : Formula)
    : result problem (gmap string claim * gmap string Formula * list string) :=
  let '(claimed, canonical, names) := acc in
  match claimed !! f_Name f with
  | Some previous => Err (DuplicateCanonical (f_Name f) previous)
  | None => Ok (<[f_Name f := ClaimCanonical]> claimed, <[f_Name f := f]> canonical, names ++ [f_Name f])
  end.

(** Second loop: versioned references, aliases and old names of one Formula *)
Definition checkVersioned (canonical : gmap string Formula) (name versioned : string) : result problem unit :=
  _ ← check (bool_decide (versioned = name)) (SelfVersioned name);
  _ ← check (negb (strings_Contains versioned "@")) (NonVersioned name versioned);
  match canonical !! versioned with
  | None => Err (MissingVersioned name versioned)
  | Some _ => Ok tt
  end.

Definition claimAll (kind : claim) (name : string) (acc : gmap string claim * gmap string string)
    (entry : string) : result problem (gmap string claim * gmap string string) :=
  claimed ← claimIndex acc.1 entry kind; Ok (claimed, <[entry := name]> acc.2).

Definition indexFormula (canonical : gmap string Formula)
    (acc : gmap string claim * gmap string string * gmap string string) (name : string)
    : result problem (gmap string claim * gmap string string * gmap string string) :=
  let '(claimed, aliases, oldNames) := acc in
  match canonical !! name with
  | None => Ok acc
  | Some f =>
      _ ← mapM_res (checkVersioned canonical name) (f_VersionedFormulae f);
      ca ← foldM_res (claimAll (ClaimAlias name) name) (claimed, aliases) (f_Aliases f);
      co ← foldM_res (claimAll (ClaimOldName name) name) (ca.1, oldNames) (f_OldNames f);
      Ok (co.1, ca.2, co.2)
  end.

(** The closure [resolve] of [canonicalizeCatalogDependencies] *)
Definition resolveDependency (c : Catalog) (name : string) : option string :=
  match c_canonical c !! name with
  | Some _ => Some name
  | None => match c_aliases c !! name with
            | Some n => Some n
            | None => c_oldNames c !! name
            end
  end.

Definition canonicalDeps (c : Catalog) (name : string) (deps : list string) : result problem (list string) :=
  ds ← mapM_res (λ d, match resolveDependency c d with
                      | Some n => Ok n
                      | None => Err (MissingDependency name d)
                      end) deps;
  Ok (uniqueSorted ds).

Definition canonicalVariation (c : Catalog) (name : string) (v : Variation) : result problem Variation :=
  ds ← canonicalDeps c name (v_Dependencies v);
  Ok (MkVariation (v_Tag v) ds (v_OverridesDependencies v) (v_KegOnly v) (v_OverridesKegOnly v)).

Definition with_dependencies (f : Formula) (deps : list string) (vs : list Variation) : Formula :=
  MkFormula (f_Name f) (f_FullName f) (f_Tap f) (f_OldNames f) (f_Aliases f) (f_VersionedFormulae f)
    (f_Description f) (f_License f) (f_Homepage f) (f_StableVersion f) (f_Revision f) (f_VersionScheme f)
    (f_KegOnly f) (f_Disabled f) deps vs (f_Bottle f).

Definition with_canonical (c : Catalog) (m : gmap string Formula) : Catalog :=
  MkCatalog m (c_aliases c) (c_oldNames c) (c_migrations c) (c_resolvedMigrations c) (c_canonicalNames c).

Definition canonicalizeFormula (c : Catalog) (name : string) : result problem Catalog :=
  match c_canonical c !! name with
  | None => Ok c
  | Some f =>
      deps ← canonicalDeps c name (f_Dependencies f);
      vs ← mapM_res (canonicalVariation c name) (f_Variations f);
      Ok (with_canonical c (<[name := with_dependencies f deps vs]> (c_canonical c)))
  end.

Definition canonicalizeCatalogDependencies (c : Catalog) : result problem Catalog :=
  foldM_res canonicalizeFormula c (c_canonicalNames c).

Definition is_linux_tag (tag : string) : bool :=
  bool_decide (tag = "x86_64_linux") || bool_decide (tag = "arm64_linux").

Definition requireCanonical (c : Catalog) (name dep : string) : result problem unit :=
  match c_canonical c !! dep with None => Err (MissingDependency name dep) | Some _ => Ok tt end.

Definition checkFormulaDeps (c : Catalog) (name : string) : result problem unit :=
  match c_canonical c !! name with
  | None => Ok tt
  | Some f =>
      _ ← mapM_res (requireCanonical c name) (f_Dependencies f);
      _ ← mapM_res (λ v, if negb (is_linux_tag (v_Tag v)) || negb (v_OverridesDependencies v) then Ok []
                         else mapM_res (requireCanonical c name) (v_Dependencies v)) (f_Variations f);
      Ok tt
  end.

(** The Linux tags some Formula has a variation for *)
Definition linuxTags (c : Catalog) : list string :=
  uniqueFirst ∅ (mjoin ((λ n, match c_canonical c !! n with
                               | None => []
                               | Some f => filter (λ t, is_linux_tag t = true) (v_Tag <$> f_Variations f)
                               end) <$> c_canonicalNames c)).

Definition depsForTag (c : Catalog) (tag name : string) : list string :=
  match c_canonical c !! name with
  | None => []
  | Some f => if bool_decide (tag = "") then f_Dependencies f else DependenciesFor f tag
  end.

Definition validateDependencyCycles (c : Catalog) (tag : string) : result problem unit :=
  match dfs_all (depsForTag c tag) (size (c_canonical c)) (c_canonicalNames c) with
  | Ok _ => Ok tt
  | Err (Cycle path) => Err (DependencyCycle tag path)
  | Err OutOfFuel => Err CycleSearchFuel
  end.

Definition validateCatalogDependencies (c : Catalog) : result problem unit :=
  _ ← mapM_res (checkFormulaDeps c) (c_canonicalNames c);
  _ ← mapM_res (validateDependencyCycles c) (slices_Sort ("" :: linuxTags c));
  Ok tt.

(** Same-name migrations inside core are dropped when the name is known. *)
Definition acceptMigration (c : Catalog)
    (acc : gmap string claim * gmap string Migration * list Migration) (m : Migration)
    : result problem (gmap string claim * gmap string Migration * list Migration) :=
  let '(claimed, migrations, accepted) := acc in
  if m_InCore m && bool_decide (m_TargetName m = m_Name m) then
    match resolveDependency c (m_Name m) with
    | Some _ => Ok acc
    | None => Err (SameNameMigration (m_Name m))
    end
  else
    claimed' ← claimIndex claimed (m_Name m) ClaimMigration;
    Ok (claimed', <[m_Name m := m]> migrations, accepted ++ [m]).

(** [resolveMigration]: memoized, with the path of open names. [active] maps an
    open name to its position in [stack]; it is passed down only, since the
    source deletes the entry on return. *)
Fixpoint resolveMigration (c : Catalog) (fuel : nat) (name : string) (stack : list string)
    (active : gmap string nat) (memo : gmap string migrationResolution)
    : result problem (migrationResolution * gmap string migrationResolution) :=
  match fuel with
  | O => Err MigrationFuel
  | S fuel =>
      match memo !! name with
      | Some r => Ok (r, memo)
      | None =>
          match active !! name with
          | Some start => Err (MigrationCycle (drop start stack ++ [name]))
          | None =>
              match c_migrations c !! name with
              | None => Err (MissingMigration name)
              | Some m =>
                  let active := <[name := length stack]> active in
                  let stack := stack ++ [name] in
                  let save r memo := Ok (r, <[name := r]> memo) in
                  if negb (m_InCore m) then save (MkResolution "" (m_Target m)) memo
                  else
                    let target := m_TargetName m in
                    match c_canonical c !! target with
                    | Some f => save (MkResolution (f_Name f) "") memo
                    | None =>
                        if strings_Contains target "@" then Err (MigrationToVersioned name target)
                        else match c_aliases c !! target with
                        | Some n => save (MkResolution n "") memo
                        | None =>
                            match c_oldNames c !! target with
                            | Some n => save (MkResolution n "") memo
                            | None =>
                                match c_migrations c !! target with
                                | Some _ =>
                                    rm ← resolveMigration c fuel target stack active memo;
                                    save rm.1 rm.2
                                | None => Err (MigrationToUnknown name target)
                                end
                            end
                        end
                    end
              end
          end
      end
  end.

Definition resolveAll (c : Catalog) (accepted : list Migration)
    : result problem (gmap string migrationResolution) :=
  foldM_res (λ memo m,
    rm ← resolveMigration c (S (size (c_migrations c))) (m_Name m) [] ∅ memo; Ok rm.2) ∅ accepted.

Definition buildCatalog (formulae : list Formula) (migrations : list Migration) : result problem Catalog :=
  acc ← foldM_res addCanonical (∅, ∅, []) formulae;
  let '(claimed, canonical, names) := acc in
  let names := slices_Sort names in
  acc ← foldM_res (indexFormula canonical) (claimed, ∅, ∅) names;
  let '(claimed, aliases, oldNames) := acc in
  c ← canonicalizeCatalogDependencies (MkCatalog canonical aliases oldNames ∅ ∅ names);
  _ ← validateCatalogDependencies c;
  acc ← foldM_res (acceptMigration c) (claimed, ∅, []) migrations;
  let '(_, migs, accepted) := acc in
  let c := MkCatalog (c_canonical c) (c_aliases c) (c_oldNames c) migs ∅ names in
  memo ← resolveAll c accepted;
  Ok (MkCatalog (c_canonical c) (c_aliases c) (c_oldNames c) migs memo names).

(** An invalid catalog, whatever the inner cause *)
Inductive catalog_error := CatalogError (e : meta_error).

(** [ParseCatalog], from the decoded Formula array and migration object *)
Definition ParseCatalog `{!UnicodeTables, !NetURL} (formulae : list rawFormula) (migrations : gmap string json)
    : result catalog_error Catalog :=
  map_err CatalogError (
    fs ← parseFormulae formulae;
    map_err ErrInvalidCatalog (ms ← parseMigrations migrations; buildCatalog fs ms)).

(** ** Lookup *)

Definition match_ (c : Catalog) (requested canonical : string) (kind : MatchKind) : result meta_error Match :=
  match c_canonical c !! canonical with
  | None => Err ErrFormulaNotFound
  | Some f =>
      if f_Disabled f then Err ErrFormulaDisabled
      else match f_Bottle f with
           | None => Err ErrBottleUnavailable
           | Some _ => Ok (MkMatch requested canonical kind f)
           end
  end.

Definition Lookup (c : Catalog) (name : string) : result meta_error Match :=
  _ ← validateSimpleName name;
  match c_canonical c !! name with
  | Some f => match_ c name (f_Name f) MatchCanonical
  | None =>
      if strings_Contains name "@" then Err ErrVersionedFormulaNotExplicit
      else match c_aliases c !! name with
      | Some n => match_ c name n MatchAlias
      | None =>
          match c_oldNames c !! name with
          | Some n => match_ c name n MatchOldName
          | None =>
              match c_migrations c !! name with
              | Some _ =>
                  let r := default (MkResolution "" "") (c_resolvedMigrations c !! name) in
                  if bool_decide (mr_externalTarget r ≠ "") then Err (ErrOutOfCore (mr_externalTarget r))
                  else match_ c name (mr_canonical r) MatchMigration
              | None => Err ErrFormulaNotFound
              end
          end
      end
  end.

(** [Catalog.Formula]: the exact canonical Formula *)
Definition Catalog_Formula (c : Catalog) (name : string) : option Formula := c_canonical c !! name.

(** ** The catalog invariant *)

(** A resolved migration leads outside core, or to a canonical Formula. *)
Definition resolution_good (c : Catalog) (r : migrationResolution) : Prop :=
  mr_externalTarget r ≠ "" ∨ (mr_externalTarget r = "" ∧ is_Some (c_canonical c !! mr_canonical r)).

(** The four name spaces are disjoint and every name leads to a canonical
    Formula or out of core; on both Linux tags the dependencies stay inside the
    catalog and have no cycle. *)
Record catalog_wf (c : Catalog) : Prop := {
  wf_distinct : NoDup (c_canonicalNames c) ∧ StronglySorted String.le (c_canonicalNames c);
  wf_names n : n ∈ c_canonicalNames c ↔ is_Some (c_canonical c !! n);
  wf_key n f : c_canonical c !! n = Some f → f_Name f = n;
  wf_alias a n : c_aliases c !! a = Some n → c_canonical c !! a = None ∧ is_Some (c_canonical c !! n);
  wf_old o n : c_oldNames c !! o = Some n →
    c_canonical c !! o = None ∧ c_aliases c !! o = None ∧ is_Some (c_canonical c !! n);
  wf_migration m mg : c_migrations c !! m = Some mg →
    c_canonical c !! m = None ∧ c_aliases c !! m = None ∧ c_oldNames c !! m = None ∧
    ∃ r, c_resolvedMigrations c !! m = Some r ∧ resolution_good c r;
  wf_deps tag n d : is_linux_tag tag = true → d ∈ depsForTag c tag n → is_Some (c_canonical c !! d);
  wf_acyclic tag n : is_linux_tag tag = true → ¬ tc (edge (depsForTag c tag)) n n;
}.

(** ** Lemmas: claiming names *)

Definition canon_inv (acc : gmap string claim * gmap string Formula * list string) : Prop :=
  let '(claimed, canonical, names) := acc in
  (∀ n, is_Some (claimed !! n) ↔ is_Some (canonical !! n)) ∧
  (∀ n f, canonical !! n = Some f → f_Name f = n) ∧
  (∀ n, n ∈ names ↔ is_Some (canonical !! n)).

Lemma is_Some_insert {A} (m : gmap string A) i x j : is_Some (<[i := x]> m !! j) ↔ i = j ∨ is_Some (m !! j).
Proof.
  destruct (decide (i = j)) as [->|]; [rewrite lookup_insert_eq; naive_solver|].
  rewrite lookup_insert_ne by done. naive_solver.
Qed.

Lemma addCanonical_inv formulae acc :
  foldM_res addCanonical (∅, ∅, []) formulae = Ok acc → canon_inv acc.
Proof.
  intros Hf. apply (foldM_res_inv (λ _, canon_inv) _ _ _ _) in Hf; [done| |].
  - cbn. setoid_rewrite lookup_empty. split_and!; [done|done|].
    intros n. split; [set_solver|by intros []].
  - intros _ f [[claimed canonical] names] acc' (H1 & H2 & H3) _. cbn.
    destruct (claimed !! f_Name f) eqn:E; [done|]. intros [= <-]. cbn. split_and!.
    + intros n. by rewrite !is_Some_insert, H1.
    + intros n g. destruct (decide (f_Name f = n)) as [<-|]; [rewrite lookup_insert_eq; naive_solver|].
      rewrite lookup_insert_ne by done. apply H2.
    + intros n. rewrite is_Some_insert, elem_of_app, list_elem_of_singleton, H3. naive_solver.
Qed.

(** Every Formula is under its name, and no two have one name. *)
Lemma addCanonical_exact formulae acc :
  foldM_res addCanonical (∅, ∅, []) formulae = Ok acc →
  acc.2 = f_Name <$> formulae ∧ NoDup (f_Name <$> formulae) ∧ ∀ n f, acc.1.2 !! n = Some f ↔ f ∈ formulae ∧ f_Name f = n.
Proof.
  intros Hf. enough ((∀ n, is_Some (acc.1.1 !! n) ↔ n ∈ f_Name <$> formulae) ∧ acc.2 = f_Name <$> formulae ∧ NoDup (f_Name <$> formulae) ∧
    ∀ n f, acc.1.2 !! n = Some f ↔ f ∈ formulae ∧ f_Name f = n) by tauto.
  refine (foldM_res_inv (λ l a, (∀ n, is_Some (a.1.1 !! n) ↔ n ∈ f_Name <$> l) ∧ a.2 = f_Name <$> l ∧ NoDup (f_Name <$> l) ∧
    ∀ n f, a.1.2 !! n = Some f ↔ f ∈ l ∧ f_Name f = n) _ _ _ _ _ _ Hf).
  - cbn. setoid_rewrite lookup_empty. split_and!; [|done|by apply NoDup_nil_2|]; [intros n; split; [by intros []|]|intros n f; split; [done|]].
    + by intros ?%not_elem_of_nil.
    + by intros [?%not_elem_of_nil _].
  - intros l f [[claimed canonical] names] acc' (H1 & H2 & H3 & H4) _. cbn in *. subst names. destruct (claimed !! f_Name f) eqn:E; [done|]. intros [= <-]. cbn.
    assert (f_Name f ∉ f_Name <$> l) as Hnew by (rewrite <-H1; rewrite E; by intros []). rewrite fmap_app. cbn. split_and!.
    + intros n. rewrite is_Some_insert, H1, elem_of_app, list_elem_of_singleton. naive_solver.
    + done.
    + apply NoDup_app. split_and!; [done|set_solver|apply NoDup_singleton].
    + intros n g. rewrite elem_of_app, list_elem_of_singleton. destruct (decide (f_Name f = n)) as [<-|Hne].
      * rewrite lookup_insert_eq. split; [naive_solver|]. intros [[Hg| ->] Hn]; [|done]. destruct Hnew. rewrite <-Hn. by apply list_elem_of_fmap_2.
      * rewrite lookup_insert_ne by done. rewrite H4. naive_solver.
Qed.

(** What holds of the indexes while they are filled *)
Definition index_inv (canonical : gmap string Formula)
    (claimed : gmap string claim) (aliases oldNames : gmap string string) : Prop :=
  (∀ n, is_Some (canonical !! n) → is_Some (claimed !! n)) ∧
  (∀ a n, aliases !! a = Some n →
    is_Some (claimed !! a) ∧ canonical !! a = None ∧ is_Some (canonical !! n)) ∧
  (∀ o n, oldNames !! o = Some n →
    is_Some (claimed !! o) ∧ canonical !! o = None ∧ aliases !! o = None ∧ is_Some (canonical !! n)).

(** A name not claimed is in no index. *)
Lemma unclaimed canonical claimed aliases oldNames n :
  index_inv canonical claimed aliases oldNames → claimed !! n = None →
  canonical !! n = None ∧ aliases !! n = None ∧ oldNames !! n = None.
Proof.
  intros (H1 & H2 & H3) Hn. split_and!.
  - destruct (canonical !! n) eqn:E; [|done]. destruct (H1 n) as [? ?]; [by eauto|congruence].
  - destruct (aliases !! n) eqn:E; [|done]. destruct (H2 _ _ E) as [[? ?] _]. congruence.
  - destruct (oldNames !! n) eqn:E; [|done]. destruct (H3 _ _ E) as [[? ?] _]. congruence.
Qed.

Lemma claimIndex_ok claimed n k claimed' :
  claimIndex claimed n k = Ok claimed' → claimed !! n = None ∧ claimed' = <[n := k]> claimed.
Proof. unfold claimIndex. destruct (claimed !! n); [done|]. by intros [= <-]. Qed.

(** Claiming the entries of a list for a Formula: all of them, and nothing else changes *)
Lemma claimAll_exact k name l claimed m p :
  (∀ a, is_Some (m !! a) → is_Some (claimed !! a)) → foldM_res (claimAll k name) (claimed, m) l = Ok p →
  (∀ a n, p.2 !! a = Some n ↔ (a ∈ l ∧ n = name) ∨ m !! a = Some n) ∧ (∀ a, is_Some (claimed !! a) → is_Some (p.1 !! a)) ∧
  (∀ a, is_Some (p.2 !! a) → is_Some (p.1 !! a)).
Proof.
  revert claimed m. induction l as [|e l IH]; intros claimed m Hm; cbn [foldM_res].
  - intros [= <-]. split_and!; [|done..]. intros a n. split; [by right|]. intros [[?%not_elem_of_nil _]|?]; done.
  - intros ([cl m1] & (cl' & (Hn & ->)%claimIndex_ok & [= <- <-])%bind_ok & H)%bind_ok. cbn in *.
    apply IH in H as (H1 & H2 & H3); [|intros a; rewrite !is_Some_insert; naive_solver]. split_and!; [|intros a Ha; apply H2, is_Some_insert; by right|done].
    intros a n. rewrite H1, elem_of_cons. destruct (decide (e = a)) as [<-|Hne].
    + rewrite lookup_insert_eq. split; [naive_solver|]. intros [[_ ->]|Hl]; [by right|]. destruct (Hm e) as [? ?]; [by eauto|congruence].
    + rewrite lookup_insert_ne by done. naive_solver.
Qed.

(** The aliases and old names are exactly those the Formulae declare. *)
Lemma index_exact canonical claimed names acc :
  foldM_res (indexFormula canonical) (claimed, ∅, ∅) names = Ok acc →
  (∀ a n, acc.1.2 !! a = Some n ↔ ∃ f, n ∈ names ∧ canonical !! n = Some f ∧ a ∈ f_Aliases f) ∧
  (∀ o n, acc.2 !! o = Some n ↔ ∃ f, n ∈ names ∧ canonical !! n = Some f ∧ o ∈ f_OldNames f).
Proof.
  intros Hf. enough ((∀ a, is_Some (acc.1.2 !! a) → is_Some (acc.1.1 !! a)) ∧ (∀ a, is_Some (acc.2 !! a) → is_Some (acc.1.1 !! a)) ∧
    (∀ a n, acc.1.2 !! a = Some n ↔ ∃ f, n ∈ names ∧ canonical !! n = Some f ∧ a ∈ f_Aliases f) ∧
    (∀ o n, acc.2 !! o = Some n ↔ ∃ f, n ∈ names ∧ canonical !! n = Some f ∧ o ∈ f_OldNames f)) by tauto.
  refine (foldM_res_inv (λ l a, (∀ x, is_Some (a.1.2 !! x) → is_Some (a.1.1 !! x)) ∧ (∀ x, is_Some (a.2 !! x) → is_Some (a.1.1 !! x)) ∧
    (∀ x n, a.1.2 !! x = Some n ↔ ∃ f, n ∈ l ∧ canonical !! n = Some f ∧ x ∈ f_Aliases f) ∧
    (∀ x n, a.2 !! x = Some n ↔ ∃ f, n ∈ l ∧ canonical !! n = Some f ∧ x ∈ f_OldNames f)) _ _ _ _ _ _ Hf).
  - cbn. setoid_rewrite lookup_empty. split_and!; try (by intros ? []); intros x n; (split; [done|]); by intros (f & ?%not_elem_of_nil & _).
  - intros l name [[cl al] ol] acc' (H1 & H2 & H3 & H4) _. cbn in *. destruct (canonical !! name) as [f|] eqn:Ef.
    + intros (_ & _ & ([cl1 al1] & Ha & ([cl2 ol2] & Ho & [= <-])%bind_ok)%bind_ok)%bind_ok. cbn in *.
      apply claimAll_exact in Ha as (Ha1 & Ha2 & Ha3); [|done]. apply claimAll_exact in Ho as (Ho1 & Ho2 & Ho3); [|cbn in *; naive_solver]. cbn in *.
      split_and!; [naive_solver|done| |].
      * intros x n. rewrite Ha1, H3. setoid_rewrite elem_of_app. setoid_rewrite list_elem_of_singleton. naive_solver.
      * intros x n. rewrite Ho1, H4. setoid_rewrite elem_of_app. setoid_rewrite list_elem_of_singleton. naive_solver.
    + intros [= <-]. cbn. split_and!; [done..| |]; intros x n; rewrite ?H3, ?H4; setoid_rewrite elem_of_app; setoid_rewrite list_elem_of_singleton;
        naive_solver.
Qed.

Lemma claim_alias_inv canonical claimed aliases oldNames k name e claimed' aliases' :
  is_Some (canonical !! name) → index_inv canonical claimed aliases oldNames →
  claimAll k name (claimed, aliases) e = Ok (claimed', aliases') →
  index_inv canonical claimed' aliases' oldNames.
Proof.
  intros Hname Hi. unfold claimAll. intros (cl & (Hn & ->)%claimIndex_ok & [= <- <-])%bind_ok. cbn in *.
  destruct (unclaimed _ _ _ _ _ Hi Hn) as (Hc & Ha & Ho). destruct Hi as (H1 & H2 & H3). split_and!.
  - intros n ?. rewrite is_Some_insert. right. by apply H1.
  - intros a n. rewrite is_Some_insert. destruct (decide (e = a)) as [<-|Hne].
    + rewrite lookup_insert_eq. intros [= <-]. auto.
    + rewrite lookup_insert_ne by done. intros Hl. destruct (H2 _ _ Hl). auto.
  - intros o n Hl. destruct (H3 _ _ Hl) as (? & ? & ? & ?). rewrite is_Some_insert.
    assert (e ≠ o) by (intros ->; congruence). rewrite lookup_insert_ne by done. auto.
Qed.

Lemma claim_old_inv canonical claimed aliases oldNames k name e claimed' oldNames' :
  is_Some (canonical !! name) → index_inv canonical claimed aliases oldNames →
  claimAll k name (claimed, oldNames) e = Ok (claimed', oldNames') →
  index_inv canonical claimed' aliases oldNames'.
Proof.
  intros Hname Hi. unfold claimAll. intros (cl & (Hn & ->)%claimIndex_ok & [= <- <-])%bind_ok. cbn in *.
  destruct (unclaimed _ _ _ _ _ Hi Hn) as (Hc & Ha & Ho). destruct Hi as (H1 & H2 & H3). split_and!.
  - intros n ?. rewrite is_Some_insert. right. by apply H1.
  - intros a n Hl. destruct (H2 _ _ Hl). rewrite is_Some_insert. auto.
  - intros o n. rewrite is_Some_insert. destruct (decide (e = o)) as [<-|Hne].
    + rewrite lookup_insert_eq. intros [= <-]. auto.
    + rewrite lookup_insert_ne by done. intros Hl. destruct (H3 _ _ Hl). auto.
Qed.

Lemma indexFormula_inv canonical claimed aliases oldNames name acc' :
  index_inv canonical claimed aliases oldNames →
  indexFormula canonical (claimed, aliases, oldNames) name = Ok acc' →
  index_inv canonical acc'.1.1 acc'.1.2 acc'.2.
Proof.
  intros Hi. cbn. destruct (canonical !! name) as [f|] eqn:Ef; [|by intros [= <-]].
  intros (_ & _ & ([cl al] & Ha & ([cl' ol] & Ho & [= <-])%bind_ok)%bind_ok)%bind_ok. cbn in *.
  assert (is_Some (canonical !! name)) as Hname by eauto.
  apply (foldM_res_inv (λ _ p, index_inv canonical p.1 p.2 oldNames) _ _ _ _) in Ha; [|done|].
  2: { intros _ e [? ?] [? ?] ? _ Hs. by eapply claim_alias_inv. }
  apply (foldM_res_inv (λ _ p, index_inv canonical p.1 al p.2) _ _ _ _) in Ho; [done|done|].
  intros _ e [? ?] [? ?] ? _ Hs. by eapply claim_old_inv.
Qed.

Lemma index_all_inv canonical claimed names acc :
  (∀ n, is_Some (canonical !! n) → is_Some (claimed !! n)) →
  foldM_res (indexFormula canonical) (claimed, ∅, ∅) names = Ok acc →
  index_inv canonical acc.1.1 acc.1.2 acc.2.
Proof.
  intros Hc Hf. apply (foldM_res_inv (λ _ p, index_inv canonical p.1.1 p.1.2 p.2) _ _ _ _) in Hf; [done| |].
  - cbn. split_and!; [done|intros ? ?; by rewrite lookup_empty..].
  - intros _ e [[? ?] ?] acc' ? _ Hs. by eapply indexFormula_inv.
Qed.

(** ** Lemmas: dependencies *)

(** Canonicalization changes dependency lists only. *)
Definition same_index (c c' : Catalog) : Prop :=
  c_aliases c' = c_aliases c ∧ c_oldNames c' = c_oldNames c ∧ c_canonicalNames c' = c_canonicalNames c ∧
  (∀ n, is_Some (c_canonical c' !! n) ↔ is_Some (c_canonical c !! n)) ∧
  (∀ n f', c_canonical c' !! n = Some f' → ∃ f, c_canonical c !! n = Some f ∧ f_Name f' = f_Name f).

Lemma canonicalizeFormula_same c name c' : canonicalizeFormula c name = Ok c' → same_index c c'.
Proof.
  unfold canonicalizeFormula. destruct (c_canonical c !! name) as [f|] eqn:E.
  2: { intros [= <-]. unfold same_index. split_and!; naive_solver. }
  intros (deps & _ & (vs & _ & [= <-])%bind_ok)%bind_ok. unfold same_index. cbn. split_and!; [done..| |].
  - intros n. rewrite is_Some_insert. split; [|auto]. intros [<-|?]; [by eauto|done].
  - intros n f'. destruct (decide (name = n)) as [<-|]; [|rewrite lookup_insert_ne by done; by eauto].
    rewrite lookup_insert_eq. intros [= <-]. by exists f.
Qed.

Lemma canonicalize_same c c' : canonicalizeCatalogDependencies c = Ok c' → same_index c c'.
Proof.
  unfold canonicalizeCatalogDependencies. intros Hf.
  apply (foldM_res_inv (λ _, same_index c) _ _ _ _) in Hf; [done| |].
  - unfold same_index. split_and!; naive_solver.
  - intros _ n c1 c2 (H1 & H2 & H3 & H4 & H5) _ (G1 & G2 & G3 & G4 & G5)%canonicalizeFormula_same.
    unfold same_index. split_and!; [congruence..| |].
    + intros m. by rewrite G4, H4.
    + intros m f' (f1 & Hf1 & ->)%G5. by apply H5.
Qed.

Lemma variation_deps_Some tag vs ds :
  variation_deps tag vs = Some ds →
  ∃ v, v ∈ vs ∧ v_Tag v = tag ∧ v_OverridesDependencies v = true ∧ ds = v_Dependencies v.
Proof.
  induction vs as [|v vs IH]; cbn; [done|].
  destruct (bool_decide (v_Tag v = tag)) eqn:Et, (v_OverridesDependencies v) eqn:Eo; cbn.
  1: { intros [= <-]. case_bool. exists v. split_and!; [set_solver|done..]. }
  all: intros (v' & ? & ?)%IH; exists v'; split; [set_solver|done].
Qed.

Lemma linuxTags_elem c n f v :
  n ∈ c_canonicalNames c → c_canonical c !! n = Some f → v ∈ f_Variations f →
  is_linux_tag (v_Tag v) = true → v_Tag v ∈ linuxTags c.
Proof.
  intros Hn Hf Hv Hl. unfold linuxTags. apply elem_of_uniqueFirst. split; [|set_solver].
  apply list_elem_of_join. eexists. split; [|apply list_elem_of_fmap; exists n; split; [reflexivity|done]].
  rewrite Hf. apply list_elem_of_filter. split; [done|]. apply list_elem_of_fmap. by exists v.
Qed.

Section deps.
Context (c : Catalog).
Hypothesis Hnames : ∀ n, n ∈ c_canonicalNames c ↔ is_Some (c_canonical c !! n).
Hypothesis Hchecked : ∀ n, n ∈ c_canonicalNames c → checkFormulaDeps c n = Ok tt.

Lemma checked_base n f d :
  c_canonical c !! n = Some f → d ∈ f_Dependencies f → is_Some (c_canonical c !! d).
Proof using Hnames Hchecked.
  intros Hf Hd. pose proof (Hchecked n (proj2 (Hnames n) (ex_intro _ f Hf))) as Hc.
  unfold checkFormulaDeps in Hc. rewrite Hf in Hc. apply bind_ok in Hc as (ys & Hm & _).
  destruct (mapM_res_elem _ _ _ _ Hm Hd) as (y & _ & Hr). unfold requireCanonical in Hr.
  destruct (c_canonical c !! d); [by eauto|done].
Qed.

Lemma checked_variation n f v d :
  c_canonical c !! n = Some f → v ∈ f_Variations f → is_linux_tag (v_Tag v) = true →
  v_OverridesDependencies v = true → d ∈ v_Dependencies v → is_Some (c_canonical c !! d).
Proof using Hnames Hchecked.
  intros Hf Hv Hl Ho Hd. pose proof (Hchecked n (proj2 (Hnames n) (ex_intro _ f Hf))) as Hc.
  unfold checkFormulaDeps in Hc. rewrite Hf in Hc. apply bind_ok in Hc as (_ & _ & (zs & Hm & _)%bind_ok).
  destruct (mapM_res_elem _ _ _ _ Hm Hv) as (y & _ & Hr). rewrite Hl, Ho in Hr. cbn in Hr.
  destruct (mapM_res_elem _ _ _ _ Hr Hd) as (z & _ & Hz). unfold requireCanonical in Hz.
  destruct (c_canonical c !! d); [by eauto|done].
Qed.

Lemma deps_closed tag n d :
  tag = "" ∨ is_linux_tag tag = true → d ∈ depsForTag c tag n → is_Some (c_canonical c !! d).
Proof using Hnames Hchecked.
  intros Ht. unfold depsForTag. destruct (c_canonical c !! n) as [f|] eqn:Hf; [|set_solver].
  case_bool_decide as E; [by eapply checked_base|]. destruct Ht as [?|Ht]; [done|].
  unfold DependenciesFor. destruct (variation_deps tag (f_Variations f)) as [ds|] eqn:Ev; cbn.
  - apply variation_deps_Some in Ev as (v & Hv & <- & Ho & ->). by eapply checked_variation.
  - by eapply checked_base.
Qed.

Lemma deps_closed_set tag :
  tag = "" ∨ is_linux_tag tag = true → closed_set (depsForTag c tag) (dom (c_canonical c)).
Proof using Hnames Hchecked. intros Ht x y _ Hy. apply elem_of_dom. by eapply deps_closed. Qed.

(** A tag no Formula varies for has the base dependencies. *)
Lemma depsForTag_base tag n :
  is_linux_tag tag = true → tag ∉ linuxTags c → depsForTag c tag n = depsForTag c "" n.
Proof using Hnames.
  clear Hchecked.
  intros Ht Hni. unfold depsForTag. destruct (c_canonical c !! n) as [f|] eqn:Hf; [|done].
  rewrite (bool_decide_eq_true_2 ("" = "")) by done. case_bool_decide; [done|].
  unfold DependenciesFor. destruct (variation_deps tag (f_Variations f)) as [ds|] eqn:Ev; [|done].
  apply variation_deps_Some in Ev as (v & Hv & <- & _ & _). exfalso. apply Hni.
  eapply linuxTags_elem; [apply Hnames; by eauto|done..].
Qed.

Lemma checked_cycles tag : validateDependencyCycles c tag = Ok tt → ∀ n, ¬ tc (edge (depsForTag c tag)) n n.
Proof using Hnames.
  clear Hchecked.
  unfold validateDependencyCycles. intros Hv n Htc. rewrite dfs_all_run in Hv.
  assert (n ∈ c_canonicalNames c) as Hn.
  { apply Hnames. inversion Htc as [? ? He|? ? ? He]; subst; unfold edge, depsForTag in He;
      destruct (c_canonical c !! n); [by eauto|set_solver|by eauto|set_solver]. }
  destruct (dfs_run (depsForTag c tag) (size (c_canonical c)) (c_canonicalNames c)) as [st|[|]] eqn:E; [|done..].
  apply dfs_run_ok in E as (Hi & _ & Hr & _). revert Htc. eapply topo_sorted_acyclic; [eapply inv_order, Hi|eapply inv_topo, Hi|by apply Hr].
Qed.

Lemma checked_no_fuel tag :
  tag = "" ∨ is_linux_tag tag = true → validateDependencyCycles c tag ≠ Err CycleSearchFuel.
Proof using Hnames Hchecked.
  intros Ht. unfold validateDependencyCycles. rewrite dfs_all_run.
  pose proof (dfs_fuel (depsForTag c tag) (dom (c_canonical c)) (size (c_canonical c)) (c_canonicalNames c)) as Hf.
  unfold dfs in Hf. destruct (dfs_run _ _ _) as [|[|]]; [done..|]. exfalso. apply Hf; [by apply deps_closed_set| |by rewrite size_dom|done].
  intros r Hr%Hnames. by apply elem_of_dom.
Qed.

End deps.

Lemma linuxTags_linux c tag : tag ∈ linuxTags c → is_linux_tag tag = true.
Proof.
  unfold linuxTags. intros [(l & Hl & (n & -> & _)%list_elem_of_fmap)%list_elem_of_join _]%elem_of_uniqueFirst.
  destruct (c_canonical c !! n); [|set_solver]. by apply list_elem_of_filter in Hl as [? _].
Qed.

(** What [validateCatalogDependencies] establishes *)
Lemma validateCatalogDependencies_ok c u :
  (∀ n, n ∈ c_canonicalNames c ↔ is_Some (c_canonical c !! n)) →
  validateCatalogDependencies c = Ok u →
  (∀ tag n d, is_linux_tag tag = true → d ∈ depsForTag c tag n → is_Some (c_canonical c !! d)) ∧
  (∀ tag n, is_linux_tag tag = true → ¬ tc (edge (depsForTag c tag)) n n).
Proof.
  intros Hn. unfold validateCatalogDependencies. intros (us & Hm & (vs & Hv & _)%bind_ok)%bind_ok.
  assert (∀ n, n ∈ c_canonicalNames c → checkFormulaDeps c n = Ok tt) as Hc.
  { intros n Hin. by destruct (mapM_res_elem _ _ _ _ Hm Hin) as ([] & _ & ?). }
  assert (∀ tag, tag ∈ "" :: linuxTags c → validateDependencyCycles c tag = Ok tt) as Hcy.
  { intros tag Hin. apply elem_of_slices_Sort in Hin. by destruct (mapM_res_elem _ _ _ _ Hv Hin) as ([] & _ & ?). }
  split; [intros tag n d ?; apply deps_closed; auto|]. intros tag n Ht.
  destruct (decide (tag ∈ linuxTags c)) as [Hin|Hni].
  - apply checked_cycles; [done|]. apply Hcy. set_solver.
  - intros Htc. apply (checked_cycles c Hn "" (Hcy "" ltac:(set_solver)) n).
    apply (tc_congruence id (edge (depsForTag c "")) n n) in Htc; [done|].
    intros x y. unfold edge, id. by rewrite depsForTag_base.
Qed.

(** ** Lemmas: migrations *)

Definition accept_inv (c : Catalog) (ms : list Migration)
    (acc : gmap string claim * gmap string Migration * list Migration) : Prop :=
  let '(claimed, migs, accepted) := acc in
  index_inv (c_canonical c) claimed (c_aliases c) (c_oldNames c) ∧
  ∀ m mg, migs !! m = Some mg →
    is_Some (claimed !! m) ∧ c_canonical c !! m = None ∧ c_aliases c !! m = None ∧ c_oldNames c !! m = None ∧
    m_Name mg = m ∧ mg ∈ accepted ∧ mg ∈ ms.

Lemma acceptMigration_inv c ms claimed acc :
  index_inv (c_canonical c) claimed (c_aliases c) (c_oldNames c) →
  foldM_res (acceptMigration c) (claimed, ∅, []) ms = Ok acc → accept_inv c ms acc.
Proof.
  intros Hi Hf. apply (foldM_res_inv (λ _, accept_inv c ms) _ _ _ _) in Hf; [done| |].
  - split; [done|]. intros ? ?. by rewrite lookup_empty.
  - intros _ m [[cl migs] accepted] acc' [H1 H2] Hm. cbn.
    destruct (m_InCore m && bool_decide (m_TargetName m = m_Name m)).
    { destruct (resolveDependency c (m_Name m)); [|done]. by intros [= <-]. }
    intros (cl' & (Hn & ->)%claimIndex_ok & [= <-])%bind_ok.
    destruct (unclaimed _ _ _ _ _ H1 Hn) as (Hc & Ha & Ho). split.
    + destruct H1 as (G1 & G2 & G3). split_and!.
      * intros n ?. rewrite is_Some_insert. right. by apply G1.
      * intros a n Hl. destruct (G2 _ _ Hl). rewrite is_Some_insert. auto.
      * intros o n Hl. destruct (G3 _ _ Hl). rewrite is_Some_insert. auto.
    + intros n mg. rewrite is_Some_insert. destruct (decide (m_Name m = n)) as [<-|].
      * rewrite lookup_insert_eq. intros [= <-]. split_and!; [by left|done..|set_solver|done].
      * rewrite lookup_insert_ne by done. intros (? & ? & ? & ? & ? & ? & ?)%H2. split_and!; [by right|done..|set_solver|done].
Qed.

Section resolve.
Context (c : Catalog).
Hypothesis Hkey : ∀ n f, c_canonical c !! n = Some f → f_Name f = n.
Hypothesis Halias : ∀ a n, c_aliases c !! a = Some n → is_Some (c_canonical c !! n).
Hypothesis Hold : ∀ o n, c_oldNames c !! o = Some n → is_Some (c_canonical c !! n).
Hypothesis Htarget : ∀ m mg, c_migrations c !! m = Some mg → m_InCore mg = false → m_Target mg ≠ "".

Definition memo_good (memo : gmap string migrationResolution) : Prop :=
  ∀ n r, memo !! n = Some r → resolution_good c r.

Lemma resolveMigration_ok fuel name stack active memo r memo' :
  memo_good memo → resolveMigration c fuel name stack active memo = Ok (r, memo') →
  resolution_good c r ∧ memo_good memo' ∧ memo' !! name = Some r ∧ memo ⊆ memo'.
Proof using All.
  revert name stack active memo r memo'. induction fuel as [|fuel IH]; intros name stack active memo r memo' Hg;
    cbn [resolveMigration]; [done|].
  destruct (memo !! name) eqn:Em; [intros [= <- <-]; split_and!; [by eapply Hg|done..]|].
  destruct (active !! name); [done|]. destruct (c_migrations c !! name) as [m|] eqn:Emi; [|done].
  assert (∀ r0 memo0, resolution_good c r0 → memo_good memo0 → memo ⊆ memo0 →
    Ok (r0, <[name := r0]> memo0) = @Ok problem _ (r, memo') →
    resolution_good c r ∧ memo_good memo' ∧ memo' !! name = Some r ∧ memo ⊆ memo') as Hsave.
  { intros r0 memo0 Hr0 Hm0 Hsub [= <- <-]. split_and!; [done| |apply lookup_insert_eq|].
    - intros n r1. destruct (decide (name = n)) as [<-|]; [rewrite lookup_insert_eq; naive_solver|].
      rewrite lookup_insert_ne by done. apply Hm0.
    - by apply insert_subseteq_r. }
  assert (∀ n, is_Some (c_canonical c !! n) → resolution_good c (MkResolution n "")) as Hin by (intros; by right).
  destruct (m_InCore m) eqn:Ei; cbn [negb].
  2: { apply Hsave; [|done|done]. left. cbn. by eapply Htarget. }
  destruct (c_canonical c !! m_TargetName m) as [f|] eqn:Ec.
  { apply Hsave; [|done|done]. apply Hin. rewrite (Hkey _ _ Ec). by eauto. }
  destruct (strings_Contains (m_TargetName m) "@"); [done|].
  destruct (c_aliases c !! m_TargetName m) eqn:Ea; [apply Hsave; [by eapply Hin, Halias|done|done]|].
  destruct (c_oldNames c !! m_TargetName m) eqn:Eo; [apply Hsave; [by eapply Hin, Hold|done|done]|].
  destruct (c_migrations c !! m_TargetName m); [|done].
  intros ([r1 memo1] & Hr & Hs)%bind_ok. apply IH in Hr as (? & ? & ? & ?); [|done].
  by apply (Hsave r1 memo1).
Qed.

(** The path of open names is duplicate-free, so its length is bounded by the
    number of migrations. *)
Lemma resolveMigration_fuel fuel name stack active memo :
  dom active ⊆ dom (c_migrations c) → (size (c_migrations c) < fuel + size active)%nat →
  resolveMigration c fuel name stack active memo ≠ Err MigrationFuel.
Proof using Type.
  revert name stack active. induction fuel as [|fuel IH]; intros name stack active Hsub Hsz.
  { apply subseteq_size in Hsub. rewrite !size_dom in Hsub. lia. }
  cbn [resolveMigration]. destruct (memo !! name); [done|]. destruct (active !! name) eqn:Ea; [done|].
  destruct (c_migrations c !! name) eqn:Em; [|done]. repeat case_match; try done.
  intros He. destruct (resolveMigration c fuel _ _ _ memo) as [|e] eqn:Er; [done|]. cbn in He. injection He as ->.
  revert Er. apply IH.
  - rewrite dom_insert. apply union_least; [|done]. apply singleton_subseteq_l, elem_of_dom. by eauto.
  - rewrite map_size_insert_None by done. lia.
Qed.

Lemma resolveAll_ok accepted memo :
  resolveAll c accepted = Ok memo →
  memo_good memo ∧ ∀ m, m ∈ accepted → is_Some (memo !! m_Name m).
Proof using All.
  unfold resolveAll. intros Hf.
  apply (foldM_res_inv (λ dn memo, memo_good memo ∧ ∀ m, m ∈ dn → is_Some (memo !! m_Name m)) _ _ _ _) in Hf; [done| |].
  - split; [intros ? ?; by rewrite lookup_empty|set_solver].
  - intros dn m memo1 memo2 [Hg Hdn] _ ([r memo3] & Hr & [= <-])%bind_ok. cbn.
    apply resolveMigration_ok in Hr as (_ & Hg' & Hn & Hsub); [|done]. split; [done|].
    intros m' [Hm| ->%list_elem_of_singleton]%elem_of_app; [|by eauto].
    destruct (Hdn _ Hm) as [r' Hr']. exists r'. by eapply lookup_weaken.
Qed.

End resolve.

Lemma normalizeMigration_target name target m :
  normalizeMigration name target = Ok m → m_InCore m = false → m_Target m ≠ "".
Proof.
  unfold normalizeMigration. intros (u & Hc & Hm)%bind_ok. apply check_ok in Hc. case_bool.
  assert (target ≠ "") by (intros ->; done).
  destruct (strings_Split target "/") as [|p0 [|p1 [|p2 [|]]]]; try done.
  - apply bind_ok in Hm as (_ & _ & [= <-]). done.
  - destruct (bool_decide (p0 = "homebrew") && _); [injection Hm as <-; done|].
    destruct (_ || _); [done|]. by injection Hm as <-.
  - apply bind_ok in Hm as (_ & _ & Hm). destruct (_ || _); [done|]. by injection Hm as <-.
Qed.

Lemma parseMigrations_target object ms m :
  parseMigrations object = Ok ms → m ∈ ms → m_InCore m = false → m_Target m ≠ "".
Proof.
  intros Hf%mapM_res_ok (i & Hi)%list_elem_of_lookup.
  destruct (Forall2_lookup_r _ _ _ _ _ Hf Hi) as ([name raw] & _ & Hp). cbn in Hp.
  apply bind_ok in Hp as (_ & _ & Hp). destruct (unmarshal_string raw); [|done].
  by eapply normalizeMigration_target.
Qed.

(** ** Lemmas: the whole construction *)

Lemma index_inv_same (can can' : gmap string Formula) claimed aliases oldNames :
  index_inv can claimed aliases oldNames → (∀ n, is_Some (can' !! n) ↔ is_Some (can !! n)) →
  index_inv can' claimed aliases oldNames.
Proof.
  intros (G1 & G2 & G3) Hs.
  assert (∀ n, can !! n = None → can' !! n = None) as Hnone.
  { intros n. rewrite !eq_None_not_Some, Hs. done. }
  split_and!.
  - intros n ?%Hs. by apply G1.
  - intros a n (? & ? & ?)%G2. rewrite Hs. auto.
  - intros o n (? & ? & ? & ?)%G3. rewrite Hs. auto.
Qed.

(** What the catalog has of its Formulae: all of them under names of their own, and
    their aliases and old names *)
Definition holds_all (c : Catalog) (formulae : list Formula) : Prop :=
  c_canonicalNames c ≡ₚ f_Name <$> formulae ∧ NoDup (f_Name <$> formulae) ∧
  (∀ a n, c_aliases c !! a = Some n ↔ ∃ f, f ∈ formulae ∧ f_Name f = n ∧ a ∈ f_Aliases f) ∧
  (∀ o n, c_oldNames c !! o = Some n ↔ ∃ f, f ∈ formulae ∧ f_Name f = n ∧ o ∈ f_OldNames f).

Lemma buildCatalog_exact formulae migrations c : buildCatalog formulae migrations = Ok c → holds_all c formulae.
Proof.
  unfold buildCatalog. intros ([[cl0 can] nms] & (Hn & Hnd & Hcan)%addCanonical_exact & Hb)%bind_ok. cbn in Hn, Hcan.
  apply bind_ok in Hb as ([[cl1 al] ol] & (Hal & Hol)%index_exact & (c1 & H3 & (u & _ & ([[cl2 migs] acc] & _ & (memo & _ & [= <-])%bind_ok)%bind_ok)%bind_ok)%bind_ok).
  apply canonicalize_same in H3 as (Ea & Eo & _). cbn in Ea, Eo, Hal, Hol. unfold holds_all. cbn. rewrite Ea, Eo, slices_Sort_Permutation, Hn.
  split_and!; [done..| |]; intros x n; rewrite ?Hal, ?Hol; setoid_rewrite elem_of_slices_Sort; setoid_rewrite Hcan; rewrite Hn;
    setoid_rewrite list_elem_of_fmap; naive_solver.
Qed.

Lemma buildCatalog_wf formulae migrations c :
  (∀ m, m ∈ migrations → m_InCore m = false → m_Target m ≠ "") →
  buildCatalog formulae migrations = Ok c → catalog_wf c.
Proof.
  intros Htgt Hbuild. pose proof (buildCatalog_exact _ _ _ Hbuild) as (Hnames & Hnodup & _). revert Hbuild. unfold buildCatalog. intros ([[cl0 can] nms] & H1 & Hb)%bind_ok.
  apply addCanonical_inv in H1 as (Hcl & Hkey & Hnm).
  apply bind_ok in Hb as ([[cl1 al] ol] & H2 & (c1 & H3 & (u & H4 & ([[cl2 migs] acc] & H5 & (memo & H6 & [= <-])%bind_ok)%bind_ok)%bind_ok)%bind_ok).
  apply index_all_inv in H2; [|intros n ?; by apply Hcl]. cbn in H2.
  apply canonicalize_same in H3 as (Ea & Eo & En & Es & Ef). cbn in Ea, Eo, En, Es, Ef.
  assert (∀ n, n ∈ c_canonicalNames c1 ↔ is_Some (c_canonical c1 !! n)) as Hn1.
  { intros n. by rewrite En, elem_of_slices_Sort, Hnm, Es. }
  destruct (validateCatalogDependencies_ok c1 u Hn1 H4) as [Hdeps Hacy].
  assert (index_inv (c_canonical c1) cl1 (c_aliases c1) (c_oldNames c1)) as Hi1.
  { rewrite Ea, Eo. by eapply index_inv_same. }
  apply (acceptMigration_inv c1 migrations cl1) in H5 as [Hi2 Hmig]; [|done].
  assert (∀ n f, c_canonical c1 !! n = Some f → f_Name f = n) as Hkey1.
  { intros n f (f0 & Hf0 & ->)%Ef. by apply Hkey. }
  apply resolveAll_ok in H6 as [Hmg Hall]; cbn in *.
  - split; cbn; try done.
    + cbn in Hnames. split; [by rewrite Hnames|apply slices_Sort_sorted].
    + intros n. by rewrite <-En.
    + intros a n Hl. destruct Hi1 as (_ & G2 & _). by destruct (G2 _ _ Hl) as (_ & ? & ?).
    + intros o n Hl. destruct Hi1 as (_ & _ & G3). by destruct (G3 _ _ Hl) as (_ & ? & ? & ?).
    + intros m mg (_ & ? & ? & ? & <- & Hacc & _)%Hmig. split_and!; [done..|].
      destruct (Hall _ Hacc) as [r Hr]. exists r. split; [done|]. apply (Hmg _ _ Hr).
  - done.
  - intros a n Hl. destruct Hi1 as (_ & G2 & _). by destruct (G2 _ _ Hl) as (_ & ? & ?).
  - intros o n Hl. destruct Hi1 as (_ & _ & G3). by destruct (G3 _ _ Hl) as (_ & ? & ? & ?).
  - intros m mg (_ & _ & _ & _ & _ & _ & Hin)%Hmig. by apply Htgt.
Qed.

Lemma match_ok c requested canonical kind m :
  match_ c requested canonical kind = Ok m →
  mt_Requested m = requested ∧ mt_Canonical m = canonical ∧ mt_Kind m = kind ∧
  c_canonical c !! canonical = Some (mt_Formula m) ∧
  f_Disabled (mt_Formula m) = false ∧ is_Some (f_Bottle (mt_Formula m)).
Proof.
  unfold match_. destruct (c_canonical c !! canonical) as [f|]; [|done].
  destruct (f_Disabled f) eqn:Ed; [done|]. destruct (f_Bottle f) eqn:Eb; [|done].
  intros [= <-]. cbn. by rewrite Eb.
Qed.

Lemma match_not_missing c requested canonical kind :
  is_Some (c_canonical c !! canonical) → match_ c requested canonical kind ≠ Err ErrFormulaNotFound.
Proof. intros [f Hf]. unfold match_. rewrite Hf. destruct (f_Disabled f); [done|]. by destruct (f_Bottle f). Qed.

(** ** Properties *)


Definition sample_sha : string := "0123456789abcdef0123456789abcdef0123456789abcdef0123456789abcdef".

Definition sample_formula (name : string) (aliases deps : list string) : rawFormula :=
  MkRawFormula name name "homebrew/core" [] "" aliases [] "" "MIT" "" "1.0" true 0 0
    (Some (MkRawBottle 0 "https://ghcr.io/v2/homebrew/core"
       {["x86_64_linux" := MkRawBottleFile ":any" "https://ghcr.io/v2/homebrew/core/b" sample_sha]}))
    false false deps [] [] ∅.

(** [jq] needs [oniguruma], which is also known as [onig]; [oldjq] migrated to [jq]. *)
Definition sample_catalog : result catalog_error Catalog :=
  @ParseCatalog ascii_tables https_only
    [sample_formula "oniguruma" ["onig"] []; sample_formula "jq" [] ["onig"]]
    {["oldjq" := JString "homebrew/core/jq"]}.

Definition sample : Catalog :=
  match sample_catalog with Ok c => c | Err _ => MkCatalog ∅ ∅ ∅ ∅ ∅ [] end.

Lemma sample_wf : catalog_wf sample.
Proof.
  apply (@buildCatalog_wf (match @parseFormulae ascii_tables https_only
      [sample_formula "oniguruma" ["onig"] []; sample_formula "jq" [] ["onig"]] with Ok l => l | Err _ => [] end)
    [MkMigration "oldjq" "homebrew/core/jq" "jq" true]).
  - by intros m ->%list_elem_of_singleton.
  - vm_compute. reflexivity.
Qed.


(** A successful [Lookup] in a well-formed catalog returns the catalog's
    own Formula, which is enabled and has a bottle; it is a canonical match
    exactly when the requested name is the canonical one, and a name with an
    [@] is never answered by another Formula. *)
Theorem Lookup_sound c name m (Hwf : catalog_wf c) (Hl : Lookup c name = Ok m) :
  c_canonical c !! mt_Canonical m = Some (mt_Formula m) ∧
  f_Disabled (mt_Formula m) = false ∧ is_Some (f_Bottle (mt_Formula m)) ∧
  mt_Requested m = name ∧ (mt_Kind m = MatchCanonical ↔ mt_Canonical m = name) ∧
  (strings_Contains name "@" = true → mt_Canonical m = name).
Proof.
  unfold Lookup in Hl. apply bind_ok in Hl as (_ & _ & Hl).
  destruct (c_canonical c !! name) as [f|] eqn:Ec.
  { apply match_ok in Hl as (? & Hcn & ? & ? & ? & ?). rewrite (wf_key c Hwf _ _ Ec) in *. by rewrite Hcn. }
  destruct (strings_Contains name "@"); [done|].
  assert (∀ n k, match_ c name n k = Ok m → k ≠ MatchCanonical →
    c_canonical c !! mt_Canonical m = Some (mt_Formula m) ∧
    f_Disabled (mt_Formula m) = false ∧ is_Some (f_Bottle (mt_Formula m)) ∧
    mt_Requested m = name ∧ (mt_Kind m = MatchCanonical ↔ mt_Canonical m = name) ∧
    (false = true → mt_Canonical m = name)) as Hother.
  { intros n k (? & -> & -> & Hf & ? & ?)%match_ok Hk. split_and!; try done.
    split; [done|]. intros ->. congruence. }
  destruct (c_aliases c !! name); [by eapply Hother|]. destruct (c_oldNames c !! name); [by eapply Hother|].
  destruct (c_migrations c !! name); [|done]. case_bool_decide; [done|]. by eapply Hother.
Qed.

Lemma Lookup_sound_witness :
  ∃ m, Lookup sample "onig" = Ok m ∧ mt_Canonical m = "oniguruma" ∧
       c_canonical sample !! mt_Canonical m = Some (mt_Formula m).
Proof.
  eexists. split; [vm_compute; reflexivity|]. split; [reflexivity|].
  apply (Lookup_sound sample "onig").
  - apply sample_wf.
  - vm_compute. reflexivity.
Defined.

(** In a well-formed catalog [Lookup] reports [ErrFormulaNotFound] exactly
    for a valid name without [@] that no index holds; a known name that cannot
    be used gives a different error. The public-tap resolver relies on this
    error to fall back to the tap. *)
Theorem Lookup_not_found_iff c name (Hwf : catalog_wf c) :
  Lookup c name = Err ErrFormulaNotFound ↔
  validateSimpleName name = Ok tt ∧ strings_Contains name "@" = false ∧
  c_canonical c !! name = None ∧ c_aliases c !! name = None ∧
  c_oldNames c !! name = None ∧ c_migrations c !! name = None.
Proof.
  unfold Lookup. destruct (validateSimpleName name) as [[]|e] eqn:Ev; cbn [mbind result_bind].
  2: { unfold validateSimpleName, check in Ev. destruct (_ || _); [|done]. injection Ev as <-. split; [done|]. by intros [? _]. }
  destruct (c_canonical c !! name) as [f|] eqn:Ec.
  { split; [|naive_solver]. intros Hm. exfalso. revert Hm. apply match_not_missing.
    rewrite (wf_key c Hwf _ _ Ec). by eauto. }
  destruct (strings_Contains name "@"); [naive_solver|].
  destruct (c_aliases c !! name) as [n|] eqn:Ea.
  { split; [|naive_solver]. intros Hm. exfalso. revert Hm. apply match_not_missing.
    by destruct (wf_alias c Hwf _ _ Ea). }
  destruct (c_oldNames c !! name) as [n|] eqn:Eo.
  { split; [|naive_solver]. intros Hm. exfalso. revert Hm. apply match_not_missing.
    by destruct (wf_old c Hwf _ _ Eo) as (_ & _ & ?). }
  destruct (c_migrations c !! name) as [mg|] eqn:Em; [|naive_solver].
  split; [|naive_solver]. intros Hm. exfalso. revert Hm.
  destruct (wf_migration c Hwf _ _ Em) as (_ & _ & _ & r & -> & Hg). cbn [default from_option].
  case_bool_decide; [done|]. destruct Hg as [?|[_ Hs]]; [done|]. by apply match_not_missing.
Qed.

Lemma Lookup_not_found_iff_witness :
  Lookup sample "nope" = Err ErrFormulaNotFound ∧ c_migrations sample !! "nope" = None.
Proof.
  pose proof sample_wf as Hwf.
  split; [vm_compute; reflexivity|].
  apply (proj1 (Lookup_not_found_iff sample "nope" Hwf)). vm_compute. reflexivity.
Defined.

(** Migration chains always resolve or fail in as many steps as there are
    migrations: the recursion never runs out of its bound, cycles included. *)
Theorem resolveMigration_terminates c name memo :
  resolveMigration c (S (size (c_migrations c))) name [] ∅ memo ≠ Err MigrationFuel.
Proof. apply resolveMigration_fuel; [rewrite dom_empty; set_solver|]. rewrite map_size_empty. lia. Qed.

(** On a catalog whose dependencies are all canonical, the cycle search
    accepts a tag exactly when no Formula reaches itself through its
    dependencies; it always answers. *)
Theorem validateDependencyCycles_iff c tag
  (Hnames : ∀ n, n ∈ c_canonicalNames c ↔ is_Some (c_canonical c !! n))
  (Hclosed : closed_set (depsForTag c tag) (dom (c_canonical c))) :
  validateDependencyCycles c tag = Ok tt ↔ ∀ n, ¬ tc (edge (depsForTag c tag)) n n.
Proof.
  split; [by apply checked_cycles|]. intros Hac. unfold validateDependencyCycles. rewrite dfs_all_run.
  pose proof (dfs_ok_iff (depsForTag c tag) (dom (c_canonical c)) (size (c_canonical c)) (c_canonicalNames c)) as [_ Hok].
  - done.
  - intros r Hr%Hnames. by apply elem_of_dom.
  - by rewrite size_dom.
  - destruct Hok as (order & Hd); [intros x _; apply Hac|]. unfold dfs in Hd.
    by destruct (dfs_run _ _ _) as [?|[|]].
Qed.

Lemma validateDependencyCycles_iff_witness :
  validateDependencyCycles sample "x86_64_linux" = Ok tt ↔
  ∀ n, ¬ tc (edge (depsForTag sample "x86_64_linux")) n n.
Proof.
  pose proof sample_wf as Hwf.
  apply (validateDependencyCycles_iff sample "x86_64_linux").
  - apply (wf_names _ Hwf).
  - intros x y _ Hy. apply elem_of_dom. by apply (wf_deps _ Hwf "x86_64_linux" x).
Defined.
