(* ===== verification/Resolution.v ===== *)
(** * internal/resolution: the immutable resolution record

    [Record], its validation and its canonical form. [Validate] collects every
    problem it finds, so it is modelled as the list of them ([errors.Join] of no
    error is [nil]). A time is the number of nanoseconds since the zero
    [time.Time]; the location and the monotonic reading that
    [UTC().Round(0)] drops are not part of it. JSON text is produced and read
    by [encoding/json]; [Canonical] is modelled up to the record that is
    encoded. *)

From S2P Require Import Prelude GoStrings Graph.
From S2P Require Export ClosureGraph.
From Stdlib Require Import SetoidPermutation.
From stdpp Require Import options.
Local Open Scope Z_scope.

(** ** Third-party packages *)

(** github.com/opencontainers/go-digest: whether a string parses as a digest
    ([digest.Parse] and [Digest.Validate] are the same test) and its algorithm *)
Class GoDigest := {
  digest_valid : string → bool;
  digest_Algorithm : string → string;
}.

(** github.com/distribution/reference: a normalized reference, whether it has a
    tag and its digest *)
Record Named := MkNamed { ref_Domain : string; ref_Path : string; ref_Tagged : bool; ref_Digest : option string }.

Class DistributionReference := { reference_ParseNormalizedNamed : string → option Named }.

(** ** The record *)

Definition SchemaVersion : string := "dalec-homebrew-resolution/v1".
Definition PolicyVersion : string := "homebrew-runtime-v1".

Record Platform := MkPlatform { p_OS : string; p_Architecture : string; p_Variant : string }.

Record Input := MkInput { in_DalecSpecDigest : string; in_TargetKey : string; in_Platform : Platform }.

Record Signature := MkSignature { sg_KeyID : string; sg_Algorithm : string; sg_Verified : bool }.

Record MetadataSnapshot := MkMetadataSnapshot {
  ms_Digest : string; ms_FormulaDigest : string; ms_MigrationDigest : string;
  ms_FormulaEnvelopeDigest : string; ms_MigrationEnvelopeDigest : string;
  ms_FormulaFreshnessSource : string; ms_MigrationFreshnessSource : string;
  ms_GeneratedAt : Z; ms_FetchedAt : Z;
  ms_Signatures : list Signature; ms_FormulaSignatures : list Signature;
  ms_MigrationSignatures : list Signature;
  ms_FormulaURL : string; ms_MigrationURL : string;
}.

Record RequestedRoot := MkRequestedRoot { rr_Requested : string; rr_Canonical : string; rr_KegOnly : bool }.

Record Requirement := MkRequirement {
  rq_Name : string; rq_Minimum : string; rq_Revision : Z; rq_BottleRebuild : Z; rq_Direct : bool;
}.

(** A nil and an empty [Metadata] map encode alike and are one value here. *)
Record Descriptor := MkDescriptor {
  d_Digest : string; d_Size : Z; d_MediaType : string;
  d_Platform : option Platform; d_Metadata : gmap string string;
}.

Record BuiltOn := MkBuiltOn {
  bo_OS : string; bo_OSVersion : string; bo_CPUFamily : string;
  bo_OldestCPUFamily : string; bo_GlibcVersion : string;
}.

Record RuntimeDependency := MkRuntimeDependency {
  rd_FullName : string; rd_Version : string; rd_Revision : Z; rd_BottleRebuild : Z;
  rd_PkgVersion : string; rd_DeclaredDirectly : bool;
}.

Record BottleTab := MkBottleTab {
  tab_HomebrewVersion : string; tab_Arch : string; tab_Compiler : string;
  tab_ChangedFiles : list string; tab_BuiltOn : BuiltOn; tab_Dependencies : list RuntimeDependency;
}.

Record KV := MkKV { kv_Key : string; kv_Value : string }.

Record Bottle := MkBottle {
  bt_Tag : string; bt_Filename : string; bt_Repository : string;
  bt_Index : Descriptor; bt_Manifest : Descriptor; bt_Config : Descriptor; bt_Layer : Descriptor;
  bt_HomebrewSHA256 : string; bt_Cellar : string; bt_Tab : BottleTab;
  bt_SelectedAnnotations : list KV;
}.

Record Node := MkNode {
  n_Name : string; n_FullName : string; n_FormulaVersion : string; n_FormulaRevision : Z;
  n_PkgVersion : string; n_VersionScheme : Z; n_BottleRebuild : Z; n_License : string;
  n_KegOnly : bool; n_Dependencies : list Requirement; n_Bottle : Bottle;
  n_ExecutablePaths : list string; n_UpstreamFormulaID : string; n_PolicyFormulaID : string;
}.

Record Components := MkComponents {
  cp_FrontendRef : string; cp_RuntimeBaseRef : string; cp_MaterializerRef : string;
  cp_HomebrewCommit : string; cp_RubyRuntime : string; cp_VerificationKeys : string;
  cp_DalecModule : string; cp_BuildKitModule : string;
}.

Record RuntimePolicy := MkRuntimePolicy {
  rp_Profile : string; rp_User : string; rp_UID : Z; rp_GID : Z;
  rp_GeneratedPATH : list string; rp_WritablePaths : list string; rp_CPUBaseline : string;
}.

Record AttestationPolicy := MkAttestationPolicy { ap_Identity : string; ap_Waiver : string }.

Record Record_ := MkRecord {
  r_SchemaVersion : string; r_PolicyVersion : string; r_Input : Input;
  r_Metadata : MetadataSnapshot; r_ResolvedAt : Z; r_SourceDateEpoch : Z;
  r_Requested : list RequestedRoot; r_Nodes : list Node; r_InstallOrder : list string;
  r_Components : Components; r_Runtime : RuntimePolicy; r_AttestationPolicy : AttestationPolicy;
  r_PruningPolicyDigest : string;
}.

(** ** Errors: one constructor per message *)

Inductive digest_error := DigestMalformed | DigestNotSHA256.

Inductive descriptor_error := DescriptorDigest (e : digest_error) | DescriptorSize | DescriptorMediaType.

Inductive identity_error :=
| IdentityNotPositive | LinuxbrewNot1000 | UserNotPair | UserUnsupported | UserMismatch.

Inductive reference_error :=
| ReferenceEmpty | ReferenceInvalid | ReferenceNotPinned | ReferenceDigest (e : digest_error).

Inductive record_error :=
| UnsupportedSchema | UnsupportedPolicy | UnsupportedPlatform
| FieldDigest (field : string) (e : digest_error)
| EpochNotPositive | TimestampsUnset | NoRequestedRoots | NoNodes
| NodeIdentity (n : string) | NodeDuplicate (n : string) | NodeVersion (n : string)
| NodeFilename (n : string) | NodeIncompleteBottle (n : string)
| NodeAllArch (n : string) | NodeAllPlatform (n : string)
| NodeTabArch (n : string) | NodeManifestPlatform (n : string) | NodeTag (n : string)
| NodeDescriptor (n label : string) (e : descriptor_error)
| NodeChecksum (n : string) | NodeLayerDigest (n : string)
| NodeEmptyDependency (n : string) | NodeDuplicateDependency (n dep : string)
| RootMissing (requested canonical : string) | DependencyMissing (n dep : string)
| OrderLength | OrderUnknown (n : string) | OrderDuplicate (n : string) | OrderOmits (n : string)
| OrderBeforeDependency (n dep : string)
| NodeUnreachable (n : string)
| WalkOutOfFuel
| RuntimeIdentity (e : identity_error) | ProfileSet | AttestationNotOne
(* only for materialization *)
| FreshnessSource (label : string) | FormulaNotVerified | MigrationNotVerified
| ComponentReference (label : string) (e : reference_error)
| RubyRuntimeMissing | HomebrewCommitInvalid | ModulesMissing | WaiverUnsupported.

(** ** Field checks *)

Section validate.
Context `{U : !UnicodeTables, G : !GoDigest, R : !DistributionReference}.

Definition validateDigest (s : string) : result digest_error unit :=
  _ ← check (negb (digest_valid s)) DigestMalformed;
  _ ← check (negb (bool_decide (digest_Algorithm s = "sha256"))) DigestNotSHA256;
  check (negb (digest_valid s)) DigestMalformed.

Definition validateSHA256Hex (s : string) : bool := (strlen s =? 64) && hex_decodable s.

Definition validateDescriptor (d : Descriptor) : result descriptor_error unit :=
  _ ← map_err DescriptorDigest (validateDigest (d_Digest d));
  _ ← check (d_Size d <=? 0) DescriptorSize;
  check (bool_decide (strings_TrimSpace (d_MediaType d) = "")) DescriptorMediaType.

Definition validateRuntimeIdentity (runtime : RuntimePolicy) : result identity_error unit :=
  _ ← check ((rp_UID runtime <=? 0) || (rp_GID runtime <=? 0)) IdentityNotPositive;
  let user := strings_TrimSpace (rp_User runtime) in
  if bool_decide (user = "linuxbrew") || bool_decide (user = "linuxbrew:linuxbrew") then
    check (negb (rp_UID runtime =? 1000) || negb (rp_GID runtime =? 1000)) LinuxbrewNot1000
  else
    match strings_Split user ":" with
    | [u; g] =>
        uid ← map_err (λ _, UserUnsupported) (strconv_Atoi u);
        gid ← map_err (λ _, UserUnsupported) (strconv_Atoi g);
        check ((uid <=? 0) || (gid <=? 0) || negb (uid =? rp_UID runtime) || negb (gid =? rp_GID runtime))
          UserMismatch
    | _ => Err UserNotPair
    end.

Definition isLowerHex (value : string) : bool :=
  forallb (λ x, ((48 <=? x.1) && (x.1 <=? 57)) || ((97 <=? x.1) && (x.1 <=? 102))) (utf8_decode value).

Definition ValidatePinnedReference (ref : string) : result reference_error unit :=
  _ ← check (bool_decide (strings_TrimSpace ref = "")) ReferenceEmpty;
  match reference_ParseNormalizedNamed ref with
  | None => Err ReferenceInvalid
  | Some named =>
      match ref_Digest named with
      | None => Err ReferenceNotPinned
      | Some d => map_err ReferenceDigest (validateDigest d)
      end
  end.

(** ** Validate *)

Definition validate_header (r : Record_) : list record_error :=
  let p := in_Platform (r_Input r) in
  err_if (negb (bool_decide (r_SchemaVersion r = SchemaVersion))) UnsupportedSchema ++
  err_if (negb (bool_decide (r_PolicyVersion r = PolicyVersion))) UnsupportedPolicy ++
  err_if (negb (bool_decide (p_OS p = "linux"))
          || (negb (bool_decide (p_Architecture p = "amd64")) && negb (bool_decide (p_Architecture p = "arm64")))
          || negb (bool_decide (p_Variant p = ""))) UnsupportedPlatform ++
  (* range over a map literal: the order of the four is unspecified *)
  err_of (FieldDigest "input.dalec_spec_digest") (validateDigest (in_DalecSpecDigest (r_Input r))) ++
  err_of (FieldDigest "metadata.digest") (validateDigest (ms_Digest (r_Metadata r))) ++
  err_of (FieldDigest "metadata.formula_digest") (validateDigest (ms_FormulaDigest (r_Metadata r))) ++
  err_of (FieldDigest "metadata.migration_digest") (validateDigest (ms_MigrationDigest (r_Metadata r))) ++
  err_if (r_SourceDateEpoch r <=? 0) EpochNotPositive ++
  err_if ((r_ResolvedAt r =? 0) || (ms_GeneratedAt (r_Metadata r) =? 0) || (ms_FetchedAt (r_Metadata r) =? 0))
    TimestampsUnset ++
  err_if (bool_decide (length (r_Requested r) = 0%nat)) NoRequestedRoots ++
  err_if (bool_decide (length (r_Nodes r) = 0%nat)) NoNodes.

(** The bottle tag and the tab architecture expected for the platform *)
Definition expected_tag (arch : string) : string :=
  if bool_decide (arch = "arm64") then "arm64_linux" else "x86_64_linux".

Definition expected_tab_arch (arch : string) : string :=
  if bool_decide (arch = "arm64") then "arm64" else "x86_64".

Fixpoint validate_deps (name : string) (seenDeps : gset string) (deps : list Requirement) : list record_error :=
  match deps with
  | [] => []
  | dep :: deps =>
      err_if (bool_decide (rq_Name dep = "")) (NodeEmptyDependency name) ++
      err_if (bool_decide (rq_Name dep ∈ seenDeps)) (NodeDuplicateDependency name (rq_Name dep)) ++
      validate_deps name ({[rq_Name dep]} ∪ seenDeps) deps
  end.

(** The platform switch of the node loop *)
Definition validate_tag (arch : string) (n : Node) : list record_error :=
  let b := n_Bottle n in
  if bool_decide (bt_Tag b = "all") then
    err_if (negb (bool_decide (tab_Arch (bt_Tab b) = ""))) (NodeAllArch (n_Name n)) ++
    err_if (match d_Platform (bt_Manifest b) with Some _ => true | None => false end) (NodeAllPlatform (n_Name n))
  else if bool_decide (bt_Tag b = expected_tag arch) then
    err_if (negb (bool_decide (tab_Arch (bt_Tab b) = expected_tab_arch arch))) (NodeTabArch (n_Name n)) ++
    err_if (match d_Platform (bt_Manifest b) with
            | None => true
            | Some p => negb (bool_decide (p_OS p = "linux")) || negb (bool_decide (p_Architecture p = arch))
                        || negb (bool_decide (p_Variant p = ""))
            end) (NodeManifestPlatform (n_Name n))
  else [NodeTag (n_Name n)].

(** What the node loop checks of a node by itself *)
Definition validate_node (arch : string) (n : Node) : list record_error :=
  let b := n_Bottle n in
  err_if (bool_decide (n_FormulaVersion n = "") || bool_decide (n_PkgVersion n = "")) (NodeVersion (n_Name n)) ++
  err_if (negb (bool_decide (bt_Filename b = ""))
          && (negb (bool_decide (path_Base (bt_Filename b) = bt_Filename b))
              || strings_ContainsAny (bt_Filename b) "/\")) (NodeFilename (n_Name n)) ++
  err_if (bool_decide (bt_Repository b = "") || bool_decide (bt_Filename b = "") || bool_decide (bt_Tag b = ""))
    (NodeIncompleteBottle (n_Name n)) ++
  validate_tag arch n ++
  err_of (NodeDescriptor (n_Name n) "index") (validateDescriptor (bt_Index b)) ++
  err_of (NodeDescriptor (n_Name n) "manifest") (validateDescriptor (bt_Manifest b)) ++
  err_of (NodeDescriptor (n_Name n) "config") (validateDescriptor (bt_Config b)) ++
  err_of (NodeDescriptor (n_Name n) "layer") (validateDescriptor (bt_Layer b)) ++
  err_if (negb (validateSHA256Hex (bt_HomebrewSHA256 b))) (NodeChecksum (n_Name n)) ++
  err_if (negb (bool_decide (d_Digest (bt_Layer b) = "sha256:" +:+ strings_ToLower (bt_HomebrewSHA256 b))))
    (NodeLayerDigest (n_Name n)) ++
  validate_deps (n_Name n) ∅ (n_Dependencies n).

(** The node loop: [nodes] is the map filled as it goes *)
Fixpoint validate_nodes (arch : string) (nodes : gmap string Node) (l : list Node)
    : list record_error * gmap string Node :=
  match l with
  | [] => ([], nodes)
  | n :: l =>
      let errs :=
        err_if (bool_decide (n_Name n = "") || negb (bool_decide (n_FullName n = "homebrew/core/" +:+ n_Name n)))
          (NodeIdentity (n_Name n)) ++
        err_if (bool_decide (is_Some (nodes !! n_Name n))) (NodeDuplicate (n_Name n)) ++
        validate_node arch n in
      let '(errs', nodes') := validate_nodes arch (<[n_Name n := n]> nodes) l in
      (errs ++ errs', nodes')
  end.

Definition validate_roots (nodes : gmap string Node) (roots : list RequestedRoot) : list record_error :=
  roots ≫= λ root, err_if (bool_decide (nodes !! rr_Canonical root = None)) (RootMissing (rr_Requested root) (rr_Canonical root)).

Definition dep_names (n : Node) : list string := rq_Name <$> n_Dependencies n.

Definition validate_references (nodes : gmap string Node) (l : list Node) : list record_error :=
  l ≫= λ n, dep_names n ≫= λ dep,
    err_if (bool_decide (nodes !! dep = None)) (DependencyMissing (n_Name n) dep).

(** The position of every name of [install_order], and what the loop reports *)
Definition order_positions (nodes : gmap string Node) : gmap string nat → nat → list string
    → list record_error * gmap string nat :=
  positions (λ name, err_if (bool_decide (nodes !! name = None)) (OrderUnknown name)) OrderDuplicate.

Definition validate_order (nodes : gmap string Node) (l : list Node) (order : list string) : list record_error :=
  if negb (bool_decide (length order = size nodes)) then [OrderLength]
  else
    let '(errs, position) := order_positions nodes ∅ 0 order in
    errs ++ order_problems n_Name dep_names OrderOmits OrderBeforeDependency position l.

(** Every name [walk] can meet, which bounds its recursion *)
Definition walk_universe (nodes : gmap string Node) (roots : list RequestedRoot) : gset string :=
  universe dep_names nodes (rr_Canonical <$> roots).

Definition validate_reachable (nodes : gmap string Node) (roots : list RequestedRoot) : list record_error :=
  match walk_all (map_succ dep_names nodes) (size (walk_universe nodes roots)) (rr_Canonical <$> roots) with
  | Err _ => [WalkOutOfFuel]
  | Ok reachable =>
      map_to_list nodes ≫= λ e, err_if (bool_decide (e.1 ∉ reachable)) (NodeUnreachable e.1)
  end.

Definition Validate (r : Record_) : list record_error :=
  let '(node_errs, nodes) := validate_nodes (p_Architecture (in_Platform (r_Input r))) ∅ (r_Nodes r) in
  validate_header r ++ node_errs ++
  validate_roots nodes (r_Requested r) ++
  validate_references nodes (r_Nodes r) ++
  validate_order nodes (r_Nodes r) (r_InstallOrder r) ++
  validate_reachable nodes (r_Requested r) ++
  err_of RuntimeIdentity (validateRuntimeIdentity (r_Runtime r)) ++
  err_if (negb (bool_decide (rp_Profile (r_Runtime r) = ""))) ProfileSet ++
  err_if (Bool.eqb (bool_decide (ap_Identity (r_AttestationPolicy r) = ""))
                   (bool_decide (ap_Waiver (r_AttestationPolicy r) = ""))) AttestationNotOne.

Definition verified (values : list Signature) : bool := existsb sg_Verified values.

Definition freshness_supported (value : string) : bool :=
  bool_decide (value = "signed-payload") || bool_decide (value = "http-last-modified").

Definition ValidateForMaterialization (r : Record_) : list record_error :=
  let m := r_Metadata r in
  let c := r_Components r in
  Validate r ++
  err_of (FieldDigest "Formula envelope") (validateDigest (ms_FormulaEnvelopeDigest m)) ++
  err_of (FieldDigest "migration envelope") (validateDigest (ms_MigrationEnvelopeDigest m)) ++
  err_if (negb (freshness_supported (ms_FormulaFreshnessSource m))) (FreshnessSource "Formula freshness source") ++
  err_if (negb (freshness_supported (ms_MigrationFreshnessSource m))) (FreshnessSource "migration freshness source") ++
  err_if (negb (verified (ms_FormulaSignatures m))) FormulaNotVerified ++
  err_if (negb (verified (ms_MigrationSignatures m))) MigrationNotVerified ++
  err_of (ComponentReference "frontend") (ValidatePinnedReference (cp_FrontendRef c)) ++
  err_of (ComponentReference "runtime base") (ValidatePinnedReference (cp_RuntimeBaseRef c)) ++
  err_of (ComponentReference "materializer") (ValidatePinnedReference (cp_MaterializerRef c)) ++
  err_if (bool_decide (strings_TrimSpace (cp_RubyRuntime c) = "")) RubyRuntimeMissing ++
  err_if (negb (strlen (cp_HomebrewCommit c) =? 40) || negb (isLowerHex (cp_HomebrewCommit c))) HomebrewCommitInvalid ++
  err_of (FieldDigest "component verification key set") (validateDigest (cp_VerificationKeys c)) ++
  err_if (bool_decide (cp_DalecModule c = "") || bool_decide (cp_DalecModule c = "unknown")
          || bool_decide (cp_BuildKitModule c = "") || bool_decide (cp_BuildKitModule c = "unknown")) ModulesMissing ++
  err_of (FieldDigest "pruning policy") (validateDigest (r_PruningPolicyDigest r)) ++
  err_if (negb (bool_decide (ap_Waiver (r_AttestationPolicy r) = ""))
          && negb (bool_decide (ap_Waiver (r_AttestationPolicy r) = "homebrew-jws-and-verified-oci-chain-v1")))
    WaiverUnsupported.

(** ** Canonical form *)

Definition compareSignatures : Signature → Signature → Z :=
  cmp_then (cmp_on sg_KeyID strings_Compare) (cmp_then (cmp_on sg_Algorithm strings_Compare) (cmp_on sg_Verified bool_Compare)).

Definition sortSignatures (values : list Signature) : list Signature := slices_SortFunc compareSignatures values.

Definition compareKV : KV → KV → Z :=
  cmp_then (cmp_on kv_Key strings_Compare) (cmp_on kv_Value strings_Compare).

(** A node with other contents of its four order-free lists *)
Definition with_lists (n : Node) (deps : list Requirement) (execs changed : list string) (annots : list KV) : Node :=
  let b := n_Bottle n in
  let t := bt_Tab b in
  MkNode (n_Name n) (n_FullName n) (n_FormulaVersion n) (n_FormulaRevision n) (n_PkgVersion n)
    (n_VersionScheme n) (n_BottleRebuild n) (n_License n) (n_KegOnly n) deps
    (MkBottle (bt_Tag b) (bt_Filename b) (bt_Repository b) (bt_Index b) (bt_Manifest b) (bt_Config b) (bt_Layer b)
       (bt_HomebrewSHA256 b) (bt_Cellar b)
       (MkBottleTab (tab_HomebrewVersion t) (tab_Arch t) (tab_Compiler t) changed (tab_BuiltOn t) (tab_Dependencies t))
       annots)
    execs (n_UpstreamFormulaID n) (n_PolicyFormulaID n).

Definition canonicalizeNode (n : Node) : Node :=
  with_lists n (sort_by rq_Name (n_Dependencies n)) (slices_Sort (n_ExecutablePaths n))
    (slices_Sort (tab_ChangedFiles (bt_Tab (n_Bottle n)))) (slices_SortFunc compareKV (bt_SelectedAnnotations (n_Bottle n))).

(** A record with other contents of its order-free lists *)
Definition with_record_lists (r : Record_) (nodes : list Node) (sigs fsigs msigs : list Signature) (writable : list string)
    : Record_ :=
  let m := r_Metadata r in
  let rt := r_Runtime r in
  MkRecord (r_SchemaVersion r) (r_PolicyVersion r) (r_Input r)
    (MkMetadataSnapshot (ms_Digest m) (ms_FormulaDigest m) (ms_MigrationDigest m)
       (ms_FormulaEnvelopeDigest m) (ms_MigrationEnvelopeDigest m)
       (ms_FormulaFreshnessSource m) (ms_MigrationFreshnessSource m)
       (ms_GeneratedAt m) (ms_FetchedAt m) sigs fsigs msigs (ms_FormulaURL m) (ms_MigrationURL m))
    (r_ResolvedAt r) (r_SourceDateEpoch r) (r_Requested r) nodes (r_InstallOrder r) (r_Components r)
    (MkRuntimePolicy (rp_Profile rt) (rp_User rt) (rp_UID rt) (rp_GID rt) (rp_GeneratedPATH rt) writable (rp_CPUBaseline rt))
    (r_AttestationPolicy r) (r_PruningPolicyDigest r).

Definition canonicalize (r : Record_) : Record_ :=
  with_record_lists r
    (canonicalizeNode <$> sort_by n_Name (r_Nodes r))
    (sortSignatures (ms_Signatures (r_Metadata r)))
    (sortSignatures (ms_FormulaSignatures (r_Metadata r)))
    (sortSignatures (ms_MigrationSignatures (r_Metadata r)))
    (slices_Sort (rp_WritablePaths (r_Runtime r))).

(** [cloneRecord] goes through JSON, which does not carry [PolicyFormulaID];
    [Runtime.Profile] is copied by hand. *)
Definition cloneNode (n : Node) : Node :=
  MkNode (n_Name n) (n_FullName n) (n_FormulaVersion n) (n_FormulaRevision n) (n_PkgVersion n)
    (n_VersionScheme n) (n_BottleRebuild n) (n_License n) (n_KegOnly n) (n_Dependencies n) (n_Bottle n)
    (n_ExecutablePaths n) (n_UpstreamFormulaID n) "".

Definition cloneRecord (r : Record_) : Record_ :=
  let m := r_Metadata r in
  with_record_lists r (cloneNode <$> r_Nodes r) (ms_Signatures m) (ms_FormulaSignatures m)
    (ms_MigrationSignatures m) (rp_WritablePaths (r_Runtime r)).

(** [Canonical]: the record whose JSON text is returned *)
Definition Canonical (r : Record_) : result (list record_error) Record_ :=
  let c := canonicalize (cloneRecord r) in
  match Validate c with [] => Ok c | errs => Err errs end.

(** [Decode], after the JSON text was read into a record *)
Definition Decode (r : Record_) : result (list record_error) Record_ :=
  let c := canonicalize r in
  match Validate c with [] => Ok c | errs => Err errs end.

End validate.

(** The nodes by name, the dependency graph, and what a closure has to satisfy *)
Notation node_map := (keyed_map n_Name).
Notation node_deps := (map_succ dep_names).
Notation closure_succ := (list_succ n_Name dep_names).
Notation closure_wf := (closure_ok n_Name dep_names).

(** ** What a valid record is *)

Section specification.
Context `{U : !UnicodeTables, G : !GoDigest}.

Definition sha256_digest (s : string) : Prop := digest_valid s = true ∧ digest_Algorithm s = "sha256".

Record descriptor_wf (d : Descriptor) : Prop := {
  dw_digest : sha256_digest (d_Digest d);
  dw_size : 0 < d_Size d;
  dw_media : strings_TrimSpace (d_MediaType d) ≠ "";
}.

(** A runtime user: the reserved name at 1000:1000 or the numeric pair itself *)
Definition identity_wf (p : RuntimePolicy) : Prop :=
  let user := strings_TrimSpace (rp_User p) in
  0 < rp_UID p ∧ 0 < rp_GID p ∧
  (user ∈ ["linuxbrew"; "linuxbrew:linuxbrew"] ∧ rp_UID p = 1000 ∧ rp_GID p = 1000 ∨
   user ∉ ["linuxbrew"; "linuxbrew:linuxbrew"] ∧
   ∃ u g, strings_Split user ":" = [u; g] ∧ strconv_Atoi u = Ok (rp_UID p) ∧ strconv_Atoi g = Ok (rp_GID p)).

(** The bottle is the architecture-independent one or the target's own. *)
Definition tag_wf (arch : string) (b : Bottle) : Prop :=
  bt_Tag b = "all" ∧ tab_Arch (bt_Tab b) = "" ∧ d_Platform (bt_Manifest b) = None ∨
  bt_Tag b = expected_tag arch ∧ tab_Arch (bt_Tab b) = expected_tab_arch arch ∧
  d_Platform (bt_Manifest b) = Some (MkPlatform "linux" arch "").

Record node_wf (arch : string) (n : Node) : Prop := {
  nw_name : n_Name n ≠ "";
  nw_full : n_FullName n = "homebrew/core/" +:+ n_Name n;
  nw_version : n_FormulaVersion n ≠ "" ∧ n_PkgVersion n ≠ "";
  nw_bottle : bt_Repository (n_Bottle n) ≠ "" ∧ bt_Filename (n_Bottle n) ≠ "" ∧ bt_Tag (n_Bottle n) ≠ "";
  nw_filename : path_Base (bt_Filename (n_Bottle n)) = bt_Filename (n_Bottle n) ∧
                strings_ContainsAny (bt_Filename (n_Bottle n)) "/\" = false;
  nw_tag : tag_wf arch (n_Bottle n);
  nw_descriptors : Forall descriptor_wf
    [bt_Index (n_Bottle n); bt_Manifest (n_Bottle n); bt_Config (n_Bottle n); bt_Layer (n_Bottle n)];
  nw_checksum : validateSHA256Hex (bt_HomebrewSHA256 (n_Bottle n)) = true;
  nw_layer : d_Digest (bt_Layer (n_Bottle n)) = "sha256:" +:+ strings_ToLower (bt_HomebrewSHA256 (n_Bottle n));
  nw_deps : NoDup (dep_names n) ∧ "" ∉ dep_names n;
}.

Record header_wf (r : Record_) : Prop := {
  hw_schema : r_SchemaVersion r = SchemaVersion;
  hw_policy : r_PolicyVersion r = PolicyVersion;
  hw_platform : in_Platform (r_Input r) = MkPlatform "linux" (p_Architecture (in_Platform (r_Input r))) "" ∧
                p_Architecture (in_Platform (r_Input r)) ∈ ["amd64"; "arm64"];
  hw_digests : Forall sha256_digest [in_DalecSpecDigest (r_Input r); ms_Digest (r_Metadata r);
                 ms_FormulaDigest (r_Metadata r); ms_MigrationDigest (r_Metadata r)];
  hw_epoch : 0 < r_SourceDateEpoch r;
  hw_times : r_ResolvedAt r ≠ 0 ∧ ms_GeneratedAt (r_Metadata r) ≠ 0 ∧ ms_FetchedAt (r_Metadata r) ≠ 0;
  hw_roots : r_Requested r ≠ [];
  hw_nodes : r_Nodes r ≠ [];
}.

Record record_wf (r : Record_) : Prop := {
  rw_header : header_wf r;
  rw_node : ∀ n, n ∈ r_Nodes r → node_wf (p_Architecture (in_Platform (r_Input r))) n;
  rw_closure : closure_wf (rr_Canonical <$> r_Requested r) (r_Nodes r) (r_InstallOrder r);
  rw_identity : identity_wf (r_Runtime r);
  rw_profile : rp_Profile (r_Runtime r) = "";
  rw_attestation : (ap_Identity (r_AttestationPolicy r) = "" ↔ ap_Waiver (r_AttestationPolicy r) ≠ "");
}.

End specification.

Section field_checks.
Context `{U : !UnicodeTables, G : !GoDigest}.

Lemma validateDigest_ok s : validateDigest s = Ok tt ↔ sha256_digest s.
Proof.
  unfold validateDigest, sha256_digest, check. destruct (digest_valid s); cbn; [|naive_solver].
  case_bool_decide; cbn; naive_solver.
Qed.

Lemma validateDescriptor_ok d : validateDescriptor d = Ok tt ↔ descriptor_wf d.
Proof.
  unfold validateDescriptor. rewrite !bind_ok. setoid_rewrite map_err_ok. split.
  - intros ([] & Hd%validateDigest_ok & Hs). apply bind_ok in Hs as ([] & Hs%check_ok & Hm%check_ok).
    case_bool. by split.
  - intros [Hd Hs Hm]. exists tt. rewrite validateDigest_ok. split; [done|]. apply bind_ok.
    exists tt. rewrite !check_ok. split; [by apply Z.leb_gt | by apply bool_decide_eq_false].
Qed.

Lemma validateRuntimeIdentity_ok p : validateRuntimeIdentity p = Ok tt ↔ identity_wf p.
Proof.
  unfold validateRuntimeIdentity, identity_wf. rewrite bind_ok.
  generalize (strings_TrimSpace (rp_User p)) as user. intros user. split.
  - intros ([] & Hp%check_ok & H). case_bool. split_and!; [done..|].
    destruct (_ || _) eqn:Eu in H.
    + left. apply check_ok in H. case_bool. split_and!; [|done..].
      apply orb_true_iff in Eu as [?%bool_decide_eq_true|?%bool_decide_eq_true]; set_solver.
    + right. case_bool. split; [set_solver|]. destruct (strings_Split user ":") as [|u [|g []]]; try done.
      exists u, g. split; [done|]. res_inv H. case_bool. by subst.
  - intros (Hu & Hg & H). exists tt. rewrite check_ok, orb_false_iff, !Z.leb_gt. split; [done|].
    destruct H as [(Hin & -> & ->)|(Hni & u & g & -> & -> & ->)].
    + destruct (_ || _) eqn:Eu; [done|]. case_bool. set_solver.
    + destruct (_ || _) eqn:Eu.
      { exfalso. apply orb_true_iff in Eu as [?%bool_decide_eq_true|?%bool_decide_eq_true]; set_solver. }
      cbn. rewrite check_ok, !orb_false_iff, !negb_false_iff, !Z.leb_gt, !Z.eqb_eq. done.
Qed.

Lemma validate_tag_nil arch n : validate_tag arch n = [] ↔ tag_wf arch (n_Bottle n).
Proof.
  assert (expected_tag arch ≠ "all") as Hne by (unfold expected_tag; by case_bool_decide).
  unfold validate_tag, tag_wf. case_bool_decide as Ha.
  { rewrite Ha. autorewrite with errs. destruct (d_Platform _); split.
    - by intros [].
    - intros [(_ & _ & ?)|(? & _)]; congruence.
    - intros [? _]. by left.
    - intros [(_ & ? & _)|(? & _)]; [done|congruence]. }
  case_bool_decide as He; [|by split; [|intros [(? & _)|(? & _)]]].
  rewrite He. autorewrite with errs. destruct (d_Platform _) as [[os a v]|]; cbn; autorewrite with errs; split.
  - intros (? & (-> & ->) & ->). by right.
  - intros [(? & _)|(_ & ? & [= -> -> ->])]; [by rewrite He in *|done].
  - by intros [].
  - intros [(? & _)|(_ & _ & ?)]; congruence.
Qed.

Lemma validate_deps_nil name seen deps :
  validate_deps name seen deps = [] ↔
  NoDup (rq_Name <$> deps) ∧ "" ∉ rq_Name <$> deps ∧ ∀ x, x ∈ rq_Name <$> deps → x ∉ seen.
Proof.
  revert seen. induction deps as [|d deps IH]; intros seen; cbn [validate_deps fmap list_fmap].
  { split; [intros _; split_and!; [constructor|set_solver..] | done]. }
  autorewrite with errs. rewrite IH, NoDup_cons, not_elem_of_cons. setoid_rewrite elem_of_cons. split.
  - intros (He & Hs & Hnd & Hne & Hd). split_and!; [set_solver|done|congruence|done|]. intros x [->|?]; [done|set_solver].
  - intros ((Hn & Hnd) & (He & Hne) & Hd). split_and!; [congruence|by apply Hd; left|done|done|].
    intros x Hx [->%elem_of_singleton|?]%elem_of_union; [done|]. by eapply Hd; [right|].
Qed.

End field_checks.

(** ** The node loop *)

Section node_loop.
Context `{U : !UnicodeTables, G : !GoDigest}.

Lemma validate_node_nil arch n :
  (n_Name n ≠ "" ∧ n_FullName n = "homebrew/core/" +:+ n_Name n) ∧ validate_node arch n = [] ↔ node_wf arch n.
Proof.
  unfold validate_node. autorewrite with errs. rewrite !validateDescriptor_ok, validate_tag_nil, validate_deps_nil.
  split.
  - intros ([? ?] & [? ?] & Hf & ((Hr & Hfn) & Ht) & ? & ? & ? & ? & ? & ? & ? & ? & ? & _).
    destruct Hf as [?|Hf]; [done|]. split; try done. rewrite !Forall_cons. split_and!; [done..|constructor].
  - intros [? ? [? ?] (? & ? & ?) [? ?] ? Hd ? ? [? ?]]. rewrite !Forall_cons in Hd.
    destruct Hd as (? & ? & ? & ? & _). split_and!; auto. by intros x _ ?%elem_of_empty.
Qed.

Lemma validate_nodes_map arch m l : (validate_nodes arch m l).2 = node_map m l.
Proof.
  revert m. induction l as [|n l IH]; intros m; cbn [validate_nodes]; [done|].
  specialize (IH (<[n_Name n:=n]> m)). by destruct (validate_nodes _ _ _).
Qed.

Lemma validate_nodes_nil arch m l :
  (validate_nodes arch m l).1 = [] ↔
  (∀ n, n ∈ l → node_wf arch n) ∧ NoDup (n_Name <$> l) ∧ ∀ x, x ∈ n_Name <$> l → m !! x = None.
Proof.
  revert m. induction l as [|n l IH]; intros m; cbn [validate_nodes fmap list_fmap].
  { split; [intros _; split_and!; [set_solver|constructor|set_solver]|done]. }
  specialize (IH (<[n_Name n:=n]> m)). destruct (validate_nodes arch _ l) as [errs m'].
  cbn [fst] in *. autorewrite with errs. rewrite IH, NoDup_cons. clear IH.
  setoid_rewrite elem_of_cons. setoid_rewrite lookup_insert_None. split.
  - intros (((? & ?) & Hm & Hn) & Hl & Hnd & Hd). split_and!; [|set_solver|done|].
    + intros x [->|?]; [|by apply Hl]. by apply validate_node_nil.
    + intros x [->|?]; [by apply eq_None_not_Some|by apply Hd].
  - intros (Hl & (Hn & Hnd) & Hd). assert (node_wf arch n) as Hw by (apply Hl; by left).
    apply validate_node_nil in Hw as [[? ?] ?]. split_and!; auto.
    + apply eq_None_not_Some. apply Hd. by left.
    + intros x Hx. split; [by apply Hd; right|]. by intros <-.
Qed.

End node_loop.

(** ** The graph checks *)

Lemma validate_order_nil l order :
  NoDup (n_Name <$> l) →
  validate_order (node_map ∅ l) l order = [] ↔ order ≡ₚ n_Name <$> l ∧ topo_sorted (closure_succ l) order.
Proof.
  intros Hnd. unfold validate_order, order_positions. rewrite keyed_map_size by done.
  set (problems := λ name, err_if (bool_decide (node_map ∅ l !! name = None)) (OrderUnknown name)).
  pose proof (order_checks_nil n_Name dep_names problems OrderDuplicate OrderOmits OrderBeforeDependency
    (λ _, True) l order Hnd) as Hc.
  destruct (positions problems OrderDuplicate ∅ 0 order) as [errs pos]. cbn [fst snd] in Hc.
  transitivity (length order = length l ∧ errs = [] ∧
    order_problems n_Name dep_names OrderOmits OrderBeforeDependency pos l = []).
  - case_bool_decide; cbn; [rewrite app_nil_iff|]; naive_solver.
  - rewrite Hc; [naive_solver|]. intros x. unfold problems. autorewrite with errs.
    rewrite not_eq_None_Some, keyed_map_known. naive_solver.
Qed.

Lemma validate_reachable_nil l roots :
  NoDup (n_Name <$> l) →
  validate_reachable (node_map ∅ l) roots = [] ↔
  ∀ x, x ∈ n_Name <$> l → reachable (closure_succ l) (rr_Canonical <$> roots) x.
Proof.
  intros Hnd. by apply (reachable_check_nil n_Name dep_names).
Qed.

Lemma validate_roots_nil l roots :
  validate_roots (node_map ∅ l) roots = [] ↔ ∀ x, x ∈ rr_Canonical <$> roots → x ∈ n_Name <$> l.
Proof.
  unfold validate_roots. autorewrite with errs. setoid_rewrite err_if_nil. setoid_rewrite bool_decide_eq_false.
  setoid_rewrite not_eq_None_Some. setoid_rewrite keyed_map_known. split.
  - intros H x (r & -> & Hr)%list_elem_of_fmap. by apply H.
  - intros H r Hr. apply H. by apply list_elem_of_fmap_2.
Qed.

Lemma validate_references_nil l :
  validate_references (node_map ∅ l) l = [] ↔ ∀ x y, edge (closure_succ l) x y → y ∈ n_Name <$> l.
Proof. apply missing_deps_nil. Qed.

Lemma closure_checks_nil roots l order :
  NoDup (n_Name <$> l) →
  validate_roots (node_map ∅ l) roots = [] ∧ validate_references (node_map ∅ l) l = [] ∧
  validate_order (node_map ∅ l) l order = [] ∧ validate_reachable (node_map ∅ l) roots = [] ↔
  closure_wf (rr_Canonical <$> roots) l order.
Proof.
  intros Hnd. rewrite validate_roots_nil, validate_references_nil, validate_order_nil, validate_reachable_nil by done.
  split; [intros (? & ? & [? ?] & ?); by split|intros []; by split_and!].
Qed.

Section validate_iff.
Context `{U : !UnicodeTables, G : !GoDigest}.

Lemma validate_header_nil r : validate_header r = [] ↔ header_wf r.
Proof.
  unfold validate_header. autorewrite with errs. rewrite !validateDigest_ok, !length_zero_iff_nil.
  destruct (in_Platform (r_Input r)) as [os a v] eqn:Ep. cbn. split.
  - intros (? & ? & ((? & Ha) & ?) & ? & ? & ? & ? & ? & ((? & ?) & ?) & ? & ?). subst.
    split; rewrite ?Ep; cbn; try done.
    + split; [done|]. destruct Ha as [->| ->]; set_solver.
    + rewrite !Forall_cons. split_and!; [done..|constructor].
  - intros [? ? [Hp Ha] Hd ? (? & ? & ?) ? ?]. rewrite Ep in *. cbn in *. injection Hp as -> ->.
    rewrite !Forall_cons in Hd. destruct Hd as (? & ? & ? & ? & _).
    split_and!; try done. set_unfold. naive_solver.
Qed.

Lemma Validate_nil r : Validate r = [] ↔ record_wf r.
Proof.
  unfold Validate. set (arch := p_Architecture _).
  pose proof (validate_nodes_map arch ∅ (r_Nodes r)) as Hmap.
  pose proof (validate_nodes_nil arch ∅ (r_Nodes r)) as Hnil.
  destruct (validate_nodes arch ∅ (r_Nodes r)) as [errs nodes]. cbn [fst snd] in *. subst nodes.
  autorewrite with errs. rewrite Hnil, validate_header_nil, validateRuntimeIdentity_ok. split.
  - intros (Hh & (Hn & Hu & _) & H1 & H2 & H3 & H4 & Hi & Hp & Ha). split; try done.
    + by apply closure_checks_nil.
    + apply Bool.eqb_false_iff in Ha. repeat case_bool_decide; naive_solver.
  - intros [Hh Hn Hc Hi Hp Ha]. pose proof (cw_unique Hc) as Hu.
    apply (closure_checks_nil (r_Requested r)) in Hc as (? & ? & ? & ?); [|done]. split_and!; try done.
    apply Bool.eqb_false_iff. repeat case_bool_decide; naive_solver.
Qed.

End validate_iff.

(** ** Records that differ only in the order of order-free lists *)

Definition changed_files (n : Node) : list string := tab_ChangedFiles (bt_Tab (n_Bottle n)).

Definition annotations (n : Node) : list KV := bt_SelectedAnnotations (n_Bottle n).

(** The node without its order-free lists and its in-memory marker *)
Definition node_core (n : Node) : Node := with_lists (cloneNode n) [] [] [] [].

Definition node_equiv (a b : Node) : Prop :=
  node_core a = node_core b ∧ n_Dependencies a ≡ₚ n_Dependencies b ∧
  n_ExecutablePaths a ≡ₚ n_ExecutablePaths b ∧ changed_files a ≡ₚ changed_files b ∧
  annotations a ≡ₚ annotations b.

#[export] Instance node_equiv_equivalence : Equivalence node_equiv.
Proof.
  split.
  - intros a. by split_and!.
  - intros a b (? & ? & ? & ? & ?). by split_and!.
  - intros a b c (? & ? & ? & ? & ?) (? & ? & ? & ? & ?). split_and!; by etrans.
Qed.

Definition record_core (r : Record_) : Record_ := with_record_lists r [] [] [] [] [].

Definition record_equiv (r1 r2 : Record_) : Prop :=
  record_core r1 = record_core r2 ∧
  PermutationA node_equiv (r_Nodes r1) (r_Nodes r2) ∧
  ms_Signatures (r_Metadata r1) ≡ₚ ms_Signatures (r_Metadata r2) ∧
  ms_FormulaSignatures (r_Metadata r1) ≡ₚ ms_FormulaSignatures (r_Metadata r2) ∧
  ms_MigrationSignatures (r_Metadata r1) ≡ₚ ms_MigrationSignatures (r_Metadata r2) ∧
  rp_WritablePaths (r_Runtime r1) ≡ₚ rp_WritablePaths (r_Runtime r2).

#[export] Instance record_equiv_equivalence : Equivalence record_equiv.
Proof.
  split.
  - intros r. by split_and!.
  - intros r s (? & ? & ? & ? & ? & ?). by split_and!.
  - intros r s t (? & ? & ? & ? & ? & ?) (? & ? & ? & ? & ? & ?). split_and!; by etrans.
Qed.

Lemma node_equiv_name a b : node_equiv a b → n_Name a = n_Name b.
Proof. by intros [[= ] _]. Qed.

Lemma node_equiv_deps a b : node_equiv a b → dep_names a ≡ₚ dep_names b.
Proof. intros (_ & Hd & _). unfold dep_names. by rewrite Hd. Qed.

Lemma nodes_equiv_names l k : PermutationA node_equiv l k → n_Name <$> l ≡ₚ n_Name <$> k.
Proof.
  induction 1 as [|a b l k He _ IH|a b l|l m k _ IH1 _ IH2]; cbn.
  - done.
  - by rewrite (node_equiv_name _ _ He), IH.
  - apply Permutation_swap.
  - by etrans.
Qed.

Lemma nodes_equiv_elem l k n : PermutationA node_equiv l k → n ∈ l → ∃ m, m ∈ k ∧ node_equiv n m.
Proof.
  intros Hp. revert n. induction Hp as [|a b l k He _ IH|a b l|l m k _ IH1 _ IH2]; intros n Hn.
  - set_solver.
  - apply elem_of_cons in Hn as [->|Hn]; [exists b; set_solver|].
    destruct (IH n Hn) as (x & ? & ?). exists x. set_solver.
  - exists n. set_solver.
  - destruct (IH1 n Hn) as (x & Hx & ?). destruct (IH2 x Hx) as (y & ? & ?). exists y. split; [done|by etrans].
Qed.

Lemma nodes_equiv_edge l k x y :
  PermutationA node_equiv l k → edge (closure_succ l) x y → edge (closure_succ k) x y.
Proof.
  rewrite !edge_list_succ. intros Hp (n & Hn & <- & Hy). destruct (nodes_equiv_elem l k n Hp Hn) as (m & Hm & He).
  exists m. rewrite (node_equiv_name _ _ He). split_and!; [done..|]. by rewrite <-(node_equiv_deps _ _ He).
Qed.

#[export] Instance closure_wf_proper roots :
  Proper (PermutationA node_equiv ==> eq ==> impl) (closure_wf roots).
Proof.
  intros l k Hp order ? <- Hw. eapply closure_ok_ext; [done|by apply nodes_equiv_names| |exact Hw].
  intros x y. split; by apply nodes_equiv_edge.
Qed.

Section canonical.
Context `{U : !UnicodeTables, G : !GoDigest}.

#[export] Instance node_wf_proper arch : Proper (node_equiv ==> impl) (node_wf arch).
Proof.
  intros a b He Hw. pose proof (node_equiv_deps a b He) as Hd. destruct He as (Hc & _).
  destruct a as [? ? ? ? ? ? ? ? ? ? [? ? ? ? ? ? ? ? ? [] ?] ? ? ?], b as [? ? ? ? ? ? ? ? ? ? [? ? ? ? ? ? ? ? ? [] ?] ? ? ?].
  injection Hc; clear Hc; intros; subst.
  destruct Hw as [? ? ? ? ? ? ? ? ? [? ?]]. split; try done. cbn in *. by rewrite <-Hd.
Qed.

#[export] Instance record_wf_proper : Proper (record_equiv ==> impl) record_wf.
Proof.
  intros r s (Hc & Hn & _ & _ & _ & Hw) [Hh Hnode Hcl Hi Hp Ha].
  destruct r as [? ? ? [] ? ? ? rn ? ? [] ? ?], s as [? ? ? [] ? ? ? sn ? ? [] ? ?].
  injection Hc; clear Hc; intros; subst.
  cbn [r_Nodes] in *. destruct Hh. split; try done.
  - split; try done. cbn in *. intros ->. apply nodes_equiv_names, Permutation_length in Hn.
    rewrite !length_fmap in Hn. by destruct rn.
  - cbn in *. intros n Hin. symmetry in Hn. destruct (nodes_equiv_elem _ _ n Hn Hin) as (m & Hm & He).
    symmetry in He. rewrite <-He. by apply Hnode.
  - cbn in *. by rewrite <-Hn.
Qed.

Lemma canonicalizeNode_equiv n : node_equiv n (canonicalizeNode (cloneNode n)).
Proof.
  destruct n as [? ? ? ? ? ? ? ? ? ? [? ? ? ? ? ? ? ? ? [] ?] ? ? ?]. split_and!; cbn; try done.
  - symmetry. apply sort_by_Permutation.
  - symmetry. apply slices_Sort_Permutation.
  - symmetry. apply slices_Sort_Permutation.
  - symmetry. apply SortFunc_Permutation.
Qed.

Lemma nodes_equiv_fmap (h : Node → Node) l : (∀ n, node_equiv n (h n)) → PermutationA node_equiv l (h <$> l).
Proof. intros Hh. induction l as [|n l IH]; cbn; [done|]. by constructor. Qed.

Lemma canonicalize_equiv r : record_equiv r (canonicalize (cloneRecord r)).
Proof.
  destruct r as [? ? ? [] ? ? ? rn ? ? [] ? ?]. split_and!; cbn; try done.
  - transitivity ((canonicalizeNode ∘ cloneNode) <$> rn); [apply nodes_equiv_fmap, canonicalizeNode_equiv|].
    rewrite list_fmap_compose. apply Permutation_PermutationA; [apply _|].
    by rewrite sort_by_Permutation.
  - symmetry. apply SortFunc_Permutation.
  - symmetry. apply SortFunc_Permutation.
  - symmetry. apply SortFunc_Permutation.
  - symmetry. apply slices_Sort_Permutation.
Qed.

Lemma decode_equiv r : record_equiv r (canonicalize r).
Proof.
  destruct r as [? ? ? [] ? ? ? rn ? ? [] ? ?]. split_and!; cbn; try done.
  - transitivity (canonicalizeNode <$> rn).
    + apply nodes_equiv_fmap. intros n. etrans; [apply canonicalizeNode_equiv|].
      by destruct n as [? ? ? ? ? ? ? ? ? ? [? ? ? ? ? ? ? ? ? [] ?] ? ? ?].
    + apply Permutation_PermutationA; [apply _|]. by rewrite sort_by_Permutation.
  - symmetry. apply SortFunc_Permutation.
  - symmetry. apply SortFunc_Permutation.
  - symmetry. apply SortFunc_Permutation.
  - symmetry. apply slices_Sort_Permutation.
Qed.

#[local] Instance compareSignatures_total : CmpTotal compareSignatures.
Proof.
  apply cmp_then_total. intros [k a v] [k' a' v']; unfold cmp_on; cbn. intros ->%Compare_eq.
  unfold cmp_then, cmp_on; cbn. destruct (strings_Compare a a' =? 0) eqn:E; cbn; [|intros H; case_bool; done].
  case_bool. apply Compare_eq in E as ->. intros ->%cmp_eq. done.
Qed.

#[local] Instance compareKV_total : CmpTotal compareKV.
Proof.
  apply cmp_then_total. intros [k v] [k' v']; unfold cmp_on; cbn. by intros ->%Compare_eq ->%Compare_eq.
Qed.

#[local] Instance sortSignatures_proper : Proper (Permutation ==> eq) sortSignatures.
Proof. intros l k. apply (SortFunc_unique compareSignatures). Qed.

Lemma canonicalizeNode_unique a b :
  NoDup (dep_names a) → node_equiv a b → canonicalizeNode (cloneNode a) = canonicalizeNode (cloneNode b).
Proof.
  intros Hnd (Hc & Hd & He & Hf & Ha).
  destruct a as [? ? ? ? ? ? ? ? ? ad [? ? ? ? ? ? ? ? ? [] aa] ? ? ?],
    b as [? ? ? ? ? ? ? ? ? bd [? ? ? ? ? ? ? ? ? [] ba] ? ? ?].
  injection Hc; clear Hc; intros; subst. unfold canonicalizeNode, with_lists, cloneNode. cbn in *.
  unfold changed_files, annotations in *. cbn in *.
  rewrite (sort_by_unique rq_Name ad bd), He, Hf by done. by rewrite (SortFunc_unique compareKV aa ba).
Qed.

Lemma nodes_canonical_Permutation l k :
  (∀ n, n ∈ l → NoDup (dep_names n)) → PermutationA node_equiv l k →
  (canonicalizeNode ∘ cloneNode) <$> l ≡ₚ (canonicalizeNode ∘ cloneNode) <$> k.
Proof.
  intros Hnd Hp. induction Hp as [|a b l k He _ IH|a b l|l m k H1 IH1 _ IH2].
  - done.
  - rewrite !fmap_cons. cbn [compose]. rewrite (canonicalizeNode_unique a b), IH; [done|set_solver..].
  - rewrite !fmap_cons. apply Permutation_swap.
  - rewrite IH1 by done. apply IH2. intros n Hn. symmetry in H1.
    destruct (nodes_equiv_elem _ _ n H1 Hn) as (x & Hx & He). rewrite (node_equiv_deps _ _ He). by apply Hnd.
Qed.

Lemma canonical_nodes l :
  NoDup (n_Name <$> l) →
  canonicalizeNode <$> sort_by n_Name (cloneNode <$> l) = sort_by n_Name ((canonicalizeNode ∘ cloneNode) <$> l).
Proof.
  intros Hnd. rewrite list_fmap_compose. apply fmap_sort_by; [done|]. by rewrite <-list_fmap_compose.
Qed.

(** Valid records that differ only in the order of order-free lists have one
    canonical form. *)
Lemma canonicalize_unique r s :
  record_wf r → record_equiv r s → canonicalize (cloneRecord r) = canonicalize (cloneRecord s).
Proof.
  intros Hw He. pose proof (record_wf_proper r s He Hw) as Hws.
  pose proof (cw_unique (rw_closure _ Hw)) as Hu. pose proof (cw_unique (rw_closure _ Hws)) as Hus.
  assert (∀ n, n ∈ r_Nodes r → NoDup (dep_names n)) as Hd by (intros n Hn; by apply (rw_node _ Hw n Hn)).
  clear Hw Hws. destruct He as (Hc & Hn & Hs & Hf & Hm & Hp).
  pose proof (nodes_canonical_Permutation _ _ Hd Hn) as Hperm.
  destruct r as [? ? ? [] ? ? ? rn ? ? [] ? ?], s as [? ? ? [] ? ? ? sn ? ? [] ? ?].
  injection Hc; clear Hc; intros; subst. unfold canonicalize, cloneRecord, with_record_lists. cbn in *.
  rewrite !canonical_nodes, Hs, Hf, Hm, Hp by done. f_equal. apply sort_by_unique; [|done].
  by rewrite <-list_fmap_compose.
Qed.

Lemma Canonical_ok r c : Canonical r = Ok c ↔ record_wf r ∧ c = canonicalize (cloneRecord r).
Proof.
  pose proof (canonicalize_equiv r) as He. unfold Canonical.
  destruct (Validate (canonicalize (cloneRecord r))) as [|e es] eqn:Ev.
  - apply Validate_nil in Ev. symmetry in He. split; [intros [= <-]; split; [by rewrite <-He|done]|].
    by intros [_ ->].
  - split; [done|]. intros [Hw _]. rewrite He in Hw. apply Validate_nil in Hw. congruence.
Qed.

End canonical.

Lemma cloneNode_canonical n : cloneNode (canonicalizeNode (cloneNode n)) = canonicalizeNode (cloneNode n).
Proof. done. Qed.

Lemma cloneRecord_canonical r : cloneRecord (canonicalize (cloneRecord r)) = canonicalize (cloneRecord r).
Proof.
  destruct r as [? ? ? [] ? ? ? rn ? ? [] ? ?]. unfold cloneRecord, canonicalize, with_record_lists. cbn.
  f_equal. rewrite <-list_fmap_compose. apply list_fmap_ext. intros i n Hn%list_elem_of_lookup_2.
  rewrite elem_of_sort_by, list_elem_of_fmap in Hn. by destruct Hn as (m & -> & _).
Qed.

(** ** Properties *)

(** C6: [Validate] reports no problem exactly when the record is well formed:
    every node is a complete core Formula with a target bottle whose layer
    digest is the signed checksum, node and dependency names are unique and
    closed, the install order is a permutation of the nodes that puts every
    dependency first (so the graph is acyclic), every node is needed by a
    requested root, and the header, runtime identity and attestation policy are
    as required. *)
Theorem Validate_iff `{U : !UnicodeTables, G : !GoDigest} r : Validate r = [] ↔ record_wf r.
Proof. apply Validate_nil. Qed.

(** The canonical form does not depend on the order of nodes, dependencies,
    executable paths, changed files, annotations, signatures or writable paths,
    nor on the in-memory policy marker: equivalent records are accepted alike
    and have the same canonical form, hence the same digest. *)
Theorem Canonical_order_free `{U : !UnicodeTables, G : !GoDigest} r s (Heq : record_equiv r s) c :
  Canonical r = Ok c ↔ Canonical s = Ok c.
Proof.
  assert (∀ r s, record_equiv r s → Canonical r = Ok c → Canonical s = Ok c) as Himp.
  { intros r1 r2 He. rewrite !Canonical_ok. intros [Hw ->]. split; [by rewrite <-He|]. by apply canonicalize_unique. }
  split; apply Himp; [done|by symmetry].
Qed.

(** A canonical record is a fixed point: encoding it again, or decoding it,
    gives the same record, so a digest survives a round trip; it carries the
    content of the record it came from, and only valid records have one. *)
Theorem Canonical_stable `{U : !UnicodeTables, G : !GoDigest} r c (Hc : Canonical r = Ok c) :
  Canonical c = Ok c ∧ Decode c = Ok c ∧ record_equiv r c ∧ Validate r = [].
Proof.
  apply Canonical_ok in Hc as [Hw ->]. pose proof (canonicalize_equiv r) as He.
  assert (record_wf (canonicalize (cloneRecord r))) as Hwc by (by rewrite <-He).
  assert (canonicalize (canonicalize (cloneRecord r)) = canonicalize (cloneRecord r)) as Hfix.
  { rewrite <-(cloneRecord_canonical r) at 1. symmetry. by apply canonicalize_unique. }
  split_and!; [|unfold Decode; rewrite Hfix|done|by apply Validate_nil].
  - apply Canonical_ok. split; [done|]. by rewrite cloneRecord_canonical, Hfix.
  - by rewrite (proj2 (Validate_nil _) Hwc).
Qed.

(** A record accepted for materialization is valid, was resolved from two
    documents that each carry a verified signature, and names its three
    components by references pinned to a SHA-256 digest and Homebrew by a full
    lower-case commit. *)
Theorem ValidateForMaterialization_pinned `{U : !UnicodeTables, G : !GoDigest, R : !DistributionReference} r
  (Hv : ValidateForMaterialization r = []) :
  record_wf r ∧
  (∃ sig, sig ∈ ms_FormulaSignatures (r_Metadata r) ∧ sg_Verified sig = true) ∧
  (∃ sig, sig ∈ ms_MigrationSignatures (r_Metadata r) ∧ sg_Verified sig = true) ∧
  Forall (λ ref, ∃ named d, reference_ParseNormalizedNamed ref = Some named ∧ ref_Digest named = Some d ∧ sha256_digest d)
    [cp_FrontendRef (r_Components r); cp_RuntimeBaseRef (r_Components r); cp_MaterializerRef (r_Components r)] ∧
  strlen (cp_HomebrewCommit (r_Components r)) = 40 ∧ isLowerHex (cp_HomebrewCommit (r_Components r)) = true.
Proof.
  unfold ValidateForMaterialization in Hv. autorewrite with errs in Hv.
  destruct Hv as (Hr & _ & _ & _ & _ & Hf & Hm & H1 & H2 & H3 & _ & [Hl Hx] & _).
  assert (∀ l, verified l = true → ∃ sig, sig ∈ l ∧ sg_Verified sig = true) as Hver.
  { intros l (sig & Hin & ?)%existsb_exists. exists sig. split; [by apply list_elem_of_In|done]. }
  assert (∀ ref, ValidatePinnedReference ref = Ok tt →
    ∃ named d, reference_ParseNormalizedNamed ref = Some named ∧ ref_Digest named = Some d ∧ sha256_digest d) as Hpin.
  { intros ref Href. unfold ValidatePinnedReference in Href. apply bind_ok in Href as (_ & _ & Href).
    destruct (reference_ParseNormalizedNamed ref) as [named|]; [|done].
    destruct (ref_Digest named) as [d|] eqn:Ed; [|done]. apply map_err_ok, validateDigest_ok in Href. by eauto. }
  split_and!; [by apply Validate_nil|by apply Hver..| |done|done].
  rewrite !Forall_cons. split_and!; [by apply Hpin..|constructor].
Qed.

(** ** A concrete record *)

(** SHA-256 digests only *)
Definition sha256_only : GoDigest :=
  {| digest_valid s := strings_HasPrefix s "sha256:" && (strlen s =? 71)
                       && all_bytes isHexLower (strings_TrimPrefix s "sha256:");
     digest_Algorithm s := (strings_Cut s ":").1.1 |}.

(** References of the form [repository@digest] *)
Definition pinned_only : DistributionReference :=
  {| reference_ParseNormalizedNamed s :=
       let '(name, d, found) := strings_Cut s "@" in
       if found : bool then Some (MkNamed "ghcr.io" name false (Some d)) else None |}.

Definition example_hex : string := "0123456789abcdef0123456789abcdef0123456789abcdef0123456789abcdef".
Definition example_digest : string := "sha256:" +:+ example_hex.

Definition example_descriptor (p : option Platform) : Descriptor :=
  MkDescriptor example_digest 10 "application/vnd.oci.image.layer.v1.tar+gzip" p ∅.

Definition example_node (name : string) (deps : list string) : Node :=
  MkNode name ("homebrew/core/" +:+ name) "1.0" 0 "1.0" 0 0 "MIT" false
    ((λ d, MkRequirement d "1.0" 0 0 true) <$> deps)
    (MkBottle "x86_64_linux" (name +:+ ".tar.gz") ("homebrew/core/" +:+ name)
       (example_descriptor None) (example_descriptor (Some (MkPlatform "linux" "amd64" "")))
       (example_descriptor None) (example_descriptor None) example_hex ":any"
       (MkBottleTab "4.0" "x86_64" "gcc" [] (MkBuiltOn "" "" "" "" "2.39") []) [])
    [] ("homebrew/core/" +:+ name) "".

Definition example_record (nodes : list Node) : Record_ :=
  MkRecord SchemaVersion PolicyVersion (MkInput example_digest "" (MkPlatform "linux" "amd64" ""))
    (MkMetadataSnapshot example_digest example_digest example_digest example_digest example_digest
       "signed-payload" "signed-payload" 1 1
       [] [MkSignature "homebrew-1" "PS512" true] [MkSignature "homebrew-1" "PS512" true] "" "")
    1 1 [MkRequestedRoot "jq" "jq" false] nodes ["oniguruma"; "jq"]
    (MkComponents ("frontend@" +:+ example_digest) ("base@" +:+ example_digest) ("materializer@" +:+ example_digest)
       "0123456789abcdef0123456789abcdef01234567" "ruby" example_digest "v1" "v1")
    (MkRuntimePolicy "" "linuxbrew" 1000 1000 [] [] "core2") (MkAttestationPolicy "" "homebrew-jws-and-verified-oci-chain-v1")
    example_digest.

Definition example_nodes : list Node := [example_node "jq" ["oniguruma"]; example_node "oniguruma" []].

Lemma Canonical_order_free_witness :
  ∃ c, @Canonical ascii_tables sha256_only (example_record example_nodes) = Ok c ∧
       @Canonical ascii_tables sha256_only (example_record (reverse example_nodes)) = Ok c.
Proof.
  eexists. split; [vm_compute; reflexivity|].
  apply (@Canonical_order_free ascii_tables sha256_only (example_record example_nodes) (example_record (reverse example_nodes))).
  - split_and!; try reflexivity. apply Permutation_PermutationA; [apply _|]. symmetry. apply reverse_Permutation.
  - vm_compute. reflexivity.
Defined.

Lemma Canonical_stable_witness :
  ∃ c, @Canonical ascii_tables sha256_only (example_record (reverse example_nodes)) = Ok c ∧
       @Decode ascii_tables sha256_only c = Ok c.
Proof.
  eexists. split; [vm_compute; reflexivity|].
  eapply (@Canonical_stable ascii_tables sha256_only (example_record (reverse example_nodes))).
  vm_compute. reflexivity.
Defined.

Lemma ValidateForMaterialization_pinned_witness :
  @record_wf ascii_tables sha256_only (example_record example_nodes).
Proof.
  apply (@ValidateForMaterialization_pinned ascii_tables sha256_only pinned_only (example_record example_nodes)).
  vm_compute. reflexivity.
Defined.
