(* ===== verification/OciReference.v ===== *)
(** * internal/homebrew/oci: references and authenticated identities

    [reference.go] and [identity.go]: from the authenticated Formula metadata to
    the one GHCR repository, index tag, child tag and file name the bottle may
    have, and the tap identity a public-tap bottle is bound to. With them the
    field checks of [client.go] they use. *)

From S2P Require Import Prelude GoStrings Regex Version FormulaId Metadata Resolution.
From stdpp Require Import options.
Local Open Scope Z_scope.

Definition GHCRRegistry : string := "ghcr.io".
Definition HomebrewCoreRepository : string := "homebrew/core".
Definition BottleTagX8664Linux : string := "x86_64_linux".
Definition BottleTagARM64Linux : string := "arm64_linux".
Definition BottleTagAll : string := "all".

(** ** Patterns *)

Definition alnum (c : ascii) : bool := isLower c || isDigit c.

Definition formulaNameRE : regex :=
  RCat (RCls alnum) (RStar (RCls (λ c, alnum c || one_of "@+._-" c))).

Definition repositorySegmentRE : regex :=
  RCat (RPlus (RCls alnum))
    (RStar (RCat (RAlt (RCls (one_of "._")) (RAlt (RStr "__") (RPlus (RCls (one_of "-")))))
                 (RPlus (RCls alnum)))).

Definition tag_first (c : ascii) : bool := isLower c || isUpper c || isDigit c || one_of "_" c.
Definition tag_rest (c : ascii) : bool := isLower c || isUpper c || isDigit c || one_of "._-" c.

Definition ociTagRE : regex := RCat (RCls tag_first) (RUpto 127 (RCls tag_rest)).

(** ** Data *)

Record BottleFile := MkBottleFile { obf_Cellar : string; obf_SHA256 : string }.

Record Formula := MkFormula {
  o_Name : string; o_FullName : string; o_StableVersion : string; o_Revision : Z;
  o_VersionScheme : Z; o_BottleRebuild : Z; o_License : string; o_KegOnly : bool;
  o_BottleFiles : gmap string BottleFile;
}.

Record FormulaReference := MkFormulaReference {
  fr_Name : string; fr_FullName : string; fr_PkgVersion : string; fr_Registry : string;
  fr_Repository : string; fr_CanonicalRepository : string; fr_IndexTag : string;
}.

Record AuthenticatedFormulaIdentity := MkIdentity {
  ai_id : FormulaID; ai_homebrewFullName : string; ai_sourceRepository : string;
  ai_sourceCommit : string; ai_formulaPath : string;
}.

Record AuthenticatedFormula := MkAuthenticatedFormula {
  af_Identity : AuthenticatedFormulaIdentity; af_BottleRootURL : string; af_StableVersion : string;
  af_Revision : Z; af_VersionScheme : Z; af_BottleRebuild : Z; af_License : string; af_KegOnly : bool;
  af_BottleFiles : gmap string BottleFile;
}.

Inductive oci_error :=
| InvalidName | InvalidVersionedName
| NotCoreIdentity | NegativeScheme | VersionWhitespace | UnsafeVersion | NegativeRevision
| NegativeRebuild | InvalidTag | UnsupportedBottleTag | EmptyBottleCellar
| ChecksumLength | ChecksumHex | ChecksumCase
| InvalidRepository | InvalidRepositorySegment (s : string) | RepositoryEscapes
| EmptyIdentity | BadIdentity (e : id_error) | NotCanonicalIdentity
| FullNameMismatch | SourceRepositoryMismatch | BadCommit
| SourcePathShape | SourcePathUnclean | SourcePathBase | SourcePathCharacter
| RootURLUnparsable | RootURLOtherTap | RootURLNotGHCR.

(** ** Field checks *)

Definition validBottleTag (tag : string) : bool :=
  bool_decide (tag = BottleTagX8664Linux) || bool_decide (tag = BottleTagARM64Linux) || bool_decide (tag = BottleTagAll).

Definition canonicalFullName (name : string) : string := HomebrewCoreRepository +:+ "/" +:+ name.

Definition validateFormulaName (name : string) : result oci_error unit :=
  _ ← check (negb (matches formulaNameRE name)) InvalidName;
  check ((1 <? strings_Count name "@")%nat || strings_HasSuffix name "@") InvalidVersionedName.

(** [hex.EncodeToString(decoded) != value]: a digit in upper case *)
Definition validateSHA256Hex (value : string) : result oci_error unit :=
  _ ← check (negb (strlen value =? 64)) ChecksumLength;
  _ ← check (negb (hex_decodable value)) ChecksumHex;
  check (negb (all_bytes isHexLower value)) ChecksumCase.

Definition validateBottleFile (tag : string) (file : BottleFile) : result oci_error unit :=
  _ ← check (negb (validBottleTag tag)) UnsupportedBottleTag;
  _ ← check (bool_decide (strings_TrimSpace (obf_Cellar file) = "")) EmptyBottleCellar;
  validateSHA256Hex (obf_SHA256 file).

(** The bytes of [/\\\x00\r\n\t ] that a version may not contain *)
Definition version_forbidden (c : ascii) : bool :=
  one_of "/\ " c || (byte c =? 0) || (byte c =? 13) || (byte c =? 10) || (byte c =? 9).

Definition PkgVersion (version : string) (revision : Z) : result oci_error string :=
  _ ← check (negb (bool_decide (strings_TrimSpace version = version)) || bool_decide (version = "")) VersionWhitespace;
  _ ← check (any_byte version_forbidden version) UnsafeVersion;
  _ ← check (revision <? 0) NegativeRevision;
  if revision =? 0 then Ok version else Ok (version +:+ "_" +:+ strconv_Itoa revision).

Definition IndexTag (pkgVersion : string) (rebuild : Z) : result oci_error string :=
  _ ← check (rebuild <? 0) NegativeRebuild;
  let tag := if 0 <? rebuild then pkgVersion +:+ "-" +:+ strconv_Itoa rebuild else pkgVersion in
  _ ← check (negb (matches ociTagRE tag)) InvalidTag;
  Ok tag.

Definition ChildTag (pkgVersion bottleTag : string) (rebuild : Z) : result oci_error string :=
  _ ← check (negb (validBottleTag bottleTag)) UnsupportedBottleTag;
  _ ← check (rebuild <? 0) NegativeRebuild;
  let base := pkgVersion +:+ "." +:+ bottleTag in
  let tag := if 0 <? rebuild then base +:+ "." +:+ strconv_Itoa rebuild else base in
  _ ← check (negb (matches ociTagRE tag)) InvalidTag;
  Ok tag.

Definition BottleFilename (name pkgVersion bottleTag : string) (rebuild : Z) : result oci_error string :=
  _ ← validateFormulaName name;
  _ ← IndexTag pkgVersion 0;
  _ ← check (negb (validBottleTag bottleTag)) UnsupportedBottleTag;
  _ ← check (rebuild <? 0) NegativeRebuild;
  let filename := name +:+ "--" +:+ pkgVersion +:+ "." +:+ bottleTag +:+ ".bottle" in
  let filename := if 0 <? rebuild then filename +:+ "." +:+ strconv_Itoa rebuild else filename in
  Ok (filename +:+ ".tar.gz").

Section unicode.
Context `{U : !UnicodeTables}.

Definition validateRepository (repository : string) : result oci_error unit :=
  _ ← check (bool_decide (repository = "") || (255 <? strlen repository)
             || negb (bool_decide (strings_ToLower repository = repository))) InvalidRepository;
  foldM_res (λ _ segment, check (negb (matches repositorySegmentRE segment)) (InvalidRepositorySegment segment))
    tt (strings_Split repository "/").

Definition EscapeFormulaName (name : string) : result oci_error string :=
  _ ← validateFormulaName name;
  let escaped := map_bytes escape_char name in
  _ ← validateRepository escaped;
  Ok escaped.

Definition RepositoryPath (name : string) : result oci_error string :=
  escaped ← EscapeFormulaName name;
  let repository := HomebrewCoreRepository +:+ "/" +:+ escaped in
  _ ← validateRepository repository;
  Ok repository.

Definition CanonicalRepository (name : string) : result oci_error string :=
  repository ← RepositoryPath name;
  Ok (GHCRRegistry +:+ "/" +:+ repository).

Definition validateFormulaIdentity (formula : Formula) : result oci_error unit :=
  _ ← validateFormulaName (o_Name formula);
  _ ← check (negb (bool_decide (o_FullName formula = "")) && negb (bool_decide (o_FullName formula = o_Name formula))
             && negb (bool_decide (o_FullName formula = canonicalFullName (o_Name formula)))) NotCoreIdentity;
  _ ← check (o_VersionScheme formula <? 0) NegativeScheme;
  _ ← PkgVersion (o_StableVersion formula) (o_Revision formula);
  check (o_BottleRebuild formula <? 0) NegativeRebuild.

Definition ResolveFormulaReference (formula : Formula) : result oci_error FormulaReference :=
  _ ← validateFormulaIdentity formula;
  repository ← RepositoryPath (o_Name formula);
  pkgVersion ← PkgVersion (o_StableVersion formula) (o_Revision formula);
  indexTag ← IndexTag pkgVersion (o_BottleRebuild formula);
  Ok (MkFormulaReference (o_Name formula) (canonicalFullName (o_Name formula)) pkgVersion GHCRRegistry
        repository (GHCRRegistry +:+ "/" +:+ repository) indexTag).

(** ** Authenticated identities (identity.go) *)

Definition validateFormulaID (id : FormulaID) : result oci_error unit :=
  _ ← check (bool_decide (FormulaID_String id = "")) EmptyIdentity;
  parsed ← map_err BadIdentity (Parse (FormulaID_String id));
  check (negb (bool_decide (parsed = id))) NotCanonicalIdentity.

Definition validateTap (tap : Tap) : result oci_error unit :=
  _ ← check (bool_decide (Tap_String tap = "")) EmptyIdentity;
  parsed ← map_err BadIdentity (ParseTap (Tap_String tap));
  check (negb (bool_decide (parsed = tap))) NotCanonicalIdentity.

Definition RepositoryPathForFormulaID (id : FormulaID) : result oci_error string :=
  _ ← validateFormulaID id;
  escaped ← EscapeFormulaName (id_name id);
  let prefix := tap_owner (id_tap id) +:+ "/" +:+ tap_name (id_tap id) in
  let repository := prefix +:+ "/" +:+ escaped in
  _ ← validateRepository repository;
  _ ← check (negb (strings_HasPrefix repository (prefix +:+ "/")) || bool_decide (repository = prefix)) RepositoryEscapes;
  Ok repository.

Definition CanonicalRepositoryForFormulaID (id : FormulaID) : result oci_error string :=
  repository ← RepositoryPathForFormulaID id;
  Ok (GHCRRegistry +:+ "/" +:+ repository).

Definition DefaultGitHubRepository (tap : Tap) : result oci_error string :=
  _ ← validateTap tap;
  Ok ("https://github.com/" +:+ tap_owner tap +:+ "/homebrew-" +:+ tap_name tap).

Definition HomebrewGHCRRootURL (tap : Tap) : result oci_error string :=
  _ ← validateTap tap;
  Ok ("https://" +:+ GHCRRegistry +:+ "/v2/" +:+ tap_owner tap +:+ "/" +:+ tap_name tap).

Definition validateSourceCommit (commit : string) : result oci_error unit :=
  _ ← check (negb (strlen commit =? 40)) BadCommit;
  check (negb (all_bytes isHexLower commit)) BadCommit.

Definition maxFormulaSourcePathBytes : Z := 1024.

Definition validateFormulaSourcePath (value formulaName : string) : result oci_error unit :=
  _ ← check (bool_decide (value = "") || (maxFormulaSourcePathBytes <? strlen value)
             || strings_HasPrefix value "/" || strings_Contains value "\") SourcePathShape;
  _ ← check (negb (bool_decide (path_Clean value = value)) || bool_decide (value = ".")
             || strings_HasPrefix value "../") SourcePathUnclean;
  _ ← check (negb (bool_decide (path_Base value = formulaName +:+ ".rb"))) SourcePathBase;
  check (negb (all_bytes (λ c, isLower c || isUpper c || isDigit c || one_of "/@+._-" c) value)) SourcePathCharacter.

Definition identity_validate (i : AuthenticatedFormulaIdentity) : result oci_error unit :=
  _ ← validateFormulaID (ai_id i);
  _ ← check (negb (bool_decide (ai_homebrewFullName i = FormulaID_String (ai_id i)))) FullNameMismatch;
  _ ← RepositoryPathForFormulaID (ai_id i);
  expectedRepository ← DefaultGitHubRepository (id_tap (ai_id i));
  _ ← check (negb (bool_decide (ai_sourceRepository i = expectedRepository))) SourceRepositoryMismatch;
  _ ← validateSourceCommit (ai_sourceCommit i);
  validateFormulaSourcePath (ai_formulaPath i) (id_name (ai_id i)).

Definition NewAuthenticatedFormulaIdentity (id : FormulaID)
    (homebrewFullName sourceRepository sourceCommit formulaPath : string) : result oci_error AuthenticatedFormulaIdentity :=
  let identity := MkIdentity id homebrewFullName sourceRepository sourceCommit formulaPath in
  _ ← identity_validate identity;
  Ok identity.

Definition Publisher (i : AuthenticatedFormulaIdentity) : string := tap_owner (id_tap (ai_id i)).

Definition SourceURL (i : AuthenticatedFormulaIdentity) : string :=
  if bool_decide (ai_sourceRepository i = "") || bool_decide (ai_sourceCommit i = "") || bool_decide (ai_formulaPath i = "")
  then "" else ai_sourceRepository i +:+ "/blob/" +:+ ai_sourceCommit i +:+ "/" +:+ ai_formulaPath i.

End unicode.

Section root.
Context `{U : !UnicodeTables, N : !NetURL}.

Definition MatchHomebrewGHCRRoot (rootURL : string) (tap : Tap) : result oci_error bool :=
  expected ← HomebrewGHCRRootURL tap;
  match url_Parse rootURL with
  | None => Err RootURLUnparsable
  | Some parsed =>
      let hostname := strings_TrimSuffix (strings_ToLower (url_Hostname parsed)) "." in
      if negb (bool_decide (hostname = GHCRRegistry)) then Ok false
      else _ ← check (negb (bool_decide (rootURL = expected))) RootURLOtherTap; Ok true
  end.

Definition validateAuthenticatedFormula (formula : AuthenticatedFormula) : result oci_error unit :=
  _ ← identity_validate (af_Identity formula);
  matches ← MatchHomebrewGHCRRoot (af_BottleRootURL formula) (id_tap (ai_id (af_Identity formula)));
  _ ← check (negb matches) RootURLNotGHCR;
  _ ← check (af_VersionScheme formula <? 0) NegativeScheme;
  _ ← PkgVersion (af_StableVersion formula) (af_Revision formula);
  check (af_BottleRebuild formula <? 0) NegativeRebuild.

Definition ResolveAuthenticatedFormulaReference (formula : AuthenticatedFormula) : result oci_error FormulaReference :=
  _ ← validateAuthenticatedFormula formula;
  let id := ai_id (af_Identity formula) in
  repository ← RepositoryPathForFormulaID id;
  pkgVersion ← PkgVersion (af_StableVersion formula) (af_Revision formula);
  indexTag ← IndexTag pkgVersion (af_BottleRebuild formula);
  Ok (MkFormulaReference (id_name id) (ai_homebrewFullName (af_Identity formula)) pkgVersion GHCRRegistry
        repository (GHCRRegistry +:+ "/" +:+ repository) indexTag).

End root.

(** ** Lemmas *)

#[global] Arguments validateFormulaName : simpl never.
#[global] Arguments validateTap : simpl never.
#[global] Arguments validateFormulaID : simpl never.
#[global] Arguments strconv_Itoa : simpl never.

(** Two strings cut at the first [c] agree before and after it. *)
Lemma cut_unique a1 b1 a2 b2 c :
  strings_Count a1 c = 0%nat → strings_Count a2 c = 0%nat →
  a1 +:+ String c b1 = a2 +:+ String c b2 → a1 = a2 ∧ b1 = b2.
Proof.
  intros H1 H2 He. pose proof (Cut_cons a1 b1 c H1) as Hc. rewrite He, Cut_cons in Hc by done. by injection Hc.
Qed.

Lemma app_inj_l_str a b c : a +:+ b = a +:+ c → b = c.
Proof. induction a as [|x a IH]; rewrite ?app_nil_l_str, ?app_cons_str; [done|]. intros [= ?]. auto. Qed.

Lemma app_length_inj a1 b1 a2 b2 :
  String.length a1 = String.length a2 → a1 +:+ b1 = a2 +:+ b2 → a1 = a2 ∧ b1 = b2.
Proof.
  revert a2. induction a1 as [|c a1 IH]; intros [|d a2]; cbn [String.length]; try done.
  rewrite !app_cons_str. intros [= Hl] [= -> He]. by destruct (IH a2 Hl He) as [-> ->].
Qed.

Lemma strip_no_slash s : strings_Count s "/" = 0%nat → strip_trailing_slashes s = s.
Proof.
  induction s as [|c s IH]; [done|]. cbn. intros Hc.
  destruct (ascii_eqb c "/"); [done|]. rewrite IH by done. by destruct s.
Qed.

(** A non-empty name without a separator is its own base name. *)
Lemma path_Base_id s : s ≠ "" → strings_Count s "/" = 0%nat → path_Base s = s.
Proof.
  intros Hne Hc. unfold path_Base. rewrite bool_decide_eq_false_2, strip_no_slash by done.
  destruct s; [done|]. by rewrite Split_no_sep.
Qed.

Lemma ContainsAny_false s chars :
  strings_ContainsAny s chars = false ↔ all_bytes (λ c, negb (strings_Contains chars c)) s = true.
Proof. unfold strings_ContainsAny. rewrite any_byte_all, negb_false_iff. done. Qed.

(** The bytes of a bottle file name *)
Definition name_byte (c : ascii) : bool := tag_rest c || one_of "@+" c.

Lemma name_byte_no_slash s : all_bytes name_byte s = true → strings_Count s "/" = 0%nat.
Proof. intros H. by eapply all_bytes_Count0. Qed.

Lemma name_byte_plain s : all_bytes name_byte s = true → strings_ContainsAny s "/\" = false.
Proof.
  rewrite ContainsAny_false. apply all_bytes_impl. intros c Hc. apply negb_true_iff.
  destruct (strings_Contains "/\" c) eqn:E; [|done]. unfold strings_Contains in E. cbn in E.
  rewrite !orb_true_iff, !ascii_eqb_eq in E. destruct E as [E|[E|[=]]]; subst c; vm_compute in Hc; done.
Qed.

Lemma alnum_name_byte c : alnum c || one_of "@+._-" c = true → name_byte c = true.
Proof.
  unfold alnum, name_byte, tag_rest, one_of, strings_Contains. cbn [any_byte]. intros H.
  repeat (apply orb_true_iff in H as [H|H]); rewrite ?H, ?orb_true_r; done.
Qed.

Lemma validateFormulaName_bytes name u :
  validateFormulaName name = Ok u → name ≠ "" ∧ all_bytes name_byte name = true.
Proof.
  unfold validateFormulaName. intros H. res_inv H. case_bool. unfold formulaNameRE in *.
  rewrite matches_cls_star in *. destruct name as [|c s]; [done|]. case_bool. split; [done|].
  change (name_byte c && all_bytes name_byte s = true).
  match goal with Hc : alnum c = true |- _ => rewrite (alnum_name_byte c), andb_true_l by (by rewrite Hc) end.
  eapply all_bytes_impl; [|done]. intros d. apply alnum_name_byte.
Qed.

Lemma matches_tag s : matches ociTagRE s = true → s ≠ "" ∧ all_bytes tag_rest s = true ∧ strlen s <= 128.
Proof.
  rewrite matches_spec. unfold ociTagRE. intros (s1 & s2 & -> & H1 & [H2 H3]%lang_upto_cls)%lang_cat_iff.
  inversion H1 as [|f c Hc| | | | |]; subst. rewrite app_cons_str, app_nil_l_str. split; [done|]. cbn [all_bytes].
  rewrite H2, andb_true_r. split.
  - unfold tag_first, tag_rest, one_of, strings_Contains in *. cbn [any_byte] in *.
    repeat (apply orb_true_iff in Hc as [Hc|Hc]); rewrite ?Hc, ?orb_true_r; done.
  - rewrite strlen_cons. unfold strlen. lia.
Qed.

Lemma tag_rest_name_byte s : all_bytes tag_rest s = true → all_bytes name_byte s = true.
Proof. apply all_bytes_impl. intros c. unfold name_byte. by intros ->. Qed.

Lemma digits_name_byte s : all_bytes isDigit s = true → all_bytes name_byte s = true.
Proof. apply all_bytes_impl. intros c Hc. unfold name_byte, tag_rest. by rewrite Hc, ?orb_true_r. Qed.

Lemma IndexTag_ok p r t :
  IndexTag p r = Ok t →
  0 <= r ∧ t = ImageTag p r ∧ matches ociTagRE t = true.
Proof.
  unfold IndexTag, ImageTag. intros H. res_inv H. case_bool. done.
Qed.

Lemma validBottleTag_bytes t : validBottleTag t = true → t ≠ "" ∧ all_bytes name_byte t = true.
Proof.
  unfold validBottleTag. intros H. repeat (apply orb_true_iff in H as [H|H]); apply bool_decide_eq_true in H; by subst t.
Qed.

(** The file name is one plain path element. *)
Lemma BottleFilename_ok name p t r f :
  BottleFilename name p t r = Ok f →
  f ≠ "" ∧ path_Base f = f ∧ strings_ContainsAny f "/\" = false ∧
  Version.BottleFilename name p t r = Ok f.
Proof.
  unfold BottleFilename. intros H. res_inv H.
  match goal with E : validateFormulaName _ = _ |- _ => pose proof E as Hv; apply validateFormulaName_bytes in E as [Hn Hnb] end.
  match goal with E : IndexTag _ _ = _ |- _ => apply IndexTag_ok in E as (_ & -> & Ht) end.
  unfold ImageTag in Ht. cbn in Ht. apply matches_tag in Ht as (Hp & Hpb%tag_rest_name_byte & _).
  case_bool.
  match goal with E : validBottleTag _ = true |- _ => apply validBottleTag_bytes in E as [Htne Htb] end.
  assert (Version.BottleFilename name p t r =
    Ok ((if 0 <? r then (name +:+ "--" +:+ p +:+ "." +:+ t +:+ ".bottle") +:+ "." +:+ strconv_Itoa r
         else name +:+ "--" +:+ p +:+ "." +:+ t +:+ ".bottle") +:+ ".tar.gz")) as Hver.
  { unfold Version.BottleFilename. assert (validName name = true) as ->.
    { unfold validName. rewrite (name_byte_plain name Hnb), andb_true_r.
      unfold validateFormulaName in Hv. res_inv Hv. case_bool. unfold formulaNameRE, safeName in *.
      rewrite matches_cls_star in *. destruct name as [|c s]; [done|]. case_bool. apply andb_true_iff. split; [done|].
      eapply all_bytes_impl; [|done]. intros d. unfold alnum, one_of, strings_Contains. cbn [any_byte]. intros Hd.
      repeat (apply orb_true_iff in Hd as [Hd|Hd]); rewrite ?Hd, ?orb_true_r; done. }
    assert (∀ s, s ≠ "" → all_bytes name_byte s = true → validComponent s = true) as Hcomp.
    { intros s Hs Hsb. unfold validComponent. rewrite (name_byte_plain s Hsb), orb_false_r.
      rewrite (path_Base_id s Hs (name_byte_no_slash s Hsb)). by rewrite !bool_decide_eq_false_2 by naive_solver. }
    rewrite !Hcomp by done. cbn. f_equal. destruct (0 <? r); rewrite !app_assoc_str; done. }
  set (f := (if 0 <? r then _ else _) +:+ ".tar.gz") in *.
  assert (all_bytes name_byte f = true) as Hb.
  { subst f. destruct (Z.ltb_spec 0 r); rewrite !all_bytes_app, Hnb, Hpb, Htb; cbn; [|done].
    destruct (Itoa_digits r) as [_ Hd]; [lia|]. by rewrite (digits_name_byte _ Hd). }
  assert (f ≠ "") as Hf.
  { subst f. destruct name; [done|]. by destruct (0 <? r); rewrite ?app_cons_str. }
  split_and!; [done| |by apply name_byte_plain|done]. apply path_Base_id; [done|]. by apply name_byte_no_slash.
Qed.

Lemma validateFormulaID_ok id : validateFormulaID id = Ok tt ↔ valid_id id.
Proof.
  unfold validateFormulaID. split.
  - intros H. res_inv H. case_bool. subst. by eapply Parse_ok_valid.
  - intros Hi. pose proof (Parse_valid id Hi) as Hp. rewrite Hp. cbn. rewrite bool_decide_eq_true_2 by done. cbn.
    rewrite bool_decide_eq_false_2; [done|]. intros He. by rewrite He in Hp.
Qed.

Lemma validateTap_ok t : validateTap t = Ok tt ↔ valid_tap t.
Proof.
  unfold validateTap. split.
  - intros H. res_inv H. case_bool. subst. by eapply ParseTap_ok_valid.
  - intros Ht. pose proof (ParseTap_valid t Ht) as Hp. rewrite Hp. cbn. rewrite bool_decide_eq_true_2 by done. cbn.
    rewrite bool_decide_eq_false_2; [done|]. intros He. by rewrite He in Hp.
Qed.

Lemma valid_tap_no_slash t :
  valid_tap t → strings_Count (tap_owner t) "/" = 0%nat ∧ strings_Count (tap_name t) "/" = 0%nat.
Proof.
  intros [(_ & Ho & _)%validateOwner_ok (_ & Hn & _)%validateTapName_ok]%valid_tap_parts. done.
Qed.

Lemma valid_id_no_slash i : valid_id i → strings_Count (id_name i) "/" = 0%nat.
Proof. intros [_ (_ & ? & _)%FormulaId.validateFormulaName_ok]. done. Qed.

(** [owner/tap/rest] determines the tap. *)
Lemma tap_prefix_unique t1 t2 r1 r2 :
  valid_tap t1 → valid_tap t2 →
  tap_owner t1 +:+ "/" +:+ tap_name t1 +:+ "/" +:+ r1 = tap_owner t2 +:+ "/" +:+ tap_name t2 +:+ "/" +:+ r2 →
  t1 = t2 ∧ r1 = r2.
Proof.
  intros [Ho1 Hn1]%valid_tap_no_slash [Ho2 Hn2]%valid_tap_no_slash He.
  apply cut_unique in He as [Ho He]; [|done..]. apply cut_unique in He as [Hn He]; [|done..].
  destruct t1, t2; cbn in *. by subst.
Qed.

Lemma escape_inj n1 n2 :
  strings_Count n1 "/" = 0%nat → strings_Count n2 "/" = 0%nat →
  strings_Count n1 "+" = 0%nat → strings_Count n2 "+" = 0%nat →
  map_bytes escape_char n1 = map_bytes escape_char n2 → n1 = n2.
Proof.
  revert n2. induction n1 as [|c n1 IH]; intros [|d n2]; cbn [map_bytes strings_Count]; try done.
  intros H1 H2 H3 H4 [= He Hr]. f_equal; [|apply IH; (done || lia)].
  unfold escape_char in He. destruct (ascii_eqb c "/") eqn:C1; [done|]. destruct (ascii_eqb d "/") eqn:D1; [done|].
  destruct (ascii_eqb c "+") eqn:C2; [done|]. destruct (ascii_eqb d "+") eqn:D2; [done|].
  destruct (ascii_eqb c "@") eqn:C3, (ascii_eqb d "@") eqn:D3; try done.
  - apply ascii_eqb_eq in C3, D3. by subst.
  - subst d. by rewrite ascii_eqb_refl in D1.
  - subst c. by rewrite ascii_eqb_refl in C1.
Qed.

Section identity.
Context `{U : !UnicodeTables}.

Lemma RepositoryPathForFormulaID_ok id r :
  RepositoryPathForFormulaID id = Ok r →
  valid_id id ∧ validateRepository r = Ok tt ∧
  r = tap_owner (id_tap id) +:+ "/" +:+ tap_name (id_tap id) +:+ "/" +:+ map_bytes escape_char (id_name id).
Proof.
  unfold RepositoryPathForFormulaID, EscapeFormulaName. intros H. res_inv H.
  match goal with E : validateFormulaID _ = Ok ?a |- _ => destruct a; apply validateFormulaID_ok in E end.
  split; [done|]. rewrite !app_assoc_str in *. split; [|done].
  match goal with E : validateRepository (tap_owner _ +:+ _) = Ok ?a |- _ => by destruct a end.
Qed.

Lemma identity_validate_ok i :
  identity_validate i = Ok tt →
  valid_id (ai_id i) ∧ ai_homebrewFullName i = FormulaID_String (ai_id i) ∧
  ai_sourceRepository i = "https://github.com/" +:+ tap_owner (id_tap (ai_id i)) +:+ "/homebrew-" +:+ tap_name (id_tap (ai_id i)) ∧
  strlen (ai_sourceCommit i) = 40 ∧ all_bytes isHexLower (ai_sourceCommit i) = true ∧
  ai_formulaPath i ≠ "" ∧ path_Base (ai_formulaPath i) = id_name (ai_id i) +:+ ".rb".
Proof.
  unfold identity_validate, DefaultGitHubRepository, validateSourceCommit, validateFormulaSourcePath.
  intros H. res_inv H. case_bool.
  match goal with E : validateFormulaID _ = Ok ?a |- _ => destruct a; apply validateFormulaID_ok in E end.
  done.
Qed.

Lemma app_inj_r_str a b c : a +:+ c = b +:+ c → a = b.
Proof.
  intros He. apply (f_equal String.length) in He as Hl. rewrite !length_app_str in Hl.
  apply app_length_inj in He as [? _]; [done|lia].
Qed.

(** ** Properties *)

(** The GHCR repository of a public-tap Formula is a valid repository
    inside [owner/tap/]; two identities that share one belong to the same tap,
    and they are the same Formula unless a name contains [+] (which Homebrew
    writes as [x]). *)
Theorem RepositoryPathForFormulaID_identifies i1 i2 r
  (H1 : RepositoryPathForFormulaID i1 = Ok r) (H2 : RepositoryPathForFormulaID i2 = Ok r) :
  validateRepository r = Ok tt ∧ id_tap i1 = id_tap i2 ∧
  (strings_Contains (id_name i1) "+" = false → strings_Contains (id_name i2) "+" = false → i1 = i2).
Proof.
  apply RepositoryPathForFormulaID_ok in H1 as (Hv1 & Hr & ->), H2 as (Hv2 & _ & He).
  apply tap_prefix_unique in He as [Ht He]; [|apply Hv1|apply Hv2]. split_and!; [done..|].
  intros Hc1%Contains_false_Count Hc2%Contains_false_Count.
  apply escape_inj in He; [|by apply valid_id_no_slash..|done|done].
  destruct i1, i2; cbn in *. by subst.
Qed.

(** Validated identities are determined by their source annotation: the
    URL [SourceURL] builds pins the tap, the commit, the path and, through the
    path's base name, the Formula. *)
Theorem SourceURL_identifies i1 i2
  (H1 : identity_validate i1 = Ok tt) (H2 : identity_validate i2 = Ok tt) (Hurl : SourceURL i1 = SourceURL i2) : i1 = i2.
Proof.
  apply identity_validate_ok in H1 as (Hv1 & Hf1 & Hs1 & Hl1 & _ & Hp1 & Hb1), H2 as (Hv2 & Hf2 & Hs2 & Hl2 & _ & Hp2 & Hb2).
  assert (∀ i : AuthenticatedFormulaIdentity, strlen (ai_sourceCommit i) = 40 → ai_formulaPath i ≠ "" →
    ai_sourceRepository i = "https://github.com/" +:+ tap_owner (id_tap (ai_id i)) +:+ "/homebrew-" +:+ tap_name (id_tap (ai_id i)) →
    SourceURL i = "https://github.com/" +:+ tap_owner (id_tap (ai_id i)) +:+ "/" +:+
      ("homebrew-" +:+ tap_name (id_tap (ai_id i))) +:+ "/" +:+ "blob/" +:+ ai_sourceCommit i +:+ "/" +:+ ai_formulaPath i) as Hform.
  { intros i Hl Hp Hr. unfold SourceURL. rewrite (bool_decide_eq_false_2 (ai_formulaPath i = "")) by done.
    rewrite (bool_decide_eq_false_2 (ai_sourceCommit i = "")) by (intros He; by rewrite He in Hl).
    rewrite Hr, (bool_decide_eq_false_2 (_ = "")) by (by rewrite app_cons_str). cbn [orb]. by rewrite !app_assoc_str. }
  rewrite !Hform in Hurl by done. apply app_inj_l_str in Hurl.
  destruct (valid_tap_no_slash _ (proj1 Hv1)) as [Ho1 Hn1], (valid_tap_no_slash _ (proj1 Hv2)) as [Ho2 Hn2].
  apply cut_unique in Hurl as [Ho Hurl]; [|done..].
  apply cut_unique in Hurl as [Hn Hurl]; [|by rewrite Count_app..].
  apply app_inj_l_str in Hn. apply app_inj_l_str in Hurl.
  apply app_length_inj in Hurl as [Hc Hp]; [|unfold strlen in *; lia]. apply app_inj_l_str in Hp.
  assert (id_name (ai_id i1) = id_name (ai_id i2)) as Hname.
  { rewrite Hp in Hb1. rewrite Hb1 in Hb2. by apply app_inj_r_str in Hb2. }
  destruct i1 as [[[] ?] ? ? ? ?], i2 as [[[] ?] ? ? ? ?]. cbn in *. by subst.
Qed.

End identity.

Lemma RepositoryPathForFormulaID_identifies_witness :
  validateRepository (U := ascii_tables) "azure/kubelogin/kubelogin" = Ok tt.
Proof.
  apply (RepositoryPathForFormulaID_identifies (U := ascii_tables)
    (MkFormulaID (MkTap "azure" "kubelogin") "kubelogin") (MkFormulaID (MkTap "azure" "kubelogin") "kubelogin"));
    vm_compute; reflexivity.
Defined.

Definition example_identity : AuthenticatedFormulaIdentity :=
  MkIdentity (MkFormulaID (MkTap "azure" "kubelogin") "kubelogin") "azure/kubelogin/kubelogin"
    "https://github.com/azure/homebrew-kubelogin" "0123456789abcdef0123456789abcdef01234567" "Formula/kubelogin.rb".

Lemma SourceURL_identifies_witness :
  identity_validate (U := ascii_tables) example_identity = Ok tt ∧ example_identity = example_identity.
Proof.
  split; [vm_compute; reflexivity|].
  apply (SourceURL_identifies (U := ascii_tables)); [vm_compute; reflexivity..|reflexivity].
Defined.

(** A bottle root that targets GHCR is accepted for exactly one tap and
    refused, not routed elsewhere, for every other: if it matches one tap, then
    for any other valid tap the answer is an error. *)
Theorem MatchHomebrewGHCRRoot_exact `{U : !UnicodeTables, N : !NetURL} rootURL t1 t2
  (H1 : MatchHomebrewGHCRRoot rootURL t1 = Ok true) (H2 : valid_tap t2) :
  HomebrewGHCRRootURL t1 = Ok rootURL ∧
  MatchHomebrewGHCRRoot rootURL t2 = (if bool_decide (t1 = t2) then Ok true else Err RootURLOtherTap).
Proof.
  unfold MatchHomebrewGHCRRoot in H1. apply bind_ok in H1 as (e1 & He1 & H1).
  destruct (url_Parse rootURL) as [u|] eqn:Eu; [|done].
  destruct (negb _) eqn:Eh in H1; [done|]. res_inv H1. case_bool. subst e1. split; [done|].
  unfold MatchHomebrewGHCRRoot. unfold HomebrewGHCRRootURL in *.
  rewrite (proj2 (validateTap_ok t2) H2). cbn [mbind result_bind]. rewrite Eu.
  match goal with E : _ = GHCRRegistry |- _ => rewrite E, (bool_decide_eq_true_2 (GHCRRegistry = GHCRRegistry)) by done end.
  cbn [negb]. apply bind_ok in He1 as ([] & Ht1%validateTap_ok & [= Hroot]).
  destruct (decide (t1 = t2)) as [<-|Ht].
  - by rewrite !bool_decide_eq_true_2.
  - rewrite !bool_decide_eq_false_2; [done..|]. intros Heq. apply Ht. rewrite <-Hroot in Heq.
    do 3 apply app_inj_l_str in Heq.
    apply (f_equal (λ s, s +:+ "/" +:+ "")) in Heq. rewrite !app_assoc_str in Heq.
    by destruct (tap_prefix_unique t1 t2 "" "" Ht1 H2 Heq).
Qed.

Lemma MatchHomebrewGHCRRoot_exact_witness :
  @MatchHomebrewGHCRRoot ascii_tables https_only "https://ghcr.io/v2/azure/kubelogin" (MkTap "azure" "kubelogin") = Ok true ∧
  @MatchHomebrewGHCRRoot ascii_tables https_only "https://ghcr.io/v2/azure/kubelogin" (MkTap "azure" "cli")
  = Err RootURLOtherTap.
Proof.
  split; [vm_compute; reflexivity|].
  apply (@MatchHomebrewGHCRRoot_exact ascii_tables https_only "https://ghcr.io/v2/azure/kubelogin"
    (MkTap "azure" "kubelogin") (MkTap "azure" "cli")); vm_compute; reflexivity.
Defined.

(** The two packages that name versions, tags and files agree: a package
    version, index tag or file name this package accepts is the one
    [internal/homebrew/version] builds, and the file name is a plain path
    element. *)
Theorem naming_agrees `{U : !UnicodeTables} name version revision rebuild tag p t f
  (Hp : PkgVersion version revision = Ok p) (Ht : IndexTag p rebuild = Ok t)
  (Hf : BottleFilename name p tag rebuild = Ok f) :
  p = Version.PkgVersion version revision ∧ t = ImageTag p rebuild ∧
  Version.BottleFilename name p tag rebuild = Ok f ∧
  path_Base f = f ∧ strings_ContainsAny f "/\" = false.
Proof.
  apply BottleFilename_ok in Hf as (_ & ? & ? & ?). apply IndexTag_ok in Ht as (_ & ? & _).
  split_and!; [|done..]. unfold PkgVersion in Hp. unfold Version.PkgVersion. res_inv Hp.
  case_bool. destruct (Z.eqb_spec revision 0), (Z.ltb_spec 0 revision); try lia; congruence.
Qed.

Lemma naming_agrees_witness :
  path_Base "python@3.14--3.14.2_1.x86_64_linux.bottle.2.tar.gz" = "python@3.14--3.14.2_1.x86_64_linux.bottle.2.tar.gz".
Proof.
  apply (@naming_agrees ascii_tables "python@3.14" "3.14.2" 1 2 "x86_64_linux" "3.14.2_1" "3.14.2_1-2");
    vm_compute; reflexivity.
Defined.
