(* ===== verification/OciResolve.v ===== *)
(** * internal/homebrew/oci: selecting and verifying a bottle

    [resolve.go] and the response checks of [client.go]: from an authenticated
    Formula and a target platform, through the OCI index, the selected child
    manifest and the image config, to a [Result] whose descriptor chain was
    verified, and on to the node of the resolution record. The registry's
    answers, the hash and the decoding of JSON text are the interface
    [RegistryClient]. *)

From S2P Require Import Prelude GoStrings Regex FormulaId Metadata Resolution OciReference.
From stdpp Require Import options.
Local Open Scope Z_scope.

(** ** github.com/opencontainers/image-spec: the fields the program reads *)

Definition MediaTypeImageIndex : string := "application/vnd.oci.image.index.v1+json".
Definition MediaTypeImageManifest : string := "application/vnd.oci.image.manifest.v1+json".
Definition MediaTypeImageConfig : string := "application/vnd.oci.image.config.v1+json".
Definition MediaTypeImageLayerGzip : string := "application/vnd.oci.image.layer.v1.tar+gzip".
Definition AnnotationTitle : string := "org.opencontainers.image.title".
Definition AnnotationVersion : string := "org.opencontainers.image.version".
Definition AnnotationRefName : string := "org.opencontainers.image.ref.name".
Definition AnnotationVendor : string := "org.opencontainers.image.vendor".
Definition AnnotationSource : string := "org.opencontainers.image.source".
Definition AnnotationRevision : string := "org.opencontainers.image.revision".

Record OPlatform := MkOPlatform {
  op_OS : string; op_Architecture : string; op_Variant : string; op_OSFeatures : list string;
}.

Record ODescriptor := MkODescriptor {
  od_MediaType : string; od_Digest : string; od_Size : Z; od_URLs : list string;
  od_Annotations : gmap string string; od_Data : string; od_Platform : option OPlatform;
  od_ArtifactType : string;
}.

Record Index := MkIndex {
  ix_SchemaVersion : Z; ix_MediaType : string; ix_ArtifactType : string;
  ix_Manifests : list ODescriptor; ix_Subject : option ODescriptor; ix_Annotations : gmap string string;
}.

Record Manifest := MkManifest {
  mf_SchemaVersion : Z; mf_MediaType : string; mf_ArtifactType : string; mf_Config : ODescriptor;
  mf_Layers : list ODescriptor; mf_Subject : option ODescriptor; mf_Annotations : gmap string string;
}.

Record Image := MkImage {
  im_Architecture : string; im_OS : string; im_RootFSType : string; im_DiffIDs : list string;
}.

(** ** The package's own data *)

Definition annotationPackageType : string := "com.github.package.type".
Definition annotationBottleDigest : string := "sh.brew.bottle.digest".
Definition annotationBottleSize : string := "sh.brew.bottle.size".
Definition annotationBottleTab : string := "sh.brew.tab".
Definition annotationPathExecFiles : string := "sh.brew.path_exec_files".
Definition homebrewBottlePackageType : string := "homebrew_bottle".

Record Limits := MkLimits { lim_IndexBytes : Z; lim_ManifestBytes : Z; lim_ConfigBytes : Z; lim_BlobBytes : Z }.

Definition DefaultLimits : Limits :=
  MkLimits (Z.shiftl 4 20) (Z.shiftl 4 20) (Z.shiftl 1 20) (Z.shiftl 8 30).

Record bottleBuiltOnWire := MkBuiltOnWire {
  bw_OS : string; bw_OSVersion : string; bw_CPUFamily : string; bw_OldestCPUFamily : string; bw_GlibcVersion : string;
}.

#[export] Instance bottleBuiltOnWire_eq_dec : EqDecision bottleBuiltOnWire.
Proof. solve_decision. Defined.

(** [dw_PkgVersion] is the raw member: absent, or any JSON value. *)
Record runtimeDependencyWire := MkDependencyWire {
  dpw_FullName : string; dpw_Version : string; dpw_Revision : Z; dpw_BottleRebuild : Z;
  dpw_PkgVersion : option json; dpw_DeclaredDirectly : bool;
}.

Record bottleTabWire := MkTabWire {
  tw_HomebrewVersion : string; tw_Arch : string; tw_Compiler : string; tw_ChangedFiles : list string;
  tw_BuiltOn : bottleBuiltOnWire; tw_Dependencies : list runtimeDependencyWire;
}.

(** A registry response: [rs_Body] is [None] when reading it fails,
    [rs_ContentLength] is -1 when the length is unknown. *)
Record Response := MkResponse {
  rs_StatusCode : Z; rs_ContentEncoding : string; rs_ContentType : string; rs_ContentLength : Z;
  rs_DigestHeader : string; rs_Body : option string;
}.

Record Content := MkContent { ct_Descriptor : ODescriptor; ct_Bytes : string }.

(** What the model takes from outside: the authenticated HTTP exchange
    ([doRegistryGET], by repository, kind, reference and accepted type),
    [digest.FromBytes], [mime.ParseMediaType], and JSON text decoded into the
    types above ([decode_members] keeps the top-level members apart). *)
Class RegistryClient := {
  doRegistryGET : string → string → string → string → option Response;
  digest_FromBytes : string → string;
  mime_ParseMediaType : string → option string;
  decode_index : string → option Index;
  decode_manifest : string → option Manifest;
  decode_config : string → option Image;
  decode_members : string → option (gmap string json);
  decode_tab : string → option bottleTabWire;
}.

(** Documented behaviour of the hash and of the JSON decoder: [FromBytes] gives
    a valid SHA-256 digest, and empty input is not JSON. *)
Class RegistryLaws `{!GoDigest, !RegistryClient} : Prop := {
  FromBytes_sha256 b : sha256_digest (digest_FromBytes b);
  decode_index_empty : decode_index "" = None;
}.

Inductive fetch_error :=
| FetchTag | FetchDescriptor | FetchURL | FetchTransport | FetchStatus | FetchEncoding
| FetchNoContentType | FetchBadContentType | FetchMediaType | FetchLengthLimit | FetchLengthMismatch
| FetchRead | FetchTooLarge | FetchAlgorithm | FetchHeaderDigest | FetchSize | FetchDigest.

Inductive resolve_error :=
| RReference (e : oci_error)
| RTargetPlatform | RTargetVariant
| RNoBottle
| RFetch (what : string) (e : fetch_error)
| RDecode (what : string)
| RSchema | RMediaType | RArtifact | RNoManifests | RAnnotation (key : string) | RSource | REmptyName
| RIdentity (e : oci_error)
| RDescriptor (what : string) | RNoRefName | RDuplicateRefName (s : string) | RNoChild
| RPlatform | RChecksum (e : oci_error) | RChecksumMismatch | RSizeAnnotation | RSizeLimit | RNoTab
| RTabNoVersion | RTabNoDependencies | RTabNullDependencies | RTabEmptyVersion | RTabAll | RTabArch | RTabOS
| RDependency (e : oci_error) | RDependencyId (e : id_error) | RDependencyOutside | RDependencyDuplicate (s : string)
| RDependencyNull | RDependencyPkgVersion | RDependencyRebuild
| RChangedFile (s : string) | RExecutable (s : string)
| RConfigPlatform | RLayerCount | RLayerPlatform | RManifestAnnotation (key : string)
| RLayerDigest | RLayerSize | RLayerTitle
| RConfigEmpty | RConfigRootFS | RConfigDiffIDs.

(** A missing annotation reads as the empty string. *)
Definition annotation (m : gmap string string) (key : string) : string := default "" (m !! key).

(** ** Field checks *)

Section checks.
Context `{U : !UnicodeTables, G : !GoDigest}.

Definition parseSHA256Digest (value : string) : result digest_error string :=
  _ ← check (negb (digest_valid value)) DigestMalformed;
  _ ← check (negb (bool_decide (digest_Algorithm value = "sha256"))) DigestNotSHA256;
  _ ← check (negb (digest_valid value)) DigestMalformed;
  Ok value.

Definition validateDescriptor (d : ODescriptor) (mediaType : string) (limit : Z) : bool :=
  negb ((negb (bool_decide (mediaType = "")) && negb (bool_decide (od_MediaType d = mediaType)))
        || bool_decide (od_MediaType d = "")
        || negb (is_ok (parseSHA256Digest (od_Digest d)))
        || (od_Size d <=? 0) || (limit <? od_Size d)
        || negb (bool_decide (od_Data d = "")) || negb (bool_decide (length (od_URLs d) = 0%nat))
        || negb (bool_decide (od_ArtifactType d = ""))).

Definition validateTarget (target : OPlatform) : result resolve_error unit :=
  _ ← check (negb (bool_decide (op_OS target = "linux"))
             || (negb (bool_decide (op_Architecture target = "amd64")) && negb (bool_decide (op_Architecture target = "arm64"))))
        RTargetPlatform;
  check (negb (bool_decide (op_Variant target = "")) || negb (bool_decide (length (op_OSFeatures target) = 0%nat))) RTargetVariant.

Definition targetBottleTag (target : OPlatform) : result resolve_error string :=
  _ ← validateTarget target;
  Ok (if bool_decide (op_Architecture target = "arm64") then BottleTagARM64Linux else BottleTagX8664Linux).

Definition selectBottleFileFromMap (files : gmap string BottleFile) (target : OPlatform)
    : result resolve_error (string * BottleFile) :=
  targetTag ← targetBottleTag target;
  match files !! targetTag with
  | Some file => _ ← map_err RReference (validateBottleFile targetTag file); Ok (targetTag, file)
  | None =>
      match files !! BottleTagAll with
      | Some file => _ ← map_err RReference (validateBottleFile BottleTagAll file); Ok (BottleTagAll, file)
      | None => Err RNoBottle
      end
  end.

(** ** Annotations *)

Definition expect_annotation (m : gmap string string) (entry : string * string) : result resolve_error unit :=
  check (negb (bool_decide (annotation m entry.1 = entry.2))) (RAnnotation entry.1).

(** The first loop is over a map literal, in an unspecified order. *)
Definition validateCommonAnnotations (m : gmap string string) (formulaName pkgVersion refName title : string)
    : result resolve_error unit :=
  _ ← foldM_res (λ _ e, expect_annotation m e) tt
        [(annotationPackageType, homebrewBottlePackageType); (AnnotationTitle, title);
         (AnnotationVersion, pkgVersion); (AnnotationRefName, refName)];
  _ ← check (negb (strings_EqualFold (annotation m AnnotationVendor) "homebrew")) (RAnnotation AnnotationVendor);
  _ ← check (negb (strings_HasPrefix (strings_ToLower (annotation m AnnotationSource))
                     "https://github.com/homebrew/homebrew-core/")) RSource;
  check (bool_decide (formulaName = "")) REmptyName.

Definition validateAuthenticatedCommonAnnotations (m : gmap string string) (identity : AuthenticatedFormulaIdentity)
    (pkgVersion refName title : string) : result resolve_error unit :=
  _ ← map_err RIdentity (identity_validate identity);
  foldM_res (λ _ e, expect_annotation m e) tt
    [(annotationPackageType, homebrewBottlePackageType); (AnnotationVendor, Publisher identity); (AnnotationTitle, title);
     (AnnotationVersion, pkgVersion); (AnnotationRefName, refName); (AnnotationRevision, ai_sourceCommit identity);
     (AnnotationSource, SourceURL identity)].

(** [strconv.ParseInt(value, 10, 64)] accepts what [strconv.Atoi] accepts; the
    comparison with [FormatInt] leaves only the canonical spelling. *)
Definition parseCanonicalPositiveInt (value : string) : result resolve_error Z :=
  _ ← check (bool_decide (value = "")) RSizeAnnotation;
  match strconv_Atoi value with
  | Err _ => Err RSizeAnnotation
  | Ok parsed =>
      _ ← check ((parsed <=? 0) || negb (bool_decide (strconv_Itoa parsed = value))) RSizeAnnotation;
      Ok parsed
  end.

Definition validateSelectedAnnotations (m : gmap string string) (bottleFile : BottleFile) (maxLayerBytes : Z) (childTag : string)
    : result resolve_error unit :=
  _ ← check (negb (bool_decide (annotation m AnnotationRefName = childTag))) (RAnnotation AnnotationRefName);
  let checksum := annotation m annotationBottleDigest in
  _ ← map_err RChecksum (validateSHA256Hex checksum);
  _ ← check (negb (bool_decide (checksum = obf_SHA256 bottleFile))) RChecksumMismatch;
  let rawSize := annotation m annotationBottleSize in
  _ ← (if bool_decide (rawSize = "") then Ok tt
       else size ← parseCanonicalPositiveInt rawSize; check (maxLayerBytes <? size) RSizeLimit);
  check (bool_decide (strings_TrimSpace (annotation m annotationBottleTab) = "")) RNoTab.

Definition validateSelectedPlatform (platform : option OPlatform) (target : OPlatform) (allBottle : bool)
    : result resolve_error unit :=
  if allBottle then match platform with Some _ => Err RPlatform | None => Ok tt end
  else match platform with
       | None => Err RPlatform
       | Some p =>
           _ ← check (negb (bool_decide (op_OS p = op_OS target)) || negb (bool_decide (op_Architecture p = op_Architecture target))) RPlatform;
           check (negb (bool_decide (op_Variant p = "")) || negb (bool_decide (length (op_OSFeatures p) = 0%nat))) RPlatform
       end.

(** ** The bottle tab *)

Definition canonicalDependencyName (fullName : string) : result resolve_error string :=
  let prefix := HomebrewCoreRepository +:+ "/" in
  if strings_HasPrefix fullName prefix then
    let name := strings_TrimPrefix fullName prefix in
    _ ← map_err RDependency (validateFormulaName name); Ok name
  else
    _ ← check (strings_Contains fullName "/") RDependencyOutside;
    _ ← map_err RDependency (validateFormulaName fullName); Ok fullName.

Definition canonicalAuthenticatedDependencyName (fullName : string) : result resolve_error string :=
  id ← map_err RDependencyId (Parse fullName);
  Ok (FormulaID_String id).

Definition dependency_pkgVersion (expected : string) (raw : option json) : result resolve_error string :=
  match raw with
  | None => Ok expected
  | Some JNull => Err RDependencyNull
  | Some (JString s) => _ ← check (negb (bool_decide (s = expected))) RDependencyPkgVersion; Ok s
  | Some _ => Err RDependencyPkgVersion
  end.

Fixpoint tab_dependencies (canonicalize : string → result resolve_error string) (seen : gset string)
    (l : list runtimeDependencyWire) : result resolve_error (list RuntimeDependency) :=
  match l with
  | [] => Ok []
  | d :: l =>
      name ← canonicalize (dpw_FullName d);
      _ ← check (bool_decide (name ∈ seen)) (RDependencyDuplicate name);
      expected ← map_err RDependency (OciReference.PkgVersion (dpw_Version d) (dpw_Revision d));
      pkgVersion ← dependency_pkgVersion expected (dpw_PkgVersion d);
      _ ← check (dpw_BottleRebuild d <? 0) RDependencyRebuild;
      rest ← tab_dependencies canonicalize ({[name]} ∪ seen) l;
      Ok (MkRuntimeDependency name (dpw_Version d) (dpw_Revision d) (dpw_BottleRebuild d) pkgVersion (dpw_DeclaredDirectly d) :: rest)
  end.

(** A loop that refuses bad and repeated entries *)
Fixpoint accept_unique (bad : string → bool) (e : string → resolve_error) (seen : gset string) (l : list string)
    : result resolve_error unit :=
  match l with
  | [] => Ok tt
  | v :: l =>
      _ ← check (bad v) (e v);
      _ ← check (bool_decide (v ∈ seen)) (e v);
      accept_unique bad e ({[v]} ∪ seen) l
  end.

Definition bad_changed_file (v : string) : bool :=
  bool_decide (v = "") || path_IsAbs v || strings_Contains v "\" || negb (bool_decide (path_Clean v = v))
  || bool_decide (v = ".") || strings_HasPrefix v "../".

Definition validateChangedFiles (values : list string) : result resolve_error (list string) :=
  _ ← accept_unique bad_changed_file RChangedFile ∅ values;
  Ok (slices_Sort values).

Definition exec_forbidden (c : ascii) : bool :=
  one_of "\" c || (byte c =? 0) || (byte c =? 13) || (byte c =? 10).

Definition bad_executable (item : string) : bool :=
  bool_decide (item = "") || negb (bool_decide (strings_TrimSpace item = item)) || any_byte exec_forbidden item
  || path_IsAbs item || negb (bool_decide (path_Clean item = item)) || bool_decide (item = ".")
  || bool_decide (item = "..") || strings_HasPrefix item "../".

Definition parseExecutablePaths (value : string) : result resolve_error (list string) :=
  if bool_decide (value = "") then Ok []
  else
    _ ← accept_unique bad_executable RExecutable ∅ (strings_Split value ",");
    Ok (slices_Sort (strings_Split value ",")).

End checks.

Definition empty_built_on : bottleBuiltOnWire := MkBuiltOnWire "" "" "" "" "".

Section tab.
Context `{U : !UnicodeTables, G : !GoDigest, C : !RegistryClient}.

Definition parseBottleTabWith (canonicalize : string → result resolve_error string)
    (value : string) (target : OPlatform) (allBottle : bool) : result resolve_error BottleTab :=
  rawFields ← match decode_members value with Some m => Ok m | None => Err (RDecode annotationBottleTab) end;
  _ ← check (bool_decide (rawFields !! "homebrew_version" = None)) RTabNoVersion;
  rawDependencies ← match rawFields !! "runtime_dependencies" with Some j => Ok j | None => Err RTabNoDependencies end;
  _ ← check (match rawDependencies with JNull => true | _ => false end) RTabNullDependencies;
  wire ← match decode_tab value with Some w => Ok w | None => Err (RDecode annotationBottleTab) end;
  _ ← check (bool_decide (strings_TrimSpace (tw_HomebrewVersion wire) = "")) RTabEmptyVersion;
  _ ← (if allBottle then
         check (negb (bool_decide (tw_Arch wire = "")) || negb (bool_decide (tw_BuiltOn wire = empty_built_on))) RTabAll
       else
         let expectedArch := if bool_decide (op_Architecture target = "arm64") then "arm64" else "x86_64" in
         _ ← check (negb (bool_decide (tw_Arch wire = expectedArch))) RTabArch;
         check (negb (bool_decide (bw_OS (tw_BuiltOn wire) = "Linux"))) RTabOS);
  dependencies ← tab_dependencies canonicalize ∅ (tw_Dependencies wire);
  changed ← validateChangedFiles (tw_ChangedFiles wire);
  let b := tw_BuiltOn wire in
  Ok (MkBottleTab (tw_HomebrewVersion wire) (tw_Arch wire) (tw_Compiler wire) changed
        (MkBuiltOn (bw_OS b) (bw_OSVersion b) (bw_CPUFamily b) (bw_OldestCPUFamily b) (bw_GlibcVersion b))
        (sort_by rd_FullName dependencies)).

Definition parseBottleTab := parseBottleTabWith canonicalDependencyName.

Definition parseAuthenticatedBottleTab := parseBottleTabWith canonicalAuthenticatedDependencyName.

(** ** The index, the manifest and the config *)

(** The loop over the child descriptors: [selected] is the last child whose
    ref-name is the expected tag. *)
Fixpoint select_child (limits : Limits) (childTag : string) (seenReferences : gset string) (selected : option ODescriptor)
    (l : list ODescriptor) : result resolve_error (option ODescriptor) :=
  match l with
  | [] => Ok selected
  | d :: l =>
      _ ← check (negb (validateDescriptor d MediaTypeImageManifest (lim_ManifestBytes limits))) (RDescriptor "child");
      let refName := annotation (od_Annotations d) AnnotationRefName in
      _ ← check (bool_decide (refName = "")) RNoRefName;
      _ ← check (bool_decide (refName ∈ seenReferences)) (RDuplicateRefName refName);
      select_child limits childTag ({[refName]} ∪ seenReferences)
        (if bool_decide (refName = childTag) then Some d else selected) l
  end.

Definition commonAnnotationValidator : Type := gmap string string → string → string → string → result resolve_error unit.
Definition bottleTabParser : Type := string → OPlatform → bool → result resolve_error BottleTab.

Definition validateAndSelectIndexWith (limits : Limits) (index : Index) (reference : FormulaReference) (target : OPlatform)
    (selectedBottleTag childTag : string) (bottleFile : BottleFile) (indexTitle : string)
    (validateAnnotations : commonAnnotationValidator) (parseTab : bottleTabParser)
    : result resolve_error (ODescriptor * BottleTab * list string) :=
  _ ← check (negb (ix_SchemaVersion index =? 2)) RSchema;
  _ ← check (negb (bool_decide (ix_MediaType index = "")) && negb (bool_decide (ix_MediaType index = MediaTypeImageIndex))) RMediaType;
  _ ← check (negb (bool_decide (ix_ArtifactType index = "")) || match ix_Subject index with Some _ => true | None => false end) RArtifact;
  _ ← check (bool_decide (length (ix_Manifests index) = 0%nat)) RNoManifests;
  _ ← validateAnnotations (ix_Annotations index) (fr_PkgVersion reference) (fr_IndexTag reference) indexTitle;
  selected ← select_child limits childTag ∅ None (ix_Manifests index);
  selected ← match selected with Some d => Ok d | None => Err RNoChild end;
  let allBottle := bool_decide (selectedBottleTag = BottleTagAll) in
  _ ← validateSelectedPlatform (od_Platform selected) target allBottle;
  _ ← validateSelectedAnnotations (od_Annotations selected) bottleFile (lim_BlobBytes limits) childTag;
  tab ← parseTab (annotation (od_Annotations selected) annotationBottleTab) target allBottle;
  executablePaths ← parseExecutablePaths (annotation (od_Annotations selected) annotationPathExecFiles);
  Ok (selected, tab, executablePaths).

(** [for key, expected := range selected.Annotations]: a missing or different
    annotation of the manifest fails, in an unspecified order. *)
Definition same_annotations (selected manifest : gmap string string) : result resolve_error unit :=
  foldM_res (λ _ e, check (negb (bool_decide (manifest !! e.1 = Some e.2))) (RManifestAnnotation e.1)) tt (map_to_list selected).

(** [validateManifestWith]: on success the bottle layer, [manifest.Layers[0]] *)
Definition validateManifestWith (limits : Limits) (manifest : Manifest) (reference : FormulaReference) (selected : ODescriptor)
    (childTag filename : string) (bottleFile : BottleFile) (manifestTitle : string)
    (validateAnnotations : commonAnnotationValidator) : result resolve_error ODescriptor :=
  _ ← check (negb (mf_SchemaVersion manifest =? 2)) RSchema;
  _ ← check (negb (bool_decide (mf_MediaType manifest = "")) && negb (bool_decide (mf_MediaType manifest = MediaTypeImageManifest))) RMediaType;
  _ ← check (negb (bool_decide (mf_ArtifactType manifest = "")) || match mf_Subject manifest with Some _ => true | None => false end) RArtifact;
  _ ← check (negb (validateDescriptor (mf_Config manifest) MediaTypeImageConfig (lim_ConfigBytes limits))) (RDescriptor "config");
  _ ← check (match od_Platform (mf_Config manifest) with Some _ => true | None => false end) RConfigPlatform;
  layer ← match mf_Layers manifest with [layer] => Ok layer | _ => Err RLayerCount end;
  _ ← check (negb (validateDescriptor layer MediaTypeImageLayerGzip (lim_BlobBytes limits))) (RDescriptor "layer");
  _ ← check (match od_Platform layer with Some _ => true | None => false end) RLayerPlatform;
  _ ← validateAnnotations (mf_Annotations manifest) (fr_PkgVersion reference) childTag manifestTitle;
  _ ← same_annotations (od_Annotations selected) (mf_Annotations manifest);
  _ ← check (negb (bool_decide (annotation (mf_Annotations manifest) annotationBottleDigest = obf_SHA256 bottleFile))) RChecksumMismatch;
  _ ← check (negb (bool_decide (od_Digest layer = "sha256:" +:+ obf_SHA256 bottleFile))) RLayerDigest;
  let rawSize := annotation (mf_Annotations manifest) annotationBottleSize in
  _ ← (if bool_decide (rawSize = "") then Ok tt
       else size ← parseCanonicalPositiveInt rawSize; check (negb (od_Size layer =? size)) RLayerSize);
  _ ← check (negb (bool_decide (annotation (od_Annotations layer) AnnotationTitle = filename))) RLayerTitle;
  Ok layer.

Definition validateConfig (config : Image) (target : OPlatform) (allBottle : bool) : result resolve_error unit :=
  _ ← check (bool_decide (im_Architecture config = "") || bool_decide (im_OS config = "")) RConfigEmpty;
  _ ← (if allBottle then
         _ ← check (negb (bool_decide (im_Architecture config = "amd64")) && negb (bool_decide (im_Architecture config = "arm64"))) RConfigPlatform;
         check (negb (bool_decide (im_OS config = "linux")) && negb (bool_decide (im_OS config = "darwin"))) RConfigPlatform
       else
         check (negb (bool_decide (im_Architecture config = op_Architecture target)) || negb (bool_decide (im_OS config = op_OS target))) RConfigPlatform);
  _ ← check (negb (bool_decide (im_RootFSType config = "layers"))) RConfigRootFS;
  match im_DiffIDs config with
  | [diff] => check (negb (is_ok (parseSHA256Digest diff))) RConfigDiffIDs
  | _ => Err RConfigDiffIDs
  end.

(** ** Fetching: the response checks of client.go *)

Definition reference_forbidden (c : ascii) : bool :=
  one_of "/\?#" c || (byte c =? 0) || (byte c =? 13) || (byte c =? 10).

(** The checks of [registryURL]; the URL itself is built from these parts. *)
Definition registryURL_ok (repository kind reference : string) : bool :=
  is_ok (validateRepository repository)
  && (bool_decide (kind = "manifests") || bool_decide (kind = "blobs") || bool_decide (kind = "referrers"))
  && negb (any_byte reference_forbidden reference || bool_decide (reference = "")).

Definition validateIdentityEncoding (response : Response) : bool :=
  let encoding := strings_TrimSpace (rs_ContentEncoding response) in
  negb (negb (bool_decide (encoding = "")) && negb (strings_EqualFold encoding "identity")).

Definition validateContentLength (contentLength : Z) (expected : option ODescriptor) (limit : Z) : result fetch_error unit :=
  _ ← check (limit <? contentLength) FetchLengthLimit;
  match expected with
  | None => Ok tt
  | Some d => check ((0 <=? contentLength) && negb (contentLength =? od_Size d)) FetchLengthMismatch
  end.

Definition responseMediaType (response : Response) : result fetch_error string :=
  _ ← check (bool_decide (rs_ContentType response = "")) FetchNoContentType;
  match mime_ParseMediaType (rs_ContentType response) with Some t => Ok t | None => Err FetchBadContentType end.

(** [readBounded]: at most [limit + 1] bytes are read. *)
Definition readBounded (body : option string) (limit : Z) : result fetch_error string :=
  match body with
  | None => Err FetchRead
  | Some b => _ ← check (limit <? strlen b) FetchTooLarge; Ok b
  end.

Definition fetchManifest (repository reference : string) (expected : option ODescriptor) (mediaType : string) (limit : Z)
    : result fetch_error Content :=
  _ ← check (negb (registryURL_ok repository "manifests" reference)) FetchURL;
  response ← match doRegistryGET repository "manifests" reference mediaType with Some r => Ok r | None => Err FetchTransport end;
  _ ← check (negb (rs_StatusCode response =? 200)) FetchStatus;
  _ ← check (negb (validateIdentityEncoding response)) FetchEncoding;
  actual ← responseMediaType response;
  _ ← check (negb (bool_decide (actual = mediaType))) FetchMediaType;
  _ ← validateContentLength (rs_ContentLength response) expected limit;
  body ← readBounded (rs_Body response) limit;
  let computed := digest_FromBytes body in
  _ ← check (negb (bool_decide (digest_Algorithm computed = "sha256"))) FetchAlgorithm;
  let header := strings_TrimSpace (rs_DigestHeader response) in
  _ ← (if bool_decide (header = "") then Ok tt
       else match parseSHA256Digest header with
            | Err _ => Err FetchHeaderDigest
            | Ok headerDigest => check (negb (bool_decide (headerDigest = computed))) FetchHeaderDigest
            end);
  match expected with
  | None => Ok (MkContent (MkODescriptor mediaType computed (strlen body) [] ∅ "" None "") body)
  | Some d =>
      _ ← check (negb (strlen body =? od_Size d)) FetchSize;
      _ ← check (negb (bool_decide (computed = od_Digest d))) FetchDigest;
      Ok (MkContent d body)
  end.

(** [fetchBlobTo]: on success the bytes written to the destination *)
Definition fetchBlobTo (repository : string) (d : ODescriptor) (limit : Z) : result fetch_error string :=
  _ ← check (negb (validateDescriptor d "" limit)) FetchDescriptor;
  _ ← check (negb (registryURL_ok repository "blobs" (od_Digest d))) FetchURL;
  response ← match doRegistryGET repository "blobs" (od_Digest d) "application/octet-stream" with Some r => Ok r | None => Err FetchTransport end;
  _ ← check (negb (rs_StatusCode response =? 200)) FetchStatus;
  _ ← check (negb (validateIdentityEncoding response)) FetchEncoding;
  _ ← validateContentLength (rs_ContentLength response) (Some d) limit;
  body ← match rs_Body response with Some b => Ok b | None => Err FetchRead end;
  _ ← check (limit <? strlen body) FetchTooLarge;
  _ ← check (negb (strlen body =? od_Size d)) FetchSize;
  _ ← check (negb (bool_decide (digest_FromBytes body = od_Digest d))) FetchDigest;
  Ok body.

Definition FetchIndex (limits : Limits) (repository tag : string) : result fetch_error Content :=
  _ ← check (negb (matches ociTagRE tag)) FetchTag;
  fetchManifest repository tag None MediaTypeImageIndex (lim_IndexBytes limits).

Definition FetchManifest (limits : Limits) (repository : string) (d : ODescriptor) : result fetch_error Content :=
  _ ← check (negb (validateDescriptor d MediaTypeImageManifest (lim_ManifestBytes limits))) FetchDescriptor;
  fetchManifest repository (od_Digest d) (Some d) MediaTypeImageManifest (lim_ManifestBytes limits).

Definition FetchConfig (limits : Limits) (repository : string) (d : ODescriptor) : result fetch_error Content :=
  _ ← check (negb (validateDescriptor d MediaTypeImageConfig (lim_ConfigBytes limits))) FetchDescriptor;
  body ← fetchBlobTo repository d (lim_ConfigBytes limits);
  Ok (MkContent d body).

(** ** Resolve *)

Record resolvedBottle := MkResolvedBottle {
  rb_reference : FormulaReference; rb_target : OPlatform; rb_selectedBottleTag : string; rb_selectedChildTag : string;
  rb_filename : string; rb_cellar : string; rb_homebrewSHA256 : string;
  rb_index : ODescriptor; rb_manifest : ODescriptor; rb_config : ODescriptor; rb_layer : ODescriptor;
  rb_tab : BottleTab; rb_selectedAnnotations : gmap string string; rb_manifestAnnotations : gmap string string;
  rb_executablePaths : list string;
}.

Definition with_annotations (d : ODescriptor) (m : gmap string string) : ODescriptor :=
  MkODescriptor (od_MediaType d) (od_Digest d) (od_Size d) (od_URLs d) m (od_Data d) (od_Platform d) (od_ArtifactType d).

Definition decoded {A} (what : string) (m : option A) : result resolve_error A :=
  match m with Some a => Ok a | None => Err (RDecode what) end.

Definition resolveDescriptorChain (limits : Limits) (formulaName : string) (bottleRebuild : Z)
    (bottleFiles : gmap string BottleFile) (reference : FormulaReference) (target : OPlatform)
    (indexTitle manifestTitlePrefix : string) (validateAnnotations : commonAnnotationValidator) (parseTab : bottleTabParser)
    : result resolve_error resolvedBottle :=
  '(selectedBottleTag, bottleFile) ← selectBottleFileFromMap bottleFiles target;
  childTag ← map_err RReference (ChildTag (fr_PkgVersion reference) selectedBottleTag bottleRebuild);
  filename ← map_err RReference (BottleFilename formulaName (fr_PkgVersion reference) selectedBottleTag bottleRebuild);
  indexContent ← map_err (RFetch "index") (FetchIndex limits (fr_Repository reference) (fr_IndexTag reference));
  index ← decoded "index" (decode_index (ct_Bytes indexContent));
  '(selected, tab, executablePaths) ←
    validateAndSelectIndexWith limits index reference target selectedBottleTag childTag bottleFile indexTitle
      validateAnnotations parseTab;
  manifestContent ← map_err (RFetch "manifest") (FetchManifest limits (fr_Repository reference) selected);
  manifest ← decoded "manifest" (decode_manifest (ct_Bytes manifestContent));
  layer ← validateManifestWith limits manifest reference selected childTag filename bottleFile
            (manifestTitlePrefix +:+ " " +:+ childTag) validateAnnotations;
  configContent ← map_err (RFetch "config") (FetchConfig limits (fr_Repository reference) (mf_Config manifest));
  config ← decoded "config" (decode_config (ct_Bytes configContent));
  _ ← validateConfig config target (bool_decide (selectedBottleTag = BottleTagAll));
  Ok (MkResolvedBottle reference target selectedBottleTag childTag filename (obf_Cellar bottleFile) (obf_SHA256 bottleFile)
        (with_annotations (ct_Descriptor indexContent) (ix_Annotations index)) selected (mf_Config manifest) layer tab
        (od_Annotations selected) (mf_Annotations manifest) executablePaths).

(** [Result] and [AuthenticatedResult]: the Formula and what was resolved for it *)
Record Result := MkResult { res_Formula : Formula; res_bottle : resolvedBottle }.

Record AuthenticatedResult := MkAuthenticatedResult { ares_Formula : AuthenticatedFormula; ares_bottle : resolvedBottle }.

Definition Resolve (limits : Limits) (formula : Formula) (target : OPlatform) : result resolve_error Result :=
  _ ← validateTarget target;
  reference ← map_err RReference (ResolveFormulaReference formula);
  resolved ← resolveDescriptorChain limits (o_Name formula) (o_BottleRebuild formula) (o_BottleFiles formula) reference target
    (o_Name formula) (o_Name formula)
    (λ m pkgVersion refName title, validateCommonAnnotations m (o_Name formula) pkgVersion refName title) parseBottleTab;
  Ok (MkResult formula resolved).

End tab.

Section authenticated.
Context `{U : !UnicodeTables, G : !GoDigest, N : !NetURL, C : !RegistryClient}.

Definition ResolveAuthenticated (limits : Limits) (formula : AuthenticatedFormula) (target : OPlatform)
    : result resolve_error AuthenticatedResult :=
  _ ← validateTarget target;
  reference ← map_err RReference (ResolveAuthenticatedFormulaReference formula);
  let i := af_Identity formula in
  resolved ← resolveDescriptorChain limits (id_name (ai_id i)) (af_BottleRebuild formula) (af_BottleFiles formula) reference target
    (ai_homebrewFullName i) (ai_homebrewFullName i)
    (λ m pkgVersion refName title, validateAuthenticatedCommonAnnotations m i pkgVersion refName title) parseAuthenticatedBottleTab;
  Ok (MkAuthenticatedResult formula resolved).

Definition ReplayReference (r : AuthenticatedResult) : string :=
  let b := ares_bottle r in
  if bool_decide (fr_CanonicalRepository (rb_reference b) = "") || bool_decide (od_Digest (rb_layer b) = "") then ""
  else fr_CanonicalRepository (rb_reference b) +:+ "@" +:+ od_Digest (rb_layer b).

End authenticated.

(** ** Conversion to the resolution record *)

Definition resolutionDescriptor (d : ODescriptor) : Descriptor :=
  MkDescriptor (od_Digest d) (od_Size d) (od_MediaType d)
    (match od_Platform d with
     | Some p => Some (MkPlatform (op_OS p) (op_Architecture p) (op_Variant p))
     | None => None
     end) (od_Annotations d).

Definition ResolutionBottle (r : Result) : Resolution.Bottle :=
  let b := res_bottle r in
  Resolution.MkBottle (rb_selectedBottleTag b) (rb_filename b) (fr_CanonicalRepository (rb_reference b))
    (resolutionDescriptor (rb_index b)) (resolutionDescriptor (rb_manifest b))
    (resolutionDescriptor (rb_config b)) (resolutionDescriptor (rb_layer b))
    (rb_homebrewSHA256 b) (rb_cellar b) (rb_tab b)
    (slices_SortFunc compareKV ((λ e, MkKV e.1 e.2) <$> map_to_list (rb_selectedAnnotations b))).

Definition ResolutionNode (r : Result) : Node :=
  let f := res_Formula r in
  let b := res_bottle r in
  MkNode (o_Name f) (canonicalFullName (o_Name f)) (o_StableVersion f) (o_Revision f) (fr_PkgVersion (rb_reference b))
    (o_VersionScheme f) (o_BottleRebuild f) (o_License f) (o_KegOnly f)
    (sort_by rq_Name
       ((λ d, MkRequirement (rd_FullName d) (rd_PkgVersion d) (rd_Revision d) (rd_BottleRebuild d) (rd_DeclaredDirectly d))
          <$> tab_Dependencies (rb_tab b)))
    (ResolutionBottle r) (rb_executablePaths b) (canonicalFullName (o_Name f)) "".

(** ** Lemmas *)

#[global] Arguments validateSHA256Hex : simpl never.
#[global] Arguments OciReference.BottleFilename : simpl never.
#[global] Arguments ChildTag : simpl never.
#[global] Arguments validateConfig : simpl never.
#[global] Arguments FetchIndex : simpl never.
#[global] Arguments FetchManifest : simpl never.
#[global] Arguments FetchConfig : simpl never.

Lemma accept_unique_ok bad e seen l u :
  accept_unique bad e seen l = Ok u ↔ Forall (λ v, bad v = false) l ∧ NoDup l ∧ ∀ v, v ∈ l → v ∉ seen.
Proof.
  destruct u. revert seen. induction l as [|v l IH]; intros seen; cbn [accept_unique].
  { split; [intros _; split_and!; [constructor..|set_solver]|done]. }
  rewrite Forall_cons, NoDup_cons. split.
  - intros H. res_inv H. case_bool. apply IH in H as (? & ? & ?). set_solver.
  - intros ([Hb ?] & [? ?] & Hs). rewrite Hb. cbn. rewrite bool_decide_eq_false_2 by (apply Hs; set_solver).
    cbn. apply IH. split_and!; [done..|]. set_solver.
Qed.

Lemma tab_dependencies_ok canonicalize seen l deps :
  tab_dependencies canonicalize seen l = Ok deps →
  NoDup (rd_FullName <$> deps) ∧ (∀ x, x ∈ rd_FullName <$> deps → x ∉ seen ∧ ∃ s, canonicalize s = Ok x).
Proof.
  revert seen deps. induction l as [|d l IH]; intros seen deps; cbn [tab_dependencies].
  { intros [= <-]. cbn. split; [constructor|set_solver]. }
  intros H. res_inv H. cbn. case_bool.
  match goal with E : tab_dependencies _ _ _ = Ok _ |- _ => apply IH in E as [Hnd Hx] end.
  rewrite NoDup_cons. split.
  - split; [|done]. intros [Hs _]%Hx. set_solver.
  - intros x [->|?%Hx]%elem_of_cons; [by eauto|]. set_solver.
Qed.

Lemma canonicalDependencyName_ok s name : canonicalDependencyName s = Ok name → name ≠ "".
Proof.
  unfold canonicalDependencyName. case_match; intros Hok; res_inv Hok.
  all: match goal with E : validateFormulaName _ = Ok _ |- _ => by apply validateFormulaName_bytes in E as [? _] end.
Qed.

Section facts.
Context `{U : !UnicodeTables, G : !GoDigest}.

Lemma parseSHA256Digest_ok s : is_ok (parseSHA256Digest s) = true ↔ sha256_digest s.
Proof.
  unfold parseSHA256Digest, sha256_digest, check. destruct (digest_valid s); cbn; [|naive_solver].
  case_bool_decide; cbn; naive_solver.
Qed.

(** A descriptor that says where its content is and nothing else: a type, a SHA-256
    digest, a size within the limit, no content of its own and no other place *)
Record sound_descriptor (d : ODescriptor) (mediaType : string) (limit : Z) : Prop := {
  sd_type : od_MediaType d = mediaType;
  sd_digest : sha256_digest (od_Digest d);
  sd_size : 0 < od_Size d <= limit;
  sd_plain : od_Data d = "" ∧ od_URLs d = [] ∧ od_ArtifactType d = "";
}.

Lemma validateDescriptor_sound d mt limit : validateDescriptor d mt limit = true → mt ≠ "" → sound_descriptor d mt limit.
Proof.
  unfold validateDescriptor. intros H Hne. apply negb_true_iff in H. case_bool.
  match goal with E : is_ok _ = true |- _ => apply parseSHA256Digest_ok in E end.
  match goal with E : length _ = 0%nat |- _ => apply length_zero_iff_nil in E end.
  split; try done. match goal with E : negb _ && negb _ = false |- _ => apply andb_false_iff in E as [?|?] end; case_bool; done.
Qed.

Lemma sound_descriptor_wf d mt limit : sound_descriptor d mt limit → strings_TrimSpace mt ≠ "" → descriptor_wf (resolutionDescriptor d).
Proof. intros [Hm Hd Hs _] Ht. split; cbn; [done|lia|]. by rewrite Hm. Qed.

Lemma validateTarget_ok target u :
  validateTarget target = Ok u →
  op_OS target = "linux" ∧ (op_Architecture target = "amd64" ∨ op_Architecture target = "arm64") ∧
  op_Variant target = "" ∧ op_OSFeatures target = [].
Proof.
  unfold validateTarget. intros H. res_inv H. case_bool.
  match goal with E : negb _ && negb _ = false |- _ => apply andb_false_iff in E as [?|?] end; case_bool.
  all: match goal with E : length _ = 0%nat |- _ => apply length_zero_iff_nil in E end; auto.
Qed.

Lemma selectBottleFile_ok files target tag file :
  selectBottleFileFromMap files target = Ok (tag, file) →
  (tag = BottleTagAll ∨ tag = expected_tag (op_Architecture target)) ∧
  files !! tag = Some file ∧ OciReference.validateSHA256Hex (obf_SHA256 file) = Ok tt.
Proof.
  unfold selectBottleFileFromMap, targetBottleTag. intros H.
  apply bind_ok in H as (t & Ht & H). apply bind_ok in Ht as (u & _ & [= <-]).
  assert (∀ t f, validateBottleFile t f = Ok tt → OciReference.validateSHA256Hex (obf_SHA256 f) = Ok tt) as Hv.
  { intros t f Hf. unfold validateBottleFile in Hf. by res_inv Hf. }
  destruct (files !! _) as [f|] eqn:Ef in H.
  - apply bind_ok in H as ([] & Hf%map_err_ok & [= <- <-]). split_and!; [by right|done|by eapply Hv].
  - destruct (files !! BottleTagAll) as [f|] eqn:Ea; [|done].
    apply bind_ok in H as ([] & Hf%map_err_ok & [= <- <-]). split_and!; [by left|done|by eapply Hv].
Qed.

Lemma checksum_ok s :
  OciReference.validateSHA256Hex s = Ok tt → Resolution.validateSHA256Hex s = true ∧ strings_ToLower s = s.
Proof.
  unfold OciReference.validateSHA256Hex, Resolution.validateSHA256Hex. intros H. res_inv H. case_bool.
  split; [apply andb_true_iff; split; [by apply Z.eqb_eq|done]|]. apply ToLower_id.
  eapply all_bytes_impl; [|done]. intros c. unfold isHexLower, isDigit, isAscii, isUpper.
  rewrite orb_true_iff, !byte_in_spec, andb_true_iff, negb_true_iff, Z.ltb_lt.
  intros Hc. split; [lia|]. destruct (byte_in 65 90 c) eqn:E; [|done]. apply byte_in_spec in E. lia.
Qed.

Lemma select_child_ok limits tag seen sel l r :
  select_child limits tag seen sel l = Ok r →
  NoDup ((λ d, annotation (od_Annotations d) AnnotationRefName) <$> l) ∧
  (∀ d, d ∈ l → validateDescriptor d MediaTypeImageManifest (lim_ManifestBytes limits) = true ∧
                annotation (od_Annotations d) AnnotationRefName ∉ seen) ∧
  ((∃ d, d ∈ l ∧ annotation (od_Annotations d) AnnotationRefName = tag ∧ r = Some d) ∨
   (∀ d, d ∈ l → annotation (od_Annotations d) AnnotationRefName ≠ tag) ∧ r = sel).
Proof.
  revert seen sel. induction l as [|d l IH]; intros seen sel; cbn [select_child].
  { intros [= <-]. split_and!; [constructor|set_solver|]. right. set_solver. }
  intros H. res_inv H. case_bool. apply IH in H as (Hnd & Hv & Hr). cbn. rewrite NoDup_cons. split_and!.
  - intros (d' & He & Hd')%list_elem_of_fmap. destruct (Hv d' Hd') as [_ Hn]. rewrite <-He in Hn. set_solver.
  - done.
  - intros d' [->|Hd']%elem_of_cons; [done|]. destruct (Hv d' Hd'). set_solver.
  - destruct Hr as [(d' & Hd' & Ht & ->)|[Hn ->]].
    + left. exists d'. set_solver.
    + case_bool_decide as Ht; [left; exists d; set_solver|]. right. set_solver.
Qed.

End facts.

Section chain.
Context `{U : !UnicodeTables, G : !GoDigest, C : !RegistryClient}.

(** Bytes that were hashed and measured against a descriptor *)
Definition verified_bytes (d : ODescriptor) (bytes : string) : Prop :=
  digest_FromBytes bytes = od_Digest d ∧ strlen bytes = od_Size d.

(** The registry answered with these bytes: in full, unencoded, not more than asked for *)
Record answered (response : Response) (limit : Z) (bytes : string) : Prop := {
  an_status : rs_StatusCode response = 200;
  an_encoding : strings_TrimSpace (rs_ContentEncoding response) = "" ∨ strings_EqualFold (strings_TrimSpace (rs_ContentEncoding response)) "identity" = true;
  an_body : rs_Body response = Some bytes;
  an_limit : strlen bytes <= limit ∧ rs_ContentLength response <= limit;
}.

(** ... for a manifest, under the media type asked for and the digest of the bytes, if
    the registry states one *)
Record manifest_answered (repository reference mediaType : string) (limit : Z) (bytes : string) : Prop := {
  ma_answer : ∃ response, doRegistryGET repository "manifests" reference mediaType = Some response ∧ answered response limit bytes ∧
    mime_ParseMediaType (rs_ContentType response) = Some mediaType ∧
    (strings_TrimSpace (rs_DigestHeader response) = "" ∨ strings_TrimSpace (rs_DigestHeader response) = digest_FromBytes bytes);
}.

Lemma identity_encoding response :
  validateIdentityEncoding response = true →
  strings_TrimSpace (rs_ContentEncoding response) = "" ∨ strings_EqualFold (strings_TrimSpace (rs_ContentEncoding response)) "identity" = true.
Proof.
  unfold validateIdentityEncoding. rewrite negb_true_iff, andb_false_iff, !negb_false_iff, bool_decide_eq_true. done.
Qed.

Lemma fetchManifest_ok repository reference expected mt limit c :
  fetchManifest repository reference expected mt limit = Ok c →
  manifest_answered repository reference mt limit (ct_Bytes c) ∧ verified_bytes (ct_Descriptor c) (ct_Bytes c) ∧
  match expected with None => od_MediaType (ct_Descriptor c) = mt ∧ od_Platform (ct_Descriptor c) = None
                    | Some d => ct_Descriptor c = d end.
Proof.
  unfold fetchManifest. intros H. apply bind_ok in H as (? & _ & H). apply bind_ok in H as (resp & Hg & H).
  destruct (doRegistryGET _ _ _ _) as [r|] eqn:Hget; [|done]. injection Hg as ->.
  apply bind_ok in H as (? & Hst%check_ok%negb_false_iff%Z.eqb_eq & H). apply bind_ok in H as (? & Henc%check_ok%negb_false_iff & H).
  apply bind_ok in H as (actual & Hct & H). apply bind_ok in H as (? & Hmt%check_ok%negb_false_iff%bool_decide_eq_true & H). subst actual.
  apply bind_ok in H as (? & Hcl & H). apply bind_ok in H as (body & Hb & H). apply bind_ok in H as (? & _ & H). apply bind_ok in H as (? & Hhdr & H).
  assert (ct_Bytes c = body ∧ verified_bytes (ct_Descriptor c) body ∧
    match expected with None => od_MediaType (ct_Descriptor c) = mt ∧ od_Platform (ct_Descriptor c) = None | Some d => ct_Descriptor c = d end)
    as (-> & ? & ?).
  { destruct expected as [d|]; [|injection H as <-; by split_and!]. res_inv H. case_bool. by split_and!. }
  split_and!; [|done..]. split. exists resp. split; [done|]. split_and!.
  - unfold readBounded in Hb. destruct (rs_Body resp) as [b|] eqn:Hbody; [|done]. apply bind_ok in Hb as (? & Hl%check_ok%Z.ltb_ge & [= ->]).
    unfold validateContentLength in Hcl. apply bind_ok in Hcl as (? & Hcl%check_ok%Z.ltb_ge & _). split; [done|by apply identity_encoding|done|lia].
  - unfold responseMediaType in Hct. apply bind_ok in Hct as (? & _ & Hct). destruct (mime_ParseMediaType _); [|done]. by injection Hct as ->.
  - destruct (decide (strings_TrimSpace (rs_DigestHeader resp) = "")) as [?|Hne]; [by left|right].
    rewrite (bool_decide_eq_false_2 _ Hne) in Hhdr. destruct (parseSHA256Digest _) as [h|] eqn:Hp; [|done].
    apply check_ok, negb_false_iff, bool_decide_eq_true in Hhdr. unfold parseSHA256Digest in Hp. res_inv Hp. done.
Qed.

Lemma FetchIndex_ok limits repository tag c :
  FetchIndex limits repository tag = Ok c →
  manifest_answered repository tag MediaTypeImageIndex (lim_IndexBytes limits) (ct_Bytes c) ∧
  verified_bytes (ct_Descriptor c) (ct_Bytes c) ∧ od_MediaType (ct_Descriptor c) = MediaTypeImageIndex ∧ od_Platform (ct_Descriptor c) = None.
Proof. unfold FetchIndex. intros (? & _ & (? & ? & ? & ?)%fetchManifest_ok)%bind_ok. done. Qed.

Lemma FetchManifest_ok limits repository d c :
  FetchManifest limits repository d = Ok c →
  manifest_answered repository (od_Digest d) MediaTypeImageManifest (lim_ManifestBytes limits) (ct_Bytes c) ∧ verified_bytes d (ct_Bytes c).
Proof. unfold FetchManifest. intros (? & _ & (? & ? & <-)%fetchManifest_ok)%bind_ok. done. Qed.

Lemma FetchConfig_ok limits repository d c :
  FetchConfig limits repository d = Ok c →
  (∃ response, doRegistryGET repository "blobs" (od_Digest d) "application/octet-stream" = Some response ∧
    answered response (lim_ConfigBytes limits) (ct_Bytes c)) ∧ verified_bytes d (ct_Bytes c).
Proof.
  unfold FetchConfig, fetchBlobTo. intros (? & _ & H)%bind_ok. apply bind_ok in H as (body & Hb & [= <-]). cbn.
  do 2 apply bind_ok in Hb as (? & _ & Hb). apply bind_ok in Hb as (resp & Hg & Hb). destruct (doRegistryGET _ _ _ _) as [r|]; [|done]. injection Hg as ->.
  apply bind_ok in Hb as (? & Hst%check_ok%negb_false_iff%Z.eqb_eq & Hb). apply bind_ok in Hb as (? & Henc%check_ok%negb_false_iff%identity_encoding & Hb).
  apply bind_ok in Hb as (? & Hcl & Hb). apply bind_ok in Hb as (b & Hbody & Hb). destruct (rs_Body resp) as [b'|] eqn:Hr; [|done]. injection Hbody as ->.
  apply bind_ok in Hb as (? & Hlim%check_ok%Z.ltb_ge & Hb). apply bind_ok in Hb as (? & Hsz%check_ok%negb_false_iff%Z.eqb_eq & Hb).
  apply bind_ok in Hb as (? & Hd%check_ok%negb_false_iff%bool_decide_eq_true & [= <-]).
  unfold validateContentLength in Hcl. apply bind_ok in Hcl as (? & Hcl%check_ok%Z.ltb_ge & _). split; [|done]. by exists resp.
Qed.

(** The platform of the selected child: none for the bottle of all platforms *)
Definition selected_platform (platform : option OPlatform) (target : OPlatform) (allBottle : bool) : Prop :=
  if allBottle then platform = None
  else ∃ p, platform = Some p ∧ op_OS p = op_OS target ∧ op_Architecture p = op_Architecture target ∧ op_Variant p = "" ∧ op_OSFeatures p = [].

Lemma validateSelectedPlatform_ok platform target allBottle :
  validateSelectedPlatform platform target allBottle = Ok tt → selected_platform platform target allBottle.
Proof.
  unfold validateSelectedPlatform, selected_platform. destruct allBottle, platform as [p|]; try done. intros H. res_inv H. case_bool.
  match goal with E : length _ = 0%nat |- _ => apply length_zero_iff_nil in E end. by exists p.
Qed.

(** The image config names a platform the bottle is for and exactly one layer. *)
Record config_ok (config : Image) (target : OPlatform) (allBottle : bool) : Prop := {
  cfg_platform : if allBottle then (im_Architecture config = "amd64" ∨ im_Architecture config = "arm64") ∧ (im_OS config = "linux" ∨ im_OS config = "darwin")
    else im_Architecture config = op_Architecture target ∧ im_OS config = op_OS target;
  cfg_named : im_Architecture config ≠ "" ∧ im_OS config ≠ "";
  cfg_layers : im_RootFSType config = "layers" ∧ ∃ diff, im_DiffIDs config = [diff] ∧ sha256_digest diff;
}.

Lemma validateConfig_ok config target allBottle : validateConfig config target allBottle = Ok tt → config_ok config target allBottle.
Proof.
  unfold validateConfig. intros (? & Hne%check_ok & H)%bind_ok. apply bind_ok in H as (? & Hp & H). apply bind_ok in H as (? & Hr%check_ok & H).
  apply orb_false_iff in Hne as [Ha%bool_decide_eq_false Ho%bool_decide_eq_false]. apply negb_false_iff, bool_decide_eq_true in Hr. split; [|done|].
  - destruct allBottle.
    + apply bind_ok in Hp as (? & H1%check_ok & H2%check_ok). rewrite andb_false_iff, !negb_false_iff, !bool_decide_eq_true in H1.
      rewrite andb_false_iff, !negb_false_iff, !bool_decide_eq_true in H2. done.
    + apply check_ok in Hp. by rewrite orb_false_iff, !negb_false_iff, !bool_decide_eq_true in Hp.
  - split; [done|]. destruct (im_DiffIDs config) as [|diff [|? ?]]; try done. exists diff. split; [done|].
    by apply check_ok, negb_false_iff, parseSHA256Digest_ok in H.
Qed.

(** The size an annotation states, if it is there *)
Definition states_size (m : gmap string string) (P : Z → Prop) : Prop :=
  annotation m annotationBottleSize = "" ∨ ∃ n, annotation m annotationBottleSize = strconv_Itoa n ∧ 0 < n ∧ P n.

Lemma stated_size m (bad : Z → bool) e :
  (if bool_decide (annotation m annotationBottleSize = "") then Ok tt
   else size ← parseCanonicalPositiveInt (annotation m annotationBottleSize); check (bad size) e) = Ok tt → states_size m (λ n, bad n = false).
Proof.
  unfold states_size. case_bool_decide as Hs; [by left|]. intros (n & Hn & Hb%check_ok)%bind_ok. right. exists n. unfold parseCanonicalPositiveInt in Hn.
  apply bind_ok in Hn as (? & _ & Hn). destruct (strconv_Atoi _) as [k|]; [|done]. apply bind_ok in Hn as (? & Hk%check_ok & [= ->]).
  apply orb_false_iff in Hk as [?%Z.leb_gt Hk%negb_false_iff%bool_decide_eq_true]. split_and!; [done|lia|done].
Qed.

(** The index: one child under the expected ref-name, which is the manifest *)
Record index_ok (index : Index) (childTag : string) (d : ODescriptor) : Prop := {
  io_schema : ix_SchemaVersion index = 2;
  io_type : ix_MediaType index = "" ∨ ix_MediaType index = MediaTypeImageIndex;
  io_plain : ix_ArtifactType index = "" ∧ ix_Subject index = None;
  io_child : d ∈ ix_Manifests index ∧ annotation (od_Annotations d) AnnotationRefName = childTag;
  io_only d' : d' ∈ ix_Manifests index → annotation (od_Annotations d') AnnotationRefName = childTag → d' = d;
}.

(** The manifest: the one layer is the bottle file, with the digest of the metadata, the
    size that is stated and its file name, and the child's annotations are its own *)
Record manifest_ok (manifest : Manifest) (d : ODescriptor) (sha256 filename : string) (layer : ODescriptor) : Prop := {
  mo_schema : mf_SchemaVersion manifest = 2;
  mo_type : mf_MediaType manifest = "" ∨ mf_MediaType manifest = MediaTypeImageManifest;
  mo_plain : mf_ArtifactType manifest = "" ∧ mf_Subject manifest = None;
  mo_layers : mf_Layers manifest = [layer] ∧ od_Platform layer = None ∧ od_Platform (mf_Config manifest) = None;
  mo_annotations : od_Annotations d ⊆ mf_Annotations manifest;
  mo_checksum : annotation (mf_Annotations manifest) annotationBottleDigest = sha256 ∧ od_Digest layer = "sha256:" +:+ sha256;
  mo_size : states_size (mf_Annotations manifest) (λ n, n = od_Size layer);
  mo_filename : annotation (od_Annotations layer) AnnotationTitle = filename;
}.

(** What a resolved bottle guarantees: the file the metadata authenticated for
    the selected tag, and a chain of fetched, hashed and decoded documents from
    the index through the one child with the expected ref-name to the config
    and the layer, whose digest is the authenticated checksum. *)
Record chain_verified (limits : Limits) (formulaName : string) (rebuild : Z) (files : gmap string BottleFile)
    (reference : FormulaReference) (target : OPlatform) (indexTitle manifestTitlePrefix : string) (annotated : gmap string string → string → string → string → Prop)
    (parseTab : bottleTabParser) (b : resolvedBottle) : Prop := {
  cv_reference : rb_reference b = reference;
  cv_tag : rb_selectedBottleTag b = BottleTagAll ∨ rb_selectedBottleTag b = expected_tag (op_Architecture target);
  cv_file : ∃ file, files !! rb_selectedBottleTag b = Some file ∧ obf_SHA256 file = rb_homebrewSHA256 b ∧ obf_Cellar file = rb_cellar b ∧
                    OciReference.validateSHA256Hex (obf_SHA256 file) = Ok tt;
  cv_filename : OciReference.BottleFilename formulaName (fr_PkgVersion reference) (rb_selectedBottleTag b) rebuild = Ok (rb_filename b);
  cv_child : ChildTag (fr_PkgVersion reference) (rb_selectedBottleTag b) rebuild = Ok (rb_selectedChildTag b);
  cv_index : ∃ bytes index, manifest_answered (fr_Repository reference) (fr_IndexTag reference) MediaTypeImageIndex (lim_IndexBytes limits) bytes ∧
    verified_bytes (rb_index b) bytes ∧ decode_index bytes = Some index ∧ index_ok index (rb_selectedChildTag b) (rb_manifest b) ∧
    annotated (ix_Annotations index) (fr_PkgVersion reference) (fr_IndexTag reference) indexTitle;
  cv_index_desc : od_MediaType (rb_index b) = MediaTypeImageIndex ∧ od_Platform (rb_index b) = None;
  cv_manifest : ∃ bytes manifest,
    manifest_answered (fr_Repository reference) (od_Digest (rb_manifest b)) MediaTypeImageManifest (lim_ManifestBytes limits) bytes ∧
    verified_bytes (rb_manifest b) bytes ∧ decode_manifest bytes = Some manifest ∧
    manifest_ok manifest (rb_manifest b) (rb_homebrewSHA256 b) (rb_filename b) (rb_layer b) ∧ mf_Config manifest = rb_config b ∧
    annotated (mf_Annotations manifest) (fr_PkgVersion reference) (rb_selectedChildTag b) (manifestTitlePrefix +:+ " " +:+ rb_selectedChildTag b);
  cv_config : ∃ bytes config response, doRegistryGET (fr_Repository reference) "blobs" (od_Digest (rb_config b)) "application/octet-stream" = Some response ∧
    answered response (lim_ConfigBytes limits) bytes ∧ verified_bytes (rb_config b) bytes ∧ decode_config bytes = Some config ∧
    config_ok config target (bool_decide (rb_selectedBottleTag b = BottleTagAll));
  cv_layer : od_Digest (rb_layer b) = "sha256:" +:+ rb_homebrewSHA256 b;
  cv_descriptors : sound_descriptor (rb_manifest b) MediaTypeImageManifest (lim_ManifestBytes limits) ∧
    sound_descriptor (rb_config b) MediaTypeImageConfig (lim_ConfigBytes limits) ∧
    sound_descriptor (rb_layer b) MediaTypeImageLayerGzip (lim_BlobBytes limits);
  cv_platform : selected_platform (od_Platform (rb_manifest b)) target (bool_decide (rb_selectedBottleTag b = BottleTagAll));
  cv_checksum : annotation (od_Annotations (rb_manifest b)) annotationBottleDigest = rb_homebrewSHA256 b ∧
    states_size (od_Annotations (rb_manifest b)) (λ n, n <= lim_BlobBytes limits);
  cv_tab : parseTab (annotation (od_Annotations (rb_manifest b)) annotationBottleTab) target
    (bool_decide (rb_selectedBottleTag b = BottleTagAll)) = Ok (rb_tab b);
  cv_executables : parseExecutablePaths (annotation (od_Annotations (rb_manifest b)) annotationPathExecFiles)
    = Ok (rb_executablePaths b);
}.

Lemma validateAndSelectIndexWith_ok limits index reference target tag childTag file title va pt d tab execs :
  validateAndSelectIndexWith limits index reference target tag childTag file title va pt = Ok (d, tab, execs) →
  index_ok index childTag d ∧ va (ix_Annotations index) (fr_PkgVersion reference) (fr_IndexTag reference) title = Ok tt ∧
  sound_descriptor d MediaTypeImageManifest (lim_ManifestBytes limits) ∧
  selected_platform (od_Platform d) target (bool_decide (tag = BottleTagAll)) ∧
  annotation (od_Annotations d) annotationBottleDigest = obf_SHA256 file ∧ states_size (od_Annotations d) (λ n, n <= lim_BlobBytes limits) ∧
  pt (annotation (od_Annotations d) annotationBottleTab) target (bool_decide (tag = BottleTagAll)) = Ok tab ∧
  parseExecutablePaths (annotation (od_Annotations d) annotationPathExecFiles) = Ok execs.
Proof.
  unfold validateAndSelectIndexWith. intros (? & Hsch%check_ok%negb_false_iff%Z.eqb_eq & H)%bind_ok. apply bind_ok in H as (? & Hmt%check_ok & H).
  apply bind_ok in H as (? & Hart%check_ok & H). apply bind_ok in H as (? & _ & H). apply bind_ok in H as ([] & Hva & H).
  apply bind_ok in H as (sel & Hsel & H). apply bind_ok in H as (d0 & Hd0 & H). apply bind_ok in H as ([] & Hp%validateSelectedPlatform_ok & H).
  apply bind_ok in H as (? & Hann & H). apply bind_ok in H as (tab0 & Ht & H). apply bind_ok in H as (ex & He & [= <- <- <-]).
  destruct sel as [?|]; [|done]. injection Hd0 as ->.
  apply select_child_ok in Hsel as (Hnd & Hv & [(d1 & Hd1 & Href & [= <-])|[_ ?]]); [|done]. unfold validateSelectedAnnotations in Hann.
  apply bind_ok in Hann as (? & _ & Hann). apply bind_ok in Hann as (? & _ & Hann).
  apply bind_ok in Hann as (? & Hsum%check_ok%negb_false_iff%bool_decide_eq_true & Hann). apply bind_ok in Hann as ([] & Hsize%stated_size & _).
  split_and!; try done; [| |].
  - split; [done| | |done|].
    + by rewrite andb_false_iff, !negb_false_iff, !bool_decide_eq_true in Hmt.
    + apply orb_false_iff in Hart as [?%negb_false_iff%bool_decide_eq_true ?]. by destruct (ix_Subject index).
    + intros d' Hd' Href'. apply (NoDup_fmap_inj (λ d, annotation (od_Annotations d) AnnotationRefName) (ix_Manifests index)); [done..|]. congruence.
  - apply validateDescriptor_sound; [by apply Hv|done].
  - destruct Hsize as [?|(n & ? & ? & ?%Z.ltb_ge)]; [by left|right]. by exists n.
Qed.

Lemma same_annotations_ok selected manifest : same_annotations selected manifest = Ok tt → selected ⊆ manifest.
Proof.
  intros H. apply map_subseteq_spec. intros key value Hk. apply elem_of_map_to_list in Hk. unfold same_annotations in H. revert H Hk.
  generalize (map_to_list selected). induction l as [|e l IH]; [by intros _ ?%not_elem_of_nil|]. cbn [foldM_res].
  destruct (check _ _) as [[]|] eqn:Hc; [|done]. apply check_ok, negb_false_iff, bool_decide_eq_true in Hc.
  intros H [<-|?]%elem_of_cons; [done|by apply IH].
Qed.

Lemma validateManifestWith_ok limits m reference sel childTag filename file title va layer :
  validateManifestWith limits m reference sel childTag filename file title va = Ok layer →
  manifest_ok m sel (obf_SHA256 file) filename layer ∧ va (mf_Annotations m) (fr_PkgVersion reference) childTag title = Ok tt ∧
  sound_descriptor (mf_Config m) MediaTypeImageConfig (lim_ConfigBytes limits) ∧ sound_descriptor layer MediaTypeImageLayerGzip (lim_BlobBytes limits).
Proof.
  unfold validateManifestWith. intros (? & Hsch%check_ok%negb_false_iff%Z.eqb_eq & H)%bind_ok. apply bind_ok in H as (? & Hmt%check_ok & H).
  apply bind_ok in H as (? & Hart%check_ok & H). apply bind_ok in H as (? & Hc%check_ok%negb_false_iff & H). apply bind_ok in H as (? & Hcp%check_ok & H).
  apply bind_ok in H as (layer0 & Hl & H). apply bind_ok in H as (? & Hd%check_ok%negb_false_iff & H). apply bind_ok in H as (? & Hlp%check_ok & H).
  apply bind_ok in H as ([] & Hva & H). apply bind_ok in H as ([] & Hsame%same_annotations_ok & H).
  apply bind_ok in H as (? & Hsum%check_ok%negb_false_iff%bool_decide_eq_true & H).
  apply bind_ok in H as (? & Hdig%check_ok%negb_false_iff%bool_decide_eq_true & H). apply bind_ok in H as ([] & Hsize%stated_size & H).
  apply bind_ok in H as (? & Htitle%check_ok%negb_false_iff%bool_decide_eq_true & [= <-]).
  destruct (mf_Layers m) as [|? []] eqn:Hly; try done. injection Hl as ->.
  split_and!; [|done|by apply validateDescriptor_sound|by apply validateDescriptor_sound]. split; try done.
  - by rewrite andb_false_iff, !negb_false_iff, !bool_decide_eq_true in Hmt.
  - apply orb_false_iff in Hart as [?%negb_false_iff%bool_decide_eq_true ?]. by destruct (mf_Subject m).
  - by destruct (od_Platform layer0), (od_Platform (mf_Config m)).
  - destruct Hsize as [?|(n & ? & ? & ?%negb_false_iff%Z.eqb_eq)]; [by left|right]. by exists n.
Qed.

Lemma resolveDescriptorChain_ok limits name rebuild files reference target ititle mtitle va (annotated : _ → _ → _ → _ → Prop) pt b :
  (∀ m pkgVersion refName title, va m pkgVersion refName title = Ok tt → annotated m pkgVersion refName title) →
  resolveDescriptorChain limits name rebuild files reference target ititle mtitle va pt = Ok b →
  chain_verified limits name rebuild files reference target ititle mtitle annotated pt b.
Proof.
  unfold resolveDescriptorChain. intros Hann H. apply bind_ok in H as ([tag file] & Hs & H).
  apply bind_ok in H as (childTag & Hch%map_err_ok & H). apply bind_ok in H as (filename & Hf%map_err_ok & H).
  apply bind_ok in H as (ic & (Hia & Hib & Hmt & Hpl)%map_err_ok%FetchIndex_ok & H). apply bind_ok in H as (index & Hi & H).
  apply bind_ok in H as ([[sel tab] execs] & (Hix & Hiv & Hdesc & Hplat & Hsum & Hsz & Htab & Hex)%validateAndSelectIndexWith_ok & H).
  apply bind_ok in H as (mc & [Hma Hmb]%map_err_ok%FetchManifest_ok & H). apply bind_ok in H as (m & Hm & H).
  apply bind_ok in H as (layer & (Hmo & Hmv & Hdc & Hdl)%validateManifestWith_ok & H).
  apply bind_ok in H as (cc & [(resp & Hcg & Hca) Hcb]%map_err_ok%FetchConfig_ok & H).
  apply bind_ok in H as (config & Hcd & H). apply bind_ok in H as ([] & Hcfg%validateConfig_ok & [= <-]).
  apply selectBottleFile_ok in Hs as (Htag & Hfile & Hsha).
  unfold decoded in Hi, Hm, Hcd. destruct (decode_index (ct_Bytes ic)) as [?|] eqn:Ei; [|done]. injection Hi as ->.
  destruct (decode_manifest (ct_Bytes mc)) as [?|] eqn:Em; [|done]. injection Hm as ->.
  destruct (decode_config (ct_Bytes cc)) as [?|] eqn:Ec; [|done]. injection Hcd as ->.
  split; cbn; try done.
  - by exists file.
  - exists (ct_Bytes ic), index. split_and!; try done. by apply Hann.
  - exists (ct_Bytes mc), m. split_and!; try done. by apply Hann.
  - by exists (ct_Bytes cc), config, resp.
  - apply Hmo.
Qed.

End chain.

Section node.
Context `{U : !UnicodeTables, G : !GoDigest, C : !RegistryClient}.

Lemma parseBottleTab_ok value target allBottle t :
  parseBottleTab value target allBottle = Ok t →
  tab_Arch t = (if allBottle then "" else expected_tab_arch (op_Architecture target)) ∧
  NoDup (rd_FullName <$> tab_Dependencies t) ∧ ∀ x, x ∈ rd_FullName <$> tab_Dependencies t → x ≠ "".
Proof.
  unfold parseBottleTab, parseBottleTabWith. intros H. apply bind_ok in H as (raw & _ & H). apply bind_ok in H as (? & _ & H).
  do 2 apply bind_ok in H as (? & _ & H). apply bind_ok in H as (w & _ & H). apply bind_ok in H as (? & _ & H).
  apply bind_ok in H as (u & Ha & H). apply bind_ok in H as (deps & Hd & H). apply bind_ok in H as (ch & _ & [= <-]). cbn.
  split.
  - destruct allBottle; res_inv Ha; by case_bool.
  - apply tab_dependencies_ok in Hd as [Hnd Hx]. rewrite sort_by_fmap_Permutation. split; [done|].
    intros y. rewrite sort_by_fmap_Permutation. intros [_ [s Hs%canonicalDependencyName_ok]]%Hx. done.
Qed.

Lemma ResolveFormulaReference_ok f reference :
  ResolveFormulaReference f = Ok reference →
  o_Name f ≠ "" ∧ o_StableVersion f ≠ "" ∧ fr_PkgVersion reference ≠ "" ∧ fr_CanonicalRepository reference ≠ "".
Proof.
  unfold ResolveFormulaReference. intros H. apply bind_ok in H as (? & Hv & H). apply bind_ok in H as (? & _ & H).
  apply bind_ok in H as (p & Hp & H). apply bind_ok in H as (t & _ & [= <-]). cbn.
  unfold validateFormulaIdentity in Hv. apply bind_ok in Hv as (? & [Hn _]%validateFormulaName_bytes & _).
  unfold OciReference.PkgVersion in Hp. apply bind_ok in Hp as (? & Hc%check_ok & Hp). case_bool.
  do 2 apply bind_ok in Hp as (? & _ & Hp).
  split_and!; try done. destruct (o_Revision f =? 0); injection Hp as <-; [done|].
  by destruct (o_StableVersion f).
Qed.

Lemma expected_tag_nonempty arch : expected_tag arch ≠ "".
Proof. unfold expected_tag. by case_bool_decide. Qed.

Lemma tag_ok b target :
  (rb_selectedBottleTag (res_bottle b) = BottleTagAll ∨ rb_selectedBottleTag (res_bottle b) = expected_tag (op_Architecture target)) →
  op_OS target = "linux" →
  selected_platform (od_Platform (rb_manifest (res_bottle b))) target (bool_decide (rb_selectedBottleTag (res_bottle b) = BottleTagAll)) →
  tab_Arch (rb_tab (res_bottle b)) = (if bool_decide (rb_selectedBottleTag (res_bottle b) = BottleTagAll) then ""
                                      else expected_tab_arch (op_Architecture target)) →
  tag_wf (op_Architecture target) (ResolutionBottle b).
Proof.
  intros Htag Hos Hp Ha. unfold tag_wf. cbn. rewrite Ha. case_bool_decide as Hall; cbn in Hp.
  - left. by rewrite Hp.
  - right. destruct Htag as [?|Htag]; [done|]. destruct Hp as (p & -> & ? & ? & ? & _). split_and!; [done..|]. cbn. congruence.
Qed.

(** The annotations that name a Homebrew bottle *)
Definition published (m : gmap string string) (pkgVersion refName title : string) : Prop :=
  annotation m annotationPackageType = "homebrew_bottle" ∧ annotation m AnnotationTitle = title ∧ annotation m AnnotationVersion = pkgVersion ∧
  annotation m AnnotationRefName = refName ∧ strings_EqualFold (annotation m AnnotationVendor) "homebrew" = true ∧
  strings_HasPrefix (strings_ToLower (annotation m AnnotationSource)) "https://github.com/homebrew/homebrew-core/" = true.

Lemma validateCommonAnnotations_ok m name pkgVersion refName title :
  validateCommonAnnotations m name pkgVersion refName title = Ok tt → published m pkgVersion refName title.
Proof.
  unfold validateCommonAnnotations, expect_annotation. cbn [foldM_res fst snd]. intros (? & H1 & H)%bind_ok.
  apply bind_ok in H as (? & H2%check_ok%negb_false_iff & H). apply bind_ok in H as (? & H3%check_ok%negb_false_iff & _).
  apply bind_ok in H1 as (? & Ha%check_ok%negb_false_iff%bool_decide_eq_true & H1). apply bind_ok in H1 as (? & Hb%check_ok%negb_false_iff%bool_decide_eq_true & H1).
  apply bind_ok in H1 as (? & Hc%check_ok%negb_false_iff%bool_decide_eq_true & H1). apply bind_ok in H1 as (? & Hd%check_ok%negb_false_iff%bool_decide_eq_true & _).
  by split_and!.
Qed.

Lemma Resolve_inv limits f target r :
  Resolve limits f target = Ok r →
  res_Formula r = f ∧ op_OS target = "linux" ∧ ∃ reference, ResolveFormulaReference f = Ok reference ∧
  chain_verified limits (o_Name f) (o_BottleRebuild f) (o_BottleFiles f) reference target (o_Name f) (o_Name f) published parseBottleTab (res_bottle r).
Proof.
  unfold Resolve. intros H. apply bind_ok in H as (? & (Hos & _)%validateTarget_ok & H).
  apply bind_ok in H as (reference & Hr%map_err_ok & H). apply bind_ok in H as (b & Hb & [= <-]).
  apply (resolveDescriptorChain_ok _ _ _ _ _ _ _ _ _ published) in Hb; [cbn; by eauto|]. intros m p n t. apply validateCommonAnnotations_ok.
Qed.

Lemma ResolutionNode_deps r :
  dep_names (ResolutionNode r) ≡ₚ rd_FullName <$> tab_Dependencies (rb_tab (res_bottle r)).
Proof. unfold dep_names. cbn. by rewrite sort_by_fmap_Permutation, <-list_fmap_compose. Qed.

Lemma Resolve_node `{!RegistryLaws} limits f target r :
  Resolve limits f target = Ok r → node_wf (op_Architecture target) (ResolutionNode r).
Proof.
  intros (Hf & Hos & reference & (Hn & Hv & Hp & Hr)%ResolveFormulaReference_ok & Hc)%Resolve_inv.
  destruct Hc as [Href Htag (file & Hfile & Hsha & _ & Hhex) Hfn _ (ib & ix & _ & [Hidig Hisz] & Hix & _) [Hmt Hpl] _ _ Hlay (Hdm & Hdc & Hdl) Hplat _ Htab _].
  apply BottleFilename_ok in Hfn as (Hfn1 & Hfn2 & Hfn3 & _).
  apply parseBottleTab_ok in Htab as (Harch & Hnd & Hne). rewrite Hsha in Hhex. apply checksum_ok in Hhex as [Hhex Hlow].
  pose proof (tag_ok r target Htag Hos Hplat Harch) as Htw.
  unfold ResolutionNode. split; cbn; rewrite ?Hf, ?Href; try done.
  - split_and!; try done. destruct Htag as [-> | ->]; [done|]. apply expected_tag_nonempty.
  - rewrite !Forall_cons. split_and!; [| | | |constructor].
    + split; cbn; [rewrite <-Hidig; apply FromBytes_sha256| |rewrite Hmt; by vm_compute].
      rewrite <-Hisz. destruct ib as [|c s]; [|rewrite strlen_cons; pose proof (strlen_nonneg s); lia].
      by rewrite decode_index_empty in Hix.
    + eapply sound_descriptor_wf; [done|by vm_compute].
    + eapply sound_descriptor_wf; [done|by vm_compute].
    + eapply sound_descriptor_wf; [done|by vm_compute].
  - fold (strings_ToLower (rb_homebrewSHA256 (res_bottle r))). by rewrite Hlow.
  - pose proof (ResolutionNode_deps r) as Hd. unfold ResolutionNode in Hd. rewrite Hf, Href in Hd. rewrite Hd.
    split; [done|]. intros Hin. by apply (Hne "").
Qed.

(** ** Properties *)

(** C25: A bottle [Resolve] returns was selected from the authenticated metadata for the
    target's tag or [all], and every document on the way was fetched and checked: the
    index and the manifest were answered under their media types, the child is the only
    one with the expected ref-name, manifest, config and layer have sound descriptors of
    their media types, and the bytes of each document have the digest and size of its
    descriptor. Index and manifest are of schema 2, of their own media type if they state
    one, and published for this Formula and version; the manifest repeats the child's
    annotations and has one layer, with the authenticated checksum, the stated size and
    the bottle's file name; the config is for the target (or, for [all], for a platform
    Homebrew has) and names one layer. *)
Theorem Resolve_verified limits f target r (Hr : Resolve limits f target = Ok r) :
  ∃ reference, ResolveFormulaReference f = Ok reference ∧
    chain_verified limits (o_Name f) (o_BottleRebuild f) (o_BottleFiles f) reference target (o_Name f) (o_Name f) published parseBottleTab (res_bottle r).
Proof. by apply Resolve_inv in Hr as (_ & _ & ?). Qed.

(** The node [ResolutionNode] builds from a resolved bottle passes every
    check the resolution record makes of a node. *)
Theorem Resolve_node_wf `{!RegistryLaws} limits f target r (Hr : Resolve limits f target = Ok r) :
  node_wf (op_Architecture target) (ResolutionNode r).
Proof. by eapply Resolve_node. Qed.

End node.

(** [parseExecutablePaths] accepts exactly the comma-separated lists of
    distinct, trimmed, clean paths that stay below their directory, and returns
    them sorted. *)
Theorem parseExecutablePaths_contained value paths (Hp : parseExecutablePaths value = Ok paths) :
  NoDup paths ∧ StronglySorted String.le paths ∧ Forall contained paths ∧
  (value ≠ "" → paths ≡ₚ strings_Split value ",").
Proof.
  unfold parseExecutablePaths in Hp. case_bool_decide as Hv.
  { injection Hp as <-. split_and!; [constructor..|done]. }
  apply bind_ok in Hp as (u & (Hb & Hnd & _)%accept_unique_ok & [= <-]).
  split_and!; [by rewrite slices_Sort_Permutation|apply slices_Sort_sorted| |intros _; apply slices_Sort_Permutation].
  rewrite Forall_forall. intros p Hin. rewrite elem_of_slices_Sort in Hin. rewrite Forall_forall in Hb.
  specialize (Hb p Hin). unfold bad_executable in Hb. case_bool. by apply path_Clean_contained.
Qed.

Lemma parseExecutablePaths_contained_witness :
  parseExecutablePaths "sbin/b,bin/a" = Ok ["bin/a"; "sbin/b"] ∧ Forall contained ["bin/a"; "sbin/b"].
Proof.
  split; [vm_compute; reflexivity|].
  apply (parseExecutablePaths_contained "sbin/b,bin/a"). vm_compute. reflexivity.
Defined.

(** [validateChangedFiles] accepts the parent directory [..] as a changed
    file, which [parseExecutablePaths] refuses; it is the only accepted path
    that leaves its directory. *)
Theorem validateChangedFiles_parent values paths :
  validateChangedFiles [".."] = Ok [".."] ∧ parseExecutablePaths ".." = Err (RExecutable "..") ∧
  (validateChangedFiles values = Ok paths → Forall (λ p, p = ".." ∨ contained p) paths).
Proof.
  split_and!; [reflexivity|reflexivity|]. unfold validateChangedFiles.
  intros (u & (Hb & _)%accept_unique_ok & [= <-])%bind_ok. rewrite Forall_forall in *.
  intros p Hin. rewrite elem_of_slices_Sort in Hin. specialize (Hb p Hin). unfold bad_changed_file in Hb. case_bool.
  destruct (decide (p = "..")); [by left|]. right. by apply path_Clean_contained.
Qed.

(** The size annotation is read only in canonical form: the accepted
    strings are exactly the decimal spellings of the positive 64-bit integers. *)
Theorem parseCanonicalPositiveInt_iff value n :
  parseCanonicalPositiveInt value = Ok n ↔ value = strconv_Itoa n ∧ 0 < n <= max_int.
Proof.
  unfold parseCanonicalPositiveInt. split.
  - intros H. res_inv H. destruct (strconv_Atoi value) as [p|] eqn:Ep; [|done]. res_inv H. case_bool.
    apply Atoi_range in Ep. split; [done|lia].
  - intros (-> & Hn). destruct (Itoa_digits n) as [Hne _]; [lia|]. rewrite bool_decide_eq_false_2 by done. cbn.
    rewrite Atoi_Itoa by lia. rewrite bool_decide_eq_true_2 by done.
    assert ((n <=? 0) = false) as -> by (apply Z.leb_gt; lia). done.
Qed.

(** ** A concrete registry: one Formula with one bottle *)

Module Example.

Definition hex_of (c : ascii) : string := map_bytes (λ _, c) example_hex.
Definition index_digest : string := "sha256:" +:+ hex_of "a".
Definition manifest_digest : string := "sha256:" +:+ hex_of "b".
Definition config_digest : string := "sha256:" +:+ hex_of "c".

Definition target : OPlatform := MkOPlatform "linux" "amd64" "" [].

Definition formula : Formula :=
  MkFormula "jq" "jq" "1.7.1" 0 0 0 "MIT" false {["x86_64_linux" := MkBottleFile ":any" example_hex]}.

Definition common (refName title : string) : gmap string string :=
  list_to_map [(annotationPackageType, homebrewBottlePackageType); (AnnotationTitle, title); (AnnotationVersion, "1.7.1");
    (AnnotationRefName, refName); (AnnotationVendor, "Homebrew");
    (AnnotationSource, "https://github.com/Homebrew/homebrew-core/blob/HEAD/Formula/j/jq.rb")].

Definition child_annotations : gmap string string :=
  list_to_map [(AnnotationRefName, "1.7.1.x86_64_linux"); (annotationBottleDigest, example_hex);
    (annotationBottleTab, "TAB"); (annotationPathExecFiles, "bin/jq")].

Definition child : ODescriptor :=
  MkODescriptor MediaTypeImageManifest manifest_digest 8 [] child_annotations "" (Some (MkOPlatform "linux" "amd64" "" [])) "".

Definition config : ODescriptor := MkODescriptor MediaTypeImageConfig config_digest 6 [] ∅ "" None "".

Definition layer : ODescriptor :=
  MkODescriptor MediaTypeImageLayerGzip ("sha256:" +:+ example_hex) 100 []
    {[AnnotationTitle := "jq--1.7.1.x86_64_linux.bottle.tar.gz"]} "" None "".

Definition index : Index := MkIndex 2 MediaTypeImageIndex "" [child] None (common "1.7.1" "jq").

Definition manifest : Manifest :=
  MkManifest 2 MediaTypeImageManifest "" config [layer] None
    (child_annotations ∪ common "1.7.1.x86_64_linux" "jq 1.7.1.x86_64_linux").

Definition tab : bottleTabWire :=
  MkTabWire "4.4.0" "x86_64" "gcc" ["lib/pkgconfig/jq.pc"] (MkBuiltOnWire "Linux" "" "" "" "2.39")
    [MkDependencyWire "oniguruma" "6.9.9" 0 0 None true].

Definition registry : RegistryClient :=
  {| doRegistryGET _ kind reference _ :=
       if bool_decide (reference = "1.7.1") then Some (MkResponse 200 "" MediaTypeImageIndex (-1) "" (Some "INDEX"))
       else if bool_decide (reference = manifest_digest) then
         Some (MkResponse 200 "" MediaTypeImageManifest 8 manifest_digest (Some "MANIFEST"))
       else if bool_decide (reference = config_digest) then Some (MkResponse 200 "identity" "" 6 "" (Some "CONFIG"))
       else None;
     digest_FromBytes b :=
       if bool_decide (b = "MANIFEST") then manifest_digest
       else if bool_decide (b = "CONFIG") then config_digest else index_digest;
     mime_ParseMediaType s := Some s;
     decode_index b := if bool_decide (b = "INDEX") then Some index else None;
     decode_manifest b := if bool_decide (b = "MANIFEST") then Some manifest else None;
     decode_config b := if bool_decide (b = "CONFIG") then Some (MkImage "amd64" "linux" "layers" [config_digest]) else None;
     decode_members b := Some {["homebrew_version" := JString "4.4.0"; "runtime_dependencies" := JArray []]};
     decode_tab b := if bool_decide (b = "TAB") then Some tab else None |}.

Lemma laws : @RegistryLaws sha256_only registry.
Proof.
  split; [|reflexivity]. intros b. cbn. repeat case_bool_decide; split; vm_compute; reflexivity.
Qed.

Definition resolved : result resolve_error Result := @Resolve ascii_tables sha256_only registry DefaultLimits formula target.

Definition answer : option Result := match resolved with Ok r => Some r | Err _ => None end.

End Example.

Lemma Resolve_verified_witness :
  ∃ r, Example.answer = Some r ∧
       od_Digest (rb_layer (res_bottle r)) = "sha256:" +:+ rb_homebrewSHA256 (res_bottle r).
Proof.
  destruct Example.answer as [r|] eqn:E; [|vm_compute in E; discriminate E].
  exists r. split; [reflexivity|].
  destruct (@Resolve_verified ascii_tables sha256_only Example.registry DefaultLimits Example.formula Example.target r)
    as (reference & _ & Hc); [|exact (cv_layer _ _ _ _ _ _ _ _ _ _ _ Hc)].
  unfold Example.answer, Example.resolved in E. destruct (Resolve _ _ _); [|discriminate E]. congruence.
Defined.

Lemma Resolve_node_wf_witness :
  ∃ r, Example.answer = Some r ∧ @node_wf ascii_tables sha256_only "amd64" (ResolutionNode r).
Proof.
  destruct Example.answer as [r|] eqn:E; [|vm_compute in E; discriminate E].
  exists r. split; [reflexivity|].
  apply (@Resolve_node_wf ascii_tables sha256_only Example.registry Example.laws DefaultLimits Example.formula Example.target r).
  unfold Example.answer, Example.resolved in E. destruct (Resolve _ _ _); [|discriminate E]. congruence.
Defined.
