(* ===== verification/Resolver.v ===== *)
(** * internal/resolver: the dependency closure

    [Resolve] looks the requested roots up in the metadata catalog, follows the
    signed dependencies with a work list, resolves one bottle per Formula,
    checks every minimum, orders the closure and builds the resolution record.
    The catalog and the bottle resolver are interfaces, as in the source; the
    laws the theorems use are discharged by the two implementations at the end. *)

From S2P Require Import Prelude GoStrings Graph Version Metadata Resolution OciReference OciResolve.
From stdpp Require Import options.
Local Open Scope Z_scope.

(** ** Interfaces *)

Class CatalogSource := { catalog_Lookup : string → result meta_error Match }.

(** A lookup answers with the entry of a finite catalog under its canonical name. *)
Class CatalogLaws `{!CatalogSource} := {
  cat_formula : gmap string Metadata.Formula;
  cat_lookup name m : catalog_Lookup name = Ok m → cat_formula !! mt_Canonical m = Some (mt_Formula m);
}.

Class BottleSource := { bottles_Resolve : OciReference.Formula → OPlatform → result resolve_error Result }.

(** A resolved bottle makes a valid node. *)
Class BottleLaws `{!UnicodeTables, !GoDigest, !BottleSource} : Prop :=
  bottles_node f target r : bottles_Resolve f target = Ok r → node_wf (op_Architecture target) (ResolutionNode r).

(** ** Options *)

Record SignatureInfo := MkSignatureInfo { si_KeyID : string; si_Algorithm : string; si_Verified : bool }.

Record DocumentInfo := MkDocumentInfo {
  di_URL : string; di_EnvelopeDigest : string; di_GeneratedAtSource : string; di_Signatures : list SignatureInfo;
}.

Record SnapshotInfo := MkSnapshotInfo {
  sn_Digest : string; sn_FormulaDigest : string; sn_MigrationDigest : string;
  sn_GeneratedAt : Z; sn_FetchedAt : Z; sn_Formula : DocumentInfo; sn_Migrations : DocumentInfo;
}.

Record Options := MkOptions {
  opt_SpecDigest : string; opt_TargetKey : string; opt_Now : Z; opt_Metadata : SnapshotInfo;
  opt_Components : Components; opt_Runtime : RuntimePolicy; opt_Attestation : AttestationPolicy; opt_PruningDigest : string;
}.

Inductive compat_error := CompatGlibc | CompatArch | CompatARM | CompatUnknownCPU | CompatCPU.

Inductive resolver_error :=
| RsPlatform | RsNoRoots
| RsRoot (name : string) (e : meta_error)
| RsDependency (name : string) (e : meta_error) | RsDependencyNotCanonical (name : string)
| RsNoBottle (name : string) | RsBottleRoot (name : string)
| RsBottle (name : string) (e : resolve_error) | RsCompat (name : string) (e : compat_error) | RsMismatch (name : string)
| RsSigned (name dep : string) (e : meta_error) | RsSignedNotCanonical (name dep : string)
| RsUnresolved (parent name : string) | RsUnsatisfied (parent name : string)
| RsCycle (p : list string)
| RsEpoch | RsInvalid (errs : list record_error)
| RsFuel.

(** ** Helpers *)

Definition targetTag (p : OPlatform) : string :=
  if bool_decide (op_Architecture p = "arm64") then BottleTagARM64Linux else BottleTagX8664Linux.

Definition toOCIFormula (f : Metadata.Formula) (target : OPlatform) : result resolver_error OciReference.Formula :=
  match f_Bottle f with
  | None => Err (RsNoBottle (f_Name f))
  | Some b =>
      _ ← check (negb (bool_decide (b_RootURL b = "https://ghcr.io/v2/homebrew/core"))) (RsBottleRoot (f_Name f));
      let files := foldl (λ m file, <[bf_Tag file := OciReference.MkBottleFile (bf_Cellar file) (bf_SHA256 file)]> m) ∅ (b_Files b) in
      Ok (OciReference.MkFormula (f_Name f) (f_FullName f) (f_StableVersion f) (f_Revision f) (f_VersionScheme f)
            (b_Rebuild b) (f_License f) (KegOnlyFor f (targetTag target)) files)
  end.

(** The zero [Requirement], which a missing map entry reads as *)
Definition zeroRequirement : Requirement := MkRequirement "" "" 0 0 false.

Section versions.
Context `{U : !UnicodeTables}.

(** [SplitPkgVersion] with its error ignored *)
Definition split_ignoring (v : string) : string * Z :=
  match SplitPkgVersion v with Ok p => p | Err _ => ("", 0) end.

Definition mergeRequirement (a b : Requirement) : Requirement :=
  if bool_decide (rq_Name a = "") then b
  else if bool_decide (rq_Name b = "") then a
  else
    let direct := rq_Direct a || rq_Direct b in
    let '(as_, ar) := split_ignoring (rq_Minimum a) in
    let '(bs, br) := split_ignoring (rq_Minimum b) in
    if bool_decide (rq_Minimum a = "") || (0 <? Version.Compare bs as_) || ((Version.Compare bs as_ =? 0) && (ar <? br))
    then MkRequirement (rq_Name a) (rq_Minimum b) (rq_Revision b) (rq_BottleRebuild b) direct
    else MkRequirement (rq_Name a) (rq_Minimum a) (rq_Revision a) (rq_BottleRebuild a) direct.

Definition satisfies (node : Node) (req : Requirement) : bool :=
  match SplitPkgVersion (rq_Minimum req) with
  | Err _ => false
  | Ok (minVersion, minRevision) =>
      let minRev := Z.max (rq_Revision req) minRevision in
      if negb (AtLeast (n_FormulaVersion node) (n_FormulaRevision node) minVersion minRev) then false
      else if (Version.Compare (n_FormulaVersion node) minVersion =? 0) && (n_FormulaRevision node =? minRev)
      then rq_BottleRebuild req <=? n_BottleRebuild node
      else true
  end.

Definition cpu_rank (family : string) : option Z :=
  (list_to_map [("x86_64", 0); ("core2", 1); ("penryn", 2); ("nehalem", 3); ("westmere", 4); ("sandybridge", 5);
     ("ivybridge", 6); ("haswell", 7); ("broadwell", 8); ("skylake", 9); ("zen", 10); ("zen2", 11); ("zen3", 12);
     ("zen4", 13)] : gmap string Z) !! family.

Definition validateRuntimeCompatibility (tab : BottleTab) (target : OPlatform) : result compat_error unit :=
  let glibc := bo_GlibcVersion (tab_BuiltOn tab) in
  _ ← check (negb (bool_decide (glibc = "")) && (0 <? Version.Compare glibc "2.39")) CompatGlibc;
  if bool_decide (tab_Arch tab = "") then Ok tt
  else
    let arm := bool_decide (op_Architecture target = "arm64") in
    let expectedArch := if arm then "arm64" else "x86_64" in
    _ ← check (negb (bool_decide (tab_Arch tab = expectedArch))) CompatArch;
    let oldest := strings_ToLower (bo_OldestCPUFamily (tab_BuiltOn tab)) in
    if arm then
      check (negb (bool_decide (oldest = "")) && negb (bool_decide (oldest = "armv8")) && negb (bool_decide (oldest = "arm"))) CompatARM
    else if bool_decide (oldest = "") then Ok tt
    else match cpu_rank oldest with
         | None => Err CompatUnknownCPU
         | Some r => check (1 <? r) CompatCPU
         end.

End versions.

Definition mapRequirements (deps : gmap string Requirement) : list Requirement :=
  sort_by rq_Name ((map_to_list deps).*2).

Definition graph_deps (graph : gmap string (gmap string Requirement)) (name : string) : list string :=
  slices_Sort ((map_to_list (default ∅ (graph !! name))).*1).

(** [topoOrder]; the recursion is no deeper than the graph. *)
Definition topoOrder (graph : gmap string (gmap string Requirement)) (roots : list RequestedRoot) : result resolver_error (list string) :=
  match dfs (graph_deps graph) (size graph) (rr_Canonical <$> roots) with
  | Ok order => Ok order
  | Err (Cycle p) => Err (RsCycle p)
  | Err OutOfFuel => Err RsFuel
  end.

(** ** The work list *)

Record rstate := MkState {
  st_queue : list string; st_matches : gmap string Metadata.Formula;
  st_nodes : gmap string Node; st_graph : gmap string (gmap string Requirement);
}.

Section resolve.
Context `{U : !UnicodeTables, G : !GoDigest, Cat : !CatalogSource, B : !BottleSource}.

(** The loop over the requested roots *)
Definition resolve_root (target : OPlatform) (acc : list RequestedRoot * list string * gmap string Metadata.Formula) (name : string)
    : result resolver_error (list RequestedRoot * list string * gmap string Metadata.Formula) :=
  let '(requested, queue, matches) := acc in
  m ← map_err (RsRoot name) (catalog_Lookup name);
  let queue := if bool_decide (is_Some (matches !! mt_Canonical m)) then queue else queue ++ [mt_Canonical m] in
  Ok (requested ++ [MkRequestedRoot name (mt_Canonical m) (KegOnlyFor (mt_Formula m) (targetTag target))],
      queue, <[mt_Canonical m := mt_Formula m]> matches).

(** The Formula of a queued name: already matched, or looked up now *)
Definition find_formula (matches : gmap string Metadata.Formula) (name : string) : result resolver_error Metadata.Formula :=
  match matches !! name with
  | Some f => Ok f
  | None =>
      m ← map_err (RsDependency name) (catalog_Lookup name);
      _ ← check (negb (bool_decide (mt_Kind m = MatchCanonical)) || negb (bool_decide (mt_Canonical m = name)))
            (RsDependencyNotCanonical name);
      Ok (mt_Formula m)
  end.

Definition tab_requirements (node : Node) : gmap string Requirement :=
  foldl (λ m req, <[rq_Name req := req]> m) ∅ (n_Dependencies node).

Definition direct_requirement (tabDeps : gmap string Requirement) (name : string) : Requirement :=
  match tabDeps !! name with
  | Some req => MkRequirement (rq_Name req) (rq_Minimum req) (rq_Revision req) (rq_BottleRebuild req) true
  | None => MkRequirement name "" 0 0 true
  end.

(** The loop over the signed dependencies of [name] *)
Definition signed_dependency (name : string) (nodes : gmap string Node) (tabDeps : gmap string Requirement)
    (acc : list string * gmap string Metadata.Formula * gmap string Requirement) (dep : string)
    : result resolver_error (list string * gmap string Metadata.Formula * gmap string Requirement) :=
  let '(queue, matches, deps) := acc in
  m ← map_err (RsSigned name dep) (catalog_Lookup dep);
  _ ← check (negb (bool_decide (mt_Kind m = MatchCanonical)) || negb (bool_decide (mt_Canonical m = dep)))
        (RsSignedNotCanonical name dep);
  let canonical := mt_Canonical m in
  let req := direct_requirement tabDeps canonical in
  let deps := <[canonical := mergeRequirement (default zeroRequirement (deps !! canonical)) req]> deps in
  let queue := if bool_decide (is_Some (nodes !! canonical)) then queue else queue ++ [canonical] in
  Ok (queue, <[canonical := mt_Formula m]> matches, deps).

(** One iteration of the work list for a name that was taken off the queue *)
Definition resolve_name (target : OPlatform) (st : rstate) (name : string) : result resolver_error rstate :=
  if bool_decide (is_Some (st_nodes st !! name)) then Ok st
  else
    formula ← find_formula (st_matches st) name;
    let matches := <[name := formula]> (st_matches st) in
    ociFormula ← toOCIFormula formula target;
    selected ← map_err (RsBottle name) (bottles_Resolve ociFormula target);
    _ ← map_err (RsCompat name) (validateRuntimeCompatibility (rb_tab (res_bottle selected)) target);
    let node := ResolutionNode selected in
    _ ← check (negb (bool_decide (n_Name node = name)) || negb (bool_decide (n_PkgVersion node = Formula_PkgVersion formula)))
          (RsMismatch name);
    let nodes := <[name := node]> (st_nodes st) in
    '(queue, matches, deps) ← foldM_res (signed_dependency name nodes (tab_requirements node))
      (st_queue st, matches, default ∅ (st_graph st !! name)) (DependenciesFor formula (targetTag target));
    Ok (MkState queue matches nodes (<[name := deps]> (st_graph st))).

Fixpoint resolve_loop (target : OPlatform) (fuel : nat) (st : rstate) : result resolver_error rstate :=
  match st_queue st with
  | [] => Ok st
  | name :: queue =>
      match fuel with
      | O => Err RsFuel
      | S fuel =>
          st' ← resolve_name target (MkState queue (st_matches st) (st_nodes st) (st_graph st)) name;
          resolve_loop target fuel st'
      end
  end.

(** ** Minimums *)

Definition fill_requirement (nodes : gmap string Node) (parent name : string) (req : Requirement) : result resolver_error Requirement :=
  match nodes !! name with
  | None => Err (RsUnresolved parent name)
  | Some depNode =>
      let req := if bool_decide (rq_Minimum req = "")
                 then MkRequirement (rq_Name req) (n_PkgVersion depNode) (n_FormulaRevision depNode) (n_BottleRebuild depNode) (rq_Direct req)
                 else req in
      _ ← check (negb (satisfies depNode req)) (RsUnsatisfied parent name);
      Ok req
  end.

(** The dependencies of one parent, filled and checked; Go visits them in an
    unspecified order. *)
Definition fill_parent (nodes : gmap string Node) (parent : string) (deps : gmap string Requirement)
    : result resolver_error (gmap string Requirement) :=
  foldM_res (λ m e, req ← fill_requirement nodes parent e.1 e.2; Ok (<[e.1 := req]> m)) ∅ (map_to_list deps).

Definition with_dependencies (n : Node) (deps : list Requirement) : Node :=
  MkNode (n_Name n) (n_FullName n) (n_FormulaVersion n) (n_FormulaRevision n) (n_PkgVersion n) (n_VersionScheme n)
    (n_BottleRebuild n) (n_License n) (n_KegOnly n) deps (n_Bottle n) (n_ExecutablePaths n) (n_UpstreamFormulaID n)
    (n_PolicyFormulaID n).

(** The whole loop: the nodes with their final dependencies. Only the
    [Dependencies] of a node change, which the checks do not read. *)
Definition fill_all (nodes : gmap string Node) (graph : gmap string (gmap string Requirement)) : result resolver_error (gmap string Node) :=
  foldM_res (λ acc e,
    deps ← fill_parent nodes e.1 e.2;
    Ok (match acc !! e.1 with
        | Some n => <[e.1 := with_dependencies n (mapRequirements deps)]> acc
        | None => acc
        end)) nodes (map_to_list graph).

(** ** The record *)

Definition convert_signature (s : SignatureInfo) : Signature := MkSignature (si_KeyID s) (si_Algorithm s) (si_Verified s).

(** [meta.Signatures]: the first signature for every key and algorithm *)
Fixpoint unique_signatures (seenSigs : gset string) (l : list SignatureInfo) : list Signature :=
  match l with
  | [] => []
  | s :: l =>
      let key := si_KeyID s +:+ String "000" (si_Algorithm s) in
      if bool_decide (key ∈ seenSigs) then unique_signatures seenSigs l
      else convert_signature s :: unique_signatures ({[key]} ∪ seenSigs) l
  end.

Definition snapshot_metadata (s : SnapshotInfo) : MetadataSnapshot :=
  MkMetadataSnapshot (sn_Digest s) (sn_FormulaDigest s) (sn_MigrationDigest s)
    (di_EnvelopeDigest (sn_Formula s)) (di_EnvelopeDigest (sn_Migrations s))
    (di_GeneratedAtSource (sn_Formula s)) (di_GeneratedAtSource (sn_Migrations s))
    (sn_GeneratedAt s) (sn_FetchedAt s)
    (unique_signatures ∅ (di_Signatures (sn_Formula s) ++ di_Signatures (sn_Migrations s)))
    (convert_signature <$> di_Signatures (sn_Formula s)) (convert_signature <$> di_Signatures (sn_Migrations s))
    (di_URL (sn_Formula s)) (di_URL (sn_Migrations s)).

(** [Time.Unix()] of an instant in nanoseconds since the zero [time.Time] *)
Definition time_Unix (t : Z) : Z := t / 1000000000 - 62135596800.

(** Everything up to the final validation; [clock] is [time.Now()]. *)
Definition assemble (fuel : nat) (clock : Z) (roots : list string) (target : OPlatform) (opts : Options)
    : result resolver_error Record_ :=
  _ ← check (negb (bool_decide (op_OS target = "linux"))
             || (negb (bool_decide (op_Architecture target = "amd64")) && negb (bool_decide (op_Architecture target = "arm64")))
             || negb (bool_decide (op_Variant target = "")) || negb (bool_decide (length (op_OSFeatures target) = 0%nat))) RsPlatform;
  _ ← check (bool_decide (length roots = 0%nat)) RsNoRoots;
  let now := if opt_Now opts =? 0 then clock else opt_Now opts in
  '(requested, queue, matches) ← foldM_res (resolve_root target) ([], [], ∅) roots;
  st ← resolve_loop target fuel (MkState queue matches ∅ ∅);
  nodes ← fill_all (st_nodes st) (st_graph st);
  order ← topoOrder (st_graph st) requested;
  let nodeList := sort_by n_Name ((map_to_list nodes).*2) in
  let epoch := time_Unix (sn_GeneratedAt (opt_Metadata opts)) in
  _ ← check (epoch <=? 0) RsEpoch;
  Ok (MkRecord SchemaVersion PolicyVersion
        (MkInput (opt_SpecDigest opts) (opt_TargetKey opts) (MkPlatform (op_OS target) (op_Architecture target) (op_Variant target)))
        (snapshot_metadata (opt_Metadata opts)) now epoch requested nodeList order (opt_Components opts) (opt_Runtime opts)
        (opt_Attestation opts) (opt_PruningDigest opts)).

Definition Resolve (fuel : nat) (clock : Z) (roots : list string) (target : OPlatform) (opts : Options) : result resolver_error Record_ :=
  r ← assemble fuel clock roots target opts;
  match Validate r with [] => Ok r | errs => Err (RsInvalid errs) end.

End resolve.

(** ** The signed dependency graph of the catalog *)

Section closure.
Context `{U : !UnicodeTables, G : !GoDigest, Cat : !CatalogSource, L : !CatalogLaws, B : !BottleSource}.
Variable target : OPlatform.

(** What [DependenciesFor] says of a canonical name *)
Definition cat_deps (name : string) : list string :=
  match cat_formula !! name with Some f => DependenciesFor f (targetTag target) | None => [] end.

Definition matches_good (matches : gmap string Metadata.Formula) : Prop :=
  ∀ x f, matches !! x = Some f → cat_formula !! x = Some f.

Definition names_good (deps : gmap string Requirement) : Prop := ∀ x r, deps !! x = Some r → rq_Name r = x.

Lemma matches_good_insert matches x f :
  matches_good matches → cat_formula !! x = Some f → matches_good (<[x := f]> matches).
Proof. intros Hm Hx y g [[-> ->]|[_ ?]]%lookup_insert_Some; auto. Qed.

Lemma names_good_insert deps x r : names_good deps → rq_Name r = x → names_good (<[x := r]> deps).
Proof. intros Hd Hr y s [[-> ->]|[_ ?]]%lookup_insert_Some; auto. Qed.

Lemma mergeRequirement_name a b x :
  (rq_Name a = x ∨ rq_Name a = "") → rq_Name b = x → rq_Name (mergeRequirement a b) = x.
Proof.
  intros Ha Hb. unfold mergeRequirement. case_bool_decide; [done|]. destruct Ha as [Ha|]; [|done].
  case_bool_decide; [congruence|].
  destruct (split_ignoring (rq_Minimum a)), (split_ignoring (rq_Minimum b)). by destruct (_ || _).
Qed.

Lemma tab_requirements_good n : names_good (tab_requirements n).
Proof.
  unfold tab_requirements. assert (names_good ∅) as H0 by (intros x r; by rewrite lookup_empty).
  revert H0. generalize (∅ : gmap string Requirement) as m.
  induction (n_Dependencies n) as [|r l IH]; intros m Hm; cbn; [done|]. apply IH. by apply names_good_insert.
Qed.

Lemma direct_requirement_name tabDeps x : names_good tabDeps → rq_Name (direct_requirement tabDeps x) = x.
Proof. intros H. unfold direct_requirement. destruct (tabDeps !! x) as [r|] eqn:E; [cbn; by apply H|done]. Qed.

Definition roots_inv (l : list string) (acc : list RequestedRoot * list string * gmap string Metadata.Formula) : Prop :=
  let '(requested, queue, matches) := acc in
  matches_good matches ∧ (∀ x, x ∈ queue ↔ x ∈ rr_Canonical <$> requested) ∧
  (length queue ≤ length l)%nat ∧ rr_Requested <$> requested = l ∧
  ∀ x, is_Some (matches !! x) → x ∈ queue.

Lemma resolve_root_ok roots acc :
  foldM_res (resolve_root target) ([], [], ∅) roots = Ok acc → roots_inv roots acc.
Proof.
  apply (foldM_res_inv roots_inv).
  { split_and!; [intros x f; by rewrite lookup_empty|done|done|done|]. intros x. by rewrite lookup_empty; intros []. }
  intros l name [[rq q] ms] [[rq' q'] ms'] (Hm & Hq & Hl & Hn & Hd) _ H. unfold resolve_root in H.
  apply bind_ok in H as (m & Hk%map_err_ok & H). apply cat_lookup in Hk. injection H as <- <- <-.
  set (queue' := if bool_decide _ then _ else _).
  assert (∀ x, x ∈ queue' ↔ x ∈ q ∨ x = mt_Canonical m) as Hqueue.
  { intros x. subst queue'. case_bool_decide as Hin; [|set_solver]. apply Hd in Hin. set_solver. }
  split_and!.
  - by apply matches_good_insert.
  - intros x. rewrite Hqueue, fmap_app, elem_of_app, Hq. cbn. set_solver.
  - subst queue'. case_bool_decide; rewrite ?length_app; cbn; lia.
  - rewrite fmap_app, Hn. done.
  - intros x. rewrite lookup_insert_is_Some', Hqueue. intros [->|?]; auto.
Qed.

(** What the loop over the signed dependencies does *)
Record signed_spec (nodes : gmap string Node) (l : list string) (q q' : list string)
    (matches' : gmap string Metadata.Formula) (deps deps' : gmap string Requirement) : Prop := {
  ss_matches : matches_good matches';
  ss_names : names_good deps';
  ss_dom x : is_Some (deps' !! x) ↔ is_Some (deps !! x) ∨ x ∈ l;
  ss_queue x : x ∈ q' → x ∈ q ∨ x ∈ l;
  ss_keep x : x ∈ q → x ∈ q';
  ss_new x : x ∈ l → is_Some (nodes !! x) ∨ x ∈ q';
  ss_length : (length q' ≤ length q + length l)%nat;
}.

Lemma signed_dependency_ok name nodes tabDeps q matches deps l q' matches' deps' :
  matches_good matches → names_good deps → names_good tabDeps →
  foldM_res (signed_dependency name nodes tabDeps) (q, matches, deps) l = Ok (q', matches', deps') →
  signed_spec nodes l q q' matches' deps deps'.
Proof.
  intros Hm Hd Ht.
  apply (foldM_res_inv (λ l (acc : list string * gmap string Metadata.Formula * gmap string Requirement),
    let '(q', ms', ds') := acc in signed_spec nodes l q q' ms' deps ds')).
  { split; [done..| | | |set_solver|cbn; lia]; set_solver. }
  intros l0 dep [[q1 m1] d1] [[q2 m2] d2] [Sm Sn Sd Sq Sk Sw Sl] _ H. unfold signed_dependency in H.
  apply bind_ok in H as (m & Hk%map_err_ok%cat_lookup & H). apply bind_ok in H as (u & Hc%check_ok & H).
  apply orb_false_iff in Hc as [_ Hc%negb_false_iff%bool_decide_eq_true]. rewrite Hc in *. injection H as <- <- <-.
  split.
  - by apply matches_good_insert.
  - apply names_good_insert; [done|]. apply mergeRequirement_name; [|by apply direct_requirement_name].
    destruct (d1 !! dep) as [r|] eqn:E; cbn; [left; by apply Sn|by right].
  - intros x. rewrite lookup_insert_is_Some', Sd. set_solver.
  - intros x. case_bool_decide; set_solver.
  - intros x ?%Sk. case_bool_decide; set_solver.
  - intros x [?%Sw| ->%list_elem_of_singleton]%elem_of_app; case_bool_decide; set_solver.
  - case_bool_decide; rewrite !length_app; cbn; lia.
Qed.

(** The invariant of the work list *)
Record loop_inv (roots : list string) (st : rstate) : Prop := {
  li_matches : matches_good (st_matches st);
  li_node x n : st_nodes st !! x = Some n →
    n_Name n = x ∧ is_Some (cat_formula !! x) ∧ ∃ f sel, bottles_Resolve f target = Ok sel ∧ n = ResolutionNode sel;
  li_dom x : is_Some (st_graph st !! x) ↔ is_Some (st_nodes st !! x);
  li_graph x g : st_graph st !! x = Some g → names_good g ∧ ∀ d, is_Some (g !! d) ↔ d ∈ cat_deps x;
  li_closed x d : is_Some (st_nodes st !! x) → d ∈ cat_deps x → is_Some (st_nodes st !! d) ∨ d ∈ st_queue st;
  li_roots x : x ∈ roots → is_Some (st_nodes st !! x) ∨ x ∈ st_queue st;
  li_reach x : is_Some (st_nodes st !! x) ∨ x ∈ st_queue st → reachable cat_deps roots x;
}.

Lemma find_formula_ok matches name f :
  matches_good matches → find_formula matches name = Ok f → cat_formula !! name = Some f.
Proof.
  unfold find_formula. intros Hm. destruct (matches !! name) as [g|] eqn:E; [intros [= <-]; by apply Hm|].
  intros (m & Hk%map_err_ok%cat_lookup & H)%bind_ok. apply bind_ok in H as (u & Hc%check_ok & [= <-]).
  apply orb_false_iff in Hc as [_ Hc%negb_false_iff%bool_decide_eq_true]. by rewrite <-Hc.
Qed.

(** An iteration that does new work *)
Lemma resolve_name_new st name st' :
  st_nodes st !! name = None → matches_good (st_matches st) → st_graph st !! name = None →
  resolve_name target st name = Ok st' →
  ∃ f ociFormula sel deps, cat_formula !! name = Some f ∧
    bottles_Resolve ociFormula target = Ok sel ∧ n_Name (ResolutionNode sel) = name ∧
    st_nodes st' = <[name := ResolutionNode sel]> (st_nodes st) ∧
    st_graph st' = <[name := deps]> (st_graph st) ∧
    signed_spec (st_nodes st') (cat_deps name) (st_queue st) (st_queue st') (st_matches st') ∅ deps.
Proof.
  intros Hn Hm Hg H. unfold resolve_name in H. rewrite Hn, bool_decide_eq_false_2 in H by (by intros ?%is_Some_None).
  apply bind_ok in H as (f & Hf & H). apply find_formula_ok in Hf; [|done].
  apply bind_ok in H as (oci & _ & H). apply bind_ok in H as (sel & Hs%map_err_ok & H).
  apply bind_ok in H as (u & _ & H). apply bind_ok in H as (u' & Hc%check_ok & H).
  apply orb_false_iff in Hc as [Hname%negb_false_iff%bool_decide_eq_true _].
  apply bind_ok in H as ([[q ms] deps] & Hfold & [= <-]). cbn [st_nodes st_graph st_queue st_matches].
  rewrite Hg in Hfold. cbn [default from_option] in Hfold.
  exists f, oci, sel, deps. split_and!; try done. unfold cat_deps. rewrite Hf.
  eapply signed_dependency_ok; [| |apply tab_requirements_good|exact Hfold].
  - by apply matches_good_insert.
  - intros x r. by rewrite lookup_empty.
Qed.

Lemma resolve_name_inv roots queue st name st' :
  st_queue st = name :: queue → loop_inv roots st →
  resolve_name target (MkState queue (st_matches st) (st_nodes st) (st_graph st)) name = Ok st' →
  loop_inv roots st'.
Proof.
  intros Hq [Im In Id Ig Ic Ir Ire] H. rewrite Hq in *.
  destruct (st_nodes st !! name) as [n|] eqn:En.
  { unfold resolve_name in H. cbn [st_nodes] in H. rewrite En, bool_decide_eq_true_2 in H by eauto.
    injection H as <-. split; cbn; try done.
    - intros x d Hx Hd. destruct (Ic x d Hx Hd) as [?|[->|?]%elem_of_cons]; auto.
    - intros x Hx. destruct (Ir x Hx) as [?|[->|?]%elem_of_cons]; auto.
    - intros x Hx. apply Ire. set_solver. }
  assert (st_graph st !! name = None) as Hg.
  { apply eq_None_not_Some. intros Hs%Id. rewrite En in Hs. by apply is_Some_None in Hs. }
  apply resolve_name_new in H as (f & oci & sel & deps & Hf & Hs & Hname & Hnodes & Hgraph & [Sm Sn Sd Sq Sk Sw Sl]);
    [|done..]. cbn [st_nodes st_graph st_queue st_matches] in *.
  assert (∀ x, is_Some (st_nodes st' !! x) ↔ x = name ∨ is_Some (st_nodes st !! x)) as Hin.
  { intros x. rewrite Hnodes, lookup_insert_is_Some'. split; intros [?|?]; auto. }
  split; try done.
  - intros x n. rewrite Hnodes. intros [[<- <-]|[_ ?]]%lookup_insert_Some; [|by apply In]. split_and!; [done|by eauto|by eauto].
  - intros x. rewrite Hin, Hgraph, lookup_insert_is_Some', Id. split; intros [?|?]; auto.
  - intros x g. rewrite Hgraph. intros [[<- <-]|[_ ?]]%lookup_insert_Some; [|by apply Ig].
    split; [done|]. intros d. rewrite Sd, lookup_empty. split; [|by right]. by intros [?%is_Some_None|?].
  - intros x d [->|Hx]%Hin Hd; [by apply Sw|].
    destruct (Ic x d Hx Hd) as [?|[->|?]%elem_of_cons]; [left|left|right]; [by apply Hin; right|by apply Hin; left|by apply Sk].
  - intros x Hx. destruct (Ir x Hx) as [?|[->|?]%elem_of_cons]; [left|left|right]; [by apply Hin; right|by apply Hin; left|by apply Sk].
  - intros x [[->|Hx]%Hin|[?|Hd]%Sq]; [apply Ire; set_solver|apply Ire; by left|apply Ire; set_solver|].
    destruct (Ire name) as (r & Hr & Hrtc); [set_solver|]. exists r. split; [done|]. by eapply rtc_r.
Qed.

Lemma resolve_loop_inv roots fuel st st' :
  loop_inv roots st → resolve_loop target fuel st = Ok st' → loop_inv roots st' ∧ st_queue st' = [].
Proof.
  revert st. induction fuel as [|fuel IH]; intros st Hi; cbn [resolve_loop].
  { destruct (st_queue st) as [|name queue] eqn:Eq; [by intros [= <-]|done]. }
  destruct (st_queue st) as [|name queue] eqn:Eq; [by intros [= <-]|].
  intros (st1 & H1 & H2)%bind_ok. eapply IH; [|done]. by eapply resolve_name_inv.
Qed.

(** ** Termination *)

Definition dep_bound : nat := foldr (λ e, max (length (cat_deps e.1))) 0%nat (map_to_list cat_formula).

Lemma cat_deps_bound x : (length (cat_deps x) ≤ dep_bound)%nat.
Proof.
  unfold dep_bound. destruct (cat_formula !! x) as [f|] eqn:E; [|unfold cat_deps; rewrite E; cbn; lia].
  apply elem_of_map_to_list in E. induction (map_to_list cat_formula) as [|e l IH]; [by apply not_elem_of_nil in E|].
  cbn [foldr]. apply elem_of_cons in E as [<-|E]; cbn [fst]; [lia|]. specialize (IH E). lia.
Qed.

(** The work a state still holds: every name not yet resolved can put at most
    [dep_bound] names on the queue. *)
Definition work (st : rstate) : nat :=
  (length (st_queue st) + S dep_bound * (size cat_formula - size (st_nodes st)))%nat.

Lemma nodes_size roots st : loop_inv roots st → (size (st_nodes st) ≤ size cat_formula)%nat.
Proof.
  intros Hi. rewrite <-!size_dom. apply subseteq_size. intros x [n Hn]%elem_of_dom. apply elem_of_dom.
  by apply (li_node _ _ Hi) in Hn as (_ & ? & _).
Qed.

Lemma resolve_name_work roots queue st name st' :
  st_queue st = name :: queue → loop_inv roots st →
  resolve_name target (MkState queue (st_matches st) (st_nodes st) (st_graph st)) name = Ok st' →
  (work st' < work st)%nat.
Proof.
  intros Hq Hi H. pose proof (resolve_name_inv roots queue st name st' Hq Hi H) as Hi'. unfold work. rewrite Hq.
  destruct (st_nodes st !! name) as [n|] eqn:En.
  { unfold resolve_name in H. cbn [st_nodes] in H. rewrite En, bool_decide_eq_true_2 in H by eauto.
    injection H as <-. cbn. lia. }
  apply nodes_size in Hi' as Hsz. destruct Hi as [Im _ Id _ _ _ _].
  apply resolve_name_new in H as (f & oci & sel & deps & _ & _ & _ & Hnodes & _ & [_ _ _ _ _ _ Sl]);
    [|done|done|apply eq_None_not_Some; intros Hs%Id; rewrite En in Hs; by apply is_Some_None in Hs].
  cbn [st_nodes st_queue] in *. rewrite Hnodes, map_size_insert_None in * by done.
  pose proof (cat_deps_bound name). cbn [length]. nia.
Qed.

(** The errors that only the loop and the ordering raise *)
Definition late (e : resolver_error) : Prop := match e with RsFuel | RsCycle _ => True | _ => False end.

Notation early := (never late).

Lemma resolve_root_early acc name : early (resolve_root target acc name).
Proof. unfold resolve_root. never_tac. Qed.

Lemma resolve_name_early st name : early (resolve_name target st name).
Proof. unfold resolve_name, find_formula, toOCIFormula, signed_dependency. never_tac. Qed.

Lemma fill_all_early nodes graph : early (fill_all nodes graph).
Proof. unfold fill_all, fill_parent, fill_requirement. never_tac. Qed.

Lemma resolve_loop_terminates roots fuel st :
  loop_inv roots st → (work st ≤ fuel)%nat → resolve_loop target fuel st ≠ Err RsFuel.
Proof.
  revert st. induction fuel as [|fuel IH]; intros st Hi Hw; cbn [resolve_loop];
    destruct (st_queue st) as [|name queue] eqn:Eq; try done.
  { unfold work in Hw. rewrite Eq in Hw. cbn [length] in Hw. nia. }
  destruct (resolve_name target _ name) as [st'|e] eqn:E; cbn.
  - apply IH; [by eapply resolve_name_inv|]. pose proof (resolve_name_work roots queue st name st' Eq Hi E). lia.
  - intros [= ->]. by apply (resolve_name_early _ _ RsFuel I E).
Qed.

(** ** Minimums *)

Definition satisfied (nodes : gmap string Node) (deps : gmap string Requirement) : Prop :=
  ∀ x r, deps !! x = Some r → ∃ n, nodes !! x = Some n ∧ satisfies n r = true.

Lemma fill_requirement_ok nodes parent name req req' :
  fill_requirement nodes parent name req = Ok req' →
  rq_Name req' = rq_Name req ∧ ∃ n, nodes !! name = Some n ∧ satisfies n req' = true.
Proof.
  unfold fill_requirement. destruct (nodes !! name) as [n|]; [|done].
  intros (u & Hs%check_ok%negb_false_iff & [= <-])%bind_ok. split; [by case_bool_decide|by eauto].
Qed.

Lemma fill_parent_ok nodes parent deps deps' :
  names_good deps → fill_parent nodes parent deps = Ok deps' →
  names_good deps' ∧ (∀ x, is_Some (deps' !! x) ↔ is_Some (deps !! x)) ∧ satisfied nodes deps'.
Proof.
  intros Hd Hf. unfold fill_parent in Hf.
  eapply (foldM_res_inv (λ l m, names_good m ∧ (∀ x, is_Some (m !! x) ↔ x ∈ l.*1) ∧ satisfied nodes m)) in Hf as (Hn & Hx & Hs).
  - split_and!; [done| |done]. intros x. rewrite Hx, list_elem_of_fmap. split.
    + intros ([? r] & -> & ?%elem_of_map_to_list). by eauto.
    + intros [r ?]. exists (x, r). split; [done|]. by apply elem_of_map_to_list.
  - split_and!; [intros x r; by rewrite lookup_empty| |intros x r; by rewrite lookup_empty].
    intros x. rewrite lookup_empty. split; [by intros ?%is_Some_None|set_solver].
  - intros l [x r] m m' (Hn & Hx & Hs) Hin%elem_of_map_to_list (r' & (Hname & Hsat)%fill_requirement_ok & [= <-])%bind_ok.
    cbn [fst snd] in *. split_and!.
    + apply names_good_insert; [done|]. rewrite Hname. by apply Hd.
    + intros y. rewrite lookup_insert_is_Some', fmap_app, elem_of_app, Hx. cbn. set_solver.
    + intros y s [[<- <-]|[_ ?]]%lookup_insert_Some; [done|by apply Hs].
Qed.

(** The final node of a name *)
Definition filled (nodes : gmap string Node) (l : list (string * gmap string Requirement)) (acc : gmap string Node) : Prop :=
  ∀ x, (nodes !! x = None → acc !! x = None) ∧
       ∀ n, nodes !! x = Some n →
         (x ∉ l.*1 ∧ acc !! x = Some n) ∨
         ∃ g deps, (x, g) ∈ l ∧ fill_parent nodes x g = Ok deps ∧ acc !! x = Some (with_dependencies n (mapRequirements deps)).

Lemma fill_all_ok nodes graph nodes' : fill_all nodes graph = Ok nodes' → filled nodes (map_to_list graph) nodes'.
Proof.
  unfold fill_all. apply (foldM_res_inv (filled nodes)).
  { intros x. split; [done|]. intros n Hn. left. set_solver. }
  intros l [y g] acc acc' Hi Hin (deps & Hd & [= <-])%bind_ok x. cbn [fst snd] in *. destruct (Hi x) as [Hnone Hsome].
  rewrite fmap_app. destruct (decide (x = y)) as [->|Hne].
  - split; [by intros H0%Hnone; rewrite H0|]. intros n Hn. right. exists g, deps. split_and!; [set_solver|done|].
    destruct (Hsome n Hn) as [[_ Ha]|(g' & deps' & _ & _ & Ha)]; rewrite Ha; cbn; by rewrite lookup_insert_eq.
  - assert ((match acc !! y with Some n => <[y := with_dependencies n (mapRequirements deps)]> acc | None => acc end) !! x = acc !! x) as ->.
    { destruct (acc !! y); [by rewrite lookup_insert_ne|done]. }
    split; [done|]. intros n Hn. destruct (Hsome n Hn) as [[? ?]|(g' & deps' & ? & ? & ?)]; [left|right].
    + cbn. set_solver.
    + exists g', deps'. set_solver.
Qed.

Lemma elem_of_mapRequirements deps r : r ∈ mapRequirements deps ↔ ∃ x, deps !! x = Some r.
Proof.
  unfold mapRequirements. rewrite elem_of_sort_by, list_elem_of_fmap. split.
  - intros ([x s] & -> & ?%elem_of_map_to_list). by exists x.
  - intros [x Hx]. exists (x, r). split; [done|]. by apply elem_of_map_to_list.
Qed.

Lemma mapRequirements_names deps :
  names_good deps → rq_Name <$> mapRequirements deps ≡ₚ (map_to_list deps).*1.
Proof.
  intros Hd. unfold mapRequirements. rewrite sort_by_fmap_Permutation, <-list_fmap_compose.
  apply reflexive_eq, list_fmap_ext. intros i [x r] Hi%list_elem_of_lookup_2%elem_of_map_to_list. cbn. by apply Hd.
Qed.

Lemma elem_of_keys {V} (m : gmap string V) x : x ∈ (map_to_list m).*1 ↔ is_Some (m !! x).
Proof.
  rewrite list_elem_of_fmap. split.
  - intros ([y v] & -> & ?%elem_of_map_to_list). by eauto.
  - intros [v ?]. exists (x, v). split; [done|]. by apply elem_of_map_to_list.
Qed.

(** ** The closure the record holds *)

Definition node_list (nodes : gmap string Node) : list Node := sort_by n_Name ((map_to_list nodes).*2).

Lemma elem_of_node_list nodes n : n ∈ node_list nodes ↔ ∃ x, nodes !! x = Some n.
Proof.
  unfold node_list. rewrite elem_of_sort_by, list_elem_of_fmap. split.
  - intros ([x m] & -> & ?%elem_of_map_to_list). by exists x.
  - intros [x Hx]. exists (x, n). split; [done|]. by apply elem_of_map_to_list.
Qed.

Lemma node_list_names nodes :
  (∀ x n, nodes !! x = Some n → n_Name n = x) → n_Name <$> node_list nodes ≡ₚ (map_to_list nodes).*1.
Proof.
  intros Hn. unfold node_list. rewrite sort_by_fmap_Permutation, <-list_fmap_compose.
  apply reflexive_eq, list_fmap_ext. intros i [x n] Hi%list_elem_of_lookup_2%elem_of_map_to_list. cbn. by apply Hn.
Qed.

(** A finished work list with its minimums filled *)
Record finished (roots : list string) (st : rstate) (nodes : gmap string Node) : Prop := {
  fi_inv : loop_inv roots st;
  fi_queue : st_queue st = [];
  fi_filled : filled (st_nodes st) (map_to_list (st_graph st)) nodes;
}.

Lemma finished_node roots st nodes x n' :
  finished roots st nodes → nodes !! x = Some n' →
  ∃ n deps, st_nodes st !! x = Some n ∧ n' = with_dependencies n (mapRequirements deps) ∧
    names_good deps ∧ (∀ d, is_Some (deps !! d) ↔ d ∈ cat_deps x) ∧ satisfied (st_nodes st) deps.
Proof.
  intros [Hi Hq Hf] Hx. destruct (Hf x) as [Hnone Hsome].
  destruct (st_nodes st !! x) as [n|] eqn:En; [|rewrite Hnone in Hx by done; done].
  destruct (Hsome n eq_refl) as [[Hni _]|(g & deps & Hin%elem_of_map_to_list & Hfill & Hx')].
  { exfalso. apply Hni. rewrite elem_of_keys. apply (li_dom _ _ Hi). by eauto. }
  rewrite Hx in Hx'. injection Hx' as ->. destruct (li_graph _ _ Hi x g Hin) as [Hg Hd].
  apply fill_parent_ok in Hfill as (Hn & Hdom & Hs); [|done]. exists n, deps. split_and!; [done..| |done].
  intros d. by rewrite Hdom.
Qed.

Lemma finished_dom roots st nodes x :
  finished roots st nodes → is_Some (nodes !! x) ↔ is_Some (st_nodes st !! x).
Proof.
  intros Hfin. split; [intros [n Hn]; by apply (finished_node roots st) in Hn as (m & _ & Hm & _); eauto|].
  intros [n Hn]. destruct Hfin as [_ _ Hf]. destruct (Hf x) as [_ Hsome].
  destruct (Hsome n Hn) as [[_ ?]|(? & ? & _ & _ & ?)]; eauto.
Qed.

Lemma finished_name roots st nodes x n : finished roots st nodes → nodes !! x = Some n → n_Name n = x.
Proof.
  intros Hfin (m & deps & Hm & -> & _)%(finished_node roots st); [|done]. cbn. by apply (li_node _ _ (fi_inv _ _ _ Hfin)) in Hm as [? _].
Qed.

Lemma finished_names roots st nodes :
  finished roots st nodes → n_Name <$> node_list nodes ≡ₚ (map_to_list nodes).*1.
Proof. intros Hfin. apply node_list_names. intros x n. by apply (finished_name roots st). Qed.

Lemma finished_edge roots st nodes x y :
  finished roots st nodes →
  edge (closure_succ (node_list nodes)) x y ↔ is_Some (nodes !! x) ∧ y ∈ cat_deps x.
Proof.
  intros Hfin. rewrite edge_list_succ. split.
  - intros (n & (z & Hz)%elem_of_node_list & <- & Hy). pose proof (finished_name _ _ _ _ _ Hfin Hz) as ->.
    split; [by eauto|]. apply (finished_node _ _ _ _ _ Hfin) in Hz as (m & deps & _ & -> & Hn & Hd & _).
    unfold dep_names in Hy. cbn in Hy. rewrite mapRequirements_names, elem_of_keys in Hy by done. by apply Hd.
  - intros [[n Hn] Hy]. exists n. split_and!; [apply elem_of_node_list; by eauto|by eapply finished_name|].
    apply (finished_node _ _ _ _ _ Hfin) in Hn as (m & deps & _ & -> & Hnm & Hd & _).
    unfold dep_names. cbn. rewrite mapRequirements_names, elem_of_keys by done. by apply Hd.
Qed.

Lemma graph_edge roots st nodes x y :
  finished roots st nodes → edge (graph_deps (st_graph st)) x y ↔ is_Some (nodes !! x) ∧ y ∈ cat_deps x.
Proof.
  intros Hfin. rewrite (finished_dom _ _ _ _ Hfin). destruct Hfin as [Hi _ _]. unfold edge, graph_deps.
  rewrite elem_of_slices_Sort, elem_of_keys, <-(li_dom _ _ Hi). split.
  - destruct (st_graph st !! x) as [g|] eqn:Eg; cbn; [|rewrite lookup_empty; by intros ?%is_Some_None].
    intros Hy. split; [by eauto|]. by apply (li_graph _ _ Hi x g Eg).
  - intros [[g Hg] Hy]. rewrite Hg. cbn. by apply (li_graph _ _ Hi x g Hg).
Qed.

Lemma finished_reachable roots st nodes x :
  finished roots st nodes →
  (is_Some (nodes !! x) ↔ reachable cat_deps roots x) ∧
  (is_Some (nodes !! x) ↔ reachable (graph_deps (st_graph st)) roots x).
Proof.
  intros Hfin. pose proof (fi_inv _ _ _ Hfin) as Hi. pose proof (fi_queue _ _ _ Hfin) as Hq.
  assert (∀ x, x ∈ roots → is_Some (nodes !! x)) as Hroot.
  { intros y Hy. apply (finished_dom _ _ _ _ Hfin). destruct (li_roots _ _ Hi y Hy) as [?|Hin]; [done|]. rewrite Hq in Hin. set_solver. }
  assert (∀ y d, is_Some (nodes !! y) → d ∈ cat_deps y → is_Some (nodes !! d)) as Hclosed.
  { intros y d Hy Hd. apply (finished_dom _ _ _ _ Hfin). apply (finished_dom _ _ _ _ Hfin) in Hy.
    destruct (li_closed _ _ Hi y d Hy Hd) as [?|Hin]; [done|]. rewrite Hq in Hin. set_solver. }
  assert (∀ r y, is_Some (nodes !! r) → rtc (edge cat_deps) r y → is_Some (nodes !! y) ∧ rtc (edge (graph_deps (st_graph st))) r y) as Hgo.
  { intros r y Hr Hrtc. induction Hrtc as [|r z y He _ IH]; [done|].
    destruct IH as [? ?]; [by eapply Hclosed|]. split; [done|]. eapply rtc_l; [|done]. by apply (graph_edge _ _ _ _ _ Hfin). }
  assert (∀ r y, is_Some (nodes !! r) → rtc (edge (graph_deps (st_graph st))) r y → is_Some (nodes !! y)) as Hback.
  { intros r y Hr Hrtc. induction Hrtc as [|r z y He _ IH]; [done|]. apply IH.
    apply (graph_edge _ _ _ _ _ Hfin) in He as [_ ?]. by eapply Hclosed. }
  assert (is_Some (nodes !! x) → reachable cat_deps roots x) as Hre.
  { intros Hx. apply (li_reach _ _ Hi). left. by apply (finished_dom _ _ _ _ Hfin). }
  split; (split; [|]).
  - done.
  - intros (r & Hr & Hrtc). by apply (Hgo r x (Hroot r Hr)).
  - intros Hx. destruct (Hre Hx) as (r & Hr & Hrtc). exists r. split; [done|]. by apply (Hgo r x (Hroot r Hr)).
  - intros (r & Hr & Hrtc). by apply (Hback r x (Hroot r Hr)).
Qed.

Lemma finished_closure roots st nodes fuel order :
  finished roots st nodes → dfs (graph_deps (st_graph st)) fuel roots = Ok order →
  closure_wf roots (node_list nodes) order.
Proof.
  intros Hfin (Hnd & Ht & Hin)%dfs_correct. pose proof (finished_names _ _ _ Hfin) as Hnames.
  assert (∀ x, x ∈ n_Name <$> node_list nodes ↔ is_Some (nodes !! x)) as Hel.
  { intros x. by rewrite Hnames, elem_of_keys. }
  assert (∀ x y, edge (closure_succ (node_list nodes)) x y ↔ edge (graph_deps (st_graph st)) x y) as He.
  { intros x y. by rewrite (finished_edge _ _ _ _ _ Hfin), (graph_edge _ _ _ _ _ Hfin). }
  pose proof (λ x, proj2 (finished_reachable _ _ _ x Hfin)) as Hre.
  split.
  - rewrite Hnames. apply NoDup_fst_map_to_list.
  - intros x Hx. apply Hel, Hre. by exists x.
  - intros x y (Hx%Hre & Hy)%(finished_edge _ _ _ _ _ Hfin). apply Hel, Hre.
    destruct Hx as (r & Hr & Hrtc). exists r. split; [done|]. eapply rtc_r; [exact Hrtc|].
    apply (graph_edge _ _ _ _ _ Hfin). split; [|done]. apply Hre. by exists r.
  - apply NoDup_Permutation; [done|rewrite Hnames; apply NoDup_fst_map_to_list|]. intros x. by rewrite Hin, Hel, Hre.
  - intros l1 x l2 Hs d Hd%He. by eapply Ht.
  - intros x Hx%Hel%Hre. eapply reachable_ext; [exact He|done].
Qed.

Lemma initial_inv roots acc :
  roots_inv roots acc →
  loop_inv (rr_Canonical <$> acc.1.1) (MkState acc.1.2 acc.2 ∅ ∅).
Proof.
  destruct acc as [[rq q] ms]. intros (Hm & Hq & _). cbn [fst snd].
  split; cbn; try done; try (intros *; rewrite !lookup_empty; done).
  - intros x Hx. right. by apply Hq.
  - intros x [Hx|Hx]; [rewrite lookup_empty in Hx; by apply is_Some_None in Hx|]. exists x. split; [by apply Hq|done].
Qed.

(** The parts of [assemble] that can fail, and what it builds *)
Lemma assemble_inv fuel clock roots opts r :
  assemble fuel clock roots target opts = Ok r →
  (op_OS target = "linux" ∧ op_Variant target = "") ∧ rr_Requested <$> r_Requested r = roots ∧
  in_Platform (r_Input r) = MkPlatform (op_OS target) (op_Architecture target) (op_Variant target) ∧
  ∃ st nodes, finished (rr_Canonical <$> r_Requested r) st nodes ∧ r_Nodes r = node_list nodes ∧
    dfs (graph_deps (st_graph st)) (size (st_graph st)) (rr_Canonical <$> r_Requested r) = Ok (r_InstallOrder r).
Proof.
  unfold assemble. intros H. apply bind_ok in H as (u & Hp%check_ok & H). case_bool. apply bind_ok in H as (u' & _ & H).
  apply bind_ok in H as ([[rq q] ms] & Hr%resolve_root_ok & H). pose proof (initial_inv _ _ Hr) as Hi. cbn [fst snd] in Hi.
  destruct Hr as (_ & _ & _ & Hn & _).
  apply bind_ok in H as (st & Hl & H). apply (resolve_loop_inv _ _ _ _ Hi) in Hl as [Hi' Hq].
  apply bind_ok in H as (nodes & Hf%fill_all_ok & H). apply bind_ok in H as (order & Ho & H).
  apply bind_ok in H as (u'' & _ & [= <-]). cbn. split_and!; try done. exists st, nodes. split_and!; try done.
  unfold topoOrder in Ho. destruct (dfs _ _ (rr_Canonical <$> rq)) as [?|[|]] eqn:E in Ho; [|done..].
  injection Ho as ->. exact E.
Qed.

Lemma assemble_nodes fuel clock roots opts r n :
  assemble fuel clock roots target opts = Ok r → n ∈ r_Nodes r →
  (∃ f sel, bottles_Resolve f target = Ok sel ∧
            n = with_dependencies (ResolutionNode sel) (n_Dependencies n)) ∧
  ∀ req, req ∈ n_Dependencies n → ∃ m, m ∈ r_Nodes r ∧ n_Name m = rq_Name req ∧ satisfies m req = true.
Proof using L.
  intros (_ & _ & _ & st & nodes & Hfin & Hnodes & _)%assemble_inv. rewrite Hnodes. intros (x & Hx)%elem_of_node_list.
  destruct (finished_node _ _ _ _ _ Hfin Hx) as (n0 & deps & Hn0 & -> & Hg & Hd & Hs).
  destruct (li_node _ _ (fi_inv _ _ _ Hfin) x n0 Hn0) as (_ & _ & f & sel & Hsel & ->). split; [by exists f, sel|].
  cbn. intros req (d & Hreq)%elem_of_mapRequirements. destruct (Hs d req Hreq) as (m & Hm & Hsat).
  assert (is_Some (nodes !! d)) as [m' Hm'] by (apply (finished_dom _ _ _ _ Hfin); by eauto).
  exists m'. split; [apply elem_of_node_list; by eauto|].
  pose proof (finished_name _ _ _ _ _ Hfin Hm') as Hnm.
  destruct (finished_node _ _ _ _ _ Hfin Hm') as (m0 & deps' & Hm0 & -> & _).
  assert (m0 = m) as -> by congruence. split; [|done]. cbn in *. rewrite Hnm. symmetry. by apply Hg.
Qed.

Lemma assemble_closure fuel clock roots opts r :
  assemble fuel clock roots target opts = Ok r →
  closure_wf (rr_Canonical <$> r_Requested r) (r_Nodes r) (r_InstallOrder r) ∧
  ∀ x, x ∈ n_Name <$> r_Nodes r ↔ reachable cat_deps (rr_Canonical <$> r_Requested r) x.
Proof.
  intros (_ & _ & _ & st & nodes & Hfin & -> & Hd)%assemble_inv. split; [by eapply finished_closure|].
  intros x. rewrite (finished_names _ _ _ Hfin), elem_of_keys. by apply (finished_reachable _ _ _ _ Hfin).
Qed.

Lemma Resolve_ok fuel clock roots opts r :
  Resolve fuel clock roots target opts = Ok r → assemble fuel clock roots target opts = Ok r ∧ Validate r = [].
Proof. unfold Resolve. intros (r' & Ha & H)%bind_ok. destruct (Validate r') eqn:E; [|done]. by injection H as ->. Qed.

Lemma topoOrder_no_fuel st nodes roots :
  finished (rr_Canonical <$> roots) st nodes → topoOrder (st_graph st) roots ≠ Err RsFuel.
Proof.
  intros Hfin. unfold topoOrder. destruct (dfs _ _ _) as [?|[p|]] eqn:E; [done|done|]. exfalso. revert E.
  pose proof (fi_inv _ _ _ Hfin) as Hi.
  assert (∀ x, x ∈ dom (st_graph st) ↔ is_Some (nodes !! x)) as Hdom.
  { intros x. by rewrite elem_of_dom, (li_dom _ _ Hi), (finished_dom _ _ _ _ Hfin). }
  apply (dfs_fuel (graph_deps (st_graph st)) (dom (st_graph st))); [| |by rewrite size_dom].
  - intros x y Hx%Hdom He. apply Hdom. apply (finished_reachable _ _ _ _ Hfin) in Hx as Hx'.
    apply (finished_reachable _ _ _ _ Hfin). destruct Hx' as (r & Hr & Hrtc). exists r. split; [done|].
    eapply rtc_r; [exact Hrtc|]. done.
  - intros x Hx. apply Hdom, (finished_reachable _ _ _ _ Hfin). by exists x.
Qed.

Lemma resolve_loop_late fuel st e : late e → resolve_loop target fuel st = Err e → e = RsFuel.
Proof.
  intros He. revert st. induction fuel as [|fuel IH]; intros st; cbn [resolve_loop];
    destruct (st_queue st) as [|name queue]; try done; [by intros [= <-]|].
  destruct (resolve_name target _ name) as [st'|e'] eqn:E; cbn; [apply IH|].
  intros [= ->]. eapply (never_err_inv late) in E; [done|apply resolve_name_early|done].
Qed.

(** Where a late error comes from: the loop, or the order of a finished closure *)
Lemma Resolve_late fuel clock roots opts e :
  late e → Resolve fuel clock roots target opts = Err e →
  ∃ acc, roots_inv roots acc ∧
    (e = RsFuel ∧ resolve_loop target fuel (MkState acc.1.2 acc.2 ∅ ∅) = Err RsFuel ∨
     ∃ st nodes, finished (rr_Canonical <$> acc.1.1) st nodes ∧ topoOrder (st_graph st) acc.1.1 = Err e).
Proof.
  intros He H. unfold Resolve in H. destruct (assemble _ _ _ _ _) as [r|e'] eqn:Ha; cbn in H.
  { destruct (Validate r); [done|]. by injection H as <-. }
  injection H as ->. unfold assemble in Ha. destruct (check _ RsPlatform) as [u|?] eqn:E1 in Ha; cbn in Ha.
  2: { injection Ha as ->. eapply (never_err_inv late) in E1; [done|never_tac|done]. }
  destruct (check _ RsNoRoots) as [u'|?] eqn:E2 in Ha; cbn in Ha; [|injection Ha as ->; eapply (never_err_inv late) in E2; [done|never_tac|done]].
  destruct (foldM_res (resolve_root target) _ roots) as [acc|?] eqn:E3 in Ha; cbn in Ha.
  2: { injection Ha as ->. eapply (never_err_inv late) in E3; [done| |done]. apply never_foldM. intros ? ?. apply resolve_root_early. }
  apply resolve_root_ok in E3. exists acc. split; [done|]. pose proof (initial_inv _ _ E3) as Hi.
  destruct acc as [[rq q] ms]. cbn [fst snd] in *.
  destruct (resolve_loop target fuel _) as [st|?] eqn:E4; cbn in Ha.
  2: { left. injection Ha as ->. by apply resolve_loop_late in E4 as Hf; subst. }
  right. apply (resolve_loop_inv _ _ _ _ Hi) in E4 as [Hi' Hq].
  destruct (fill_all _ _) as [nodes|?] eqn:E5 in Ha; cbn in Ha; [|injection Ha as ->; eapply (never_err_inv late) in E5; [done|by apply fill_all_early|done]].
  exists st, nodes. split; [split; [done..|by apply fill_all_ok]|].
  destruct (topoOrder _ _) as [order|?] eqn:E6 in Ha; cbn in Ha; [|injection Ha as ->; done].
  destruct (check _ RsEpoch) as [u2|?] eqn:E7 in Ha; cbn in Ha; [done|]. injection Ha as ->. eapply (never_err_inv late) in E7; [done|never_tac|done].
Qed.

(** ** Properties *)

(** C1: The record [Resolve] returns holds exactly the Formulae that the signed
    dependencies reach from the requested roots, one node each and in an order
    that installs every dependency before its dependents; every recorded
    requirement is satisfied by the node selected for it. *)
Theorem Resolve_closure fuel clock roots opts r (Hr : Resolve fuel clock roots target opts = Ok r) :
  rr_Requested <$> r_Requested r = roots ∧
  closure_wf (rr_Canonical <$> r_Requested r) (r_Nodes r) (r_InstallOrder r) ∧
  (∀ x, x ∈ n_Name <$> r_Nodes r ↔ reachable cat_deps (rr_Canonical <$> r_Requested r) x) ∧
  (∀ n req, n ∈ r_Nodes r → req ∈ n_Dependencies n →
     ∃ m, m ∈ r_Nodes r ∧ n_Name m = rq_Name req ∧ satisfies m req = true).
Proof.
  apply Resolve_ok in Hr as [Ha _]. destruct (assemble_closure _ _ _ _ _ Ha) as [Hc Hx].
  split_and!; [|done|done|].
  - by apply assemble_inv in Ha as (_ & ? & _).
  - intros n req Hn Hq. by apply (assemble_nodes _ _ _ _ _ _ Ha Hn).
Qed.

(** C37: The work list terminates: with fuel for the roots and for every
    Formula's dependencies once, [Resolve] never runs out, whatever the catalog
    and the registry answer. *)
Theorem Resolve_terminates fuel clock roots opts
  (Hfuel : (length roots + S dep_bound * size cat_formula ≤ fuel)%nat) :
  Resolve fuel clock roots target opts ≠ Err RsFuel.
Proof.
  intros H. apply Resolve_late in H as (acc & Hacc & H); [|done]. pose proof (initial_inv _ _ Hacc) as Hi.
  destruct acc as [[rq q] ms]. destruct Hacc as (_ & _ & Hlen & _). cbn [fst snd] in *.
  destruct H as [[_ Hl]|(st & nodes & Hfin & Ho)].
  - revert Hl. apply (resolve_loop_terminates _ _ _ Hi). unfold work. cbn. rewrite map_size_empty. lia.
  - by apply (topoOrder_no_fuel st nodes rq).
Qed.

Lemma with_dependencies_wf arch n deps :
  node_wf arch n → NoDup (rq_Name <$> deps) → "" ∉ rq_Name <$> deps → node_wf arch (with_dependencies n deps).
Proof. intros [] ? ?. by split. Qed.

Lemma assemble_node_wf `{!BottleLaws} fuel clock roots opts r n :
  assemble fuel clock roots target opts = Ok r → n ∈ r_Nodes r → node_wf (op_Architecture target) n.
Proof using L.
  intros Ha Hn. destruct (assemble_nodes _ _ _ _ _ _ Ha Hn) as [(f & sel & Hsel%bottles_node & Heq) Hreq].
  rewrite Heq. apply with_dependencies_wf; [done| |].
  - apply assemble_inv in Ha as (_ & _ & _ & st & nodes & Hfin & Hnodes & _). rewrite Hnodes in Hn.
    apply elem_of_node_list in Hn as (x & Hx). destruct (finished_node _ _ _ _ _ Hfin Hx) as (n0 & deps & _ & -> & Hg & _).
    cbn. rewrite mapRequirements_names by done. apply NoDup_fst_map_to_list.
  - intros (req & Hname & Hin)%list_elem_of_fmap. destruct (Hreq req Hin) as (m & Hm & Hmn & _).
    destruct (assemble_nodes _ _ _ _ _ _ Ha Hm) as [(f' & sel' & Hsel'%bottles_node & Heq') _].
    apply (nw_name _ _ Hsel'). apply (f_equal n_Name) in Heq'. cbn in *. congruence.
Qed.

(** What the options must provide for the record to be valid *)
Definition options_wf (opts : Options) : Prop :=
  Forall sha256_digest [opt_SpecDigest opts; sn_Digest (opt_Metadata opts); sn_FormulaDigest (opt_Metadata opts);
                        sn_MigrationDigest (opt_Metadata opts)] ∧
  sn_GeneratedAt (opt_Metadata opts) ≠ 0 ∧ sn_FetchedAt (opt_Metadata opts) ≠ 0 ∧
  identity_wf (opt_Runtime opts) ∧ rp_Profile (opt_Runtime opts) = "" ∧
  (ap_Identity (opt_Attestation opts) = "" ↔ ap_Waiver (opt_Attestation opts) ≠ "").

Lemma assemble_validation `{!BottleLaws} fuel clock roots opts r :
  assemble fuel clock roots target opts = Ok r → Validate r = [] ↔ r_ResolvedAt r ≠ 0 ∧ options_wf opts.
Proof using L.
  intros Ha. rewrite Validate_nil. pose proof (assemble_closure _ _ _ _ _ Ha) as [Hc _].
  pose proof (λ n, assemble_node_wf _ _ _ _ _ n Ha) as Hn. unfold assemble in Ha.
  apply bind_ok in Ha as (u & Hp%check_ok & Ha). case_bool.
  apply bind_ok in Ha as (u' & Hroots%check_ok%bool_decide_eq_false & Ha).
  apply bind_ok in Ha as ([[rq q] ms] & (_ & _ & _ & Hrq & _)%resolve_root_ok & Ha).
  do 3 apply bind_ok in Ha as (? & _ & Ha). apply bind_ok in Ha as (u'' & He%check_ok & Ha). case_bool.
  match type of Ha with Ok ?x = Ok r => assert (r = x) as Hr by (by injection Ha) end. clear Ha. subst r.
  assert (rq ≠ []) as Hne by (intros ->; cbn in Hrq; by subst roots).
  cbn [r_Nodes r_Requested r_Input in_Platform p_Architecture] in Hn. split.
  - intros [[_ _ _ Hd _ (? & ? & ?) _ _] _ _ ? ? ?]. done.
  - intros (? & Hd & ? & ? & ? & ? & ?). split; try done. split; try done.
    + cbn. split; [by f_equal|].
      match goal with E : negb _ && negb _ = false |- _ => apply andb_false_iff in E as [?|?] end; case_bool; set_solver.
    + intros Hnil. cbn [r_Nodes] in Hnil. cbn [r_Nodes r_Requested] in Hc. destruct rq as [|root rq]; [done|].
      pose proof (cw_roots Hc (rr_Canonical root)) as Hin. rewrite Hnil in Hin. cbn in Hin. set_solver.
Qed.

(** On an acyclic catalog the ordering never reports a cycle. *)
Lemma acyclic_no_cycle fuel clock roots opts p :
  (∀ x, ¬ tc (edge cat_deps) x x) →
  Resolve fuel clock roots target opts ≠ Err (RsCycle p).
Proof.
  intros Hac H. apply Resolve_late in H as (acc & _ & [[? _]|(st & nodes & Hfin & Ho)]); [done| |done].
  unfold topoOrder in Ho. destruct (dfs _ _ _) as [?|[p'|]] eqn:E; [done| |done].
  apply dfs_cycle_sound in E as [(x & _ & Htc)%is_cycle_tc _]. apply (Hac x).
  assert (∀ a b, edge (graph_deps (st_graph st)) a b → edge cat_deps a b) as Hsub.
  { intros a b He. by apply (graph_edge _ _ _ _ _ Hfin) in He as [_ ?]. }
  by eapply tc_mono.
Qed.

End closure.

(** ** The implementations behind the interfaces *)

(** internal/homebrew/metadata provides the catalog. *)
Definition metadata_source (c : Catalog) : CatalogSource := {| catalog_Lookup := Lookup c |}.

Lemma Lookup_entry c name m : Lookup c name = Ok m → c_canonical c !! mt_Canonical m = Some (mt_Formula m).
Proof.
  assert (∀ r n k, match_ c r n k = Ok m → c_canonical c !! mt_Canonical m = Some (mt_Formula m)) as Hm.
  { intros r n k (_ & -> & _ & ? & _)%match_ok. done. }
  unfold Lookup. intros (u & _ & H)%bind_ok. destruct (c_canonical c !! name); [by eapply Hm|].
  destruct (strings_Contains name "@"); [done|]. destruct (c_aliases c !! name); [by eapply Hm|].
  destruct (c_oldNames c !! name); [by eapply Hm|]. destruct (c_migrations c !! name); [|done].
  case_bool_decide; [done|]. by eapply Hm.
Qed.

Definition metadata_laws (c : Catalog) : @CatalogLaws (metadata_source c) :=
  @Build_CatalogLaws (metadata_source c) (c_canonical c) (Lookup_entry c).

(** internal/homebrew/oci provides the bottles. *)
Definition oci_source `{!UnicodeTables, !GoDigest, !RegistryClient} (limits : Limits) : BottleSource :=
  {| bottles_Resolve := OciResolve.Resolve limits |}.

Lemma oci_laws `{U : !UnicodeTables, G : !GoDigest, C : !RegistryClient, !RegistryLaws} limits :
  @BottleLaws U G (oci_source limits).
Proof. intros f target r. apply Resolve_node. Qed.

(** Resolving against a well-formed catalog never fails for a dependency
    cycle: the check [buildCatalog] made once covers every later resolution on
    both Linux targets. *)
Theorem metadata_no_cycle `{U : !UnicodeTables, G : !GoDigest, B : !BottleSource} c fuel clock roots target opts p
  (Hwf : catalog_wf c) : @Resolve U G (metadata_source c) B fuel clock roots target opts ≠ Err (RsCycle p).
Proof.
  apply (@acyclic_no_cycle U G (metadata_source c) (metadata_laws c) B). intros x Htc.
  assert (is_linux_tag (targetTag target) = true) as Htag by (unfold targetTag; by case_bool_decide).
  apply (wf_acyclic c Hwf (targetTag target) x Htag). eapply tc_mono; [|exact Htc]. intros a b.
  unfold edge, cat_deps, depsForTag. cbn. destruct (c_canonical c !! a); [|done].
  rewrite bool_decide_eq_false_2; [done|]. unfold targetTag. by case_bool_decide.
Qed.

(** Run against the OCI bottle resolver, the final validation can only
    object to the caller's options: the checks of every node, of the closure and
    of the install order hold for whatever was assembled, so the record is
    returned exactly when the digests and times of the options, the runtime
    identity and the attestation policy are usable. *)
Theorem oci_Resolve_accepts `{U : !UnicodeTables, G : !GoDigest, C : !RegistryClient, L : !RegistryLaws} c limits
    fuel clock roots target opts r
  (Ha : @assemble U (metadata_source c) (oci_source limits) fuel clock roots target opts = Ok r) :
  @Resolve U G (metadata_source c) (oci_source limits) fuel clock roots target opts = Ok r ↔
  r_ResolvedAt r ≠ 0 ∧ options_wf opts.
Proof.
  rewrite <-(@assemble_validation U G (metadata_source c) (metadata_laws c) (oci_source limits) target (oci_laws limits) _ _ _ _ _ Ha).
  unfold Resolve. rewrite Ha. cbn. destruct (Validate r); naive_solver.
Qed.

Lemma cpu_rank_baseline family r : cpu_rank family = Some r → r <= 1 ↔ family = "x86_64" ∨ family = "core2".
Proof.
  unfold cpu_rank. intros H%elem_of_list_to_map_2. split.
  - intros Hr. repeat (apply elem_of_cons in H as [[= -> ->]|H]; [auto; lia|]). by apply not_elem_of_nil in H.
  - intros Hf. repeat (apply elem_of_cons in H as [[= -> ->]|H]; [naive_solver lia|]). by apply not_elem_of_nil in H.
Qed.

(** The runtime baseline: a bottle is accepted exactly when its glibc is at
    most 2.39 and it is architecture-independent or built for the target's
    architecture and at most for the baseline CPU (Core 2 on amd64, ARMv8 on
    arm64). *)
Theorem validateRuntimeCompatibility_iff `{U : !UnicodeTables} tab target :
  validateRuntimeCompatibility tab target = Ok tt ↔
  (bo_GlibcVersion (tab_BuiltOn tab) = "" ∨ Version.Compare (bo_GlibcVersion (tab_BuiltOn tab)) "2.39" <= 0) ∧
  (tab_Arch tab = "" ∨
   tab_Arch tab = expected_tab_arch (op_Architecture target) ∧
   strings_ToLower (bo_OldestCPUFamily (tab_BuiltOn tab)) ∈
     (if bool_decide (op_Architecture target = "arm64") then [""; "armv8"; "arm"] else [""; "x86_64"; "core2"])).
Proof.
  unfold validateRuntimeCompatibility, expected_tab_arch. rewrite bind_ok. setoid_rewrite check_ok.
  generalize (strings_ToLower (bo_OldestCPUFamily (tab_BuiltOn tab))) as oldest. intros oldest.
  assert (∀ r, cpu_rank oldest = Some r → (1 <? r) = false ↔ oldest = "x86_64" ∨ oldest = "core2") as Hrank.
  { intros r Hr. rewrite Z.ltb_ge. by apply cpu_rank_baseline. }
  split.
  - intros ([] & Hg & H). split.
    { apply andb_false_iff in Hg as [Hg|Hg]; case_bool; [by left|right; lia]. }
    case_bool_decide; [by left|]. right. apply bind_ok in H as (u & Ha%check_ok & H). case_bool. split; [done|].
    destruct (bool_decide (op_Architecture target = "arm64")).
    + apply check_ok in H. rewrite !andb_false_iff, !negb_false_iff, !bool_decide_eq_true in H. set_solver.
    + case_bool_decide; [set_solver|]. destruct (cpu_rank oldest) as [r|]; [|done].
      apply check_ok, Hrank in H; [set_solver|done].
  - intros [Hg H]. exists tt. split.
    { apply andb_false_iff. destruct Hg as [->|?]; [by left|]. right. by apply Z.ltb_ge. }
    destruct (decide (tab_Arch tab = "")) as [Ha|Ha]; [by rewrite bool_decide_eq_true_2|].
    rewrite (bool_decide_eq_false_2 _ Ha). destruct H as [?|[Harch Hin]]; [done|].
    rewrite (bool_decide_eq_true_2 _ Harch). cbn.
    destruct (bool_decide (op_Architecture target = "arm64")).
    + apply check_ok. rewrite !andb_false_iff, !negb_false_iff, !bool_decide_eq_true. set_solver.
    + case_bool_decide; [done|]. assert (oldest = "x86_64" ∨ oldest = "core2") as [-> | ->] by set_solver; done.
Qed.

(** ** Concrete resolutions *)

Module Example.

Definition target : OPlatform := MkOPlatform "linux" "amd64" "" [].

(** Bottles that carry no tab dependencies, for any Formula with an amd64 bottle *)
Definition descriptor (p : option OPlatform) (digest : string) : ODescriptor :=
  MkODescriptor "application/vnd.oci.image.layer.v1.tar+gzip" digest 10 [] ∅ "" p "".

Definition bottle (f : OciReference.Formula) (t : OPlatform) : result resolve_error Result :=
  reference ← map_err RReference (@ResolveFormulaReference ascii_tables f);
  '(tag, file) ← selectBottleFileFromMap (o_BottleFiles f) t;
  filename ← map_err RReference (OciReference.BottleFilename (o_Name f) (fr_PkgVersion reference) tag (o_BottleRebuild f));
  Ok (MkResult f (MkResolvedBottle reference t tag "" filename (obf_Cellar file) (obf_SHA256 file)
        (descriptor None example_digest) (descriptor (Some t) example_digest) (descriptor None example_digest)
        (descriptor None ("sha256:" +:+ obf_SHA256 file))
        (MkBottleTab "4.4.0" "x86_64" "gcc" [] (MkBuiltOn "Linux" "" "" "core2" "2.39") []) ∅ ∅ [])).

Definition bottles : BottleSource := {| bottles_Resolve := bottle |}.

(** 1 January 2025, in nanoseconds since the zero time *)
Definition now : Z := (62135596800 + 1735689600) * 1000000000.

Definition document : DocumentInfo := MkDocumentInfo "" example_digest "signed-payload" [MkSignatureInfo "homebrew-1" "PS512" true].

Definition options : Options :=
  MkOptions example_digest "" now (MkSnapshotInfo example_digest example_digest example_digest now now document document)
    (r_Components (example_record [])) (r_Runtime (example_record [])) (r_AttestationPolicy (example_record [])) example_digest.

(** [oldjq] and [onig] name [jq] and its dependency through a migration and an alias. *)
Definition resolved : result resolver_error Record_ :=
  @Resolve ascii_tables sha256_only (metadata_source sample) bottles 10 now ["oldjq"; "onig"] target options.

Definition record : option Record_ := match resolved with Ok r => Some r | Err _ => None end.

(** A catalog of one Formula, the one the registry of [OciResolve.Example] serves *)
Definition jq_raw : rawFormula :=
  MkRawFormula "jq" "jq" "homebrew/core" [] "" [] [] "" "MIT" "" "1.7.1" true 0 0
    (Some (MkRawBottle 0 "https://ghcr.io/v2/homebrew/core"
       {["x86_64_linux" := MkRawBottleFile ":any" "https://ghcr.io/v2/homebrew/core/b" sample_sha]}))
    false false [] [] [] ∅.

Definition jq_catalog : Catalog :=
  match @ParseCatalog ascii_tables https_only [jq_raw] ∅ with Ok c => c | Err _ => MkCatalog ∅ ∅ ∅ ∅ ∅ [] end.

Definition assembled : result resolver_error Record_ :=
  @assemble ascii_tables (metadata_source jq_catalog)
    (@oci_source ascii_tables sha256_only OciResolve.Example.registry DefaultLimits) 10 now ["jq"] target options.

Definition assembled_record : option Record_ := match assembled with Ok r => Some r | Err _ => None end.

Definition install_order : option (list string) := r_InstallOrder <$> record.

End Example.

Lemma Resolve_closure_witness :
  Example.install_order = Some ["oniguruma"; "jq"] ∧
  ∃ r, Example.record = Some r ∧ closure_wf (rr_Canonical <$> r_Requested r) (r_Nodes r) (r_InstallOrder r).
Proof.
  split; [vm_compute; reflexivity|].
  destruct Example.record as [r|] eqn:E; [|vm_compute in E; discriminate E]. exists r. split; [reflexivity|].
  apply (@Resolve_closure ascii_tables sha256_only (metadata_source sample) (metadata_laws sample) Example.bottles Example.target
    10 Example.now ["oldjq"; "onig"] Example.options r).
  unfold Example.record, Example.resolved in E. destruct (Resolve _ _ _ _ _); [congruence|discriminate E].
Defined.

Lemma Resolve_terminates_witness :
  @Resolve ascii_tables sha256_only (metadata_source sample) Example.bottles 10 Example.now ["jq"; "jq"] Example.target Example.options
  ≠ Err RsFuel.
Proof.
  apply (@Resolve_terminates ascii_tables sha256_only (metadata_source sample) (metadata_laws sample) Example.bottles).
  vm_compute. lia.
Defined.

Lemma metadata_no_cycle_witness :
  @Resolve ascii_tables sha256_only (metadata_source sample) Example.bottles 10 Example.now ["jq"] Example.target Example.options
  ≠ Err (RsCycle ["jq"]).
Proof. apply (@metadata_no_cycle ascii_tables sha256_only Example.bottles sample). apply sample_wf. Defined.

Lemma oci_Resolve_accepts_witness :
  ∃ r, Example.assembled_record = Some r ∧
    (@Resolve ascii_tables sha256_only (metadata_source Example.jq_catalog)
       (@oci_source ascii_tables sha256_only OciResolve.Example.registry DefaultLimits) 10 Example.now ["jq"] Example.target Example.options
     = Ok r ↔ r_ResolvedAt r ≠ 0 ∧ @options_wf sha256_only Example.options).
Proof.
  destruct Example.assembled_record as [r|] eqn:E; [|vm_compute in E; discriminate E]. exists r. split; [reflexivity|].
  apply (@oci_Resolve_accepts ascii_tables sha256_only OciResolve.Example.registry OciResolve.Example.laws Example.jq_catalog
    DefaultLimits 10 Example.now ["jq"] Example.target Example.options r).
  unfold Example.assembled_record, Example.assembled in E. destruct (assemble _ _ _ _ _); [congruence|discriminate E].
Defined.
