(* ===== verification/CatalogFields.v ===== *)
(** * internal/catalog: identities and field checks

    The wire identities of [identity.go] and the leaf checks at the end of
    [validate.go]. An identity is the string of the wire format; a check that
    returns an error is a boolean here, [true] when the error is nil. *)

From S2P Require Import Prelude GoStrings NetUrl FormulaId Resolution OciReference.
From stdpp Require Import options.
Open Scope Z_scope.

(** ** Limits and versions: [doc.go] *)

Definition RequestSchemaVersion : string := "dalec-homebrew-catalog-request/v1".
Definition TapCatalogSchemaVersion : string := "dalec-homebrew-tap-catalog/v1".
Definition CatalogSetSchemaVersion : string := "dalec-homebrew-catalog-set/v1".
Definition ResultSchemaVersion : string := "dalec-homebrew-catalog-result/v1".
Definition HTTPSFetchPolicyVersion : string := "homebrew-bottle-fetch-v1".
Definition BottleVerificationPolicy : string := "homebrew-bottle-static-v1".
Definition PrebuiltArchiveFormatTarGzip : string := "tar+gzip".
Definition PrebuiltELFFormatELF64 : string := "elf64".
Definition PrebuiltELFMachineX8664 : string := "x86_64".
Definition PrebuiltELFMachineAArch64 : string := "aarch64".
Definition VerifiedProvenancePolicy : string := "sigstore-in-toto-v1".
Definition ChecksumProvenanceWaiver : string := "tap-catalog-buildkit-and-verified-checksum-v1".
Definition PrebuiltProvenanceWaiver : string := "prebuilt-archive-buildkit-and-verified-checksum-v1".
Definition HTTPSBottleSourceWaiver : string := "https-bottle-embedded-formula-digest-only-v1".
Definition BuildLocalArtifactPolicyVersion : string := "build-local-artifact-v1".
Definition CatalogDocumentPathPrefix : string := "/v1/catalogs/sha256/".
Definition MaxTaps : nat := 16.
Definition MaxClosureNodes : nat := 256.
Definition MaxCatalogDocumentBytes : Z := Z.shiftl 64 20.
Definition MaxAggregateCatalogBytes : Z := Z.shiftl 256 20.
Definition MaxBottleBytes : Z := Z.shiftl 1 30.
Definition MaxPrebuiltArchiveEntries : Z := 4096.
Definition MaxPrebuiltArchiveExpandedBytes : Z := Z.shiftl 4 30.
Definition MaxPrebuiltFormulaSourceBytes : Z := Z.shiftl 4 20.
Definition MaxRedirects : nat := 5.
Definition MaxFormulaIDBytes : Z := 39 + 1 + 91 + 1 + 255.
Definition MaxSourcePathBytes : Z := 1024.
Definition MaxRequestBytes : Z := Z.shiftl 1 20.
(** [24 * time.Hour], in nanoseconds *)
Definition MaxCatalogSetLifetime : Z := 24 * 3600 * 1000000000.

(** ** Slices

    A slice that the program compares with nil, or whose JSON text shows
    whether it is nil, is an option of a list; [items] is what a loop over it
    sees. *)
Notation slice A := (option (list A)).

Definition items {A} (s : slice A) : list A := default [] s.

(** ** Control characters and hexadecimal digits *)

Definition hasControl (value : string) : bool :=
  negb (utf8_ValidString value) || existsb (λ '(r, _), (r <? 32) || (r =? 127)) (utf8_decode value).

Definition hasControlExceptWhitespace (value : string) : bool :=
  negb (utf8_ValidString value)
  || existsb (λ '(r, _), ((r <? 32) && negb (r =? 10) && negb (r =? 13) && negb (r =? 9)) || (r =? 127))
       (utf8_decode value).

Definition lowerHex (value : string) : bool := all_bytes isHexLower value.

Section fields.
Context `{U : !UnicodeTables}.

(** ** Identities: [identity.go] *)

Definition ParseTapID (value : string) : result id_error string :=
  tap ← ParseTap value; Ok (Tap_String tap).

Definition ParseFormulaID (value : string) : result id_error string :=
  id ← Parse value; Ok (FormulaID_String id).

Definition ParseFormulaIDs (values : list string) : result id_error (list string) :=
  match ParseRoots values with Ok ids => Ok (FormulaID_String <$> ids) | Err e => Err e end.

(** [formulaid.ParseTap(string(id))] and its string is [id] again *)
Definition canonical_tap (id : string) : option Tap :=
  match ParseTap id with
  | Ok parsed => if bool_decide (Tap_String parsed = id) then Some parsed else None
  | Err _ => None
  end.

Definition FormulaID_Shared (id : string) : option FormulaID :=
  match Parse id with
  | Ok parsed => if bool_decide (FormulaID_String parsed = id) then Some parsed else None
  | Err _ => None
  end.

Definition TapID_Validate (id : string) : bool := bool_decide (is_Some (canonical_tap id)).

Definition FormulaID_Validate (id : string) : bool := bool_decide (is_Some (FormulaID_Shared id)).

Definition FormulaID_Tap (id : string) : string :=
  match FormulaID_Shared id with Some parsed => Tap_String (id_tap parsed) | None => "" end.

Definition FormulaID_Name (id : string) : string :=
  match FormulaID_Shared id with Some parsed => id_name parsed | None => "" end.

Definition TapID_Owner (id : string) : string :=
  match canonical_tap id with Some parsed => tap_owner parsed | None => "" end.

Definition TapID_Name (id : string) : string :=
  match canonical_tap id with Some parsed => tap_name parsed | None => "" end.

Definition TapID_IsCore (id : string) : bool := bool_decide (id = Tap_String CoreTap).

Definition FormulaID_IsCore (id : string) : bool := bool_decide (FormulaID_Tap id = Tap_String CoreTap).

Definition TapID_DefaultGitHubRepository (id : string) : string :=
  if bool_decide (TapID_Owner id = "") || bool_decide (TapID_Name id = "") then ""
  else "https://github.com/" +:+ TapID_Owner id +:+ "/homebrew-" +:+ TapID_Name id.

Definition catalog_validateFormulaName (value : string) : bool := is_ok (New CoreTap value).

(** ** Text *)

Definition validateCommit (value : string) : bool := (strlen value =? 40) && lowerHex value.

Definition validateSHA256Digest (value : string) : bool :=
  strings_HasPrefix value "sha256:" &&
  let hexValue := strings_TrimPrefix value "sha256:" in
  (strlen hexValue =? 64) && lowerHex hexValue && hex_decodable hexValue.

Definition validateCellarPolicy (value : string) : bool :=
  bool_decide (value ∈ ["any"; ":any"; "any_skip_relocation"; ":any_skip_relocation"; "/home/linuxbrew/.linuxbrew/Cellar"]).

Definition catalog_validBottleTag (tag : string) : bool :=
  bool_decide (tag = "x86_64_linux") || bool_decide (tag = "arm64_linux") || bool_decide (tag = "all").

Definition validateBoundedText (value : string) (limit : Z) (allowEmpty : bool) : bool :=
  negb ((negb allowEmpty && bool_decide (strings_TrimSpace value = "")) || (limit <? strlen value) || hasControl value).

Definition isASCIILowerAlphaNumeric (c : ascii) : bool := isLower c || isDigit c.

Definition validatePolicyVersion (value : string) : bool :=
  negb (bool_decide (value = "") || (256 <? strlen value) || hasControl value || negb (bool_decide (value = strings_ToLower value)))
  && all_bytes (λ c, isLower c || isDigit c || ascii_eqb "." c || ascii_eqb "_" c || ascii_eqb "-" c || ascii_eqb "/" c) value
  && isASCIILowerAlphaNumeric (first_byte value) && isASCIILowerAlphaNumeric (last_byte value).

(** ** Paths *)

Definition validateContainedSlashPath (value : string) : bool :=
  negb (bool_decide (value = "") || (MaxSourcePathBytes <? strlen value) || hasControl value
        || strings_Contains value "\" || path_IsAbs value)
  && let clean := path_Clean value in
     negb (negb (bool_decide (clean = value)) || bool_decide (clean = ".") || strings_HasPrefix clean "../").

Definition validateFormulaSourceFilePath (value : string) : bool :=
  validateContainedSlashPath value &&
  let base := path_Base value in
  negb (negb (strings_HasSuffix base ".rb") || bool_decide (base = ".rb"))
  && catalog_validateFormulaName (strings_TrimSuffix base ".rb").

Definition catalog_validateFormulaSourcePath (value formulaName : string) : bool :=
  negb (bool_decide (value = "") || (MaxSourcePathBytes <? strlen value) || hasControl value
        || strings_Contains value "\" || strings_HasPrefix value "/")
  && let clean := path_Clean value in
     negb (negb (bool_decide (clean = value)) || bool_decide (clean = ".") || strings_HasPrefix clean "../")
     && bool_decide (path_Base value = formulaName +:+ ".rb").

Definition validateSafeFilename (value : string) : bool :=
  negb (bool_decide (value = "") || (255 <? strlen value) || hasControl value || strings_ContainsAny value "/\"
        || negb (bool_decide (path_Base value = value)) || bool_decide (value = ".") || bool_decide (value = "..")).

(** The condition on executable and changed paths *)
Definition unsafe_relative_path (value : string) : bool :=
  bool_decide (value = "") || bool_decide (value = ".") || bool_decide (value = "..") || hasControl value
  || path_IsAbs value || negb (bool_decide (path_Clean value = value)) || strings_HasPrefix value "../"
  || strings_Contains value "\".

(** ** Hosts, URLs and repositories *)

Definition numericDottedHost (host : string) : bool :=
  negb (bool_decide (host = ""))
  && forallb (λ '(r, _), negb (((r <? 48) || (57 <? r)) && negb (r =? 46))) (utf8_decode host)
  && strings_Contains host ".".

Definition hostname_label (label : string) : bool :=
  negb (bool_decide (label = "") || (63 <? strlen label) || ascii_eqb "-" (first_byte label) || ascii_eqb "-" (last_byte label))
  && all_bytes (λ c, isLower c || isDigit c || ascii_eqb "-" c) label.

Definition validatePublicHostname `{!NetURL} (host : string) : bool :=
  negb (bool_decide (host = "") || (253 <? strlen host) || negb (bool_decide (host = strings_ToLower host))
        || strings_HasSuffix host ".")
  && negb (net_IsIP host || numericDottedHost host)
  && negb (bool_decide (host = "localhost") || strings_HasSuffix host ".localhost")
  && let labels := strings_Split host "." in
     negb (length labels <? 2)%nat && forallb hostname_label labels.

Definition validateHTTPSURL `{!NetURL} (value : string) (allowQuery : bool) : bool :=
  negb (bool_decide (value = "") || (Z.shiftl 16 10 <? strlen value) || hasControl value)
  && match url_Parse value with
     | None => false
     | Some u =>
         negb (negb (bool_decide (url_Scheme u = "https")) || negb (bool_decide (url_Opaque u = "")) || bool_decide (url_Host u = ""))
         && negb (url_HasUser u)
         && negb (negb (bool_decide (url_Fragment u = "")) || negb (bool_decide (url_RawFragment u = ""))
                  || strings_Contains value "#")
         && negb (negb allowQuery && (negb (bool_decide (url_RawQuery u = "")) || url_ForceQuery u || strings_Contains value "?"))
         && negb (strings_HasSuffix (url_Host u) ":")
         && negb (negb (bool_decide (url_Port u = "")) && negb (bool_decide (url_Port u = "443")))
         && validatePublicHostname (url_Hostname u)
     end.

Definition validateCatalogURL `{!NetURL} (value digest : string) : bool :=
  validateHTTPSURL value false
  && match url_Parse value with
     | None => false
     | Some u =>
         bool_decide (url_RawQuery u = "")
         && bool_decide (url_EscapedPath u = CatalogDocumentPathPrefix +:+ strings_TrimPrefix digest "sha256:")
     end.

Definition validatePrebuiltArchiveFormat `{!NetURL} (format sourceURL : string) : bool :=
  bool_decide (format = PrebuiltArchiveFormatTarGzip)
  && (bool_decide (sourceURL = "")
      || match url_Parse sourceURL with
         | None => false
         | Some u => strings_HasSuffix (url_Path u) ".tar.gz" || strings_HasSuffix (url_Path u) ".tgz"
         end).

Definition ValidateServiceOrigin `{!NetURL} (value : string) : bool :=
  validateHTTPSURL value false
  && match url_Parse value with
     | None => false
     | Some u =>
         negb (negb (bool_decide (url_Path u = "")) || negb (bool_decide (url_RawPath u = ""))
               || negb (bool_decide (url_RawQuery u = "")) || url_ForceQuery u || negb (bool_decide (url_Fragment u = "")))
     end.

Definition repository_component (part : string) : bool :=
  negb (bool_decide (part = "") || bool_decide (part = ".") || bool_decide (part = "..")
        || negb (isASCIILowerAlphaNumeric (first_byte part)) || negb (isASCIILowerAlphaNumeric (last_byte part)))
  && all_bytes (λ c, isASCIILowerAlphaNumeric c || ascii_eqb "." c || ascii_eqb "_" c || ascii_eqb "-" c) part.

Definition validateOCIRepository `{!DistributionReference} (repository : string) : bool :=
  negb (bool_decide (repository = "") || (255 <? strlen repository) || negb (bool_decide (repository = strings_ToLower repository))
        || strings_Contains repository "\")
  && (let parts := strings_Split repository "/" in
      negb (length parts <? 2)%nat && forallb repository_component parts)
  && match reference_ParseNormalizedNamed ("example.invalid/" +:+ repository) with
     | None => false
     | Some named => bool_decide (ref_Path named = repository)
     end.

End fields.

(** ** Identities *)

Section identities.
Context `{U : !UnicodeTables}.

Lemma FormulaID_Shared_Some id i : FormulaID_Shared id = Some i ↔ valid_id i ∧ id = FormulaID_String i.
Proof.
  unfold FormulaID_Shared. split.
  - destruct (Parse id) as [j|] eqn:E; [|done]. case_bool_decide; [|done]. intros [= <-].
    split; [by eapply Parse_ok_valid|done].
  - intros [Hv ->]. rewrite Parse_valid by done. by rewrite bool_decide_true.
Qed.

Lemma canonical_tap_Some id t : canonical_tap id = Some t ↔ valid_tap t ∧ id = Tap_String t.
Proof.
  unfold canonical_tap. split.
  - destruct (ParseTap id) as [j|] eqn:E; [|done]. case_bool_decide; [|done]. intros [= <-].
    split; [by eapply ParseTap_ok_valid|done].
  - intros [Hv ->]. rewrite ParseTap_valid by done. by rewrite bool_decide_true.
Qed.

Lemma FormulaID_Validate_ok id : FormulaID_Validate id = true ↔ ∃ i, valid_id i ∧ id = FormulaID_String i.
Proof.
  unfold FormulaID_Validate. rewrite bool_decide_eq_true. unfold is_Some. by setoid_rewrite FormulaID_Shared_Some.
Qed.

Lemma TapID_Validate_ok id : TapID_Validate id = true ↔ ∃ t, valid_tap t ∧ id = Tap_String t.
Proof.
  unfold TapID_Validate. rewrite bool_decide_eq_true. unfold is_Some. by setoid_rewrite canonical_tap_Some.
Qed.

Lemma FormulaID_Tap_valid i : valid_id i → FormulaID_Tap (FormulaID_String i) = Tap_String (id_tap i).
Proof. intros Hv. unfold FormulaID_Tap. by rewrite (proj2 (FormulaID_Shared_Some _ i)). Qed.

Lemma FormulaID_Name_valid i : valid_id i → FormulaID_Name (FormulaID_String i) = id_name i.
Proof. intros Hv. unfold FormulaID_Name. by rewrite (proj2 (FormulaID_Shared_Some _ i)). Qed.

(** What [ParseFormulaID] returns is canonical. *)
Lemma ParseFormulaID_canonical s id : ParseFormulaID s = Ok id → FormulaID_Validate id = true.
Proof.
  unfold ParseFormulaID. intros (i & Hi%Parse_ok_valid & [= <-])%bind_ok. apply FormulaID_Validate_ok. by exists i.
Qed.

(** A canonical identity parses to itself. *)
Lemma ParseFormulaID_id id : FormulaID_Validate id = true → ParseFormulaID id = Ok id.
Proof.
  intros (i & Hv & ->)%FormulaID_Validate_ok. unfold ParseFormulaID. by rewrite Parse_valid.
Qed.

(** A canonical identity is determined by its tap and its name. *)
Lemma FormulaID_parts id :
  FormulaID_Validate id = true → id = FormulaID_Tap id +:+ "/" +:+ FormulaID_Name id ∧ TapID_Validate (FormulaID_Tap id) = true.
Proof.
  intros (i & Hv & ->)%FormulaID_Validate_ok. rewrite FormulaID_Tap_valid, FormulaID_Name_valid by done. split.
  - rewrite FormulaID_String_valid by done. destruct Hv as [Ht _]. rewrite Tap_String_valid by done.
    by rewrite !app_assoc_str.
  - apply TapID_Validate_ok. exists (id_tap i). by destruct Hv.
Qed.

Lemma FormulaID_Tap_Validate id : FormulaID_Tap id ≠ "" → FormulaID_Validate id = true.
Proof.
  unfold FormulaID_Tap, FormulaID_Validate. destruct (FormulaID_Shared id); [|done]. intros _.
  by apply bool_decide_eq_true.
Qed.

Lemma TapID_Validate_nonempty id : TapID_Validate id = true → id ≠ "".
Proof.
  intros (t & Hv & ->)%TapID_Validate_ok. rewrite Tap_String_valid by done.
  destruct (tap_owner t); by intros ?.
Qed.

Lemma FormulaID_core_Validate id : FormulaID_IsCore id = true → FormulaID_Validate id = true.
Proof.
  intros Hc%bool_decide_eq_true. apply FormulaID_Tap_Validate. rewrite Hc. by vm_compute.
Qed.

(** Different identities of one tap have different names. *)
Lemma FormulaID_inj id1 id2 :
  FormulaID_Validate id1 = true → FormulaID_Validate id2 = true →
  FormulaID_Tap id1 = FormulaID_Tap id2 → FormulaID_Name id1 = FormulaID_Name id2 → id1 = id2.
Proof. intros [H1 _]%FormulaID_parts [H2 _]%FormulaID_parts Ht Hn. by rewrite H1, Ht, Hn, <-H2. Qed.

End identities.

(** ** Paths and hosts *)

Section safety.
Context `{U : !UnicodeTables}.

(** The one path that is accepted although it leaves its directory *)
Lemma validateContainedSlashPath_accepts_parent : validateContainedSlashPath ".." = true ∧ ¬ contained "..".
Proof. split; [reflexivity|]. intros H. destruct (H "..") as (_ & _ & ?); [by left|done]. Qed.

(** Contained, or the parent directory itself, which the check lets through. *)
Lemma validateContainedSlashPath_ok v : validateContainedSlashPath v = true → v = ".." ∨ contained v.
Proof.
  unfold validateContainedSlashPath. intros Hv. case_bool. destruct (decide (v = "..")) as [|Hne]; [by left|]. right.
  match goal with H : path_Clean v = v |- _ => rewrite H in * end. by apply path_Clean_contained.
Qed.

Lemma catalog_validateFormulaSourcePath_ok v name :
  catalog_validateFormulaSourcePath v name = true → contained v ∧ path_Base v = name +:+ ".rb".
Proof.
  unfold catalog_validateFormulaSourcePath. intros Hv. case_bool. split; [|done].
  match goal with H : path_Clean v = v |- _ => rewrite H in * end. apply path_Clean_contained; try done.
  intros ->. match goal with H : path_Base ".." = _ |- _ => apply (f_equal strlen) in H; rewrite strlen_app in H;
    change (strlen (path_Base "..")) with 2 in H; change (strlen ".rb") with 3 in H end.
  pose proof (strlen_nonneg name). lia.
Qed.

Lemma unsafe_relative_path_false v : unsafe_relative_path v = false → contained v.
Proof. unfold unsafe_relative_path. intros Hv. case_bool. by apply path_Clean_contained. Qed.

Definition host_byte (c : ascii) : bool := isLower c || isDigit c || ascii_eqb "-" c.

(** A name in the public DNS: dotted labels, not all of them numbers, and not
    below localhost *)
Record public_host (host : string) : Prop := {
  ph_labels : (2 <= length (strings_Split host "."))%nat;
  ph_label l : l ∈ strings_Split host "." → l ≠ "" ∧ strlen l <= 63 ∧ all_bytes host_byte l = true;
  ph_numeric : all_bytes (λ c, isDigit c || ascii_eqb "." c) host = false;
  ph_local : host ≠ "localhost" ∧ strings_HasSuffix host ".localhost" = false;
}.

Lemma decode_numeric s :
  all_bytes (λ c, isDigit c || ascii_eqb "." c) s = true →
  forallb (λ '(r, _), negb (((r <? 48) || (57 <? r)) && negb (r =? 46))) (utf8_decode s) = true.
Proof.
  intros Hs. assert (all_bytes isAscii s = true) as Ha.
  { eapply all_bytes_impl; [|exact Hs]. intros c [Hd|Hd%ascii_eqb_eq]%orb_true_iff; [|by subst].
    apply byte_in_spec in Hd. unfold isAscii. apply Z.ltb_lt. lia. }
  induction s as [|c s IH]; [done|]. rewrite utf8_decode_ascii in * by done. cbn in Hs, Ha |- *.
  apply andb_true_iff in Hs as [Hc Hs]. apply andb_true_iff in Ha as [_ Ha]. apply andb_true_iff. split.
  - apply orb_true_iff in Hc as [Hd%byte_in_spec|Hd%ascii_eqb_eq]; [|by subst].
    destruct (Z.ltb_spec (byte c) 48), (Z.ltb_spec 57 (byte c)); cbn; lia.
  - specialize (IH Hs Ha). by rewrite utf8_decode_ascii in IH.
Qed.

Lemma validatePublicHostname_ok `{!NetURL} host : validatePublicHostname host = true → public_host host.
Proof.
  unfold validatePublicHostname. intros Hh. case_bool.
  match goal with H : forallb _ _ = true |- _ => rewrite forallb_forall in H; rename H into Hl end.
  match goal with H : (2 <= _)%nat |- _ => rename H into Hlen end. split.
  - done.
  - intros l Hin. specialize (Hl l (proj1 (list_elem_of_In _ _) Hin)). unfold hostname_label in Hl. by case_bool.
  - apply not_true_iff_false. intros Hn. match goal with H : numericDottedHost host = false |- _ => revert H end.
    unfold numericDottedHost. rewrite (decode_numeric _ Hn), bool_decide_eq_false_2 by done. cbn.
    intros Hd%Contains_false_Count. rewrite (Split_length host ".") in Hlen. lia.
  - done.
Qed.

(** An accepted URL leads to port 443 of a public host, without credentials. *)
Lemma validateHTTPSURL_parsed `{!NetURL} value query :
  validateHTTPSURL value query = true →
  ∃ u, url_Parse value = Some u ∧ url_Scheme u = "https" ∧ url_HasUser u = false ∧
       url_Port u ∈ ["" : string; "443"] ∧ public_host (url_Hostname u) ∧
       (query = false → url_RawQuery u = "" ∧ strings_Contains value "?" = false).
Proof.
  unfold validateHTTPSURL. intros Hv. apply andb_true_iff in Hv as [_ Hv]. destruct (url_Parse value) as [u|]; [|done].
  exists u. apply andb_true_iff in Hv as [Hv Hhost%validatePublicHostname_ok].
  apply andb_true_iff in Hv as [Hv Hport]. apply andb_true_iff in Hv as [Hv _].
  apply andb_true_iff in Hv as [Hv Hq]. case_bool. split_and!; try done.
  - apply andb_false_iff in Hport as [Hp|Hp]; case_bool; set_solver.
  - intros ->. cbn in Hq. by case_bool.
Qed.

End safety.
