(* ===== verification/FetchPolicy.v ===== *)
(** * internal/fetcher: requests, evidence and the public network

    [types.go], [url.go] and [network.go]: what a fetch request may ask for,
    which host names and IP addresses count as public, the guarded dialer, and
    the evidence of a fetch with the check that binds it to its request. JSON
    decoding is an interface. *)

From S2P Require Import Prelude GoStrings JsonUnique NetUrl FormulaId Graph ClosureGraph CatalogFields.
From stdpp Require Import options.
Local Open Scope Z_scope.

(** ** Constants *)

Definition RequestSchemaVersion : string := "bottle-fetch-request/v1".
Definition EvidenceSchemaVersion : string := "bottle-fetch-evidence/v1".
Definition FetchPolicyVersion : string := "homebrew-bottle-fetch-v1".
Definition MaxBottleSize : Z := Z.shiftl 1 30.
Definition MaxRedirects : nat := 5.
Definition MaxURLBytes : Z := Z.shiftl 8 10.
Definition MaxArtifactIDBytes : Z := 512.
Definition MaxFilenameBytes : Z := 255.
Definition MaxRedirectHostCount : nat := 32.
Definition MaxRequestBytes : Z := Z.shiftl 64 10.

(** Durations, in nanoseconds *)
Definition second : Z := 1000000000.

Record Timeouts := MkTimeouts { to_DNS : Z; to_Connect : Z; to_TLSHandshake : Z; to_ResponseHeader : Z; to_Overall : Z }.

Definition DefaultTimeouts : Timeouts :=
  MkTimeouts (10 * second) (30 * second) (30 * second) (30 * second) (15 * 60 * second).

Definition MaxTimeouts : Timeouts :=
  MkTimeouts (30 * second) (60 * second) (60 * second) (60 * second) (15 * 60 * second).

(** ** Requests and evidence *)

Record Request := MkRequest {
  rq_SchemaVersion : string; rq_FetchPolicyVersion : string; rq_ArtifactID : string; rq_URL : string;
  rq_ExpectedSize : Z; rq_SHA256 : string; rq_Filename : string; rq_AllowedRedirectHosts : list string;
}.

Record Evidence := MkEvidence {
  ev_SchemaVersion : string; ev_FetchPolicyVersion : string; ev_ArtifactID : string; ev_Filename : string;
  ev_Size : Z; ev_SHA256 : string; ev_RedactedHostSequence : list string;
}.

Inductive host_error :=
| HostEmpty | HostSpace | HostTooLong | HostIPLiteral | HostUnqualified | HostLabelLength | HostLabelEnds | HostByte
| HostNumeric | HostNotAName.

Inductive url_error :=
| UrlLength | UrlControl | UrlFragment | UrlInvalid | UrlScheme | UrlRelative | UrlUser | UrlPort | UrlEmptyPort
| UrlHost (e : host_error).

Inductive request_error :=
| ReqSchema | ReqPolicy | ReqArtifactID | ReqFilename | ReqSize | ReqSHA256 | ReqURL (e : url_error) | ReqTooManyHosts
| ReqHost (e : host_error) | ReqDuplicateHost (host : string).

(** ** IP addresses: what the program uses of net/netip *)

Inductive Addr := AddrInvalid | Addr4 (v : Z) | Addr6 (v : Z) (zone : string).

#[export] Instance Addr_eq_dec : EqDecision Addr.
Proof. solve_decision. Defined.

Class NetIP := {
  (** [netip.ParseAddr] *)
  netip_ParseAddr : string → option Addr;
}.

Definition Addr_IsValid (a : Addr) : bool := match a with AddrInvalid => false | _ => true end.

Definition Addr_Zone (a : Addr) : string := match a with Addr6 _ z => z | _ => "" end.

Definition Addr_Is4 (a : Addr) : bool := match a with Addr4 _ => true | _ => false end.

Definition Addr_Is6 (a : Addr) : bool := match a with Addr6 _ _ => true | _ => false end.

(** [Addr.Unmap]: an IPv4-mapped IPv6 address is its IPv4 address *)
Definition Addr_Unmap (a : Addr) : Addr :=
  match a with
  | Addr6 v _ => if Z.shiftr v 32 =? 65535 then Addr4 (Z.land v (Z.ones 32)) else a
  | _ => a
  end.

(** The first [n] bits of an address of the given width *)
Definition top_bits (width n v : Z) : Z := Z.shiftr v (width - n).

Definition Addr_IsUnspecified (a : Addr) : bool :=
  match a with AddrInvalid => false | Addr4 v => v =? 0 | Addr6 v z => (v =? 0) && bool_decide (z = "") end.

Definition Addr_IsLoopback (a : Addr) : bool :=
  match a with AddrInvalid => false | Addr4 v => top_bits 32 8 v =? 127 | Addr6 v _ => v =? 1 end.

Definition Addr_IsMulticast (a : Addr) : bool :=
  match a with AddrInvalid => false | Addr4 v => top_bits 32 4 v =? 14 | Addr6 v _ => top_bits 128 8 v =? 255 end.

Definition Addr_IsLinkLocalMulticast (a : Addr) : bool :=
  match a with
  | AddrInvalid => false
  | Addr4 v => top_bits 32 24 v =? 14680064
  | Addr6 v _ => (top_bits 128 8 v =? 255) && (Z.land (top_bits 128 16 v) 15 =? 2)
  end.

Definition Addr_IsLinkLocalUnicast (a : Addr) : bool :=
  match a with AddrInvalid => false | Addr4 v => top_bits 32 16 v =? 43518 | Addr6 v _ => top_bits 128 10 v =? 1018 end.

Definition Addr_IsPrivate (a : Addr) : bool :=
  match a with
  | AddrInvalid => false
  | Addr4 v => (top_bits 32 8 v =? 10) || (top_bits 32 12 v =? 2753) || (top_bits 32 16 v =? 49320)
  | Addr6 v _ => top_bits 128 7 v =? 126
  end.

Definition Addr_IsGlobalUnicast (a : Addr) : bool :=
  match a with
  | AddrInvalid => false
  | _ =>
      negb (match a with Addr4 v => (v =? 0) || (v =? Z.ones 32) | _ => false end)
      && negb (match a with Addr6 v z => (v =? 0) && bool_decide (z = "") | _ => false end)
      && negb (Addr_IsLoopback a) && negb (Addr_IsMulticast a) && negb (Addr_IsLinkLocalUnicast a)
  end.

(** A prefix: its address and its length in bits *)
Inductive Prefix := Prefix4 (a b c d bits : Z) | Prefix6 (groups : list Z) (bits : Z).

Definition ipv4 (a b c d : Z) : Z := Z.shiftl a 24 + Z.shiftl b 16 + Z.shiftl c 8 + d.

(** The first groups of 16 bits; the others are zero *)
Definition ipv6 (groups : list Z) : Z :=
  foldl (λ acc i, acc + Z.shiftl (nth i groups 0) (112 - 16 * Z.of_nat i)) 0 (seq 0 8).

Definition Prefix_Contains (p : Prefix) (address : Addr) : bool :=
  match p, address with
  | Prefix4 a b c d bits, Addr4 v => top_bits 32 bits v =? top_bits 32 bits (ipv4 a b c d)
  | Prefix6 groups bits, Addr6 v z => bool_decide (z = "") && (top_bits 128 bits v =? top_bits 128 bits (ipv6 groups))
  | _, _ => false
  end.

Definition nonPublicPrefixes : list Prefix := [
  Prefix4 0 0 0 0 8; Prefix4 10 0 0 0 8; Prefix4 100 64 0 0 10; Prefix4 127 0 0 0 8; Prefix4 169 254 0 0 16;
  Prefix4 172 16 0 0 12; Prefix4 192 0 0 0 24; Prefix4 192 0 2 0 24; Prefix4 192 88 99 0 24; Prefix4 192 168 0 0 16;
  Prefix4 198 18 0 0 15; Prefix4 198 51 100 0 24; Prefix4 203 0 113 0 24; Prefix4 224 0 0 0 4; Prefix4 240 0 0 0 4;
  Prefix6 [] 96; Prefix6 [0; 0; 0; 0; 0; 0; 0; 1] 128; Prefix6 [0x64; 0xff9b] 96; Prefix6 [0x64; 0xff9b; 1] 48;
  Prefix6 [0x100] 64; Prefix6 [0x2001] 23; Prefix6 [0x2001; 0xdb8] 32; Prefix6 [0x2002] 16; Prefix6 [0x3fff] 20;
  Prefix6 [0x5f00] 16; Prefix6 [0xfc00] 7; Prefix6 [0xfec0] 10; Prefix6 [0xfe80] 10; Prefix6 [0xff00] 8].

Definition isPublicIP (address : Addr) : bool :=
  negb (negb (Addr_IsValid address) || negb (bool_decide (Addr_Zone address = "")))
  && let address := Addr_Unmap address in
     negb (negb (Addr_IsGlobalUnicast address) || Addr_IsPrivate address || Addr_IsLoopback address
           || Addr_IsLinkLocalUnicast address || Addr_IsLinkLocalMulticast address || Addr_IsMulticast address
           || Addr_IsUnspecified address)
     && negb (existsb (λ prefix, Prefix_Contains prefix address) nonPublicPrefixes).

(** ** Host names *)

Section hosts.
Context `{U : !UnicodeTables, I : !NetIP}.

Definition isASCIIAlphanumeric (c : ascii) : bool := isLower c || isUpper c || isDigit c.

Definition allASCIIDigits (value : string) : bool := negb (bool_decide (value = "")) && all_bytes isDigit value.

(** The bytes of a label between its first and its last *)
Definition inner_bytes (label : string) : string := String.substring 1 (String.length label - 2) label.

Definition check_label (label : string) : result host_error unit :=
  _ ← check ((strlen label =? 0) || (63 <? strlen label)) HostLabelLength;
  _ ← check (negb (isASCIIAlphanumeric (first_byte label)) || negb (isASCIIAlphanumeric (last_byte label))) HostLabelEnds;
  check (negb (all_bytes (λ c, isASCIIAlphanumeric c || ascii_eqb "-" c) (inner_bytes label))) HostByte.

Definition normalizeHostname (raw : string) : result host_error string :=
  _ ← check (bool_decide (raw = "")) HostEmpty;
  _ ← check (negb (bool_decide (raw = strings_TrimSpace raw)) || strings_HasSuffix raw ".") HostSpace;
  let host := strings_ToLower raw in
  _ ← check (253 <? strlen host) HostTooLong;
  _ ← check (match netip_ParseAddr host with Some address => Addr_IsValid address | None => false end) HostIPLiteral;
  let labels := strings_Split host "." in
  _ ← check (length labels <? 2)%nat HostUnqualified;
  _ ← mapM_res check_label labels;
  _ ← check (allASCIIDigits (List.last labels "")) HostNumeric;
  Ok host.

Definition normalizeAllowedHost (raw : string) : result host_error string :=
  _ ← check (bool_decide (raw = "") || strings_ContainsAny raw ":/@?#[]\") HostNotAName;
  normalizeHostname raw.

(** ** URLs *)

Context `{N : !NetURL}.

Definition validateEndpointURL (parsed : URL) : result url_error string :=
  _ ← check (negb (bool_decide (url_Scheme parsed = "https"))) UrlScheme;
  _ ← check (negb (bool_decide (url_Opaque parsed = "")) || bool_decide (url_Host parsed = "")) UrlRelative;
  _ ← check (url_HasUser parsed) UrlUser;
  _ ← check (negb (bool_decide (url_Fragment parsed = "")) || negb (bool_decide (url_RawFragment parsed = ""))) UrlFragment;
  _ ← check (negb (bool_decide (url_Port parsed = "")) && negb (bool_decide (url_Port parsed = "443"))) UrlPort;
  _ ← check (strings_HasSuffix (url_Host parsed) ":") UrlEmptyPort;
  map_err UrlHost (normalizeHostname (url_Hostname parsed)).

Definition url_control : string := String "000" (String "013" (String "010" "")).

Definition parseBottleURL (raw : string) : result url_error (URL * string) :=
  _ ← check (bool_decide (raw = "") || (MaxURLBytes <? strlen raw)) UrlLength;
  _ ← check (strings_ContainsAny raw url_control) UrlControl;
  _ ← check (strings_Contains raw "#") UrlFragment;
  match url_Parse raw with
  | None => Err UrlInvalid
  | Some parsed => host ← validateEndpointURL parsed; Ok (parsed, host)
  end.

(** ** Requests *)

Record validatedRequest := MkValidatedRequest {
  vq_request : Request; vq_url : URL; vq_originHost : string; vq_allowedRedirectHosts : gset string;
}.

Definition validateArtifactID (value : string) : bool :=
  negb (bool_decide (value = "") || (MaxArtifactIDBytes <? strlen value) || negb (utf8_ValidString value))
  && bool_decide (value = strings_TrimSpace value)
  && forallb (λ '(r, _), negb ((r <? 33) || (r =? 127))) (utf8_decode value).

Definition fetch_validateFilename (value : string) : bool :=
  negb (bool_decide (value = "") || (MaxFilenameBytes <? strlen value) || negb (utf8_ValidString value))
  && negb (bool_decide (value = ".") || bool_decide (value = "..") || strings_ContainsAny value "/\")
  && forallb (λ '(r, _), negb ((r <? 33) || (126 <? r))) (utf8_decode value).

Definition add_redirect_host (allowlist : gset string) (raw : string) : result request_error (gset string) :=
  normalized ← map_err ReqHost (normalizeAllowedHost raw);
  _ ← check (bool_decide (normalized ∈ allowlist)) (ReqDuplicateHost normalized);
  Ok ({[normalized]} ∪ allowlist).

Definition validateRequest (request : Request) : result request_error validatedRequest :=
  _ ← check (negb (bool_decide (rq_SchemaVersion request = RequestSchemaVersion))) ReqSchema;
  _ ← check (negb (bool_decide (rq_FetchPolicyVersion request = FetchPolicyVersion))) ReqPolicy;
  _ ← check (negb (validateArtifactID (rq_ArtifactID request))) ReqArtifactID;
  _ ← check (negb (fetch_validateFilename (rq_Filename request))) ReqFilename;
  _ ← check ((rq_ExpectedSize request <=? 0) || (MaxBottleSize <? rq_ExpectedSize request)) ReqSize;
  _ ← check (negb (strlen (rq_SHA256 request) =? 64)
             || negb (bool_decide (rq_SHA256 request = strings_ToLower (rq_SHA256 request)))) ReqSHA256;
  _ ← check (negb (hex_decodable (rq_SHA256 request))) ReqSHA256;
  '(parsed, originHost) ← map_err ReqURL (parseBottleURL (rq_URL request));
  _ ← check (MaxRedirectHostCount <? length (rq_AllowedRedirectHosts request))%nat ReqTooManyHosts;
  allowlist ← foldM_res add_redirect_host ∅ (rq_AllowedRedirectHosts request);
  Ok (MkValidatedRequest request parsed originHost allowlist).

Definition fetcher_ValidateRequest (request : Request) : result request_error unit :=
  _ ← validateRequest request; Ok tt.

(** ** Timeouts *)

Definition or_default (value default : Z) : Z := if value =? 0 then default else value.

Definition bounded_timeout (value max : Z) : bool := negb ((value <=? 0) || (max <? value)).

Definition normalizeTimeouts (t : Timeouts) : option Timeouts :=
  let t := MkTimeouts (or_default (to_DNS t) (to_DNS DefaultTimeouts)) (or_default (to_Connect t) (to_Connect DefaultTimeouts))
             (or_default (to_TLSHandshake t) (to_TLSHandshake DefaultTimeouts))
             (or_default (to_ResponseHeader t) (to_ResponseHeader DefaultTimeouts))
             (or_default (to_Overall t) (to_Overall DefaultTimeouts)) in
  if bounded_timeout (to_DNS t) (to_DNS MaxTimeouts) && bounded_timeout (to_Connect t) (to_Connect MaxTimeouts)
     && bounded_timeout (to_TLSHandshake t) (to_TLSHandshake MaxTimeouts)
     && bounded_timeout (to_ResponseHeader t) (to_ResponseHeader MaxTimeouts)
     && bounded_timeout (to_Overall t) (to_Overall MaxTimeouts)
  then Some t else None.

(** ** Evidence *)

Inductive evidence_error :=
| EvSchema | EvPolicy | EvArtifactID | EvFilename | EvSize | EvSHA256Length | EvSHA256 | EvHostCount | EvHost (host : string).

Definition canonical_host (host : string) : bool :=
  match normalizeHostname host with Ok normalized => bool_decide (normalized = host) | Err _ => false end.

Definition ValidateEvidence (evidence : Evidence) : list evidence_error :=
  err_if (negb (bool_decide (ev_SchemaVersion evidence = EvidenceSchemaVersion))) EvSchema
  ++ err_if (negb (bool_decide (ev_FetchPolicyVersion evidence = FetchPolicyVersion))) EvPolicy
  ++ err_if (negb (validateArtifactID (ev_ArtifactID evidence))) EvArtifactID
  ++ err_if (negb (fetch_validateFilename (ev_Filename evidence))) EvFilename
  ++ err_if ((ev_Size evidence <=? 0) || (MaxBottleSize <? ev_Size evidence)) EvSize
  ++ (if negb (strlen (ev_SHA256 evidence) =? 64) then [EvSHA256Length]
      else err_if (negb (hex_decodable (ev_SHA256 evidence))
                 || negb (bool_decide (strings_ToLower (ev_SHA256 evidence) = ev_SHA256 evidence))) EvSHA256)
  ++ err_if (bool_decide (ev_RedactedHostSequence evidence = [])
           || (MaxRedirects + 1 <? length (ev_RedactedHostSequence evidence))%nat) EvHostCount
  ++ (ev_RedactedHostSequence evidence ≫= λ host, err_if (negb (canonical_host host)) (EvHost host)).

Inductive verify_error :=
| VerEvidence (es : list evidence_error) | VerRequest (e : request_error) | VerMismatch | VerOrigin | VerRedirect (host : string).

Definition VerifyEvidence (evidence : Evidence) (request : Request) : result verify_error unit :=
  _ ← check (negb (bool_decide (ValidateEvidence evidence = []))) (VerEvidence (ValidateEvidence evidence));
  validated ← map_err VerRequest (validateRequest request);
  _ ← check (negb (bool_decide (ev_ArtifactID evidence = rq_ArtifactID (vq_request validated)))
             || negb (bool_decide (ev_Filename evidence = rq_Filename (vq_request validated)))
             || negb (ev_Size evidence =? rq_ExpectedSize (vq_request validated))
             || negb (bool_decide (ev_SHA256 evidence = rq_SHA256 (vq_request validated)))) VerMismatch;
  _ ← check (negb (bool_decide (hd "" (ev_RedactedHostSequence evidence) = vq_originHost validated))) VerOrigin;
  match list_find (λ host, host ∉ vq_allowedRedirectHosts validated) (tail (ev_RedactedHostSequence evidence)) with
  | Some (_, host) => Err (VerRedirect host)
  | None => Ok tt
  end.

(** ** JSON

    [decode_request] and [decode_evidence] are the decoder with unknown fields
    refused, applied to a text that holds one value; [top_level] gives the member
    names of the object a text holds. *)
Record FetchJSON := MkFetchJSON {
  fj_tokens : string → decoder; fj_top_level : string → option (list string);
  fj_decode_request : string → option Request; fj_decode_evidence : string → option Evidence;
  fj_encode_evidence : Evidence → string;
}.

Inductive decode_error :=
| DecTooLarge | DecUTF8 | DecMembers (e : json_error) | DecUnknownField | DecInvalid | DecRequest (e : request_error)
| DecEvidence (es : list evidence_error).

Definition requireExactTopLevelMembers (J : FetchJSON) (data : string) (allowed : list string) : bool :=
  match fj_top_level J data with
  | None => false
  | Some keys => forallb (λ key, bool_decide (key ∈ allowed)) keys
  end.

(** What [DecodeRequest] and [DecodeEvidence] check of the bytes they read *)
Definition strict_text (J : FetchJSON) (data : string) (allowed : list string) : result decode_error unit :=
  _ ← check (MaxRequestBytes <? strlen data) DecTooLarge;
  _ ← check (negb (utf8_ValidString data)) DecUTF8;
  _ ← map_err DecMembers (fetcher_rejectDuplicateJSONMembers (fj_tokens J data));
  check (negb (requireExactTopLevelMembers J data allowed)) DecUnknownField.

Definition DecodeRequest (J : FetchJSON) (data : string) : result decode_error Request :=
  _ ← strict_text J data ["schema_version"; "fetch_policy_version"; "artifact_id"; "url"; "expected_size"; "sha256";
                          "filename"; "allowed_redirect_hosts"];
  match fj_decode_request J data with
  | None => Err DecInvalid
  | Some request => _ ← map_err DecRequest (validateRequest request); Ok request
  end.

Definition DecodeEvidence (J : FetchJSON) (data : string) : result decode_error Evidence :=
  _ ← strict_text J data ["schema_version"; "fetch_policy_version"; "artifact_id"; "filename"; "size"; "sha256";
                          "redacted_host_sequence"];
  match fj_decode_evidence J data with
  | None => Err DecInvalid
  | Some evidence =>
      _ ← check (negb (bool_decide (ValidateEvidence evidence = []))) (DecEvidence (ValidateEvidence evidence));
      Ok evidence
  end.

(** ** The guarded resolver and dialer *)

Inductive lookup_error := LookupFailed | LookupEmpty | LookupNotPublic (a : Addr).

(** The loop of [publicResolver.lookup] over the resolver's answer *)
Fixpoint unique_public (seen : list Addr) (addresses : list Addr) : result lookup_error (list Addr) :=
  match addresses with
  | [] => Ok []
  | address :: addresses =>
      let address := Addr_Unmap address in
      _ ← check (negb (isPublicIP address)) (LookupNotPublic address);
      if bool_decide (address ∈ seen) then unique_public seen addresses
      else rest ← unique_public (address :: seen) addresses; Ok (address :: rest)
  end.

(** [publicResolver.lookup], given what [LookupNetIP] answers; [None] is its error *)
Definition public_lookup (answer : option (list Addr)) : result lookup_error (list Addr) :=
  match answer with
  | None => Err LookupFailed
  | Some addresses =>
      _ ← check (bool_decide (addresses = [])) LookupEmpty;
      found ← unique_public [] addresses;
      _ ← check (bool_decide (found = [])) LookupEmpty;
      Ok found
  end.

(** [net.SplitHostPort] *)
Definition net_SplitHostPort (hostport : string) : option (string * string) :=
  match cut_last hostport ":" with
  | None => None
  | Some (before, port) =>
      if strings_HasPrefix hostport "[" then
        let '(host, rest, found) := strings_Cut (strings_TrimPrefix hostport "[") "]" in
        if negb found || negb (bool_decide (rest = ":" +:+ port)) || strings_Contains host "[" || strings_Contains port "["
           || strings_Contains port "]"
        then None else Some (host, port)
      else if strings_Contains before ":" || strings_Contains hostport "[" || strings_Contains hostport "]" then None
      else Some (before, port)
  end.

Fixpoint trim_left_any (cutset s : string) : string :=
  match s with
  | "" => ""
  | String c s' => if strings_Contains cutset c then trim_left_any cutset s' else s
  end.

(** [strings.Trim] with a set of ASCII characters *)
Fixpoint trim_right_any (cutset s : string) : string :=
  match s with
  | "" => ""
  | String c s' =>
      let rest := trim_right_any cutset s' in
      if bool_decide (rest = "") && strings_Contains cutset c then "" else String c rest
  end.

Definition strings_Trim (s cutset : string) : string := trim_right_any cutset (trim_left_any cutset s).

Inductive dial_error :=
| DialAddress | DialPort | DialIPLiteral | DialHost (e : host_error) | DialLookup (e : lookup_error) | DialNoAddress | DialFailed.

(** [network == "tcp4" && !candidate.Is4() || network == "tcp6" && !candidate.Is6()] *)
Definition wrong_family (network : string) (candidate : Addr) : bool :=
  (bool_decide (network = "tcp4") && negb (Addr_Is4 candidate)) || (bool_decide (network = "tcp6") && negb (Addr_Is6 candidate)).

(** The attempts, in order, and the first address that answered *)
Fixpoint dial_each (connects : Addr → bool) (candidates : list Addr) : list Addr * option Addr :=
  match candidates with
  | [] => ([], None)
  | candidate :: candidates =>
      if connects candidate then ([candidate], Some candidate)
      else let '(tried, connection) := dial_each connects candidates in (candidate :: tried, connection)
  end.

(** [publicDialer.DialContext], given the resolver's answer and which addresses
    accept a connection: the addresses dialled, on port 443, and the result *)
Definition DialContext (answer : string → option (list Addr)) (connects : Addr → bool) (network address : string)
    : list Addr * result dial_error Addr :=
  match net_SplitHostPort address with
  | None => ([], Err DialAddress)
  | Some (host, port) =>
      if negb (bool_decide (port = "443")) then ([], Err DialPort)
      else if match netip_ParseAddr (strings_Trim host "[]") with Some parsed => Addr_IsValid parsed | None => false end
      then ([], Err DialIPLiteral)
      else
        match normalizeHostname host with
        | Err e => ([], Err (DialHost e))
        | Ok normalized =>
            match public_lookup (answer normalized) with
            | Err e => ([], Err (DialLookup e))
            | Ok addresses =>
                let candidates := filter (λ a, wrong_family network a = false) addresses in
                let '(tried, connection) := dial_each connects candidates in
                match connection with
                | Some a => (tried, Ok a)
                | None => (tried, Err (if bool_decide (tried = []) then DialNoAddress else DialFailed))
                end
            end
        end
  end.

End hosts.

(** ** Which addresses are public *)

(** An address within its width *)
Definition Addr_wf (a : Addr) : Prop :=
  match a with AddrInvalid => True | Addr4 v => 0 <= v < 2 ^ 32 | Addr6 v _ => 0 <= v < 2 ^ 128 end.

(** What the predicates of net/netip exclude, the table excludes as well. *)
Lemma netip_in_table (a : Addr) :
  Addr_IsValid a = true → Addr_Zone a = "" →
  negb (Addr_IsGlobalUnicast a) || Addr_IsPrivate a || Addr_IsLoopback a || Addr_IsLinkLocalUnicast a
  || Addr_IsLinkLocalMulticast a || Addr_IsMulticast a || Addr_IsUnspecified a = true →
  existsb (λ prefix, Prefix_Contains prefix a) nonPublicPrefixes = true.
Proof.
  destruct a as [|v|v z]; [done| |]; intros _ Hz; cbn in Hz.
  - unfold nonPublicPrefixes, Addr_IsGlobalUnicast, Addr_IsPrivate, Addr_IsLoopback, Addr_IsLinkLocalUnicast,
      Addr_IsLinkLocalMulticast, Addr_IsMulticast, Addr_IsUnspecified, Prefix_Contains. cbn [existsb]. intros H.
    assert (top_bits 32 24 v =? 14680064 = true → top_bits 32 4 v =? 14 = true) as Hmulti.
    { rewrite !Z.eqb_eq. unfold top_bits. intros E. replace (Z.shiftr v (32 - 4)) with (Z.shiftr (Z.shiftr v (32 - 24)) 20)
        by (rewrite Z.shiftr_shiftr by lia; done). by rewrite E. }
    destruct (v =? 0) eqn:E0; [apply Z.eqb_eq in E0 as ->; done|].
    destruct (v =? Z.ones 32) eqn:E1; [apply Z.eqb_eq in E1 as ->; done|].
    repeat match goal with |- context [top_bits 32 ?n (ipv4 ?a ?b ?c ?d)] =>
      let r := eval vm_compute in (top_bits 32 n (ipv4 a b c d)) in change (top_bits 32 n (ipv4 a b c d)) with r end.
    repeat match goal with |- context [top_bits 32 ?n v =? ?c] => destruct (top_bits 32 n v =? c) eqn:?; [by rewrite ?orb_true_r|] end.
    cbn in H |- *. destruct (top_bits 32 24 v =? 14680064) eqn:E2; [discriminate (Hmulti eq_refl)|].
    repeat match goal with E : ?x = false |- _ => rewrite E in H; clear E end. done.
  - subst z. unfold nonPublicPrefixes, Addr_IsGlobalUnicast, Addr_IsPrivate, Addr_IsLoopback, Addr_IsLinkLocalUnicast,
      Addr_IsLinkLocalMulticast, Addr_IsMulticast, Addr_IsUnspecified, Prefix_Contains. cbn [existsb].
    rewrite bool_decide_eq_true_2 by done. rewrite !andb_true_l, !andb_true_r. intros H.
    destruct (v =? 0) eqn:E0; [apply Z.eqb_eq in E0 as ->; done|].
    destruct (v =? 1) eqn:E1; [apply Z.eqb_eq in E1 as ->; done|].
    repeat match goal with |- context [top_bits 128 ?n (ipv6 ?g)] =>
      let r := eval vm_compute in (top_bits 128 n (ipv6 g)) in change (top_bits 128 n (ipv6 g)) with r end.
    repeat match goal with |- context [top_bits 128 ?n v =? ?c] => destruct (top_bits 128 n v =? c) eqn:?; [by rewrite ?orb_true_r|] end.
    repeat match goal with E : ?x = false |- _ => rewrite E in H; clear E end. done.
Qed.

(** C34: [isPublicIP] accepts an address exactly when it is valid, has no zone,
    and the address it stands for, an IPv4-mapped address unmapped, lies in none
    of the prefixes of [nonPublicPrefixes]: the table is complete by itself, no
    class of netip (private, loopback, link-local, multicast, unspecified, IPv4
    broadcast) slips past it, and a mapped private address is not public. *)
Theorem isPublicIP_iff (a : Addr) :
  isPublicIP a = true ↔
  Addr_IsValid a = true ∧ Addr_Zone a = "" ∧ ∀ p, p ∈ nonPublicPrefixes → Prefix_Contains p (Addr_Unmap a) = false.
Proof.
  assert (Htable : ∀ b, existsb (λ prefix, Prefix_Contains prefix b) nonPublicPrefixes = false ↔
                        ∀ p, p ∈ nonPublicPrefixes → Prefix_Contains p b = false).
  { intros b. rewrite <-not_true_iff_false, existsb_exists. setoid_rewrite <-list_elem_of_In. split.
    - intros H p Hp. apply not_true_iff_false. intros Hc. apply H. by exists p.
    - intros H (p & Hp & Hc). rewrite (H p Hp) in Hc. done. }
  unfold isPublicIP. rewrite <-Htable. clear Htable.
  destruct (Addr_IsValid a) eqn:Hv; [|split; [done|by intros [? _]]].
  destruct (decide (Addr_Zone a = "")) as [Hz|Hz]; [|rewrite bool_decide_eq_false_2 by done; split; [done|by intros (_ & ? & _)]].
  rewrite bool_decide_eq_true_2 by done. cbn [negb orb andb].
  assert (Addr_IsValid (Addr_Unmap a) = true ∧ Addr_Zone (Addr_Unmap a) = "") as [Hv' Hz'].
  { destruct a as [|v|v z]; cbn in *; [done..|]. by destruct (_ =? _). }
  pose proof (netip_in_table _ Hv' Hz') as Ht. destruct (existsb _ _) eqn:He.
  - rewrite andb_false_r. split; [done|]. by intros (_ & _ & ?).
  - split; [done|]. intros _. rewrite andb_true_r. apply negb_true_iff.
    destruct (_ || _); [|done]. by specialize (Ht eq_refl).
Qed.

(** ** Host names in normal form *)

(** Lower case is final: no code point has an upper-case ASCII letter as its
    lower-case form. *)
Class LowerCase `{U : !UnicodeTables} : Prop := ToLower_not_upper r : ¬ 65 <= unicode_ToLower r <= 90.

#[export] Instance ascii_lower : LowerCase (U := ascii_tables).
Proof. intros r. cbn. destruct (_ && _) eqn:E; case_bool; [lia|]. apply andb_false_iff in E as [?|?]; case_bool; lia. Qed.

Lemma utf8_encode_high r : 128 <= r → all_bytes isAscii (utf8_encode r) = false.
Proof.
  intros Hr. assert (∀ z, isAscii (char_of (128 + z mod 64)) = false) as Hc.
  { intros z. unfold isAscii. rewrite byte_char_of by (pose proof (Z.mod_pos_bound z 64); lia).
    apply Z.ltb_ge. pose proof (Z.mod_pos_bound z 64). lia. }
  unfold utf8_encode. rewrite (proj2 (Z.ltb_ge r 128)) by lia.
  destruct (_ <? _); [|destruct (_ <? _)]; cbn [all_bytes]; rewrite !Hc; by rewrite ?andb_false_r.
Qed.

Section normal_hosts.
Context `{U : !UnicodeTables, I : !NetIP}.

Lemma ToLower_ascii_result `{LC : !LowerCase} s :
  all_bytes isAscii (strings_ToLower s) = true →
  all_bytes (λ c, isAscii c && negb (isUpper c)) (strings_ToLower s) = true.
Proof.
  unfold strings_ToLower. induction (utf8_decode s) as [|[r b] l IH]; [done|]. cbn [foldr fst].
  rewrite !all_bytes_app. intros [Hr Hl]%andb_prop. rewrite IH by done. rewrite andb_true_r.
  destruct (Z.ltb_spec (unicode_ToLower r) 128); [|rewrite utf8_encode_high in Hr by lia; done].
  unfold utf8_encode in *. rewrite (proj2 (Z.ltb_lt _ _)) in * by lia. cbn in *. case_bool.
  rewrite andb_true_r. apply andb_true_intro. split; [done|]. apply negb_true_iff, not_true_iff_false.
  intros [Hlo Hhi]%byte_in_spec. pose proof (ToLower_not_upper r).
  destruct (Z.ltb_spec (unicode_ToLower r) 0) as [Hneg|Hpos].
  - destruct (unicode_ToLower r); [lia..|]. by vm_compute in Hlo.
  - rewrite byte_char_of in Hlo, Hhi by lia. lia.
Qed.

Lemma drop_spaces_id l : Forall (λ x, unicode_IsSpace x.1 = false) l → drop_spaces l = l.
Proof. destruct 1 as [|x l Hx]; cbn; [done|]. by rewrite Hx. Qed.

Lemma TrimSpace_id s :
  all_bytes (λ c, isAscii c && negb (unicode_IsSpace (byte c))) s = true → strings_TrimSpace s = s.
Proof.
  intros Hs. unfold strings_TrimSpace. rewrite utf8_decode_ascii.
  2: { revert Hs. apply all_bytes_impl. intros c. by intros [? _]%andb_prop. }
  assert (Forall (λ x : Z * string, unicode_IsSpace x.1 = false) ((λ c, (byte c, String c "")) <$> String.list_ascii_of_string s)) as Hf.
  { induction s as [|c s IH]; cbn in *; [constructor|]. case_bool. constructor; [done|]. by apply IH. }
  rewrite (drop_spaces_id _ Hf), drop_spaces_id by (by apply Forall_reverse). rewrite reverse_involutive. clear Hs Hf.
  induction s as [|c s IH]; [done|]. cbn. by rewrite IH.
Qed.

(** The bytes of a host name: letters, digits, hyphens and the dots between labels *)
Definition host_byte_ok (c : ascii) : bool := isASCIIAlphanumeric c || ascii_eqb "-" c || ascii_eqb "." c.

Lemma all_bytes_init_last f s :
  all_bytes f (String.substring 0 (String.length s - 1) s) = true → f (last_byte s) = true → all_bytes f s = true.
Proof.
  induction s as [|c s IH]; [done|]. cbn [String.length]. rewrite Nat.sub_succ, Nat.sub_0_r.
  destruct s as [|d s]; [cbn; by intros _ ->|]. intros H1 H2.
  cbn [String.length String.substring all_bytes] in H1. apply andb_prop in H1 as [Hc H1]. cbn [all_bytes]. rewrite Hc. cbn [andb].
  apply IH; [|done]. cbn [String.length]. by rewrite Nat.sub_succ, Nat.sub_0_r.
Qed.

Lemma check_label_bytes label u :
  check_label label = Ok u → all_bytes (λ c, isASCIIAlphanumeric c || ascii_eqb "-" c) label = true ∧ label ≠ "".
Proof.
  unfold check_label. intros H. res_inv H. case_bool. destruct label as [|c s]; [done|]. split; [|done].
  unfold inner_bytes in *. cbn [all_bytes first_byte String.length String.substring] in *.
  destruct s as [|d s]; [cbn; by match goal with E : isASCIIAlphanumeric c = true |- _ => rewrite E end|].
  match goal with E : isASCIIAlphanumeric c = true |- _ => rewrite E end. cbn [orb andb].
  apply all_bytes_init_last; [|change (last_byte (String c (String d s))) with (last_byte (String d s)) in *;
    by match goal with E : isASCIIAlphanumeric (last_byte _) = true |- _ => rewrite E end].
  match goal with E : all_bytes _ _ = true |- _ => revert E end. cbn [String.length].
  replace (S (S (String.length s)) - 2)%nat with (S (String.length s) - 1)%nat by lia. done.
Qed.

Lemma host_labels_bytes host ls :
  mapM_res check_label (strings_Split host ".") = Ok ls → all_bytes host_byte_ok host = true.
Proof.
  intros H%mapM_res_ok. rewrite <-(Join_Split host "."%char) at 1. revert ls H.
  induction (strings_Split host ".") as [|p ps IH]; intros ls H; [done|].
  inversion H as [|? ? ? ls' Hp Hps]; subst. apply check_label_bytes in Hp as [Hp _].
  assert (all_bytes host_byte_ok p = true) as Hp'.
  { revert Hp. apply all_bytes_impl. intros c. unfold host_byte_ok. by intros ->. }
  destruct ps as [|q ps]; [by cbn|]. rewrite Join_cons, !all_bytes_app, Hp', (IH _ Hps) by done. done.
Qed.

Lemma host_byte_ascii c : host_byte_ok c = true → isAscii c = true ∧ unicode_IsSpace (byte c) = false.
Proof.
  unfold host_byte_ok, isASCIIAlphanumeric, isLower, isUpper, isDigit, isAscii. intros H.
  assert ((97 <= byte c <= 122 ∨ 65 <= byte c <= 90 ∨ 48 <= byte c <= 57) ∨ c = "-"%char ∨ c = "."%char) as Hc.
  { rewrite !orb_true_iff, !byte_in_spec, !ascii_eqb_eq in H. naive_solver. }
  destruct Hc as [Hc|[-> | ->]]; [|done..]. rewrite Z.ltb_lt. split; [lia|]. unfold unicode_IsSpace.
  rewrite !orb_false_iff, !andb_false_iff, !Z.leb_gt, !Z.eqb_neq. lia.
Qed.

Lemma rev_app_last s t : s ≠ "" → ∃ r, String.rev_app s t = String (last_byte s) r.
Proof.
  revert t. induction s as [|c s IH]; intros t Hs; [done|]. destruct s as [|d s]; [by exists t|].
  by apply IH.
Qed.

Lemma HasSuffix_last s c : strings_HasSuffix s (String c "") = true → last_byte s = c.
Proof.
  unfold strings_HasSuffix, strings_HasPrefix. destruct s as [|d s]; [done|].
  unfold String.rev. destruct (rev_app_last (String d s) "") as [r ->]; [done|]. cbn [String.rev_app String.prefix].
  by destruct (Ascii.ascii_dec c (last_byte (String d s))).
Qed.

Lemma last_byte_app s t : t ≠ "" → last_byte (s +:+ t) = last_byte t.
Proof.
  intros Ht. induction s as [|c s IH]; [by rewrite app_nil_l_str|]. rewrite app_cons_str.
  destruct (s +:+ t) as [|d r] eqn:E; [|done]. destruct s; [by rewrite app_nil_l_str in E|done].
Qed.

Lemma host_no_trailing_dot host ls :
  mapM_res check_label (strings_Split host ".") = Ok ls → strings_HasSuffix host "." = false.
Proof.
  intros H%mapM_res_ok. apply not_true_iff_false. intros Hs%HasSuffix_last.
  rewrite <-(Join_Split host "."%char) in Hs. revert ls H Hs.
  induction (strings_Split host ".") as [|p ps IH]; intros ls H Hs; [done|].
  inversion H as [|? ? ? ls' Hp Hps]; subst. destruct ps as [|q ps].
  - cbn in Hs. unfold check_label in Hp. res_inv Hp. case_bool.
    match goal with E : isASCIIAlphanumeric (last_byte p) = true |- _ => rewrite Hs in E; done end.
  - apply (IH _ Hps). rewrite Join_cons, last_byte_app in Hs by done.
    assert (strings_Join "." (q :: ps) ≠ "") as Hne.
    { inversion Hps as [|? ? ? ? Hq _]; subst. apply check_label_bytes in Hq as [_ Hq]. destruct ps; [done|].
      rewrite Join_cons by done. by destruct q. }
    change ("." +:+ strings_Join "." (q :: ps)) with (String "." (strings_Join "." (q :: ps))) in Hs.
    destruct (strings_Join "." (q :: ps)); [done|]. exact Hs.
Qed.

(** A normalized host name is its own normal form. *)
Lemma normalizeHostname_normal `{LC : !LowerCase} raw host : normalizeHostname raw = Ok host → normalizeHostname host = Ok host.
Proof.
  unfold normalizeHostname. intros H. res_inv H.
  match goal with E : mapM_res _ _ = Ok _ |- _ => rename E into Hls end.
  pose proof (host_labels_bytes _ _ Hls) as Hb. pose proof (host_no_trailing_dot _ _ Hls) as Hdot.
  assert (all_bytes isAscii (strings_ToLower raw) = true) as Ha.
  { revert Hb. apply all_bytes_impl. intros c Hc. by apply host_byte_ascii in Hc as []. }
  assert (strings_ToLower (strings_ToLower raw) = strings_ToLower raw) as Hl by by apply ToLower_id, ToLower_ascii_result.
  assert (strings_TrimSpace (strings_ToLower raw) = strings_ToLower raw) as Ht.
  { apply TrimSpace_id. revert Hb. apply all_bytes_impl. intros c Hc. apply host_byte_ascii in Hc as [-> ->]. done. }
  rewrite Ht, Hl, Hdot. rewrite (bool_decide_eq_true_2 (_ = _)) by done. cbn [negb orb check mbind result_bind].
  rewrite bool_decide_eq_false_2.
  2: { intros E. rewrite E in Hls. done. }
  cbn [check mbind result_bind].
  repeat match goal with E : ?b = false |- context [check ?b _] => rewrite E; cbn [check mbind result_bind] end.
  rewrite Hls. cbn [mbind result_bind].
  repeat match goal with E : ?b = false |- context [check ?b _] => rewrite E; cbn [check mbind result_bind] end. done.
Qed.

End normal_hosts.

(** ** The guarded resolver and dialer *)

Lemma Addr_Unmap_idemp a : Addr_Unmap (Addr_Unmap a) = Addr_Unmap a.
Proof. destruct a as [|v|v z]; cbn; [done..|]. destruct (_ =? _) eqn:E; cbn; [done|]. by rewrite E. Qed.

Lemma unique_public_ok seen addresses found :
  unique_public seen addresses = Ok found →
  Forall (λ a, isPublicIP a = true) (Addr_Unmap <$> addresses) ∧ NoDup found ∧
  ∀ a, a ∈ found ↔ a ∈ Addr_Unmap <$> addresses ∧ a ∉ seen.
Proof.
  revert seen found. induction addresses as [|a addresses IH]; intros seen found H; cbn in H.
  - injection H as <-. split; [constructor|]. split; [constructor|]. intros a. cbn. set_solver.
  - res_inv H. case_bool. destruct (decide (Addr_Unmap a ∈ seen)) as [Hin|Hin].
    + rewrite bool_decide_eq_true_2 in H by done. destruct (IH _ _ H) as (Hf & Hn & Hi).
      rewrite fmap_cons. split; [by constructor|]. split; [done|]. intros b. rewrite Hi, elem_of_cons. naive_solver.
    + rewrite bool_decide_eq_false_2 in H by done. res_inv H.
      match goal with E : unique_public _ _ = Ok _ |- _ => destruct (IH _ _ E) as (Hf & Hn & Hi) end.
      rewrite fmap_cons. split; [by constructor|]. split.
      * constructor; [|done]. rewrite Hi, elem_of_cons. tauto.
      * intros b. rewrite !elem_of_cons, Hi, elem_of_cons. destruct (decide (b = Addr_Unmap a)); [subst; tauto|tauto].
Qed.

Lemma public_lookup_ok answer found :
  public_lookup answer = Ok found →
  ∃ addresses, answer = Some addresses ∧ found ≠ [] ∧ NoDup found ∧
    (∀ a, a ∈ found ↔ a ∈ Addr_Unmap <$> addresses) ∧ ∀ a, a ∈ found → isPublicIP a = true.
Proof.
  unfold public_lookup. destruct answer as [addresses|]; [|done]. intros H. res_inv H. case_bool.
  match goal with E : unique_public _ _ = Ok _ |- _ => destruct (unique_public_ok _ _ _ E) as (Hf & Hn & Hi) end.
  exists addresses. split_and!; [done..| |].
  - intros x. rewrite Hi. set_solver.
  - intros x [Hx _]%Hi. rewrite Forall_forall in Hf. by apply Hf.
Qed.

Lemma dial_each_spec connects candidates :
  let '(tried, connection) := dial_each connects candidates in
  tried `prefix_of` candidates ∧
  match connection with
  | Some a => ∃ failed, tried = failed ++ [a] ∧ connects a = true ∧ Forall (λ b, connects b = false) failed
  | None => tried = candidates ∧ Forall (λ b, connects b = false) candidates
  end.
Proof.
  induction candidates as [|c candidates IH]; cbn; [done|]. destruct (connects c) eqn:Hc.
  - split; [by exists candidates|]. exists []. by repeat split.
  - destruct (dial_each connects candidates) as [tried [a|]]; destruct IH as [Hp IH]; (split; [by apply prefix_cons|]).
    + destruct IH as (failed & -> & Ha & Hf). exists (c :: failed). split; [done|]. split; [done|]. by constructor.
    + destruct IH as [-> Hf]. split; [done|]. by constructor.
Qed.

(** [DialContext], the dialer under every request of the default transport,
    connects only to public addresses. Whatever the resolver answers at that
    moment, also if it answers differently from the check before the request:
    every address it dials, successfully or not, is a public address of the
    answer for the normalized name, of the family the network asks for, and the
    dialled port is 443; if any address of the answer is not public, nothing is
    dialled; a connection it returns is the first of the tried addresses that
    accepted. *)
Theorem DialContext_public `{U : !UnicodeTables, I : !NetIP} answer connects network address tried outcome :
  DialContext answer connects network address = (tried, outcome) →
  (∀ a, a ∈ tried → isPublicIP a = true ∧ wrong_family network a = false ∧
     ∃ host name addresses, net_SplitHostPort address = Some (host, "443") ∧ normalizeHostname host = Ok name ∧
       answer name = Some addresses ∧ a ∈ Addr_Unmap <$> addresses ∧
       ∀ b, b ∈ Addr_Unmap <$> addresses → isPublicIP b = true) ∧
  match outcome with
  | Ok a => ∃ failed, tried = failed ++ [a] ∧ connects a = true ∧ Forall (λ b, connects b = false) failed
  | Err _ => Forall (λ b, connects b = false) tried
  end.
Proof.
  unfold DialContext. destruct (net_SplitHostPort address) as [[host port]|] eqn:Hsp; [|intros [= <- <-]; set_solver].
  destruct (bool_decide (port = "443")) eqn:Hport; cbn [negb]; [|intros [= <- <-]; set_solver]. case_bool. subst port.
  destruct (match netip_ParseAddr _ with Some _ => _ | None => _ end); [intros [= <- <-]; set_solver|].
  destruct (normalizeHostname host) as [name|] eqn:Hname; [|intros [= <- <-]; set_solver].
  destruct (public_lookup (answer name)) as [found|] eqn:Hl; [|intros [= <- <-]; set_solver].
  destruct (public_lookup_ok _ _ Hl) as (addresses & Ha & _ & _ & Hin & Hpub).
  set (candidates := filter _ found). pose proof (dial_each_spec connects candidates) as Hd.
  destruct (dial_each connects candidates) as [tried' connection]. destruct Hd as [Hpre Hconn].
  assert (∀ a, a ∈ tried' → a ∈ found ∧ wrong_family network a = false) as Hsub.
  { intros a Hat. assert (a ∈ candidates) as [? ?]%list_elem_of_filter by (destruct Hpre as [rest ->]; set_solver). done. }
  intros Heq. assert (tried = tried') as -> by (destruct connection; by injection Heq). split.
  - intros a Hat. destruct (Hsub a Hat) as [Hf Hw]. split; [by apply Hpub|]. split; [done|].
    exists host, name, addresses. split_and!; [done..|by apply Hin|]. intros b Hb. by apply Hpub, Hin.
  - destruct connection as [a|]; injection Heq as <-; [done|]. by destruct Hconn as [-> ?].
Qed.

(** ** Validated requests *)

Section requests.
Context `{U : !UnicodeTables, I : !NetIP, N : !NetURL}.

(** The hosts a request allows redirects to, normalized *)
Definition allowed_host (request : Request) (host : string) : Prop :=
  ∃ raw, raw ∈ rq_AllowedRedirectHosts request ∧ normalizeAllowedHost raw = Ok host.

Lemma allowlist_ok raws start allowlist :
  foldM_res add_redirect_host start raws = Ok allowlist →
  ∀ host, host ∈ allowlist ↔ host ∈ start ∨ ∃ raw, raw ∈ raws ∧ normalizeAllowedHost raw = Ok host.
Proof.
  revert start. induction raws as [|raw raws IH]; intros start H host; cbn in H.
  - injection H as <-. set_solver.
  - res_inv H. unfold add_redirect_host in E. res_inv E. rewrite (IH _ H host), elem_of_union, elem_of_singleton.
    setoid_rewrite elem_of_cons. split.
    + intros [[->|?]|(r & ? & ?)]; [right; eauto|by left|right; eauto].
    + intros [?|(r & [->|?] & Hr)]; [tauto| |right; eauto]. left. left. congruence.
Qed.

Record good_request (request : Request) (v : validatedRequest) : Prop := {
  gr_request : vq_request v = request;
  gr_artifact : validateArtifactID (rq_ArtifactID request) = true;
  gr_filename : fetch_validateFilename (rq_Filename request) = true;
  gr_size : 0 < rq_ExpectedSize request <= MaxBottleSize;
  gr_sha256 : strlen (rq_SHA256 request) = 64 ∧ strings_ToLower (rq_SHA256 request) = rq_SHA256 request ∧
              hex_decodable (rq_SHA256 request) = true;
  gr_url : url_Parse (rq_URL request) = Some (vq_url v);
  gr_origin : validateEndpointURL (vq_url v) = Ok (vq_originHost v);
  gr_hosts : ∀ host, host ∈ vq_allowedRedirectHosts v ↔ allowed_host request host;
}.

Lemma parseBottleURL_ok raw u host :
  parseBottleURL raw = Ok (u, host) → url_Parse raw = Some u ∧ validateEndpointURL u = Ok host.
Proof.
  unfold parseBottleURL. intros H. res_inv H. destruct (url_Parse raw) as [parsed|]; [|done]. res_inv H. by simplify_eq.
Qed.

Lemma validateRequest_good request v : validateRequest request = Ok v → good_request request v.
Proof.
  unfold validateRequest. intros H. res_inv H. destruct a6 as [parsed origin]. res_inv H. case_bool.
  match goal with E : parseBottleURL _ = Ok _ |- _ => apply parseBottleURL_ok in E as [Hp Ho] end.
  match goal with E : foldM_res _ _ _ = Ok _ |- _ => pose proof (allowlist_ok _ _ _ E) as Hal end.
  constructor; cbn; try done.
  intros host. rewrite Hal. unfold allowed_host. set_solver.
Qed.

(** What an endpoint is: https on the default port, with a host and without user,
    opaque part and fragment *)
Definition https_endpoint (u : URL) (host : string) : Prop :=
  url_Scheme u = "https" ∧ (url_Port u = "" ∨ url_Port u = "443") ∧ url_Opaque u = "" ∧ url_Host u ≠ "" ∧ url_HasUser u = false ∧
  url_Fragment u = "" ∧ url_RawFragment u = "" ∧ strings_HasSuffix (url_Host u) ":" = false ∧ normalizeHostname (url_Hostname u) = Ok host.

Lemma validateEndpointURL_https u host : validateEndpointURL u = Ok host → https_endpoint u host.
Proof.
  unfold validateEndpointURL. intros (_ & Hs%check_ok & H)%bind_ok. apply bind_ok in H as (_ & Ho%check_ok & H). apply bind_ok in H as (_ & Hu%check_ok & H).
  apply bind_ok in H as (_ & Hf%check_ok & H). apply bind_ok in H as (_ & Hp%check_ok & H). apply bind_ok in H as (_ & He%check_ok & H%map_err_ok).
  apply orb_false_iff in Ho as [Ho%negb_false_iff%bool_decide_eq_true Hh%bool_decide_eq_false].
  apply orb_false_iff in Hf as [Hf%negb_false_iff%bool_decide_eq_true Hr%negb_false_iff%bool_decide_eq_true].
  apply negb_false_iff, bool_decide_eq_true in Hs.
  apply andb_false_iff in Hp as [Hp%negb_false_iff%bool_decide_eq_true|Hp%negb_false_iff%bool_decide_eq_true]; unfold https_endpoint; tauto.
Qed.

Lemma validateEndpointURL_host u host :
  validateEndpointURL u = Ok host → url_Scheme u = "https" ∧ normalizeHostname (url_Hostname u) = Ok host.
Proof. unfold validateEndpointURL. intros H. res_inv H. case_bool. done. Qed.

Lemma canonical_host_ok `{LC : !LowerCase} raw host : normalizeHostname raw = Ok host → canonical_host host = true.
Proof. intros H. unfold canonical_host. rewrite (normalizeHostname_normal raw host H). by apply bool_decide_eq_true_2. Qed.

(** Evidence in the form a fetch of a good request gives it *)
Lemma VerifyEvidence_ok `{LC : !LowerCase} request v hosts :
  validateRequest request = Ok v →
  hd "" hosts = vq_originHost v → hosts ≠ [] → (length hosts <= MaxRedirects + 1)%nat →
  (∀ host, host ∈ hosts → ∃ raw, normalizeHostname raw = Ok host) →
  (∀ host, host ∈ tail hosts → host ∈ vq_allowedRedirectHosts v) →
  VerifyEvidence (MkEvidence EvidenceSchemaVersion FetchPolicyVersion (rq_ArtifactID request) (rq_Filename request)
                    (rq_ExpectedSize request) (rq_SHA256 request) hosts) request = Ok tt.
Proof.
  intros Hv Hhd Hne Hlen Hcanon Hallow. destruct (validateRequest_good _ _ Hv) as [<- Hart Hfile Hsize (Hs1 & Hs2 & Hs3) _ _ _].
  unfold VerifyEvidence. rewrite bool_decide_eq_true_2; cbn [negb check mbind result_bind].
  - rewrite Hv. cbn [map_err mbind result_bind ev_ArtifactID ev_Filename ev_Size ev_SHA256 ev_RedactedHostSequence].
    rewrite !(bool_decide_eq_true_2 (_ = _)) by done. rewrite Z.eqb_refl. cbn [negb orb check mbind result_bind].
    destruct (list_find _ _) as [[i host]|] eqn:Hf; [|done].
    apply list_find_Some in Hf as (Hi & Hn & _). destruct Hn. apply Hallow. by eapply list_elem_of_lookup_2.
  - unfold ValidateEvidence. cbn [ev_SchemaVersion ev_FetchPolicyVersion ev_ArtifactID ev_Filename ev_Size ev_SHA256 ev_RedactedHostSequence].
    rewrite !(bool_decide_eq_true_2 (_ = _)) by done. rewrite Hart, Hfile, Hs1, Hs3. cbn [negb err_if app].
    rewrite (bool_decide_eq_false_2 (hosts = [])) by done.
    rewrite (proj2 (Z.leb_gt _ _)), (proj2 (Z.ltb_ge _ _)), (proj2 (Nat.ltb_ge _ _)) by lia. cbn.
    apply bind_nil. intros host Hh. destruct (Hcanon host Hh) as [raw Hr]. by rewrite (canonical_host_ok raw host Hr).
Qed.

End requests.

(** ** A concrete dial *)

Definition no_literals : NetIP := {| netip_ParseAddr _ := None |}.

Lemma DialContext_public_witness :
  DialContext (U := ascii_tables) (I := no_literals) (λ _, Some [Addr4 2637758721; Addr6 281473319502082 "eth0"])
    (λ a, bool_decide (a = Addr4 2637758722)) "tcp" "GHCR.io:443" = ([Addr4 2637758721; Addr4 2637758722], Ok (Addr4 2637758722)) ∧
  isPublicIP (Addr4 2637758721) = true.
Proof.
  assert (DialContext (U := ascii_tables) (I := no_literals) (λ _, Some [Addr4 2637758721; Addr6 281473319502082 "eth0"])
    (λ a, bool_decide (a = Addr4 2637758722)) "tcp" "GHCR.io:443" =
    ([Addr4 2637758721; Addr4 2637758722], Ok (Addr4 2637758722))) as H by (vm_compute; reflexivity).
  split; [exact H|].
  apply (proj1 (DialContext_public (U := ascii_tables) (I := no_literals) _ _ _ _ _ _ H) (Addr4 2637758721)).
  left.
Defined.
