(* ===== verification/Fetcher.v ===== *)
(** * internal/fetcher: fetching and probing

    [fetch.go] and [probe.go]: the loops that follow redirects by hand, and
    [file.go], which publishes a fetched bottle and its evidence. The network is
    an argument: what the resolver, the client and the context answer in every
    round, so the theorems hold for every resolver, also one that changes its
    answers, and for every server. The bytes a response delivers are a string
    that may be of any length and end in a read error. *)

From S2P Require Import Prelude GoStrings JsonUnique NetUrl FormulaId Graph ClosureGraph CatalogFields FetchPolicy.
From stdpp Require Import options.
Local Open Scope Z_scope.

(** ** The network *)

(** [URL.String], [URL.ResolveReference] and the encoded SHA-256 *)
Class FetchLib := {
  url_String : URL → string;
  url_ResolveReference : URL → URL → URL;
  sha256_hex : string → string;
}.

Record Response := MkResponse {
  rp_StatusCode : Z; rp_Location : string; rp_ContentEncoding : list string; rp_ContentLengths : list string;
  rp_TransferEncoding : list string; rp_ContentLength : Z; rp_Body : string; rp_ReadFails : bool; rp_CloseFails : bool;
}.

(** What [http.NewRequestWithContext] and [client.Do] give *)
Inductive http_answer := HttpBadRequest | HttpFailed | HttpNoResponse | HttpNoBody | HttpResponse (r : Response).

(** One round: the context is done, the answers of the resolver and of the client *)
Record Round := MkRound { rd_cancelled : bool; rd_dns : string → option (list Addr); rd_http : URL → http_answer }.

Inductive fetch_error :=
| FetchRequest (e : request_error) | FetchCancelled | FetchLoop | FetchTarget (e : url_error) | FetchNotAllowed (host : string)
| FetchLookup (e : lookup_error) | FetchConstruct | FetchNetwork | FetchEmpty | FetchTooManyRedirects | FetchNoLocation
| FetchBadLocation | FetchStatus (status : Z) | FetchEncoding | FetchContentLength | FetchRead | FetchClose | FetchTooLarge
| FetchTooSmall | FetchDigest | FetchFuel.

(** What a fetch did: the URLs requested and the bytes the destination got *)
Record Log := MkLog { lg_requests : list URL; lg_written : string }.

Definition hasIdentityContentEncoding `{!UnicodeTables} (values : list string) : bool :=
  forallb (λ value, strings_EqualFold (strings_TrimSpace value) "identity") values.

Definition isRedirectStatus (status : Z) : bool := bool_decide (status ∈ [301; 302; 303; 307; 308]).

Definition location_control : string := String "#" url_control.

Section fetcher.
Context `{U : !UnicodeTables, I : !NetIP, N : !NetURL, L : !FetchLib}.

(** ** Fetch *)

(** [io.Copy(io.MultiWriter(destination, digest), limited)]: what reached the
    destination and whether the copy succeeded. [accepts] is the number of bytes
    after which the destination fails, if it does. *)
Definition copy_limited (r : Response) (limit : Z) (accepts : option nat) : string * bool :=
  let copied := String.substring 0 (Z.to_nat limit) (rp_Body r) in
  match accepts with
  | Some n => if (n <? String.length copied)%nat then (String.substring 0 n copied, false)
              else (copied, negb (rp_ReadFails r && (strlen (rp_Body r) <? limit)))
  | None => (copied, negb (rp_ReadFails r && (strlen (rp_Body r) <? limit)))
  end.

(** The response is final: its headers, its body, its digest. *)
Definition receive (validated : validatedRequest) (verifyDigest : bool) (accepts : option nat) (hosts : list string)
    (r : Response) : string * result fetch_error Evidence :=
  let expected := rq_ExpectedSize (vq_request validated) in
  if negb (rp_StatusCode r =? 200) then ("", Err (FetchStatus (rp_StatusCode r)))
  else if negb (hasIdentityContentEncoding (rp_ContentEncoding r)) then ("", Err FetchEncoding)
  else if rp_ContentLength r <? -1 then ("", Err FetchContentLength)
  else if (0 <=? rp_ContentLength r) && negb (rp_ContentLength r =? expected) then ("", Err FetchContentLength)
  else
    let '(written, copied) := copy_limited r (expected + 1) accepts in
    (written,
     _ ← check (negb copied) FetchRead;
     _ ← check (rp_CloseFails r) FetchClose;
     _ ← check (expected <? strlen written) FetchTooLarge;
     _ ← check (negb (strlen written =? expected)) FetchTooSmall;
     let actualDigest := sha256_hex written in
     _ ← check (verifyDigest && negb (bool_decide (actualDigest = rq_SHA256 (vq_request validated)))) FetchDigest;
     Ok (MkEvidence EvidenceSchemaVersion FetchPolicyVersion (rq_ArtifactID (vq_request validated))
           (rq_Filename (vq_request validated)) (strlen written) actualDigest hosts)).

(** The target of a redirect, checked against the allowlist *)
Definition redirect_target (validated : validatedRequest) (current : URL) (location : string) : result fetch_error URL :=
  _ ← check (bool_decide (location = "")) FetchNoLocation;
  _ ← check ((MaxURLBytes <? strlen location) || strings_ContainsAny location location_control) FetchBadLocation;
  match url_Parse location with
  | None => Err FetchBadLocation
  | Some reference =>
      let next := url_ResolveReference current reference in
      nextHost ← map_err FetchTarget (validateEndpointURL next);
      _ ← check (negb (bool_decide (nextHost ∈ vq_allowedRedirectHosts validated))) (FetchNotAllowed nextHost);
      Ok next
  end.

(** The checks of a round before its request: the host of [current] *)
Definition enter_round (validated : validatedRequest) (round : Round) (redirects : nat) (current : URL)
    (visited : gset string) : result fetch_error string :=
  _ ← check (rd_cancelled round) FetchCancelled;
  _ ← check (bool_decide (url_String current ∈ visited)) FetchLoop;
  host ← map_err FetchTarget (validateEndpointURL current);
  _ ← check ((0 <? redirects)%nat && negb (bool_decide (host ∈ vq_allowedRedirectHosts validated))) (FetchNotAllowed host);
  _ ← map_err FetchLookup (public_lookup (rd_dns round host));
  Ok host.

Fixpoint fetch_loop (fuel : nat) (env : nat → Round) (validated : validatedRequest) (verifyDigest : bool)
    (accepts : option nat) (redirects : nat) (current : URL) (visited : gset string) (hosts : list string)
    (requests : list URL) : Log * result fetch_error Evidence :=
  match fuel with
  | O => (MkLog requests "", Err FetchFuel)
  | S fuel =>
      let round := env redirects in
      match enter_round validated round redirects current visited with
      | Err e => (MkLog requests "", Err e)
      | Ok host =>
          let hosts := hosts ++ [host] in
          match rd_http round current with
          | HttpBadRequest => (MkLog requests "", Err FetchConstruct)
          | HttpFailed => (MkLog (requests ++ [current]) "", Err FetchNetwork)
          | HttpNoResponse | HttpNoBody => (MkLog (requests ++ [current]) "", Err FetchEmpty)
          | HttpResponse r =>
              let requests := requests ++ [current] in
              if isRedirectStatus (rp_StatusCode r) then
                if (MaxRedirects <=? redirects)%nat then (MkLog requests "", Err FetchTooManyRedirects)
                else
                  match redirect_target validated current (rp_Location r) with
                  | Err e => (MkLog requests "", Err e)
                  | Ok next =>
                      fetch_loop fuel env validated verifyDigest accepts (S redirects) next
                        ({[url_String current]} ∪ visited) hosts requests
                  end
              else
                let '(written, outcome) := receive validated verifyDigest accepts hosts r in
                (MkLog requests written, outcome)
          end
      end
  end.

Definition fetch (env : nat → Round) (validated : validatedRequest) (accepts : option nat) (verifyDigest : bool)
    : Log * result fetch_error Evidence :=
  fetch_loop (MaxRedirects + 1) env validated verifyDigest accepts 0 (vq_url validated) ∅ [] [].

Definition Fetch (env : nat → Round) (request : Request) (accepts : option nat) : Log * result fetch_error Evidence :=
  match validateRequest request with
  | Err e => (MkLog [] "", Err (FetchRequest e))
  | Ok validated => fetch env validated accepts true
  end.

Definition zero_digest : string := String.concat "" (replicate 64 "0").

Definition FetchObserved (env : nat → Round) (rawURL : string) (expectedSize : Z) (filename : string)
    (allowedRedirectHosts : list string) (accepts : option nat) : Log * result fetch_error Evidence :=
  let request := MkRequest RequestSchemaVersion FetchPolicyVersion "catalog-source" rawURL expectedSize zero_digest filename
                   allowedRedirectHosts in
  match validateRequest request with
  | Err e => (MkLog [] "", Err (FetchRequest e))
  | Ok validated => fetch env validated accepts false
  end.

(** ** Probe *)

Inductive probe_error :=
| ProbeURL (e : url_error) | ProbeCancelled | ProbeLoop | ProbeTarget (e : url_error) | ProbeLookup (e : lookup_error)
| ProbeConstruct | ProbeNetwork | ProbeEmpty | ProbeClose | ProbeTooManyRedirects | ProbeNoLocation | ProbeBadLocation
| ProbeURLTooLong | ProbeStatusError (host : string) (status : Z) | ProbeEncoding | ProbeContentLength | ProbeFuel.

Record ProbeResult := MkProbeResult { pr_FinalURL : string; pr_Size : Z; pr_RedirectHostSequence : list string }.

Definition resolveProbeRedirect (current : URL) (location : string) : result probe_error URL :=
  _ ← check (bool_decide (location = "")) ProbeNoLocation;
  _ ← check ((MaxURLBytes <? strlen location) || strings_ContainsAny location location_control) ProbeBadLocation;
  match url_Parse location with
  | None => Err ProbeBadLocation
  | Some reference =>
      let next := url_ResolveReference current reference in
      _ ← check (MaxURLBytes <? strlen (url_String next)) ProbeURLTooLong;
      _ ← map_err ProbeTarget (validateEndpointURL next);
      Ok next
  end.

(** [strconv.ParseInt(raw, 10, 64)] of decimal digits is [strconv.Atoi]. *)
Definition exactProbeContentLength (r : Response) : option Z :=
  if negb (bool_decide (rp_TransferEncoding r = [])) then None
  else
    match rp_ContentLengths r with
    | [value] =>
        let raw := strings_TrimSpace value in
        if negb (allASCIIDigits raw) then None
        else
          match strconv_Atoi raw with
          | Err _ => None
          | Ok size =>
              if (size <=? 0) || (MaxBottleSize <? size) || negb (rp_ContentLength r =? size) then None else Some size
          end
    | _ => None
    end.

Fixpoint probe_loop (fuel : nat) (env : nat → Round) (redirects : nat) (current : URL) (visited : gset string)
    (hosts : list string) (requests : list URL) : list URL * result probe_error ProbeResult :=
  match fuel with
  | O => (requests, Err ProbeFuel)
  | S fuel =>
      let round := env redirects in
      match (_ ← check (rd_cancelled round) ProbeCancelled;
             _ ← check (bool_decide (url_String current ∈ visited)) ProbeLoop;
             host ← map_err ProbeTarget (validateEndpointURL current);
             _ ← map_err ProbeLookup (public_lookup (rd_dns round host));
             Ok host) with
      | Err e => (requests, Err e)
      | Ok host =>
          let hosts := hosts ++ [host] in
          match rd_http round current with
          | HttpBadRequest => (requests, Err ProbeConstruct)
          | HttpFailed => (requests ++ [current], Err ProbeNetwork)
          | HttpNoResponse | HttpNoBody => (requests ++ [current], Err ProbeEmpty)
          | HttpResponse r =>
              let requests := requests ++ [current] in
              if rp_CloseFails r then (requests, Err ProbeClose)
              else if isRedirectStatus (rp_StatusCode r) then
                if (MaxRedirects <=? redirects)%nat then (requests, Err ProbeTooManyRedirects)
                else
                  match resolveProbeRedirect current (rp_Location r) with
                  | Err e => (requests, Err e)
                  | Ok next => probe_loop fuel env (S redirects) next ({[url_String current]} ∪ visited) hosts requests
                  end
              else
                (requests,
                 _ ← check (negb (rp_StatusCode r =? 200)) (ProbeStatusError host (rp_StatusCode r));
                 _ ← check (negb (hasIdentityContentEncoding (rp_ContentEncoding r))) ProbeEncoding;
                 match exactProbeContentLength r with
                 | None => Err ProbeContentLength
                 | Some size => Ok (MkProbeResult (url_String current) size hosts)
                 end)
          end
      end
  end.

Definition probe (env : nat → Round) (initial : URL) : list URL * result probe_error ProbeResult :=
  probe_loop (MaxRedirects + 1) env 0 initial ∅ [] [].

Definition Probe (env : nat → Round) (rawURL : string) : list URL * result probe_error ProbeResult :=
  match parseBottleURL rawURL with
  | Err e => ([], Err (ProbeURL e))
  | Ok (parsed, _) => probe env parsed
  end.

(** [None]: the endpoint is definitely absent *)
Definition ProbeOptional (env : nat → Round) (rawURL : string) : list URL * result probe_error (option ProbeResult) :=
  let '(requests, outcome) := Probe env rawURL in
  (requests,
   match outcome with
   | Ok result => Ok (Some result)
   | Err (ProbeStatusError host status) =>
       if (status =? 404) || (status =? 410) then Ok None else Err (ProbeStatusError host status)
   | Err e => Err e
   end).

End fetcher.

(** ** What a fetch requests *)

Section confined.
Context `{U : !UnicodeTables, I : !NetIP, N : !NetURL, L : !FetchLib}.

(** The request of round [i] goes to an endpoint whose host is approved for
    redirects, unless the round is the first, and resolved to public addresses
    only when the round began. *)
Definition confined (approved : string → Prop) (env : nat → Round) (i : nat) (u : URL) (host : string) : Prop :=
  validateEndpointURL u = Ok host ∧ (0 < i → approved host)%nat ∧
  is_ok (public_lookup (rd_dns (env i) host)) = true.

Definition allows (validated : validatedRequest) (host : string) : Prop := host ∈ vq_allowedRedirectHosts validated.

Definition confined_all approved env (hosts : list string) (requests : list URL) : Prop :=
  length hosts = length requests ∧ NoDup (url_String <$> requests) ∧
  ∀ i u, requests !! i = Some u → ∃ host, hosts !! i = Some host ∧ confined approved env i u host.

Lemma enter_round_ok validated env redirects current visited host :
  enter_round validated (env redirects) redirects current visited = Ok host →
  confined (allows validated) env redirects current host ∧ url_String current ∉ visited.
Proof.
  unfold enter_round, confined. intros H. res_inv H. case_bool. split_and!; [done| |done..].
  intros Hpos. match goal with E : _ && _ = false |- _ => apply andb_false_iff in E as [E|E] end; case_bool; [lia|done].
Qed.

Lemma confined_all_snoc approved env hosts requests current host :
  confined_all approved env hosts requests → confined approved env (length requests) current host →
  url_String current ∉ url_String <$> requests →
  confined_all approved env (hosts ++ [host]) (requests ++ [current]).
Proof.
  intros (Hl & Hn & Hall) Hc Hnew. split; [rewrite !length_app; cbn; lia|]. split.
  - rewrite fmap_app. cbn. apply NoDup_app. split; [done|]. split; [set_solver|]. repeat constructor. set_solver.
  - intros i u Hi. destruct (decide (i < length requests)%nat) as [Hlt|Hge].
    + rewrite lookup_app_l in Hi by done. destruct (Hall i u Hi) as (h & Hh & ?). exists h. split; [|done].
      rewrite lookup_app_l by lia. done.
    + assert (i = length requests) as ->.
      { apply lookup_lt_Some in Hi. rewrite length_app in Hi. cbn in Hi. lia. }
      rewrite list_lookup_middle in Hi by done. injection Hi as <-. exists host. split; [|done].
      by rewrite list_lookup_middle by lia.
Qed.

(** What a finished body gives *)
Lemma receive_ok validated verifyDigest accepts hosts r written ev :
  receive validated verifyDigest accepts hosts r = (written, Ok ev) →
  strlen written = rq_ExpectedSize (vq_request validated) ∧
  (verifyDigest = true → sha256_hex written = rq_SHA256 (vq_request validated)) ∧
  ev = MkEvidence EvidenceSchemaVersion FetchPolicyVersion (rq_ArtifactID (vq_request validated))
         (rq_Filename (vq_request validated)) (strlen written) (sha256_hex written) hosts.
Proof.
  unfold receive. repeat (case_match; [by intros [= _ ?]|]). case_match. intros [= <- Hev]. res_inv Hev. case_bool.
  split; [done|]. split; [|done]. intros ->. match goal with E : true && _ = false |- _ => cbn in E; case_bool; done end.
Qed.

Definition out_of_fuel (e : fetch_error) : Prop := match e with FetchFuel => True | _ => False end.

Lemma receive_never validated verifyDigest accepts hosts r :
  never out_of_fuel (receive validated verifyDigest accepts hosts r).2.
Proof.
  unfold receive. repeat (case_match; [apply never_err; cbn; tauto|]). case_match. cbn [snd]. never_tac.
Qed.

Lemma redirect_target_never validated current location :
  never out_of_fuel (redirect_target validated current location).
Proof. unfold redirect_target. never_tac. Qed.

Lemma enter_round_never validated round redirects current visited :
  never out_of_fuel (enter_round validated round redirects current visited).
Proof. unfold enter_round. never_tac. Qed.

(** How a fetch ends, given what it requested *)
Definition fetched (validated : validatedRequest) (verifyDigest : bool) (hosts : list string) (log : Log)
    (outcome : result fetch_error Evidence) : Prop :=
  outcome ≠ Err FetchFuel ∧
  ∀ ev, outcome = Ok ev →
    lg_requests log ≠ [] ∧ strlen (lg_written log) = rq_ExpectedSize (vq_request validated) ∧
    (verifyDigest = true → sha256_hex (lg_written log) = rq_SHA256 (vq_request validated)) ∧
    ev = MkEvidence EvidenceSchemaVersion FetchPolicyVersion (rq_ArtifactID (vq_request validated))
           (rq_Filename (vq_request validated)) (strlen (lg_written log)) (sha256_hex (lg_written log)) hosts.

Lemma fetched_err validated verifyDigest hosts log e : e ≠ FetchFuel → fetched validated verifyDigest hosts log (Err e).
Proof. intros He. split; [congruence|done]. Qed.

(** From a round on: what was requested, the URL of this round, the hosts *)
Definition ends_well validated env verifyDigest (redirects : nat) (current : URL) (requests : list URL) (log : Log) outcome : Prop :=
  ∃ hosts', requests `prefix_of` lg_requests log ∧ (∀ u, lg_requests log !! redirects = Some u → u = current) ∧
    (length (lg_requests log) <= MaxRedirects + 1)%nat ∧
    confined_all (allows validated) env hosts' (lg_requests log) ∧ fetched validated verifyDigest hosts' log outcome.

Lemma fetch_loop_spec env validated verifyDigest accepts fuel redirects current visited hosts requests log outcome :
  fetch_loop fuel env validated verifyDigest accepts redirects current visited hosts requests = (log, outcome) →
  (redirects + fuel = MaxRedirects + 1 → redirects <= MaxRedirects → length requests = redirects →
   visited = list_to_set (url_String <$> requests) →
   confined_all (allows validated) env hosts requests →
   ends_well validated env verifyDigest redirects current requests log outcome)%nat.
Proof.
  revert redirects current visited hosts requests.
  induction fuel as [|fuel IH]; intros redirects current visited hosts requests Hrun Hfuel Hmax Hlen Hvis Hall; [lia|].
  assert (∀ e, e ≠ FetchFuel → (MkLog requests "", Err e) = (log, outcome) →
    ends_well validated env verifyDigest redirects current requests log outcome) as Hstop.
  { intros e He [= <- <-]. exists hosts. split; [done|]. split; [|split; [cbn [lg_requests]; lia|split; [done|by apply fetched_err]]].
    cbn. intros u Hu. apply lookup_lt_Some in Hu. lia. }
  cbn [fetch_loop] in Hrun. destruct (enter_round _ _ _ _ _) as [host|e] eqn:Henter.
  2: { apply (Hstop e); [|done]. intros ->. by eapply (enter_round_never _ _ _ _ _ FetchFuel). }
  apply enter_round_ok in Henter as [Hc Hnew]. rewrite <-Hlen in Hc.
  assert (url_String current ∉ url_String <$> requests) as Hnew' by (subst visited; set_solver).
  pose proof (confined_all_snoc _ _ _ _ _ _ Hall Hc Hnew') as Hall'.
  assert (∀ w o, fetched validated verifyDigest (hosts ++ [host]) (MkLog (requests ++ [current]) w) o →
    (MkLog (requests ++ [current]) w, o) = (log, outcome) →
    ends_well validated env verifyDigest redirects current requests log outcome) as Hend.
  { intros w o Ho [= <- <-]. exists (hosts ++ [host]). split; [by eexists|]. split; [|split; [cbn [lg_requests]; rewrite length_app; cbn [length]; lia|done]].
    cbn. intros u Hu. rewrite list_lookup_middle in Hu by done. by injection Hu as <-. }
  destruct (rd_http (env redirects) current) as [| | | |r].
  - by apply (Hstop FetchConstruct).
  - apply (Hend "" (Err FetchNetwork)); [by apply fetched_err|done].
  - apply (Hend "" (Err FetchEmpty)); [by apply fetched_err|done].
  - apply (Hend "" (Err FetchEmpty)); [by apply fetched_err|done].
  - destruct (isRedirectStatus (rp_StatusCode r)).
    + destruct (MaxRedirects <=? redirects)%nat eqn:Hlim; case_bool.
      { apply (Hend "" (Err FetchTooManyRedirects)); [by apply fetched_err|done]. }
      destruct (redirect_target _ _ _) as [next|e] eqn:Hnext.
      2: { apply (Hend "" (Err e)); [|done]. apply fetched_err. intros ->. by eapply (redirect_target_never _ _ _ FetchFuel). }
      destruct (IH _ _ _ _ _ Hrun) as (hosts' & Hpre & _ & Hle & Hc' & Hf); [..|done|].
      * lia.
      * lia.
      * rewrite length_app. cbn. lia.
      * subst visited. rewrite fmap_app. cbn. set_solver.
      * exists hosts'. split; [etrans; [|exact Hpre]; by eexists|]. split; [|done].
        intros u Hu. destruct Hpre as [rest Hrest]. rewrite Hrest, <-app_assoc in Hu.
        cbn [app] in Hu. rewrite list_lookup_middle in Hu by done. by injection Hu as <-.
    + destruct (receive _ _ _ _ _) as [w o] eqn:Hr. apply (Hend w o); [|done]. split.
      * pose proof (receive_never validated verifyDigest accepts (hosts ++ [host]) r) as Hnv. rewrite Hr in Hnv. cbn in Hnv.
        intros ->. by apply (Hnv FetchFuel).
      * intros ev ->. apply receive_ok in Hr as (? & ? & ?). cbn. split; [by destruct requests|done].
Qed.

End confined.

(** ** Theorems *)

Section theorems.
Context `{U : !UnicodeTables, I : !NetIP, N : !NetURL, L : !FetchLib}.

Lemma fetch_spec env request validated accepts verifyDigest log outcome :
  validateRequest request = Ok validated → fetch env validated accepts verifyDigest = (log, outcome) →
  ∃ hosts, (length (lg_requests log) <= MaxRedirects + 1)%nat ∧ confined_all (allows validated) env hosts (lg_requests log) ∧
    (∀ u, lg_requests log !! 0%nat = Some u → u = vq_url validated) ∧ fetched validated verifyDigest hosts log outcome.
Proof.
  intros Hv Hrun. unfold fetch in Hrun. apply fetch_loop_spec in Hrun as (hosts & _ & Hfirst & Hle & Hc & Hf);
    [|unfold MaxRedirects; lia|lia|done|done|by split_and!; [|constructor|]]. by exists hosts.
Qed.

(** C17: [Fetch], successful or not, makes at most six requests, never the same
    URL twice, and never ends for lack of rounds. Every request goes to an HTTPS
    endpoint on port 443 whose host had resolved, in that very round, to public
    addresses only; the first request is for the URL of the signed request and
    every later one for a host on its redirect allowlist. This holds for every
    server and every resolver. *)
Theorem Fetch_confined env request accepts log outcome :
  Fetch env request accepts = (log, outcome) →
  outcome ≠ Err FetchFuel ∧ (length (lg_requests log) <= 6)%nat ∧ NoDup (url_String <$> lg_requests log) ∧
  ∀ i u, lg_requests log !! i = Some u → ∃ host,
    https_endpoint u host ∧
    (∃ addresses, rd_dns (env i) host = Some addresses ∧ addresses ≠ [] ∧ ∀ a, a ∈ addresses → isPublicIP (Addr_Unmap a) = true) ∧
    (i = 0%nat → url_Parse (rq_URL request) = Some u) ∧ ((0 < i)%nat → allowed_host request host).
Proof.
  unfold Fetch. destruct (validateRequest request) as [v|e] eqn:Hv; [|intros [= <- <-]; split_and!; [done|cbn; lia|constructor|done]].
  intros Hrun. destruct (fetch_spec _ _ _ _ _ _ _ Hv Hrun) as (hosts & Hle & (_ & Hn & Hc) & Hfirst & Hf & _).
  destruct (validateRequest_good _ _ Hv) as [_ _ _ _ _ Hurl _ Hallow].
  split_and!; [done|exact Hle|done|]. intros i u Hi. destruct (Hc i u Hi) as (host & _ & He & Hin & Hl).
  exists host. split; [by apply validateEndpointURL_https|]. split_and!.
  - destruct (public_lookup (rd_dns (env i) host)) as [found|] eqn:Hp; [|done].
    destruct (public_lookup_ok _ _ Hp) as (addresses & Ha & Hne & _ & Hel & Hpub). exists addresses. split; [done|]. split.
    + intros ->. destruct found as [|a found]; [done|]. assert (a ∈ Addr_Unmap <$> ([] : list Addr)) by (apply Hel; left). set_solver.
    + intros a Ha'. apply Hpub, Hel. by apply list_elem_of_fmap_2.
  - intros ->. by rewrite (Hfirst u Hi).
  - intros Hpos. by apply Hallow, Hin.
Qed.

Lemma fetch_verified `{LC : !LowerCase} env request v accepts log ev :
  validateRequest request = Ok v → fetch env v accepts true = (log, Ok ev) →
  strlen (lg_written log) = rq_ExpectedSize request ∧ sha256_hex (lg_written log) = rq_SHA256 request ∧
  ev_RedactedHostSequence ev = omap (λ u, match validateEndpointURL u with Ok h => Some h | Err _ => None end) (lg_requests log) ∧
  VerifyEvidence ev request = Ok tt.
Proof.
  intros Hv Hrun.
  destruct (fetch_spec _ _ _ _ _ _ _ Hv Hrun) as (hosts & Hle & (Hlen & _ & Hc) & Hfirst & _ & Hf).
  destruct (Hf ev eq_refl) as (Hne & Hs & Hd & ->). specialize (Hd eq_refl).
  destruct (validateRequest_good _ _ Hv) as [Hreq _ _ _ _ _ Horigin _]. rewrite Hreq in *.
  assert (∀ i h, hosts !! i = Some h → ∃ u, lg_requests log !! i = Some u ∧ confined (allows v) env i u h) as Hc'.
  { intros i h Hi. assert (is_Some (lg_requests log !! i)) as [u Hu] by (apply lookup_lt_is_Some; apply lookup_lt_Some in Hi; lia).
    destruct (Hc i u Hu) as (h' & Hh' & ?). exists u. split; [done|]. congruence. }
  split; [done|]. split; [done|]. cbn [ev_RedactedHostSequence]. split.
  - assert (Forall2 (λ u h, validateEndpointURL u = Ok h) (lg_requests log) hosts) as H2.
    { apply Forall2_lookup. intros i. destruct (lg_requests log !! i) as [u|] eqn:Hu.
      - destruct (Hc i u Hu) as (h & -> & ? & _). by constructor.
      - apply lookup_ge_None in Hu. assert (hosts !! i = None) as -> by (apply lookup_ge_None; lia). constructor. }
    clear -H2. induction H2 as [|u h us hs Hu _ IH]; [done|]. cbn. by rewrite Hu, <-IH.
  - rewrite Hs, Hd. destruct (lg_requests log) as [|u0 us] eqn:Hreqs; [done|].
    destruct (Hc 0%nat u0 eq_refl) as (h0 & Hh0 & He0 & _). specialize (Hfirst u0 eq_refl). subst u0.
    apply (VerifyEvidence_ok request v); [done| | |lia| |].
    + destruct hosts as [|h hosts]; cbn in *; congruence.
    + intros ->. done.
    + intros h [i Hi]%list_elem_of_lookup. destruct (Hc' i h Hi) as (u & _ & He & _).
      apply validateEndpointURL_host in He as [_ ?]. eauto.
    + intros h [i Hi]%list_elem_of_lookup. rewrite lookup_tail in Hi. destruct (Hc' (S i) h Hi) as (u & _ & _ & Hin & _).
      apply Hin. lia.
Qed.

(** C18: when [Fetch] succeeds, the destination received exactly the expected
    number of bytes and their SHA-256 is the signed one, whatever the server
    sent and however the body was cut; and [VerifyEvidence] accepts the evidence
    against the request: what the fetcher writes down, the consumer of the
    bottle can check. *)
Theorem Fetch_verified `{LC : !LowerCase} env request accepts log ev :
  Fetch env request accepts = (log, Ok ev) →
  strlen (lg_written log) = rq_ExpectedSize request ∧ sha256_hex (lg_written log) = rq_SHA256 request ∧
  ev_RedactedHostSequence ev = omap (λ u, match validateEndpointURL u with Ok h => Some h | Err _ => None end) (lg_requests log) ∧
  VerifyEvidence ev request = Ok tt.
Proof. unfold Fetch. destruct (validateRequest request) as [v|e] eqn:Hv; [|done]. by apply fetch_verified. Qed.

End theorems.

(** ** Probes *)

Section probes.
Context `{U : !UnicodeTables, I : !NetIP, N : !NetURL, L : !FetchLib}.

Definition probe_out_of_fuel (e : probe_error) : Prop := match e with ProbeFuel => True | _ => False end.

Lemma exactProbeContentLength_ok r size : exactProbeContentLength r = Some size → 0 < size <= MaxBottleSize ∧ rp_ContentLength r = size.
Proof.
  unfold exactProbeContentLength. intros H.
  repeat (case_match; try discriminate H). injection H as <-. case_bool. lia.
Qed.

(** How a probe ends *)
Definition probed (env : nat → Round) (requests : list URL) (outcome : result probe_error ProbeResult) : Prop :=
  (length requests <= MaxRedirects + 1)%nat ∧ never probe_out_of_fuel outcome ∧
  ∃ hosts, confined_all (λ _, True) env hosts requests ∧
    ∀ result, outcome = Ok result →
      pr_RedirectHostSequence result = hosts ∧ 0 < pr_Size result <= MaxBottleSize ∧
      ∃ u, last requests = Some u ∧ pr_FinalURL result = url_String u.

Lemma probed_err env hosts requests e :
  (length requests <= MaxRedirects + 1)%nat → confined_all (λ _, True) env hosts requests → ¬ probe_out_of_fuel e →
  probed env requests (Err e).
Proof. intros Hl Hc He. split; [done|]. split; [by apply never_err|]. exists hosts. by split. Qed.

Lemma resolveProbeRedirect_never current location : never probe_out_of_fuel (resolveProbeRedirect current location).
Proof. unfold resolveProbeRedirect. never_tac. Qed.

Lemma probe_loop_spec env fuel redirects current visited hosts requests requests' outcome :
  probe_loop fuel env redirects current visited hosts requests = (requests', outcome) →
  (redirects + fuel = MaxRedirects + 1)%nat → (redirects <= MaxRedirects)%nat → length requests = redirects →
  visited = list_to_set (url_String <$> requests) → confined_all (λ _, True) env hosts requests →
  probed env requests' outcome.
Proof.
  revert redirects current visited hosts requests.
  induction fuel as [|fuel IH]; intros redirects current visited hosts requests Hrun Hfuel Hmax <- -> Hall; [lia|].
  cbn [probe_loop] in Hrun. destruct (mbind _ (check (rd_cancelled (env (length requests))) _)) as [host|e] eqn:Henter.
  2: { injection Hrun as <- <-. apply (probed_err env hosts); [lia|done|]. intros He. eapply (never_err_inv probe_out_of_fuel); [|exact He|exact Henter]. never_tac. }
  res_inv Henter. case_bool.
  assert (url_String current ∉ url_String <$> requests) as Hnew by set_solver.
  assert (confined_all (λ _, True) env (hosts ++ [host]) (requests ++ [current])) as Hall'.
  { apply confined_all_snoc; [done| |done]. split; [done|]. split; [done|].
    by match goal with E : public_lookup _ = Ok _ |- _ => rewrite E end. }
  assert (length (requests ++ [current]) <= MaxRedirects + 1)%nat as Hle by (rewrite length_app; cbn [length]; lia).
  destruct (rd_http (env (length requests)) current) as [| | | |r].
  - injection Hrun as <- <-. apply (probed_err env hosts); [lia|done|]. tauto.
  - injection Hrun as <- <-. by apply (probed_err env (hosts ++ [host])); [| |tauto].
  - injection Hrun as <- <-. by apply (probed_err env (hosts ++ [host])); [| |tauto].
  - injection Hrun as <- <-. by apply (probed_err env (hosts ++ [host])); [| |tauto].
  - destruct (rp_CloseFails r); [injection Hrun as <- <-; by apply (probed_err env (hosts ++ [host])); [| |tauto]|].
    destruct (isRedirectStatus (rp_StatusCode r)).
    + destruct (MaxRedirects <=? length requests)%nat eqn:Hlim; case_bool; [injection Hrun as <- <-; by apply (probed_err env (hosts ++ [host])); [| |tauto]|].
      destruct (resolveProbeRedirect _ _) as [next|e] eqn:Hnext.
      2: { injection Hrun as <- <-. apply (probed_err env (hosts ++ [host])); [done..|]. intros He.
           by eapply (never_err_inv probe_out_of_fuel); [apply resolveProbeRedirect_never|exact He|exact Hnext]. }
      apply (IH _ _ _ _ _ Hrun); [lia|lia|rewrite length_app; cbn; lia| |done].
      rewrite fmap_app. cbn. set_solver.
    + injection Hrun as <- <-. split; [done|]. split; [never_tac|]. exists (hosts ++ [host]). split; [done|].
      intros result Hr. res_inv Hr. destruct (exactProbeContentLength r) as [size|] eqn:Hs; [|done]. injection Hr as <-.
      apply exactProbeContentLength_ok in Hs as [Hs _]. split; [done|]. split; [exact Hs|].
      exists current. split; [by rewrite last_snoc|done].
Qed.

(** [ProbeOptional] makes at most six requests, for pairwise different HTTPS
    URLs whose hosts resolved in that round to public addresses only, and always
    reaches an answer. A positive answer names the last URL requested, a size
    within the bottle limit and the hosts in order; absence is reported only for
    a final status 404 or 410, and never for a failure of the network, of a
    redirect or of a check. *)
Theorem ProbeOptional_sound env rawURL requests outcome :
  ProbeOptional env rawURL = (requests, outcome) →
  (length requests <= 6)%nat ∧ NoDup (url_String <$> requests) ∧ outcome ≠ Err ProbeFuel ∧
  (∀ i u, requests !! i = Some u → ∃ host, confined (λ _, True) env i u host) ∧
  (∀ result, outcome = Ok (Some result) →
     0 < pr_Size result <= MaxBottleSize ∧ (∃ u, last requests = Some u ∧ pr_FinalURL result = url_String u) ∧
     length (pr_RedirectHostSequence result) = length requests) ∧
  (outcome = Ok None ↔ ∃ host status, (Probe env rawURL).2 = Err (ProbeStatusError host status) ∧ (status = 404 ∨ status = 410)).
Proof.
  unfold ProbeOptional. destruct (Probe env rawURL) as [reqs out] eqn:Hp. intros [= <- <-].
  assert (probed env reqs out) as (Hle & Hnf & hosts & (Hlen & Hn & Hc) & Hok).
  { unfold Probe in Hp. destruct (parseBottleURL rawURL) as [[u h]|e]; [|injection Hp as <- <-].
    - unfold probe in Hp. by eapply probe_loop_spec; [exact Hp|done|lia|done|done|split; [done|split; [constructor|done]]].
    - apply (probed_err env []); [cbn; lia|split; [done|split; [constructor|done]]|tauto]. }
  split; [exact Hle|]. split; [done|]. cbn [snd]. split_and!.
  - destruct out as [r|e]; [done|]. specialize (Hnf e). destruct e; try congruence; [destruct (_ || _); congruence|by destruct Hnf].
  - intros i u Hi. destruct (Hc i u Hi) as (host & _ & ?). by exists host.
  - intros result Hr. destruct out as [r|e]; [injection Hr as ->|destruct e; try done; by destruct (_ || _)].
    destruct (Hok result eq_refl) as (Hseq & ? & ?). split; [done|]. split; [done|]. by rewrite Hseq.
  - destruct out as [r|e]; [split; [done|by intros (? & ? & ? & _)]|]. destruct e as [| | | | | | | | | | | | |host status| | |];
      try (split; [done|by intros (? & ? & ? & _)]).
    destruct (status =? 404) eqn:E1; [|destruct (status =? 410) eqn:E2]; cbn; case_bool.
    + split; [|done]. intros _. exists host, status. auto.
    + split; [|done]. intros _. exists host, status. auto.
    + split; [done|]. intros (h & st & [= -> ->] & [?|?]); congruence.
Qed.

End probes.

(** ** A concrete fetch: one redirect to an allowed host *)

Module example.

Definition lib : FetchLib := {|
  url_String u := url_Scheme u +:+ "://" +:+ url_Host u +:+ url_Path u; url_ResolveReference _ reference := reference;
  sha256_hex _ := zero_digest |}.

Definition request : Request :=
  MkRequest RequestSchemaVersion FetchPolicyVersion "jq" "https://ghcr.io/v2/jq" 5 zero_digest "jq.tar.gz" ["CDN.example.org"].

Definition env (i : nat) : Round :=
  MkRound false (λ _, Some [Addr4 2637758721])
    (λ _, HttpResponse (match i with
       | O => MkResponse 307 "https://cdn.example.org/blob" [] [] [] 0 "" false false
       | _ => MkResponse 200 "" ["identity"] [] [] (-1) "hello" false false end)).

Definition log : Log :=
  MkLog [MkURL "https" "" false "ghcr.io" "/v2/jq" "" false "" "" ""; MkURL "https" "" false "cdn.example.org" "/blob" "" false "" "" ""]
    "hello".

Definition evidence : Evidence :=
  MkEvidence EvidenceSchemaVersion FetchPolicyVersion "jq" "jq.tar.gz" 5 zero_digest ["ghcr.io"; "cdn.example.org"].

Lemma run : Fetch (U := ascii_tables) (I := no_literals) (N := https_only) (L := lib) env request None = (log, Ok evidence).
Proof. vm_compute. reflexivity. Qed.

End example.

Lemma Fetch_confined_witness :
  allowed_host (U := ascii_tables) (I := no_literals) example.request "cdn.example.org".
Proof.
  destruct (Fetch_confined (U := ascii_tables) (I := no_literals) (N := https_only) (L := example.lib) _ _ _ _ _ example.run)
    as (_ & _ & _ & H).
  destruct (H 1%nat _ eq_refl) as (host & (_ & _ & _ & _ & _ & _ & _ & _ & Hu) & _ & _ & Hallowed).
  assert (host = "cdn.example.org") as -> by (vm_compute in Hu; congruence). apply Hallowed. lia.
Defined.

Lemma Fetch_verified_witness :
  VerifyEvidence (U := ascii_tables) (I := no_literals) (N := https_only) example.evidence example.request = Ok tt.
Proof.
  exact (proj2 (proj2 (proj2 (Fetch_verified (U := ascii_tables) (I := no_literals) (N := https_only) (L := example.lib)
    _ _ _ _ _ example.run)))).
Defined.

Lemma ProbeOptional_sound_witness :
  (ProbeOptional (U := ascii_tables) (I := no_literals) (N := https_only) (L := example.lib)
     (λ _, MkRound false (λ _, Some [Addr4 2637758721]) (λ _, HttpResponse (MkResponse 410 "" [] [] [] 0 "" false false)))
     "https://ghcr.io/attestation").2 = Ok None.
Proof.
  destruct (ProbeOptional _ _) as [requests outcome] eqn:H. cbn [snd].
  apply (proj2 (proj2 (proj2 (proj2 (proj2 (ProbeOptional_sound _ _ _ _ H)))))).
  exists "ghcr.io", 410. split; [vm_compute; reflexivity|]. by right.
Defined.
