(* ===== verification/FetchFiles.v ===== *)
(** * internal/fetcher: publishing a fetched bottle

    [file.go]: [FetchToFiles] downloads into a temporary file, and publishes the
    bottle and its evidence by hard links, which never replace a file. A file
    system call may fail, other processes may create files between the check and
    the publication, and the deferred removals run on every path. *)

From S2P Require Import Prelude GoStrings JsonUnique NetUrl FormulaId Graph ClosureGraph CatalogFields FetchPolicy Fetcher.
From stdpp Require Import options.
Local Open Scope Z_scope.

(** ** Files *)

Record File := MkFile { fl_content : string; fl_mode : Z }.

#[export] Instance File_eq_dec : EqDecision File.
Proof. solve_decision. Defined.

Notation FS := (gmap string File).

(** The two files a fetch writes *)
Inductive output := Bottle | EvidenceFile.

#[export] Instance output_eq_dec : EqDecision output.
Proof. solve_decision. Defined.

(** The calls that can fail *)
Inductive call :=
| Chmod (o : output) | Sync (o : output) | Close (o : output) | Write | Link (o : output) | RemoveSource (o : output)
| RemoveTarget (o : output) | RemoveTemp (o : output) | RemoveBottle.

(** What the system answers: [filepath.Abs], whether the parent of a path is a
    directory ([None]: [os.Stat] fails), whether [os.Lstat] fails for another
    reason than absence, the names [os.CreateTemp] picks, which calls fail, and
    the files others create before a link. *)
Record System := MkSystem {
  sy_abs : string → option string; sy_parent : string → option bool; sy_lstat : string → bool;
  sy_temp : output → option string; sy_fails : call → bool; sy_others : output → FS;
}.

Inductive file_error :=
| FileRequest (e : request_error) | FilePaths | FileExists (path : string) | FileLstat | FileTemp | FileFetch (e : fetch_error)
| FileSeal | FileWrite | FilePublish | FileParent.

(** [filepath.Dir] *)
Definition filepath_Dir (p : string) : string :=
  match cut_last p "/" with Some (dir, _) => path_Clean (dir +:+ "/") | None => "." end.

Section files.
Context `{U : !UnicodeTables, I : !NetIP, N : !NetURL, L : !FetchLib} (sys : System).

Definition os_Remove (c : call) (path : string) (fs : FS) : FS := if sy_fails sys c then fs else delete path fs.

Definition parent_ok (path : string) : result file_error unit :=
  match sy_parent sys (filepath_Dir path) with Some true => Ok tt | _ => Err FileParent end.

Definition validateOutputPaths (bottlePath evidencePath : string) : result file_error (string * string) :=
  _ ← check (bool_decide (bottlePath = "") || bool_decide (evidencePath = "")) FilePaths;
  match sy_abs sys bottlePath, sy_abs sys evidencePath with
  | Some absoluteBottle, Some absoluteEvidence =>
      _ ← check (bool_decide (path_Clean absoluteBottle = path_Clean absoluteEvidence)) FilePaths;
      _ ← parent_ok absoluteBottle;
      _ ← parent_ok absoluteEvidence;
      Ok (absoluteBottle, absoluteEvidence)
  | _, _ => Err FilePaths
  end.

Definition requireAbsent (path : string) (fs : FS) : result file_error unit :=
  match fs !! path with
  | Some _ => Err (FileExists path)
  | None => check (sy_lstat sys path) FileLstat
  end.

(** [os.CreateTemp]: a new, empty, private file *)
Definition create_temp (o : output) (fs : FS) : result file_error (string * FS) :=
  match sy_temp sys o with
  | None => Err FileTemp
  | Some name => _ ← check (bool_decide (is_Some (fs !! name))) FileTemp; Ok (name, <[name := MkFile "" 384]> fs)
  end.

Definition sealFile (o : output) (path : string) (fs : FS) : FS * result file_error unit :=
  if sy_fails sys (Chmod o) then (fs, Err FileSeal)
  else
    let fs := alter (λ f, MkFile (fl_content f) 292) path fs in
    (fs, check (sy_fails sys (Sync o) || sy_fails sys (Close o)) FileSeal).

Definition publishNoReplace (o : output) (source target : string) (fs : FS) : FS * result file_error unit :=
  if negb (bool_decide (filepath_Dir source = filepath_Dir target)) then (fs, Err FilePublish)
  else
    let fs := fs ∪ sy_others sys o in
    match fs !! source, fs !! target with
    | Some file, None =>
        if sy_fails sys (Link o) then (fs, Err FilePublish)
        else
          let fs := <[target := file]> fs in
          if sy_fails sys (RemoveSource o) then (os_Remove (RemoveTarget o) target fs, Err FilePublish)
          else (delete source fs, Ok tt)
    | _, _ => (fs, Err FilePublish)
    end.

(** The statements after the bottle's publication, with their deferred removal *)
Definition publish_evidence (evidenceTemp bottlePath evidencePath : string) (evidence : Evidence) (fs : FS)
    : FS * result file_error Evidence :=
  let '(fs, r) := publishNoReplace EvidenceFile evidenceTemp evidencePath fs in
  match r with
  | Ok _ => (fs, Ok evidence)
  | Err e => (os_Remove RemoveBottle bottlePath fs, Err e)
  end.

(** From the evidence's temporary file on; the deferred removal of that file is
    the caller's last step. *)
Definition write_evidence (J : FetchJSON) (bottleTemp evidenceTemp bottlePath evidencePath : string) (evidence : Evidence) (fs : FS)
    : FS * result file_error Evidence :=
  if sy_fails sys Write then (fs, Err FileWrite)
  else
    let fs := <[evidenceTemp := MkFile (fj_encode_evidence J evidence +:+ String "010" "") 384]> fs in
    let '(fs, r) := sealFile EvidenceFile evidenceTemp fs in
    match r with
    | Err e => (fs, Err e)
    | Ok _ =>
        let '(fs, r) := publishNoReplace Bottle bottleTemp bottlePath fs in
        match r with
        | Err e => (fs, Err e)
        | Ok _ => publish_evidence evidenceTemp bottlePath evidencePath evidence fs
        end
    end.

(** From the bottle's temporary file on *)
Definition fill_and_publish (J : FetchJSON) (env : nat → Round) (validated : validatedRequest) (accepts : option nat)
    (bottleTemp bottlePath evidencePath : string) (fs : FS) : FS * result file_error Evidence :=
  let '(log, outcome) := fetch env validated accepts true in
  let fs := <[bottleTemp := MkFile (lg_written log) 384]> fs in
  match outcome with
  | Err e => (fs, Err (FileFetch e))
  | Ok evidence =>
      let '(fs, r) := sealFile Bottle bottleTemp fs in
      match r with
      | Err e => (fs, Err e)
      | Ok _ =>
          match create_temp EvidenceFile fs with
          | Err e => (fs, Err e)
          | Ok (evidenceTemp, fs) =>
              let '(fs, r) := write_evidence J bottleTemp evidenceTemp bottlePath evidencePath evidence fs in
              (os_Remove (RemoveTemp EvidenceFile) evidenceTemp fs, r)
          end
      end
  end.

Definition FetchToFiles (J : FetchJSON) (env : nat → Round) (request : Request) (accepts : option nat)
    (bottlePath evidencePath : string) (fs : FS) : FS * result file_error Evidence :=
  match (validated ← map_err FileRequest (validateRequest request);
         '(bottlePath, evidencePath) ← validateOutputPaths bottlePath evidencePath;
         _ ← requireAbsent bottlePath fs;
         _ ← requireAbsent evidencePath fs;
         '(bottleTemp, fs) ← create_temp Bottle fs;
         Ok (validated, bottlePath, evidencePath, bottleTemp, fs)) with
  | Err e => (fs, Err e)
  | Ok (validated, bottlePath, evidencePath, bottleTemp, fs) =>
      let '(fs, r) := fill_and_publish J env validated accepts bottleTemp bottlePath evidencePath fs in
      (os_Remove (RemoveTemp Bottle) bottleTemp fs, r)
  end.

End files.

(** ** Publication is all or nothing *)

(** The file system works: removals succeed, the temporary names are nobody
    else's, and nobody creates the bottle's path once it exists. *)
Record orderly (sys : System) (bottlePath evidencePath : string) : Prop := {
  od_target : ∀ o, sy_fails sys (RemoveTarget o) = false;
  od_temp : ∀ o, sy_fails sys (RemoveTemp o) = false;
  od_bottle : sy_fails sys RemoveBottle = false;
  od_private : ∀ o o' name, sy_temp sys o = Some name → sy_others sys o' !! name = None;
  od_names : ∀ o name, sy_temp sys o = Some name → sy_abs sys bottlePath ≠ Some name ∧ sy_abs sys evidencePath ≠ Some name;
  od_taken : ∀ b, sy_abs sys bottlePath = Some b → sy_others sys EvidenceFile !! b = None;
}.

Section atomic.
Context `{U : !UnicodeTables, I : !NetIP, N : !NetURL, L : !FetchLib} (sys : System).

(** Nothing of the fetch is left: the files from before, and those that others created *)
Definition undone (fs fs' : FS) : Prop :=
  fs' = fs ∨ fs' = fs ∪ sy_others sys Bottle ∨ fs' = fs ∪ sy_others sys Bottle ∪ sy_others sys EvidenceFile.

Lemma sealFile_spec o path f (m fs' : FS) r :
  sealFile sys o path (<[path := f]> m) = (fs', r) →
  (r = Ok tt ∧ fs' = <[path := MkFile (fl_content f) 292]> m) ∨ (∃ e g, r = Err e ∧ fs' = <[path := g]> m).
Proof.
  unfold sealFile. destruct (sy_fails sys (Chmod o)); [intros [= <- <-]; right; eauto|].
  rewrite alter_insert_eq. intros [= <- <-]. destruct (_ || _); cbn; [right; eauto|by left].
Qed.

Lemma publish_spec o source target f (m fs' : FS) r :
  m !! source = None → sy_others sys o !! source = None → sy_fails sys (RemoveTarget o) = false →
  publishNoReplace sys o source target (<[source := f]> m) = (fs', r) →
  (r = Ok tt ∧ (m ∪ sy_others sys o) !! target = None ∧ source ≠ target ∧ fs' = <[target := f]> (m ∪ sy_others sys o)) ∨
  (∃ e, r = Err e ∧ (fs' = <[source := f]> m ∨ fs' = <[source := f]> (m ∪ sy_others sys o))).
Proof.
  intros Hm Ho Hrm. unfold publishNoReplace. destruct (negb _); [intros [= <- <-]; right; eauto|].
  rewrite <-insert_union_l, lookup_insert_eq. set (m' := m ∪ sy_others sys o).
  assert (m' !! source = None) as Hm' by (apply lookup_union_None; by split).
  destruct (<[source := f]> m' !! target) as [g|] eqn:Ht; [intros [= <- <-]; right; eauto|].
  apply lookup_insert_None in Ht as [Ht Hne].
  destruct (sy_fails sys (Link o)); [intros [= <- <-]; right; eauto|].
  destruct (sy_fails sys (RemoveSource o)); intros [= <- <-].
  - right. eexists. split; [done|]. right. unfold os_Remove. rewrite Hrm, delete_insert_id; [done|]. by rewrite lookup_insert_ne.
  - left. split_and!; [done..|]. rewrite delete_insert_ne, delete_insert_id; done.
Qed.

Section steps.
Variables (bottlePath evidencePath b e t1 t2 : string).
Hypothesis Hord : orderly sys bottlePath evidencePath.
Hypothesis Hb : sy_abs sys bottlePath = Some b.
Hypothesis He : sy_abs sys evidencePath = Some e.
Hypothesis Ht1 : sy_temp sys Bottle = Some t1.
Hypothesis Ht2 : sy_temp sys EvidenceFile = Some t2.
Hypothesis Hne : t2 ≠ t1.
#[local] Set Default Proof Using "Type*".

Lemma temps_apart : t1 ≠ b ∧ t1 ≠ e ∧ t2 ≠ b ∧ t2 ≠ e.
Proof.
  destruct Hord as [_ _ _ _ Hn _]. destruct (Hn _ _ Ht1), (Hn _ _ Ht2). rewrite Hb, He in *. split_and!; congruence.
Qed.

(** What is left of a state when the temporary files are removed *)
Lemma swept x y (m : FS) : m !! t1 = None → m !! t2 = None → delete t1 (delete t2 (<[t2 := y]> (<[t1 := x]> m))) = m.
Proof. intros H1 H2. rewrite delete_insert_id by (by rewrite lookup_insert_ne). by rewrite delete_insert_id. Qed.

Lemma swept_comm x y (m : FS) : m !! t1 = None → m !! t2 = None → delete t1 (delete t2 (<[t1 := x]> (<[t2 := y]> m))) = m.
Proof. intros H1 H2. rewrite insert_insert_ne by done. by apply swept. Qed.

Lemma swept_bottle x y (m : FS) :
  m !! t1 = None → m !! t2 = None → m !! b = None → delete t1 (delete t2 (delete b (<[t2 := y]> (<[b := x]> m)))) = m.
Proof.
  intros H1 H2 H3. destruct temps_apart as (_ & _ & Hd & _). rewrite delete_insert_ne by done.
  rewrite (delete_insert_id m b x H3), (delete_insert_id m t2 y H2). by apply delete_id.
Qed.

Lemma no_temps o (m : FS) : m !! t1 = None → m !! t2 = None → (m ∪ sy_others sys o) !! t1 = None ∧ (m ∪ sy_others sys o) !! t2 = None.
Proof. intros H1 H2. destruct Hord as [_ _ _ Hp _ _]. split; apply lookup_union_None; (split; [done|by eapply Hp]). Qed.

(** The published state: both files, and nothing else changed *)
Definition published (content : string) (J : FetchJSON) (ev : Evidence) (m fs' : FS) : Prop :=
  let others := m ∪ sy_others sys Bottle ∪ sy_others sys EvidenceFile in
  b ≠ e ∧ (m ∪ sy_others sys Bottle) !! b = None ∧ others !! e = None ∧
  fs' = <[e := MkFile (fj_encode_evidence J ev +:+ String "010" "") 292]> (<[b := MkFile content 292]> others).

Lemma write_evidence_spec J content ev y (m fs' : FS) r :
  m !! t1 = None → m !! t2 = None →
  write_evidence sys J t1 t2 b e ev (<[t2 := y]> (<[t1 := MkFile content 292]> m)) = (fs', r) →
  match r with
  | Ok ev' => ev' = ev ∧ published content J ev m (delete t1 (delete t2 fs'))
  | Err _ => undone m (delete t1 (delete t2 fs'))
  end.
Proof.
  intros H1 H2. destruct temps_apart as (Hd1 & Hd2 & Hd3 & Hd4). pose proof Hord as [Htarget _ Hbottle Hp _ Htaken]. specialize (Htaken b Hb).
  unfold write_evidence. destruct (sy_fails sys Write); [intros [= <- <-]; left; by apply swept|].
  rewrite insert_insert_eq. set (y' := MkFile _ 384). set (x := MkFile content 292).
  destruct (sealFile _ _ _ _) as [fs1 r1] eqn:Hs. apply sealFile_spec in Hs as [[-> ->]|(err & g & -> & ->)].
  2: { intros [= <- <-]. left. by apply swept. }
  rewrite insert_insert_ne by done. set (y2 := MkFile (fl_content y') 292).
  destruct (publishNoReplace _ _ _ _ _) as [fs2 r2] eqn:Hpub.
  assert (<[t2 := y2]> m !! t1 = None) as Hm1 by by rewrite lookup_insert_ne.
  destruct (publish_spec _ _ _ _ _ _ _ Hm1 (Hp _ _ _ Ht1) (Htarget _) Hpub) as [(-> & Hfree & _ & ->)|(err & -> & Hfs)].
  2: { intros [= <- <-]. destruct (no_temps Bottle m H1 H2). destruct Hfs as [-> | ->].
       - left. by apply swept_comm.
       - right. left. rewrite <-insert_union_l. by apply swept_comm. }
  rewrite <-insert_union_l in Hfree |- *. set (m1 := m ∪ sy_others sys Bottle) in *.
  rewrite lookup_insert_ne in Hfree by done. rewrite insert_insert_ne by done.
  destruct (no_temps Bottle m H1 H2) as [Hm1a Hm1b]. fold m1 in Hm1a, Hm1b.
  clear Hpub. unfold publish_evidence. destruct (publishNoReplace _ _ _ _ _) as [fs3 r3] eqn:Hpub2.
  assert (<[b := x]> m1 !! t2 = None) as Hb2 by by rewrite lookup_insert_ne.
  destruct (no_temps EvidenceFile m1 Hm1a Hm1b) as [Hm2a Hm2b]. set (m2 := m1 ∪ sy_others sys EvidenceFile) in *.
  destruct (publish_spec _ _ _ _ _ _ _ Hb2 (Hp _ _ _ Ht2) (Htarget _) Hpub2) as [(-> & Hfree2 & _ & ->)|(err & -> & Hfs)];
    intros [= <- <-].
  - rewrite <-insert_union_l in *. fold m2 in Hfree2 |- *. apply lookup_insert_None in Hfree2 as [Hfree2 Hbe].
    split; [done|]. unfold published. fold m1 m2. split_and!; [done..|].
    rewrite !delete_id; [done|..]; rewrite ?lookup_delete_ne, ?lookup_insert_ne by done; done.
  - unfold os_Remove. rewrite Hbottle. rewrite <-insert_union_l in Hfs. fold m2 in Hfs.
    assert (m2 !! b = None) by (apply lookup_union_None; by split).
    destruct Hfs as [-> | ->]; [right; left|right; right]; by apply swept_bottle.
Qed.

End steps.

Lemma create_temp_ok o (fs fs' : FS) name :
  create_temp sys o fs = Ok (name, fs') → sy_temp sys o = Some name ∧ fs !! name = None ∧ fs' = <[name := MkFile "" 384]> fs.
Proof.
  unfold create_temp. destruct (sy_temp sys o) as [n|]; [|done]. intros H. res_inv H. simplify_eq. case_bool.
  split_and!; [done| |done]. by apply eq_None_not_Some.
Qed.

Lemma fill_spec bottlePath evidencePath b e t1 J env v accepts f (fs fs' : FS) r :
  orderly sys bottlePath evidencePath → sy_abs sys bottlePath = Some b → sy_abs sys evidencePath = Some e →
  sy_temp sys Bottle = Some t1 → fs !! t1 = None →
  fill_and_publish sys J env v accepts t1 b e (<[t1 := f]> fs) = (fs', r) →
  match r with
  | Ok ev => ∃ log, fetch env v accepts true = (log, Ok ev) ∧ published b e (lg_written log) J ev fs (delete t1 fs')
  | Err _ => undone fs (delete t1 fs')
  end.
Proof.
  intros Hord Hb He Ht1 Hfree. unfold fill_and_publish. destruct (fetch env v accepts true) as [log outcome]. rewrite insert_insert_eq.
  destruct outcome as [ev|err]; [|intros [= <- <-]; left; by apply delete_insert_id].
  destruct (sealFile _ _ _ _) as [fs1 r1] eqn:Hs. apply sealFile_spec in Hs as [[-> ->]|(err & g & -> & ->)].
  2: { intros [= <- <-]. left. by apply delete_insert_id. }
  destruct (create_temp sys EvidenceFile _) as [[t2 fs2]|err] eqn:Ht2; [|intros [= <- <-]; left; by apply delete_insert_id].
  apply create_temp_ok in Ht2 as (Ht2 & [Hf2 Hne]%lookup_insert_None & ->).
  destruct (write_evidence _ _ _ _ _ _ _ _) as [fs3 r3] eqn:Hw.
  pose proof (write_evidence_spec bottlePath evidencePath b e t1 t2 Hord Hb He Ht1 Ht2 (not_eq_sym Hne) _ _ _ _ _ _ _ Hfree Hf2 Hw) as Hspec.
  intros [= <- <-]. unfold os_Remove. rewrite (od_temp _ _ _ Hord). destruct r3 as [ev'|err]; [|done].
  destruct Hspec as [-> Hpub]. by exists log.
Qed.

Lemma requireAbsent_ok path (fs : FS) u : requireAbsent sys path fs = Ok u → fs !! path = None.
Proof. unfold requireAbsent. by destruct (fs !! path). Qed.

Lemma validateOutputPaths_ok bottlePath evidencePath b e :
  validateOutputPaths sys bottlePath evidencePath = Ok (b, e) → sy_abs sys bottlePath = Some b ∧ sy_abs sys evidencePath = Some e.
Proof.
  unfold validateOutputPaths. intros H. res_inv H. destruct (sy_abs sys bottlePath), (sy_abs sys evidencePath); try done.
  res_inv H. by simplify_eq.
Qed.

(** C19: [FetchToFiles] publishes everything or nothing, and never replaces a
    file, also when other processes create files meanwhile. On success the
    bottle's path and the evidence's path, both free until then, hold read-only
    files: the bottle with exactly the expected size and the signed SHA-256, the
    evidence accepted by [VerifyEvidence]; no other path changed and no temporary
    file remains. On failure the file system is what it was, plus what others
    created. Removals are assumed to succeed; every other call may fail. *)
Theorem FetchToFiles_atomic `{LC : !LowerCase} J env request accepts bottlePath evidencePath (fs fs' : FS) r :
  orderly sys bottlePath evidencePath →
  FetchToFiles sys J env request accepts bottlePath evidencePath fs = (fs', r) →
  match r with
  | Err _ => undone fs fs'
  | Ok ev => ∃ b e content,
      sy_abs sys bottlePath = Some b ∧ sy_abs sys evidencePath = Some e ∧ fs !! b = None ∧ fs !! e = None ∧
      published b e content J ev fs fs' ∧
      strlen content = rq_ExpectedSize request ∧ sha256_hex content = rq_SHA256 request ∧ VerifyEvidence ev request = Ok tt
  end.
Proof.
  intros Hord. unfold FetchToFiles.
  destruct (mbind _ (map_err FileRequest (validateRequest request))) as [[[[[v b] e] t1] fs1]|err] eqn:Hpre;
    [|intros [= <- <-]; by left].
  res_inv Hpre. match goal with E : validateRequest _ = Ok _ |- _ => rename E into Hv end.
  repeat match goal with p : _ * _ |- _ => destruct p end. res_inv Hpre.
  repeat match goal with p : _ * _ |- _ => destruct p end. simplify_eq.
  match goal with E : validateOutputPaths _ _ _ = Ok _ |- _ => apply validateOutputPaths_ok in E as [Hb He] end.
  match goal with E : create_temp _ _ _ = Ok _ |- _ => apply create_temp_ok in E as (Ht1 & Hfree & ->) end.
  repeat match goal with E : requireAbsent _ _ _ = Ok _ |- _ => apply requireAbsent_ok in E end.
  destruct (fill_and_publish _ _ _ _ _ _ _ _ _) as [fs2 r2] eqn:Hfill.
  pose proof (fill_spec _ _ _ _ _ _ _ _ _ _ _ _ _ Hord Hb He Ht1 Hfree Hfill) as Hspec.
  intros [= <- <-]. unfold os_Remove. rewrite (od_temp _ _ _ Hord). destruct r2 as [ev|err]; [|done].
  destruct Hspec as (log & Hf & Hpub). destruct (fetch_verified _ _ _ _ _ _ Hv Hf) as (? & ? & _ & ?).
  by eexists _, _, (lg_written log).
Qed.

End atomic.

(** ** A concrete publication, with a file of another process in between *)

Lemma FetchToFiles_atomic_witness :
  let sys := MkSystem Some (λ _, Some true) (λ _, false)
    (λ o, Some (match o with Bottle => "/out/.bottle-fetch-1" | EvidenceFile => "/out/.bottle-evidence-2" end)) (λ _, false)
    (λ o, match o with Bottle => {["/out/other" := MkFile "x" 420]} | EvidenceFile => ∅ end) in
  let J := MkFetchJSON (λ _, MkDecoder [] false) (λ _, None) (λ _, None) (λ _, None) (λ _, "{}") in
  (FetchToFiles (U := ascii_tables) (I := no_literals) (N := https_only) (L := example.lib) sys J example.env example.request None
     "/out/jq.tar.gz" "/out/jq.json" ∅).2 = Ok example.evidence ∧
  VerifyEvidence (U := ascii_tables) (I := no_literals) (N := https_only) example.evidence example.request = Ok tt.
Proof.
  intros sys J.
  assert (orderly sys "/out/jq.tar.gz" "/out/jq.json") as Hord.
  { split; [done..| | |].
    - intros o o' name [= <-]. by destruct o, o'.
    - intros o name [= <-]. by destruct o.
    - intros b [= <-]. done. }
  destruct (FetchToFiles (U := ascii_tables) (I := no_literals) (N := https_only) (L := example.lib) sys J example.env example.request
    None "/out/jq.tar.gz" "/out/jq.json" ∅) as [fs' r] eqn:Hrun.
  assert (r = Ok example.evidence) as ->.
  { assert (r = (FetchToFiles (U := ascii_tables) (I := no_literals) (N := https_only) (L := example.lib) sys J example.env
      example.request None "/out/jq.tar.gz" "/out/jq.json" ∅).2) as -> by (by rewrite Hrun). vm_compute. reflexivity. }
  split; [done|].
  destruct (FetchToFiles_atomic (U := ascii_tables) (I := no_literals) (N := https_only) (L := example.lib) sys _ _ _ _ _ _ _ _ _ Hord Hrun)
    as (b & e & content & _ & _ & _ & _ & _ & _ & _ & H). exact H.
Defined.
