(* ===== verification/BottleStreams.v ===== *)
(** * internal/bottle: the byte streams of the archive verifier

    [verify.go], first part: the detector of relocation placeholders, the reader
    that remembers the last bytes it passed on, and the check of the gzip header
    before the gzip reader sees it. A byte slice is a list of bytes; a stream
    arrives in pieces of any size, and the theorems hold for every cutting. *)

From S2P Require Import Prelude GoStrings.
From stdpp Require Import options.

Notation bytes := (list ascii).

Definition text_bytes (s : string) : bytes := String.list_ascii_of_string s.

(** [bytes.Contains(s, sub)] *)
Fixpoint bytes_Contains (s sub : bytes) : bool :=
  bool_decide (sub `prefix_of` s) || match s with [] => false | _ :: s => bytes_Contains s sub end.

(** The last [n] bytes *)
Definition lastn (n : nat) (s : bytes) : bytes := drop (length s - n) s.

(** ** Relocation placeholders *)

Definition relocationPlaceholders : list bytes :=
  text_bytes <$> ["@@HOMEBREW_PREFIX@@"; "@@HOMEBREW_CELLAR@@"; "@@HOMEBREW_REPOSITORY@@"; "@@HOMEBREW_LIBRARY@@";
    "@@HOMEBREW_PERL@@"; "@@HOMEBREW_JAVA@@"].

Definition containsRelocationPlaceholder (value : bytes) : bool :=
  existsb (bytes_Contains value) relocationPlaceholders.

Definition maxRelocationPlaceholderBytes : nat :=
  foldl (λ longest placeholder, if (longest <? length placeholder)%nat then length placeholder else longest) 0%nat relocationPlaceholders.

Record placeholderDetector := MkDetector { pd_tail : bytes; pd_found : bool }.

Definition new_detector : placeholderDetector := MkDetector [] false.

Definition placeholderDetector_Write (d : placeholderDetector) (p : bytes) : placeholderDetector :=
  if pd_found d then d
  else
    let combined := pd_tail d ++ p in
    let found := containsRelocationPlaceholder combined in
    let keep := (maxRelocationPlaceholderBytes - 1)%nat in
    let keep := if (length combined <? keep)%nat then length combined else keep in
    MkDetector (lastn keep combined) found.

(** ** The reader that remembers its last bytes *)

Record countingTailReader := MkTailReader { tr_count : nat; tr_tail : bytes; tr_pos : nat; tr_full : bool }.

Definition zero_byte : ascii := "000".

Definition newCountingTailReader (tailBytes : nat) : countingTailReader :=
  MkTailReader 0 (replicate tailBytes zero_byte) 0 false.

(** The body of the loop over the bytes of one [Read], and the whole [Read] *)
Definition read_byte (r : countingTailReader) (b : ascii) : countingTailReader :=
  let tail := <[tr_pos r := b]> (tr_tail r) in
  let pos := S (tr_pos r) in
  if (pos =? length tail)%nat then MkTailReader (tr_count r) tail 0 true
  else MkTailReader (tr_count r) tail pos (tr_full r).

Definition tail_Read (r : countingTailReader) (p : bytes) : countingTailReader :=
  let r := foldl read_byte r p in
  MkTailReader (tr_count r + length p) (tr_tail r) (tr_pos r) (tr_full r).

(** [start < 0] is [pos < n]. *)
Definition tail_last (r : countingTailReader) (n : nat) : option bytes :=
  if (n =? 0)%nat || (length (tr_tail r) <? n)%nat || (tr_count r <? n)%nat then None
  else
    let start := if (tr_pos r <? n)%nat then (tr_pos r + length (tr_tail r) - n)%nat else (tr_pos r - n)%nat in
    Some ((λ i, default zero_byte (tr_tail r !! ((start + i) mod length (tr_tail r))%nat)) <$> seq 0 n).

Definition tailAllZero (r : countingTailReader) : bool :=
  tr_full r && forallb (ascii_eqb zero_byte) (tr_tail r).

(** ** The gzip header *)

Inductive gzip_error := GzipEOF | GzipFixedHeader | GzipReservedFlags | GzipMetadataLimit.

(** What was read so far (the prefix), what is left to read, and the metadata
    counted *)
Record gzip_state := MkGzip { gz_prefix : bytes; gz_rest : bytes; gz_metadata : Z }.

(** [read(n)]: [io.ReadFull] of [n] bytes *)
Definition gz_read (n : nat) (st : gzip_state) : result gzip_error (bytes * gzip_state) :=
  if (length (gz_rest st) <? n)%nat then Err GzipEOF
  else Ok (take n (gz_rest st), MkGzip (gz_prefix st ++ take n (gz_rest st)) (drop n (gz_rest st)) (gz_metadata st)).

Definition gz_consume (limit : Z) (n : nat) (st : gzip_state) : result gzip_error gzip_state :=
  _ ← check (limit - Z.of_nat n <? gz_metadata st)%Z GzipMetadataLimit;
  '(_, st) ← gz_read n (MkGzip (gz_prefix st) (gz_rest st) (gz_metadata st + Z.of_nat n)%Z);
  Ok st.

(** The loop of [consumeCString], over the bytes that are left *)
Fixpoint gz_consume_string (limit : Z) (prefix rest : bytes) (metadata : Z) : result gzip_error gzip_state :=
  if (limit <=? metadata)%Z then Err GzipMetadataLimit
  else
    match rest with
    | [] => Err GzipEOF
    | b :: rest =>
        if ascii_eqb b zero_byte then Ok (MkGzip (prefix ++ [b]) rest (metadata + 1)%Z)
        else gz_consume_string limit (prefix ++ [b]) rest (metadata + 1)%Z
    end.

Definition gz_consumeCString (limit : Z) (st : gzip_state) : result gzip_error gzip_state :=
  gz_consume_string limit (gz_prefix st) (gz_rest st) (gz_metadata st).

(** [flags & (1 << bit) != 0] *)
Definition gz_flag (flags : Z) (bit : Z) : bool := Z.testbit flags bit.

Definition byte_at (s : bytes) (i : nat) : Z := match s !! i with Some b => byte b | None => 0%Z end.

(** [binary.LittleEndian.Uint16] *)
Definition le_Uint16 (s : bytes) : nat := Z.to_nat (byte_at s 0 + 256 * byte_at s 1)%Z.

Definition gz_extra (limit : Z) (flags : Z) (st : gzip_state) : result gzip_error gzip_state :=
  if gz_flag flags 2 then '(lengthBytes, st) ← gz_read 2 st; gz_consume limit (le_Uint16 lengthBytes) st else Ok st.

Definition gz_optional (flag : bool) (f : gzip_state → result gzip_error gzip_state) (st : gzip_state) : result gzip_error gzip_state :=
  if flag then f st else Ok st.

(** [boundedGzipStream]: the bytes of the reader it returns *)
Definition gzip_header (r : bytes) (limit : Z) : result gzip_error gzip_state :=
  '(fixed, st) ← gz_read 10 (MkGzip [] r 0);
  _ ← check (negb (byte_at fixed 0 =? 31)%Z || negb (byte_at fixed 1 =? 139)%Z || negb (byte_at fixed 2 =? 8)%Z) GzipFixedHeader;
  let flags := byte_at fixed 3 in
  _ ← check (negb (Z.land flags 224 =? 0)%Z) GzipReservedFlags;
  st ← gz_extra limit flags st;
  st ← gz_optional (gz_flag flags 3) (gz_consumeCString limit) st;
  st ← gz_optional (gz_flag flags 4) (gz_consumeCString limit) st;
  gz_optional (gz_flag flags 1) (gz_consume limit 2) st.

Definition boundedGzipStream (r : bytes) (limit : Z) : result gzip_error bytes :=
  st ← gzip_header r limit; Ok (gz_prefix st ++ gz_rest st).

(** ** The detector *)

Lemma bytes_Contains_iff s sub : bytes_Contains s sub = true ↔ ∃ a b, s = a ++ sub ++ b.
Proof.
  induction s as [|c s IH]; cbn [bytes_Contains]; rewrite orb_true_iff, bool_decide_eq_true.
  - split; [intros [[b Hb]|?]; [by exists [], b|done]|]. intros (a & b & Hab). left. symmetry in Hab.
    apply app_eq_nil in Hab as [-> [-> ->]%app_eq_nil]. by exists [].
  - rewrite IH. split.
    + intros [[b Hb]|(a & b & ->)]; [by exists [], b|by exists (c :: a), b].
    + intros ([|x a] & b & Hab); [left; by exists b|]. injection Hab as -> ->. right. by exists a, b.
Qed.

Lemma lastn_all n s : (length s ≤ n)%nat → lastn n s = s.
Proof. intros Hn. unfold lastn. by replace (length s - n)%nat with 0%nat by lia. Qed.

Lemma lastn_suffix n s : ∃ a, s = a ++ lastn n s.
Proof. exists (take (length s - n) s). unfold lastn. by rewrite take_drop. Qed.

(** The last bytes of a stream depend only on the last bytes of its start. *)
Lemma lastn_app n s p : lastn n (lastn n s ++ p) = lastn n (s ++ p).
Proof.
  destruct (decide (length s ≤ n)%nat) as [Hs|Hs]; [by rewrite (lastn_all n s)|].
  unfold lastn at 2. rewrite <-(drop_app_le s p) by lia. unfold lastn.
  rewrite drop_drop, length_drop, length_app. f_equal. lia.
Qed.

(** An occurrence that ends in the new bytes begins in the remembered ones. *)
Lemma contains_window n s p sub :
  (length sub ≤ S n)%nat → bytes_Contains s sub = false →
  bytes_Contains (lastn n s ++ p) sub = bytes_Contains (s ++ p) sub.
Proof.
  intros Hn Hno. apply eq_bool_prop_intro. rewrite !Is_true_true, !bytes_Contains_iff.
  destruct (lastn_suffix n s) as [a0 Ha0]. split.
  - intros (a & b & Hab). exists (a0 ++ a), b. rewrite <-app_assoc, <-Hab, app_assoc. by rewrite <-Ha0.
  - intros (a & b & Hab). destruct (decide (length a0 ≤ length a)%nat) as [Hle|Hlt].
    + exists (drop (length a0) a), b. rewrite <-(drop_app_le a) by done. rewrite <-Hab.
      transitivity (drop (length a0) (a0 ++ lastn n s ++ p)); [by rewrite drop_app_length|]. by rewrite app_assoc, <-Ha0.
    + exfalso. apply not_true_iff_false in Hno. apply Hno, bytes_Contains_iff.
      assert (length a0 = length s - n)%nat as Hlen. { apply (f_equal length) in Ha0. rewrite length_app in Ha0. unfold lastn in Ha0. rewrite length_drop in Ha0. lia. }
      exists a, (take (length s - length a - length sub) b). apply (f_equal (take (length s))) in Hab.
      rewrite take_app_length in Hab. etransitivity; [exact Hab|]. rewrite take_app_ge by lia. f_equal. by rewrite take_app_ge by lia.
Qed.

Lemma existsb_ext_in {A} (f g : A → bool) l : (∀ x, x ∈ l → f x = g x) → existsb f l = existsb g l.
Proof. induction l as [|a l IH]; cbn; [done|]. intros H. rewrite (H a), IH; [done| |left]. intros x Hx. apply H. by right. Qed.

Lemma placeholder_length p : p ∈ relocationPlaceholders → (length p ≤ maxRelocationPlaceholderBytes)%nat.
Proof.
  assert (Forall (λ p, length p ≤ maxRelocationPlaceholderBytes)%nat relocationPlaceholders) as H.
  { apply (bool_decide_unpack _). vm_compute. exact Logic.I. }
  rewrite Forall_forall in H. apply H.
Qed.

Definition window : nat := (maxRelocationPlaceholderBytes - 1)%nat.

Lemma placeholders_window s p :
  containsRelocationPlaceholder s = false →
  containsRelocationPlaceholder (lastn window s ++ p) = containsRelocationPlaceholder (s ++ p).
Proof.
  intros Hs. apply existsb_ext_in. intros sub Hsub. apply contains_window.
  - pose proof (placeholder_length sub Hsub). unfold window. lia.
  - apply not_true_iff_false. intros Hc. apply not_true_iff_false in Hs. apply Hs, existsb_exists.
    exists sub. split; [by apply list_elem_of_In|done].
Qed.

(** What the detector knows after the stream [s] *)
Definition detects (d : placeholderDetector) (s : bytes) : Prop :=
  pd_found d = containsRelocationPlaceholder s ∧ (pd_found d = false → pd_tail d = lastn window s).

Lemma containsRelocationPlaceholder_app s p : containsRelocationPlaceholder s = true → containsRelocationPlaceholder (s ++ p) = true.
Proof.
  unfold containsRelocationPlaceholder. rewrite !existsb_exists. intros (sub & Hin & Hc). exists sub. split; [done|].
  apply bytes_Contains_iff in Hc as (a & b & ->). apply bytes_Contains_iff. exists a, (b ++ p). by rewrite <-!app_assoc.
Qed.

Lemma detects_Write d s p : detects d s → detects (placeholderDetector_Write d p) (s ++ p).
Proof.
  intros [Hf Ht]. unfold placeholderDetector_Write. destruct (pd_found d) eqn:Ed.
  { split; [|by rewrite Ed]. rewrite Ed. symmetry. by apply containsRelocationPlaceholder_app. }
  rewrite (Ht eq_refl). split; cbn [pd_found pd_tail].
  - by apply placeholders_window.
  - intros _. rewrite <-(lastn_app window s p). change (maxRelocationPlaceholderBytes - 1)%nat with window.
    destruct (Nat.ltb_spec (length (lastn window s ++ p)) window); [|done].
    by rewrite (lastn_all (length (lastn window s ++ p))), (lastn_all window (lastn window s ++ p)) by lia.
Qed.

Lemma detects_fold chunks d s : detects d s → detects (foldl placeholderDetector_Write d chunks) (s ++ concat chunks).
Proof.
  revert d s. induction chunks as [|p chunks IH]; intros d s Hd; cbn; [by rewrite app_nil_r|].
  rewrite app_assoc. by apply IH, detects_Write.
Qed.

Lemma detector_found chunks :
  pd_found (foldl placeholderDetector_Write new_detector chunks) = containsRelocationPlaceholder (concat chunks).
Proof. apply (detects_fold chunks new_detector []). split; [vm_compute; reflexivity|]. by intros _. Qed.

(** however the contents of a file are cut into pieces, the detector has found
    a relocation placeholder after the last piece exactly when the contents as a
    whole contain one: keeping one byte less than the longest placeholder loses
    none that straddles a cut, and invents none. *)
Theorem placeholderDetector_exact chunks :
  pd_found (foldl placeholderDetector_Write new_detector chunks) = containsRelocationPlaceholder (concat chunks).
Proof. apply detector_found. Qed.

(** ** The tail reader *)

Lemma mod_distinct i j n : (0 < n)%nat → (i < j)%nat → (j < i + n)%nat → (i mod n ≠ j mod n)%nat.
Proof.
  intros Hn Hi Hj Heq. pose proof (Nat.div_mod i n ltac:(lia)) as Ei. pose proof (Nat.div_mod j n ltac:(lia)) as Ej.
  rewrite Heq in Ei. assert (i / n < j / n)%nat by nia. nia.
Qed.

Lemma mod_succ m n : (0 < n)%nat → (S m mod n = if S (m mod n) =? n then 0 else S (m mod n))%nat.
Proof.
  intros Hn. pose proof (Nat.mod_upper_bound m n ltac:(lia)) as Hb. destruct (Nat.eqb_spec (S (m mod n)) n) as [He|He].
  - pose proof (Nat.div_mod m n ltac:(lia)). replace (S m) with (S (m / n) * n)%nat by nia. by rewrite Nat.Div0.mod_mul.
  - rewrite <-Nat.add_1_r, <-Nat.Div0.add_mod_idemp_l. rewrite Nat.add_1_r, Nat.mod_small; lia.
Qed.

(** What the ring buffer of [n] bytes holds after the stream [s] *)
Record remembers (n : nat) (r : countingTailReader) (s : bytes) : Prop := {
  rm_length : length (tr_tail r) = n;
  rm_pos : tr_pos r = (length s mod n)%nat;
  rm_full : tr_full r = bool_decide (n ≤ length s)%nat;
  rm_tail : ∀ i, (i < length s ≤ i + n)%nat → tr_tail r !! (i mod n)%nat = s !! i;
}.

Lemma remembers_byte n r s b : (0 < n)%nat → remembers n r s → remembers n (read_byte r b) (s ++ [b]).
Proof.
  intros Hn [Hl Hp Hf Ht]. pose proof (mod_succ (length s) n Hn) as Hs. pose proof (Nat.mod_upper_bound (length s) n ltac:(lia)) as Hb.
  unfold read_byte. cbv zeta. rewrite length_insert, Hl, Hp.
  assert (∀ i, (i < S (length s) ≤ i + n)%nat → <[(length s mod n)%nat := b]> (tr_tail r) !! (i mod n)%nat = (s ++ [b]) !! i) as Hi.
  { intros i [Hi Hin]. destruct (decide (i = length s)) as [->|Hne].
    - rewrite list_lookup_insert_eq by lia. by rewrite list_lookup_middle.
    - rewrite list_lookup_insert_ne by (symmetry; apply mod_distinct; lia). rewrite lookup_app_l by lia. apply Ht. lia. }
  assert (S (length s) = length (s ++ [b])) as Hlen by (rewrite length_app; cbn; lia).
  destruct (Nat.eqb_spec (S (length s mod n)) n) as [He|He]; split; cbn [tr_tail tr_pos tr_full]; rewrite ?length_insert, <-?Hlen; try done.
  - symmetry. apply bool_decide_eq_true_2. pose proof (Nat.div_mod (length s) n ltac:(lia)). nia.
  - rewrite Hf. apply bool_decide_ext. split; [lia|]. intros Hle. destruct (decide (n = S (length s))) as [->|]; [|lia].
    rewrite Nat.mod_small in He; lia.
Qed.

Lemma remembers_Read n r s p : (0 < n)%nat → remembers n r s → tr_count r = length s →
  remembers n (tail_Read r p) (s ++ p) ∧ tr_count (tail_Read r p) = length (s ++ p).
Proof.
  intros Hn Hr Hc. unfold tail_Read.
  assert (remembers n (foldl read_byte r p) (s ++ p) ∧ tr_count (foldl read_byte r p) = tr_count r) as [Hf Hcount].
  { clear Hc. revert r s Hr. induction p as [|b p IH]; intros r s Hr; cbn [foldl]; [by rewrite app_nil_r|].
    destruct (IH (read_byte r b) (s ++ [b])) as [H1 H2]; [by apply remembers_byte|]. rewrite <-app_assoc in H1. split; [done|].
    rewrite H2. unfold read_byte. by case_match. }
  cbn [tr_count]. rewrite Hcount, Hc, length_app. split; [|done]. destruct Hf. by split.
Qed.

Lemma remembers_reads n chunks : (0 < n)%nat →
  let r := foldl tail_Read (newCountingTailReader n) chunks in remembers n r (concat chunks) ∧ tr_count r = length (concat chunks).
Proof.
  intros Hn. cbv zeta.
  assert (∀ r s, remembers n r s → tr_count r = length s →
    remembers n (foldl tail_Read r chunks) (s ++ concat chunks) ∧ tr_count (foldl tail_Read r chunks) = length (s ++ concat chunks)) as H.
  { induction chunks as [|p chunks IH]; intros r s Hr Hc; cbn [foldl concat]; [by rewrite app_nil_r|].
    destruct (remembers_Read n r s p Hn Hr Hc) as [H1 H2]. rewrite app_assoc. by apply IH. }
  apply (H (newCountingTailReader n) []); [|done]. split; cbn; [by rewrite length_replicate|by rewrite Nat.Div0.mod_0_l| |lia].
  symmetry. apply bool_decide_eq_false_2. lia.
Qed.

Lemma tail_last_spec n r s k : (0 < n)%nat → remembers n r s → tr_count r = length s → (0 < k ≤ n)%nat → (k ≤ length s)%nat →
  tail_last r k = Some (lastn k s).
Proof.
  intros Hn [Hl Hp _ Ht] Hc [Hk Hkn] Hks. unfold tail_last. rewrite Hl, Hp, Hc.
  rewrite (proj2 (Nat.eqb_neq k 0)), (proj2 (Nat.ltb_ge n k)), (proj2 (Nat.ltb_ge (length s) k)) by lia. cbn [orb]. f_equal.
  pose proof (Nat.mod_upper_bound (length s) n ltac:(lia)) as Hb. pose proof (Nat.div_mod (length s) n ltac:(lia)) as Hdm.
  apply list_eq. intros i. unfold lastn. rewrite list_lookup_fmap, lookup_drop.
  destruct (decide (i < k)%nat) as [Hi|Hi].
  2: { rewrite lookup_seq_ge by lia. cbn. symmetry. apply lookup_ge_None. lia. }
  rewrite lookup_seq_lt by lia. cbn [fmap option_fmap option_map]. rewrite Nat.add_0_l.
  set (start := if (_ <? k)%nat then _ else _). assert (((start + i) mod n = (length s - k + i) mod n)%nat) as ->.
  { subst start. destruct (Nat.ltb_spec (length s mod n) k) as [Hlt|Hge].
    - replace (length s - k + i)%nat with ((length s mod n + n - k + i) + (length s / n - 1) * n)%nat.
      + by rewrite Nat.Div0.mod_add.
      + assert (1 ≤ length s / n)%nat by nia. nia.
    - replace (length s - k + i)%nat with ((length s mod n - k + i) + (length s / n) * n)%nat by nia. by rewrite Nat.Div0.mod_add. }
  rewrite Ht by lia. destruct (lookup_lt_is_Some_2 s (length s - k + i)%nat) as [x ->]; [lia|]. done.
Qed.

(** The place in the stream of the byte in slot [j] *)
Lemma slot_place n m j : (j < n)%nat → (n ≤ m)%nat → ∃ i, (i < m ≤ i + n)%nat ∧ (i mod n = j)%nat.
Proof.
  intros Hj Hm. pose proof (Nat.div_mod m n ltac:(lia)) as Hdm. pose proof (Nat.mod_upper_bound m n ltac:(lia)) as Hb.
  assert (1 ≤ m / n)%nat by nia. destruct (decide (j < m mod n)%nat).
  - exists (j + m / n * n)%nat. rewrite Nat.Div0.mod_add, Nat.mod_small by lia. split; [nia|done].
  - exists (j + (m / n - 1) * n)%nat. rewrite Nat.Div0.mod_add, Nat.mod_small by lia. split; [nia|done].
Qed.

Lemma tailAllZero_spec n r s : (0 < n)%nat → remembers n r s →
  tailAllZero r = true ↔ (n ≤ length s)%nat ∧ ∀ b, b ∈ lastn n s → b = zero_byte.
Proof.
  intros Hn [Hl Hp Hf Ht]. unfold tailAllZero. rewrite andb_true_iff, Hf, bool_decide_eq_true, forallb_forall.
  assert (∀ b, ascii_eqb zero_byte b = true ↔ b = zero_byte) as Hz by (intros b; unfold ascii_eqb; rewrite bool_decide_eq_true; naive_solver).
  setoid_rewrite Hz. setoid_rewrite <-list_elem_of_In. split; intros [Hle H]; split; try done; intros b [j Hj]%list_elem_of_lookup.
  - unfold lastn in Hj. rewrite lookup_drop in Hj. pose proof (lookup_lt_Some _ _ _ Hj).
    rewrite <-Ht in Hj by lia. by eapply H, list_elem_of_lookup_2.
  - pose proof (lookup_lt_Some _ _ _ Hj). destruct (slot_place n (length s) j) as (i & Hi & <-); [lia..|].
    rewrite Ht in Hj by done. apply H, (list_elem_of_lookup_2 _ (i - (length s - n))%nat). unfold lastn. rewrite lookup_drop.
    by replace (length s - n + (i - (length s - n)))%nat with i by lia.
Qed.

(** the tail reader with a buffer of [n] bytes is a window on the stream,
    however the reads cut it: it counts every byte, [last k] answers exactly when
    [k] bytes fit the buffer and have been read, and then with the last [k] bytes
    in their order, and [tailAllZero] holds exactly when [n] bytes have been read
    and the last [n] are zero. *)
Theorem countingTailReader_exact n chunks k :
  (0 < n)%nat →
  let r := foldl tail_Read (newCountingTailReader n) chunks in
  let s := concat chunks in
  tr_count r = length s ∧
  tail_last r k = (if bool_decide (0 < k ≤ n ∧ k ≤ length s)%nat then Some (lastn k s) else None) ∧
  (tailAllZero r = true ↔ (n ≤ length s)%nat ∧ ∀ b, b ∈ lastn n s → b = zero_byte).
Proof.
  intros Hn r s. destruct (remembers_reads n chunks Hn) as [Hr Hc]. fold r in Hr, Hc. fold s in Hr, Hc.
  split; [done|]. split; [|by apply tailAllZero_spec]. case_bool_decide as Hk; [apply (tail_last_spec n); [done..|lia|lia]|].
  unfold tail_last. rewrite (rm_length _ _ _ Hr), Hc.
  destruct (Nat.eqb_spec k 0); [done|]. destruct (Nat.ltb_spec n k); [done|]. destruct (Nat.ltb_spec (length s) k); [done|]. lia.
Qed.

Lemma countingTailReader_exact_witness :
  tail_last (foldl tail_Read (newCountingTailReader 4) [text_bytes "ab"; []; text_bytes "cdef"]) 3 = Some (text_bytes "def").
Proof.
  destruct (countingTailReader_exact 4 [text_bytes "ab"; []; text_bytes "cdef"] 3 ltac:(lia)) as (_ & -> & _).
  reflexivity.
Defined.

(** ** The gzip header *)

(** What every step of the header keeps: nothing is lost, and the bytes read are
    the fixed part, at most two for the length of the extra field, and the
    metadata. *)
Record gz_inv (input : bytes) (limit : Z) (fixed : Z) (st : gzip_state) : Prop := {
  gi_all : gz_prefix st ++ gz_rest st = input;
  gi_size : Z.of_nat (length (gz_prefix st)) = (fixed + gz_metadata st)%Z;
  gi_limit : (0 <= gz_metadata st <= Z.max 0 limit)%Z;
}.

Lemma gz_read_inv input limit fixed n st b st' :
  gz_inv input limit fixed st → gz_read n st = Ok (b, st') →
  gz_inv input limit (fixed + Z.of_nat n) st' ∧ gz_metadata st' = gz_metadata st ∧ length b = n.
Proof.
  intros [Ha Hs Hl]. unfold gz_read. destruct (Nat.ltb_spec (length (gz_rest st)) n); [done|]. intros [= <- <-].
  rewrite length_take. split_and!; [|done|lia]. split; cbn; [|rewrite length_app, length_take; lia|done].
  by rewrite <-app_assoc, take_drop.
Qed.

Lemma gz_consume_inv input limit fixed n st st' :
  gz_inv input limit fixed st → gz_consume limit n st = Ok st' → gz_inv input limit fixed st'.
Proof.
  intros Hi. unfold gz_consume. destruct (_ <? _)%Z eqn:Hlim; [done|]. cbn [check mbind result_bind].
  intros H. destruct (gz_read _ _) as [[b st1]|] eqn:Hr; [|done]. injection H as <-.
  unfold gz_read in Hr. cbn [gz_prefix gz_rest gz_metadata] in Hr. destruct (Nat.ltb_spec (length (gz_rest st)) n); [done|].
  injection Hr as <- <-. destruct Hi as [Ha Hs Hl]. case_bool. split; cbn.
  - by rewrite <-app_assoc, take_drop.
  - rewrite length_app, length_take. lia.
  - lia.
Qed.

Lemma gz_string_inv input limit fixed prefix rest metadata st' :
  gz_inv input limit fixed (MkGzip prefix rest metadata) → gz_consume_string limit prefix rest metadata = Ok st' → gz_inv input limit fixed st'.
Proof.
  revert prefix metadata. induction rest as [|b rest IH]; intros prefix metadata Hi; cbn [gz_consume_string].
  { by destruct (_ <=? _)%Z. }
  destruct (Z.leb_spec limit metadata); [done|].
  assert (gz_inv input limit fixed (MkGzip (prefix ++ [b]) rest (metadata + 1))) as Hi'.
  { destruct Hi as [Ha Hs Hl]. cbn in *. split; cbn; [by rewrite <-app_assoc|rewrite length_app; cbn; lia|lia]. }
  destruct (ascii_eqb b zero_byte); [by intros [= <-]|by apply IH].
Qed.

Lemma gz_optional_inv input limit fixed flag f st st' :
  (∀ st st', gz_inv input limit fixed st → f st = Ok st' → gz_inv input limit fixed st') →
  gz_inv input limit fixed st → gz_optional flag f st = Ok st' → gz_inv input limit fixed st'.
Proof. intros Hf Hi. unfold gz_optional. destruct flag; [by apply Hf|]. by intros [= <-]. Qed.

Lemma gzip_header_inv input limit st :
  gzip_header input limit = Ok st → ∃ fixed, (10 <= fixed <= 12)%Z ∧ gz_inv input limit fixed st.
Proof.
  unfold gzip_header. intros H. destruct (gz_read 10 (MkGzip [] input 0)) as [[fixed st1]|] eqn:Hr; [|done].
  assert (gz_inv input limit 0 (MkGzip [] input 0)) as H0 by (split; cbn; [done|done|lia]).
  destruct (gz_read_inv _ _ _ _ _ _ _ H0 Hr) as (H1 & _ & _). cbn [mbind result_bind] in H.
  apply bind_ok in H as ([] & _ & H). apply bind_ok in H as ([] & _ & H). apply bind_ok in H as (st2 & Hx & H).
  assert (∃ f, (10 <= f <= 12)%Z ∧ gz_inv input limit f st2) as (f & Hf & H2).
  { unfold gz_extra in Hx. destruct (gz_flag _ 2); [|injection Hx as <-; exists 10%Z; by split; [lia|]].
    apply bind_ok in Hx as ([b st3] & Hb & Hx). destruct (gz_read_inv _ _ _ _ _ _ _ H1 Hb) as (H3 & _).
    exists 12%Z. split; [lia|]. by eapply gz_consume_inv. }
  apply bind_ok in H as (st3 & Hn & H). apply bind_ok in H as (st4 & Hc & H). exists f. split; [done|].
  assert (∀ st st', gz_inv input limit f st → gz_consumeCString limit st = Ok st' → gz_inv input limit f st') as Hstr.
  { intros [p r m] st' Hi He. by eapply gz_string_inv. }
  eapply gz_optional_inv; [by eapply gz_consume_inv| |exact H]. eapply gz_optional_inv; [exact Hstr| |exact Hc].
  eapply gz_optional_inv; [exact Hstr|exact H2|exact Hn].
Qed.

(** when [boundedGzipStream] lets a stream through, the reader it returns
    replays the input byte for byte, and of the header it kept in memory at most
    twelve bytes more than the metadata limit, whatever lengths the input claims. *)
Theorem boundedGzipStream_replays input limit out :
  boundedGzipStream input limit = Ok out →
  out = input ∧ ∃ st, gzip_header input limit = Ok st ∧ gz_prefix st `prefix_of` input ∧
    (Z.of_nat (length (gz_prefix st)) <= 12 + Z.max 0 limit)%Z ∧ (gz_metadata st <= Z.max 0 limit)%Z.
Proof.
  unfold boundedGzipStream. intros (st & Hst & [= <-])%bind_ok. destruct (gzip_header_inv _ _ _ Hst) as (fixed & Hf & [Ha Hs Hl]).
  split; [done|]. exists st. split; [done|]. split_and!; [by exists (gz_rest st)|lia|lia].
Qed.

(** A header with an extra field, a name, and a checksum *)
Definition example_gzip : bytes :=
  char_of <$> [31; 139; 8; 14; 0; 0; 0; 0; 0; 3; 2; 0; 7; 7; 106; 113; 0; 1; 2; 99; 99]%Z.

Lemma boundedGzipStream_replays_witness : boundedGzipStream example_gzip 16 = Ok example_gzip.
Proof.
  destruct (boundedGzipStream example_gzip 16) as [out|e] eqn:H; [|vm_compute in H; discriminate].
  by rewrite (proj1 (boundedGzipStream_replays _ _ _ H)).
Defined.
