(* ===== verification/BottleHeader.v ===== *)
(** * internal/bottle: the entries of an archive

    [types.go] and the second part of [verify.go]: the expectation, the limits,
    and what is checked of one tar entry by itself: its format, name, mode,
    metadata and link. An error is its code and its path; the texts are left out.
    The header is what archive/tar parsed, next to the physical block it read. *)

From S2P Require Import Prelude GoStrings Regex Version BottleStreams.
From stdpp Require Import options.
Local Open Scope Z_scope.

(** ** Data *)

Record Limits := MkLimits {
  lm_MaxCompressedBytes : Z; lm_MaxExpandedBytes : Z; lm_MaxFiles : Z; lm_MaxDepth : Z; lm_MaxFileBytes : Z;
  lm_MaxMetadataBytes : Z; lm_MaxTarPaddingBytes : Z; lm_MaxPathBytes : Z; lm_MaxLinkBytes : Z; lm_MaxPAXRecords : Z;
  lm_MaxXattrs : Z; lm_MaxXattrBytes : Z; lm_MaxFormulaBytes : Z; lm_MaxReceiptBytes : Z;
}.

Definition DefaultLimits : Limits :=
  MkLimits (Z.shiftl 1 30) (Z.shiftl 8 30) 250000 64 (Z.shiftl 4 30) (Z.shiftl 1 20) (Z.shiftl 1 20) (Z.shiftl 4 10)
    (Z.shiftl 4 10) 128 64 (Z.shiftl 1 20) (Z.shiftl 4 20) (Z.shiftl 4 20).

Definition ExternalSymlinkRuleCertifiSharedCA : string := "certifi-shared-ca-link-v1".
Definition CertifiSharedCATarget : string := "etc/ca-certificates/cert.pem".

Record ReceiptDependency := MkReceiptDependency {
  rd_FullName : string; rd_Version : string; rd_Revision : Z; rd_BottleRebuild : Z; rd_PkgVersion : string;
  rd_DeclaredDirectly : bool; rd_pkgVersionOmitted : bool;
}.

Record Expectation := MkExpectation {
  ex_Name : string; ex_FullName : string; ex_FormulaVersion : string; ex_FormulaRevision : Z; ex_PkgVersion : string;
  ex_VersionScheme : Z; ex_BottleRebuild : Z; ex_BottleTag : string; ex_CompressedSHA256 : string; ex_CompressedSize : Z;
  ex_HomebrewSHA256 : string; ex_HomebrewVersion : string; ex_Arch : string; ex_Compiler : string; ex_ExpectedTap : string;
  ex_Dependencies : list ReceiptDependency; ex_FormulaIdentity : string; ex_AllowedExternalSymlinkFormulae : list string;
  ex_AllowedExternalSymlinkRules : list string;
}.

Inductive EntryType := EntryRegular | EntryDirectory | EntrySymlink | EntryHardlink.

#[export] Instance EntryType_eq_dec : EqDecision EntryType.
Proof. solve_decision. Defined.

Record Xattr := MkXattr { xa_Name : string; xa_Value : string }.

Record InventoryEntry := MkInventoryEntry {
  ie_Path : string; ie_KegPath : string; ie_Type : EntryType; ie_Mode : Z; ie_Size : Z; ie_SHA256 : string;
  ie_SymlinkTarget : string; ie_HardlinkTarget : string; ie_ResolvedTarget : string; ie_PrefixTarget : string; ie_UID : Z;
  ie_GID : Z; ie_Xattrs : list Xattr; ie_Relocatable : bool;
}.

Inductive ErrorCode :=
| CodeInvalidExpectation | CodeCompressedLimit | CodeSizeMismatch | CodeDigestMismatch | CodeHomebrewMismatch | CodeInvalidGzip
| CodeInvalidTar | CodeArchiveLimit | CodeUnsafePath | CodePathCollision | CodeUnsafeType | CodeUnsafeMode | CodeUnsafeLink
| CodeUnsafeMetadata | CodeMissingFormula | CodeInvalidFormula | CodeMissingReceipt | CodeInvalidReceipt.

Record VerificationError := MkVerificationError { ve_Code : ErrorCode; ve_Path : string }.

Definition expectedKegPrefix (e : Expectation) : string := ex_Name e +:+ "/" +:+ ex_PkgVersion e.
Definition expectedFormulaPath (e : Expectation) : string := expectedKegPrefix e +:+ "/.brew/" +:+ ex_Name e +:+ ".rb".
Definition expectedReceiptPath (e : Expectation) : string := expectedKegPrefix e +:+ "/INSTALL_RECEIPT.json".

Definition withinKeg (name : string) (expected : Expectation) : bool :=
  let keg := expectedKegPrefix expected in bool_decide (name = keg) || strings_HasPrefix name (keg +:+ "/").

(** ** unicode and path *)

(** [unicode.IsControl]: category Cc *)
Definition unicode_IsControl (r : Z) : bool := ((0 <=? r) && (r <? 32)) || ((127 <=? r) && (r <? 160)).

Definition containsControl (value : string) : bool := existsb (λ '(r, _), unicode_IsControl r) (utf8_decode value).

(** [path.Dir] and [path.Join] *)
Definition path_Dir (p : string) : string :=
  match cut_last p "/" with Some (dir, _) => path_Clean (dir +:+ "/") | None => "." end.

Definition path_Join (elems : list string) : string :=
  match filter (λ s, s ≠ "") elems with
  | [] => ""
  | elems => path_Clean (strings_Join "/" elems)
  end.

(** ** The tar header *)

Inductive tar_format := FormatUSTAR | FormatPAX | FormatGNU | FormatUnknown | FormatOther.

Record Header := MkHeader {
  th_Name : string; th_Linkname : string; th_Typeflag : ascii; th_Size : Z; th_Mode : Z; th_Uid : Z; th_Gid : Z;
  th_Uname : string; th_Gname : string; th_PAXRecords : gmap string string; th_Xattrs : gmap string string;
  th_Format : tar_format;
}.

Definition tarBlockSize : nat := 512.

Definition slice_of (s : bytes) (lo hi : nat) : bytes := take (hi - lo) (drop lo s).

(** The six octal digits of the recorded checksum *)
Definition octal_step (acc : option Z) (b : ascii) : option Z :=
  recorded ← acc; if byte_in 48 55 b then Some (recorded * 8 + (byte b - 48)) else None.

Definition checksum_term (i : nat) (b : ascii) : Z := if (148 <=? i)%nat && (i <? 156)%nat then 32 else byte b.

Definition canonicalUnsignedTarChecksum (rawHeader : bytes) : bool :=
  (length rawHeader =? tarBlockSize)%nat
  && let field := slice_of rawHeader 148 156 in
     bool_decide (field !! 6%nat = Some zero_byte) && bool_decide (field !! 7%nat = Some " "%char)
     && match foldl octal_step (Some 0) (take 6 field) with
        | None => false
        | Some recorded => recorded =? foldl Z.add 0 (imap checksum_term rawHeader)
        end.

Definition terminated_fields : list nat := [108; 116; 124; 136; 148; 337; 345]%nat.

(** The physical name and whether the bytes after it are zero *)
Fixpoint until_nul (s : bytes) : bytes * bytes :=
  match s with
  | [] => ([], [])
  | b :: s' => if ascii_eqb b zero_byte then ([], s) else let '(name, rest) := until_nul s' in (b :: name, rest)
  end.

Definition isNonASCII (b : ascii) : bool := 128 <=? byte b.

Definition validPAXUTF8PhysicalName (hdr : Header) (rawHeader : bytes) : bool :=
  (length rawHeader =? tarBlockSize)%nat
  && match th_PAXRecords hdr !! "path" with
     | None => false
     | Some paxPath =>
         negb (bool_decide (paxPath = "") || negb (bool_decide (paxPath = th_Name hdr)) || negb (utf8_ValidString paxPath))
         && bool_decide (slice_of rawHeader 257 263 = text_bytes "ustar" ++ [zero_byte])
         && bool_decide (slice_of rawHeader 263 265 = text_bytes "00")
         && canonicalUnsignedTarChecksum rawHeader && bool_decide (rawHeader !! 156%nat = Some (th_Typeflag hdr))
         && forallb (ascii_eqb zero_byte) (slice_of rawHeader 345 500)
         && forallb (λ hi, bool_decide (rawHeader !! (hi - 1)%nat = Some zero_byte)) terminated_fields
         && let '(rawName, padding) := until_nul (take 100 rawHeader) in
            forallb (ascii_eqb zero_byte) padding && bool_decide (rawName = text_bytes paxPath)
            && negb (existsb isNonASCII (drop (length rawName) rawHeader)) && existsb isNonASCII rawHeader
     end.

Definition supportedTarFormat (hdr : Header) (rawHeader : bytes) : bool :=
  match th_Format hdr with
  | FormatUSTAR | FormatPAX | FormatGNU => true
  | FormatUnknown => validPAXUTF8PhysicalName hdr rawHeader
  | FormatOther => false
  end.

(** [tar.TypeReg], [tar.TypeRegA], [tar.TypeDir], [tar.TypeSymlink], [tar.TypeLink]; everything else is refused. *)
Definition classifyType (typeflag : ascii) : option EntryType :=
  if bool_decide (typeflag = "0"%char) || bool_decide (typeflag = zero_byte) then Some EntryRegular
  else if bool_decide (typeflag = "5"%char) then Some EntryDirectory
  else if bool_decide (typeflag = "2"%char) then Some EntrySymlink
  else if bool_decide (typeflag = "1"%char) then Some EntryHardlink
  else None.

(** ** Names *)

Definition proper_component (part : string) : bool :=
  negb (bool_decide (part = "") || bool_decide (part = ".") || bool_decide (part = "..")).

Definition canonicalArchivePath (raw : string) (directory : bool) (maxBytes : Z) : option string :=
  if bool_decide (raw = "") || (maxBytes <? strlen raw) || negb (utf8_ValidString raw) || containsControl raw || strings_Contains raw "\"
     || strings_HasPrefix raw "/" || path_IsAbs raw then None
  else
    let name := if directory && strings_HasSuffix raw "/" then strings_TrimSuffix raw "/" else raw in
    if bool_decide (name = "") || strings_HasSuffix name "/" then None
    else if negb (forallb proper_component (strings_Split name "/")) then None
    else
      let clean := path_Clean name in
      if negb (bool_decide (clean = name)) || bool_decide (clean = ".") || strings_HasPrefix clean "../" then None
      else Some name.

Definition is_directory (t : EntryType) : bool := bool_decide (t = EntryDirectory).

Definition validateKegPath (name : string) (entryType : EntryType) (expected : Expectation) : bool :=
  let keg := expectedKegPrefix expected in
  if bool_decide (name = ex_Name expected) || bool_decide (name = keg) then is_directory entryType
  else strings_HasPrefix name (keg +:+ "/").

(** ** Links *)

Definition externalSymlinkKegPath (name : string) (expected : Expectation) : option string :=
  let kegPath := strings_TrimPrefix name (expectedKegPrefix expected +:+ "/") in
  if bool_decide (kegPath = name) then None else Some kegPath.

Definition python_minor (minor : string) : bool :=
  (1 <=? strlen minor) && (strlen minor <=? 2)
  && negb ((1 <? strlen minor) && strings_HasPrefix minor "0") && all_bytes isDigit minor.

Definition IsCertifiSharedCACertKegPath (kegPath : string) : bool :=
  match strings_Split kegPath "/" with
  | [lib; python; site; certifi; cert] =>
      bool_decide (lib = "lib") && bool_decide (site = "site-packages") && bool_decide (certifi = "certifi")
      && bool_decide (cert = "cacert.pem") && strings_HasPrefix python "python3."
      && python_minor (strings_TrimPrefix python "python3.")
  | _ => false
  end.

Definition below_opt (target formula : string) : bool :=
  let root := path_Join ["opt"; formula] in bool_decide (target = root) || strings_HasPrefix target (root +:+ "/").

Definition allowedExternalSymlink (name target : string) (expected : Expectation) : bool :=
  match externalSymlinkKegPath name expected with
  | None => false
  | Some kegPath =>
      (strings_HasPrefix kegPath "libexec/" && existsb (below_opt target) (ex_AllowedExternalSymlinkFormulae expected))
      || (bool_decide (ExternalSymlinkRuleCertifiSharedCA ∈ ex_AllowedExternalSymlinkRules expected)
          && IsCertifiSharedCACertKegPath kegPath && bool_decide (target = CertifiSharedCATarget))
  end.

Definition canonicalExternalSymlinkTarget (name target : string) (expected : Expectation) : string * bool :=
  let base := strings_Split (path_Join ["Cellar"; path_Dir name]) "/" in
  let components := strings_Split target "/" in
  if (length components <? length base + 2)%nat then ("", false)
  else if negb (forallb (λ c, bool_decide (c = "..")) (take (length base) components)) then ("", false)
  else
    let components := drop (length base) components in
    if negb (forallb proper_component components) then ("", false)
    else
      let candidate := strings_Join "/" components in
      (candidate, allowedExternalSymlink name candidate expected).

Definition bad_link_text (target : string) (maxBytes : Z) : bool :=
  (maxBytes <? strlen target) || negb (utf8_ValidString target) || containsControl target.

Definition absolute_link (target : string) : bool := strings_Contains target "\" || strings_HasPrefix target "/" || path_IsAbs target.

(** The resolved target in the keg and the target below the prefix: one of the two *)
Definition validateSymlink (name target : string) (expected : Expectation) (limits : Limits) : option (string * string) :=
  if bool_decide (target = "") || bad_link_text target (lm_MaxLinkBytes limits) || absolute_link target then None
  else
    let prefixTarget := path_Clean (path_Join ["Cellar"; path_Dir name; target]) in
    let installedKeg := path_Join ["Cellar"; expectedKegPrefix expected] in
    if bool_decide (prefixTarget = installedKeg) || strings_HasPrefix prefixTarget (installedKeg +:+ "/") then
      Some (strings_TrimPrefix prefixTarget "Cellar/", "")
    else
      let '(canonicalExternalTarget, ok) := canonicalExternalSymlinkTarget name target expected in
      if ok && bool_decide (canonicalExternalTarget = prefixTarget) then Some ("", prefixTarget) else None.

Definition validateHardlink (target : string) (expected : Expectation) (limits : Limits) : option string :=
  if bool_decide (target = "") || bad_link_text target (lm_MaxLinkBytes limits) || absolute_link target then None
  else
    canonical ← canonicalArchivePath target false (lm_MaxLinkBytes limits);
    if withinKeg canonical expected then Some canonical else None.

(** ** Metadata *)

Definition allowedPAXKeys : list string :=
  ["path"; "linkpath"; "size"; "uid"; "gid"; "uname"; "gname"; "mtime"; "atime"; "ctime"].

Definition forbidden_pax_key (key : string) : bool :=
  strings_HasPrefix key "GNU.sparse." || bool_decide (key = "SCHILY.realsize") || strings_HasPrefix key "SCHILY.acl.".

(** One record: the metadata counted so far, or [None] for an error *)
Definition pax_record (limits : Limits) (metadata : Z) (record : string * string) : option Z :=
  let '(key, value) := record in
  if forbidden_pax_key key then None
  else if bool_decide (key ∉ allowedPAXKeys) && negb (strings_HasPrefix key "SCHILY.xattr.") then None
  else if (strlen key =? 0) || (strlen value =? 0) || negb (utf8_ValidString key) || negb (utf8_ValidString value) then None
  else if lm_MaxMetadataBytes limits - metadata <? strlen key then None
  else if lm_MaxMetadataBytes limits - (metadata + strlen key) <? strlen value then None
  else Some (metadata + strlen key + strlen value).

Fixpoint pax_records (limits : Limits) (metadata : Z) (records : list (string * string)) : option Z :=
  match records with
  | [] => Some metadata
  | r :: records => metadata ← pax_record limits metadata r; pax_records limits metadata records
  end.

(** A map as the list of its entries in the order of the keys *)
Definition sorted_entries (m : gmap string string) : list (string * string) := sort_by fst (map_to_list m).

Definition validatePAX (hdr : Header) (limits : Limits) : bool :=
  negb (lm_MaxPAXRecords limits <? Z.of_nat (size (th_PAXRecords hdr)))
  && let metadata := strlen (th_Name hdr) + strlen (th_Linkname hdr) + strlen (th_Uname hdr) + strlen (th_Gname hdr) in
     match pax_records limits metadata (sorted_entries (th_PAXRecords hdr)) with
     | None => false
     | Some metadata => negb (lm_MaxMetadataBytes limits <? metadata)
     end.

Definition xattr_prefix : string := "SCHILY.xattr.".

(** The attributes among the PAX records, by name *)
Definition pax_xattrs (records : gmap string string) : gmap string string :=
  list_to_map (omap (λ '(key, value),
    if strings_HasPrefix key xattr_prefix then Some (strings_TrimPrefix key xattr_prefix, value) else None) (map_to_list records)).

Section metadata.
Context `{U : !UnicodeTables}.

Definition forbidden_xattr (name : string) : bool :=
  let lower := strings_ToLower name in
  negb (strings_HasPrefix lower "user.") || strings_HasPrefix lower "security." || strings_HasPrefix lower "trusted."
  || strings_ContainsString lower "capability".

Definition bad_xattr (name value : string) : bool :=
  bool_decide (name = "") || negb (utf8_ValidString name) || negb (utf8_ValidString value) || containsControl name.

Fixpoint take_xattrs (limits : Limits) (total : Z) (attrs : list (string * string)) : option (list Xattr) :=
  match attrs with
  | [] => Some []
  | (name, value) :: attrs =>
      if forbidden_xattr name || bad_xattr name value || (lm_MaxXattrBytes limits - total <? strlen name + strlen value) then None
      else out ← take_xattrs limits (total + (strlen name + strlen value)) attrs; Some (MkXattr name value :: out)
  end.

Definition conflicting_xattrs (a b : gmap string string) : bool :=
  existsb (λ '(name, value), match b !! name with Some previous => negb (bool_decide (previous = value)) | None => false end)
    (map_to_list a).

Definition allowedXattrs (hdr : Header) (limits : Limits) : option (list Xattr) :=
  let pax := pax_xattrs (th_PAXRecords hdr) in
  if conflicting_xattrs pax (th_Xattrs hdr) then None
  else
    let attrs := pax ∪ th_Xattrs hdr in
    if lm_MaxXattrs limits <? Z.of_nat (size attrs) then None else take_xattrs limits 0 (sorted_entries attrs).

(** ** The header *)

Definition unsafe_header_mode (mode : Z) : bool :=
  (mode <? 0) || negb (Z.land mode 3072 =? 0) || negb (Z.ldiff mode 4095 =? 0).

Definition reject {A} (code : ErrorCode) (path : string) : result VerificationError A := Err (MkVerificationError code path).

Definition require {A} (o : option A) (code : ErrorCode) (path : string) : result VerificationError A :=
  match o with Some a => Ok a | None => reject code path end.

Definition refuse (bad : bool) (code : ErrorCode) (path : string) : result VerificationError unit :=
  check bad (MkVerificationError code path).

Definition with_link (entry : InventoryEntry) (symlink hardlink resolved prefixTarget : string) (relocatable : bool) : InventoryEntry :=
  MkInventoryEntry (ie_Path entry) (ie_KegPath entry) (ie_Type entry) (ie_Mode entry) (ie_Size entry) (ie_SHA256 entry) symlink
    hardlink resolved prefixTarget (ie_UID entry) (ie_GID entry) (ie_Xattrs entry) relocatable.

(** The link of an entry, by its type *)
Definition validate_link (hdr : Header) (entry : InventoryEntry) (expected : Expectation) (limits : Limits)
    : result VerificationError InventoryEntry :=
  let name := ie_Path entry in
  match ie_Type entry with
  | EntrySymlink =>
      '(resolved, prefixTarget) ← require (validateSymlink name (th_Linkname hdr) expected limits) CodeUnsafeLink name;
      Ok (with_link entry (th_Linkname hdr) "" resolved prefixTarget (containsRelocationPlaceholder (text_bytes (th_Linkname hdr))))
  | EntryHardlink =>
      target ← require (validateHardlink (th_Linkname hdr) expected limits) CodeUnsafeLink name;
      Ok (with_link entry "" target target "" false)
  | _ =>
      _ ← refuse (negb (bool_decide (th_Linkname hdr = ""))) CodeUnsafeLink name;
      Ok entry
  end.

Definition is_regular (t : EntryType) : bool := bool_decide (t = EntryRegular).

Definition validateHeader (hdr : Header) (rawHeader : bytes) (expected : Expectation) (limits : Limits)
    : result VerificationError InventoryEntry :=
  _ ← refuse (negb (supportedTarFormat hdr rawHeader)) CodeInvalidTar (th_Name hdr);
  _ ← refuse ((th_Uid hdr <? 0) || (th_Gid hdr <? 0)) CodeUnsafeMetadata (th_Name hdr);
  _ ← refuse (negb (utf8_ValidString (th_Uname hdr)) || negb (utf8_ValidString (th_Gname hdr)) || containsControl (th_Uname hdr)
              || containsControl (th_Gname hdr)) CodeUnsafeMetadata (th_Name hdr);
  entryType ← require (classifyType (th_Typeflag hdr)) CodeUnsafeType (th_Name hdr);
  name ← require (canonicalArchivePath (th_Name hdr) (is_directory entryType) (lm_MaxPathBytes limits)) CodeUnsafePath (th_Name hdr);
  _ ← refuse (lm_MaxDepth limits <? Z.of_nat (strings_Count name "/") + 1) CodeArchiveLimit name;
  _ ← refuse (negb (validateKegPath name entryType expected)) CodeUnsafePath name;
  _ ← refuse (unsafe_header_mode (th_Mode hdr)) CodeUnsafeMode name;
  _ ← refuse (th_Size hdr <? 0) CodeInvalidTar name;
  _ ← refuse (negb (is_regular entryType) && negb (th_Size hdr =? 0)) CodeInvalidTar name;
  _ ← refuse (negb (validatePAX hdr limits)) CodeUnsafeMetadata name;
  xattrs ← require (allowedXattrs hdr limits) CodeUnsafeMetadata name;
  let kegPath := strings_TrimPrefix (strings_TrimPrefix name (expectedKegPrefix expected)) "/" in
  validate_link hdr
    (MkInventoryEntry name kegPath entryType (Z.land (th_Mode hdr) 4095) (th_Size hdr) "" "" "" "" "" (th_Uid hdr) (th_Gid hdr) xattrs
       false) expected limits.

End metadata.
