(* ===== verification/BottleLinks.v ===== *)
(** * internal/bottle: links inside the keg

    [validateCollisionsAndHardlinks] of [verify.go]: no entry below a file,
    symbolic links followed component by component through the archive's own
    links without ever leaving the keg, hard links followed to a regular file of
    the archive. The entries are a map by path, updated as the loops go: a link
    that was resolved before is seen with its resolution. *)

From S2P Require Import Prelude GoStrings Regex Version BottleStreams BottleHeader.
From stdpp Require Import options.
Local Open Scope Z_scope.

Notation entries := (gmap string InventoryEntry).

Definition is_symlink (t : EntryType) : bool := bool_decide (t = EntrySymlink).

(** ** Ancestors *)

(** [for parent := path.Dir(name); parent != "." && parent != "/"; ...]: the
    ancestors of a name, innermost first; each is shorter than the last. *)
Fixpoint ancestors (fuel : nat) (name : string) : list string :=
  match fuel with
  | O => []
  | S fuel =>
      let parent := path_Dir name in
      if bool_decide (parent = ".") || bool_decide (parent = "/") then [] else parent :: ancestors fuel parent
  end.

Definition path_ancestors (name : string) : list string := ancestors (String.length name) name.

Definition ancestor_collision (m : entries) (name : string) : bool :=
  existsb (λ parent, match m !! parent with Some e => negb (is_directory (ie_Type e)) | None => false end) (path_ancestors name).

Definition sorted_paths (m : entries) : list string := slices_Sort (map_to_list m).*1.

Definition validate_collisions (m : entries) : result VerificationError unit :=
  foldM_res (λ _ name, refuse (ancestor_collision m name) CodePathCollision name) tt (sorted_paths m).

(** ** Following a path *)

Section resolve.
Context (expected : Expectation) (limits : Limits).

Definition rootParts : list string := strings_Split (expectedKegPrefix expected) "/".

(** The escape of a pushed component: outside the keg although deep enough *)
Definition escapes (stack : list string) : bool :=
  negb (withinKeg (strings_Join "/" stack) expected) && (length rootParts <=? length stack)%nat.

Definition pop (stack : list string) : list string := take (length stack - 1) stack.

(** The loop of [resolvePath]: the stack outermost first *)
Fixpoint resolve_loop (fuel : nat) (m : entries) (owner : string) (stack queue : list string) (followed : gset string) (steps : Z)
    : option (result VerificationError (string * string)) :=
  match fuel with
  | O => None
  | S fuel =>
      match queue with
      | [] =>
          let resolved := strings_Join "/" stack in
          Some (if negb (withinKeg resolved expected) then reject CodeUnsafeLink owner else Ok (resolved, ""))
      | component :: queue =>
          if bool_decide (component = "") || bool_decide (component = ".") then resolve_loop fuel m owner stack queue followed steps
          else if bool_decide (component = "..") then
            if (length stack <=? length rootParts)%nat then Some (reject CodeUnsafeLink owner)
            else resolve_loop fuel m owner (pop stack) queue followed steps
          else
            let stack' := stack ++ [component] in
            let candidate := strings_Join "/" stack' in
            if escapes stack' then Some (reject CodeUnsafeLink owner)
            else
              match m !! candidate with
              | Some entry =>
                  if negb (is_symlink (ie_Type entry)) then resolve_loop fuel m owner stack' queue followed steps
                  else if lm_MaxDepth limits <? steps + 1 then Some (reject CodeUnsafeLink owner)
                  else if bool_decide (candidate ∈ followed) then Some (reject CodeUnsafeLink owner)
                  else if negb (bool_decide (ie_PrefixTarget entry = "")) then
                    Some (if negb (bool_decide (queue = [])) then reject CodeUnsafeLink owner else Ok ("", ie_PrefixTarget entry))
                  else
                    resolve_loop fuel m owner stack (strings_Split (ie_SymlinkTarget entry) "/" ++ queue) ({[candidate]} ∪ followed)
                      (steps + 1)
              | None => resolve_loop fuel m owner stack' queue followed steps
              end
      end
  end.

(** The most components a symbolic link of the archive has *)
Definition longest_link (m : entries) : nat :=
  foldr Nat.max 0%nat ((λ e, length (strings_Split (ie_SymlinkTarget e.2) "/")) <$> map_to_list m).

(** Enough for every component of the path and of the links it may follow *)
Definition resolve_fuel (m : entries) (queue : list string) : nat := S (length queue + Z.to_nat (lm_MaxDepth limits) * longest_link m).

Definition resolvePath (m : entries) (base target owner : string) : result VerificationError (string * string) :=
  let stack := if bool_decide (base = "") || bool_decide (base = ".") then [] else strings_Split base "/" in
  let queue := strings_Split target "/" in
  match resolve_loop (resolve_fuel m queue) m owner stack queue ∅ 0 with Some r => r | None => reject CodeInvalidTar owner end.

(** ** Symbolic links *)

Definition with_resolution (e : InventoryEntry) (resolved prefixTarget : string) : InventoryEntry :=
  with_link e (ie_SymlinkTarget e) (ie_HardlinkTarget e) resolved prefixTarget (ie_Relocatable e).

Definition resolve_symlink (m : entries) (name : string) : result VerificationError entries :=
  match m !! name with
  | None => Ok m
  | Some entry =>
      if negb (is_symlink (ie_Type entry)) || negb (bool_decide (ie_PrefixTarget entry = "")) then Ok m
      else
        '(resolved, prefixTarget) ← resolvePath m (path_Dir name) (ie_SymlinkTarget entry) name;
        _ ← refuse (negb (bool_decide (prefixTarget = "")) && negb (allowedExternalSymlink name prefixTarget expected)) CodeUnsafeLink name;
        Ok (<[name := with_resolution entry resolved prefixTarget]> m)
  end.

(** ** Hard links *)

(** [resolveHardlink]: the memo [hardResolved] is threaded; [visiting] holds the
    names of the calls under way. The depth bounds the recursion. *)
Fixpoint resolveHardlink (fuel : nat) (m : entries) (hardResolved : gmap string string) (visiting : gset string) (name owner : string)
    (depth : Z) : result VerificationError (string * gmap string string) :=
  match fuel with
  | O => reject CodeInvalidTar owner
  | S fuel =>
      if lm_MaxDepth limits <? depth then reject CodeUnsafeLink owner
      else
        match hardResolved !! name with
        | Some target => Ok (target, hardResolved)
        | None =>
            _ ← refuse (bool_decide (name ∈ visiting)) CodeUnsafeLink owner;
            entry ← require (m !! name) CodeUnsafeLink owner;
            match ie_Type entry with
            | EntryRegular => Ok (name, <[name := name]> hardResolved)
            | EntryHardlink =>
                '(resolvedPath, prefixTarget) ← resolvePath m "" (ie_HardlinkTarget entry) owner;
                _ ← refuse (negb (bool_decide (prefixTarget = ""))) CodeUnsafeLink owner;
                '(target, hardResolved) ← resolveHardlink fuel m hardResolved ({[name]} ∪ visiting) resolvedPath owner (depth + 1);
                Ok (target, <[name := target]> hardResolved)
            | _ => reject CodeUnsafeLink owner
            end
        end
  end.

Definition hardlink_fuel : nat := Z.to_nat (lm_MaxDepth limits) + 2.

(** The entry of a hard link is that of its target, under its own name. *)
Definition share_target (entry target : InventoryEntry) (resolved : string) : InventoryEntry :=
  MkInventoryEntry (ie_Path entry) (ie_KegPath entry) (ie_Type entry) (ie_Mode target) (ie_Size target) (ie_SHA256 target)
    (ie_SymlinkTarget entry) (ie_HardlinkTarget entry) resolved (ie_PrefixTarget entry) (ie_UID target) (ie_GID target)
    (ie_Xattrs target) (ie_Relocatable target).

(** One round of the last loop; a target that is not in the map cannot happen
    (the source would follow a nil pointer). *)
Definition resolve_hardlink_entry (st : entries * gmap string string) (name : string)
    : result VerificationError (entries * gmap string string) :=
  let '(m, hardResolved) := st in
  match m !! name with
  | None => Ok st
  | Some entry =>
      if negb (bool_decide (ie_Type entry = EntryHardlink)) then Ok st
      else
        '(resolvedPath, prefixTarget) ← resolvePath m "" (ie_HardlinkTarget entry) name;
        _ ← refuse (negb (bool_decide (prefixTarget = ""))) CodeUnsafeLink name;
        '(target, hardResolved) ← resolveHardlink hardlink_fuel m hardResolved ∅ resolvedPath name 1;
        targetEntry ← require (m !! target) CodeInvalidTar name;
        Ok (<[name := share_target entry targetEntry target]> m, hardResolved)
  end.

Definition validateCollisionsAndHardlinks (m : entries) : result VerificationError entries :=
  let paths := sorted_paths m in
  _ ← validate_collisions m;
  m ← foldM_res resolve_symlink m paths;
  '(m, _) ← foldM_res resolve_hardlink_entry (m, ∅) paths;
  Ok m.

End resolve.

(** ** Paths and their components *)

Definition plain (p : string) : Prop := strings_Count p "/" = 0%nat.

Lemma HasPrefix_app s p : strings_HasPrefix s p = true ↔ ∃ rest, s = p +:+ rest.
Proof.
  unfold strings_HasPrefix. revert s. induction p as [|c p IH]; intros s; cbn [String.prefix].
  - split; [by exists s|]. intros _. by destruct s.
  - destruct s as [|d s]; [split; [done|]; by intros [rest ?]|]. cbn [String.prefix]. destruct (Ascii.ascii_dec c d) as [->|Hne].
    + rewrite IH. setoid_rewrite app_cons_str. naive_solver.
    + split; [done|]. intros [rest Hr]. rewrite app_cons_str in Hr. by injection Hr.
Qed.

Lemma TrimPrefix_app p rest : strings_TrimPrefix (p +:+ rest) p = rest.
Proof.
  unfold strings_TrimPrefix. assert (strings_HasPrefix (p +:+ rest) p = true) as -> by (apply HasPrefix_app; by exists rest).
  induction p as [|c p IH]; [rewrite app_nil_l_str; by destruct rest|]. rewrite app_cons_str. cbn. exact IH.
Qed.

Lemma Split_app a b c : strings_Split (a +:+ String c b) c = strings_Split a c ++ strings_Split b c.
Proof.
  induction a as [|d a IH]; [rewrite app_nil_l_str; cbn; by rewrite ascii_eqb_refl|]. rewrite app_cons_str. cbn [strings_Split].
  destruct (ascii_eqb d c); [by rewrite IH|]. rewrite IH. pose proof (Split_nonempty a c). by destruct (strings_Split a c).
Qed.

Lemma Join_app l k : l ≠ [] → k ≠ [] → strings_Join "/" (l ++ k) = strings_Join "/" l +:+ String "/" (strings_Join "/" k).
Proof.
  intros Hl Hk. induction l as [|p l IH]; [done|]. destruct l as [|q l].
  - cbn [app]. rewrite Join_cons by done. by rewrite app_cons_str, app_nil_l_str.
  - cbn [app] in *. rewrite !(Join_cons "/" p) by done. rewrite IH by done. by rewrite !app_cons_str, !app_nil_l_str, app_assoc_str, app_cons_str.
Qed.

Section links.
Context (expected : Expectation) (limits : Limits).
Local Notation root := (rootParts expected).
Local Notation "'keg'" := (expectedKegPrefix expected) (only parsing).

(** A path is in the keg when its first components are those of the keg. *)
Lemma withinKeg_iff stack : Forall plain stack → withinKeg (strings_Join "/" stack) expected = true ↔ root `prefix_of` stack.
Proof.
  intros Hp. unfold withinKeg. rewrite orb_true_iff, bool_decide_eq_true, HasPrefix_app. unfold rootParts.
  destruct stack as [|x stack]; [|assert (strings_Split (strings_Join "/" (x :: stack)) "/" = x :: stack) as Hs by (by apply Split_Join)].
  - cbn [strings_Join]. split.
    + unfold expectedKegPrefix. intros [H|[rest H]]; exfalso; destruct (ex_Name expected); by rewrite ?app_cons_str in H.
    + intros [k Hk]. symmetry in Hk. apply app_eq_nil in Hk as [Hk _]. by apply Split_nonempty in Hk.
  - split.
    + intros [H|[rest H]].
      * rewrite <-H, Hs. done.
      * rewrite <-Hs, H. rewrite app_assoc_str, app_cons_str, app_nil_l_str, Split_app. by eexists.
    + intros [k Hk]. rewrite Hk. destruct k as [|y k].
      * left. by rewrite app_nil_r, Join_Split.
      * right. exists (strings_Join "/" (y :: k)). rewrite Join_app by (done || apply Split_nonempty).
        by rewrite Join_Split, app_assoc_str, app_cons_str, app_nil_l_str.
Qed.

(** Where a walk may be: in the keg, or still above it on the way down *)
Definition inside (stack : list string) : Prop := root `prefix_of` stack ∨ (length stack < length root)%nat.

Lemma escapes_false stack : Forall plain stack → escapes expected stack = false ↔ inside stack.
Proof.
  intros Hp. unfold escapes, inside. rewrite andb_false_iff, negb_false_iff, withinKeg_iff, Nat.leb_gt by done. done.
Qed.

Lemma inside_pop stack : inside stack → (length root < length stack)%nat → inside (pop stack).
Proof.
  intros [[k Hk]|?] Hlen; [|lia]. left. destruct k as [|x k] using rev_ind; [rewrite Hk, app_nil_r in Hlen; lia|].
  unfold pop. rewrite Hk, app_assoc, length_app. cbn. replace (length (root ++ k) + 1 - 1)%nat with (length (root ++ k)) by lia.
  rewrite take_app_length. by exists k.
Qed.

(** ** Walking a path as the operating system does

    [links] gives the text of a symbolic link; a link is followed from the
    directory it is in. Every place the walk visits is [inside]. *)

Inductive path_walk (links : string → option string) : list string → list string → list string → Prop :=
| walk_end stack : path_walk links stack [] stack
| walk_here stack c queue result :
    c = "" ∨ c = "." → path_walk links stack queue result → path_walk links stack (c :: queue) result
| walk_up stack queue result :
    inside (pop stack) → path_walk links (pop stack) queue result → path_walk links stack (".." :: queue) result
| walk_down stack c queue result :
    proper_component c = true → inside (stack ++ [c]) → links (strings_Join "/" (stack ++ [c])) = None →
    path_walk links (stack ++ [c]) queue result → path_walk links stack (c :: queue) result
| walk_link stack c queue result text :
    proper_component c = true → inside (stack ++ [c]) → links (strings_Join "/" (stack ++ [c])) = Some text →
    path_walk links stack (strings_Split text "/" ++ queue) result → path_walk links stack (c :: queue) result.

(** The links of an archive *)
Definition link_text (m : entries) (name : string) : option string :=
  match m !! name with Some e => if is_symlink (ie_Type e) then Some (ie_SymlinkTarget e) else None | None => None end.

Definition base_parts (base : string) : list string :=
  if bool_decide (base = "") || bool_decide (base = ".") then [] else strings_Split base "/".

(** A link that leaves the keg by itself: its text goes up from its directory in the
    Cellar to the prefix and from there down to the target, without detours. *)
Definition points_out (name text target : string) : Prop :=
  ∃ components, strings_Split text "/" = replicate (length (strings_Split (path_Join ["Cellar"; path_Dir name]) "/")) ".." ++ components ∧
    Forall (λ c, proper_component c = true) components ∧ target = strings_Join "/" components.

(** A walk that leaves the keg: it follows links as [path_walk] does, and its last
    component, with nothing of the path left after it, is a link that goes out, by
    itself or followed from its own directory. *)
Inductive leaves (links : string → option string) : list string → list string → string → Prop :=
| leaves_here stack c queue target : c = "" ∨ c = "." → leaves links stack queue target → leaves links stack (c :: queue) target
| leaves_up stack queue target : inside (pop stack) → leaves links (pop stack) queue target → leaves links stack (".." :: queue) target
| leaves_down stack c queue target :
    proper_component c = true → inside (stack ++ [c]) → links (strings_Join "/" (stack ++ [c])) = None →
    leaves links (stack ++ [c]) queue target → leaves links stack (c :: queue) target
| leaves_link stack c queue target text :
    proper_component c = true → inside (stack ++ [c]) → links (strings_Join "/" (stack ++ [c])) = Some text →
    leaves links stack (strings_Split text "/" ++ queue) target → leaves links stack (c :: queue) target
| leaves_out stack c target text :
    proper_component c = true → inside (stack ++ [c]) → links (strings_Join "/" (stack ++ [c])) = Some text →
    points_out (strings_Join "/" (stack ++ [c])) text target → leaves links stack [c] target
| leaves_again stack c target text :
    proper_component c = true → inside (stack ++ [c]) → links (strings_Join "/" (stack ++ [c])) = Some text →
    leaves links (base_parts (path_Dir (strings_Join "/" (stack ++ [c])))) (strings_Split text "/") target → leaves links stack [c] target.

(** A link whose text leads out of the keg *)
Definition goes_out (links : string → option string) (name text target : string) : Prop :=
  points_out name text target ∨ leaves links (base_parts (path_Dir name)) (strings_Split text "/") target.

(** Where following a path ends: in the keg, or out of it *)
Definition leads_to (m : entries) (stack queue : list string) (resolved prefixTarget : string) : Prop :=
  (prefixTarget = "" ∧ withinKeg resolved expected = true ∧
   ∃ final, Forall plain final ∧ resolved = strings_Join "/" final ∧ path_walk (link_text m) stack queue final) ∨
  (prefixTarget ≠ "" ∧ resolved = "" ∧ leaves (link_text m) stack queue prefixTarget).

Definition all_entries (P : string → InventoryEntry → Prop) (m : entries) : Prop := ∀ name e, m !! name = Some e → P name e.

(** The targets out of the keg that are known are where the links lead. *)
Definition outward (links : string → option string) (name : string) (e : InventoryEntry) : Prop :=
  ie_Type e = EntrySymlink → ie_PrefixTarget e ≠ "" → goes_out links name (ie_SymlinkTarget e) (ie_PrefixTarget e).

Lemma resolve_loop_sound fuel m owner stack queue followed steps resolved prefixTarget :
  all_entries (outward (link_text m)) m →
  Forall plain stack → Forall plain queue → inside stack →
  resolve_loop expected limits fuel m owner stack queue followed steps = Some (Ok (resolved, prefixTarget)) →
  leads_to m stack queue resolved prefixTarget.
Proof.
  intros Hout. revert stack queue followed steps. induction fuel as [|fuel IH]; intros stack queue followed steps Hs Hq Hin; cbn [resolve_loop]; [done|].
  destruct queue as [|c queue].
  { destruct (withinKeg (strings_Join "/" stack) expected) eqn:Hk; cbn [negb]; [|done]. intros [= <- <-]. left. split_and!; [done..|].
    exists stack. split_and!; [done..|constructor]. }
  apply Forall_cons in Hq as [Hc Hq].
  destruct (bool_decide (c = "") || bool_decide (c = ".")) eqn:Hhere.
  { intros H. apply IH in H as [(-> & Hk & final & Hf & -> & Hw)|(? & ? & ?)]; [|right; split_and!; [done..|by apply leaves_here; [apply orb_true_iff in Hhere; rewrite !bool_decide_eq_true in Hhere|]]|done..]. left. split_and!; [done..|].
    exists final. split_and!; [done..|]. constructor; [|done]. apply orb_true_iff in Hhere. rewrite !bool_decide_eq_true in Hhere. done. }
  apply orb_false_iff in Hhere as [Hc1 Hc2].
  destruct (bool_decide (c = "..")) eqn:Hup.
  { apply bool_decide_eq_true in Hup as ->. destruct (Nat.leb_spec (length stack) (length root)) as [|Hdeep]; [done|]. pose proof (inside_pop stack Hin ltac:(done)) as Hin'.
    intros H. apply IH in H as [(-> & Hk & final & Hf & -> & Hw)|(? & ? & ?)]; [|right; split_and!; [done..|by apply leaves_up]| |done|done].
    - left. split_and!; [done..|]. exists final. split_and!; [done..|]. by constructor.
    - unfold pop. by apply Forall_take. }
  assert (proper_component c = true) as Hproper.
  { unfold proper_component. by rewrite Hc1, Hc2, Hup. }
  assert (Forall plain (stack ++ [c])) as Hs' by (apply Forall_app; split; [done|]; by constructor).
  destruct (escapes expected (stack ++ [c])) eqn:He; [done|]. apply escapes_false in He; [|done].
  assert (link_text m (strings_Join "/" (stack ++ [c])) = None →
    resolve_loop expected limits fuel m owner (stack ++ [c]) queue followed steps = Some (Ok (resolved, prefixTarget)) →
    leads_to m stack (c :: queue) resolved prefixTarget) as Hdown.
  { intros Hl H. apply IH in H as [(-> & Hk & final & Hf & -> & Hw)|(? & ? & ?)]; [|right; split_and!; [done..|by apply leaves_down]|done..]. left. split_and!; [done..|].
    exists final. split_and!; [done..|]. by apply walk_down. }
  unfold link_text in Hdown at 1. destruct (m !! strings_Join "/" (stack ++ [c])) as [e|] eqn:Hm; [|by apply Hdown].
  destruct (is_symlink (ie_Type e)) eqn:Ht; cbn [negb]; [|by apply Hdown].
  assert (link_text m (strings_Join "/" (stack ++ [c])) = Some (ie_SymlinkTarget e)) as Hlink by (unfold link_text; by rewrite Hm, Ht).
  destruct (_ <? _); [done|]. destruct (bool_decide (_ ∈ followed)); [done|].
  destruct (bool_decide (ie_PrefixTarget e = "")) eqn:Hpre; cbn [negb].
  - intros H. apply IH in H as [(-> & Hk & final & Hf & -> & Hw)|(? & ? & ?)]; [| |done| |done].
    + left. split_and!; [done..|]. exists final. split_and!; [done..|]. by eapply walk_link.
    + right. split_and!; [done..|]. by eapply leaves_link.
    + apply Forall_app. split; [apply Split_parts|done].
  - destruct (bool_decide_reflect (queue = [])) as [->|]; cbn [negb]; [|done]. intros [= <- <-]. apply bool_decide_eq_false in Hpre. right. split_and!; [done..|].
    unfold is_symlink in Ht. apply bool_decide_eq_true in Ht. destruct (Hout _ e Hm Ht Hpre) as [Ho|Ho]; [by eapply leaves_out|by eapply leaves_again].
Qed.

(** ** Termination *)

Lemma longest_link_ge m name e : m !! name = Some e → (length (strings_Split (ie_SymlinkTarget e) "/") ≤ longest_link m)%nat.
Proof.
  intros He. unfold longest_link. apply elem_of_map_to_list in He. revert He.
  generalize (map_to_list m). induction l as [|x l IH]; [set_solver|]. cbn [fmap list_fmap foldr].
  intros [<-|Hl]%elem_of_cons; cbn [snd]; [lia|]. specialize (IH Hl). lia.
Qed.

Lemma resolve_loop_total fuel m owner stack queue followed steps :
  (length queue + Z.to_nat (lm_MaxDepth limits - steps) * longest_link m < fuel)%nat →
  is_Some (resolve_loop expected limits fuel m owner stack queue followed steps).
Proof.
  revert stack queue followed steps. induction fuel as [|fuel IH]; intros stack queue followed steps Hf; cbn [resolve_loop]; [by apply Nat.nlt_0_r in Hf|].
  destruct queue as [|c queue]; [by eexists|]. cbn [length] in Hf.
  assert (∀ stack, is_Some (resolve_loop expected limits fuel m owner stack queue followed steps)) as Hnext by (intros; apply IH, Nat.succ_lt_mono, Hf).
  destruct (_ || _); [apply Hnext|]. destruct (bool_decide (c = "..")); [destruct (_ <=? _)%nat; [by eexists|apply Hnext]|].
  destruct (escapes _ _); [by eexists|]. destruct (m !! _) as [e|] eqn:He; [|apply Hnext].
  destruct (negb _); [apply Hnext|]. destruct (Z.ltb_spec (lm_MaxDepth limits) (steps + 1)) as [|Hsteps]; [by eexists|].
  destruct (bool_decide (_ ∈ followed)); [by eexists|]. destruct (negb _); [by eexists|].
  apply IH. rewrite length_app. pose proof (longest_link_ge _ _ _ He).
  replace (Z.to_nat (lm_MaxDepth limits - steps)) with (S (Z.to_nat (lm_MaxDepth limits - (steps + 1)))) in Hf by lia. lia.
Qed.

(** Errors the source's function does not have: among them the code that marks a
    loop that would not have ended, or a target that is missing *)
Definition model_error (e : VerificationError) : Prop :=
  match ve_Code e with CodePathCollision | CodeUnsafeLink => False | _ => True end.

Lemma resolve_loop_errors fuel m owner stack queue followed steps r :
  resolve_loop expected limits fuel m owner stack queue followed steps = Some r → never model_error r.
Proof.
  revert stack queue followed steps. induction fuel as [|fuel IH]; intros stack queue followed steps; cbn [resolve_loop]; [done|].
  assert (never model_error (reject (A := string * string) CodeUnsafeLink owner)) as Hr by (intros e He [= <-]; done).
  destruct queue as [|c queue]; [intros [= <-]; destruct (negb _); [done|apply never_ok]|].
  repeat (case_match; try (by apply IH)); intros [= <-]; done.
Qed.

Lemma resolvePath_run m base target owner :
  ∃ r, resolve_loop expected limits (resolve_fuel limits m (strings_Split target "/")) m owner
         (if bool_decide (base = "") || bool_decide (base = ".") then [] else strings_Split base "/") (strings_Split target "/") ∅ 0 = Some r ∧
       resolvePath expected limits m base target owner = r.
Proof.
  unfold resolvePath. destruct (resolve_loop_total (resolve_fuel limits m (strings_Split target "/")) m owner
    (if bool_decide (base = "") || bool_decide (base = ".") then [] else strings_Split base "/") (strings_Split target "/") ∅ 0) as [r Hr].
  - unfold resolve_fuel. rewrite Z.sub_0_r. lia.
  - exists r. by rewrite Hr.
Qed.

Lemma resolvePath_errors m base target owner : never model_error (resolvePath expected limits m base target owner).
Proof. destruct (resolvePath_run m base target owner) as (r & Hr & ->). by eapply resolve_loop_errors. Qed.

(** ** What following a path finds *)

Lemma inside_nil : inside [].
Proof. right. unfold rootParts. pose proof (Split_nonempty (expectedKegPrefix expected) "/"). destruct (strings_Split _ _); [done|]. cbn. lia. Qed.

Lemma resolvePath_sound m base target owner resolved prefixTarget :
  all_entries (outward (link_text m)) m → inside (base_parts base) → resolvePath expected limits m base target owner = Ok (resolved, prefixTarget) →
  leads_to m (base_parts base) (strings_Split target "/") resolved prefixTarget.
Proof.
  intros Hout Hin Hr. destruct (resolvePath_run m base target owner) as (r & Hrun & Hr'). rewrite Hr in Hr'. subst r. fold (base_parts base) in Hrun.
  eapply resolve_loop_sound; [exact Hout| |apply Split_parts|done|exact Hrun]. unfold base_parts. destruct (_ || _); [constructor|apply Split_parts].
Qed.

(** ** The loops *)

(** What no loop changes of an entry *)
Definition shape (e : InventoryEntry) : string * string * EntryType * string * string :=
  (ie_Path e, ie_KegPath e, ie_Type e, ie_SymlinkTarget e, ie_HardlinkTarget e).

Definition same_shape (m m' : entries) : Prop := ∀ name, shape <$> m !! name = shape <$> m' !! name.

#[local] Instance same_shape_preorder : PreOrder same_shape.
Proof. split; [by intros ? ?|]. intros a b c H1 H2 name. by rewrite H1. Qed.

Lemma same_shape_lookup m m' name e : same_shape m m' → m !! name = Some e → ∃ e', m' !! name = Some e' ∧ shape e' = shape e.
Proof. intros Hs He. specialize (Hs name). rewrite He in Hs. destruct (m' !! name) as [e'|]; [|done]. exists e'. split; [done|]. cbn in Hs. congruence. Qed.

Lemma same_shape_lookup_r m m' name e : same_shape m m' → m' !! name = Some e → ∃ e', m !! name = Some e' ∧ shape e' = shape e.
Proof. intros Hs He. specialize (Hs name). rewrite He in Hs. destruct (m !! name) as [e'|]; [|done]. exists e'. split; [done|]. cbn in Hs. congruence. Qed.

Lemma same_shape_insert m name e e' : m !! name = Some e → shape e' = shape e → same_shape m (<[name := e']> m).
Proof.
  intros He Hs x. destruct (decide (x = name)) as [->|Hne]; [by rewrite He, lookup_insert_eq; cbn; rewrite Hs|].
  by rewrite lookup_insert_ne.
Qed.

Lemma same_shape_links m m' name : same_shape m m' → link_text m name = link_text m' name.
Proof.
  intros Hs. specialize (Hs name). unfold link_text. destruct (m !! name) as [e|], (m' !! name) as [e'|]; try done.
  injection Hs as _ _ -> -> _. done.
Qed.

Lemma path_walk_ext links links' stack queue final :
  (∀ x, links x = links' x) → path_walk links stack queue final → path_walk links' stack queue final.
Proof.
  intros Hl. induction 1; [constructor|by constructor|by constructor| |].
  - apply walk_down; [done..| |done]. by rewrite <-Hl.
  - eapply walk_link; [done..| |done]. by rewrite <-Hl.
Qed.

Lemma leaves_ext links links' stack queue target : (∀ x, links x = links' x) → leaves links stack queue target → leaves links' stack queue target.
Proof.
  intros Hl. induction 1; [by apply leaves_here|by apply leaves_up| | | |].
  - apply leaves_down; [done..| |done]. by rewrite <-Hl.
  - eapply leaves_link; [done..| |done]. by rewrite <-Hl.
  - eapply leaves_out; [done..| |done]. by rewrite <-Hl.
  - eapply leaves_again; [done..| |done]. by rewrite <-Hl.
Qed.

Lemma goes_out_shape m m' name text target : same_shape m m' → goes_out (link_text m) name text target → goes_out (link_text m') name text target.
Proof. intros Hs [?|Hl]; [by left|right]. eapply leaves_ext; [|exact Hl]. intros x. by apply same_shape_links. Qed.

(** A symbolic link that was followed to its end: in the keg, or at the place of the
    prefix where its text leads, directly or over other links of the archive, with no
    part of a path left over, and which the policy allows for it *)
Definition symlink_ok (m : entries) (name : string) (e : InventoryEntry) : Prop :=
  (ie_PrefixTarget e = "" ∧ withinKeg (ie_ResolvedTarget e) expected = true ∧
   ∃ final, ie_ResolvedTarget e = strings_Join "/" final ∧
     path_walk (link_text m) (base_parts (path_Dir name)) (strings_Split (ie_SymlinkTarget e) "/") final) ∨
  (ie_PrefixTarget e ≠ "" ∧ goes_out (link_text m) name (ie_SymlinkTarget e) (ie_PrefixTarget e) ∧
   allowedExternalSymlink name (ie_PrefixTarget e) expected = true).

Lemma symlink_ok_shape m m' name e : same_shape m m' → symlink_ok m name e → symlink_ok m' name e.
Proof.
  intros Hs [(Hp & Hk & final & Hr & Hw)|(? & ? & ?)]; [left|right; split_and!; [done|by eapply goes_out_shape|done]].
  split_and!; [done..|]. exists final. split; [done|]. eapply path_walk_ext; [|exact Hw]. intros x. by apply same_shape_links.
Qed.

(** A hard link that carries what its regular file has *)
Definition hardlink_ok (m : entries) (e : InventoryEntry) : Prop :=
  ∃ t, m !! ie_ResolvedTarget e = Some t ∧ ie_Type t = EntryRegular ∧ ie_SHA256 e = ie_SHA256 t ∧ ie_Size e = ie_Size t ∧
    ie_Mode e = ie_Mode t ∧ ie_UID e = ie_UID t ∧ ie_GID e = ie_GID t ∧ ie_Xattrs e = ie_Xattrs t.

(** What the checks of the single entries leave *)
Definition external_ok (name : string) (e : InventoryEntry) : Prop :=
  ie_Type e = EntrySymlink → inside (base_parts (path_Dir name)) ∧
  (ie_PrefixTarget e ≠ "" → points_out name (ie_SymlinkTarget e) (ie_PrefixTarget e) ∧ allowedExternalSymlink name (ie_PrefixTarget e) expected = true).

(** ... and what the loop over the links keeps of it *)
Definition resolving (m : entries) : Prop :=
  all_entries (outward (link_text m)) m ∧
  all_entries (λ name e, ie_Type e = EntrySymlink → inside (base_parts (path_Dir name)) ∧
    (ie_PrefixTarget e ≠ "" → allowedExternalSymlink name (ie_PrefixTarget e) expected = true)) m.

Lemma external_resolving m : all_entries external_ok m → resolving m.
Proof.
  intros Hm. split; intros name e He Ht.
  - intros Hp. left. by apply (Hm name e He Ht).
  - destruct (Hm name e He Ht) as [Hin Hout]. split; [done|]. intros Hp. by apply Hout.
Qed.

Lemma resolve_symlink_step m m' name :
  resolving m → resolve_symlink expected limits m name = Ok m' →
  same_shape m m' ∧ resolving m' ∧ (∀ x, x ≠ name ∨ (∃ e, m !! x = Some e ∧ ie_Type e ≠ EntrySymlink) → m' !! x = m !! x) ∧
  ∀ e, m' !! name = Some e → ie_Type e = EntrySymlink → symlink_ok m' name e.
Proof.
  intros [Hout Hm]. unfold resolve_symlink. destruct (m !! name) as [entry|] eqn:He.
  2: { intros [= <-]. by split_and!; [|split| |congruence]. }
  destruct (negb (is_symlink (ie_Type entry)) || negb (bool_decide (ie_PrefixTarget entry = ""))) eqn:Hskip.
  { intros [= <-]. split_and!; [done|by split|done|]. intros e He' Ht. rewrite He in He'. injection He' as <-.
    unfold is_symlink in Hskip. rewrite Ht in Hskip. cbn in Hskip. apply negb_true_iff, bool_decide_eq_false in Hskip.
    right. split_and!; [done|by apply Hout|by apply (Hm name entry He)]. }
  apply orb_false_iff in Hskip as [Ht Hp]. unfold is_symlink in Ht. apply negb_false_iff, bool_decide_eq_true in Ht.
  destruct (Hm name entry He Ht) as [Hin _].
  intros ([resolved prefixTarget] & Hr & H)%bind_ok. apply bind_ok in H as ([] & Hc & [= <-]). apply check_ok in Hc.
  assert (prefixTarget ≠ "" → allowedExternalSymlink name prefixTarget expected = true) as Hallow.
  { intros Hne. rewrite bool_decide_eq_false_2 in Hc by done. cbn in Hc. by apply negb_false_iff in Hc. }
  apply resolvePath_sound in Hr; [|done..].
  assert (same_shape m (<[name := with_resolution entry resolved prefixTarget]> m)) as Hshape by (by eapply same_shape_insert).
  assert (symlink_ok m name (with_resolution entry resolved prefixTarget)) as Hok.
  { destruct Hr as [(-> & Hk & final & _ & -> & Hw)|(Hne & _ & Hl)]; [left|right]; split_and!; try done; [by exists final|by right|by apply Hallow]. }
  split_and!; [done|split| |].
  - intros x e. destruct (decide (x = name)) as [->|Hne]; [rewrite lookup_insert_eq|rewrite lookup_insert_ne by done]; intros Hx Hxt Hxp;
      (eapply goes_out_shape; [exact Hshape|]); [|by apply (Hout x e)]. injection Hx as <-. by destruct Hok as [[? _]|(_ & ? & _)].
  - intros x e. destruct (decide (x = name)) as [->|Hne]; [|rewrite lookup_insert_ne by done; apply Hm].
    rewrite lookup_insert_eq. intros [= <-] _. by split.
  - intros x [Hne|(e & Hx & Hne)]; [by rewrite lookup_insert_ne|]. rewrite lookup_insert_ne; [done|]. intros ->. congruence.
  - intros e. rewrite lookup_insert_eq. intros [= <-] _. by eapply symlink_ok_shape.
Qed.

Lemma resolve_symlinks_ok m m' paths :
  all_entries external_ok m → foldM_res (resolve_symlink expected limits) m paths = Ok m' →
  same_shape m m' ∧ (∀ x e, m !! x = Some e → ie_Type e ≠ EntrySymlink → m' !! x = Some e) ∧
  ∀ name e, name ∈ paths → m' !! name = Some e → ie_Type e = EntrySymlink → symlink_ok m' name e.
Proof.
  intros Hm%external_resolving Hf.
  apply (foldM_res_inv (λ done m1, same_shape m m1 ∧ resolving m1 ∧
    (∀ x e, m !! x = Some e → ie_Type e ≠ EntrySymlink → m1 !! x = Some e) ∧
    ∀ name e, name ∈ done → m1 !! name = Some e → ie_Type e = EntrySymlink → symlink_ok m1 name e)) in Hf.
  - naive_solver.
  - split_and!; [done..|set_solver].
  - intros done x m1 m2 (Hs & Hx & Hkeep & Hok) _ Hstep. destruct (resolve_symlink_step m1 m2 x Hx Hstep) as (Hs' & Hx' & Hkeep' & Hok').
    split_and!; [by etrans|done| |].
    + intros y e Hy Hne. rewrite Hkeep'; [by apply Hkeep|]. right. exists e. split; [by apply Hkeep|done].
    + intros name e Hname He Ht. apply elem_of_app in Hname as [Hname|Hname]; [|apply list_elem_of_singleton in Hname as ->; by apply Hok'].
      destruct (decide (name = x)) as [->|Hne]; [by apply Hok'|]. eapply symlink_ok_shape; [exact Hs'|]. apply Hok; [done| |done].
      rewrite <-He. symmetry. apply Hkeep'. by left.
Qed.

(** ** Hard links *)

Definition regular_entry (m : entries) (name : string) : Prop := ∃ e, m !! name = Some e ∧ ie_Type e = EntryRegular.

Definition memo_ok (m : entries) (hardResolved : gmap string string) : Prop :=
  ∀ name target, hardResolved !! name = Some target → regular_entry m target.

Lemma memo_insert m memo name target : memo_ok m memo → regular_entry m target → memo_ok m (<[name := target]> memo).
Proof. intros Hm Ht x t [[<- <-]|[_ Hx]]%lookup_insert_Some; [done|]. by eapply Hm. Qed.

Lemma resolveHardlink_ok fuel m memo visiting name owner depth target memo' :
  memo_ok m memo → resolveHardlink expected limits fuel m memo visiting name owner depth = Ok (target, memo') →
  regular_entry m target ∧ memo_ok m memo'.
Proof.
  revert memo visiting name depth target memo'. induction fuel as [|fuel IH]; intros memo visiting name depth target memo' Hm;
    cbn [resolveHardlink]; [done|].
  destruct (_ <? _); [done|]. destruct (memo !! name) as [t|] eqn:Hmemo; [intros [= <- <-]; split; [by eapply Hm|done]|].
  intros ([] & _ & H)%bind_ok. apply bind_ok in H as (entry & He & H). destruct (m !! name) as [e|] eqn:Hname; [|done]. injection He as ->.
  destruct (ie_Type entry) eqn:Ht; try done.
  - injection H as <- <-. assert (regular_entry m name) by (by exists entry). split; [done|]. by apply memo_insert.
  - apply bind_ok in H as ([p x] & _ & H). apply bind_ok in H as ([] & _ & H). apply bind_ok in H as ([t memo1] & Hr & [= <- <-]).
    apply IH in Hr as [? ?]; [|done]. split; [done|]. by apply memo_insert.
Qed.

Lemma resolveHardlink_errors fuel m memo visiting name owner depth :
  lm_MaxDepth limits + 1 < depth + Z.of_nat fuel → (fuel = 0%nat → depth <= lm_MaxDepth limits + 1) →
  never model_error (resolveHardlink expected limits fuel m memo visiting name owner depth).
Proof.
  revert memo visiting name depth. induction fuel as [|fuel IH]; intros memo visiting name depth Hf Hd; cbn [resolveHardlink].
  { specialize (Hd eq_refl). lia. }
  assert (∀ A, never model_error (reject (A := A) CodeUnsafeLink owner)) as Hr by (intros A e He [= <-]; done).
  destruct (Z.ltb_spec (lm_MaxDepth limits) depth); [apply Hr|]. destruct (memo !! name); [apply never_ok|].
  apply never_bind; [apply never_check; by intros []|intros _]. apply never_bind; [destruct (m !! name); [apply never_ok|apply Hr]|intros entry].
  destruct (ie_Type entry); try apply Hr; [apply never_ok|].
  apply never_bind; [apply resolvePath_errors|intros [p x]]. apply never_bind; [apply never_check; by intros []|intros _].
  apply never_bind; [|intros [t memo']; apply never_ok]. apply IH; [lia|]. lia.
Qed.

Lemma regular_shape m m' name : same_shape m m' → regular_entry m name → regular_entry m' name.
Proof.
  intros Hs (e & He & Ht). destruct (same_shape_lookup _ _ _ _ Hs He) as (e' & He' & Hsh). exists e'. split; [done|].
  injection Hsh as _ _ Hsh _ _. congruence.
Qed.

Lemma resolve_hardlink_step m memo name m' memo' :
  memo_ok m memo → resolve_hardlink_entry expected limits (m, memo) name = Ok (m', memo') →
  same_shape m m' ∧ memo_ok m' memo' ∧ (∀ x, x ≠ name ∨ (∃ e, m !! x = Some e ∧ ie_Type e ≠ EntryHardlink) → m' !! x = m !! x) ∧
  ∀ e, m' !! name = Some e → ie_Type e = EntryHardlink → hardlink_ok m' e.
Proof.
  intros Hm. unfold resolve_hardlink_entry. destruct (m !! name) as [entry|] eqn:He.
  2: { intros [= <- <-]. by split_and!; [|done| |congruence]. }
  case_bool_decide as Ht; cbn [negb].
  2: { intros [= <- <-]. split_and!; [done..|]. intros e He'. rewrite He in He'. injection He' as <-. done. }
  intros ([p x] & _ & H)%bind_ok. apply bind_ok in H as ([] & _ & H). apply bind_ok in H as ([target memo1] & Hr & H).
  apply bind_ok in H as (te & Hte & [= <- <-]). destruct (m !! target) as [te'|] eqn:Htarget; [|done]. injection Hte as ->.
  apply resolveHardlink_ok in Hr as [(te' & Hte' & Hreg) Hmemo]; [|done]. rewrite Htarget in Hte'. injection Hte' as <-.
  assert (same_shape m (<[name := share_target entry te target]> m)) as Hshape by (by eapply same_shape_insert).
  assert (target ≠ name) as Hne by (intros ->; congruence). split_and!; [done| | |].
  - intros y t Hy. eapply regular_shape; [exact Hshape|]. by eapply Hmemo.
  - intros y [Hy|(e & Hy & Hyt)]; [by rewrite lookup_insert_ne|]. rewrite lookup_insert_ne; [done|]. intros ->. congruence.
  - intros e. rewrite lookup_insert_eq. intros [= <-] _. exists te. cbn. by rewrite lookup_insert_ne.
Qed.

Lemma resolve_hardlinks_ok m m' memo' paths :
  foldM_res (resolve_hardlink_entry expected limits) (m, ∅) paths = Ok (m', memo') →
  same_shape m m' ∧ (∀ x e, m !! x = Some e → ie_Type e ≠ EntryHardlink → m' !! x = Some e) ∧
  ∀ name e, name ∈ paths → m' !! name = Some e → ie_Type e = EntryHardlink → hardlink_ok m' e.
Proof.
  intros Hf.
  apply (foldM_res_inv (λ done st, same_shape m st.1 ∧ memo_ok st.1 st.2 ∧
    (∀ x e, m !! x = Some e → ie_Type e ≠ EntryHardlink → st.1 !! x = Some e) ∧
    ∀ name e, name ∈ done → st.1 !! name = Some e → ie_Type e = EntryHardlink → hardlink_ok st.1 e)) in Hf.
  - cbn in Hf. naive_solver.
  - cbn. split_and!; [done|by intros ? ?|done|set_solver].
  - intros done x [m1 memo1] [m2 memo2] (Hs & Hx & Hkeep & Hok) _ Hstep. cbn in *.
    destruct (resolve_hardlink_step m1 memo1 x m2 memo2 Hx Hstep) as (Hs' & Hx' & Hkeep' & Hok'). split_and!; [by etrans|done| |].
    + intros y e Hy Hne. rewrite Hkeep'; [by apply Hkeep|]. right. exists e. split; [by apply Hkeep|done].
    + intros name e Hname He Ht. destruct (decide (name = x)) as [->|Hne]; [by apply Hok'|].
      apply elem_of_app in Hname as [Hname|Hname]; [|set_solver]. rewrite Hkeep' in He by (by left).
      destruct (Hok name e Hname He Ht) as (t & Ht1 & Ht2 & Hrest). exists t. rewrite Hkeep'; [done|]. right. exists t. split; [done|]. congruence.
Qed.

(** ** The whole function *)

(** A tree that can be unpacked: only directories have entries below them, every
    symbolic link stays in the keg or goes where the policy allows, every hard
    link shares a regular file. *)
Record safe_tree (m : entries) : Prop := {
  st_parents name e parent p :
    m !! name = Some e → parent ∈ path_ancestors name → m !! parent = Some p → ie_Type p = EntryDirectory;
  st_symlinks name e : m !! name = Some e → ie_Type e = EntrySymlink → symlink_ok m name e;
  st_hardlinks name e : m !! name = Some e → ie_Type e = EntryHardlink → hardlink_ok m e;
}.

Lemma elem_of_sorted_paths m name : name ∈ sorted_paths m ↔ is_Some (m !! name).
Proof.
  unfold sorted_paths. rewrite elem_of_slices_Sort, list_elem_of_fmap. split.
  - intros ([x e] & -> & H%elem_of_map_to_list). by exists e.
  - intros [e He]. exists (name, e). split; [done|]. by apply elem_of_map_to_list.
Qed.

Lemma validate_collisions_ok m :
  validate_collisions m = Ok tt → ∀ name e parent p,
  m !! name = Some e → parent ∈ path_ancestors name → m !! parent = Some p → ie_Type p = EntryDirectory.
Proof.
  intros Hf name e parent p He Hpar Hp.
  assert (∀ x, x ∈ sorted_paths m → ancestor_collision m x = false) as Hall.
  { refine (foldM_res_inv (λ visited _, ∀ x, x ∈ visited → ancestor_collision m x = false) _ _ _ _ _ _ Hf); [set_solver|].
    intros l x [] [] Hl _ Hx%check_ok y [Hy|Hy]%elem_of_app; [by apply Hl|]. by apply list_elem_of_singleton in Hy as ->. }
  assert (name ∈ sorted_paths m) as Hin by (apply elem_of_sorted_paths; by exists e).
  pose proof (Hall name Hin) as Hc. unfold ancestor_collision in Hc. apply not_true_iff_false in Hc.
  destruct (decide (ie_Type p = EntryDirectory)) as [|Hne]; [done|]. exfalso. apply Hc, existsb_exists. exists parent.
  split; [by apply list_elem_of_In|]. rewrite Hp. unfold is_directory. by rewrite bool_decide_eq_false_2.
Qed.

Lemma validateCollisionsAndHardlinks_ok m m' :
  all_entries external_ok m → validateCollisionsAndHardlinks expected limits m = Ok m' →
  same_shape m m' ∧ safe_tree m' ∧
  ∀ name e, m !! name = Some e → ie_Type e = EntryRegular ∨ ie_Type e = EntryDirectory → m' !! name = Some e.
Proof.
  intros Hm. unfold validateCollisionsAndHardlinks. intros ([] & Hc & H)%bind_ok. apply bind_ok in H as (m1 & H1 & H).
  apply bind_ok in H as ([m2 memo] & H2 & [= <-]).
  destruct (resolve_symlinks_ok _ _ _ Hm H1) as (Hs1 & Hk1 & Ho1). destruct (resolve_hardlinks_ok _ _ _ _ H2) as (Hs2 & Hk2 & Ho2).
  assert (same_shape m m2) as Hs by (by etrans).
  assert (∀ name e, m2 !! name = Some e → name ∈ sorted_paths m) as Hin.
  { intros name e He. apply elem_of_sorted_paths. destruct (same_shape_lookup_r _ _ _ _ Hs He) as (e' & ? & _). by exists e'. }
  split_and!; [done| |].
  - split.
    + intros name e parent p He Hpar Hp. destruct (same_shape_lookup_r _ _ _ _ Hs He) as (e0 & He0 & _).
      destruct (same_shape_lookup_r _ _ _ _ Hs Hp) as (p0 & Hp0 & Hsh). injection Hsh as _ _ Ht _ _. rewrite <-Ht. exact (validate_collisions_ok m Hc name e0 parent p0 He0 Hpar Hp0).
    + intros name e He Ht. eapply symlink_ok_shape; [exact Hs2|]. apply Ho1; [by eapply Hin| |done].
      destruct (same_shape_lookup_r _ _ _ _ Hs2 He) as (e1 & He1 & Hsh). injection Hsh as _ _ Ht1 _ _. rewrite (Hk2 name e1) in He; [congruence|done|congruence].
    + intros name e He Ht. eapply Ho2; [by eapply Hin|done|done].
  - intros name e He Ht. apply Hk2; [apply Hk1; [done|]|]; intros Hne; rewrite Hne in Ht; by destruct Ht.
Qed.

(** What both resolutions keep of an entry holds of every entry in the end. *)
Lemma links_keep (P : InventoryEntry → Prop) m m' :
  (∀ e resolved prefixTarget, P e → P (with_resolution e resolved prefixTarget)) →
  (∀ e t resolved, P e → P t → P (share_target e t resolved)) →
  all_entries (λ _, P) m → validateCollisionsAndHardlinks expected limits m = Ok m' → all_entries (λ _, P) m'.
Proof.
  intros Hsym Hhard Hm. unfold validateCollisionsAndHardlinks. intros ([] & _ & H)%bind_ok. apply bind_ok in H as (m1 & H1 & H).
  apply bind_ok in H as ([m2 memo] & H2 & [= <-]).
  assert (∀ m name e, all_entries (λ _, P) m → P e → all_entries (λ _, P) (<[name := e]> m)) as Hins.
  { intros n name e Hn He x y [[_ <-]|[_ Hx]]%lookup_insert_Some; [done|]. by eapply Hn. }
  assert (all_entries (λ _, P) m1) as Hm1.
  { refine (foldM_res_inv (λ _ m, all_entries (λ _, P) m) _ _ _ _ _ _ H1); [done|]. intros _ x n n' Hn _. unfold resolve_symlink.
    destruct (n !! x) as [e|] eqn:He; [|by intros [= <-]]. destruct (_ || _); [by intros [= <-]|].
    intros ([r p] & _ & H)%bind_ok. apply bind_ok in H as ([] & _ & [= <-]). apply Hins; [done|]. eapply Hsym, Hn, He. }
  refine (foldM_res_inv (λ _ st, all_entries (λ _, P) st.1) _ _ _ _ _ _ H2); [done|]. intros _ x [n mm] [n' mm'] Hn _. cbn in *.
  destruct (n !! x) as [e|] eqn:He; [|by intros [= <- <-]]. destruct (negb _); [by intros [= <- <-]|].
  intros ([r p] & _ & H)%bind_ok. apply bind_ok in H as ([] & _ & H). apply bind_ok in H as ([t mt] & _ & H).
  apply bind_ok in H as (te & Hte & [= <- <-]). destruct (n !! t) as [te'|] eqn:Ht; [|done]. injection Hte as ->.
  apply Hins; [done|]. apply Hhard; [by eapply Hn|]. eapply Hn, Ht.
Qed.


Lemma hardlink_entry_errors m memo name : memo_ok m memo → never model_error (resolve_hardlink_entry expected limits (m, memo) name).
Proof.
  intros Hm. unfold resolve_hardlink_entry. destruct (m !! name) as [entry|]; [|apply never_ok]. destruct (negb _); [apply never_ok|].
  apply never_bind; [apply resolvePath_errors|intros [p x]]. apply never_bind; [apply never_check; by intros []|intros _].
  destruct (resolveHardlink expected limits (hardlink_fuel limits) m memo ∅ p name 1) as [[target memo']|e] eqn:Hr.
  - apply resolveHardlink_ok in Hr as [(te & Hte & _) _]; [|done]. cbn. rewrite Hte. apply never_ok.
  - cbn. intros e' He' [= ->]. eapply resolveHardlink_errors; [| |exact He'|exact Hr]; unfold hardlink_fuel; lia.
Qed.

(** following the links of any archive ends: neither a cycle of symbolic
    links, nor of hard links, nor links that grow as they are followed, can keep
    the loops going, and the file a hard link ends at is always there. Every
    failure is a collision or an unsafe link. *)
Theorem validateCollisionsAndHardlinks_total m e :
  validateCollisionsAndHardlinks expected limits m = Err e → ve_Code e = CodePathCollision ∨ ve_Code e = CodeUnsafeLink.
Proof.
  intros He. assert (never model_error (validateCollisionsAndHardlinks expected limits m)) as H.
  2: { specialize (H e). unfold model_error in H. destruct (ve_Code e); auto; exfalso; by apply H. }
  unfold validateCollisionsAndHardlinks. apply never_bind; [apply never_foldM; intros _ x; apply never_check; by intros []|intros _].
  apply never_bind; [apply never_foldM; intros m1 x|intros m1].
  - unfold resolve_symlink. destruct (m1 !! x) as [entry|]; [|apply never_ok]. destruct (_ || _); [apply never_ok|].
    apply never_bind; [apply resolvePath_errors|intros [p q]]. apply never_bind; [apply never_check; by intros []|intros _; apply never_ok].
  - apply never_bind; [|intros [? ?]; apply never_ok]. intros e' He' (l1 & x & l2 & [m2 memo] & Hl & Hf & Hx)%foldM_res_err.
    eapply hardlink_entry_errors; [|exact He'|exact Hx].
    refine (foldM_res_inv (λ _ st, memo_ok st.1 st.2) _ _ _ _ _ _ Hf); [by intros ? ?|].
    intros visited y [m3 memo3] [m4 memo4] Hm _ Hstep. by eapply resolve_hardlink_step.
Qed.

End links.

(** ** An example *)

Module example_links.

Definition expected : Expectation :=
  MkExpectation "jq" "homebrew/core/jq" "1.7" 0 "1.7" 0 0 "x86_64_linux" "" 1 "" "" "" "" "homebrew/core" [] "" ["oniguruma"] [].

Definition entry (path : string) (t : EntryType) (symlink hardlink : string) : InventoryEntry :=
  MkInventoryEntry path path t 420 3 "sha256:ab" symlink hardlink "" "" 0 0 [] false.

Definition index (l : list InventoryEntry) : entries := list_to_map ((λ e, (ie_Path e, e)) <$> l).

(** A link to a dependency *)
Definition outside : InventoryEntry :=
  MkInventoryEntry "jq/1.7/libexec/lib" "jq/1.7/libexec/lib" EntrySymlink 420 0 "" "../../../../opt/oniguruma/lib" "" "" "opt/oniguruma/lib" 0 0 [] false.

(** A directory, a file, a link to the directory, one through it, a hard link, the
    link to a dependency and a link to that one *)
Definition archive : entries := index
  [entry "jq/1.7/bin" EntryDirectory "" ""; entry "jq/1.7/bin/jq" EntryRegular "" "";
   entry "jq/1.7/sbin" EntrySymlink "bin" ""; entry "jq/1.7/bin/jq2" EntrySymlink "../sbin/./jq" "";
   entry "jq/1.7/bin/jq3" EntryHardlink "" "jq/1.7/bin/jq"; outside; entry "jq/1.7/libexec/onig" EntrySymlink "../libexec/lib" ""].

(** Two links that lead to each other *)
Definition cycle : entries := index [entry "jq/1.7/a" EntrySymlink "b" ""; entry "jq/1.7/b" EntrySymlink "a" ""].

Definition linked : entries := default ∅ (match validateCollisionsAndHardlinks expected DefaultLimits archive with Ok m => Some m | Err _ => None end).

Lemma archive_accepted : validateCollisionsAndHardlinks expected DefaultLimits archive = Ok linked.
Proof. vm_compute. reflexivity. Qed.

Lemma all_index (P : string → InventoryEntry → Prop) l : Forall (λ e, P (ie_Path e) e) l → all_entries P (index l).
Proof.
  intros Hl name e He%elem_of_list_to_map_2. apply list_elem_of_fmap in He as (e' & [= -> ->] & Hin). by eapply Forall_forall in Hl.
Qed.

Lemma archive_external : all_entries (external_ok expected) archive.
Proof.
  assert (points_out (ie_Path outside) (ie_SymlinkTarget outside) (ie_PrefixTarget outside)) as Hout
    by (exists ["opt"; "oniguruma"; "lib"]; split_and!; [reflexivity|repeat constructor|reflexivity]).
  apply all_index. repeat (apply List.Forall_cons || apply List.Forall_nil); intros Ht; try discriminate Ht;
    (split; [apply (bool_decide_unpack _); vm_compute; exact I|intros Hp]); try (by destruct Hp). split; [exact Hout|vm_compute; reflexivity].
Qed.

End example_links.


Lemma validateCollisionsAndHardlinks_total_witness :
  validateCollisionsAndHardlinks example_links.expected DefaultLimits example_links.cycle = reject CodeUnsafeLink "jq/1.7/a" ∧
  (CodeUnsafeLink = CodePathCollision ∨ CodeUnsafeLink = CodeUnsafeLink).
Proof.
  split; [vm_compute; reflexivity|].
  refine (validateCollisionsAndHardlinks_total example_links.expected DefaultLimits example_links.cycle
    (MkVerificationError CodeUnsafeLink "jq/1.7/a") _).
  vm_compute. reflexivity.
Defined.
