(* ===== verification/BottleVerify.v ===== *)
(** * internal/bottle: verification of a bottle

    The rest of [verify.go] and [formula.go]: what is expected of a bottle, the
    compressed bytes, the scan of the archive, the embedded Formula, the
    inventory and its digest. The gzip and tar readers are an interface: what
    they read from the stream in every call, the headers and the payloads they
    give and how they fail are arbitrary, so that the theorems hold for every
    archive. The files of the temporary directory may fail at every call. *)

From S2P Require Import Prelude GoStrings Regex Version ClosureGraph BottleStreams BottleHeader BottleLinks.
From stdpp Require Import options.
Local Open Scope Z_scope.

(** ** The archive as the readers of gzip and tar give it *)

(** One [tr.Next] and the [io.Copy] that may follow it: the reads they make
    through the counting reader, the header, the chunks of the payload *)
Record tar_item := MkTarItem {
  ti_next : list bytes; ti_header : Header; ti_copy : list bytes; ti_payload : list bytes; ti_copy_fails : bool;
}.

(** [buffered.ReadByte] after the gzip member *)
Inductive after_member := AfterByte | AfterEOF | AfterError.

Record archive_session := MkArchive {
  as_metadata : Z; as_items : list tar_item; as_final : list bytes; as_eof : bool; as_padding : list bytes; as_trailer_ok : bool;
  as_close_ok : bool; as_after : after_member;
}.

Class BottleLib := {
  (** the encoded SHA-256 *)
  hex_sha256 : bytes → string;
  (** [gzip.NewReader] and, through a budget, [tar.NewReader] *)
  open_archive : Z → bytes → option archive_session;
  (** [json.Marshal] of an inventory *)
  marshal_inventory : list InventoryEntry → option bytes;
}.

(** ** What is expected *)

Definition safeFormulaName : regex :=
  RCat (RCls (λ c, isLower c || isDigit c)) (RStar (RCls (λ c, isLower c || isDigit c || one_of "+_.@-" c))).

Definition bad_text (value : string) : bool := negb (utf8_ValidString value) || containsControl value.

Definition validateComponent (value : string) : bool :=
  negb (bool_decide (value = "") || bool_decide (value = ".") || bool_decide (value = "..") || strings_ContainsAny value "/\"
        || bad_text value).

Definition tapFromFullName (fullName : string) : string :=
  let parts := strings_Split fullName "/" in
  if (3 <=? length parts)%nat then strings_Join "/" (take (length parts - 1) parts) else "".

(** [index > 0 && l[index-1] == l[index]] for some index *)
Fixpoint adjacent_equal (l : list string) : bool :=
  match l with
  | a :: (b :: _) as l' => bool_decide (a = b) || adjacent_equal l'
  | _ => false
  end.

Definition invalid_dependency (dep : ReceiptDependency) : bool :=
  bool_decide (rd_FullName dep = "") || bool_decide (rd_Version dep = "") || bool_decide (rd_PkgVersion dep = "")
  || bad_text (rd_FullName dep) || bad_text (rd_Version dep) || bad_text (rd_PkgVersion dep)
  || (rd_Revision dep <? 0) || (rd_BottleRebuild dep <? 0).

Fixpoint bad_dependencies (seen : gset string) (deps : list ReceiptDependency) : bool :=
  match deps with
  | [] => false
  | dep :: deps =>
      invalid_dependency dep || bool_decide (rd_FullName dep ∈ seen) || bad_dependencies ({[rd_FullName dep]} ∪ seen) deps
  end.

Definition int64_max : Z := 2 ^ 63 - 1.

Definition validateLimits (l : Limits) : bool :=
  negb ((lm_MaxCompressedBytes l =? int64_max) || (lm_MaxExpandedBytes l =? int64_max))
  && forallb (λ v, 0 <? v)
       [lm_MaxCompressedBytes l; lm_MaxExpandedBytes l; lm_MaxFileBytes l; lm_MaxMetadataBytes l; lm_MaxTarPaddingBytes l;
        lm_MaxXattrBytes l; lm_MaxFormulaBytes l; lm_MaxReceiptBytes l]
  && forallb (λ v, 0 <? v)
       [lm_MaxFiles l; lm_MaxDepth l; lm_MaxPathBytes l; lm_MaxLinkBytes l; lm_MaxPAXRecords l; lm_MaxXattrs l].

Definition or_default (v d : Z) : Z := if v =? 0 then d else v.

Definition withDefaults (l : Limits) : Limits :=
  let d := DefaultLimits in
  MkLimits (or_default (lm_MaxCompressedBytes l) (lm_MaxCompressedBytes d)) (or_default (lm_MaxExpandedBytes l) (lm_MaxExpandedBytes d))
    (or_default (lm_MaxFiles l) (lm_MaxFiles d)) (or_default (lm_MaxDepth l) (lm_MaxDepth d))
    (or_default (lm_MaxFileBytes l) (lm_MaxFileBytes d)) (or_default (lm_MaxMetadataBytes l) (lm_MaxMetadataBytes d))
    (or_default (lm_MaxTarPaddingBytes l) (lm_MaxTarPaddingBytes d)) (or_default (lm_MaxPathBytes l) (lm_MaxPathBytes d))
    (or_default (lm_MaxLinkBytes l) (lm_MaxLinkBytes d)) (or_default (lm_MaxPAXRecords l) (lm_MaxPAXRecords d))
    (or_default (lm_MaxXattrs l) (lm_MaxXattrs d)) (or_default (lm_MaxXattrBytes l) (lm_MaxXattrBytes d))
    (or_default (lm_MaxFormulaBytes l) (lm_MaxFormulaBytes d)) (or_default (lm_MaxReceiptBytes l) (lm_MaxReceiptBytes d)).

Section expectation.
Context `{U : !UnicodeTables}.

Definition normalizeSHA256 (value : string) (requireAlgorithm : bool) : option string :=
  if negb (bool_decide (strings_TrimSpace value = value)) || bool_decide (value = "") then None
  else
    hexValue ← (if strings_Contains value ":" then
                  let '(algorithm, encoded, ok) := strings_Cut value ":" in
                  if negb ok || negb (bool_decide (algorithm = "sha256")) then None else Some encoded
                else if requireAlgorithm then None else Some value);
    if negb (strlen hexValue =? 64) then None
    else if negb (hex_decodable hexValue) then None
    else Some (strings_ToLower hexValue).

Definition unsafe_formula_name (name : string) : bool := negb (matches safeFormulaName name) || strings_ContainsAny name "/\".

(** The checks before the digests are normalized *)
Definition invalid_numbers (e : Expectation) (limits : Limits) : bool :=
  (ex_FormulaRevision e <? 0) || (ex_VersionScheme e <? 0) || (ex_BottleRebuild e <? 0) || (ex_CompressedSize e <=? 0)
  || (lm_MaxCompressedBytes limits <? ex_CompressedSize e).

Definition slash_padded (value : string) : bool := strings_HasPrefix value "/" || strings_HasSuffix value "/".

Definition invalid_full_name (fullName name identity : string) : bool :=
  bad_text fullName || slash_padded fullName
  || negb (bool_decide (List.last (strings_Split fullName "/") "" = name))
  || negb (forallb proper_component (strings_Split fullName "/"))
  || (negb (bool_decide (identity = "")) && negb (bool_decide (identity = fullName))).

(** The tap as it is given, taken from the full name, or homebrew/core *)
Definition expected_tap (given fullName : string) : string :=
  let tap := if bool_decide (given = "") then tapFromFullName fullName else given in
  if bool_decide (tap = "") then "homebrew/core" else tap.

Definition invalid_tap (tap fullName name : string) : bool :=
  bad_text tap || slash_padded tap
  || ((1 <? length (strings_Split fullName "/"))%nat && negb (bool_decide (tap +:+ "/" +:+ name = fullName))).

Definition invalid_platform (e : Expectation) : bool :=
  (negb (bool_decide (ex_BottleTag e = "")) && negb (validateComponent (ex_BottleTag e)))
  || existsb (λ value, negb (bool_decide (value = "")) && bad_text value) [ex_HomebrewVersion e; ex_Arch e; ex_Compiler e].

Definition invalid_symlink_formulae (formulae : list string) (name : string) : bool :=
  existsb (λ formula, unsafe_formula_name formula || bool_decide (formula = name)) formulae || adjacent_equal formulae.

(** The rules, sorted; the certifi rule only for the Formula it is meant for *)
Definition invalid_symlink_rules (rules formulae : list string) (name fullName : string) : bool :=
  existsb (λ rule, negb (bool_decide (rule = ExternalSymlinkRuleCertifiSharedCA))) rules || adjacent_equal rules
  || (bool_decide (ExternalSymlinkRuleCertifiSharedCA ∈ rules)
      && (negb (bool_decide (name = "certifi")) || negb (bool_decide (fullName = "homebrew/core/certifi"))
          || negb (bool_decide ("ca-certificates" ∈ formulae)))).

Definition normalizeExpectation (e : Expectation) (limits : Limits) : option Expectation :=
  if unsafe_formula_name (ex_Name e) || negb (validateComponent (ex_PkgVersion e))
     || bool_decide (ex_FormulaVersion e = "") || bad_text (ex_FormulaVersion e) || invalid_numbers e limits then None
  else
    oci ← normalizeSHA256 (ex_CompressedSHA256 e) true;
    homebrew ← normalizeSHA256 (ex_HomebrewSHA256 e) false;
    let fullName := if bool_decide (ex_FullName e = "") then ex_Name e else ex_FullName e in
    let tap := expected_tap (ex_ExpectedTap e) fullName in
    let formulae := slices_Sort (ex_AllowedExternalSymlinkFormulae e) in
    let rules := slices_Sort (ex_AllowedExternalSymlinkRules e) in
    if invalid_full_name fullName (ex_Name e) (ex_FormulaIdentity e) || invalid_tap tap fullName (ex_Name e) || invalid_platform e
       || invalid_symlink_formulae formulae (ex_Name e) || invalid_symlink_rules rules formulae (ex_Name e) fullName
       || bad_dependencies ∅ (ex_Dependencies e) then None
    else
      Some (MkExpectation (ex_Name e) fullName (ex_FormulaVersion e) (ex_FormulaRevision e) (ex_PkgVersion e) (ex_VersionScheme e)
              (ex_BottleRebuild e) (ex_BottleTag e) ("sha256:" +:+ oci) (ex_CompressedSize e) homebrew (ex_HomebrewVersion e)
              (ex_Arch e) (ex_Compiler e) tap (ex_Dependencies e) (ex_FormulaIdentity e) formulae rules).

End expectation.

(** ** The embedded Formula *)

Definition digitWord (value : ascii) : option string :=
  if byte_in 48 57 value then
    ["Zero"; "One"; "Two"; "Three"; "Four"; "Five"; "Six"; "Seven"; "Eight"; "Nine"] !! Z.to_nat (byte value - 48)
  else None.

Definition upper_byte (c : ascii) : ascii := if isLower c then char_of (byte c - 32) else c.

(** [strings.ToUpper] of one byte: a byte that is no character by itself becomes
    the replacement character. *)
Definition ToUpper_byte (c : ascii) : string := if byte c <? 128 then String (upper_byte c) "" else utf8_encode RuneError.

Definition class_separator (c : ascii) : bool := bool_decide (c ∈ ["-"; "_"; "."; " "; "009"; "010"; "013"]%char).

(** The loop that writes the name: separators are dropped and capitalize what follows. *)
Fixpoint class_bytes (capitalizeNext : bool) (s : string) : string :=
  match s with
  | EmptyString => ""
  | String c s =>
      if class_separator c then class_bytes true s
      else
        let hit := capitalizeNext && (isLower c || isDigit c) in
        let c := if hit then upper_byte c else c in
        let c := if ascii_eqb c "+" then "x"%char else c in
        String c (class_bytes (capitalizeNext && negb hit) s)
  end.

(** The first "@" after the first byte that a digit follows *)
Fixpoint replace_at (s : string) : string :=
  match s with
  | String c ((String d _) as s') => if ascii_eqb c "@" && isDigit d then "AT" +:+ s' else String c (replace_at s')
  | _ => s
  end.

Definition blank (c : ascii) : bool := bool_decide (c = " "%char) || bool_decide (c = "009"%char).

Fixpoint skip_blanks (s : string) : string :=
  match s with String c s' => if blank c then skip_blanks s' else s | EmptyString => "" end.

(** [strings.CutPrefix] *)
Definition cut_prefix (s p : string) : option string := if strings_HasPrefix s p then Some (strings_TrimPrefix s p) else None.

Definition alphanumeric (c : ascii) : bool := isUpper c || isLower c || isDigit c.

Fixpoint take_alnum (s : string) : string * string :=
  match s with
  | String c s' => if alphanumeric c then let '(word, rest) := take_alnum s' in (String c word, rest) else ("", s)
  | EmptyString => ("", "")
  end.

(** One line against [formulaSubclassPattern]: the pattern starts and ends at the
    ends of a line and matches no line break, so the matches in a text are those
    of its lines. The result is the submatch, the name of the class. *)
Definition subclass_of_line (line : string) : option string :=
  s ← cut_prefix (skip_blanks line) "class";
  match s with
  | String c s =>
      if negb (blank c) then None
      else
        let '(name, s) := take_alnum (skip_blanks s) in
        match name with
        | String first _ =>
            if negb (isUpper first) then None
            else
              s ← cut_prefix (skip_blanks s) "<";
              s ← cut_prefix (skip_blanks s) "Formula";
              let s := skip_blanks s in
              if bool_decide (s = "") || bool_decide (s = String "013" "") || strings_HasPrefix s "#" then Some name else None
        | EmptyString => None
        end
  | EmptyString => None
  end.

Definition newline : ascii := "010".

Definition formula_subclasses (source : string) : list string := omap subclass_of_line (strings_Split source newline).

Inductive formula_error := FormulaEmpty | FormulaNotText | FormulaClasses (n : nat) | FormulaClassMismatch | FormulaNoEnd.

Definition is_end_line (line : string) : bool := bool_decide (strings_TrimSpace (strings_TrimSuffix line (String "013" "")) = "end").

Section formula.
Context `{U : !UnicodeTables}.

Definition formulaClassName (name : string) : string :=
  match strings_ToLower name with
  | EmptyString => ""
  | String c rest =>
      let s := match digitWord c with Some word => word +:+ rest | None => ToUpper_byte c +:+ rest end in
      match class_bytes false s with
      | String c s => String c (replace_at s)
      | EmptyString => ""
      end
  end.

Definition validateFormulaSource (name : string) (source : bytes) : result formula_error string :=
  let text := String.string_of_list_ascii source in
  _ ← check (bool_decide (source = [])) FormulaEmpty;
  _ ← check (negb (utf8_ValidString text) || strings_Contains text zero_byte) FormulaNotText;
  match formula_subclasses text with
  | [actual] =>
      _ ← check (negb (bool_decide (actual = formulaClassName name))) FormulaClassMismatch;
      _ ← check (negb (existsb is_end_line (strings_Split text newline))) FormulaNoEnd;
      Ok actual
  | l => Err (FormulaClasses (length l))
  end.

End formula.

(** ** Scanning the archive *)

Definition with_payload (e : InventoryEntry) (sha256 : string) (relocatable : bool) : InventoryEntry :=
  MkInventoryEntry (ie_Path e) (ie_KegPath e) (ie_Type e) (ie_Mode e) (ie_Size e) sha256 (ie_SymlinkTarget e) (ie_HardlinkTarget e)
    (ie_ResolvedTarget e) (ie_PrefixTarget e) (ie_UID e) (ie_GID e) (ie_Xattrs e) relocatable.

(** The state of the loop. [ordered] holds pointers into [entries], here the
    paths; so do [formula] and [receipt], with what was captured. *)
Record scan_state := MkScan {
  sc_tar : countingTailReader; sc_entries : entries; sc_ordered : list string; sc_expanded : Z; sc_formula : option (string * bytes);
  sc_receipt : option (string * bytes);
}.

Definition start_scan : scan_state := MkScan (newCountingTailReader (2 * tarBlockSize)) ∅ [] 0 None None.

(** What a scan gives: the inventory, the size, the Formula and the receipt *)
Record scan_result := MkScanResult {
  sr_inventory : list InventoryEntry; sr_expanded : Z; sr_formula : option (InventoryEntry * bytes);
  sr_receipt : option (InventoryEntry * bytes);
}.

Section scan.
Context `{U : !UnicodeTables, L : !BottleLib} (expected : Expectation) (limits : Limits).

Definition over_budget (tar : countingTailReader) : bool := lm_MaxExpandedBytes limits <? Z.of_nat (tr_count tar).

Definition is_formula (path : string) : bool := bool_decide (path = expectedFormulaPath expected).
Definition is_receipt (path : string) : bool := negb (is_formula path) && bool_decide (path = expectedReceiptPath expected).

(** A regular file: its size within the limits, then its payload hashed, searched and perhaps captured *)
Definition scan_payload (st : scan_state) (tar : countingTailReader) (it : tar_item) (entry : InventoryEntry)
    : result VerificationError scan_state :=
  let path := ie_Path entry in
  let hdr := ti_header it in
  _ ← refuse (lm_MaxFileBytes limits <? th_Size hdr) CodeArchiveLimit path;
  _ ← refuse (lm_MaxExpandedBytes limits - th_Size hdr <? sc_expanded st) CodeArchiveLimit path;
  let expanded := sc_expanded st + th_Size hdr in
  _ ← refuse (is_formula path && (lm_MaxFormulaBytes limits <? th_Size hdr)) CodeArchiveLimit path;
  _ ← refuse (is_receipt path && (lm_MaxReceiptBytes limits <? th_Size hdr)) CodeArchiveLimit path;
  let tar := foldl tail_Read tar (ti_copy it) in
  let payload := concat (ti_payload it) in
  let detector := foldl placeholderDetector_Write new_detector (ti_payload it) in
  _ ← refuse (over_budget tar) CodeArchiveLimit path;
  _ ← refuse (ti_copy_fails it) CodeInvalidTar path;
  _ ← refuse (negb (Z.of_nat (length payload) =? th_Size hdr)) CodeInvalidTar path;
  let entry := with_payload entry ("sha256:" +:+ hex_sha256 payload) (pd_found detector) in
  Ok (MkScan tar (<[path := entry]> (sc_entries st)) (sc_ordered st ++ [path]) expanded
        (if is_formula path then Some (path, payload) else sc_formula st)
        (if is_receipt path then Some (path, payload) else sc_receipt st)).

Definition scan_item (st : scan_state) (it : tar_item) : result VerificationError scan_state :=
  let tar := foldl tail_Read (sc_tar st) (ti_next it) in
  let hdr := ti_header it in
  _ ← refuse (over_budget tar) CodeArchiveLimit "";
  _ ← refuse (lm_MaxFiles limits <=? Z.of_nat (length (sc_ordered st))) CodeArchiveLimit (th_Name hdr);
  rawHeader ← require (tail_last tar tarBlockSize) CodeInvalidTar (th_Name hdr);
  entry ← validateHeader hdr rawHeader expected limits;
  let path := ie_Path entry in
  _ ← refuse (bool_decide (is_Some (sc_entries st !! path))) CodePathCollision path;
  if is_regular (ie_Type entry) then scan_payload st tar it entry
  else Ok (MkScan tar (<[path := entry]> (sc_entries st)) (sc_ordered st ++ [path]) (sc_expanded st) (sc_formula st) (sc_receipt st)).

(** The last [tr.Next], which finds the end of the archive *)
Definition scan_end (st : scan_state) (final : list bytes) (eof : bool) : result VerificationError countingTailReader :=
  let tar := foldl tail_Read (sc_tar st) final in
  _ ← refuse (over_budget tar) CodeArchiveLimit "";
  _ ← refuse (negb eof) CodeInvalidTar "";
  let finalNextBytes := (tr_count tar - tr_count (sc_tar st))%nat in
  _ ← refuse ((finalNextBytes <? 2 * tarBlockSize)%nat || (3 * tarBlockSize - 1 <? finalNextBytes)%nat || negb (tailAllZero tar))
        CodeInvalidTar "";
  Ok tar.

(** The zero bytes that may follow the end marker *)
Definition scan_padding (paddingBytes : Z) (chunk : bytes) : result VerificationError Z :=
  let n := Z.of_nat (length chunk) in
  if n =? 0 then Ok paddingBytes
  else
    _ ← refuse (lm_MaxTarPaddingBytes limits - n <? paddingBytes) CodeArchiveLimit "";
    _ ← refuse (negb (forallb (ascii_eqb zero_byte) chunk)) CodeInvalidTar "";
    Ok (paddingBytes + n).

Definition scan_trailer (session : archive_session) : result VerificationError unit :=
  _ ← foldM_res scan_padding 0 (as_padding session);
  _ ← refuse (negb (as_trailer_ok session)) CodeInvalidGzip "";
  _ ← refuse (negb (as_close_ok session)) CodeInvalidGzip "";
  match as_after session with AfterEOF => Ok tt | AfterByte | AfterError => reject CodeInvalidGzip "" end.

(** What a pointer of the scan refers to when it is read *)
Definition captured (m : entries) (pointer : option (string * bytes)) : option (InventoryEntry * bytes) :=
  '(path, data) ← pointer; entry ← m !! path; Some (entry, data).

Definition scanArchive (r : bytes) : result VerificationError scan_result :=
  match boundedGzipStream r (lm_MaxMetadataBytes limits) with
  | Err GzipMetadataLimit => reject CodeArchiveLimit ""
  | Err _ => reject CodeInvalidGzip ""
  | Ok replayed =>
      session ← require (open_archive (lm_MaxExpandedBytes limits + 1) replayed) CodeInvalidGzip "";
      _ ← refuse (lm_MaxMetadataBytes limits <? as_metadata session) CodeArchiveLimit "";
      st ← foldM_res scan_item start_scan (as_items session);
      tar ← scan_end st (as_final session) (as_eof session);
      _ ← scan_trailer session;
      m ← validateCollisionsAndHardlinks expected limits (sc_entries st);
      Ok (MkScanResult (sort_by ie_Path (omap (λ path, m !! path) (sc_ordered st))) (Z.of_nat (tr_count tar))
            (captured m (sc_formula st)) (captured m (sc_receipt st)))
  end.

End scan.

(** ** The inventory *)

Definition xattr_cmp : Xattr → Xattr → Z := cmp_then (cmp_on xa_Name strings_Compare) (cmp_on xa_Value strings_Compare).

Definition with_xattrs (e : InventoryEntry) (xattrs : list Xattr) : InventoryEntry :=
  MkInventoryEntry (ie_Path e) (ie_KegPath e) (ie_Type e) (ie_Mode e) (ie_Size e) (ie_SHA256 e) (ie_SymlinkTarget e)
    (ie_HardlinkTarget e) (ie_ResolvedTarget e) (ie_PrefixTarget e) (ie_UID e) (ie_GID e) xattrs (ie_Relocatable e).

Definition canonical_entry (e : InventoryEntry) : InventoryEntry := with_xattrs e (slices_SortFunc xattr_cmp (ie_Xattrs e)).

Section inventory.
Context `{L : !BottleLib}.

Definition CanonicalInventory (l : list InventoryEntry) : option bytes :=
  let canonical := canonical_entry <$> l in
  if existsb (λ e, adjacent_equal (xa_Name <$> ie_Xattrs e)) canonical then None
  else
    let canonical := sort_by ie_Path canonical in
    if adjacent_equal (ie_Path <$> canonical) then None else marshal_inventory canonical.

Definition digestInventory (l : list InventoryEntry) : option string :=
  data ← CanonicalInventory l; Some ("sha256:" +:+ hex_sha256 data).

End inventory.

(** ** Verify *)

Record FormulaEvidence := MkFormulaEvidence { fe_Path : string; fe_ClassName : string; fe_SHA256 : string; fe_Size : Z }.

Record ReceiptEvidence := MkReceiptEvidence {
  rc_Path : string; rc_SHA256 : string; rc_Size : Z; rc_FormulaVersion : string; rc_VersionScheme : Z; rc_BuiltAsBottle : bool;
  rc_PouredFromBottle : bool; rc_HomebrewVersion : string; rc_Arch : string; rc_RuntimeDepCount : Z;
}.

Definition place_receipt (ev : ReceiptEvidence) (entry : InventoryEntry) : ReceiptEvidence :=
  MkReceiptEvidence (ie_Path entry) (ie_SHA256 entry) (ie_Size entry) (rc_FormulaVersion ev) (rc_VersionScheme ev)
    (rc_BuiltAsBottle ev) (rc_PouredFromBottle ev) (rc_HomebrewVersion ev) (rc_Arch ev) (rc_RuntimeDepCount ev).

Record VerifyResult := MkVerifyResult {
  vr_Name : string; vr_PkgVersion : string; vr_KegPrefix : string; vr_CompressedSHA256 : string; vr_CompressedSize : Z;
  vr_HomebrewSHA256 : string; vr_ExpandedSize : Z; vr_InventorySHA256 : string; vr_Inventory : list InventoryEntry;
  vr_Formula : FormulaEvidence; vr_Receipt : option ReceiptEvidence; vr_FormulaSource : bytes;
}.

Record Options := MkOptions { op_Limits : Limits; op_RequirePreInstallReceipt : bool }.

(** The reader: its bytes, and whether it fails after them instead of ending *)
Record reader := MkReader { rr_data : bytes; rr_fails : bool }.

(** The private file: which of the calls on it fail *)
Record spool := MkSpool {
  sp_create_fails : bool; sp_chmod_fails : bool; sp_write_fails : bool; sp_seek_fails : bool; sp_close_fails : bool; sp_remove_fails : bool;
}.

(** The validator of an embedded receipt: its evidence, and what it leaves in the
    variables of the caller *)
Definition receiptValidator (E A : Type) := bytes → Expectation → result E (ReceiptEvidence * A).

Section verify.
Context `{U : !UnicodeTables, L : !BottleLib} {E A : Type} (validate : receiptValidator E A).

(** [io.Copy] through a reader limited to one byte more than is allowed: an
    error of the reader shows only when it is reached *)
Definition spool_bottle (sp : spool) (limits : Limits) (r : reader) : result VerificationError bytes :=
  let budget := lm_MaxCompressedBytes limits + 1 in
  let short := Z.of_nat (length (rr_data r)) <? budget in
  _ ← refuse (sp_write_fails sp || (rr_fails r && short)) CodeInvalidGzip "";
  Ok (if short then rr_data r else take (Z.to_nat budget) (rr_data r)).

(** The compressed bytes are the authenticated ones *)
Definition authenticate (expected : Expectation) (limits : Limits) (data : bytes) : result VerificationError unit :=
  let n := Z.of_nat (length data) in
  _ ← refuse (lm_MaxCompressedBytes limits <? n) CodeCompressedLimit "";
  _ ← refuse (negb (n =? ex_CompressedSize expected)) CodeSizeMismatch "";
  _ ← refuse (negb (bool_decide ("sha256:" +:+ hex_sha256 data = ex_CompressedSHA256 expected))) CodeDigestMismatch "";
  refuse (negb (bool_decide (hex_sha256 data = ex_HomebrewSHA256 expected))) CodeHomebrewMismatch "".

Definition verify_receipt (opts : Options) (expected : Expectation) (receipt : option (InventoryEntry * bytes))
    : result VerificationError (option (ReceiptEvidence * A)) :=
  match receipt with
  | Some (entry, data) =>
      '(ev, rest) ← map_err (λ _, MkVerificationError CodeInvalidReceipt (ie_Path entry)) (validate data expected);
      Ok (Some (place_receipt ev entry, rest))
  | None =>
      _ ← refuse (op_RequirePreInstallReceipt opts) CodeMissingReceipt (expectedReceiptPath expected);
      Ok None
  end.

(** The archive and what it must contain *)
Definition verify_archive (opts : Options) (expected : Expectation) (limits : Limits) (data : bytes)
    : result VerificationError (VerifyResult * option A) :=
  scan ← scanArchive expected limits data;
  '(entry, source) ← require (sr_formula scan) CodeMissingFormula (expectedFormulaPath expected);
  class ← map_err (λ _, MkVerificationError CodeInvalidFormula (ie_Path entry)) (validateFormulaSource (ex_Name expected) source);
  receipt ← verify_receipt opts expected (sr_receipt scan);
  inventoryDigest ← require (digestInventory (sr_inventory scan)) CodeInvalidTar "";
  Ok (MkVerifyResult (ex_Name expected) (ex_PkgVersion expected) (expectedKegPrefix expected) ("sha256:" +:+ hex_sha256 data)
        (Z.of_nat (length data)) (hex_sha256 data) (sr_expanded scan) inventoryDigest (sr_inventory scan)
        (MkFormulaEvidence (ie_Path entry) class (ie_SHA256 entry) (ie_Size entry)) (fst <$> receipt) source,
      snd <$> receipt).

(** The deferred calls turn a success into a failure, never the reverse. *)
Definition close_spool {B} (sp : spool) (r : result VerificationError B) : result VerificationError B :=
  a ← r; _ ← refuse (sp_close_fails sp) CodeInvalidGzip ""; _ ← refuse (sp_remove_fails sp) CodeInvalidGzip ""; Ok a.

Definition verifyWithReceiptValidator (sp : spool) (r : option reader) (expected : Expectation) (opts : Options)
    : result VerificationError (VerifyResult * option A) :=
  r ← require r CodeInvalidExpectation "";
  let limits := withDefaults (op_Limits opts) in
  _ ← refuse (negb (validateLimits limits)) CodeInvalidExpectation "";
  expected ← require (normalizeExpectation expected limits) CodeInvalidExpectation "";
  _ ← refuse (sp_create_fails sp) CodeInvalidGzip "";
  close_spool sp
    (_ ← refuse (sp_chmod_fails sp) CodeInvalidGzip "";
     data ← spool_bottle sp limits r;
     _ ← authenticate expected limits data;
     _ ← refuse (sp_seek_fails sp) CodeInvalidGzip "";
     verify_archive opts expected limits data).

End verify.
