(* ===== verification/BottleFacts.v ===== *)
(** * internal/bottle: what verification guarantees

    The facts about [verify.go]: the entries a header gives, the invariant of
    the scan, the verified bottle; the digest of the inventory; what
    normalization of an expectation does. *)

From S2P Require Import Prelude GoStrings Regex Version ClosureGraph BottleStreams BottleHeader BottleLinks BottleVerify.
From stdpp Require Import options.
Local Open Scope Z_scope.

(** ** Names *)

Lemma proper_component_iff p : proper_component p = true ↔ p ≠ "" ∧ p ≠ "." ∧ p ≠ "..".
Proof. unfold proper_component. rewrite negb_true_iff, !orb_false_iff, !bool_decide_eq_false. tauto. Qed.

Lemma contained_iff v : contained v ↔ forallb proper_component (strings_Split v "/") = true.
Proof.
  unfold contained. rewrite forallb_forall. setoid_rewrite <-list_elem_of_In. split; intros H p Hp.
  - apply proper_component_iff. by apply H.
  - apply proper_component_iff. by apply H.
Qed.

(** Cleaning proper names changes nothing; a trailing slash is dropped. *)
Lemma clean_proper parts out :
  Forall (λ p, proper_component p = true) parts → foldl (clean_step false) out parts = reverse parts ++ out.
Proof.
  intros Hp. revert out. induction Hp as [|p parts Hp _ IH]; intros out; cbn [foldl]; [done|]. rewrite IH, reverse_cons, <-app_assoc.
  apply proper_component_iff in Hp as (H1 & H2 & H3). f_equal. unfold clean_step.
  rewrite !bool_decide_eq_false_2 by done. done.
Qed.

Lemma Clean_dir init :
  init ≠ [] → Forall plain init → Forall (λ p, proper_component p = true) init → path_Clean (strings_Join "/" init +:+ "/") = strings_Join "/" init.
Proof.
  intros Hne Hpl Hp. unfold path_Clean.
  assert (strings_Split (strings_Join "/" init +:+ "/") "/" = init ++ [""]) as Hs by (rewrite Split_app, Split_Join by done; done).
  assert (strings_HasPrefix (strings_Join "/" init +:+ "/") "/" = false) as Habs.
  { apply not_true_iff_false. rewrite HasPrefix_app. intros [rest Hr]. rewrite Hr in Hs. rewrite app_cons_str, app_nil_l_str in Hs.
    cbn [strings_Split] in Hs. rewrite ascii_eqb_refl in Hs. destruct init as [|p init]; [done|]. injection Hs as <- _.
    apply Forall_cons in Hp as [Hp _]. done. }
  rewrite Habs, Hs, foldl_app, (clean_proper init) by done. cbn [foldl]. unfold clean_step. rewrite bool_decide_eq_true_2 by done. cbn [orb]. rewrite app_nil_r, reverse_involutive.
  destruct init; [done|]. done.
Qed.

Lemma cut_last_None s c : strings_Count s c = 0%nat → cut_last s c = None.
Proof. induction s as [|d s IH]; cbn; [done|]. destruct (ascii_eqb d c); [done|]. intros H. by rewrite IH. Qed.

(** The components of the directory of a name *)
Lemma base_parts_Dir name init last :
  contained name → strings_Split name "/" = init ++ [last] → base_parts (path_Dir name) = init.
Proof.
  intros Hc Hs. assert (Forall plain (init ++ [last])) as Hpl by (rewrite <-Hs; apply Split_parts).
  apply Forall_app in Hpl as [Hpl Hl]. apply Forall_cons in Hl as [Hl _].
  assert (Forall (λ p, proper_component p = true) init) as Hp.
  { apply Forall_forall. intros p Hin. apply proper_component_iff, Hc. rewrite Hs. set_solver. }
  assert (name = strings_Join "/" (init ++ [last])) as Hn by (by rewrite <-Hs, Join_Split).
  destruct (decide (init = [])) as [->|Hne].
  - cbn in Hn. subst name. unfold path_Dir. rewrite cut_last_None; [done|]. done.
  - unfold path_Dir. rewrite Hn, Join_app by done. cbn [strings_Join]. rewrite cut_last_spec by done. rewrite Clean_dir by done.
    unfold base_parts. rewrite !bool_decide_eq_false_2; [by apply Split_Join| |].
    + intros He. assert (strings_Split (strings_Join "/" init) "/" = ["."]) as Hs' by (by rewrite He). rewrite Split_Join in Hs' by done.
      subst init. apply Forall_cons in Hp as [Hp _]. done.
    + intros He. assert (strings_Split (strings_Join "/" init) "/" = [""]) as Hs' by (by rewrite He). rewrite Split_Join in Hs' by done.
      subst init. apply Forall_cons in Hp as [Hp _]. done.
Qed.

Lemma TrimSuffix_strlen s p : strlen (strings_TrimSuffix s p) <= strlen s.
Proof.
  unfold strings_TrimSuffix. destruct (strings_HasSuffix s p); [|lia]. unfold strlen.
  enough (∀ n t, (String.length (String.substring 0 n t) ≤ String.length t)%nat) as H by (specialize (H (String.length s - String.length p)%nat s); lia).
  clear. induction n as [|n IH]; intros [|c t]; cbn; try lia. specialize (IH t). lia.
Qed.

Lemma canonicalArchivePath_ok raw directory maxBytes name :
  canonicalArchivePath raw directory maxBytes = Some name → contained name ∧ strlen name <= maxBytes.
Proof.
  unfold canonicalArchivePath.
  destruct (_ || path_IsAbs raw) eqn:H1; [done|]. destruct (_ || strings_HasSuffix _ "/") eqn:H2; [done|].
  destruct (negb (forallb _ _)) eqn:H3; [done|]. destruct (_ || strings_HasPrefix _ "../") eqn:H4; [done|]. intros [= <-].
  split; [by apply contained_iff, negb_false_iff|]. apply orb_false_iff in H1 as [H1 _]. repeat (apply orb_false_iff in H1 as [H1 ?]).
  match goal with H : (maxBytes <? _) = false |- _ => apply Z.ltb_ge in H end.
  destruct (directory && _); [|done]. pose proof (TrimSuffix_strlen raw "/"). lia.
Qed.

Section header.
Context (expected : Expectation) (limits : Limits).

(** In the keg, or the rack that holds it *)
Definition in_rack (path : string) : Prop := path = ex_Name expected ∨ withinKeg path expected = true.

Lemma validateKegPath_ok name t :
  validateKegPath name t expected = true →
  in_rack name ∧ (t ≠ EntryDirectory → strings_HasPrefix name (expectedKegPrefix expected +:+ "/") = true).
Proof.
  unfold validateKegPath, in_rack, withinKeg, is_directory. destruct (bool_decide (name = ex_Name expected)) eqn:H1; cbn [orb].
  - apply bool_decide_eq_true in H1. rewrite bool_decide_eq_true. naive_solver.
  - destruct (bool_decide (name = expectedKegPrefix expected)) eqn:H2; cbn [orb]; [rewrite bool_decide_eq_true; naive_solver|]. naive_solver.
Qed.

(** The directory of a name below the keg is in the keg. *)
Lemma inside_Dir name :
  contained name → strings_HasPrefix name (expectedKegPrefix expected +:+ "/") = true → inside expected (base_parts (path_Dir name)).
Proof.
  intros Hc [rest ->]%HasPrefix_app. rewrite app_assoc_str, app_cons_str, app_nil_l_str in *.
  destruct (exists_last (Split_nonempty rest "/")) as (init & final & Hs). left.
  rewrite (base_parts_Dir _ (rootParts expected ++ init) final); [by eexists|done|]. rewrite Split_app, Hs. by rewrite app_assoc.
Qed.

(** ** What a header gives *)

(** Ordinary permissions, of an ordinary owner, within the limits *)
Record plain_meta (e : InventoryEntry) : Prop := {
  pm_mode : 0 <= ie_Mode e < 4096 ∧ Z.land (ie_Mode e) 3072 = 0;
  pm_size : 0 <= ie_Size e <= lm_MaxFileBytes limits;
  pm_owner : 0 <= ie_UID e ∧ 0 <= ie_GID e;
}.

(** A place of its own in the keg *)
Record placed (e : InventoryEntry) : Prop := {
  pl_contained : contained (ie_Path e);
  pl_keg : in_rack (ie_Path e);
  pl_length : strlen (ie_Path e) <= lm_MaxPathBytes limits;
  pl_depth : Z.of_nat (length (strings_Split (ie_Path e) "/")) <= lm_MaxDepth limits;
}.

Lemma mode_bits mode : unsafe_header_mode mode = false → 0 <= Z.land mode 4095 < 4096 ∧ Z.land (Z.land mode 4095) 3072 = 0.
Proof.
  unfold unsafe_header_mode. rewrite !orb_false_iff, Z.ltb_ge, !negb_false_iff, !Z.eqb_eq. intros [[Hm Hs] _].
  rewrite <-Z.land_assoc. change (Z.land 4095 3072) with 3072. split; [|done].
  change 4095 with (Z.ones 12). rewrite Z.land_ones by lia. apply (Z.mod_pos_bound mode (2 ^ 12)). lia.
Qed.

Lemma validateSymlink_ok name target resolved prefixTarget :
  validateSymlink name target expected limits = Some (resolved, prefixTarget) →
  prefixTarget ≠ "" → points_out name target prefixTarget ∧ allowedExternalSymlink name prefixTarget expected = true.
Proof.
  unfold validateSymlink. destruct (_ || _); [done|]. destruct (_ || _); [intros [= <- <-]; done|].
  unfold canonicalExternalSymlinkTarget. set (base := strings_Split (path_Join ["Cellar"; path_Dir name]) "/").
  destruct (_ <? _)%nat eqn:Hlen; [done|]. apply Nat.ltb_ge in Hlen. destruct (negb (forallb _ (take _ _))) eqn:Hup; [done|].
  destruct (negb (forallb _ (drop _ _))) eqn:Hdown; [done|].
  destruct (_ && _) eqn:H; [|done]. apply andb_true_iff in H as [Hok Heq%bool_decide_eq_true]. intros [= <- <-] _. rewrite <-Heq. split; [|done].
  apply negb_false_iff in Hup, Hdown. rewrite forallb_forall in Hup, Hdown. setoid_rewrite <-list_elem_of_In in Hup. setoid_rewrite <-list_elem_of_In in Hdown.
  exists (drop (length base) (strings_Split target "/")). split_and!; [|by apply Forall_forall|done].
  rewrite <-(take_drop (length base) (strings_Split target "/")) at 1. f_equal. symmetry. apply replicate_as_elem_of. fold base. split; [rewrite length_take; lia|].
  intros c Hc%Hup. by apply bool_decide_eq_true in Hc.
Qed.

(** What a validated link keeps of the entry *)
Lemma validate_link_ok hdr entry e :
  validate_link hdr entry expected limits = Ok e →
  ie_Path e = ie_Path entry ∧ ie_Type e = ie_Type entry ∧ ie_Mode e = ie_Mode entry ∧ ie_Size e = ie_Size entry ∧
  ie_UID e = ie_UID entry ∧ ie_GID e = ie_GID entry ∧
  (ie_Type e = EntrySymlink → ie_SymlinkTarget e = th_Linkname hdr ∧
    (ie_PrefixTarget e ≠ "" →
     points_out (ie_Path e) (ie_SymlinkTarget e) (ie_PrefixTarget e) ∧ allowedExternalSymlink (ie_Path e) (ie_PrefixTarget e) expected = true)).
Proof.
  unfold validate_link. destruct (ie_Type entry) eqn:Ht; intros H.
  - apply bind_ok in H as ([] & _ & [= <-]). rewrite Ht. by split_and!.
  - apply bind_ok in H as ([] & _ & [= <-]). rewrite Ht. by split_and!.
  - apply bind_ok in H as ([resolved prefixTarget] & Hs & [= <-]). cbn. split_and!; [done..|]. intros _. split; [done|].
    destruct (validateSymlink _ _ _ _) as [[r p]|] eqn:Hv; [|done]. injection Hs as -> ->. by eapply validateSymlink_ok.
  - apply bind_ok in H as (target & _ & [= <-]). cbn. split_and!; [done..|]. congruence.
Qed.

Context `{U : !UnicodeTables}.

Lemma validateHeader_ok hdr raw e :
  validateHeader hdr raw expected limits = Ok e →
  placed e ∧ external_ok expected (ie_Path e) e ∧ (th_Size hdr <= lm_MaxFileBytes limits → plain_meta e) ∧
  ie_Size e = th_Size hdr ∧ 0 <= th_Size hdr ∧ (ie_Type e ≠ EntryRegular → th_Size hdr = 0).
Proof.
  unfold validateHeader. intros ([] & _ & H)%bind_ok. apply bind_ok in H as ([] & Hown%check_ok & H). apply bind_ok in H as ([] & _ & H).
  apply bind_ok in H as (t & _ & H). apply bind_ok in H as (name & Hname & H). apply bind_ok in H as ([] & Hdepth%check_ok & H).
  apply bind_ok in H as ([] & Hkeg%check_ok & H). apply bind_ok in H as ([] & Hmode%check_ok & H). apply bind_ok in H as ([] & Hsize%check_ok & H).
  apply bind_ok in H as ([] & Hreg%check_ok & H). apply bind_ok in H as ([] & _ & H). apply bind_ok in H as (xattrs & _ & H).
  apply validate_link_ok in H. cbn in H. destruct H as (Hp & Ht & Hm & Hs & Hu & Hg & Hext).
  destruct (canonicalArchivePath _ _ _) as [n|] eqn:Hcan; [|done]. injection Hname as ->. apply canonicalArchivePath_ok in Hcan as [Hc Hlen].
  apply orb_false_iff in Hown as [?%Z.ltb_ge ?%Z.ltb_ge]. apply Z.ltb_ge in Hdepth, Hsize. apply negb_false_iff in Hkeg.
  apply validateKegPath_ok in Hkeg as [Hrack Hbelow]. split_and!; [| | |done|done|].
  - split; rewrite Hp; [done..|]. rewrite Split_length. lia.
  - intros Hsym. rewrite Hp. split; [|rewrite Hp in Hext; by apply Hext]. apply inside_Dir; [done|]. apply Hbelow. congruence.
  - intros Hmax. split; rewrite ?Hm, ?Hs, ?Hu, ?Hg; [by apply mode_bits|lia|done].
  - intros Hne. rewrite Ht in Hne. apply andb_false_iff in Hreg as [Hr|Hr].
    + unfold is_regular in Hr. apply negb_false_iff, bool_decide_eq_true in Hr. done.
    + apply negb_false_iff, Z.eqb_eq in Hr. done.
Qed.

(** The name, type, link and metadata an entry has from its header *)
Lemma validateHeader_fields hdr raw e :
  validateHeader hdr raw expected limits = Ok e →
  classifyType (th_Typeflag hdr) = Some (ie_Type e) ∧
  canonicalArchivePath (th_Name hdr) (is_directory (ie_Type e)) (lm_MaxPathBytes limits) = Some (ie_Path e) ∧
  (ie_Type e = EntrySymlink → ie_SymlinkTarget e = th_Linkname hdr) ∧
  ie_Mode e = Z.land (th_Mode hdr) 4095 ∧ ie_UID e = th_Uid hdr ∧ ie_GID e = th_Gid hdr.
Proof.
  unfold validateHeader. intros ([] & _ & H)%bind_ok. do 2 apply bind_ok in H as ([] & _ & H). apply bind_ok in H as (t & Ht & H). apply bind_ok in H as (name & Hname & H).
  do 6 apply bind_ok in H as ([] & _ & H). apply bind_ok in H as (xattrs & _ & H). apply validate_link_ok in H. cbn in H.
  destruct H as (Hp & Hty & Hm & _ & Hu & Hg & Hl). destruct (classifyType _) as [t'|]; [|done]. injection Ht as ->.
  destruct (canonicalArchivePath _ _ _) as [n|] eqn:Hcan; [|done]. injection Hname as ->. rewrite Hty, Hp. split_and!; try done.
  intros Hs. apply Hl. congruence.
Qed.

End header.

(** ** The invariant of the scan *)

Lemma limits_positive l :
  validateLimits l = true → 0 < lm_MaxFiles l ∧ 0 < lm_MaxExpandedBytes l ∧ 0 < lm_MaxFileBytes l ∧ 0 < lm_MaxCompressedBytes l.
Proof.
  unfold validateLimits. cbn. intros Hlim. repeat (apply andb_true_iff in Hlim as [Hlim ?]).
  repeat match goal with H : _ && _ = true |- _ => apply andb_true_iff in H as [? ?] end. case_bool. lia.
Qed.

Definition regular_size (e : InventoryEntry) : Z := if is_regular (ie_Type e) then ie_Size e else 0.

(** The bytes of the regular files of an archive *)
Definition regular_bytes (m : entries) : Z := map_fold (λ _ e total, regular_size e + total) 0 m.

Lemma regular_bytes_insert m path e : m !! path = None → regular_bytes (<[path := e]> m) = regular_size e + regular_bytes m.
Proof. intros H. unfold regular_bytes. apply (map_fold_insert_L (λ _ e total, regular_size e + total)); [|done]. intros. lia. Qed.

Section scan.
Context `{U : !UnicodeTables, L : !BottleLib} (expected : Expectation) (limits : Limits).

(** The entry of a regular file describes the bytes of its payload. *)
Record describes (e : InventoryEntry) (data : bytes) : Prop := {
  de_type : ie_Type e = EntryRegular;
  de_sha256 : ie_SHA256 e = "sha256:" +:+ hex_sha256 data;
  de_size : ie_Size e = Z.of_nat (length data);
  de_relocatable : ie_Relocatable e = containsRelocationPlaceholder data;
}.

Record good_entry (path : string) (e : InventoryEntry) : Prop := {
  ge_path : ie_Path e = path;
  ge_placed : placed expected limits e;
  ge_meta : plain_meta limits e;
  ge_link : external_ok expected path e;
  ge_payload : ie_Type e = EntryRegular → ∃ data, describes e data;
}.

(** A member of the archive and the entry that stands for it *)
Record member (it : tar_item) (e : InventoryEntry) : Prop := {
  me_type : classifyType (th_Typeflag (ti_header it)) = Some (ie_Type e);
  me_name : canonicalArchivePath (th_Name (ti_header it)) (is_directory (ie_Type e)) (lm_MaxPathBytes limits) = Some (ie_Path e);
  me_link : ie_Type e = EntrySymlink → ie_SymlinkTarget e = th_Linkname (ti_header it);
  me_meta : ie_Type e = EntryRegular ∨ ie_Type e = EntryDirectory →
    ie_Mode e = Z.land (th_Mode (ti_header it)) 4095 ∧ ie_UID e = th_Uid (ti_header it) ∧ ie_GID e = th_Gid (ti_header it);
  me_payload : ie_Type e = EntryRegular → describes e (concat (ti_payload it));
}.

(** What a pointer of the scan refers to *)
Definition points_to (m : entries) (path : string) (limit : Z) (pointer : option (string * bytes)) : Prop :=
  ∀ p data, pointer = Some (p, data) → p = path ∧ Z.of_nat (length data) <= limit ∧ ∃ e, m !! p = Some e ∧ describes e data.

Record scan_inv (st : scan_state) : Prop := {
  si_entries : all_entries good_entry (sc_entries st);
  si_NoDup : NoDup (sc_ordered st);
  si_dom p : p ∈ sc_ordered st ↔ is_Some (sc_entries st !! p);
  si_files : Z.of_nat (length (sc_ordered st)) <= lm_MaxFiles limits;
  si_expanded : sc_expanded st = regular_bytes (sc_entries st) ∧ sc_expanded st <= lm_MaxExpandedBytes limits;
  si_formula : points_to (sc_entries st) (expectedFormulaPath expected) (lm_MaxFormulaBytes limits) (sc_formula st);
  si_receipt : points_to (sc_entries st) (expectedReceiptPath expected) (lm_MaxReceiptBytes limits) (sc_receipt st);
}.

Lemma points_to_insert m path limit pointer p e : m !! p = None → points_to m path limit pointer → points_to (<[p := e]> m) path limit pointer.
Proof.
  intros Hp Hpt q data Hq. destruct (Hpt q data Hq) as (-> & ? & e' & He' & ?). split_and!; [done..|]. exists e'.
  rewrite lookup_insert_ne; [done|]. intros ->. congruence.
Qed.

(** Recording an entry at a new path *)
Lemma scan_inv_record st tar e expanded formula receipt :
  scan_inv st → sc_entries st !! ie_Path e = None → good_entry (ie_Path e) e → Z.of_nat (length (sc_ordered st)) < lm_MaxFiles limits →
  expanded = regular_size e + sc_expanded st → expanded <= lm_MaxExpandedBytes limits →
  points_to (<[ie_Path e := e]> (sc_entries st)) (expectedFormulaPath expected) (lm_MaxFormulaBytes limits) formula →
  points_to (<[ie_Path e := e]> (sc_entries st)) (expectedReceiptPath expected) (lm_MaxReceiptBytes limits) receipt →
  scan_inv (MkScan tar (<[ie_Path e := e]> (sc_entries st)) (sc_ordered st ++ [ie_Path e]) expanded formula receipt).
Proof.
  intros [Hent Hnd Hdom Hfiles [Hex _] _ _] Hnew Hgood Hmax Hexp Hle Hf Hr. split; cbn; [| | | | |done|done].
  - intros p e' [[<- <-]|[_ He']]%lookup_insert_Some; [done|]. by apply Hent.
  - apply NoDup_app. split_and!; [done| |apply NoDup_singleton]. intros p Hp%Hdom ->%list_elem_of_singleton. rewrite Hnew in Hp. by destruct Hp.
  - intros p. rewrite elem_of_app, list_elem_of_singleton, Hdom. destruct (decide (p = ie_Path e)) as [->|Hne].
    + rewrite lookup_insert_eq. naive_solver.
    + rewrite lookup_insert_ne by done. naive_solver.
  - rewrite length_app. cbn. lia.
  - rewrite regular_bytes_insert by done. split; lia.
Qed.

Lemma placed_same e e' : ie_Path e' = ie_Path e → placed expected limits e → placed expected limits e'.
Proof. intros Hp [? ? ? ?]. split; by rewrite Hp. Qed.

Lemma plain_same e e' :
  ie_Mode e' = ie_Mode e → ie_Size e' = ie_Size e → ie_UID e' = ie_UID e → ie_GID e' = ie_GID e → plain_meta limits e → plain_meta limits e'.
Proof. intros Hm Hs Hu Hg [? ? ?]. split; by rewrite ?Hm, ?Hs, ?Hu, ?Hg. Qed.

Lemma scan_payload_inv st tar it entry st' :
  scan_inv st → sc_entries st !! ie_Path entry = None → placed expected limits entry → (th_Size (ti_header it) <= lm_MaxFileBytes limits → plain_meta limits entry) →
  external_ok expected (ie_Path entry) entry → ie_Type entry = EntryRegular → ie_Size entry = th_Size (ti_header it) →
  Z.of_nat (length (sc_ordered st)) < lm_MaxFiles limits →
  scan_payload expected limits st tar it entry = Ok st' → scan_inv st'.
Proof.
  intros Hinv Hnew Hpl Hmeta Hext Ht Hsize Hfiles. unfold scan_payload. intros ([] & Hmax%check_ok%Z.ltb_ge & H)%bind_ok.
  apply bind_ok in H as ([] & Hroom%check_ok%Z.ltb_ge & H). apply bind_ok in H as ([] & Hf%check_ok & H). apply bind_ok in H as ([] & Hr%check_ok & H).
  apply bind_ok in H as ([] & _ & H). apply bind_ok in H as ([] & _ & H). apply bind_ok in H as ([] & Hlen%check_ok & [= <-]).
  apply negb_false_iff, Z.eqb_eq in Hlen. rewrite detector_found. set (data := concat (ti_payload it)) in *.
  set (e := with_payload entry ("sha256:" +:+ hex_sha256 data) (containsRelocationPlaceholder data)).
  assert (describes e data) as Hd by (split; cbn; [done..|lia|done]).
  assert (∀ path limit flag pointer, (flag = true → ie_Path entry = path ∧ Z.of_nat (length data) <= limit) → points_to (sc_entries st) path limit pointer →
    points_to (<[ie_Path entry := e]> (sc_entries st)) path limit (if flag then Some (ie_Path entry, data) else pointer)) as Hpt.
  { intros path limit flag pointer Hflag Hold. destruct flag; [|by apply points_to_insert]. destruct Hflag as [-> ?]; [done|].
    intros p d [= <- <-]. split_and!; [done..|]. exists e. by rewrite lookup_insert_eq. }
  change (ie_Path entry) with (ie_Path e) in *.
  apply scan_inv_record; [done|done| |done| | | |].
  - split; [done| | |exact Hext|by exists data].
    + by apply (placed_same entry).
    + apply (plain_same entry); [done..|]. by apply Hmeta.
  - unfold regular_size, is_regular. cbn. rewrite bool_decide_eq_true_2 by done. lia.
  - destruct Hinv as [_ _ _ _ [_ ?] _ _]. lia.
  - apply Hpt; [|apply Hinv]. intros Hflag. rewrite Hflag in Hf. cbn in Hf. apply Z.ltb_ge in Hf. unfold is_formula in Hflag.
    apply bool_decide_eq_true in Hflag. split; [done|lia].
  - apply Hpt; [|apply Hinv]. intros Hflag. rewrite Hflag in Hr. cbn in Hr. apply Z.ltb_ge in Hr. unfold is_receipt in Hflag.
    apply andb_true_iff in Hflag as [_ Hflag%bool_decide_eq_true]. split; [done|lia].
Qed.

Lemma scan_item_inv st it st' :
  validateLimits limits = true → scan_inv st → scan_item expected limits st it = Ok st' → scan_inv st'.
Proof.
  intros Hlim Hinv. unfold scan_item. intros ([] & _ & H)%bind_ok. apply bind_ok in H as ([] & Hfiles%check_ok%Z.leb_gt & H).
  apply bind_ok in H as (raw & _ & H). apply bind_ok in H as (e & He & H). apply bind_ok in H as ([] & Hdup%check_ok%bool_decide_eq_false & H).
  apply eq_None_not_Some in Hdup. apply validateHeader_ok in He as (Hpl & Hext & Hmeta & Hsize & Hnn & Hzero).
  destruct (is_regular (ie_Type e)) eqn:Hreg; unfold is_regular in Hreg.
  - apply bool_decide_eq_true in Hreg. by eapply scan_payload_inv.
  - apply bool_decide_eq_false in Hreg. injection H as <-. apply scan_inv_record; [done|done| |done| | | |].
    + split; [done..| |done|done]. apply Hmeta. rewrite (Hzero Hreg). apply limits_positive in Hlim. lia.
    + unfold regular_size, is_regular. by rewrite bool_decide_eq_false_2.
    + apply Hinv.
    + apply points_to_insert; [done|apply Hinv].
    + apply points_to_insert; [done|apply Hinv].
Qed.

Lemma scan_items_inv items st :
  validateLimits limits = true → foldM_res (scan_item expected limits) start_scan items = Ok st → scan_inv st.
Proof.
  intros Hlim Hf. refine (foldM_res_inv (λ _ st, scan_inv st) _ _ _ _ _ _ Hf).
  - apply limits_positive in Hlim as (? & ? & _). split; cbn; [by intros ? ?|apply NoDup_nil_2| |lia| |by intros ? ?|by intros ? ?].
    + intros p. rewrite lookup_empty. split; [intros Hp; by apply not_elem_of_nil in Hp|by intros [? ?]].
    + split; [done|lia].
  - intros _ it st1 st2 Hinv _ Hs. by eapply scan_item_inv.
Qed.

(** Every member has its entry, in the order of the archive. *)
Definition recorded (st : scan_state) (it : tar_item) (path : string) : Prop := ∃ e, sc_entries st !! path = Some e ∧ member it e.

Lemma scan_item_member st it st' :
  scan_item expected limits st it = Ok st' →
  ∃ e, sc_entries st !! ie_Path e = None ∧ sc_entries st' = <[ie_Path e := e]> (sc_entries st) ∧ sc_ordered st' = sc_ordered st ++ [ie_Path e] ∧ member it e.
Proof.
  unfold scan_item. intros ([] & _ & H)%bind_ok. apply bind_ok in H as ([] & _ & H). apply bind_ok in H as (raw & _ & H).
  apply bind_ok in H as (e & He & H). apply bind_ok in H as ([] & Hdup%check_ok%bool_decide_eq_false & H). apply eq_None_not_Some in Hdup.
  apply validateHeader_ok in He as Hok. destruct Hok as (_ & _ & _ & Hsize & _). apply validateHeader_fields in He as (Ht & Hn & Hl & Hm & Hu & Hg).
  destruct (is_regular (ie_Type e)) eqn:Hreg; unfold is_regular in Hreg.
  - apply bool_decide_eq_true in Hreg. unfold scan_payload in H. do 6 apply bind_ok in H as ([] & _ & H).
    apply bind_ok in H as ([] & Hlen%check_ok & [= <-]). apply negb_false_iff, Z.eqb_eq in Hlen.
    exists (with_payload e ("sha256:" +:+ hex_sha256 (concat (ti_payload it))) (pd_found (foldl placeholderDetector_Write new_detector (ti_payload it)))).
    split_and!; [done..|]. split; [done..|]. intros _. split; cbn; [done|done|lia|apply detector_found].
  - apply bool_decide_eq_false in Hreg. injection H as <-. exists e. by split_and!.
Qed.

Lemma scan_items_recorded items st :
  foldM_res (scan_item expected limits) start_scan items = Ok st → Forall2 (recorded st) items (sc_ordered st).
Proof.
  intros Hf. refine (foldM_res_inv (λ l st, Forall2 (recorded st) l (sc_ordered st)) _ _ _ _ _ _ Hf); [constructor|].
  intros l it st1 st2 Hl _ (e & Hnew & Hent & Hord & Hmem)%scan_item_member. rewrite Hord. apply Forall2_app.
  - eapply Forall2_impl; [exact Hl|]. intros it' path (e' & He' & Hm'). exists e'. split; [|done]. rewrite Hent, lookup_insert_ne; [done|]. intros <-. congruence.
  - constructor; [|constructor]. exists e. by rewrite Hent, lookup_insert_eq.
Qed.

(** Resolving the links keeps what an entry has from its member. *)
Lemma member_kept it m m' path e :
  same_shape m m' → (∀ name e, m !! name = Some e → ie_Type e = EntryRegular ∨ ie_Type e = EntryDirectory → m' !! name = Some e) →
  m !! path = Some e → member it e → ∃ e', m' !! path = Some e' ∧ member it e'.
Proof.
  intros Hs Hkeep He Hmem. destruct (same_shape_lookup _ _ _ _ Hs He) as (e' & He' & Hsh). exists e'. split; [done|].
  injection Hsh as Hp _ Ht Hl _. assert (ie_Type e = EntryRegular ∨ ie_Type e = EntryDirectory → e' = e) as Hsame.
  { intros Hr. rewrite (Hkeep path e He Hr) in He'. congruence. }
  destruct Hmem as [H1 H2 H3 H4 H5]. split; rewrite ?Hp, ?Ht, ?Hl; try done.
  - intros Hr. rewrite Hsame by done. by apply H4.
  - intros Hr. rewrite Hsame by (by left). by apply H5.
Qed.

(** ** The inventory of a scanned archive *)

Definition by_path (inventory : list InventoryEntry) : entries := list_to_map ((λ e, (ie_Path e, e)) <$> inventory).

Record safe_inventory (inventory : list InventoryEntry) : Prop := {
  sv_sorted : StronglySorted (key_le ie_Path) inventory;
  sv_paths : NoDup (ie_Path <$> inventory);
  sv_files : Z.of_nat (length inventory) <= lm_MaxFiles limits;
  sv_bytes : regular_bytes (by_path inventory) <= lm_MaxExpandedBytes limits;
  sv_entries e : e ∈ inventory → placed expected limits e ∧ plain_meta limits e ∧ (ie_Type e = EntryRegular → ∃ data, describes e data);
  sv_tree : safe_tree expected (by_path inventory);
}.

Lemma map_fold_sizes m : regular_bytes m = map_fold (λ _ n total, n + total) 0 (regular_size <$> m).
Proof. unfold regular_bytes. by rewrite map_fold_fmap. Qed.

(** The list of the entries at the paths of a list that covers the map *)
Lemma listed_entries (m : entries) ordered :
  NoDup ordered → (∀ p, p ∈ ordered ↔ is_Some (m !! p)) → all_entries (λ path e, ie_Path e = path) m →
  ie_Path <$> omap (λ p, m !! p) ordered = ordered ∧ by_path (sort_by ie_Path (omap (λ p, m !! p) ordered)) = m.
Proof.
  intros Hnd Hdom Hpath. set (l := omap (λ p, m !! p) ordered).
  assert (ie_Path <$> l = ordered) as Hkeys.
  { subst l. assert (∀ p, p ∈ ordered → is_Some (m !! p)) as Hin by (intros p; apply Hdom). clear Hnd Hdom.
    induction ordered as [|p ordered IH]; [done|]. cbn [omap list_omap]. destruct (Hin p) as [e He]; [set_solver|]. rewrite He.
    cbn [fmap list_fmap]. rewrite (Hpath p e He). f_equal. apply IH. set_solver. }
  split; [done|]. apply map_eq. intros p. unfold by_path.
  assert (NoDup ((λ e, (ie_Path e, e)) <$> sort_by ie_Path l).*1) as Hnd'.
  { rewrite <-list_fmap_compose. change (NoDup (ie_Path <$> sort_by ie_Path l)). rewrite sort_by_fmap_Permutation. by rewrite Hkeys. }
  destruct (m !! p) as [e|] eqn:He.
  - apply elem_of_list_to_map_1; [done|]. apply list_elem_of_fmap. exists e. rewrite (Hpath p e He). split; [done|].
    apply elem_of_sort_by, list_elem_of_omap. exists p. split; [apply Hdom; by exists e|done].
  - apply not_elem_of_list_to_map_1. rewrite <-list_fmap_compose. intros Hin. change (p ∈ ie_Path <$> sort_by ie_Path l) in Hin.
    rewrite sort_by_fmap_Permutation, Hkeys, Hdom, He in Hin. by destruct Hin.
Qed.

Lemma good_final m m' :
  all_entries good_entry m → validateCollisionsAndHardlinks expected limits m = Ok m' →
  safe_tree expected m' ∧ (∀ p, is_Some (m !! p) ↔ is_Some (m' !! p)) ∧ regular_bytes m' = regular_bytes m ∧
  all_entries (λ path e, ie_Path e = path ∧ placed expected limits e ∧ plain_meta limits e ∧ (ie_Type e = EntryRegular → ∃ data, describes e data)) m' ∧
  (∀ p e data, m !! p = Some e → describes e data → m' !! p = Some e) ∧
  ∀ it p e, m !! p = Some e → member it e → ∃ e', m' !! p = Some e' ∧ member it e'.
Proof.
  intros Hm Hv. assert (all_entries (external_ok expected) m) as Hx by (intros p e He; apply (Hm p e He)).
  destruct (validateCollisionsAndHardlinks_ok _ _ _ _ Hx Hv) as (Hs & Htree & Hkeep).
  assert (∀ p e e', m !! p = Some e → m' !! p = Some e' → ie_Path e' = ie_Path e ∧ ie_Type e' = ie_Type e) as Hsame.
  { intros p e e' He He'. specialize (Hs p). rewrite He, He' in Hs. by injection Hs. }
  split_and!; [done| | | | |intros it p e; by apply member_kept].
  - intros p. specialize (Hs p). destruct (m !! p), (m' !! p); try done; by split; eexists.
  - rewrite !map_fold_sizes. f_equal. apply map_eq. intros p. rewrite !lookup_fmap. specialize (Hs p).
    destruct (m !! p) as [e|] eqn:He, (m' !! p) as [e'|] eqn:He'; try done. cbn. f_equal. destruct (Hsame p e e' He He') as [_ Ht].
    unfold regular_size, is_regular. rewrite Ht. case_bool_decide as Hr; [|done]. rewrite (Hkeep p e He) in He' by (by left). by injection He' as <-.
  - intros p e' He'. specialize (Hs p). rewrite He' in Hs. destruct (m !! p) as [e|] eqn:He; [|done].
    destruct (Hsame p e e' He He') as [Hp Ht]. destruct (Hm p e He) as [Hp0 Hpl _ _ Hdata]. split_and!; [congruence|by eapply placed_same| |].
    + refine (links_keep expected limits (plain_meta limits) m m' _ _ _ Hv p e' He').
      * intros x r q Hpm. by apply (plain_same x).
      * intros x t r _ Hpm. by apply (plain_same t).
      * intros q x Hx'. apply (Hm q x Hx').
    + intros Hr. rewrite Ht in Hr. rewrite (Hkeep p e He) in He' by (by left). injection He' as <-. by apply Hdata.
  - intros p e data He Hd. apply Hkeep; [done|]. left. apply Hd.
Qed.

(** The inventory has one entry per member of the archive that is in the bytes. *)
Definition inventory_of (r : bytes) (inventory : list InventoryEntry) : Prop :=
  ∃ replayed session listed, boundedGzipStream r (lm_MaxMetadataBytes limits) = Ok replayed ∧
    open_archive (lm_MaxExpandedBytes limits + 1) replayed = Some session ∧ as_eof session = true ∧
    Forall2 member (as_items session) listed ∧ inventory ≡ₚ listed.

Lemma scanArchive_ok r scan :
  validateLimits limits = true → scanArchive expected limits r = Ok scan →
  safe_inventory (sr_inventory scan) ∧ inventory_of r (sr_inventory scan) ∧ 0 <= sr_expanded scan <= lm_MaxExpandedBytes limits ∧
  (∀ e data, sr_formula scan = Some (e, data) → e ∈ sr_inventory scan ∧ describes e data ∧ ie_Path e = expectedFormulaPath expected) ∧
  (∀ e data, sr_receipt scan = Some (e, data) → e ∈ sr_inventory scan ∧ describes e data ∧ ie_Path e = expectedReceiptPath expected).
Proof.
  intros Hlim. unfold scanArchive. destruct (boundedGzipStream _ _) as [replayed|[]] eqn:Hgz; [|done..].
  intros (session & Hopen & H)%bind_ok. apply bind_ok in H as ([] & _ & H). apply bind_ok in H as (st & Hst & H). apply bind_ok in H as (tar & Hend & H).
  apply bind_ok in H as ([] & _ & H). apply bind_ok in H as (m & Hm & [= <-]). cbn.
  pose proof (scan_items_recorded _ _ Hst) as Hrecorded. apply scan_items_inv in Hst as [Hent Hnd Hdom Hfiles [Hex Hmax] Hform Hrec]; [|done].
  destruct (good_final _ _ Hent Hm) as (Htree & Hdom' & Hbytes & Hgood & Hkeep & Hmember).
  destruct (listed_entries m (sc_ordered st)) as [Hkeys Hmap]; [done|intros p; by rewrite Hdom|intros p e He; by apply Hgood|].
  assert (∀ p e, m !! p = Some e → e ∈ sort_by ie_Path (omap (λ path, m !! path) (sc_ordered st))) as Hin.
  { intros p e He. apply elem_of_sort_by, list_elem_of_omap. exists p. split; [|done]. apply Hdom, Hdom'. by exists e. }
  assert (∀ path limit pointer e data, points_to (sc_entries st) path limit pointer → captured m pointer = Some (e, data) →
    e ∈ sort_by ie_Path (omap (λ path, m !! path) (sc_ordered st)) ∧ describes e data ∧ ie_Path e = path) as Hcap.
  { intros path limit [[p d]|] e data Hp Hc; [|done]. destruct (Hp p d eq_refl) as (-> & _ & e0 & He0 & Hd). cbn in Hc.
    rewrite (Hkeep path e0 d He0 Hd) in Hc. injection Hc as <- <-. split_and!; [by eapply Hin, Hkeep|done|]. apply (Hent _ _ He0). }
  split_and!; [| |lia| |intros e data; by apply (Hcap _ _ _ _ _ Hform)|intros e data; by apply (Hcap _ _ _ _ _ Hrec)].
  - split.
    + apply sort_by_StronglySorted.
    + rewrite sort_by_fmap_Permutation, Hkeys. done.
    + assert (length (sc_ordered st) = length (omap (λ path, m !! path) (sc_ordered st))) as Hlen by (by rewrite <-Hkeys at 1; rewrite length_fmap).
      rewrite (Permutation_length (sort_by_Permutation ie_Path _)). lia.
    + rewrite Hmap, Hbytes. lia.
    + intros e (p & _ & He)%elem_of_sort_by%list_elem_of_omap. by apply Hgood in He as (_ & ? & ? & ?).
    + by rewrite Hmap.
  - destruct (open_archive _ _) as [session'|] eqn:Ho; [|done]. injection Hopen as ->. unfold scan_end in Hend. apply bind_ok in Hend as ([] & _ & Hend).
    apply bind_ok in Hend as ([] & Heof%check_ok%negb_false_iff & _). exists replayed, session, (omap (λ path, m !! path) (sc_ordered st)).
    split_and!; [done..| |apply sort_by_Permutation]. clear - Hrecorded Hmember.
    induction Hrecorded as [|it path items paths (e & He & Hme) _ IH]; [constructor|].
    destruct (Hmember it path e He Hme) as (e' & He' & Hme'). cbn. rewrite He'. by constructor.
  - unfold scan_end in Hend. apply bind_ok in Hend as ([] & Hb%check_ok & Hend). apply bind_ok in Hend as ([] & _ & Hend).
    apply bind_ok in Hend as ([] & _ & [= <-]). unfold over_budget in Hb. apply Z.ltb_ge in Hb. lia.
Qed.

End scan.

(** ** The verified bottle *)

Section verified.
Context `{U : !UnicodeTables, L : !BottleLib} {E A : Type} (validate : receiptValidator E A).

(** The steps of a verification that succeeded *)
Lemma verify_steps sp r expected opts (res : VerifyResult * option A) :
  verifyWithReceiptValidator validate sp r expected opts = Ok res →
  ∃ r' e', r = Some r' ∧ validateLimits (withDefaults (op_Limits opts)) = true ∧
    normalizeExpectation expected (withDefaults (op_Limits opts)) = Some e' ∧
    spool_bottle sp (withDefaults (op_Limits opts)) r' = Ok (rr_data r') ∧ rr_fails r' = false ∧
    authenticate e' (withDefaults (op_Limits opts)) (rr_data r') = Ok tt ∧
    verify_archive validate opts e' (withDefaults (op_Limits opts)) (rr_data r') = Ok res.
Proof.
  unfold verifyWithReceiptValidator. intros (r' & Hr & H)%bind_ok. destruct r as [r0|]; [|done]. injection Hr as ->.
  apply bind_ok in H as ([] & Hl%check_ok & H). apply negb_false_iff in Hl. apply bind_ok in H as (e' & He & H).
  destruct (normalizeExpectation _ _) as [e''|] eqn:Hn; [|done]. injection He as ->. apply bind_ok in H as ([] & _ & H).
  unfold close_spool in H. apply bind_ok in H as (res' & H & Hclose). apply bind_ok in Hclose as ([] & _ & Hclose).
  apply bind_ok in Hclose as ([] & _ & [= ->]). apply bind_ok in H as ([] & _ & H). apply bind_ok in H as (data & Hdata & H).
  apply bind_ok in H as ([] & Hauth & H). apply bind_ok in H as ([] & _ & H).
  assert (data = rr_data r' ∧ rr_fails r' = false) as [-> Hf].
  { clear H Hn. revert Hl Hdata Hauth. generalize (withDefaults (op_Limits opts)) as limits. intros limits Hl Hdata Hauth. unfold spool_bottle in Hdata. apply bind_ok in Hdata as ([] & Hfail%check_ok & [= <-]). unfold authenticate in Hauth.
    apply bind_ok in Hauth as ([] & Hsize%check_ok%Z.ltb_ge & _). apply limits_positive in Hl as (_ & _ & _ & Hc).
    apply orb_false_iff in Hfail as [_ Hfail]. destruct (Z.ltb_spec (Z.of_nat (length (rr_data r'))) (lm_MaxCompressedBytes limits + 1)).
    - by rewrite andb_true_r in Hfail.
    - rewrite length_take in Hsize. lia. }
  exists r', e'. by split_and!.
Qed.

Lemma validateFormulaSource_ok name source class :
  validateFormulaSource name source = Ok class →
  class = formulaClassName name ∧ formula_subclasses (String.string_of_list_ascii source) = [class].
Proof.
  unfold validateFormulaSource. intros ([] & _ & H)%bind_ok. apply bind_ok in H as ([] & _ & H).
  destruct (formula_subclasses _) as [|actual [|? ?]]; [done| |done]. apply bind_ok in H as ([] & Hc%check_ok & H).
  apply bind_ok in H as ([] & _ & [= <-]). apply negb_false_iff, bool_decide_eq_true in Hc. done.
Qed.

(** The Formula and the receipt of a result are files of its inventory. *)
Record evidence_ok (expected : Expectation) (res : VerifyResult) (seen : option A) : Prop := {
  ev_formula : ∃ entry, entry ∈ vr_Inventory res ∧ describes entry (vr_FormulaSource res) ∧
    vr_Formula res = MkFormulaEvidence (expectedFormulaPath expected) (formulaClassName (ex_Name expected)) (ie_SHA256 entry) (ie_Size entry) ∧
    formula_subclasses (String.string_of_list_ascii (vr_FormulaSource res)) = [formulaClassName (ex_Name expected)];
  ev_receipt ev : vr_Receipt res = Some ev → ∃ entry data ev' seen', entry ∈ vr_Inventory res ∧ describes entry data ∧
    ie_Path entry = expectedReceiptPath expected ∧ validate data expected = Ok (ev', seen') ∧ ev = place_receipt ev' entry ∧
    seen = Some seen';
  ev_no_receipt : vr_Receipt res = None → seen = None;
}.

Lemma verify_archive_ok opts expected limits data res seen :
  validateLimits limits = true → verify_archive validate opts expected limits data = Ok (res, seen) →
  safe_inventory expected limits (vr_Inventory res) ∧ inventory_of limits data (vr_Inventory res) ∧ evidence_ok expected res seen ∧ 0 <= vr_ExpandedSize res <= lm_MaxExpandedBytes limits ∧
  vr_CompressedSHA256 res = "sha256:" +:+ hex_sha256 data ∧ vr_KegPrefix res = expectedKegPrefix expected ∧
  digestInventory (vr_Inventory res) = Some (vr_InventorySHA256 res) ∧
  (op_RequirePreInstallReceipt opts = true → is_Some (vr_Receipt res)).
Proof.
  intros Hlim. unfold verify_archive. intros (scan & Hscan & H)%bind_ok. destruct (scanArchive_ok _ _ _ _ Hlim Hscan) as (Hsafe & Hinvt & Hexp & Hf & Hr).
  apply bind_ok in H as ([entry source] & Hform & H). destruct (sr_formula scan) as [[e d]|] eqn:Hsf; [|done]. injection Hform as -> ->.
  apply bind_ok in H as (class & Hclass%map_err_ok & H). apply bind_ok in H as (receipt & Hrec & H).
  apply bind_ok in H as (digest & Hd & [= <- <-]). destruct (digestInventory _) as [dg|] eqn:Hdg; [|done]. injection Hd as ->.
  destruct (Hf entry source eq_refl) as (Hin & Hde & Hpath). apply validateFormulaSource_ok in Hclass as [-> Hsub].
  cbn. split_and!; [done|done| |lia|lia|done|done|done|].
  - split; cbn; [exists entry; by rewrite Hpath| |by destruct receipt]. intros ev Hev. destruct receipt as [[ev0 seen']|]; [|done]. cbn in Hev. injection Hev as ->. unfold verify_receipt in Hrec.
    destruct (sr_receipt scan) as [[re rd]|] eqn:Hsr.
    + apply bind_ok in Hrec as ([ev' l] & Hev%map_err_ok & [= <- <-]). destruct (Hr re rd eq_refl) as (? & ? & ?). by exists re, rd, ev', l.
    + by apply bind_ok in Hrec as ([] & _ & [=]).
  - intros Hreq. unfold verify_receipt in Hrec. destruct (sr_receipt scan) as [[re rd]|].
    + apply bind_ok in Hrec as ([ev' l] & _ & [= <-]). by eexists.
    + apply bind_ok in Hrec as ([] & Hb%check_ok & _). congruence.
Qed.

(** C20: nothing is unpacked from a bottle that is not the authenticated one: when
    verification succeeds, the reader gave all its bytes without an error, their
    number is the expected size, their SHA-256 is both the digest of the OCI
    layer and the checksum of the Homebrew metadata, and the result repeats
    them. The Formula of the result is the source embedded at the path of the
    keg, it declares exactly one class, the one Homebrew derives from the name,
    and the receipt, if the archive has one, was accepted by the validator for
    this expectation; when the policy requires a receipt there is one. *)
Theorem Verify_authentic sp r expected opts res seen (Hok : verifyWithReceiptValidator validate sp r expected opts = Ok (res, seen)) :
  ∃ r' e', r = Some r' ∧ normalizeExpectation expected (withDefaults (op_Limits opts)) = Some e' ∧ rr_fails r' = false ∧
    Z.of_nat (length (rr_data r')) = ex_CompressedSize e' ∧ "sha256:" +:+ hex_sha256 (rr_data r') = ex_CompressedSHA256 e' ∧
    hex_sha256 (rr_data r') = ex_HomebrewSHA256 e' ∧ vr_CompressedSHA256 res = ex_CompressedSHA256 e' ∧ evidence_ok e' res seen ∧
    (op_RequirePreInstallReceipt opts = true → is_Some (vr_Receipt res)).
Proof.
  destruct (verify_steps _ _ _ _ _ Hok) as (r' & e' & -> & Hl & Hn & _ & Hf & Hauth & Hver). exists r', e'.
  apply verify_archive_ok in Hver as (_ & _ & Hev & _ & Hsha & _ & _ & Hreq); [|done]. unfold authenticate in Hauth.
  apply bind_ok in Hauth as ([] & _ & H). apply bind_ok in H as ([] & Hsize%check_ok & H). apply bind_ok in H as ([] & Hdig%check_ok & Hhb%check_ok).
  apply negb_false_iff, Z.eqb_eq in Hsize. apply negb_false_iff, bool_decide_eq_true in Hdig. apply negb_false_iff, bool_decide_eq_true in Hhb.
  split_and!; try done. congruence.
Qed.


End verified.

(** ** The canonical inventory *)

Lemma adjacent_equal_sorted l : StronglySorted String.le l → adjacent_equal l = false ↔ NoDup l.
Proof.
  induction 1 as [|a l Hs IH Ha]; [by split; intros; [apply NoDup_nil_2|]|]. destruct l as [|b l].
  - split; intros; [apply NoDup_singleton|done].
  - cbn [adjacent_equal]. rewrite orb_false_iff, bool_decide_eq_false, NoDup_cons, IH. split; [intros [Hne Hnd]|intros [Hnin Hnd]]; split; try done.
    + intros [<-|Hin]%elem_of_cons; [done|]. apply Hne. apply Forall_cons in Ha as [Hab Hal].
      apply StronglySorted_inv in Hs as [_ Hb]. rewrite Forall_forall in Hb. apply (anti_symm String.le); [done|by apply Hb].
    + intros ->. set_solver.
Qed.

(** The same entry, its attributes in any order *)
Definition same_entry (a b : InventoryEntry) : Prop := with_xattrs a [] = with_xattrs b [] ∧ ie_Xattrs a ≡ₚ ie_Xattrs b.

#[local] Instance xattr_total : CmpTotal xattr_cmp.
Proof.
  apply cmp_then_total. intros [n v] [n' v']. unfold cmp_on. cbn. by intros ->%Compare_eq ->%Compare_eq.
Qed.

#[local] Instance xattr_order : CmpOrder xattr_cmp.
Proof. unfold xattr_cmp. apply _. Qed.

Lemma canonical_entry_same a b : same_entry a b → canonical_entry a = canonical_entry b.
Proof.
  destruct a, b. intros [H Hp]. injection H as -> -> -> -> -> -> -> -> -> -> -> -> ->. unfold canonical_entry. cbn in *.
  f_equal. by apply SortFunc_unique; [apply _..|].
Qed.

Lemma existsb_perm {A} (f : A → bool) l k : l ≡ₚ k → existsb f l = existsb f k.
Proof. intros Hp. apply eq_true_iff_eq. rewrite !existsb_exists. setoid_rewrite <-list_elem_of_In. by setoid_rewrite Hp. Qed.

(** the canonical bytes of an inventory, and so its digest, depend neither on
    the order of the entries nor on the order of the attributes of an entry: two
    lists of the same entries are both refused, or have the same bytes. *)
Theorem CanonicalInventory_order_free `{L : !BottleLib} l k
  (Hs : shuffled same_entry l k) : CanonicalInventory l = CanonicalInventory k ∧ digestInventory l = digestInventory k.
Proof.
  assert (CanonicalInventory l = CanonicalInventory k) as H; [|unfold digestInventory; by rewrite H].
  unfold CanonicalInventory. assert (canonical_entry <$> l ≡ₚ canonical_entry <$> k) as Hp.
  { apply (shuffled_norm same_entry); [|done]. intros x y _. apply canonical_entry_same. }
  rewrite (existsb_perm _ _ _ Hp). destruct (existsb _ _); [done|].
  assert (∀ l, adjacent_equal (ie_Path <$> sort_by ie_Path l) = false ↔ NoDup (ie_Path <$> l)) as Hadj.
  { intros m. rewrite adjacent_equal_sorted; [by rewrite sort_by_fmap_Permutation|].
    apply (StronglySorted_fmap ie_Path (key_le ie_Path) String.le); [done|]. apply sort_by_StronglySorted. }
  destruct (decide (NoDup (ie_Path <$> (canonical_entry <$> l)))) as [Hnd|Hnd].
  - rewrite (sort_by_unique ie_Path _ _ Hnd Hp). done.
  - assert (∀ m, ¬ NoDup (ie_Path <$> m) → adjacent_equal (ie_Path <$> sort_by ie_Path m) = true) as Hdup.
    { intros m Hm. apply not_false_iff_true. by rewrite Hadj. }
    rewrite (Hdup _ Hnd), Hdup; [done|]. by rewrite <-Hp.
Qed.

(** ** An example *)

Module example_bottle.

Definition digest_of (n : nat) : string := strings_Join "" (replicate 64 (String (digit_char (Z.of_nat (n mod 10))) "")).

Definition header (name : string) (typeflag : ascii) (size : Z) : Header :=
  MkHeader name "" typeflag size 420 0 0 "" "" ∅ ∅ FormatUSTAR.

Definition block : bytes := replicate 512 zero_byte.

Definition formula_text : string := "class Jq < Formula" +:+ String newline ("end" +:+ String newline "").
Definition formula_source : bytes := text_bytes formula_text.

(** The rack, the keg and the embedded Formula; then the end of the archive *)
Definition session : archive_session :=
  MkArchive 0
    [MkTarItem [block] (header "jq/1.7/" "5" 0) [] [] false;
     MkTarItem [block] (header "jq/1.7/.brew/jq.rb" "0" (Z.of_nat (length formula_source))) [formula_source] [formula_source] false]
    [block; block] true [] true true AfterEOF.

#[local] Instance lib : BottleLib := {|
  hex_sha256 b := digest_of (length b);
  open_archive _ b := if bool_decide (b = example_gzip) then Some session else None;
  marshal_inventory l := Some (concat (text_bytes ∘ ie_Path <$> l));
|}.

Definition expected : Expectation :=
  MkExpectation "jq" "homebrew/core/jq" "1.7" 0 "1.7" 0 0 "x86_64_linux" ("sha256:" +:+ digest_of (length example_gzip))
    (Z.of_nat (length example_gzip)) (digest_of (length example_gzip)) "" "" "" "homebrew/core" [] "" ["oniguruma"] [].

Definition options : Options := MkOptions (MkLimits 0 0 0 0 0 0 0 0 0 0 0 0 0 0) false.
Definition good_spool : spool := MkSpool false false false false false false.

Definition no_receipt : receiptValidator unit unit := λ _ _, Err tt.

Definition verify : result VerificationError (VerifyResult * option unit) :=
  verifyWithReceiptValidator (U := ascii_tables) no_receipt good_spool (Some (MkReader example_gzip false)) expected options.

Definition result : VerifyResult :=
  match verify with
  | Ok (res, _) => res
  | Err _ => MkVerifyResult "" "" "" "" 0 "" 0 "" [] (MkFormulaEvidence "" "" "" 0) None []
  end.

Lemma verify_ok : verify = Ok (result, None).
Proof. vm_compute. reflexivity. Qed.

End example_bottle.

Lemma Verify_authentic_witness :
  example_bottle.verify = Ok (example_bottle.result, None) ∧
  ∃ r' e', Some (MkReader example_gzip false) = Some r' ∧
    normalizeExpectation (U := ascii_tables) example_bottle.expected (withDefaults (op_Limits example_bottle.options)) = Some e' ∧
    rr_fails r' = false ∧ Z.of_nat (length (rr_data r')) = ex_CompressedSize e' ∧
    "sha256:" +:+ hex_sha256 (BottleLib := example_bottle.lib) (rr_data r') = ex_CompressedSHA256 e' ∧
    hex_sha256 (BottleLib := example_bottle.lib) (rr_data r') = ex_HomebrewSHA256 e' ∧
    vr_CompressedSHA256 example_bottle.result = ex_CompressedSHA256 e' ∧
    evidence_ok (U := ascii_tables) (L := example_bottle.lib) example_bottle.no_receipt e' example_bottle.result None ∧
    (op_RequirePreInstallReceipt example_bottle.options = true → is_Some (vr_Receipt example_bottle.result)).
Proof.
  split; [exact example_bottle.verify_ok|].
  exact (Verify_authentic (U := ascii_tables) (L := example_bottle.lib) example_bottle.no_receipt example_bottle.good_spool _ example_bottle.expected
    example_bottle.options example_bottle.result None example_bottle.verify_ok).
Defined.


Lemma CanonicalInventory_order_free_witness :
  CanonicalInventory (L := example_bottle.lib) (vr_Inventory example_bottle.result) =
  CanonicalInventory (L := example_bottle.lib) (reverse (vr_Inventory example_bottle.result)) ∧
  digestInventory (L := example_bottle.lib) (vr_Inventory example_bottle.result) =
  digestInventory (L := example_bottle.lib) (reverse (vr_Inventory example_bottle.result)).
Proof.
  apply (CanonicalInventory_order_free (L := example_bottle.lib)). apply shuffled_perm; [by intros x|]. symmetry. apply reverse_Permutation.
Defined.
