(* ===== verification/BottleReceipt.v ===== *)
(** * internal/bottle: the receipt of a bottle

    The first half of [receipt.go] and [inspect.go]: decoding and checking an
    INSTALL_RECEIPT.json, comparing its runtime dependencies with the
    authenticated ones (exactly, before installation; as members of the verified
    closure, after), and discovering them for a catalog. [encoding/json] is an
    interface: it gives the fields of a document; what the program does with
    them, the decoder of one dependency included, is modelled. *)

From S2P Require Import Prelude GoStrings JsonUnique Regex Version FormulaId ClosureGraph BottleStreams BottleHeader BottleLinks BottleVerify.
From S2P Require Import BottleFacts.
From stdpp Require Import options.
Local Open Scope Z_scope.

(** ** Documents *)

(** The anonymous structure a dependency is decoded into: the raw text of [pkg_version], if it is there *)
Record encodedDependency := MkEncodedDependency {
  ed_FullName : string; ed_Version : string; ed_Revision : Z; ed_BottleRebuild : Z; ed_PkgVersion : option string;
  ed_DeclaredDirectly : bool;
}.

Record receiptVersions := MkReceiptVersions { rv_Stable : string; rv_VersionScheme : option Z }.
Record receiptSource := MkReceiptSource { rs_Spec : string; rs_Tap : string; rs_Versions : receiptVersions }.

(** A receipt over the dependencies as they are encoded or decoded *)
Record installReceipt (D : Type) := MkInstallReceipt {
  ir_Name : string; ir_FullName : string; ir_PkgVersion : string; ir_Revision : option Z; ir_BottleRebuild : option Z;
  ir_HomebrewVersion : string; ir_BuiltAsBottle : option bool; ir_PouredFromBottle : option bool; ir_Arch : string;
  ir_Compiler : string; ir_RuntimeDeps : list D; ir_Source : receiptSource;
}.
Arguments MkInstallReceipt {D}.
Arguments ir_Name {D}. Arguments ir_FullName {D}. Arguments ir_PkgVersion {D}. Arguments ir_Revision {D}.
Arguments ir_BottleRebuild {D}. Arguments ir_HomebrewVersion {D}. Arguments ir_BuiltAsBottle {D}. Arguments ir_PouredFromBottle {D}.
Arguments ir_Arch {D}. Arguments ir_Compiler {D}. Arguments ir_RuntimeDeps {D}. Arguments ir_Source {D}.

Definition with_deps {D D'} (r : installReceipt D) (deps : list D') : installReceipt D' :=
  MkInstallReceipt (ir_Name r) (ir_FullName r) (ir_PkgVersion r) (ir_Revision r) (ir_BottleRebuild r) (ir_HomebrewVersion r)
    (ir_BuiltAsBottle r) (ir_PouredFromBottle r) (ir_Arch r) (ir_Compiler r) deps (ir_Source r).

(** [encoding/json] on a receipt *)
Class ReceiptJSON := {
  (** the tokens of [Decoder.Token] *)
  receipt_tokens : bytes → decoder;
  (** the structure, its dependencies not yet decoded *)
  unmarshal_receipt : bytes → option (installReceipt encodedDependency);
  (** a JSON string *)
  unmarshal_string : string → option string;
  (** the members of an object and their raw texts, and back *)
  unmarshal_fields : bytes → option (gmap string string);
  marshal_fields : gmap string string → option bytes;
  marshal_dependencies : list ReceiptDependency → option string;
}.

Inductive receipt_error :=
| ReceiptDuplicate (e : json_error) | ReceiptDecode | ReceiptNotBottle | ReceiptNotPoured | ReceiptSpec | ReceiptStable | ReceiptScheme
| ReceiptTap | ReceiptName | ReceiptFullName | ReceiptPkgVersion | ReceiptRevision | ReceiptRebuild | ReceiptHomebrew | ReceiptArch
| ReceiptCompiler | DependencyInvalid (name : string) | DependencyDuplicate (name : string) | DependenciesDiffer
| DependencyDiffers (name : string) | DependenciesNotArray | TooManyDependencies.

(** ** Dependencies *)

Section dependencies.
Context `{J : !ReceiptJSON}.

Definition ReceiptDependency_UnmarshalJSON (encoded : encodedDependency) : option ReceiptDependency :=
  let make pkgVersion omitted :=
    MkReceiptDependency (ed_FullName encoded) (ed_Version encoded) (ed_Revision encoded) (ed_BottleRebuild encoded) pkgVersion
      (ed_DeclaredDirectly encoded) omitted in
  match ed_PkgVersion encoded with
  | None => Some (make "" true)
  | Some raw =>
      if bool_decide (strings_TrimSpace raw = "null") then None
      else pkgVersion ← unmarshal_string raw; Some (make pkgVersion false)
  end.

Definition decodeReceipt (data : bytes) : option (installReceipt ReceiptDependency) :=
  receipt ← unmarshal_receipt data;
  deps ← mapM ReceiptDependency_UnmarshalJSON (ir_RuntimeDeps receipt);
  Some (with_deps receipt deps).

End dependencies.

Definition normalize_omitted (dep : ReceiptDependency) : ReceiptDependency :=
  if negb (rd_pkgVersionOmitted dep) then dep
  else
    MkReceiptDependency (rd_FullName dep) (rd_Version dep) (rd_Revision dep) (rd_BottleRebuild dep)
      (PkgVersion (rd_Version dep) (rd_Revision dep)) (rd_DeclaredDirectly dep) false.

Definition normalizeOmittedReceiptDependencyPkgVersions (deps : list ReceiptDependency) : list ReceiptDependency :=
  normalize_omitted <$> deps.

Definition malformed_dependency (dep : ReceiptDependency) : bool :=
  bool_decide (rd_FullName dep = "") || bool_decide (rd_Version dep = "") || bool_decide (rd_PkgVersion dep = "")
  || (rd_Revision dep <? 0) || (rd_BottleRebuild dep <? 0).

Definition validate_dependency (seen : gset string) (dep : ReceiptDependency) : result receipt_error (gset string) :=
  _ ← check (malformed_dependency dep) (DependencyInvalid (rd_FullName dep));
  _ ← check (bool_decide (rd_FullName dep ∈ seen)) (DependencyDuplicate (rd_FullName dep));
  Ok ({[rd_FullName dep]} ∪ seen).

Definition validateReceiptDependencies (deps : list ReceiptDependency) : result receipt_error unit :=
  _ ← foldM_res validate_dependency ∅ deps; Ok tt.

Definition Z_Compare (a b : Z) : Z := if a <? b then -1 else if b <? a then 1 else 0.

(** The order of [sortDeps] *)
Definition dependency_cmp : ReceiptDependency → ReceiptDependency → Z :=
  cmp_then (cmp_on rd_FullName strings_Compare)
    (cmp_then (cmp_on rd_PkgVersion strings_Compare)
       (cmp_then (cmp_on rd_Revision Z_Compare) (cmp_on rd_BottleRebuild Z_Compare))).

#[export] Instance ReceiptDependency_eq_dec : EqDecision ReceiptDependency.
Proof. solve_decision. Defined.

Definition compareReceiptDependencies (actual expected : list ReceiptDependency) : result receipt_error unit :=
  _ ← validateReceiptDependencies actual;
  check (negb (bool_decide (slices_SortFunc dependency_cmp actual = slices_SortFunc dependency_cmp expected))) DependenciesDiffer.

(** ** After installation: members of the closure *)

Definition dependencies_by_name (deps : list ReceiptDependency) : gmap string ReceiptDependency :=
  foldl (λ m dep, <[rd_FullName dep := dep]> m) ∅ deps.

Definition member_differs (expectedByName : gmap string ReceiptDependency) (dep : ReceiptDependency) : bool :=
  match expectedByName !! rd_FullName dep with
  | None => true
  | Some want =>
      negb (bool_decide (rd_Version dep = rd_Version want)) || negb (rd_Revision dep =? rd_Revision want)
      || negb (bool_decide (rd_PkgVersion dep = rd_PkgVersion want))
      || (negb (rd_BottleRebuild dep =? 0) && negb (rd_BottleRebuild dep =? rd_BottleRebuild want))
  end.

Definition compareInstalledReceiptDependencyMembers (actual expected : list ReceiptDependency) : result receipt_error unit :=
  let expectedByName := dependencies_by_name expected in
  foldM_res (λ _ dep, check (member_differs expectedByName dep) (DependencyDiffers (rd_FullName dep))) tt actual.

Definition compareInstalledReceiptDependencies (actual expected : list ReceiptDependency) : result receipt_error unit :=
  _ ← validateReceiptDependencies actual;
  _ ← validateReceiptDependencies expected;
  _ ← check (negb (length actual =? length expected)%nat) DependenciesDiffer;
  compareInstalledReceiptDependencyMembers actual expected.

Definition compareInstalledReceiptDependencySubset (actual expected : list ReceiptDependency) : result receipt_error unit :=
  _ ← validateReceiptDependencies actual;
  _ ← validateReceiptDependencies expected;
  _ ← check (length expected <=? length actual)%nat DependenciesDiffer;
  compareInstalledReceiptDependencyMembers actual expected.

(** ** The compiler of a poured bottle *)

Definition numericCompilerVersion (version : string) : bool :=
  forallb (λ part, negb (bool_decide (part = "")) && all_bytes isDigit part) (strings_Split version ".").

Definition compilerBaseWithOptionalVersion (actual expected : string) : bool :=
  if bool_decide (actual = "") || bool_decide (expected = "") || negb (strings_HasPrefix expected (actual +:+ "-")) then false
  else numericCompilerVersion (strings_TrimPrefix expected (actual +:+ "-")).

Definition in_family (value family : string) : bool :=
  bool_decide (value = family)
  || (strings_HasPrefix value (family +:+ "-") && numericCompilerVersion (strings_TrimPrefix value (family +:+ "-"))).

Definition compilerFamily (value : string) : string := default "" (List.find (in_family value) ["clang"; "gcc"]).

Definition installedCompilerMatches (actual expected bottleTag : string) : bool :=
  compilerBaseWithOptionalVersion actual expected
  || (bool_decide (bottleTag = "all") && negb (bool_decide (compilerFamily actual = ""))
      && negb (bool_decide (compilerFamily expected = ""))).

(** ** The identity of a receipt *)

Definition differs_unless_empty (value expected : string) : bool := negb (bool_decide (value = "")) && negb (bool_decide (value = expected)).

Definition differs_if_some (value : option Z) (expected : Z) : bool := match value with Some v => negb (v =? expected) | None => false end.

Definition is_true (b : option bool) : bool := match b with Some b => b | None => false end.

(** A field that must match when something is expected of it *)
Definition required_differs (value expected : string) : bool := negb (bool_decide (expected = "")) && negb (bool_decide (value = expected)).

Definition checkReceipt {D} (receipt : installReceipt D) (expected : Expectation) (requirePoured : bool) : result receipt_error unit :=
  let source := ir_Source receipt in
  let versions := rs_Versions source in
  _ ← check (negb (is_true (ir_BuiltAsBottle receipt))) ReceiptNotBottle;
  _ ← check (requirePoured && negb (is_true (ir_PouredFromBottle receipt))) ReceiptNotPoured;
  _ ← check (negb (bool_decide (rs_Spec source = "stable"))) ReceiptSpec;
  _ ← check (bool_decide (rv_Stable versions = "") || negb (bool_decide (rv_Stable versions = ex_FormulaVersion expected))) ReceiptStable;
  _ ← check (negb (bool_decide (rv_VersionScheme versions = Some (ex_VersionScheme expected)))) ReceiptScheme;
  _ ← check (required_differs (rs_Tap source) (ex_ExpectedTap expected)) ReceiptTap;
  _ ← check (differs_unless_empty (ir_Name receipt) (ex_Name expected)) ReceiptName;
  _ ← check (negb (bool_decide (ex_FullName expected = "")) && differs_unless_empty (ir_FullName receipt) (ex_FullName expected)) ReceiptFullName;
  _ ← check (differs_unless_empty (ir_PkgVersion receipt) (ex_PkgVersion expected)) ReceiptPkgVersion;
  _ ← check (differs_if_some (ir_Revision receipt) (ex_FormulaRevision expected)) ReceiptRevision;
  _ ← check (differs_if_some (ir_BottleRebuild receipt) (ex_BottleRebuild expected)) ReceiptRebuild;
  _ ← check (required_differs (ir_HomebrewVersion receipt) (ex_HomebrewVersion expected)) ReceiptHomebrew;
  _ ← check (required_differs (ir_Arch receipt) (ex_Arch expected)) ReceiptArch;
  check (required_differs (ir_Compiler receipt) (ex_Compiler expected)
         && (negb requirePoured
             || negb (installedCompilerMatches (ir_Compiler receipt) (ex_Compiler expected) (ex_BottleTag expected)))) ReceiptCompiler.

Definition receipt_evidence {D} (receipt : installReceipt D) : ReceiptEvidence :=
  let versions := rs_Versions (ir_Source receipt) in
  MkReceiptEvidence "" "" 0 (rv_Stable versions) (default 0 (rv_VersionScheme versions)) true (is_true (ir_PouredFromBottle receipt))
    (ir_HomebrewVersion receipt) (ir_Arch receipt) (Z.of_nat (length (ir_RuntimeDeps receipt))).

(** ** Validating and discovering *)

Definition maxDiscoveredRuntimeDependencies : Z := 256.

Definition bad_discovered_version (version : string) : bool :=
  bool_decide (version = "") || negb (bool_decide (strings_TrimSpace version = version))
  || strings_ContainsAny version ("/\ " +:+ String "009" (String "013" (String newline ""))) || containsControl version.

(** One round of the loop: the dependency under its canonical name *)
Definition discover_dependency (st : gset FormulaID * list ReceiptDependency) (dep : ReceiptDependency)
    : result receipt_error (gset FormulaID * list ReceiptDependency) :=
  let '(seen, done) := st in
  let invalid := DependencyInvalid (rd_FullName dep) in
  id ← map_err (λ _, invalid) (Parse (rd_FullName dep));
  _ ← check (bad_discovered_version (rd_Version dep)) invalid;
  _ ← check ((rd_Revision dep <? 0) || (rd_BottleRebuild dep <? 0)) invalid;
  _ ← check (negb (bool_decide (rd_PkgVersion dep = PkgVersion (rd_Version dep) (rd_Revision dep)))) invalid;
  _ ← check (bool_decide (id ∈ seen)) (DependencyDuplicate (rd_FullName dep));
  Ok ({[id]} ∪ seen,
      done ++ [MkReceiptDependency (FormulaID_String id) (rd_Version dep) (rd_Revision dep) (rd_BottleRebuild dep) (rd_PkgVersion dep)
                 (rd_DeclaredDirectly dep) (rd_pkgVersionOmitted dep)]).

Definition normalizeDiscoveredReceiptDependencies (deps : list ReceiptDependency) : result receipt_error (list ReceiptDependency) :=
  _ ← check (maxDiscoveredRuntimeDependencies <? Z.of_nat (length deps)) TooManyDependencies;
  '(_, found) ← foldM_res discover_dependency (∅, []) deps;
  Ok (sort_by rd_FullName found).

(** The first byte that is not white space opens an array *)
Fixpoint rawJSONArray (data : string) : bool :=
  match data with
  | EmptyString => false
  | String b data =>
      if bool_decide (b ∈ [" "; "009"; "013"; "010"]%char) then rawJSONArray data else bool_decide (b = "["%char)
  end.

Section receipts.
Context `{J : !ReceiptJSON}.

Definition decodeAndValidateReceipt (data : bytes) (expected : Expectation) (requirePoured : bool)
    : result receipt_error (installReceipt ReceiptDependency * ReceiptEvidence) :=
  _ ← map_err ReceiptDuplicate (bottle_validateUniqueJSON (receipt_tokens data));
  match decodeReceipt data with
  | None => Err ReceiptDecode
  | Some receipt =>
      let receipt := with_deps receipt (normalizeOmittedReceiptDependencyPkgVersions (ir_RuntimeDeps receipt)) in
      _ ← checkReceipt receipt expected requirePoured;
      Ok (receipt, receipt_evidence receipt)
  end.

Definition validateReceiptWithPolicy (data : bytes) (expected : Expectation) (requirePoured : bool) : result receipt_error ReceiptEvidence :=
  '(receipt, evidence) ← decodeAndValidateReceipt data expected requirePoured;
  _ ← (if requirePoured then compareInstalledReceiptDependencies (ir_RuntimeDeps receipt) (ex_Dependencies expected)
       else compareReceiptDependencies (ir_RuntimeDeps receipt) (ex_Dependencies expected));
  Ok evidence.

Definition validateReceipt (data : bytes) (expected : Expectation) : result receipt_error ReceiptEvidence :=
  validateReceiptWithPolicy data expected false.

(** The raw [runtime_dependencies] must be there and be an array. *)
Definition has_dependency_array (data : bytes) : result receipt_error (gmap string string) :=
  match unmarshal_fields data with
  | None => Err ReceiptDecode
  | Some fields =>
      _ ← check (negb (match fields !! "runtime_dependencies" with Some raw => rawJSONArray raw | None => false end)) DependenciesNotArray;
      Ok fields
  end.

Definition discoverReceiptDependencies (data : bytes) (expected : Expectation)
    : result receipt_error (ReceiptEvidence * list ReceiptDependency) :=
  '(receipt, evidence) ← decodeAndValidateReceipt data expected false;
  _ ← has_dependency_array data;
  dependencies ← normalizeDiscoveredReceiptDependencies (ir_RuntimeDeps receipt);
  Ok (evidence, dependencies).

(** ** Verify and InspectForCatalog *)

Context `{U : !UnicodeTables, L : !BottleLib}.

Definition Verify (sp : spool) (r : option reader) (expected : Expectation) (opts : Options) : result VerificationError VerifyResult :=
  '(res, _) ← verifyWithReceiptValidator (λ data e, ev ← validateReceipt data e; Ok (ev, tt)) sp r expected opts;
  Ok res.

Definition InspectForCatalog (sp : spool) (r : option reader) (expected : Expectation) (opts : Options)
    : result VerificationError (VerifyResult * list ReceiptDependency) :=
  _ ← refuse (negb (bool_decide (ex_Dependencies expected = []))) CodeInvalidExpectation "";
  '(res, dependencies) ← verifyWithReceiptValidator discoverReceiptDependencies sp r expected (MkOptions (op_Limits opts) false);
  Ok (res, default [] dependencies).

End receipts.

(** ** Facts *)

Definition sound_dependencies (deps : list ReceiptDependency) : Prop :=
  Forall (λ d, malformed_dependency d = false) deps ∧ NoDup (rd_FullName <$> deps).

Lemma validate_dependencies_loop seen deps :
  is_ok (foldM_res validate_dependency seen deps) = true ↔
  Forall (λ d, malformed_dependency d = false) deps ∧ NoDup (rd_FullName <$> deps) ∧ ∀ d, d ∈ deps → rd_FullName d ∉ seen.
Proof.
  revert seen. induction deps as [|d deps IH]; intros seen; cbn [foldM_res].
  { split; [intros _; split_and!; [done|apply NoDup_nil_2|set_solver]|done]. }
  destruct (malformed_dependency d) eqn:Hm.
  { split; [unfold validate_dependency; rewrite Hm; done|]. intros [Hf _]. apply Forall_cons in Hf as [? _]. congruence. }
  destruct (decide (rd_FullName d ∈ seen)) as [Hin|Hin].
  { split; [unfold validate_dependency; rewrite Hm, bool_decide_eq_true_2 by done; done|].
    intros (_ & _ & H). exfalso. apply (H d); [set_solver|done]. }
  assert (validate_dependency seen d = Ok ({[rd_FullName d]} ∪ seen)) as Hv.
  { unfold validate_dependency. by rewrite Hm, bool_decide_eq_false_2. }
  rewrite Hv. etrans; [exact (IH ({[rd_FullName d]} ∪ seen))|]. rewrite Forall_cons, fmap_cons, NoDup_cons. split.
  - intros (Hf & Hnd & Hs). split_and!; [done|done| |done|].
    + intros (d' & Heq & Hd')%list_elem_of_fmap. apply (Hs d' Hd'). set_solver.
    + intros d' [->|Hd']%elem_of_cons; [done|]. specialize (Hs d' Hd'). set_solver.
  - intros ([_ Hf] & [Hnin Hnd] & Hs). split_and!; [done|done|]. intros d' Hd'. assert (rd_FullName d' ≠ rd_FullName d) as Hne.
    { intros Heq. apply Hnin. rewrite <-Heq. apply list_elem_of_fmap. by exists d'. }
    specialize (Hs d'). set_solver.
Qed.

Lemma validateReceiptDependencies_ok deps : validateReceiptDependencies deps = Ok tt ↔ sound_dependencies deps.
Proof.
  pose proof (validate_dependencies_loop ∅ deps) as H. unfold validateReceiptDependencies, sound_dependencies.
  destruct (foldM_res validate_dependency ∅ deps) as [s|e]; cbn in *.
  - split; [intros _|done]. destruct H as [H _]. specialize (H eq_refl). tauto.
  - split; [done|]. intros [Hf Hnd]. exfalso. destruct H as [_ H]. enough (false = true) by done. apply H. split_and!; [done..|]. set_solver.
Qed.

#[local] Instance Z_order : CmpOrder Z_Compare.
Proof.
  split; unfold Z_Compare; [intros a b|intros a b c]; repeat case_match; case_bool; lia.
Qed.

#[local] Instance dependency_order : CmpOrder dependency_cmp.
Proof. unfold dependency_cmp. apply _. Qed.

(** Dependencies with different names are sorted in one way only. *)
Lemma dependency_cmp_name a b : dependency_cmp a b = 0 → rd_FullName a = rd_FullName b.
Proof.
  unfold dependency_cmp. unfold cmp_then at 1. destruct (cmp_on rd_FullName strings_Compare a b =? 0) eqn:E; cbn [negb].
  - apply Z.eqb_eq in E. intros _. by apply Compare_eq.
  - apply Z.eqb_neq in E. done.
Qed.

(** before installation the runtime dependencies of a receipt are accepted
    exactly when they are well formed, no two have one name, and they are the
    authenticated ones in some order: every field of every dependency agrees,
    and none is missing or added. *)
Theorem compareReceiptDependencies_iff actual expected :
  compareReceiptDependencies actual expected = Ok tt ↔ sound_dependencies actual ∧ actual ≡ₚ expected.
Proof.
  unfold compareReceiptDependencies. rewrite bind_ok. split.
  - intros ([] & Hv%validateReceiptDependencies_ok & Hc%check_ok). split; [done|]. apply negb_false_iff, bool_decide_eq_true in Hc.
    rewrite <-(SortFunc_Permutation dependency_cmp actual), Hc. apply SortFunc_Permutation.
  - intros [Hs Hp]. exists tt. split; [by apply validateReceiptDependencies_ok|]. apply check_ok, negb_false_iff, bool_decide_eq_true.
    apply SortFunc_unique_in; [apply _| |done]. intros x y Hx Hy Heq%dependency_cmp_name. destruct Hs as [_ Hnd].
    by eapply (NoDup_fmap_inj rd_FullName).
Qed.

(** ** Discovery *)

Record discovered (found : list ReceiptDependency) : Prop := {
  di_names : NoDup (rd_FullName <$> found);
  di_each d : d ∈ found → (∃ id, Parse (rd_FullName d) = Ok id ∧ rd_FullName d = FormulaID_String id) ∧
    0 <= rd_Revision d ∧ 0 <= rd_BottleRebuild d ∧ rd_PkgVersion d = PkgVersion (rd_Version d) (rd_Revision d);
}.

Lemma discover_loop deps seen found :
  foldM_res discover_dependency (∅, []) deps = Ok (seen, found) →
  discovered found ∧ length found = length deps ∧
  (∀ d, d ∈ found → ∃ id, id ∈ seen ∧ valid_id id ∧ rd_FullName d = FormulaID_String id).
Proof.
  intros Hf.
  refine (foldM_res_inv (λ visited st, discovered st.2 ∧ length st.2 = length visited ∧
    (∀ d, d ∈ st.2 → ∃ id, id ∈ st.1 ∧ valid_id id ∧ rd_FullName d = FormulaID_String id)) _ _ _ _ _ _ Hf).
  { cbn. split_and!; [split; [apply NoDup_nil_2|set_solver]|done|set_solver]. }
  intros visited dep [s0 f0] [s1 f1] ([Hnd Heach] & Hlen & Hseen) _. cbn in *.
  intros (id & Hid%map_err_ok & H)%bind_ok. apply bind_ok in H as ([] & _ & H). apply bind_ok in H as ([] & Hneg%check_ok & H).
  apply bind_ok in H as ([] & Hpkg%check_ok & H). apply bind_ok in H as ([] & Hdup%check_ok%bool_decide_eq_false & [= <- <-]).
  apply orb_false_iff in Hneg as [?%Z.ltb_ge ?%Z.ltb_ge]. apply negb_false_iff, bool_decide_eq_true in Hpkg.
  pose proof (Parse_ok_valid _ _ Hid) as Hvalid. split_and!.
  - split.
    + rewrite fmap_app, NoDup_app. split_and!; [done| |apply NoDup_singleton].
      intros name (d & -> & Hd)%list_elem_of_fmap Heq%list_elem_of_singleton. destruct (Hseen d Hd) as (id' & Hin & Hv' & Hd'). cbn in Heq.
      apply Hdup. rewrite Hd' in Heq. pose proof (Parse_valid _ Hv') as Hp'. rewrite Heq, (Parse_valid _ Hvalid) in Hp'. by injection Hp' as <-.
    + intros d [Hd|Hd]%elem_of_app; [by apply Heach|]. apply list_elem_of_singleton in Hd as ->. cbn. split_and!; [|done..]. exists id. split; [by apply Parse_valid|done].
  - rewrite !length_app. cbn. lia.
  - intros d [Hd|Hd]%elem_of_app; [|apply list_elem_of_singleton in Hd as ->; exists id; split_and!; [set_solver|done..]]. destruct (Hseen d Hd) as (id' & ? & ? & ?). exists id'. set_solver.
Qed.

Lemma normalizeDiscovered_ok deps found :
  normalizeDiscoveredReceiptDependencies deps = Ok found →
  discovered found ∧ StronglySorted (key_le rd_FullName) found ∧ length found = length deps ∧ Z.of_nat (length found) <= maxDiscoveredRuntimeDependencies.
Proof.
  unfold normalizeDiscoveredReceiptDependencies. intros ([] & Hmax%check_ok%Z.ltb_ge & H)%bind_ok. apply bind_ok in H as ([seen l] & Hl & [= <-]).
  apply discover_loop in Hl as ([Hnd Heach] & Hlen & _). pose proof (Permutation_length (sort_by_Permutation rd_FullName l)).
  split_and!; [|apply sort_by_StronglySorted|congruence|lia]. split; [by rewrite sort_by_fmap_Permutation|].
  intros d Hd%elem_of_sort_by. by apply Heach.
Qed.

Section receipt_facts.
Context `{J : !ReceiptJSON, U : !UnicodeTables, L : !BottleLib}.

(** What an accepted receipt says of itself *)
Record receipt_matches (receipt : installReceipt ReceiptDependency) (expected : Expectation) (poured : bool) : Prop := {
  rm_bottle : ir_BuiltAsBottle receipt = Some true;
  rm_poured : poured = true → ir_PouredFromBottle receipt = Some true;
  rm_stable : rs_Spec (ir_Source receipt) = "stable" ∧ rv_Stable (rs_Versions (ir_Source receipt)) = ex_FormulaVersion expected;
  rm_scheme : rv_VersionScheme (rs_Versions (ir_Source receipt)) = Some (ex_VersionScheme expected);
  rm_tap : ex_ExpectedTap expected = "" ∨ rs_Tap (ir_Source receipt) = ex_ExpectedTap expected;
  rm_name : ir_Name receipt = "" ∨ ir_Name receipt = ex_Name expected;
  rm_pkg : ir_PkgVersion receipt = "" ∨ ir_PkgVersion receipt = ex_PkgVersion expected;
  rm_arch : ex_Arch expected = "" ∨ ir_Arch receipt = ex_Arch expected;
}.

Lemma required_differs_false value expected : required_differs value expected = false ↔ expected = "" ∨ value = expected.
Proof. unfold required_differs. rewrite andb_false_iff, !negb_false_iff, !bool_decide_eq_true. done. Qed.

Lemma differs_unless_empty_false value expected : differs_unless_empty value expected = false ↔ value = "" ∨ value = expected.
Proof. unfold differs_unless_empty. rewrite andb_false_iff, !negb_false_iff, !bool_decide_eq_true. done. Qed.

Lemma is_true_Some b : negb (is_true b) = false ↔ b = Some true.
Proof. rewrite negb_false_iff. destruct b as [[]|]; cbn; naive_solver. Qed.

Lemma checkReceipt_ok receipt expected poured : checkReceipt receipt expected poured = Ok tt → receipt_matches receipt expected poured.
Proof.
  unfold checkReceipt. intros ([] & Hb%check_ok & H)%bind_ok. apply bind_ok in H as ([] & Hp%check_ok & H). apply bind_ok in H as ([] & Hs%check_ok & H).
  apply bind_ok in H as ([] & Hv%check_ok & H). apply bind_ok in H as ([] & Hsch%check_ok & H). apply bind_ok in H as ([] & Htap%check_ok & H).
  apply bind_ok in H as ([] & Hn%check_ok & H). apply bind_ok in H as ([] & _ & H). apply bind_ok in H as ([] & Hpk%check_ok & H).
  apply bind_ok in H as ([] & _ & H). apply bind_ok in H as ([] & _ & H). apply bind_ok in H as ([] & _ & H). apply bind_ok in H as ([] & Ha%check_ok & _).
  apply orb_false_iff in Hv as [_ Hv]. apply negb_false_iff, bool_decide_eq_true in Hs, Hv, Hsch. split; try done.
  - by apply is_true_Some.
  - intros ->. by apply is_true_Some.
  - by apply required_differs_false.
  - by apply differs_unless_empty_false.
  - by apply differs_unless_empty_false.
  - by apply required_differs_false.
Qed.

(** A receipt that the tokens, the decoder and the checks accepted *)
Definition reads_as (data : bytes) (receipt : installReceipt ReceiptDependency) (expected : Expectation) (poured : bool) : Prop :=
  bottle_validateUniqueJSON (receipt_tokens data) = Ok tt ∧
  (∃ raw, decodeReceipt data = Some raw ∧
    receipt = with_deps raw (normalizeOmittedReceiptDependencyPkgVersions (ir_RuntimeDeps raw))) ∧
  receipt_matches receipt expected poured.

Lemma decodeAndValidateReceipt_ok data expected poured receipt ev :
  decodeAndValidateReceipt data expected poured = Ok (receipt, ev) → reads_as data receipt expected poured ∧ ev = receipt_evidence receipt.
Proof.
  unfold decodeAndValidateReceipt. intros ([] & Hu%map_err_ok & H)%bind_ok. destruct (decodeReceipt data) as [raw|] eqn:Hd; [|done].
  apply bind_ok in H as ([] & Hc%checkReceipt_ok & [= <- <-]). split; [|done]. split_and!; [done| |done]. by exists raw.
Qed.

(** when a bottle with an embedded receipt is verified, the receipt is a JSON
    document without repeated members, it says it is a stable bottle of the
    expected version, version scheme and tap, contradicts the expected name,
    package version and architecture nowhere, and lists exactly the authenticated
    runtime dependencies, each once. *)
Theorem Verify_receipt sp r expected opts res ev
  (Hok : Verify sp r expected opts = Ok res) (Hev : vr_Receipt res = Some ev) :
  ∃ e' data receipt, normalizeExpectation expected (withDefaults (op_Limits opts)) = Some e' ∧ reads_as data receipt e' false ∧
    sound_dependencies (ir_RuntimeDeps receipt) ∧ ir_RuntimeDeps receipt ≡ₚ ex_Dependencies e' ∧
    rc_SHA256 ev = "sha256:" +:+ hex_sha256 data ∧ rc_Path ev = expectedReceiptPath e'.
Proof.
  apply bind_ok in Hok as ([res' seen] & Hv & [= ->]). apply verify_steps in Hv as (r' & e' & _ & Hl & Hn & _ & _ & _ & Hver).
  apply verify_archive_ok in Hver as (_ & _ & [_ Hrec _] & _); [|done]. destruct (Hrec ev Hev) as (entry & data & ev' & [] & _ & Hd & Hp & Hval & -> & _).
  apply bind_ok in Hval as (ev0 & Hval & [= ->]). unfold validateReceipt, validateReceiptWithPolicy in Hval.
  apply bind_ok in Hval as ([receipt ev1] & Hdec & Hval). apply bind_ok in Hval as ([] & Hcmp & _).
  apply decodeAndValidateReceipt_ok in Hdec as [Hread _]. apply bind_ok in Hcmp as ([] & Hs%validateReceiptDependencies_ok & Hc%check_ok).
  apply negb_false_iff, bool_decide_eq_true in Hc. exists e', data, receipt. split_and!; [done..| |apply Hd|done].
  rewrite <-(SortFunc_Permutation dependency_cmp (ir_RuntimeDeps receipt)), Hc. apply SortFunc_Permutation.
Qed.

(** inspecting a bottle for a catalog gives at most 256 runtime dependencies,
    sorted by their full identities, no identity twice, each with the package
    version its version and revision make; without a receipt there are none. *)
Theorem InspectForCatalog_discovers sp r expected opts res deps
  (Hok : InspectForCatalog sp r expected opts = Ok (res, deps)) :
  discovered deps ∧ StronglySorted (key_le rd_FullName) deps ∧ Z.of_nat (length deps) <= maxDiscoveredRuntimeDependencies ∧
  (vr_Receipt res = None → deps = []).
Proof.
  unfold InspectForCatalog in Hok. apply bind_ok in Hok as ([] & _ & H). apply bind_ok in H as ([res' seen] & Hv & [= -> <-]).
  apply verify_steps in Hv as (r' & e' & _ & Hl & _ & _ & _ & _ & Hver). apply verify_archive_ok in Hver as (_ & _ & [_ Hrec Hno] & _); [|exact Hl].
  destruct (vr_Receipt res) as [ev|] eqn:Hev.
  - destruct (Hrec ev eq_refl) as (entry & data & ev' & found & _ & _ & _ & Hval & _ & ->). unfold discoverReceiptDependencies in Hval.
    apply bind_ok in Hval as ([receipt ev1] & _ & H). apply bind_ok in H as (fields & _ & H). apply bind_ok in H as (l & Hl' & [= _ ->]).
    apply normalizeDiscovered_ok in Hl' as (? & ? & _ & ?). cbn. by split_and!.
  - rewrite (Hno eq_refl). cbn. split_and!; [split; [apply NoDup_nil_2|set_solver]|constructor|done|done].
Qed.

End receipt_facts.

(** ** An example *)

Module example_receipt.
Import example_bottle.

Definition receipt_text : bytes := text_bytes "{}".

Definition session : archive_session :=
  MkArchive 0
    (as_items example_bottle.session ++
     [MkTarItem [block] (header "jq/1.7/INSTALL_RECEIPT.json" "0" 2) [receipt_text] [receipt_text] false])
    [block; block] true [] true true AfterEOF.

#[local] Instance lib : BottleLib := {|
  hex_sha256 b := digest_of (length b);
  open_archive _ b := if bool_decide (b = example_gzip) then Some session else None;
  marshal_inventory l := Some (concat (text_bytes ∘ ie_Path <$> l));
|}.

(** A receipt with two dependencies; the second has no [pkg_version]. *)
#[local] Instance json : ReceiptJSON := {|
  receipt_tokens _ := MkDecoder [TDelim "{"; TDelim "}"] false;
  unmarshal_receipt _ := Some
    (MkInstallReceipt "jq" "" "" None (Some 0) "" (Some true) None "" ""
       [MkEncodedDependency "oniguruma" "6.9" 1 0 (Some "6.9_1") true; MkEncodedDependency "homebrew/core/glibc" "2.39" 0 0 None false]
       (MkReceiptSource "stable" "homebrew/core" (MkReceiptVersions "1.7" (Some 0))));
  unmarshal_string s := Some s;
  unmarshal_fields _ := Some {["runtime_dependencies" := " [ ]"]};
  marshal_fields _ := None;
  marshal_dependencies _ := None;
|}.

Definition dependencies : list ReceiptDependency :=
  [MkReceiptDependency "homebrew/core/glibc" "2.39" 0 0 "2.39" false false; MkReceiptDependency "oniguruma" "6.9" 1 0 "6.9_1" true false].

Definition with_dependencies (deps : list ReceiptDependency) : Expectation :=
  MkExpectation "jq" "homebrew/core/jq" "1.7" 0 "1.7" 0 0 "x86_64_linux" ("sha256:" +:+ digest_of (length example_gzip))
    (Z.of_nat (length example_gzip)) (digest_of (length example_gzip)) "" "" "" "homebrew/core" deps "" [] [].

Definition bottle_reader : option reader := Some (MkReader example_gzip false).
Definition required : Options := MkOptions (op_Limits options) true.

Definition verified := Verify (U := ascii_tables) good_spool bottle_reader (with_dependencies dependencies) required.
Definition inspected := InspectForCatalog (U := ascii_tables) good_spool bottle_reader (with_dependencies []) required.

Definition no_result : VerifyResult := MkVerifyResult "" "" "" "" 0 "" 0 "" [] (MkFormulaEvidence "" "" "" 0) None [].
Definition no_evidence : ReceiptEvidence := MkReceiptEvidence "" "" 0 "" 0 false false "" "" 0.

Definition verified_result : VerifyResult := match verified with Ok res => res | Err _ => no_result end.
Definition evidence : ReceiptEvidence := default no_evidence (vr_Receipt verified_result).
Definition inspected_result : VerifyResult := match inspected with Ok (res, _) => res | Err _ => no_result end.
Definition found : list ReceiptDependency := match inspected with Ok (_, deps) => deps | Err _ => [] end.

Lemma verified_ok : verified = Ok verified_result ∧ vr_Receipt verified_result = Some evidence.
Proof. split; vm_compute; reflexivity. Qed.

Lemma inspected_ok : inspected = Ok (inspected_result, found).
Proof. vm_compute. reflexivity. Qed.

End example_receipt.

Lemma Verify_receipt_witness :
  rc_RuntimeDepCount example_receipt.evidence = 2 ∧
  ∃ e' data receipt,
    normalizeExpectation (U := ascii_tables) (example_receipt.with_dependencies example_receipt.dependencies)
      (withDefaults (op_Limits example_receipt.required)) = Some e' ∧
    reads_as (J := example_receipt.json) data receipt e' false ∧ ir_RuntimeDeps receipt ≡ₚ ex_Dependencies e'.
Proof.
  split; [vm_compute; reflexivity|].
  destruct (Verify_receipt (J := example_receipt.json) (U := ascii_tables) (L := example_receipt.lib) example_bottle.good_spool
    example_receipt.bottle_reader (example_receipt.with_dependencies example_receipt.dependencies) example_receipt.required
    example_receipt.verified_result example_receipt.evidence (proj1 example_receipt.verified_ok) (proj2 example_receipt.verified_ok))
    as (e' & data & receipt & ? & ? & _ & ? & _).
  by exists e', data, receipt.
Defined.

Lemma InspectForCatalog_discovers_witness :
  rd_FullName <$> example_receipt.found = ["homebrew/core/glibc"; "homebrew/core/oniguruma"] ∧ discovered example_receipt.found.
Proof.
  split; [vm_compute; reflexivity|].
  exact (proj1 (InspectForCatalog_discovers (J := example_receipt.json) (U := ascii_tables) (L := example_receipt.lib) example_bottle.good_spool
    example_receipt.bottle_reader (example_receipt.with_dependencies []) example_receipt.required
    example_receipt.inspected_result example_receipt.found example_receipt.inspected_ok)).
Defined.
