(* ===== verification/InstalledReceipt.v ===== *)
(** * internal/bottle: the receipt of an installed keg

    The second half of [receipt.go]: the dependencies an installed receipt must
    list are those of the verified closure that the Formula reaches, through the
    edges of the signed graph and through the edges its authenticated bottle tab
    declared directly; and the expectation of a node of a resolution record
    ([types.go]). *)

From S2P Require Import Prelude GoStrings JsonUnique Regex Version FormulaId Graph ClosureGraph Resolution.
From S2P Require Import BottleStreams BottleHeader BottleLinks BottleVerify BottleFacts BottleReceipt.
From stdpp Require Import options.
Local Open Scope Z_scope.

#[export] Instance Requirement_eq_dec : EqDecision Requirement.
Proof. solve_decision. Defined.

#[export] Instance RuntimeDependency_eq_dec : EqDecision RuntimeDependency.
Proof. solve_decision. Defined.

(** ** The expectation of a node *)

Definition directDependencyByName (dependencies : list Requirement) (name : string) : bool :=
  existsb (λ d, bool_decide (rq_Name d = name) && rq_Direct d) dependencies.

Definition receipt_dependency (dep : RuntimeDependency) : ReceiptDependency :=
  MkReceiptDependency (Resolution.rd_FullName dep) (Resolution.rd_Version dep) (Resolution.rd_Revision dep)
    (Resolution.rd_BottleRebuild dep) (Resolution.rd_PkgVersion dep) (Resolution.rd_DeclaredDirectly dep) false.

Definition ExpectationFromNode (node : Node) : Expectation :=
  let bottle := n_Bottle node in
  let tab := bt_Tab bottle in
  MkExpectation (n_Name node) (n_FullName node) (n_FormulaVersion node) (n_FormulaRevision node) (n_PkgVersion node)
    (n_VersionScheme node) (n_BottleRebuild node) (bt_Tag bottle) (d_Digest (bt_Layer bottle)) (d_Size (bt_Layer bottle))
    (bt_HomebrewSHA256 bottle) (tab_HomebrewVersion tab) (tab_Arch tab) (tab_Compiler tab) (tapFromFullName (n_FullName node))
    (receipt_dependency <$> tab_Dependencies tab) (n_UpstreamFormulaID node)
    (slices_Sort (rq_Name <$> filter (λ d, rq_Direct d = true) (n_Dependencies node)))
    (if bool_decide (n_Name node = "certifi") && bool_decide (n_FullName node = "homebrew/core/certifi")
        && directDependencyByName (n_Dependencies node) "ca-certificates"
     then [ExternalSymlinkRuleCertifiSharedCA] else []).

Definition VerifyNode `{!ReceiptJSON, !UnicodeTables, !BottleLib} (sp : spool) (r : option reader) (node : Node) (opts : Options)
    : result VerificationError VerifyResult :=
  Verify sp r (ExpectationFromNode node) opts.

(** ** Errors *)

Inductive closure_error :=
| ClosureInvalid (name : string) | ClosureDuplicate (name : string) | RootAbsent | RootInconsistent
| GraphCycle (name : string) | GraphMissing (name : string) | GraphDependency (name dep : string)
| HistoricalInvalid (name : string) | MinimumPartial (dep : string) | MinimumInconsistent (dep : string)
| MinimumInvalid (dep : string) | MinimumUnsatisfied (dep : string) | RebuildTooLow (dep : string) | ClosureFuel.

(** ** Minimums *)

(** The dependencies of a bottle tab by their canonical identities *)
Definition add_historical (m : gmap string RuntimeDependency) (dep : RuntimeDependency)
    : result closure_error (gmap string RuntimeDependency) :=
  let invalid := HistoricalInvalid (Resolution.rd_FullName dep) in
  identity ← map_err (λ _, invalid) (Parse (Resolution.rd_FullName dep));
  let name := FormulaID_String identity in
  _ ← check (bool_decide (name = "") || bool_decide (Resolution.rd_PkgVersion dep = "") || (Resolution.rd_Revision dep <? 0)
             || (Resolution.rd_BottleRebuild dep <? 0)) invalid;
  _ ← check (bool_decide (is_Some (m !! name))) invalid;
  Ok (<[name := dep]> m).

Definition historicalDependencyMinimums (dependencies : list RuntimeDependency)
    : result closure_error (gmap string RuntimeDependency) :=
  foldM_res add_historical ∅ dependencies.

Notation graph_state := (gmap string color).

Section closure.
Context `{U : !UnicodeTables}.

Definition validateSelectedMinimum (requirement : Requirement) (selected : Node) : result closure_error unit :=
  let dep := rq_Name requirement in
  if bool_decide (rq_Minimum requirement = "") then
    check (negb (rq_Revision requirement =? 0) || negb (rq_BottleRebuild requirement =? 0)) (MinimumPartial dep)
  else
    '(minimumVersion, minimumRevision) ← map_err (λ _, MinimumInvalid dep) (SplitPkgVersion (rq_Minimum requirement));
    let requiredRevision := Z.max (rq_Revision requirement) minimumRevision in
    _ ← check (negb (AtLeast (n_FormulaVersion selected) (n_FormulaRevision selected) minimumVersion requiredRevision)) (MinimumUnsatisfied dep);
    check ((Compare (n_FormulaVersion selected) minimumVersion =? 0) && (n_FormulaRevision selected =? requiredRevision)
           && (n_BottleRebuild selected <? rq_BottleRebuild requirement)) (RebuildTooLow dep).

(** ** The signed graph *)

(** One requirement of [validateCurrentDependencyGraph]; [visit] is the recursive call *)
Definition current_dependency (nodes : gmap string Node) (visit : string → graph_state → result closure_error graph_state) (name : string)
    (st : gset string * graph_state) (requirement : Requirement) : result closure_error (gset string * graph_state) :=
  let '(seen, state) := st in
  let dep := rq_Name requirement in
  _ ← check (bool_decide (dep = "")) (GraphDependency name dep);
  _ ← check (bool_decide (dep ∈ seen)) (GraphDependency name dep);
  _ ← check (negb (bool_decide (is_Some (nodes !! dep)))) (GraphDependency name dep);
  state ← visit dep state;
  Ok ({[dep]} ∪ seen, state).

Fixpoint current_visit (nodes : gmap string Node) (fuel : nat) (name : string) (state : graph_state) : result closure_error graph_state :=
  match fuel with
  | O => Err ClosureFuel
  | S fuel =>
      match state !! name with
      | Some Gray => Err (GraphCycle name)
      | Some Black => Ok state
      | None =>
          match nodes !! name with
          | None => Err (GraphMissing name)
          | Some node =>
              '(_, state) ← foldM_res (current_dependency nodes (current_visit nodes fuel) name) (∅, <[name := Gray]> state) (n_Dependencies node);
              Ok (<[name := Black]> state)
          end
      end
  end.

(** Deep enough for every chain of nodes *)
Definition graph_fuel (nodes : gmap string Node) : nat := S (S (size nodes)).

Definition validateCurrentDependencyGraph (nodes : gmap string Node) : result closure_error unit :=
  _ ← foldM_res (λ state name, current_visit nodes (graph_fuel nodes) name state) ∅ (slices_Sort (map_to_list nodes).*1);
  Ok tt.

(** ** The edges of the installed graph

    An edge maps to [true] when only the historical Formula declared it. *)

Definition with_minimum (r : Requirement) (minimum : string) (revision rebuild : Z) : Requirement :=
  MkRequirement (rq_Name r) minimum revision rebuild (rq_Direct r).

(** A requirement whose minimum is that of the bottle tab, where the tab has one *)
Definition effective_requirement (requirement : Requirement) (old : option RuntimeDependency) : result closure_error Requirement :=
  let dep := rq_Name requirement in
  match old with
  | None => Ok requirement
  | Some old =>
      if bool_decide (rq_Minimum requirement = "") then
        _ ← check ((negb (rq_Revision requirement =? 0) && negb (rq_Revision requirement =? Resolution.rd_Revision old))
                   || (negb (rq_BottleRebuild requirement =? 0) && negb (rq_BottleRebuild requirement =? Resolution.rd_BottleRebuild old)))
              (MinimumPartial dep);
        Ok (with_minimum requirement (Resolution.rd_PkgVersion old) (Resolution.rd_Revision old) (Resolution.rd_BottleRebuild old))
      else
        _ ← check (negb (bool_decide (rq_Minimum requirement = Resolution.rd_PkgVersion old))
                   || negb (rq_Revision requirement =? Resolution.rd_Revision old)
                   || negb (rq_BottleRebuild requirement =? Resolution.rd_BottleRebuild old)) (MinimumInconsistent dep);
        Ok requirement
  end.

Definition add_current_edge (nodes : gmap string Node) (historical : gmap string RuntimeDependency) (name : string)
    (st : gset string * gmap string bool) (requirement : Requirement) : result closure_error (gset string * gmap string bool) :=
  let '(seenCurrent, edges) := st in
  let dep := rq_Name requirement in
  _ ← check (bool_decide (dep = "") || (rq_Revision requirement <? 0) || (rq_BottleRebuild requirement <? 0)) (GraphDependency name dep);
  _ ← check (bool_decide (dep ∈ seenCurrent)) (GraphDependency name dep);
  match nodes !! dep with
  | None => Err (GraphDependency name dep)
  | Some child =>
      effective ← effective_requirement requirement (historical !! n_FullName child);
      _ ← validateSelectedMinimum effective child;
      Ok ({[dep]} ∪ seenCurrent, <[dep := false]> edges)
  end.

(** An edge the bottle tab declared directly, when its target is selected today *)
Definition add_historical_edge (nodesByFullName : gmap string Node) (edges : gmap string bool) (entry : string * RuntimeDependency)
    : result closure_error (gmap string bool) :=
  let '(historicalFullName, dependency) := entry in
  if negb (Resolution.rd_DeclaredDirectly dependency) then Ok edges
  else
    match nodesByFullName !! historicalFullName with
    | None => Ok edges
    | Some child =>
        let requirement :=
          MkRequirement (n_Name child) (Resolution.rd_PkgVersion dependency) (Resolution.rd_Revision dependency)
            (Resolution.rd_BottleRebuild dependency) true in
        _ ← validateSelectedMinimum requirement child;
        Ok (match edges !! n_Name child with Some _ => edges | None => <[n_Name child := true]> edges end)
    end.

(** The historical map is walked in any order: its keys name different nodes. *)
Definition node_edges (nodes nodesByFullName : gmap string Node) (name : string) (node : Node) : result closure_error (gmap string bool) :=
  historical ← historicalDependencyMinimums (tab_Dependencies (bt_Tab (n_Bottle node)));
  '(_, edges) ← foldM_res (add_current_edge nodes historical name) (∅, ∅) (n_Dependencies node);
  foldM_res (add_historical_edge nodesByFullName) edges (map_to_list historical).

(** ** The walk *)

Record visit_state := MkVisit {
  vs_done : gset string; vs_active : gmap string nat; vs_stack : list string; vs_edges : list bool; vs_resolved : list ReceiptDependency;
}.

Definition receiptDependencyFullName (node : Node) : string :=
  if strings_HasPrefix (n_FullName node) "homebrew/core/" then strings_TrimPrefix (n_FullName node) "homebrew/core/" else n_FullName node.

Definition installed_dependency (rootDirect : gset string) (name : string) (node : Node) : ReceiptDependency :=
  MkReceiptDependency (receiptDependencyFullName node) (n_FormulaVersion node) (n_FormulaRevision node) (n_BottleRebuild node)
    (n_PkgVersion node) (bool_decide (name ∈ rootDirect)) false.

Definition enter_node (name : string) (st : visit_state) : visit_state :=
  MkVisit (vs_done st) (<[name := length (vs_stack st)]> (vs_active st)) (vs_stack st ++ [name]) (vs_edges st) (vs_resolved st).

Definition leave_node (rootDirect : gset string) (root name : string) (node : Node) (st : visit_state) : visit_state :=
  MkVisit ({[name]} ∪ vs_done st) (delete name (vs_active st)) (take (length (vs_stack st) - 1) (vs_stack st)) (vs_edges st)
    (if bool_decide (name = root) then vs_resolved st else vs_resolved st ++ [installed_dependency rootDirect name node]).

Definition push_edge (historical : bool) (st : visit_state) : visit_state :=
  MkVisit (vs_done st) (vs_active st) (vs_stack st) (vs_edges st ++ [historical]) (vs_resolved st).

Definition pop_edge (st : visit_state) : visit_state :=
  MkVisit (vs_done st) (vs_active st) (vs_stack st) (take (length (vs_edges st) - 1) (vs_edges st)) (vs_resolved st).

(** One target: an open node closes a cycle, which only a historical edge excuses *)
Definition visit_target (visit : string → visit_state → result closure_error visit_state) (edges : gmap string bool) (st : visit_state)
    (target : string) : result closure_error visit_state :=
  let historical := default false (edges !! target) in
  match vs_active st !! target with
  | Some index =>
      _ ← check (negb (historical || existsb id (drop index (vs_edges st)))) (GraphCycle target);
      Ok st
  | None =>
      st ← visit target (push_edge historical st);
      Ok (pop_edge st)
  end.

Definition edge_targets (edges : gmap string bool) : list string := slices_Sort (map_to_list edges).*1.

Fixpoint installed_visit (nodes nodesByFullName : gmap string Node) (rootDirect : gset string) (root : string) (fuel : nat) (name : string)
    (st : visit_state) : result closure_error visit_state :=
  match fuel with
  | O => Err ClosureFuel
  | S fuel =>
      if bool_decide (name ∈ vs_done st) then Ok st
      else
        match nodes !! name with
        | None => Err (GraphMissing name)
        | Some node =>
            edges ← node_edges nodes nodesByFullName name node;
            st ← foldM_res (visit_target (installed_visit nodes nodesByFullName rootDirect root fuel) edges) (enter_node name st) (edge_targets edges);
            Ok (leave_node rootDirect root name node st)
        end
  end.

(** ** The closure *)

Definition invalid_closure_node (node : Node) : bool :=
  match Parse (n_FullName node) with
  | Err _ => true
  | Ok identity =>
      negb (bool_decide (FormulaID_String identity = n_FullName node)) || negb (bool_decide (id_name identity = n_Name node))
      || bool_decide (n_FormulaVersion node = "") || bool_decide (n_PkgVersion node = "") || (n_FormulaRevision node <? 0)
      || (n_BottleRebuild node <? 0)
  end.

Definition index_node (st : gmap string Node * gmap string Node) (node : Node)
    : result closure_error (gmap string Node * gmap string Node) :=
  let '(nodes, nodesByFullName) := st in
  _ ← check (invalid_closure_node node) (ClosureInvalid (n_Name node));
  _ ← check (bool_decide (is_Some (nodes !! n_Name node))) (ClosureDuplicate (n_Name node));
  _ ← check (bool_decide (is_Some (nodesByFullName !! n_FullName node))) (ClosureDuplicate (n_FullName node));
  Ok (<[n_Name node := node]> nodes, <[n_FullName node := node]> nodesByFullName).

Definition root_differs (rootNode root : Node) : bool :=
  negb (bool_decide (n_FullName rootNode = n_FullName root)) || negb (bool_decide (n_FormulaVersion rootNode = n_FormulaVersion root))
  || negb (n_FormulaRevision rootNode =? n_FormulaRevision root) || negb (bool_decide (n_PkgVersion rootNode = n_PkgVersion root))
  || negb (n_VersionScheme rootNode =? n_VersionScheme root) || negb (n_BottleRebuild rootNode =? n_BottleRebuild root)
  || negb (bool_decide (n_Dependencies rootNode = n_Dependencies root))
  || negb (bool_decide (tab_Dependencies (bt_Tab (n_Bottle rootNode)) = tab_Dependencies (bt_Tab (n_Bottle root)))).

(** The dependencies the root declares, today or in its bottle tab *)
Definition root_direct (nodesByFullName : gmap string Node) (root : Node) (rootHistorical : gmap string RuntimeDependency) : gset string :=
  list_to_set (rq_Name <$> filter (λ r, rq_Direct r = true) (n_Dependencies root))
  ∪ list_to_set (omap (λ '(fullName, dependency),
      if Resolution.rd_DeclaredDirectly dependency then n_Name <$> nodesByFullName !! fullName else None) (map_to_list rootHistorical)).

Definition resolvedInstalledDependencies (root : Node) (closure : list Node) : result closure_error (list ReceiptDependency) :=
  if bool_decide (n_Dependencies root = []) && bool_decide (length closure = 0%nat) then Ok []
  else
    '(nodes, nodesByFullName) ← foldM_res index_node (∅, ∅) closure;
    match nodes !! n_Name root with
    | None => Err RootAbsent
    | Some rootNode =>
        _ ← check (root_differs rootNode root) RootInconsistent;
        _ ← validateCurrentDependencyGraph nodes;
        rootHistorical ← historicalDependencyMinimums (tab_Dependencies (bt_Tab (n_Bottle root)));
        st ← installed_visit nodes nodesByFullName (root_direct nodesByFullName root rootHistorical) (n_Name root) (graph_fuel nodes)
               (n_Name root) (MkVisit ∅ ∅ [] [] []);
        Ok (sort_by rd_FullName (vs_resolved st))
    end.

(** ** Installed receipts *)

Inductive installed_error := InstalledClosure (e : closure_error) | InstalledReceiptError (e : receipt_error) | NothingToNormalize.

Definition without_homebrew_version (e : Expectation) (deps : list ReceiptDependency) : Expectation :=
  MkExpectation (ex_Name e) (ex_FullName e) (ex_FormulaVersion e) (ex_FormulaRevision e) (ex_PkgVersion e) (ex_VersionScheme e)
    (ex_BottleRebuild e) (ex_BottleTag e) (ex_CompressedSHA256 e) (ex_CompressedSize e) (ex_HomebrewSHA256 e) "" (ex_Arch e)
    (ex_Compiler e) (ex_ExpectedTap e) deps (ex_FormulaIdentity e) (ex_AllowedExternalSymlinkFormulae e) (ex_AllowedExternalSymlinkRules e).

Context `{J : !ReceiptJSON}.

Definition VerifyInstalledReceipt (data : bytes) (node : Node) (closure : list Node) : result installed_error ReceiptEvidence :=
  installedDependencies ← map_err InstalledClosure (resolvedInstalledDependencies node closure);
  map_err InstalledReceiptError
    (validateReceiptWithPolicy data (without_homebrew_version (ExpectationFromNode node) installedDependencies) true).

Record InstalledReceiptNormalization := MkNormalization {
  in_Data : option bytes; in_Changed : bool; in_BeforeDependencyCount : Z; in_AfterDependencyCount : Z;
}.

Definition unchanged_receipt : InstalledReceiptNormalization := MkNormalization None false 0 0.

(** The incomplete receipt with the dependencies of the closure in their place *)
Definition rewrite_receipt (data : bytes) (expected : list ReceiptDependency) : result receipt_error (bytes * Z * Z) :=
  _ ← map_err ReceiptDuplicate (bottle_validateUniqueJSON (receipt_tokens data));
  match decodeReceipt data with
  | None => Err ReceiptDecode
  | Some receipt =>
      let deps := normalizeOmittedReceiptDependencyPkgVersions (ir_RuntimeDeps receipt) in
      fields ← has_dependency_array data;
      _ ← compareInstalledReceiptDependencySubset deps expected;
      let normalizedDependencies := sort_by rd_FullName expected in
      match marshal_dependencies normalizedDependencies ≫= λ encoded, marshal_fields (<["runtime_dependencies" := encoded]> fields) with
      | None => Err ReceiptDecode
      | Some normalized => Ok (normalized ++ [newline], Z.of_nat (length deps), Z.of_nat (length normalizedDependencies))
      end
  end.

Definition NormalizeInstalledReceiptDependencies (data : bytes) (node : Node) (closure : list Node)
    : result installed_error InstalledReceiptNormalization :=
  if is_ok (VerifyInstalledReceipt data node closure) then Ok unchanged_receipt
  else
    expected ← map_err InstalledClosure (resolvedInstalledDependencies node closure);
    _ ← check (bool_decide (expected = [])) NothingToNormalize;
    '(normalized, before, after) ← map_err InstalledReceiptError (rewrite_receipt data expected);
    _ ← VerifyInstalledReceipt normalized node closure;
    Ok (MkNormalization (Some normalized) true before after).

End closure.
