(* ===== verification/InstalledFacts.v ===== *)
(** * internal/bottle: what an installed receipt must list

    The walk of [resolvedInstalledDependencies] visits exactly the nodes of the
    closure that the root reaches, each once, and always ends, whatever cycles
    the historical edges close; so the dependencies of an accepted installed
    receipt are those of the closure. *)

From S2P Require Import Prelude GoStrings JsonUnique Regex Version FormulaId Graph ClosureGraph Resolution.
From S2P Require Import BottleStreams BottleHeader BottleLinks BottleVerify BottleFacts BottleReceipt InstalledReceipt.
From stdpp Require Import options.
Local Open Scope Z_scope.

(** ** The maps *)

Definition indexes {A} (key : A → string) (l : list A) (m : gmap string A) : Prop := ∀ x a, m !! x = Some a ↔ a ∈ l ∧ key a = x.

Lemma indexes_insert {A} (key : A → string) l m a : indexes key l m → m !! key a = None → indexes key (l ++ [a]) (<[key a := a]> m).
Proof.
  intros Hm Hnew x b. rewrite lookup_insert_Some, elem_of_app, list_elem_of_singleton. split.
  - intros [[<- <-]|[Hne Hb]]; [naive_solver|]. apply Hm in Hb as [? ?]. naive_solver.
  - intros [[Hb| ->] <-]; [|by left]. right. assert (m !! key b = Some b) as Hb' by (by apply Hm). split; [congruence|done].
Qed.

Lemma index_nodes_ok closure nodes byFull :
  foldM_res index_node (∅, ∅) closure = Ok (nodes, byFull) →
  indexes n_Name closure nodes ∧ indexes n_FullName closure byFull ∧ ∀ n, n ∈ closure → invalid_closure_node n = false.
Proof.
  intros Hf. refine (foldM_res_inv (λ visited st, indexes n_Name visited st.1 ∧ indexes n_FullName visited st.2 ∧
    ∀ n, n ∈ visited → invalid_closure_node n = false) _ _ _ _ _ _ Hf).
  { cbn. split_and!; [| |set_solver]; intros x n; rewrite lookup_empty; split; [done|set_solver|done|set_solver]. }
  intros visited n [n0 f0] [n1 f1] (Hn & Hfn & Hv) _. cbn in *. intros ([] & Hi%check_ok & H)%bind_ok.
  apply bind_ok in H as ([] & H1%check_ok%bool_decide_eq_false & H). apply bind_ok in H as ([] & H2%check_ok%bool_decide_eq_false & [= <- <-]).
  apply eq_None_not_Some in H1, H2. split_and!; [by apply indexes_insert..|].
  intros x [Hx|Hx]%elem_of_app; [by apply Hv|]. apply list_elem_of_singleton in Hx as ->. done.
Qed.

(** A dependency of a bottle tab under its canonical identity *)
Definition historical_of (deps : list RuntimeDependency) (fullName : string) (dep : RuntimeDependency) : Prop :=
  dep ∈ deps ∧ ∃ id, Parse (Resolution.rd_FullName dep) = Ok id ∧ FormulaID_String id = fullName.

Lemma historical_ok deps m : historicalDependencyMinimums deps = Ok m → ∀ f d, m !! f = Some d ↔ historical_of deps f d.
Proof.
  intros Hf. refine (foldM_res_inv (λ visited m, ∀ f d, m !! f = Some d ↔ historical_of visited f d) _ _ _ _ _ _ Hf).
  { intros f d. rewrite lookup_empty. split; [done|]. intros [Hd _]. by apply not_elem_of_nil in Hd. }
  intros visited dep m0 m1 Hm _ (id & Hid%map_err_ok & H)%bind_ok. apply bind_ok in H as ([] & _ & H).
  apply bind_ok in H as ([] & Hdup%check_ok%bool_decide_eq_false & [= <-]). apply eq_None_not_Some in Hdup. intros f d.
  rewrite lookup_insert_Some. unfold historical_of. setoid_rewrite elem_of_app. setoid_rewrite list_elem_of_singleton. split.
  - intros [[<- <-]|[_ Hd]]; [|apply Hm in Hd as [? ?]; naive_solver]. split; [by right|]. by exists id.
  - intros [[Hd| ->] (id' & Hid' & Heq)].
    + assert (m0 !! f = Some d) as Hm0 by (apply Hm; split; [done|]; by exists id'). right. split; [congruence|done].
    + left. rewrite Hid in Hid'. injection Hid' as <-. done.
Qed.

(** ** The edges *)

Section edges.
Context `{U : !UnicodeTables} (nodes byFull : gmap string Node).

(** What the code calls an edge: a requirement of today, or a direct dependency
    of the bottle tab whose Formula is selected today *)
Definition edge_to (node : Node) (y : string) : Prop :=
  (∃ r, r ∈ n_Dependencies node ∧ rq_Name r = y) ∨
  ∃ f dep child, historical_of (tab_Dependencies (bt_Tab (n_Bottle node))) f dep ∧ Resolution.rd_DeclaredDirectly dep = true ∧
    byFull !! f = Some child ∧ n_Name child = y.

Lemma current_edges_ok historical name reqs seen edges :
  foldM_res (add_current_edge nodes historical name) (∅, ∅) reqs = Ok (seen, edges) →
  (∀ y, is_Some (edges !! y) ↔ ∃ r, r ∈ reqs ∧ rq_Name r = y) ∧ ∀ r, r ∈ reqs → is_Some (nodes !! rq_Name r).
Proof.
  intros Hf. refine (foldM_res_inv (λ visited st, (∀ y, is_Some (st.2 !! y) ↔ ∃ r, r ∈ visited ∧ rq_Name r = y) ∧
    ∀ r, r ∈ visited → is_Some (nodes !! rq_Name r)) _ _ _ _ _ _ Hf).
  { cbn. split; [|set_solver]. intros y. rewrite lookup_empty. split; [by intros [? ?]|]. intros (r & Hr & _). by apply not_elem_of_nil in Hr. }
  intros visited r [s0 e0] [s1 e1] [He Hn] _. cbn in *. intros ([] & _ & H)%bind_ok. apply bind_ok in H as ([] & _ & H).
  destruct (nodes !! rq_Name r) as [child|] eqn:Hc; [|done]. apply bind_ok in H as (eff & _ & H). apply bind_ok in H as ([] & _ & [= <- <-]). split.
  - intros y. destruct (decide (y = rq_Name r)) as [->|Hne].
    + rewrite lookup_insert_eq. split; [|by eexists]. intros _. exists r. set_solver.
    + rewrite lookup_insert_ne, He by done. setoid_rewrite elem_of_app. setoid_rewrite list_elem_of_singleton. naive_solver.
  - intros r' [Hr'|Hr']%elem_of_app; [by apply Hn|]. apply list_elem_of_singleton in Hr' as ->. by exists child.
Qed.

Lemma historical_edges_ok entries edges edges' :
  foldM_res (add_historical_edge byFull) edges entries = Ok edges' →
  ∀ y, is_Some (edges' !! y) ↔ is_Some (edges !! y) ∨
    ∃ f dep child, (f, dep) ∈ entries ∧ Resolution.rd_DeclaredDirectly dep = true ∧ byFull !! f = Some child ∧ n_Name child = y.
Proof.
  intros Hf. refine (foldM_res_inv (λ visited e, ∀ y, is_Some (e !! y) ↔ is_Some (edges !! y) ∨
    ∃ f dep child, (f, dep) ∈ visited ∧ Resolution.rd_DeclaredDirectly dep = true ∧ byFull !! f = Some child ∧ n_Name child = y) _ _ _ _ _ _ Hf).
  { intros y. split; [by left|]. intros [?|(f & dep & child & Hin & _)]; [done|]. by apply not_elem_of_nil in Hin. }
  intros visited [f dep] e0 e1 He _ H y. cbn in H.
  trans (is_Some (e0 !! y) ∨ (Resolution.rd_DeclaredDirectly dep = true ∧ ∃ child, byFull !! f = Some child ∧ n_Name child = y)).
  2: { rewrite He. split.
       - intros [[?|(f' & d' & c' & ? & ?)]|(? & c' & ? & ?)]; [by left|right; exists f', d', c'; set_solver|right; exists f, dep, c'; set_solver].
       - intros [?|(f' & d' & c' & [Hin|Hin]%elem_of_app & Hd & Hc & Hy)]; [by left; left|left; right; by exists f', d', c'|].
         apply list_elem_of_singleton in Hin as [= -> ->]. right. split; [done|]. by exists c'. }
  destruct (Resolution.rd_DeclaredDirectly dep) eqn:Hd; cbn [negb] in H.
  2: { injection H as <-. split; [by left|]. by intros [?|[? _]]. }
  destruct (byFull !! f) as [child|] eqn:Hc.
  2: { injection H as <-. split; [by left|]. by intros [?|(_ & ? & ? & _)]. }
  apply bind_ok in H as ([] & _ & [= <-]). trans (is_Some (e0 !! y) ∨ n_Name child = y).
  - destruct (e0 !! n_Name child) as [b|] eqn:Hb; [split; [by left|]; intros [?|<-]; [done|by eexists]|].
    destruct (decide (n_Name child = y)) as [<-|Hne]; [rewrite lookup_insert_eq; split; [by right|by eexists]|].
    rewrite lookup_insert_ne by done. split; [by left|]. by intros [?|?].
  - split; [intros [?|?]; [by left|right; split; [done|by exists child]]|]. intros [?|(_ & c & [= <-] & ?)]; [by left|by right].
Qed.

Lemma node_edges_ok name node edges :
  node_edges nodes byFull name node = Ok edges →
  (∀ y, y ∈ edge_targets edges ↔ edge_to node y) ∧ ∀ r, r ∈ n_Dependencies node → is_Some (nodes !! rq_Name r).
Proof.
  unfold node_edges. intros (m & Hm & H)%bind_ok. apply bind_ok in H as ([seen e0] & H0 & H1). pose proof (historical_ok _ _ Hm) as Hh.
  apply current_edges_ok in H0 as [Hcur Hin]. pose proof (historical_edges_ok _ _ _ H1) as Hall. split; [|done]. intros y. unfold edge_targets.
  rewrite elem_of_slices_Sort. trans (is_Some (edges !! y)).
  { rewrite list_elem_of_fmap. split; [intros ([z b] & -> & Hz%elem_of_map_to_list); by exists b|]. intros [b Hb]. exists (y, b).
    split; [done|]. by apply elem_of_map_to_list. }
  rewrite Hall, Hcur. unfold edge_to. setoid_rewrite elem_of_map_to_list. by setoid_rewrite Hh.
Qed.

End edges.

(** ** The walk *)

Section walk.
Context `{U : !UnicodeTables} (nodes byFull : gmap string Node) (rootDirect : gset string) (root : string).

Definition node_edge (x y : string) : Prop := ∃ node, nodes !! x = Some node ∧ edge_to byFull node y.

(** The entries collected so far are those of the finished nodes, each once. *)
Definition resolves (done : gset string) (resolved : list ReceiptDependency) : Prop :=
  ∃ order, NoDup order ∧ (∀ x, x ∈ order ↔ x ∈ done ∧ x ≠ root) ∧
    Forall2 (λ x d, ∃ node, nodes !! x = Some node ∧ d = installed_dependency rootDirect x node) order resolved.

Record visit_inv (st : visit_state) : Prop := {
  vi_closed x y : x ∈ vs_done st → node_edge x y → y ∈ vs_done st ∨ is_Some (vs_active st !! y);
  vi_disjoint x : x ∈ vs_done st → vs_active st !! x = None;
  vi_nodes x : is_Some (vs_active st !! x) → is_Some (nodes !! x);
  vi_resolved : resolves (vs_done st) (vs_resolved st);
}.

Lemma visit_inv_push b st : visit_inv st → visit_inv (push_edge b st).
Proof. by intros [? ? ? ?]. Qed.

Lemma visit_inv_pop st : visit_inv st → visit_inv (pop_edge st).
Proof. by intros [? ? ? ?]. Qed.

Lemma visit_inv_enter name node st :
  nodes !! name = Some node → name ∉ vs_done st → visit_inv st → visit_inv (enter_node name st).
Proof.
  intros Hnode Hnew [Hc Hd Hn Hr]. split; cbn; [| | |done].
  - intros x y Hx Hxy. destruct (Hc x y Hx Hxy) as [?|?]; [by left|]. right. rewrite lookup_insert_is_Some. destruct (decide (name = y)); naive_solver.
  - intros x Hx. rewrite lookup_insert_ne; [by apply Hd|]. by intros ->.
  - intros x. rewrite lookup_insert_is_Some. intros [->|[_ ?]]; [by exists node|by apply Hn].
Qed.

Lemma resolves_leave name node done resolved :
  nodes !! name = Some node → name ∉ done → resolves done resolved →
  resolves ({[name]} ∪ done)
    (if bool_decide (name = root) then resolved else resolved ++ [installed_dependency rootDirect name node]).
Proof.
  intros Hnode Hnew (order & Hnd & Hin & Hf). case_bool_decide as Hroot.
  - exists order. split_and!; [done| |done]. intros x. rewrite Hin. set_solver.
  - exists (order ++ [name]). split_and!.
    + apply NoDup_app. split_and!; [done| |apply NoDup_singleton]. intros x Hx%Hin ->%list_elem_of_singleton. naive_solver.
    + intros x. rewrite elem_of_app, Hin, list_elem_of_singleton. set_solver.
    + apply Forall2_app; [done|]. constructor; [by exists node|constructor].
Qed.

(** What a visit guarantees: the stack of open nodes is as before, the node is
    finished, and every node finished meanwhile is reached from it. *)
Definition visit_post (name : string) (st st' : visit_state) : Prop :=
  visit_inv st' ∧ vs_active st' = vs_active st ∧ name ∈ vs_done st' ∧ vs_done st ⊆ vs_done st' ∧
  ∀ x, x ∈ vs_done st' → x ∈ vs_done st ∨ rtc node_edge name x.

Lemma visit_targets_ok (visit : string → visit_state → result closure_error visit_state) edges targets name node st st' :
  (∀ t s s', visit_inv s → vs_active s !! t = None → visit t s = Ok s' → visit_post t s s') →
  nodes !! name = Some node → (∀ y, y ∈ targets → edge_to byFull node y) → visit_inv st → name ∉ vs_done st →
  foldM_res (visit_target visit edges) (enter_node name st) targets = Ok st' →
  visit_inv st' ∧ vs_active st' = <[name := length (vs_stack st)]> (vs_active st) ∧ vs_done st ⊆ vs_done st' ∧
  (∀ x, x ∈ vs_done st' → x ∈ vs_done st ∨ rtc node_edge name x) ∧ ∀ t, t ∈ targets → t ∈ vs_done st' ∨ is_Some (vs_active st' !! t).
Proof.
  intros Hvisit Hnode Hedge Hinv Hnew Hf.
  refine (foldM_res_inv (λ visited s, visit_inv s ∧ vs_active s = <[name := length (vs_stack st)]> (vs_active st) ∧ vs_done st ⊆ vs_done s ∧
    (∀ x, x ∈ vs_done s → x ∈ vs_done st ∨ rtc node_edge name x) ∧ ∀ t, t ∈ visited → t ∈ vs_done s ∨ is_Some (vs_active s !! t)) _ _ _ _ _ _ Hf).
  { cbn. split_and!; [by eapply visit_inv_enter|done|done|by left|set_solver]. }
  intros visited t s s' (Hs & Hact & Hsub & Hreach & Htargets) Hin Ht. unfold visit_target in Ht.
  destruct (vs_active s !! t) as [index|] eqn:Ha.
  - apply bind_ok in Ht as ([] & _ & [= <-]). split_and!; try done. intros t' [?|Ht']%elem_of_app; [by apply Htargets|].
    apply list_elem_of_singleton in Ht' as ->. right. by rewrite Ha.
  - apply bind_ok in Ht as (s1 & Hv & [= <-]). apply Hvisit in Hv as (Hi & Hact' & Hdone & Hmono & Hnewreach); [|by apply visit_inv_push|done].
    cbn in *. split_and!; [by apply visit_inv_pop|congruence|set_solver| |].
    + intros x Hx. destruct (Hnewreach x Hx) as [?|Hrt]; [by apply Hreach|]. right. eapply rtc_l; [|exact Hrt]. exists node. split; [done|].
      by apply Hedge.
    + intros t' [Ht'|Ht']%elem_of_app; [|apply list_elem_of_singleton in Ht' as ->; by left].
      destruct (Htargets t' Ht') as [?|?]; [left; set_solver|right; congruence].
Qed.

Lemma visit_ok fuel name st st' :
  visit_inv st → vs_active st !! name = None → installed_visit nodes byFull rootDirect root fuel name st = Ok st' → visit_post name st st'.
Proof.
  revert name st st'. induction fuel as [|fuel IH]; intros name st st' Hinv Hact; cbn [installed_visit]; [done|].
  case_bool_decide as Hdone; [intros [= <-]; split_and!; [done..|by left]|].
  destruct (nodes !! name) as [node|] eqn:Hnode; [|done]. intros (edges & Hedges & H)%bind_ok. apply bind_ok in H as (st1 & Hfold & [= <-]).
  apply node_edges_ok in Hedges as [Hedges _].
  destruct (visit_targets_ok _ _ _ _ _ _ _ IH Hnode (λ y, proj1 (Hedges y)) Hinv Hdone Hfold) as ([Hc Hd Hn Hr] & Hact1 & Hsub & Hreach & Ht).
  assert (name ∉ vs_done st1) as Hnew by (intros Hx%Hd; rewrite Hact1, lookup_insert_eq in Hx; done).
  assert (delete name (vs_active st1) = vs_active st) as Hdel by (by rewrite Hact1, delete_insert_id).
  assert (∀ y, y ∈ vs_done st1 ∨ is_Some (vs_active st1 !! y) → y ∈ {[name]} ∪ vs_done st1 ∨ is_Some (vs_active st !! y)) as Hopen.
  { intros y [?|Hy]; [left; set_solver|]. rewrite Hact1, lookup_insert_is_Some in Hy. destruct Hy as [<-|[_ ?]]; [left; set_solver|by right]. }
  split_and!; [split| | | |]; cbn; rewrite ?Hdel.
  - intros x y [->%elem_of_singleton|Hx]%elem_of_union Hxy; apply Hopen; [|by eapply Hc].
    apply Ht, Hedges. destruct Hxy as (node' & Hnode' & He). congruence.
  - intros x [->%elem_of_singleton|Hx]%elem_of_union; [done|]. apply Hd in Hx as Hx'. rewrite Hact1 in Hx'. by apply lookup_insert_None in Hx' as [? _].
  - intros x Hx. apply Hn. rewrite Hact1, lookup_insert_is_Some. destruct (decide (name = x)); naive_solver.
  - by apply resolves_leave.
  - done.
  - set_solver.
  - set_solver.
  - intros x [->%elem_of_singleton|Hx]%elem_of_union; [by right|]. by apply Hreach.
Qed.

End walk.

(** ** The walks end *)

Definition out_of_fuel (e : closure_error) : Prop := match e with ClosureFuel => True | _ => False end.

Lemma node_edges_fuel `{U : !UnicodeTables} nodes byFull name node : never out_of_fuel (node_edges nodes byFull name node).
Proof.
  assert (∀ r n, never out_of_fuel (validateSelectedMinimum r n)) as Hmin.
  { intros r n. unfold validateSelectedMinimum. never_tac. }
  unfold node_edges, historicalDependencyMinimums, add_historical, add_current_edge, add_historical_edge, effective_requirement.
  never_tac; apply Hmin.
Qed.

(** The open nodes are nodes: with one more to open they are fewer. *)
Lemma size_open {A B} (m : gmap string A) (open : gmap string B) name :
  (∀ x, is_Some (open !! x) → is_Some (m !! x)) → is_Some (m !! name) → open !! name = None → (size open < size m)%nat.
Proof.
  intros Hsub Hin Hnew. rewrite <-!size_dom. apply subset_size. split.
  - intros x. rewrite !elem_of_dom. apply Hsub.
  - intros Hs. assert (name ∈ dom m) as Hn%Hs by (by apply elem_of_dom). rewrite elem_of_dom, Hnew in Hn. by destruct Hn.
Qed.

Section fuel.
Context `{U : !UnicodeTables} (nodes byFull : gmap string Node) (rootDirect : gset string) (root : string).

Lemma visit_fuel fuel name st :
  visit_inv nodes byFull rootDirect root st → vs_active st !! name = None → (size nodes - size (vs_active st) < fuel)%nat →
  never out_of_fuel (installed_visit nodes byFull rootDirect root fuel name st).
Proof.
  revert name st. induction fuel as [|fuel IH]; intros name st Hinv Hact Hfuel; [lia|]. cbn [installed_visit].
  case_bool_decide as Hdone; [apply never_ok|]. destruct (nodes !! name) as [node|] eqn:Hnode; [|never_tac].
  assert (size (vs_active st) < size nodes)%nat as Hlt.
  { apply (size_open _ _ name); [apply Hinv|by exists node|done]. }
  pose proof (node_edges_fuel nodes byFull name node) as Hne. destruct (node_edges nodes byFull name node) as [edges|e] eqn:Hedges.
  2: { intros e' He' [= ->]. by eapply Hne. }
  apply node_edges_ok in Hedges as [Hedges _]. cbn. apply never_bind; [|intros st'; apply never_ok].
  intros e He (l1 & t & l2 & s & Htargets & Hs & Ht)%foldM_res_err.
  assert (∀ y, y ∈ l1 → edge_to byFull node y) as Hl1.
  { intros y Hy. apply Hedges. rewrite Htargets. set_solver. }
  destruct (visit_targets_ok nodes byFull rootDirect root _ _ _ _ _ _ _ (visit_ok nodes byFull rootDirect root fuel) Hnode Hl1 Hinv Hdone Hs)
    as (Hinv' & Hact' & _). unfold visit_target in Ht. destruct (vs_active s !! t) as [index|] eqn:Ha.
  - apply (never_bind out_of_fuel _ _) in Ht; [done|never_tac|intros; never_tac|done].
  - revert Ht. apply (never_bind out_of_fuel); [|intros; never_tac|done]. apply IH; [by apply visit_inv_push|done|]. cbn.
    rewrite Hact', map_size_insert_None by done. lia.
Qed.

End fuel.

(** ** The signed graph has no cycle *)

Section current.
Context `{U : !UnicodeTables} (nodes : gmap string Node).

Definition current_succ (name : string) : list string :=
  match nodes !! name with Some node => rq_Name <$> n_Dependencies node | None => [] end.

(** The finished nodes have a topological order; the open ones are nodes. *)
Record current_inv (state : graph_state) : Prop := {
  ci_order : ∃ order, NoDup order ∧ topo_sorted current_succ order ∧ ∀ x, x ∈ order ↔ state !! x = Some Black;
  ci_nodes x : is_Some (state !! x) → is_Some (nodes !! x);
}.

Definition current_post (name : string) (state state' : graph_state) : Prop :=
  current_inv state' ∧ state' !! name = Some Black ∧ (∀ x, state !! x = Some Black → state' !! x = Some Black) ∧
  ∀ x, state' !! x = Some Gray ↔ state !! x = Some Gray.

Lemma current_dependencies_ok (visit : string → graph_state → result closure_error graph_state) name deps seen state state' :
  (∀ x s s', current_inv s → visit x s = Ok s' → current_post x s s') → current_inv state →
  foldM_res (current_dependency nodes visit name) (∅, state) deps = Ok (seen, state') →
  current_inv state' ∧ (∀ x, state !! x = Some Black → state' !! x = Some Black) ∧ (∀ x, state' !! x = Some Gray ↔ state !! x = Some Gray) ∧
  ∀ d, d ∈ rq_Name <$> deps → state' !! d = Some Black ∧ is_Some (nodes !! d).
Proof.
  intros Hvisit Hinv Hf.
  refine (foldM_res_inv (λ visited st, current_inv st.2 ∧ (∀ x, state !! x = Some Black → st.2 !! x = Some Black) ∧
    (∀ x, st.2 !! x = Some Gray ↔ state !! x = Some Gray) ∧ ∀ d, d ∈ rq_Name <$> visited → st.2 !! d = Some Black ∧ is_Some (nodes !! d)) _ _ _ _ _ _ Hf).
  { cbn. split_and!; [done..|]. intros d Hd. by apply not_elem_of_nil in Hd. }
  intros visited r [s0 st0] [s1 st1] (Hi & Hb & Hg & Hd) _. cbn in *. intros ([] & _ & H)%bind_ok. apply bind_ok in H as ([] & _ & H).
  apply bind_ok in H as ([] & Hin%check_ok & H). apply negb_false_iff, bool_decide_eq_true in Hin. apply bind_ok in H as (st2 & Hv & [= <- <-]).
  apply Hvisit in Hv as (Hi' & Hblack & Hb' & Hg'); [|done]. split_and!; [done|naive_solver|intros x; by rewrite Hg'|].
  intros d. rewrite fmap_app, elem_of_app. intros [Hd'|Hd']; [destruct (Hd d Hd'); by auto|]. cbn in Hd'. apply list_elem_of_singleton in Hd' as ->. done.
Qed.

Lemma current_visit_ok fuel name state state' :
  current_inv state → current_visit nodes fuel name state = Ok state' → current_post name state state'.
Proof.
  revert name state state'. induction fuel as [|fuel IH]; intros name state state' Hinv; cbn [current_visit]; [done|].
  destruct (state !! name) as [[]|] eqn:Hs; [done|intros [= <-]; by split_and!|]. destruct (nodes !! name) as [node|] eqn:Hnode; [|done].
  intros ([seen st] & Hf & [= <-])%bind_ok. apply current_dependencies_ok in Hf as (Hi & Hb & Hg & Hd); [|exact IH|].
  2: { destruct Hinv as [(order & Hnd & Ht & Ho) Hn]. split.
       - exists order. split_and!; [done..|]. intros x. rewrite Ho. destruct (decide (x = name)) as [->|?]; [|by rewrite lookup_insert_ne].
         rewrite lookup_insert_eq, Hs. done.
       - intros x. rewrite lookup_insert_is_Some. intros [<-|[_ ?]]; [by exists node|by apply Hn]. }
  assert (st !! name = Some Gray) as Hgray by (apply Hg; by rewrite lookup_insert_eq).
  destruct Hi as [(order & Hnd & Ht & Ho) Hn]. split_and!.
  - split.
    + exists (order ++ [name]). split_and!.
      * apply NoDup_app. split_and!; [done| |apply NoDup_singleton]. intros x Hx%Ho ->%list_elem_of_singleton. congruence.
      * apply topo_sorted_snoc; [done|]. intros d Hdd. unfold edge, current_succ in Hdd. rewrite Hnode in Hdd. apply Ho. by apply Hd.
      * intros x. rewrite elem_of_app, list_elem_of_singleton, Ho. destruct (decide (x = name)) as [->|?]; [rewrite lookup_insert_eq; naive_solver|].
        rewrite lookup_insert_ne by done. naive_solver.
    + intros x. rewrite lookup_insert_is_Some. intros [<-|[_ ?]]; [by exists node|by apply Hn].
  - by rewrite lookup_insert_eq.
  - intros x Hx. destruct (decide (x = name)) as [->|?]; [by rewrite lookup_insert_eq|]. rewrite lookup_insert_ne by done. apply Hb.
    by rewrite lookup_insert_ne.
  - intros x. destruct (decide (x = name)) as [->|?]; [by rewrite lookup_insert_eq, Hs|]. rewrite lookup_insert_ne, Hg, lookup_insert_ne by done. done.
Qed.

Lemma current_inv_empty : current_inv ∅.
Proof.
  split; [|intros x [? ?]; by rewrite lookup_empty in *]. exists []. split_and!; [apply NoDup_nil_2| |].
  - intros l1 x l2 Heq. by destruct l1.
  - intros x. rewrite lookup_empty. split; [intros Hx; by apply not_elem_of_nil in Hx|done].
Qed.

Lemma validateCurrentDependencyGraph_ok :
  validateCurrentDependencyGraph nodes = Ok tt → ∀ x, is_Some (nodes !! x) → ¬ tc (edge current_succ) x x.
Proof.
  unfold validateCurrentDependencyGraph. intros (state & Hf & _)%bind_ok x Hx.
  assert (current_inv state ∧ ∀ y, y ∈ slices_Sort (map_to_list nodes).*1 → state !! y = Some Black) as [[(order & Hnd & Ht & Ho) _] Hall].
  { refine (foldM_res_inv (λ visited s, current_inv s ∧ ∀ y, y ∈ visited → s !! y = Some Black) _ _ _ _ _ _ Hf).
    - split; [apply current_inv_empty|set_solver].
    - intros visited y s s' [Hi Hb] _ Hv. apply current_visit_ok in Hv as (Hi' & Hy & Hb' & _); [|done]. split; [done|].
      intros z [Hz|Hz]%elem_of_app; [by apply Hb', Hb|]. by apply list_elem_of_singleton in Hz as ->. }
  apply (topo_sorted_acyclic current_succ order); [done..|]. apply Ho, Hall, elem_of_slices_Sort, list_elem_of_fmap. destruct Hx as [n Hn].
  exists (x, n). split; [done|]. by apply elem_of_map_to_list.
Qed.

(** Each call opens one more node. *)
Definition grays (state : graph_state) : gset string := dom (filter (λ p, p.2 = Gray) state).

Lemma elem_of_grays state x : x ∈ grays state ↔ state !! x = Some Gray.
Proof.
  unfold grays. rewrite elem_of_dom. split.
  - intros [c Hc]. apply map_lookup_filter_Some in Hc as [Hc Hg]. cbn in Hg. congruence.
  - intros Hx. exists Gray. by apply map_lookup_filter_Some.
Qed.

Lemma current_visit_fuel fuel name state :
  current_inv state → (size nodes - size (grays state) < fuel)%nat → never out_of_fuel (current_visit nodes fuel name state).
Proof.
  revert name state. induction fuel as [|fuel IH]; intros name state Hinv Hfuel; [lia|]. cbn [current_visit].
  destruct (state !! name) as [[]|] eqn:Hs; [never_tac..|]. destruct (nodes !! name) as [node|] eqn:Hnode; [|never_tac].
  assert (current_inv (<[name := Gray]> state)) as Hopen.
  { destruct Hinv as [(order & Hnd & Ht & Ho) Hn]. split.
    - exists order. split_and!; [done..|]. intros x. rewrite Ho. destruct (decide (x = name)) as [->|?]; [|by rewrite lookup_insert_ne].
      rewrite lookup_insert_eq, Hs. done.
    - intros x. rewrite lookup_insert_is_Some. intros [<-|[_ ?]]; [by exists node|by apply Hn]. }
  assert (size (grays state) < size nodes ∧ size (grays (<[name := Gray]> state)) = S (size (grays state)))%nat as [Hlt Hsize].
  { assert (name ∉ grays state) as Hnot by (rewrite elem_of_grays; congruence).
    assert (grays (<[name := Gray]> state) = {[name]} ∪ grays state) as Heq.
    { apply set_eq. intros x. rewrite elem_of_union, elem_of_singleton, !elem_of_grays.
      destruct (decide (x = name)) as [->|?]; [rewrite lookup_insert_eq; naive_solver|]. rewrite lookup_insert_ne by done. naive_solver. }
    rewrite Heq, size_union, size_singleton by set_solver. split; [|done]. rewrite <-size_dom. apply subset_size. split.
    - intros x Hx. apply elem_of_dom, Hinv. exists Gray. by apply elem_of_grays.
    - intros Hsub. apply Hnot, Hsub, elem_of_dom. by exists node. }
  apply never_bind; [|intros [? ?]; never_tac]. intros e He (l1 & r & l2 & [seen st] & _ & Hf & Hr)%foldM_res_err. revert e He Hr.
  change (never out_of_fuel (current_dependency nodes (current_visit nodes fuel) name (seen, st) r)).
  apply current_dependencies_ok in Hf as (Hi & _ & Hg & _); [|exact (current_visit_ok fuel)|done].
  unfold current_dependency. never_tac. apply IH; [done|].
  assert (grays st = grays (<[name := Gray]> state)) as -> by (apply set_eq; intros x; by rewrite !elem_of_grays). lia.
Qed.

Lemma validateCurrentDependencyGraph_fuel : never out_of_fuel (validateCurrentDependencyGraph nodes).
Proof.
  unfold validateCurrentDependencyGraph. apply never_bind; [|intros; never_tac]. intros e He (l1 & x & l2 & st & _ & Hf & Hx)%foldM_res_err.
  revert He Hx. apply current_visit_fuel; [|unfold graph_fuel; lia].
  refine (foldM_res_inv (λ _ s, current_inv s) _ _ _ _ _ _ Hf); [apply current_inv_empty|].
  intros _ y s s' Hi _ Hv. by apply current_visit_ok in Hv as [? _].
Qed.

End current.

(** ** The dependencies of an installed keg *)

(** The name a receipt uses, short for core, is parsed to the same identity. *)
Lemma receipt_name_parses node id : Parse (n_FullName node) = Ok id → Parse (receiptDependencyFullName node) = Ok id.
Proof.
  intros Hp. unfold receiptDependencyFullName. destruct (strings_HasPrefix (n_FullName node) "homebrew/core/") eqn:Hpre; [|done].
  apply HasPrefix_app in Hpre as [rest Hrest]. rewrite Hrest in *. rewrite TrimPrefix_app.
  assert (strings_Count rest "/" = 0%nat) as Hc.
  { assert (strings_Count ("homebrew/core/" +:+ rest) "/" = (2 + strings_Count rest "/")%nat) as Hcount by (rewrite Count_app; reflexivity).
    unfold Parse in Hp. rewrite Hcount in Hp. destruct (_ <? _); [done|]. cbn in Hp. by destruct (strings_Count rest "/"). }
  apply Parse_bare; [done|]. by apply Parse_explicit_core in Hp.
Qed.

Section installed.
Context `{U : !UnicodeTables}.

(** The edge that the program follows: a requirement of the signed graph, or a
    dependency the bottle tab declared directly, of a Formula of the closure *)
Definition declared (closure : list Node) (node : Node) (y : string) : Prop :=
  ∃ f dep child, historical_of (tab_Dependencies (bt_Tab (n_Bottle node))) f dep ∧ Resolution.rd_DeclaredDirectly dep = true ∧
    child ∈ closure ∧ n_FullName child = f ∧ n_Name child = y.

Definition installed_edge (closure : list Node) (x y : string) : Prop :=
  ∃ node, node ∈ closure ∧ n_Name node = x ∧ ((∃ r, r ∈ n_Dependencies node ∧ rq_Name r = y) ∨ declared closure node y).

Definition direct_of (closure : list Node) (root : Node) (y : string) : Prop :=
  (∃ r, r ∈ n_Dependencies root ∧ rq_Direct r = true ∧ rq_Name r = y) ∨ declared closure root y.

(** Today's requirements alone *)
Definition signed_edge (closure : list Node) (x y : string) : Prop :=
  ∃ node r, node ∈ closure ∧ n_Name node = x ∧ r ∈ n_Dependencies node ∧ rq_Name r = y.

Lemma declared_iff closure byFull node y :
  indexes n_FullName closure byFull →
  (∃ f dep child, historical_of (tab_Dependencies (bt_Tab (n_Bottle node))) f dep ∧ Resolution.rd_DeclaredDirectly dep = true ∧
    byFull !! f = Some child ∧ n_Name child = y) ↔ declared closure node y.
Proof.
  intros Hf. split; intros (f & dep & child & Hh & Hd & H); exists f, dep, child.
  - destruct H as [[? ?]%Hf ?]. done.
  - destruct H as (? & ? & ?). split_and!; [done..| |done]. by apply Hf.
Qed.

Lemma node_edge_iff closure nodes byFull x y :
  indexes n_Name closure nodes → indexes n_FullName closure byFull → node_edge nodes byFull x y ↔ installed_edge closure x y.
Proof.
  intros Hn Hf. unfold node_edge, installed_edge, edge_to. split; intros (node & H); exists node;
    rewrite (declared_iff closure byFull node y Hf), (Hn x node) in *; tauto.
Qed.

Lemma root_direct_iff closure byFull root m x :
  indexes n_FullName closure byFull → historicalDependencyMinimums (tab_Dependencies (bt_Tab (n_Bottle root))) = Ok m →
  x ∈ root_direct byFull root m ↔ direct_of closure root x.
Proof.
  intros Hf Hm. pose proof (historical_ok _ _ Hm) as Hh. unfold root_direct, direct_of. rewrite elem_of_union, !elem_of_list_to_set.
  rewrite <-(declared_iff closure byFull root x Hf), list_elem_of_fmap, list_elem_of_omap. setoid_rewrite list_elem_of_filter. f_equiv.
  - split; intros (r & H); exists r; naive_solver.
  - split.
    + intros ([f dep] & Hin%elem_of_map_to_list & Hx). destruct (Resolution.rd_DeclaredDirectly dep) eqn:Hd; [|done].
      apply fmap_Some in Hx as (child & Hc & ->). exists f, dep, child. split_and!; [by apply Hh|done..].
    + intros (f & dep & child & Hin%Hh & Hd & Hc & Hx). exists (f, dep). split; [by apply elem_of_map_to_list|]. rewrite Hd, Hc. cbn. by rewrite Hx.
Qed.

Lemma signed_acyclic closure nodes :
  indexes n_Name closure nodes → validateCurrentDependencyGraph nodes = Ok tt → ∀ x, ¬ tc (signed_edge closure) x x.
Proof.
  intros Hn Hv x Hc. assert (∀ a b, signed_edge closure a b → edge (current_succ nodes) a b) as Hedge.
  { intros a b (node & r & Hin & <- & Hr & <-). unfold edge, current_succ.
    assert (nodes !! n_Name node = Some node) as -> by (by apply Hn). apply list_elem_of_fmap. by exists r. }
  assert (is_Some (nodes !! x)) as Hx.
  { assert (∃ y, signed_edge closure x y) as (y & node & r & Hin & <- & _) by (clear Hv; inversion Hc; by eexists). exists node. by apply Hn. }
  apply (validateCurrentDependencyGraph_ok nodes Hv x Hx). by eapply tc_mono.
Qed.

(** The steps of a resolution that succeeded on a closure *)
Lemma resolved_steps root closure deps :
  closure ≠ [] → resolvedInstalledDependencies root closure = Ok deps →
  ∃ nodes byFull m st, indexes n_Name closure nodes ∧ indexes n_FullName closure byFull ∧
    (∀ n, n ∈ closure → invalid_closure_node n = false) ∧ validateCurrentDependencyGraph nodes = Ok tt ∧
    historicalDependencyMinimums (tab_Dependencies (bt_Tab (n_Bottle root))) = Ok m ∧
    installed_visit nodes byFull (root_direct byFull root m) (n_Name root) (graph_fuel nodes) (n_Name root) (MkVisit ∅ ∅ [] [] []) = Ok st ∧
    deps = sort_by rd_FullName (vs_resolved st).
Proof.
  intros Hne. unfold resolvedInstalledDependencies. destruct (bool_decide (length closure = 0%nat)) eqn:Hlen.
  { apply bool_decide_eq_true in Hlen. by destruct closure. }
  rewrite andb_false_r. intros ([nodes byFull] & Hi & H)%bind_ok. destruct (nodes !! n_Name root) as [rootNode|] eqn:Hroot; [|done].
  apply bind_ok in H as ([] & _ & H). apply bind_ok in H as ([] & Hv & H). apply bind_ok in H as (m & Hm & H). apply bind_ok in H as (st & Hst & [= <-]).
  apply index_nodes_ok in Hi as (Hn & Hf & Hinv). by exists nodes, byFull, m, st.
Qed.

Lemma visit_inv_start nodes byFull rootDirect root : visit_inv nodes byFull rootDirect root (MkVisit ∅ ∅ [] [] []).
Proof.
  split; cbn; [set_solver|set_solver|intros x [? ?]; by rewrite lookup_empty in *|]. exists []. split_and!; [apply NoDup_nil_2|set_solver|constructor].
Qed.

(** The walk from the root finishes exactly what the root reaches. *)
Lemma visit_reaches nodes byFull rootDirect root fuel st :
  installed_visit nodes byFull rootDirect root fuel root (MkVisit ∅ ∅ [] [] []) = Ok st →
  (∀ x, x ∈ vs_done st ↔ rtc (node_edge nodes byFull) root x) ∧ resolves nodes rootDirect root (vs_done st) (vs_resolved st).
Proof.
  intros Hv. apply visit_ok in Hv as ([Hc _ _ Hr] & Hact & Hroot & _ & Hreach); [|apply visit_inv_start|done]. split; [|done].
  assert (∀ a b, rtc (node_edge nodes byFull) a b → a ∈ vs_done st → b ∈ vs_done st) as Hclosed.
  { induction 1 as [|a b c Hab _ IH]; [done|]. intros Ha. apply IH. destruct (Hc a b Ha Hab) as [?|Hb]; [done|].
    cbn in Hact; rewrite Hact, lookup_empty in Hb. by destruct Hb. }
  intros x. split; [intros Hx; destruct (Hreach x Hx) as [?|?]; [set_solver|done]|]. intros Hrt. by eapply Hclosed.
Qed.

Lemma closure_names closure nodes n1 n2 :
  indexes n_Name closure nodes → (∀ n, n ∈ closure → invalid_closure_node n = false) → n1 ∈ closure → n2 ∈ closure →
  receiptDependencyFullName n1 = receiptDependencyFullName n2 → n1 = n2.
Proof.
  intros Hn Hinv H1 H2 Heq. assert (∀ n, n ∈ closure → ∃ id, Parse (receiptDependencyFullName n) = Ok id ∧ id_name id = n_Name n) as Hid.
  { intros n Hin. specialize (Hinv n Hin). unfold invalid_closure_node in Hinv. destruct (Parse (n_FullName n)) as [id|] eqn:Hp; [|done].
    exists id. split; [by apply receipt_name_parses|]. repeat (apply orb_false_iff in Hinv as [Hinv ?]).
    match goal with H : negb (bool_decide (id_name id = n_Name n)) = false |- _ => by apply negb_false_iff, bool_decide_eq_true in H end. }
  destruct (Hid n1 H1) as (i1 & Hp1 & Hn1), (Hid n2 H2) as (i2 & Hp2 & Hn2). rewrite Heq, Hp2 in Hp1. injection Hp1 as <-.
  assert (nodes !! n_Name n1 = Some n1) as Hl1 by (by apply Hn). assert (nodes !! n_Name n2 = Some n2) as Hl2 by (by apply Hn). congruence.
Qed.

Lemma resolved_exact root closure deps :
  closure ≠ [] → resolvedInstalledDependencies root closure = Ok deps →
  ∃ D : gset string, (∀ y, y ∈ D ↔ direct_of closure root y) ∧ (∀ x, ¬ tc (signed_edge closure) x x) ∧
    StronglySorted (key_le rd_FullName) deps ∧ NoDup (rd_FullName <$> deps) ∧
    ∀ d, d ∈ deps ↔ ∃ node, node ∈ closure ∧ n_Name node ≠ n_Name root ∧ rtc (installed_edge closure) (n_Name root) (n_Name node) ∧
      d = installed_dependency D (n_Name node) node.
Proof.
  intros Hne Hok. destruct (resolved_steps _ _ _ Hne Hok) as (nodes & byFull & m & st & Hn & Hf & Hinv & Hv & Hm & Hst & ->).
  exists (root_direct byFull root m). apply visit_reaches in Hst as [Hreach (order & Hnd & Hord & Hres)].
  assert (∀ x y, node_edge nodes byFull x y ↔ installed_edge closure x y) as Hedge by (intros; by apply node_edge_iff).
  split_and!; [intros y; by apply root_direct_iff|by eapply signed_acyclic|apply sort_by_StronglySorted| |].
  - rewrite sort_by_fmap_Permutation. clear Hreach Hord Hok. revert Hnd Hres. generalize (vs_resolved st) as resolved. intros resolved Hnd Hres.
    induction Hres as [|x d order resolved (node & Hx & ->) Hres IH]; [apply NoDup_nil_2|].
    apply NoDup_cons in Hnd as [Hnin Hnd]. rewrite fmap_cons. apply NoDup_cons. split; [|by apply IH]. intros (d' & Heq & Hd')%list_elem_of_fmap.
    apply list_elem_of_lookup in Hd' as (i & Hi). destruct (Forall2_lookup_r _ _ _ _ _ Hres Hi) as (x' & Hx' & node' & Hnode' & ->). cbn in Heq.
    apply Hn in Hx as [Hin <-], Hnode' as [Hin' <-]. apply Hnin. rewrite (closure_names closure nodes node node') by done.
    by eapply list_elem_of_lookup_2.
  - intros d. rewrite elem_of_sort_by. split.
    + intros (i & Hi)%list_elem_of_lookup. destruct (Forall2_lookup_r _ _ _ _ _ Hres Hi) as (x & Hx & node & Hnode & ->).
      apply list_elem_of_lookup_2 in Hx. apply Hord in Hx as [Hx Hxr]. apply Hn in Hnode as [Hin <-]. exists node. split_and!; [done..| |done].
      apply Hreach in Hx. eapply (rtc_subrel (node_edge nodes byFull)); [|exact Hx]. intros a b. apply Hedge.
    + intros (node & Hin & Hne' & Hrt & ->). assert (n_Name node ∈ order) as (i & Hi)%list_elem_of_lookup.
      { apply Hord. split; [|done]. apply Hreach. eapply rtc_subrel; [|exact Hrt]. intros a b. apply Hedge. }
      destruct (Forall2_lookup_l _ _ _ _ _ Hres Hi) as (d & Hd & node' & Hnode' & ->). assert (nodes !! n_Name node = Some node) as Hl by (by apply Hn).
      rewrite Hl in Hnode'. injection Hnode' as <-. by eapply list_elem_of_lookup_2.
Qed.

(** C24: the dependencies that the receipt of an installed keg must list are exactly
    the Formulae of the verified closure, other than the Formula itself, that it
    reaches through requirements of the signed graph and through dependencies
    that an authenticated bottle tab declared directly and that are still
    selected; each is listed once, sorted, with the version, revision, package
    version and rebuild the closure selected, and marked direct exactly when the
    Formula declares it. Cycles are tolerated only through the historical edges:
    the signed graph itself has none. *)
Theorem resolvedInstalledDependencies_exact root closure deps
  (Hne : closure ≠ []) (Hok : resolvedInstalledDependencies root closure = Ok deps) :
  ∃ D : gset string, (∀ y, y ∈ D ↔ direct_of closure root y) ∧ (∀ x, ¬ tc (signed_edge closure) x x) ∧
    StronglySorted (key_le rd_FullName) deps ∧ NoDup (rd_FullName <$> deps) ∧
    ∀ d, d ∈ deps ↔ ∃ node, node ∈ closure ∧ n_Name node ≠ n_Name root ∧ rtc (installed_edge closure) (n_Name root) (n_Name node) ∧
      d = installed_dependency D (n_Name node) node.
Proof. by apply resolved_exact. Qed.

(** both walks over the closure end, whatever cycles its edges form: the
    resolution of the installed dependencies never runs out of steps. *)
Theorem resolvedInstalledDependencies_total root closure : resolvedInstalledDependencies root closure ≠ Err ClosureFuel.
Proof.
  enough (never out_of_fuel (resolvedInstalledDependencies root closure)) as H by (by apply H). unfold resolvedInstalledDependencies.
  destruct (_ && _); [never_tac|]. apply never_bind; [apply never_foldM; intros [? ?] ?; unfold index_node; never_tac|intros [nodes byFull]].
  destruct (nodes !! n_Name root) as [rootNode|]; [|never_tac]. apply never_bind; [never_tac|intros _].
  apply never_bind; [apply validateCurrentDependencyGraph_fuel|intros _].
  apply never_bind; [unfold historicalDependencyMinimums, add_historical; never_tac|intros m].
  apply never_bind; [|intros st; never_tac]. apply visit_fuel; [apply visit_inv_start|done|]. unfold graph_fuel. cbn. lia.
Qed.

End installed.

(** ** Installed receipts *)

(** A receipt may lose the rebuild of a bottle, and never invents another. *)
Definition agrees (dep want : ReceiptDependency) : Prop :=
  rd_FullName dep = rd_FullName want ∧ rd_Version dep = rd_Version want ∧ rd_Revision dep = rd_Revision want ∧
  rd_PkgVersion dep = rd_PkgVersion want ∧ (rd_BottleRebuild dep = 0 ∨ rd_BottleRebuild dep = rd_BottleRebuild want).

Lemma dependencies_by_name_elem deps name d : dependencies_by_name deps !! name = Some d → d ∈ deps ∧ rd_FullName d = name.
Proof.
  unfold dependencies_by_name. induction deps as [|x deps IH] using rev_ind; cbn; [by rewrite lookup_empty|]. rewrite foldl_snoc.
  intros [[<- <-]|[_ Hd]]%lookup_insert_Some; [set_solver|]. apply IH in Hd as [? ?]. set_solver.
Qed.

Lemma members_ok actual expected :
  compareInstalledReceiptDependencyMembers actual expected = Ok tt → ∀ d, d ∈ actual → ∃ want, want ∈ expected ∧ agrees d want.
Proof.
  intros Hf. assert (∀ d, d ∈ actual → member_differs (dependencies_by_name expected) d = false) as Hall.
  { refine (foldM_res_inv (λ visited _, ∀ d, d ∈ visited → member_differs (dependencies_by_name expected) d = false) _ _ _ _ _ _ Hf); [set_solver|].
    intros visited d [] [] Hv _ Hd%check_ok x [Hx|Hx]%elem_of_app; [by apply Hv|]. by apply list_elem_of_singleton in Hx as ->. }
  intros d Hd. specialize (Hall d Hd). unfold member_differs in Hall. destruct (_ !! _) as [want|] eqn:Hw; [|done].
  apply dependencies_by_name_elem in Hw as [Hin Hname]. exists want. split; [done|].
  apply orb_false_iff in Hall as [Hall Hreb]. apply orb_false_iff in Hall as [Hall Hpkg]. apply orb_false_iff in Hall as [Hver Hrev].
  apply negb_false_iff in Hver, Hrev, Hpkg. apply bool_decide_eq_true in Hver, Hpkg. apply Z.eqb_eq in Hrev.
  apply andb_false_iff in Hreb. rewrite !negb_false_iff, !Z.eqb_eq in Hreb. done.
Qed.

Lemma compareInstalled_ok actual expected :
  compareInstalledReceiptDependencies actual expected = Ok tt →
  rd_FullName <$> actual ≡ₚ rd_FullName <$> expected ∧ ∀ d, d ∈ actual → ∃ want, want ∈ expected ∧ agrees d want.
Proof.
  unfold compareInstalledReceiptDependencies. intros ([] & Ha%validateReceiptDependencies_ok & H)%bind_ok.
  apply bind_ok in H as ([] & He%validateReceiptDependencies_ok & H). apply bind_ok in H as ([] & Hlen%check_ok & Hm).
  pose proof (members_ok _ _ Hm) as Hall. split; [|done]. apply negb_false_iff, Nat.eqb_eq in Hlen.
  apply submseteq_length_Permutation; [|by rewrite !length_fmap, Hlen]. apply NoDup_submseteq; [apply Ha|].
  intros name (d & -> & Hd)%list_elem_of_fmap. destruct (Hall d Hd) as (want & Hw & Hname & _). apply list_elem_of_fmap. by exists want.
Qed.

Section installed_receipts.
Context `{U : !UnicodeTables, J : !ReceiptJSON}.

(** A node of the closure, other than the root, that the root reaches *)
Definition reached (closure : list Node) (root node : Node) : Prop :=
  node ∈ closure ∧ n_Name node ≠ n_Name root ∧ rtc (installed_edge closure) (n_Name root) (n_Name node).

(** A dependency of the receipt says of a Formula what the closure selected. *)
Definition describes_node (d : ReceiptDependency) (node : Node) : Prop :=
  rd_FullName d = receiptDependencyFullName node ∧ rd_Version d = n_FormulaVersion node ∧ rd_Revision d = n_FormulaRevision node ∧
  rd_PkgVersion d = n_PkgVersion node ∧ (rd_BottleRebuild d = 0 ∨ rd_BottleRebuild d = n_BottleRebuild node).

Lemma installed_receipt_ok data node closure ev :
  closure ≠ [] → VerifyInstalledReceipt data node closure = Ok ev →
  ∃ receipt deps, reads_as data receipt (without_homebrew_version (ExpectationFromNode node) deps) true ∧
    (∀ d, d ∈ ir_RuntimeDeps receipt → ∃ n, reached closure node n ∧ describes_node d n) ∧
    (∀ n, reached closure node n → ∃ d, d ∈ ir_RuntimeDeps receipt ∧ describes_node d n).
Proof.
  intros Hne. unfold VerifyInstalledReceipt. intros (deps & Hdeps%map_err_ok & H%map_err_ok)%bind_ok. unfold validateReceiptWithPolicy in H.
  apply bind_ok in H as ([receipt ev'] & Hdec & H). apply bind_ok in H as ([] & Hcmp & _). apply decodeAndValidateReceipt_ok in Hdec as [Hread _].
  cbn in Hcmp. apply compareInstalled_ok in Hcmp as [Hperm Hall]. destruct (resolved_exact _ _ _ Hne Hdeps) as (D & _ & _ & _ & Hnd & Hin).
  assert (∀ d want n, agrees d want → want = installed_dependency D (n_Name n) n → describes_node d n) as Hag.
  { intros d want n (? & ? & ? & ? & ?) ->. by split_and!. }
  exists receipt, deps. split_and!; [done| |].
  - intros d Hd. destruct (Hall d Hd) as (want & Hw & Hagree). apply Hin in Hw as (n & ? & ? & ? & Heq). exists n. split; [by split_and!|by eapply Hag].
  - intros n (Hn & Hne' & Hr). assert (installed_dependency D (n_Name n) n ∈ deps) as Hd by (apply Hin; by exists n).
    assert (receiptDependencyFullName n ∈ rd_FullName <$> ir_RuntimeDeps receipt) as Hname.
    { rewrite Hperm. apply list_elem_of_fmap. by exists (installed_dependency D (n_Name n) n). }
    apply list_elem_of_fmap in Hname as (d & Heq & Hd'). exists d. split; [done|]. destruct (Hall d Hd') as (want & Hw & Hagree).
    eapply Hag; [exact Hagree|]. apply (NoDup_fmap_inj rd_FullName deps); [done..|]. destruct Hagree as [<- _]. by rewrite <-Heq.
Qed.

(** an accepted receipt of an installed keg says it was poured from the bottle
    of the expected Formula version, scheme, tap and architecture, and its
    runtime dependencies correspond one to one to the Formulae of the verified
    closure that the Formula reaches, each with the selected version, revision
    and package version; a bottle rebuild is the selected one or absent. *)
Theorem VerifyInstalledReceipt_sound data node closure ev
  (Hne : closure ≠ []) (Hok : VerifyInstalledReceipt data node closure = Ok ev) :
  ∃ receipt deps, reads_as data receipt (without_homebrew_version (ExpectationFromNode node) deps) true ∧
    (∀ d, d ∈ ir_RuntimeDeps receipt → ∃ n, reached closure node n ∧ describes_node d n) ∧
    (∀ n, reached closure node n → ∃ d, d ∈ ir_RuntimeDeps receipt ∧ describes_node d n).
Proof. by eapply installed_receipt_ok. Qed.

Lemma subset_ok actual expected :
  compareInstalledReceiptDependencySubset actual expected = Ok tt →
  (length actual < length expected)%nat ∧ ∀ d, d ∈ actual → ∃ want, want ∈ expected ∧ agrees d want.
Proof.
  unfold compareInstalledReceiptDependencySubset. intros ([] & _ & H)%bind_ok. apply bind_ok in H as ([] & _ & H).
  apply bind_ok in H as ([] & Hlen%check_ok%Nat.leb_gt & Hm). split; [lia|]. by apply members_ok.
Qed.

(** normalizing an installed receipt leaves a valid one alone; it changes one
    only to make it valid, and only when the receipt lacked dependencies: fewer
    than the closure has, each of them a Formula the closure reaches, as
    selected. Everything else is refused. *)
Theorem NormalizeInstalledReceiptDependencies_safe data node closure n
  (Hne : closure ≠ []) (Hok : NormalizeInstalledReceiptDependencies data node closure = Ok n) :
  (n = unchanged_receipt ∧ is_ok (VerifyInstalledReceipt data node closure) = true) ∨
  (in_Changed n = true ∧ in_BeforeDependencyCount n < in_AfterDependencyCount n ∧
   (∃ normalized, in_Data n = Some normalized ∧ is_ok (VerifyInstalledReceipt normalized node closure) = true) ∧
   ∃ raw, decodeReceipt data = Some raw ∧
     ∀ d, d ∈ normalizeOmittedReceiptDependencyPkgVersions (ir_RuntimeDeps raw) → ∃ m, reached closure node m ∧ describes_node d m).
Proof.
  unfold NormalizeInstalledReceiptDependencies in Hok. destruct (is_ok (VerifyInstalledReceipt data node closure)) eqn:Hver.
  { injection Hok as <-. by left. }
  right. apply bind_ok in Hok as (deps & Hdeps%map_err_ok & H). apply bind_ok in H as ([] & _ & H).
  apply bind_ok in H as ([[normalized before] after] & Hrw%map_err_ok & H). apply bind_ok in H as (ev & Hev & [= <-]). cbn.
  unfold rewrite_receipt in Hrw. apply bind_ok in Hrw as ([] & _ & Hrw). destruct (decodeReceipt data) as [raw|]; [|done].
  apply bind_ok in Hrw as (fields & _ & Hrw). apply bind_ok in Hrw as ([] & [Hlen Hsub]%subset_ok & Hrw).
  destruct (_ ≫= _) as [text|]; [|done]. injection Hrw as <- <- <-.
  pose proof (Permutation_length (sort_by_Permutation rd_FullName deps)) as Hl. split_and!; [done|lia|eexists; split; [done|by rewrite Hev]|].
  exists raw. split; [done|]. intros d Hd. destruct (Hsub d Hd) as (want & Hw & (? & ? & ? & ? & ?)).
  destruct (resolved_exact _ _ _ Hne Hdeps) as (D & _ & _ & _ & _ & Hin). apply Hin in Hw as (m & ? & ? & ? & ->). exists m. by split_and!.
Qed.

End installed_receipts.

(** ** An example *)

Module example_installed.

Definition descriptor : Descriptor := MkDescriptor "sha256:ab" 1 "" None ∅.

Definition node (name version : string) (deps : list Requirement) (tab : list RuntimeDependency) : Node :=
  MkNode name ("homebrew/core/" +:+ name) version 0 version 0 0 "" false deps
    (MkBottle "x86_64_linux" "" "" descriptor descriptor descriptor descriptor "" ""
       (MkBottleTab "" "" "" [] (MkBuiltOn "" "" "" "" "") tab) []) [] "" "".

Definition requires (name : string) : Requirement := MkRequirement name "" 0 0 true.
Definition tab_of (name version : string) : RuntimeDependency := MkRuntimeDependency name version 0 0 version true.

(** jq requires oniguruma; its bottle also declared glibc, whose bottle declared jq. *)
Definition jq : Node := node "jq" "1.7" [requires "oniguruma"] [tab_of "oniguruma" "6.8"; tab_of "homebrew/core/glibc" "2.38"].
Definition closure : list Node := [jq; node "oniguruma" "6.9" [] []; node "glibc" "2.39" [] [tab_of "jq" "1.6"]; node "zlib" "1.3" [] []].

Definition dependencies : list ReceiptDependency :=
  [MkReceiptDependency "glibc" "2.39" 0 0 "2.39" true false; MkReceiptDependency "oniguruma" "6.9" 0 0 "6.9" true false].

Lemma dependencies_ok : resolvedInstalledDependencies (U := ascii_tables) jq closure = Ok dependencies.
Proof. vm_compute. reflexivity. Qed.

Definition encoded (d : ReceiptDependency) : encodedDependency :=
  MkEncodedDependency (rd_FullName d) (rd_Version d) (rd_Revision d) 0 None false.

(** A text of one byte lacks glibc; a longer one lists both. *)
#[local] Instance json : ReceiptJSON := {|
  receipt_tokens _ := MkDecoder [TDelim "{"; TDelim "}"] false;
  unmarshal_receipt data := Some
    (MkInstallReceipt "jq" "" "" None None "" (Some true) (Some true) "" ""
       (encoded <$> (if (length data <? 2)%nat then drop 1 dependencies else dependencies))
       (MkReceiptSource "stable" "homebrew/core" (MkReceiptVersions "1.7" (Some 0))));
  unmarshal_string s := Some s;
  unmarshal_fields _ := Some {["runtime_dependencies" := "[ ]"]};
  marshal_fields _ := Some (text_bytes "{}");
  marshal_dependencies _ := Some "[ ]";
|}.

Definition complete : bytes := text_bytes "{}".
Definition incomplete : bytes := text_bytes "{".

Definition evidence : ReceiptEvidence := MkReceiptEvidence "" "" 0 "1.7" 0 true true "" "" 2.

Lemma complete_ok : VerifyInstalledReceipt (U := ascii_tables) complete jq closure = Ok evidence.
Proof. vm_compute. reflexivity. Qed.

Definition normalization : InstalledReceiptNormalization := MkNormalization (Some (complete ++ [newline])) true 1 2.

Lemma incomplete_ok : NormalizeInstalledReceiptDependencies (U := ascii_tables) incomplete jq closure = Ok normalization.
Proof. vm_compute. reflexivity. Qed.

End example_installed.

Lemma resolvedInstalledDependencies_exact_witness :
  ∃ D : gset string, (∀ y, y ∈ D ↔ direct_of example_installed.closure example_installed.jq y) ∧
    (∀ x, ¬ tc (signed_edge example_installed.closure) x x) ∧
    ∀ d, d ∈ example_installed.dependencies ↔
      ∃ node, node ∈ example_installed.closure ∧ n_Name node ≠ "jq" ∧ rtc (installed_edge example_installed.closure) "jq" (n_Name node) ∧
        d = installed_dependency D (n_Name node) node.
Proof.
  destruct (resolvedInstalledDependencies_exact (U := ascii_tables) example_installed.jq example_installed.closure example_installed.dependencies
    ltac:(done) example_installed.dependencies_ok) as (D & ? & ? & _ & _ & ?).
  by exists D.
Defined.

Lemma VerifyInstalledReceipt_sound_witness :
  VerifyInstalledReceipt (U := ascii_tables) (J := example_installed.json) example_installed.complete example_installed.jq
    example_installed.closure = Ok example_installed.evidence ∧
  ∃ receipt, ∀ n, reached example_installed.closure example_installed.jq n →
    ∃ d, d ∈ ir_RuntimeDeps (D := ReceiptDependency) receipt ∧ describes_node d n.
Proof.
  split; [exact example_installed.complete_ok|].
  destruct (VerifyInstalledReceipt_sound (U := ascii_tables) (J := example_installed.json) example_installed.complete example_installed.jq
    example_installed.closure example_installed.evidence ltac:(done) example_installed.complete_ok) as (receipt & _ & _ & _ & ?).
  by exists receipt.
Defined.

Lemma NormalizeInstalledReceiptDependencies_safe_witness :
  example_installed.normalization = unchanged_receipt ∨
  in_BeforeDependencyCount example_installed.normalization < in_AfterDependencyCount example_installed.normalization.
Proof.
  destruct (NormalizeInstalledReceiptDependencies_safe (U := ascii_tables) (J := example_installed.json) example_installed.incomplete
    example_installed.jq example_installed.closure example_installed.normalization ltac:(done) example_installed.incomplete_ok)
    as [[? _]|(_ & ? & _)]; [by left|by right].
Defined.
