(* ===== verification/PolicyV2.v ===== *)
(** * policy/v2: the executable runtime policy

    [policy.go] and the document [policy.json] embedded in it: the contract every
    component of a release is bound to, and the capabilities of single Formulae,
    found by their exact identities. The embedded document is transcribed as the
    value the decoder gives for it. *)

From S2P Require Import Prelude GoStrings ClosureGraph.
From stdpp Require Import options.
Local Open Scope Z_scope.

Module policyv2.

Definition SchemaVersion : string := "dalec-homebrew-policy/v2".
Definition ResolverPolicyVersion : string := "homebrew-runtime-v2".
Definition RuntimeProfileMinimalV1 : string := "minimal-v1".
Definition FetchPolicyVersion : string := "homebrew-bottle-fetch-v1".
Definition ProvenancePolicyVersion : string := "homebrew-bottle-provenance-v1".
Definition NonCoreProvenanceWaiver : string := "tap-catalog-buildkit-and-verified-checksum-v1".
Definition RuntimeToolchainDevelopmentRootV1 : string := "toolchain-development-retention-root-v1".

Record RuntimeProfile := MkRuntimeProfile { rp_Name : string; rp_Rules : list string }.
Record Platform := MkPlatform { pl_BottleTag : string; pl_CPUBaseline : string }.
Record Linuxbrew := MkLinuxbrew { lb_UID : Z; lb_GID : Z; lb_Prefix : string }.
Record CatalogLimits := MkCatalogLimits { cl_NonCoreTaps : Z; cl_ClosureNodes : Z; cl_CatalogBytes : Z; cl_AggregateNonCoreBytes : Z }.
Record FetchPolicy := MkFetchPolicy { fp_Version : string; fp_MaxBytes : Z; fp_MaxRedirects : Z; fp_OverallTimeoutSeconds : Z }.
Record ProvenancePolicy := MkProvenancePolicy { pp_Version : string; pp_Waiver : string }.

Record Capabilities := MkCapabilities {
  ca_SharedEtc : list string; ca_GeneratedGlobalPaths : list string; ca_GeneratedKegPaths : list string; ca_Rules : list string;
}.

Record Policy := MkPolicy {
  po_SchemaVersion : string; po_ResolverPolicyVersion : string; po_Platforms : gmap string Platform; po_Linuxbrew : Linuxbrew;
  po_CatalogLimits : CatalogLimits; po_FetchPolicy : FetchPolicy; po_ProvenancePolicy : ProvenancePolicy;
  po_WritablePathTemplate : string; po_RuntimeProfile : RuntimeProfile; po_PackageCapabilities : gmap string Capabilities;
}.

#[export] Instance Platform_eq_dec : EqDecision Platform.
Proof. solve_decision. Defined.

(** ** Validation *)

Definition MinimalV1RuntimePruneRules : list string :=
  ["transitive-core-build-metadata-v1"; "transitive-core-headers-v1"; "transitive-core-man-info-v1";
   "transitive-core-python-stdlib-tests-v1"; "transitive-core-shell-completions-v1"; "transitive-core-static-archives-v1";
   "transitive-core-toolchain-development-retention-v1"].

Definition id_byte (c : ascii) : bool := isLower c || isDigit c || strings_Contains "+_.@-" c.

Definition validFormulaID (value : string) : bool :=
  let parts := strings_Split value "/" in
  (length parts =? 3)%nat
  && forallb (λ part, negb (bool_decide (part = "") || bool_decide (part = ".") || bool_decide (part = "..") || (128 <? strlen part))
                      && all_bytes id_byte part) parts.

(** [value <= previous] for two neighbours *)
Fixpoint not_ascending (values : list string) : bool :=
  match values with
  | a :: ((b :: _) as values') => (strings_Compare b a <=? 0) || not_ascending values'
  | _ => false
  end.

Definition safe_path (value : string) : bool :=
  negb (bool_decide (value = "") || strings_HasPrefix value "/" || strings_Contains value "\" || strings_ContainsString value "//")
  && forallb (λ part, negb (bool_decide (part = "") || bool_decide (part = ".") || bool_decide (part = ".."))) (strings_Split value "/").

Definition sortedUniqueSafePaths (values : list string) : bool := forallb safe_path values && negb (not_ascending values).

Definition rule_byte (c : ascii) : bool := isLower c || isDigit c || ascii_eqb c "-".

Definition safe_rule (value : string) : bool := negb (bool_decide (value = "") || (128 <? strlen value)) && all_bytes rule_byte value.

Definition sortedUniqueRules (values : list string) : bool := forallb safe_rule values && negb (not_ascending values).

Definition wanted_platforms : list (string * Platform) :=
  [("linux/amd64", MkPlatform "x86_64_linux" "core2"); ("linux/arm64", MkPlatform "arm64_linux" "armv8")].

Definition capability_problems (id : string) (caps : Capabilities) : list string :=
  err_if (negb (validFormulaID id)) "package capability Formula ID" ++
  ([ca_SharedEtc caps; ca_GeneratedGlobalPaths caps; ca_GeneratedKegPaths caps] ≫= λ values,
     err_if (negb (sortedUniqueSafePaths values)) "unsafe or duplicate paths") ++
  err_if (negb (sortedUniqueRules (ca_Rules caps))) "unsafe or duplicate rules".

Definition limits_differ (l : CatalogLimits) : bool :=
  negb (cl_NonCoreTaps l =? 16) || negb (cl_ClosureNodes l =? 256) || negb (cl_CatalogBytes l =? Z.shiftl 64 20)
  || negb (cl_AggregateNonCoreBytes l =? Z.shiftl 256 20).

Definition fetch_differs (f : FetchPolicy) : bool :=
  negb (bool_decide (fp_Version f = FetchPolicyVersion)) || negb (fp_MaxBytes f =? Z.shiftl 1 30) || negb (fp_MaxRedirects f =? 5)
  || negb (fp_OverallTimeoutSeconds f =? 15 * 60).

(** The problems, in the order of the source up to the order of its maps *)
Definition Validate (p : Policy) : list string :=
  err_if (negb (bool_decide (po_SchemaVersion p = SchemaVersion))) "schema" ++
  err_if (negb (bool_decide (po_ResolverPolicyVersion p = ResolverPolicyVersion))) "resolver policy" ++
  (wanted_platforms ≫= λ '(key, want), err_if (negb (bool_decide (po_Platforms p !! key = Some want))) "platform") ++
  err_if (negb (size (po_Platforms p) =? 2)%nat) "exactly the two supported platforms" ++
  err_if (negb (lb_UID (po_Linuxbrew p) =? 1000) || negb (lb_GID (po_Linuxbrew p) =? 1000)
          || negb (bool_decide (lb_Prefix (po_Linuxbrew p) = "/home/linuxbrew/.linuxbrew"))) "linuxbrew identity or prefix" ++
  err_if (limits_differ (po_CatalogLimits p)) "catalog limits" ++
  err_if (fetch_differs (po_FetchPolicy p)) "fetch policy" ++
  err_if (negb (bool_decide (pp_Version (po_ProvenancePolicy p) = ProvenancePolicyVersion))
          || negb (bool_decide (pp_Waiver (po_ProvenancePolicy p) = NonCoreProvenanceWaiver))) "provenance policy" ++
  err_if (negb (bool_decide (po_WritablePathTemplate p = "/home/linuxbrew/.linuxbrew/var/<rack-name>"))) "writable path template" ++
  err_if (negb (bool_decide (rp_Name (po_RuntimeProfile p) = RuntimeProfileMinimalV1))) "runtime profile" ++
  err_if (negb (bool_decide (rp_Rules (po_RuntimeProfile p) = MinimalV1RuntimePruneRules))) "runtime profile rules" ++
  (map_to_list (po_PackageCapabilities p) ≫= λ '(id, caps), capability_problems id caps).

(** ** Loading *)

Definition canonical_capabilities (caps : Capabilities) : Capabilities :=
  MkCapabilities (slices_Sort (ca_SharedEtc caps)) (slices_Sort (ca_GeneratedGlobalPaths caps)) (slices_Sort (ca_GeneratedKegPaths caps))
    (slices_Sort (ca_Rules caps)).

Definition canonicalize (p : Policy) : Policy :=
  MkPolicy (po_SchemaVersion p) (po_ResolverPolicyVersion p) (po_Platforms p) (po_Linuxbrew p) (po_CatalogLimits p) (po_FetchPolicy p)
    (po_ProvenancePolicy p) (po_WritablePathTemplate p)
    (MkRuntimeProfile (rp_Name (po_RuntimeProfile p)) (slices_Sort (rp_Rules (po_RuntimeProfile p))))
    (canonical_capabilities <$> po_PackageCapabilities p).

Definition rules (l : list string) : Capabilities := MkCapabilities [] [] [] l.

(** The embedded document *)
Definition embedded : Policy :=
  MkPolicy SchemaVersion ResolverPolicyVersion (list_to_map wanted_platforms) (MkLinuxbrew 1000 1000 "/home/linuxbrew/.linuxbrew")
    (MkCatalogLimits 16 256 67108864 268435456) (MkFetchPolicy FetchPolicyVersion 1073741824 5 900)
    (MkProvenancePolicy ProvenancePolicyVersion NonCoreProvenanceWaiver) "/home/linuxbrew/.linuxbrew/var/<rack-name>"
    (MkRuntimeProfile RuntimeProfileMinimalV1 MinimalV1RuntimePruneRules)
    (list_to_map
       [("homebrew/core/certifi", rules ["certifi-shared-ca-link-v1"]);
        ("homebrew/core/fontconfig", MkCapabilities ["fonts"] [] [] ["shared-etc-fonts"]);
        ("homebrew/core/gcc", rules [RuntimeToolchainDevelopmentRootV1]);
        ("homebrew/core/gdk-pixbuf", MkCapabilities [] ["lib/gdk-pixbuf-2.0/2.10.0/loaders.cache"] [] ["gdk-pixbuf-loader-cache"]);
        ("homebrew/core/glibc", MkCapabilities [] [] ["lib/locale"] ["brewed-loader"; "generated-glibc-locale"]);
        ("homebrew/core/node", MkCapabilities [] ["lib/node_modules/npm"] [] ["generated-node-npm"]);
        ("homebrew/core/shared-mime-info", MkCapabilities [] ["share/mime"] [] ["generated-shared-mime"]);
        ("homebrew/core/go", rules ["runtime-aux-go"]); ("homebrew/core/ncurses", rules ["runtime-aux-ncurses"]);
        ("homebrew/core/dbus", rules ["runtime-aux-dbus"]);
        ("homebrew/core/python@3.13", rules ["python-venv-template"; "runtime-aux-python"; "transitive-core-python-stdlib-tests-v1"]);
        ("homebrew/core/python@3.14", rules ["python-venv-template"; "runtime-aux-python"; "transitive-core-python-stdlib-tests-v1"]);
        ("homebrew/core/llvm", rules ["optional-llvm-tooling"; "runtime-aux-llvm"; RuntimeToolchainDevelopmentRootV1]);
        ("homebrew/core/llvm@20", rules ["optional-llvm-tooling"; "runtime-aux-llvm"; RuntimeToolchainDevelopmentRootV1]);
        ("homebrew/core/llvm@21", rules ["optional-llvm-tooling"; "runtime-aux-llvm"; RuntimeToolchainDevelopmentRootV1]);
        ("homebrew/core/open-mpi", rules [RuntimeToolchainDevelopmentRootV1]);
        ("homebrew/core/libpsl", rules ["optional-libpsl-tooling"; "runtime-aux-libpsl"]);
        ("homebrew/core/librsvg", rules ["gdk-pixbuf-loader-cache"]);
        ("homebrew/core/webp-pixbuf-loader", rules ["gdk-pixbuf-loader-cache"])]).

Definition Load : result (list string) Policy :=
  let p := canonicalize embedded in
  match Validate p with [] => Ok p | errs => Err errs end.

(** ** Capabilities of one Formula *)

Definition ForFormula (p : Policy) (id : string) : option Capabilities := po_PackageCapabilities p !! id.

Definition HasRule (p : Policy) (id rule : string) : bool :=
  match ForFormula p id with Some caps => bool_decide (rule ∈ ca_Rules caps) | None => false end.

Definition HasGeneratedGlobalPath (p : Policy) (id generatedPath : string) : bool :=
  match ForFormula p id with Some caps => bool_decide (generatedPath ∈ ca_GeneratedGlobalPaths caps) | None => false end.

Definition HasEmbeddedRule (id rule : string) : bool := match Load with Ok p => HasRule p id rule | Err _ => false end.

Definition HasEmbeddedGeneratedGlobalPath (id generatedPath : string) : bool :=
  match Load with Ok p => HasGeneratedGlobalPath p id generatedPath | Err _ => false end.

End policyv2.

(** ** Facts *)

Import policyv2.

Lemma safe_path_contained value : safe_path value = true → contained value.
Proof.
  unfold safe_path. rewrite andb_true_iff, forallb_forall. intros [_ H] p Hp. apply list_elem_of_In, H in Hp.
  apply negb_true_iff in Hp. rewrite !orb_false_iff, !bool_decide_eq_false in Hp. tauto.
Qed.

(** The paths a Formula may share or generate *)
Definition capability_paths (caps : Capabilities) : list string := ca_SharedEtc caps ++ ca_GeneratedGlobalPaths caps ++ ca_GeneratedKegPaths caps.

Lemma Validate_capabilities p id caps :
  Validate p = [] → po_PackageCapabilities p !! id = Some caps →
  validFormulaID id = true ∧ ∀ path, path ∈ capability_paths caps → contained path.
Proof.
  unfold Validate. rewrite !app_nil_iff. intros H Hid. destruct_and?.
  assert (capability_problems id caps = []) as Hc.
  { match goal with H : map_to_list _ ≫= _ = [] |- _ => rewrite bind_nil in H; by apply (H (id, caps)), elem_of_map_to_list end. }
  unfold capability_problems in Hc. rewrite !app_nil_iff, !err_if_nil, bind_nil in Hc. destruct Hc as (Hid' & Hp & _).
  split; [by apply negb_false_iff|].
  assert (∀ l path, l ∈ [ca_SharedEtc caps; ca_GeneratedGlobalPaths caps; ca_GeneratedKegPaths caps] → path ∈ l → contained path) as Hall.
  { intros l path Hl Hpath. specialize (Hp l Hl). apply err_if_nil, negb_false_iff in Hp. unfold sortedUniqueSafePaths in Hp.
    apply andb_true_iff in Hp as [Hp _]. rewrite forallb_forall in Hp. apply safe_path_contained, Hp. by apply list_elem_of_In. }
  intros path [Hp1|[Hp1|Hp1]%elem_of_app]%elem_of_app; (eapply Hall; [|exact Hp1]); set_solver.
Qed.

(** the policy compiled into the program loads: it satisfies the contract of
    its own validator. Every Formula it names is a full identity, every path it
    lets a Formula share or generate stays below its directory, and the rule that
    lets a symbolic link leave the keg for the shared certificates belongs to
    homebrew/core/certifi alone. *)
Theorem Load_embedded :
  ∃ p, Load = Ok p ∧ (∀ id caps, ForFormula p id = Some caps → validFormulaID id = true ∧ ∀ path, path ∈ capability_paths caps → contained path) ∧
  ∀ id, HasEmbeddedRule id "certifi-shared-ca-link-v1" = true ↔ id = "homebrew/core/certifi".
Proof.
  set (p := canonicalize embedded). assert (Validate p = []) as Hv by (vm_compute; reflexivity).
  assert (Load = Ok p) as Hl by (unfold Load; fold p; by rewrite Hv). exists p. split_and!; [done|intros id caps; by apply Validate_capabilities|].
  intros id. unfold HasEmbeddedRule. rewrite Hl. unfold HasRule, ForFormula. split.
  - destruct (po_PackageCapabilities p !! id) as [caps|] eqn:Hid; [|done]. intros Hr%bool_decide_eq_true.
    assert (map_Forall (λ id caps, "certifi-shared-ca-link-v1" ∈ ca_Rules caps → id = "homebrew/core/certifi") (po_PackageCapabilities p)) as Hall.
    { apply (bool_decide_unpack _). vm_compute. exact I. }
    by apply (Hall id caps).
  - intros ->. vm_compute. reflexivity.
Qed.
