(* ===== verification/TapPolicy.v ===== *)
(** * policy/v2: the tap policy

    The policy embedded in a release: which taps may be used, and for which one
    Formula an upstream archive may be turned into a bottle ([tap.go],
    [tap_prebuilt.go]). [LoadTapPolicy] decodes the embedded document with the
    standard library and calls [ValidateTapPolicy]; the digest of the embedded
    trusted root is an argument. *)

From S2P Require Import Prelude GoStrings NetUrl FormulaId ClosureGraph CatalogFields.
From stdpp Require Import options.
Local Open Scope Z_scope.

(** ** Types *)

Record PrebuiltArchivePlatformPolicy := MkPlatformPolicy { ap_Platform : string; ap_URL : string; ap_SHA256 : string }.

Record PrebuiltArchiveMemberPolicy := MkMemberPolicy { am_Path : string; am_Type : string; am_Mode : string }.

Record PrebuiltArchiveConstraints := MkConstraints {
  ac_Format : string; ac_SingleGzipMember : bool; ac_MaxCompressedBytes : Z; ac_MaxExpandedBytes : Z; ac_MaxExpansionRatio : Z;
  ac_MaxEntries : Z; ac_MaxFileBytes : Z; ac_MaxDepth : Z; ac_MaxPathBytes : Z; ac_Members : slice PrebuiltArchiveMemberPolicy;
}.

Record PrebuiltArchiveInstallPolicy := MkInstallPolicy { in_Source : string; in_Destination : string; in_Mode : string }.

Record PrebuiltBinaryMachinePolicy := MkMachinePolicy { mc_Platform : string; mc_Machine : string }.

Record PrebuiltBinaryPolicy := MkBinaryPolicy {
  bp_Format : string; bp_Machines : slice PrebuiltBinaryMachinePolicy; bp_Linkage : string; bp_Interpreter : string;
  bp_NeededLibraries : slice string; bp_RPath : string; bp_WritableExecutableSegments : string; bp_GoModule : string;
  bp_CGOEnabled : option bool;
}.

Record PrebuiltArchivePolicy := MkArchivePolicy {
  po_FormulaID : string; po_PolicyVersion : string; po_Version : string; po_FormulaSourceDigest : string; po_License : string;
  po_RootOnly : bool; po_RequireNoBottle : bool; po_Dependencies : slice string; po_Platforms : slice PrebuiltArchivePlatformPolicy;
  po_Archive : PrebuiltArchiveConstraints; po_Install : PrebuiltArchiveInstallPolicy; po_Binary : PrebuiltBinaryPolicy;
}.

Record TapPolicy := MkTapPolicy {
  tp_SchemaVersion : string; tp_RepositoryTemplate : string; tp_DefaultBranchOnly : bool; tp_PublicOnly : bool;
  tp_AuthenticatedEndpoints : bool; tp_UserSuppliedRemotes : bool; tp_MaxNonCoreTaps : Z; tp_SigstoreTrustedRootDigest : string;
  tp_SigstoreIssuer : string; tp_SigstoreIdentityTemplate : string; tp_PrebuiltArchives : list PrebuiltArchivePolicy;
}.

#[export] Instance PrebuiltArchivePlatformPolicy_eq_dec : EqDecision PrebuiltArchivePlatformPolicy.
Proof. solve_decision. Defined.
#[export] Instance PrebuiltArchiveMemberPolicy_eq_dec : EqDecision PrebuiltArchiveMemberPolicy.
Proof. solve_decision. Defined.
#[export] Instance PrebuiltArchiveConstraints_eq_dec : EqDecision PrebuiltArchiveConstraints.
Proof. solve_decision. Defined.
#[export] Instance PrebuiltArchiveInstallPolicy_eq_dec : EqDecision PrebuiltArchiveInstallPolicy.
Proof. solve_decision. Defined.
#[export] Instance PrebuiltBinaryMachinePolicy_eq_dec : EqDecision PrebuiltBinaryMachinePolicy.
Proof. solve_decision. Defined.
#[export] Instance PrebuiltBinaryPolicy_eq_dec : EqDecision PrebuiltBinaryPolicy.
Proof. solve_decision. Defined.
#[export] Instance PrebuiltArchivePolicy_eq_dec : EqDecision PrebuiltArchivePolicy.
Proof. solve_decision. Defined.

(** ** Constants *)

Definition TapPolicySchemaVersion : string := "dalec-homebrew-tap-policy/v1".
Definition PrebuiltDerivedBottlePolicyVersion : string := "prebuilt-derived-bottle-v1".
Definition DefaultMaxNonCoreTaps : Z := 16.
Definition prebuiltA365FormulaID : string := "sozercan/repo/a365".
Definition prebuiltA365Version : string := "0.3.3".
Definition prebuiltArchiveFormat : string := "tar+gzip".
Definition prebuiltArchiveMemberType : string := "regular".
Definition prebuiltBinaryFormat : string := "elf64".
Definition prebuiltBinaryLinkage : string := "static".
Definition prebuiltBinaryForbidden : string := "forbidden".
Definition prebuiltMaxURLBytes : Z := 2048.
Definition prebuiltMaxCompressedBytes : Z := Z.shiftl 32 20.
Definition prebuiltMaxExpandedBytes : Z := Z.shiftl 64 20.
Definition prebuiltMaxExpansionRatio : Z := 8.
Definition prebuiltMaxEntries : Z := 3.
Definition prebuiltMaxFileBytes : Z := Z.shiftl 16 20.
Definition prebuiltMaxDepth : Z := 1.
Definition prebuiltMaxPathBytes : Z := 255.
Definition prebuiltMaxInstallPathBytes : Z := 255.
Definition prebuiltMaxPolicyFormulaEntries : Z := DefaultMaxNonCoreTaps.

(** [expectedA365PrebuiltArchivePolicy] *)
Definition expectedA365PrebuiltArchivePolicy : PrebuiltArchivePolicy :=
  MkArchivePolicy prebuiltA365FormulaID PrebuiltDerivedBottlePolicyVersion prebuiltA365Version
    "sha256:d6c00086e77905de6f2c93c59ff2b560101925dc77a1f3094468fd154a89e997" "MIT" true true (Some [])
    (Some [
      MkPlatformPolicy "linux/amd64" "https://github.com/sozercan/a365cli/releases/download/v0.3.3/a365_0.3.3_linux_amd64.tar.gz"
        "sha256:71461c31e350cabf4e718a5e1331b39a395a6dc9183bb3ea5922f0fac67404ce";
      MkPlatformPolicy "linux/arm64" "https://github.com/sozercan/a365cli/releases/download/v0.3.3/a365_0.3.3_linux_arm64.tar.gz"
        "sha256:fe7e6b2efa8bab9b804e401e3664dcb6adbb4e2cdcf7d2049b05e645f3eccc83"])
    (MkConstraints prebuiltArchiveFormat true prebuiltMaxCompressedBytes prebuiltMaxExpandedBytes prebuiltMaxExpansionRatio
      prebuiltMaxEntries prebuiltMaxFileBytes prebuiltMaxDepth prebuiltMaxPathBytes
      (Some [MkMemberPolicy "LICENSE" prebuiltArchiveMemberType "0644"; MkMemberPolicy "README.md" prebuiltArchiveMemberType "0644";
             MkMemberPolicy "a365" prebuiltArchiveMemberType "0755"]))
    (MkInstallPolicy "a365" "bin/a365" "0555")
    (MkBinaryPolicy prebuiltBinaryFormat (Some [MkMachinePolicy "linux/amd64" "x86_64"; MkMachinePolicy "linux/arm64" "aarch64"])
      prebuiltBinaryLinkage prebuiltBinaryForbidden (Some []) prebuiltBinaryForbidden prebuiltBinaryForbidden
      "github.com/sozercan/a365cli" (Some false)).

(** ** Fields *)

Definition canonicalSHA256 (value : string) : bool :=
  (strlen value =? 7 + 64) && strings_HasPrefix value "sha256:" && all_bytes isHexLower (drop_bytes 7 value).

(** The value of a string of octal digits *)
Fixpoint octal_value (acc : Z) (s : string) : option Z :=
  match s with
  | "" => Some acc
  | String c s => if byte_in 48 55 c then octal_value (8 * acc + digit_value c) s else None
  end.

(** [strconv.ParseUint(value, 8, 12)] on four digits stays below the limit of
    its bit size. *)
Definition parsePolicyMode (value : string) : option Z :=
  if negb (strlen value =? 4) || negb (ascii_eqb (first_byte value) "0") then None
  else mode ← octal_value 0 value; if 511 <? mode then None else Some mode.

Definition path_char (c : ascii) : bool := isLower c || isUpper c || isDigit c || strings_Contains "._+@-/" c.

Definition validateRelativePolicyPath (value : string) (maxBytes : Z) : bool :=
  negb (bool_decide (value = "") || (maxBytes <? strlen value))
  && negb (strings_HasPrefix value "/" || strings_HasSuffix value "/" || strings_ContainsString value "//"
           || negb (bool_decide (path_Clean value = value)))
  && forallb (λ c, negb (bool_decide (c = "") || bool_decide (c = ".") || bool_decide (c = ".."))) (strings_Split value "/")
  && all_bytes path_char value.

(** [url.ParseRequestURI] *)
Class RequestURI := { url_ParseRequestURI : string → option URL }.

Definition validatePrebuiltURL `{!RequestURI} (raw : string) : bool :=
  negb (bool_decide (raw = "") || (prebuiltMaxURLBytes <? strlen raw))
  && negb (strings_Contains raw "%" || strings_Contains raw "\")
  && match url_ParseRequestURI raw with
     | None => false
     | Some u =>
         negb (negb (bool_decide (url_Scheme u = "https")) || negb (bool_decide (url_Hostname u = "github.com"))
               || negb (bool_decide (url_Host u = url_Hostname u)))
         && negb (url_HasUser u || negb (bool_decide (url_Opaque u = "")) || negb (bool_decide (url_RawPath u = ""))
                  || negb (bool_decide (url_RawQuery u = "")) || url_ForceQuery u || negb (bool_decide (url_Fragment u = "")))
         && negb (bool_decide (url_Path u = "") || negb (bool_decide (path_Clean (url_Path u) = url_Path u))
                  || strings_ContainsString (url_Path u) "//")
     end.

Definition validateExactNonCoreFormulaID (value : string) : bool :=
  match Parse value with
  | Err _ => false
  | Ok id => bool_decide (FormulaID_String id = value) && negb (bool_decide (id_tap id = CoreTap))
  end.

(** ** Validation *)

(** The loops that compare each element with the previous one *)
Fixpoint sorted_problems (message : string) (previous : option string) (l : list string) : list string :=
  match l with
  | [] => []
  | x :: l =>
      match previous with
      | Some p => err_if (strings_Compare x p <=? 0) message
      | None => []
      end ++ sorted_problems message (Some x) l
  end.

Section validate.
Context `{U : !UnicodeTables, Q : !RequestURI}.

Definition validatePrebuiltPlatforms (platforms : slice PrebuiltArchivePlatformPolicy) : list string :=
  match platforms with
  | None => ["prebuilt archive platforms must be present"]
  | Some l =>
      err_if (negb (bool_decide (length l = 2%nat))) "prebuilt archive policy must contain exactly linux/amd64 and linux/arm64" ++
      sorted_problems "prebuilt archive platforms must be strictly sorted and unique" None (ap_Platform <$> l) ++
      (l ≫= λ platform,
        err_if (negb (bool_decide (ap_Platform platform = "linux/amd64")) && negb (bool_decide (ap_Platform platform = "linux/arm64")))
          "unsupported prebuilt archive platform" ++
        err_if (negb (validatePrebuiltURL (ap_URL platform))) "URL" ++
        err_if (negb (canonicalSHA256 (ap_SHA256 platform))) "platform digest must be canonical lowercase sha256")
  end.

(** The product of two bounded factors fits in 64 bits. *)
Definition validatePrebuiltArchiveConstraints (archive : PrebuiltArchiveConstraints) : list string :=
  let outside v limit := (v <=? 0) || (limit <? v) in
  let members := items (ac_Members archive) in
  err_if (negb (bool_decide (ac_Format archive = prebuiltArchiveFormat))) "archive format" ++
  err_if (negb (ac_SingleGzipMember archive)) "archive must require exactly one gzip member" ++
  err_if (outside (ac_MaxCompressedBytes archive) prebuiltMaxCompressedBytes) "max compressed bytes" ++
  err_if (outside (ac_MaxExpandedBytes archive) prebuiltMaxExpandedBytes) "max expanded bytes" ++
  err_if (outside (ac_MaxExpansionRatio archive) prebuiltMaxExpansionRatio) "max expansion ratio" ++
  err_if (outside (ac_MaxEntries archive) prebuiltMaxEntries) "max entries" ++
  err_if (outside (ac_MaxFileBytes archive) prebuiltMaxFileBytes || (ac_MaxExpandedBytes archive <? ac_MaxFileBytes archive))
    "max file bytes" ++
  err_if (outside (ac_MaxDepth archive) prebuiltMaxDepth) "max archive depth" ++
  err_if (outside (ac_MaxPathBytes archive) prebuiltMaxPathBytes) "max archive path bytes" ++
  err_if ((0 <? ac_MaxCompressedBytes archive) && (ac_MaxCompressedBytes archive <=? prebuiltMaxCompressedBytes)
          && (0 <? ac_MaxExpansionRatio archive) && (ac_MaxExpansionRatio archive <=? prebuiltMaxExpansionRatio)
          && (ac_MaxCompressedBytes archive * ac_MaxExpansionRatio archive <? ac_MaxExpandedBytes archive))
    "max expanded bytes exceed the bounded compression ratio" ++
  err_if (bool_decide (ac_Members archive = None)) "archive members must be present" ++
  err_if (negb (Z.of_nat (length members) =? ac_MaxEntries archive)) "archive member allowlist must exactly fill the entry bound" ++
  sorted_problems "archive members must be strictly sorted and unique" None (am_Path <$> members) ++
  each_once (λ member,
      (if negb (validateRelativePolicyPath (am_Path member) (ac_MaxPathBytes archive)) then ["archive member path"]
       else err_if (ac_MaxDepth archive <? Z.of_nat (strings_Count (am_Path member) "/") + 1) "archive member exceeds depth") ++
      err_if (negb (bool_decide (am_Type member = prebuiltArchiveMemberType))) "archive member must be a regular file" ++
      err_if (bool_decide (parsePolicyMode (am_Mode member) = None)) "archive member mode")
    (λ member, strings_ToLower (am_Path member)) (λ _, "archive member has a case-folding collision") ∅ members.

(** The permission bits [0o222] and [0o111] *)
Definition mode_write : Z := 2 * 64 + 2 * 8 + 2.
Definition mode_execute : Z := 64 + 8 + 1.

Definition validatePrebuiltInstall (install : PrebuiltArchiveInstallPolicy) (members : list PrebuiltArchiveMemberPolicy) : list string :=
  let found := match list_find (λ member, am_Path member = in_Source install) members with
               | Some (_, member) => bool_decide (am_Type member = prebuiltArchiveMemberType)
               | None => false
               end in
  err_if (negb (validateRelativePolicyPath (in_Source install) prebuiltMaxPathBytes)) "install source" ++
  err_if (negb (validateRelativePolicyPath (in_Destination install) prebuiltMaxInstallPathBytes)) "install destination" ++
  match parsePolicyMode (in_Mode install) with
  | None => ["install mode"]
  | Some mode =>
      err_if (negb (Z.land mode mode_write =? 0)) "installed payload must be non-writable" ++
      err_if (negb (Z.land mode mode_execute =? mode_execute)) "installed payload must be executable by owner, group, and other"
  end ++
  err_if (negb found) "install source must identify one permitted regular archive member".

Definition validatePrebuiltBinary (binary : PrebuiltBinaryPolicy) (platforms : list PrebuiltArchivePlatformPolicy) : list string :=
  let machines := items (bp_Machines binary) in
  err_if (negb (bool_decide (bp_Format binary = prebuiltBinaryFormat))) "binary format" ++
  err_if (bool_decide (bp_Machines binary = None)) "binary machine constraints must be present" ++
  err_if (negb (bool_decide (length machines = length platforms)) || negb (bool_decide (length machines = 2%nat)))
    "binary machine constraints must cover exactly both archive platforms" ++
  sorted_problems "binary machine constraints must be strictly sorted and unique" None (mc_Platform <$> machines) ++
  (zip machines platforms ≫= λ e,
    err_if (negb (bool_decide (mc_Platform e.1 = ap_Platform e.2))) "binary machine platform order must match archive platform order") ++
  (machines ≫= λ machine,
    if bool_decide (mc_Platform machine = "linux/amd64") then
      err_if (negb (bool_decide (mc_Machine machine = "x86_64"))) "linux/amd64 binary machine must be x86_64"
    else if bool_decide (mc_Platform machine = "linux/arm64") then
      err_if (negb (bool_decide (mc_Machine machine = "aarch64"))) "linux/arm64 binary machine must be aarch64"
    else ["unsupported binary machine platform"]) ++
  err_if (negb (bool_decide (bp_Linkage binary = prebuiltBinaryLinkage))) "prebuilt executable must be statically linked" ++
  err_if (negb (bool_decide (bp_Interpreter binary = prebuiltBinaryForbidden))) "ELF interpreter must be forbidden" ++
  match bp_NeededLibraries binary with
  | None => ["needed libraries must be an explicit empty list"]
  | Some l => err_if (negb (bool_decide (length l = 0%nat))) "prebuilt executable must have no needed libraries"
  end ++
  err_if (negb (bool_decide (bp_RPath binary = prebuiltBinaryForbidden))) "ELF RPATH and RUNPATH must be forbidden" ++
  err_if (negb (bool_decide (bp_WritableExecutableSegments binary = prebuiltBinaryForbidden)))
    "writable executable segments must be forbidden" ++
  err_if (negb (bool_decide (bp_GoModule binary = "github.com/sozercan/a365cli"))) "Go module" ++
  match bp_CGOEnabled binary with
  | None => ["CGO constraint must be explicit"]
  | Some enabled => err_if enabled "CGO must be disabled"
  end.

Definition validatePrebuiltArchivePolicy (policy : PrebuiltArchivePolicy) : list string :=
  err_if (negb (bool_decide (po_PolicyVersion policy = PrebuiltDerivedBottlePolicyVersion))) "unsupported derivation policy" ++
  err_if (negb (bool_decide (po_Version policy = prebuiltA365Version))) "version" ++
  err_if (negb (canonicalSHA256 (po_FormulaSourceDigest policy))) "Formula source digest must be canonical lowercase sha256" ++
  err_if (negb (bool_decide (po_License policy = "MIT"))) "prebuilt archive license must be exactly MIT" ++
  err_if (negb (po_RootOnly policy)) "prebuilt archive authorization must be root-only" ++
  err_if (negb (po_RequireNoBottle policy)) "prebuilt archive authorization must require the Formula to have no bottle" ++
  match po_Dependencies policy with
  | None => ["prebuilt archive dependencies must be an explicit empty list"]
  | Some l => err_if (negb (bool_decide (length l = 0%nat))) "prebuilt archive Formula must have no dependencies"
  end ++
  validatePrebuiltPlatforms (po_Platforms policy) ++
  validatePrebuiltArchiveConstraints (po_Archive policy) ++
  validatePrebuiltInstall (po_Install policy) (items (ac_Members (po_Archive policy))) ++
  validatePrebuiltBinary (po_Binary policy) (items (po_Platforms policy)).

Definition validatePrebuiltArchivePolicies (policies : list PrebuiltArchivePolicy) : list string :=
  err_if (bool_decide (length policies = 0%nat)) "tap policy must contain the release-bound prebuilt archive authorization" ++
  err_if (prebuiltMaxPolicyFormulaEntries <? Z.of_nat (length policies)) "prebuilt archive policy contains too many Formulae" ++
  err_if (negb (bool_decide (length policies = 1%nat))) "prebuilt archive policy must authorize exactly one Formula" ++
  sorted_problems "prebuilt archive Formula IDs must be strictly sorted and unique" None (po_FormulaID <$> policies) ++
  (policies ≫= λ policy,
    err_if (negb (validateExactNonCoreFormulaID (po_FormulaID policy))) "prebuilt archive policy Formula ID" ++
    validatePrebuiltArchivePolicy policy) ++
  match policies with
  | [policy] => err_if (negb (bool_decide (policy = expectedA365PrebuiltArchivePolicy)))
                  "prebuilt archive policy differs from the exact release-bound authorization"
  | _ => []
  end.

(** [wantRootDigest] is the digest of the embedded trusted root. *)
Definition ValidateTapPolicy (wantRootDigest : string) (policy : TapPolicy) : list string :=
  err_if (negb (bool_decide (tp_SchemaVersion policy = TapPolicySchemaVersion))
          || negb (bool_decide (tp_RepositoryTemplate policy = "https://github.com/<owner>/homebrew-<tap>"))
          || negb (tp_DefaultBranchOnly policy) || negb (tp_PublicOnly policy)
          || tp_AuthenticatedEndpoints policy || tp_UserSuppliedRemotes policy
          || negb (tp_MaxNonCoreTaps policy =? DefaultMaxNonCoreTaps)
          || negb (bool_decide (tp_SigstoreTrustedRootDigest policy = wantRootDigest))
          || negb (bool_decide (tp_SigstoreIssuer policy = "https://token.actions.githubusercontent.com"))
          || negb (bool_decide (tp_SigstoreIdentityTemplate policy = "^https://github.com/<owner>/homebrew-<tap>/")))
    "tap policy differs from the V2 public default-GitHub-tap contract" ++
  validatePrebuiltArchivePolicies (tp_PrebuiltArchives policy).

End validate.

(** [PrebuiltArchiveForFormula]; the copy it returns has the same value. *)
Definition PrebuiltArchiveForFormula (p : TapPolicy) (id : string) : option PrebuiltArchivePolicy :=
  snd <$> list_find (λ policy, po_FormulaID policy = id) (tp_PrebuiltArchives p).

(** [LoadTapPolicy]: [decoded] is what the strict JSON decoder makes of the
    embedded document. *)
Definition LoadTapPolicy `{!UnicodeTables, !RequestURI} (wantRootDigest : string) (decoded : option TapPolicy) : option TapPolicy :=
  policy ← decoded;
  match ValidateTapPolicy wantRootDigest policy with [] => Some policy | _ => None end.

(** ** The release policy *)

(** What [url.ParseRequestURI] is documented to do with a plain address on
    github.com: no escapes, query, fragment or userinfo. *)
Class RequestURILaws `{!RequestURI} : Prop := {
  parse_plain path :
    strings_HasPrefix path "/" = true → all_bytes path_char path = true →
    url_ParseRequestURI ("https://github.com" +:+ path) = Some (MkURL "https" "" false "github.com" path "" false "" "" "");
}.

Definition release_policy (root : string) : TapPolicy :=
  MkTapPolicy TapPolicySchemaVersion "https://github.com/<owner>/homebrew-<tap>" true true false false DefaultMaxNonCoreTaps root
    "https://token.actions.githubusercontent.com" "^https://github.com/<owner>/homebrew-<tap>/"
    [expectedA365PrebuiltArchivePolicy].

Lemma parse_raw `{Q : !RequestURI, !RequestURILaws} raw path :
  raw = "https://github.com" +:+ path → strings_HasPrefix path "/" = true → all_bytes path_char path = true →
  url_ParseRequestURI raw = Some (MkURL "https" "" false "github.com" path "" false "" "" "").
Proof. intros ->. apply parse_plain. Qed.

Lemma release_urls `{Q : !RequestURI, !RequestURILaws} :
  Forall (λ p, validatePrebuiltURL (ap_URL p) = true) (items (po_Platforms expectedA365PrebuiltArchivePolicy)).
Proof.
  repeat constructor; unfold validatePrebuiltURL; cbn [ap_URL].
  - by rewrite (parse_raw _ "/sozercan/a365cli/releases/download/v0.3.3/a365_0.3.3_linux_amd64.tar.gz") by reflexivity.
  - by rewrite (parse_raw _ "/sozercan/a365cli/releases/download/v0.3.3/a365_0.3.3_linux_arm64.tar.gz") by reflexivity.
Qed.

Lemma expected_platforms `{Q : !RequestURI, !RequestURILaws} :
  validatePrebuiltPlatforms (po_Platforms expectedA365PrebuiltArchivePolicy) = [].
Proof.
  pose proof release_urls as Hu. unfold validatePrebuiltPlatforms. cbn [po_Platforms expectedA365PrebuiltArchivePolicy items
    default from_option id] in *. rewrite !app_nil_iff, bind_nil. split_and!; [vm_compute; reflexivity..|].
  intros p Hp. rewrite Forall_forall in Hu. rewrite (Hu p Hp). revert p Hp. apply Forall_forall.
  repeat constructor.
Qed.

Lemma expected_archive `{U : !UnicodeTables} :
  validatePrebuiltArchiveConstraints (po_Archive expectedA365PrebuiltArchivePolicy) = [].
Proof.
  unfold validatePrebuiltArchiveConstraints. rewrite !app_nil_iff. split_and!; [vm_compute; reflexivity..|].
  rewrite each_once_nil. cbn [po_Archive ac_Members expectedA365PrebuiltArchivePolicy items default from_option id fmap list_fmap am_Path].
  split.
  - apply Forall_forall. repeat constructor.
  - rewrite (ToLower_ascii_tables "LICENSE"), (ToLower_ascii_tables "README.md"), (ToLower_ascii_tables "a365") by reflexivity.
    vm_compute. repeat constructor; set_solver.
Qed.

Lemma expected_valid `{U : !UnicodeTables, Q : !RequestURI, !RequestURILaws} :
  validatePrebuiltArchivePolicy expectedA365PrebuiltArchivePolicy = [].
Proof.
  unfold validatePrebuiltArchivePolicy. do 7 (apply app_nil_iff; split; [vm_compute; reflexivity|]).
  apply app_nil_iff. split; [exact expected_platforms|]. apply app_nil_iff. split; [exact expected_archive|].
  vm_compute. reflexivity.
Qed.

(** One policy passes validation, the one of the release: it authorizes one
    archive per platform of one Formula, as a root and never as a dependency,
    and that policy does meet every single check on addresses, digests, limits,
    archive members, install mode and binary. *)
Theorem ValidateTapPolicy_iff `{U : !UnicodeTables, Q : !RequestURI} (L : RequestURILaws) root policy :
  ValidateTapPolicy root policy = [] ↔ policy = release_policy root.
Proof.
  split.
  - unfold ValidateTapPolicy, validatePrebuiltArchivePolicies. autorewrite with errs.
    destruct policy as [schema template branch public auth remotes taps digest issuer identity policies]. cbn.
    intros (H & _ & _ & Hone & _ & _ & Hexact). destruct_and!. subst.
    destruct policies as [|policy [|? ?]]; try done. by autorewrite with errs in Hexact; subst.
  - intros ->. apply app_nil_iff. split.
    { apply err_if_nil. cbn [release_policy tp_SigstoreTrustedRootDigest]. by rewrite (bool_decide_true (root = root)). }
    do 4 (apply app_nil_iff; split; [done|]). apply app_nil_iff. split; [|by vm_compute].
    apply bind_nil. intros policy ->%list_elem_of_singleton. apply app_nil_iff. split; [by vm_compute|apply expected_valid].
Qed.

Module Example.

(** A parser for plain addresses on github.com *)
Definition github_only : RequestURI :=
  {| url_ParseRequestURI raw :=
       if strings_HasPrefix raw "https://github.com/"
       then Some (MkURL "https" "" false "github.com" (drop_bytes 18 raw) "" false "" "" "") else None |}.

Lemma github_laws : @RequestURILaws github_only.
Proof.
  split. intros path Hp _. destruct path as [|c path]; [done|]. unfold strings_HasPrefix in Hp. cbn [String.prefix] in Hp.
  destruct (Ascii.ascii_dec "/" c) as [<-|]; [|done]. unfold url_ParseRequestURI, github_only, strings_HasPrefix.
  by replace (String.prefix _ _) with true by (by destruct path).
Qed.

End Example.

Lemma ValidateTapPolicy_iff_witness : @ValidateTapPolicy ascii_tables Example.github_only "sha256:root" (release_policy "sha256:root") = [].
Proof. apply (@ValidateTapPolicy_iff ascii_tables Example.github_only Example.github_laws "sha256:root"). reflexivity. Defined.
