(* ===== verification/CatalogRequest.v ===== *)
(** * internal/catalog: the catalog-set request

    The request of the frontend to the catalog service: its validation, its
    canonical form and its digest, and that the canonical bytes decode to a
    request with the same canonical bytes, which is what the service relies on
    ([CatalogStore.CatalogAPILaws]). A message is the text of the source
    without the values it prints. *)

From S2P Require Import Prelude GoStrings FormulaId ClosureGraph CatalogFields.
From Stdlib Require Import SetoidPermutation.
From stdpp Require Import options.
Local Open Scope Z_scope.

(** ** Types *)

Record Platform := MkPlatform { pl_OS : string; pl_Architecture : string; pl_Variant : string }.

#[export] Instance Platform_eq_dec : EqDecision Platform.
Proof. solve_decision. Defined.

Record PlatformRequest := MkPlatformRequest {
  pr_Platform : Platform; pr_ExternalRoots : slice string; pr_CoreRoots : list string;
}.

Record Request := MkRequest {
  req_SchemaVersion : string; req_Targets : list PlatformRequest;
  req_HomebrewCommit : string; req_CoreSnapshotDigest : string;
  req_ExternalRoots : list string; req_Platforms : list Platform;
}.

(** [fmt.Errorf("label: %w", errors.Join(errs...))]: nil when [errs] is empty *)
Definition newline : string := String "010" "".

Definition within (label : string) (errs : list string) : list string :=
  match errs with [] => [] | _ => [label +:+ ": " +:+ strings_Join newline errs] end.

Lemma within_nil label errs : within label errs = [] ↔ errs = [].
Proof. by destruct errs. Qed.

#[export] Hint Rewrite within_nil : errs.

(** ** Platforms *)

Definition Platform_Validate (p : Platform) : bool :=
  negb (negb (bool_decide (pl_OS p = "linux"))
        || (negb (bool_decide (pl_Architecture p = "amd64")) && negb (bool_decide (pl_Architecture p = "arm64")))
        || negb (bool_decide (pl_Variant p = ""))).

Definition Platform_key (p : Platform) : string := pl_OS p +:+ "/" +:+ pl_Architecture p.

Definition Platform_bottleTag (p : Platform) : string :=
  if negb (bool_decide (pl_OS p = "linux")) then ""
  else if bool_decide (pl_Architecture p = "amd64") then "x86_64_linux"
  else if bool_decide (pl_Architecture p = "arm64") then "arm64_linux"
  else "".

Definition comparePlatform : Platform → Platform → Z :=
  cmp_then (cmp_on pl_OS strings_Compare)
    (cmp_then (cmp_on pl_Architecture strings_Compare) (cmp_on pl_Variant strings_Compare)).

(** ** Validation *)

Definition normalizedRequestTargets (r : Request) : result string (list PlatformRequest) :=
  if bool_decide (req_Targets r ≠ []) then
    _ ← check (bool_decide (req_Platforms r ≠ []) || bool_decide (req_ExternalRoots r ≠ []))
      "request cannot mix targets with legacy platforms/external_roots fields";
    Ok (req_Targets r)
  else if bool_decide (req_Platforms r = []) && bool_decide (req_ExternalRoots r = []) then Ok []
  else
    _ ← check (bool_decide (req_Platforms r = []) || bool_decide (req_ExternalRoots r = []))
      "legacy request compatibility requires both platforms and external_roots";
    Ok ((λ platform, MkPlatformRequest platform (Some (req_ExternalRoots r)) []) <$> req_Platforms r).

(** The loop over one list of roots: an identity that is not canonical is
    reported and skipped. *)
Fixpoint validate_root_list (label : string) (wrong : string → bool) (seen : gset string) (l : list string) : list string :=
  match l with
  | [] => []
  | id :: l =>
      if FormulaID_Validate id then
        err_if (wrong id) (label +:+ " belongs to the wrong tap") ++
        err_if (bool_decide (id ∈ seen)) ("duplicate " +:+ label) ++
        validate_root_list label wrong ({[id]} ∪ seen) l
      else (label +:+ " is not canonical") :: validate_root_list label wrong seen l
  end.

Fixpoint validate_targets (seenPlatforms : gset string) (targets : list PlatformRequest) : list string :=
  match targets with
  | [] => []
  | target :: targets =>
      let p := pr_Platform target in
      (if Platform_Validate p
       then err_if (bool_decide (Platform_key p ∈ seenPlatforms)) "duplicate target platform"
       else ["unsupported platform"]) ++
      err_if (bool_decide (pr_ExternalRoots target = None)) "external_roots must be an array" ++
      validate_root_list "external root" FormulaID_IsCore ∅ (items (pr_ExternalRoots target)) ++
      validate_root_list "core root" (λ id, negb (FormulaID_IsCore id)) ∅ (pr_CoreRoots target) ++
      validate_targets (if Platform_Validate p then {[Platform_key p]} ∪ seenPlatforms else seenPlatforms) targets
  end.

(** What the loop leaves in [rootAssociations], [seenRoots] and [seenTaps] *)
Definition external_roots (targets : list PlatformRequest) : list string :=
  targets ≫= λ target, items (pr_ExternalRoots target).

Definition core_roots (targets : list PlatformRequest) : list string := targets ≫= pr_CoreRoots.

Definition canonical_ids (l : list string) : list string := filter (λ id, FormulaID_Validate id = true) l.

Definition seen_roots (targets : list PlatformRequest) : gset string :=
  list_to_set (canonical_ids (external_roots targets)) ∪ list_to_set (canonical_ids (core_roots targets)).

Definition seen_taps (targets : list PlatformRequest) : gset string :=
  list_to_set (FormulaID_Tap <$> canonical_ids (external_roots targets)).

Definition ValidateRequest (r : Request) : list string :=
  let targets := match normalizedRequestTargets r with Ok targets => targets | Err _ => [] end in
  err_if (negb (bool_decide (req_SchemaVersion r = RequestSchemaVersion))) "unsupported schema_version" ++
  err_of id (normalizedRequestTargets r) ++
  err_if (bool_decide (length targets = 0%nat)) "targets must be a non-empty array" ++
  err_if (2 <? length targets)%nat "targets has too many entries" ++
  validate_targets ∅ targets ++
  err_if (bool_decide (length (external_roots targets) = 0%nat)) "request has no external roots for any target" ++
  err_if (MaxClosureNodes <? size (seen_roots targets))%nat "request has too many unique roots" ++
  err_if (MaxTaps <? size (seen_taps targets))%nat "request reaches too many root taps" ++
  err_if (negb (validateCommit (req_HomebrewCommit r))) "homebrew_commit" ++
  err_if (negb (validateSHA256Digest (req_CoreSnapshotDigest r))) "core_snapshot_digest".

(** ** Canonical form *)

Definition compareTargets : PlatformRequest → PlatformRequest → Z := cmp_on pr_Platform comparePlatform.

Definition sort_target (target : PlatformRequest) : PlatformRequest :=
  MkPlatformRequest (pr_Platform target) (slices_Sort <$> pr_ExternalRoots target) (slices_Sort (pr_CoreRoots target)).

Definition NormalizedTargets (r : Request) : result (list string) (list PlatformRequest) :=
  match ValidateRequest r with
  | [] => targets ← map_err (λ e, [e]) (normalizedRequestTargets r);
          Ok (slices_SortFunc compareTargets (sort_target <$> targets))
  | errs => Err errs
  end.

Definition canonicalizeRequest (r : Request) : Request :=
  let targets := match normalizedRequestTargets r with Ok targets => targets | Err _ => req_Targets r end in
  MkRequest (req_SchemaVersion r) (slices_SortFunc compareTargets (sort_target <$> targets))
    (req_HomebrewCommit r) (req_CoreSnapshotDigest r) [] [].

(** [encoding/json]: the canonical text of a request ([encodeCanonical]) and the
    strict decoder without the size limit ([decodeDocument]). *)
Class RequestJSON := {
  encodeRequest : Request → option string;
  decodeRequest : string → option Request;
}.

(** Reading back the text of a valid canonical request gives the request: its
    in-memory fields, which have no text, are empty. *)
Class RequestJSONLaws `{J : !RequestJSON} : Prop := {
  request_roundtrip r b :
    ValidateRequest r = [] → req_ExternalRoots r = [] → req_Platforms r = [] →
    encodeRequest r = Some b → decodeRequest b = Some r;
}.

Section canonical.
Context `{J : !RequestJSON}.

Definition CanonicalRequest (r : Request) : option string :=
  if negb (bool_decide (ValidateRequest r = [])) then None
  else
    let clone := canonicalizeRequest r in
    if negb (bool_decide (ValidateRequest clone = [])) then None
    else
      data ← encodeRequest clone;
      if MaxRequestBytes <? strlen data then None else Some data.

Definition DecodeRequest (data : string) : option Request :=
  if MaxRequestBytes <? strlen data then None
  else
    value ← decodeRequest data;
    let value := canonicalizeRequest value in
    if bool_decide (ValidateRequest value = []) then Some value else None.

End canonical.

(** ** What a valid request is *)

(** The roots of one platform: external ones outside homebrew/core, core ones
    inside, none of them twice *)
Record target_wf (t : PlatformRequest) : Prop := {
  tw_platform : Platform_Validate (pr_Platform t) = true;
  tw_array : is_Some (pr_ExternalRoots t);
  tw_external id : id ∈ items (pr_ExternalRoots t) → FormulaID_Validate id = true ∧ FormulaID_IsCore id = false;
  tw_external_once : NoDup (items (pr_ExternalRoots t));
  tw_core id : id ∈ pr_CoreRoots t → FormulaID_Validate id = true ∧ FormulaID_IsCore id = true;
  tw_core_once : NoDup (pr_CoreRoots t);
}.

Definition target_key (t : PlatformRequest) : string := Platform_key (pr_Platform t).

Record targets_wf (targets : list PlatformRequest) : Prop := {
  tsw_count : (1 <= length targets <= 2)%nat;
  tsw_target t : t ∈ targets → target_wf t;
  tsw_platforms : NoDup (target_key <$> targets);
  tsw_external : external_roots targets ≠ [];
  tsw_roots : (size (list_to_set (external_roots targets ++ core_roots targets) : gset string) <= MaxClosureNodes)%nat;
  tsw_taps : (size (list_to_set (FormulaID_Tap <$> external_roots targets) : gset string) <= MaxTaps)%nat;
}.

Record request_wf (r : Request) : Prop := {
  rqw_schema : req_SchemaVersion r = RequestSchemaVersion;
  rqw_targets : ∃ targets, normalizedRequestTargets r = Ok targets ∧ targets_wf targets;
  rqw_commit : validateCommit (req_HomebrewCommit r) = true;
  rqw_snapshot : validateSHA256Digest (req_CoreSnapshotDigest r) = true;
}.

(** Two targets with the same roots, in any order *)
Definition target_equiv (t u : PlatformRequest) : Prop :=
  pr_Platform t = pr_Platform u ∧ option_Forall2 Permutation (pr_ExternalRoots t) (pr_ExternalRoots u) ∧
  pr_CoreRoots t ≡ₚ pr_CoreRoots u.

Definition targets_equiv : relation (list PlatformRequest) := shuffled target_equiv.

(** Two requests for the same roots per platform, whether written as targets or
    in the older form, in any order *)
Definition request_equiv (r s : Request) : Prop :=
  req_SchemaVersion r = req_SchemaVersion s ∧ req_HomebrewCommit r = req_HomebrewCommit s ∧
  req_CoreSnapshotDigest r = req_CoreSnapshotDigest s ∧
  match normalizedRequestTargets r, normalizedRequestTargets s with
  | Ok l, Ok k => targets_equiv l k
  | Err e, Err f => e = f ∧ targets_equiv (req_Targets r) (req_Targets s)
  | _, _ => False
  end.

(** ** Validation *)

Lemma validate_root_list_nil label wrong seen l :
  validate_root_list label wrong seen l = [] ↔
  (∀ id, id ∈ l → FormulaID_Validate id = true ∧ wrong id = false) ∧ NoDup l ∧ ∀ id, id ∈ l → id ∉ seen.
Proof.
  revert seen. induction l as [|a l IH]; intros seen; cbn [validate_root_list].
  { split; [intros _; split_and!; [set_solver|constructor|set_solver]|done]. }
  destruct (FormulaID_Validate a) eqn:Ea.
  2: { split; [done|]. intros (Hv & _). destruct (Hv a); [set_solver|congruence]. }
  autorewrite with errs. rewrite IH, NoDup_cons. setoid_rewrite elem_of_cons. split.
  - intros (Hw & Hs & Hv & Hnd & Hd). split_and!; [naive_solver|set_solver|done|].
    intros x [->|Hx]; [done|]. specialize (Hd x Hx). set_solver.
  - intros (Hv & [Ha Hnd] & Hd). split_and!; [by apply Hv; left|by apply Hd; left|by auto|done|].
    intros x Hx [->%elem_of_singleton|?]%elem_of_union; [done|]. by eapply Hd; [right|].
Qed.

Lemma validate_targets_nil seen targets :
  validate_targets seen targets = [] ↔
  (∀ t, t ∈ targets → target_wf t) ∧ NoDup (target_key <$> targets) ∧ ∀ k, k ∈ target_key <$> targets → k ∉ seen.
Proof.
  revert seen. induction targets as [|t targets IH]; intros seen; cbn [validate_targets fmap list_fmap].
  { split; [intros _; split_and!; [set_solver|constructor|set_solver]|done]. }
  destruct (Platform_Validate (pr_Platform t)) eqn:Ep.
  2: { split; [done|]. intros (Hw & _). destruct (Hw t); [set_solver|congruence]. }
  autorewrite with errs. rewrite IH, !validate_root_list_nil, NoDup_cons. setoid_rewrite elem_of_cons.
  setoid_rewrite negb_false_iff. fold (target_key t). split.
  - intros (Hs & Ha & (He & Hen & _) & (Hc & Hcn & _) & Hw & Hnd & Hd). split_and!; [|set_solver|done|].
    + intros u [->|?]; [|by apply Hw]. split; try done. by apply not_eq_None_Some.
    + intros x [->|Hx]; [done|]. specialize (Hd x Hx). set_solver.
  - intros (Hw & [Ha Hnd] & Hd). destruct (Hw t) as [? ?%not_eq_None_Some ? ? ? ?]; [by left|].
    split_and!; try done; try set_solver.
Qed.

Lemma canonical_ids_all l : (∀ id, id ∈ l → FormulaID_Validate id = true) → canonical_ids l = l.
Proof.
  unfold canonical_ids. induction l as [|a l IH]; intros H; [done|]. rewrite filter_cons_True; [|set_solver].
  rewrite IH; [done|set_solver].
Qed.

Lemma targets_external targets id :
  (∀ t, t ∈ targets → target_wf t) → id ∈ external_roots targets → FormulaID_Validate id = true.
Proof. intros Hw (t & Hid & Ht)%list_elem_of_bind. by apply (tw_external t (Hw t Ht)). Qed.

Lemma targets_core targets id :
  (∀ t, t ∈ targets → target_wf t) → id ∈ core_roots targets → FormulaID_Validate id = true.
Proof. intros Hw (t & Hid & Ht)%list_elem_of_bind. by apply (tw_core t (Hw t Ht)). Qed.

Lemma seen_sets targets :
  (∀ t, t ∈ targets → target_wf t) →
  seen_roots targets = list_to_set (external_roots targets ++ core_roots targets) ∧
  seen_taps targets = list_to_set (FormulaID_Tap <$> external_roots targets).
Proof.
  intros Hw. unfold seen_roots, seen_taps. rewrite !canonical_ids_all; [by rewrite list_to_set_app_L|..].
  all: intros id; first [by apply targets_external | by apply targets_core].
Qed.

Lemma ValidateRequest_nil r : ValidateRequest r = [] ↔ request_wf r.
Proof.
  unfold ValidateRequest. destruct (normalizedRequestTargets r) as [targets|e] eqn:En; cbn [err_of].
  2: { split; [|intros [_ (? & ? & _) _ _]; congruence]. autorewrite with errs. by intros (_ & ? & _). }
  autorewrite with errs. rewrite validate_targets_nil, !length_zero_iff_nil, !Nat.ltb_ge. split.
  - intros (? & _ & Hne & Hle & (Hw & Hnd & _) & He & Hr & Ht & ? & ?). destruct (seen_sets targets Hw) as [Hsr Hst].
    rewrite Hsr in Hr. rewrite Hst in Ht. split; [done| |done..]. exists targets. split; [done|]. split; try done.
    destruct targets; [done|cbn in *; lia].
  - intros [? (ts & Hts & [Hc Hw Hnd He Hr Ht]) ? ?]. rewrite En in Hts. injection Hts as <-.
    destruct (seen_sets targets Hw) as [-> ->]. split_and!; try done; [|lia].
    intros ->. cbn in Hc. lia.
Qed.

(** ** Canonical form *)

#[export] Instance comparePlatform_order : CmpOrder comparePlatform.
Proof. unfold comparePlatform. apply _. Qed.

#[export] Instance comparePlatform_total : CmpTotal comparePlatform.
Proof.
  apply cmp_then_total. intros [o1 a1 v1] [o2 a2 v2] Ho. unfold cmp_on in Ho. cbn in Ho. apply Compare_eq in Ho as ->.
  unfold cmp_then, cmp_on. cbn. destruct (strings_Compare a1 a2 =? 0) eqn:Ea; cbn; case_bool; [|done].
  apply Compare_eq in Ea as ->. by intros ->%Compare_eq.
Qed.

#[export] Instance compareTargets_order : CmpOrder compareTargets.
Proof. unfold compareTargets. apply _. Qed.

Lemma slices_Sort_inj l k : slices_Sort l = slices_Sort k → l ≡ₚ k.
Proof. intros H. by rewrite <-(slices_Sort_Permutation l), H, slices_Sort_Permutation. Qed.

Lemma target_equiv_sort t u : target_equiv t u ↔ sort_target t = sort_target u.
Proof.
  unfold target_equiv, sort_target. destruct t as [p e c], u as [q f d]; cbn. split.
  - intros (-> & He & ->). f_equal. inversion He as [x y Hxy|]; subst; cbn; [|done]. f_equal. by apply slices_Sort_unique.
  - intros [= -> He Hc%slices_Sort_inj]. split_and!; [done| |done].
    destruct e as [e|], f as [f|]; cbn in He; try done; constructor. injection He as He. by apply slices_Sort_inj.
Qed.

Lemma sort_target_equiv t : target_equiv t (sort_target t).
Proof.
  destruct t as [p [e|] c]; split_and!; cbn; [done| |by rewrite slices_Sort_Permutation|done|constructor|by rewrite slices_Sort_Permutation].
  constructor. by rewrite slices_Sort_Permutation.
Qed.

Lemma targets_equiv_sort l k : targets_equiv l k ↔ sort_target <$> l ≡ₚ sort_target <$> k.
Proof.
  split.
  - apply shuffled_norm. intros t u _. apply target_equiv_sort.
  - apply shuffled_of_norm. intros t u. apply target_equiv_sort.
Qed.

(** The canonical targets: sorted roots, sorted platforms *)
Definition canonical_targets (targets : list PlatformRequest) : list PlatformRequest :=
  slices_SortFunc compareTargets (sort_target <$> targets).

Lemma canonical_targets_equiv targets : targets_equiv targets (canonical_targets targets).
Proof.
  apply targets_equiv_sort. unfold canonical_targets. rewrite SortFunc_Permutation, <-list_fmap_compose.
  assert (sort_target ∘ sort_target <$> targets = sort_target <$> targets) as ->; [|done].
  apply list_fmap_ext. intros i t _. symmetry. apply target_equiv_sort, sort_target_equiv.
Qed.

Lemma sorted_keys (targets : list PlatformRequest) : target_key <$> (sort_target <$> targets) = target_key <$> targets.
Proof. rewrite <-list_fmap_compose. by apply list_fmap_ext. Qed.

(** With one target per platform the canonical targets do not depend on the
    order they were written in. *)
Lemma canonical_targets_unique l k :
  NoDup (target_key <$> l) → targets_equiv l k → canonical_targets l = canonical_targets k.
Proof.
  intros Hnd He%targets_equiv_sort. apply SortFunc_unique_in; [apply _| |done].
  intros x y Hx Hy Hc. rewrite <-sorted_keys in Hnd. eapply NoDup_fmap_inj; [exact Hnd|done..|].
  apply (@cmp_eq _ comparePlatform _) in Hc. unfold target_key. by rewrite Hc.
Qed.

Lemma target_wf_equiv t u : target_equiv t u → target_wf t → target_wf u.
Proof.
  destruct t as [p e c], u as [q f d]. intros (Hp & He & Hc) [? [e' Hs] Hv ? Hcv ?]. cbn in *. subst.
  inversion He as [? f' Hef|]; subst. cbn in *. split; cbn; try done.
  - intros id. rewrite <-Hef. apply Hv.
  - by rewrite <-Hef.
  - intros id. rewrite <-Hc. apply Hcv.
  - by rewrite <-Hc.
Qed.

Lemma targets_equiv_roots l k :
  targets_equiv l k → external_roots l ≡ₚ external_roots k ∧ core_roots l ≡ₚ core_roots k ∧
  target_key <$> l ≡ₚ target_key <$> k.
Proof.
  intros (m & Hm & Hf). unfold external_roots, core_roots. rewrite <-Hm. clear Hm.
  induction Hf as [|t u l m (Hp & He & Hc) _ (IH1 & IH2 & IH3)]; [done|]. cbn. split_and!.
  - rewrite IH1. f_equiv. by inversion He.
  - by rewrite IH2, Hc.
  - unfold target_key at 1 3. rewrite IH3, Hp. done.
Qed.

Lemma targets_wf_equiv l k : targets_equiv l k → targets_wf l → targets_wf k.
Proof.
  intros He [Hc Hw Hnd Hne Hr Ht]. destruct (targets_equiv_roots l k He) as (H1 & H2 & H3).
  pose proof (Permutation_length H3) as Hlen. rewrite !length_fmap in Hlen. split.
  - lia.
  - eapply shuffled_all; [|exact He|exact Hw]. apply target_wf_equiv.
  - by rewrite <-H3.
  - intros Hk. rewrite Hk in H1. by apply Permutation_nil_r in H1.
  - by rewrite <-H1, <-H2.
  - by rewrite <-H1.
Qed.

Lemma canonicalizeRequest_targets r targets :
  normalizedRequestTargets r = Ok targets → targets ≠ [] →
  normalizedRequestTargets (canonicalizeRequest r) = Ok (canonical_targets targets) ∧
  req_Targets (canonicalizeRequest r) = canonical_targets targets.
Proof.
  intros Hn Hne. unfold canonicalizeRequest. rewrite Hn. fold (canonical_targets targets). split; [|done].
  unfold normalizedRequestTargets. cbn [req_Targets req_Platforms req_ExternalRoots].
  rewrite bool_decide_true; [done|]. intros Hnil.
  pose proof (Permutation_length (SortFunc_Permutation compareTargets (sort_target <$> targets))) as Hl.
  fold (canonical_targets targets) in Hl. rewrite Hnil, length_fmap in Hl. by destruct targets.
Qed.

Lemma targets_wf_nonempty targets : targets_wf targets → targets ≠ [].
Proof. intros [Hc _ _ _ _ _] ->. cbn in Hc. lia. Qed.

(** Canonicalization keeps a request valid and equivalent, so that the second
    validation of [CanonicalRequest] cannot fail. *)
Lemma canonicalizeRequest_wf r : request_wf r → request_wf (canonicalizeRequest r).
Proof.
  intros [? (ts & Hn & Hw) ? ?]. destruct (canonicalizeRequest_targets r ts Hn) as [Hc _].
  { by apply targets_wf_nonempty. }
  split; [done| |done..]. exists (canonical_targets ts). split; [done|].
  eapply targets_wf_equiv; [apply canonical_targets_equiv|done].
Qed.

Lemma canonicalizeRequest_stable r : request_wf r → canonicalizeRequest (canonicalizeRequest r) = canonicalizeRequest r.
Proof.
  intros [? (ts & Hn & Hw) ? ?]. destruct (canonicalizeRequest_targets r ts Hn) as [Hc Ht].
  { by apply targets_wf_nonempty. }
  unfold canonicalizeRequest at 1. rewrite Hc. fold (canonical_targets (canonical_targets ts)).
  rewrite <-(canonical_targets_unique ts (canonical_targets ts)); [|apply Hw|apply canonical_targets_equiv].
  unfold canonicalizeRequest. by rewrite Hn.
Qed.

Lemma request_equiv_wf r s : request_equiv r s → request_wf r → request_wf s.
Proof.
  intros (Hs & Hc & Hd & Ht) [? (ts & Hn & Hw) ? ?]. rewrite Hn in Ht.
  destruct (normalizedRequestTargets s) as [k|] eqn:Ek; [|done].
  split; [congruence| |congruence..]. exists k. split; [done|]. by eapply targets_wf_equiv.
Qed.

Lemma canonicalizeRequest_equiv r s :
  request_wf r → request_equiv r s → canonicalizeRequest r = canonicalizeRequest s.
Proof.
  intros [? (ts & Hn & Hw) ? ?] (Hs & Hc & Hd & Ht). rewrite Hn in Ht. unfold canonicalizeRequest.
  rewrite Hn. destruct (normalizedRequestTargets s) as [k|] eqn:Ek; [|done].
  fold (canonical_targets ts) (canonical_targets k). rewrite Hs, Hc, Hd. f_equal.
  apply canonical_targets_unique; [apply Hw|done].
Qed.

Lemma canonicalizeRequest_inj r s :
  request_wf r → request_wf s → canonicalizeRequest r = canonicalizeRequest s → request_equiv r s.
Proof.
  intros [? (l & Hl & _) ? ?] [? (k & Hk & _) ? ?]. unfold canonicalizeRequest, request_equiv. rewrite Hl, Hk.
  intros [= ? Ht ? ?]. split_and!; [done..|]. apply targets_equiv_sort.
  by rewrite <-(SortFunc_Permutation compareTargets (sort_target <$> l)), Ht, SortFunc_Permutation.
Qed.

Lemma request_equiv_sym r s : request_equiv r s → request_equiv s r.
Proof.
  intros (? & ? & ? & Ht). split_and!; [done..|].
  destruct (normalizedRequestTargets r), (normalizedRequestTargets s); try done;
    rewrite !targets_equiv_sort in *; [done|]. by destruct Ht.
Qed.

(** ** Properties *)

Section properties.
Context `{J : !RequestJSON}.

Lemma CanonicalRequest_Some r b :
  CanonicalRequest r = Some b ↔
  request_wf r ∧ encodeRequest (canonicalizeRequest r) = Some b ∧ strlen b <= MaxRequestBytes.
Proof.
  unfold CanonicalRequest. rewrite <-ValidateRequest_nil. destruct (bool_decide (ValidateRequest r = [])) eqn:Ev; cbn.
  2: { apply bool_decide_eq_false in Ev. naive_solver. }
  apply bool_decide_eq_true in Ev. rewrite bool_decide_true; cbn.
  2: { by apply ValidateRequest_nil, canonicalizeRequest_wf, ValidateRequest_nil. }
  destruct (encodeRequest (canonicalizeRequest r)) as [d|]; cbn; [|naive_solver].
  destruct (Z.ltb_spec MaxRequestBytes (strlen d)); naive_solver lia.
Qed.

Lemma CanonicalRequest_decode `{!RequestJSONLaws} r b :
  CanonicalRequest r = Some b → DecodeRequest b = Some (canonicalizeRequest r).
Proof.
  intros (Hw & He & Hb)%CanonicalRequest_Some. unfold DecodeRequest. destruct (Z.ltb_spec MaxRequestBytes (strlen b)); [lia|].
  rewrite (request_roundtrip (canonicalizeRequest r) b); [|by apply ValidateRequest_nil, canonicalizeRequest_wf|done..].
  cbn. rewrite canonicalizeRequest_stable by done. rewrite bool_decide_true; [done|].
  by apply ValidateRequest_nil, canonicalizeRequest_wf.
Qed.

Lemma canonical_decodes_request `{!RequestJSONLaws} r b :
  CanonicalRequest r = Some b → ∃ r', DecodeRequest b = Some r' ∧ CanonicalRequest r' = Some b.
Proof.
  intros Hb. exists (canonicalizeRequest r). split; [by apply CanonicalRequest_decode|].
  apply CanonicalRequest_Some in Hb as (Hw & He & Hl). apply CanonicalRequest_Some.
  rewrite canonicalizeRequest_stable by done. split_and!; [by apply canonicalizeRequest_wf|done..].
Qed.

End properties.

(** A request passes validation exactly when it asks, for one or two
    different Linux platforms, for canonical roots outside homebrew/core
    (at least one over all platforms) and canonical core roots, none of them
    twice, within the limits on roots and taps, at a commit and a core snapshot
    named by full digests. *)
Theorem ValidateRequest_iff r : ValidateRequest r = [] ↔ request_wf r.
Proof. apply ValidateRequest_nil. Qed.

(** The canonical bytes of a request, and so its digest and the identity of
    the operation, determine what is asked for: two requests have the same
    bytes exactly when they ask for the same roots on the same platforms at the
    same commit and snapshot, in whatever order or form they were written. *)
Theorem CanonicalRequest_identifies `{J : !RequestJSON} (L : RequestJSONLaws) r s b
  (Hr : CanonicalRequest r = Some b) : CanonicalRequest s = Some b ↔ request_equiv r s.
Proof.
  pose proof (proj1 (CanonicalRequest_Some r b) Hr) as (Hw & He & Hb). split.
  - intros Hs. pose proof (proj1 (CanonicalRequest_Some s b) Hs) as (Hw' & He' & _).
    apply CanonicalRequest_decode in Hr, Hs. apply canonicalizeRequest_inj; [done..|congruence].
  - intros Heq. apply CanonicalRequest_Some. rewrite <-(canonicalizeRequest_equiv r s) by done.
    split_and!; [by eapply request_equiv_wf|done..].
Qed.

(** ** Example: one root written in the older form and as a target *)

Module Example.

Definition hex64 : string := "0123456789abcdef0123456789abcdef0123456789abcdef0123456789abcdef".
Definition hex40 : string := "0123456789abcdef0123456789abcdef01234567".

Definition amd64 : Platform := MkPlatform "linux" "amd64" "".
Definition arm64 : Platform := MkPlatform "linux" "arm64" "".

Definition legacy : Request :=
  MkRequest RequestSchemaVersion [] hex40 ("sha256:" +:+ hex64) ["azure/kubelogin/kubelogin"] [arm64; amd64].

Definition canonical : Request := canonicalizeRequest legacy.

Definition with_targets : Request :=
  MkRequest RequestSchemaVersion
    [MkPlatformRequest amd64 (Some ["azure/kubelogin/kubelogin"]) []; MkPlatformRequest arm64 (Some ["azure/kubelogin/kubelogin"]) []]
    hex40 ("sha256:" +:+ hex64) [] [].

#[local] Instance Request_eq_dec : EqDecision Request.
Proof. assert (EqDecision PlatformRequest) by solve_decision. solve_decision. Defined.

(** A codec that knows one request *)
Definition json : RequestJSON :=
  {| encodeRequest r := if bool_decide (r = canonical) then Some "canonical" else None;
     decodeRequest b := if bool_decide (b = "canonical") then Some canonical else None |}.

#[local] Existing Instance json.

Lemma json_laws : RequestJSONLaws.
Proof.
  split. intros r b _ _ _. cbn. case_bool_decide as Hr; [|done]. subst r. by intros [= <-].
Qed.

End Example.

Lemma CanonicalRequest_identifies_witness :
  @CanonicalRequest Example.json Example.with_targets = Some "canonical" ∧
  @request_equiv Example.legacy Example.with_targets.
Proof.
  assert (@CanonicalRequest Example.json Example.with_targets = Some "canonical") as Hs
    by (vm_compute; reflexivity).
  split; [exact Hs|].
  apply (@CanonicalRequest_identifies Example.json Example.json_laws Example.legacy Example.with_targets "canonical");
    [vm_compute; reflexivity|exact Hs].
Defined.
