(* ===== verification/CatalogTap.v ===== *)
(** * internal/catalog: the catalog of one tap

    The complete catalog of a non-core tap at one commit: Formulae with their
    dependencies, variations, bottle and prebuilt-archive declarations, and the
    aliases, renames and migrations that lead to them. Its validation, what a
    valid catalog guarantees to the resolver, and its canonical form. *)

From S2P Require Import Prelude GoStrings NetUrl FormulaId ClosureGraph CatalogFields CatalogRequest.
From stdpp Require Import options.
Local Open Scope Z_scope.

(** ** Types *)

Record TapSource := MkTapSource {
  ts_ID : string; ts_Repository : string; ts_Commit : string; ts_TreeDigest : string; ts_ArchiveDigest : string;
}.

#[export] Instance TapSource_eq_dec : EqDecision TapSource.
Proof. solve_decision. Defined.

Record Dependency := MkDependency { dp_Raw : string; dp_ID : string }.

Record FormulaVariation := MkFormulaVariation {
  fv_Tag : string; fv_Unavailable : bool; fv_Dependencies : list Dependency; fv_OverridesDependencies : bool;
  fv_KegOnly : bool; fv_OverridesKegOnly : bool;
}.

Record BottleFile := MkBottleFile { fl_Tag : string; fl_URL : string; fl_SHA256 : string; fl_Cellar : string }.

Record BottleDeclaration := MkBottleDeclaration { bd_RootURL : string; bd_Rebuild : Z; bd_Files : list BottleFile }.

Record PrebuiltArchiveFile := MkPrebuiltArchiveFile {
  pf_Tag : string; pf_URL : string; pf_SHA256 : string; pf_Format : string;
}.

Record PrebuiltArchiveDeclaration := MkPrebuiltArchiveDeclaration { pd_Files : list PrebuiltArchiveFile }.

Record Formula := MkFormula {
  fm_ID : string; fm_Name : string; fm_HomebrewFullName : string; fm_SourcePath : string; fm_SourceDigest : string;
  fm_StableVersion : string; fm_Revision : Z; fm_VersionScheme : Z; fm_Disabled : bool; fm_KegOnly : bool;
  fm_License : string; fm_Dependencies : list Dependency; fm_Variations : list FormulaVariation;
  fm_VersionedFormulae : list string; fm_Bottle : option BottleDeclaration;
  fm_PrebuiltArchive : option PrebuiltArchiveDeclaration;
}.

Record ScopedMapping := MkScopedMapping { sm_From : string; sm_To : string }.

Record Migration := MkMigration { mg_From : string; mg_RawTarget : string; mg_To : string }.

(** [PublishedAt] is the number of nanoseconds since the zero [time.Time]. *)
Record TapCatalog := MkTapCatalog {
  tc_SchemaVersion : string; tc_Tap : TapSource; tc_PublishedAt : Z; tc_Sequence : Z;
  tc_Formulae : list Formula; tc_Aliases : list ScopedMapping; tc_Renames : list ScopedMapping;
  tc_Migrations : list Migration;
}.

#[export] Instance Dependency_eq_dec : EqDecision Dependency.
Proof. solve_decision. Defined.
#[export] Instance FormulaVariation_eq_dec : EqDecision FormulaVariation.
Proof. solve_decision. Defined.
#[export] Instance BottleFile_eq_dec : EqDecision BottleFile.
Proof. solve_decision. Defined.
#[export] Instance BottleDeclaration_eq_dec : EqDecision BottleDeclaration.
Proof. solve_decision. Defined.
#[export] Instance PrebuiltArchiveFile_eq_dec : EqDecision PrebuiltArchiveFile.
Proof. solve_decision. Defined.
#[export] Instance PrebuiltArchiveDeclaration_eq_dec : EqDecision PrebuiltArchiveDeclaration.
Proof. solve_decision. Defined.
#[export] Instance Formula_eq_dec : EqDecision Formula.
Proof. solve_decision. Defined.
#[export] Instance ScopedMapping_eq_dec : EqDecision ScopedMapping.
Proof. solve_decision. Defined.
#[export] Instance Migration_eq_dec : EqDecision Migration.
Proof. solve_decision. Defined.
#[export] Instance TapCatalog_eq_dec : EqDecision TapCatalog.
Proof. solve_decision. Defined.

(** ** Validation *)

Section validate.
Context `{U : !UnicodeTables, N : !NetURL}.

Definition validateTapSource (source : TapSource) : list string :=
  (if negb (TapID_Validate (ts_ID source)) then ["id"]
   else err_if (TapID_IsCore (ts_ID source)) "homebrew/core cannot be a tap catalog source") ++
  err_if (negb (bool_decide (ts_Repository source = TapID_DefaultGitHubRepository (ts_ID source)))) "repository" ++
  err_if (negb (validateCommit (ts_Commit source))) "commit" ++
  err_if (negb (validateSHA256Digest (ts_TreeDigest source))) "tree_digest" ++
  err_if (negb (validateSHA256Digest (ts_ArchiveDigest source))) "archive_digest".

(** The body of the loop of [validateDependencies] up to the duplicate check *)
Definition validate_dependency (owner : string) (d : Dependency) : list string :=
  err_if (negb (FormulaID_Validate (dp_ID d))) "id" ++
  if bool_decide (dp_Raw d = "") || hasControl (dp_Raw d) || (MaxFormulaIDBytes <? strlen (dp_Raw d))
  then ["raw is empty, overlong, or contains control characters"]
  else match strings_Count (dp_Raw d) "/" with
       | 0%nat =>
           err_if (negb (catalog_validateFormulaName (dp_Raw d))) "raw" ++
           err_if (negb (bool_decide (dp_Raw d = FormulaID_Name (dp_ID d)))) "bare dependency does not match the name" ++
           err_if (negb (bool_decide (FormulaID_Tap (dp_ID d) = "homebrew/core"))
                   && negb (bool_decide (FormulaID_Tap (dp_ID d) = owner))) "bare dependency normalizes to unrelated tap"
       | 2%nat =>
           match ParseFormulaID (dp_Raw d) with
           | Err _ => ["raw"]
           | Ok parsed => err_if (negb (bool_decide (parsed = dp_ID d))) "raw does not match normalized dependency"
           end
       | _ => ["raw is neither bare nor fully qualified"]
       end.

Definition validateDependencies (dependencies : list Dependency) (owner : string) : list string :=
  each_once (validate_dependency owner) dp_ID (λ _, "duplicate normalized dependency") ∅ dependencies.

Definition validate_archive_file (file : PrebuiltArchiveFile) : list string :=
  err_if (negb (bool_decide (pf_Tag file = "x86_64_linux")) && negb (bool_decide (pf_Tag file = "arm64_linux"))) "unsupported tag" ++
  err_if (negb (validateHTTPSURL (pf_URL file) true)) "url" ++
  err_if (negb (validateSHA256Digest (pf_SHA256 file))) "sha256" ++
  err_if (negb (validatePrebuiltArchiveFormat (pf_Format file) (pf_URL file))) "format".

Definition ValidatePrebuiltArchiveDeclaration (declaration : PrebuiltArchiveDeclaration) : list string :=
  err_if (bool_decide (length (pd_Files declaration) = 0%nat)) "files must be a non-empty array" ++
  err_if (2 <? length (pd_Files declaration))%nat "files has too many entries" ++
  each_once validate_archive_file pf_Tag (λ _, "duplicate prebuilt archive tag") ∅ (pd_Files declaration).

Definition validate_bottle_file (file : BottleFile) : list string :=
  err_if (negb (catalog_validBottleTag (fl_Tag file))) "unsupported tag" ++
  err_if (negb (validateHTTPSURL (fl_URL file) true)) "url" ++
  err_if (negb (validateSHA256Digest (fl_SHA256 file))) "sha256" ++
  err_if (negb (validateCellarPolicy (fl_Cellar file))) "cellar".

Definition validateBottleDeclaration (bottle : BottleDeclaration) : list string :=
  err_if (negb (validateHTTPSURL (bd_RootURL bottle) false)) "root_url" ++
  err_if (bd_Rebuild bottle <? 0) "rebuild must be non-negative" ++
  err_if (bool_decide (length (bd_Files bottle) = 0%nat)) "files must be a non-empty array" ++
  each_once validate_bottle_file fl_Tag (λ _, "duplicate bottle tag") ∅ (bd_Files bottle).

Definition validate_variation (tap : string) (v : FormulaVariation) : list string :=
  err_if (negb (catalog_validBottleTag (fv_Tag v))) "unsupported variation tag" ++
  err_if (fv_Unavailable v && (bool_decide (fv_Dependencies v ≠ []) || fv_OverridesDependencies v || fv_KegOnly v
                               || fv_OverridesKegOnly v)) "variation is unavailable but also overrides Formula fields" ++
  err_if (bool_decide (fv_Dependencies v ≠ []) && negb (fv_OverridesDependencies v))
    "variation has dependencies without overrides_dependencies" ++
  err_if (fv_KegOnly v && negb (fv_OverridesKegOnly v)) "variation sets keg_only without overrides_keg_only" ++
  within "variation dependencies" (validateDependencies (fv_Dependencies v) tap).

(** No tag has both a native bottle and a prebuilt archive. *)
Definition validate_both_declared (formula : Formula) : list string :=
  match fm_Bottle formula, fm_PrebuiltArchive formula with
  | Some bottle, Some archive =>
      let bottleTags := fl_Tag <$> bd_Files bottle in
      pd_Files archive ≫= λ file,
        err_if (bool_decide (pf_Tag file ∈ bottleTags) || bool_decide ("all" ∈ bottleTags))
          "tag is declared as both a native bottle and prebuilt archive"
  | _, _ => []
  end.

Definition validateFormula (tap : string) (formula : Formula) : list string :=
  err_if (negb (FormulaID_Validate (fm_ID formula))) "id" ++
  err_if (negb (bool_decide (FormulaID_Tap (fm_ID formula) = tap))) "Formula does not belong to tap" ++
  err_if (negb (catalog_validateFormulaName (fm_Name formula))) "name" ++
  err_if (negb (bool_decide (fm_Name formula = FormulaID_Name (fm_ID formula)))) "name does not match Formula ID" ++
  err_if (negb (bool_decide (fm_HomebrewFullName formula = fm_ID formula))) "homebrew_full_name" ++
  err_if (negb (catalog_validateFormulaSourcePath (fm_SourcePath formula) (fm_Name formula))) "source_path" ++
  err_if (negb (validateSHA256Digest (fm_SourceDigest formula))) "source_digest" ++
  err_if (bool_decide (strings_TrimSpace (fm_StableVersion formula) = "") || hasControl (fm_StableVersion formula))
    "stable_version is required and cannot contain control characters" ++
  err_if ((fm_Revision formula <? 0) || (fm_VersionScheme formula <? 0)) "revision and version_scheme must be non-negative" ++
  err_if (hasControl (fm_License formula)) "license cannot contain control characters" ++
  within "dependencies" (validateDependencies (fm_Dependencies formula) tap) ++
  each_once (validate_variation tap) fv_Tag (λ _, "duplicate variation tag") ∅ (fm_Variations formula) ++
  each_once (λ id, err_if (negb (FormulaID_Validate id)) "versioned_formulae") id (λ _, "duplicate versioned Formula") ∅
    (fm_VersionedFormulae formula) ++
  match fm_Bottle formula with Some bottle => within "bottle" (validateBottleDeclaration bottle) | None => [] end ++
  match fm_PrebuiltArchive formula with
  | Some archive => within "prebuilt_archive" (ValidatePrebuiltArchiveDeclaration archive)
  | None => []
  end ++
  validate_both_declared formula.

Definition validateScopedMapping (tap : string) (formulae : gset string) (mapping : ScopedMapping) : list string :=
  ([("from", sm_From mapping); ("to", sm_To mapping)] ≫= λ field,
     err_if (negb (FormulaID_Validate field.2)) field.1 ++
     err_if (negb (bool_decide (FormulaID_Tap field.2 = tap))) (field.1 +:+ " leaves tap")) ++
  err_if (bool_decide (sm_From mapping = sm_To mapping)) "mapping source and target are identical" ++
  err_if (bool_decide (sm_From mapping ∈ formulae)) "mapping source is also a canonical Formula" ++
  err_if (bool_decide (sm_To mapping ∉ formulae)) "mapping target is not a canonical Formula".

Definition validateMigration (tap : string) (formulae : gset string) (migration : Migration) : list string :=
  err_if (negb (FormulaID_Validate (mg_From migration))) "from" ++
  err_if (negb (bool_decide (FormulaID_Tap (mg_From migration) = tap))) "migration source leaves tap" ++
  err_if (bool_decide (mg_From migration ∈ formulae)) "migration source is also a canonical Formula" ++
  (if negb (strings_Count (mg_RawTarget migration) "/" =? 2)%nat then ["migration target must be fully qualified"]
   else match ParseFormulaID (mg_RawTarget migration) with
        | Err _ => ["raw_target"]
        | Ok parsed => err_if (negb (bool_decide (parsed = mg_To migration))) "raw_target does not match normalized target"
        end) ++
  err_if (negb (FormulaID_Validate (mg_To migration))) "to" ++
  err_if (bool_decide (mg_From migration = mg_To migration)) "migration source and target are identical" ++
  err_if (bool_decide (FormulaID_Tap (mg_To migration) = tap) && bool_decide (mg_To migration ∉ formulae))
    "same-tap migration target is not a canonical Formula".

Definition validate_versioned (tap : string) (formulae : gset string) (formula : Formula) : list string :=
  each_once (λ versioned,
    err_if (bool_decide (versioned = fm_ID formula)) "Formula lists itself as versioned" ++
    err_if (negb (bool_decide (FormulaID_Tap versioned = tap))) "versioned target leaves tap" ++
    err_if (bool_decide (versioned ∉ formulae)) "versioned target is missing")
    id (λ _, "duplicate versioned Formula") ∅ (fm_VersionedFormulae formula).

Definition mapping_sources (catalog : TapCatalog) : list string :=
  (sm_From <$> tc_Aliases catalog) ++ (sm_From <$> tc_Renames catalog) ++ (mg_From <$> tc_Migrations catalog).

Definition ValidateTapCatalog (catalog : TapCatalog) : list string :=
  let tap := ts_ID (tc_Tap catalog) in
  let formulae : gset string := list_to_set (fm_ID <$> tc_Formulae catalog) in
  let aliases : gset string := list_to_set (sm_From <$> tc_Aliases catalog) in
  let renames : gset string := list_to_set (sm_From <$> tc_Renames catalog) in
  err_if (negb (bool_decide (tc_SchemaVersion catalog = TapCatalogSchemaVersion))) "unsupported schema_version" ++
  within "tap" (validateTapSource (tc_Tap catalog)) ++
  err_if (tc_PublishedAt catalog =? 0) "published_at is required" ++
  err_if (tc_Sequence catalog =? 0) "sequence must be positive" ++
  err_if (bool_decide (length (tc_Formulae catalog) = 0%nat)) "formulae must be a non-empty array" ++
  each_racked (λ formula, within "formulae" (validateFormula tap formula)) fm_ID fm_Name
    (λ _, "duplicate Formula") (λ _ _, "Formulae share rack name") ∅ ∅ (tc_Formulae catalog) ++
  each_once (λ m, within "aliases" (validateScopedMapping tap formulae m)) sm_From
    (λ _, "mapping source appears twice") ∅ (tc_Aliases catalog) ++
  each_once (λ m, within "renames" (validateScopedMapping tap formulae m)) sm_From
    (λ _, "mapping source appears twice") aliases (tc_Renames catalog) ++
  each_once (λ m, within "migrations" (validateMigration tap formulae m)) mg_From
    (λ _, "mapping source appears twice") (aliases ∪ renames) (tc_Migrations catalog) ++
  (tc_Formulae catalog ≫= validate_versioned tap formulae).

End validate.

(** ** What a valid catalog is *)

Section specification.
Context `{U : !UnicodeTables, N : !NetURL}.

Record source_wf (s : TapSource) : Prop := {
  sw_id : TapID_Validate (ts_ID s) = true;
  sw_not_core : ts_ID s ≠ "homebrew/core";
  sw_repository : ts_Repository s = TapID_DefaultGitHubRepository (ts_ID s);
  sw_commit : validateCommit (ts_Commit s) = true;
  sw_digests : validateSHA256Digest (ts_TreeDigest s) = true ∧ validateSHA256Digest (ts_ArchiveDigest s) = true;
}.

(** The written dependency means the identity: it is the name of a Formula of
    homebrew/core or of the same tap, or a full identity. *)
Record dependency_wf (owner : string) (d : Dependency) : Prop := {
  dw_id : FormulaID_Validate (dp_ID d) = true;
  dw_text : dp_Raw d ≠ "" ∧ hasControl (dp_Raw d) = false ∧ strlen (dp_Raw d) <= MaxFormulaIDBytes;
  dw_meaning :
    strings_Count (dp_Raw d) "/" = 0%nat ∧ catalog_validateFormulaName (dp_Raw d) = true ∧
      dp_Raw d = FormulaID_Name (dp_ID d) ∧
      (FormulaID_Tap (dp_ID d) = "homebrew/core" ∨ FormulaID_Tap (dp_ID d) = owner) ∨
    strings_Count (dp_Raw d) "/" = 2%nat ∧ ParseFormulaID (dp_Raw d) = Ok (dp_ID d);
}.

Definition dependencies_wf (owner : string) (l : list Dependency) : Prop :=
  (∀ d, d ∈ l → dependency_wf owner d) ∧ NoDup (dp_ID <$> l).

Record variation_wf (tap : string) (v : FormulaVariation) : Prop := {
  vw_tag : catalog_validBottleTag (fv_Tag v) = true;
  vw_unavailable : fv_Unavailable v = true →
    fv_Dependencies v = [] ∧ fv_OverridesDependencies v = false ∧ fv_KegOnly v = false ∧ fv_OverridesKegOnly v = false;
  vw_deps : fv_Dependencies v ≠ [] → fv_OverridesDependencies v = true;
  vw_keg : fv_KegOnly v = true → fv_OverridesKegOnly v = true;
  vw_dependencies : dependencies_wf tap (fv_Dependencies v);
}.

Record bottle_wf (b : BottleDeclaration) : Prop := {
  bw_root : validateHTTPSURL (bd_RootURL b) false = true;
  bw_rebuild : 0 <= bd_Rebuild b;
  bw_files : bd_Files b ≠ [];
  bw_file f : f ∈ bd_Files b → validate_bottle_file f = [];
  bw_tags : NoDup (fl_Tag <$> bd_Files b);
}.

Record archive_wf (a : PrebuiltArchiveDeclaration) : Prop := {
  aw_files : (1 <= length (pd_Files a) <= 2)%nat;
  aw_file f : f ∈ pd_Files a → validate_archive_file f = [];
  aw_tags : NoDup (pf_Tag <$> pd_Files a);
}.

Record formula_wf (tap : string) (f : Formula) : Prop := {
  fw_id : FormulaID_Validate (fm_ID f) = true;
  fw_tap : FormulaID_Tap (fm_ID f) = tap;
  fw_name : fm_Name f = FormulaID_Name (fm_ID f) ∧ catalog_validateFormulaName (fm_Name f) = true;
  fw_full : fm_HomebrewFullName f = fm_ID f;
  fw_path : catalog_validateFormulaSourcePath (fm_SourcePath f) (fm_Name f) = true;
  fw_digest : validateSHA256Digest (fm_SourceDigest f) = true;
  fw_version : strings_TrimSpace (fm_StableVersion f) ≠ "" ∧ hasControl (fm_StableVersion f) = false;
  fw_numbers : 0 <= fm_Revision f ∧ 0 <= fm_VersionScheme f;
  fw_license : hasControl (fm_License f) = false;
  fw_dependencies : dependencies_wf tap (fm_Dependencies f);
  fw_variation v : v ∈ fm_Variations f → variation_wf tap v;
  fw_variations : NoDup (fv_Tag <$> fm_Variations f);
  fw_versioned id : id ∈ fm_VersionedFormulae f → FormulaID_Validate id = true;
  fw_versioned_once : NoDup (fm_VersionedFormulae f);
  fw_bottle b : fm_Bottle f = Some b → bottle_wf b;
  fw_archive a : fm_PrebuiltArchive f = Some a → archive_wf a;
  fw_one_source b a t : fm_Bottle f = Some b → fm_PrebuiltArchive f = Some a → t ∈ pf_Tag <$> pd_Files a →
    t ∉ fl_Tag <$> bd_Files b ∧ "all" ∉ fl_Tag <$> bd_Files b;
}.

Definition formula_ids (c : TapCatalog) : list string := fm_ID <$> tc_Formulae c.

(** Aliases and renames lead from an identity of the tap that is no Formula to
    one that is. *)
Record mapping_wf (tap : string) (ids : list string) (from to : string) : Prop := {
  mw_valid : FormulaID_Validate from = true ∧ FormulaID_Validate to = true;
  mw_taps : FormulaID_Tap from = tap ∧ FormulaID_Tap to = tap;
  mw_from : from ∉ ids;
  mw_to : to ∈ ids;
}.

(** Migrations may leave the tap; inside it they also lead to a Formula. *)
Record migration_wf (tap : string) (ids : list string) (m : Migration) : Prop := {
  gw_valid : FormulaID_Validate (mg_From m) = true ∧ FormulaID_Validate (mg_To m) = true;
  gw_tap : FormulaID_Tap (mg_From m) = tap;
  gw_from : mg_From m ∉ ids;
  gw_differ : mg_From m ≠ mg_To m;
  gw_raw : strings_Count (mg_RawTarget m) "/" = 2%nat ∧ ParseFormulaID (mg_RawTarget m) = Ok (mg_To m);
  gw_to : FormulaID_Tap (mg_To m) = tap → mg_To m ∈ ids;
}.

Record tap_catalog_wf (c : TapCatalog) : Prop := {
  tcw_schema : tc_SchemaVersion c = TapCatalogSchemaVersion;
  tcw_source : source_wf (tc_Tap c);
  tcw_published : tc_PublishedAt c ≠ 0;
  tcw_sequence : tc_Sequence c ≠ 0;
  tcw_formulae : tc_Formulae c ≠ [];
  tcw_formula f : f ∈ tc_Formulae c → formula_wf (ts_ID (tc_Tap c)) f;
  tcw_unique : NoDup (formula_ids c);
  tcw_alias m : m ∈ tc_Aliases c → mapping_wf (ts_ID (tc_Tap c)) (formula_ids c) (sm_From m) (sm_To m);
  tcw_rename m : m ∈ tc_Renames c → mapping_wf (ts_ID (tc_Tap c)) (formula_ids c) (sm_From m) (sm_To m);
  tcw_migration m : m ∈ tc_Migrations c → migration_wf (ts_ID (tc_Tap c)) (formula_ids c) m;
  tcw_sources : NoDup (mapping_sources c);
  tcw_versioned f id : f ∈ tc_Formulae c → id ∈ fm_VersionedFormulae f → id ≠ fm_ID f ∧ id ∈ formula_ids c;
}.

End specification.

(** ** Validation *)

Section validation.
Context `{U : !UnicodeTables, N : !NetURL}.

Lemma validateTapSource_nil s : validateTapSource s = [] ↔ source_wf s.
Proof.
  unfold validateTapSource. autorewrite with errs. split.
  - intros (Hi & Hr & Hc & Ht & Ha). destruct (TapID_Validate (ts_ID s)) eqn:Ev; cbn in Hi; [|done].
    autorewrite with errs in Hi. unfold TapID_IsCore in Hi. apply bool_decide_eq_false in Hi. by split.
  - intros [-> Hn ? ? [? ?]]. cbn. autorewrite with errs. split_and!; try done.
    unfold TapID_IsCore. by apply bool_decide_eq_false.
Qed.

Lemma validate_dependency_nil owner d : validate_dependency owner d = [] ↔ dependency_wf owner d.
Proof.
  unfold validate_dependency. autorewrite with errs. split.
  - intros [Hi Hr]. destruct (_ || _) eqn:Et in Hr; [done|]. case_bool. split; [done|by split_and!|].
    destruct (strings_Count (dp_Raw d) "/") as [|[|[|]]] eqn:Ec; try done.
    + left. autorewrite with errs in Hr. naive_solver.
    + right. split; [done|]. destruct (ParseFormulaID (dp_Raw d)) as [p|]; [|done]. autorewrite with errs in Hr. by subst.
  - intros [Hi (Hne & Hc & Hl) Hm]. split; [done|]. rewrite bool_decide_eq_false_2, Hc by done.
    rewrite (proj2 (Z.ltb_ge _ _) Hl). cbn [orb]. destruct Hm as [(-> & Hn & He & Ht)|(-> & ->)].
    + autorewrite with errs. split_and!; [done..|]. tauto.
    + by autorewrite with errs.
Qed.

Lemma validateDependencies_nil owner l : validateDependencies l owner = [] ↔ dependencies_wf owner l.
Proof.
  unfold validateDependencies, dependencies_wf. autorewrite with errs. by setoid_rewrite validate_dependency_nil.
Qed.

Lemma implies_false b c : (b && negb c = false) ↔ (b = true → c = true).
Proof. destruct b, c; cbn; naive_solver. Qed.

Lemma validate_variation_nil tap v : validate_variation tap v = [] ↔ variation_wf tap v.
Proof.
  unfold validate_variation. rewrite !app_nil_iff, !err_if_nil, within_nil, validateDependencies_nil, !implies_false,
    negb_false_iff, bool_decide_eq_true. split.
  - intros (Ht & Hu & Hd & Hk & Hw). split; try done. intros Hun. rewrite Hun in Hu. cbn in Hu. case_bool.
    split_and!; try done. by apply dec_stable.
  - intros [Ht Hu Hd Hk Hw]. split_and!; try done. destruct (fv_Unavailable v); [cbn|done].
    destruct Hu as (-> & -> & -> & ->); done.
Qed.

Lemma validateBottleDeclaration_nil b : validateBottleDeclaration b = [] ↔ bottle_wf b.
Proof.
  unfold validateBottleDeclaration. autorewrite with errs. rewrite length_zero_iff_nil, Z.ltb_ge.
  split; [intros (? & ? & ? & ? & ?); by split|intros []; by split_and!].
Qed.

Lemma ValidatePrebuiltArchiveDeclaration_nil a : ValidatePrebuiltArchiveDeclaration a = [] ↔ archive_wf a.
Proof.
  unfold ValidatePrebuiltArchiveDeclaration. autorewrite with errs. rewrite Nat.ltb_ge.
  split; [intros (? & ? & ? & ?); split; [lia|done..]|intros [? ? ?]; split_and!; [lia..|done|done]].
Qed.

Lemma validate_both_declared_nil f :
  validate_both_declared f = [] ↔
  ∀ b a t, fm_Bottle f = Some b → fm_PrebuiltArchive f = Some a → t ∈ pf_Tag <$> pd_Files a →
    t ∉ fl_Tag <$> bd_Files b ∧ "all" ∉ fl_Tag <$> bd_Files b.
Proof.
  unfold validate_both_declared. destruct (fm_Bottle f) as [b|]; [|naive_solver].
  destruct (fm_PrebuiltArchive f) as [a|]; [|naive_solver]. autorewrite with errs. setoid_rewrite err_if_nil.
  setoid_rewrite orb_false_iff. setoid_rewrite bool_decide_eq_false. split.
  - intros Hf ? ? t [= <-] [= <-] (x & -> & Hx)%list_elem_of_fmap. by apply Hf.
  - intros Hf x Hx. apply (Hf b a (pf_Tag x)); [done..|]. by apply list_elem_of_fmap_2.
Qed.

Lemma option_nil {A E} (f : A → list E) (o : option A) :
  match o with Some x => f x | None => [] end = [] ↔ ∀ x, o = Some x → f x = [].
Proof. destruct o; naive_solver. Qed.

Lemma validateFormula_nil tap f : validateFormula tap f = [] ↔ formula_wf tap f.
Proof.
  unfold validateFormula. rewrite !app_nil_iff, !option_nil, validate_both_declared_nil.
  autorewrite with errs. rewrite validateDependencies_nil, !Z.ltb_ge, list_fmap_id.
  setoid_rewrite within_nil. setoid_rewrite validateBottleDeclaration_nil.
  setoid_rewrite ValidatePrebuiltArchiveDeclaration_nil. setoid_rewrite validate_variation_nil.
  setoid_rewrite err_if_nil. setoid_rewrite negb_false_iff. split.
  - intros (? & ? & ? & ? & ? & ? & ? & ? & ? & ? & ? & [? ?] & [? ?] & ? & ? & ?). by split.
  - intros [? ? [? ?] ? ? ? [? ?] [? ?] ? ? ? ? ? ? ? ? ?]. by split_and!.
Qed.

Lemma validateScopedMapping_nil tap ids m :
  validateScopedMapping tap (list_to_set ids) m = [] ↔ mapping_wf tap ids (sm_From m) (sm_To m).
Proof.
  unfold validateScopedMapping. cbn [mbind list_bind]. autorewrite with errs. cbn [fst snd].
  rewrite !elem_of_list_to_set. split.
  - intros (([? ?] & [? ?] & _) & Hne & Hf & Ht). split; [by split..|done|by apply dec_stable].
  - intros [[? ?] [? ?] Hf Ht]. split_and!; try done.
    + intros He. by rewrite He in Hf.
    + by intros ?.
Qed.

Lemma validateMigration_nil tap ids m :
  validateMigration tap (list_to_set ids) m = [] ↔ migration_wf tap ids m.
Proof.
  unfold validateMigration. autorewrite with errs. rewrite !elem_of_list_to_set. split.
  - intros (? & ? & ? & Hr & ? & ? & Hs). destruct (strings_Count (mg_RawTarget m) "/" =? 2)%nat eqn:Ec; cbn in Hr; [|done].
    apply Nat.eqb_eq in Ec. destruct (ParseFormulaID (mg_RawTarget m)) as [p|] eqn:Ep; [|done].
    autorewrite with errs in Hr. subst p. split; [by split|done|done|done|by split|].
    intros Ht. destruct Hs as [?|?]; [done|by apply dec_stable].
  - intros [[? ?] ? ? ? [-> ->] Ht]. cbn. autorewrite with errs. split_and!; try done.
    destruct (decide (FormulaID_Tap (mg_To m) = tap)) as [He|]; [right|by left]. intros Hn. by apply Hn, Ht.
Qed.

Lemma NoDup_sources c :
  NoDup (mapping_sources c) ↔
  NoDup (sm_From <$> tc_Aliases c) ∧ NoDup (sm_From <$> tc_Renames c) ∧ NoDup (mg_From <$> tc_Migrations c) ∧
  (∀ x, x ∈ sm_From <$> tc_Renames c → x ∉ sm_From <$> tc_Aliases c) ∧
  (∀ x, x ∈ mg_From <$> tc_Migrations c → x ∉ sm_From <$> tc_Aliases c ∧ x ∉ sm_From <$> tc_Renames c).
Proof. unfold mapping_sources. rewrite !NoDup_app. set_solver. Qed.

Lemma same_name_same_id tap (l : list Formula) x y :
  (∀ f, f ∈ l → formula_wf tap f) → x ∈ l → y ∈ l → fm_Name x = fm_Name y → fm_ID x = fm_ID y.
Proof.
  intros Hw Hx%Hw Hy%Hw Hn. apply FormulaID_inj; [apply Hx|apply Hy| |].
  - by rewrite (fw_tap _ _ Hx), (fw_tap _ _ Hy).
  - by rewrite <-(proj1 (fw_name _ _ Hx)), <-(proj1 (fw_name _ _ Hy)).
Qed.

Lemma validate_versioned_nil c f :
  formula_wf (ts_ID (tc_Tap c)) f → (∀ f, f ∈ tc_Formulae c → formula_wf (ts_ID (tc_Tap c)) f) →
  validate_versioned (ts_ID (tc_Tap c)) (list_to_set (formula_ids c)) f = [] ↔
  ∀ id, id ∈ fm_VersionedFormulae f → id ≠ fm_ID f ∧ id ∈ formula_ids c.
Proof.
  intros Hw Hall. unfold validate_versioned. autorewrite with errs. setoid_rewrite app_nil_iff.
  setoid_rewrite app_nil_iff. setoid_rewrite err_if_nil. setoid_rewrite bool_decide_eq_false.
  setoid_rewrite negb_false_iff. setoid_rewrite bool_decide_eq_true. setoid_rewrite elem_of_list_to_set.
  rewrite list_fmap_id. split.
  - intros [Hv _] id Hid. destruct (Hv id Hid) as (? & _ & ?). split; [done|by apply dec_stable].
  - intros Hv. split; [|apply Hw]. intros id Hid. destruct (Hv id Hid) as [? Hin]. split_and!; [done| |by intros ?].
    apply list_elem_of_fmap in Hin as (g & -> & Hg). apply (fw_tap _ _ (Hall g Hg)).
Qed.

Lemma ValidateTapCatalog_nil c : ValidateTapCatalog c = [] ↔ tap_catalog_wf c.
Proof.
  unfold ValidateTapCatalog. fold (formula_ids c). rewrite !app_nil_iff, !each_once_nil_seen, each_racked_nil, bind_nil.
  autorewrite with errs. rewrite validateTapSource_nil, length_zero_iff_nil. setoid_rewrite within_nil.
  setoid_rewrite validateFormula_nil. setoid_rewrite validateScopedMapping_nil. setoid_rewrite validateMigration_nil.
  setoid_rewrite elem_of_union. setoid_rewrite elem_of_list_to_set. split.
  - intros (? & ? & ? & ? & ? & (Hf & Hu & _) & (Ha & Hna & _) & (Hr & Hnr & Hra) & (Hm & Hnm & Hma) & Hv).
    split; try done.
    + apply NoDup_sources. split_and!; [done..|]. intros x Hx%Hma. tauto.
    + intros f id Hin. apply validate_versioned_nil; [by apply Hf|done|]. by apply Hv.
  - intros [? ? ? ? ? Hf Hu Ha Hr Hm (Hna & Hnr & Hnm & Hra & Hma)%NoDup_sources Hv]. split_and!; try done.
    + intros x y. by apply (same_name_same_id (ts_ID (tc_Tap c))).
    + intros x Hx%Hma. tauto.
    + intros f Hin. apply validate_versioned_nil; [by apply Hf|done|]. intros id. by apply Hv.
Qed.

End validation.

(** ** Canonical form *)

Definition compareDependency : Dependency → Dependency → Z :=
  cmp_then (cmp_on dp_ID strings_Compare) (cmp_on dp_Raw strings_Compare).

Definition sortDependencies (l : list Dependency) : list Dependency := slices_SortFunc compareDependency l.

Definition compareMapping : ScopedMapping → ScopedMapping → Z :=
  cmp_then (cmp_on sm_From strings_Compare) (cmp_on sm_To strings_Compare).

Definition sortMappings (l : list ScopedMapping) : list ScopedMapping := slices_SortFunc compareMapping l.

Definition compareMigration : Migration → Migration → Z :=
  cmp_then (cmp_on mg_From strings_Compare)
    (cmp_then (cmp_on mg_RawTarget strings_Compare) (cmp_on mg_To strings_Compare)).

(** A variation, a bottle, an archive and a Formula with other lists *)
Definition variation_with (v : FormulaVariation) (deps : list Dependency) : FormulaVariation :=
  MkFormulaVariation (fv_Tag v) (fv_Unavailable v) deps (fv_OverridesDependencies v) (fv_KegOnly v) (fv_OverridesKegOnly v).

Definition bottle_with (b : BottleDeclaration) (files : list BottleFile) : BottleDeclaration :=
  MkBottleDeclaration (bd_RootURL b) (bd_Rebuild b) files.

Definition formula_with (f : Formula) (deps : list Dependency) (vars : list FormulaVariation) (versioned : list string)
    (bottle : option BottleDeclaration) (archive : option PrebuiltArchiveDeclaration) : Formula :=
  MkFormula (fm_ID f) (fm_Name f) (fm_HomebrewFullName f) (fm_SourcePath f) (fm_SourceDigest f) (fm_StableVersion f)
    (fm_Revision f) (fm_VersionScheme f) (fm_Disabled f) (fm_KegOnly f) (fm_License f) deps vars versioned bottle archive.

Definition canonicalize_variation (v : FormulaVariation) : FormulaVariation :=
  variation_with v (sortDependencies (fv_Dependencies v)).

Definition canonicalizePrebuiltArchiveDeclaration (a : PrebuiltArchiveDeclaration) : PrebuiltArchiveDeclaration :=
  MkPrebuiltArchiveDeclaration (sort_by pf_Tag (pd_Files a)).

Definition canonicalizeFormula (f : Formula) : Formula :=
  formula_with f (sortDependencies (fm_Dependencies f))
    (canonicalize_variation <$> sort_by fv_Tag (fm_Variations f))
    (slices_Sort (fm_VersionedFormulae f))
    ((λ b, bottle_with b (sort_by fl_Tag (bd_Files b))) <$> fm_Bottle f)
    (canonicalizePrebuiltArchiveDeclaration <$> fm_PrebuiltArchive f).

(** [UTC().Round(0)] keeps the instant; [nilEmptySlicesTapCatalog] and the nil
    of empty lists do not show in a list. *)
Definition canonicalizeTapCatalog (c : TapCatalog) : TapCatalog :=
  MkTapCatalog (tc_SchemaVersion c) (tc_Tap c) (tc_PublishedAt c) (tc_Sequence c)
    (canonicalizeFormula <$> sort_by fm_ID (tc_Formulae c))
    (sortMappings (tc_Aliases c)) (sortMappings (tc_Renames c))
    (slices_SortFunc compareMigration (tc_Migrations c)).

(** [CanonicalTapCatalog] up to the value that is encoded: validation before
    and after canonicalization *)
Definition CanonicalTapCatalog `{!UnicodeTables, !NetURL} (c : TapCatalog) : result (list string) TapCatalog :=
  match ValidateTapCatalog c with
  | [] =>
      let clone := canonicalizeTapCatalog c in
      match ValidateTapCatalog clone with [] => Ok clone | errs => Err (within "validate canonical tap catalog" errs) end
  | errs => Err (within "validate tap catalog" errs)
  end.

(** ** Catalogs that differ only in the order of their lists *)

Definition variation_equiv (v w : FormulaVariation) : Prop :=
  variation_with v [] = variation_with w [] ∧ fv_Dependencies v ≡ₚ fv_Dependencies w.

Definition bottle_equiv (b c : BottleDeclaration) : Prop :=
  bottle_with b [] = bottle_with c [] ∧ bd_Files b ≡ₚ bd_Files c.

Definition archive_equiv (a b : PrebuiltArchiveDeclaration) : Prop := pd_Files a ≡ₚ pd_Files b.

Definition formula_equiv (f g : Formula) : Prop :=
  formula_with f [] [] [] None None = formula_with g [] [] [] None None ∧
  fm_Dependencies f ≡ₚ fm_Dependencies g ∧ shuffled variation_equiv (fm_Variations f) (fm_Variations g) ∧
  fm_VersionedFormulae f ≡ₚ fm_VersionedFormulae g ∧ option_Forall2 bottle_equiv (fm_Bottle f) (fm_Bottle g) ∧
  option_Forall2 archive_equiv (fm_PrebuiltArchive f) (fm_PrebuiltArchive g).

Definition catalog_equiv (c d : TapCatalog) : Prop :=
  tc_SchemaVersion c = tc_SchemaVersion d ∧ tc_Tap c = tc_Tap d ∧ tc_PublishedAt c = tc_PublishedAt d ∧
  tc_Sequence c = tc_Sequence d ∧ shuffled formula_equiv (tc_Formulae c) (tc_Formulae d) ∧
  tc_Aliases c ≡ₚ tc_Aliases d ∧ tc_Renames c ≡ₚ tc_Renames d ∧ tc_Migrations c ≡ₚ tc_Migrations d.

#[export] Instance compareDependency_order : CmpOrder compareDependency.
Proof. unfold compareDependency. apply _. Qed.

#[export] Instance compareDependency_total : CmpTotal compareDependency.
Proof. apply cmp_then_total. by intros [] [] ?%Compare_eq ?%Compare_eq; simplify_eq/=. Qed.

#[export] Instance compareMapping_order : CmpOrder compareMapping.
Proof. unfold compareMapping. apply _. Qed.

#[export] Instance compareMapping_total : CmpTotal compareMapping.
Proof. apply cmp_then_total. by intros [] [] ?%Compare_eq ?%Compare_eq; simplify_eq/=. Qed.

#[export] Instance compareMigration_order : CmpOrder compareMigration.
Proof. unfold compareMigration. apply _. Qed.

#[export] Instance compareMigration_total : CmpTotal compareMigration.
Proof.
  apply cmp_then_total. intros [f1 r1 t1] [f2 r2 t2] Hf%Compare_eq. unfold cmp_then, cmp_on. cbn in *. subst.
  destruct (strings_Compare r1 r2 =? 0) eqn:Er; cbn; case_bool; [|done]. apply Compare_eq in Er as ->.
  by intros ->%Compare_eq.
Qed.

Lemma variation_equiv_canonical v w : variation_equiv v w → canonicalize_variation v = canonicalize_variation w.
Proof.
  destruct v, w. intros [[= -> -> -> -> ->] Hd]. cbn in Hd. unfold canonicalize_variation, variation_with. cbn.
  f_equal. by apply SortFunc_unique; apply _ || done.
Qed.

#[export] Instance variation_equiv_refl : Reflexive variation_equiv.
Proof. by intros v. Qed.

Lemma canonicalize_variation_equiv v : variation_equiv v (canonicalize_variation v).
Proof. split; [done|]. symmetry. apply SortFunc_Permutation. Qed.

Section canonical.
Context `{U : !UnicodeTables, N : !NetURL}.

Lemma canonicalizeFormula_equiv tap f g :
  formula_wf tap f → formula_equiv f g → canonicalizeFormula f = canonicalizeFormula g.
Proof.
  intros Hw (Hc & Hd & Hv & Hs & Hb & Ha). unfold canonicalizeFormula.
  assert (sortDependencies (fm_Dependencies f) = sortDependencies (fm_Dependencies g)) as ->.
  { apply SortFunc_unique; [apply _..|done]. }
  rewrite (shuffled_sort_by variation_equiv fv_Tag canonicalize_variation (fm_Variations f) (fm_Variations g)); try done.
  2: { by intros ? ? [[= ] _]. }
  2: { intros ? ? _. apply variation_equiv_canonical. }
  2: { apply Hw. }
  rewrite (slices_Sort_unique _ _ Hs).
  assert ((λ b, bottle_with b (sort_by fl_Tag (bd_Files b))) <$> fm_Bottle f =
          (λ b, bottle_with b (sort_by fl_Tag (bd_Files b))) <$> fm_Bottle g) as ->.
  { destruct (fm_Bottle f) as [b|] eqn:Eb; inversion Hb as [? c [Hbc Hf]|]; subst; [|done]. cbn.
    rewrite (sort_by_unique fl_Tag (bd_Files b) (bd_Files c)); [|apply (fw_bottle _ _ Hw b Eb)|done].
    f_equal. unfold bottle_with in *. by injection Hbc as -> ->. }
  assert (canonicalizePrebuiltArchiveDeclaration <$> fm_PrebuiltArchive f =
          canonicalizePrebuiltArchiveDeclaration <$> fm_PrebuiltArchive g) as ->.
  { destruct (fm_PrebuiltArchive f) as [a|] eqn:Ea; inversion Ha as [? c Hac|]; subst; [|done]. cbn.
    unfold canonicalizePrebuiltArchiveDeclaration.
    by rewrite (sort_by_unique pf_Tag (pd_Files a) (pd_Files c)); [|apply (fw_archive _ _ Hw a Ea)|done]. }
  unfold formula_with in *. destruct f, g. cbn in *. by injection Hc as -> -> -> -> -> -> -> -> -> -> ->.
Qed.

Lemma dependencies_wf_perm owner l k : l ≡ₚ k → dependencies_wf owner l → dependencies_wf owner k.
Proof. intros Hp [Hd Hn]. split; [intros d; rewrite <-Hp; apply Hd|by rewrite <-Hp]. Qed.

Lemma variation_wf_equiv tap v w : variation_equiv v w → variation_wf tap v → variation_wf tap w.
Proof.
  destruct v as [? ? vd ? ? ?], w as [? ? wd ? ? ?]. intros [[= -> -> -> -> ->] Hd] [Ht Hu Hne Hk Hw]. cbn in *.
  split; cbn; try done.
  - intros Hun. destruct (Hu Hun) as (-> & ?). split; [|done]. by apply Permutation_nil_l in Hd.
  - intros Hwd. apply Hne. intros ->. by apply Permutation_nil_l in Hd.
  - by eapply dependencies_wf_perm.
Qed.

Lemma formula_wf_equiv tap f g : formula_equiv f g → formula_wf tap f → formula_wf tap g.
Proof.
  intros (Hc & Hd & Hv & Hs & Hb & Ha). destruct f, g. cbn in *. injection Hc as -> -> -> -> -> -> -> -> -> -> ->.
  intros [? ? ? ? ? ? ? ? ? Hdep Hvar Hvt Hvf Hvo Hbo Har Hone]. cbn in *. split; cbn; try done.
  - by eapply dependencies_wf_perm.
  - eapply shuffled_all; [|exact Hv|exact Hvar]. apply variation_wf_equiv.
  - assert (fv_Tag <$> fm_Variations0 ≡ₚ fv_Tag <$> fm_Variations1) as <-; [|done].
    eapply shuffled_norm; [|exact Hv]. by intros ? ? _ [[= ] _].
  - intros id. rewrite <-Hs. apply Hvf.
  - by rewrite <-Hs.
  - intros b ->. inversion Hb as [a ? [Hab Hf] Ea|]; subst. destruct (Hbo a eq_refl) as [? ? Hne Hall ?].
    destruct a, b. unfold bottle_with in Hab. injection Hab as -> ->. cbn in *. split; cbn; try done.
    + intros ->. by apply Permutation_nil_r in Hf.
    + intros x. rewrite <-Hf. apply Hall.
    + by rewrite <-Hf.
  - intros b ->. inversion Ha as [a ? Hab Ea|]; subst. destruct (Har a eq_refl) as [? Hall ?]. unfold archive_equiv in Hab.
    split; [by rewrite <-Hab| |by rewrite <-Hab]. intros x. rewrite <-Hab. apply Hall.
  - intros b a t -> ->. inversion Hb as [b' ? [_ Hf]|]; subst. inversion Ha as [a' ? Hab|]; subst.
    unfold archive_equiv in Hab. rewrite <-Hab, <-Hf. by apply Hone.
Qed.

Lemma canonicalizeFormula_self f : formula_equiv f (canonicalizeFormula f).
Proof.
  split_and!; cbn; try done.
  - symmetry. apply SortFunc_Permutation.
  - apply (shuffled_fmap _ canonicalize_variation); [intros v _; apply canonicalize_variation_equiv|].
    by rewrite sort_by_Permutation.
  - by rewrite slices_Sort_Permutation.
  - destruct (fm_Bottle f) as [b|]; constructor. split; [done|]. cbn. by rewrite sort_by_Permutation.
  - destruct (fm_PrebuiltArchive f) as [a|]; constructor. unfold archive_equiv. cbn. by rewrite sort_by_Permutation.
Qed.

Lemma formula_equiv_id f g : formula_equiv f g → fm_ID f = fm_ID g.
Proof. by intros [[= ] _]. Qed.

Lemma catalog_equiv_ids c d : catalog_equiv c d → formula_ids c ≡ₚ formula_ids d.
Proof.
  intros (_ & _ & _ & _ & Hf & _). eapply shuffled_norm; [|exact Hf]. intros ? ? _. apply formula_equiv_id.
Qed.

Lemma mapping_wf_perm tap ids1 ids2 from to :
  ids1 ≡ₚ ids2 → mapping_wf tap ids1 from to → mapping_wf tap ids2 from to.
Proof. intros Hp [? ? ? ?]. split; [done..|by rewrite <-Hp|by rewrite <-Hp]. Qed.

Lemma migration_wf_perm tap ids1 ids2 m : ids1 ≡ₚ ids2 → migration_wf tap ids1 m → migration_wf tap ids2 m.
Proof. intros Hp [? ? ? ? ? Ht]. split; [done..|by rewrite <-Hp|done|done|]. intros ?. rewrite <-Hp. by apply Ht. Qed.

Lemma tap_catalog_wf_equiv c d : catalog_equiv c d → tap_catalog_wf c → tap_catalog_wf d.
Proof.
  intros He. pose proof (catalog_equiv_ids c d He) as Hids. destruct He as (Hs & Ht & Hp & Hq & Hf & Ha & Hr & Hm).
  intros [? ? ? ? Hne Hform ? Hal Hre Hmi Hso Hve]. rewrite <-?Hs, <-?Ht, <-?Hp, <-?Hq in *.
  assert (∀ f, f ∈ tc_Formulae d → ∃ g, g ∈ tc_Formulae c ∧ formula_equiv g f) as Hel.
  { intros f. by apply shuffled_elem. }
  split; rewrite <-?Hs, <-?Ht, <-?Hp, <-?Hq; try done.
  - intros Hd. destruct Hf as (m & Hmd & Hfm). rewrite Hd in Hmd. apply Permutation_nil_r in Hmd as ->.
    by inversion Hfm.
  - intros f (g & Hg & Hgf)%Hel. eapply formula_wf_equiv; [done|by apply Hform].
  - by rewrite <-Hids.
  - intros m. rewrite <-Ha. intros Hin. eapply mapping_wf_perm; [done|by apply Hal].
  - intros m. rewrite <-Hr. intros Hin. eapply mapping_wf_perm; [done|by apply Hre].
  - intros m. rewrite <-Hm. intros Hin. eapply migration_wf_perm; [done|by apply Hmi].
  - unfold mapping_sources in *. by rewrite <-Ha, <-Hr, <-Hm.
  - intros f id (g & Hg & Hgf)%Hel. rewrite <-(formula_equiv_id g f Hgf), <-Hids.
    destruct Hgf as (_ & _ & _ & Hvf & _). rewrite <-Hvf. by apply Hve.
Qed.

Lemma canonicalizeTapCatalog_unique c d :
  tap_catalog_wf c → catalog_equiv c d → canonicalizeTapCatalog c = canonicalizeTapCatalog d.
Proof.
  intros Hw (Hs & Ht & Hp & Hq & Hf & Ha & Hr & Hm). unfold canonicalizeTapCatalog. rewrite Hs, Ht, Hp, Hq. f_equal.
  - apply (shuffled_sort_by formula_equiv); [done|apply formula_equiv_id| |apply Hw|done].
    intros f g Hin. apply (canonicalizeFormula_equiv (ts_ID (tc_Tap c))). by apply Hw.
  - by apply SortFunc_unique; [apply _..|].
  - by apply SortFunc_unique; [apply _..|].
  - by apply SortFunc_unique; [apply _..|].
Qed.

Lemma canonicalizeTapCatalog_self c : catalog_equiv c (canonicalizeTapCatalog c).
Proof.
  split_and!; cbn; try done; try (symmetry; apply SortFunc_Permutation).
  apply (shuffled_fmap _ canonicalizeFormula); [intros f _; apply canonicalizeFormula_self|].
  by rewrite sort_by_Permutation.
Qed.

Lemma CanonicalTapCatalog_ok c : tap_catalog_wf c → CanonicalTapCatalog c = Ok (canonicalizeTapCatalog c).
Proof.
  intros Hw. unfold CanonicalTapCatalog. rewrite (proj2 (ValidateTapCatalog_nil c) Hw).
  rewrite (proj2 (ValidateTapCatalog_nil (canonicalizeTapCatalog c))); [done|].
  eapply tap_catalog_wf_equiv; [apply canonicalizeTapCatalog_self|done].
Qed.

End canonical.

(** ** Properties *)

(** A tap catalog passes validation exactly when its Formulae are distinct,
    canonical and of that tap, every dependency means the identity it is
    normalized to, every alias and rename leads in one step from a name that is
    no Formula to one that is, no source is mapped twice, migrations do the same
    inside the tap, and no tag has both a bottle and a prebuilt archive. *)
Theorem ValidateTapCatalog_iff `{U : !UnicodeTables, N : !NetURL} c : ValidateTapCatalog c = [] ↔ tap_catalog_wf c.
Proof. apply ValidateTapCatalog_nil. Qed.

(** The canonical form of a valid tap catalog exists, does not depend on the
    order of Formulae, dependencies, variations, files or mappings, and is a
    fixed point: the digest of a catalog is the digest of its contents. *)
Theorem CanonicalTapCatalog_stable `{U : !UnicodeTables, N : !NetURL} c d
  (Hc : ValidateTapCatalog c = []) (He : catalog_equiv c d) :
  ∃ k, CanonicalTapCatalog c = Ok k ∧ CanonicalTapCatalog d = Ok k ∧ CanonicalTapCatalog k = Ok k.
Proof.
  apply ValidateTapCatalog_nil in Hc. pose proof (canonicalizeTapCatalog_self c) as Hs.
  pose proof (tap_catalog_wf_equiv _ _ Hs Hc) as Hk. exists (canonicalizeTapCatalog c).
  rewrite (CanonicalTapCatalog_ok c), (CanonicalTapCatalog_ok d), (CanonicalTapCatalog_ok (canonicalizeTapCatalog c));
    [|done|by eapply tap_catalog_wf_equiv|done].
  rewrite <-(canonicalizeTapCatalog_unique c d), <-(canonicalizeTapCatalog_unique c (canonicalizeTapCatalog c)) by done.
  done.
Qed.

(** ** Example: a tap with two Formulae, one of them known by an alias *)

Module Example.

Definition digest : string := "sha256:" +:+ CatalogRequest.Example.hex64.

Definition file (tag : string) : BottleFile := MkBottleFile tag "https://example.com/b.tar.gz" digest "any".

Definition formula (id name : string) (deps : list Dependency) (tags : list string) : Formula :=
  MkFormula id name id ("Formula/" +:+ name +:+ ".rb") digest "1.0" 0 0 false false "MIT" deps [] []
    (Some (MkBottleDeclaration "https://example.com/bottles" 0 (file <$> tags))) None.

Definition source : TapSource :=
  MkTapSource "azure/tools" "https://github.com/azure/homebrew-tools" CatalogRequest.Example.hex40 digest digest.

Definition lib : Formula := formula "azure/tools/lib" "lib" [] ["x86_64_linux"; "arm64_linux"].
Definition app : Formula :=
  formula "azure/tools/app" "app" [MkDependency "lib" "azure/tools/lib"; MkDependency "homebrew/core/jq" "homebrew/core/jq"] ["all"].

Definition catalog_of (formulae : list Formula) : TapCatalog :=
  MkTapCatalog TapCatalogSchemaVersion source 1 1 formulae [MkScopedMapping "azure/tools/application" "azure/tools/app"] [] [].

End Example.

Lemma CanonicalTapCatalog_stable_witness :
  @ValidateTapCatalog ascii_tables https_only (Example.catalog_of [Example.lib; Example.app]) = [] ∧
  ∃ k, @CanonicalTapCatalog ascii_tables https_only (Example.catalog_of [Example.lib; Example.app]) = Ok k ∧
       @CanonicalTapCatalog ascii_tables https_only (Example.catalog_of [Example.app; Example.lib]) = Ok k ∧
       @CanonicalTapCatalog ascii_tables https_only k = Ok k.
Proof.
  assert (@ValidateTapCatalog ascii_tables https_only (Example.catalog_of [Example.lib; Example.app]) = []) as H
    by (vm_compute; reflexivity).
  split; [exact H|]. apply (@CanonicalTapCatalog_stable ascii_tables https_only); [exact H|].
  split_and!; try reflexivity. exists [Example.lib; Example.app]. split; [apply Permutation_swap|].
  repeat constructor; try reflexivity; apply (shuffled_perm variation_equiv); reflexivity.
Defined.
