(* ===== verification/CatalogClosure.v ===== *)
(** * internal/catalog: the closure of one platform

    [ClosureResult] is the resolved dependency graph the catalog service signs
    and the frontend recomputes: [ValidateClosureResult] with the graph checks,
    the canonical form and [CompareClosure]. *)

From S2P Require Import Prelude GoStrings NetUrl FormulaId Graph ClosureGraph CatalogFields CatalogRequest CatalogTap.
From stdpp Require Import options.
Local Open Scope Z_scope.

(** ** Types *)

Record Requirement := MkRequirement {
  rm_Raw : string; rm_ID : string; rm_MinimumPkgVersion : string; rm_MinimumRevision : Z;
  rm_MinimumBottleRebuild : Z; rm_DeclaredDirectly : bool;
}.

Record Node := MkNode {
  nd_ID : string; nd_Tap : string; nd_Name : string; nd_HomebrewFullName : string; nd_FormulaVersion : string;
  nd_FormulaRevision : Z; nd_PkgVersion : string; nd_VersionScheme : Z; nd_BottleRebuild : Z; nd_License : string;
  nd_KegOnly : bool; nd_Dependencies : list Requirement;
}.

Record RequestedMapping := MkRequestedMapping { mp_Requested : string; mp_Resolved : string }.

Record ClosureResult := MkClosureResult {
  cl_Requested : slice string; cl_RequestedMappings : slice RequestedMapping; cl_NormalizationTaps : slice string;
  cl_Nodes : slice Node; cl_InstallOrder : slice string;
}.

#[export] Instance Requirement_eq_dec : EqDecision Requirement.
Proof. solve_decision. Defined.
#[export] Instance Node_eq_dec : EqDecision Node.
Proof. solve_decision. Defined.
#[export] Instance RequestedMapping_eq_dec : EqDecision RequestedMapping.
Proof. solve_decision. Defined.
#[export] Instance ClosureResult_eq_dec : EqDecision ClosureResult.
Proof. solve_decision. Defined.

(** ** Validation *)

Section validate.
Context `{U : !UnicodeTables}.

Definition validateRequirement (owner : string) (r : Requirement) : list string :=
  validateDependencies [MkDependency (rm_Raw r) (rm_ID r)] owner ++
  err_if ((rm_MinimumRevision r <? 0) || (rm_MinimumBottleRebuild r <? 0))
    "minimum_revision and minimum_bottle_rebuild must be non-negative" ++
  err_if (hasControl (rm_MinimumPkgVersion r)) "minimum_pkg_version cannot contain control characters".

Definition validateNode (node : Node) : list string :=
  err_if (negb (FormulaID_Validate (nd_ID node))) "id" ++
  err_if (negb (TapID_Validate (nd_Tap node))) "tap" ++
  err_if (negb (bool_decide (nd_Tap node = FormulaID_Tap (nd_ID node)))) "tap does not match Formula ID" ++
  err_if (negb (catalog_validateFormulaName (nd_Name node))) "name" ++
  err_if (negb (bool_decide (nd_Name node = FormulaID_Name (nd_ID node)))) "name does not match Formula ID" ++
  err_if (negb (bool_decide (nd_HomebrewFullName node = nd_ID node))) "homebrew_full_name does not match Formula ID" ++
  err_if (bool_decide (strings_TrimSpace (nd_FormulaVersion node) = "") || bool_decide (strings_TrimSpace (nd_PkgVersion node) = "")
          || hasControl (nd_FormulaVersion node) || hasControl (nd_PkgVersion node))
    "formula_version and pkg_version are required and cannot contain control characters" ++
  err_if ((nd_FormulaRevision node <? 0) || (nd_VersionScheme node <? 0) || (nd_BottleRebuild node <? 0))
    "formula_revision, version_scheme, and bottle_rebuild must be non-negative" ++
  err_if (hasControl (nd_License node)) "license cannot contain control characters" ++
  each_once (λ dependency,
      within "dependencies" (validateRequirement (nd_Tap node) dependency) ++
      err_if (bool_decide (rm_ID dependency = nd_ID node)) "node depends on itself")
    rm_ID (λ _, "duplicate dependency") ∅ (nd_Dependencies node).

(** The mappings, by default the identity on the requested roots *)
Definition closure_mappings (closure : ClosureResult) : list RequestedMapping :=
  match cl_RequestedMappings closure with
  | Some mappings => mappings
  | None => (λ id, MkRequestedMapping id id) <$> items (cl_Requested closure)
  end.

(** The taps of the nodes outside homebrew/core *)
Definition node_taps (nodes : list Node) : list string :=
  nodes ≫= λ node, if FormulaID_IsCore (nd_ID node) then [] else [nd_Tap node].

Definition normalizedClosureTaps (closure : ClosureResult) : list string :=
  match cl_NormalizationTaps closure with
  | Some taps => taps
  | None => slices_Sort (elements (list_to_set (node_taps (items (cl_Nodes closure))) : gset string))
  end.

Definition dep_ids (node : Node) : list string := rm_ID <$> nd_Dependencies node.

Definition validate_requested (nodes : gmap string Node) (requested : list string) : list string :=
  each_once (λ root,
      err_if (negb (FormulaID_Validate root)) "requested" ++
      err_if (bool_decide (nodes !! root = None)) "requested root has no closure node")
    id (λ _, "duplicate requested root") ∅ requested.

Definition validate_mappings (requested : list string) (mappings : list RequestedMapping) : list string :=
  err_if (negb (bool_decide (length mappings = length requested)))
    "requested_mappings must have one entry per canonical requested root" ++
  each_once (λ m, err_if (negb (FormulaID_Validate (mp_Requested m))) "requested_mappings requested" ++
                  err_if (negb (FormulaID_Validate (mp_Resolved m))) "requested_mappings resolved")
    mp_Requested (λ _, "duplicate requested mapping source") ∅ mappings ++
  each_once (λ _, []) mp_Resolved (λ _, "duplicate canonical requested root") ∅ mappings ++
  (elements (list_to_set requested : gset string) ≫= λ root,
     err_if (bool_decide (root ∉ mp_Resolved <$> mappings)) "canonical requested root has no requested mapping").

Definition validate_taps (taps : list string) : list string :=
  each_once (λ tap, err_if (negb (TapID_Validate tap) || TapID_IsCore tap) "normalization_taps is invalid")
    id (λ _, "duplicate normalization tap") ∅ taps.

(** The taps a requested root or a written dependency goes through *)
Definition validate_source_taps (taps : list string) (mappings : list RequestedMapping) (nodes : list Node) : list string :=
  (mappings ≫= λ m,
     err_if (negb (FormulaID_IsCore (mp_Requested m)) && bool_decide (FormulaID_Tap (mp_Requested m) ∉ taps))
       "requested mapping source tap is absent from normalization_taps") ++
  (nodes ≫= λ node,
     err_if (negb (FormulaID_IsCore (nd_ID node)) && bool_decide (nd_Tap node ∉ taps))
       "non-core node tap is absent from normalization_taps" ++
     (nd_Dependencies node ≫= λ dependency,
        if strings_Contains (rm_Raw dependency) "/" then
          match ParseFormulaID (rm_Raw dependency) with
          | Ok rawID => err_if (negb (FormulaID_IsCore rawID) && bool_decide (FormulaID_Tap rawID ∉ taps))
                          "dependency source tap is absent from normalization_taps"
          | Err _ => []
          end
        else [])).

Definition validate_missing (nodes : gmap string Node) (l : list Node) : list string :=
  l ≫= λ node, dep_ids node ≫= λ dep, err_if (bool_decide (nodes !! dep = None)) "node dependency is missing".

Definition validate_install_order (nodes : gmap string Node) (l : list Node) (order : list string) : list string :=
  let '(errs, position) :=
    positions (λ id, err_if (negb (FormulaID_Validate id)) "install_order" ++
                     err_if (bool_decide (nodes !! id = None)) "install_order references unknown node")
      (λ _, "duplicate install_order entry") ∅ 0 order in
  err_if (negb (bool_decide (length order = size nodes))) "install_order has the wrong length" ++ errs ++
  order_problems nd_ID dep_ids (λ _, "install_order omits node") (λ _ _, "install_order places node before dependency")
    position l.

(** The walk from the requested roots, given every name it can meet as fuel *)
Definition validate_walk (nodes : gmap string Node) (l : list Node) (requested : list string) : list string :=
  match mark_all (map_succ dep_ids nodes) (size (universe dep_ids nodes requested)) requested with
  | Err _ => ["out of fuel"]
  | Ok st =>
      ((λ _, "dependency cycle") <$> mcycles st) ++
      (l ≫= λ node, err_if (bool_decide (nd_ID node ∉ mreach st)) "closure node is unreachable from requested roots")
  end.

Definition is_nil {A} (s : slice A) : bool := match s with None => true | Some _ => false end.

Definition ValidateClosureResult (closure : ClosureResult) : list string :=
  let requested := items (cl_Requested closure) in
  let l := items (cl_Nodes closure) in
  let order := items (cl_InstallOrder closure) in
  err_if (is_nil (cl_Requested closure)) "requested must be an array" ++
  err_if (is_nil (cl_Nodes closure)) "nodes must be an array" ++
  err_if (is_nil (cl_InstallOrder closure)) "install_order must be an array" ++
  err_if (MaxClosureNodes <? length l)%nat "nodes has too many entries" ++
  if bool_decide (requested = []) || bool_decide (l = []) then
    err_if (bool_decide (requested ≠ []) || bool_decide (l ≠ []) || bool_decide (order ≠ [])
            || bool_decide (items (cl_RequestedMappings closure) ≠ []) || bool_decide (items (cl_NormalizationTaps closure) ≠ []))
      "empty requested roots require empty mappings, normalization taps, nodes, and install order"
  else
    let nodes := keyed_map nd_ID ∅ l in
    let mappings := closure_mappings closure in
    let taps := normalizedClosureTaps closure in
    each_racked (λ node, within "nodes" (validateNode node)) nd_ID nd_Name
      (λ _, "duplicate closure node") (λ _ _, "closure nodes share rack name") ∅ ∅ l ++
    validate_requested nodes requested ++
    validate_mappings requested mappings ++
    validate_taps taps ++
    validate_source_taps taps mappings l ++
    validate_missing nodes l ++
    validate_install_order nodes l order ++
    validate_walk nodes l requested.

End validate.

(** ** What a valid closure is *)

Section specification.
Context `{U : !UnicodeTables}.

Record requirement_wf (node : Node) (r : Requirement) : Prop := {
  rw_dependency : dependency_wf (nd_Tap node) (MkDependency (rm_Raw r) (rm_ID r));
  rw_minimum : 0 <= rm_MinimumRevision r ∧ 0 <= rm_MinimumBottleRebuild r;
  rw_text : hasControl (rm_MinimumPkgVersion r) = false;
  rw_self : rm_ID r ≠ nd_ID node;
}.

Record node_wf (n : Node) : Prop := {
  nw_id : FormulaID_Validate (nd_ID n) = true;
  nw_tap : nd_Tap n = FormulaID_Tap (nd_ID n);
  nw_name : nd_Name n = FormulaID_Name (nd_ID n) ∧ catalog_validateFormulaName (nd_Name n) = true;
  nw_full : nd_HomebrewFullName n = nd_ID n;
  nw_version : strings_TrimSpace (nd_FormulaVersion n) ≠ "" ∧ strings_TrimSpace (nd_PkgVersion n) ≠ "" ∧
               hasControl (nd_FormulaVersion n) = false ∧ hasControl (nd_PkgVersion n) = false;
  nw_numbers : 0 <= nd_FormulaRevision n ∧ 0 <= nd_VersionScheme n ∧ 0 <= nd_BottleRebuild n;
  nw_license : hasControl (nd_License n) = false;
  nw_requirement r : r ∈ nd_Dependencies n → requirement_wf n r;
  nw_once : NoDup (dep_ids n);
}.

(** Every root was requested under one identity, and every requested identity
    is one root. *)
Record mappings_wf (requested : list string) (mappings : list RequestedMapping) : Prop := {
  mw_valid m : m ∈ mappings → FormulaID_Validate (mp_Requested m) = true ∧ FormulaID_Validate (mp_Resolved m) = true;
  mw_sources : NoDup (mp_Requested <$> mappings);
  mw_resolved : mp_Resolved <$> mappings ≡ₚ requested;
}.

(** The taps a closure went through, homebrew/core aside *)
Record taps_wf (taps : list string) (mappings : list RequestedMapping) (nodes : list Node) : Prop := {
  tw_tap t : t ∈ taps → TapID_Validate t = true ∧ t ≠ "homebrew/core";
  tw_once : NoDup taps;
  tw_mapping m : m ∈ mappings → FormulaID_IsCore (mp_Requested m) = false → FormulaID_Tap (mp_Requested m) ∈ taps;
  tw_node n : n ∈ nodes → FormulaID_IsCore (nd_ID n) = false → nd_Tap n ∈ taps;
  tw_raw n r id : n ∈ nodes → r ∈ nd_Dependencies n → strings_Contains (rm_Raw r) "/" = true →
    ParseFormulaID (rm_Raw r) = Ok id → FormulaID_IsCore id = false → FormulaID_Tap id ∈ taps;
}.

(** A closure that is not empty *)
Record graph_wf (requested : list string) (mappings : list RequestedMapping) (taps : list string) (nodes : list Node)
    (order : list string) : Prop := {
  gw_size : (length nodes <= MaxClosureNodes)%nat;
  gw_node n : n ∈ nodes → node_wf n;
  gw_racks : NoDup (nd_Name <$> nodes);
  gw_requested : NoDup requested;
  gw_closure : closure_ok nd_ID dep_ids requested nodes order;
  gw_mappings : mappings_wf requested mappings;
  gw_taps : taps_wf taps mappings nodes;
}.

Definition closure_result_wf (c : ClosureResult) : Prop :=
  cl_Requested c = Some [] ∧ cl_Nodes c = Some [] ∧ cl_InstallOrder c = Some [] ∧
    items (cl_RequestedMappings c) = [] ∧ items (cl_NormalizationTaps c) = [] ∨
  ∃ requested nodes order, cl_Requested c = Some requested ∧ cl_Nodes c = Some nodes ∧ cl_InstallOrder c = Some order ∧
    requested ≠ [] ∧ graph_wf requested (closure_mappings c) (normalizedClosureTaps c) nodes order.

End specification.

(** ** Validation *)

Section validation.
Context `{U : !UnicodeTables}.

Lemma validateRequirement_nil node r :
  within "dependencies" (validateRequirement (nd_Tap node) r) ++
    err_if (bool_decide (rm_ID r = nd_ID node)) "node depends on itself" = [] ↔ requirement_wf node r.
Proof.
  unfold validateRequirement. autorewrite with errs. rewrite validateDependencies_nil.
  autorewrite with errs. rewrite !Z.ltb_ge. unfold dependencies_wf. setoid_rewrite list_elem_of_singleton. split.
  - intros (([Hd _] & [? ?] & ?) & ?). split; try done. by apply Hd.
  - intros [? [? ?] ? ?]. split_and!; try done; [by intros ? ->|apply NoDup_singleton].
Qed.

Lemma validateNode_nil n : validateNode n = [] ↔ node_wf n.
Proof.
  unfold validateNode. autorewrite with errs. setoid_rewrite validateRequirement_nil. rewrite !Z.ltb_ge.
  fold (dep_ids n). split.
  - intros (? & ? & ? & ? & ? & ? & (((? & ?) & ?) & ?) & ((? & ?) & ?) & ? & ? & ?). by split.
  - intros [Hid Ht [? ?] ? (? & ? & ? & ?) (? & ? & ?) ? ? ?]. split_and!; try done.
    rewrite Ht. by apply FormulaID_parts.
Qed.

Lemma validate_requested_nil l requested :
  validate_requested (keyed_map nd_ID ∅ l) requested = [] ↔
  (∀ x, x ∈ requested → FormulaID_Validate x = true ∧ x ∈ nd_ID <$> l) ∧ NoDup requested.
Proof.
  unfold validate_requested. autorewrite with errs. setoid_rewrite app_nil_iff. setoid_rewrite err_if_nil.
  setoid_rewrite negb_false_iff. setoid_rewrite bool_decide_eq_false. setoid_rewrite not_eq_None_Some.
  setoid_rewrite keyed_map_known. by rewrite list_fmap_id.
Qed.

Lemma validate_mappings_nil requested mappings :
  NoDup requested → validate_mappings requested mappings = [] ↔ mappings_wf requested mappings.
Proof.
  intros Hnd. unfold validate_mappings. autorewrite with errs. setoid_rewrite app_nil_iff. setoid_rewrite err_if_nil.
  setoid_rewrite negb_false_iff. setoid_rewrite bool_decide_eq_false. setoid_rewrite elem_of_elements.
  setoid_rewrite elem_of_list_to_set. split.
  - intros (Hlen & [Hv Hs] & [_ Hr] & Hc). split; [done..|]. symmetry. apply NoDup_same_length; [done..| |].
    + intros x Hx%Hc. by apply dec_stable.
    + by rewrite length_fmap.
  - intros [Hv Hs Hp]. split_and!; try done.
    + by rewrite <-Hp, length_fmap.
    + by rewrite Hp.
    + intros x Hx Hn. apply Hn. by rewrite Hp.
Qed.

Lemma validate_taps_nil taps :
  validate_taps taps = [] ↔ (∀ t, t ∈ taps → TapID_Validate t = true ∧ t ≠ "homebrew/core") ∧ NoDup taps.
Proof.
  unfold validate_taps. autorewrite with errs. setoid_rewrite err_if_nil. setoid_rewrite orb_false_iff.
  setoid_rewrite negb_false_iff. unfold TapID_IsCore. setoid_rewrite bool_decide_eq_false. by rewrite list_fmap_id.
Qed.

Lemma not_member_false b x (l : list string) : negb b && bool_decide (x ∉ l) = false ↔ (b = false → x ∈ l).
Proof. destruct b; cbn; [naive_solver|]. rewrite bool_decide_eq_false. split; [intros H _; by apply dec_stable|naive_solver]. Qed.

Lemma validate_source_taps_nil taps mappings nodes :
  validate_taps taps ++ validate_source_taps taps mappings nodes = [] ↔ taps_wf taps mappings nodes.
Proof.
  unfold validate_source_taps. rewrite !app_nil_iff, validate_taps_nil, !bind_nil. setoid_rewrite app_nil_iff.
  setoid_rewrite bind_nil. setoid_rewrite err_if_nil. setoid_rewrite not_member_false. split.
  - intros ([Ht Hnd] & Hm & Hn). split; try done; [by intros n [? _]%Hn|].
    intros n r id Hin Hr Hc Hp. destruct (Hn n Hin) as [_ Hd]. specialize (Hd r Hr). rewrite Hc, Hp in Hd.
    apply err_if_nil in Hd. by apply (proj1 (not_member_false _ _ _) Hd).
  - intros [Ht Hnd Hm Hn Hr]. split_and!; try done. intros n Hin. split; [by apply Hn|]. intros r Hrin.
    destruct (strings_Contains (rm_Raw r) "/") eqn:Ec; [|done]. destruct (ParseFormulaID (rm_Raw r)) as [id|] eqn:Ep; [|done].
    apply err_if_nil, not_member_false. by eapply Hr.
Qed.

Lemma validate_install_order_nil l order :
  NoDup (nd_ID <$> l) → (∀ n, n ∈ l → FormulaID_Validate (nd_ID n) = true) →
  validate_install_order (keyed_map nd_ID ∅ l) l order = [] ↔
  order ≡ₚ nd_ID <$> l ∧ topo_sorted (list_succ nd_ID dep_ids l) order.
Proof.
  intros Hnd Hv. unfold validate_install_order. rewrite keyed_map_size by done.
  set (problems := λ id : string, err_if (negb (FormulaID_Validate id)) "install_order" ++
    err_if (bool_decide (keyed_map nd_ID ∅ l !! id = None)) "install_order references unknown node").
  set (dup := λ _ : string, "duplicate install_order entry"). set (omits := λ _ : string, "install_order omits node").
  set (before := λ _ _ : string, "install_order places node before dependency").
  pose proof (order_checks_nil nd_ID dep_ids problems dup omits before (λ x, FormulaID_Validate x = true) l order Hnd) as Hc.
  destruct (positions problems dup ∅ 0 order) as [errs pos]. cbn [fst snd] in Hc. autorewrite with errs.
  rewrite Hc; clear Hc.
  - split; [by intros (_ & ?)|]. intros [Hp Ht]. split; [|done]. intros x. rewrite Hp.
    intros (n & -> & Hn)%list_elem_of_fmap. by apply Hv.
  - intros x. unfold problems. autorewrite with errs. by rewrite not_eq_None_Some, keyed_map_known.
Qed.

(** The walk objects to nothing in a closure, and only to a closure with a node
    no root needs or a cycle. *)
Lemma validate_walk_needed l requested :
  NoDup (nd_ID <$> l) → validate_walk (keyed_map nd_ID ∅ l) l requested = [] →
  ∀ x, x ∈ nd_ID <$> l → reachable (list_succ nd_ID dep_ids l) requested x.
Proof.
  intros Hnd. unfold validate_walk. destruct (mark_all _ _ _) as [st|] eqn:Em; [|done].
  destruct (mark_all_spec (map_succ dep_ids (keyed_map nd_ID ∅ l)) (universe dep_ids (keyed_map nd_ID ∅ l) requested)
    (size (universe dep_ids (keyed_map nd_ID ∅ l) requested)) requested) as (st' & Hst & Hre & _).
  { apply universe_closed. } { apply universe_roots. } { done. }
  rewrite Em in Hst. injection Hst as <-. autorewrite with errs. intros (_ & Hl) x (n & -> & Hn)%list_elem_of_fmap.
  specialize (Hl n Hn). apply err_if_nil, bool_decide_eq_false, dec_stable, Hre in Hl.
  eapply reachable_ext; [|exact Hl]. intros. symmetry. by apply edge_map_succ.
Qed.

Lemma validate_walk_closure l requested order :
  closure_ok nd_ID dep_ids requested l order → validate_walk (keyed_map nd_ID ∅ l) l requested = [].
Proof.
  intros Hc. unfold validate_walk.
  destruct (mark_all_spec (map_succ dep_ids (keyed_map nd_ID ∅ l)) (universe dep_ids (keyed_map nd_ID ∅ l) requested)
    (size (universe dep_ids (keyed_map nd_ID ∅ l) requested)) requested) as (st & -> & Hre & Hcy).
  { apply universe_closed. } { apply universe_roots. } { done. }
  rewrite Hcy by (by eapply closure_acyclic). autorewrite with errs. split; [done|]. intros n Hn.
  apply err_if_nil, bool_decide_eq_false. intros Hns. apply Hns, Hre.
  eapply reachable_ext; [|apply Hc; by apply list_elem_of_fmap_2]. intros. apply edge_map_succ, Hc.
Qed.

(** The checks of a closure that is not empty *)
Lemma graph_checks_nil requested mappings taps l order :
  (length l <= MaxClosureNodes)%nat →
  (each_racked (λ node, within "nodes" (validateNode node)) nd_ID nd_Name
     (λ _, "duplicate closure node") (λ _ _, "closure nodes share rack name") ∅ ∅ l ++
   validate_requested (keyed_map nd_ID ∅ l) requested ++ validate_mappings requested mappings ++
   validate_taps taps ++ validate_source_taps taps mappings l ++ validate_missing (keyed_map nd_ID ∅ l) l ++
   validate_install_order (keyed_map nd_ID ∅ l) l order ++ validate_walk (keyed_map nd_ID ∅ l) l requested) = [] ↔
  graph_wf requested mappings taps l order.
Proof.
  intros Hlen. pose proof (validate_source_taps_nil taps mappings l) as Htaps. rewrite app_nil_iff in Htaps.
  rewrite !app_nil_iff, each_racked_nil, validate_requested_nil. unfold validate_missing.
  rewrite (missing_deps_nil nd_ID dep_ids). setoid_rewrite within_nil. setoid_rewrite validateNode_nil. split.
  - intros ((Hn & Hu & Hr) & [Hq Hqd] & Hm & Ht & Hs & Hd & Ho & Hw).
    apply validate_install_order_nil in Ho as [Hp Htopo]; [|done|intros n Hin; apply Hn, Hin].
    split; try done.
    + clear -Hu Hr. induction l as [|a l IH]; [constructor|]. cbn in *. apply NoDup_cons in Hu as [Ha Hu]. constructor.
      * intros (b & Hb & Hin)%list_elem_of_fmap. apply Ha. rewrite (Hr a b); [by apply list_elem_of_fmap_2|set_solver..].
      * apply IH; [done|]. set_solver.
    + split; try done; [by intros x [_ ?]%Hq|]. by apply validate_walk_needed.
    + by apply validate_mappings_nil.
    + by apply Htaps.
  - intros [_ Hn Hr Hqd Hc Hm Ht]. pose proof (cw_unique Hc) as Hu. split_and!; try done.
    + intros x y Hx Hy Hxy. f_equal. by apply (NoDup_fmap_inj nd_Name l).
    + intros x Hx%(cw_roots Hc). split; [|done]. apply list_elem_of_fmap in Hx as (n & -> & Hin). apply Hn, Hin.
    + by apply validate_mappings_nil.
    + by apply Htaps.
    + by apply Htaps.
    + apply Hc.
    + apply validate_install_order_nil; [done|intros n Hin; apply Hn, Hin|]. split; apply Hc.
    + by eapply validate_walk_closure.
Qed.

Lemma ValidateClosureResult_nil c : ValidateClosureResult c = [] ↔ closure_result_wf c.
Proof.
  unfold ValidateClosureResult, closure_result_wf. rewrite !app_nil_iff, !err_if_nil, Nat.ltb_ge.
  destruct (cl_Requested c) as [requested|]; cbn [items is_nil default from_option id]; [|naive_solver].
  destruct (cl_Nodes c) as [l|]; cbn [items is_nil default from_option id]; [|naive_solver].
  destruct (cl_InstallOrder c) as [order|]; cbn [items is_nil default from_option id]; [|naive_solver].
  destruct (bool_decide (requested = []) || bool_decide (l = [])) eqn:Ee.
  - rewrite err_if_nil, !orb_false_iff, !bool_decide_eq_false. split.
    + intros (_ & _ & _ & _ & (((Hq & Hl) & Ho) & Hm) & Ht). apply dec_stable in Hq, Hl, Ho, Hm, Ht. left. by subst.
    + intros [(Hq & Hl & Ho & Hm & Ht)|(q & k & o & Hq & Hl & Ho & Hne & Hg)].
      * injection Hq as ->. injection Hl as ->. injection Ho as ->. rewrite Hm, Ht. cbn. split_and!; [done..|lia|tauto|tauto|tauto|tauto|tauto].
      * exfalso. injection Hq as <-. injection Hl as <-. apply orb_true_iff in Ee as [?%bool_decide_eq_true|Hk%bool_decide_eq_true]; [done|].
        subst l. destruct requested as [|r ?]; [done|]. pose proof (cw_roots (gw_closure _ _ _ _ _ Hg) r). set_solver.
  - apply orb_false_iff in Ee as [Hq%bool_decide_eq_false Hl%bool_decide_eq_false]. split.
    + intros (_ & _ & _ & Hlen & H). right. exists requested, l, order. split_and!; try done. by apply graph_checks_nil.
    + intros [(Hq' & _)|(q & k & o & [= <-] & [= <-] & [= <-] & Hne & Hg)]; [naive_solver|].
      split_and!; [done..|apply Hg|]. apply graph_checks_nil; [apply Hg|done].
Qed.

End validation.

(** ** Canonical form *)

Definition compareRequirement : Requirement → Requirement → Z :=
  cmp_then (cmp_on rm_ID strings_Compare) (cmp_on rm_Raw strings_Compare).

Definition compareRequestedMapping : RequestedMapping → RequestedMapping → Z :=
  cmp_then (cmp_on mp_Requested strings_Compare) (cmp_on mp_Resolved strings_Compare).

Definition node_with (n : Node) (deps : list Requirement) : Node :=
  MkNode (nd_ID n) (nd_Tap n) (nd_Name n) (nd_HomebrewFullName n) (nd_FormulaVersion n) (nd_FormulaRevision n)
    (nd_PkgVersion n) (nd_VersionScheme n) (nd_BottleRebuild n) (nd_License n) (nd_KegOnly n) deps.

Definition canonicalize_node (n : Node) : Node := node_with n (slices_SortFunc compareRequirement (nd_Dependencies n)).

(** What [append] leaves of a nil slice, and what JSON keeps of a slice marked
    [omitempty] *)
Definition nonempty {A} (l : list A) : slice A := match l with [] => None | _ => Some l end.

Section canonical.
Context `{U : !UnicodeTables}.

Definition canonicalizeClosure (closure : ClosureResult) : ClosureResult :=
  let mappings := closure_mappings closure in
  let taps := match cl_NormalizationTaps closure with
              | Some taps => Some taps
              | None => nonempty (elements (list_to_set (node_taps (items (cl_Nodes closure))) : gset string))
              end in
  MkClosureResult (slices_Sort <$> cl_Requested closure)
    (Some (slices_SortFunc compareRequestedMapping mappings))
    (slices_Sort <$> taps)
    ((λ nodes, canonicalize_node <$> sort_by nd_ID nodes) <$> cl_Nodes closure)
    (cl_InstallOrder closure).

(** [cloneValue] goes through JSON: [normalization_taps] is omitted when empty. *)
Definition cloneClosure (closure : ClosureResult) : ClosureResult :=
  MkClosureResult (cl_Requested closure) (cl_RequestedMappings closure)
    (nonempty (items (cl_NormalizationTaps closure))) (cl_Nodes closure) (cl_InstallOrder closure).

(** [CanonicalClosureResult] up to the value that is encoded, which its JSON
    text determines *)
Definition CanonicalClosureResult (closure : ClosureResult) : result (list string) ClosureResult :=
  match ValidateClosureResult closure with
  | [] =>
      let clone := canonicalizeClosure (cloneClosure closure) in
      match ValidateClosureResult clone with [] => Ok clone | errs => Err errs end
  | errs => Err errs
  end.

Inductive compare_error := SignedInvalid (errs : list string) | RecomputedInvalid (errs : list string) | ClosureMismatch.

(** The JSON text of a closure: [normalization_taps] again without an empty list *)
Definition CompareClosure (signed recomputed : ClosureResult) : result compare_error unit :=
  signedBytes ← map_err SignedInvalid (CanonicalClosureResult signed);
  recomputedBytes ← map_err RecomputedInvalid (CanonicalClosureResult recomputed);
  check (negb (bool_decide (cloneClosure signedBytes = cloneClosure recomputedBytes))) ClosureMismatch.

End canonical.

(** ** Closures that differ only in the order of their lists *)

Definition node_equiv (n m : Node) : Prop :=
  node_with n [] = node_with m [] ∧ nd_Dependencies n ≡ₚ nd_Dependencies m.

(** The same graph, roots and taps, in any order but for the install order *)
Record closure_equiv (c d : ClosureResult) : Prop := {
  ce_requested : option_Forall2 Permutation (cl_Requested c) (cl_Requested d);
  ce_mappings : closure_mappings c ≡ₚ closure_mappings d;
  ce_taps : normalizedClosureTaps c ≡ₚ normalizedClosureTaps d;
  ce_nodes : option_Forall2 (shuffled node_equiv) (cl_Nodes c) (cl_Nodes d);
  ce_order : cl_InstallOrder c = cl_InstallOrder d;
}.

#[export] Instance compareRequirement_order : CmpOrder compareRequirement.
Proof. unfold compareRequirement. apply _. Qed.

#[export] Instance compareRequestedMapping_order : CmpOrder compareRequestedMapping.
Proof. unfold compareRequestedMapping. apply _. Qed.

#[export] Instance compareRequestedMapping_total : CmpTotal compareRequestedMapping.
Proof. apply cmp_then_total. by intros [] [] ?%Compare_eq ?%Compare_eq; simplify_eq/=. Qed.

Lemma node_equiv_id n m : node_equiv n m → nd_ID n = nd_ID m.
Proof. by intros [[= ] _]. Qed.

Lemma canonicalize_node_self n : node_equiv n (canonicalize_node n).
Proof. split; [done|]. symmetry. apply SortFunc_Permutation. Qed.

Lemma canonicalize_node_equiv n m : NoDup (dep_ids n) → node_equiv n m → canonicalize_node n = canonicalize_node m.
Proof.
  intros Hnd [Hc Hd]. unfold canonicalize_node.
  rewrite (SortFunc_unique_in compareRequirement (nd_Dependencies n) (nd_Dependencies m)); [| |done].
  - unfold node_with in *. destruct n, m. cbn in *. by injection Hc as -> -> -> -> -> -> -> -> -> -> ->.
  - intros x y Hx Hy Hxy. apply (NoDup_fmap_inj rm_ID (nd_Dependencies n)); [done..|].
    unfold compareRequirement, cmp_then, cmp_on in Hxy. destruct (strings_Compare (rm_ID x) (rm_ID y) =? 0) eqn:E.
    + apply Z.eqb_eq in E. by apply Compare_eq.
    + apply Z.eqb_neq in E. by cbn in Hxy.
Qed.

Lemma canonicalize_node_inj n m : canonicalize_node n = canonicalize_node m → node_equiv n m.
Proof.
  unfold canonicalize_node, node_with. destruct n, m. cbn. intros H.
  injection H as -> -> -> -> -> -> -> -> -> -> -> Hd. split; [done|]. cbn.
  by rewrite <-(SortFunc_Permutation compareRequirement nd_Dependencies0), Hd, SortFunc_Permutation.
Qed.

(** The name of a node with the sorted names of its dependencies *)
Definition node_edges (n : Node) : string * list string := (nd_ID n, slices_Sort (dep_ids n)).

Lemma edge_node_edges l x y :
  edge (list_succ nd_ID dep_ids l) x y ↔ ∃ p, p ∈ node_edges <$> l ∧ p.1 = x ∧ y ∈ p.2.
Proof.
  rewrite edge_list_succ. split.
  - intros (n & Hn & <- & Hy). exists (node_edges n). split_and!; [by apply list_elem_of_fmap_2|done|].
    cbn. by rewrite elem_of_slices_Sort.
  - intros (p & (n & -> & Hn)%list_elem_of_fmap & <- & Hy). exists n. cbn in Hy. by rewrite elem_of_slices_Sort in Hy.
Qed.

Lemma node_equiv_edges l k x y :
  shuffled node_equiv l k → edge (list_succ nd_ID dep_ids l) x y ↔ edge (list_succ nd_ID dep_ids k) x y.
Proof.
  intros Hs. rewrite !edge_node_edges. assert (node_edges <$> l ≡ₚ node_edges <$> k) as Hp; [|by setoid_rewrite Hp].
  eapply shuffled_norm; [|exact Hs]. intros n m _ He. unfold node_edges. rewrite (node_equiv_id n m He).
  f_equal. apply slices_Sort_unique. destruct He as [_ Hd]. unfold dep_ids. by rewrite Hd.
Qed.

Lemma node_equiv_keys l k : shuffled node_equiv l k → nd_ID <$> l ≡ₚ nd_ID <$> k ∧ nd_Name <$> l ≡ₚ nd_Name <$> k.
Proof. intros Hs. split; (eapply shuffled_norm; [|exact Hs]); intros n m _ [[= ] _]; done. Qed.

Section equivalence.
Context `{U : !UnicodeTables}.

Lemma node_wf_equiv n m : node_equiv n m → node_wf n → node_wf m.
Proof.
  destruct n as [? ? ? ? ? ? ? ? ? ? ? dn], m as [? ? ? ? ? ? ? ? ? ? ? dm]. intros [Hc Hd]. cbn in Hd.
  unfold node_with in Hc. cbn in Hc. injection Hc as -> -> -> -> -> -> -> -> -> -> ->.
  intros [? ? ? ? ? ? ? Hr Hn]. cbn in *. split; cbn; try done.
  - intros r Hin. rewrite <-Hd in Hin. destruct (Hr r Hin). by split.
  - unfold dep_ids in *. cbn in *. by rewrite <-Hd.
Qed.

Lemma mappings_wf_equiv q1 q2 m1 m2 : q1 ≡ₚ q2 → m1 ≡ₚ m2 → mappings_wf q1 m1 → mappings_wf q2 m2.
Proof.
  intros Hq Hm [Hv Hs Hr]. split; [intros m; rewrite <-Hm; apply Hv|by rewrite <-Hm|by rewrite <-Hm, <-Hq].
Qed.

Lemma taps_wf_equiv t1 t2 m1 m2 l k :
  t1 ≡ₚ t2 → m1 ≡ₚ m2 → shuffled node_equiv l k → taps_wf t1 m1 l → taps_wf t2 m2 k.
Proof.
  intros Ht Hm Hs [Hta Ho Hma Hno Hra]. split.
  - intros t. rewrite <-Ht. apply Hta.
  - by rewrite <-Ht.
  - intros m. rewrite <-Hm, <-Ht. apply Hma.
  - intros n Hn. destruct (shuffled_elem _ _ _ _ Hs Hn) as (n' & Hn' & He). rewrite <-(node_equiv_id _ _ He), <-Ht.
    destruct He as [[= ] _]. intros Hc. destruct n, n'. cbn in *. simplify_eq. by apply (Hno _ Hn').
  - intros n r id Hn Hr. destruct (shuffled_elem _ _ _ _ Hs Hn) as (n' & Hn' & [_ Hd]). rewrite <-Ht.
    apply (Hra n' r id Hn'). by rewrite Hd.
Qed.

Lemma graph_wf_equiv q1 q2 m1 m2 t1 t2 l k order :
  q1 ≡ₚ q2 → m1 ≡ₚ m2 → t1 ≡ₚ t2 → shuffled node_equiv l k →
  graph_wf q1 m1 t1 l order → graph_wf q2 m2 t2 k order.
Proof.
  intros Hq Hm Ht Hs [Hz Hn Hr Hqd Hc Hma Hta]. destruct (node_equiv_keys l k Hs) as [Hk Hnames].
  pose proof (Permutation_length Hk) as Hlen. rewrite !length_fmap in Hlen. split.
  - by rewrite <-Hlen.
  - eapply shuffled_all; [|exact Hs|exact Hn]. apply node_wf_equiv.
  - by rewrite <-Hnames.
  - by rewrite <-Hq.
  - eapply closure_ok_ext; [done|done| |exact Hc]. intros x y. by apply node_equiv_edges.
  - by eapply mappings_wf_equiv.
  - by eapply taps_wf_equiv.
Qed.

Lemma closure_result_wf_equiv c d : closure_equiv c d → closure_result_wf c → closure_result_wf d.
Proof.
  intros [Hq Hm Ht Hn Ho] [(Eq & En & Eo & Em & Et)|(q & l & o & Eq & En & Eo & Hne & Hg)].
  - left. rewrite Eq in Hq. rewrite En in Hn. inversion Hq as [? q' Hq' E1 E2|]; subst.
    inversion Hn as [? l' (m & Hml & Hf) E3 E4|]; subst. apply Permutation_nil_l in Hq' as <-. inversion Hf; subst.
    apply Permutation_nil_l in Hml as <-.
    assert (closure_mappings c = [] ∧ normalizedClosureTaps c = []) as [Hcm Hct].
    { unfold closure_mappings, normalizedClosureTaps. rewrite Eq, En.
      destruct (cl_RequestedMappings c), (cl_NormalizationTaps c); by cbn in Em, Et; subst. }
    rewrite Hcm in Hm. rewrite Hct in Ht. apply Permutation_nil_l in Hm. apply Permutation_nil_l in Ht.
    unfold closure_mappings in Hm. unfold normalizedClosureTaps in Ht. split_and!; [done|done|congruence| |].
    + by destruct (cl_RequestedMappings d).
    + by destruct (cl_NormalizationTaps d).
  - right. rewrite Eq in Hq. rewrite En in Hn. inversion Hq as [? q' Hq' E1 E2|]; subst.
    inversion Hn as [? l' Hl' E3 E4|]; subst. exists q', l', o. split_and!; try congruence.
    + intros ->. by apply Permutation_nil_r in Hq'.
    + by eapply graph_wf_equiv.
Qed.

Lemma elem_of_node_taps l t :
  t ∈ node_taps l ↔ ∃ p, p ∈ (λ n, (nd_ID n, nd_Tap n)) <$> l ∧ FormulaID_IsCore p.1 = false ∧ p.2 = t.
Proof.
  unfold node_taps. rewrite list_elem_of_bind. split.
  - intros (n & Ht & Hn). destruct (FormulaID_IsCore (nd_ID n)) eqn:E; [set_solver|].
    apply list_elem_of_singleton in Ht as ->. exists (nd_ID n, nd_Tap n).
    split; [by apply (list_elem_of_fmap_2 (λ n, (nd_ID n, nd_Tap n)))|done].
  - intros (p & (n & -> & Hn)%list_elem_of_fmap & Hc & <-). exists n. cbn in *. rewrite Hc. set_solver.
Qed.

Lemma node_taps_equiv l k : shuffled node_equiv l k → list_to_set (node_taps l) = list_to_set (node_taps k) :> gset string.
Proof.
  intros Hs. apply set_eq. intros t. rewrite !elem_of_list_to_set, !elem_of_node_taps.
  assert ((λ n, (nd_ID n, nd_Tap n)) <$> l ≡ₚ (λ n, (nd_ID n, nd_Tap n)) <$> k) as Hp; [|by setoid_rewrite Hp].
  eapply shuffled_norm; [|exact Hs]. intros n m _ [[= ] _]. congruence.
Qed.

Lemma node_taps_covered t m l : taps_wf t m l → ∀ x, x ∈ node_taps l → x ∈ t.
Proof.
  intros Hw x (p & (n & -> & Hn)%list_elem_of_fmap & Hc & <-)%elem_of_node_taps. by apply (tw_node _ _ _ Hw).
Qed.

(** An empty list of taps says the same as no list: all nodes are core. *)
Lemma no_taps_no_nodes c :
  closure_result_wf c → cl_NormalizationTaps c = Some [] → node_taps (items (cl_Nodes c)) = [].
Proof.
  intros [(_ & -> & _)|(q & l & o & _ & -> & _ & _ & Hg)] Ht; [done|]. cbn [items default from_option id].
  pose proof (node_taps_covered _ _ _ (gw_taps _ _ _ _ _ Hg)) as Hc. unfold normalizedClosureTaps in Hc. rewrite Ht in Hc.
  destruct (node_taps l) as [|x ?]; [done|]. specialize (Hc x). set_solver.
Qed.

Definition canonical_nodes (l : list Node) : list Node := canonicalize_node <$> sort_by nd_ID l.

Lemma canonical_nodes_self l : shuffled node_equiv l (canonical_nodes l).
Proof.
  apply (shuffled_fmap _ canonicalize_node); [intros n _; apply canonicalize_node_self|].
  unfold canonical_nodes. by rewrite sort_by_Permutation.
Qed.

(** The text of the canonical closure *)
Definition canonical_text (c : ClosureResult) : ClosureResult :=
  MkClosureResult (slices_Sort <$> cl_Requested c)
    (Some (slices_SortFunc compareRequestedMapping (closure_mappings c)))
    (nonempty (slices_Sort (normalizedClosureTaps c)))
    (canonical_nodes <$> cl_Nodes c) (cl_InstallOrder c).

Lemma nonempty_items {A} (l : list A) : items (nonempty l) = l.
Proof. by destruct l. Qed.

Lemma items_sort (s : slice string) : items (slices_Sort <$> s) = slices_Sort (items s).
Proof. by destruct s. Qed.

Lemma slices_Sort_idemp l : slices_Sort (slices_Sort l) = slices_Sort l.
Proof. apply slices_Sort_unique, slices_Sort_Permutation. Qed.

(** The taps of the canonical closure are those the original goes through. *)
Lemma canonical_taps c :
  closure_result_wf c →
  slices_Sort (items (match nonempty (items (cl_NormalizationTaps c)) with
    | Some taps => Some taps
    | None => nonempty (elements (list_to_set (node_taps (items (cl_Nodes c))) : gset string))
    end)) = slices_Sort (normalizedClosureTaps c).
Proof.
  intros Hw. unfold normalizedClosureTaps. destruct (cl_NormalizationTaps c) as [[|t ts]|] eqn:Et; [|done|].
  - change (nonempty (items (Some (@nil string)))) with (@None (list string)). cbv iota beta. rewrite nonempty_items. by rewrite (no_taps_no_nodes c Hw Et).
  - change (nonempty (items (@None (list string)))) with (@None (list string)). cbv iota beta. by rewrite nonempty_items, slices_Sort_idemp.
Qed.

Lemma canonical_closure_text c :
  closure_result_wf c → cloneClosure (canonicalizeClosure (cloneClosure c)) = canonical_text c.
Proof.
  intros Hw. unfold cloneClosure at 1, canonicalizeClosure, canonical_text. cbn [cl_Requested cl_RequestedMappings cl_NormalizationTaps cl_Nodes cl_InstallOrder cloneClosure].
  f_equal. rewrite items_sort, (canonical_taps c Hw). done.
Qed.

Lemma canonicalizeClosure_self c : closure_result_wf c → closure_equiv c (canonicalizeClosure (cloneClosure c)).
Proof.
  intros Hw. split.
  - cbn. destruct (cl_Requested c); constructor. by rewrite slices_Sort_Permutation.
  - unfold closure_mappings at 2. cbn [canonicalizeClosure cl_RequestedMappings]. rewrite SortFunc_Permutation.
    unfold closure_mappings. cbn. done.
  - pose proof (canonical_taps c Hw) as Hc.
    unfold normalizedClosureTaps at 2. cbn [canonicalizeClosure cl_NormalizationTaps cloneClosure].
    destruct (match nonempty (items (cl_NormalizationTaps c)) with Some _ => _ | None => _ end) as [t|] eqn:Et; cbn [fmap option_fmap option_map].
    + cbn [items default from_option id] in Hc. rewrite Hc. by rewrite slices_Sort_Permutation.
    + cbn [items default from_option id] in Hc. symmetry in Hc. pose proof (slices_Sort_Permutation (normalizedClosureTaps c)) as Hp.
      rewrite Hc in Hp. apply Permutation_nil_l in Hp. rewrite <-Hp.
      destruct (nonempty (items (cl_NormalizationTaps c))); [done|].
      assert (list_to_set (node_taps (items (cl_Nodes c))) = (∅ : gset string)) as He.
      { destruct (elements (list_to_set (node_taps (items (cl_Nodes c))) : gset string)) eqn:El; [|done].
        apply elements_empty_inv in El. by apply leibniz_equiv. }
      cbn [cl_Nodes canonicalizeClosure cloneClosure].
      replace (list_to_set (node_taps (items ((λ nodes, canonicalize_node <$> sort_by nd_ID nodes) <$> cl_Nodes c)))) with (∅ : gset string).
      { by rewrite elements_empty. }
      rewrite <-He. destruct (cl_Nodes c) as [l|]; [|done]. cbn. apply node_taps_equiv, canonical_nodes_self.
  - cbn. destruct (cl_Nodes c) as [l|]; constructor. apply canonical_nodes_self.
  - done.
Qed.

Lemma CanonicalClosureResult_ok c :
  closure_result_wf c → CanonicalClosureResult c = Ok (canonicalizeClosure (cloneClosure c)).
Proof.
  intros Hw. unfold CanonicalClosureResult. rewrite (proj2 (ValidateClosureResult_nil c) Hw).
  rewrite (proj2 (ValidateClosureResult_nil (canonicalizeClosure (cloneClosure c)))); [done|].
  eapply closure_result_wf_equiv; [by apply canonicalizeClosure_self|done].
Qed.

Lemma closure_nodes_wf c l : closure_result_wf c → cl_Nodes c = Some l → NoDup (nd_ID <$> l) ∧ ∀ n, n ∈ l → NoDup (dep_ids n).
Proof.
  intros [(_ & -> & _)|(q & k & o & _ & -> & _ & _ & Hg)] [= <-].
  - split; [constructor|set_solver].
  - split; [apply (gw_closure _ _ _ _ _ Hg)|]. intros n Hn. apply (gw_node _ _ _ _ _ Hg n Hn).
Qed.

Lemma canonical_text_iff c d :
  closure_result_wf c → closure_result_wf d → canonical_text c = canonical_text d ↔ closure_equiv c d.
Proof.
  intros Hc Hd. unfold canonical_text. split.
  - intros H. injection H as Hq Hm Ht Hn Ho. split.
    + destruct (cl_Requested c), (cl_Requested d); cbn in Hq; try done; constructor. apply slices_Sort_inj. congruence.
    + by rewrite <-(SortFunc_Permutation compareRequestedMapping (closure_mappings c)), Hm, SortFunc_Permutation.
    + apply slices_Sort_inj. by rewrite <-(nonempty_items (slices_Sort (normalizedClosureTaps c))), Ht, nonempty_items.
    + destruct (cl_Nodes c) as [l|], (cl_Nodes d) as [k|]; cbn in Hn; try done; constructor.
      assert (canonical_nodes l = canonical_nodes k) as Hlk by congruence.
      apply (shuffled_of_norm _ canonicalize_node); [apply canonicalize_node_inj|]. unfold canonical_nodes in Hlk.
      by rewrite <-(sort_by_Permutation nd_ID l), Hlk, sort_by_Permutation.
    + done.
  - intros [Hq Hm Ht Hn Ho]. f_equal; [| | | |done].
    + inversion Hq; cbn; [f_equal; by apply slices_Sort_unique|done].
    + f_equal. by apply SortFunc_unique; [apply _..|].
    + by rewrite (slices_Sort_unique _ _ Ht).
    + inversion Hn as [l k Hs El Ek|]; cbn; [|done]. f_equal. destruct (closure_nodes_wf c l Hc) as [Hnd Hdeps]; [done|].
      apply (shuffled_sort_by node_equiv); [done|apply node_equiv_id| |done|done].
      intros n m Hin. apply canonicalize_node_equiv. by apply Hdeps.
Qed.

End equivalence.

(** ** Properties *)

(** A closure passes validation exactly when it is empty throughout, or it
    has at most 256 well-formed nodes with distinct identities and rack names,
    contains every dependency, contains nothing no root needs, has an install
    order that places dependencies first (so no cycle), maps the requested
    identities one to one onto its roots, and lists every tap it went through. *)
Theorem ValidateClosureResult_iff `{U : !UnicodeTables} c : ValidateClosureResult c = [] ↔ closure_result_wf c.
Proof. apply ValidateClosureResult_nil. Qed.

(** A recomputed closure is accepted in place of the signed one exactly when
    both are valid and they are the same closure up to the order of roots,
    mappings, taps, nodes and dependencies, with the same install order. *)
Theorem CompareClosure_iff `{U : !UnicodeTables} signed recomputed :
  CompareClosure signed recomputed = Ok tt ↔
  closure_result_wf signed ∧ closure_result_wf recomputed ∧ closure_equiv signed recomputed.
Proof.
  unfold CompareClosure.
  assert (∀ c k, CanonicalClosureResult c = Ok k ↔ closure_result_wf c ∧ k = canonicalizeClosure (cloneClosure c)) as Hk.
  { intros c k. split.
    - intros Hc. assert (closure_result_wf c) as Hw.
      { apply ValidateClosureResult_nil. unfold CanonicalClosureResult in Hc. by destruct (ValidateClosureResult c). }
      split; [done|]. rewrite CanonicalClosureResult_ok in Hc by done. congruence.
    - intros [Hw ->]. by apply CanonicalClosureResult_ok. }
  rewrite bind_ok. setoid_rewrite bind_ok. setoid_rewrite map_err_ok. setoid_rewrite check_ok. setoid_rewrite Hk.
  setoid_rewrite negb_false_iff. setoid_rewrite bool_decide_eq_true. split.
  - intros (k1 & [Hs ->] & k2 & [Hr ->] & He). rewrite !canonical_closure_text in He by done.
    split_and!; [done..|]. by apply canonical_text_iff.
  - intros (Hs & Hr & He). exists (canonicalizeClosure (cloneClosure signed)). split; [done|].
    exists (canonicalizeClosure (cloneClosure recomputed)). split; [done|].
    rewrite !canonical_closure_text by done. by apply canonical_text_iff.
Qed.
