(* ===== verification/CatalogArtifact.v ===== *)
(** * internal/catalog: selected bottles

    [BottleArtifact] binds the exact bytes of a selected bottle to the way they
    are fetched, to the static verification they passed, to their Formula source
    and to their provenance, or to the derivation from an upstream archive. *)

From S2P Require Import Prelude GoStrings NetUrl FormulaId Resolution ClosureGraph CatalogFields CatalogRequest CatalogTap.
From stdpp Require Import options.
Local Open Scope Z_scope.

(** ** Types *)

Record Annotation := MkAnnotation { an_Key : string; an_Value : string }.

Record Descriptor := MkDescriptor {
  ds_Digest : string; ds_Size : Z; ds_MediaType : string; ds_Platform : option CatalogRequest.Platform;
  ds_Annotations : list Annotation;
}.

Record OCITransport := MkOCITransport {
  oc_Registry : string; oc_Repository : string;
  oc_Index : Descriptor; oc_Manifest : Descriptor; oc_Config : Descriptor; oc_Layer : Descriptor;
}.

Record HTTPSTransport := MkHTTPSTransport {
  ht_URL : string; ht_ExpectedSize : Z; ht_SHA256 : string; ht_Filename : string;
  ht_AllowedRedirectHosts : list string; ht_FetchPolicyVersion : string;
}.

Record LocalTransport := MkLocalTransport {
  lt_PolicyVersion : string; lt_SHA256 : string; lt_Size : Z; lt_Filename : string;
}.

Record Transport := MkTransport {
  tr_OCI : option OCITransport; tr_HTTPS : option HTTPSTransport; tr_Local : option LocalTransport;
}.

Record BottleVerification := MkBottleVerification {
  bv_PolicyVersion : string; bv_InventoryDigest : string; bv_EntryCount : Z; bv_ExpandedSize : Z;
}.

Record VerifiedProvenance := MkVerifiedProvenance {
  vp_PolicyVersion : string; vp_SubjectDigest : string; vp_StatementDigest : string; vp_BundleDigest : string;
  vp_SignerIdentity : string; vp_Issuer : string;
}.

Record ProvenanceWaiver := MkProvenanceWaiver { pw_Policy : string }.

Record Provenance := MkProvenance { pv_Verified : option VerifiedProvenance; pv_Waiver : option ProvenanceWaiver }.

Record BottleBuiltOn := MkBottleBuiltOn {
  bb_OS : string; bb_OSVersion : string; bb_CPUFamily : string; bb_OldestCPUFamily : string; bb_GlibcVersion : string;
}.

Record BottleRuntimeDependency := MkBottleRuntimeDependency {
  rt_ID : string; rt_HomebrewFullName : string; rt_Version : string; rt_Revision : Z; rt_BottleRebuild : Z;
  rt_PkgVersion : string; rt_DeclaredDirectly : bool;
}.

Record BottleTab := MkBottleTab {
  tb_Receiptless : bool; tb_HomebrewVersion : string; tb_Arch : string; tb_Compiler : string;
  tb_ChangedFiles : list string; tb_BuiltOn : BottleBuiltOn; tb_Dependencies : list BottleRuntimeDependency;
}.

Record PrebuiltSourceArtifact := MkPrebuiltSourceArtifact {
  ps_Filename : string; ps_Size : Z; ps_SHA256 : string; ps_Format : string; ps_Transport : Transport;
}.

Record PrebuiltSourceInventory := MkPrebuiltSourceInventory {
  pi_InventoryDigest : string; pi_EntryCount : Z; pi_ExpandedSize : Z;
}.

(** The modes are 32-bit unsigned integers. *)
Record PrebuiltPayloadEvidence := MkPrebuiltPayloadEvidence {
  pp_SourcePath : string; pp_DestinationPath : string; pp_SHA256 : string; pp_Size : Z;
  pp_ArchiveMode : Z; pp_DerivedMode : Z;
}.

Record PrebuiltELFEvidence := MkPrebuiltELFEvidence {
  pe_Format : string; pe_Machine : string; pe_StaticallyLinked : bool; pe_Interpreter : string;
  pe_NeededLibraries : slice string; pe_RPaths : slice string; pe_WritableExecutableSegments : bool;
}.

Record TapFormulaSourceTransport := MkTapFormulaSourceTransport { tf_Tap : TapSource; tf_Path : string }.

Record PrebuiltFormulaSourceEvidence := MkPrebuiltFormulaSourceEvidence {
  fs_Transport : TapFormulaSourceTransport; fs_SHA256 : string; fs_Size : Z;
}.

Record PrebuiltDerivedBottleRelation := MkPrebuiltDerivedBottleRelation {
  db_Tag : string; db_Filename : string; db_SHA256 : string; db_Size : Z; db_Verification : BottleVerification;
  db_FormulaSourceDigest : string;
}.

Record PrebuiltDerivation := MkPrebuiltDerivation {
  pd_PolicyVersion : string; pd_PolicyDigest : string; pd_Source : PrebuiltSourceArtifact;
  pd_SourceInventory : PrebuiltSourceInventory; pd_Payload : PrebuiltPayloadEvidence; pd_ELF : PrebuiltELFEvidence;
  pd_FormulaSource : PrebuiltFormulaSourceEvidence; pd_RecipeDigest : string;
  pd_DerivedBottle : PrebuiltDerivedBottleRelation;
}.

Record BottleArtifact := MkBottleArtifact {
  ba_ID : string; ba_Platform : CatalogRequest.Platform; ba_Tag : string; ba_Filename : string; ba_SHA256 : string; ba_Size : Z;
  ba_Cellar : string; ba_Tab : BottleTab; ba_CurrentFormulaSourceDigest : string; ba_BottleFormulaSourceDigest : string;
  ba_BottleSourceRepository : string; ba_BottleSourceCommit : string; ba_BottleFormulaPath : string;
  ba_BottleSourceWaiver : string; ba_ExecutablePaths : list string; ba_Transport : Transport;
  ba_Verification : BottleVerification; ba_Provenance : Provenance; ba_PrebuiltDerivation : option PrebuiltDerivation;
}.

#[export] Instance BottleVerification_eq_dec : EqDecision BottleVerification.
Proof. solve_decision. Defined.
#[export] Instance BottleBuiltOn_eq_dec : EqDecision BottleBuiltOn.
Proof. solve_decision. Defined.

(** ** Validation *)

Definition present {A} (o : option A) : bool := match o with Some _ => true | None => false end.

Definition on_some {A E} (o : option A) (f : A → list E) : list E := match o with Some x => f x | None => [] end.

(** [size <= 0 || size > limit] *)
Definition size_outside (size limit : Z) : bool := (size <=? 0) || (limit <? size).

Section validate.
Context `{U : !UnicodeTables, N : !NetURL, R : !DistributionReference}.

Definition validateBottleVerification (v : BottleVerification) : list string :=
  err_if (negb (bool_decide (bv_PolicyVersion v = BottleVerificationPolicy))) "unsupported policy_version" ++
  err_if (negb (validateSHA256Digest (bv_InventoryDigest v))) "inventory_digest" ++
  err_if (bv_EntryCount v <=? 0) "entry_count must be positive" ++
  err_if (bv_ExpandedSize v <=? 0) "expanded_size must be positive".

Definition validateProvenance (p : Provenance) (subjectDigest : string) : list string :=
  match pv_Verified p, pv_Waiver p with
  | Some _, Some _ | None, None => ["must set exactly one of verified or waiver"]
  | None, Some waiver =>
      err_if (negb (bool_decide (pw_Policy waiver = ChecksumProvenanceWaiver))
              && negb (bool_decide (pw_Policy waiver = PrebuiltProvenanceWaiver))) "unsupported waiver policy"
  | Some verified, None =>
      err_if (negb (bool_decide (vp_PolicyVersion verified = VerifiedProvenancePolicy))) "unsupported verified policy_version" ++
      err_if (negb (validateSHA256Digest (vp_SubjectDigest verified))) "subject_digest" ++
      err_if (negb (bool_decide (vp_SubjectDigest verified = subjectDigest))) "subject_digest does not match bottle digest" ++
      err_if (negb (validateSHA256Digest (vp_StatementDigest verified))) "statement_digest" ++
      err_if (negb (validateSHA256Digest (vp_BundleDigest verified))) "bundle_digest" ++
      err_if (negb (validateBoundedText (vp_SignerIdentity verified) 2048 false)) "signer_identity" ++
      err_if (negb (validateBoundedText (vp_Issuer verified) 2048 false)) "issuer"
  end.

Definition validate_annotation (a : Annotation) : list string :=
  err_if (negb (validateBoundedText (an_Key a) 1024 false)) "key" ++
  err_if ((Z.shiftl 16 10 <? strlen (an_Value a)) || hasControlExceptWhitespace (an_Value a))
    "value is overlong or contains unsupported control characters".

Definition catalog_validateDescriptor (d : Descriptor) : list string :=
  err_if (negb (validateSHA256Digest (ds_Digest d))) "digest" ++
  err_if (ds_Size d <=? 0) "size must be positive" ++
  err_if (bool_decide (strings_TrimSpace (ds_MediaType d) = "") || hasControl (ds_MediaType d))
    "media_type is required and cannot contain control characters" ++
  on_some (ds_Platform d) (λ p, err_if (negb (Platform_Validate p)) "platform") ++
  each_once validate_annotation an_Key (λ _, "duplicate annotation key") ∅ (ds_Annotations d).

(** The transport repeats the name, the size and the digest of the bytes. *)
Definition validateHTTPSTransport (t : HTTPSTransport) (filename : string) (size : Z) (sha256 : string) : list string :=
  err_if (negb (validateHTTPSURL (ht_URL t) true)) "url" ++
  err_if (negb (ht_ExpectedSize t =? size)) "expected_size does not match artifact size" ++
  err_if (size_outside (ht_ExpectedSize t) MaxBottleBytes) "expected_size" ++
  err_if (negb (bool_decide (ht_SHA256 t = sha256))) "sha256 does not match artifact digest" ++
  err_if (negb (validateSHA256Digest (ht_SHA256 t))) "sha256" ++
  err_if (negb (bool_decide (ht_Filename t = filename))) "filename does not match artifact filename" ++
  err_if (negb (validateSafeFilename (ht_Filename t))) "filename" ++
  err_if (negb (bool_decide (ht_FetchPolicyVersion t = HTTPSFetchPolicyVersion))) "unsupported fetch_policy_version" ++
  err_if (bool_decide (ht_AllowedRedirectHosts t = [])) "allowed_redirect_hosts must be a non-empty array" ++
  err_if (MaxRedirects + 1 <? length (ht_AllowedRedirectHosts t))%nat "allowed_redirect_hosts has too many entries" ++
  each_once (λ host, err_if (negb (validatePublicHostname host)) "allowed_redirect_hosts") id
    (λ _, "duplicate allowed redirect host") ∅ (ht_AllowedRedirectHosts t) ++
  on_some (url_Parse (ht_URL t)) (λ parsed,
    err_if (bool_decide (url_Hostname parsed ∉ ht_AllowedRedirectHosts t)) "initial URL host is absent from allowed_redirect_hosts").

Definition validateLocalTransport (t : LocalTransport) (artifact : BottleArtifact) : list string :=
  err_if (negb (present (ba_PrebuiltDerivation artifact))) "build-local transport is limited to prebuilt-derived bottles" ++
  err_if (negb (bool_decide (lt_PolicyVersion t = BuildLocalArtifactPolicyVersion))) "unsupported policy_version" ++
  err_if (negb (bool_decide (lt_SHA256 t = ba_SHA256 artifact))) "sha256 does not match artifact digest" ++
  err_if (negb (lt_Size t =? ba_Size artifact)) "size does not match artifact size" ++
  err_if (negb (bool_decide (lt_Filename t = ba_Filename artifact))) "filename does not match artifact filename" ++
  err_if (negb (validateSHA256Digest (lt_SHA256 t))) "sha256" ++
  err_if (size_outside (lt_Size t) MaxBottleBytes) "size" ++
  err_if (negb (validateSafeFilename (lt_Filename t))) "filename".

Definition validateOCITransport (t : OCITransport) (artifact : BottleArtifact) : list string :=
  err_if (negb (validatePublicHostname (oc_Registry t))) "registry" ++
  err_if (negb (validateOCIRepository (oc_Repository t))) "repository" ++
  ([("index", oc_Index t); ("manifest", oc_Manifest t); ("config", oc_Config t); ("layer", oc_Layer t)] ≫= λ item,
     within item.1 (catalog_validateDescriptor item.2)) ++
  err_if (negb (bool_decide (ds_Digest (oc_Layer t) = ba_SHA256 artifact))) "layer digest does not match artifact digest" ++
  err_if (negb (ds_Size (oc_Layer t) =? ba_Size artifact)) "layer size does not match artifact size" ++
  if bool_decide (ba_Tag artifact = "all")
  then err_if (present (ds_Platform (oc_Manifest t))) "all bottle manifest must not carry a platform"
  else err_if (negb (bool_decide (ds_Platform (oc_Manifest t) = Some (ba_Platform artifact))))
         "manifest platform does not match artifact platform".

Definition validateTransport (t : Transport) (artifact : BottleArtifact) : list string :=
  match tr_OCI t, tr_HTTPS t, tr_Local t with
  | Some oci, None, None => validateOCITransport oci artifact
  | None, Some https, None => validateHTTPSTransport https (ba_Filename artifact) (ba_Size artifact) (ba_SHA256 artifact)
  | None, None, Some local => validateLocalTransport local artifact
  | _, _, _ => ["must set exactly one of oci, https, or local"]
  end.

Definition validate_runtime_dependency (d : BottleRuntimeDependency) : list string :=
  err_if (negb (FormulaID_Validate (rt_ID d))) "id" ++
  err_if (negb (FormulaID_Validate (rt_HomebrewFullName d)) || negb (bool_decide (rt_HomebrewFullName d = rt_ID d)))
    "mismatched full identity" ++
  err_if (bool_decide (rt_Version d = "") || bool_decide (rt_PkgVersion d = "") || (rt_Revision d <? 0) || (rt_BottleRebuild d <? 0))
    "invalid version metadata".

Definition validateBottleTab (tab : BottleTab) (platform : CatalogRequest.Platform) (tag : string) : list string :=
  let expectedArch := if bool_decide (pl_Architecture platform = "arm64") then "arm64" else "x86_64" in
  (if bool_decide (tag = "all") then err_if (negb (bool_decide (tb_Arch tab = ""))) "all bottle has an architecture"
   else err_if (negb (bool_decide (tb_Arch tab = expectedArch))) "architecture does not match") ++
  err_if (tb_Receiptless tab
          && (negb (bool_decide (tb_HomebrewVersion tab = "")) || negb (bool_decide (tb_Compiler tab = ""))
              || bool_decide (tb_ChangedFiles tab ≠ []) || negb (bool_decide (tb_BuiltOn tab = MkBottleBuiltOn "" "" "" "" ""))
              || bool_decide (length (tb_Dependencies tab) ≠ 0%nat)))
    "receiptless tab cannot claim receipt-only metadata" ++
  each_once validate_runtime_dependency rt_ID (λ _, "duplicate runtime dependency") ∅ (tb_Dependencies tab) ++
  (tb_ChangedFiles tab ≫= λ changed, err_if (unsafe_relative_path changed) "changed_files is unsafe").

(** ** Prebuilt derivations *)

Definition validatePrebuiltSourceArtifact (source : PrebuiltSourceArtifact) : list string :=
  let t := ps_Transport source in
  err_if (negb (validateSafeFilename (ps_Filename source))) "filename" ++
  err_if (size_outside (ps_Size source) MaxBottleBytes) "size" ++
  err_if (negb (validateSHA256Digest (ps_SHA256 source))) "sha256" ++
  err_if (Bool.eqb (present (tr_OCI t)) (present (tr_HTTPS t))) "transport must set exactly one of oci or https" ++
  err_if (present (tr_OCI t)) "transport must use HTTPS, not OCI" ++
  match tr_HTTPS t with
  | Some https =>
      within "transport.https" (validateHTTPSTransport https (ps_Filename source) (ps_Size source) (ps_SHA256 source)) ++
      on_some (url_Parse (ht_URL https)) (λ parsed,
        err_if (negb (bool_decide (url_PathUnescape (path_Base (url_EscapedPath parsed)) = Some (ps_Filename source))))
          "filename does not match source URL basename") ++
      err_if (negb (validatePrebuiltArchiveFormat (ps_Format source) (ht_URL https))) "format"
  | None => err_if (negb (bool_decide (ps_Format source = PrebuiltArchiveFormatTarGzip))) "unsupported format"
  end.

Definition validatePrebuiltSourceInventory (i : PrebuiltSourceInventory) : list string :=
  err_if (negb (validateSHA256Digest (pi_InventoryDigest i))) "inventory_digest" ++
  err_if (size_outside (pi_EntryCount i) MaxPrebuiltArchiveEntries) "entry_count" ++
  err_if (size_outside (pi_ExpandedSize i) MaxPrebuiltArchiveExpandedBytes) "expanded_size".

(** A mode of an executable file that only its owner may write: [0o777] is 511,
    [0o111] is 73, [0o022] is 18 and [0o555] is 365. *)
Definition archive_mode_unsafe (mode : Z) : bool :=
  (mode =? 0) || negb (Z.ldiff mode 511 =? 0) || (Z.land mode 73 =? 0) || negb (Z.land mode 18 =? 0).

Definition validatePrebuiltPayloadEvidence (p : PrebuiltPayloadEvidence) : list string :=
  err_if (negb (validateContainedSlashPath (pp_SourcePath p))) "source_path" ++
  err_if (negb (validateContainedSlashPath (pp_DestinationPath p))) "destination_path" ++
  err_if (negb (validateSHA256Digest (pp_SHA256 p))) "sha256" ++
  err_if (size_outside (pp_Size p) MaxPrebuiltArchiveExpandedBytes) "size" ++
  err_if (archive_mode_unsafe (pp_ArchiveMode p)) "archive_mode is not a non-group-writable executable mode" ++
  err_if (negb (pp_DerivedMode p =? 365)) "derived_mode must be 0555".

Definition validatePrebuiltELFEvidence (e : PrebuiltELFEvidence) : list string :=
  err_if (negb (bool_decide (pe_Format e = PrebuiltELFFormatELF64))) "unsupported format" ++
  err_if (negb (bool_decide (pe_Machine e = PrebuiltELFMachineX8664)) && negb (bool_decide (pe_Machine e = PrebuiltELFMachineAArch64)))
    "unsupported machine" ++
  err_if (negb (pe_StaticallyLinked e)) "statically_linked must be true" ++
  err_if (negb (bool_decide (pe_Interpreter e = ""))) "interpreter must be empty for a static executable" ++
  err_if (negb (bool_decide (pe_NeededLibraries e = Some []))) "needed_libraries must be an explicit empty array" ++
  err_if (negb (bool_decide (pe_RPaths e = Some []))) "rpaths must be an explicit empty array" ++
  err_if (pe_WritableExecutableSegments e) "writable_executable_segments must be false".

Definition validatePrebuiltFormulaSourceEvidence (e : PrebuiltFormulaSourceEvidence) : list string :=
  within "transport.tap" (validateTapSource (tf_Tap (fs_Transport e))) ++
  err_if (negb (validateFormulaSourceFilePath (tf_Path (fs_Transport e)))) "transport.path" ++
  err_if (negb (validateSHA256Digest (fs_SHA256 e))) "sha256" ++
  err_if (size_outside (fs_Size e) MaxPrebuiltFormulaSourceBytes) "size".

Definition validatePrebuiltDerivedBottleRelation (r : PrebuiltDerivedBottleRelation) : list string :=
  err_if (negb (bool_decide (db_Tag r = "x86_64_linux")) && negb (bool_decide (db_Tag r = "arm64_linux"))) "unsupported tag" ++
  err_if (negb (validateSafeFilename (db_Filename r))) "filename" ++
  err_if (negb (validateSHA256Digest (db_SHA256 r))) "sha256" ++
  err_if (size_outside (db_Size r) MaxBottleBytes) "size" ++
  within "verification" (validateBottleVerification (db_Verification r)) ++
  err_if (negb (validateSHA256Digest (db_FormulaSourceDigest r))) "formula_source_digest".

Definition ValidatePrebuiltDerivation (d : PrebuiltDerivation) : list string :=
  err_if (negb (validatePolicyVersion (pd_PolicyVersion d))) "policy_version" ++
  err_if (negb (validateSHA256Digest (pd_PolicyDigest d))) "policy_digest" ++
  within "source" (validatePrebuiltSourceArtifact (pd_Source d)) ++
  within "source_inventory" (validatePrebuiltSourceInventory (pd_SourceInventory d)) ++
  within "payload" (validatePrebuiltPayloadEvidence (pd_Payload d)) ++
  err_if ((pi_ExpandedSize (pd_SourceInventory d) <? pp_Size (pd_Payload d)) && (0 <? pi_ExpandedSize (pd_SourceInventory d)))
    "payload size exceeds verified source expanded size" ++
  within "elf" (validatePrebuiltELFEvidence (pd_ELF d)) ++
  within "formula_source" (validatePrebuiltFormulaSourceEvidence (pd_FormulaSource d)) ++
  err_if (negb (validateSHA256Digest (pd_RecipeDigest d))) "recipe_digest" ++
  within "derived_bottle" (validatePrebuiltDerivedBottleRelation (pd_DerivedBottle d)) ++
  err_if (negb (bool_decide (db_FormulaSourceDigest (pd_DerivedBottle d) = fs_SHA256 (pd_FormulaSource d))))
    "derived bottle Formula source digest does not match authenticated Formula source" ++
  err_if (negb (bool_decide (ps_SHA256 (pd_Source d) = "")) && bool_decide (ps_SHA256 (pd_Source d) = db_SHA256 (pd_DerivedBottle d)))
    "upstream source archive and derived bottle must have distinct digests".

Definition ValidatePrebuiltDerivationSource (declaration : PrebuiltArchiveDeclaration) (tag : string) (d : PrebuiltDerivation)
    : list string :=
  within "declaration" (ValidatePrebuiltArchiveDeclaration declaration) ++
  within "derivation" (ValidatePrebuiltDerivation d) ++
  match find (λ f, bool_decide (pf_Tag f = tag)) (pd_Files declaration) with
  | None => ["declaration has no prebuilt archive for tag"]
  | Some selected =>
      match tr_HTTPS (ps_Transport (pd_Source d)) with
      | None => ["derivation source has no HTTPS transport"]
      | Some https =>
          err_if (negb (bool_decide (ht_URL https = pf_URL selected))) "derivation source URL does not match prebuilt declaration" ++
          err_if (negb (bool_decide (ps_SHA256 (pd_Source d) = pf_SHA256 selected)))
            "derivation source digest does not match prebuilt declaration" ++
          err_if (negb (bool_decide (ps_Format (pd_Source d) = pf_Format selected)))
            "derivation source format does not match prebuilt declaration"
      end
  end.

Definition validatePrebuiltDerivationBinding (d : PrebuiltDerivation) (artifact : BottleArtifact) : list string :=
  let derived := pd_DerivedBottle d in
  let source := pd_FormulaSource d in
  let expectedMachine := if bool_decide (pl_Architecture (ba_Platform artifact) = "arm64")
                         then PrebuiltELFMachineAArch64 else PrebuiltELFMachineX8664 in
  err_if (negb (tb_Receiptless (ba_Tab artifact))) "derived bottle must be marked receiptless" ++
  err_if (negb (bool_decide (db_Tag derived = ba_Tag artifact))) "derived bottle tag does not match selected artifact" ++
  err_if (negb (bool_decide (db_Filename derived = ba_Filename artifact))) "derived bottle filename does not match selected artifact" ++
  err_if (negb (bool_decide (db_SHA256 derived = ba_SHA256 artifact))) "derived bottle digest does not match selected artifact" ++
  err_if (negb (db_Size derived =? ba_Size artifact)) "derived bottle size does not match selected artifact" ++
  err_if (negb (bool_decide (db_Verification derived = ba_Verification artifact)))
    "derived bottle verification does not match selected artifact" ++
  err_if (negb (bool_decide (ts_ID (tf_Tap (fs_Transport source)) = FormulaID_Tap (ba_ID artifact))))
    "Formula source tap does not match selected Formula ID" ++
  err_if (negb (catalog_validateFormulaSourcePath (tf_Path (fs_Transport source)) (FormulaID_Name (ba_ID artifact)))) "Formula source path" ++
  err_if (negb (bool_decide (fs_SHA256 source = ba_CurrentFormulaSourceDigest artifact))
          || negb (bool_decide (fs_SHA256 source = ba_BottleFormulaSourceDigest artifact))
          || negb (bool_decide (db_FormulaSourceDigest derived = ba_BottleFormulaSourceDigest artifact)))
    "Formula source digest does not bind current, embedded, and derived-bottle evidence" ++
  err_if (negb (bool_decide (pe_Machine (pd_ELF d) = expectedMachine))) "ELF machine does not match platform" ++
  err_if (bool_decide (pp_DestinationPath (pd_Payload d) ∉ ba_ExecutablePaths artifact))
    "payload destination is absent from selected executable paths".

(** ** Artifacts *)

Definition no_bottle_source (a : BottleArtifact) : bool :=
  bool_decide (ba_BottleSourceRepository a = "") && bool_decide (ba_BottleSourceCommit a = "")
  && bool_decide (ba_BottleFormulaPath a = "").

(** The switch on where the bottle comes from *)
Definition validate_bottle_source (a : BottleArtifact) : list string :=
  if present (ba_PrebuiltDerivation a) then
    err_if (negb (present (tr_HTTPS (ba_Transport a))) && negb (present (tr_Local (ba_Transport a))))
      "prebuilt-derived bottle requires HTTPS or build-local transport" ++
    err_if (present (tr_OCI (ba_Transport a))) "prebuilt-derived bottle cannot use OCI transport" ++
    err_if (negb (bool_decide (ba_BottleSourceWaiver a = "")))
      "prebuilt-derived bottle cannot use the native HTTPS bottle source waiver" ++
    err_if (negb (no_bottle_source a)) "prebuilt-derived bottle cannot combine derivation evidence with native bottle source fields"
  else if present (tr_HTTPS (ba_Transport a)) then
    err_if (negb (bool_decide (ba_BottleSourceWaiver a = HTTPSBottleSourceWaiver))) "HTTPS bottle requires source waiver" ++
    err_if (negb (no_bottle_source a)) "HTTPS bottle source waiver cannot be combined with an asserted historical source"
  else
    err_if (negb (bool_decide (ba_BottleSourceWaiver a = ""))) "OCI bottle cannot use the HTTPS source waiver" ++
    err_if (negb (bool_decide (ba_BottleSourceRepository a = TapID_DefaultGitHubRepository (FormulaID_Tap (ba_ID a)))))
      "bottle_source_repository" ++
    err_if (negb (validateCommit (ba_BottleSourceCommit a))) "bottle_source_commit" ++
    err_if (negb (catalog_validateFormulaSourcePath (ba_BottleFormulaPath a) (FormulaID_Name (ba_ID a)))) "bottle_formula_path".

Definition prebuilt_waiver (p : Provenance) : bool :=
  match pv_Waiver p with Some w => bool_decide (pw_Policy w = PrebuiltProvenanceWaiver) | None => false end.

Definition ValidateBottleArtifact (a : BottleArtifact) : list string :=
  err_if (negb (FormulaID_Validate (ba_ID a))) "id" ++
  err_if (negb (Platform_Validate (ba_Platform a))) "platform" ++
  err_if (negb (bool_decide (ba_Tag a = "all")) && negb (bool_decide (ba_Tag a = Platform_bottleTag (ba_Platform a))))
    "tag does not match platform" ++
  within "tab" (validateBottleTab (ba_Tab a) (ba_Platform a) (ba_Tag a)) ++
  err_if (negb (validateSafeFilename (ba_Filename a))) "filename" ++
  err_if (negb (validateSHA256Digest (ba_SHA256 a))) "sha256" ++
  err_if (size_outside (ba_Size a) MaxBottleBytes) "size" ++
  err_if (negb (validateCellarPolicy (ba_Cellar a))) "cellar" ++
  err_if (negb (validateSHA256Digest (ba_CurrentFormulaSourceDigest a))) "current_formula_source_digest" ++
  err_if (negb (validateSHA256Digest (ba_BottleFormulaSourceDigest a))) "bottle_formula_source_digest" ++
  validate_bottle_source a ++
  each_once (λ executable, err_if (unsafe_relative_path executable) "executable_paths is unsafe") id
    (λ _, "duplicate executable path") ∅ (ba_ExecutablePaths a) ++
  within "transport" (validateTransport (ba_Transport a) a) ++
  err_if (tb_Receiptless (ba_Tab a) && negb (present (tr_HTTPS (ba_Transport a))) && negb (present (tr_Local (ba_Transport a))))
    "receiptless tab marker is supported only for HTTPS or build-local bottles" ++
  within "verification" (validateBottleVerification (ba_Verification a)) ++
  within "provenance" (validateProvenance (ba_Provenance a) (ba_SHA256 a)) ++
  match ba_PrebuiltDerivation a with
  | Some d =>
      err_if (negb (prebuilt_waiver (ba_Provenance a))) "prebuilt derivation requires the dedicated provenance waiver" ++
      within "prebuilt_derivation" (ValidatePrebuiltDerivation d) ++
      within "prebuilt_derivation binding" (validatePrebuiltDerivationBinding d a)
  | None => err_if (prebuilt_waiver (ba_Provenance a)) "prebuilt provenance waiver requires derivation evidence"
  end.

End validate.

(** ** What a valid artifact guarantees *)

Section specification.
Context `{U : !UnicodeTables, N : !NetURL, R : !DistributionReference}.

(** The bytes come one way, and that way names exactly the bytes of the
    artifact. Downloads start and stay on public hosts. *)
Inductive delivered (a : BottleArtifact) : Prop :=
| delivered_oci t :
    ba_Transport a = MkTransport (Some t) None None → ba_PrebuiltDerivation a = None →
    ds_Digest (oc_Layer t) = ba_SHA256 a → ds_Size (oc_Layer t) = ba_Size a → public_host (oc_Registry t) → delivered a
| delivered_https t u :
    ba_Transport a = MkTransport None (Some t) None → url_Parse (ht_URL t) = Some u →
    ht_SHA256 t = ba_SHA256 a → ht_ExpectedSize t = ba_Size a → ht_Filename t = ba_Filename a →
    url_Hostname u ∈ ht_AllowedRedirectHosts t → (∀ h, h ∈ ht_AllowedRedirectHosts t → public_host h) →
    (length (ht_AllowedRedirectHosts t) <= MaxRedirects + 1)%nat → delivered a
| delivered_local t :
    ba_Transport a = MkTransport None None (Some t) → is_Some (ba_PrebuiltDerivation a) →
    lt_SHA256 t = ba_SHA256 a → lt_Size t = ba_Size a → lt_Filename t = ba_Filename a → delivered a.

(** The evidence of a derived bottle describes this artifact and no other. *)
Record derivation_bound (d : PrebuiltDerivation) (a : BottleArtifact) : Prop := {
  dbd_bottle : pd_DerivedBottle d =
    MkPrebuiltDerivedBottleRelation (ba_Tag a) (ba_Filename a) (ba_SHA256 a) (ba_Size a) (ba_Verification a)
      (ba_BottleFormulaSourceDigest a);
  dbd_tap : ts_ID (tf_Tap (fs_Transport (pd_FormulaSource d))) = FormulaID_Tap (ba_ID a);
  dbd_source : fs_SHA256 (pd_FormulaSource d) = ba_CurrentFormulaSourceDigest a ∧
               fs_SHA256 (pd_FormulaSource d) = ba_BottleFormulaSourceDigest a;
  dbd_upstream : ps_SHA256 (pd_Source d) ≠ ba_SHA256 a;
  dbd_payload : pp_DestinationPath (pd_Payload d) ∈ ba_ExecutablePaths a ∧
                pp_Size (pd_Payload d) <= pi_ExpandedSize (pd_SourceInventory d);
  dbd_static : pe_StaticallyLinked (pd_ELF d) = true ∧ pe_Interpreter (pd_ELF d) = "" ∧
               pe_NeededLibraries (pd_ELF d) = Some [] ∧ pe_RPaths (pd_ELF d) = Some [];
  dbd_receiptless : tb_Receiptless (ba_Tab a) = true;
}.

Record artifact_bound (a : BottleArtifact) : Prop := {
  ab_id : FormulaID_Validate (ba_ID a) = true;
  ab_tag : ba_Tag a = "all" ∨ ba_Tag a = Platform_bottleTag (ba_Platform a);
  ab_size : 0 < ba_Size a <= MaxBottleBytes;
  ab_delivered : delivered a;
  ab_executables p : p ∈ ba_ExecutablePaths a → contained p;
  ab_changed p : p ∈ tb_ChangedFiles (ba_Tab a) → contained p;
  ab_provenance v : pv_Verified (ba_Provenance a) = Some v → vp_SubjectDigest v = ba_SHA256 a;
  ab_waiver : prebuilt_waiver (ba_Provenance a) = true ↔ is_Some (ba_PrebuiltDerivation a);
  ab_derivation d : ba_PrebuiltDerivation a = Some d → derivation_bound d a;
}.

End specification.

Section validation.
Context `{U : !UnicodeTables, N : !NetURL, R : !DistributionReference}.

Lemma size_outside_false size limit : size_outside size limit = false ↔ 0 < size <= limit.
Proof. unfold size_outside. rewrite orb_false_iff, Z.leb_gt, Z.ltb_ge. done. Qed.

Lemma present_true {A} (o : option A) : present o = true ↔ is_Some o.
Proof. destruct o; cbn; naive_solver. Qed.

Lemma validateTransport_delivered a :
  validate_bottle_source a = [] → validateTransport (ba_Transport a) a = [] → delivered a.
Proof.
  intros Hs Ht. unfold validateTransport in Ht. destruct (ba_Transport a) as [oci https local] eqn:Et. cbn in Ht.
  destruct oci as [t|], https as [h|], local as [l|]; try done.
  - unfold validateOCITransport in Ht. autorewrite with errs in Ht. destruct Ht as (Hr & _ & _ & Hd & Hz & _).
    apply (delivered_oci a t); try done; [|by apply validatePublicHostname_ok].
    unfold validate_bottle_source in Hs. destruct (ba_PrebuiltDerivation a); [|done]. cbn [present] in Hs. rewrite Et in Hs.
    autorewrite with errs in Hs. by destruct Hs as (_ & ? & _).
  - unfold validateHTTPSTransport in Ht. autorewrite with errs in Ht.
    destruct Ht as (Hu%validateHTTPSURL_parsed & Hz & _ & Hd & _ & Hf & _ & _ & _ & Hl & [Hh _] & Hin).
    destruct Hu as (u & Hu & _). rewrite Hu in Hin. cbn in Hin. autorewrite with errs in Hin.
    apply (delivered_https a h u); try done.
    + by apply dec_stable.
    + intros x Hx%Hh. autorewrite with errs in Hx. by apply validatePublicHostname_ok.
    + by apply Nat.ltb_ge.
  - unfold validateLocalTransport in Ht. autorewrite with errs in Ht. destruct Ht as (Hp%present_true & _ & Hd & Hz & Hf & _).
    by apply (delivered_local a l).
Qed.

Lemma validateDerivation_bound d a :
  ValidatePrebuiltDerivation d = [] → validatePrebuiltDerivationBinding d a = [] → derivation_bound d a.
Proof.
  unfold ValidatePrebuiltDerivation, validatePrebuiltDerivationBinding. autorewrite with errs.
  intros (_ & _ & Hsrc & Hinv & _ & Hps & Helf & _ & _ & _ & Hfs & Hdis)
    (Hr & Htag & Hfn & Hsha & Hz & Hv & Htap & _ & ((Hc & Hb) & Hdf) & _ & Hdest).
  unfold validatePrebuiltSourceInventory in Hinv. autorewrite with errs in Hinv. destruct Hinv as (_ & _ & Hx%size_outside_false).
  unfold validatePrebuiltELFEvidence in Helf. autorewrite with errs in Helf. destruct Helf as (_ & _ & ? & ? & ? & ? & _).
  split; try done.
  - destruct (pd_DerivedBottle d). cbn in *. congruence.
  - rewrite <-Hsha. destruct Hdis as [He|?]; [|done]. exfalso. unfold validatePrebuiltSourceArtifact in Hsrc.
    autorewrite with errs in Hsrc. destruct Hsrc as (_ & _ & Hd & _). by rewrite He in Hd.
  - split; [by apply dec_stable|]. destruct Hps as [?%Z.ltb_ge|?%Z.ltb_ge]; lia.
Qed.

Lemma ValidateBottleArtifact_ok a : ValidateBottleArtifact a = [] → artifact_bound a.
Proof.
  unfold ValidateBottleArtifact. autorewrite with errs.
  intros (Hid & Hp & Htag & Htab & _ & _ & Hz%size_outside_false & _ & _ & _ & Hsrc & [Hex _] & Htr & _ & _ & Hpv & Hd).
  split; try done.
  - by apply validateTransport_delivered.
  - intros p Hin%Hex. autorewrite with errs in Hin. by apply unsafe_relative_path_false.
  - unfold validateBottleTab in Htab. rewrite !app_nil_iff in Htab. destruct Htab as (_ & _ & _ & Hch).
    rewrite bind_nil in Hch. intros p Hin%Hch. apply err_if_nil in Hin. by apply unsafe_relative_path_false.
  - intros v Hv. unfold validateProvenance in Hpv. rewrite Hv in Hpv. destruct (pv_Waiver _); [done|].
    autorewrite with errs in Hpv. by destruct Hpv as (_ & _ & ? & _).
  - destruct (ba_PrebuiltDerivation a) as [d|]; autorewrite with errs in Hd.
    + destruct Hd as (-> & _). naive_solver.
    + rewrite Hd. split; [done|by intros ?%is_Some_None].
  - intros d Ed. rewrite Ed in Hd. autorewrite with errs in Hd. destruct Hd as (_ & ? & ?). by apply validateDerivation_bound.
Qed.

End validation.

(** ** Properties *)

(** An accepted artifact has one transport, and that transport carries the
    digest and the size of the artifact's bytes; a download starts on an allowed
    host and can only be redirected to public hosts; its paths stay inside the
    keg; verified provenance is about these bytes; and exactly the artifacts
    derived from an upstream archive carry the prebuilt waiver, with evidence
    that describes this bottle. *)
Theorem ValidateBottleArtifact_bound `{U : !UnicodeTables, N : !NetURL, R : !DistributionReference} a
  (Ha : ValidateBottleArtifact a = []) : artifact_bound a.
Proof. by apply ValidateBottleArtifact_ok. Qed.

(** ** Example: a bottle downloaded over HTTPS *)

Module Example.

Definition https : HTTPSTransport :=
  MkHTTPSTransport "https://example.com/lib-1.0.x86_64_linux.bottle.tar.gz" 1000 CatalogTap.Example.digest
    "lib-1.0.x86_64_linux.bottle.tar.gz" ["example.com"] HTTPSFetchPolicyVersion.

Definition artifact (id tag : string) (platform : CatalogRequest.Platform) : BottleArtifact :=
  MkBottleArtifact id platform tag "lib-1.0.x86_64_linux.bottle.tar.gz" CatalogTap.Example.digest 1000 "any"
    (MkBottleTab false "4.0" (if bool_decide (tag = "all") then "" else "x86_64") "gcc" ["lib/pkgconfig/lib.pc"]
       (MkBottleBuiltOn "" "" "" "" "") [])
    CatalogTap.Example.digest CatalogTap.Example.digest "" "" "" HTTPSBottleSourceWaiver ["bin/lib"]
    (MkTransport None (Some https) None)
    (MkBottleVerification BottleVerificationPolicy CatalogTap.Example.digest 10 5000)
    (MkProvenance None (Some (MkProvenanceWaiver ChecksumProvenanceWaiver))) None.

Definition no_reference : DistributionReference := {| reference_ParseNormalizedNamed _ := None |}.

Definition lib : BottleArtifact := artifact "azure/tools/lib" "x86_64_linux" CatalogRequest.Example.amd64.

End Example.

Lemma ValidateBottleArtifact_bound_witness :
  @ValidateBottleArtifact ascii_tables https_only Example.no_reference Example.lib = [] ∧
  @artifact_bound https_only Example.lib.
Proof.
  assert (@ValidateBottleArtifact ascii_tables https_only Example.no_reference Example.lib = []) as H
    by (vm_compute; reflexivity).
  split; [exact H|]. exact (@ValidateBottleArtifact_bound ascii_tables https_only Example.no_reference Example.lib H).
Defined.
