(* ===== verification/CatalogSet.v ===== *)
(** * internal/catalog: the signed catalog set

    The payload the catalog service signs: references to the catalogs of the
    taps reached, and for every platform the closure with its selected bottles.
    [ValidateCatalogSetPayload], the comparison with recomputed results and the
    binding to the request. Times are nanoseconds since the zero [time.Time]. *)

From S2P Require Import Prelude GoStrings NetUrl FormulaId Resolution ClosureGraph CatalogFields.
From S2P Require Import CatalogRequest CatalogTap CatalogClosure CatalogArtifact.
From stdpp Require Import options.
Local Open Scope Z_scope.

(** ** Types *)

Record PlatformResult := MkPlatformResult {
  rs_Platform : CatalogRequest.Platform; rs_Closure : ClosureResult; rs_Artifacts : slice BottleArtifact;
}.

Record ComponentIdentity := MkComponentIdentity { ci_Name : string; ci_Version : string; ci_Digest : string }.

Record CatalogReference := MkCatalogReference {
  rf_Tap : TapSource; rf_PublishedAt : Z; rf_Sequence : Z; rf_URL : string; rf_Size : Z; rf_SHA256 : string;
}.

Record CatalogSetPayload := MkCatalogSetPayload {
  py_SchemaVersion : string; py_RequestDigest : string; py_CoreSnapshotDigest : string; py_GeneratedAt : Z; py_ExpiresAt : Z;
  py_CatalogService : ComponentIdentity; py_Extractor : ComponentIdentity; py_Catalogs : list CatalogReference;
  py_Results : list PlatformResult;
}.

Record rootVersionIdentity := MkRootVersionIdentity {
  rv_Resolved : string; rv_Tap : string; rv_Name : string; rv_HomebrewFullName : string; rv_FormulaVersion : string;
  rv_FormulaRevision : Z; rv_PkgVersion : string; rv_VersionScheme : Z; rv_BottleRebuild : Z; rv_License : string;
}.

#[export] Instance rootVersionIdentity_eq_dec : EqDecision rootVersionIdentity.
Proof. solve_decision. Defined.

(** [time.Time.Sub]: a duration is a 64-bit integer and saturates. *)
Definition time_Sub (t u : Z) : Z := Z.max min_int (Z.min max_int (t - u)).

(** ** Validation *)

Section validate.
Context `{U : !UnicodeTables, N : !NetURL, R : !DistributionReference}.

Definition validateComponentIdentity (i : ComponentIdentity) : list string :=
  err_if (negb (validateBoundedText (ci_Name i) 128 false)) "name" ++
  err_if (negb (validateBoundedText (ci_Version i) 256 false)) "version" ++
  err_if (negb (validateSHA256Digest (ci_Digest i))) "digest".

Definition ValidateCatalogReference (r : CatalogReference) : list string :=
  within "tap" (validateTapSource (rf_Tap r)) ++
  err_if (rf_PublishedAt r =? 0) "published_at is required" ++
  err_if (rf_Sequence r =? 0) "sequence must be positive" ++
  err_if (size_outside (rf_Size r) MaxCatalogDocumentBytes) "size" ++
  err_if (negb (validateSHA256Digest (rf_SHA256 r))) "sha256" ++
  err_if (negb (validateCatalogURL (rf_URL r) (rf_SHA256 r))) "url".

Definition ValidatePlatformResult (r : PlatformResult) : list string :=
  let nodes := items (cl_Nodes (rs_Closure r)) in
  let artifacts := items (rs_Artifacts r) in
  err_if (negb (Platform_Validate (rs_Platform r))) "platform" ++
  within "closure" (ValidateClosureResult (rs_Closure r)) ++
  err_if (is_nil (rs_Artifacts r)) "artifacts must be an array" ++
  each_once (λ a,
      within "artifacts" (ValidateBottleArtifact a) ++
      err_if (negb (bool_decide (ba_Platform a = rs_Platform r))) "artifact platform does not match result" ++
      err_if (bool_decide (ba_ID a ∉ nd_ID <$> nodes)) "artifact has no closure node")
    ba_ID (λ _, "duplicate artifact") ∅ artifacts ++
  err_if (negb (bool_decide (length artifacts = length nodes))) "artifacts and closure nodes differ in number" ++
  (nodes ≫= λ node, err_if (bool_decide (nd_ID node ∉ ba_ID <$> artifacts)) "closure node has no selected artifact").

(** One step of the aggregate of catalog sizes, on 64-bit integers *)
Definition aggregate_step (aggregate : Z) (r : CatalogReference) : Z :=
  if 0 <? rf_Size r then
    if MaxAggregateCatalogBytes - rf_Size r <? aggregate then MaxAggregateCatalogBytes + 1 else aggregate + rf_Size r
  else aggregate.

Definition aggregate_size (catalogs : list CatalogReference) : Z := foldl aggregate_step 0 catalogs.

Definition rootVersionFor (resolved : string) (node : Node) : rootVersionIdentity :=
  MkRootVersionIdentity resolved (nd_Tap node) (nd_Name node) (nd_HomebrewFullName node) (nd_FormulaVersion node)
    (nd_FormulaRevision node) (nd_PkgVersion node) (nd_VersionScheme node) (nd_BottleRebuild node) (nd_License node).

(** The versions of the requested roots of one platform *)
Definition result_versions (r : PlatformResult) : list (string * rootVersionIdentity) :=
  let nodesByID := keyed_map nd_ID ∅ (items (cl_Nodes (rs_Closure r))) in
  closure_mappings (rs_Closure r) ≫= λ m,
    match nodesByID !! mp_Resolved m with
    | Some node => [(mp_Requested m, rootVersionFor (mp_Resolved m) node)]
    | None => []
    end.

Fixpoint validate_versions (rootVersions : gmap string rootVersionIdentity) (l : list (string * rootVersionIdentity))
    : list string :=
  match l with
  | [] => []
  | (root, identity) :: l =>
      match rootVersions !! root with
      | Some prior =>
          if bool_decide (prior = identity) then validate_versions (<[root := identity]> rootVersions) l
          else "requested root has inconsistent versions or resolved identity across platforms" :: validate_versions rootVersions l
      | None => validate_versions (<[root := identity]> rootVersions) l
      end
  end.

Definition reached_taps (results : list PlatformResult) : gset string :=
  list_to_set (results ≫= λ r, normalizedClosureTaps (rs_Closure r)).

Definition union_nodes (results : list PlatformResult) : gset string :=
  list_to_set (results ≫= λ r, nd_ID <$> items (cl_Nodes (rs_Closure r))).

Definition validate_lifetime (p : CatalogSetPayload) : list string :=
  if (py_GeneratedAt p =? 0) || (py_ExpiresAt p =? 0) then ["generated_at and expires_at are required"]
  else if negb (py_GeneratedAt p <? py_ExpiresAt p) then ["expires_at must be after generated_at"]
  else err_if (MaxCatalogSetLifetime <? time_Sub (py_ExpiresAt p) (py_GeneratedAt p)) "catalog-set lifetime exceeds the limit".

Definition validate_references (p : CatalogSetPayload) : list string :=
  each_once (λ r,
      within "catalogs" (ValidateCatalogReference r) ++
      err_if (negb (py_GeneratedAt p =? 0) && (py_GeneratedAt p <? rf_PublishedAt r))
        "catalog published_at is after catalog-set generated_at")
    (λ r, ts_ID (rf_Tap r)) (λ _, "duplicate catalog tap") ∅ (py_Catalogs p) ++
  each_once (λ _, []) rf_SHA256 (λ _, "catalog taps reuse digest") ∅ (py_Catalogs p) ++
  each_once (λ _, []) rf_URL (λ _, "catalog taps reuse URL") ∅ (py_Catalogs p).

Definition ValidateCatalogSetPayload (p : CatalogSetPayload) : list string :=
  let catalogTaps : gset string := list_to_set ((λ r, ts_ID (rf_Tap r)) <$> py_Catalogs p) in
  let reached := reached_taps (py_Results p) in
  err_if (negb (bool_decide (py_SchemaVersion p = CatalogSetSchemaVersion))) "unsupported schema_version" ++
  err_if (negb (validateSHA256Digest (py_RequestDigest p))) "request_digest" ++
  err_if (negb (validateSHA256Digest (py_CoreSnapshotDigest p))) "core_snapshot_digest" ++
  validate_lifetime p ++
  within "catalog_service" (validateComponentIdentity (py_CatalogService p)) ++
  within "extractor" (validateComponentIdentity (py_Extractor p)) ++
  err_if (bool_decide (length (py_Catalogs p) = 0%nat)) "catalogs must be a non-empty array" ++
  err_if (MaxTaps <? length (py_Catalogs p))%nat "catalogs has too many entries" ++
  validate_references p ++
  err_if (MaxAggregateCatalogBytes <? aggregate_size (py_Catalogs p)) "aggregate catalog size exceeds the limit" ++
  err_if (bool_decide (length (py_Results p) = 0%nat)) "results must be a non-empty array" ++
  err_if (2 <? length (py_Results p))%nat "results has too many entries" ++
  each_once (λ r, within "results" (ValidatePlatformResult r)) (λ r, Platform_key (rs_Platform r))
    (λ _, "duplicate result platform") ∅ (py_Results p) ++
  validate_versions ∅ (py_Results p ≫= result_versions) ++
  err_if (MaxClosureNodes <? size (union_nodes (py_Results p)))%nat "cross-platform closure contains too many nodes" ++
  (slices_Sort (elements reached) ≫= λ tap, err_if (bool_decide (tap ∉ catalogTaps)) "reached tap has no signed catalog reference") ++
  (slices_Sort (elements catalogTaps) ≫= λ tap, err_if (bool_decide (tap ∉ reached)) "catalog reference is not reached by any result").

Inductive set_error := SetInvalid (errs : list string) | TimeRequired | NotYetValid | Expired.

Definition ValidateCatalogSetAt (p : CatalogSetPayload) (now : Z) : result set_error unit :=
  match ValidateCatalogSetPayload p with
  | [] =>
      _ ← check (now =? 0) TimeRequired;
      _ ← check (now <? py_GeneratedAt p) NotYetValid;
      check (negb (now <? py_ExpiresAt p)) Expired
  | errs => Err (SetInvalid errs)
  end.

End validate.

(** ** Binding to the request: [compare.go] *)

(** [digest.FromBytes]: the digest of some bytes *)
Class Digester := { digest_FromBytes : string → string }.

Inductive binding_error :=
| BindingPayload (errs : list string) | BindingRequest (errs : list string) | BindingDigest | RequestDigestMismatch
| SnapshotMismatch | BindingTargets | ResultCount | UnrequestedPlatform | RootsMismatch.

Section binding.
Context `{U : !UnicodeTables, N : !NetURL, R : !DistributionReference, J : !RequestJSON, D : !Digester}.

Definition RequestDigest (r : Request) : option string := digest_FromBytes <$> CanonicalRequest r.

(** The roots of a target, by the key of its platform *)
Definition requestedByPlatform (targets : list PlatformRequest) : gmap string (list string) :=
  foldl (λ m t, <[target_key t := slices_Sort (pr_CoreRoots t ++ items (pr_ExternalRoots t))]> m) ∅ targets.

Definition result_roots (r : PlatformResult) : list string :=
  match items (cl_RequestedMappings (rs_Closure r)) with
  | [] => items (cl_Requested (rs_Closure r))
  | mappings => mp_Requested <$> mappings
  end.

Fixpoint check_results (requested : gmap string (list string)) (l : list PlatformResult) : result binding_error unit :=
  match l with
  | [] => Ok tt
  | r :: l =>
      match requested !! Platform_key (rs_Platform r) with
      | None => Err UnrequestedPlatform
      | Some roots =>
          _ ← check (negb (bool_decide (slices_Sort (result_roots r) = roots))) RootsMismatch;
          check_results requested l
      end
  end.

Definition ValidateCatalogSetBinding (p : CatalogSetPayload) (request : Request) : result binding_error unit :=
  _ ← (match ValidateCatalogSetPayload p with [] => Ok tt | errs => Err (BindingPayload errs) end);
  _ ← (match ValidateRequest request with [] => Ok tt | errs => Err (BindingRequest errs) end);
  digest ← (match RequestDigest request with Some d => Ok d | None => Err BindingDigest end);
  _ ← check (negb (bool_decide (py_RequestDigest p = digest))) RequestDigestMismatch;
  _ ← check (negb (bool_decide (py_CoreSnapshotDigest p = req_CoreSnapshotDigest request))) SnapshotMismatch;
  targets ← map_err (λ _, BindingTargets) (normalizedRequestTargets request);
  _ ← check (negb (bool_decide (length (py_Results p) = size (requestedByPlatform targets)))) ResultCount;
  check_results (requestedByPlatform targets) (py_Results p).

(** ** References: [compare.go] *)

Inductive reference_error :=
| ReferenceErrors (errs : list string) | OriginUnparsable | OriginShape | OriginHost | OriginPort | OriginMismatch.

Definition ValidateCatalogReferenceOrigin (r : CatalogReference) (serviceOrigin : string) : result reference_error unit :=
  _ ← (match ValidateCatalogReference r with [] => Ok tt | errs => Err (ReferenceErrors errs) end);
  match url_Parse serviceOrigin with
  | None => Err OriginUnparsable
  | Some origin =>
      _ ← check (negb (bool_decide (url_Scheme origin = "https")) || bool_decide (url_Host origin = "") || url_HasUser origin
                 || negb (bool_decide (url_Path origin = "")) || negb (bool_decide (url_RawQuery origin = ""))
                 || negb (bool_decide (url_Fragment origin = ""))) OriginShape;
      _ ← check (negb (validatePublicHostname (url_Hostname origin))) OriginHost;
      _ ← check (negb (bool_decide (url_Port origin = "")) && negb (bool_decide (url_Port origin = "443"))) OriginPort;
      match url_Parse (rf_URL r) with
      | None => Err OriginMismatch
      | Some catalogURL =>
          check (negb (strings_EqualFold (url_Scheme catalogURL) (url_Scheme origin))
                 || negb (strings_EqualFold (url_Host catalogURL) (url_Host origin))) OriginMismatch
      end
  end.

End binding.

(** ** Served catalog documents: [compare.go] *)

(** [encoding/json] on tap catalogs: the canonical text of a value and the
    strict decoder *)
Class TapCatalogJSON := {
  encodeTapCatalog : TapCatalog → option string;
  decodeTapCatalog : string → option TapCatalog;
}.

Inductive served_error :=
| ServedReference (errs : list string) | ServedCatalog (errs : list string) | ServedSource | ServedPublished | ServedSequence
| ServedEncoding | ServedSize | ServedDigest | ServedUndecodable | ServedNotCanonical.

Section served.
Context `{U : !UnicodeTables, N : !NetURL, D : !Digester, J : !TapCatalogJSON}.

(** [CanonicalTapCatalog]: the bytes *)
Definition tapCatalogBytes (c : TapCatalog) : result served_error string :=
  clone ← map_err ServedCatalog (CanonicalTapCatalog c);
  match encodeTapCatalog clone with
  | None => Err ServedEncoding
  | Some data => _ ← check (MaxCatalogDocumentBytes <? strlen data) ServedEncoding; Ok data
  end.

Definition DecodeTapCatalog (data : string) : result served_error TapCatalog :=
  _ ← check (MaxCatalogDocumentBytes <? strlen data) ServedUndecodable;
  match decodeTapCatalog data with
  | None => Err ServedUndecodable
  | Some value =>
      let value := canonicalizeTapCatalog value in
      match ValidateTapCatalog value with [] => Ok value | errs => Err (ServedCatalog errs) end
  end.

Definition reference_ok (r : CatalogReference) : result served_error unit :=
  match ValidateCatalogReference r with [] => Ok tt | errs => Err (ServedReference errs) end.

Definition VerifyCatalogReference (r : CatalogReference) (c : TapCatalog) : result served_error unit :=
  _ ← reference_ok r;
  _ ← (match ValidateTapCatalog c with [] => Ok tt | errs => Err (ServedCatalog errs) end);
  _ ← check (negb (bool_decide (rf_Tap r = tc_Tap c))) ServedSource;
  _ ← check (negb (rf_PublishedAt r =? tc_PublishedAt c)) ServedPublished;
  _ ← check (negb (rf_Sequence r =? tc_Sequence c)) ServedSequence;
  data ← tapCatalogBytes c;
  _ ← check (negb (strlen data =? rf_Size r)) ServedSize;
  check (negb (bool_decide (digest_FromBytes data = rf_SHA256 r))) ServedDigest.

Definition DecodeReferencedTapCatalog (r : CatalogReference) (data : string) : result served_error TapCatalog :=
  _ ← reference_ok r;
  _ ← check (negb (strlen data =? rf_Size r)) ServedSize;
  _ ← check (negb (bool_decide (digest_FromBytes data = rf_SHA256 r))) ServedDigest;
  c ← DecodeTapCatalog data;
  canonical ← tapCatalogBytes c;
  _ ← check (negb (bool_decide (data = canonical))) ServedNotCanonical;
  _ ← VerifyCatalogReference r c;
  Ok c.

End served.

(** ** What a valid payload guarantees *)

Section specification.
Context `{U : !UnicodeTables, N : !NetURL, R : !DistributionReference}.

(** The selected bottles are one for each node of the closure. *)
Record result_wf (r : PlatformResult) : Prop := {
  rsw_platform : Platform_Validate (rs_Platform r) = true;
  rsw_closure : closure_result_wf (rs_Closure r);
  rsw_artifact a : a ∈ items (rs_Artifacts r) → artifact_bound a ∧ ba_Platform a = rs_Platform r;
  rsw_selected : ba_ID <$> items (rs_Artifacts r) ≡ₚ nd_ID <$> items (cl_Nodes (rs_Closure r));
}.

(** The total of the sizes, over the integers *)
Definition total_size (l : list CatalogReference) : Z := foldr (λ r n, rf_Size r + n) 0 l.

Record payload_wf (p : CatalogSetPayload) : Prop := {
  pyw_lifetime : py_GeneratedAt p < py_ExpiresAt p <= py_GeneratedAt p + MaxCatalogSetLifetime;
  pyw_catalogs : (1 <= length (py_Catalogs p) <= MaxTaps)%nat;
  pyw_catalog r : r ∈ py_Catalogs p → ValidateCatalogReference r = [] ∧ rf_PublishedAt r <= py_GeneratedAt p;
  pyw_taps : NoDup ((λ r, ts_ID (rf_Tap r)) <$> py_Catalogs p);
  pyw_digests : NoDup (rf_SHA256 <$> py_Catalogs p);
  pyw_urls : NoDup (rf_URL <$> py_Catalogs p);
  pyw_total : total_size (py_Catalogs p) <= MaxAggregateCatalogBytes;
  pyw_results : (1 <= length (py_Results p) <= 2)%nat;
  pyw_result r : r ∈ py_Results p → result_wf r;
  pyw_platforms : NoDup ((λ r, Platform_key (rs_Platform r)) <$> py_Results p);
  pyw_versions root v w : (root, v) ∈ py_Results p ≫= result_versions → (root, w) ∈ py_Results p ≫= result_versions → v = w;
  pyw_nodes : (size (union_nodes (py_Results p)) <= MaxClosureNodes)%nat;
  pyw_reached tap : tap ∈ reached_taps (py_Results p) ↔ tap ∈ (λ r, ts_ID (rf_Tap r)) <$> py_Catalogs p;
}.

End specification.

Section validation.
Context `{U : !UnicodeTables, N : !NetURL, R : !DistributionReference}.

Lemma ValidatePlatformResult_ok r : ValidatePlatformResult r = [] → result_wf r.
Proof.
  unfold ValidatePlatformResult. autorewrite with errs. rewrite ValidateClosureResult_nil.
  intros (Hp & Hc & _ & [Ha Hnd] & Hlen & Hall). split; try done.
  - intros a Hin. specialize (Ha a Hin). autorewrite with errs in Ha. destruct Ha as (Hv & Hpl & _).
    split; [by apply ValidateBottleArtifact_ok|done].
  - symmetry. apply NoDup_same_length; [|done| |by rewrite !length_fmap].
    + destruct Hc as [(_ & -> & _)|(q & l & o & _ & -> & _ & _ & Hg)]; [constructor|]. apply (gw_closure _ _ _ _ _ Hg).
    + intros x (n & -> & Hn)%list_elem_of_fmap. specialize (Hall n Hn). apply err_if_nil, bool_decide_eq_false in Hall.
      by apply dec_stable.
Qed.

Lemma aggregate_step_range a r :
  0 <= a <= MaxAggregateCatalogBytes + 1 → 0 <= aggregate_step a r <= MaxAggregateCatalogBytes + 1.
Proof.
  intros Ha. unfold aggregate_step. destruct (Z.ltb_spec 0 (rf_Size r)); [|done].
  destruct (Z.ltb_spec (MaxAggregateCatalogBytes - rf_Size r) a); lia.
Qed.

Lemma aggregate_total a l :
  0 <= a → foldl aggregate_step a l <= MaxAggregateCatalogBytes → (∀ r, r ∈ l → 0 < rf_Size r) →
  a + total_size l <= MaxAggregateCatalogBytes.
Proof.
  revert a. induction l as [|r l IH]; intros a Ha Hf Hpos; cbn [foldl total_size foldr] in *; [lia|].
  assert (0 < rf_Size r) as Hr by (apply Hpos; set_solver). fold (total_size l).
  assert (∀ b, MaxAggregateCatalogBytes < b → MaxAggregateCatalogBytes < foldl aggregate_step b l) as Hover.
  { clear IH Hf Hr Ha. assert (∀ r, r ∈ l → 0 < rf_Size r) as Hp by set_solver. clear Hpos.
    induction l as [|r' l IH]; intros b Hb; cbn; [done|]. apply IH; [set_solver|].
    unfold aggregate_step. destruct (Z.ltb_spec 0 (rf_Size r')); [|done].
    destruct (Z.ltb_spec (MaxAggregateCatalogBytes - rf_Size r') b); lia. }
  unfold aggregate_step in Hf at 2. rewrite (proj2 (Z.ltb_lt 0 (rf_Size r)) Hr) in Hf.
  destruct (Z.ltb_spec (MaxAggregateCatalogBytes - rf_Size r) a).
  - pose proof (Hover (MaxAggregateCatalogBytes + 1)). lia.
  - specialize (IH (a + rf_Size r)). rewrite <-Z.add_assoc in IH. rewrite Z.add_comm, <-Z.add_assoc.
    rewrite (Z.add_comm (total_size l) a), Z.add_assoc, (Z.add_comm (rf_Size r) a), <-Z.add_assoc. apply IH; [lia|done|set_solver].
Qed.

Lemma validate_versions_nil m l :
  validate_versions m l = [] →
  (∀ root v w, (root, v) ∈ l → (root, w) ∈ l → v = w) ∧ (∀ root v w, (root, v) ∈ l → m !! root = Some w → w = v).
Proof.
  revert m. induction l as [|[root v] l IH]; intros m; cbn [validate_versions]; [set_solver|].
  intros Hv. assert (validate_versions (<[root:=v]> m) l = [] ∧ ∀ w, m !! root = Some w → w = v) as [Hl Hm].
  { destruct (m !! root) as [w|] eqn:E; [|naive_solver]. case_bool_decide; naive_solver. }
  apply IH in Hl as [Hp Hi]. setoid_rewrite elem_of_cons. setoid_rewrite lookup_insert_Some in Hi. split.
  - intros x a b [Ha|Ha] [Hb|Hb]; simplify_eq; [done|..|by eapply Hp].
    + by apply (Hi root b v); [|left].
    + symmetry. by apply (Hi root a v); [|left].
  - intros x a b [Ha|Ha] Hb; simplify_eq; [by apply Hm|].
    destruct (decide (root = x)) as [->|Hne].
    + rewrite (Hm b Hb). by apply (Hi x a v); [|left].
    + by apply (Hi x a b); [|right].
Qed.

Lemma validate_lifetime_nil p :
  validate_lifetime p = [] → py_GeneratedAt p < py_ExpiresAt p <= py_GeneratedAt p + MaxCatalogSetLifetime ∧ py_GeneratedAt p ≠ 0.
Proof.
  unfold validate_lifetime. destruct (_ || _) eqn:Ez; [done|]. case_bool. destruct (py_GeneratedAt p <? py_ExpiresAt p) eqn:El; [|done].
  cbn. rewrite err_if_nil, Z.ltb_ge. apply Z.ltb_lt in El. unfold time_Sub, MaxCatalogSetLifetime, min_int, max_int. lia.
Qed.

Lemma ValidateCatalogSetPayload_ok p : ValidateCatalogSetPayload p = [] → payload_wf p.
Proof.
  unfold ValidateCatalogSetPayload, validate_references. autorewrite with errs.
  intros (_ & _ & _ & Hlife & _ & _ & Hne & Hle & ([Hrefs Htaps] & [_ Hdig] & [_ Hurl]) & Hagg & Hrne & Hrle & [Hres Hplat] & Hver &
    Hun & Hreach & Hcat).
  apply validate_lifetime_nil in Hlife as [Hlife Hgen]. apply Nat.ltb_ge in Hle, Hrle, Hun. apply Z.ltb_ge in Hagg.
  assert (∀ r, r ∈ py_Catalogs p → ValidateCatalogReference r = [] ∧ rf_PublishedAt r <= py_GeneratedAt p) as Hr.
  { intros r Hin. specialize (Hrefs r Hin). autorewrite with errs in Hrefs. destruct Hrefs as [Hv Hp]. split; [done|].
    destruct Hp as [?|Hp]; [done|]. by apply Z.ltb_ge in Hp. }
  split; try done; try lia.
  - change (total_size (py_Catalogs p)) with (0 + total_size (py_Catalogs p)).
    apply aggregate_total; [lia|done|]. intros r [Hv _]%Hr. unfold ValidateCatalogReference in Hv. autorewrite with errs in Hv.
    destruct Hv as (_ & _ & _ & ?%size_outside_false & _). lia.
  - intros r Hin%Hres. autorewrite with errs in Hin. by apply ValidatePlatformResult_ok.
  - intros root v w. by apply validate_versions_nil in Hver as [Hver _]; eapply Hver.
  - intros tap. split.
    + intros Ht. specialize (Hreach tap). rewrite elem_of_slices_Sort, elem_of_elements in Hreach. specialize (Hreach Ht).
      apply err_if_nil, bool_decide_eq_false, dec_stable in Hreach. by rewrite elem_of_list_to_set in Hreach.
    + intros Ht. specialize (Hcat tap). rewrite elem_of_slices_Sort, elem_of_elements, elem_of_list_to_set in Hcat.
      specialize (Hcat Ht). by apply err_if_nil, bool_decide_eq_false, dec_stable in Hcat.
Qed.

End validation.

(** ** The binding to a request *)

Section binding_facts.
Context `{U : !UnicodeTables, N : !NetURL, R : !DistributionReference, J : !RequestJSON, D : !Digester}.

Definition target_roots (t : PlatformRequest) : list string := pr_CoreRoots t ++ items (pr_ExternalRoots t).

Lemma requestedByPlatform_lookup targets :
  NoDup (target_key <$> targets) →
  (∀ k roots, requestedByPlatform targets !! k = Some roots ↔
     ∃ t, t ∈ targets ∧ target_key t = k ∧ roots = slices_Sort (target_roots t)) ∧
  size (requestedByPlatform targets) = length targets.
Proof.
  intros Hnd. unfold requestedByPlatform.
  assert (foldl (λ m t, <[target_key t:=slices_Sort (target_roots t)]> m) (∅ : gmap string (list string)) targets =
          list_to_map ((λ t, (target_key t, slices_Sort (target_roots t))) <$> reverse targets)) as Hm.
  { clear Hnd. induction targets as [|t l IH] using rev_ind; [done|]. rewrite foldl_snoc, reverse_snoc. cbn. by rewrite IH. }
  unfold target_roots in Hm. rewrite Hm. clear Hm.
  assert (NoDup (((λ t, (target_key t, slices_Sort (pr_CoreRoots t ++ items (pr_ExternalRoots t)))) <$> reverse targets).*1)) as Hnd'.
  { rewrite <-list_fmap_compose. change (NoDup (target_key <$> reverse targets)). by rewrite reverse_Permutation. }
  split.
  - intros k roots. rewrite <-elem_of_list_to_map by done. rewrite list_elem_of_fmap. setoid_rewrite elem_of_reverse.
    split; [intros (t & [= -> ->] & Ht)|intros (t & Ht & <- & ->)]; by exists t.
  - rewrite map_size_list_to_map by done. by rewrite length_fmap, length_reverse.
Qed.

Lemma check_results_ok requested l :
  check_results requested l = Ok tt ↔
  ∀ r, r ∈ l → requested !! Platform_key (rs_Platform r) = Some (slices_Sort (result_roots r)).
Proof.
  induction l as [|r l IH]; cbn [check_results]; [set_solver|]. setoid_rewrite elem_of_cons.
  destruct (requested !! _) as [roots|] eqn:E; [|split; [done|]; intros H; specialize (H r); naive_solver].
  rewrite bind_ok. setoid_rewrite check_ok. setoid_rewrite negb_false_iff. setoid_rewrite bool_decide_eq_true.
  setoid_rewrite IH. split.
  - intros ([] & <- & Hl) x [->|Hx]; [done|by apply Hl].
  - intros Hl. exists tt. split; [|naive_solver]. rewrite (Hl r) in E by naive_solver. congruence.
Qed.

Lemma Platform_key_inj p q : Platform_Validate p = true → Platform_Validate q = true → Platform_key p = Platform_key q → p = q.
Proof.
  unfold Platform_Validate, Platform_key. destruct p as [o a v], q as [o' a' v']. cbn.
  intros Hp Hq. case_bool. destruct_and?. subst. naive_solver.
Qed.

End binding_facts.

(** The codec reads back the canonical catalogs it writes. *)
Class TapCatalogJSONLaws `{N : !NetURL, U : !UnicodeTables, J : !TapCatalogJSON} : Prop := {
  tap_roundtrip c b : tap_catalog_wf c → canonicalizeTapCatalog c = c → encodeTapCatalog c = Some b → decodeTapCatalog b = Some c;
}.

Section served_facts.
Context `{U : !UnicodeTables, N : !NetURL, D : !Digester, J : !TapCatalogJSON}.

Lemma tapCatalogBytes_ok c data :
  tapCatalogBytes c = Ok data ↔
  tap_catalog_wf c ∧ encodeTapCatalog (canonicalizeTapCatalog c) = Some data ∧ strlen data <= MaxCatalogDocumentBytes.
Proof.
  unfold tapCatalogBytes. rewrite bind_ok. setoid_rewrite map_err_ok. split.
  - intros (k & Hk & Hd). assert (tap_catalog_wf c) as Hw.
    { apply ValidateTapCatalog_nil. unfold CanonicalTapCatalog in Hk. by destruct (ValidateTapCatalog c). }
    rewrite CanonicalTapCatalog_ok in Hk by done. injection Hk as <-. destruct (encodeTapCatalog _) as [b|]; [|done].
    apply bind_ok in Hd as (_ & Hl%check_ok & [= ->]). apply Z.ltb_ge in Hl. done.
  - intros (Hw & He & Hl). exists (canonicalizeTapCatalog c). split; [by apply CanonicalTapCatalog_ok|]. rewrite He.
    by rewrite (proj2 (Z.ltb_ge _ _) Hl).
Qed.

Lemma canonicalizeTapCatalog_stable c : tap_catalog_wf c → canonicalizeTapCatalog (canonicalizeTapCatalog c) = canonicalizeTapCatalog c.
Proof. intros Hw. symmetry. apply canonicalizeTapCatalog_unique; [done|apply canonicalizeTapCatalog_self]. Qed.

Lemma DecodeTapCatalog_canonical `{!TapCatalogJSONLaws} c data :
  tapCatalogBytes c = Ok data →
  DecodeTapCatalog data = Ok (canonicalizeTapCatalog c) ∧ tapCatalogBytes (canonicalizeTapCatalog c) = Ok data.
Proof.
  intros (Hw & He & Hl)%tapCatalogBytes_ok.
  assert (tap_catalog_wf (canonicalizeTapCatalog c)) as Hk by (eapply tap_catalog_wf_equiv; [apply canonicalizeTapCatalog_self|done]).
  pose proof (canonicalizeTapCatalog_stable c Hw) as Hs. split.
  - unfold DecodeTapCatalog. rewrite (proj2 (Z.ltb_ge _ _) Hl). cbn. erewrite tap_roundtrip by done.
    rewrite Hs. by rewrite (proj2 (ValidateTapCatalog_nil _) Hk).
  - apply tapCatalogBytes_ok. by rewrite Hs.
Qed.

End served_facts.

(** ** Properties *)

(** C27: A catalog set is accepted only while it is valid, for at most one day
    after it was generated, and then its payload is well formed: every
    result has a valid closure with exactly one bound artifact per node, the
    requested roots have one version over all platforms, the catalogs referenced
    are exactly those of the taps reached, each with its own digest and address,
    and their sizes together stay within the limit, computed without overflow. *)
Theorem ValidateCatalogSetAt_wf `{U : !UnicodeTables, N : !NetURL, R : !DistributionReference} p now
  (H : ValidateCatalogSetAt p now = Ok tt) :
  payload_wf p ∧ py_GeneratedAt p <= now < py_ExpiresAt p ∧ now < py_GeneratedAt p + MaxCatalogSetLifetime.
Proof.
  unfold ValidateCatalogSetAt in H. destruct (ValidateCatalogSetPayload p) eqn:Ep; [|done].
  apply ValidateCatalogSetPayload_ok in Ep. pose proof (pyw_lifetime _ Ep).
  apply bind_ok in H as (_ & _%check_ok & H). apply bind_ok in H as (_ & Hg%check_ok & He%check_ok).
  apply Z.ltb_ge in Hg. apply negb_false_iff, Z.ltb_lt in He. split; [done|]. lia.
Qed.

(** C28: A payload bound to a request answers that request and nothing else: it
    was made for the request's digest and core snapshot, it has exactly one
    result per requested platform, and the roots of each result are exactly the
    core and external roots asked for on that platform. *)
Theorem ValidateCatalogSetBinding_exact
  `{U : !UnicodeTables, N : !NetURL, R : !DistributionReference, J : !RequestJSON, D : !Digester} p request
  (H : ValidateCatalogSetBinding p request = Ok tt) :
  payload_wf p ∧ RequestDigest request = Some (py_RequestDigest p) ∧ py_CoreSnapshotDigest p = req_CoreSnapshotDigest request ∧
  ∃ targets, normalizedRequestTargets request = Ok targets ∧ targets_wf targets ∧
    rs_Platform <$> py_Results p ≡ₚ pr_Platform <$> targets ∧
    ∀ r t, r ∈ py_Results p → t ∈ targets → rs_Platform r = pr_Platform t → result_roots r ≡ₚ target_roots t.
Proof.
  unfold ValidateCatalogSetBinding in H.
  destruct (ValidateCatalogSetPayload p) eqn:Ep; [|done]. apply ValidateCatalogSetPayload_ok in Ep.
  destruct (ValidateRequest request) eqn:Er; [|done]. apply ValidateRequest_nil in Er. cbn in H.
  destruct (RequestDigest request) as [d|]; [|done]. cbn in H.
  apply bind_ok in H as (_ & Hd%check_ok & H). apply bind_ok in H as (_ & Hs%check_ok & H).
  apply bind_ok in H as (targets & Ht%map_err_ok & H). apply bind_ok in H as (_ & Hn%check_ok & H).
  apply negb_false_iff, bool_decide_eq_true in Hd, Hs, Hn.
  destruct (rqw_targets _ Er) as (targets' & Ht' & Hw). rewrite Ht in Ht'. injection Ht' as <-.
  destruct (requestedByPlatform_lookup targets) as [Hl Hz]; [apply Hw|]. rewrite check_results_ok in H.
  assert (∀ r, r ∈ py_Results p → Platform_Validate (rs_Platform r) = true) as Hpr by (intros r Hr; by apply rsw_platform, (pyw_result p)).
  assert (∀ t, t ∈ targets → Platform_Validate (pr_Platform t) = true) as Hpt by (intros t Hin; by apply tw_platform, (tsw_target _ Hw)).
  split_and!; [done|by f_equal|done|]. exists targets. split_and!; [done..| |].
  - apply NoDup_same_length.
    + apply (NoDup_fmap_1 Platform_key). rewrite <-list_fmap_compose. apply (pyw_platforms _ Ep).
    + apply (NoDup_fmap_1 Platform_key). rewrite <-list_fmap_compose. apply (tsw_platforms _ Hw).
    + intros x (r & -> & Hr)%list_elem_of_fmap. destruct (proj1 (Hl _ _) (H r Hr)) as (t & Hin & Hk & _).
      apply list_elem_of_fmap. exists t. split; [|done]. symmetry. apply Platform_key_inj; auto.
    + rewrite !length_fmap. congruence.
  - intros r t Hr Hin Heq. destruct (proj1 (Hl _ _) (H r Hr)) as (u & Hu & Hk & Hroots).
    assert (u = t) as ->; [|by apply slices_Sort_inj]. apply (NoDup_fmap_inj target_key targets); [apply Hw|done..|].
    unfold target_key. by rewrite <-Heq.
Qed.

(** What the service publishes, a client accepts: when a reference matches a
    catalog, reading the catalog's canonical bytes through that reference
    returns the canonical form of the catalog. *)
Theorem DecodeReferencedTapCatalog_roundtrip
  `{N : !NetURL, U : !UnicodeTables, D : !Digester, J : !TapCatalogJSON} (L : TapCatalogJSONLaws) r c data
  (Hv : VerifyCatalogReference r c = Ok tt) (Hd : tapCatalogBytes c = Ok data) :
  DecodeReferencedTapCatalog r data = Ok (canonicalizeTapCatalog c).
Proof.
  destruct (DecodeTapCatalog_canonical c data Hd) as [Hdec Hcan].
  pose proof (proj1 (tapCatalogBytes_ok _ _) Hcan) as (Hk & _).
  unfold VerifyCatalogReference in Hv. apply bind_ok in Hv as ([] & Hr & Hv). apply bind_ok in Hv as ([] & _ & Hv).
  apply bind_ok in Hv as (_ & Ht%check_ok & Hv). apply bind_ok in Hv as (_ & Hp%check_ok & Hv).
  apply bind_ok in Hv as (_ & Hs%check_ok & Hv). rewrite Hd in Hv. cbn [mbind result_bind] in Hv.
  apply bind_ok in Hv as (_ & Hz%check_ok & Hsha%check_ok).
  unfold DecodeReferencedTapCatalog, VerifyCatalogReference.
  rewrite Hr, Hz, Hsha, Hdec. cbn [mbind result_bind check]. rewrite Hcan. cbn [mbind result_bind].
  rewrite (bool_decide_true (data = data)) by done. rewrite (proj2 (ValidateTapCatalog_nil _) Hk).
  change (tc_Tap (canonicalizeTapCatalog c)) with (tc_Tap c).
  change (tc_PublishedAt (canonicalizeTapCatalog c)) with (tc_PublishedAt c).
  change (tc_Sequence (canonicalizeTapCatalog c)) with (tc_Sequence c).
  cbn [mbind result_bind check negb]. rewrite Ht, Hp, Hs. cbn [mbind result_bind check]. by rewrite Hz, Hsha.
Qed.

(** ** Example: a set for one platform *)

Module Example.

Import CatalogTap.Example.

Definition node (id name : string) (deps : list Requirement) : Node :=
  MkNode id "azure/tools" name id "1.0" 0 "1.0" 0 0 "MIT" false deps.

Definition closure : ClosureResult :=
  MkClosureResult (Some ["azure/tools/app"]) (Some [MkRequestedMapping "azure/tools/application" "azure/tools/app"])
    (Some ["azure/tools"])
    (Some [node "azure/tools/app" "app" [MkRequirement "lib" "azure/tools/lib" "1.0" 0 0 true]; node "azure/tools/lib" "lib" []])
    (Some ["azure/tools/lib"; "azure/tools/app"]).

Definition result : PlatformResult :=
  MkPlatformResult CatalogRequest.Example.amd64 closure
    (Some [CatalogArtifact.Example.lib; CatalogArtifact.Example.artifact "azure/tools/app" "all" CatalogRequest.Example.amd64]).

Definition reference : CatalogReference :=
  MkCatalogReference source 1 1 ("https://catalog.example.com/v1/catalogs/sha256/" +:+ CatalogRequest.Example.hex64) 7 digest.

Definition payload : CatalogSetPayload :=
  MkCatalogSetPayload CatalogSetSchemaVersion digest digest 10 1000 (MkComponentIdentity "service" "1" digest)
    (MkComponentIdentity "extractor" "1" digest) [reference] [result].

Definition request : Request :=
  MkRequest RequestSchemaVersion [MkPlatformRequest CatalogRequest.Example.amd64 (Some ["azure/tools/application"]) []]
    CatalogRequest.Example.hex40 digest [] [].

(** Codecs and a digest for these documents *)
Definition digester : Digester := {| digest_FromBytes _ := digest |}.

Definition requests : RequestJSON := {| encodeRequest _ := Some "request"; decodeRequest _ := None |}.

Definition catalog : TapCatalog := catalog_of [lib; app].

Definition catalogs : TapCatalogJSON :=
  {| encodeTapCatalog c := if bool_decide (c = canonicalizeTapCatalog catalog) then Some "catalog" else None;
     decodeTapCatalog b := if bool_decide (b = "catalog") then Some (canonicalizeTapCatalog catalog) else None |}.

Lemma catalogs_laws : @TapCatalogJSONLaws https_only ascii_tables catalogs.
Proof. split. intros c b _ _. cbn. case_bool_decide as Hc; [|done]. subst c. by intros [= <-]. Qed.

End Example.

Lemma ValidateCatalogSetAt_wf_witness :
  @ValidateCatalogSetAt ascii_tables https_only CatalogArtifact.Example.no_reference Example.payload 500 = Ok tt ∧
  @payload_wf ascii_tables https_only Example.payload.
Proof.
  assert (@ValidateCatalogSetAt ascii_tables https_only CatalogArtifact.Example.no_reference Example.payload 500 = Ok tt) as H
    by (vm_compute; reflexivity).
  split; [exact H|].
  exact (proj1 (@ValidateCatalogSetAt_wf ascii_tables https_only CatalogArtifact.Example.no_reference Example.payload 500 H)).
Defined.

Lemma ValidateCatalogSetBinding_exact_witness :
  @ValidateCatalogSetBinding ascii_tables https_only CatalogArtifact.Example.no_reference Example.requests Example.digester
    Example.payload Example.request = Ok tt ∧
  ∃ targets, normalizedRequestTargets Example.request = Ok targets ∧
    rs_Platform <$> py_Results Example.payload ≡ₚ pr_Platform <$> targets.
Proof.
  assert (@ValidateCatalogSetBinding ascii_tables https_only CatalogArtifact.Example.no_reference Example.requests
    Example.digester Example.payload Example.request = Ok tt) as H by (vm_compute; reflexivity).
  split; [exact H|].
  destruct (@ValidateCatalogSetBinding_exact ascii_tables https_only CatalogArtifact.Example.no_reference Example.requests
    Example.digester Example.payload Example.request H) as (_ & _ & _ & targets & Ht & _ & Hp & _).
  exists targets. split; [exact Ht|exact Hp].
Defined.

Lemma DecodeReferencedTapCatalog_roundtrip_witness :
  @VerifyCatalogReference ascii_tables https_only Example.digester Example.catalogs Example.reference Example.catalog = Ok tt ∧
  @DecodeReferencedTapCatalog ascii_tables https_only Example.digester Example.catalogs Example.reference "catalog" =
    Ok (canonicalizeTapCatalog Example.catalog).
Proof.
  assert (@VerifyCatalogReference ascii_tables https_only Example.digester Example.catalogs Example.reference Example.catalog
    = Ok tt) as H by (vm_compute; reflexivity).
  split; [exact H|].
  apply (@DecodeReferencedTapCatalog_roundtrip https_only ascii_tables Example.digester Example.catalogs Example.catalogs_laws
    Example.reference Example.catalog "catalog"); [exact H|vm_compute; reflexivity].
Defined.
