(* ===== verification/Jws.v ===== *)
(** * Signed envelopes: internal/homebrew/metadata, [jws.go] and [keys.go]

    Homebrew's metadata and the catalog sets of the catalog service arrive as
    JSON Web Signatures with an unencoded payload (RFC 7797), signed with RSA-PSS
    and SHA-512. [VerifyJWS] reads the flattened or the general form, checks
    every signature of a configured key, and demands the one of the required key.

    Raw JSON members are texts, as in the code ([json.RawMessage]); what
    encoding/json reads from a text is the class [JSONText]. Key parsing, RSA and
    SHA-512 are the class [SignatureLib]. *)

From S2P Require Import Prelude GoStrings Base64 JsonUnique FormulaId CatalogFields CatalogSet.
From stdpp Require Import options.
Open Scope Z_scope.

(** ** encoding/json on raw members

    [None] is an error. [null] reads as no object, no boolean, an empty string or
    an empty list. *)

Class JSONText := {
  json_tokens : string → decoder;
  json_object : string → option (option (gmap string string));
  json_string : string → option string;
  json_strings : string → option (list string);
  json_bool : string → option (option bool);
  json_array : string → option (list string);
  json_Marshal : gmap string string → option string;
}.

(** ** Keys *)

(** [rsa.PublicKey]; the modulus is a pointer. *)
Record PublicKey := MkPublicKey { pk_N : option Z; pk_E : Z }.

#[export] Instance PublicKey_eq_dec : EqDecision PublicKey.
Proof. solve_decision. Defined.

(** [pem.Decode] returns the type and bytes of the first block and the rest;
    [ParsePKIXPublicKey] a key that may not be RSA ([None]). *)
Class SignatureLib := {
  pem_Decode : string → option (string * string * string);
  x509_ParsePKIXPublicKey : string → option (option PublicKey);
  x509_ParsePKCS1PublicKey : string → option PublicKey;
  sha512_Sum : string → string;
  rsa_VerifyPSS : PublicKey → string → string → bool;
}.

Definition DefaultRequiredKeyID : string := "homebrew-1".
Definition JWSAlgorithmPS512 : string := "PS512".
Definition SnapshotSchema : string := "homebrew-metadata-snapshot/v1".
Definition FormulaEndpoint : string := "formula.jws.json".
Definition MigrationsEndpoint : string := "formula_tap_migrations.jws.json".

Definition homebrew1PublicKeyPEM : string :=
"-----BEGIN PUBLIC KEY-----
MIICIjANBgkqhkiG9w0BAQEFAAOCAg8AMIICCgKCAgEAyKoOYzp1rhwXISRi61BY
XBEr2PalSK8lEVOL2USy7mpy0OubOlFyujawyQcBcCn+uPOJ/WaK+POhNWcLLoiK
L2m8GViaQm7SMwdLKUXFgKSPHcG/1m6Vu+TNBKTfQqT60PjEYIrn5NW9ZrM0cUhK
REmsbeAMBevdSaW9UwY9iIhprrgovvT8SzKhF8ZOIZKXfJX4VNk0y/7VJYNuGGqH
3npxV7OKd4yTGRGqFcC9kJ84me3thiu0yqlOjASmfWIwIwcfp4j6BEM2LuqKd7yX
h51/O+MTthkuxV36moDKfdgdOFsvlCFkziaYLScCX9lOlmZHtOfJTAOXxTmM7qGr
wTGK0vhvTi8k9dBmH/dccredQBtPOfM/FEdeyakGLoTcDguiBS/4El3I2KtF6B2h
OGoBumR915/cI4drr5yPMduZ7gjs7ZEZnVkeVzic24TfUHpnOYzrhucNJtHMBDj9
6d1Gk82AhtuF9KlusLmCb6qXCWQSp/A4RZpN37E/p9q8rLp/7B/zp8X2TVvecPNy
BdMagdktdEqK7WPlYMcUp56JaOph8vqYoU+oGyCpWoLvcXFb75o4eefuu6Rs5SyM
c9JCCJ0DDFPjCRFnGPkvsKxFCzMFqH1jpWH0RQIrgmNVM5PO84iRH9YJsSPQzpMj
KvK/ZH4YgR9wNkBNagFo7lsCAwEAAQ==
-----END PUBLIC KEY-----
".

Inductive key_error := NoPEMBlock | PEMTrailing | KeyParse | KeyNotRSA | PEMType | KeySetEmpty | KeySetInvalid.

(** [KeySet]: the keys by their kid *)
Notation KeySet := (gmap string PublicKey).

Section keys.
Context `{S : !SignatureLib}.

Definition ParseRSAPublicKeyPEM (data : string) : result key_error PublicKey :=
  match pem_Decode data with
  | None => Err NoPEMBlock
  | Some (kind, block, rest) =>
      _ ← check (negb (bool_decide (strings_TrimSpace rest = ""))) PEMTrailing;
      if bool_decide (kind = "PUBLIC KEY") then
        match x509_ParsePKIXPublicKey block with
        | None => Err KeyParse
        | Some None => Err KeyNotRSA
        | Some (Some key) => Ok key
        end
      else if bool_decide (kind = "RSA PUBLIC KEY") then
        match x509_ParsePKCS1PublicKey block with None => Err KeyParse | Some key => Ok key end
      else Err PEMType
  end.

Definition bad_key (entry : string * PublicKey) : bool :=
  bool_decide (strings_TrimSpace entry.1 = "")
  || match pk_N entry.2 with None => true | Some n => n <=? 0 end || (pk_E entry.2 <? 3).

(** The keys of the map are never nil here; which of several bad keys is named
    depends on the order of iteration. *)
Definition NewKeySet (keys : gmap string PublicKey) : result key_error KeySet :=
  _ ← check (bool_decide (keys = ∅)) KeySetEmpty;
  _ ← check (existsb bad_key (map_to_list keys)) KeySetInvalid;
  Ok keys.

Definition parse_key (parsed : gmap string PublicKey) (entry : string * string) : result key_error (gmap string PublicKey) :=
  key ← ParseRSAPublicKeyPEM entry.2; Ok (<[entry.1 := key]> parsed).

Definition NewKeySetFromPEM (keys : gmap string string) : result key_error KeySet :=
  parsed ← foldM_res parse_key ∅ (map_to_list keys);
  NewKeySet parsed.

Definition DefaultKeySet : result key_error KeySet := NewKeySetFromPEM {[DefaultRequiredKeyID := homebrew1PublicKeyPEM]}.

Definition KeySet_IDs (k : KeySet) : list string := slices_Sort (map_to_list k).*1.

End keys.

(** ** The envelope *)

(** [UnknownSignaturePolicy]: a uint8 *)
Definition RejectUnknownSignatures : Z := 0.
Definition IgnoreUnknownSignatures : Z := 1.

Record VerificationPolicy := MkVerificationPolicy { vp_RequiredKeyID : string; vp_UnknownSignatures : Z }.

Record SignatureInfo := MkSignatureInfo {
  si_KeyID : string; si_Algorithm : string; si_Verified : bool; si_ProtectedDigest : string; si_SignatureDigest : string;
}.

Record VerifiedJWS := MkVerifiedJWS {
  vj_payload : string; vj_envelopeDigest : string; vj_payloadDigest : string; vj_signatures : list SignatureInfo;
}.

Record parsedJWSSignature := MkParsedSignature { ps_kid : string; ps_protected : string; ps_protectedJSON : string; ps_signature : string }.

Inductive jws_error :=
| JwsKeys (e : key_error) | JwsPolicy | InvalidJWS (what : string) | UnknownSigner (kid : string) | SignatureMismatch (kid : string)
| RequiredSignatureMissing (kid : string).

Definition normalized (p : VerificationPolicy) : result jws_error VerificationPolicy :=
  let required := if bool_decide (vp_RequiredKeyID p = "") then DefaultRequiredKeyID else vp_RequiredKeyID p in
  _ ← check (bool_decide (strings_TrimSpace required = "")) JwsPolicy;
  _ ← check (negb (vp_UnknownSignatures p =? RejectUnknownSignatures) && negb (vp_UnknownSignatures p =? IgnoreUnknownSignatures)) JwsPolicy;
  Ok (MkVerificationPolicy required (vp_UnknownSignatures p)).

(** A member of an object, empty when it is absent *)
Definition member (object : gmap string string) (field : string) : string := default "" (object !! field).

Definition is_set (raw : string) : bool := negb (bool_decide (raw = "")).

(** [decodeBase64URL] *)
Definition space_bytes : string := String "013" (String "010" (String "009" " ")).

Definition decodeBase64URL (value : string) : option string :=
  if strings_ContainsAny value ("+/" +:+ space_bytes) then None
  else base64_decode (strings_Contains value "=") value.

Section envelope.
Context `{J : !JSONText, S : !SignatureLib, D : !Digester}.

Definition decodeJSONObject (data : string) : result string (gmap string string) :=
  _ ← map_err (λ _, "duplicate or malformed JSON") (metadata_rejectDuplicateJSONKeys (json_tokens data));
  match json_object data with
  | None => Err "malformed JSON object"
  | Some None => Err "expected JSON object"
  | Some (Some object) => Ok object
  end.

Definition decodeString (raw field : string) : result string string :=
  if negb (is_set raw) then Err ("missing " +:+ field)
  else match json_string raw with None => Err (field +:+ " must be a string") | Some value => Ok value end.

(** A string member that must not be empty *)
Definition decode_non_empty (raw field : string) : result string string :=
  value ← decodeString raw field;
  _ ← check (bool_decide (value = "")) (field +:+ " is empty");
  Ok value.

Definition has_only (fields : list string) (object : gmap string string) : bool :=
  forallb (λ entry, bool_decide (entry.1 ∈ fields)) (map_to_list object).

(** The loop over the critical headers *)
Definition critical_step (protected : gmap string string) (st : gset string * bool) (name : string) : result string (gset string * bool) :=
  let '(seen, containsB64) := st in
  _ ← check (bool_decide (name = "")) "protected crit contains an empty name";
  _ ← check (bool_decide (name ∈ seen)) "protected crit contains a duplicate";
  _ ← check (bool_decide (protected !! name = None)) "critical header is not protected";
  _ ← check (negb (bool_decide (name = "b64"))) "unsupported critical header";
  Ok ({[name]} ∪ seen, true).

Definition check_algorithm (protected : gmap string string) : result string unit :=
  algorithm ← decodeString (member protected "alg") "protected alg";
  check (negb (bool_decide (algorithm = JWSAlgorithmPS512))) "protected alg must be PS512".

Definition check_unencoded (protected : gmap string string) : result string unit :=
  let rawB64 := member protected "b64" in
  _ ← check (negb (is_set rawB64)) "protected b64 is required";
  match json_bool rawB64 with
  | Some (Some encodedPayload) => check encodedPayload "protected b64 must be false"
  | _ => Err "protected b64 must be a boolean"
  end.

Definition check_critical (protected : gmap string string) : result string unit :=
  let rawCritical := member protected "crit" in
  _ ← check (negb (is_set rawCritical)) "protected crit is required";
  match json_strings rawCritical with
  | None => Err "protected crit must be a string array"
  | Some critical =>
      _ ← check (bool_decide (critical = [])) "protected crit is empty";
      '(_, containsB64) ← foldM_res (critical_step protected) (∅, false) critical;
      check (negb containsB64) "protected crit must contain b64"
  end.

Definition decode_unprotected (rawHeader : string) : result string (gmap string string) :=
  if is_set rawHeader then decodeJSONObject rawHeader else Ok ∅.

Definition shared_parameter (protected unprotected : gmap string string) : bool :=
  existsb (λ entry, bool_decide (is_Some (unprotected !! entry.1))) (map_to_list protected).

Definition signer_kid (protected unprotected : gmap string string) : result string string :=
  let kidRaw := match protected !! "kid" with Some raw => raw | None => member unprotected "kid" end in
  kid ← decodeString kidRaw "kid";
  _ ← check (bool_decide (strings_TrimSpace kid = "")) "kid is empty";
  Ok kid.

Definition parseJWSSignature (raw : string) : result string parsedJWSSignature :=
  object ← decodeJSONObject raw;
  _ ← check (negb (has_only ["protected"; "header"; "signature"] object)) "unsupported signature member";
  protectedEncoded ← decode_non_empty (member object "protected") "protected";
  match decodeBase64URL protectedEncoded with
  | None => Err "decode protected header"
  | Some protectedJSON =>
      protected ← decodeJSONObject protectedJSON;
      unprotected ← decode_unprotected (member object "header");
      _ ← check (shared_parameter protected unprotected) "header parameter appears in protected and unprotected headers";
      _ ← check_algorithm protected;
      _ ← check_unencoded protected;
      _ ← check_critical protected;
      kid ← signer_kid protected unprotected;
      signatureEncoded ← decode_non_empty (member object "signature") "signature";
      match decodeBase64URL signatureEncoded with
      | None => Err "decode signature"
      | Some signature => Ok (MkParsedSignature kid protectedEncoded protectedJSON signature)
      end
  end.

Definition verifyPS512 (key : PublicKey) (protected payload signature : string) : bool :=
  rsa_VerifyPSS key (sha512_Sum (protected +:+ "." +:+ payload)) signature.

(** The loop over the signatures *)
Record jws_state := MkJwsState { js_seenKids : gset string; js_verified : list SignatureInfo; js_required : bool }.

Definition signature_info (s : parsedJWSSignature) : SignatureInfo :=
  MkSignatureInfo (ps_kid s) JWSAlgorithmPS512 true (digest_FromBytes (ps_protectedJSON s)) (digest_FromBytes (ps_signature s)).

Definition verify_signature (keys : KeySet) (policy : VerificationPolicy) (payload : string) (st : jws_state) (raw : string)
    : result jws_error jws_state :=
  signature ← map_err InvalidJWS (parseJWSSignature raw);
  let kid := ps_kid signature in
  _ ← check (bool_decide (kid ∈ js_seenKids st)) (InvalidJWS "duplicate signature kid");
  let seen := {[kid]} ∪ js_seenKids st in
  match keys !! kid with
  | None =>
      if vp_UnknownSignatures policy =? IgnoreUnknownSignatures then Ok (MkJwsState seen (js_verified st) (js_required st))
      else Err (UnknownSigner kid)
  | Some key =>
      _ ← check (negb (verifyPS512 key (ps_protected signature) payload (ps_signature signature))) (SignatureMismatch kid);
      Ok (MkJwsState seen (js_verified st ++ [signature_info signature]) (js_required st || bool_decide (kid = vp_RequiredKeyID policy)))
  end.

(** The raw signatures of either form *)
Definition flattened (envelope : gmap string string) : gmap string string :=
  filter (λ entry, entry.1 ∈ ["protected"; "header"; "signature"] ∧ is_set entry.2 = true) envelope.

Definition envelope_signatures (envelope : gmap string string) : result jws_error (list string) :=
  let hasGeneral := is_set (member envelope "signatures") in
  let hasFlattened := is_set (member envelope "protected") || is_set (member envelope "header") || is_set (member envelope "signature") in
  _ ← check (Bool.eqb hasGeneral hasFlattened) (InvalidJWS "envelope must use exactly one of flattened or general serialization");
  if hasGeneral then
    match json_array (member envelope "signatures") with
    | None => Err (InvalidJWS "signatures must be an array")
    | Some [] => Err (InvalidJWS "signatures array is empty")
    | Some signatures => Ok signatures
    end
  else match json_Marshal (flattened envelope) with None => Err (InvalidJWS "marshal") | Some raw => Ok [raw] end.

Definition compareSignatureInfo : SignatureInfo → SignatureInfo → Z :=
  cmp_then (cmp_on si_KeyID strings_Compare) (cmp_on si_SignatureDigest strings_Compare).

Definition VerifyJWS (data : string) (keys : KeySet) (policy : VerificationPolicy) : result jws_error VerifiedJWS :=
  keys ← (if bool_decide (keys = ∅) then map_err JwsKeys DefaultKeySet else Ok keys);
  policy ← normalized policy;
  envelope ← map_err InvalidJWS (decodeJSONObject data);
  _ ← check (negb (has_only ["payload"; "signatures"; "protected"; "header"; "signature"] envelope)) (InvalidJWS "unsupported envelope member");
  payload ← map_err InvalidJWS (decodeString (member envelope "payload") "payload");
  signatures ← envelope_signatures envelope;
  st ← foldM_res (verify_signature keys policy payload) (MkJwsState ∅ [] false) signatures;
  _ ← check (negb (js_required st)) (RequiredSignatureMissing (vp_RequiredKeyID policy));
  Ok (MkVerifiedJWS payload (digest_FromBytes data) (digest_FromBytes payload) (slices_SortFunc compareSignatureInfo (js_verified st))).

(** ** The digest of a metadata snapshot *)

Definition digest_frame (value : string) : string := strconv_Itoa (strlen value) +:+ ":" +:+ value +:+ String "000" "".

(** What is written to the hash *)
Definition snapshot_frames (formulaDigest migrationsDigest : string) : string :=
  digest_frame SnapshotSchema +:+ digest_frame FormulaEndpoint +:+ digest_frame formulaDigest +:+
  digest_frame MigrationsEndpoint +:+ digest_frame migrationsDigest.

Definition snapshotDigest (formulaDigest migrationsDigest : string) : string :=
  digest_FromBytes (snapshot_frames formulaDigest migrationsDigest).

End envelope.

(** ** What a verified envelope proves *)

Section facts.
Context `{J : !JSONText, S : !SignatureLib, D : !Digester}.

(** The protected header of a signature says that the payload is signed as it
    stands, with the one supported algorithm, and has no other critical parameter. *)
Definition protected_header (s : parsedJWSSignature) : Prop :=
  ∃ protected, decodeBase64URL (ps_protected s) = Some (ps_protectedJSON s) ∧
    json_object (ps_protectedJSON s) = Some (Some protected) ∧
    json_string (member protected "alg") = Some JWSAlgorithmPS512 ∧
    json_bool (member protected "b64") = Some (Some false) ∧
    json_strings (member protected "crit") = Some ["b64"].

Lemma decodeJSONObject_ok data object :
  decodeJSONObject data = Ok object ↔ metadata_rejectDuplicateJSONKeys (json_tokens data) = Ok tt ∧ json_object data = Some (Some object).
Proof.
  unfold decodeJSONObject. rewrite bind_ok. split.
  - intros ([] & H%map_err_ok & Ho). destruct (json_object data) as [[o|]|]; by simplify_eq.
  - intros [H Ho]. exists tt. rewrite H, Ho. done.
Qed.

Lemma decodeString_ok raw field value : decodeString raw field = Ok value ↔ raw ≠ "" ∧ json_string raw = Some value.
Proof.
  unfold decodeString, is_set. case_bool_decide as Hr; cbn; [naive_solver|]. destruct (json_string raw); naive_solver.
Qed.

Lemma critical_ok protected critical st :
  critical ≠ [] → foldM_res (critical_step protected) (∅, false) critical = Ok st → critical = ["b64"].
Proof.
  assert (∀ st name st', critical_step protected st name = Ok st' → name = "b64" ∧ name ∉ st.1 ∧ st'.1 = {[name]} ∪ st.1) as Hstep.
  { intros [seen b] name st' H. unfold critical_step in H. res_inv H. case_bool. by subst. }
  intros Hne H. destruct critical as [|c cs]; [done|]. cbn [foldM_res] in H. apply bind_ok in H as (st1 & (-> & _ & H1)%Hstep & H).
  destruct cs as [|c' cs]; [done|]. cbn [foldM_res] in H. apply bind_ok in H as (st2 & (-> & H2 & _)%Hstep & _). set_solver.
Qed.

Lemma parse_protected raw s : parseJWSSignature raw = Ok s → protected_header s.
Proof.
  unfold parseJWSSignature. intros (object & _ & H)%bind_ok. apply bind_ok in H as ([] & _ & H).
  apply bind_ok in H as (pe & _ & H). destruct (decodeBase64URL pe) as [pj|] eqn:Hpe; [|done].
  apply bind_ok in H as (protected & [_ Hp]%decodeJSONObject_ok & H). apply bind_ok in H as (unprotected & _ & H).
  apply bind_ok in H as ([] & _ & H). apply bind_ok in H as ([] & Halg & H). apply bind_ok in H as ([] & Hb64 & H).
  apply bind_ok in H as ([] & Hcrit & H). apply bind_ok in H as (kid & _ & H). apply bind_ok in H as (se & _ & H).
  destruct (decodeBase64URL se) as [sg|]; [|done]. injection H as <-. exists protected. cbn. split_and!; [done..| | |].
  - unfold check_algorithm in Halg. apply bind_ok in Halg as (alg & [_ Ha]%decodeString_ok & Hc%check_ok). case_bool. by subst.
  - unfold check_unencoded in Hb64. apply bind_ok in Hb64 as ([] & _ & Hb).
    destruct (json_bool _) as [[[]|]|]; [|done..]. by apply check_ok in Hb.
  - unfold check_critical in Hcrit. apply bind_ok in Hcrit as ([] & _ & Hc). destruct (json_strings _) as [critical|]; [|done].
    apply bind_ok in Hc as ([] & Hne%check_ok & Hc). apply bind_ok in Hc as (st & Hf & _). apply critical_ok in Hf; [by subst|].
    by apply bool_decide_eq_false in Hne.
Qed.

(** What [VerifyJWS] checks of one signature: a known key verifies it over the
    payload; an unknown one is let through only when the policy says so. *)
Definition checked (keys : KeySet) (policy : VerificationPolicy) (payload : string) (s : parsedJWSSignature) : Prop :=
  protected_header s ∧
  match keys !! ps_kid s with
  | Some key => verifyPS512 key (ps_protected s) payload (ps_signature s) = true
  | None => vp_UnknownSignatures policy = IgnoreUnknownSignatures
  end.

Definition known (keys : KeySet) (s : parsedJWSSignature) : Prop := is_Some (keys !! ps_kid s).

#[local] Instance known_dec keys s : Decision (known keys s).
Proof. apply _. Defined.

Record verified_so_far (keys : KeySet) (policy : VerificationPolicy) (payload : string) (raws : list string) (st : jws_state)
    (sigs : list parsedJWSSignature) : Prop := {
  vsf_parsed : Forall2 (λ raw s, parseJWSSignature raw = Ok s) raws sigs;
  vsf_kids : NoDup (ps_kid <$> sigs);
  vsf_seen : js_seenKids st = list_to_set (ps_kid <$> sigs);
  vsf_checked : Forall (checked keys policy payload) sigs;
  vsf_infos : js_verified st = signature_info <$> filter (known keys) sigs;
  vsf_required : js_required st = true ↔ vp_RequiredKeyID policy ∈ ps_kid <$> filter (known keys) sigs;
}.

Lemma verify_signature_step keys policy payload raws st sigs raw st' :
  verified_so_far keys policy payload raws st sigs → verify_signature keys policy payload st raw = Ok st' →
  ∃ s, verified_so_far keys policy payload (raws ++ [raw]) st' (sigs ++ [s]).
Proof.
  intros [Hp Hk Hs Hc Hi Hr] H. unfold verify_signature in H. apply bind_ok in H as (s & Hparse%map_err_ok & H).
  apply bind_ok in H as ([] & Hdup%check_ok & H). apply bool_decide_eq_false in Hdup. rewrite Hs, elem_of_list_to_set in Hdup.
  exists s. assert (NoDup (ps_kid <$> sigs ++ [s])) as Hk'.
  { rewrite fmap_app. apply NoDup_app. split_and!; [done| |apply NoDup_singleton]. intros x Hx Hx'. cbn in Hx'.
    apply list_elem_of_singleton in Hx'. by subst. }
  assert (Forall2 (λ raw s, parseJWSSignature raw = Ok s) (raws ++ [raw]) (sigs ++ [s])) as Hp'
    by (apply Forall2_app; [done|by repeat constructor]).
  assert ({[ps_kid s]} ∪ js_seenKids st = list_to_set (ps_kid <$> sigs ++ [s])) as Hs'
    by (rewrite Hs, fmap_app, list_to_set_app_L; cbn; set_solver).
  pose proof (parse_protected _ _ Hparse) as Hprot. destruct (keys !! ps_kid s) as [key|] eqn:Hkey.
  - apply bind_ok in H as ([] & Hv%check_ok & [= <-]). apply negb_false_iff in Hv.
    assert (filter (known keys) (sigs ++ [s]) = filter (known keys) sigs ++ [s]) as Hf
      by (rewrite filter_app, (filter_cons_True _ s) by (unfold known; rewrite Hkey; done); done).
    split; cbn; [done|done|done| | |].
    + apply Forall_app. split; [done|]. repeat constructor; [done|]. by rewrite Hkey.
    + by rewrite Hf, Hi, fmap_app.
    + rewrite Hf, fmap_app, elem_of_app, orb_true_iff, Hr, bool_decide_eq_true. cbn. rewrite list_elem_of_singleton. naive_solver.
  - destruct (vp_UnknownSignatures policy =? IgnoreUnknownSignatures) eqn:Hun; [|done]. injection H as <-.
    assert (filter (known keys) (sigs ++ [s]) = filter (known keys) sigs) as Hf.
    { rewrite filter_app, filter_cons_False, app_nil_r; [done|]. unfold known. rewrite Hkey. by intros []. }
    split; cbn; rewrite ?Hf; try done. apply Forall_app. split; [done|]. repeat constructor; [done|]. rewrite Hkey. by apply Z.eqb_eq.
Qed.

Lemma verify_signatures keys policy payload raws st :
  foldM_res (verify_signature keys policy payload) (MkJwsState ∅ [] false) raws = Ok st →
  ∃ sigs, verified_so_far keys policy payload raws st sigs.
Proof.
  apply (foldM_res_inv (λ raws st, ∃ sigs, verified_so_far keys policy payload raws st sigs)).
  - exists []. split; cbn; [constructor|by apply NoDup_nil|done|constructor|done|]. split; [done|]. by intros ?%not_elem_of_nil.
  - intros visited raw s s' [sigs Hv] _ Hs. destruct (verify_signature_step _ _ _ _ _ _ _ _ Hv Hs) as [x Hx]. by eexists.
Qed.

Lemma VerifyJWS_steps data keys policy v :
  keys ≠ ∅ → VerifyJWS data keys policy = Ok v →
  ∃ envelope policy' raws sigs st, metadata_rejectDuplicateJSONKeys (json_tokens data) = Ok tt ∧ json_object data = Some (Some envelope) ∧
    json_string (member envelope "payload") = Some (vj_payload v) ∧ normalized policy = Ok policy' ∧
    envelope_signatures envelope = Ok raws ∧ verified_so_far keys policy' (vj_payload v) raws st sigs ∧ js_required st = true ∧
    vj_envelopeDigest v = digest_FromBytes data ∧ vj_payloadDigest v = digest_FromBytes (vj_payload v) ∧
    vj_signatures v = slices_SortFunc compareSignatureInfo (js_verified st).
Proof.
  intros Hk H. unfold VerifyJWS in H. rewrite bool_decide_eq_false_2 in H by done. cbn in H.
  apply bind_ok in H as (policy' & Hpol & H). apply bind_ok in H as (envelope & [Hu Ho]%map_err_ok%decodeJSONObject_ok & H).
  apply bind_ok in H as ([] & _ & H). apply bind_ok in H as (payload & [_ Hp]%map_err_ok%decodeString_ok & H).
  apply bind_ok in H as (raws & Hraws & H). apply bind_ok in H as (st & [sigs Hst]%verify_signatures & H).
  apply bind_ok in H as ([] & Hreq%check_ok%negb_false_iff & [= <-]). by exists envelope, policy', raws, sigs, st.
Qed.

Lemma normalized_ok policy policy' :
  normalized policy = Ok policy' →
  vp_RequiredKeyID policy' = (if bool_decide (vp_RequiredKeyID policy = "") then DefaultRequiredKeyID else vp_RequiredKeyID policy) ∧
  vp_UnknownSignatures policy' = vp_UnknownSignatures policy.
Proof. unfold normalized. intros H. res_inv H. done. Qed.

(** Frames can be read back one by one, so a snapshot has one preimage. *)
Lemma frame_colon a x b y :
  all_bytes isDigit a = true → all_bytes isDigit b = true → a +:+ String ":" x = b +:+ String ":" y → a = b ∧ x = y.
Proof.
  revert b. induction a as [|c a IH]; intros [|d b] Ha Hb; cbn in *; intros H.
  - by injection H.
  - injection H as <- _. by apply andb_true_iff in Hb as [? _].
  - injection H as -> _. by apply andb_true_iff in Ha as [? _].
  - injection H as -> H. apply andb_true_iff in Ha as [_ Ha], Hb as [_ Hb]. destruct (IH b Ha Hb H) as [-> ->]. done.
Qed.

Lemma app_same_length a b x y : strlen a = strlen b → a +:+ x = b +:+ y → a = b ∧ x = y.
Proof.
  revert b. induction a as [|c a IH]; intros [|d b]; cbn; rewrite ?strlen_nil, ?strlen_cons; intros Hl H.
  - done.
  - pose proof (strlen_nonneg b). lia.
  - pose proof (strlen_nonneg a). lia.
  - injection H as -> H. destruct (IH b) as [-> ->]; [lia|done|done].
Qed.

Lemma digest_frame_inj a b x y : digest_frame a +:+ x = digest_frame b +:+ y → a = b ∧ x = y.
Proof.
  unfold digest_frame. rewrite !app_assoc_str. cbn [String.append]. intros H.
  pose proof (strlen_nonneg a). pose proof (strlen_nonneg b).
  apply frame_colon in H as [Hl H]; [|by apply Itoa_digits..].
  assert (strlen a = strlen b) as Hab by (rewrite <-(Itoa_value (strlen a)), Hl; [by apply Itoa_value|done]).
  apply app_same_length in H as [-> H]; [|done]. rewrite !app_cons_str, !app_nil_l_str in H. by injection H as ->.
Qed.

End facts.

(** C5: a payload [VerifyJWS] returns was signed by the required key: the envelope
    is JSON without repeated members, the payload is its payload member, some
    signature of the envelope names the required key and the configured key of
    that name verifies it over the protected header and the payload. No two
    signatures name one key, every signature of a configured key verified, one of
    an unknown key is let through only if the policy ignores those, and every
    protected header fixes PS512, an unencoded payload and no other critical
    parameter. The reported signatures are exactly the verified ones. *)
Theorem VerifyJWS_authentic `{J : !JSONText, S : !SignatureLib, D : !Digester} data keys policy v
  (Hkeys : keys ≠ ∅) (Hok : VerifyJWS data keys policy = Ok v) :
  ∃ envelope raws sigs policy', normalized policy = Ok policy' ∧
    metadata_rejectDuplicateJSONKeys (json_tokens data) = Ok tt ∧ json_object data = Some (Some envelope) ∧
    json_string (member envelope "payload") = Some (vj_payload v) ∧
    envelope_signatures envelope = Ok raws ∧ Forall2 (λ raw s, parseJWSSignature raw = Ok s) raws sigs ∧ NoDup (ps_kid <$> sigs) ∧
    Forall (checked keys policy' (vj_payload v)) sigs ∧
    (∃ s key, s ∈ sigs ∧ ps_kid s = vp_RequiredKeyID policy' ∧ keys !! ps_kid s = Some key ∧
       rsa_VerifyPSS key (sha512_Sum (ps_protected s +:+ "." +:+ vj_payload v)) (ps_signature s) = true) ∧
    (∀ i, i ∈ vj_signatures v ↔ ∃ s, s ∈ sigs ∧ is_Some (keys !! ps_kid s) ∧ i = signature_info s).
Proof.
  destruct (VerifyJWS_steps _ _ _ _ Hkeys Hok) as (envelope & policy' & raws & sigs & st & Hu & Ho & Hp & Hpol & Hr & Hv & Hreq & _ & _ & Hs).
  exists envelope, raws, sigs, policy'. destruct Hv as [Hv1 Hv2 _ Hv4 Hv5 Hv6]. split_and!; try done.
  - apply Hv6 in Hreq. apply list_elem_of_fmap in Hreq as (s & Hkid & [[key Hkey] Hin]%list_elem_of_filter).
    exists s, key. split_and!; [done..|]. eapply Forall_forall in Hv4 as [_ Hc]; [|exact Hin]. by rewrite Hkey in Hc.
  - intros i. rewrite Hs, (SortFunc_Permutation compareSignatureInfo), Hv5, list_elem_of_fmap. unfold known. setoid_rewrite list_elem_of_filter. naive_solver.
Qed.

(** The digest of a snapshot binds both of its parts: different parts are hashed
    as different texts. *)
Theorem snapshot_frames_inj f m f' m' : snapshot_frames f m = snapshot_frames f' m' → f = f' ∧ m = m'.
Proof.
  unfold snapshot_frames. intros H. apply digest_frame_inj in H as [_ H]. apply digest_frame_inj in H as [_ H].
  apply digest_frame_inj in H as [-> H]. apply digest_frame_inj in H as [_ H].
  rewrite <-(app_nil_r_str (digest_frame m)), <-(app_nil_r_str (digest_frame m')) in H. by apply digest_frame_inj in H as [-> _].
Qed.

(** ** A signed envelope *)

(** Texts for one envelope: strings are written with a mark, the objects are listed. *)
Module JwsExample.

Definition key : PublicKey := MkPublicKey (Some (2 ^ 2047)) 65537.

Definition kid : string := "catalog-1".
Definition protectedJSON : string := "{protected}".
Definition protected : string := base64_encode protectedJSON.
Definition payload : string := "payload".
Definition signature : string := "signed:" +:+ protected +:+ "." +:+ payload.

Definition header : gmap string string :=
  {["alg" := "=PS512"; "b64" := "false"; "crit" := "[b64]"; "kid" := "=" +:+ kid]}.
Definition flat : gmap string string := {["protected" := "=" +:+ protected; "signature" := "=" +:+ base64_encode signature]}.
Definition envelope : gmap string string := <["payload" := "=" +:+ payload]> flat.

Definition objects : gmap string (gmap string string) :=
  {["{protected}" := header; "{flat}" := flat; "{envelope}" := envelope; "{}" := ∅]}.

Definition unmark (raw : string) : option string := match raw with String "=" value => Some value | _ => None end.

Definition texts : JSONText :=
  {| json_tokens _ := MkDecoder [TOther] false;
     json_object raw := Some <$> objects !! raw;
     json_string := unmark;
     json_strings raw := if bool_decide (raw = "[b64]") then Some ["b64"] else None;
     json_bool raw := if bool_decide (raw = "false") then Some (Some false) else None;
     json_array _ := None;
     json_Marshal m := fst <$> find (λ p, bool_decide (p.2 = m)) (map_to_list objects) |}.

Definition signatures : SignatureLib :=
  {| pem_Decode _ := None; x509_ParsePKIXPublicKey _ := None; x509_ParsePKCS1PublicKey _ := None; sha512_Sum s := s;
     rsa_VerifyPSS k digest sig := bool_decide (k = key) && bool_decide (sig = "signed:" +:+ digest) |}.

Definition digester : Digester := {| digest_FromBytes s := "digest:" +:+ s |}.

Definition policy : VerificationPolicy := MkVerificationPolicy kid RejectUnknownSignatures.
Definition keys : KeySet := {[kid := key]}.

Definition verified : VerifiedJWS :=
  MkVerifiedJWS payload "digest:{envelope}" ("digest:" +:+ payload)
    [signature_info (D := digester) (MkParsedSignature kid protected protectedJSON signature)].

Lemma accepted : VerifyJWS (J := texts) (S := signatures) (D := digester) "{envelope}" keys policy = Ok verified.
Proof. vm_compute. reflexivity. Qed.

End JwsExample.

Lemma VerifyJWS_authentic_witness :
  ∃ s, ps_kid s = JwsExample.kid ∧
    rsa_VerifyPSS (SignatureLib := JwsExample.signatures) JwsExample.key
      (sha512_Sum (SignatureLib := JwsExample.signatures) (ps_protected s +:+ "." +:+ "payload")) (ps_signature s) = true.
Proof.
  assert (JwsExample.keys ≠ ∅) as Hk by apply insert_non_empty.
  destruct (VerifyJWS_authentic (J := JwsExample.texts) (S := JwsExample.signatures) (D := JwsExample.digester) "{envelope}" JwsExample.keys
    JwsExample.policy JwsExample.verified Hk JwsExample.accepted)
    as (envelope & raws & sigs & policy' & Hpol & _ & _ & _ & _ & _ & _ & _ & (s & key & _ & Hkid & Hkey & Hv) & _).
  vm_compute in Hpol. injection Hpol as <-. cbn in Hkid. exists s. split; [done|].
  rewrite Hkid in Hkey. unfold JwsExample.keys in Hkey. rewrite lookup_singleton_eq in Hkey. injection Hkey as <-. exact Hv.
Defined.
