(* ===== verification/CatalogKeys.v ===== *)
(** * internal/catalogkeys: who may sign a catalog set

    The release pins a policy: the RSA keys of the catalog service, the key that
    must sign, the keys accepted beside it while keys are exchanged, the service
    and extractor builds that may appear in a payload, and a smallest sequence
    number per tap. *)

From S2P Require Import Prelude GoStrings NetUrl JsonUnique FormulaId Resolution ClosureGraph CatalogFields CatalogRequest CatalogSet Jws.
From stdpp Require Import options.
Open Scope Z_scope.

Module catalogkeys.

Definition SchemaVersion : string := "dalec-homebrew-catalog-key-policy/v1".
Definition MaxPolicyBytes : Z := Z.shiftl 1 20.
Definition CatalogSetJWSAlgorithm : string := "PS512".

Record SequenceFloor := MkSequenceFloor { sf_Tap : string; sf_Minimum : Z }.

Record Key := MkKey { ky_ID : string; ky_Algorithm : string; ky_PublicPEM : string }.

Record Policy := MkPolicy {
  kp_SchemaVersion : string; kp_RequiredKeyID : string; kp_OverlapKeyIDs : list string; kp_Keys : list Key;
  kp_CatalogServiceDigests : list string; kp_CatalogExtractorDigests : list string; kp_AllowUnknownOverlapSigners : bool;
  kp_SequenceFloors : list SequenceFloor;
}.

#[export] Instance SequenceFloor_eq_dec : EqDecision SequenceFloor.
Proof. solve_decision. Defined.
#[export] Instance Key_eq_dec : EqDecision Key.
Proof. solve_decision. Defined.
#[export] Instance Policy_eq_dec : EqDecision Policy.
Proof. solve_decision. Defined.

(** [x509.MarshalPKIXPublicKey] *)
Class PublicKeyEncoding := { x509_MarshalPKIXPublicKey : PublicKey → option string }.

(** encoding/json on policies: the printed form and the strict decoder *)
Class PolicyJSON := { policy_tokens : string → decoder; encodePolicy : Policy → option string; decodePolicy : string → option Policy }.

(** ** Tokens *)

Definition token_rune (r : Z) : bool :=
  ((97 <=? r) && (r <=? 122)) || ((65 <=? r) && (r <=? 90)) || ((48 <=? r) && (r <=? 57)) || (r =? 46) || (r =? 95) || (r =? 45).

Definition safeToken (value : string) : bool :=
  negb (bool_decide (value = "") || (128 <? strlen value)) && forallb (λ p, token_rune p.1) (utf8_decode value).

Definition ValidateKeyID (value : string) : bool := safeToken value.

(** ** Validation *)

(** [value <= previous] for each element but the first *)
Fixpoint unsorted (label : string) (values : list string) : list string :=
  match values with
  | a :: (b :: _) as rest => err_if (String.leb b a) label ++ unsorted label rest
  | _ => []
  end.

(** [big.Int.BitLen] *)
Definition BitLen (n : Z) : Z := if n =? 0 then 0 else Z.log2 (Z.abs n) + 1.

Definition modulus_bits (key : PublicKey) : Z := match pk_N key with Some n => BitLen n | None => 0 end.

Definition too_small (key : PublicKey) : bool := (modulus_bits key <? 2048) || ((modulus_bits key - 1 + 7) / 8 <? 2 * 64 + 2).

Section validate.
Context `{U : !UnicodeTables, G : !GoDigest, S : !SignatureLib, P : !PublicKeyEncoding, D : !Digester}.

(** The material of a key; fingerprints are only compared with each other. *)
Definition key_material (seenKeyMaterial : gmap string string) (key : Key) : list string * gmap string string :=
  match ParseRSAPublicKeyPEM (ky_PublicPEM key) with
  | Err _ => (["key cannot be parsed"], seenKeyMaterial)
  | Ok publicKey =>
      if too_small publicKey then (["RSA modulus is too small for PS512"], seenKeyMaterial)
      else match x509_MarshalPKIXPublicKey publicKey with
           | None => (["key cannot be encoded"], seenKeyMaterial)
           | Some der =>
               let fingerprint := digest_FromBytes der in
               match seenKeyMaterial !! fingerprint with
               | Some _ => (["keys contain identical public key material"], seenKeyMaterial)
               | None => ([], <[fingerprint := ky_ID key]> seenKeyMaterial)
               end
           end
  end.

Definition check_key (seen : gset string) (key : Key) : list string :=
  err_if (negb (safeToken (ky_ID key))) "key id is empty or unsafe" ++
  err_if (negb (bool_decide (ky_Algorithm key = CatalogSetJWSAlgorithm))) "key algorithm is not PS512" ++
  err_if (bool_decide (ky_ID key ∈ seen)) "duplicate key ID".

Fixpoint validate_keys (seen : gset string) (material : gmap string string) (keys : list Key) : list string :=
  match keys with
  | [] => []
  | key :: keys =>
      let '(errs, material) := key_material material key in
      check_key seen key ++ errs ++ validate_keys ({[ky_ID key]} ∪ seen) material keys
  end.

Definition key_ids (p : Policy) : list string := ky_ID <$> kp_Keys p.

(** A later key of the same ID replaces the earlier one. *)
Definition key_pem (p : Policy) : gmap string string := foldl (λ m key, <[ky_ID key := ky_PublicPEM key]> m) ∅ (kp_Keys p).

Definition validate_overlap (p : Policy) (keyID : string) : list string :=
  err_if (negb (safeToken keyID)) "overlap key is empty or unsafe" ++
  err_if (bool_decide (keyID = kp_RequiredKeyID p)) "overlap key duplicates required_key_id" ++
  err_if (negb (bool_decide (keyID ∈ key_ids p))) "overlap key is absent from keys".

Definition validate_digests (values : list string) : list string :=
  (values ≫= λ value, err_if (negb (digest_valid value && bool_decide (digest_Algorithm value = "sha256"))) "invalid sha256 digest") ++
  unsorted "digests must be sorted and unique" values.

Definition validate_floor (floor : SequenceFloor) : list string :=
  err_if (negb (TapID_Validate (sf_Tap floor)) || TapID_IsCore (sf_Tap floor) || (sf_Minimum floor =? 0)) "sequence floor is invalid".

Definition Validate (p : Policy) : list string :=
  err_if (negb (bool_decide (kp_SchemaVersion p = SchemaVersion))) "unsupported schema_version" ++
  err_if (negb (safeToken (kp_RequiredKeyID p))) "required_key_id is empty or unsafe" ++
  err_if (bool_decide (kp_Keys p = [])) "keys must be non-empty" ++
  validate_keys ∅ ∅ (kp_Keys p) ++
  err_if (negb (bool_decide (kp_RequiredKeyID p ∈ key_ids p))) "required key is absent" ++
  (kp_OverlapKeyIDs p ≫= validate_overlap p) ++ unsorted "overlap_key_ids must be sorted and unique" (kp_OverlapKeyIDs p) ++
  err_if (negb (is_ok (NewKeySetFromPEM (key_pem p)))) "keys do not form a key set" ++
  err_if (bool_decide (kp_CatalogServiceDigests p = []) || bool_decide (kp_CatalogExtractorDigests p = []))
    "catalog service and extractor authorization sets must be non-empty" ++
  validate_digests (kp_CatalogServiceDigests p) ++ validate_digests (kp_CatalogExtractorDigests p) ++
  (kp_SequenceFloors p ≫= validate_floor) ++
  unsorted "sequence_floors must be sorted and unique by tap" (sf_Tap <$> kp_SequenceFloors p).

(** ** Canonical form, digest and decoding *)

Definition canonicalize (p : Policy) : Policy :=
  MkPolicy (kp_SchemaVersion p) (kp_RequiredKeyID p) (slices_Sort (kp_OverlapKeyIDs p)) (sort_by ky_ID (kp_Keys p))
    (slices_Sort (kp_CatalogServiceDigests p)) (slices_Sort (kp_CatalogExtractorDigests p)) (kp_AllowUnknownOverlapSigners p)
    (sort_by sf_Tap (kp_SequenceFloors p)).

Inductive policy_error :=
| PolicySize | PolicyJSONUnique (e : json_error) | PolicyUndecodable | PolicyInvalid (errs : list string) | PolicyEncoding | PolicyNotCanonical.

Definition valid (p : Policy) : result policy_error unit :=
  match Validate p with [] => Ok tt | errs => Err (PolicyInvalid errs) end.

Context `{J : !PolicyJSON}.

Definition Canonical (p : Policy) : result policy_error string :=
  let clone := canonicalize p in
  _ ← valid clone;
  match encodePolicy clone with None => Err PolicyEncoding | Some data => Ok data end.

Definition Digest (p : Policy) : result policy_error string := data ← Canonical p; Ok (digest_FromBytes data).

Definition Decode (data : string) : result policy_error Policy :=
  _ ← check (bool_decide (data = "") || (MaxPolicyBytes <? strlen data)) PolicySize;
  _ ← map_err PolicyJSONUnique (catalogkeys_validateUniqueJSON (policy_tokens data));
  match decodePolicy data with
  | None => Err PolicyUndecodable
  | Some policy =>
      let policy := canonicalize policy in
      _ ← valid policy;
      canonical ← Canonical policy;
      _ ← check (negb (bool_decide (strings_TrimSpace data = canonical))) PolicyNotCanonical;
      Ok policy
  end.

(** ** What the policy grants *)

Definition Policy_KeySet (p : Policy) : option KeySet :=
  match Validate p with
  | [] => match NewKeySetFromPEM (key_pem p) with Ok keys => Some keys | Err _ => None end
  | _ => None
  end.

Definition AcceptedKeyIDs (p : Policy) : list string := kp_RequiredKeyID p :: kp_OverlapKeyIDs p.

Inductive authorize_error := AuthorizePolicy (errs : list string) | ServiceNotAuthorized | ExtractorNotAuthorized.

Definition AuthorizePayload (p : Policy) (payload : CatalogSetPayload) : result authorize_error unit :=
  match Validate p with
  | [] =>
      _ ← check (negb (bool_decide (ci_Digest (py_CatalogService payload) ∈ kp_CatalogServiceDigests p))) ServiceNotAuthorized;
      check (negb (bool_decide (ci_Digest (py_Extractor payload) ∈ kp_CatalogExtractorDigests p))) ExtractorNotAuthorized
  | errs => Err (AuthorizePolicy errs)
  end.

Definition MinimumSequences (p : Policy) : gmap string Z := foldl (λ m floor, <[sf_Tap floor := sf_Minimum floor]> m) ∅ (kp_SequenceFloors p).

End validate.
End catalogkeys.

Import catalogkeys.

(** ** What a valid policy guarantees *)

Section specification.
Context `{U : !UnicodeTables, G : !GoDigest, S : !SignatureLib, P : !PublicKeyEncoding, D : !Digester}.

(** An RSA key large enough for PS512, and its fingerprint *)
Definition good_material (key : Key) (fingerprint : string) : Prop :=
  ∃ publicKey der, ParseRSAPublicKeyPEM (ky_PublicPEM key) = Ok publicKey ∧ 2048 <= modulus_bits publicKey ∧
    x509_MarshalPKIXPublicKey publicKey = Some der ∧ fingerprint = digest_FromBytes der.

Definition strictly_sorted (values : list string) : Prop := StronglySorted String.le values ∧ NoDup values.

Definition digest_set (values : list string) : Prop :=
  values ≠ [] ∧ strictly_sorted values ∧ ∀ v, v ∈ values → digest_valid v = true ∧ digest_Algorithm v = "sha256".

Record policy_wf (p : Policy) : Prop := {
  kpw_schema : kp_SchemaVersion p = SchemaVersion;
  kpw_required : safeToken (kp_RequiredKeyID p) = true ∧ kp_RequiredKeyID p ∈ key_ids p;
  kpw_ids : NoDup (key_ids p);
  kpw_key k : k ∈ kp_Keys p → safeToken (ky_ID k) = true ∧ ky_Algorithm k = CatalogSetJWSAlgorithm;
  kpw_material : ∃ fingerprints, Forall2 good_material (kp_Keys p) fingerprints ∧ NoDup fingerprints;
  kpw_overlap : strictly_sorted (kp_OverlapKeyIDs p);
  kpw_overlap_key id : id ∈ kp_OverlapKeyIDs p → id ∈ key_ids p ∧ id ≠ kp_RequiredKeyID p ∧ safeToken id = true;
  kpw_key_set : is_ok (NewKeySetFromPEM (key_pem p)) = true;
  kpw_services : digest_set (kp_CatalogServiceDigests p);
  kpw_extractors : digest_set (kp_CatalogExtractorDigests p);
  kpw_floors : strictly_sorted (sf_Tap <$> kp_SequenceFloors p);
  kpw_floor f : f ∈ kp_SequenceFloors p → TapID_Validate (sf_Tap f) = true ∧ TapID_IsCore (sf_Tap f) = false ∧ sf_Minimum f ≠ 0;
}.

End specification.

Section facts.
Context `{U : !UnicodeTables, G : !GoDigest, S : !SignatureLib, P : !PublicKeyEncoding, D : !Digester}.

Lemma leb_le a b : String.leb a b = true ↔ String.le a b.
Proof. symmetry. apply Is_true_true. Qed.

Lemma unsorted_nil label l : unsorted label l = [] ↔ strictly_sorted l.
Proof.
  unfold strictly_sorted. induction l as [|a [|b l] IH].
  - split; [|done]. intros _. split; [constructor|by apply NoDup_nil].
  - split; [|done]. intros _. split; [repeat constructor|apply NoDup_singleton].
  - cbn [unsorted]. rewrite app_nil_iff, err_if_nil, IH. split.
    + intros (Hab & Hs & Hn). rewrite <-not_true_iff_false, leb_le in Hab. assert (String.le a b) as Hle by (by destruct (total String.le a b)).
      apply StronglySorted_inv in Hs as Hs'. destruct Hs' as [Hs' Hall]. split.
      * constructor; [done|]. constructor; [done|]. eapply Forall_impl; [exact Hall|]. intros x Hx. by transitivity b.
      * apply NoDup_cons. split; [|done]. intros Hin. apply Hab.
        apply elem_of_cons in Hin as [->|Hin]; [done|]. by eapply Forall_forall in Hall.
    + intros [Hs Hn]. apply StronglySorted_inv in Hs as [Hs Hall]. apply NoDup_cons in Hn as [Hnin Hn]. split_and!; try done.
      apply not_true_iff_false. rewrite leb_le. intros Hba. apply Hnin. apply Forall_cons in Hall as [Hab _].
      rewrite (anti_symm String.le a b Hab Hba). by left.
Qed.

Lemma too_small_false key : too_small key = false ↔ 2048 <= modulus_bits key.
Proof.
  unfold too_small. rewrite orb_false_iff, !Z.ltb_ge. split; [tauto|]. intros H. split; [done|]. apply Z.div_le_lower_bound; lia.
Qed.

Lemma key_material_nil material key m' :
  key_material material key = ([], m') ↔
  ∃ fp, good_material key fp ∧ material !! fp = None ∧ m' = <[fp := ky_ID key]> material.
Proof.
  unfold key_material, good_material. destruct (ParseRSAPublicKeyPEM _) as [pk|e].
  2: { split; [done|]. by intros (fp & (pk & der & ? & _) & _). }
  destruct (too_small pk) eqn:Ht.
  { split; [done|]. intros (fp & (pk' & der & [= <-] & Hs & _) & _). apply too_small_false in Hs. congruence. }
  apply too_small_false in Ht. destruct (x509_MarshalPKIXPublicKey pk) as [der|] eqn:Hm.
  2: { split; [done|]. intros (fp & (pk' & der & [= <-] & _ & ? & _) & _). congruence. }
  destruct (material !! digest_FromBytes der) eqn:Hl.
  - split; [done|]. intros (fp & (pk' & der' & [= <-] & _ & [= <-]%(eq_trans (eq_sym Hm)) & ->) & ? & _). congruence.
  - split; [intros [= <-]|].
    + exists (digest_FromBytes der). split_and!; [|done..]. by exists pk, der.
    + intros (fp & (pk' & der' & [= <-] & _ & [= <-]%(eq_trans (eq_sym Hm)) & ->) & _ & ->). done.
Qed.

Lemma validate_keys_nil seen material keys :
  validate_keys seen material keys = [] ↔
  (∀ k, k ∈ keys → safeToken (ky_ID k) = true ∧ ky_Algorithm k = CatalogSetJWSAlgorithm ∧ ky_ID k ∉ seen) ∧ NoDup (ky_ID <$> keys) ∧
  ∃ fps, Forall2 good_material keys fps ∧ NoDup fps ∧ ∀ fp, fp ∈ fps → material !! fp = None.
Proof.
  revert seen material. induction keys as [|k keys IH]; intros seen material; cbn [validate_keys].
  { split; [|done]. intros _. split; [by intros ? ?%not_elem_of_nil|]. split; [constructor|]. exists []. split; [constructor|].
    split; [constructor|]. by intros ? ?%not_elem_of_nil. }
  destruct (key_material material k) as [errs m'] eqn:Hm. unfold check_key. autorewrite with errs. rewrite IH.
  rewrite fmap_cons, NoDup_cons. split.
  - intros ((Hs & Ha & Hn) & -> & Hall & Hnd & fps & Hf & Hfn & Hfm).
    apply key_material_nil in Hm as (fp & Hg & Hl & ->). split_and!; [| |done|].
    + intros k' [->|Hin]%elem_of_cons; [done|]. destruct (Hall k' Hin) as (? & ? & ?). set_solver.
    + intros (k' & Heq & Hin)%list_elem_of_fmap. destruct (Hall k' Hin) as (_ & _ & Hnin). set_solver.
    + exists (fp :: fps). split; [by constructor|]. split.
      * apply NoDup_cons. split; [|done]. intros Hin%Hfm. by rewrite lookup_insert_eq in Hin.
      * intros x [->|Hin]%elem_of_cons; [done|]. apply Hfm in Hin. by apply lookup_insert_None in Hin as [? _].
  - intros (Hall & [Hnin Hnd] & fps & Hf & Hfn & Hfm). destruct (Hall k) as (Hs & Ha & Hn); [by left|].
    inversion Hf as [|? fp ? fps' Hg Hf']; subst. apply NoDup_cons in Hfn as [Hfp Hfn].
    assert (key_material material k = ([], <[fp := ky_ID k]> material)) as Hm'
      by (apply key_material_nil; exists fp; split_and!; [done| |done]; apply Hfm; by left).
    rewrite Hm in Hm'. injection Hm' as -> ->. split_and!; try done.
    + intros k' Hin. destruct (Hall k') as (? & ? & ?); [by right|]. split_and!; [done..|].
      apply not_elem_of_union. split; [|done]. apply not_elem_of_singleton. intros Heq. apply Hnin. rewrite <-Heq. by apply list_elem_of_fmap_2.
    + exists fps'. split_and!; [done..|]. intros x Hx. apply lookup_insert_None. split; [apply Hfm; by right|]. intros ->. done.
Qed.

Lemma validate_digests_nil l : l ≠ [] ∧ validate_digests l = [] ↔ digest_set l.
Proof.
  unfold validate_digests, digest_set. rewrite app_nil_iff, unsorted_nil, bind_nil. setoid_rewrite err_if_nil.
  setoid_rewrite negb_false_iff. setoid_rewrite andb_true_iff. setoid_rewrite bool_decide_eq_true. naive_solver.
Qed.

Lemma validate_overlap_nil p id :
  validate_overlap p id = [] ↔ id ∈ key_ids p ∧ id ≠ kp_RequiredKeyID p ∧ safeToken id = true.
Proof.
  unfold validate_overlap. rewrite !app_nil_iff, !err_if_nil, !negb_false_iff, bool_decide_eq_true, bool_decide_eq_false. tauto.
Qed.

Lemma validate_floor_nil f :
  validate_floor f = [] ↔ TapID_Validate (sf_Tap f) = true ∧ TapID_IsCore (sf_Tap f) = false ∧ sf_Minimum f ≠ 0.
Proof. unfold validate_floor. rewrite err_if_nil, !orb_false_iff, negb_false_iff, Z.eqb_neq. tauto. Qed.

Lemma policy_Validate_nil p : Validate p = [] ↔ policy_wf p.
Proof.
  unfold Validate. rewrite !app_nil_iff, !err_if_nil, !bind_nil, validate_keys_nil, !unsorted_nil, !negb_false_iff, orb_false_iff,
    !bool_decide_eq_true, !bool_decide_eq_false. setoid_rewrite validate_overlap_nil. setoid_rewrite validate_floor_nil. split.
  - intros (H1 & H2 & H3 & (H4 & H5 & fps & H6 & H7 & _) & H8 & H9 & H10 & H11 & [H12 H13] & H14 & H15 & H16 & H17).
    split; try done; try (by apply validate_digests_nil); [|by exists fps].
    intros k Hk. by destruct (H4 k Hk) as (? & ? & _).
  - intros [H1 [H2 H2'] H3 H4 (fps & H5 & H6) H7 H8 H9 [H10 H10']%validate_digests_nil [H11 H11']%validate_digests_nil H12 H13].
    split_and!; try done.
    + intros Hn. unfold key_ids in H2'. rewrite Hn in H2'. by apply not_elem_of_nil in H2'.
    + intros k Hk. destruct (H4 k Hk) as [? ?]. split_and!; [done..|]. set_solver.
    + by exists fps.
Qed.

(** *** The keys *)

Lemma NewKeySetFromPEM_ok pems keys :
  NewKeySetFromPEM pems = Ok keys →
  ∀ kid, option_Forall2 (λ pem key, ParseRSAPublicKeyPEM pem = Ok key) (pems !! kid) (keys !! kid).
Proof.
  unfold NewKeySetFromPEM. intros (parsed & Hf & H)%bind_ok. unfold NewKeySet in H. res_inv H. intros kid.
  assert (∀ (l : list (string * string)) p0 p1, foldM_res parse_key p0 l = Ok p1 → NoDup l.*1 →
    (∀ pem, (kid, pem) ∈ l → ∃ key, ParseRSAPublicKeyPEM pem = Ok key ∧ p1 !! kid = Some key) ∧
    (kid ∉ l.*1 → p1 !! kid = p0 !! kid)) as Haux.
  { induction l as [|[k pem] l IH]; intros p0 p1 Hl Hnd.
    - injection Hl as <-. split; [by intros ? ?%not_elem_of_nil|done].
    - cbn [foldM_res] in Hl. apply bind_ok in Hl as (p' & Hs & Hl). unfold parse_key in Hs. cbn in Hs.
      apply bind_ok in Hs as (key & Hp & [= <-]). apply NoDup_cons in Hnd as [Hk Hnd]. destruct (IH _ _ Hl Hnd) as [IH1 IH2]. split.
      + intros pem' [[= -> ->]|Hin]%elem_of_cons; [|by apply IH1]. exists key. split; [done|]. rewrite IH2 by done. apply lookup_insert_eq.
      + intros [Hne Hnin]%not_elem_of_cons. rewrite IH2 by done. by rewrite lookup_insert_ne. }
  destruct (Haux _ _ _ Hf (NoDup_fst_map_to_list pems)) as [H1 H2]. destruct (pems !! kid) as [pem|] eqn:Hpem.
  - destruct (H1 pem) as (key & Hp & Hl); [by apply elem_of_map_to_list|]. rewrite Hl. by constructor.
  - rewrite H2; [constructor|]. intros ([k' pem] & -> & Hin)%list_elem_of_fmap. apply elem_of_map_to_list in Hin. cbn in *. congruence.
Qed.

Lemma key_pem_lookup p k : NoDup (key_ids p) → k ∈ kp_Keys p → key_pem p !! ky_ID k = Some (ky_PublicPEM k).
Proof.
  unfold key_ids, key_pem. generalize (∅ : gmap string string). induction (kp_Keys p) as [|k' l IH]; intros m Hnd Hin.
  { by apply not_elem_of_nil in Hin. }
  rewrite fmap_cons in Hnd. apply NoDup_cons in Hnd as [Hk Hnd]. cbn [foldl]. apply elem_of_cons in Hin as [->|Hin]; [|by apply IH].
  clear IH. assert (∀ m, m !! ky_ID k' = Some (ky_PublicPEM k') →
    foldl (λ (m : gmap string string) key, <[ky_ID key := ky_PublicPEM key]> m) m l !! ky_ID k' = Some (ky_PublicPEM k')) as Haux.
  { induction l as [|k l IH]; intros m0 Hm; [done|]. cbn [foldl]. rewrite fmap_cons in Hk, Hnd. apply not_elem_of_cons in Hk as [Hne Hk].
    apply NoDup_cons in Hnd as [_ Hnd]. apply IH; [done..|]. by rewrite lookup_insert_ne. }
  apply Haux, lookup_insert_eq.
Qed.

(** The key set of a valid policy holds the key of every accepted signer. *)
Lemma Policy_KeySet_accepted p :
  policy_wf p → ∃ keys, Policy_KeySet p = Some keys ∧
  ∀ id, id ∈ AcceptedKeyIDs p → ∃ k key, k ∈ kp_Keys p ∧ ky_ID k = id ∧ ParseRSAPublicKeyPEM (ky_PublicPEM k) = Ok key ∧
    2048 <= modulus_bits key ∧ keys !! id = Some key.
Proof.
  intros Hw. unfold Policy_KeySet. rewrite (proj2 (policy_Validate_nil p) Hw). destruct (NewKeySetFromPEM (key_pem p)) as [keys|] eqn:Hk.
  2: { pose proof (kpw_key_set p Hw) as H. by rewrite Hk in H. }
  exists keys. split; [done|]. intros id Hid. assert (id ∈ key_ids p) as Hin.
  { apply elem_of_cons in Hid as [->|Hid]; [apply Hw|]. by apply (kpw_overlap_key p Hw). }
  apply list_elem_of_fmap in Hin as (k & -> & Hin). pose proof (NewKeySetFromPEM_ok _ _ Hk (ky_ID k)) as HF.
  rewrite (key_pem_lookup p k) in HF by (done || apply Hw). inversion HF as [? key Hp Hl|]; subst. destruct (kpw_material p Hw) as (fps & Hf & _).
  apply list_elem_of_lookup in Hin as [i Hi]. destruct (Forall2_lookup_l _ _ _ _ _ Hf Hi) as (fp & _ & pk & der & Hpk & Hbits & _).
  rewrite Hp in Hpk. injection Hpk as <-. exists k, key. split_and!; try done. by apply (list_elem_of_lookup_2 _ i).
Qed.

Lemma AcceptedKeyIDs_ok p : policy_wf p → NoDup (AcceptedKeyIDs p) ∧ ∀ id, id ∈ AcceptedKeyIDs p → ValidateKeyID id = true.
Proof.
  intros Hw. split.
  - apply NoDup_cons. split; [|apply Hw]. intros Hin%(kpw_overlap_key p Hw). naive_solver.
  - intros id [->|Hin]%elem_of_cons; [apply Hw|]. by apply (kpw_overlap_key p Hw).
Qed.

(** *** The canonical form *)

Lemma strictly_sorted_id l : strictly_sorted l → slices_Sort l = l.
Proof. intros [H _]. by apply slices_Sort_id. Qed.

Lemma canonicalize_sorted p :
  policy_wf (canonicalize p) → canonicalize (canonicalize p) = canonicalize p.
Proof.
  intros Hw. pose proof (kpw_overlap _ Hw) as H1. pose proof (kpw_services _ Hw) as (_ & H2 & _). pose proof (kpw_extractors _ Hw) as (_ & H3 & _).
  pose proof (kpw_ids _ Hw) as H4. pose proof (kpw_floors _ Hw) as [_ H5]. pose proof (sort_by_StronglySorted ky_ID (kp_Keys p)) as H6. change (sort_by ky_ID (kp_Keys p)) with (kp_Keys (canonicalize p)) in H6.
  pose proof (sort_by_StronglySorted sf_Tap (kp_SequenceFloors p)) as H7.
  change (sort_by sf_Tap (kp_SequenceFloors p)) with (kp_SequenceFloors (canonicalize p)) in H7.
  destruct (canonicalize p) as [schema required overlap keys services extractors unknown floors]. cbn in *. unfold canonicalize. cbn.
  rewrite !strictly_sorted_id, !sort_by_id by done. done.
Qed.

(** Texts and numbers that survive encoding: valid UTF-8 and 64-bit numbers *)
Definition encodable (p : Policy) : Prop :=
  (∀ k, k ∈ kp_Keys p → utf8_ValidString (ky_PublicPEM k) = true) ∧ ∀ f, f ∈ kp_SequenceFloors p → 0 <= sf_Minimum f < 2 ^ 64.

(** What is relied on of encoding/json: a valid policy reads back from its printed
    form, which has no repeated members and no space around it. *)
Class PolicyJSONLaws `{J : !PolicyJSON} : Prop := {
  policy_roundtrip p b : policy_wf p → encodable p → encodePolicy p = Some b →
    b ≠ "" ∧ decodePolicy b = Some p ∧ catalogkeys_validateUniqueJSON (policy_tokens b) = Ok tt ∧ strings_TrimSpace b = b;
}.

Context `{J : !PolicyJSON}.

Lemma valid_ok p : valid p = Ok tt ↔ policy_wf p.
Proof. unfold valid. rewrite <-policy_Validate_nil. by destruct (Validate p). Qed.

Lemma policy_Canonical_ok p b : Canonical p = Ok b ↔ policy_wf (canonicalize p) ∧ encodePolicy (canonicalize p) = Some b.
Proof.
  unfold Canonical. rewrite bind_ok. split.
  - intros ([] & Hv%valid_ok & H). split; [done|]. destruct (encodePolicy _); by simplify_eq.
  - intros [Hv He]. exists tt. by rewrite He, (proj2 (valid_ok _) Hv).
Qed.

Lemma Decode_ok data p :
  Decode data = Ok p → policy_wf p ∧ canonicalize p = p ∧ Canonical p = Ok (strings_TrimSpace data) ∧ strlen data <= MaxPolicyBytes.
Proof.
  unfold Decode. intros ([] & Hs%check_ok & H)%bind_ok. apply bind_ok in H as ([] & _ & H). destruct (decodePolicy data) as [p0|]; [|done].
  apply bind_ok in H as ([] & Hv%valid_ok & H). apply bind_ok in H as (c & Hc & H). apply bind_ok in H as ([] & Ht%check_ok & [= <-]).
  apply negb_false_iff, bool_decide_eq_true in Ht. apply orb_false_iff in Hs as [_ Hs%Z.ltb_ge]. subst c. split_and!; try done. by apply canonicalize_sorted.
Qed.

End facts.

(** ** Properties *)

(** C30: A key policy is accepted exactly when it is well formed: the required key
    and the overlap keys are among the keys, whose identifiers and whose material
    are all different and whose moduli have at least 2048 bits; the authorized
    builds and the sequence floors are sorted, without repetition and well
    formed. *)
Theorem key_policy_iff `{U : !UnicodeTables, G : !GoDigest, S : !SignatureLib, P : !PublicKeyEncoding, D : !Digester} p :
  Validate p = [] ↔ policy_wf p.
Proof. apply policy_Validate_nil. Qed.

(** The printed form of a key policy identifies it: what [Canonical] prints,
    [Decode] reads back as the canonical policy, which prints the same bytes; and
    whatever [Decode] accepts is a valid policy in canonical order that prints
    exactly the text that was read, but for space around it. *)
Theorem key_policy_roundtrip
  `{U : !UnicodeTables, G : !GoDigest, S : !SignatureLib, P : !PublicKeyEncoding, D : !Digester, J : !PolicyJSON}
  (L : PolicyJSONLaws) p b (Hc : Canonical p = Ok b) (Hsize : strlen b <= MaxPolicyBytes) (Htext : encodable p) :
  (Decode b = Ok (canonicalize p) ∧ Canonical (canonicalize p) = Ok b) ∧
  ∀ data q, Decode data = Ok q → policy_wf q ∧ canonicalize q = q ∧ Canonical q = Ok (strings_TrimSpace data).
Proof.
  split; [|intros data q Hq; apply Decode_ok in Hq; tauto]. apply policy_Canonical_ok in Hc as [Hw He].
  pose proof (canonicalize_sorted p Hw) as Hs. assert (Canonical (canonicalize p) = Ok b) as Hcc by (apply policy_Canonical_ok; by rewrite Hs).
  split; [|done]. assert (encodable (canonicalize p)) as Ht.
  { destruct Htext as [H1 H2]. split; [intros k|intros f]; cbn; rewrite elem_of_sort_by; auto. }
  destruct (policy_roundtrip _ _ Hw Ht He) as (Hne & Hd & Hu & Htrim). unfold Decode.
  rewrite bool_decide_eq_false_2 by done. rewrite (proj2 (Z.ltb_ge _ _) Hsize). cbn [orb check mbind result_bind]. rewrite Hu, Hd. cbn [map_err mbind result_bind].
  rewrite Hs, (proj2 (valid_ok _) Hw). cbn [mbind result_bind]. rewrite Hcc. cbn [mbind result_bind]. by rewrite Htrim, bool_decide_eq_true_2.
Qed.

(** ** Example: one key *)

Module KeyExample.

Definition hex : string := "0123456789abcdef0123456789abcdef0123456789abcdef0123456789abcdef".
Definition digest : string := "sha256:" +:+ hex.

Definition public_key : PublicKey := MkPublicKey (Some (2 ^ 2047)) 65537.

Definition signatures : SignatureLib :=
  {| pem_Decode s := if bool_decide (s = "pem") then Some ("PUBLIC KEY", "der", "") else None;
     x509_ParsePKIXPublicKey s := if bool_decide (s = "der") then Some (Some public_key) else None;
     x509_ParsePKCS1PublicKey _ := None; sha512_Sum s := s;
     rsa_VerifyPSS key digest signature := bool_decide (key = public_key) && bool_decide (signature = "signed:" +:+ digest) |}.

Definition encoding : PublicKeyEncoding := {| x509_MarshalPKIXPublicKey _ := Some "der" |}.
Definition digester : Digester := {| digest_FromBytes _ := digest |}.

Definition policy : Policy :=
  MkPolicy SchemaVersion "catalog-1" [] [MkKey "catalog-1" CatalogSetJWSAlgorithm "pem"] [digest] [digest] false
    [MkSequenceFloor "azure/tools" 3].

Definition policies : PolicyJSON :=
  {| policy_tokens _ := MkDecoder [TOther] false;
     encodePolicy p := if bool_decide (p = policy) then Some "policy" else None;
     decodePolicy b := if bool_decide (b = "policy") then Some policy else None |}.

Lemma policies_laws : PolicyJSONLaws (G := sha256_only) (S := signatures) (P := encoding) (D := digester) (J := policies).
Proof.
  split. intros p b _ _ H. cbn in H. case_bool_decide as Hp; [|done]. injection H as <-. subst p.
  split_and!; [done|reflexivity|reflexivity|vm_compute; reflexivity].
Qed.

Lemma policy_canonical : Canonical (G := sha256_only) (S := signatures) (P := encoding) (D := digester) (J := policies) policy = Ok "policy".
Proof. vm_compute. reflexivity. Qed.

End KeyExample.

Lemma key_policy_roundtrip_witness :
  Decode (G := sha256_only) (S := KeyExample.signatures) (P := KeyExample.encoding) (D := KeyExample.digester) (J := KeyExample.policies) "policy"
  = Ok (canonicalize KeyExample.policy).
Proof.
  refine (proj1 (proj1 (key_policy_roundtrip (U := ascii_tables) (G := sha256_only) (S := KeyExample.signatures) (P := KeyExample.encoding) (D := KeyExample.digester) (J := KeyExample.policies)
    KeyExample.policies_laws KeyExample.policy "policy" KeyExample.policy_canonical _ _))).
  - vm_compute. discriminate.
  - split; [intros k ->%list_elem_of_singleton; vm_compute; reflexivity|]. intros f ->%list_elem_of_singleton. cbn. lia.
Defined.
