(* ===== verification/CatalogPayload.v ===== *)
(** * internal/catalog: canonical payloads

    The service signs the canonical JSON of a catalog-set payload: its lists in a
    fixed order, at every level. The client decodes the signed bytes strictly and
    prints them again; only a payload that prints as it was signed is used. *)

From S2P Require Import Prelude GoStrings NetUrl FormulaId Resolution ClosureGraph CatalogFields.
From S2P Require Import CatalogRequest CatalogTap CatalogClosure CatalogArtifact CatalogSet.
From stdpp Require Import options.
Local Open Scope Z_scope.

Definition MaxCatalogSetBytes : Z := Z.shiftl 64 20.

(** ** Payloads are compared by value *)

#[export] Instance Annotation_eq_dec : EqDecision Annotation.
Proof. solve_decision. Defined.
#[export] Instance Descriptor_eq_dec : EqDecision Descriptor.
Proof. solve_decision. Defined.
#[export] Instance OCITransport_eq_dec : EqDecision OCITransport.
Proof. solve_decision. Defined.
#[export] Instance HTTPSTransport_eq_dec : EqDecision HTTPSTransport.
Proof. solve_decision. Defined.
#[export] Instance LocalTransport_eq_dec : EqDecision LocalTransport.
Proof. solve_decision. Defined.
#[export] Instance Transport_eq_dec : EqDecision Transport.
Proof. solve_decision. Defined.
#[export] Instance VerifiedProvenance_eq_dec : EqDecision VerifiedProvenance.
Proof. solve_decision. Defined.
#[export] Instance ProvenanceWaiver_eq_dec : EqDecision ProvenanceWaiver.
Proof. solve_decision. Defined.
#[export] Instance Provenance_eq_dec : EqDecision Provenance.
Proof. solve_decision. Defined.
#[export] Instance BottleRuntimeDependency_eq_dec : EqDecision BottleRuntimeDependency.
Proof. solve_decision. Defined.
#[export] Instance BottleTab_eq_dec : EqDecision BottleTab.
Proof. solve_decision. Defined.
#[export] Instance PrebuiltSourceArtifact_eq_dec : EqDecision PrebuiltSourceArtifact.
Proof. solve_decision. Defined.
#[export] Instance PrebuiltSourceInventory_eq_dec : EqDecision PrebuiltSourceInventory.
Proof. solve_decision. Defined.
#[export] Instance PrebuiltPayloadEvidence_eq_dec : EqDecision PrebuiltPayloadEvidence.
Proof. solve_decision. Defined.
#[export] Instance PrebuiltELFEvidence_eq_dec : EqDecision PrebuiltELFEvidence.
Proof. solve_decision. Defined.
#[export] Instance TapFormulaSourceTransport_eq_dec : EqDecision TapFormulaSourceTransport.
Proof. solve_decision. Defined.
#[export] Instance PrebuiltFormulaSourceEvidence_eq_dec : EqDecision PrebuiltFormulaSourceEvidence.
Proof. solve_decision. Defined.
#[export] Instance PrebuiltDerivedBottleRelation_eq_dec : EqDecision PrebuiltDerivedBottleRelation.
Proof. solve_decision. Defined.
#[export] Instance PrebuiltDerivation_eq_dec : EqDecision PrebuiltDerivation.
Proof. solve_decision. Defined.
#[export] Instance BottleArtifact_eq_dec : EqDecision BottleArtifact.
Proof. solve_decision. Defined.
#[export] Instance PlatformResult_eq_dec : EqDecision PlatformResult.
Proof. solve_decision. Defined.
#[export] Instance ComponentIdentity_eq_dec : EqDecision ComponentIdentity.
Proof. solve_decision. Defined.
#[export] Instance CatalogReference_eq_dec : EqDecision CatalogReference.
Proof. solve_decision. Defined.
#[export] Instance CatalogSetPayload_eq_dec : EqDecision CatalogSetPayload.
Proof. solve_decision. Defined.

(** ** Canonical order *)

Definition compareAnnotation : Annotation → Annotation → Z := cmp_then (cmp_on an_Key strings_Compare) (cmp_on an_Value strings_Compare).

Definition canonicalizeDescriptor (d : Descriptor) : Descriptor :=
  MkDescriptor (ds_Digest d) (ds_Size d) (ds_MediaType d) (ds_Platform d) (slices_SortFunc compareAnnotation (ds_Annotations d)).

Definition canonicalizeHTTPS (t : HTTPSTransport) : HTTPSTransport :=
  MkHTTPSTransport (ht_URL t) (ht_ExpectedSize t) (ht_SHA256 t) (ht_Filename t) (slices_Sort (ht_AllowedRedirectHosts t))
    (ht_FetchPolicyVersion t).

Definition canonicalizeOCI (t : OCITransport) : OCITransport :=
  MkOCITransport (oc_Registry t) (oc_Repository t) (canonicalizeDescriptor (oc_Index t)) (canonicalizeDescriptor (oc_Manifest t))
    (canonicalizeDescriptor (oc_Config t)) (canonicalizeDescriptor (oc_Layer t)).

Definition canonicalize_source (s : PrebuiltSourceArtifact) : PrebuiltSourceArtifact :=
  let t := ps_Transport s in
  MkPrebuiltSourceArtifact (ps_Filename s) (ps_Size s) (ps_SHA256 s) (ps_Format s)
    (MkTransport (tr_OCI t) (canonicalizeHTTPS <$> tr_HTTPS t) (tr_Local t)).

Definition canonicalizePrebuiltDerivation (d : PrebuiltDerivation) : PrebuiltDerivation :=
  let e := pd_ELF d in
  MkPrebuiltDerivation (pd_PolicyVersion d) (pd_PolicyDigest d) (canonicalize_source (pd_Source d)) (pd_SourceInventory d) (pd_Payload d)
    (MkPrebuiltELFEvidence (pe_Format e) (pe_Machine e) (pe_StaticallyLinked e) (pe_Interpreter e)
       (slices_Sort <$> pe_NeededLibraries e) (slices_Sort <$> pe_RPaths e) (pe_WritableExecutableSegments e))
    (pd_FormulaSource d) (pd_RecipeDigest d) (pd_DerivedBottle d).

Definition canonicalize_tab (t : BottleTab) : BottleTab :=
  MkBottleTab (tb_Receiptless t) (tb_HomebrewVersion t) (tb_Arch t) (tb_Compiler t) (slices_Sort (tb_ChangedFiles t)) (tb_BuiltOn t)
    (sort_by rt_ID (tb_Dependencies t)).

Definition canonicalizeArtifact (a : BottleArtifact) : BottleArtifact :=
  let t := ba_Transport a in
  MkBottleArtifact (ba_ID a) (ba_Platform a) (ba_Tag a) (ba_Filename a) (ba_SHA256 a) (ba_Size a) (ba_Cellar a) (canonicalize_tab (ba_Tab a))
    (ba_CurrentFormulaSourceDigest a) (ba_BottleFormulaSourceDigest a) (ba_BottleSourceRepository a) (ba_BottleSourceCommit a)
    (ba_BottleFormulaPath a) (ba_BottleSourceWaiver a) (slices_Sort (ba_ExecutablePaths a))
    (MkTransport (canonicalizeOCI <$> tr_OCI t) (canonicalizeHTTPS <$> tr_HTTPS t) (tr_Local t))
    (ba_Verification a) (ba_Provenance a) (canonicalizePrebuiltDerivation <$> ba_PrebuiltDerivation a).

Definition compareArtifact : BottleArtifact → BottleArtifact → Z :=
  cmp_then (cmp_on ba_ID strings_Compare) (cmp_on ba_Platform comparePlatform).

Definition compareReference : CatalogReference → CatalogReference → Z := cmp_on (λ r, ts_ID (rf_Tap r)) strings_Compare.

Definition compareResult : PlatformResult → PlatformResult → Z := cmp_on rs_Platform comparePlatform.

Section canonical.
Context `{U : !UnicodeTables}.

Definition canonicalizePlatformResult (r : PlatformResult) : PlatformResult :=
  MkPlatformResult (rs_Platform r) (canonicalizeClosure (rs_Closure r))
    ((λ artifacts, canonicalizeArtifact <$> slices_SortFunc compareArtifact artifacts) <$> rs_Artifacts r).

(** Times are instants; the zone and the monotonic reading the code drops are not part of them. *)
Definition canonicalizeCatalogSetPayload (p : CatalogSetPayload) : CatalogSetPayload :=
  MkCatalogSetPayload (py_SchemaVersion p) (py_RequestDigest p) (py_CoreSnapshotDigest p) (py_GeneratedAt p) (py_ExpiresAt p)
    (py_CatalogService p) (py_Extractor p) (slices_SortFunc compareReference (py_Catalogs p))
    (canonicalizePlatformResult <$> slices_SortFunc compareResult (py_Results p)).

(** [cloneValue] goes through JSON, which shows in the closures only. *)
Definition cloneResult (r : PlatformResult) : PlatformResult :=
  MkPlatformResult (rs_Platform r) (cloneClosure (rs_Closure r)) (rs_Artifacts r).

Definition clonePayload (p : CatalogSetPayload) : CatalogSetPayload :=
  MkCatalogSetPayload (py_SchemaVersion p) (py_RequestDigest p) (py_CoreSnapshotDigest p) (py_GeneratedAt p) (py_ExpiresAt p)
    (py_CatalogService p) (py_Extractor p) (py_Catalogs p) (cloneResult <$> py_Results p).

End canonical.

(** ** Documents *)

(** encoding/json on payloads: the canonical text of a value and the strict decoder *)
Class PayloadJSON := {
  encodePayload : CatalogSetPayload → option string;
  decodePayload : string → option CatalogSetPayload;
}.

Inductive payload_error :=
| PayloadInvalid (errs : list string) | CanonicalInvalid (errs : list string) | PayloadEncoding | PayloadTooLarge | PayloadUndecodable.

Section documents.
Context `{U : !UnicodeTables, N : !NetURL, R : !DistributionReference, J : !PayloadJSON, D : !Digester}.

Definition valid_payload {E} (wrap : list string → E) (p : CatalogSetPayload) : result E unit :=
  match ValidateCatalogSetPayload p with [] => Ok tt | errs => Err (wrap errs) end.

Definition CanonicalCatalogSetPayload (p : CatalogSetPayload) : result payload_error string :=
  _ ← valid_payload PayloadInvalid p;
  let clone := canonicalizeCatalogSetPayload (clonePayload p) in
  _ ← valid_payload CanonicalInvalid clone;
  match encodePayload clone with
  | None => Err PayloadEncoding
  | Some data => _ ← check (MaxCatalogSetBytes <? strlen data) PayloadTooLarge; Ok data
  end.

Definition CatalogSetPayloadDigest (p : CatalogSetPayload) : result payload_error string :=
  data ← CanonicalCatalogSetPayload p; Ok (digest_FromBytes data).

Definition DecodeCatalogSetPayload (data : string) : result payload_error CatalogSetPayload :=
  _ ← check (MaxCatalogSetBytes <? strlen data) PayloadTooLarge;
  match decodePayload data with
  | None => Err PayloadUndecodable
  | Some value =>
      let value := canonicalizeCatalogSetPayload value in
      _ ← valid_payload PayloadInvalid value;
      Ok value
  end.

End documents.

(** ** The canonical form is a fixed point *)

Lemma SortFunc_id {A} (cmp : A → A → Z) `{!CmpOrder cmp} l :
  (∀ x y, x ∈ l → y ∈ l → cmp x y = 0 → x = y) → StronglySorted (cmp_le cmp) l → slices_SortFunc cmp l = l.
Proof.
  intros Hsep Hs. apply (StronglySorted_unique_strong (cmp_le cmp)); [|by apply SortFunc_sorted|done|by apply SortFunc_Permutation].
  intros x y. rewrite !SortFunc_Permutation. unfold cmp_le. intros Hx Hy Hxy Hyx. rewrite (@cmp_swap _ cmp _ x y) in Hyx.
  apply Hsep; [done..|lia].
Qed.

Lemma StronglySorted_fmap_cmp {A} (cmp : A → A → Z) (f : A → A) l :
  (∀ x y, cmp (f x) (f y) = cmp x y) → StronglySorted (cmp_le cmp) l → StronglySorted (cmp_le cmp) (f <$> l).
Proof.
  intros Hf. induction 1 as [|x l Hs IH Hall]; cbn; constructor; [done|]. apply Forall_fmap. eapply Forall_impl; [exact Hall|].
  intros y. unfold cmp_le. cbn. by rewrite Hf.
Qed.

(** Sorting again what was sorted and rewritten element by element changes nothing,
    if rewriting keeps the keys, which are distinct, and changes nothing a second
    time. *)
Lemma SortFunc_fmap_stable {A} (cmp : A → A → Z) `{!CmpOrder cmp} (f : A → A) l :
  (∀ x y, cmp (f x) (f y) = cmp x y) → (∀ x y, x ∈ f <$> l → y ∈ f <$> l → cmp x y = 0 → x = y) → (∀ x, x ∈ f <$> l → f x = x) →
  f <$> slices_SortFunc cmp (f <$> slices_SortFunc cmp l) = f <$> slices_SortFunc cmp l.
Proof.
  intros Hf Hsep Hid. assert (∀ x, x ∈ f <$> slices_SortFunc cmp l ↔ x ∈ f <$> l) as Hp by (intros x; by rewrite SortFunc_Permutation).
  rewrite (SortFunc_id cmp); [| |by apply StronglySorted_fmap_cmp, SortFunc_sorted].
  - transitivity (id <$> (f <$> slices_SortFunc cmp l)); [|by rewrite list_fmap_id]. apply list_fmap_ext. intros i x Hx. cbn.
    by apply Hid, Hp, (list_elem_of_lookup_2 _ i).
  - intros x y Hx%Hp Hy%Hp. by apply Hsep.
Qed.

#[export] Instance compareAnnotation_order : CmpOrder compareAnnotation.
Proof. unfold compareAnnotation. apply _. Qed.

#[export] Instance compareAnnotation_total : CmpTotal compareAnnotation.
Proof. apply cmp_then_total. intros [] []. unfold cmp_on. cbn. rewrite !Compare_eq. congruence. Qed.

#[export] Instance compareArtifact_order : CmpOrder compareArtifact.
Proof. unfold compareArtifact. apply _. Qed.

Lemma SortFunc_idemp {A} (cmp : A → A → Z) `{!CmpOrder cmp, !CmpTotal cmp} l :
  slices_SortFunc cmp (slices_SortFunc cmp l) = slices_SortFunc cmp l.
Proof. apply SortFunc_unique; [done..|]. apply SortFunc_Permutation. Qed.

Lemma option_sort_idemp (s : slice string) : slices_Sort <$> (slices_Sort <$> s) = slices_Sort <$> s.
Proof. destruct s; cbn; [by rewrite slices_Sort_idemp|done]. Qed.

Lemma option_fmap_stable {A} (f : A → A) (o : option A) : (∀ x, f (f x) = f x) → f <$> (f <$> o) = f <$> o.
Proof. intros H. destruct o; cbn; by rewrite ?H. Qed.

Lemma canonicalizeHTTPS_idemp t : canonicalizeHTTPS (canonicalizeHTTPS t) = canonicalizeHTTPS t.
Proof. unfold canonicalizeHTTPS. cbn. by rewrite slices_Sort_idemp. Qed.

Lemma canonicalizeOCI_idemp t : canonicalizeOCI (canonicalizeOCI t) = canonicalizeOCI t.
Proof. unfold canonicalizeOCI, canonicalizeDescriptor. cbn. by rewrite !(SortFunc_idemp compareAnnotation). Qed.

Lemma canonicalizePrebuiltDerivation_idemp d : canonicalizePrebuiltDerivation (canonicalizePrebuiltDerivation d) = canonicalizePrebuiltDerivation d.
Proof.
  unfold canonicalizePrebuiltDerivation, canonicalize_source. cbn. rewrite !option_sort_idemp.
  rewrite (option_fmap_stable canonicalizeHTTPS) by apply canonicalizeHTTPS_idemp. done.
Qed.

Lemma canonicalizeArtifact_stable a :
  NoDup (rt_ID <$> tb_Dependencies (ba_Tab a)) → canonicalizeArtifact (canonicalizeArtifact a) = canonicalizeArtifact a.
Proof.
  intros Hnd. unfold canonicalizeArtifact, canonicalize_tab. cbn. rewrite !slices_Sort_idemp.
  rewrite (sort_by_unique rt_ID (sort_by rt_ID _) (tb_Dependencies (ba_Tab a))) by (rewrite ?sort_by_Permutation; done).
  rewrite (option_fmap_stable canonicalizeOCI) by apply canonicalizeOCI_idemp.
  rewrite (option_fmap_stable canonicalizeHTTPS) by apply canonicalizeHTTPS_idemp.
  by rewrite (option_fmap_stable canonicalizePrebuiltDerivation) by apply canonicalizePrebuiltDerivation_idemp.
Qed.

Section stable.
Context `{U : !UnicodeTables, N : !NetURL, R : !DistributionReference}.

Lemma artifact_dependencies a : ValidateBottleArtifact a = [] → NoDup (rt_ID <$> tb_Dependencies (ba_Tab a)).
Proof.
  unfold ValidateBottleArtifact. rewrite !app_nil_iff. intros (_ & _ & _ & Ht & _). rewrite within_nil in Ht. unfold validateBottleTab in Ht.
  rewrite !app_nil_iff, each_once_nil in Ht. tauto.
Qed.

Lemma result_artifacts r :
  ValidatePlatformResult r = [] →
  (∀ a, a ∈ items (rs_Artifacts r) → ValidateBottleArtifact a = []) ∧ NoDup (ba_ID <$> items (rs_Artifacts r)).
Proof.
  unfold ValidatePlatformResult. autorewrite with errs. intros (_ & _ & _ & [Ha Hnd] & _ & _). split; [|done].
  intros a Hin. specialize (Ha a Hin). autorewrite with errs in Ha. tauto.
Qed.

Lemma payload_results p :
  ValidateCatalogSetPayload p = [] →
  (∀ r, r ∈ py_Results p → ValidatePlatformResult r = []) ∧ NoDup ((λ r, Platform_key (rs_Platform r)) <$> py_Results p).
Proof.
  unfold ValidateCatalogSetPayload. autorewrite with errs. intros H. split; [|tauto]. intros r Hr. destruct_and? H.
  match goal with Hall : ∀ x, x ∈ py_Results p → _ |- _ => specialize (Hall r Hr); autorewrite with errs in Hall end. tauto.
Qed.

(** A canonical closure is its own clone and canonical form. *)
Lemma canonical_closure_fixed c :
  closure_result_wf c → let k := canonicalizeClosure (cloneClosure c) in cloneClosure k = k ∧ canonicalizeClosure k = k.
Proof.
  intros Hw k. assert (∀ c, cloneClosure (canonicalizeClosure (cloneClosure c)) = canonicalizeClosure (cloneClosure c)) as Hc.
  { intros d. unfold cloneClosure at 1, canonicalizeClosure. cbn [cl_Requested cl_RequestedMappings cl_NormalizationTaps cl_Nodes cl_InstallOrder cloneClosure].
    f_equal. assert (∀ l : list string, l ≠ [] → nonempty (slices_Sort l) = Some (slices_Sort l)) as Hn.
    { intros l Hl. destruct (slices_Sort l) eqn:E; [|done]. pose proof (slices_Sort_Permutation l) as Hp. rewrite E in Hp.
      by apply Permutation_nil_l in Hp. }
    assert (∀ l : list string, nonempty (items (slices_Sort <$> nonempty l)) = slices_Sort <$> nonempty l) as Hs.
    { intros [|x l]; [done|]. cbn [nonempty fmap option_fmap option_map items default from_option id]. by apply Hn. }
    destruct (items (cl_NormalizationTaps d)) as [|x l] eqn:E; [apply Hs|]. cbn [nonempty fmap option_fmap option_map items default from_option id].
    by apply Hn. }
  assert (cloneClosure k = k) as Hk by apply Hc. split; [done|].
  assert (closure_equiv c k) as He by (by apply canonicalizeClosure_self).
  assert (closure_result_wf k) as Hwk by (by eapply closure_result_wf_equiv).
  transitivity (canonicalizeClosure (cloneClosure k)); [by rewrite Hk|]. rewrite <-Hc, canonical_closure_text by done.
  rewrite <-(proj2 (canonical_text_iff c k Hw Hwk) He). rewrite <-(canonical_closure_text c Hw). apply Hc.
Qed.

Lemma canonicalizeArtifact_fixed a : ValidateBottleArtifact (canonicalizeArtifact a) = [] → canonicalizeArtifact (canonicalizeArtifact a) = canonicalizeArtifact a.
Proof.
  intros Hv%artifact_dependencies. apply canonicalizeArtifact_stable. cbn in Hv. by rewrite sort_by_Permutation in Hv.
Qed.

Lemma canonical_artifacts_fixed l :
  (∀ a, a ∈ canonicalizeArtifact <$> l → ValidateBottleArtifact a = []) → NoDup (ba_ID <$> (canonicalizeArtifact <$> l)) →
  let k := canonicalizeArtifact <$> slices_SortFunc compareArtifact l in canonicalizeArtifact <$> slices_SortFunc compareArtifact k = k.
Proof.
  intros Hv Hnd k. apply SortFunc_fmap_stable; [apply _|done| |].
  - intros x y Hx Hy Hxy. apply (NoDup_fmap_inj ba_ID (canonicalizeArtifact <$> l)); [done..|].
    unfold compareArtifact, cmp_then, cmp_on in Hxy. apply Compare_eq. destruct (strings_Compare (ba_ID x) (ba_ID y) =? 0) eqn:E; [by apply Z.eqb_eq|].
    cbn in Hxy. done.
  - intros x Hx. pose proof (Hv x Hx) as H. apply list_elem_of_fmap in Hx as (a & -> & _). by apply canonicalizeArtifact_fixed.
Qed.

Lemma canonical_result_fixed r :
  closure_result_wf (rs_Closure r) → ValidatePlatformResult (canonicalizePlatformResult (cloneResult r)) = [] →
  let k := canonicalizePlatformResult (cloneResult r) in cloneResult k = k ∧ canonicalizePlatformResult k = k.
Proof.
  intros Hw Hv k. destruct (canonical_closure_fixed _ Hw) as [Hc1 Hc2]. apply result_artifacts in Hv as [Ha Hnd].
  unfold k, cloneResult, canonicalizePlatformResult in *. cbn [rs_Platform rs_Closure rs_Artifacts] in *. rewrite Hc1, Hc2. split; [done|]. f_equal.
  destruct (rs_Artifacts r) as [l|]; [|done]. cbn in *. f_equal. apply canonical_artifacts_fixed.
  - intros a Hin. apply Ha. by rewrite (SortFunc_Permutation compareArtifact).
  - by rewrite (SortFunc_Permutation compareArtifact) in Hnd.
Qed.

Lemma canonical_payload_fixed p :
  ValidateCatalogSetPayload p = [] → ValidateCatalogSetPayload (canonicalizeCatalogSetPayload (clonePayload p)) = [] →
  let c := canonicalizeCatalogSetPayload (clonePayload p) in clonePayload c = c ∧ canonicalizeCatalogSetPayload c = c.
Proof.
  intros Hp Hc c. pose proof (ValidateCatalogSetPayload_ok _ Hc) as Hwc. pose proof (ValidateCatalogSetPayload_ok _ Hp) as Hwp.
  apply payload_results in Hc as [Hr Hplat].
  assert (∀ k, k ∈ py_Results c → cloneResult k = k ∧ canonicalizePlatformResult k = k) as Hfix.
  { intros k Hk. pose proof (Hr k Hk) as Hv. unfold c in Hk. cbn in Hk. apply list_elem_of_fmap in Hk as (r0 & -> & Hk).
    rewrite (SortFunc_Permutation compareResult) in Hk. apply list_elem_of_fmap in Hk as (r & -> & Hin).
    apply canonical_result_fixed; [|done]. apply (pyw_result p Hwp r Hin). }
  split.
  - assert (cloneResult <$> py_Results c = py_Results c) as Hcl.
    { transitivity (id <$> py_Results c); [|by rewrite list_fmap_id]. apply list_fmap_ext. intros i k Hk. cbn.
      apply Hfix. by apply (list_elem_of_lookup_2 _ i). }
    unfold clonePayload. rewrite Hcl. by destruct c.
  - assert (slices_SortFunc compareReference (py_Catalogs c) = py_Catalogs c) as H1.
    { apply (SortFunc_id compareReference); [|apply SortFunc_sorted, _]. intros x y Hx Hy Hxy%Compare_eq.
      apply (NoDup_fmap_inj (λ r, ts_ID (rf_Tap r)) (py_Catalogs c)); [apply Hwc|done..]. }
    assert (canonicalizePlatformResult <$> slices_SortFunc compareResult (py_Results c) = py_Results c) as H2.
    { rewrite (SortFunc_id compareResult).
      - transitivity (id <$> py_Results c); [|by rewrite list_fmap_id]. apply list_fmap_ext. intros i k Hk. cbn.
        apply Hfix. by apply (list_elem_of_lookup_2 _ i).
      - intros x y Hx Hy Hxy. apply (@cmp_eq _ comparePlatform _) in Hxy.
        apply (NoDup_fmap_inj (λ r, Platform_key (rs_Platform r)) (py_Results c)); [done..|]. by rewrite Hxy.
      - apply StronglySorted_fmap_cmp; [done|]. apply SortFunc_sorted, _. }
    unfold canonicalizeCatalogSetPayload. rewrite H1, H2. by destruct c.
Qed.

End stable.

(** What is relied on of encoding/json: a valid canonical payload reads back from
    its canonical text. *)
Class PayloadJSONLaws `{U : !UnicodeTables, N : !NetURL, R : !DistributionReference, J : !PayloadJSON} : Prop := {
  payload_roundtrip p b : ValidateCatalogSetPayload p = [] → canonicalizeCatalogSetPayload p = p → encodePayload p = Some b →
    decodePayload b = Some p;
}.

Section payload_facts.
Context `{U : !UnicodeTables, N : !NetURL, R : !DistributionReference, J : !PayloadJSON, D : !Digester}.

Lemma valid_payload_ok {E} (wrap : list string → E) p : valid_payload wrap p = Ok tt ↔ ValidateCatalogSetPayload p = [].
Proof. unfold valid_payload. by destruct (ValidateCatalogSetPayload p). Qed.

Lemma CanonicalCatalogSetPayload_ok p b :
  CanonicalCatalogSetPayload p = Ok b ↔
  ValidateCatalogSetPayload p = [] ∧ ValidateCatalogSetPayload (canonicalizeCatalogSetPayload (clonePayload p)) = [] ∧
  encodePayload (canonicalizeCatalogSetPayload (clonePayload p)) = Some b ∧ strlen b <= MaxCatalogSetBytes.
Proof.
  unfold CanonicalCatalogSetPayload. split.
  - intros ([] & H1%valid_payload_ok & H)%bind_ok. apply bind_ok in H as ([] & H2%valid_payload_ok & H).
    destruct (encodePayload _) as [data|]; [|done]. apply bind_ok in H as ([] & H3%check_ok & [= ->]). by apply Z.ltb_ge in H3.
  - intros (H1 & H2 & H3 & H4). rewrite (proj2 (valid_payload_ok _ _) H1). cbn. rewrite (proj2 (valid_payload_ok _ _) H2). cbn.
    rewrite H3, (proj2 (Z.ltb_ge _ _) H4). done.
Qed.

(** The canonical text of a payload decodes to the canonical payload, which has the
    same text. *)
Lemma payload_text_roundtrip `{!PayloadJSONLaws} p b :
  CanonicalCatalogSetPayload p = Ok b →
  let c := canonicalizeCatalogSetPayload (clonePayload p) in DecodeCatalogSetPayload b = Ok c ∧ CanonicalCatalogSetPayload c = Ok b.
Proof.
  intros (H1 & H2 & H3 & H4)%CanonicalCatalogSetPayload_ok c. destruct (canonical_payload_fixed p H1 H2) as [Hcl Hcan]. fold c in Hcl, Hcan, H2, H3. split.
  - unfold DecodeCatalogSetPayload. rewrite (proj2 (Z.ltb_ge _ _) H4). cbn. rewrite (payload_roundtrip _ _ H2 Hcan H3), Hcan.
    by rewrite (proj2 (valid_payload_ok _ _) H2).
  - apply CanonicalCatalogSetPayload_ok. by rewrite Hcl, Hcan.
Qed.

End payload_facts.
