(* ===== verification/CatalogAuth.v ===== *)
(** * internal/catalogauth: signing and verifying catalog sets

    The service signs the canonical payload as a flattened JWS; the client
    verifies it under any of the keys the release accepts, requires the payload
    to be canonical, bound to its request and core snapshot, and inside its
    validity window. [ValidateCatalogSetResult] of internal/catalog checks the
    shape of an envelope only. *)

From S2P Require Import Prelude GoStrings NetUrl Base64 JsonUnique FormulaId Resolution ClosureGraph FetchPolicy CatalogFields CatalogRequest.
From S2P Require Import CatalogTap CatalogClosure CatalogArtifact CatalogSet Jws CatalogKeys CatalogPayload.
From stdpp Require Import options.
Import catalogkeys.
Open Scope Z_scope.

(** ** Signing keys *)

(** [rsa.PrivateKey]: the public part and what [Validate] says of the rest *)
Record PrivateKey := MkPrivateKey { vk_Public : PublicKey; vk_Validate : bool }.

(** Files, private-key parsing and signing. A signature is randomized: [salt] is
    what [rand.Reader] delivers. *)
Record file_info := MkFileInfo { fi_regular : bool; fi_symlink : bool; fi_perm : Z }.

Class SigningLib := {
  os_Lstat : string → option file_info;
  os_ReadFile : string → option string;
  x509_ParsePKCS1PrivateKey : string → option PrivateKey;
  x509_ParsePKCS8PrivateKey : string → option (option PrivateKey);
  rsa_SignPSS : string → PrivateKey → string → option string;
}.

(** [json.Marshal] of the protected header and of the envelope *)
Class EnvelopeJSON := {
  marshal_protected : string → bool → list string → string → option string;
  marshal_envelope : string → string → string → option string;
}.

Inductive sign_error :=
| SignKeyID | SignKeyInvalid | SignKeySmall | SignPayload (e : payload_error) | SignMarshal | SignFailed
| KeyStat | KeyNotRegular | KeyPermissions | KeyRead | KeyPEM | KeyType | KeyUnparsed | KeyOtherType.

Definition validateSigningKey (key : PrivateKey) : result sign_error unit :=
  let public := vk_Public key in
  _ ← check (match pk_N public with None => true | Some n => n <=? 0 end || (pk_E public <? 3)) SignKeyInvalid;
  _ ← check (negb (vk_Validate key)) SignKeyInvalid;
  check (too_small public) SignKeySmall.

Definition auth_hasControl (value : string) : bool := existsb (λ p, (p.1 <? 32) || (p.1 =? 127)) (utf8_decode value).

Section loading.
Context `{S : !SignatureLib, L : !SigningLib}.

Definition parse_private (kind block : string) : result sign_error PrivateKey :=
  if bool_decide (kind = "RSA PRIVATE KEY") then
    match x509_ParsePKCS1PrivateKey block with Some key => Ok key | None => Err KeyUnparsed end
  else if bool_decide (kind = "PRIVATE KEY") then
    match x509_ParsePKCS8PrivateKey block with None => Err KeyUnparsed | Some None => Err KeyOtherType | Some (Some key) => Ok key end
  else Err KeyType.

Definition LoadSigningKey (filename : string) : result sign_error PrivateKey :=
  match os_Lstat filename with
  | None => Err KeyStat
  | Some info =>
      _ ← check (negb (fi_regular info) || fi_symlink info) KeyNotRegular;
      _ ← check (negb (Z.land (fi_perm info) 63 =? 0)) KeyPermissions;
      match os_ReadFile filename with
      | None => Err KeyRead
      | Some data =>
          match pem_Decode data with
          | None => Err KeyPEM
          | Some (kind, block, rest) =>
              _ ← check (negb (bool_decide (strings_TrimSpace rest = ""))) KeyPEM;
              key ← parse_private kind block;
              _ ← validateSigningKey key;
              Ok key
          end
      end
  end.

End loading.

(** ** Envelopes *)

Record VerifiedSet := MkVerifiedSet { vs_Payload : CatalogSetPayload; vs_PayloadRaw : string; vs_Signatures : list SignatureInfo }.

Inductive auth_error :=
| ExpectedDigest | NoAcceptedSigner | AcceptedSigner | AcceptedTwice | NotVerified | AuthPayload (e : payload_error) | PayloadNotCanonical
| AuthRequestDigest | AuthSnapshotDigest | SetNotYetValid | SetExpired.

Section auth.
Context `{U : !UnicodeTables, N : !NetURL, R : !DistributionReference, G : !GoDigest, D : !Digester}.
Context `{J : !JSONText, S : !SignatureLib, L : !SigningLib, E : !EnvelopeJSON, PJ : !PayloadJSON}.

Definition Sign (salt : string) (payload : CatalogSetPayload) (kid : string) (key : PrivateKey) : result sign_error string :=
  _ ← check (negb (ValidateKeyID kid) || negb (utf8_ValidString kid) || auth_hasControl kid) SignKeyID;
  _ ← validateSigningKey key;
  payloadRaw ← map_err SignPayload (CanonicalCatalogSetPayload payload);
  match marshal_protected "PS512" false ["b64"] kid with
  | None => Err SignMarshal
  | Some protectedRaw =>
      let protected := base64_encode protectedRaw in
      match rsa_SignPSS salt key (sha512_Sum (protected +:+ "." +:+ payloadRaw)) with
      | None => Err SignFailed
      | Some signature =>
          match marshal_envelope payloadRaw protected (base64_encode signature) with None => Err SignMarshal | Some envelope => Ok envelope end
      end
  end.

Definition sha256_digest_text (value : string) : bool := digest_valid value && bool_decide (digest_Algorithm value = "sha256").

(** The loop over the accepted signers: the first whose verification succeeds *)
Fixpoint verify_any (envelope : string) (keys : KeySet) (unknown : Z) (seen : gset string) (ids : list string) : result auth_error VerifiedJWS :=
  match ids with
  | [] => Err NotVerified
  | keyID :: ids =>
      _ ← check (negb (ValidateKeyID keyID)) AcceptedSigner;
      _ ← check (bool_decide (keyID ∈ seen)) AcceptedTwice;
      match VerifyJWS envelope keys (MkVerificationPolicy keyID unknown) with
      | Ok candidate => Ok candidate
      | Err _ => verify_any envelope keys unknown ({[keyID]} ∪ seen) ids
      end
  end.

(** The zero time means now; [clock] is the time of the call. *)
Definition VerifyAccepted (envelope : string) (keys : KeySet) (acceptedKeyIDs : list string) (expectedRequestDigest expectedCoreSnapshotDigest : string)
    (now : option Z) (clock : Z) (allowUnknownOverlap : bool) : result auth_error VerifiedSet :=
  _ ← check (negb (sha256_digest_text expectedRequestDigest) || negb (sha256_digest_text expectedCoreSnapshotDigest)) ExpectedDigest;
  let unknown := if allowUnknownOverlap then IgnoreUnknownSignatures else RejectUnknownSignatures in
  _ ← check (bool_decide (acceptedKeyIDs = [])) NoAcceptedSigner;
  verified ← verify_any envelope keys unknown ∅ acceptedKeyIDs;
  let payloadRaw := vj_payload verified in
  payload ← map_err AuthPayload (DecodeCatalogSetPayload payloadRaw);
  canonical ← map_err AuthPayload (CanonicalCatalogSetPayload payload);
  _ ← check (negb (bool_decide (payloadRaw = canonical))) PayloadNotCanonical;
  _ ← check (negb (bool_decide (expectedRequestDigest = "")) && negb (bool_decide (py_RequestDigest payload = expectedRequestDigest))) AuthRequestDigest;
  _ ← check (negb (bool_decide (expectedCoreSnapshotDigest = "")) && negb (bool_decide (py_CoreSnapshotDigest payload = expectedCoreSnapshotDigest)))
        AuthSnapshotDigest;
  let now := default clock now in
  _ ← check (now <? py_GeneratedAt payload) SetNotYetValid;
  _ ← check (negb (now <? py_ExpiresAt payload)) SetExpired;
  Ok (MkVerifiedSet payload payloadRaw (vj_signatures verified)).

Definition Verify (envelope : string) (keys : KeySet) (requiredKeyID expectedRequestDigest expectedCoreSnapshotDigest : string)
    (now : option Z) (clock : Z) (allowUnknownOverlap : bool) : result auth_error VerifiedSet :=
  VerifyAccepted envelope keys [requiredKeyID] expectedRequestDigest expectedCoreSnapshotDigest now clock allowUnknownOverlap.

End auth.

(** ** The shape of an envelope: internal/catalog, [validate.go] *)

Definition MaxJWSBytes : Z := Z.shiftl 64 20.

Record CatalogSetResult := MkCatalogSetResult { cr_SchemaVersion : string; cr_RequestDigest : string; cr_PayloadDigest : string; cr_JWS : string }.

Section shape.
Context `{J : !JSONText}.

(** A JSON string member that is present and not empty; an absent member is no JSON text. *)
Definition non_empty_string (raw : string) : bool :=
  match json_string raw with Some value => is_set raw && is_set value | None => false end.

Definition shape_signature (raw : string) : bool :=
  match json_object raw with
  | Some (Some signature) =>
      non_empty_string (member signature "protected") && non_empty_string (member signature "signature") &&
      (negb (is_set (member signature "header")) || match json_object (member signature "header") with Some (Some _) => true | _ => false end)
  | _ => false
  end.

Definition shape_flattened (object : gmap string string) : gmap string string :=
  let base : gmap string string := <["protected" := member object "protected"]> {["signature" := member object "signature"]} in
  if is_set (member object "header") then <["header" := member object "header"]> base else base.

Definition validateJWSShape (data : string) : bool :=
  is_ok (catalog_validateUniqueJSON (json_tokens data)) &&
  match json_object data with
  | Some (Some object) =>
      let payload := member object "payload" in
      let hasGeneral := is_set (member object "signatures") in
      let hasFlattened := is_set (member object "protected") || is_set (member object "header") || is_set (member object "signature") in
      is_set payload && bool_decide (is_Some (json_string payload)) && negb (Bool.eqb hasGeneral hasFlattened) &&
      (if hasGeneral then
         match json_array (member object "signatures") with
         | Some (signature :: signatures) => forallb shape_signature (signature :: signatures)
         | _ => false
         end
       else match json_Marshal (shape_flattened object) with Some raw => shape_signature raw | None => false end)
  | _ => false
  end.

Definition ValidateCatalogSetResult (r : CatalogSetResult) : list string :=
  err_if (negb (bool_decide (cr_SchemaVersion r = ResultSchemaVersion))) "unsupported schema_version" ++
  err_if (negb (validateSHA256Digest (cr_RequestDigest r))) "request_digest" ++
  err_if (negb (validateSHA256Digest (cr_PayloadDigest r))) "payload_digest" ++
  (if bool_decide (cr_JWS r = "") || (MaxJWSBytes <? strlen (cr_JWS r)) then ["jws size"]
   else err_if (negb (validateJWSShape (cr_JWS r))) "jws").

End shape.

(** ** What a verified set guarantees *)

Section facts.
Context `{U : !UnicodeTables, N : !NetURL, R : !DistributionReference, G : !GoDigest, D : !Digester}.
Context `{J : !JSONText, S : !SignatureLib, L : !SigningLib, E : !EnvelopeJSON, PJ : !PayloadJSON}.

Lemma verify_any_ok envelope keys unknown seen ids v :
  verify_any envelope keys unknown seen ids = Ok v →
  ∃ keyID, keyID ∈ ids ∧ ValidateKeyID keyID = true ∧ VerifyJWS envelope keys (MkVerificationPolicy keyID unknown) = Ok v.
Proof.
  revert seen. induction ids as [|id ids IH]; intros seen; [done|]. cbn [verify_any].
  intros ([] & Hid%check_ok%negb_false_iff & H)%bind_ok. apply bind_ok in H as ([] & _ & H).
  destruct (VerifyJWS envelope keys _) as [c|e] eqn:Hv.
  - injection H as <-. exists id. split_and!; [by left|done|done].
  - apply IH in H as (k & Hin & ? & ?). exists k. split_and!; [by right|done..].
Qed.

(** The first accepted signer that verifies is used; those before it must be well
    formed and different. *)
Lemma verify_any_intro envelope keys unknown seen ids id v :
  id ∈ ids → NoDup ids → (∀ x, x ∈ ids → ValidateKeyID x = true ∧ x ∉ seen) →
  VerifyJWS envelope keys (MkVerificationPolicy id unknown) = Ok v → ∃ v', verify_any envelope keys unknown seen ids = Ok v'.
Proof.
  revert seen. induction ids as [|x ids IH]; intros seen Hin Hnd Hall Hv; [by apply not_elem_of_nil in Hin|]. cbn [verify_any].
  destruct (Hall x) as [Hx Hseen]; [by left|]. rewrite Hx, bool_decide_eq_false_2 by done. cbn.
  destruct (VerifyJWS envelope keys (MkVerificationPolicy x unknown)) as [c|e] eqn:Hc; [by eexists|].
  apply elem_of_cons in Hin as [->|Hin]; [congruence|]. apply NoDup_cons in Hnd as [Hn Hnd]. apply IH; try done.
  intros y Hy. destruct (Hall y) as [? ?]; [by right|]. split; [done|]. set_solver.
Qed.

Lemma token_not_empty id : ValidateKeyID id = true → id ≠ "".
Proof. intros H ->. done. Qed.

(** The set is what was signed under the key [id]. *)
Definition signed_under (keys : KeySet) (envelope : string) (id : string) (payloadRaw : string) : Prop :=
  ∃ key protected signature object, keys !! id = Some key ∧ json_object envelope = Some (Some object) ∧
    json_string (member object "payload") = Some payloadRaw ∧
    rsa_VerifyPSS key (sha512_Sum (protected +:+ "." +:+ payloadRaw)) signature = true.

Lemma VerifyJWS_signed envelope keys id unknown v :
  keys ≠ ∅ → ValidateKeyID id = true → VerifyJWS envelope keys (MkVerificationPolicy id unknown) = Ok v →
  signed_under keys envelope id (vj_payload v).
Proof.
  intros Hk Hid Hv.
  destruct (VerifyJWS_steps _ _ _ _ Hk Hv) as (object & policy' & raws & sigs & st & _ & Ho & Hp & Hpol & _ & Hs & Hreq & _).
  apply normalized_ok in Hpol as [Hpol _]. cbn in Hpol. rewrite bool_decide_eq_false_2 in Hpol by (by apply token_not_empty).
  destruct Hs as [_ _ _ Hc _ Hr]. apply Hr in Hreq. rewrite Hpol in Hreq.
  apply list_elem_of_fmap in Hreq as (s & -> & [[key Hkey] Hin]%list_elem_of_filter).
  eapply Forall_forall in Hc as [_ Hc]; [|exact Hin]. rewrite Hkey in Hc. by exists key, (ps_protected s), (ps_signature s), object.
Qed.

Lemma VerifyAccepted_steps envelope keys ids request snapshot now clock allow s :
  VerifyAccepted envelope keys ids request snapshot now clock allow = Ok s →
  ∃ id v, id ∈ ids ∧ ValidateKeyID id = true ∧
    VerifyJWS envelope keys (MkVerificationPolicy id (if allow then IgnoreUnknownSignatures else RejectUnknownSignatures)) = Ok v ∧
    vs_PayloadRaw s = vj_payload v ∧ vs_Signatures s = vj_signatures v ∧
    DecodeCatalogSetPayload (vs_PayloadRaw s) = Ok (vs_Payload s) ∧ CanonicalCatalogSetPayload (vs_Payload s) = Ok (vs_PayloadRaw s) ∧
    sha256_digest_text request = true ∧ sha256_digest_text snapshot = true ∧
    (request ≠ "" → py_RequestDigest (vs_Payload s) = request) ∧ (snapshot ≠ "" → py_CoreSnapshotDigest (vs_Payload s) = snapshot) ∧
    py_GeneratedAt (vs_Payload s) <= default clock now < py_ExpiresAt (vs_Payload s).
Proof.
  unfold VerifyAccepted. intros ([] & Hd%check_ok & H)%bind_ok. apply orb_false_iff in Hd as [Hd1%negb_false_iff Hd2%negb_false_iff].
  apply bind_ok in H as ([] & _ & H). apply bind_ok in H as (v & (id & Hin & Hid & Hv)%verify_any_ok & H).
  apply bind_ok in H as (payload & Hdec%map_err_ok & H). apply bind_ok in H as (canonical & Hcan%map_err_ok & H).
  apply bind_ok in H as ([] & Hc%check_ok & H). apply bind_ok in H as ([] & Hr%check_ok & H). apply bind_ok in H as ([] & Hs%check_ok & H).
  apply bind_ok in H as ([] & Hg%check_ok & H). apply bind_ok in H as ([] & He%check_ok & [= <-]). cbn.
  apply negb_false_iff, bool_decide_eq_true in Hc. subst canonical. apply Z.ltb_ge in Hg. apply negb_false_iff, Z.ltb_lt in He.
  exists id, v. split_and!; try done.
  - intros Hne. rewrite bool_decide_eq_false_2 in Hr by done. by apply negb_false_iff, bool_decide_eq_true in Hr.
  - intros Hne. rewrite bool_decide_eq_false_2 in Hs by done. by apply negb_false_iff, bool_decide_eq_true in Hs.
Qed.

Lemma canonical_valid p b : CanonicalCatalogSetPayload p = Ok b → ValidateCatalogSetPayload p = [].
Proof. by intros (H & _)%CanonicalCatalogSetPayload_ok. Qed.

End facts.

(** C4: A verified catalog set is authentic, well formed, current and about its
    request: one of the accepted keys verifies a signature over exactly the
    payload text of the envelope, that text is the canonical form of the payload
    returned, the payload passes every structural check, it was made for the
    expected request and core snapshot, and the time lies inside its window of at
    most one day. *)
Theorem VerifyAccepted_authentic
  `{U : !UnicodeTables, N : !NetURL, R : !DistributionReference, G : !GoDigest, D : !Digester}
  `{J : !JSONText, S : !SignatureLib, PJ : !PayloadJSON} envelope keys ids request snapshot now clock allow s
  (Hkeys : keys ≠ ∅) (Hrequest : request ≠ "") (Hsnapshot : snapshot ≠ "")
  (Hok : VerifyAccepted envelope keys ids request snapshot now clock allow = Ok s) :
  (∃ id, id ∈ ids ∧ signed_under keys envelope id (vs_PayloadRaw s)) ∧
  CanonicalCatalogSetPayload (vs_Payload s) = Ok (vs_PayloadRaw s) ∧ payload_wf (vs_Payload s) ∧
  py_RequestDigest (vs_Payload s) = request ∧ py_CoreSnapshotDigest (vs_Payload s) = snapshot ∧
  py_GeneratedAt (vs_Payload s) <= default clock now < py_ExpiresAt (vs_Payload s) ∧
  default clock now < py_GeneratedAt (vs_Payload s) + MaxCatalogSetLifetime.
Proof.
  destruct (VerifyAccepted_steps _ _ _ _ _ _ _ _ _ Hok) as (id & v & Hin & Hid & Hv & Hraw & _ & _ & Hcan & _ & _ & Hr & Hs & Ht).
  pose proof (ValidateCatalogSetPayload_ok _ (canonical_valid _ _ Hcan)) as Hw. pose proof (pyw_lifetime _ Hw). split_and!; try done; auto; try lia.
  exists id. split; [done|]. rewrite Hraw. by eapply VerifyJWS_signed.
Qed.

(** ** What the service signs, the client accepts *)

(** A member of an object that reads as a value *)
Definition reads {A} (read : string → option A) (object : gmap string string) (field : string) (value : A) : Prop :=
  ∃ raw, object !! field = Some raw ∧ raw ≠ "" ∧ read raw = Some value.

(** A text that the duplicate check accepts and that reads as an object *)
Definition object_text `{J : !JSONText} (raw : string) (object : gmap string string) : Prop :=
  raw ≠ "" ∧ metadata_rejectDuplicateJSONKeys (json_tokens raw) = Ok tt ∧ json_object raw = Some (Some object).

(** What is relied on: encoding/json reads back what it prints, a printed payload is
    UTF-8, and RSA verifies its own signatures. *)
Class SigningLaws `{J : !JSONText, S : !SignatureLib, L : !SigningLib, E : !EnvelopeJSON, PJ : !PayloadJSON} : Prop := {
  payload_utf8 p b : encodePayload p = Some b → utf8_ValidString b = true;
  protected_reads alg b64 crit kid raw : utf8_ValidString kid = true → marshal_protected alg b64 crit kid = Some raw →
    ∃ m, object_text raw m ∧ reads json_string m "alg" alg ∧ reads json_bool m "b64" (Some b64) ∧ reads json_strings m "crit" crit ∧
      reads json_string m "kid" kid;
  envelope_reads payload protected signature raw : utf8_ValidString payload = true → marshal_envelope payload protected signature = Some raw →
    ∃ m, object_text raw m ∧ dom m = {["payload"; "protected"; "signature"]} ∧ reads json_string m "payload" payload ∧
      reads json_string m "protected" protected ∧ reads json_string m "signature" signature;
  flattened_reads raw m : object_text raw m →
    ∃ raw' m', json_Marshal (flattened m) = Some raw' ∧ object_text raw' m' ∧ dom m' = dom (flattened m) ∧
      ∀ field value, reads json_string (flattened m) field value → reads json_string m' field value;
  sign_verifies salt key hash signature : rsa_SignPSS salt key hash = Some signature → vk_Validate key = true →
    signature ≠ "" ∧ rsa_VerifyPSS (vk_Public key) hash signature = true;
}.

Lemma decodeBase64URL_encode s : decodeBase64URL (base64_encode s) = Some s.
Proof.
  pose proof (base64_encode_strict s) as Hs. unfold decodeBase64URL.
  assert (∀ f, (∀ c, f c = true → outside_alphabet c = true) → any_byte f (base64_encode s) = false) as Hno.
  { intros f Hf. rewrite any_byte_all in *. apply negb_false_iff in Hs. apply negb_false_iff. eapply all_bytes_impl; [|exact Hs].
    intros c Hc%negb_true_iff. apply negb_true_iff, not_true_iff_false. intros Hfc%Hf. congruence. }
  unfold strings_ContainsAny. rewrite Hno.
  - unfold strings_Contains. rewrite Hno; [apply base64_decode_encode|]. intros c Hc%ascii_eqb_eq. subst. done.
  - intros c Hc. let chars := eval vm_compute in ("+/" +:+ space_bytes) in change ("+/" +:+ space_bytes) with chars in Hc.
    unfold strings_Contains in Hc. cbn [any_byte] in Hc. rewrite !orb_true_iff, !ascii_eqb_eq in Hc.
    destruct Hc as [->|[->|[->|[->|[->|[->|[=]]]]]]]; vm_compute; reflexivity.
Qed.

Lemma base64_encode_not_empty s : s ≠ "" → base64_encode s ≠ "".
Proof. destruct s as [|a [|b [|c s]]]; done. Qed.

Lemma token_rune_space r : token_rune r = true → unicode_IsSpace r = false.
Proof.
  intros H. assert (45 <= r <= 122) as Hr by (unfold token_rune in H; rewrite !orb_true_iff, !andb_true_iff, !Z.leb_le, !Z.eqb_eq in H; lia).
  unfold unicode_IsSpace. rewrite !orb_false_iff, !andb_false_iff, !Z.leb_gt, !Z.eqb_neq. lia.
Qed.

Lemma utf8_decode_head c s : ∃ r a p l, utf8_decode (String c s) = (r, String a p) :: l.
Proof. cbn [utf8_decode]. repeat case_match; by do 4 eexists. Qed.

Lemma token_TrimSpace kid : ValidateKeyID kid = true → strings_TrimSpace kid ≠ "".
Proof.
  unfold ValidateKeyID, safeToken. intros [Hne Hall]%andb_true_iff. apply negb_true_iff, orb_false_iff in Hne as [Hne _].
  apply bool_decide_eq_false in Hne. destruct kid as [|c s]; [done|].
  destruct (utf8_decode_head c s) as (r & a & p & l & Hd). unfold strings_TrimSpace. rewrite Hd in *.
  assert (Forall (λ x : Z * string, unicode_IsSpace x.1 = false) ((r, String a p) :: l)) as Hs.
  { apply Forall_forall. intros x Hx. apply token_rune_space. eapply forallb_forall in Hall; [exact Hall|]. by apply list_elem_of_In. }
  rewrite (drop_spaces_id _ Hs), drop_spaces_id by (by apply Forall_reverse). by rewrite reverse_involutive.
Qed.

Lemma reads_member {A} (read : string → option A) m field value :
  reads read m field value → is_set (member m field) = true ∧ read (member m field) = Some value ∧ is_Some (m !! field).
Proof. intros (raw & Hl & Hne & Hr). unfold member, is_set. rewrite Hl. cbn. by rewrite bool_decide_eq_false_2. Qed.

Lemma has_only_dom fields (m : gmap string string) : dom m ⊆ list_to_set fields → has_only fields m = true.
Proof.
  intros Hd. apply forallb_forall. intros [k v] Hin%list_elem_of_In%elem_of_map_to_list. apply bool_decide_eq_true. cbn.
  apply elem_of_dom_2 in Hin. set_solver.
Qed.

Lemma member_absent (m : gmap string string) field : field ∉ dom m → member m field = "".
Proof. intros H%not_elem_of_dom. unfold member. by rewrite H. Qed.

(** One step of the error monad *)
Ltac next := cbn [mbind result_bind check negb map_err orb andb].

Lemma is_set_empty : is_set "" = false.
Proof. done. Qed.

Section roundtrip.
Context `{U : !UnicodeTables, N : !NetURL, R : !DistributionReference, G : !GoDigest, D : !Digester}.
Context `{J : !JSONText, S : !SignatureLib, L : !SigningLib, E : !EnvelopeJSON, PJ : !PayloadJSON}.

Lemma decodeJSONObject_text raw m : object_text raw m → decodeJSONObject raw = Ok m.
Proof. intros (_ & Hu & Ho). by apply decodeJSONObject_ok. Qed.

Lemma decodeString_reads m field value what : reads json_string m field value → decodeString (member m field) what = Ok value.
Proof. intros (Hs & Hr & _)%reads_member. apply decodeString_ok. split; [|done]. intros H. by rewrite H in Hs. Qed.

Lemma decode_non_empty_reads m field value what :
  reads json_string m field value → value ≠ "" → decode_non_empty (member m field) what = Ok value.
Proof. intros Hr Hne. unfold decode_non_empty. rewrite (decodeString_reads _ _ _ _ Hr). cbn. by rewrite bool_decide_eq_false_2. Qed.

(** The header [Sign] writes passes every check of the protected header. *)
Lemma signed_header_checks m kid :
  reads json_string m "alg" "PS512" → reads json_bool m "b64" (Some false) → reads json_strings m "crit" ["b64"] → reads json_string m "kid" kid →
  ValidateKeyID kid = true →
  check_algorithm m = Ok tt ∧ check_unencoded m = Ok tt ∧ check_critical m = Ok tt ∧ signer_kid m ∅ = Ok kid ∧ shared_parameter m ∅ = false.
Proof.
  intros Halg Hb64 Hcrit Hkid Hv. split_and!.
  - unfold check_algorithm. rewrite (decodeString_reads _ _ _ _ Halg). done.
  - unfold check_unencoded. apply reads_member in Hb64 as (-> & -> & _). done.
  - unfold check_critical. apply reads_member in Hb64 as (_ & _ & [raw Hl]). apply reads_member in Hcrit as (-> & -> & _). cbn.
    by rewrite Hl.
  - unfold signer_kid. pose proof (reads_member _ _ _ _ Hkid) as (_ & _ & [raw Hl]). rewrite Hl.
    assert (raw = member m "kid") as -> by (unfold member; by rewrite Hl). rewrite (decodeString_reads _ _ _ _ Hkid). cbn.
    by rewrite bool_decide_eq_false_2 by (by apply token_TrimSpace).
  - apply not_true_iff_false. intros ([k v] & _ & Hk)%existsb_exists. apply bool_decide_eq_true in Hk. by destruct Hk as [? ?%lookup_empty_Some].
Qed.

Lemma parse_signed raw m protectedRaw header kid signature :
  object_text raw m → dom m = {["protected"; "signature"]} → reads json_string m "protected" (base64_encode protectedRaw) →
  reads json_string m "signature" (base64_encode signature) → signature ≠ "" → object_text protectedRaw header →
  reads json_string header "alg" "PS512" → reads json_bool header "b64" (Some false) → reads json_strings header "crit" ["b64"] →
  reads json_string header "kid" kid → ValidateKeyID kid = true →
  parseJWSSignature raw = Ok (MkParsedSignature kid (base64_encode protectedRaw) protectedRaw signature).
Proof.
  intros Hraw Hdom Hp Hs Hne Hh H1 H2 H3 H4 Hv. destruct (signed_header_checks header kid H1 H2 H3 H4 Hv) as (C1 & C2 & C3 & C4 & C5).
  unfold parseJWSSignature. rewrite (decodeJSONObject_text _ _ Hraw). next.
  rewrite has_only_dom by (rewrite Hdom; set_solver). next.
  rewrite (decode_non_empty_reads _ _ _ _ Hp) by (apply base64_encode_not_empty, Hh). next. rewrite decodeBase64URL_encode.
  rewrite (decodeJSONObject_text _ _ Hh). next. unfold decode_unprotected.
  rewrite (member_absent m "header"), is_set_empty by (rewrite Hdom; set_solver). next. rewrite C5. next. rewrite C1. next. rewrite C2. next. rewrite C3. next.
  rewrite C4. next. rewrite (decode_non_empty_reads _ _ _ _ Hs) by (by apply base64_encode_not_empty). next.
  by rewrite decodeBase64URL_encode.
Qed.

Lemma flattened_signed m :
  dom m = {["payload"; "protected"; "signature"]} → is_set (member m "protected") = true → is_set (member m "signature") = true →
  dom (flattened m) = {["protected"; "signature"]} ∧ flattened m !! "protected" = m !! "protected" ∧ flattened m !! "signature" = m !! "signature".
Proof.
  intros Hd Hp Hs. assert (∀ f, f ∈ ["protected"; "header"; "signature"] → is_set (member m f) = true → flattened m !! f = m !! f) as Hl.
  { intros f Hf Hset. unfold flattened. destruct (m !! f) as [raw|] eqn:Ef.
    - apply map_lookup_filter_Some. split; [done|]. cbn. split; [done|]. unfold member in Hset. by rewrite Ef in Hset.
    - unfold member in Hset. by rewrite Ef in Hset. }
  rewrite (Hl "protected"), (Hl "signature") by (done || set_solver). split_and!; [|done..]. apply set_eq. intros f. rewrite elem_of_dom. split.
  - intros [raw [Hf [Hin _]]%map_lookup_filter_Some]. apply elem_of_dom_2 in Hf. cbn in Hin. set_solver.
  - intros [->%elem_of_singleton| ->%elem_of_singleton]%elem_of_union; rewrite Hl by (done || set_solver); apply elem_of_dom; rewrite Hd; set_solver.
Qed.

Lemma reads_same {A} (read : string → option A) m m' field value : m' !! field = m !! field → reads read m field value → reads read m' field value.
Proof. intros Hl (raw & Hr & ?). exists raw. by rewrite Hl. Qed.

Context `{SL : !SigningLaws}.

(** Whatever [Sign] returns, [VerifyJWS] accepts under the public part of the key. *)
Lemma Sign_VerifyJWS salt payload kid key envelope keys unknown :
  Sign salt payload kid key = Ok envelope → keys !! kid = Some (vk_Public key) →
  unknown = RejectUnknownSignatures ∨ unknown = IgnoreUnknownSignatures →
  ∃ v raw, CanonicalCatalogSetPayload payload = Ok raw ∧ VerifyJWS envelope keys (MkVerificationPolicy kid unknown) = Ok v ∧ vj_payload v = raw.
Proof using SL.
  unfold Sign. intros ([] & Hkid%check_ok & H)%bind_ok Hkey Hun. apply orb_false_iff in Hkid as [[Hkid%negb_false_iff Hutf%negb_false_iff]%orb_false_iff _].
  apply bind_ok in H as ([] & Hk & H). apply bind_ok in H as (raw & Hraw%map_err_ok & H).
  destruct (marshal_protected "PS512" false ["b64"] kid) as [protectedRaw|] eqn:Hmp; [|done].
  destruct (rsa_SignPSS salt key _) as [signature|] eqn:Hsign; [|done].
  destruct (marshal_envelope raw _ _) as [env|] eqn:Hme; [|done]. injection H as <-.
  assert (vk_Validate key = true) as Hvk.
  { unfold validateSigningKey in Hk. apply bind_ok in Hk as ([] & _ & Hk). by apply bind_ok in Hk as ([] & Hk%check_ok%negb_false_iff & _). }
  destruct (sign_verifies _ _ _ _ Hsign Hvk) as [Hsne Hver].
  destruct (protected_reads _ _ _ _ _ Hutf Hmp) as (header & Hh & H1 & H2 & H3 & H4).
  apply CanonicalCatalogSetPayload_ok in Hraw as Hraw'. destruct Hraw' as (_ & _ & Henc & _).
  destruct (envelope_reads _ _ _ _ (payload_utf8 _ _ Henc) Hme) as (m & Hm & Hdom & Hpay & Hprot & Hsig).
  pose proof (reads_member _ _ _ _ Hprot) as (Hps & _ & _). pose proof (reads_member _ _ _ _ Hsig) as (Hss & _ & _).
  destruct (flattened_signed m Hdom Hps Hss) as (Hfd & Hfp & Hfs).
  destruct (flattened_reads _ _ Hm) as (raw' & m' & Hmar & Hm' & Hd' & Hreads).
  assert (parseJWSSignature raw' = Ok (MkParsedSignature kid (base64_encode protectedRaw) protectedRaw signature)) as Hparse.
  { eapply parse_signed; try done; [by rewrite Hd'| |]; apply Hreads; by eapply reads_same. }
  assert (keys ≠ ∅) as Hne by (intros ->; by rewrite lookup_empty in Hkey).
  unfold VerifyJWS. rewrite (bool_decide_eq_false_2 (keys = ∅)) by done. next. unfold normalized.
  cbn [vp_RequiredKeyID vp_UnknownSignatures]. rewrite (bool_decide_eq_false_2 (kid = "")) by (by apply token_not_empty). next.
  rewrite bool_decide_eq_false_2 by (by apply token_TrimSpace). next.
  replace (negb (unknown =? RejectUnknownSignatures) && negb (unknown =? IgnoreUnknownSignatures)) with false by (destruct Hun as [-> | ->]; done).
  next. rewrite (decodeJSONObject_text _ _ Hm). next.
  rewrite has_only_dom by (rewrite Hdom; set_solver). next. rewrite (decodeString_reads _ _ _ _ Hpay).
  assert (envelope_signatures m = Ok [raw']) as ->.
  { unfold envelope_signatures. rewrite (member_absent m "signatures") by (rewrite Hdom; set_solver). rewrite Hps. rewrite is_set_empty. cbn [orb Bool.eqb]. next. by rewrite Hmar. }
  next. cbn [foldM_res]. unfold verify_signature. rewrite Hparse. cbn. rewrite Hkey. unfold verifyPS512. cbn. rewrite Hver. cbn. rewrite bool_decide_eq_true_2 by done. cbn. by do 2 eexists.
Qed.


(** The payload of a verified envelope does not depend on the signer asked for. *)
Lemma VerifyJWS_payload envelope keys policy policy' v v' :
  keys ≠ ∅ → VerifyJWS envelope keys policy = Ok v → VerifyJWS envelope keys policy' = Ok v' → vj_payload v = vj_payload v'.
Proof.
  intros Hk (o & _ & _ & _ & _ & _ & Ho & Hp & _)%VerifyJWS_steps (o' & _ & _ & _ & _ & _ & Ho' & Hp' & _)%VerifyJWS_steps; try done.
  rewrite Ho in Ho'. injection Ho' as <-. congruence.
Qed.

End roundtrip.

(** C29: What the service signs, every client of the release accepts: when [Sign]
    succeeds, [VerifyAccepted] with a key set that holds the public key, a list of
    different well-formed accepted signers that contains its identifier, the digests
    of the payload and a time inside its window returns the canonical form of the
    payload that was signed, under either policy for unknown signatures. *)
Theorem Sign_VerifyAccepted
  `{U : !UnicodeTables, N : !NetURL, R : !DistributionReference, G : !GoDigest, D : !Digester}
  `{J : !JSONText, S : !SignatureLib, L : !SigningLib, E : !EnvelopeJSON, PJ : !PayloadJSON, SL : !SigningLaws, PL : !PayloadJSONLaws}
  salt payload kid key envelope keys ids now clock allow
  (Hsign : Sign salt payload kid key = Ok envelope) (Hkey : keys !! kid = Some (vk_Public key))
  (Hids : kid ∈ ids) (Hdistinct : NoDup ids) (Hvalid : ∀ id, id ∈ ids → ValidateKeyID id = true)
  (Hrequest : sha256_digest_text (py_RequestDigest payload) = true) (Hsnapshot : sha256_digest_text (py_CoreSnapshotDigest payload) = true)
  (Htime : py_GeneratedAt payload <= default clock now < py_ExpiresAt payload) :
  ∃ s, VerifyAccepted envelope keys ids (py_RequestDigest payload) (py_CoreSnapshotDigest payload) now clock allow = Ok s ∧
    vs_Payload s = canonicalizeCatalogSetPayload (clonePayload payload).
Proof.
  assert (keys ≠ ∅) as Hne by (intros ->; by rewrite lookup_empty in Hkey).
  set (unknown := if allow then IgnoreUnknownSignatures else RejectUnknownSignatures).
  destruct (Sign_VerifyJWS _ _ _ _ _ _ unknown Hsign Hkey) as (v & raw & Hraw & Hv & Hp); [destruct allow; auto|].
  destruct (verify_any_intro _ _ _ ∅ _ _ _ Hids Hdistinct (λ x Hx, conj (Hvalid x Hx) (not_elem_of_empty x)) Hv) as [v' Hany].
  destruct (verify_any_ok _ _ _ _ _ _ Hany) as (id & _ & _ & Hv').
  assert (vj_payload v' = raw) as Hp' by (rewrite <- Hp; by eapply VerifyJWS_payload).
  destruct (payload_text_roundtrip _ _ Hraw) as [Hdec Hcan]. unfold VerifyAccepted. fold unknown. rewrite Hrequest, Hsnapshot. next.
  rewrite (bool_decide_eq_false_2 (ids = [])) by (intros ->; by apply not_elem_of_nil in Hids). next. rewrite Hany. next. rewrite Hp', Hdec. next. rewrite Hcan. next.
  rewrite (bool_decide_eq_true_2 (raw = raw)) by done. next. change (py_RequestDigest (canonicalizeCatalogSetPayload _)) with (py_RequestDigest payload).
  change (py_CoreSnapshotDigest (canonicalizeCatalogSetPayload _)) with (py_CoreSnapshotDigest payload).
  rewrite (bool_decide_eq_true_2 (py_RequestDigest payload = py_RequestDigest payload)) by done.
  rewrite (bool_decide_eq_true_2 (py_CoreSnapshotDigest payload = py_CoreSnapshotDigest payload)) by done. cbn [negb]. rewrite !andb_false_r. next.
  change (py_GeneratedAt (canonicalizeCatalogSetPayload _)) with (py_GeneratedAt payload).
  change (py_ExpiresAt (canonicalizeCatalogSetPayload _)) with (py_ExpiresAt payload).
  rewrite (proj2 (Z.ltb_ge _ _) (proj1 Htime)). next. rewrite (proj2 (Z.ltb_lt _ _) (proj2 Htime)). next. by eexists.
Qed.

(** ** A signed set *)

Module AuthExample.

Import JwsExample.

Definition private : PrivateKey := MkPrivateKey key true.

Definition signing : SigningLib :=
  {| os_Lstat _ := None; os_ReadFile _ := None; x509_ParsePKCS1PrivateKey _ := None; x509_ParsePKCS8PrivateKey _ := None;
     rsa_SignPSS _ k hash := if bool_decide (vk_Public k = key) then Some ("signed:" +:+ hash) else None |}.

Definition envelopes : EnvelopeJSON :=
  {| marshal_protected alg b64 crit id :=
       if bool_decide (alg = "PS512") && bool_decide (b64 = false) && bool_decide (crit = ["b64"]) && bool_decide (id = kid) then Some protectedJSON else None;
     marshal_envelope raw p sig :=
       if bool_decide (raw = payload) && bool_decide (p = protected) && bool_decide (sig = base64_encode signature) then Some "{envelope}" else None |}.

Definition set : CatalogSetPayload := CatalogSet.Example.payload.

Definition payloads : PayloadJSON :=
  {| encodePayload p := if bool_decide (p = canonicalizeCatalogSetPayload (clonePayload set)) then Some payload else None;
     decodePayload b := if bool_decide (b = payload) then Some (canonicalizeCatalogSetPayload (clonePayload set)) else None |}.

Lemma payloads_laws : PayloadJSONLaws (U := ascii_tables) (N := https_only) (R := CatalogArtifact.Example.no_reference) (J := payloads).
Proof. split. intros p b _ _ H. cbn in H. case_bool_decide as Hp; [|done]. injection H as <-. by rewrite Hp. Qed.

Lemma objects_inv raw m : object_text (J := texts) raw m → m = header ∨ m = flat ∨ m = envelope ∨ m = ∅.
Proof.
  intros (_ & _ & H). cbn in H. apply fmap_Some in H as (m' & H & [= ->]). unfold objects in H.
  repeat (apply lookup_insert_Some in H as [[_ <-]|[_ H]]; [tauto|]). apply lookup_singleton_Some in H as [_ <-]. tauto.
Qed.

Ltac known := eexists; split; [vm_compute; reflexivity|split; [done|vm_compute; reflexivity]].

Lemma reads_unmarked m field value : m !! field = Some ("=" +:+ value) → reads (json_string (JSONText := texts)) m field value.
Proof. intros H. by eexists. Qed.

Lemma text_laws : SigningLaws (J := texts) (S := signatures) (L := signing) (E := envelopes) (PJ := payloads).
Proof.
  split.
  - intros p b H. cbn in H. case_bool_decide; [|done]. by injection H as <-.
  - intros alg b64 crit id raw _ H. cbn in H. repeat case_bool_decide; try done. subst. injection H as <-. exists header.
    split_and!; [split_and!; [done|reflexivity|reflexivity]|known..].
  - intros p q sig raw _ H. cbn in H. repeat case_bool_decide; try done. subst. injection H as <-. exists envelope.
    split_and!; [split_and!; [done|reflexivity|vm_compute; reflexivity]| |apply reads_unmarked; reflexivity..].
    apply set_eq. intros f. unfold envelope, flat. rewrite !dom_insert_L, dom_singleton_L. set_solver.
  - intros raw m H. assert (flattened m = flat ∨ flattened m = ∅) as [Hf|Hf].
    { apply objects_inv in H as [-> |[-> |[-> | ->]]]; [right|left|left|right]; vm_compute; reflexivity. }
    + exists "{flat}", flat. rewrite Hf. split_and!; [vm_compute; reflexivity|split_and!; [done|reflexivity|vm_compute; reflexivity]|done|done].
    + exists "{}", ∅. rewrite Hf. split_and!; [vm_compute; reflexivity|split_and!; [done|reflexivity|vm_compute; reflexivity]|done|done].
  - intros salt k hash sig H _. cbn in H. case_bool_decide; [|done]. injection H as <-. split; [done|]. cbn. by rewrite !bool_decide_eq_true_2.
Qed.

Lemma signed : Sign (U := ascii_tables) (N := https_only) (R := CatalogArtifact.Example.no_reference) (S := signatures) (L := signing) (E := envelopes)
  (PJ := payloads) "salt" set kid private = Ok "{envelope}".
Proof. vm_compute. reflexivity. Qed.

Lemma set_accepted : is_ok (VerifyAccepted (U := ascii_tables) (N := https_only) (R := CatalogArtifact.Example.no_reference) (G := sha256_only)
  (D := digester) (J := texts) (S := signatures) (PJ := payloads) "{envelope}" keys [kid] KeyExample.digest KeyExample.digest (Some 500) 0 true) = true.
Proof. vm_compute. reflexivity. Qed.

End AuthExample.

Lemma VerifyAccepted_authentic_witness :
  ∃ s, signed_under (J := JwsExample.texts) (S := JwsExample.signatures) JwsExample.keys "{envelope}" JwsExample.kid (vs_PayloadRaw s) ∧
    py_RequestDigest (vs_Payload s) = KeyExample.digest.
Proof.
  pose proof AuthExample.set_accepted as Ha. destruct (VerifyAccepted _ _ _ _ _ _ _ _) as [s|e] eqn:Hs; [|done].
  assert (JwsExample.keys ≠ ∅) as Hk by apply insert_non_empty.
  destruct (VerifyAccepted_authentic (U := ascii_tables) (N := https_only) (R := CatalogArtifact.Example.no_reference) (G := sha256_only)
    (D := JwsExample.digester) (J := JwsExample.texts) (S := JwsExample.signatures) (PJ := AuthExample.payloads) "{envelope}" JwsExample.keys
    [JwsExample.kid] KeyExample.digest KeyExample.digest (Some 500) 0 true s Hk ltac:(done) ltac:(done) Hs)
    as ((id & Hid & Hsigned) & _ & _ & Hr & _).
  apply list_elem_of_singleton in Hid as ->. exists s. split; [exact Hsigned|exact Hr].
Defined.

Lemma Sign_VerifyAccepted_witness :
  ∃ s, VerifyAccepted (U := ascii_tables) (N := https_only) (R := CatalogArtifact.Example.no_reference) (G := sha256_only)
      (D := JwsExample.digester) (J := JwsExample.texts) (S := JwsExample.signatures) (PJ := AuthExample.payloads) "{envelope}" JwsExample.keys
      [JwsExample.kid] KeyExample.digest KeyExample.digest None 500 false = Ok s ∧
    vs_Payload s = canonicalizeCatalogSetPayload (clonePayload AuthExample.set).
Proof.
  apply (Sign_VerifyAccepted (L := AuthExample.signing) (E := AuthExample.envelopes) (SL := AuthExample.text_laws) (PL := AuthExample.payloads_laws)
    "salt" AuthExample.set JwsExample.kid AuthExample.private "{envelope}" JwsExample.keys [JwsExample.kid] None 500 false AuthExample.signed).
  - reflexivity.
  - by left.
  - by apply NoDup_singleton.
  - intros id ->%list_elem_of_singleton. reflexivity.
  - vm_compute. reflexivity.
  - vm_compute. reflexivity.
  - cbn. lia.
Defined.
