(* ===== verification/CatalogResolver.v ===== *)
(** * internal/catalogresolver: the closure over core metadata and tap catalogs

    [New] indexes the signed tap catalogs; [Resolve] looks the requested roots up,
    follows aliases, renames and migrations across taps, normalizes every
    dependency, walks the closure, orders it and validates it. The core metadata
    is an interface, as in the source. The catalog generator runs it to make the
    results it signs and the frontend to recompute them.

    The set of taps a lookup goes through is a state that the functions thread;
    a lookup that fails ends the resolution, except for the lookup of a core name,
    which does not touch the set. *)

From S2P Require Import Prelude GoStrings NetUrl FormulaId Graph ClosureGraph Metadata CatalogFields.
From S2P Require Import TapPolicy CatalogRequest CatalogTap CatalogClosure.
From stdpp Require Import options.
Local Open Scope Z_scope.

(** ** Interfaces and state *)

Class CoreCatalog := { core_Lookup : string → result meta_error Match }.

Record Resolver := MkResolver {
  rv_catalogs : gmap string TapCatalog; rv_formulae : gmap string Formula; rv_mappings : gmap string string;
  rv_policy : TapPolicy;
}.

Inductive new_error :=
| NewPolicy | NewTooMany | NewCore | NewNil (tap : string) | NewInvalid (tap : string) (errs : list string)
| NewKey (tap : string) | NewDuplicateFormula (id : string) | NewDuplicateMapping (id : string).

(** ** Construction *)

Definition migrationsAsMappings (values : list Migration) : list ScopedMapping :=
  (λ m, MkScopedMapping (mg_From m) (mg_To m)) <$> values.

Definition document_mappings (document : TapCatalog) : list ScopedMapping :=
  tc_Aliases document ++ tc_Renames document ++ migrationsAsMappings (tc_Migrations document).

Definition add_formula (formulae : gmap string Formula) (formula : Formula) : result new_error (gmap string Formula) :=
  _ ← check (bool_decide (is_Some (formulae !! fm_ID formula))) (NewDuplicateFormula (fm_ID formula));
  Ok (<[fm_ID formula := formula]> formulae).

Definition add_mapping (mappings : gmap string string) (m : ScopedMapping) : result new_error (gmap string string) :=
  _ ← check (bool_decide (is_Some (mappings !! sm_From m))) (NewDuplicateMapping (sm_From m));
  Ok (<[sm_From m := sm_To m]> mappings).

Section new.
Context `{U : !UnicodeTables, N : !NetURL}.

(** One iteration of the loop over the catalogs; [None] is a nil document. *)
Definition add_catalog (r : Resolver) (entry : string * option TapCatalog) : result new_error Resolver :=
  let '(tap, document) := entry in
  _ ← check (TapID_IsCore tap) NewCore;
  match document with
  | None => Err (NewNil tap)
  | Some document =>
      _ ← (match ValidateTapCatalog document with [] => Ok tt | errs => Err (NewInvalid tap errs) end);
      _ ← check (negb (bool_decide (ts_ID (tc_Tap document) = tap))) (NewKey tap);
      formulae ← foldM_res add_formula (rv_formulae r) (tc_Formulae document);
      mappings ← foldM_res add_mapping (rv_mappings r) (document_mappings document);
      Ok (MkResolver (<[tap := document]> (rv_catalogs r)) formulae mappings (rv_policy r))
  end.

(** [policy] is the result of [LoadTapPolicy]. Go ranges over the map in an
    unspecified order. *)
Definition New (policy : option TapPolicy) (catalogs : gmap string (option TapCatalog)) : result new_error Resolver :=
  match policy with
  | None => Err NewPolicy
  | Some policy =>
      _ ← check (MaxTaps <? size catalogs)%nat NewTooMany;
      foldM_res add_catalog (MkResolver ∅ ∅ ∅ policy) (map_to_list catalogs)
  end.

End new.

(** ** Lookups *)

Inductive lookup_error :=
| LkMeta (e : meta_error) | LkIdentity (e : id_error) | LkNotCanonical (id : string) | LkMissingTap (tap : string)
| LkAbsent (id : string) | LkCycle (p : list string) | LkFuel.

Inductive formulaSource := CoreFormula (formula : Metadata.Formula) (id : string) | ExternalFormula (formula : Formula) (id : string).

Definition source_id (source : formulaSource) : string :=
  match source with CoreFormula _ id => id | ExternalFormula _ id => id end.

Definition use_tap (id : string) (used : gset string) : gset string :=
  if FormulaID_IsCore id then used else {[FormulaID_Tap id]} ∪ used.

Section lookups.
Context `{U : !UnicodeTables, C : !CoreCatalog}.
Variable r : Resolver.

Fixpoint resolveMapping_loop (fuel : nat) (active : gmap string nat) (chain : list string) (used : gset string) (id : string)
    : result lookup_error (gset string * string) :=
  match fuel with
  | O => Err LkFuel
  | S fuel =>
      let used := use_tap id used in
      match active !! id with
      | Some index => Err (LkCycle (drop index chain ++ [id]))
      | None =>
          match rv_mappings r !! id with
          | None => Ok (used, id)
          | Some next => resolveMapping_loop fuel (<[id := length chain]> active) (chain ++ [id]) used next
          end
      end
  end.

(** Every iteration but the last two finds a new key of the mappings. *)
Definition resolveMapping (id : string) (used : gset string) : result lookup_error (gset string * string) :=
  resolveMapping_loop (S (S (size (rv_mappings r)))) ∅ [] used id.

Definition lookupExact (id : string) (used : gset string) : result lookup_error (gset string * string * formulaSource) :=
  if FormulaID_IsCore id then
    m ← map_err LkMeta (core_Lookup (FormulaID_Name id));
    canonical ← map_err LkIdentity (ParseFormulaID (mt_Canonical m));
    Ok (used, canonical, CoreFormula (mt_Formula m) canonical)
  else
    '(used, resolved) ← resolveMapping id (use_tap id used);
    if FormulaID_IsCore resolved then
      m ← map_err LkMeta (core_Lookup (FormulaID_Name resolved));
      match ParseFormulaID (mt_Canonical m) with
      | Ok canonical =>
          _ ← check (negb (bool_decide (canonical = resolved))) (LkNotCanonical resolved);
          Ok (used, canonical, CoreFormula (mt_Formula m) canonical)
      | Err _ => Err (LkNotCanonical resolved)
      end
    else
      match rv_formulae r !! resolved with
      | Some formula => Ok (used, resolved, ExternalFormula formula resolved)
      | None => if bool_decide (rv_catalogs r !! FormulaID_Tap resolved = None)
                then Err (LkMissingTap (FormulaID_Tap resolved)) else Err (LkAbsent resolved)
      end.

Definition normalizeDependency (owner raw : string) (used : gset string)
    : result lookup_error (gset string * string * formulaSource) :=
  if strings_Contains raw "/" then
    id ← map_err LkIdentity (ParseFormulaID raw);
    lookupExact id used
  else
    core ← map_err LkIdentity (ParseFormulaID raw);
    match lookupExact core used with
    | Ok found => Ok found
    | Err (LkMeta ErrFormulaNotFound) =>
        local ← map_err LkIdentity (ParseFormulaID (owner +:+ "/" +:+ raw));
        lookupExact local used
    | Err e => Err e
    end.

End lookups.

(** ** Nodes *)

Inductive prebuilt_error :=
| PbNoArchive | PbNoPolicy | PbPolicyID | PbNotRootOnly | PbNotRoot | PbVersion | PbSourceDigest | PbLicense | PbBottleAllowed
| PbHasBottle | PbPolicyDependencies | PbDependencies | PbPlatform | PbTag | PbURL | PbSHA256 | PbFormat.

Inductive node_error :=
| NdMeta (e : meta_error) | NdDisabled | NdNoBottle (tag : string) | NdPrebuilt (tag : string) (e : prebuilt_error)
| NdUnavailable (tag : string).

Definition hasBottleTag (files : list BottleFile) (tag : string) : bool := bool_decide (tag ∈ fl_Tag <$> files).

Definition hasNativeBottleForTag (bottle : option BottleDeclaration) (tag : string) : bool :=
  match bottle with
  | Some b => hasBottleTag (bd_Files b) tag || hasBottleTag (bd_Files b) "all"
  | None => false
  end.

Definition formulaHasDependencies (formula : Formula) : bool :=
  negb (bool_decide (length (fm_Dependencies formula) = 0%nat))
  || existsb (λ v, negb (bool_decide (length (fv_Dependencies v) = 0%nat))) (fm_Variations formula).

Definition prebuiltPolicyPlatform (platforms : list PrebuiltArchivePlatformPolicy) (target : Platform)
    : option PrebuiltArchivePlatformPolicy :=
  snd <$> list_find (λ p, ap_Platform p = pl_OS target +:+ "/" +:+ pl_Architecture target) platforms.

Definition prebuiltArchiveFile (files : list PrebuiltArchiveFile) (tag : string) : option PrebuiltArchiveFile :=
  snd <$> list_find (λ f, pf_Tag f = tag) files.

Definition pkgVersion (version : string) (revision : Z) : string :=
  if 0 <? revision then version +:+ "_" +:+ strconv_Itoa revision else version.

Definition bottleTag (platform : Platform) : string :=
  if bool_decide (pl_Architecture platform = "arm64") then "arm64_linux" else "x86_64_linux".

Definition authorizePrebuiltArchive (tapPolicy : TapPolicy) (formula : Formula) (platform : Platform) (tag : string)
    (requestedRoot : bool) : result prebuilt_error unit :=
  match fm_PrebuiltArchive formula with
  | None => Err PbNoArchive
  | Some declaration =>
      match PrebuiltArchiveForFormula tapPolicy (fm_ID formula) with
      | None => Err PbNoPolicy
      | Some policy =>
          _ ← check (negb (bool_decide (po_FormulaID policy = fm_ID formula))) PbPolicyID;
          _ ← check (negb (po_RootOnly policy)) PbNotRootOnly;
          _ ← check (negb requestedRoot) PbNotRoot;
          _ ← check (negb (bool_decide (fm_StableVersion formula = po_Version policy))) PbVersion;
          _ ← check (negb (bool_decide (fm_SourceDigest formula = po_FormulaSourceDigest policy))) PbSourceDigest;
          _ ← check (negb (bool_decide (fm_License formula = po_License policy))) PbLicense;
          _ ← check (negb (po_RequireNoBottle policy)) PbBottleAllowed;
          _ ← check (bool_decide (is_Some (fm_Bottle formula))) PbHasBottle;
          _ ← check (negb (bool_decide (length (items (po_Dependencies policy)) = 0%nat))) PbPolicyDependencies;
          _ ← check (formulaHasDependencies formula) PbDependencies;
          match prebuiltPolicyPlatform (items (po_Platforms policy)) platform with
          | None => Err PbPlatform
          | Some policyPlatform =>
              match prebuiltArchiveFile (pd_Files declaration) tag with
              | None => Err PbTag
              | Some file =>
                  _ ← check (negb (bool_decide (pf_URL file = ap_URL policyPlatform))) PbURL;
                  _ ← check (negb (bool_decide (pf_SHA256 file = ap_SHA256 policyPlatform))) PbSHA256;
                  check (negb (bool_decide (pf_Format file = ac_Format (po_Archive policy)))) PbFormat
              end
          end
      end
  end.

(** The loop over the variations: dependencies and keg-only for the tag, or
    [None] when the Formula is unavailable there *)
Fixpoint apply_variations (tag : string) (deps : list Dependency) (kegOnly : bool) (l : list FormulaVariation)
    : option (list Dependency * bool) :=
  match l with
  | [] => Some (deps, kegOnly)
  | v :: l =>
      if negb (bool_decide (fv_Tag v = tag)) then apply_variations tag deps kegOnly l
      else if fv_Unavailable v then None
      else apply_variations tag (if fv_OverridesDependencies v then fv_Dependencies v else deps)
             (if fv_OverridesKegOnly v then fv_KegOnly v else kegOnly) l
  end.

(** The rebuild of the bottle an external Formula is installed from *)
Definition external_rebuild (tapPolicy : TapPolicy) (formula : Formula) (platform : Platform) (tag : string)
    (requestedRoot : bool) : result node_error Z :=
  if hasNativeBottleForTag (fm_Bottle formula) tag then Ok (match fm_Bottle formula with Some b => bd_Rebuild b | None => 0 end)
  else match authorizePrebuiltArchive tapPolicy formula platform tag requestedRoot with
       | Ok _ => Ok 0
       | Err e => if bool_decide (fm_PrebuiltArchive formula = None) then Err (NdNoBottle tag) else Err (NdPrebuilt tag e)
       end.

(** A node without its dependencies, and the dependencies as declared. For a
    core Formula a bottle was found, so that its declaration is there. *)
Definition nodeAndDependencies (tapPolicy : TapPolicy) (source : formulaSource) (platform : Platform) (tag : string)
    (requestedRoot : bool) : result node_error (Node * list Requirement) :=
  match source with
  | CoreFormula formula id =>
      _ ← check (f_Disabled formula) (NdMeta ErrFormulaDisabled);
      _ ← map_err NdMeta (BottleFor formula tag);
      let rebuild := match f_Bottle formula with Some b => b_Rebuild b | None => 0 end in
      Ok (MkNode id (FormulaID_Tap id) (f_Name formula) (f_FullName formula) (f_StableVersion formula) (f_Revision formula)
            (pkgVersion (f_StableVersion formula) (f_Revision formula)) (f_VersionScheme formula) rebuild (f_License formula)
            (KegOnlyFor formula tag) [],
          (λ dep, MkRequirement dep "" "" 0 0 true) <$> DependenciesFor formula tag)
  | ExternalFormula formula id =>
      _ ← check (fm_Disabled formula) NdDisabled;
      rebuild ← external_rebuild tapPolicy formula platform tag requestedRoot;
      match apply_variations tag (fm_Dependencies formula) (fm_KegOnly formula) (fm_Variations formula) with
      | None => Err (NdUnavailable tag)
      | Some (deps, kegOnly) =>
          Ok (MkNode id (FormulaID_Tap id) (fm_Name formula) (fm_HomebrewFullName formula) (fm_StableVersion formula)
                (fm_Revision formula) (pkgVersion (fm_StableVersion formula) (fm_Revision formula)) (fm_VersionScheme formula)
                rebuild (fm_License formula) kegOnly [],
              (λ dep, MkRequirement (dp_Raw dep) (dp_ID dep) "" 0 0 true) <$> deps)
      end
  end.

(** ** The closure *)

Inductive resolve_error :=
| CrPlatform | CrNoRoots | CrRootInvalid (id : string) | CrRoot (id : string) (e : lookup_error) | CrDuplicateRoot (id : string)
| CrTooManyNodes | CrLookup (e : lookup_error) | CrQueueIdentity (id canonical : string) | CrNode (id : string) (e : node_error)
| CrDependency (id raw : string) (e : lookup_error) | CrSignedDependency (id raw : string) | CrRack (name : string)
| CrDependencyCycle (p : list string) | CrInvalid (errs : list string) | CrFuel.

Definition node_with (n : Node) (deps : list Requirement) : Node :=
  MkNode (nd_ID n) (nd_Tap n) (nd_Name n) (nd_HomebrewFullName n) (nd_FormulaVersion n) (nd_FormulaRevision n) (nd_PkgVersion n)
    (nd_VersionScheme n) (nd_BottleRebuild n) (nd_License n) (nd_KegOnly n) deps.

Definition requirement_with (req : Requirement) (id : string) : Requirement :=
  MkRequirement (rm_Raw req) id (rm_MinimumPkgVersion req) (rm_MinimumRevision req) (rm_MinimumBottleRebuild req)
    (rm_DeclaredDirectly req).

Record walk_state := MkWalk {
  wk_queue : list string; wk_nodes : gmap string Node; wk_graph : gmap string (list Requirement); wk_used : gset string;
}.

Definition add_rack (byRack : gmap string string) (e : string * Node) : result resolve_error (gmap string string) :=
  let collision := match byRack !! nd_Name e.2 with Some previous => negb (bool_decide (previous = e.1)) | None => false end in
  _ ← check collision (CrRack (nd_Name e.2));
  Ok (<[nd_Name e.2 := e.1]> byRack).

(** [nodes] in the order of the map; the verdict does not depend on it. *)
Definition validateRackCollisions (nodes : gmap string Node) : result resolve_error unit :=
  _ ← foldM_res add_rack ∅ (map_to_list nodes);
  Ok tt.

Definition graph_succ (graph : gmap string (list Requirement)) (id : string) : list string :=
  rm_ID <$> default [] (graph !! id).

(** The recursion is no deeper than the graph. *)
Definition topo (graph : gmap string (list Requirement)) (roots : list string) : result resolve_error (list string) :=
  match dfs (graph_succ graph) (size graph) roots with
  | Ok order => Ok order
  | Err (Cycle p) => Err (CrDependencyCycle p)
  | Err OutOfFuel => Err CrFuel
  end.

(** The iterations that find their identity done and continue *)
Fixpoint skip_done (nodes : gmap string Node) (queue : list string) : list string :=
  match queue with
  | id :: rest => if bool_decide (is_Some (nodes !! id)) then skip_done nodes rest else queue
  | [] => []
  end.

Section resolve.
Context `{U : !UnicodeTables, C : !CoreCatalog}.
Variable r : Resolver.

(** The loop over the roots: taps used, canonical roots, mappings *)
Definition resolve_root (acc : gset string * list string * list RequestedMapping) (raw : string)
    : result resolve_error (gset string * list string * list RequestedMapping) :=
  let '(used, requested, mappings) := acc in
  _ ← check (negb (FormulaID_Validate raw)) (CrRootInvalid raw);
  '(used, id, _) ← map_err (CrRoot raw) (lookupExact r raw used);
  _ ← check (bool_decide (id ∈ requested)) (CrDuplicateRoot id);
  Ok (used, requested ++ [id], mappings ++ [MkRequestedMapping raw id]).

(** The loop over the declared dependencies of [id] *)
Definition resolve_dependency (id : string) (nodes : gmap string Node) (acc : gset string * list string * list Requirement)
    (dependency : Requirement) : result resolve_error (gset string * list string * list Requirement) :=
  let '(used, queue, deps) := acc in
  '(used, depID, _) ← map_err (CrDependency id (rm_Raw dependency))
     (normalizeDependency r (FormulaID_Tap id) (rm_Raw dependency) used);
  _ ← check (negb (bool_decide (rm_ID dependency = "")) && negb (bool_decide (rm_ID dependency = depID)))
        (CrSignedDependency id (rm_Raw dependency));
  Ok (used, (if bool_decide (is_Some (nodes !! depID)) then queue else queue ++ [depID]), deps ++ [requirement_with dependency depID]).

(** One iteration for an identity that is not done *)
Definition resolve_id (platform : Platform) (requested : list string) (st : walk_state) (id : string)
    : result resolve_error walk_state :=
  _ ← check (MaxClosureNodes <=? size (wk_nodes st))%nat CrTooManyNodes;
  '(used, canonical, source) ← map_err CrLookup (lookupExact r id (wk_used st));
  _ ← check (negb (bool_decide (canonical = id))) (CrQueueIdentity id canonical);
  '(node, dependencies) ← map_err (CrNode id)
     (nodeAndDependencies (rv_policy r) source platform (bottleTag platform) (bool_decide (id ∈ requested)));
  '(used, queue, deps) ← foldM_res (resolve_dependency id (wk_nodes st))
     (used, wk_queue st, default [] (wk_graph st !! id)) dependencies;
  let deps := sort_by rm_ID deps in
  Ok (MkWalk queue (<[id := node_with node deps]> (wk_nodes st)) (<[id := deps]> (wk_graph st)) used).

(** The fuel counts the iterations that add a node. *)
Fixpoint resolve_loop (platform : Platform) (requested : list string) (fuel : nat) (st : walk_state)
    : result resolve_error walk_state :=
  match skip_done (wk_nodes st) (wk_queue st) with
  | [] => Ok (MkWalk [] (wk_nodes st) (wk_graph st) (wk_used st))
  | id :: queue =>
      match fuel with
      | O => Err CrFuel
      | S fuel =>
          st' ← resolve_id platform requested (MkWalk queue (wk_nodes st) (wk_graph st) (wk_used st)) id;
          resolve_loop platform requested fuel st'
      end
  end.

(** Everything up to the final validation *)
Definition compute_closure (roots : list string) (platform : Platform) : result resolve_error ClosureResult :=
  _ ← check (negb (Platform_Validate platform)) CrPlatform;
  _ ← check (bool_decide (length roots = 0%nat)) CrNoRoots;
  '(used, requested, mappings) ← foldM_res resolve_root (∅, [], []) roots;
  st ← resolve_loop platform requested (S MaxClosureNodes) (MkWalk requested ∅ ∅ used);
  _ ← validateRackCollisions (wk_nodes st);
  order ← topo (wk_graph st) requested;
  Ok (MkClosureResult (Some requested) (Some mappings) (Some (slices_Sort (elements (wk_used st))))
        (Some (sort_by nd_ID (map_to_list (wk_nodes st)).*2)) (Some order)).

Definition Resolve (roots : list string) (platform : Platform) : result resolve_error ClosureResult :=
  closure ← compute_closure roots platform;
  match ValidateClosureResult closure with [] => Ok closure | errs => Err (CrInvalid errs) end.

End resolve.

(** ** The index *)

(** A loop that refuses a key it has met before *)
Lemma add_unique {A V E} (key : A → string) (val : A → V) (dup : A → E) (m : gmap string V) (l : list A) :
  NoDup (key <$> l) → (∀ x, x ∈ l → m !! key x = None) →
  ∃ m', foldM_res (λ (m : gmap string V) x, (_ ← check (bool_decide (is_Some (m !! key x))) (dup x);
                             Ok (<[key x := val x]> m)) : result E _) m l = Ok m' ∧
  ∀ k v, m' !! k = Some v ↔ m !! k = Some v ∨ ∃ x, x ∈ l ∧ key x = k ∧ val x = v.
Proof.
  revert m. induction l as [|a l IH]; intros m Hnd Hm; cbn [foldM_res].
  { exists m. split; [done|]. set_solver. }
  cbn in Hnd. apply NoDup_cons in Hnd as [Ha Hnd]. rewrite bool_decide_eq_false_2.
  2: { rewrite (Hm a) by set_solver. by intros ?%is_Some_None. }
  cbn [mbind result_bind check]. destruct (IH (<[key a:=val a]> m)) as (m' & Hf & Hl); [done| |].
  { intros x Hx. rewrite lookup_insert_ne; [apply Hm; set_solver|]. intros He. apply Ha. rewrite He.
    by apply list_elem_of_fmap_2. }
  exists m'. split; [done|]. intros k v. rewrite Hl, lookup_insert_Some. setoid_rewrite elem_of_cons. split.
  - intros [[[<- <-]|[? ?]]|(x & ? & ? & ?)]; [right; by exists a; auto|by left|right; by exists x; auto].
  - intros [Hk|(x & [->|Hx] & Hk & Hv)]; [|by left; left|right; by exists x].
    left. right. split; [|done]. intros <-. rewrite (Hm a) in Hk by set_solver. done.
Qed.

Section index.
Context `{U : !UnicodeTables, N : !NetURL}.

Definition entry_ok (e : string * option TapCatalog) : Prop :=
  ∃ c, e.2 = Some c ∧ tap_catalog_wf c ∧ ts_ID (tc_Tap c) = e.1.

Definition catalogs_ok (catalogs : gmap string (option TapCatalog)) : Prop :=
  (size catalogs <= MaxTaps)%nat ∧ ∀ tap d, catalogs !! tap = Some d → entry_ok (tap, d).

(** What the resolver knows is what the documents in [served] say. *)
Record indexes (served : string → TapCatalog → Prop) (r : Resolver) : Prop := {
  ix_catalog tap c : rv_catalogs r !! tap = Some c ↔ served tap c;
  ix_formula id f : rv_formulae r !! id = Some f ↔ ∃ tap c, served tap c ∧ f ∈ tc_Formulae c ∧ fm_ID f = id;
  ix_mapping from to : rv_mappings r !! from = Some to ↔
    ∃ tap c m, served tap c ∧ m ∈ document_mappings c ∧ sm_From m = from ∧ sm_To m = to;
}.

Lemma document_sources c : sm_From <$> document_mappings c = mapping_sources c.
Proof.
  unfold document_mappings, mapping_sources, migrationsAsMappings. rewrite !fmap_app. do 2 f_equal.
  by rewrite <-list_fmap_compose.
Qed.

Lemma document_mapping_tap c m :
  tap_catalog_wf c → m ∈ document_mappings c →
  FormulaID_Tap (sm_From m) = ts_ID (tc_Tap c) ∧ sm_From m ∉ formula_ids c ∧
  FormulaID_Validate (sm_To m) = true ∧ (FormulaID_Tap (sm_To m) = ts_ID (tc_Tap c) → sm_To m ∈ formula_ids c).
Proof.
  intros Hw. unfold document_mappings, migrationsAsMappings. rewrite !elem_of_app, list_elem_of_fmap.
  intros [Hm|[Hm|(g & -> & Hg)]].
  - destruct (tcw_alias _ Hw m Hm) as [[? ?] [? ?] ? ?]. done.
  - destruct (tcw_rename _ Hw m Hm) as [[? ?] [? ?] ? ?]. done.
  - destruct (tcw_migration _ Hw g Hg) as [[? ?] ? ? ? ? ?]. done.
Qed.

(** Identities carry their tap, so catalogs of different taps never collide. *)
Lemma add_catalog_indexes served r tap c :
  indexes served r → (∀ t d, served t d → t ≠ tap ∧ tap_catalog_wf d ∧ ts_ID (tc_Tap d) = t) →
  tap_catalog_wf c → ts_ID (tc_Tap c) = tap →
  ∃ r', add_catalog r (tap, Some c) = Ok r' ∧ rv_policy r' = rv_policy r ∧
        indexes (λ t d, served t d ∨ t = tap ∧ d = c) r'.
Proof.
  intros [Hc Hf Hm] Hother Hw Ht.
  destruct (add_unique fm_ID id (λ f, NewDuplicateFormula (fm_ID f)) (rv_formulae r) (tc_Formulae c)) as (fs & Hfs & Hfl).
  { apply (tcw_unique _ Hw). }
  { intros f Hin. apply eq_None_not_Some. intros (g & (t & d & (Hne & Hd & <-)%Hother & Hg & He)%Hf).
    apply Hne. pose proof (fw_tap _ _ (tcw_formula _ Hw f Hin)). pose proof (fw_tap _ _ (tcw_formula _ Hd g Hg)). congruence. }
  destruct (add_unique sm_From sm_To (λ m, NewDuplicateMapping (sm_From m)) (rv_mappings r) (document_mappings c)) as (ms & Hms & Hml).
  { rewrite document_sources. apply (tcw_sources _ Hw). }
  { intros m Hin. apply eq_None_not_Some. intros (to & (t & d & n & (Hne & Hd & <-)%Hother & Hn & He & _)%Hm).
    apply Hne. apply document_mapping_tap in Hin as [? _], Hn as [? _]; [congruence|done..]. }
  eexists. unfold add_catalog. unfold TapID_IsCore. rewrite (bool_decide_eq_false_2 (tap = Tap_String CoreTap)).
  2: { rewrite <-Ht. apply (sw_not_core _ (tcw_source _ Hw)). }
  rewrite (proj2 (ValidateTapCatalog_nil c) Hw), Ht. cbn [mbind result_bind check]. rewrite bool_decide_true by done. cbn [negb check].
  unfold add_formula, add_mapping, id in *. cbn beta in *.
  rewrite Hfs. cbn [mbind result_bind]. rewrite Hms. split; [reflexivity|]. split; [done|]. split; cbn.
  - intros t d. rewrite lookup_insert_Some, Hc. split.
    + intros [[<- <-]|[? ?]]; auto.
    + intros [Hs|[-> ->]]; [|by left]. right. split; [|done]. intros ->. by apply Hother in Hs as [? _].
  - intros i f. rewrite Hfl, Hf. split.
    + intros [(t & d & ? & ? & ?)|(x & ? & ? & <-)]; [exists t, d|exists tap, c]; auto.
    + intros (t & d & [?|[-> ->]] & ? & ?); [left; by exists t, d|right; by exists f].
  - intros from to. rewrite Hml, Hm. split.
    + intros [(t & d & m & ? & ? & ? & ?)|(m & ? & ? & ?)]; [exists t, d, m|exists tap, c, m]; auto.
    + intros (t & d & m & [?|[-> ->]] & ? & ? & ?); [left; by exists t, d, m|right; by exists m].
Qed.

Lemma add_catalog_ok r e r' : add_catalog r e = Ok r' → entry_ok e.
Proof.
  destruct e as [tap [c|]]; unfold add_catalog.
  - rewrite bind_ok. intros (_ & _ & H). destruct (ValidateTapCatalog c) eqn:Ev; [|done].
    apply bind_ok in H as (_ & _ & H). apply bind_ok in H as (_ & Hk%check_ok & _).
    apply negb_false_iff, bool_decide_eq_true in Hk. exists c. by apply ValidateTapCatalog_nil in Ev.
  - by rewrite bind_ok; intros (_ & _ & ?).
Qed.

Lemma add_catalogs_indexes served r l :
  indexes served r → (∀ t d, served t d → t ∉ l.*1 ∧ tap_catalog_wf d ∧ ts_ID (tc_Tap d) = t) →
  NoDup l.*1 → (∀ e, e ∈ l → entry_ok e) →
  ∃ r', foldM_res add_catalog r l = Ok r' ∧ rv_policy r' = rv_policy r ∧
        indexes (λ t d, served t d ∨ (t, Some d) ∈ l) r'.
Proof.
  revert served r. induction l as [|[tap d] l IH]; intros served r Hi Hs Hnd Hl; cbn [foldM_res].
  { exists r. split_and!; [done..|]. destruct Hi as [Hc Hf Hm]. split; intros *; rewrite ?Hc, ?Hf, ?Hm; set_solver. }
  cbn in Hnd. apply NoDup_cons in Hnd as [Hnt Hnd].
  destruct (Hl (tap, d)) as (c & Hd & Hw & Ht); [set_solver|]. cbn in Hd, Ht. subst d.
  destruct (add_catalog_indexes served r tap c) as (r1 & Ha & Hp & Hi1); [done| |done..|].
  { intros t d (Hn & ? & ?)%Hs. split; [set_solver|done]. }
  destruct (IH (λ t d, served t d ∨ t = tap ∧ d = c) r1) as (r2 & Hf & Hp2 & Hi2); [done| |done|set_solver|].
  { intros t d [(Hn & ? & ?)%Hs|[-> ->]]; [|done]. split; [set_solver|done]. }
  exists r2. rewrite Ha. cbn [mbind result_bind]. split_and!; [done|congruence|].
  destruct Hi2 as [Hc2 Hf2 Hm2].
  assert (∀ t d, ((served t d ∨ t = tap ∧ d = c) ∨ (t, Some d) ∈ l) ↔ served t d ∨ (t, Some d) ∈ (tap, Some c) :: l) as Heq.
  { intros t d. rewrite elem_of_cons. naive_solver. }
  split; intros *; rewrite ?Hc2, ?Hf2, ?Hm2; by setoid_rewrite Heq.
Qed.

Lemma New_indexes policy catalogs :
  catalogs_ok catalogs →
  ∃ r, New (Some policy) catalogs = Ok r ∧ rv_policy r = policy ∧ indexes (λ t c, catalogs !! t = Some (Some c)) r.
Proof.
  intros [Hsz Hok]. unfold New. rewrite (proj2 (Nat.ltb_ge _ _) Hsz). cbn [check mbind result_bind].
  destruct (add_catalogs_indexes (λ _ _, False) (MkResolver ∅ ∅ ∅ policy) (map_to_list catalogs)) as (r & Hr & Hp & [Hc Hf Hm]).
  - split; intros *; cbn; rewrite lookup_empty; naive_solver.
  - done.
  - apply NoDup_fst_map_to_list.
  - intros [t d] Hin%elem_of_map_to_list. by apply Hok.
  - exists r. split_and!; [done..|]. setoid_rewrite elem_of_map_to_list in Hc. setoid_rewrite elem_of_map_to_list in Hf.
    setoid_rewrite elem_of_map_to_list in Hm.
    assert (∀ (t : string) (c : TapCatalog), (False ∨ catalogs !! t = Some (Some c)) ↔ catalogs !! t = Some (Some c)) as Heq by naive_solver.
    split; intros *; rewrite ?Hc, ?Hf, ?Hm; by setoid_rewrite Heq.
Qed.

Lemma New_catalogs_ok policy catalogs r : New policy catalogs = Ok r → is_Some policy ∧ catalogs_ok catalogs.
Proof.
  unfold New. destruct policy as [policy|]; [|done]. rewrite bind_ok. intros (_ & Hs%check_ok%Nat.ltb_ge & H).
  split; [done|]. split; [done|]. intros tap d Hd%elem_of_map_to_list. revert Hd H. generalize (MkResolver ∅ ∅ ∅ policy).
  induction (map_to_list catalogs) as [|e l IH]; [set_solver|]. intros r0 Hin. cbn [foldM_res]. rewrite bind_ok.
  intros (r1 & Ha%add_catalog_ok & Hl). apply elem_of_cons in Hin as [<-|Hin]; [done|]. by eapply IH.
Qed.

End index.

(** ** Following mappings *)

Section mappings.
Context `{U : !UnicodeTables}.
Variable r : Resolver.

Definition mapping_succ (id : string) : list string :=
  match rv_mappings r !! id with Some next => [next] | None => [] end.

Notation leads := (edge mapping_succ).

Lemma leads_iff x y : leads x y ↔ rv_mappings r !! x = Some y.
Proof. unfold edge, mapping_succ. destruct (rv_mappings r !! x); set_solver. Qed.

(** Mappings are functions: a path without continuation has one end. *)
Lemma leads_end x y z :
  rtc leads x y → rv_mappings r !! y = None → rtc leads x z → rv_mappings r !! z = None → y = z.
Proof.
  intros Hy Hny Hz Hnz. induction Hy as [x|x w y Hw%leads_iff Hy IH].
  - apply rtc_inv in Hz as [?|(w & Hw%leads_iff & _)]; [done|congruence].
  - apply rtc_inv in Hz as [->|(v & Hv%leads_iff & Hz)]; [congruence|]. apply IH; [done|]. congruence.
Qed.

Lemma use_tap_elem t id used : t ∈ use_tap id used ↔ t ∈ used ∨ FormulaID_IsCore id = false ∧ FormulaID_Tap id = t.
Proof. unfold use_tap. destruct (FormulaID_IsCore id); set_solver. Qed.

(** The bookkeeping of the loop: the identities met form a path to [id]. *)
Record on_path (active : gmap string nat) (path : list string) (id : string) : Prop := {
  op_chain : chain mapping_succ (path ++ [id]);
  op_nodup : NoDup path;
  op_mapped x : x ∈ path → is_Some (rv_mappings r !! x);
  op_active x i : active !! x = Some i ↔ path !! i = Some x;
}.

Lemma on_path_next active path id next :
  on_path active path id → active !! id = None → rv_mappings r !! id = Some next →
  on_path (<[id := length path]> active) (path ++ [id]) next.
Proof.
  intros [Hc Hn Hm Ha] Hid Hnext. assert (id ∉ path) as Hni.
  { intros [i Hi]%list_elem_of_lookup. apply Ha in Hi. congruence. }
  split.
  - by apply chain_snoc; [|apply leads_iff].
  - apply NoDup_app. split_and!; [done|set_solver|apply NoDup_singleton].
  - intros x [?| ->%list_elem_of_singleton]%elem_of_app; [by apply Hm|by exists next].
  - intros x i. rewrite lookup_insert_Some, lookup_app_Some, Ha, list_lookup_singleton_Some. split.
    + intros [[<- <-]|[? ?]]; [right; split; [lia|]; split; [lia|done]|by left].
    + intros [Hi|(? & ? & <-)]; [|left; split; [done|lia]]. right. split; [|done]. intros <-.
      apply Hni, list_elem_of_lookup. by exists i.
Qed.

Lemma on_path_bound active path id : on_path active path id → (length path <= size (rv_mappings r))%nat.
Proof.
  intros [_ Hn Hm _]. rewrite <-(size_dom (rv_mappings r)), <-(size_list_to_set (C := gset string) path) by done.
  apply subseteq_size. intros x. rewrite elem_of_list_to_set. intros ?%Hm. by apply elem_of_dom.
Qed.

Lemma on_path_cycle active path id index :
  on_path active path id → active !! id = Some index → is_cycle mapping_succ (drop index path ++ [id]).
Proof.
  intros [Hc Hn _ Ha] Hi%Ha.
  assert (id ∈ path) as Hin by (apply list_elem_of_lookup; by exists index).
  pose proof (cycle_path_is_cycle mapping_succ path id Hc Hin) as Hcy. unfold cycle_path in Hcy.
  destruct (index_of_elem id path Hin) as (i & Hio & Hil). rewrite Hio in Hcy. cbn in Hcy.
  by rewrite (NoDup_lookup path index i id).
Qed.

(** What the loop answers from a state on the path from [start] *)
Definition mapping_answer (start : string) (used : gset string) (m : result lookup_error (gset string * string)) : Prop :=
  match m with
  | Ok (used', id) =>
      rtc leads start id ∧ rv_mappings r !! id = None ∧
      ∀ t, t ∈ used' ↔ t ∈ used ∨ ∃ x, rtc leads start x ∧ FormulaID_IsCore x = false ∧ FormulaID_Tap x = t
  | Err (LkCycle p) => is_cycle mapping_succ p ∧ ∃ x, x ∈ p ∧ rtc leads start x
  | Err _ => False
  end.

Lemma mapping_answer_step start next used m :
  rv_mappings r !! start = Some next → mapping_answer next (use_tap start used) m → mapping_answer start used m.
Proof.
  intros Hs. assert (∀ x, rtc leads start x ↔ x = start ∨ rtc leads next x) as Hr.
  { intros x. split.
    - intros H. apply rtc_inv in H as [<-|(y & Hy%leads_iff & H)]; [by left|]. right. congruence.
    - intros [->|H]; [done|]. eapply rtc_l; [by apply leads_iff|done]. }
  destruct m as [[used' id]|[| | | | |p|]]; cbn; try done.
  - intros (Hi & Hn & Ht). split_and!; [apply Hr; by right|done|]. intros t. rewrite Ht, use_tap_elem.
    setoid_rewrite Hr. split.
    + intros [[?|[? ?]]|(x & ? & ? & ?)]; [by left|right; by exists start; auto|right; by exists x; auto].
    + intros [?|(x & [->|?] & ? & ?)]; [by left; left|by left; right|right; by exists x].
  - intros (Hc & x & Hx & Hn). split; [done|]. exists x. split; [done|]. apply Hr. by right.
Qed.

Lemma resolveMapping_loop_answer fuel active path used id :
  on_path active path id → (S (S (size (rv_mappings r))) <= fuel + length path)%nat →
  mapping_answer id used (resolveMapping_loop r fuel active path used id).
Proof.
  revert active path used id. induction fuel as [|fuel IH]; intros active path used id Hp Hf.
  { apply on_path_bound in Hp. lia. }
  cbn [resolveMapping_loop]. destruct (active !! id) as [index|] eqn:Ea.
  - cbn. split; [by eapply on_path_cycle|]. exists id. set_solver.
  - destruct (rv_mappings r !! id) as [next|] eqn:En.
    + eapply mapping_answer_step; [done|]. apply IH; [by apply on_path_next|]. rewrite length_app. cbn. lia.
    + cbn. split_and!; [done..|]. intros t. rewrite use_tap_elem. split.
      * intros [?|[? ?]]; [by left|right; by exists id].
      * intros [?|(x & Hx & ? & ?)]; [by left|]. right. apply rtc_inv in Hx as [<-|(y & Hy%leads_iff & _)]; [done|congruence].
Qed.

Lemma resolveMapping_answer id used : mapping_answer id used (resolveMapping r id used).
Proof.
  apply resolveMapping_loop_answer; [|cbn; lia]. split; [done|constructor|set_solver|].
  intros x i. rewrite lookup_empty. by destruct i.
Qed.

(** The answer does not depend on the taps met before. *)
Lemma resolveMapping_loop_used fuel active path used used2 id :
  snd <$> resolveMapping_loop r fuel active path used id = snd <$> resolveMapping_loop r fuel active path used2 id.
Proof.
  revert active path used used2 id. induction fuel as [|fuel IH]; intros active path used used2 id; [done|].
  cbn [resolveMapping_loop]. destruct (active !! id); [done|]. by destruct (rv_mappings r !! id).
Qed.

End mappings.

(** ** Lookups *)

Section lookup_facts.
Context `{U : !UnicodeTables, C : !CoreCatalog}.
Variable r : Resolver.

(** The identity and the source a lookup finds, whatever taps were met before *)
Definition finds (id canonical : string) (source : formulaSource) : Prop :=
  ∀ used, ∃ used', lookupExact r id used = Ok (used', canonical, source).

Definition normalizes (owner raw dep : string) : Prop :=
  ∀ used, ∃ used' source, normalizeDependency r owner raw used = Ok (used', dep, source).

(** What was found, without the taps *)
Definition found (x : gset string * string * formulaSource) : string * formulaSource := (x.1.2, x.2).

Lemma lookupExact_used id used used2 : found <$> lookupExact r id used = found <$> lookupExact r id used2.
Proof.
  unfold lookupExact. destruct (FormulaID_IsCore id).
  - destruct (core_Lookup _) as [m|]; [|done]. cbn. by destruct (ParseFormulaID _).
  - pose proof (resolveMapping_loop_used r (S (S (size (rv_mappings r)))) ∅ [] (use_tap id used) (use_tap id used2) id) as Hm.
    unfold resolveMapping. destruct (resolveMapping_loop _ _ _ _ _ _) as [[u x]|e] in *;
      destruct (resolveMapping_loop _ _ _ _ _ _) as [[u2 x2]|e2] in *; simplify_eq/=; [|done].
    destruct (FormulaID_IsCore x2).
    + destruct (core_Lookup _) as [m|]; [|done]. cbn. destruct (ParseFormulaID _); [|done]. by destruct (check _ _).
    + destruct (rv_formulae r !! x2); [done|]. by destruct (bool_decide _).
Qed.

Lemma normalizeDependency_used owner raw used used2 :
  found <$> normalizeDependency r owner raw used = found <$> normalizeDependency r owner raw used2.
Proof.
  unfold normalizeDependency. destruct (strings_Contains raw "/").
  - destruct (ParseFormulaID raw); cbn; [apply lookupExact_used|done].
  - destruct (ParseFormulaID raw) as [core|]; cbn; [|done]. pose proof (lookupExact_used core used used2) as Hc.
    destruct (lookupExact r core used) as [x|e] eqn:E1, (lookupExact r core used2) as [y|e2] eqn:E2; cbn in Hc; try done.
    injection Hc as <-. destruct e as [[]| | | | | |]; try done. destruct (ParseFormulaID _); cbn; [apply lookupExact_used|done].
Qed.

Lemma lookupExact_finds id used used' canonical source :
  lookupExact r id used = Ok (used', canonical, source) → finds id canonical source.
Proof.
  intros H used2. pose proof (lookupExact_used id used used2) as Hu. rewrite H in Hu.
  destruct (lookupExact r id used2) as [[[u c] s]|]; [|done]. unfold found in Hu. cbn in Hu. naive_solver.
Qed.

Lemma normalizeDependency_finds owner raw used used' dep source :
  normalizeDependency r owner raw used = Ok (used', dep, source) → normalizes owner raw dep.
Proof.
  intros H used2. pose proof (normalizeDependency_used owner raw used used2) as Hu. rewrite H in Hu.
  destruct (normalizeDependency r owner raw used2) as [[[u c] s]|]; [|done]. unfold found in Hu. cbn in Hu. naive_solver.
Qed.

Lemma lookupExact_source id used used' canonical source :
  lookupExact r id used = Ok (used', canonical, source) →
  source_id source = canonical ∧
  match source with
  | CoreFormula f _ => ∃ name m, core_Lookup name = Ok m ∧ mt_Formula m = f ∧ ParseFormulaID (mt_Canonical m) = Ok canonical
  | ExternalFormula f _ => rv_formulae r !! canonical = Some f ∧ FormulaID_IsCore canonical = false
  end.
Proof.
  unfold lookupExact. destruct (FormulaID_IsCore id).
  - destruct (core_Lookup _) as [m|] eqn:Em; cbn; [|done]. destruct (ParseFormulaID _) as [c|] eqn:Ec; cbn; [|done].
    intros [= <- <- <-]. cbn. eauto 6.
  - rewrite bind_ok. intros ([u resolved] & _ & H). destruct (FormulaID_IsCore resolved) eqn:Er.
    + destruct (core_Lookup _) as [m|] eqn:Em; cbn in H; [|done]. destruct (ParseFormulaID _) as [c|] eqn:Ec; [|done].
      destruct (check _ _); cbn in H; [|done]. injection H as <- <- <-. cbn. eauto 6.
    + destruct (rv_formulae r !! resolved) as [f|] eqn:Ef; [|by destruct (bool_decide _)]. injection H as <- <- <-. done.
Qed.

(** The identities met on the way are of taps with a signed catalog. *)
Lemma lookupExact_taps `{N : !NetURL} served id used used' canonical source t :
  indexes served r → (∀ tap c, served tap c → tap_catalog_wf c ∧ ts_ID (tc_Tap c) = tap) →
  lookupExact r id used = Ok (used', canonical, source) → t ∈ used' → t ∈ used ∨ is_Some (rv_catalogs r !! t).
Proof.
  intros [Hc Hf Hm] Hs. unfold lookupExact. destruct (FormulaID_IsCore id) eqn:Ei.
  { destruct (core_Lookup _); cbn; [|done]. destruct (ParseFormulaID _); cbn; [|done]. intros [= <- <- <-]. by left. }
  rewrite bind_ok. intros ([u resolved] & Hr & H) Ht.
  pose proof (resolveMapping_answer r id (use_tap id used)) as Ha. rewrite Hr in Ha. destruct Ha as (Hres & Hnone & Hu).
  assert (u = used' ∧ (FormulaID_IsCore resolved = true ∨ is_Some (rv_formulae r !! resolved))) as [-> Hfin].
  { destruct (FormulaID_IsCore resolved).
    - destruct (core_Lookup _); cbn in H; [|done]. destruct (ParseFormulaID _); [|done].
      destruct (check _ _); cbn in H; [|done]. naive_solver.
    - destruct (rv_formulae r !! resolved); [naive_solver|]. by destruct (bool_decide _). }
  assert (∀ x, rtc (edge (mapping_succ r)) id x → FormulaID_IsCore x = false → is_Some (rv_catalogs r !! FormulaID_Tap x)) as Hx.
  { intros x Hrx Hcx. destruct (rv_mappings r !! x) as [y|] eqn:Exy.
    - apply Hm in Exy as (tap & c & m & Hsc & Hin & <- & _). destruct (Hs _ _ Hsc) as [Hw Heq].
      apply document_mapping_tap in Hin as (-> & _); [|done]. rewrite Heq. exists c. by apply Hc.
    - assert (x = resolved) as -> by (by eapply leads_end).
      destruct Hfin as [?|[f (tap & c & Hsc & Hin & <-)%Hf]]; [congruence|]. destruct (Hs _ _ Hsc) as [Hw Heq].
      rewrite (fw_tap _ _ (tcw_formula _ Hw f Hin)), Heq. exists c. by apply Hc. }
  apply Hu in Ht as [Ht|(x & Hrx & Hcx & <-)]; [|right; by apply Hx].
  apply use_tap_elem in Ht as [Ht|[_ <-]]; [by left|]. right. by apply Hx.
Qed.

Lemma normalizeDependency_cases owner raw used found :
  normalizeDependency r owner raw used = Ok found →
  ∃ id, lookupExact r id used = Ok found.
Proof.
  unfold normalizeDependency. destruct (strings_Contains raw "/").
  - rewrite bind_ok. intros (id & _ & H). by exists id.
  - rewrite bind_ok. intros (core & _ & H). destruct (lookupExact r core used) as [f|[[]| | | | | |]] eqn:El; try done.
    + injection H as <-. by exists core.
    + apply bind_ok in H as (local & _ & H). by exists local.
Qed.

End lookup_facts.

(** ** Fuel *)

Definition lookup_fuel (e : lookup_error) : Prop := match e with LkFuel => True | _ => False end.

Definition out_of_fuel (e : resolve_error) : Prop :=
  match e with
  | CrFuel => True
  | CrRoot _ e | CrLookup e | CrDependency _ _ e => lookup_fuel e
  | _ => False
  end.

Section fuel.
Context `{U : !UnicodeTables, C : !CoreCatalog}.
Variable r : Resolver.

Lemma lookupExact_fuel id used : never lookup_fuel (lookupExact r id used).
Proof.
  unfold lookupExact. never_tac. intros e He Hr. pose proof (resolveMapping_answer r id (use_tap id used)) as Ha.
  rewrite Hr in Ha. by destruct e.
Qed.

Lemma normalizeDependency_fuel owner raw used : never lookup_fuel (normalizeDependency r owner raw used).
Proof.
  unfold normalizeDependency. pose proof (λ x, lookupExact_fuel x used) as Hl. destruct (strings_Contains raw "/").
  - never_tac. apply Hl.
  - apply never_bind; [never_tac|]. intros core. specialize (Hl core) as Hc. destruct (lookupExact r core used) as [?|[[]| | | | | |]];
      try done. never_tac. apply Hl.
Qed.

Lemma resolve_root_fuel acc raw : never out_of_fuel (resolve_root r acc raw).
Proof.
  unfold resolve_root. destruct acc as [[used requested] mappings]. apply never_bind; [never_tac|]. intros _. apply never_bind.
  - apply (never_map_err_from _ _ lookup_fuel); [done|apply lookupExact_fuel].
  - intros ?. never_tac.
Qed.

Lemma resolve_id_fuel platform requested st id : never out_of_fuel (resolve_id r platform requested st id).
Proof.
  unfold resolve_id. apply never_bind; [never_tac|]. intros _. apply never_bind.
  { apply (never_map_err_from _ _ lookup_fuel); [done|apply lookupExact_fuel]. }
  intros ?. never_tac. unfold resolve_dependency. never_tac.
  apply (never_map_err_from _ _ lookup_fuel); [done|apply normalizeDependency_fuel].
Qed.

End fuel.

(** ** The walk *)

Lemma skip_done_spec nodes queue :
  (∀ x, x ∈ queue → x ∈ skip_done nodes queue ∨ is_Some (nodes !! x)) ∧
  (∀ x, x ∈ skip_done nodes queue → x ∈ queue) ∧
  match skip_done nodes queue with id :: _ => nodes !! id = None | [] => True end.
Proof.
  induction queue as [|id queue (IH1 & IH2 & IH3)]; cbn; [set_solver|]. case_bool_decide as Hd; [set_solver|].
  split_and!; [set_solver..|]. by apply eq_None_not_Some.
Qed.

(** Adding the edges of a new node keeps what was reachable. *)
Lemma reachable_grow (graph : gmap string (list Requirement)) id deps requested x :
  graph !! id = None → reachable (graph_succ graph) requested x → reachable (graph_succ (<[id := deps]> graph)) requested x.
Proof.
  intros Hn (y & Hy & Hr). exists y. split; [done|]. eapply rtc_subrel; [|exact Hr]. intros a b. unfold edge, graph_succ.
  destruct (decide (a = id)) as [->|Hne]; [rewrite Hn; set_solver|]. by rewrite lookup_insert_ne.
Qed.

Definition walk_nodes (st : walk_state) : list Node := sort_by nd_ID (map_to_list (wk_nodes st)).*2.

Lemma elem_of_walk_nodes st n : n ∈ walk_nodes st ↔ ∃ id, wk_nodes st !! id = Some n.
Proof.
  unfold walk_nodes. rewrite elem_of_sort_by, list_elem_of_fmap. split.
  - intros ([id m] & -> & H%elem_of_map_to_list). by exists id.
  - intros (id & H). exists (id, n). split; [done|]. by apply elem_of_map_to_list.
Qed.

Section built.
Context `{U : !UnicodeTables, C : !CoreCatalog}.
Variables (r : Resolver) (platform : Platform) (requested : list string).

(** A declared dependency and the one of the node: normalized from the tap of
    the Formula, and what the signed catalog claims if it claims one *)
Definition normalized (id : string) (req dep : Requirement) : Prop :=
  ∃ dep_id, dep = requirement_with req dep_id ∧ normalizes r (FormulaID_Tap id) (rm_Raw req) dep_id ∧
            (rm_ID req = "" ∨ rm_ID req = dep_id).

(** The node is the one the found Formula declares for this platform. *)
Definition built (id : string) (n : Node) : Prop :=
  ∃ source base reqs deps,
    finds r id id source ∧
    nodeAndDependencies (rv_policy r) source platform (bottleTag platform) (bool_decide (id ∈ requested)) = Ok (base, reqs) ∧
    Forall2 (normalized id) reqs deps ∧ n = node_with base (sort_by rm_ID deps).

Lemma built_id id n : built id n → nd_ID n = id.
Proof.
  intros (source & base & reqs & deps & Hf & Hn & _ & ->). cbn. destruct (Hf ∅) as (used' & Hl).
  apply lookupExact_source in Hl as [Hs _]. rewrite <-Hs. unfold nodeAndDependencies in Hn. destruct source as [f i|f i].
  - apply bind_ok in Hn as (_ & _ & Hn). by apply bind_ok in Hn as (_ & _ & [= <- _]).
  - apply bind_ok in Hn as (_ & _ & Hn). apply bind_ok in Hn as (rb & _ & Hn).
    destruct (apply_variations _ _ _ _) as [[ds k]|]; [|done]. by injection Hn as <- _.
Qed.

End built.

Section walk.
#[local] Set Default Proof Using "Type*".
Context `{U : !UnicodeTables, C : !CoreCatalog}.
Variables (r : Resolver) (platform : Platform) (requested : list string).

Notation built := (built r platform requested).
Notation normalized := (normalized r).

(** [good] holds of the taps a lookup may go through. *)
Variable good : string → Prop.
Hypothesis lookup_good : ∀ id used used' canonical source t,
  lookupExact r id used = Ok (used', canonical, source) → t ∈ used' → t ∈ used ∨ good t.

Record walk_inv (st : walk_state) : Prop := {
  wi_built id n : wk_nodes st !! id = Some n → built id n;
  wi_graph id : wk_graph st !! id = nd_Dependencies <$> wk_nodes st !! id;
  wi_closed id n d : wk_nodes st !! id = Some n → d ∈ nd_Dependencies n → rm_ID d ∈ wk_queue st ∨ is_Some (wk_nodes st !! rm_ID d);
  wi_roots x : x ∈ requested → x ∈ wk_queue st ∨ is_Some (wk_nodes st !! x);
  wi_reach x : x ∈ wk_queue st ∨ is_Some (wk_nodes st !! x) → reachable (graph_succ (wk_graph st)) requested x;
  wi_taps t : t ∈ wk_used st → good t;
}.

Lemma resolve_dependencies_ok id nodes used queue deps reqs used' queue' deps' :
  foldM_res (resolve_dependency r id nodes) (used, queue, deps) reqs = Ok (used', queue', deps') →
  ∃ new, deps' = deps ++ new ∧ Forall2 (normalized id) reqs new ∧ (∀ x, x ∈ queue → x ∈ queue') ∧
    (∀ d, d ∈ new → rm_ID d ∈ queue' ∨ is_Some (nodes !! rm_ID d)) ∧
    (∀ x, x ∈ queue' → x ∈ queue ∨ ∃ d, d ∈ new ∧ rm_ID d = x) ∧ (∀ t, t ∈ used' → t ∈ used ∨ good t).
Proof.
  revert used queue deps. induction reqs as [|req reqs IH]; intros used queue deps; cbn [foldM_res].
  { intros [= <- <- <-]. exists []. rewrite app_nil_r. split_and!; try done; try set_solver. }
  rewrite bind_ok. intros ([[u q] ds] & Hd & Hf). unfold resolve_dependency in Hd.
  apply bind_ok in Hd as ([[u1 dep] s] & Hn%map_err_ok & Hd). apply bind_ok in Hd as (_ & Hc%check_ok & [= <- <- <-]).
  destruct (IH _ _ _ Hf) as (new & -> & Hall & Hq & Hnew & Hold & Ht). exists (requirement_with req dep :: new).
  rewrite <-app_assoc. split_and!; [done| | | | |].
  - constructor; [|done]. exists dep. split_and!; [done|by eapply normalizeDependency_finds|].
    apply andb_false_iff in Hc as [?%negb_false_iff%bool_decide_eq_true|?%negb_false_iff%bool_decide_eq_true]; auto.
  - intros x Hx. apply Hq. case_bool_decide; set_solver.
  - intros d [->|?]%elem_of_cons; [|by apply Hnew]. cbn. case_bool_decide; [by right|]. left. apply Hq. set_solver.
  - intros x [Hx|(d & ? & ?)]%Hold; [|right; exists d; split; [by right|done]].
    case_bool_decide; [by left|]. apply elem_of_app in Hx as [?| ->%list_elem_of_singleton]; [by left|].
    right. exists (requirement_with req dep). split; [by left|done].
  - intros t [Ht'|?]%Ht; [|by right]. apply normalizeDependency_cases in Hn as (i & Hl). by eapply lookup_good.
Qed.

Lemma resolve_id_inv st id queue st' :
  walk_inv st → (∀ x, x ∈ wk_queue st → x ∈ id :: queue ∨ is_Some (wk_nodes st !! x)) →
  (∀ x, x ∈ id :: queue → x ∈ wk_queue st) → wk_nodes st !! id = None →
  resolve_id r platform requested (MkWalk queue (wk_nodes st) (wk_graph st) (wk_used st)) id = Ok st' →
  walk_inv st' ∧ size (wk_nodes st') = S (size (wk_nodes st)) ∧ (size (wk_nodes st) < MaxClosureNodes)%nat.
Proof.
  intros [Hb Hg Hc Hr Hre Ht] Hq Hsk Hid H. unfold resolve_id in H. cbn [wk_nodes wk_graph wk_queue wk_used] in H.
  apply bind_ok in H as (_ & Hsz%check_ok%Nat.leb_gt & H).
  apply bind_ok in H as ([[u canonical] source] & Hl%map_err_ok & H).
  apply bind_ok in H as (_ & He%check_ok & H). apply negb_false_iff, bool_decide_eq_true in He. subst canonical.
  apply bind_ok in H as ([node reqs] & Hn%map_err_ok & H). rewrite Hg, Hid in H. cbn [fmap option_fmap option_map default from_option] in H.
  apply bind_ok in H as ([[u2 q2] deps] & Hd & [= <-]).
  apply resolve_dependencies_ok in Hd as (new & -> & Hall & Hsub & Hnew & Hold & Hu). cbn [app] in *.
  split_and!; [split; cbn [wk_nodes wk_graph wk_queue wk_used]| |done].
  - intros x n. rewrite lookup_insert_Some. intros [[<- <-]|[_ Hx]]; [|by apply Hb].
    exists source, node, reqs, new. split_and!; try done. by eapply lookupExact_finds.
  - intros x. destruct (decide (x = id)) as [->|Hne]; [by rewrite !lookup_insert_eq|]. rewrite !lookup_insert_ne by done. apply Hg.
  - intros x n d. rewrite lookup_insert_Some. intros Hx Hin. rewrite is_Some_insert.
    assert (∀ y, y ∈ wk_queue st ∨ is_Some (wk_nodes st !! y) → y ∈ q2 ∨ id = y ∨ is_Some (wk_nodes st !! y)) as Hkeep.
    { intros y [[Hy|Hy]%Hq|Hy]; [|by auto..]. apply elem_of_cons in Hy as [->|Hy]; [by auto|]. left. by apply Hsub. }
    destruct Hx as [[<- <-]|[_ Hx]]; [|by apply Hkeep, (Hc x n)].
    cbn in Hin. rewrite elem_of_sort_by in Hin. destruct (Hnew d Hin) as [?|?]; auto.
  - intros x Hx. rewrite is_Some_insert. destruct (Hr x Hx) as [[Hy|Hy]%Hq|Hy]; [|by auto..].
    apply elem_of_cons in Hy as [->|Hy]; [by auto|]. left. by apply Hsub.
  - assert (wk_graph st !! id = None) as Hgid by (by rewrite Hg, Hid).
    assert (reachable (graph_succ (<[id := sort_by rm_ID new]> (wk_graph st))) requested id) as Hrid.
    { apply reachable_grow; [done|]. apply Hre. left. apply Hsk. by left. }
    intros x. rewrite is_Some_insert. intros [[Hx|(d & Hd & <-)]%Hold|[<-|Hx]]; [| |done|].
    + apply reachable_grow; [done|]. apply Hre. left. apply Hsk. by right.
    + destruct Hrid as (y & Hy & Hrtc). exists y. split; [done|]. eapply rtc_r; [exact Hrtc|].
      unfold edge, graph_succ. rewrite lookup_insert_eq. cbn. apply list_elem_of_fmap_2. by rewrite elem_of_sort_by.
    + apply reachable_grow; [done|]. apply Hre. by right.
  - intros t [Ht'|?]%Hu; [|done]. destruct (lookup_good _ _ _ _ _ t Hl Ht') as [?|?]; [by apply Ht|done].
  - cbn. by rewrite map_size_insert_None.
Qed.

Lemma resolve_loop_ok fuel st st' :
  walk_inv st → resolve_loop r platform requested fuel st = Ok st' → walk_inv st' ∧ wk_queue st' = [].
Proof.
  revert st. induction fuel as [|fuel IH]; intros st Hi; cbn [resolve_loop];
    destruct (skip_done_spec (wk_nodes st) (wk_queue st)) as (Hq & Hsk & Hhd);
    destruct (skip_done (wk_nodes st) (wk_queue st)) as [|id queue]; try done.
  1,2: intros [= <-]; split; [|done]; destruct Hi as [Hb Hg Hc Hr Hre Ht]; split; cbn; [done|done| | |intros x [?|?]; [set_solver|by apply Hre; right]|done]; intros;
    right; [edestruct Hc as [Hx|?]|edestruct Hr as [Hx|?]]; try done; apply Hq in Hx as [?|?]; set_solver.
  rewrite bind_ok. intros (st1 & H1 & H2). eapply IH; [|exact H2]. by eapply resolve_id_inv in H1 as [? _].
Qed.

Lemma resolve_loop_fuel fuel st :
  walk_inv st → (S MaxClosureNodes <= fuel + size (wk_nodes st))%nat → (size (wk_nodes st) <= MaxClosureNodes)%nat →
  never out_of_fuel (resolve_loop r platform requested fuel st).
Proof.
  revert st. induction fuel as [|fuel IH]; intros st Hi Hf Hs; [lia|]. cbn [resolve_loop].
  destruct (skip_done_spec (wk_nodes st) (wk_queue st)) as (Hq & Hsk & Hhd).
  destruct (skip_done (wk_nodes st) (wk_queue st)) as [|id queue]; [done|].
  destruct (resolve_id _ _ _ _ _) as [st1|e] eqn:E; cbn.
  - eapply resolve_id_inv in E as (Hi1 & Hs1 & Hlt); [|done..]. apply IH; [done|lia..].
  - intros e' He' [= ->]. by apply (resolve_id_fuel _ _ _ _ _ _ He' E).
Qed.

Lemma walk_node_ids st : walk_inv st → nd_ID <$> walk_nodes st ≡ₚ (map_to_list (wk_nodes st)).*1.
Proof.
  intros Hi. unfold walk_nodes. rewrite sort_by_Permutation, <-list_fmap_compose. apply Permutation_refl', list_fmap_ext.
  intros k [id n] Hl. apply list_elem_of_lookup_2, elem_of_map_to_list in Hl. cbn. by apply (built_id r platform requested), (wi_built _ Hi).
Qed.

(** When the queue is empty, what was collected is the closure of the roots, and
    the walk of [topo] orders it. *)
Lemma walk_closure st fuel order :
  walk_inv st → wk_queue st = [] → dfs (graph_succ (wk_graph st)) fuel requested = Ok order →
  closure_ok nd_ID dep_ids requested (walk_nodes st) order.
Proof.
  intros Hi Hq (Hnd & Ht & Hin)%dfs_correct. pose proof (walk_node_ids st Hi) as Hids.
  assert (∀ x, x ∈ nd_ID <$> walk_nodes st ↔ is_Some (wk_nodes st !! x)) as Hel.
  { intros x. rewrite Hids, list_elem_of_fmap. split.
    - intros ([y n] & -> & H%elem_of_map_to_list). by exists n.
    - intros [n H]. exists (x, n). split; [done|]. by apply elem_of_map_to_list. }
  assert (∀ x y, edge (list_succ nd_ID dep_ids (walk_nodes st)) x y ↔ edge (graph_succ (wk_graph st)) x y) as He.
  { intros x y. rewrite edge_list_succ. setoid_rewrite elem_of_walk_nodes. unfold edge, graph_succ. rewrite (wi_graph _ Hi). split.
    - intros (n & (id & Hn) & <- & Hy). rewrite (built_id r platform requested id n) by (by apply (wi_built _ Hi)). by rewrite Hn.
    - destruct (wk_nodes st !! x) as [n|] eqn:Hn; cbn; [|set_solver]. intros Hy. exists n. split_and!; [by exists x| |done].
      by apply (built_id r platform requested), (wi_built _ Hi). }
  assert (∀ x, x ∈ requested → is_Some (wk_nodes st !! x)) as Hroot.
  { intros x Hx. destruct (wi_roots _ Hi x Hx) as [H|?]; [|done]. rewrite Hq in H. set_solver. }
  assert (∀ x y, edge (graph_succ (wk_graph st)) x y → is_Some (wk_nodes st !! y)) as Hclosed.
  { intros x y. unfold edge, graph_succ. rewrite (wi_graph _ Hi). destruct (wk_nodes st !! x) as [n|] eqn:Hn; cbn; [|set_solver].
    intros (d & -> & Hd)%list_elem_of_fmap. destruct (wi_closed _ Hi x n d Hn Hd) as [H|?]; [|done]. rewrite Hq in H. set_solver. }
  assert (∀ x, is_Some (wk_nodes st !! x) ↔ reachable (graph_succ (wk_graph st)) requested x) as Hre.
  { intros x. split; [intros ?; apply (wi_reach _ Hi); by right|]. intros (y & Hy & Hr).
    refine (rtc_ind_r (λ z, is_Some (wk_nodes st !! z)) y _ _ x Hr); [by apply Hroot|]. intros. by eapply Hclosed. }
  split.
  - rewrite Hids. apply NoDup_fst_map_to_list.
  - intros x Hx. by apply Hel, Hroot.
  - intros x y Hy%He. by apply Hel, (Hclosed x).
  - apply NoDup_Permutation; [done|rewrite Hids; apply NoDup_fst_map_to_list|]. intros x. by rewrite Hin, Hel, Hre.
  - intros l1 x l2 Hs d Hd%He. by eapply Ht.
  - intros x Hx%Hel%Hre. by eapply reachable_ext.
Qed.

End walk.

(** ** The whole resolution *)

Section resolution.
#[local] Set Default Proof Using "Type*".
Context `{U : !UnicodeTables, C : !CoreCatalog}.
Variables (r : Resolver) (good : string → Prop).
Hypothesis lookup_good : ∀ id used used' canonical source t,
  lookupExact r id used = Ok (used', canonical, source) → t ∈ used' → t ∈ used ∨ good t.

(** After some of the roots *)
Definition roots_found (roots : list string) (acc : gset string * list string * list RequestedMapping) : Prop :=
  let '(used, requested, mappings) := acc in
  mp_Requested <$> mappings = roots ∧ mp_Resolved <$> mappings = requested ∧ NoDup requested ∧
  (∀ m, m ∈ mappings → ∃ source, finds r (mp_Requested m) (mp_Resolved m) source) ∧ ∀ t, t ∈ used → good t.

Lemma resolve_roots_ok roots acc : foldM_res (resolve_root r) (∅, [], []) roots = Ok acc → roots_found roots acc.
Proof.
  apply (foldM_res_inv roots_found).
  - split_and!; [done|done|constructor|set_solver|set_solver].
  - intros before raw [[used requested] mappings] [[used' requested'] mappings'] (Hm & Hr & Hnd & Hf & Ht) _ H.
    unfold resolve_root in H. apply bind_ok in H as (_ & _ & H).
    apply bind_ok in H as ([[u id] source] & Hl%map_err_ok & H). apply bind_ok in H as (_ & Hd%check_ok & [= <- <- <-]).
    apply bool_decide_eq_false in Hd. cbn. rewrite !fmap_app, Hm, Hr. cbn. split_and!; [done|done| | |].
    + apply NoDup_app. split_and!; [done|set_solver|apply NoDup_singleton].
    + intros m [?| ->%list_elem_of_singleton]%elem_of_app; [by apply Hf|]. exists source. by eapply lookupExact_finds.
    + intros t Hin. destruct (lookup_good _ _ _ _ _ _ Hl Hin); auto.
Qed.

Lemma initial_walk platform requested used :
  (∀ t, t ∈ used → good t) → walk_inv r platform requested good (MkWalk requested ∅ ∅ used).
Proof.
  intros Ht. split; cbn; [by intros ? ?|done|by intros ? ?|by left| |done].
  intros x [Hx|[? ?]]; [by exists x|done].
Qed.

Lemma compute_closure_inv roots platform c :
  compute_closure r roots platform = Ok c →
  ∃ mappings st order,
    mp_Requested <$> mappings = roots ∧ NoDup (mp_Resolved <$> mappings) ∧
    (∀ m, m ∈ mappings → ∃ source, finds r (mp_Requested m) (mp_Resolved m) source) ∧
    walk_inv r platform (mp_Resolved <$> mappings) good st ∧ wk_queue st = [] ∧
    topo (wk_graph st) (mp_Resolved <$> mappings) = Ok order ∧
    c = MkClosureResult (Some (mp_Resolved <$> mappings)) (Some mappings) (Some (slices_Sort (elements (wk_used st))))
          (Some (walk_nodes st)) (Some order).
Proof.
  intros H. unfold compute_closure in H. apply bind_ok in H as (_ & _ & H). apply bind_ok in H as (_ & _ & H).
  apply bind_ok in H as ([[used requested] mappings] & Hroots%resolve_roots_ok & H).
  destruct Hroots as (Hm & <- & Hnd & Hf & Ht). apply bind_ok in H as (st & Hst & H).
  apply (resolve_loop_ok r platform _ good lookup_good) in Hst as [Hi Hq]; [|by apply initial_walk].
  apply bind_ok in H as (_ & _ & H). apply bind_ok in H as (order & Ho & [= <-]). by exists mappings, st, order.
Qed.

Lemma topo_fuel platform requested st :
  walk_inv r platform requested good st → wk_queue st = [] → never out_of_fuel (topo (wk_graph st) requested).
Proof.
  intros Hi Hq e He. unfold topo. destruct (dfs _ _ _) as [?|[p|]] eqn:E; [done|by intros [= <-]|]. exfalso. revert E.
  apply (dfs_fuel _ (dom (wk_graph st))); [| |by rewrite size_dom].
  - intros x y _. rewrite elem_of_dom, (wi_graph _ _ _ _ _ Hi). unfold edge, graph_succ. rewrite (wi_graph _ _ _ _ _ Hi).
    destruct (wk_nodes st !! x) as [n|] eqn:Hn; cbn; [|set_solver]. intros (d & -> & Hd)%list_elem_of_fmap.
    destruct (wi_closed _ _ _ _ _ Hi x n d Hn Hd) as [H|H]; [rewrite Hq in H; set_solver|]. by apply fmap_is_Some.
  - intros x Hx. rewrite elem_of_dom, (wi_graph _ _ _ _ _ Hi). apply fmap_is_Some.
    destruct (wi_roots _ _ _ _ _ Hi x Hx) as [H|H]; [rewrite Hq in H; set_solver|done].
Qed.

Lemma compute_closure_fuel roots platform : never out_of_fuel (compute_closure r roots platform).
Proof.
  unfold compute_closure. apply never_bind; [never_tac|]. intros _. apply never_bind; [never_tac|]. intros _.
  destruct (foldM_res (resolve_root r) (∅, [], []) roots) as [[[used requested] mappings]|e] eqn:Er; cbn [mbind result_bind].
  2: { intros e' He' [= ->]. by apply (never_foldM out_of_fuel (resolve_root r) (∅, [], []) roots (resolve_root_fuel r) e'). }
  apply resolve_roots_ok in Er as (_ & _ & _ & _ & Ht). pose proof (initial_walk platform requested used Ht) as Hi.
  destruct (resolve_loop r platform requested _ _) as [st|e] eqn:El; cbn [mbind result_bind].
  2: { intros e' He' [= ->]. revert El. apply (resolve_loop_fuel r platform requested good lookup_good); [done|cbn [wk_nodes]; lia|..|done].
       cbn [wk_nodes]. rewrite map_size_empty. lia. }
  apply (resolve_loop_ok r platform requested good lookup_good _ _ _ Hi) in El as [Hi' Hq].
  apply never_bind; [|intros _; apply never_bind; [by eapply topo_fuel|intros ?; never_tac]].
  unfold validateRackCollisions, add_rack. never_tac.
Qed.

End resolution.

(** ** Prebuilt archives *)

Section prebuilt.
Context `{U : !UnicodeTables, N : !NetURL, C : !CoreCatalog}.

Lemma finds_core r id f i : finds r id id (CoreFormula f i) → FormulaID_IsCore id = true.
Proof.
  intros Hf. destruct (Hf ∅) as (used' & H). unfold lookupExact in H. destruct (FormulaID_IsCore id) eqn:Ei; [done|].
  apply bind_ok in H as ([u resolved] & _ & H). destruct (FormulaID_IsCore resolved) eqn:Er.
  - destruct (core_Lookup _); cbn in H; [|done]. destruct (ParseFormulaID _) as [c|]; [|done].
    destruct (check _ _) eqn:Ec; cbn in H; [|done]. apply check_ok, negb_false_iff, bool_decide_eq_true in Ec. congruence.
  - destruct (rv_formulae r !! resolved); [done|]. by destruct (bool_decide _).
Qed.

Lemma indexed_formula served r id f :
  indexes served r → (∀ tap c, served tap c → tap_catalog_wf c ∧ ts_ID (tc_Tap c) = tap) → rv_formulae r !! id = Some f →
  fm_ID f = id ∧ FormulaID_IsCore id = false.
Proof.
  intros Hi Hs (tap & c & [Hw Ht]%Hs & Hin & <-)%(ix_formula _ _ Hi). split; [done|]. unfold FormulaID_IsCore.
  rewrite (fw_tap _ _ (tcw_formula _ Hw f Hin)). apply bool_decide_eq_false. apply (sw_not_core _ (tcw_source _ Hw)).
Qed.

(** A Formula found under its own identity and known as external is external. *)
Lemma finds_external served r id source f :
  indexes served r → (∀ tap c, served tap c → tap_catalog_wf c ∧ ts_ID (tc_Tap c) = tap) →
  finds r id id source → rv_formulae r !! id = Some f → source = ExternalFormula f id.
Proof.
  intros Hi Hs Hf Hx. destruct (indexed_formula _ _ _ _ Hi Hs Hx) as [_ Hc]. destruct (Hf ∅) as (used' & Hl).
  destruct source as [g i|g i]; [by rewrite (finds_core _ _ _ _ Hf) in Hc|].
  apply lookupExact_source in Hl as [Hid [Hg _]]. cbn in Hid. congruence.
Qed.

Lemma apply_variations_none tag kegOnly l deps kegOnly' :
  (∀ v, v ∈ l → fv_Dependencies v = []) → apply_variations tag [] kegOnly l = Some (deps, kegOnly') → deps = [].
Proof.
  revert kegOnly. induction l as [|v l IH]; intros kegOnly Hl; cbn; [by intros [= <- _]|].
  destruct (negb _); [apply IH; set_solver|]. destruct (fv_Unavailable v); [done|].
  rewrite (Hl v) by set_solver. destruct (fv_OverridesDependencies v); apply IH; set_solver.
Qed.

Lemma formulaHasDependencies_false f :
  formulaHasDependencies f = false → fm_Dependencies f = [] ∧ ∀ v, v ∈ fm_Variations f → fv_Dependencies v = [].
Proof.
  unfold formulaHasDependencies. intros [Hd Hv]%orb_false_iff. apply negb_false_iff, bool_decide_eq_true, nil_length_inv in Hd.
  split; [done|]. intros v Hin. destruct (fv_Dependencies v) eqn:Ev; [done|]. exfalso.
  assert (existsb (λ v, negb (bool_decide (length (fv_Dependencies v) = 0%nat))) (fm_Variations f) = true); [|congruence].
  apply existsb_exists. exists v. split; [by apply list_elem_of_In|]. by rewrite Ev.
Qed.

(** What an authorization by the release policy fixes *)
Record pinned (platform : Platform) (f : Formula) : Prop := {
  pn_formula : fm_ID f = prebuiltA365FormulaID ∧ fm_StableVersion f = prebuiltA365Version;
  pn_dependencies : formulaHasDependencies f = false;
  pn_archive : ∃ archive file entry, fm_PrebuiltArchive f = Some archive ∧ file ∈ pd_Files archive ∧
    pf_Tag file = bottleTag platform ∧ entry ∈ items (po_Platforms expectedA365PrebuiltArchivePolicy) ∧
    ap_Platform entry = Platform_key platform ∧ pf_URL file = ap_URL entry ∧ pf_SHA256 file = ap_SHA256 entry;
}.

Lemma find_elem {A} (P : A → Prop) `{∀ x, Decision (P x)} l x : snd <$> list_find P l = Some x → x ∈ l ∧ P x.
Proof.
  intros ([i y] & (Hi & HP & _)%list_find_Some & ->)%fmap_Some. split; [by eapply list_elem_of_lookup_2|done].
Qed.

Lemma authorize_pinned root f platform requestedRoot :
  authorizePrebuiltArchive (release_policy root) f platform (bottleTag platform) requestedRoot = Ok tt →
  requestedRoot = true ∧ pinned platform f.
Proof.
  unfold authorizePrebuiltArchive. destruct (fm_PrebuiltArchive f) as [archive|] eqn:Ea; [|done].
  destruct (PrebuiltArchiveForFormula _ _) as [policy|] eqn:Ep; [|done].
  apply find_elem in Ep as [Hp%list_elem_of_singleton Hid]. subst policy. intros H.
  apply bind_ok in H as (_ & _ & H). apply bind_ok in H as (_ & _ & H). apply bind_ok in H as (_ & Hroot%check_ok & H).
  apply bind_ok in H as (_ & Hv%check_ok & H). do 4 apply bind_ok in H as (_ & _ & H). apply bind_ok in H as (_ & _ & H).
  apply bind_ok in H as (_ & Hd%check_ok & H).
  destruct (prebuiltPolicyPlatform _ _) as [entry|] eqn:Ee; [|done]. apply find_elem in Ee as [Hein Hek].
  destruct (prebuiltArchiveFile _ _) as [file|] eqn:Ef; [|done]. apply find_elem in Ef as [Hfin Hft].
  apply bind_ok in H as (_ & Hu%check_ok & H). apply bind_ok in H as (_ & Hs%check_ok & _).
  apply negb_false_iff, bool_decide_eq_true in Hv, Hu, Hs. apply negb_false_iff in Hroot.
  split; [done|]. split; [by split|done|]. by exists archive, file, entry.
Qed.

End prebuilt.

(** ** Properties *)

(** The resolver accepts exactly the sets of at most sixteen valid catalogs,
    each under its own tap, in whatever order it reads them; then it knows every
    Formula, alias, rename and migration of each of them and nothing else, since
    catalogs of different taps cannot claim the same identity. *)
Theorem catalog_New_iff `{U : !UnicodeTables, N : !NetURL} policy catalogs :
  ((∃ r, New (Some policy) catalogs = Ok r) ↔ catalogs_ok catalogs) ∧
  ∀ r, New (Some policy) catalogs = Ok r → rv_policy r = policy ∧ indexes (λ t c, catalogs !! t = Some (Some c)) r.
Proof.
  split; [split|].
  - by intros [r [_ ?]%New_catalogs_ok].
  - intros (r & Hr & _)%(New_indexes policy). by exists r.
  - intros r Hr. destruct (New_catalogs_ok _ _ _ Hr) as [_ (r' & Hr' & ? & ?)%(New_indexes policy)].
    assert (r' = r) as -> by congruence. done.
Qed.

(** Following aliases, renames and migrations from an identity always ends:
    with the one identity that is not mapped further, having noted exactly the
    taps outside homebrew/core on the way, or with a real cycle. *)
Theorem resolveMapping_exact `{U : !UnicodeTables} r id used :
  match resolveMapping r id used with
  | Ok (used', target) =>
      rtc (edge (mapping_succ r)) id target ∧ rv_mappings r !! target = None ∧
      ∀ t, t ∈ used' ↔ t ∈ used ∨ ∃ x, rtc (edge (mapping_succ r)) id x ∧ FormulaID_IsCore x = false ∧ FormulaID_Tap x = t
  | Err (LkCycle p) => is_cycle (mapping_succ r) p ∧ ∃ x, x ∈ p ∧ rtc (edge (mapping_succ r)) id x
  | Err _ => False
  end.
Proof. apply resolveMapping_answer. Qed.

(** ** What the walk is measured against

    The catalogs read without the resolver: what an identity stands for, what a
    Formula declares for a bottle tag, and what a declared dependency is. *)

(** The value a list of overrides leaves in force: the base value if nothing in the
    list overrides it, else the value of an override with none among [rest]. *)
Definition in_force {V X} (override : V → option X) (l : list V) (base x : X) (rest : list V → list V → list V) : Prop :=
  ((∀ v, v ∈ l → override v = None) ∧ x = base) ∨
  (∃ l1 v l2, l = l1 ++ v :: l2 ∧ override v = Some x ∧ ∀ w, w ∈ rest l1 l2 → override w = None).

(** Homebrew's catalog takes the first override for the tag, a tap catalog the last. *)
Definition first_wins {V X} (override : V → option X) (l : list V) (base x : X) : Prop := in_force override l base x (λ l1 _, l1).
Definition last_wins {V X} (override : V → option X) (l : list V) (base x : X) : Prop := in_force override l base x (λ _ l2, l2).

Definition core_override {X} (tag : string) (flag : Variation → bool) (value : Variation → X) (v : Variation) : option X :=
  if bool_decide (v_Tag v = tag) && flag v then Some (value v) else None.

Definition tap_override {X} (tag : string) (flag : FormulaVariation → bool) (value : FormulaVariation → X) (v : FormulaVariation) : option X :=
  if bool_decide (fv_Tag v = tag) && flag v then Some (value v) else None.

Lemma DependenciesFor_first f tag :
  first_wins (core_override tag v_OverridesDependencies v_Dependencies) (f_Variations f) (f_Dependencies f) (DependenciesFor f tag).
Proof.
  unfold DependenciesFor. induction (f_Variations f) as [|v l IH]; [left; split; [by intros ? ?%not_elem_of_nil|done]|]. cbn [variation_deps]. destruct (_ && _) eqn:E.
  - right. exists [], v, l. unfold core_override. rewrite E. split_and!; [done..|]. by intros w ?%not_elem_of_nil.
  - destruct IH as [[Hn Hb]|(l1 & w & l2 & -> & Hw & Hr)].
    + left. split; [|done]. intros w [->|Hw]%elem_of_cons; [|by apply Hn]. unfold core_override. by rewrite E.
    + right. exists (v :: l1), w, l2. split_and!; [done..|]. intros w' [->|?]%elem_of_cons; [|by apply Hr]. unfold core_override. by rewrite E.
Qed.

Lemma KegOnlyFor_first f tag : first_wins (core_override tag v_OverridesKegOnly v_KegOnly) (f_Variations f) (f_KegOnly f) (KegOnlyFor f tag).
Proof.
  unfold KegOnlyFor. induction (f_Variations f) as [|v l IH]; [left; split; [by intros ? ?%not_elem_of_nil|done]|]. cbn [variation_keg_only]. destruct (_ && _) eqn:E.
  - right. exists [], v, l. unfold core_override. rewrite E. split_and!; [done..|]. by intros w ?%not_elem_of_nil.
  - destruct IH as [[Hn Hb]|(l1 & w & l2 & -> & Hw & Hr)].
    + left. split; [|done]. intros w [->|Hw]%elem_of_cons; [|by apply Hn]. unfold core_override. by rewrite E.
    + right. exists (v :: l1), w, l2. split_and!; [done..|]. intros w' [->|?]%elem_of_cons; [|by apply Hr]. unfold core_override. by rewrite E.
Qed.

(** One more override in front *)
Lemma last_wins_cons {V X} (override : V → option X) v l base x :
  last_wins override l (default base (override v)) x → last_wins override (v :: l) base x.
Proof.
  intros [[Hn ->]|(l1 & w & l2 & -> & Hw & Hr)].
  - destruct (override v) as [y|] eqn:E; [right; exists [], v, l; by split_and!|left]. split; [|done]. intros w [->|?]%elem_of_cons; [done|by apply Hn].
  - right. by exists (v :: l1), w, l2.
Qed.

Lemma apply_variations_last tag deps kegOnly l ds k :
  apply_variations tag deps kegOnly l = Some (ds, k) →
  (∀ v, v ∈ l → fv_Tag v = tag → fv_Unavailable v = false) ∧
  last_wins (tap_override tag fv_OverridesDependencies fv_Dependencies) l deps ds ∧ last_wins (tap_override tag fv_OverridesKegOnly fv_KegOnly) l kegOnly k.
Proof.
  revert deps kegOnly. induction l as [|v l IH]; intros deps kegOnly; cbn [apply_variations].
  - intros [= <- <-]. split_and!; [by intros ? ?%not_elem_of_nil| |]; (left; split; [by intros ? ?%not_elem_of_nil|done]).
  - case_bool_decide as Ht; cbn [negb].
    + destruct (fv_Unavailable v) eqn:Hu; [done|]. intros (Ha & Hd & Hk)%IH. split_and!.
      * intros w [->|?]%elem_of_cons; [done|by apply Ha].
      * apply last_wins_cons. unfold tap_override at 2. rewrite bool_decide_eq_true_2 by done. by destruct (fv_OverridesDependencies v).
      * apply last_wins_cons. unfold tap_override at 2. rewrite bool_decide_eq_true_2 by done. by destruct (fv_OverridesKegOnly v).
    + intros (Ha & Hd & Hk)%IH. split_and!.
      * intros w [->|?]%elem_of_cons; [done|by apply Ha].
      * apply last_wins_cons. unfold tap_override at 2. by rewrite bool_decide_eq_false_2.
      * apply last_wins_cons. unfold tap_override at 2. by rewrite bool_decide_eq_false_2.
Qed.

Section declared.
Context `{U : !UnicodeTables, C : !CoreCatalog}.
Variables (r : Resolver) (platform : Platform) (requested : list string).

(** What Homebrew's catalog has under an identity *)
Definition core_formula (id canonical : string) (source : formulaSource) : Prop :=
  ∃ m, core_Lookup (FormulaID_Name id) = Ok m ∧ ParseFormulaID (mt_Canonical m) = Ok canonical ∧ source = CoreFormula (mt_Formula m) canonical.

(** An identity of a tap is followed through the signed renames to the last one, which
    must be canonical. *)
Definition stands_for (id canonical : string) (source : formulaSource) : Prop :=
  if FormulaID_IsCore id then core_formula id canonical source
  else rtc (edge (mapping_succ r)) id canonical ∧ rv_mappings r !! canonical = None ∧
       if FormulaID_IsCore canonical then core_formula canonical canonical source
       else ∃ f, rv_formulae r !! canonical = Some f ∧ source = ExternalFormula f canonical.

Lemma finds_stands_for id canonical source : finds r id canonical source → stands_for id canonical source.
Proof.
  intros H. destruct (H ∅) as (used' & Hl). unfold lookupExact in Hl. unfold stands_for. destruct (FormulaID_IsCore id).
  - destruct (core_Lookup _) as [m|] eqn:Em; cbn in Hl; [|done]. destruct (ParseFormulaID _) as [c|] eqn:Ec; cbn in Hl; [|done].
    injection Hl as <- <- <-. by exists m.
  - apply bind_ok in Hl as ([u resolved] & Hm & Hl). pose proof (resolveMapping_answer r id (use_tap id ∅)) as Ha. rewrite Hm in Ha.
    destruct Ha as (Hr & Hn & _). destruct (FormulaID_IsCore resolved) eqn:Hc.
    + destruct (core_Lookup _) as [m|] eqn:Em; cbn in Hl; [|done]. destruct (ParseFormulaID _) as [c|] eqn:Ec; [|done].
      destruct (check _ _) as [[]|] eqn:Hk; cbn in Hl; [|done]. apply check_ok, negb_false_iff, bool_decide_eq_true in Hk. injection Hl as <- <- <-.
      subst c. rewrite Hc. split_and!; [done..|]. by exists m.
    + destruct (rv_formulae r !! resolved) as [f|] eqn:Ef; [|by destruct (bool_decide _)]. injection Hl as <- <- <-. rewrite Hc. split_and!; [done..|].
      by exists f.
Qed.

(** A dependency named with its tap is that Formula. A short name is the Formula of
    Homebrew, and only if that does not exist the one of the owner's tap. *)
Definition dependency_is (owner raw dep : string) : Prop :=
  if strings_Contains raw "/" then ∃ id source, ParseFormulaID raw = Ok id ∧ stands_for id dep source
  else ∃ core, ParseFormulaID raw = Ok core ∧
    ((∃ source, stands_for core dep source) ∨
     (FormulaID_IsCore core = true → core_Lookup (FormulaID_Name core) = Err ErrFormulaNotFound) ∧
     ∃ local source, ParseFormulaID (owner +:+ "/" +:+ raw) = Ok local ∧ stands_for local dep source).

Lemma normalizes_dependency owner raw dep : normalizes r owner raw dep → dependency_is owner raw dep.
Proof.
  intros H. destruct (H ∅) as (used' & source & Hn). unfold normalizeDependency in Hn. unfold dependency_is. destruct (strings_Contains raw "/").
  - apply bind_ok in Hn as (id & Hp%map_err_ok & Hl%lookupExact_finds%finds_stands_for). by exists id, source.
  - apply bind_ok in Hn as (core & Hp%map_err_ok & Hn). exists core. split; [done|].
    destruct (lookupExact r core ∅) as [[[u c] f]|e] eqn:Hl.
    + injection Hn as <- <- <-. left. exists f. by eapply finds_stands_for, lookupExact_finds.
    + right. destruct e as [[]| | | | | |]; try done. apply bind_ok in Hn as (local & Hp'%map_err_ok & Hl'%lookupExact_finds%finds_stands_for).
      split; [|by exists local, source]. intros Hc. unfold lookupExact in Hl. rewrite Hc in Hl.
      destruct (core_Lookup (FormulaID_Name core)) as [m|e]; cbn in Hl; [|by injection Hl as ->]. by destruct (ParseFormulaID (mt_Canonical m)).
Qed.

(** The bottle of a tap Formula: a native one for the tag, or the prebuilt archive the
    policy authorizes. *)
Definition tap_rebuild (f : Formula) (id : string) (rebuild : Z) : Prop :=
  (∃ b file, fm_Bottle f = Some b ∧ file ∈ bd_Files b ∧ (fl_Tag file = bottleTag platform ∨ fl_Tag file = "all") ∧ rebuild = bd_Rebuild b) ∨
  (authorizePrebuiltArchive (rv_policy r) f platform (bottleTag platform) (bool_decide (id ∈ requested)) = Ok tt ∧ rebuild = 0).

(** A node and its dependencies (as written, with the identity the catalog claims) are
    what the Formula declares for the tag of the platform. *)
Definition declares (source : formulaSource) (n : Node) (deps : list (string * string)) : Prop :=
  let tag := bottleTag platform in
  match source with
  | CoreFormula f id =>
      ∃ b file raw kegOnly, f_Disabled f = false ∧ f_Bottle f = Some b ∧ Bottle_File b tag = Some file ∧
        first_wins (core_override tag v_OverridesDependencies v_Dependencies) (f_Variations f) (f_Dependencies f) raw ∧
        first_wins (core_override tag v_OverridesKegOnly v_KegOnly) (f_Variations f) (f_KegOnly f) kegOnly ∧
        deps = (λ d, (d, "")) <$> raw ∧
        n = MkNode id (FormulaID_Tap id) (f_Name f) (f_FullName f) (f_StableVersion f) (f_Revision f)
              (pkgVersion (f_StableVersion f) (f_Revision f)) (f_VersionScheme f) (b_Rebuild b) (f_License f) kegOnly (nd_Dependencies n)
  | ExternalFormula f id =>
      ∃ declared kegOnly rebuild, fm_Disabled f = false ∧ tap_rebuild f id rebuild ∧
        (∀ v, v ∈ fm_Variations f → fv_Tag v = tag → fv_Unavailable v = false) ∧
        last_wins (tap_override tag fv_OverridesDependencies fv_Dependencies) (fm_Variations f) (fm_Dependencies f) declared ∧
        last_wins (tap_override tag fv_OverridesKegOnly fv_KegOnly) (fm_Variations f) (fm_KegOnly f) kegOnly ∧
        deps = (λ d, (dp_Raw d, dp_ID d)) <$> declared ∧
        n = MkNode id (FormulaID_Tap id) (fm_Name f) (fm_HomebrewFullName f) (fm_StableVersion f) (fm_Revision f)
              (pkgVersion (fm_StableVersion f) (fm_Revision f)) (fm_VersionScheme f) rebuild (fm_License f) kegOnly (nd_Dependencies n)
  end.

(** A requirement of a node and the dependency it was made from *)
Definition required (id : string) (dep : string * string) (q : Requirement) : Prop :=
  q = MkRequirement dep.1 (rm_ID q) "" 0 0 true ∧ dependency_is (FormulaID_Tap id) dep.1 (rm_ID q) ∧ (dep.2 = "" ∨ dep.2 = rm_ID q).

(** A node of the closure *)
Definition catalog_node (n : Node) : Prop :=
  ∃ source deps qs, stands_for (nd_ID n) (nd_ID n) source ∧ declares source n deps ∧ Forall2 (required (nd_ID n)) deps qs ∧
    nd_Dependencies n = sort_by rm_ID qs.

Lemma external_rebuild_ok f id rebuild :
  external_rebuild (rv_policy r) f platform (bottleTag platform) (bool_decide (id ∈ requested)) = Ok rebuild → tap_rebuild f id rebuild.
Proof.
  unfold external_rebuild, hasNativeBottleForTag. destruct (fm_Bottle f) as [b|] eqn:Eb.
  - destruct (hasBottleTag _ _ || _) eqn:Eh.
    + intros [= <-]. left. unfold hasBottleTag in Eh. rewrite orb_true_iff, !bool_decide_eq_true, !list_elem_of_fmap in Eh.
      destruct Eh as [(file & ? & ?)|(file & ? & ?)]; exists b, file; split_and!; auto.
    + destruct (authorizePrebuiltArchive _ _ _ _ _) as [[]|] eqn:Ea; [intros [= <-]; by right|]. by destruct (bool_decide (fm_PrebuiltArchive f = None)).
  - destruct (authorizePrebuiltArchive _ _ _ _ _) as [[]|] eqn:Ea; [intros [= <-]; by right|]. by destruct (bool_decide (fm_PrebuiltArchive f = None)).
Qed.

Lemma nodeAndDependencies_declares source id base reqs deps :
  nodeAndDependencies (rv_policy r) source platform (bottleTag platform) (bool_decide (id ∈ requested)) = Ok (base, reqs) → source_id source = id →
  ∃ ds, reqs = (λ d, MkRequirement d.1 d.2 "" 0 0 true) <$> ds ∧ declares source (node_with base deps) ds.
Proof.
  unfold nodeAndDependencies. intros H Hid. destruct source as [f i|f i]; cbn in Hid; subst i.
  - apply bind_ok in H as ([] & Hd%check_ok & H). apply bind_ok in H as (file & Hb%map_err_ok & [= <- <-]). unfold BottleFor in Hb.
    destruct (f_Bottle f) as [b|] eqn:Eb; [|done]. destruct (Bottle_File b _) as [g|] eqn:Eg; [|done].
    exists ((λ d, (d, "")) <$> DependenciesFor f (bottleTag platform)). split; [by rewrite <-list_fmap_compose|].
    exists b, g, (DependenciesFor f (bottleTag platform)), (KegOnlyFor f (bottleTag platform)).
    split_and!; [done|done|done|apply DependenciesFor_first|apply KegOnlyFor_first|done|done].
  - apply bind_ok in H as ([] & Hd%check_ok & H). apply bind_ok in H as (rebuild & Hr%external_rebuild_ok & H).
    destruct (apply_variations _ _ _ _) as [[ds k]|] eqn:Ev; [|done]. injection H as <- <-. apply apply_variations_last in Ev as (Ha & Hl & Hk).
    exists ((λ d, (dp_Raw d, dp_ID d)) <$> ds). split; [by rewrite <-list_fmap_compose|]. exists ds, k, rebuild. by split_and!.
Qed.

Lemma built_catalog_node id n : built r platform requested id n → catalog_node n.
Proof.
  intros Hb. pose proof (built_id _ _ _ _ _ Hb) as Hid. destruct Hb as (source & base & reqs & deps & Hf & Hn & Hall & ->).
  destruct (Hf ∅) as (u & [Hs _]%lookupExact_source). apply finds_stands_for in Hf.
  destruct (nodeAndDependencies_declares _ _ _ _ (sort_by rm_ID deps) Hn Hs) as (ds & -> & Hd).
  exists source, ds, deps. rewrite Hid. split_and!; [done..| |done]. rewrite Forall2_fmap_l in Hall. eapply Forall2_impl; [exact Hall|].
  intros [raw claimed] q (dep & -> & Hq%normalizes_dependency & Hc). cbn in *. split_and!; [done..|]. done.
Qed.

End declared.

(** C2: The walk computes the closure: every root is what its identity stands for in the
    signed catalogs, every node is what the Formula under its identity declares for the
    platform (its version, the dependencies and keg-only flag the variations for the
    platform's tag leave in force, a bottle for that tag), with every declared dependency
    resolved, a short name to Homebrew's Formula before the one of the tap, and equal to
    the identity the catalog claims; and the nodes are exactly what the roots need, in an
    order that puts dependencies first. *)
Theorem compute_closure_correct `{U : !UnicodeTables, C : !CoreCatalog} r roots platform c
  (H : compute_closure r roots platform = Ok c) :
  ∃ mappings nodes order, cl_RequestedMappings c = Some mappings ∧ cl_Nodes c = Some nodes ∧ cl_InstallOrder c = Some order ∧
    cl_Requested c = Some (mp_Resolved <$> mappings) ∧ mp_Requested <$> mappings = roots ∧
    (∀ m, m ∈ mappings → ∃ source, stands_for r (mp_Requested m) (mp_Resolved m) source) ∧
    (∀ n, n ∈ nodes → catalog_node r platform (mp_Resolved <$> mappings) n) ∧
    closure_ok nd_ID dep_ids (mp_Resolved <$> mappings) nodes order.
Proof.
  apply (compute_closure_inv r (λ _, True)) in H as (mappings & st & order & Hm & _ & Hf & Hi & Hq & Ho & ->); [|by right].
  exists mappings, (walk_nodes st), order. split_and!; try done.
  - intros m (source & Hs)%Hf. exists source. by apply finds_stands_for.
  - intros n (id & Hn)%elem_of_walk_nodes. by eapply built_catalog_node, (wi_built _ _ _ _ _ Hi).
  - unfold topo in Ho. destruct (dfs _ _ _) as [o|[|]] eqn:E; try done. injection Ho as <-. eapply (walk_closure r platform _ (λ _, True)); [by right|done..].
Qed.

(** The closure only goes through taps that have a signed catalog: the taps
    it names are among the catalogs the resolver was given. *)
Theorem Resolve_taps_signed `{U : !UnicodeTables, N : !NetURL, C : !CoreCatalog} policy catalogs r roots platform c t
  (Hr : New policy catalogs = Ok r) (H : Resolve r roots platform = Ok c) (Ht : t ∈ items (cl_NormalizationTaps c)) :
  ∃ d, catalogs !! t = Some (Some d) ∧ tap_catalog_wf d ∧ ts_ID (tc_Tap d) = t.
Proof.
  destruct (New_catalogs_ok _ _ _ Hr) as [[p ->] Hok]. destruct (New_indexes p catalogs Hok) as (r' & Hr' & _ & Hi).
  assert (r' = r) as -> by congruence.
  assert (∀ tap d, catalogs !! tap = Some (Some d) → tap_catalog_wf d ∧ ts_ID (tc_Tap d) = tap) as Hs.
  { intros tap d Hd. destruct (proj2 Hok _ _ Hd) as (d' & [= <-] & ? & ?). done. }
  unfold Resolve in H. apply bind_ok in H as (c' & H & Hv). assert (c' = c) as -> by (destruct (ValidateClosureResult c'); congruence).
  apply (compute_closure_inv r (λ t, is_Some (rv_catalogs r !! t))) in H as (mappings & st & order & _ & _ & _ & Hw & _ & _ & ->).
  2: { intros. by eapply lookupExact_taps. }
  cbn in Ht. rewrite elem_of_slices_Sort, elem_of_elements in Ht. apply (wi_taps _ _ _ _ _ Hw) in Ht as [d Hd].
  apply (ix_catalog _ _ Hi) in Hd. exists d. split; [done|]. by apply Hs.
Qed.

(** C26: Under the release policy the only Formula ever installed from an upstream
    archive is a365 0.3.3, as a requested root without dependencies, from the
    address and with the digest the policy pins for the platform. *)
Theorem Resolve_prebuilt_pinned `{U : !UnicodeTables, N : !NetURL, C : !CoreCatalog} root catalogs r roots platform c n f
  (Hr : New (Some (release_policy root)) catalogs = Ok r) (H : Resolve r roots platform = Ok c)
  (Hn : n ∈ items (cl_Nodes c)) (Hf : rv_formulae r !! nd_ID n = Some f)
  (Hb : hasNativeBottleForTag (fm_Bottle f) (bottleTag platform) = false) :
  nd_ID n = prebuiltA365FormulaID ∧ nd_ID n ∈ items (cl_Requested c) ∧ nd_Dependencies n = [] ∧ pinned platform f.
Proof.
  destruct (New_catalogs_ok _ _ _ Hr) as [_ Hok]. destruct (New_indexes (release_policy root) catalogs Hok) as (r' & Hr' & Hp & Hi).
  assert (r' = r) as -> by congruence.
  assert (∀ tap d, catalogs !! tap = Some (Some d) → tap_catalog_wf d ∧ ts_ID (tc_Tap d) = tap) as Hs.
  { intros tap d Hd. destruct (proj2 Hok _ _ Hd) as (d' & [= <-] & ? & ?). done. }
  unfold Resolve in H. apply bind_ok in H as (c' & H & Hv). assert (c' = c) as -> by (destruct (ValidateClosureResult c'); congruence).
  apply (compute_closure_inv r (λ _, True)) in H as (mappings & st & order & _ & _ & _ & Hw & _ & _ & ->); [|by right].
  cbn [cl_Nodes cl_Requested items default from_option id] in *. apply elem_of_walk_nodes in Hn as (id & Hn).
  apply (wi_built _ _ _ _ _ Hw) in Hn. pose proof (built_id _ _ _ _ _ Hn) as Hid. subst id.
  destruct Hn as (source & base & reqs & deps & Hfind & Hnode & Hdeps & ->).
  rewrite (finds_external _ _ _ _ _ Hi Hs Hfind Hf) in Hnode. cbn [nodeAndDependencies] in Hnode.
  apply bind_ok in Hnode as (_ & _ & Hnode). apply bind_ok in Hnode as (rb & Hrb & Hnode).
  unfold external_rebuild in Hrb. rewrite Hb, Hp in Hrb.
  destruct (authorizePrebuiltArchive _ _ _ _ _) as [[]|] eqn:Ea; [|by destruct (bool_decide (fm_PrebuiltArchive f = None))].
  apply authorize_pinned in Ea as [Hroot%bool_decide_eq_true Hpin].
  destruct (indexed_formula _ _ _ _ Hi Hs Hf) as [Hfid _]. destruct (pn_formula _ _ Hpin) as [Hfn _].
  split_and!; [congruence|done| |done].
  destruct (formulaHasDependencies_false _ (pn_dependencies _ _ Hpin)) as [Hd Hvs]. rewrite Hd in Hnode.
  destruct (apply_variations _ _ _ _) as [[ds k]|] eqn:Ev; [|done]. apply apply_variations_none in Ev as ->; [|done].
  injection Hnode as _ <-. cbn in Hdeps. by inversion Hdeps.
Qed.

(** Resolution always ends with a closure or an error of its own: none of its
    loops, over mappings, the work list and the graph, outlasts its bound. *)
Theorem Resolve_never_stuck `{U : !UnicodeTables, C : !CoreCatalog} r roots platform : never out_of_fuel (Resolve r roots platform).
Proof.
  unfold Resolve. apply never_bind; [apply (compute_closure_fuel r (λ _, True)); by right|]. intros c. never_tac.
Qed.

(** ** Example: two taps over the sample core catalog *)

(** The core metadata implements the interface. *)
Definition metadata_core (c : Catalog) : CoreCatalog := {| core_Lookup := Metadata.Lookup c |}.

Module Example.

Definition a365 : Formula :=
  MkFormula prebuiltA365FormulaID "a365" prebuiltA365FormulaID "Formula/a365.rb"
    (po_FormulaSourceDigest expectedA365PrebuiltArchivePolicy) prebuiltA365Version 0 0 false false "MIT" [] [] [] None
    (Some (MkPrebuiltArchiveDeclaration
      ((λ e, MkPrebuiltArchiveFile (if bool_decide (ap_Platform e = "linux/arm64") then "arm64_linux" else "x86_64_linux")
               (ap_URL e) (ap_SHA256 e) PrebuiltArchiveFormatTarGzip) <$> items (po_Platforms expectedA365PrebuiltArchivePolicy)))).

Definition repo : TapCatalog :=
  MkTapCatalog TapCatalogSchemaVersion
    (MkTapSource "sozercan/repo" "https://github.com/sozercan/homebrew-repo" CatalogRequest.Example.hex40
       CatalogTap.Example.digest CatalogTap.Example.digest) 1 1 [a365] [] [] [].

Definition catalogs : gmap string (option TapCatalog) :=
  {["azure/tools" := Some (CatalogTap.Example.catalog_of [CatalogTap.Example.lib; CatalogTap.Example.app]);
    "sozercan/repo" := Some repo]}.

Definition policy : TapPolicy := release_policy "sha256:root".

Definition created : result new_error Resolver := @New ascii_tables https_only (Some policy) catalogs.

Definition resolver : Resolver := match created with Ok r => r | Err _ => MkResolver ∅ ∅ ∅ policy end.

Definition roots : list string := ["azure/tools/application"; prebuiltA365FormulaID].

Definition resolved : result resolve_error ClosureResult :=
  @Resolve (metadata_core Metadata.sample) resolver roots CatalogRequest.Example.amd64.

Definition closure : ClosureResult :=
  match resolved with Ok c => c | Err _ => MkClosureResult None None None None None end.

End Example.

Lemma compute_closure_correct_witness :
  @compute_closure (metadata_core Metadata.sample) Example.resolver Example.roots CatalogRequest.Example.amd64 = Ok Example.closure ∧
  cl_InstallOrder Example.closure =
    Some ["azure/tools/lib"; "homebrew/core/oniguruma"; "homebrew/core/jq"; "azure/tools/app"; "sozercan/repo/a365"] ∧
  ∃ mappings, cl_RequestedMappings Example.closure = Some mappings ∧ mp_Requested <$> mappings = Example.roots.
Proof.
  assert (@compute_closure (metadata_core Metadata.sample) Example.resolver Example.roots CatalogRequest.Example.amd64
    = Ok Example.closure) as H by (vm_compute; reflexivity).
  split; [exact H|]. split; [vm_compute; reflexivity|].
  destruct (@compute_closure_correct ascii_tables (metadata_core Metadata.sample) _ _ _ _ H)
    as (mappings & nodes & order & Hm & _ & _ & _ & Hr & _).
  exists mappings. split; [exact Hm|exact Hr].
Defined.

Lemma Resolve_taps_signed_witness :
  Example.resolved = Ok Example.closure ∧ ∃ d, Example.catalogs !! "azure/tools" = Some (Some d) ∧ ts_ID (tc_Tap d) = "azure/tools".
Proof.
  assert (Example.created = Ok Example.resolver) as Hr by (vm_compute; reflexivity).
  assert (Example.resolved = Ok Example.closure) as H by (vm_compute; reflexivity).
  split; [exact H|].
  destruct (@Resolve_taps_signed ascii_tables https_only (metadata_core Metadata.sample) _ _ _ _ _ _ "azure/tools" Hr H) as (d & Hd & _ & Ht).
  - apply (bool_decide_unpack _). vm_compute. exact I.
  - exists d. split; [exact Hd|exact Ht].
Defined.

Lemma Resolve_prebuilt_pinned_witness :
  Example.resolved = Ok Example.closure ∧ pinned CatalogRequest.Example.amd64 Example.a365.
Proof.
  assert (Example.created = Ok Example.resolver) as Hr by (vm_compute; reflexivity).
  assert (Example.resolved = Ok Example.closure) as H by (vm_compute; reflexivity).
  split; [exact H|].
  destruct (items (cl_Nodes Example.closure) !! 4%nat) as [n|] eqn:En; [|vm_compute in En; discriminate].
  pose proof En as Hn. apply list_elem_of_lookup_2 in Hn. vm_compute in En. injection En as <-.
  apply (@Resolve_prebuilt_pinned ascii_tables https_only (metadata_core Metadata.sample) "sha256:root" _ _ _ _ _ _ Example.a365 Hr H Hn);
    vm_compute; reflexivity.
Defined.
