(* ===== verification/ResolutionV2.v ===== *)
(** * internal/resolution: the second version of the record

    [v2.go]: records whose nodes carry full Formula identities, from the core and
    from third-party taps, with three transports for bottles and the evidence of
    prebuilt archives. [ValidateV2] with everything it calls, and the canonical
    form. As in the first version, [errors.Join] is the list of the messages; a
    message is its text without the printed values. JSON is an interface. *)

From S2P Require Import Prelude GoStrings JsonUnique NetUrl FormulaId Graph Resolution Resolver CatalogFields FetchPolicy.
From S2P Require Import CatalogRequest CatalogArtifact.
From stdpp Require Import options.
Local Open Scope Z_scope.

(** ** Constants *)

Definition SchemaVersionV2 : string := "dalec-homebrew-resolution/v2".
Definition PolicyVersionV2 : string := "homebrew-runtime-v2".
Definition RuntimeProfileMinimalV1 : string := "minimal-v1".
Definition MetadataRollbackPolicyV1 : string := "monotonic-sequence-v1".
Definition BuildLocalExtractionPolicyV1 : string := "build-local-tap-extraction-v1".
Definition BuildLocalRollbackPolicyV1 : string := "build-local-exact-commit-no-cross-build-rollback-v1".
Definition CoreMetadataRollbackPolicyV1 : string := "homebrew-core-generated-at-v1".
Definition CoreGeneratedAtSignedPayload : string := "signed-payload".
Definition CoreGeneratedAtLastModified : string := "http-last-modified".
Definition HTTPSFetchPolicyVersionV1 : string := "homebrew-bottle-fetch-v1".
Definition BuildLocalArtifactPolicyV1 : string := "build-local-artifact-v1".
Definition VerifiedProvenancePolicyV1 : string := "sigstore-in-toto-v1".
Definition ProvenanceWaiverPolicyV1 : string := "tap-catalog-buildkit-and-verified-checksum-v1".
Definition PrebuiltProvenanceWaiverPolicyV1 : string := "prebuilt-archive-buildkit-and-verified-checksum-v1".
Definition PrebuiltDerivedBottlePolicyV1 : string := "prebuilt-derived-bottle-v1".
Definition HTTPSBottleSourceWaiverPolicyV1 : string := "https-bottle-embedded-formula-digest-only-v1".
Definition BottleVerificationPolicyV1 : string := "homebrew-bottle-static-v1".
Definition CoreBottleVerificationDeferredV1 : string := "homebrew-core-static-verify-before-exec-v1".
Definition CoreProvenanceWaiverPolicyV1 : string := "homebrew-jws-and-verified-oci-chain-v1".
Definition MaxResolutionV2Nodes : nat := 256.
Definition MaxResolutionV2Sources : nat := 17.
Definition MaxResolutionV2BottleBytes : Z := Z.shiftl 1 30.
Definition MaxResolutionV2Redirects : nat := 5.
Definition maxResolutionV2Bytes : Z := Z.shiftl 64 20.

(** ** The record *)

Record ComponentsV2 := MkComponentsV2 {
  c2_FrontendIndexRef : string; c2_FrontendRef : string; c2_RuntimeBaseRef : string; c2_MaterializerRef : string;
  c2_BottleFetcherRef : string; c2_CatalogExtractorRef : string; c2_CatalogServiceOrigin : string;
  c2_IngestionJWSKeyPolicyDigest : string; c2_TapPolicyDigest : string; c2_ExecutableRuntimePolicyDigest : string;
  c2_HomebrewCommit : string; c2_RubyRuntime : string; c2_VerificationKeys : string; c2_DalecModule : string;
  c2_BuildKitModule : string; c2_SupportedCatalogPolicyVersions : list string; c2_SupportedFetchPolicyVersions : list string;
  c2_SupportedProvenancePolicyVersions : list string;
}.

Record TapExtractionV2 := MkTapExtractionV2 {
  te_PolicyVersion : string; te_ExtractorRef : string; te_Repository : string; te_TreeDigest : string;
  te_ArchiveDigest : string; te_CatalogDigest : string;
}.

Record MetadataDocument := MkMetadataDocument { md_Name : string; md_Digest : string; md_EnvelopeDigest : string }.

Record RollbackEvidence := MkRollbackEvidence { rb_Policy : string; rb_SequenceFloor : Z; rb_StateDigest : string }.

Record MetadataSource := MkMetadataSource {
  so_Tap : string; so_Commit : string; so_CatalogPolicyVersion : string; so_Signer : Signature;
  so_Extraction : option TapExtractionV2; so_Documents : list MetadataDocument; so_GeneratedAt : Z;
  so_GeneratedAtSource : string; so_FetchedAt : Z; so_Sequence : Z; so_Rollback : RollbackEvidence;
}.

Record RequestedRootV2 := MkRequestedRootV2 { q2_Requested : string; q2_ID : string; q2_KegOnly : bool }.

Record RequirementV2 := MkRequirementV2 {
  r2_ID : string; r2_Minimum : string; r2_Revision : Z; r2_BottleRebuild : Z; r2_Direct : bool;
}.

Record RuntimeDependencyV2 := MkRuntimeDependencyV2 {
  t2_ID : string; t2_HomebrewFullName : string; t2_Version : string; t2_Revision : Z; t2_BottleRebuild : Z;
  t2_PkgVersion : string; t2_DeclaredDirectly : bool;
}.

Record BottleTabV2 := MkBottleTabV2 {
  tab2_Receiptless : bool; tab2_HomebrewVersion : string; tab2_Arch : string; tab2_Compiler : string;
  tab2_ChangedFiles : list string; tab2_BuiltOn : BuiltOn; tab2_Dependencies : list RuntimeDependencyV2;
}.

Record OCITransportV2 := MkOCITransportV2 {
  o2_Registry : string; o2_Repository : string; o2_Index : Resolution.Descriptor; o2_Manifest : Resolution.Descriptor;
  o2_Config : Resolution.Descriptor; o2_Layer : Resolution.Descriptor;
}.

Record HTTPSTransportV2 := MkHTTPSTransportV2 {
  h2_URL : string; h2_ExpectedSize : Z; h2_SHA256 : string; h2_Filename : string; h2_AllowedRedirectHosts : list string;
  h2_FetchPolicyVersion : string;
}.

Record LocalTransportV2 := MkLocalTransportV2 {
  l2_PolicyVersion : string; l2_SHA256 : string; l2_Size : Z; l2_Filename : string;
}.

Record BottleTransportV2 := MkBottleTransportV2 {
  tr2_OCI : option OCITransportV2; tr2_HTTPS : option HTTPSTransportV2; tr2_Local : option LocalTransportV2;
}.

Record BottleVerificationV2 := MkBottleVerificationV2 {
  bv2_PolicyVersion : string; bv2_InventoryDigest : string; bv2_EntryCount : Z; bv2_ExpandedSize : Z;
}.

Record PrebuiltSourceArtifactV2 := MkPrebuiltSourceArtifactV2 {
  ps2_Filename : string; ps2_Size : Z; ps2_SHA256 : string; ps2_Format : string; ps2_Transport : BottleTransportV2;
}.

Record PrebuiltSourceInventoryV2 := MkPrebuiltSourceInventoryV2 {
  pi2_InventoryDigest : string; pi2_EntryCount : Z; pi2_ExpandedSize : Z;
}.

Record PrebuiltPayloadEvidenceV2 := MkPrebuiltPayloadEvidenceV2 {
  pp2_SourcePath : string; pp2_DestinationPath : string; pp2_SHA256 : string; pp2_Size : Z; pp2_ArchiveMode : Z;
  pp2_DerivedMode : Z;
}.

Record PrebuiltELFEvidenceV2 := MkPrebuiltELFEvidenceV2 {
  pe2_Format : string; pe2_Machine : string; pe2_StaticallyLinked : bool; pe2_Interpreter : string;
  pe2_NeededLibraries : slice string; pe2_RPaths : slice string; pe2_WritableExecutableSegments : bool;
}.

Record TapSourceV2 := MkTapSourceV2 {
  ts2_ID : string; ts2_Repository : string; ts2_Commit : string; ts2_TreeDigest : string; ts2_ArchiveDigest : string;
}.

Record TapFormulaSourceTransportV2 := MkTapFormulaSourceTransportV2 { tf2_Tap : TapSourceV2; tf2_Path : string }.

Record PrebuiltFormulaSourceEvidenceV2 := MkPrebuiltFormulaSourceEvidenceV2 {
  fs2_Transport : TapFormulaSourceTransportV2; fs2_SHA256 : string; fs2_Size : Z;
}.

Record PrebuiltDerivedBottleRelationV2 := MkPrebuiltDerivedBottleRelationV2 {
  db2_Tag : string; db2_Filename : string; db2_SHA256 : string; db2_Size : Z; db2_Verification : BottleVerificationV2;
  db2_FormulaSourceDigest : string;
}.

Record PrebuiltDerivationV2 := MkPrebuiltDerivationV2 {
  pd2_PolicyVersion : string; pd2_PolicyDigest : string; pd2_Source : PrebuiltSourceArtifactV2;
  pd2_SourceInventory : PrebuiltSourceInventoryV2; pd2_Payload : PrebuiltPayloadEvidenceV2; pd2_ELF : PrebuiltELFEvidenceV2;
  pd2_FormulaSource : PrebuiltFormulaSourceEvidenceV2; pd2_RecipeDigest : string;
  pd2_DerivedBottle : PrebuiltDerivedBottleRelationV2;
}.

Record BottleV2 := MkBottleV2 {
  b2_Tag : string; b2_Filename : string; b2_Size : Z; b2_SHA256 : string; b2_Cellar : string; b2_Tab : BottleTabV2;
  b2_SelectedAnnotations : list KV; b2_CurrentFormulaSourceDigest : string; b2_BottleFormulaSourceDigest : string;
  b2_BottleSourceRepository : string; b2_BottleSourceCommit : string; b2_BottleFormulaPath : string;
  b2_BottleSourceWaiver : string; b2_Verification : BottleVerificationV2; b2_Transport : BottleTransportV2;
  b2_PrebuiltDerivation : option PrebuiltDerivationV2;
}.

Record VerifiedProvenanceV2 := MkVerifiedProvenanceV2 {
  vp2_PolicyVersion : string; vp2_SubjectDigest : string; vp2_StatementDigest : string; vp2_BundleDigest : string;
  vp2_SignerIdentity : string; vp2_Issuer : string;
}.

(** The waiver is its policy. *)
Record ProvenanceV2 := MkProvenanceV2 { pv2_Verified : option VerifiedProvenanceV2; pv2_Waiver : option string }.

Record NodeV2 := MkNodeV2 {
  n2_ID : string; n2_Tap : string; n2_Name : string; n2_HomebrewFullName : string; n2_FormulaVersion : string;
  n2_FormulaRevision : Z; n2_PkgVersion : string; n2_VersionScheme : Z; n2_BottleRebuild : Z; n2_License : string;
  n2_KegOnly : bool; n2_Dependencies : list RequirementV2; n2_Bottle : BottleV2; n2_Provenance : ProvenanceV2;
  n2_ExecutablePaths : list string; n2_UpstreamFormulaID : string;
}.

Record RecordV2 := MkRecordV2 {
  v2_SchemaVersion : string; v2_PolicyVersion : string; v2_Input : Input; v2_MetadataSources : list MetadataSource;
  v2_ResolvedAt : Z; v2_SourceDateEpoch : Z; v2_Requested : list RequestedRootV2; v2_Nodes : list NodeV2;
  v2_InstallOrder : list string; v2_Components : ComponentsV2; v2_Runtime : RuntimePolicy; v2_PruningPolicyDigest : string;
}.

#[export] Instance Signature_eq_dec : EqDecision Signature.
Proof. solve_decision. Defined.
#[export] Instance BuiltOn_eq_dec : EqDecision BuiltOn.
Proof. solve_decision. Defined.
#[export] Instance BottleVerificationV2_eq_dec : EqDecision BottleVerificationV2.
Proof. solve_decision. Defined.

(** ** Field checks *)

Section validate.
Context `{U : !UnicodeTables, G : !GoDigest, R : !DistributionReference, N : !NetURL, I : !NetIP}.

Definition digest_problem (label s : string) : list string := err_if (negb (is_ok (validateDigest s))) label.

Definition reference_problem (label ref : string) : list string := err_if (negb (is_ok (ValidatePinnedReference ref))) label.

Definition SameReferenceRepository (a b : string) : bool :=
  match reference_ParseNormalizedNamed a, reference_ParseNormalizedNamed b with
  | Some aNamed, Some bNamed =>
      strings_EqualFold (ref_Domain aNamed) (ref_Domain bNamed) && bool_decide (ref_Path aNamed = ref_Path bNamed)
  | _, _ => false
  end.

Definition parseCanonicalFormulaID (raw : string) : option FormulaID :=
  match Parse raw with
  | Ok parsed => if bool_decide (FormulaID_String parsed = raw) then Some parsed else None
  | Err _ => None
  end.

Definition parseCanonicalTapID (raw : string) : option Tap :=
  match ParseTap raw with
  | Ok parsed => if bool_decide (Tap_String parsed = raw) then Some parsed else None
  | Err _ => None
  end.

Definition git_commit (value : string) : bool := (strlen value =? 40) && isLowerHex value.

Definition control_byte (c : ascii) : bool := (byte c <? 32) || (byte c =? 127).

Definition validateBottleFilename (filename : string) : bool :=
  negb (bool_decide (filename = "") || (255 <? strlen filename) || bool_decide (filename = ".") || bool_decide (filename = "..")
        || negb (bool_decide (path_Base filename = filename)) || strings_ContainsAny filename "/\")
  && negb (any_byte control_byte filename).

Definition validV2Token (value : string) : bool :=
  negb (bool_decide (value = "") || (64 <? strlen value))
  && all_bytes (λ c, isLower c || isDigit c || ascii_eqb "." c || ascii_eqb "_" c || ascii_eqb "-" c) value.

Definition validateContainedPrebuiltPathV2 (value : string) : bool :=
  negb (bool_decide (value = "") || (1024 <? strlen value) || path_IsAbs value || strings_Contains value "\")
  && negb (any_byte control_byte value)
  && let clean := path_Clean value in
     negb (negb (bool_decide (clean = value)) || bool_decide (clean = ".") || strings_HasPrefix clean "../").

Definition v2_hostname_label (label : string) : bool :=
  negb (bool_decide (label = "") || (63 <? strlen label) || ascii_eqb "-" (first_byte label) || ascii_eqb "-" (last_byte label))
  && all_bytes (λ c, isLower c || isDigit c || ascii_eqb "-" c) label.

Definition v2_validatePublicHostname (host : string) : bool :=
  negb (bool_decide (host = "") || negb (bool_decide (host = strings_ToLower host))
        || negb (bool_decide (strings_TrimSpace host = host)))
  && negb (net_IsIP host)
  && negb (bool_decide (host = "localhost") || strings_HasSuffix host ".localhost" || strings_HasSuffix host ".local")
  && negb ((253 <? strlen host) || strings_HasPrefix host "." || strings_HasSuffix host "." || strings_ContainsString host "..")
  && forallb v2_hostname_label (strings_Split host ".").

Definition v2_validateHTTPSURL (raw : string) : option URL :=
  if (strlen raw =? 0) || (Z.shiftl 8 10 <? strlen raw) || negb (bool_decide (strings_TrimSpace raw = raw)) then None
  else
    match url_Parse raw with
    | None => None
    | Some u =>
        if negb (bool_decide (url_Scheme u = "https")) || bool_decide (url_Host u = "") || negb (bool_decide (url_Opaque u = ""))
           || url_HasUser u || negb (bool_decide (url_Fragment u = ""))
           || (negb (bool_decide (url_Port u = "")) && negb (bool_decide (url_Port u = "443")))
           || negb (bool_decide (url_Hostname u = strings_ToLower (url_Hostname u)))
           || negb (v2_validatePublicHostname (url_Hostname u))
        then None else Some u
    end.

Definition validateHTTPSOriginV2 (raw : string) : bool :=
  negb (bool_decide (raw = "")) && bool_decide (raw = strings_TrimSpace raw)
  && match url_Parse raw with
     | None => false
     | Some u =>
         negb (negb (bool_decide (url_Scheme u = "https")) || bool_decide (url_Host u = "") || bool_decide (url_Hostname u = ""))
         && negb (negb (bool_decide (url_Opaque u = "")) || url_HasUser u)
         && negb (negb (bool_decide (url_Path u = "")) || negb (bool_decide (url_RawPath u = "")) || negb (bool_decide (url_RawQuery u = ""))
                  || url_ForceQuery u || negb (bool_decide (url_Fragment u = "")))
         && (bool_decide (url_Port u = "")
             || match strconv_Atoi (url_Port u) with Ok value => negb ((value <? 1) || (65535 <? value)) | Err _ => false end)
     end.

Definition validateRegistry (registry : string) : bool :=
  negb (bool_decide (registry = "") || negb (bool_decide (registry = strings_ToLower registry))
        || negb (bool_decide (strings_TrimSpace registry = registry)))
  && negb (strings_ContainsAny registry "/\@" || strings_ContainsString registry "://")
  && match url_Parse ("https://" +:+ registry) with
     | None => false
     | Some u =>
         negb (bool_decide (url_Hostname u = "") || negb (bool_decide (url_Path u = "")))
         && negb (negb (bool_decide (url_Port u = "")) && negb (bool_decide (url_Port u = "443")))
         && v2_validatePublicHostname (url_Hostname u)
     end.

Definition validateRepository (registry repository : string) : bool :=
  negb (bool_decide (repository = "") || negb (bool_decide (repository = strings_ToLower repository))
        || negb (bool_decide (strings_TrimSpace repository = repository)))
  && negb (strings_HasPrefix repository "/" || strings_HasSuffix repository "/" || strings_Contains repository "\"
           || strings_Contains repository "@")
  && forallb (λ component, negb (bool_decide (component = "") || bool_decide (component = ".") || bool_decide (component = "..")))
       (strings_Split repository "/")
  && match reference_ParseNormalizedNamed (registry +:+ "/" +:+ repository) with
     | None => false
     | Some named =>
         negb (ref_Tagged named) && negb (present (ref_Digest named))
         && negb (negb (bool_decide (ref_Domain named = registry)) || negb (bool_decide (ref_Path named = repository)))
     end.

(** [strings.NewReplacer("@", "/", "+", "x")] *)
Definition escape_rack (c : ascii) : ascii := if ascii_eqb "@" c then "/"%char else if ascii_eqb "+" c then "x"%char else c.

Definition expectedOCIRepository (id : string) : option string :=
  match parseCanonicalFormulaID id with
  | None => None
  | Some parsed =>
      let escaped := map_bytes escape_rack (id_name parsed) in
      if bool_decide (escaped = "") || strings_HasPrefix escaped "/" || strings_HasSuffix escaped "/" then None
      else Some (tap_owner (id_tap parsed) +:+ "/" +:+ tap_name (id_tap parsed) +:+ "/" +:+ escaped)
  end.

Definition github_repository (tap : Tap) : string := "https://github.com/" +:+ tap_owner tap +:+ "/homebrew-" +:+ tap_name tap.

(** ** Components *)

Definition policy_version_byte (c : ascii) : bool := negb ((byte c <? 33) || (126 <? byte c) || ascii_eqb "," c).

Definition validatePolicyVersionsV2 (values : list string) : bool :=
  negb (bool_decide (values = [])) && negb (32 <? length values)%nat
  && forallb (λ value, negb (bool_decide (value = "") || (128 <? strlen value)) && all_bytes policy_version_byte value) values
  && bool_decide (NoDup values).

Definition validateComponentsV2 (c : ComponentsV2) : list string :=
  let localMode := negb (bool_decide (c2_CatalogExtractorRef c = "")) in
  let serviceMode := negb (bool_decide (c2_CatalogServiceOrigin c = "")) || negb (bool_decide (c2_IngestionJWSKeyPolicyDigest c = "")) in
  reference_problem "V2 frontend index component" (c2_FrontendIndexRef c) ++
  reference_problem "V2 frontend component" (c2_FrontendRef c) ++
  reference_problem "V2 runtime base component" (c2_RuntimeBaseRef c) ++
  reference_problem "V2 materializer component" (c2_MaterializerRef c) ++
  reference_problem "V2 bottle fetcher component" (c2_BottleFetcherRef c) ++
  err_if (negb (SameReferenceRepository (c2_FrontendIndexRef c) (c2_FrontendRef c)))
    "V2 frontend index and child use different repositories" ++
  err_if (Bool.eqb localMode serviceMode)
    "V2 component tuple must select exactly one of build-local extractor or hosted catalog service" ++
  (if localMode then
     reference_problem "V2 catalog extractor component" (c2_CatalogExtractorRef c) ++
     err_if serviceMode "V2 build-local tuple contains hosted catalog-service fields"
   else
     err_if (negb (validateHTTPSOriginV2 (c2_CatalogServiceOrigin c))) "V2 catalog service origin" ++
     digest_problem "V2 ingestion JWS key policy" (c2_IngestionJWSKeyPolicyDigest c)) ++
  digest_problem "V2 tap policy" (c2_TapPolicyDigest c) ++
  digest_problem "V2 executable runtime policy" (c2_ExecutableRuntimePolicyDigest c) ++
  digest_problem "V2 verification key set" (c2_VerificationKeys c) ++
  err_if (negb (git_commit (c2_HomebrewCommit c))) "V2 component tuple has an invalid pinned Homebrew commit" ++
  err_if (bool_decide (strings_TrimSpace (c2_RubyRuntime c) = "")) "V2 component tuple is missing the portable Ruby identity" ++
  err_if (bool_decide (c2_DalecModule c = "") || bool_decide (c2_DalecModule c = "unknown")
          || bool_decide (c2_BuildKitModule c = "") || bool_decide (c2_BuildKitModule c = "unknown"))
    "V2 component tuple is missing Dalec or BuildKit module versions" ++
  err_if (negb (validatePolicyVersionsV2 (c2_SupportedCatalogPolicyVersions c))) "supported catalog policy versions" ++
  err_if (negb (validatePolicyVersionsV2 (c2_SupportedFetchPolicyVersions c))) "supported fetch policy versions" ++
  err_if (negb (validatePolicyVersionsV2 (c2_SupportedProvenancePolicyVersions c))) "supported provenance policy versions".

(** ** Metadata sources *)

Definition validateTapExtractionV2 (e : TapExtractionV2) (source : MetadataSource) (components : ComponentsV2) : list string :=
  err_if (negb (bool_decide (te_PolicyVersion e = BuildLocalExtractionPolicyV1))) "unsupported policy_version" ++
  (if negb (is_ok (ValidatePinnedReference (te_ExtractorRef e))) then ["extractor_ref"]
   else err_if (negb (bool_decide (te_ExtractorRef e = c2_CatalogExtractorRef components)))
          "extractor_ref does not match component tuple") ++
  on_some (parseCanonicalTapID (so_Tap source)) (λ tap,
    err_if (negb (bool_decide (te_Repository e = github_repository tap))) "repository does not match") ++
  digest_problem "tree_digest" (te_TreeDigest e) ++
  digest_problem "archive_digest" (te_ArchiveDigest e) ++
  digest_problem "catalog_digest" (te_CatalogDigest e) ++
  match so_Documents source with
  | [document] =>
      err_if (bool_decide (md_Name document = "catalog") && negb (bool_decide (md_Digest document = te_CatalogDigest e)))
        "catalog_digest does not match metadata document"
  | _ => []
  end.

(** The documents a source must have, with whether each needs an envelope *)
Definition document_requirements (core local : bool) : list (string * bool) :=
  if core then [("formula", true); ("migrations", true)]
  else if local then [("catalog", false)]
  else [("catalog", false); ("set", true)].

Definition validateMetadataDocumentsV2 (core local : bool) (documents : list MetadataDocument) : list string :=
  let requirements := document_requirements core local in
  let byName := keyed_map md_Name ∅ (filter (λ d, md_Name d ∈ requirements.*1) documents) in
  err_if (negb (bool_decide (length documents = length requirements))) "documents must contain exactly" ++
  (documents ≫= λ document, err_if (bool_decide (md_Name document ∉ requirements.*1)) "unexpected authenticated document") ++
  (requirements ≫= λ required,
     match byName !! required.1 with
     | None => ["missing required authenticated document"]
     | Some document =>
         err_if (required.2 && bool_decide (md_EnvelopeDigest document = "")) "requires an authenticated envelope digest" ++
         err_if (negb required.2 && negb (bool_decide (md_EnvelopeDigest document = ""))) "must not carry a separate envelope digest"
     end).

Definition uint64 (z : Z) : Z := z mod 2 ^ 64.

Definition isCoreTap (tap : Tap) : bool := bool_decide (tap = CoreTap).

Definition validate_document (document : MetadataDocument) : list string :=
  err_if (negb (validV2Token (md_Name document))) "document name is invalid" ++
  digest_problem "document digest" (md_Digest document) ++
  (if bool_decide (md_EnvelopeDigest document = "") then [] else digest_problem "envelope_digest" (md_EnvelopeDigest document)).

Definition NoSignature : Signature := MkSignature "" "" false.

(** What the source loop checks of a source by itself *)
Definition validate_source (r : RecordV2) (source : MetadataSource) : list string :=
  let tap := parseCanonicalTapID (so_Tap source) in
  let isCore := match tap with Some t => isCoreTap t | None => false end in
  let local := present (so_Extraction source) in
  let resolvedAt := v2_ResolvedAt r in
  match tap with
  | None => ["tap"]
  | Some t =>
      if isCoreTap t then []
      else if bool_decide (so_CatalogPolicyVersion source = "") then ["catalog_policy_version is required for non-core tap"]
      else err_if (bool_decide (so_CatalogPolicyVersion source ∉ c2_SupportedCatalogPolicyVersions (v2_Components r)))
             "catalog policy is absent from the release binding"
  end ++
  err_if (negb (git_commit (so_Commit source))) "commit is not a lowercase 40-character Git commit" ++
  match so_Extraction source with
  | Some extraction =>
      err_if (negb (present tap) || isCore) "build-local extraction is valid only for non-core taps" ++
      err_if (negb (bool_decide (so_Signer source = NoSignature))) "build-local extraction cannot claim a JWS signer" ++
      validateTapExtractionV2 extraction source (v2_Components r)
  | None =>
      err_if (bool_decide (strings_TrimSpace (sg_KeyID (so_Signer source)) = "")) "signer.key_id is required" ++
      err_if (negb (bool_decide (sg_Algorithm (so_Signer source) = "PS512"))) "signer.algorithm is unsupported" ++
      err_if (negb (sg_Verified (so_Signer source))) "signer is not verified"
  end ++
  err_if (bool_decide (length (so_Documents source) = 0%nat)) "no authenticated documents" ++
  each_once validate_document md_Name (λ _, "duplicate document name") ∅ (so_Documents source) ++
  (if present tap then validateMetadataDocumentsV2 isCore local (so_Documents source) else []) ++
  (if isCore then
     err_if (negb (bool_decide (so_GeneratedAtSource source = "")) && negb (bool_decide (so_GeneratedAtSource source = CoreGeneratedAtSignedPayload))
             && negb (bool_decide (so_GeneratedAtSource source = CoreGeneratedAtLastModified))) "generated_at_source is unsupported"
   else err_if (negb (bool_decide (so_GeneratedAtSource source = ""))) "generated_at_source is valid only for homebrew/core") ++
  (if (so_GeneratedAt source =? 0) || (so_FetchedAt source =? 0) then ["timestamps must be set"]
   else
     err_if (time_Unix (so_GeneratedAt source) <=? 0) "generated_at must be after the Unix epoch" ++
     err_if (so_FetchedAt source <? so_GeneratedAt source) "fetched_at precedes generated_at" ++
     err_if (negb (resolvedAt =? 0) && (resolvedAt <? so_FetchedAt source)) "fetched_at is after resolved_at") ++
  err_if (so_Sequence source =? 0) "sequence must be positive" ++
  (if isCore then
     err_if (negb (so_GeneratedAt source =? 0) && negb (so_Sequence source =? uint64 (time_Unix (so_GeneratedAt source))))
       "sequence must equal authenticated core generated_at"
   else if local then
     err_if (negb (so_Sequence source =? 1) || negb (rb_SequenceFloor (so_Rollback source) =? 0))
       "build-local rollback evidence must use sequence 1 and floor 0"
   else []) ++
  err_if (negb (bool_decide (rb_Policy (so_Rollback source) =
    if isCore then CoreMetadataRollbackPolicyV1 else if local then BuildLocalRollbackPolicyV1 else MetadataRollbackPolicyV1)))
    "rollback.policy is unsupported" ++
  err_if (so_Sequence source <? rb_SequenceFloor (so_Rollback source)) "rollback.sequence_floor exceeds accepted sequence" ++
  digest_problem "rollback.state_digest" (rb_StateDigest (so_Rollback source)).

(** The source loop: the sources by tap and the earliest generation time *)
Fixpoint validate_sources (r : RecordV2) (sources : gmap string MetadataSource) (earliest : Z) (l : list MetadataSource)
    : list string * gmap string MetadataSource * Z :=
  match l with
  | [] => ([], sources, earliest)
  | source :: l =>
      let known := present (parseCanonicalTapID (so_Tap source)) in
      let errs :=
        err_if (known && bool_decide (is_Some (sources !! so_Tap source))) "duplicate metadata source for tap" ++
        validate_source r source in
      let sources := if known then <[so_Tap source := source]> sources else sources in
      let generated := time_Unix (so_GeneratedAt source) in
      let earliest :=
        if (so_GeneratedAt source =? 0) || (so_FetchedAt source =? 0) then earliest
        else if (earliest =? 0) || (generated <? earliest) then generated else earliest in
      let '(errs', sources', earliest') := validate_sources r sources earliest l in
      (errs ++ errs', sources', earliest')
  end.

(** ** Bottles *)

Definition validateBottleTarget (platform : Resolution.Platform) (tag tabArch : string) (manifest : option Resolution.Descriptor)
    : list string :=
  let arch := p_Architecture platform in
  if bool_decide (tag = "all") then
    if negb (bool_decide (tabArch = "")) then ["all bottle has an architecture"]
    else on_some manifest (λ m, err_if (present (d_Platform m)) "all bottle manifest unexpectedly has a platform")
  else if bool_decide (tag = expected_tag arch) then
    if negb (bool_decide (tabArch = expected_tab_arch arch)) then ["bottle tab architecture"]
    else on_some manifest (λ m,
      err_if (match d_Platform m with
              | None => true
              | Some p => negb (bool_decide (p_OS p = "linux")) || negb (bool_decide (p_Architecture p = arch))
                          || negb (bool_decide (p_Variant p = ""))
              end) "bottle manifest platform does not match target")
  else ["bottle tag does not match target"].

(** The request the fetcher would get for a transport *)
Definition fetch_request (id : string) (t : HTTPSTransportV2) : FetchPolicy.Request :=
  FetchPolicy.MkRequest FetchPolicy.RequestSchemaVersion (h2_FetchPolicyVersion t) id (h2_URL t) (h2_ExpectedSize t)
    (strings_TrimPrefix (h2_SHA256 t) "sha256:") (h2_Filename t) (h2_AllowedRedirectHosts t).

(** The redirect hosts of a transport: their names, repetitions, and the host of
    the URL itself *)
Definition validate_redirect_hosts (t : HTTPSTransportV2) : list string :=
  each_once (λ host, err_if (negb (v2_validatePublicHostname host)) "HTTPS redirect host") id
    (λ _, "HTTPS redirect host is duplicated") ∅ (h2_AllowedRedirectHosts t) ++
  on_some (v2_validateHTTPSURL (h2_URL t)) (λ parsed,
    err_if (bool_decide (url_Hostname parsed ∉ h2_AllowedRedirectHosts t)) "HTTPS redirect host allowlist omits origin host").

Definition validatePrebuiltHTTPSTransportV2 (id : string) (t : HTTPSTransportV2) (filename : string) (size : Z) (checksum : string)
    : list string :=
  err_if (negb (present (v2_validateHTTPSURL (h2_URL t)))) "HTTPS URL" ++
  err_if (negb (h2_ExpectedSize t =? size) || negb (bool_decide (h2_SHA256 t = checksum))
          || negb (bool_decide (h2_Filename t = filename))) "HTTPS transport does not match signed artifact identity" ++
  err_if (negb (bool_decide (h2_FetchPolicyVersion t = HTTPSFetchPolicyVersionV1))) "HTTPS fetch policy is unsupported" ++
  err_if (bool_decide (h2_AllowedRedirectHosts t = []) || (MaxResolutionV2Redirects + 1 <? length (h2_AllowedRedirectHosts t))%nat)
    "HTTPS redirect host allowlist has invalid size" ++
  validate_redirect_hosts t ++
  err_if (negb (is_ok (fetcher_ValidateRequest (fetch_request id t)))) "HTTPS fetch contract".

Definition validateCatalogArtifactTransportV2 (t : HTTPSTransportV2) (origin : string) (bottle : BottleV2) : list string :=
  match url_Parse origin with
  | None => ["catalog service origin is invalid"]
  | Some parsedOrigin =>
      if bool_decide (url_Hostname parsedOrigin = "") then ["catalog service origin is invalid"]
      else
        err_if (negb (bool_decide (h2_URL t = origin +:+ "/v1/artifacts/sha256/" +:+ strings_TrimPrefix (b2_SHA256 bottle) "sha256:")))
          "derived bottle URL does not match catalog service artifact URL" ++
        err_if (negb (bool_decide (h2_AllowedRedirectHosts t = [url_Hostname parsedOrigin])))
          "derived bottle redirect hosts must contain only catalog service host"
  end.

(** [mode == 0 || mode&^0o777 != 0 || mode&0o111 == 0 || mode&0o022 != 0] *)
Definition unsafe_mode (mode : Z) : bool :=
  (mode =? 0) || negb (Z.ldiff mode 511 =? 0) || (Z.land mode 73 =? 0) || negb (Z.land mode 18 =? 0).

Definition empty_slice (s : slice string) : bool := match s with Some [] => true | _ => false end.

Definition validate_prebuilt_source (id : string) (bottle : BottleV2) (source : PrebuiltSourceArtifactV2) : list string :=
  err_if (negb (bool_decide (ps2_Format source = "tar+gzip"))) "unsupported source format" ++
  err_if (negb (validateBottleFilename (ps2_Filename source))) "source filename" ++
  err_if (size_outside (ps2_Size source) MaxResolutionV2BottleBytes) "source size" ++
  digest_problem "source digest" (ps2_SHA256 source) ++
  err_if (bool_decide (ps2_SHA256 source = b2_SHA256 bottle) && negb (bool_decide (ps2_SHA256 source = "")))
    "source archive and derived bottle must have distinct digests" ++
  match tr2_OCI (ps2_Transport source), tr2_HTTPS (ps2_Transport source) with
  | None, Some https =>
      validatePrebuiltHTTPSTransportV2 id https (ps2_Filename source) (ps2_Size source) (ps2_SHA256 source)
  | _, _ => ["source transport must contain HTTPS only"]
  end.

Definition validate_prebuilt_payload (parsedID : option FormulaID) (executablePaths : list string) (expanded : Z)
    (p : PrebuiltPayloadEvidenceV2) : list string :=
  err_if (negb (validateContainedPrebuiltPathV2 (pp2_SourcePath p))) "payload source path" ++
  err_if (negb (validateContainedPrebuiltPathV2 (pp2_DestinationPath p))) "payload destination path" ++
  on_some parsedID (λ parsed,
    err_if (negb (bool_decide (pp2_DestinationPath p = "bin/" +:+ id_name parsed))) "payload destination does not match Formula rack") ++
  err_if (bool_decide (pp2_DestinationPath p ∉ executablePaths)) "payload destination is absent from node executable paths" ++
  digest_problem "payload digest" (pp2_SHA256 p) ++
  (if size_outside (pp2_Size p) (Z.shiftl 4 30) then ["payload size"]
   else err_if ((0 <? expanded) && (expanded <? pp2_Size p)) "payload size exceeds verified source inventory") ++
  err_if (unsafe_mode (pp2_ArchiveMode p)) "payload archive mode" ++
  err_if (negb (pp2_DerivedMode p =? 365)) "payload derived mode must be 0555".

Definition validate_prebuilt_elf (platform : Resolution.Platform) (e : PrebuiltELFEvidenceV2) : list string :=
  let expectedMachine := if bool_decide (p_Architecture platform = "arm64") then "aarch64" else "x86_64" in
  err_if (negb (bool_decide (pe2_Format e = "elf64")) || negb (bool_decide (pe2_Machine e = expectedMachine))
          || negb (pe2_StaticallyLinked e) || negb (bool_decide (pe2_Interpreter e = ""))
          || negb (empty_slice (pe2_NeededLibraries e)) || negb (empty_slice (pe2_RPaths e)) || pe2_WritableExecutableSegments e)
    "ELF evidence does not describe a static elf64 executable".

Definition validate_prebuilt_formula (parsedID : option FormulaID) (bottle : BottleV2) (metadataCommit : string)
    (d : PrebuiltDerivationV2) : list string :=
  let source := pd2_FormulaSource d in
  let tap := tf2_Tap (fs2_Transport source) in
  let path := tf2_Path (fs2_Transport source) in
  match parseCanonicalTapID (ts2_ID tap) with
  | None => ["Formula source tap"]
  | Some formulaTap =>
      on_some parsedID (λ parsed,
        err_if (negb (bool_decide (Tap_String formulaTap = Tap_String (id_tap parsed)))) "Formula source tap does not match node tap")
  end ++
  on_some parsedID (λ parsed,
    err_if (negb (bool_decide (ts2_Repository tap = github_repository (id_tap parsed)))) "Formula source repository does not match" ++
    err_if (negb (validateContainedPrebuiltPathV2 path) || negb (bool_decide (path_Base path = id_name parsed +:+ ".rb")))
      "Formula source path does not match node") ++
  (if negb (git_commit (ts2_Commit tap)) then ["Formula source commit is invalid"]
   else err_if (negb (bool_decide (metadataCommit = "")) && negb (bool_decide (ts2_Commit tap = metadataCommit)))
          "Formula source commit does not match metadata source commit") ++
  digest_problem "Formula source tree digest" (ts2_TreeDigest tap) ++
  digest_problem "Formula source archive digest" (ts2_ArchiveDigest tap) ++
  digest_problem "Formula source digest" (fs2_SHA256 source) ++
  digest_problem "recipe digest" (pd2_RecipeDigest d) ++
  err_if (size_outside (fs2_Size source) (Z.shiftl 4 20)) "Formula source size" ++
  err_if (negb (bool_decide (fs2_SHA256 source = b2_CurrentFormulaSourceDigest bottle))
          || negb (bool_decide (fs2_SHA256 source = b2_BottleFormulaSourceDigest bottle))
          || negb (bool_decide (fs2_SHA256 source = db2_FormulaSourceDigest (pd2_DerivedBottle d))))
    "Formula source digest does not bind current, embedded, and derived-bottle evidence".

Definition validatePrebuiltDerivationV2 (platform : Resolution.Platform) (id : string) (bottle : BottleV2)
    (executablePaths : list string) (catalogServiceOrigin tapPolicyDigest metadataCommit : string) (d : PrebuiltDerivationV2)
    : list string :=
  let parsedID := parseCanonicalFormulaID id in
  let inventory := pd2_SourceInventory d in
  let relation := pd2_DerivedBottle d in
  match parsedID with
  | None => ["Formula ID"]
  | Some parsed => err_if (isCoreTap (id_tap parsed)) "prebuilt derivation is not supported for homebrew/core"
  end ++
  err_if (negb (bool_decide (pd2_PolicyVersion d = PrebuiltDerivedBottlePolicyV1))) "unsupported policy version" ++
  (if negb (is_ok (validateDigest (pd2_PolicyDigest d))) then ["policy digest"]
   else err_if (negb (bool_decide (pd2_PolicyDigest d = tapPolicyDigest))) "policy digest does not match release tap policy") ++
  validate_prebuilt_source id bottle (pd2_Source d) ++
  digest_problem "source inventory digest" (pi2_InventoryDigest inventory) ++
  err_if (size_outside (pi2_EntryCount inventory) 4096) "source inventory entry count" ++
  err_if (size_outside (pi2_ExpandedSize inventory) (Z.shiftl 4 30)) "source inventory expanded size" ++
  validate_prebuilt_payload parsedID executablePaths (pi2_ExpandedSize inventory) (pd2_Payload d) ++
  validate_prebuilt_elf platform (pd2_ELF d) ++
  validate_prebuilt_formula parsedID bottle metadataCommit d ++
  err_if (negb (tab2_Receiptless (b2_Tab bottle))) "derived bottle must be marked receiptless" ++
  err_if (negb (bool_decide (db2_Tag relation = b2_Tag bottle)) || negb (bool_decide (db2_Filename relation = b2_Filename bottle))
          || negb (bool_decide (db2_SHA256 relation = b2_SHA256 bottle)) || negb (db2_Size relation =? b2_Size bottle)
          || negb (bool_decide (db2_Verification relation = b2_Verification bottle)))
    "derived-bottle relation does not match outer bottle" ++
  on_some (tr2_HTTPS (b2_Transport bottle)) (λ https, validateCatalogArtifactTransportV2 https catalogServiceOrigin bottle).

Definition is_core_id (id : string) : bool := strings_HasPrefix id "homebrew/core/".

Definition no_history (b : BottleV2) : bool :=
  bool_decide (b2_BottleSourceRepository b = "") && bool_decide (b2_BottleSourceCommit b = "") && bool_decide (b2_BottleFormulaPath b = "").

(** The bottle's source evidence, when its static verification is not deferred *)
Definition validate_bottle_evidence (id : string) (b : BottleV2) : list string :=
  let t := b2_Transport b in
  let v := b2_Verification b in
  digest_problem "current Formula source digest" (b2_CurrentFormulaSourceDigest b) ++
  digest_problem "bottle Formula source digest" (b2_BottleFormulaSourceDigest b) ++
  digest_problem "inventory digest" (bv2_InventoryDigest v) ++
  (if present (b2_PrebuiltDerivation b) then
     err_if (negb (present (tr2_HTTPS t)) && negb (present (tr2_Local t))) "prebuilt-derived bottle requires HTTPS or build-local transport" ++
     err_if (negb (bool_decide (b2_BottleSourceWaiver b = "")) || negb (no_history b))
       "prebuilt-derived bottle conflicts with native bottle source evidence"
   else if present (tr2_HTTPS t) then
     err_if (negb (bool_decide (b2_BottleSourceWaiver b = HTTPSBottleSourceWaiverPolicyV1))) "HTTPS bottle requires source waiver" ++
     err_if (negb (no_history b)) "HTTPS source waiver conflicts with asserted historical source"
   else if present (tr2_Local t) then ["build-local transport is limited to prebuilt-derived bottles"]
   else
     err_if (negb (bool_decide (b2_BottleSourceWaiver b = ""))) "OCI bottle cannot use an HTTPS source waiver" ++
     on_some (parseCanonicalFormulaID id) (λ parsed,
       err_if (negb (bool_decide (b2_BottleSourceRepository b = github_repository (id_tap parsed))))
         "bottle source repository does not match") ++
     err_if (negb (git_commit (b2_BottleSourceCommit b))) "bottle source commit is invalid" ++
     err_if (bool_decide (b2_BottleFormulaPath b = "") || path_IsAbs (b2_BottleFormulaPath b)
             || negb (bool_decide (path_Clean (b2_BottleFormulaPath b) = b2_BottleFormulaPath b))
             || strings_Contains (b2_BottleFormulaPath b) "\") "bottle Formula path is invalid") ++
  err_if (negb (bool_decide (bv2_PolicyVersion v = BottleVerificationPolicyV1))) "bottle verification policy is unsupported" ++
  err_if (size_outside (bv2_EntryCount v) 250000) "bottle verification entry count is invalid" ++
  err_if (size_outside (bv2_ExpandedSize v) (Z.shiftl 8 30)) "bottle verification expanded size is invalid".

Definition validate_tab_dependency (d : RuntimeDependencyV2) : list string :=
  match parseCanonicalFormulaID (t2_ID d) with
  | None => ["bottle tab runtime_dependencies id"]
  | Some dependencyID =>
      match parseCanonicalFormulaID (t2_HomebrewFullName d) with
      | None => ["bottle tab runtime dependency homebrew_full_name"]
      | Some fullName =>
          err_if (negb (bool_decide (FormulaID_String fullName = FormulaID_String dependencyID)))
            "bottle tab runtime dependency has mismatched homebrew_full_name"
      end ++
      err_if ((t2_Revision d <? 0) || (t2_BottleRebuild d <? 0)) "bottle tab runtime dependency has a negative revision"
  end.

(** The loop over the tab's dependencies skips an unparsable identity. *)
Definition parsable (d : RuntimeDependencyV2) : bool := present (parseCanonicalFormulaID (t2_ID d)).

Definition validate_tab (tab : BottleTabV2) : list string :=
  err_if (tab2_Receiptless tab
          && (negb (bool_decide (tab2_HomebrewVersion tab = "")) || negb (bool_decide (tab2_Compiler tab = ""))
              || negb (bool_decide (tab2_ChangedFiles tab = [])) || negb (bool_decide (tab2_BuiltOn tab = MkBuiltOn "" "" "" "" ""))
              || negb (bool_decide (length (tab2_Dependencies tab) = 0%nat))))
    "receiptless bottle tab claims receipt-only metadata" ++
  (tab2_Dependencies tab ≫= validate_tab_dependency) ++
  each_once (λ _, []) t2_ID (λ _, "duplicate runtime dependency") ∅ (filter (λ d, parsable d = true) (tab2_Dependencies tab)).

Definition validate_oci (platform : Resolution.Platform) (id : string) (b : BottleV2) (t : OCITransportV2) : list string :=
  match expectedOCIRepository id with
  | None => ["OCI identity"]
  | Some expected =>
      err_if (negb (bool_decide (o2_Registry t = "ghcr.io")) || negb (bool_decide (o2_Repository t = expected)))
        "OCI transport does not match canonical repository"
  end ++
  err_if (negb (validateRegistry (o2_Registry t))) "OCI registry" ++
  err_if (negb (validateRepository (o2_Registry t) (o2_Repository t))) "OCI repository" ++
  err_if (negb (is_ok (validateDescriptor (o2_Index t)))) "OCI index descriptor" ++
  err_if (negb (is_ok (validateDescriptor (o2_Manifest t)))) "OCI manifest descriptor" ++
  err_if (negb (is_ok (validateDescriptor (o2_Config t)))) "OCI config descriptor" ++
  err_if (negb (is_ok (validateDescriptor (o2_Layer t)))) "OCI layer descriptor" ++
  err_if (negb (d_Size (o2_Layer t) =? b2_Size b)) "OCI layer size does not match bottle size" ++
  err_if (MaxResolutionV2BottleBytes <? d_Size (o2_Layer t)) "OCI layer size exceeds" ++
  err_if (negb (bool_decide (d_Digest (o2_Layer t) = b2_SHA256 b)))
    "OCI layer digest does not match authenticated Homebrew checksum" ++
  validateBottleTarget platform (b2_Tag b) (tab2_Arch (b2_Tab b)) (Some (o2_Manifest t)).

Definition validate_https (platform : Resolution.Platform) (id : string) (b : BottleV2) (t : HTTPSTransportV2) : list string :=
  err_if (negb (present (v2_validateHTTPSURL (h2_URL t)))) "HTTPS URL" ++
  err_if (size_outside (h2_ExpectedSize t) MaxResolutionV2BottleBytes) "HTTPS expected_size" ++
  err_if (negb (h2_ExpectedSize t =? b2_Size b)) "HTTPS expected_size does not match bottle size" ++
  digest_problem "HTTPS sha256" (h2_SHA256 t) ++
  err_if (negb (bool_decide (h2_SHA256 t = b2_SHA256 b))) "HTTPS checksum does not match authenticated Homebrew checksum" ++
  (if negb (validateBottleFilename (h2_Filename t)) then ["HTTPS filename"]
   else err_if (negb (bool_decide (h2_Filename t = b2_Filename b))) "HTTPS filename does not match bottle filename") ++
  err_if (negb (bool_decide (h2_FetchPolicyVersion t = HTTPSFetchPolicyVersionV1))) "HTTPS fetch policy is unsupported" ++
  err_if (bool_decide (h2_AllowedRedirectHosts t = [])) "HTTPS redirect host allowlist is empty" ++
  err_if (MaxResolutionV2Redirects + 1 <? length (h2_AllowedRedirectHosts t))%nat "HTTPS redirect host allowlist has too many entries" ++
  validate_redirect_hosts t ++
  err_if (negb (is_ok (fetcher_ValidateRequest (fetch_request id t)))) "HTTPS fetch contract" ++
  validateBottleTarget platform (b2_Tag b) (tab2_Arch (b2_Tab b)) None.

Definition validate_local (platform : Resolution.Platform) (b : BottleV2) (t : LocalTransportV2) : list string :=
  err_if (negb (bool_decide (l2_PolicyVersion t = BuildLocalArtifactPolicyV1))) "build-local policy is unsupported" ++
  err_if (negb (bool_decide (l2_SHA256 t = b2_SHA256 b)) || negb (l2_Size t =? b2_Size b)
          || negb (bool_decide (l2_Filename t = b2_Filename b))) "build-local transport does not match bottle identity" ++
  digest_problem "build-local digest" (l2_SHA256 t) ++
  validateBottleTarget platform (b2_Tag b) (tab2_Arch (b2_Tab b)) None.

(** The digest of the artifact and what is wrong with the bottle *)
Definition validateBottleV2 (platform : Resolution.Platform) (id : string) (b : BottleV2) (executablePaths : list string)
    (components : ComponentsV2) (metadataCommit : string) : string * list string :=
  let t := b2_Transport b in
  let v := b2_Verification b in
  let deferredCore := is_core_id id && bool_decide (bv2_PolicyVersion v = CoreBottleVerificationDeferredV1) in
  let errs :=
    err_if (bool_decide (b2_Tag b = "")) "bottle tag is empty" ++
    err_if (bool_decide (b2_Cellar b = "")) "bottle Cellar policy is empty" ++
    err_if (negb (validateBottleFilename (b2_Filename b))) "bottle filename" ++
    err_if (size_outside (b2_Size b) MaxResolutionV2BottleBytes) "bottle size" ++
    digest_problem "authenticated bottle digest" (b2_SHA256 b) ++
    (if deferredCore then
       digest_problem "current Formula source digest" (b2_CurrentFormulaSourceDigest b) ++
       err_if (negb (bool_decide (b2_BottleFormulaSourceDigest b = "")) || negb (no_history b)
               || negb (bool_decide (b2_BottleSourceWaiver b = "")) || negb (bool_decide (bv2_InventoryDigest v = ""))
               || negb (bv2_EntryCount v =? 0) || negb (bv2_ExpandedSize v =? 0))
         "deferred core verification contains premature bottle evidence"
     else validate_bottle_evidence id b) ++
    each_once (λ a, err_if (bool_decide (kv_Key a = "")) "selected_annotations has an empty key") kv_Key
      (λ _, "duplicate selected annotation") ∅ (b2_SelectedAnnotations b) ++
    validate_tab (b2_Tab b) in
  let derivation := on_some (b2_PrebuiltDerivation b)
    (validatePrebuiltDerivationV2 platform id b executablePaths (c2_CatalogServiceOrigin components) (c2_TapPolicyDigest components)
       metadataCommit) in
  let receiptless := err_if (tab2_Receiptless (b2_Tab b) && negb (present (tr2_HTTPS t)) && negb (present (tr2_Local t)))
    "receiptless tab marker is supported only for HTTPS or build-local bottles" in
  match tr2_OCI t, tr2_HTTPS t, tr2_Local t with
  | Some oci, None, None => (d_Digest (o2_Layer oci), errs ++ receiptless ++ validate_oci platform id b oci ++ derivation)
  | None, Some https, None => (h2_SHA256 https, errs ++ receiptless ++ validate_https platform id b https ++ derivation)
  | None, None, Some local => (l2_SHA256 local, errs ++ receiptless ++ validate_local platform b local ++ derivation)
  | _, _, _ => ("", errs ++ ["bottle transport must set exactly one of oci, https, or local"])
  end.

Definition validateProvenanceV2 (id subjectDigest : string) (prebuilt : bool) (p : ProvenanceV2) : list string :=
  match pv2_Verified p, pv2_Waiver p with
  | Some verified, None =>
      err_if (negb (bool_decide (vp2_PolicyVersion verified = VerifiedProvenancePolicyV1))) "unsupported verified provenance policy" ++
      (if negb (is_ok (validateDigest (vp2_SubjectDigest verified))) then ["subject digest"]
       else err_if (negb (bool_decide (subjectDigest = "")) && negb (bool_decide (vp2_SubjectDigest verified = subjectDigest)))
              "subject digest does not match") ++
      digest_problem "statement digest" (vp2_StatementDigest verified) ++
      digest_problem "bundle digest" (vp2_BundleDigest verified) ++
      err_if (bool_decide (strings_TrimSpace (vp2_SignerIdentity verified) = "")) "signer identity is required" ++
      err_if (bool_decide (strings_TrimSpace (vp2_Issuer verified) = "")) "issuer is required"
  | None, Some waiver =>
      if prebuilt then err_if (negb (bool_decide (waiver = PrebuiltProvenanceWaiverPolicyV1))) "prebuilt provenance waiver is unsupported"
      else err_if (negb (bool_decide (waiver = ProvenanceWaiverPolicyV1))
                   && negb (is_core_id id && bool_decide (waiver = CoreProvenanceWaiverPolicyV1))) "provenance waiver is unsupported"
  | _, _ => ["provenance must set exactly one of verified or waiver"]
  end.

(** ** Nodes *)

Definition validate_requirement (d : RequirementV2) : list string :=
  match parseCanonicalFormulaID (r2_ID d) with
  | None => ["dependencies id"]
  | Some _ => err_if ((r2_Revision d <? 0) || (r2_BottleRebuild d <? 0)) "dependency has a negative revision"
  end.

Definition parsable_requirement (d : RequirementV2) : bool := present (parseCanonicalFormulaID (r2_ID d)).

Definition validate_requirements (l : list RequirementV2) : list string :=
  (l ≫= validate_requirement) ++
  each_once (λ _, []) r2_ID (λ _, "duplicate dependency") ∅ (filter (λ d, parsable_requirement d = true) l).

(** The policies a node uses are those the release binding lists. *)
Definition validate_bindings (c : ComponentsV2) (node : NodeV2) : list string :=
  let b := n2_Bottle node in
  let fetch := c2_SupportedFetchPolicyVersions c in
  let provenance := c2_SupportedProvenancePolicyVersions c in
  on_some (tr2_HTTPS (b2_Transport b)) (λ https,
    err_if (bool_decide (h2_FetchPolicyVersion https ∉ fetch)) "HTTPS fetch policy is absent from the release binding" ++
    err_if (negb (present (b2_PrebuiltDerivation b)) && bool_decide (b2_BottleSourceWaiver b ∉ provenance))
      "HTTPS source waiver policy is absent from the release binding") ++
  on_some (b2_PrebuiltDerivation b) (λ d, on_some (tr2_HTTPS (ps2_Transport (pd2_Source d))) (λ https,
    err_if (bool_decide (h2_FetchPolicyVersion https ∉ fetch)) "prebuilt source fetch policy is absent from the release binding")) ++
  on_some (pv2_Verified (n2_Provenance node)) (λ verified,
    err_if (bool_decide (vp2_PolicyVersion verified ∉ provenance)) "verified provenance policy is absent from the release binding") ++
  on_some (pv2_Waiver (n2_Provenance node)) (λ waiver,
    err_if (bool_decide (waiver ∉ provenance)) "provenance waiver policy is absent from the release binding").

(** What the node loop checks of a node by itself, its identity parsed *)
Definition validate_node2 (r : RecordV2) (sources : gmap string MetadataSource) (node : NodeV2) (id : FormulaID) : list string :=
  let b := n2_Bottle node in
  let tap := Tap_String (id_tap id) in
  let metadataCommit := match sources !! tap with Some s => so_Commit s | None => "" end in
  let '(artifactDigest, bottleErrs) :=
    validateBottleV2 (in_Platform (v2_Input r)) (FormulaID_String id) b (n2_ExecutablePaths node) (v2_Components r) metadataCommit in
  let subject := match b2_PrebuiltDerivation b with Some d => ps2_SHA256 (pd2_Source d) | None => artifactDigest end in
  err_if (negb (bool_decide (n2_Tap node = tap))) "tap does not match Formula ID tap" ++
  err_if (negb (bool_decide (n2_Name node = id_name id))) "rack name does not match Formula name" ++
  match parseCanonicalFormulaID (n2_HomebrewFullName node) with
  | None => ["homebrew_full_name"]
  | Some fullName =>
      err_if (negb (bool_decide (FormulaID_String fullName = FormulaID_String id))) "homebrew_full_name identifies a different Formula"
  end ++
  err_if (bool_decide (sources !! tap = None)) "no metadata source for tap" ++
  err_if (bool_decide (n2_FormulaVersion node = "") || bool_decide (n2_PkgVersion node = "")) "empty version" ++
  err_if ((n2_FormulaRevision node <? 0) || (n2_VersionScheme node <? 0) || (n2_BottleRebuild node <? 0))
    "negative version or bottle revision" ++
  bottleErrs ++
  validate_bindings (v2_Components r) node ++
  validateProvenanceV2 (FormulaID_String id) subject (present (b2_PrebuiltDerivation b)) (n2_Provenance node) ++
  err_if (negb (bool_decide (n2_UpstreamFormulaID node = "")) && negb (present (parseCanonicalFormulaID (n2_UpstreamFormulaID node))))
    "upstream_formula_id" ++
  validate_requirements (n2_Dependencies node).

Fixpoint validate_nodes2 (r : RecordV2) (sources : gmap string MetadataSource) (nodes : gmap string NodeV2)
    (racks : gmap string string) (l : list NodeV2) : list string * gmap string NodeV2 :=
  match l with
  | [] => ([], nodes)
  | node :: l =>
      match parseCanonicalFormulaID (n2_ID node) with
      | None =>
          let '(errs, nodes') := validate_nodes2 r sources nodes racks l in
          ("nodes id" :: errs, nodes')
      | Some id =>
          let canonicalID := FormulaID_String id in
          let collision := match racks !! n2_Name node with Some previous => negb (bool_decide (previous = canonicalID)) | None => false end in
          let racks' := if collision || bool_decide (n2_Name node = "") then racks else <[n2_Name node := canonicalID]> racks in
          let '(errs, nodes') := validate_nodes2 r sources (<[canonicalID := node]> nodes) racks' l in
          (err_if (bool_decide (is_Some (nodes !! canonicalID))) "duplicate closure node" ++
           err_if collision "rack name collision" ++ validate_node2 r sources node id ++ errs, nodes')
      end
  end.

(** ** Roots and the graph *)

Fixpoint validate_roots2 (nodes : gmap string NodeV2) (seen : gset string) (roots : list RequestedRootV2) : list string :=
  match roots with
  | [] => []
  | root :: roots =>
      err_if (bool_decide (strings_TrimSpace (q2_Requested root) = "")) "requested is empty" ++
      match parseCanonicalFormulaID (q2_ID root) with
      | None => "requested id" :: validate_roots2 nodes seen roots
      | Some id =>
          let canonicalID := FormulaID_String id in
          err_if (bool_decide (canonicalID ∈ seen)) "duplicate requested Formula ID" ++
          match nodes !! canonicalID with
          | None => ["requested root resolves to missing node"]
          | Some node => err_if (negb (Bool.eqb (q2_KegOnly root) (n2_KegOnly node))) "requested root keg_only does not match node"
          end ++
          validate_roots2 nodes ({[canonicalID]} ∪ seen) roots
      end
  end.

Definition dep_ids (n : NodeV2) : list string := r2_ID <$> n2_Dependencies n.

(** The loops over the map of nodes, in an unspecified order *)
Definition validate_references2 (nodes : gmap string NodeV2) : list string :=
  map_to_list nodes ≫= λ e, dep_ids e.2 ≫= λ dep, err_if (bool_decide (nodes !! dep = None)) "node references missing dependency".

(** [positions], where an entry that is no canonical identity is skipped *)
Fixpoint positions2 (nodes : gmap string NodeV2) (position : gmap string nat) (i : nat) (order : list string)
    : list string * gmap string nat :=
  match order with
  | [] => ([], position)
  | rawID :: order =>
      match parseCanonicalFormulaID rawID with
      | None => let '(errs, position') := positions2 nodes position (S i) order in ("install_order" :: errs, position')
      | Some id =>
          let canonicalID := FormulaID_String id in
          let '(errs, position') := positions2 nodes (<[canonicalID := i]> position) (S i) order in
          (err_if (bool_decide (nodes !! canonicalID = None)) "install_order references unknown node" ++
           err_if (bool_decide (is_Some (position !! canonicalID))) "duplicate install_order entry" ++ errs, position')
      end
  end.

Definition validate_order2 (nodes : gmap string NodeV2) (order : list string) : list string :=
  if negb (bool_decide (length order = size nodes)) then ["install_order has the wrong number of entries"]
  else
    let '(errs, position) := positions2 nodes ∅ 0 order in
    errs ++ (map_to_list nodes ≫= λ e,
      match position !! e.1 with
      | None => ["install_order omits node"]
      | Some pos =>
          dep_ids e.2 ≫= λ dep,
            err_if (match position !! dep with None => true | Some depPos => bool_decide (pos <= depPos)%nat end)
              "install_order places a node before its dependency"
      end).

Definition validate_reachable2 (nodes : gmap string NodeV2) (roots : list string) : list string :=
  match walk_all (map_succ dep_ids nodes) (size (universe dep_ids nodes roots)) roots with
  | Err _ => ["walk out of fuel"]
  | Ok reachable => map_to_list nodes ≫= λ e, err_if (bool_decide (e.1 ∉ reachable)) "closure node is unreachable from requested roots"
  end.

(** ** ValidateV2 *)

Definition validateV2Platform (p : Resolution.Platform) : bool :=
  negb (negb (bool_decide (p_OS p = "linux"))
        || (negb (bool_decide (p_Architecture p = "amd64")) && negb (bool_decide (p_Architecture p = "arm64")))
        || negb (bool_decide (p_Variant p = ""))).

Definition validate_header2 (r : RecordV2) : list string :=
  err_if (negb (bool_decide (v2_SchemaVersion r = SchemaVersionV2))) "unsupported schema_version" ++
  err_if (negb (bool_decide (v2_PolicyVersion r = PolicyVersionV2))) "unsupported policy_version" ++
  err_if (negb (validateV2Platform (in_Platform (v2_Input r)))) "unsupported platform" ++
  digest_problem "input.dalec_spec_digest" (in_DalecSpecDigest (v2_Input r)) ++
  err_if (v2_ResolvedAt r =? 0) "resolved_at must be set" ++
  err_if (v2_SourceDateEpoch r <=? 0) "source_date_epoch must be positive" ++
  err_if (bool_decide (length (v2_MetadataSources r) = 0%nat)) "resolution has no metadata sources" ++
  err_if (MaxResolutionV2Sources <? length (v2_MetadataSources r))%nat "resolution has too many metadata sources" ++
  err_if (bool_decide (length (v2_Requested r) = 0%nat)) "resolution has no requested roots" ++
  err_if (bool_decide (length (v2_Nodes r) = 0%nat)) "resolution has no closure nodes" ++
  err_if (MaxResolutionV2Nodes <? length (v2_Nodes r))%nat "resolution has too many closure nodes".

Definition core_tap : string := Tap_String CoreTap.

Definition ValidateV2 (r : RecordV2) : list string :=
  let '(source_errs, sources, earliest) := validate_sources r ∅ 0 (v2_MetadataSources r) in
  let '(node_errs, nodes) := validate_nodes2 r sources ∅ ∅ (v2_Nodes r) in
  validate_header2 r ++
  validateComponentsV2 (v2_Components r) ++
  source_errs ++
  match sources !! core_tap with
  | None => ["metadata sources omit homebrew/core"]
  | Some core =>
      err_if (negb (bool_decide (so_Commit core = c2_HomebrewCommit (v2_Components r))))
        "homebrew/core metadata commit does not match component Homebrew commit"
  end ++
  err_if ((0 <? earliest) && negb (v2_SourceDateEpoch r =? earliest))
    "source_date_epoch does not equal earliest authenticated generation time" ++
  node_errs ++
  validate_roots2 nodes ∅ (v2_Requested r) ++
  validate_references2 nodes ++
  validate_order2 nodes (v2_InstallOrder r) ++
  validate_reachable2 nodes (q2_ID <$> v2_Requested r) ++
  err_of (λ _, "runtime identity") (validateRuntimeIdentity (v2_Runtime r)) ++
  err_if (negb (bool_decide (rp_Profile (v2_Runtime r) = "")) && negb (bool_decide (rp_Profile (v2_Runtime r) = RuntimeProfileMinimalV1)))
    "unsupported V2 runtime profile" ++
  (if bool_decide (v2_PruningPolicyDigest r = "") then [] else digest_problem "pruning policy" (v2_PruningPolicyDigest r)).

End validate.
