(* ===== verification/ResolutionV2Facts.v ===== *)
(** * internal/resolution: what a valid second-version record is

    [ValidateV2] against a declarative definition of a good record: unique
    metadata sources with the core one among them, an epoch that is the earliest
    generation time, nodes whose identities and racks are unique and whose
    dependencies close up in install order. *)

From S2P Require Import Prelude GoStrings JsonUnique NetUrl FormulaId Graph Resolution Resolver CatalogFields FetchPolicy.
From S2P Require Import Fetcher CatalogRequest CatalogArtifact ResolutionV2.
From stdpp Require Import options.
Local Open Scope Z_scope.

Section facts.
Context `{U : !UnicodeTables, G : !GoDigest, R : !DistributionReference, N : !NetURL, I : !NetIP}.

(** ** Field checks *)

Lemma parseCanonicalFormulaID_Some raw id : parseCanonicalFormulaID raw = Some id ↔ valid_id id ∧ raw = FormulaID_String id.
Proof. apply FormulaID_Shared_Some. Qed.

Lemma parseCanonicalTapID_Some raw tap : parseCanonicalTapID raw = Some tap ↔ valid_tap tap ∧ raw = Tap_String tap.
Proof. apply canonical_tap_Some. Qed.

Lemma digest_problem_nil label s : digest_problem label s = [] ↔ sha256_digest s.
Proof.
  unfold digest_problem. rewrite err_if_nil, negb_false_iff. rewrite <-validateDigest_ok.
  destruct (validateDigest s) as [[]|]; cbn; split; congruence.
Qed.

Lemma valid_name_nonempty id : valid_id id → id_name id ≠ "".
Proof.
  intros [_ Hn]. unfold validateFormulaName in Hn. res_inv Hn.
  match goal with E : validateComponent _ _ _ = Ok _ |- _ => by apply validateComponent_ok in E as [? _] end.
Qed.

(** ** The node loop *)

(** What the loop asks of a node, with its identity *)
Definition node_problems (r : RecordV2) (sources : gmap string MetadataSource) (node : NodeV2) : list string :=
  match parseCanonicalFormulaID (n2_ID node) with
  | None => ["nodes id"]
  | Some id => validate_node2 r sources node id
  end.

Lemma validate_node2_name r sources node id : validate_node2 r sources node id = [] → n2_Name node = id_name id.
Proof.
  unfold validate_node2. destruct (validateBottleV2 _ _ _ _ _ _). rewrite !app_nil_iff, !err_if_nil. intros (_ & Hn & _). by case_bool.
Qed.

Lemma validate_nodes2_racked r sources nodes racks l :
  (validate_nodes2 r sources nodes racks l).1 = [] ↔
  each_racked (node_problems r sources) n2_ID n2_Name (λ _, "duplicate") (λ _ _, "rack") (dom nodes) racks l = [].
Proof.
  revert nodes racks. induction l as [|node l IH]; intros nodes racks; cbn [validate_nodes2 each_racked]; [done|].
  unfold node_problems at 1. destruct (parseCanonicalFormulaID (n2_ID node)) as [id|] eqn:Hid.
  2: { by destruct (validate_nodes2 _ _ _ _ _). }
  apply parseCanonicalFormulaID_Some in Hid as [Hv Hid]. rewrite <-Hid.
  set (racks' := if _ || _ then racks else _). specialize (IH (<[n2_ID node := node]> nodes) racks').
  destruct (validate_nodes2 _ _ _ _ _) as [errs nodes']. cbn [fst] in *. rewrite !app_nil_iff, !err_if_nil.
  rewrite !bool_decide_eq_false, elem_of_dom. rewrite dom_insert_L in IH. split.
  - intros (Hd & Hc & Hn & He). pose proof (validate_node2_name _ _ _ _ Hn) as Hname.
    assert (racks' = <[n2_Name node := n2_ID node]> racks) as Hr.
    { subst racks'. rewrite Hc. cbn [orb]. rewrite bool_decide_eq_false_2; [done|]. rewrite Hname. by apply valid_name_nonempty. }
    rewrite Hr in IH. split_and!; [done..| |by apply IH].
    destruct (racks !! n2_Name node); [|done]. by rewrite err_if_nil.
  - intros (Hn & Hd & Hc & He). pose proof (validate_node2_name _ _ _ _ Hn) as Hname.
    assert (match racks !! n2_Name node with Some previous => negb (bool_decide (previous = n2_ID node)) | None => false end = false) as Hc'.
    { destruct (racks !! n2_Name node); [|done]. by rewrite err_if_nil in Hc. }
    assert (racks' = <[n2_Name node := n2_ID node]> racks) as Hr.
    { subst racks'. rewrite Hc'. cbn [orb]. rewrite bool_decide_eq_false_2; [done|]. rewrite Hname. by apply valid_name_nonempty. }
    rewrite Hr in IH. split_and!; [done..|by apply IH].
Qed.

Lemma validate_nodes2_map r sources nodes racks l :
  (∀ n, n ∈ l → is_Some (parseCanonicalFormulaID (n2_ID n))) → (validate_nodes2 r sources nodes racks l).2 = keyed_map n2_ID nodes l.
Proof.
  revert nodes racks. induction l as [|node l IH]; intros nodes racks Hl; cbn [validate_nodes2]; [done|].
  destruct (Hl node) as [id Hid]; [left|]. rewrite Hid. apply parseCanonicalFormulaID_Some in Hid as [_ Hid]. rewrite <-Hid.
  set (racks' := if _ || _ then racks else _). specialize (IH (<[n2_ID node := node]> nodes) racks').
  destruct (validate_nodes2 _ _ _ _ _). cbn [snd] in *. rewrite IH; [done|]. intros n Hn. apply Hl. by right.
Qed.

Lemma node_problems_parse r sources n : node_problems r sources n = [] → is_Some (parseCanonicalFormulaID (n2_ID n)).
Proof. unfold node_problems. by destruct (parseCanonicalFormulaID (n2_ID n)). Qed.

(** ** The source loop *)

Definition generated (s : MetadataSource) : Z := time_Unix (so_GeneratedAt s).

Lemma validate_source_facts r s :
  validate_source r s = [] →
  is_Some (parseCanonicalTapID (so_Tap s)) ∧ so_GeneratedAt s ≠ 0 ∧ so_FetchedAt s ≠ 0 ∧ 0 < generated s.
Proof.
  unfold validate_source. rewrite !app_nil_iff. intros (Htap & _ & _ & _ & _ & _ & _ & Htime & _).
  destruct (parseCanonicalTapID (so_Tap s)) as [t|]; [|done]. split; [done|].
  destruct (_ || _) eqn:Et in Htime; [done|]. autorewrite with errs in Htime. case_bool. destruct Htime as [? _]. unfold generated. by split_and!.
Qed.

Lemma validate_sources_nil r sources e l :
  (validate_sources r sources e l).1.1 = [] ↔
  (∀ s, s ∈ l → validate_source r s = []) ∧ NoDup (so_Tap <$> l) ∧ ∀ x, x ∈ so_Tap <$> l → x ∉ dom sources.
Proof.
  rewrite <-(each_once_nil_seen (validate_source r) so_Tap (λ _, "duplicate")).
  revert sources e. induction l as [|s l IH]; intros sources e; cbn [validate_sources each_once]; [done|].
  set (sources' := if _ : bool then _ else _). set (e' := if _ : bool then _ else _).
  specialize (IH sources' e'). destruct (validate_sources r sources' e' l) as [[errs m] z]. cbn [fst] in *.
  rewrite !app_nil_iff, !err_if_nil. split.
  - intros ((Hd & Hv) & He). destruct (validate_source_facts r s Hv) as ([t Ht] & _). subst sources'. rewrite Ht in *. cbn [present andb] in *.
    rewrite dom_insert_L in IH. split_and!; [done| |by apply IH]. rewrite !bool_decide_eq_false in *. by rewrite elem_of_dom.
  - intros (Hv & Hd & He). destruct (validate_source_facts r s Hv) as ([t Ht] & _). subst sources'. rewrite Ht in *. cbn [present andb] in *.
    rewrite dom_insert_L in IH. split_and!; [|done|by apply IH]. rewrite !bool_decide_eq_false in *. by rewrite <-elem_of_dom.
Qed.

Lemma validate_sources_map r sources e l :
  (∀ s, s ∈ l → validate_source r s = []) → (validate_sources r sources e l).1.2 = keyed_map so_Tap sources l.
Proof.
  revert sources e. induction l as [|s l IH]; intros sources e Hl; cbn [validate_sources]; [done|].
  destruct (validate_source_facts r s) as ([t Ht] & _); [apply Hl; left|]. rewrite Ht. cbn [present].
  set (e' := if _ : bool then _ else _). specialize (IH (<[so_Tap s := s]> sources) e').
  destruct (validate_sources r _ e' l) as [[errs m] z]. cbn [fst snd] in *. apply IH. intros x Hx. apply Hl. by right.
Qed.

(** The epoch the loop computes is the least generation time. *)
Lemma validate_sources_earliest r sources e l :
  (∀ s, s ∈ l → validate_source r s = []) → 0 <= e →
  let z := (validate_sources r sources e l).2 in
  (∀ s, s ∈ l → z <= generated s) ∧ (0 < e → z <= e) ∧
  ((z = e ∧ (l = [] ∨ 0 < e)) ∨ (0 < z ∧ ∃ s, s ∈ l ∧ z = generated s)).
Proof.
  revert sources e. induction l as [|s l IH]; intros sources e Hl He; cbn [validate_sources].
  { cbn. split_and!; [set_solver|done|]. left. auto. }
  destruct (validate_source_facts r s) as (_ & Hg & Hf & Hpos); [apply Hl; left|].
  rewrite (proj2 (Z.eqb_neq _ _) Hg), (proj2 (Z.eqb_neq _ _) Hf). cbn [orb]. fold (generated s).
  set (e' := if _ || (generated s <? e) then generated s else e). set (sources' := if _ : bool then _ else _).
  assert (0 < e' ∧ e' <= generated s ∧ (0 < e → e' <= e) ∧ ((e' = e ∧ 0 < e) ∨ e' = generated s)) as (He' & Hle & Hle2 & Hor).
  { subst e'. destruct (Z.eqb_spec e 0); cbn [orb]; [lia|]. destruct (Z.ltb_spec (generated s) e); lia. }
  destruct (IH sources' e') as (H1 & H2 & H3); [intros x Hx; apply Hl; by right|lia|].
  destruct (validate_sources r sources' e' l) as [[errs m] z]. cbn [snd] in *. specialize (H2 He'). split_and!.
  - intros x [->|Hx]%elem_of_cons; [lia|by apply H1].
  - intros Hp. specialize (Hle2 Hp). lia.
  - destruct H3 as [[-> _]|(Hz & x & Hx & Hxz)].
    + destruct Hor as [[-> ?]|Hor]; [left; auto|]. right. split; [lia|]. exists s. split; [left|done].
    + right. split; [done|]. exists x. split; [by right|done].
Qed.

(** ** Roots, references, order and reachability *)

Definition canonical_id (x : string) : Prop := is_Some (parseCanonicalFormulaID x).

Lemma canonical_parse x : canonical_id x → ∃ id, parseCanonicalFormulaID x = Some id ∧ FormulaID_String id = x.
Proof. intros [id Hid]. exists id. split; [done|]. by apply parseCanonicalFormulaID_Some in Hid as [_ ->]. Qed.

Definition root_problems (nodes : gmap string NodeV2) (root : RequestedRootV2) : list string :=
  err_if (bool_decide (strings_TrimSpace (q2_Requested root) = "")) "requested is empty" ++
  match parseCanonicalFormulaID (q2_ID root) with
  | None => ["requested id"]
  | Some _ =>
      match nodes !! q2_ID root with
      | None => ["requested root resolves to missing node"]
      | Some node => err_if (negb (Bool.eqb (q2_KegOnly root) (n2_KegOnly node))) "requested root keg_only does not match node"
      end
  end.

Lemma validate_roots2_once nodes seen roots :
  validate_roots2 nodes seen roots = [] ↔ each_once (root_problems nodes) q2_ID (λ _, "duplicate") seen roots = [].
Proof.
  revert seen. induction roots as [|root roots IH]; intros seen; cbn [validate_roots2 each_once]; [done|].
  unfold root_problems at 1. destruct (parseCanonicalFormulaID (q2_ID root)) as [id|] eqn:Hid.
  2: { rewrite !app_nil_iff. naive_solver. }
  apply parseCanonicalFormulaID_Some in Hid as [_ Hid]. rewrite <-Hid. rewrite !app_nil_iff, IH, !err_if_nil. tauto.
Qed.

(** A root names a node that agrees on whether it is keg-only. *)
Definition root_wf (l : list NodeV2) (root : RequestedRootV2) : Prop :=
  strings_TrimSpace (q2_Requested root) ≠ "" ∧ ∃ n, n ∈ l ∧ n2_ID n = q2_ID root ∧ n2_KegOnly n = q2_KegOnly root.

Lemma validate_roots2_nil l roots :
  NoDup (n2_ID <$> l) → (∀ n, n ∈ l → canonical_id (n2_ID n)) →
  validate_roots2 (keyed_map n2_ID ∅ l) ∅ roots = [] ↔ (∀ root, root ∈ roots → root_wf l root) ∧ NoDup (q2_ID <$> roots).
Proof.
  intros Hnd Hcan. rewrite validate_roots2_once, each_once_nil.
  assert (∀ root, root_problems (keyed_map n2_ID ∅ l) root = [] ↔ root_wf l root) as Hr; [|by setoid_rewrite Hr].
  intros root. unfold root_problems, root_wf. rewrite app_nil_iff, err_if_nil, bool_decide_eq_false. split.
  - intros [Hb H]. split; [done|]. destruct (parseCanonicalFormulaID _); [|done].
    destruct (keyed_map n2_ID ∅ l !! q2_ID root) as [n|] eqn:Hn; [|done].
    apply keyed_map_lookup in Hn as [[Hn Hk]|?]; [|done|done|set_solver]. exists n. split_and!; [done..|].
    apply err_if_nil, negb_false_iff, Bool.eqb_prop in H. done.
  - intros [Hb (n & Hn & Hk & Hkeg)]. split; [done|]. destruct (Hcan n Hn) as [id Hid]. rewrite <-Hk, Hid.
    rewrite (proj2 (keyed_map_lookup n2_ID ∅ l (n2_ID n) n Hnd ltac:(set_solver)) (or_introl (conj Hn eq_refl))).
    rewrite Hkeg. by destruct (q2_KegOnly root).
Qed.

Lemma positions2_all nodes pos i order :
  Forall canonical_id order →
  positions2 nodes pos i order =
  positions (λ x, err_if (bool_decide (nodes !! x = None)) "install_order references unknown node") (λ _, "duplicate install_order entry") pos i order.
Proof.
  intros Ho. revert pos i. induction Ho as [|x order Hx _ IH]; intros pos i; cbn [positions2 positions]; [done|].
  destruct (canonical_parse x Hx) as (id & -> & ->). rewrite IH. destruct (positions _ _ _ _ _). by rewrite app_assoc.
Qed.

Lemma positions2_canonical nodes pos i order : (positions2 nodes pos i order).1 = [] → Forall canonical_id order.
Proof.
  revert pos i. induction order as [|x order IH]; intros pos i; cbn [positions2]; [by constructor|].
  destruct (parseCanonicalFormulaID x) as [id|] eqn:Hx; [|by destruct (positions2 _ _ _ _)].
  specialize (IH (<[FormulaID_String id := i]> pos) (S i)). destruct (positions2 _ _ _ _). cbn [fst] in *.
  rewrite !app_nil_iff. intros (_ & _ & He). constructor; [by exists id|by apply IH].
Qed.

Lemma validate_order2_nil l order :
  NoDup (n2_ID <$> l) → (∀ n, n ∈ l → canonical_id (n2_ID n)) →
  validate_order2 (keyed_map n2_ID ∅ l) order = [] ↔ order ≡ₚ n2_ID <$> l ∧ topo_sorted (list_succ n2_ID dep_ids l) order.
Proof.
  intros Hnd Hcan. unfold validate_order2. rewrite keyed_map_size by done.
  set (problems := λ x, err_if (bool_decide (keyed_map n2_ID ∅ l !! x = None)) "install_order references unknown node").
  pose proof (order_checks_nil n2_ID dep_ids problems (λ _, "duplicate install_order entry") (λ _, "install_order omits node")
    (λ _ _, "install_order places a node before its dependency") (λ _, True) l order Hnd) as Hc.
  assert (∀ x, problems x = [] ↔ True ∧ x ∈ n2_ID <$> l) as Hp.
  { intros x. unfold problems. autorewrite with errs. rewrite not_eq_None_Some, keyed_map_known. naive_solver. }
  specialize (Hc Hp). split.
  - case_bool_decide as Hlen; [|done]. cbn [negb]. intros H.
    assert (Forall canonical_id order) as Ho.
    { apply (positions2_canonical (keyed_map n2_ID ∅ l) ∅ 0%nat). destruct (positions2 _ _ _ _). by apply app_nil_iff in H as [-> _]. }
    rewrite positions2_all in H by done. fold problems in H.
    destruct (positions problems _ ∅ 0 order) as [errs pos]. cbn [fst snd] in Hc. apply app_nil_iff in H as [-> H].
    apply keyed_bind_nil in H; [|done]. destruct Hc as [Hc _]. destruct Hc as (_ & ? & ?); [|done]. split_and!; [done..|exact H].
  - intros [Hperm Htopo]. assert (Forall canonical_id order) as Ho.
    { rewrite Hperm. apply Forall_forall. intros x (n & -> & Hn)%list_elem_of_fmap. by apply Hcan. }
    rewrite bool_decide_eq_true_2 by (by rewrite Hperm, length_fmap). cbn [negb]. rewrite positions2_all by done. fold problems.
    destruct Hc as [_ Hc]. destruct (positions problems _ ∅ 0 order) as [errs pos]. cbn [fst snd] in Hc.
    destruct Hc as (_ & -> & Hpr); [by split_and!|]. cbn [app]. apply keyed_bind_nil; [done|]. exact Hpr.
Qed.

Lemma graph_checks2_nil roots l order :
  NoDup (n2_ID <$> l) → (∀ n, n ∈ l → canonical_id (n2_ID n)) →
  validate_roots2 (keyed_map n2_ID ∅ l) ∅ roots = [] ∧ validate_references2 (keyed_map n2_ID ∅ l) = [] ∧
  validate_order2 (keyed_map n2_ID ∅ l) order = [] ∧ validate_reachable2 (keyed_map n2_ID ∅ l) (q2_ID <$> roots) = [] ↔
  (∀ root, root ∈ roots → root_wf l root) ∧ NoDup (q2_ID <$> roots) ∧ closure_ok n2_ID dep_ids (q2_ID <$> roots) l order.
Proof.
  intros Hnd Hcan. rewrite validate_roots2_nil, validate_order2_nil by done.
  unfold validate_references2, validate_reachable2.
  rewrite (keyed_bind_nil n2_ID (λ e, dep_ids e.2 ≫= λ dep, err_if (bool_decide (keyed_map n2_ID ∅ l !! dep = None)) _)) by done.
  rewrite (missing_deps_nil n2_ID dep_ids (λ _ _, "node references missing dependency") l).
  rewrite (reachable_check_nil n2_ID dep_ids "walk out of fuel" (λ _, "closure node is unreachable from requested roots")) by done.
  split.
  - intros ([Hr Hrn] & Hd & [Hp Ht] & Hre). split_and!; [done..|]. split; try done.
    intros x (root & -> & Hroot)%list_elem_of_fmap. destruct (Hr root Hroot) as (_ & n & Hn & <- & _). by apply list_elem_of_fmap_2.
  - intros (Hr & Hrn & [_ _ Hd Hp Ht Hre]). by split_and!.
Qed.

(** ** The record *)

Record header_wf2 (r : RecordV2) : Prop := {
  hw2_schema : v2_SchemaVersion r = SchemaVersionV2;
  hw2_policy : v2_PolicyVersion r = PolicyVersionV2;
  hw2_os : p_OS (in_Platform (v2_Input r)) = "linux";
  hw2_arch : p_Architecture (in_Platform (v2_Input r)) = "amd64" ∨ p_Architecture (in_Platform (v2_Input r)) = "arm64";
  hw2_variant : p_Variant (in_Platform (v2_Input r)) = "";
  hw2_spec : sha256_digest (in_DalecSpecDigest (v2_Input r));
  hw2_resolved : v2_ResolvedAt r ≠ 0;
  hw2_requested : v2_Requested r ≠ [];
  hw2_sources : (0 < length (v2_MetadataSources r) <= MaxResolutionV2Sources)%nat;
  hw2_nodes : (0 < length (v2_Nodes r) <= MaxResolutionV2Nodes)%nat;
}.

(** The metadata sources: one for each tap, the core one at the commit the
    components pin, and an epoch that is the earliest generation time *)
Record sources_wf (r : RecordV2) : Prop := {
  sw_each : ∀ s, s ∈ v2_MetadataSources r → validate_source r s = [];
  sw_unique : NoDup (so_Tap <$> v2_MetadataSources r);
  sw_core : ∃ s, s ∈ v2_MetadataSources r ∧ so_Tap s = core_tap ∧ so_Commit s = c2_HomebrewCommit (v2_Components r);
  sw_epoch : ∀ s, s ∈ v2_MetadataSources r → v2_SourceDateEpoch r <= generated s;
  sw_attained : ∃ s, s ∈ v2_MetadataSources r ∧ v2_SourceDateEpoch r = generated s;
}.

Definition sources_by_tap (r : RecordV2) : gmap string MetadataSource := keyed_map so_Tap ∅ (v2_MetadataSources r).

Record record_wf2 (r : RecordV2) : Prop := {
  rw2_header : header_wf2 r;
  rw2_components : validateComponentsV2 (v2_Components r) = [];
  rw2_sources : sources_wf r;
  rw2_node : ∀ n, n ∈ v2_Nodes r → node_problems r (sources_by_tap r) n = [];
  rw2_racks : ∀ m n, m ∈ v2_Nodes r → n ∈ v2_Nodes r → n2_Name m = n2_Name n → n2_ID m = n2_ID n;
  rw2_root : ∀ root, root ∈ v2_Requested r → root_wf (v2_Nodes r) root;
  rw2_roots : NoDup (q2_ID <$> v2_Requested r);
  rw2_closure : closure_ok n2_ID dep_ids (q2_ID <$> v2_Requested r) (v2_Nodes r) (v2_InstallOrder r);
  rw2_identity : identity_wf (v2_Runtime r);
  rw2_profile : rp_Profile (v2_Runtime r) = "" ∨ rp_Profile (v2_Runtime r) = RuntimeProfileMinimalV1;
  rw2_pruning : v2_PruningPolicyDigest r = "" ∨ sha256_digest (v2_PruningPolicyDigest r);
}.

Lemma length_zero {A} (l : list A) : length l = 0%nat ↔ l = [].
Proof. split; [apply nil_length_inv|by intros ->]. Qed.

Lemma validate_header2_nil r : validate_header2 r = [] ↔ header_wf2 r ∧ 0 < v2_SourceDateEpoch r.
Proof.
  unfold validate_header2, validateV2Platform. rewrite !app_nil_iff, digest_problem_nil, !err_if_nil. split.
  - intros H. destruct_and?. case_bool. split; [|done]. split; try done.
    + match goal with E : _ && _ = false |- _ => apply andb_false_iff in E as [E|E] end; case_bool; auto.
    + by rewrite <-length_zero.
    + lia.
    + lia.
  - intros [[Hs Hp Ho Ha Hv Hd Hr Hq Hms Hns] He]. rewrite Hs, Hp, Ho, Hv. rewrite <-length_zero in Hq.
    split_and!; try done; rewrite ?bool_decide_eq_false, ?Z.eqb_neq, ?Z.leb_gt, ?Nat.ltb_ge; try lia.
    by destruct Ha as [-> | ->].
Qed.

(** The checks on the sources, taken together *)
Definition source_checks (r : RecordV2) : Prop :=
  let '(errs, sources, earliest) := validate_sources r ∅ 0 (v2_MetadataSources r) in
  errs = [] ∧ (∃ s, sources !! core_tap = Some s ∧ so_Commit s = c2_HomebrewCommit (v2_Components r)) ∧
  (0 < earliest → v2_SourceDateEpoch r = earliest).

Lemma source_checks_iff r : v2_MetadataSources r ≠ [] → source_checks r ↔ sources_wf r.
Proof.
  intros Hne. unfold source_checks. pose proof (validate_sources_nil r ∅ 0 (v2_MetadataSources r)) as Hnil.
  pose proof (validate_sources_map r ∅ 0 (v2_MetadataSources r)) as Hmap.
  pose proof (validate_sources_earliest r ∅ 0 (v2_MetadataSources r)) as Hearly.
  destruct (validate_sources _ _ _ _) as [[errs sources] z]. cbn [fst snd] in *.
  assert (∀ s, NoDup (so_Tap <$> v2_MetadataSources r) →
    sources_by_tap r !! core_tap = Some s ↔ s ∈ v2_MetadataSources r ∧ so_Tap s = core_tap) as Hcore.
  { intros s Hnd. unfold sources_by_tap. rewrite keyed_map_lookup by (done || set_solver). set_solver. }
  unfold sources_by_tap in Hcore. split.
  - intros ((Hs & Hnd & _)%Hnil & (s & Hc & Hcommit) & He). rewrite Hmap in Hc by done. apply Hcore in Hc as [Hin Htap]; [|done].
    destruct (Hearly Hs) as (Hle & _ & [[-> [?|?]]|(Hpos & Hatt)]); [lia|done|lia|]. specialize (He Hpos). subst z. by split; eauto.
  - intros [Hs Hnd (s & Hin & Htap & Hcommit) He (x & Hx & Ha)]. split_and!.
    + apply Hnil. split_and!; [done..|set_solver].
    + exists s. split; [|done]. rewrite Hmap by done. by apply Hcore.
    + destruct (Hearly Hs) as (Hle & _ & [[-> [?|?]]|(Hpos & y & Hy & ->)]); [lia|done|lia|]. intros _.
      specialize (Hle x Hx). specialize (He y Hy). lia.
Qed.

(** A stuck core-source check in the form [source_checks] uses *)
Lemma core_source_nil (o : option MetadataSource) commit :
  match o with
  | None => ["metadata sources omit homebrew/core"]
  | Some core => err_if (negb (bool_decide (so_Commit core = commit))) "homebrew/core metadata commit does not match component Homebrew commit"
  end = [] ↔ ∃ s, o = Some s ∧ so_Commit s = commit.
Proof. destruct o as [s|]; autorewrite with errs; naive_solver. Qed.

Lemma validateRuntimeIdentity_nil p : err_of (λ _, "runtime identity") (validateRuntimeIdentity p) = [] ↔ identity_wf p.
Proof. rewrite <-validateRuntimeIdentity_ok. unfold err_of. destruct (validateRuntimeIdentity p) as [[]|]; split; congruence. Qed.

Lemma epoch_check z e : (0 <? z) && negb (e =? z) = false ↔ (0 < z → e = z).
Proof. rewrite andb_false_iff, negb_false_iff, Z.ltb_ge, Z.eqb_eq. lia. Qed.

Lemma profile_check p :
  negb (bool_decide (p = "")) && negb (bool_decide (p = RuntimeProfileMinimalV1)) = false ↔ p = "" ∨ p = RuntimeProfileMinimalV1.
Proof. by rewrite andb_false_iff, !negb_false_iff, !bool_decide_eq_true. Qed.

Lemma optional_digest label d : (if bool_decide (d = "") then [] else digest_problem label d) = [] ↔ d = "" ∨ sha256_digest d.
Proof. case_bool_decide; [naive_solver|]. rewrite digest_problem_nil. naive_solver. Qed.

Lemma header_sources r : header_wf2 r → v2_MetadataSources r ≠ [].
Proof. intros [_ _ _ _ _ _ _ _ Hl _] E. rewrite E in Hl. cbn in Hl. lia. Qed.

Lemma nodes_canonical r sources (l : list NodeV2) : (∀ n, n ∈ l → node_problems r sources n = []) → ∀ n, n ∈ l → canonical_id (n2_ID n).
Proof. intros He n Hin. eapply node_problems_parse, He, Hin. Qed.

Lemma ValidateV2_nil r : ValidateV2 r = [] ↔ record_wf2 r.
Proof.
  unfold ValidateV2. pose proof (source_checks_iff r) as Hsc. unfold source_checks in Hsc.
  pose proof (validate_sources_map r ∅ 0 (v2_MetadataSources r)) as Hmap.
  destruct (validate_sources _ _ _ _) as [[serrs sources] z]. cbn [fst snd] in Hmap.
  pose proof (validate_nodes2_racked r sources ∅ ∅ (v2_Nodes r)) as Hn.
  pose proof (validate_nodes2_map r sources ∅ ∅ (v2_Nodes r)) as Hm.
  destruct (validate_nodes2 _ _ _ _ _) as [nerrs nodes]. cbn [fst snd] in *. rewrite dom_empty_L, each_racked_nil in Hn.
  rewrite !app_nil_iff, validate_header2_nil, core_source_nil, validateRuntimeIdentity_nil, !err_if_nil, epoch_check, profile_check, optional_digest.
  split.
  - intros ([Hh Hpos] & Hc & Hs & Hcore & Hz & (He & Hu & Hrack)%Hn & H1 & H2 & H3 & H4 & Hi & Hp & Hd).
    assert (sources_wf r) as Hw by (apply Hsc; [by apply header_sources|done]).
    rewrite (Hmap (sw_each _ Hw)) in *. fold (sources_by_tap r) in *. pose proof (nodes_canonical _ _ _ He) as Hcan.
    rewrite (Hm Hcan) in *. destruct (proj1 (graph_checks2_nil (v2_Requested r) (v2_Nodes r) (v2_InstallOrder r) Hu Hcan)) as (? & ? & ?); [done|]. by split.
  - intros [Hh Hc Hw He Hrack Hr Hrn Hcl Hi Hp Hd]. rewrite (Hmap (sw_each _ Hw)) in *. fold (sources_by_tap r) in *.
    pose proof (nodes_canonical _ _ _ He) as Hcan. pose proof (cw_unique Hcl) as Hu. rewrite (Hm Hcan) in *.
    destruct (proj2 (graph_checks2_nil (v2_Requested r) (v2_Nodes r) (v2_InstallOrder r) Hu Hcan)) as (? & ? & ? & ?); [done|].
    destruct (proj2 (Hsc (header_sources _ Hh)) Hw) as (? & ? & ?). split_and!; try done; [|by apply Hn].
    destruct (sw_attained _ Hw) as (s & Hs & ->). by apply (validate_source_facts r s), (sw_each _ Hw).
Qed.

(** C7: [ValidateV2] accepts a second-version record exactly when it is well
    formed: the metadata sources are one for each tap with the core tap at the
    pinned commit, the epoch is the earliest generation time and is attained, each
    node passes its own checks, no two nodes share an identity or a rack, each
    root names a node and agrees with it on being keg-only, and the nodes are
    exactly the closure of the roots in dependency order. *)
Theorem ValidateV2_iff r : ValidateV2 r = [] ↔ record_wf2 r.
Proof. apply ValidateV2_nil. Qed.

(** ** Bottles *)

Definition node_bottle_checks (r : RecordV2) (n : NodeV2) (commit : string) : string * list string :=
  validateBottleV2 (in_Platform (v2_Input r)) (n2_ID n) (n2_Bottle n) (n2_ExecutablePaths n) (v2_Components r) commit.

(** What the provenance of a node's bottle is about: the upstream archive of a
    prebuilt bottle, the artifact of any other *)
Definition provenance_subject (b : BottleV2) (artifact : string) : string :=
  match b2_PrebuiltDerivation b with Some d => ps2_SHA256 (pd2_Source d) | None => artifact end.

Lemma node_problems_bottle r sources n :
  node_problems r sources n = [] →
  ∃ commit, (node_bottle_checks r n commit).2 = [] ∧ validate_bindings (v2_Components r) n = [] ∧
    validateProvenanceV2 (n2_ID n) (provenance_subject (n2_Bottle n) (node_bottle_checks r n commit).1)
      (present (b2_PrebuiltDerivation (n2_Bottle n))) (n2_Provenance n) = [].
Proof.
  unfold node_problems. destruct (parseCanonicalFormulaID (n2_ID n)) as [id|] eqn:Hid; [|done].
  apply parseCanonicalFormulaID_Some in Hid as [_ Hid]. unfold validate_node2. rewrite <-Hid.
  set (commit := match sources !! _ with Some s => so_Commit s | None => "" end). fold (node_bottle_checks r n commit).
  destruct (node_bottle_checks r n commit) as [artifact errs] eqn:Hb. rewrite !app_nil_iff. intros H. destruct_and?.
  exists commit. rewrite Hb. by split_and!.
Qed.

(** A transport delivers the very artifact the bottle names. *)
Definition transport_bound (id : string) (b : BottleV2) : Prop :=
  match tr2_OCI (b2_Transport b), tr2_HTTPS (b2_Transport b), tr2_Local (b2_Transport b) with
  | Some oci, None, None =>
      d_Digest (o2_Layer oci) = b2_SHA256 b ∧ d_Size (o2_Layer oci) = b2_Size b ∧
      o2_Registry oci = "ghcr.io" ∧ expectedOCIRepository id = Some (o2_Repository oci)
  | None, Some https, None =>
      h2_SHA256 https = b2_SHA256 b ∧ h2_ExpectedSize https = b2_Size b ∧ h2_Filename https = b2_Filename b ∧
      is_ok (fetcher_ValidateRequest (fetch_request id https)) = true
  | None, None, Some local =>
      l2_SHA256 local = b2_SHA256 b ∧ l2_Size local = b2_Size b ∧ l2_Filename local = b2_Filename b
  | _, _, _ => False
  end.

Lemma validateBottleV2_bound platform id b executables c commit :
  (validateBottleV2 platform id b executables c commit).2 = [] →
  transport_bound id b ∧ (validateBottleV2 platform id b executables c commit).1 = b2_SHA256 b ∧
  sha256_digest (b2_SHA256 b) ∧ 0 < b2_Size b <= MaxResolutionV2BottleBytes.
Proof.
  unfold validateBottleV2, transport_bound.
  destruct (tr2_OCI (b2_Transport b)) as [oci|], (tr2_HTTPS (b2_Transport b)) as [https|], (tr2_Local (b2_Transport b)) as [local|]; cbn [fst snd];
    rewrite !app_nil_iff, !digest_problem_nil, !err_if_nil; intros H; destruct_and?; try done;
    unfold size_outside, validate_oci, validate_https, validate_local in *.
  - destruct (expectedOCIRepository id) as [repo|]; rewrite !app_nil_iff, !err_if_nil in *; destruct_and?; case_bool; try done.
    subst. split_and!; try done; lia.
  - rewrite !app_nil_iff, !digest_problem_nil, !err_if_nil in *. destruct_and?.
    destruct (negb (validateBottleFilename (h2_Filename https))); [done|]. rewrite err_if_nil in *. case_bool. split_and!; try done; lia.
  - rewrite !app_nil_iff, !digest_problem_nil, !err_if_nil in *. destruct_and?. case_bool. split_and!; try done; lia.
Qed.

(** What verified provenance says of its subject *)
Lemma validateProvenanceV2_subject id subject prebuilt p v :
  validateProvenanceV2 id subject prebuilt p = [] → pv2_Verified p = Some v → subject ≠ "" → vp2_SubjectDigest v = subject ∧ pv2_Waiver p = None.
Proof.
  unfold validateProvenanceV2. intros H Hv Hs. rewrite Hv in H. destruct (pv2_Waiver p); [done|]. rewrite !app_nil_iff in H.
  destruct H as (_ & H & _). destruct (negb (is_ok _)); [done|]. rewrite err_if_nil, andb_false_iff in H.
  destruct H as [H|H]; case_bool; done.
Qed.

(** in a record [ValidateV2] accepts, every bottle has exactly one transport
    and the transport names the bottle's own digest and size: an OCI transport the
    layer in the one repository of the Formula at ghcr.io, an HTTPS transport a
    request the fetcher accepts, a local one the bottle's file. Verified provenance
    is about that artifact, or about the upstream archive when the bottle was
    derived from one, and leaves no room for a waiver. *)
Theorem ValidateV2_transports r n :
  ValidateV2 r = [] → n ∈ v2_Nodes r →
  transport_bound (n2_ID n) (n2_Bottle n) ∧ sha256_digest (b2_SHA256 (n2_Bottle n)) ∧
  0 < b2_Size (n2_Bottle n) <= MaxResolutionV2BottleBytes ∧
  ∀ v, pv2_Verified (n2_Provenance n) = Some v →
    provenance_subject (n2_Bottle n) (b2_SHA256 (n2_Bottle n)) ≠ "" →
    vp2_SubjectDigest v = provenance_subject (n2_Bottle n) (b2_SHA256 (n2_Bottle n)) ∧ pv2_Waiver (n2_Provenance n) = None.
Proof.
  intros Hr Hn. apply ValidateV2_nil in Hr. destruct (node_problems_bottle _ _ _ (rw2_node _ Hr n Hn)) as (commit & Hb & _ & Hp).
  destruct (validateBottleV2_bound _ _ _ _ _ _ Hb) as (Ht & Ha & Hd & Hs). unfold node_bottle_checks in Hp. rewrite Ha in Hp.
  split_and!; [done..|lia|lia|]. intros v Hv Hne. by eapply validateProvenanceV2_subject.
Qed.

(** C8: a bottle fetched for a record [ValidateV2] accepts is the bottle of the
    record: the fetcher never refuses the request made from an HTTPS transport,
    and when it succeeds on it, whatever the network did, it has written exactly
    as many bytes as the bottle's size and their SHA-256 is the bottle's digest. *)
Theorem fetched_bottle `{L : !FetchLib, LC : !LowerCase} r n t env accepts log outcome :
  ValidateV2 r = [] → n ∈ v2_Nodes r → tr2_HTTPS (b2_Transport (n2_Bottle n)) = Some t →
  Fetch env (fetch_request (n2_ID n) t) accepts = (log, outcome) →
  (∃ v, validateRequest (fetch_request (n2_ID n) t) = Ok v) ∧
  ∀ ev, outcome = Ok ev →
    strlen (lg_written log) = b2_Size (n2_Bottle n) ∧
    sha256_hex (lg_written log) = strings_TrimPrefix (b2_SHA256 (n2_Bottle n)) "sha256:" ∧
    VerifyEvidence ev (fetch_request (n2_ID n) t) = Ok tt.
Proof.
  intros Hr Hn Ht Hf. apply ValidateV2_nil in Hr. destruct (node_problems_bottle _ _ _ (rw2_node _ Hr n Hn)) as (commit & Hb & _).
  destruct (validateBottleV2_bound _ _ _ _ _ _ Hb) as (Hbound & _). unfold transport_bound in Hbound. rewrite Ht in Hbound.
  destruct (tr2_OCI _); [done|]. destruct (tr2_Local _); [done|]. destruct Hbound as (Hd & Hs & _ & Hv).
  unfold fetcher_ValidateRequest in Hv. unfold Fetch in Hf. destruct (validateRequest _) as [v|e] eqn:Hq; [|done].
  split; [by eauto|]. intros ev ->. destruct (fetch_verified _ _ _ _ _ _ Hq Hf) as (H1 & H2 & _ & H3).
  rewrite <-Hs, <-Hd. by split_and!.
Qed.

End facts.

(** ** A concrete record *)

Module example_v2.

Definition commit : string := "0123456789abcdef0123456789abcdef01234567".

Definition pinned (name : string) : string := name +:+ "@" +:+ example_digest.

(** 1000 s after the Unix epoch *)
Definition now : Z := (62135596800 + 1000) * 1000000000.

Definition components : ComponentsV2 :=
  MkComponentsV2 (pinned "frontend") (pinned "frontend") (pinned "base") (pinned "materializer") (pinned "fetcher") ""
    "https://catalog.example.org" example_digest example_digest example_digest commit "ruby" example_digest "v1" "v1"
    ["tap-catalog-v1"] [HTTPSFetchPolicyVersionV1] [HTTPSBottleSourceWaiverPolicyV1; ProvenanceWaiverPolicyV1].

Definition source (tap policy rollback : string) (documents : list (string * string)) : MetadataSource :=
  MkMetadataSource tap commit policy (MkSignature "key-1" "PS512" true) None
    ((λ d, MkMetadataDocument d.1 example_digest d.2) <$> documents) now "" now 1000 (MkRollbackEvidence rollback 0 example_digest).

Definition transport : HTTPSTransportV2 :=
  MkHTTPSTransportV2 "https://ghcr.io/v2/widget" 5 ("sha256:" +:+ zero_digest) "widget.tar.gz" ["ghcr.io"; "cdn.example.org"]
    HTTPSFetchPolicyVersionV1.

Definition bottle : BottleV2 :=
  MkBottleV2 "x86_64_linux" "widget.tar.gz" 5 ("sha256:" +:+ zero_digest) ":any"
    (MkBottleTabV2 false "4.0" "x86_64" "gcc" [] (MkBuiltOn "" "" "" "" "2.39") []) [] example_digest example_digest "" "" ""
    HTTPSBottleSourceWaiverPolicyV1 (MkBottleVerificationV2 BottleVerificationPolicyV1 example_digest 3 100)
    (MkBottleTransportV2 None (Some transport) None) None.

Definition node : NodeV2 :=
  MkNodeV2 "acme/tools/widget" "acme/tools" "widget" "acme/tools/widget" "1.0" 0 "1.0" 0 0 "MIT" false [] bottle
    (MkProvenanceV2 None (Some ProvenanceWaiverPolicyV1)) ["bin/widget"] "".

Definition record : RecordV2 :=
  MkRecordV2 SchemaVersionV2 PolicyVersionV2 (MkInput example_digest "" (Resolution.MkPlatform "linux" "amd64" ""))
    [source core_tap "" CoreMetadataRollbackPolicyV1 [("formula", example_digest); ("migrations", example_digest)];
     source "acme/tools" "tap-catalog-v1" MetadataRollbackPolicyV1 [("catalog", ""); ("set", example_digest)]]
    now 1000 [MkRequestedRootV2 "acme/tools/widget" "acme/tools/widget" false] [node] ["acme/tools/widget"] components
    (MkRuntimePolicy "minimal-v1" "linuxbrew" 1000 1000 [] [] "core2") "".

Lemma valid : ValidateV2 (U := ascii_tables) (G := sha256_only) (R := pinned_only) (N := https_only) (I := no_literals) record = [].
Proof. vm_compute. reflexivity. Qed.

End example_v2.

Lemma ValidateV2_transports_witness :
  transport_bound (U := ascii_tables) (N := https_only) (I := no_literals) "acme/tools/widget" example_v2.bottle.
Proof.
  apply (ValidateV2_transports (U := ascii_tables) (G := sha256_only) (R := pinned_only) (N := https_only) (I := no_literals)
    example_v2.record example_v2.node example_v2.valid). left.
Defined.

Lemma fetched_bottle_witness :
  strlen (lg_written example.log) = b2_Size example_v2.bottle.
Proof.
  refine (proj1 (proj2 (fetched_bottle (U := ascii_tables) (G := sha256_only) (R := pinned_only) (N := https_only) (I := no_literals)
    (L := example.lib) example_v2.record example_v2.node example_v2.transport example.env None
    (MkLog [MkURL "https" "" false "ghcr.io" "/v2/widget" "" false "" "" ""; MkURL "https" "" false "cdn.example.org" "/blob" "" false "" "" ""]
       "hello") _ example_v2.valid _ _ _) _ _)).
  - left.
  - reflexivity.
  - vm_compute. reflexivity.
  - reflexivity.
Defined.
