(* ===== verification/Release.v ===== *)
(** * internal/release: component manifests and release bindings

    [manifest.go] describes the images a release consists of: for each component an
    index and one child per platform, pinned by digest, and the policies the release
    implements. [v2_bindings.go] generates the values that are compiled into a
    frontend, and [dalec_frontend.go] the pin of the upstream frontend. The digests
    of the embedded policies come from policy/v2. *)

From S2P Require Import Prelude GoStrings Regex Base64 JsonUnique NetUrl Resolution ClosureGraph FetchPolicy CatalogFields CatalogRequest CatalogArtifact.
From S2P Require Import CatalogSet Jws CatalogKeys PolicyV2 TapPolicy ResolutionV2.
From stdpp Require Import options.
Local Open Scope Z_scope.

Module release.

(** ** Policies *)

Definition SchemaVersionV1 : string := "dalec-homebrew-components/v1".
Definition SchemaVersionV2 : string := "dalec-homebrew-components/v2".
Definition RuntimePolicyVersionV2 : string := policyv2.ResolverPolicyVersion.
Definition CatalogPolicyVersionV1 : string := "tap-catalog-v1".
Definition BottleFetchPolicyVersionV1 : string := policyv2.FetchPolicyVersion.
Definition SigstoreProvenancePolicyVersionV1 : string := "sigstore-in-toto-v1".
Definition ChecksumWaiverPolicyVersionV1 : string := policyv2.NonCoreProvenanceWaiver.
Definition HTTPSSourceWaiverPolicyVersionV1 : string := HTTPSBottleSourceWaiver.
Definition PrebuiltWaiverPolicyVersionV1 : string := PrebuiltProvenanceWaiverPolicyV1.
Definition CoreWaiverPolicyVersionV1 : string := "homebrew-jws-and-verified-oci-chain-v1".

Definition v2CatalogPolicyVersions : list string := [CatalogPolicyVersionV1].
Definition v2FetchPolicyVersions : list string := [BottleFetchPolicyVersionV1].
Definition v2ProvenancePolicyVersions : list string :=
  [SigstoreProvenancePolicyVersionV1; ChecksumWaiverPolicyVersionV1; HTTPSSourceWaiverPolicyVersionV1; PrebuiltWaiverPolicyVersionV1;
   CoreWaiverPolicyVersionV1].

(** What [json.Encoder] prints for the policies, and the embedded tap policy as the
    strict decoder reads it, with the digest of the embedded trust root *)
Class PolicyDocuments := {
  encode_runtime_policy : policyv2.Policy → option string;
  encode_tap_policy : TapPolicy → option string;
  embedded_tap_policy : option TapPolicy;
  embedded_trust_root_digest : string;
}.

Section embedded.
Context `{U : !UnicodeTables, D : !Digester, UR : !RequestURI, PD : !PolicyDocuments}.

Definition policyv2_Canonical : option string :=
  match policyv2.Load with Ok p => encode_runtime_policy p | Err _ => None end.

Definition policyv2_Digest : option string := data ← policyv2_Canonical; Some (digest_FromBytes data).

Definition CanonicalTapPolicy : option string :=
  policy ← LoadTapPolicy embedded_trust_root_digest embedded_tap_policy; encode_tap_policy policy.

Definition TapPolicyDigest : option string := data ← CanonicalTapPolicy; Some (digest_FromBytes data).

End embedded.

(** ** The manifest *)

Record PlatformRef := MkPlatformRef { pr_Platform : Resolution.Platform; pr_Ref : string }.

Record Component := MkComponent { co_Index : string; co_Platforms : list PlatformRef }.

Record Manifest := MkManifest {
  mf_SchemaVersion : string; mf_PolicyVersion : string; mf_Frontend : Component; mf_RuntimeBase : Component; mf_Materializer : Component;
  mf_BottleFetcher : option Component; mf_CatalogExtractor : option Component; mf_HomebrewCommit : string; mf_PortableRubyVersion : string;
  mf_VerificationKeysDigest : string; mf_MetadataBundleDigest : string; mf_DalecModule : string; mf_BuildKitModule : string;
  mf_CatalogServiceOrigin : string; mf_IngestionJWSKeyPolicyDigest : string; mf_TapPolicyDigest : string;
  mf_ExecutableRuntimePolicyDigest : string; mf_SupportedCatalogPolicyVersions : list string; mf_SupportedFetchPolicyVersions : list string;
  mf_SupportedProvenancePolicyVersions : list string;
}.

Record Bindings := MkBindings {
  bi_SchemaVersion : string; bi_PolicyVersion : string; bi_Components : Components; bi_ComponentsV2 : ComponentsV2;
  bi_BottleFetcherRef : string; bi_CatalogExtractorRef : string; bi_MetadataBundleDigest : string; bi_CatalogServiceOrigin : string;
  bi_IngestionJWSKeyPolicyDigest : string; bi_TapPolicyDigest : string; bi_ExecutableRuntimePolicyDigest : string;
  bi_SupportedCatalogPolicyVersions : list string; bi_SupportedFetchPolicyVersions : list string; bi_SupportedProvenancePolicyVersions : list string;
}.

#[export] Instance Platform_eq_dec : EqDecision Resolution.Platform.
Proof. solve_decision. Defined.
#[export] Instance PlatformRef_eq_dec : EqDecision PlatformRef.
Proof. solve_decision. Defined.
#[export] Instance Component_eq_dec : EqDecision Component.
Proof. solve_decision. Defined.
#[export] Instance Manifest_eq_dec : EqDecision Manifest.
Proof. solve_decision. Defined.

(** encoding/json on manifests: the tokens of a text, the printed form and the strict
    decoder *)
Class ManifestJSON := {
  manifest_tokens : string → decoder;
  encodeManifest : Manifest → option string;
  decodeManifest : string → option Manifest;
}.

(** The text before the first "@" *)
Definition repository_of (ref : string) : string := hd "" (strings_Split ref "@").

Definition platform_key (p : Resolution.Platform) : string := p_OS p +:+ "/" +:+ p_Architecture p.

(** The package has its own copy of the checks of internal/resolution on version lists,
    commits and digests. *)
Definition validatePolicyVersions : list string → bool := validatePolicyVersionsV2.

Definition validateExactPolicyVersions (values want : list string) : bool := bool_decide (slices_Sort values = slices_Sort want).

Definition hasV2Bindings (m : Manifest) : bool :=
  present (mf_BottleFetcher m) || present (mf_CatalogExtractor m) || negb (bool_decide (mf_MetadataBundleDigest m = ""))
  || negb (bool_decide (mf_CatalogServiceOrigin m = "")) || negb (bool_decide (mf_IngestionJWSKeyPolicyDigest m = ""))
  || negb (bool_decide (mf_TapPolicyDigest m = "")) || negb (bool_decide (mf_ExecutableRuntimePolicyDigest m = ""))
  || negb (bool_decide (mf_SupportedCatalogPolicyVersions m = [])) || negb (bool_decide (mf_SupportedFetchPolicyVersions m = []))
  || negb (bool_decide (mf_SupportedProvenancePolicyVersions m = [])).

Definition componentRefFor (c : Component) (platform : Resolution.Platform) (matchVariant : bool) : option string :=
  pr_Ref ∘ snd <$> list_find (λ p, p_OS (pr_Platform p) = p_OS platform ∧ p_Architecture (pr_Platform p) = p_Architecture platform ∧
    (matchVariant = true → p_Variant (pr_Platform p) = p_Variant platform)) (co_Platforms c).

Definition compare_platform_ref : PlatformRef → PlatformRef → Z :=
  cmp_then (cmp_on (p_OS ∘ pr_Platform) strings_Compare)
    (cmp_then (cmp_on (p_Architecture ∘ pr_Platform) strings_Compare) (cmp_on (p_Variant ∘ pr_Platform) strings_Compare)).

Definition canonicalize_component (c : Component) : Component := MkComponent (co_Index c) (slices_SortFunc compare_platform_ref (co_Platforms c)).

Definition canonicalize (m : Manifest) : Manifest :=
  MkManifest (mf_SchemaVersion m) (mf_PolicyVersion m) (canonicalize_component (mf_Frontend m)) (canonicalize_component (mf_RuntimeBase m))
    (canonicalize_component (mf_Materializer m)) (canonicalize_component <$> mf_BottleFetcher m) (canonicalize_component <$> mf_CatalogExtractor m)
    (mf_HomebrewCommit m) (mf_PortableRubyVersion m) (mf_VerificationKeysDigest m) (mf_MetadataBundleDigest m) (mf_DalecModule m) (mf_BuildKitModule m)
    (mf_CatalogServiceOrigin m) (mf_IngestionJWSKeyPolicyDigest m) (mf_TapPolicyDigest m) (mf_ExecutableRuntimePolicyDigest m)
    (slices_Sort (mf_SupportedCatalogPolicyVersions m)) (slices_Sort (mf_SupportedFetchPolicyVersions m))
    (slices_Sort (mf_SupportedProvenancePolicyVersions m)).

Inductive manifest_error :=
| ManifestUnreadable | ManifestSize | ManifestDuplicate (e : json_error) | ManifestUndecodable | ManifestInvalid (errs : list string) | ManifestEncoding
| ManifestNoChild (component : string) | ManifestNil | ManifestNeedsBindings.

Section manifest.
Context `{U : !UnicodeTables, G : !GoDigest, R : !DistributionReference, N : !NetURL, D : !Digester, UR : !RequestURI, PD : !PolicyDocuments}.

Definition component_platform (repo : string) (seen : gset string) (p : PlatformRef) : result string (gset string) :=
  let platform := pr_Platform p in
  let key := platform_key platform in
  _ ← check (negb (bool_decide (p_OS platform = "linux"))
             || (negb (bool_decide (p_Architecture platform = "amd64")) && negb (bool_decide (p_Architecture platform = "arm64")))
             || negb (bool_decide (p_Variant platform = ""))) "unsupported platform";
  _ ← check (bool_decide (key ∈ seen)) "duplicate platform";
  _ ← check (negb (is_ok (ValidatePinnedReference (pr_Ref p)))) "child reference";
  _ ← check (negb (bool_decide (repository_of (pr_Ref p) = repo))) "child uses a different repository";
  Ok ({[key]} ∪ seen).

Definition validateComponent (c : Component) : result string unit :=
  _ ← check (negb (is_ok (ValidatePinnedReference (co_Index c)))) "index";
  seen ← foldM_res (component_platform (repository_of (co_Index c))) ∅ (co_Platforms c);
  _ ← check (bool_decide ("linux/amd64" ∉ seen)) "misses linux/amd64";
  check (bool_decide ("linux/arm64" ∉ seen)) "misses linux/arm64".

Definition component_problem (c : Component) : list string := err_of id (validateComponent c).

(** A digest that must be the one of an embedded policy *)
Definition embedded_problem (label value : string) (embedded : option string) : list string :=
  match embedded with
  | None => ["load embedded " +:+ label +:+ " digest"]
  | Some digest => err_if (negb (bool_decide (value = digest))) (label +:+ " digest does not match the embedded policy")
  end.

Definition validateV2Bindings (m : Manifest) : list string :=
  let localMode := present (mf_CatalogExtractor m) in
  let serviceMode := negb (bool_decide (mf_CatalogServiceOrigin m = "")) || negb (bool_decide (mf_IngestionJWSKeyPolicyDigest m = "")) in
  (if bool_decide (mf_MetadataBundleDigest m = "") then [] else digest_problem "metadata bundle" (mf_MetadataBundleDigest m)) ++
  match mf_BottleFetcher m with None => ["V2 bottle fetcher component is required"] | Some c => component_problem c end ++
  err_if (Bool.eqb localMode serviceMode) "V2 manifest must select exactly one of build-local catalog extractor or hosted catalog service" ++
  match mf_CatalogExtractor m with
  | Some c => component_problem c
  | None =>
      err_if (negb (ValidateServiceOrigin (mf_CatalogServiceOrigin m))) "catalog service origin" ++
      digest_problem "ingestion JWS key policy" (mf_IngestionJWSKeyPolicyDigest m)
  end ++
  digest_problem "tap policy" (mf_TapPolicyDigest m) ++
  digest_problem "executable runtime policy" (mf_ExecutableRuntimePolicyDigest m) ++
  err_if (negb (validatePolicyVersions (mf_SupportedCatalogPolicyVersions m))) "supported catalog policy versions" ++
  err_if (negb (validatePolicyVersions (mf_SupportedFetchPolicyVersions m))) "supported fetch policy versions" ++
  err_if (negb (validatePolicyVersions (mf_SupportedProvenancePolicyVersions m))) "supported provenance policy versions" ++
  err_if (negb (validateExactPolicyVersions (mf_SupportedCatalogPolicyVersions m) v2CatalogPolicyVersions)) "catalog policy versions must be exactly" ++
  err_if (negb (validateExactPolicyVersions (mf_SupportedFetchPolicyVersions m) v2FetchPolicyVersions)) "fetch policy versions must be exactly" ++
  err_if (negb (validateExactPolicyVersions (mf_SupportedProvenancePolicyVersions m) v2ProvenancePolicyVersions))
    "provenance policy versions must be exactly" ++
  embedded_problem "tap policy" (mf_TapPolicyDigest m) TapPolicyDigest ++
  embedded_problem "executable runtime policy" (mf_ExecutableRuntimePolicyDigest m) policyv2_Digest.

Definition Validate (m : Manifest) : list string :=
  (if bool_decide (mf_SchemaVersion m = SchemaVersionV1) then
     err_if (negb (bool_decide (mf_PolicyVersion m = Resolution.PolicyVersion))) "unsupported V1 policy" ++
     err_if (hasV2Bindings m) "V1 component manifest contains V2-only bindings"
   else if bool_decide (mf_SchemaVersion m = SchemaVersionV2) then
     err_if (negb (bool_decide (mf_PolicyVersion m = RuntimePolicyVersionV2))) "unsupported V2 policy" ++ validateV2Bindings m
   else ["unsupported schema"]) ++
  component_problem (mf_Frontend m) ++ component_problem (mf_RuntimeBase m) ++ component_problem (mf_Materializer m) ++
  err_if (negb (git_commit (mf_HomebrewCommit m))) "invalid Homebrew commit" ++
  err_if (bool_decide (mf_PortableRubyVersion m = "")) "portable Ruby version is required" ++
  digest_problem "verification keys" (mf_VerificationKeysDigest m) ++
  err_if (bool_decide (mf_DalecModule m = "") || bool_decide (mf_BuildKitModule m = "")) "Dalec and BuildKit module versions are required".

Definition valid_manifest (m : Manifest) : result manifest_error unit :=
  match Validate m with [] => Ok tt | errs => Err (ManifestInvalid errs) end.

Definition child (name : string) (c : Component) (platform : Resolution.Platform) (matchVariant : bool) : result manifest_error string :=
  match componentRefFor c platform matchVariant with Some ref => Ok ref | None => Err (ManifestNoChild name) end.

Definition no_components_v2 : ComponentsV2 := MkComponentsV2 "" "" "" "" "" "" "" "" "" "" "" "" "" "" "" [] [] [].

(** The helpers whose index is bound while a child for the platform must exist; a
    valid manifest of the second version has the fetcher. *)
Definition helper_index (name : string) (c : option Component) (platform : Resolution.Platform) : result manifest_error string :=
  match c with None => Ok "" | Some c => _ ← child name c platform true; Ok (co_Index c) end.

Definition BindingsFor (m : Manifest) (platform : Resolution.Platform) : result manifest_error Bindings :=
  _ ← valid_manifest m;
  let v2 := bool_decide (mf_SchemaVersion m = SchemaVersionV2) in
  f ← child "frontend" (mf_Frontend m) platform v2;
  b ← child "runtime base" (mf_RuntimeBase m) platform v2;
  mat ← child "materializer" (mf_Materializer m) platform v2;
  let components := MkComponents f b mat (mf_HomebrewCommit m) (mf_PortableRubyVersion m) (mf_VerificationKeysDigest m) (mf_DalecModule m)
    (mf_BuildKitModule m) in
  fetcher ← (if v2 then helper_index "bottle fetcher" (mf_BottleFetcher m) platform else Ok "");
  extractor ← (if v2 then helper_index "catalog extractor" (mf_CatalogExtractor m) platform else Ok "");
  let componentsV2 := if v2 then
      MkComponentsV2 (co_Index (mf_Frontend m)) f b mat fetcher extractor (mf_CatalogServiceOrigin m) (mf_IngestionJWSKeyPolicyDigest m)
        (mf_TapPolicyDigest m) (mf_ExecutableRuntimePolicyDigest m) (mf_HomebrewCommit m) (mf_PortableRubyVersion m) (mf_VerificationKeysDigest m)
        (mf_DalecModule m) (mf_BuildKitModule m) (mf_SupportedCatalogPolicyVersions m) (mf_SupportedFetchPolicyVersions m)
        (mf_SupportedProvenancePolicyVersions m)
    else no_components_v2 in
  Ok (MkBindings (mf_SchemaVersion m) (mf_PolicyVersion m) components componentsV2 fetcher extractor (mf_MetadataBundleDigest m)
        (mf_CatalogServiceOrigin m) (mf_IngestionJWSKeyPolicyDigest m) (mf_TapPolicyDigest m) (mf_ExecutableRuntimePolicyDigest m)
        (mf_SupportedCatalogPolicyVersions m) (mf_SupportedFetchPolicyVersions m) (mf_SupportedProvenancePolicyVersions m)).

Definition ComponentsFor (m : option Manifest) (platform : Resolution.Platform) : result manifest_error Components :=
  match m with
  | None => Err ManifestNil
  | Some m =>
      _ ← check (negb (bool_decide (mf_SchemaVersion m = SchemaVersionV1))) ManifestNeedsBindings;
      bindings ← BindingsFor m platform;
      Ok (bi_Components bindings)
  end.

Definition SupportsNonCoreTaps (m : option Manifest) : bool :=
  match m with
  | None => false
  | Some m => bool_decide (mf_SchemaVersion m = SchemaVersionV2) && bool_decide (Validate m = [])
  end.

(** ** Texts *)

Context `{J : !ManifestJSON}.

Definition maxManifestBytes : Z := Z.shiftl 4 20.

(** [read] is what the reader gave, if it could be read. *)
Definition Decode (read : option string) : result manifest_error Manifest :=
  match read with
  | None => Err ManifestUnreadable
  | Some data =>
      _ ← check (maxManifestBytes <? strlen data) ManifestSize;
      _ ← map_err ManifestDuplicate (release_validateUniqueJSON (manifest_tokens data));
      match decodeManifest data with
      | None => Err ManifestUndecodable
      | Some m => let m := canonicalize m in _ ← valid_manifest m; Ok m
      end
  end.

Definition Canonical (m : Manifest) : result manifest_error string :=
  let c := canonicalize m in
  _ ← valid_manifest c;
  match encodeManifest c with None => Err ManifestEncoding | Some data => Ok data end.

Definition Digest (m : Manifest) : result manifest_error string := data ← Canonical m; Ok (digest_FromBytes data).

End manifest.

(** ** Bindings of the second version: [v2_bindings.go] *)

Definition V2BindingsSchemaVersion : string := "dalec-homebrew-v2-bindings/v1".

Record V2BindingsInput := MkV2BindingsInput {
  bn_KeyID : string; bn_PublicKeyPEM : string; bn_CatalogServiceDigest : string; bn_CatalogExtractorDigest : string;
}.

Record V2Bindings := MkV2Bindings {
  vb_SchemaVersion : string; vb_CatalogExtractorRef : string; vb_IngestionJWSKeyPolicyDigest : string; vb_IngestionJWSKeyPolicyBase64 : string;
  vb_TapPolicyDigest : string; vb_ExecutableRuntimePolicyDigest : string; vb_SupportedCatalogPolicyVersions : string;
  vb_SupportedFetchPolicyVersions : string; vb_SupportedProvenancePolicyVersions : string;
}.

(** [json.Encoder] on bindings *)
Class BindingsJSON := { encodeBindings : V2Bindings → option string }.

Definition joinPolicyVersions (values : list string) : string := strings_Join "," (slices_Sort values).

(** [base64.StdEncoding.EncodedLen] *)
Definition StdEncodedLen (n : Z) : Z := (n + 2) / 3 * 4.

Inductive bindings_error :=
| BindingsPEMSize | BindingsKeyPolicy (e : catalogkeys.policy_error) | BindingsKeyPolicySize | BindingsTapPolicy | BindingsRuntimePolicy
| BindingsInvalid (errs : list string) | BindingsReference | BindingsEncoding.

Section bindings.
Context `{U : !UnicodeTables, G : !GoDigest, R : !DistributionReference, N : !NetURL, D : !Digester, UR : !RequestURI, PD : !PolicyDocuments}.
Context `{S : !SignatureLib, P : !catalogkeys.PublicKeyEncoding, KJ : !catalogkeys.PolicyJSON}.

(** The embedded key policy is canonical base64 of a canonical policy with this digest. *)
Definition key_policy_problem (digest text : string) : list string :=
  if bool_decide (text = "") || (StdEncodedLen catalogkeys.MaxPolicyBytes <? strlen text) then ["ingestion JWS key policy base64 size"]
  else match base64_StdDecode text with
       | None => ["decode ingestion JWS key policy base64"]
       | Some data =>
           if negb (bool_decide (base64_StdEncode data = text)) then ["ingestion JWS key policy base64 is not canonical"]
           else match catalogkeys.Decode data with
                | Err _ => ["decode ingestion JWS key policy"]
                | Ok keyPolicy =>
                    match catalogkeys.Digest keyPolicy with
                    | Err _ => ["digest ingestion JWS key policy"]
                    | Ok actual => err_if (negb (bool_decide (actual = digest))) "ingestion JWS key policy digest does not match"
                    end
                end
       end.

Definition versions_problem (label value : string) (want : list string) : list string :=
  err_if (negb (bool_decide (value = joinPolicyVersions want))) ("supported " +:+ label +:+ " policy versions must be exactly").

Definition ValidateV2Bindings (b : V2Bindings) : list string :=
  let localMode := negb (bool_decide (vb_CatalogExtractorRef b = "")) in
  let serviceMode := negb (bool_decide (vb_IngestionJWSKeyPolicyDigest b = "")) || negb (bool_decide (vb_IngestionJWSKeyPolicyBase64 b = "")) in
  err_if (negb (bool_decide (vb_SchemaVersion b = V2BindingsSchemaVersion))) "unsupported V2 bindings schema" ++
  err_if (Bool.eqb localMode serviceMode) "V2 bindings must select exactly one of build-local extractor or ingestion JWS policy" ++
  (if localMode then reference_problem "catalog extractor reference" (vb_CatalogExtractorRef b) else []) ++
  digest_problem "tap policy digest" (vb_TapPolicyDigest b) ++
  digest_problem "executable runtime policy digest" (vb_ExecutableRuntimePolicyDigest b) ++
  (if serviceMode then key_policy_problem (vb_IngestionJWSKeyPolicyDigest b) (vb_IngestionJWSKeyPolicyBase64 b) else []) ++
  embedded_problem "tap policy" (vb_TapPolicyDigest b) TapPolicyDigest ++
  embedded_problem "executable runtime policy" (vb_ExecutableRuntimePolicyDigest b) policyv2_Digest ++
  versions_problem "catalog" (vb_SupportedCatalogPolicyVersions b) v2CatalogPolicyVersions ++
  versions_problem "fetch" (vb_SupportedFetchPolicyVersions b) v2FetchPolicyVersions ++
  versions_problem "provenance" (vb_SupportedProvenancePolicyVersions b) v2ProvenancePolicyVersions.

Definition valid_bindings (b : V2Bindings) : result bindings_error unit :=
  match ValidateV2Bindings b with [] => Ok tt | errs => Err (BindingsInvalid errs) end.

Definition embedded_digest (digest : option string) (e : bindings_error) : result bindings_error string :=
  match digest with Some d => Ok d | None => Err e end.

(** The bindings of an extractor or a key policy, with the policies of this release *)
Definition release_bindings (extractor keyDigest keyText tapDigest runtimeDigest : string) : V2Bindings :=
  MkV2Bindings V2BindingsSchemaVersion extractor keyDigest keyText tapDigest runtimeDigest (joinPolicyVersions v2CatalogPolicyVersions)
    (joinPolicyVersions v2FetchPolicyVersions) (joinPolicyVersions v2ProvenancePolicyVersions).

Definition input_key_policy (input : V2BindingsInput) : catalogkeys.Policy :=
  catalogkeys.MkPolicy catalogkeys.SchemaVersion (bn_KeyID input) []
    [catalogkeys.MkKey (bn_KeyID input) catalogkeys.CatalogSetJWSAlgorithm (bn_PublicKeyPEM input)] [bn_CatalogServiceDigest input]
    [bn_CatalogExtractorDigest input] false [].

Definition GenerateV2Bindings (input : V2BindingsInput) : result bindings_error (V2Bindings * string) :=
  _ ← check (bool_decide (bn_PublicKeyPEM input = "") || (catalogkeys.MaxPolicyBytes <? strlen (bn_PublicKeyPEM input))) BindingsPEMSize;
  let keyPolicy := input_key_policy input in
  canonicalKeyPolicy ← map_err BindingsKeyPolicy (catalogkeys.Canonical keyPolicy);
  _ ← check (catalogkeys.MaxPolicyBytes <? strlen canonicalKeyPolicy) BindingsKeyPolicySize;
  keyPolicyDigest ← map_err BindingsKeyPolicy (catalogkeys.Digest keyPolicy);
  tapPolicyDigest ← embedded_digest TapPolicyDigest BindingsTapPolicy;
  runtimePolicyDigest ← embedded_digest policyv2_Digest BindingsRuntimePolicy;
  let bindings := release_bindings "" keyPolicyDigest (base64_StdEncode canonicalKeyPolicy) tapPolicyDigest runtimePolicyDigest in
  _ ← valid_bindings bindings;
  Ok (bindings, canonicalKeyPolicy).

Definition GenerateBuildLocalV2Bindings (extractorRef : string) : result bindings_error V2Bindings :=
  _ ← check (negb (is_ok (ValidatePinnedReference extractorRef))) BindingsReference;
  tapPolicyDigest ← embedded_digest TapPolicyDigest BindingsTapPolicy;
  runtimePolicyDigest ← embedded_digest policyv2_Digest BindingsRuntimePolicy;
  let bindings := release_bindings extractorRef "" "" tapPolicyDigest runtimePolicyDigest in
  _ ← valid_bindings bindings;
  Ok bindings.

Context `{BJ : !BindingsJSON}.

Definition CanonicalV2Bindings (b : V2Bindings) : result bindings_error string :=
  _ ← valid_bindings b;
  match encodeBindings b with None => Err BindingsEncoding | Some data => Ok data end.

End bindings.

(** ** The upstream frontend: [dalec_frontend.go] *)

Definition DalecFrontendPinSchema : string := "dalec-homebrew-dalec-frontend/v1".
Definition DalecModulePath : string := "github.com/project-dalec/dalec".
Definition DalecHomebrewRoute : string := "homebrew/image".
Definition maxDalecFrontendPinBytes : Z := Z.shiftl 64 10.

Record DalecModule := MkDalecModule { dm_Path : string; dm_Version : string }.

Record DalecFrontendPin := MkDalecFrontendPin {
  fp_SchemaVersion : string; fp_Module : DalecModule; fp_Index : string; fp_Platforms : gmap string string; fp_Route : string;
}.

Record DalecFrontendSelection := MkDalecFrontendSelection { sl_Index : string; sl_Route : string }.

Definition stable_number : regex := RAlt (RStr "0") (RCat (RCls (one_of "123456789")) (RStar (RCls isDigit))).

Definition stableDalecModuleVersionPattern : regex :=
  RCat (RStr "v") (RCat stable_number (RCat (RStr ".") (RCat stable_number (RCat (RStr ".") stable_number)))).

Definition dalecFrontendReferenceRepository (ref : string) : string := (strings_Cut ref "@").1.1.

Definition pin_platforms : list string := ["linux/amd64"; "linux/arm64"].

(** encoding/json on pins *)
Class PinJSON := { pin_tokens : string → decoder; decodePin : string → option DalecFrontendPin }.

Inductive pin_error :=
| PinUnreadable | PinSize | PinDuplicate (e : json_error) | PinUndecodable | PinInvalid (errs : list string) | PinReference | PinRoute | PinPlatform
| PinUnknownReference.

Section pin.
Context `{U : !UnicodeTables, G : !GoDigest, R : !DistributionReference}.

Definition pin_platform_problem (indexRepository : string) (entry : string * string) : list string :=
  let '(platform, ref) := entry in
  if bool_decide (platform ∉ pin_platforms) then ["unsupported platform"]
  else if negb (is_ok (ValidatePinnedReference ref)) then ["child must be a digest-pinned OCI reference using sha256"]
  else err_if (negb (bool_decide (indexRepository = "")) && negb (bool_decide (dalecFrontendReferenceRepository ref = indexRepository)))
         "child uses a different repository from the index".

Definition ValidateDalecFrontendPin (pin : DalecFrontendPin) : list string :=
  let amd64 := default "" (fp_Platforms pin !! "linux/amd64") in
  let arm64 := default "" (fp_Platforms pin !! "linux/arm64") in
  err_if (negb (bool_decide (fp_SchemaVersion pin = DalecFrontendPinSchema))) "schema_version" ++
  err_if (negb (bool_decide (dm_Path (fp_Module pin) = DalecModulePath))) "module path" ++
  err_if (negb (matches stableDalecModuleVersionPattern (dm_Version (fp_Module pin)))) "module version" ++
  reference_problem "index must be a digest-pinned OCI reference using sha256" (fp_Index pin) ++
  err_if (negb (bool_decide (fp_Route pin = DalecHomebrewRoute))) "route" ++
  (sort_by fst (map_to_list (fp_Platforms pin)) ≫= pin_platform_problem (dalecFrontendReferenceRepository (fp_Index pin))) ++
  (pin_platforms ≫= λ platform, err_if (bool_decide (fp_Platforms pin !! platform = None)) ("missing platform " +:+ platform)) ++
  err_if (negb (bool_decide (amd64 = "")) && bool_decide (amd64 = arm64)) "children must use different manifests".

Definition SelectDalecFrontend (pin : DalecFrontendPin) (ref route platform : string) : result pin_error DalecFrontendSelection :=
  _ ← match ValidateDalecFrontendPin pin with [] => Ok tt | errs => Err (PinInvalid errs) end;
  if bool_decide (ref = "") then Ok (MkDalecFrontendSelection (fp_Index pin) (fp_Route pin))
  else
    _ ← check (negb (is_ok (ValidatePinnedReference ref))) PinReference;
    _ ← check (negb (bool_decide (route = fp_Route pin))) PinRoute;
    _ ← check (bool_decide (platform ∉ pin_platforms)) PinPlatform;
    _ ← check (negb (bool_decide (ref = fp_Index pin)) && negb (bool_decide (ref = default "" (fp_Platforms pin !! platform)))) PinUnknownReference;
    Ok (MkDalecFrontendSelection ref route).

Context `{PJ : !PinJSON}.

(** [read] is what the file holds, if it could be read. *)
Definition LoadDalecFrontendPin (read : option string) : result pin_error DalecFrontendPin :=
  match read with
  | None => Err PinUnreadable
  | Some data =>
      _ ← check (maxDalecFrontendPinBytes <? strlen data) PinSize;
      _ ← map_err PinDuplicate (release_validateUniqueJSON (pin_tokens data));
      match decodePin data with
      | None => Err PinUndecodable
      | Some pin => match ValidateDalecFrontendPin pin with [] => Ok pin | errs => Err (PinInvalid errs) end
      end
  end.

End pin.

End release.

Import release.

(** ** Components *)

Section components.
Context `{U : !UnicodeTables, G : !GoDigest, R : !DistributionReference}.

Definition pinned (ref : string) : Prop := ValidatePinnedReference ref = Ok tt.

(** A child of a component for a supported platform, in the repository of the index *)
Definition child_ok (index : string) (p : PlatformRef) : Prop :=
  (∃ arch, arch ∈ ["amd64"; "arm64"] ∧ pr_Platform p = Resolution.MkPlatform "linux" arch "") ∧ pinned (pr_Ref p) ∧
  repository_of (pr_Ref p) = repository_of index.

Definition keys (c : Component) : list string := (λ p, platform_key (pr_Platform p)) <$> co_Platforms c.

Record component_wf (c : Component) : Prop := {
  cw_index : pinned (co_Index c);
  cw_children : Forall (child_ok (co_Index c)) (co_Platforms c);
  cw_distinct : NoDup (keys c);
  cw_complete : "linux/amd64" ∈ keys c ∧ "linux/arm64" ∈ keys c;
}.

Lemma is_ok_pinned ref : is_ok (ValidatePinnedReference ref) = true ↔ pinned ref.
Proof. unfold pinned. by destruct (ValidatePinnedReference ref) as [[]|]. Qed.

Lemma component_platform_ok repo index seen p seen' :
  repository_of index = repo →
  component_platform repo seen p = Ok seen' ↔
    child_ok index p ∧ platform_key (pr_Platform p) ∉ seen ∧ seen' = {[platform_key (pr_Platform p)]} ∪ seen.
Proof.
  intros <-. unfold component_platform, child_ok. destruct p as [[os arch variant] ref]. cbn [pr_Platform pr_Ref p_OS p_Architecture p_Variant]. split.
  - intros H. apply bind_ok in H as ([] & Hp%check_ok & H). apply bind_ok in H as ([] & Hs%check_ok & H).
    apply bind_ok in H as ([] & Hr%check_ok & H). apply bind_ok in H as ([] & Hq%check_ok & [= <-]).
    rewrite !orb_false_iff, andb_false_iff, !negb_false_iff, !bool_decide_eq_true in Hp. destruct Hp as [[-> Harch] ->].
    apply bool_decide_eq_false in Hs. apply negb_false_iff, is_ok_pinned in Hr. apply negb_false_iff, bool_decide_eq_true in Hq.
    split_and!; try done. exists arch. split; [set_solver|done].
  - intros (((arch' & Harch & [= -> -> ->]) & Hpin & Hrepo) & Hseen & ->). apply is_ok_pinned in Hpin.
    rewrite (bool_decide_eq_false_2 _ Hseen), (bool_decide_eq_true_2 _ Hrepo), Hpin.
    apply elem_of_cons in Harch as [->|[->|?%not_elem_of_nil]%elem_of_cons]; done.
Qed.

Lemma component_platforms_ok index seen l seen' :
  foldM_res (component_platform (repository_of index)) seen l = Ok seen' ↔
    Forall (child_ok index) l ∧ NoDup ((λ p, platform_key (pr_Platform p)) <$> l) ∧ (∀ p, p ∈ l → platform_key (pr_Platform p) ∉ seen) ∧
    seen' = list_to_set ((λ p, platform_key (pr_Platform p)) <$> l) ∪ seen.
Proof.
  revert seen. induction l as [|p l IH]; intros seen; cbn [foldM_res].
  - split; [intros [= <-]|intros (_ & _ & _ & ->); f_equal; set_solver]. split_and!; [done|apply NoDup_nil_2|by intros ? ?%not_elem_of_nil|].
    cbn. set_solver.
  - rewrite bind_ok. setoid_rewrite (component_platform_ok _ index); [|done]. setoid_rewrite IH. cbn. rewrite Forall_cons, NoDup_cons. split.
    + intros (s & (Hc & Hs & ->) & Hl & Hnd & Hd & ->). split_and!; [done|done| |done| |set_solver].
      * intros Hin. apply list_elem_of_fmap in Hin as (q & Hk & Hq). specialize (Hd q Hq). rewrite <-Hk in Hd. set_solver.
      * intros q [->|Hq]%elem_of_cons; [done|]. specialize (Hd q Hq). set_solver.
    + intros ((Hc & Hl) & (Hn & Hnd) & Hd & ->). exists ({[platform_key (pr_Platform p)]} ∪ seen). split_and!; try done; [by apply Hd; left| |set_solver].
      intros q Hq. apply not_elem_of_union. split; [|by apply Hd; right]. apply not_elem_of_singleton. intros He. apply Hn.
      rewrite <-He. by apply (list_elem_of_fmap_2 (λ p, platform_key (pr_Platform p))).
Qed.

Lemma manifest_component_iff c : validateComponent c = Ok tt ↔ component_wf c.
Proof.
  unfold validateComponent. split.
  - intros H. apply bind_ok in H as ([] & Hi%check_ok & H). apply bind_ok in H as (seen & Hf & H). apply component_platforms_ok in Hf as (Hl & Hnd & _ & ->).
    apply bind_ok in H as ([] & H1%check_ok & H2%check_ok). rewrite union_empty_r_L in H1, H2.
    apply bool_decide_eq_false, dec_stable, elem_of_list_to_set in H1, H2. apply negb_false_iff, is_ok_pinned in Hi. by split.
  - intros [Hi Hl Hnd [H1 H2]]. apply is_ok_pinned in Hi. rewrite Hi. cbn [negb check mbind result_bind].
    rewrite (proj2 (component_platforms_ok (co_Index c) ∅ (co_Platforms c) (list_to_set (keys c)))).
    + cbn [mbind result_bind]. rewrite !bool_decide_eq_false_2; [done|intros Hn; apply Hn; by apply elem_of_list_to_set..].
    + split_and!; [done|done|by intros p _ ?%not_elem_of_empty|by rewrite union_empty_r_L].
Qed.

Lemma component_problem_nil c : component_problem c = [] ↔ component_wf c.
Proof. unfold component_problem. rewrite err_of_nil. apply manifest_component_iff. Qed.

End components.

(** github.com/distribution/reference: the name of a reference is determined by its
    text before the digest. *)
Class ReferenceLaws `{R : !DistributionReference} : Prop := {
  reference_name a b x y : reference_ParseNormalizedNamed a = Some x → reference_ParseNormalizedNamed b = Some y →
    repository_of a = repository_of b → ref_Domain x = ref_Domain y ∧ ref_Path x = ref_Path y;
}.

Section manifests.
Context `{U : !UnicodeTables, G : !GoDigest, R : !DistributionReference, N : !NetURL, D : !Digester, UR : !RequestURI, PD : !PolicyDocuments}.

(** The platforms a component has a child for *)
Definition supported (platform : Resolution.Platform) : Prop := ∃ arch, arch ∈ ["amd64"; "arm64"] ∧ platform = Resolution.MkPlatform "linux" arch "".

Lemma componentRefFor_ok c platform v2 :
  component_wf c → supported platform →
  ∃ p, p ∈ co_Platforms c ∧ pr_Platform p = platform ∧ componentRefFor c platform v2 = Some (pr_Ref p).
Proof.
  intros [_ Hc _ Hk] (arch & Harch & ->).
  assert (∃ p, p ∈ co_Platforms c ∧ platform_key (pr_Platform p) = "linux/" +:+ arch) as (p & Hp & Hkey).
  { apply elem_of_cons in Harch as [->|[->|?%not_elem_of_nil]%elem_of_cons]; [destruct Hk as [Hk _]|destruct Hk as [_ Hk]|done];
      apply list_elem_of_fmap in Hk as (p & Hk & Hp); by exists p. }
  rewrite Forall_forall in Hc. destruct (Hc p Hp) as ((arch' & _ & He) & _). assert (arch' = arch) as ->.
  { rewrite He in Hkey. by injection Hkey. }
  unfold componentRefFor. destruct (list_find _ (co_Platforms c)) as [[i q]|] eqn:Hf.
  - apply list_find_Some in Hf as (Hq & (Ho & Ha & _) & _). apply list_elem_of_lookup_2 in Hq. exists q. split_and!; [done| |done].
    destruct (Hc q Hq) as ((arch'' & _ & Heq) & _). rewrite Heq in *. cbn in Ha. by subst.
  - apply list_find_None in Hf. rewrite Forall_forall in Hf. exfalso. apply (Hf p Hp). rewrite He. by split_and!.
Qed.

Lemma child_found name c platform v2 :
  component_wf c → supported platform →
  ∃ p, p ∈ co_Platforms c ∧ pr_Platform p = platform ∧ child name c platform v2 = Ok (pr_Ref p).
Proof.
  intros Hc Hp. destruct (componentRefFor_ok c platform v2 Hc Hp) as (p & ? & ? & Hr). exists p. unfold child. by rewrite Hr.
Qed.

Lemma helper_index_ok name c platform : component_wf c → supported platform → helper_index name (Some c) platform = Ok (co_Index c).
Proof. intros Hc Hp. unfold helper_index. by destruct (child_found name c platform true Hc Hp) as (p & _ & _ & ->). Qed.

Lemma service_origin value :
  strings_TrimSpace value = value → ValidateServiceOrigin value = true → validateHTTPSOriginV2 value = true.
Proof.
  intros Ht. unfold ValidateServiceOrigin, validateHTTPSURL, validateHTTPSOriginV2. rewrite Ht, (bool_decide_eq_true_2 (value = value)) by done.
  destruct (url_Parse value) as [u|]; [|by rewrite !andb_false_r].
  rewrite !andb_true_iff, !negb_true_iff, !orb_false_iff, !negb_false_iff, !bool_decide_eq_true, !bool_decide_eq_false.
  intros ((((Hv & _) & _) & ((((((((Hs & Ho) & Hh) & Hu) & _) & _) & _) & Hport) & Hhost)) & Hrest).
  unfold validatePublicHostname in Hhost. rewrite !andb_true_iff, !negb_true_iff, !orb_false_iff, !bool_decide_eq_false in Hhost.
  destruct Hhost as (((((Hne & _) & _) & _) & _) & _). split_and!; try tauto.
  apply andb_false_iff in Hport as [Hp|Hp]; apply negb_false_iff, bool_decide_eq_true in Hp; rewrite Hp; done.
Qed.

(** What a valid manifest of the second version satisfies *)
Record manifest_v2 (m : Manifest) : Prop := {
  mv_components : component_wf (mf_Frontend m) ∧ component_wf (mf_RuntimeBase m) ∧ component_wf (mf_Materializer m);
  mv_fetcher : ∃ c, mf_BottleFetcher m = Some c ∧ component_wf c;
  mv_mode : (∃ c, mf_CatalogExtractor m = Some c ∧ component_wf c ∧ mf_CatalogServiceOrigin m = "" ∧ mf_IngestionJWSKeyPolicyDigest m = "") ∨
    (mf_CatalogExtractor m = None ∧ ValidateServiceOrigin (mf_CatalogServiceOrigin m) = true ∧ validateDigest (mf_IngestionJWSKeyPolicyDigest m) = Ok tt ∧
     mf_CatalogServiceOrigin m ≠ "");
  mv_digests : Forall (λ d, validateDigest d = Ok tt) [mf_TapPolicyDigest m; mf_ExecutableRuntimePolicyDigest m; mf_VerificationKeysDigest m];
  mv_embedded : TapPolicyDigest = Some (mf_TapPolicyDigest m) ∧ policyv2_Digest = Some (mf_ExecutableRuntimePolicyDigest m);
  mv_versions : Forall (λ l, validatePolicyVersionsV2 l = true)
    [mf_SupportedCatalogPolicyVersions m; mf_SupportedFetchPolicyVersions m; mf_SupportedProvenancePolicyVersions m];
  mv_commit : git_commit (mf_HomebrewCommit m) = true;
  mv_modules : mf_DalecModule m ≠ "" ∧ mf_BuildKitModule m ≠ "";
}.

Lemma digest_problem_ok label s : digest_problem label s = [] ↔ validateDigest s = Ok tt.
Proof. unfold digest_problem. rewrite err_if_nil, negb_false_iff. by destruct (validateDigest s) as [[]|]. Qed.

Lemma embedded_problem_nil label value embedded : embedded_problem label value embedded = [] ↔ embedded = Some value.
Proof.
  unfold embedded_problem. destruct embedded as [d|]; [|done]. rewrite err_if_nil, negb_false_iff, bool_decide_eq_true. naive_solver.
Qed.

Lemma Validate_v2 m : Validate m = [] → mf_SchemaVersion m = SchemaVersionV2 → manifest_v2 m.
Proof.
  intros Hv Hs. unfold Validate in Hv. rewrite Hs in Hv. cbn [bool_decide] in Hv.
  rewrite (bool_decide_eq_false_2 (SchemaVersionV2 = SchemaVersionV1)) in Hv by discriminate.
  rewrite (bool_decide_eq_true_2 (SchemaVersionV2 = SchemaVersionV2)) in Hv by reflexivity.
  rewrite !app_nil_iff, !component_problem_nil, !err_if_nil, negb_false_iff, digest_problem_ok in Hv.
  destruct Hv as ((_ & Hb) & Hf & Hr & Hm & Hc & _ & Hk & Hmod). unfold validateV2Bindings in Hb. cbv zeta in Hb.
  rewrite !app_nil_iff, !digest_problem_ok, !embedded_problem_nil in Hb.
  destruct Hb as (_ & Hfetch & Hmode & Hcat & Htap & Hrt & Hv1 & Hv2 & Hv3 & _ & _ & _ & He1 & He2).
  apply err_if_nil in Hmode, Hv1, Hv2, Hv3. apply negb_false_iff in Hv1, Hv2, Hv3. apply orb_false_iff in Hmod as [H1%bool_decide_eq_false H2%bool_decide_eq_false].
  apply negb_false_iff in Hc. split; [by split_and!| | | |exact (conj He1 He2)| |exact Hc|exact (conj H1 H2)].
  3,4: rewrite !Forall_cons; split_and!; try assumption; apply Forall_nil_2.
  all: clear He1 He2.
  - destruct (mf_BottleFetcher m) as [c|]; [|done]. apply component_problem_nil in Hfetch. by exists c.
  - destruct (mf_CatalogExtractor m) as [c|]; cbn [present] in Hmode.
    + left. exists c. apply component_problem_nil in Hcat. destruct (_ || _) eqn:Hx in Hmode; [done|].
      rewrite orb_false_iff, !negb_false_iff, !bool_decide_eq_true in Hx. tauto.
    + right. rewrite app_nil_iff, err_if_nil, negb_false_iff, digest_problem_ok in Hcat. destruct Hcat as [Hco Hcd].
      split_and!; [reflexivity|exact Hco|exact Hcd|]. intros He. rewrite He in Hco. discriminate Hco.
Qed.

Lemma reference_problem_pinned label ref : pinned ref → reference_problem label ref = [].
Proof. unfold pinned, reference_problem. by intros ->. Qed.

Lemma same_repository `{L : !ReferenceLaws} a b : pinned a → pinned b → repository_of a = repository_of b → SameReferenceRepository a b = true.
Proof.
  assert (∀ ref, pinned ref → ∃ x, reference_ParseNormalizedNamed ref = Some x) as Hp.
  { unfold pinned, ValidatePinnedReference. intros ref (_ & _ & H)%bind_ok. destruct (reference_ParseNormalizedNamed ref) as [x|]; [by exists x|done]. }
  intros [x Hx]%Hp [y Hy]%Hp Hr. destruct (reference_name a b x y Hx Hy Hr) as [He Hq]. unfold SameReferenceRepository. rewrite Hx, Hy, He, Hq.
  unfold strings_EqualFold. by rewrite !bool_decide_eq_true_2.
Qed.

(** The reference bound for a component is its child for the platform. *)
Definition bound_child (c : Component) (platform : Resolution.Platform) (ref : string) : Prop :=
  pinned ref ∧ repository_of ref = repository_of (co_Index c) ∧ ∃ p, p ∈ co_Platforms c ∧ pr_Platform p = platform ∧ pr_Ref p = ref.

(** The extractor that is bound (an image of the release, or none and a service) *)
Definition bound_extractor (m : Manifest) (ref : string) : Prop :=
  match mf_CatalogExtractor m with
  | Some c => ref = co_Index c ∧ ref ≠ "" ∧ pinned ref ∧ mf_CatalogServiceOrigin m = "" ∧ mf_IngestionJWSKeyPolicyDigest m = ""
  | None => ref = "" ∧ mf_CatalogServiceOrigin m ≠ "" ∧ ValidateServiceOrigin (mf_CatalogServiceOrigin m) = true ∧
      validateDigest (mf_IngestionJWSKeyPolicyDigest m) = Ok tt
  end.

(** What a record asks of a release beyond the manifest's own check *)
Definition record_ready (m : Manifest) : Prop :=
  strings_TrimSpace (mf_PortableRubyVersion m) ≠ "" ∧ mf_DalecModule m ≠ "unknown" ∧ mf_BuildKitModule m ≠ "unknown" ∧
  strings_TrimSpace (mf_CatalogServiceOrigin m) = mf_CatalogServiceOrigin m.

(** The components bound for a platform are those of the manifest. *)
Record bound (m : Manifest) (platform : Resolution.Platform) (c : ComponentsV2) : Prop := {
  bd_frontend : c2_FrontendIndexRef c = co_Index (mf_Frontend m) ∧ pinned (c2_FrontendIndexRef c) ∧ bound_child (mf_Frontend m) platform (c2_FrontendRef c);
  bd_runtime : bound_child (mf_RuntimeBase m) platform (c2_RuntimeBaseRef c);
  bd_materializer : bound_child (mf_Materializer m) platform (c2_MaterializerRef c);
  bd_fetcher : ∃ f, mf_BottleFetcher m = Some f ∧ c2_BottleFetcherRef c = co_Index f ∧ pinned (co_Index f);
  bd_extractor : bound_extractor m (c2_CatalogExtractorRef c);
  bd_service : c2_CatalogServiceOrigin c = mf_CatalogServiceOrigin m ∧ c2_IngestionJWSKeyPolicyDigest c = mf_IngestionJWSKeyPolicyDigest m;
  bd_policies : c2_TapPolicyDigest c = mf_TapPolicyDigest m ∧ c2_ExecutableRuntimePolicyDigest c = mf_ExecutableRuntimePolicyDigest m ∧
    c2_VerificationKeys c = mf_VerificationKeysDigest m;
  bd_build : c2_HomebrewCommit c = mf_HomebrewCommit m ∧ c2_RubyRuntime c = mf_PortableRubyVersion m ∧ c2_DalecModule c = mf_DalecModule m ∧
    c2_BuildKitModule c = mf_BuildKitModule m;
  bd_versions : c2_SupportedCatalogPolicyVersions c = mf_SupportedCatalogPolicyVersions m ∧
    c2_SupportedFetchPolicyVersions c = mf_SupportedFetchPolicyVersions m ∧ c2_SupportedProvenancePolicyVersions c = mf_SupportedProvenancePolicyVersions m;
}.

Lemma extractor_bound m platform :
  manifest_v2 m → supported platform →
  ∃ extractor, helper_index "catalog extractor" (mf_CatalogExtractor m) platform = Ok extractor ∧ bound_extractor m extractor.
Proof.
  intros Hm Hp. unfold bound_extractor. destruct (mv_mode _ Hm) as [(c & -> & Hc & Ho & Hj)|(-> & Ho & Hj & Hne)].
  - exists (co_Index c). split; [by apply helper_index_ok|]. split_and!; try done; [|by apply Hc].
    intros He. pose proof (cw_index _ Hc) as Hi. rewrite He in Hi. by apply bind_ok in Hi as ([] & Hi%check_ok%bool_decide_eq_false & _).
  - by exists "".
Qed.

Lemma child_bound name c platform : component_wf c → supported platform → ∃ ref, child name c platform true = Ok ref ∧ bound_child c platform ref.
Proof.
  intros Hc Hp. destruct (child_found name c platform true Hc Hp) as (p & Hin & Hpl & Hr). exists (pr_Ref p). split; [done|].
  destruct (proj1 (Forall_forall _ _) (cw_children _ Hc) p Hin) as (_ & Hpin & Hrepo). split_and!; [done..|]. by exists p.
Qed.

(** Bound components of a release that is ready are accepted in a record. *)
Lemma bound_accepted `{L : !ReferenceLaws} m platform c : manifest_v2 m → bound m platform c → record_ready m → validateComponentsV2 c = [].
Proof.
  intros [_ _ _ Hdigests _ Hversions Hcommit [Hd Hbk]]
    [(Hindex & Hpin0 & Hpin1 & Hrepo & _) (Hpin2 & _) (Hpin3 & _) (f & _ & Hfe & Hpin4) Hext [Ho Hj] (Ht & Hx & Hk) (Hco & Hru & Hda & Hbu) (Hv1 & Hv2 & Hv3)]
    (Hruby & Hd' & Hb' & Horigin).
  rewrite !Forall_cons in Hdigests. rewrite !Forall_cons in Hversions. rewrite <- Ht, <- Hx, <- Hk in Hdigests. rewrite <- Hv1, <- Hv2, <- Hv3 in Hversions.
  rewrite <- Hru in Hruby. rewrite <- Hda in Hd, Hd'. rewrite <- Hbu in Hbk, Hb'. rewrite <- Hco in Hcommit. rewrite <- Hfe in Hpin4.
  destruct Hdigests as (Ht' & Hx' & Hk' & _), Hversions as (Hv1' & Hv2' & Hv3' & _). unfold validateComponentsV2. cbv zeta.
  rewrite (reference_problem_pinned _ _ Hpin0), (reference_problem_pinned _ _ Hpin1), (reference_problem_pinned _ _ Hpin2),
    (reference_problem_pinned _ _ Hpin3), (reference_problem_pinned _ _ Hpin4).
  rewrite (same_repository (c2_FrontendIndexRef c) (c2_FrontendRef c)) by (done || congruence).
  rewrite (proj2 (digest_problem_ok _ _) Ht'), (proj2 (digest_problem_ok _ _) Hx'), (proj2 (digest_problem_ok _ _) Hk'), Hcommit, Hv1', Hv2', Hv3'.
  rewrite (bool_decide_eq_false_2 _ Hruby), (bool_decide_eq_false_2 _ Hd), (bool_decide_eq_false_2 _ Hbk), (bool_decide_eq_false_2 _ Hd'),
    (bool_decide_eq_false_2 _ Hb').
  unfold bound_extractor in Hext. rewrite Ho, Hj. destruct (mf_CatalogExtractor m) as [e|].
  - destruct Hext as (_ & He & Hpin & -> & ->). rewrite (bool_decide_eq_false_2 _ He), (reference_problem_pinned _ _ Hpin). reflexivity.
  - destruct Hext as (-> & Hne & Hso & Hjd). rewrite (service_origin _ Horigin Hso), (bool_decide_eq_false_2 _ Hne), (proj2 (digest_problem_ok _ _) Hjd). reflexivity.
Qed.

End manifests.

(** C16: The components a valid manifest of the second version binds for a supported
    platform always exist and are those of the manifest: frontend, runtime base and
    materializer are its children for that platform, pinned and in the repository of
    their index, the helpers are pinned indexes, and the digests, versions and commit are
    the manifest's. If the manifest also has a Ruby version that is not blank, no module
    version "unknown" and no space around its service origin, which its own check lets
    pass, [validateComponentsV2] finds nothing to object to in them. The first-version
    projection refuses the manifest. *)
Theorem BindingsFor_components
  `{U : !UnicodeTables, G : !GoDigest, R : !DistributionReference, N : !NetURL, D : !Digester, UR : !RequestURI, PD : !PolicyDocuments,
    L : !ReferenceLaws} m platform
  (Hvalid : Validate m = []) (Hschema : mf_SchemaVersion m = SchemaVersionV2) (Hplatform : supported platform) :
  (∃ b, BindingsFor m platform = Ok b ∧ bound m platform (bi_ComponentsV2 b) ∧ (record_ready m → validateComponentsV2 (bi_ComponentsV2 b) = [])) ∧
  ComponentsFor (Some m) platform = Err ManifestNeedsBindings.
Proof.
  pose proof (Validate_v2 m Hvalid Hschema) as Hm2. destruct (Validate_v2 m Hvalid Hschema) as [(Hf & Hr & Hm) (fetcher & Hfe & Hfw) _ _ _ _ _ _].
  split; [|unfold ComponentsFor; rewrite Hschema; reflexivity].
  unfold BindingsFor, valid_manifest. rewrite Hvalid. cbn [mbind result_bind]. rewrite Hschema, (bool_decide_eq_true_2 _ eq_refl).
  destruct (child_bound "frontend" _ platform Hf Hplatform) as (pf & -> & Hpf). destruct (child_bound "runtime base" _ platform Hr Hplatform) as (pr & -> & Hpr).
  destruct (child_bound "materializer" _ platform Hm Hplatform) as (pm & -> & Hpm). cbn [mbind result_bind].
  rewrite Hfe, (helper_index_ok _ _ _ Hfw Hplatform). cbn [mbind result_bind].
  destruct (extractor_bound m platform Hm2 Hplatform) as (extractor & -> & Hext). cbn [mbind result_bind]. eexists. split; [reflexivity|].
  cbn [bi_ComponentsV2]. match goal with |- bound _ _ ?c ∧ _ => assert (bound m platform c) as Hbound end.
  { pose proof (cw_index _ Hf). pose proof (cw_index _ Hfw). split; cbn; try tauto. by exists fetcher. }
  split; [exact Hbound|]. by apply (bound_accepted m platform).
Qed.

(** ** Texts *)

Definition component_texts (c : Component) : list string := co_Index c :: (pr_Ref <$> co_Platforms c).

(** The texts of a manifest that its validation does not read byte by byte *)
Definition manifest_texts (m : Manifest) : list string :=
  component_texts (mf_Frontend m) ++ component_texts (mf_RuntimeBase m) ++ component_texts (mf_Materializer m) ++
  from_option component_texts [] (mf_BottleFetcher m) ++ from_option component_texts [] (mf_CatalogExtractor m) ++
  [mf_PortableRubyVersion m; mf_DalecModule m; mf_BuildKitModule m; mf_CatalogServiceOrigin m].

Definition encodable (m : Manifest) : Prop := Forall (λ s, utf8_ValidString s = true) (manifest_texts m).

(** What is relied on of encoding/json: a valid manifest reads back from its printed
    form, which has no repeated members. *)
Class ManifestJSONLaws `{U : !UnicodeTables, G : !GoDigest, R : !DistributionReference, N : !NetURL, D : !Digester, UR : !RequestURI,
    PD : !PolicyDocuments, J : !ManifestJSON} : Prop := {
  manifest_json m b : Validate m = [] → encodable m → encodeManifest m = Some b →
    decodeManifest b = Some m ∧ release_validateUniqueJSON (manifest_tokens b) = Ok tt;
}.

#[export] Instance compare_platform_ref_order : CmpOrder compare_platform_ref.
Proof. unfold compare_platform_ref. apply _. Qed.

Lemma canonicalize_component_idem c : NoDup (keys c) → canonicalize_component (canonicalize_component c) = canonicalize_component c.
Proof.
  intros Hnd. unfold canonicalize_component. cbn. f_equal. apply SortFunc_unique_in; [apply _| |apply SortFunc_Permutation].
  intros x y. rewrite !(SortFunc_Permutation compare_platform_ref). intros Hx Hy Hc.
  assert (platform_key (pr_Platform x) = platform_key (pr_Platform y)) as Hk.
  { unfold compare_platform_ref, cmp_then, cmp_on in Hc. cbn in Hc. unfold platform_key.
    destruct (strings_Compare (p_OS (pr_Platform x)) (p_OS (pr_Platform y)) =? 0) eqn:E1; cbn in Hc; [|by rewrite Hc in E1].
    destruct (strings_Compare (p_Architecture (pr_Platform x)) (p_Architecture (pr_Platform y)) =? 0) eqn:E2; cbn in Hc; [|by rewrite Hc in E2].
    apply Z.eqb_eq in E1, E2. apply Compare_eq in E1, E2. by rewrite E1, E2. }
  by apply (NoDup_fmap_inj (λ p, platform_key (pr_Platform p)) (co_Platforms c)).
Qed.

Section texts.
Context `{U : !UnicodeTables, G : !GoDigest, R : !DistributionReference, N : !NetURL, D : !Digester, UR : !RequestURI, PD : !PolicyDocuments}.

Lemma Validate_components m :
  Validate m = [] →
  component_wf (mf_Frontend m) ∧ component_wf (mf_RuntimeBase m) ∧ component_wf (mf_Materializer m) ∧
  (∀ c, mf_BottleFetcher m = Some c → component_wf c) ∧ (∀ c, mf_CatalogExtractor m = Some c → component_wf c).
Proof.
  intros Hv. destruct (decide (mf_SchemaVersion m = SchemaVersionV2)) as [Hs|Hs].
  - destruct (Validate_v2 m Hv Hs) as [(? & ? & ?) (c & Hc & ?) Hmode _ _ _ _ _]. split_and!; [done..| |].
    + rewrite Hc. by intros ? [= <-].
    + intros e He. destruct Hmode as [(e' & He' & ? & _)|(He' & _)]; rewrite He' in He; by simplify_eq.
  - unfold Validate in Hv. rewrite (bool_decide_eq_false_2 _ Hs) in Hv. rewrite !app_nil_iff, !component_problem_nil in Hv.
    destruct Hv as (Hv1 & Hf & Hr & Hm & _). destruct (bool_decide (mf_SchemaVersion m = SchemaVersionV1)); [|discriminate Hv1].
    rewrite app_nil_iff, !err_if_nil in Hv1. destruct Hv1 as [_ Hb]. unfold hasV2Bindings in Hb. rewrite !orb_false_iff in Hb.
    destruct Hb as (((((((((Hf' & He') & _) & _) & _) & _) & _) & _) & _) & _). split_and!; [exact Hf|exact Hr|exact Hm| |].
    + intros c Hc. rewrite Hc in Hf'. discriminate Hf'.
    + intros c Hc. rewrite Hc in He'. discriminate He'.
Qed.

(** The canonical form of a manifest is the one of its canonical form. *)
Lemma canonicalize_component_wf c : component_wf (canonicalize_component c) → canonicalize_component (canonicalize_component c) = canonicalize_component c.
Proof.
  intros [_ _ Hnd _]. apply canonicalize_component_idem. unfold keys in *. cbn in Hnd. by rewrite SortFunc_Permutation in Hnd.
Qed.

Lemma canonicalize_idem m : Validate (canonicalize m) = [] → canonicalize (canonicalize m) = canonicalize m.
Proof.
  intros (Hf & Hr & Hm & Hb & He)%Validate_components. unfold canonicalize at 1. cbn in *.
  rewrite !(slices_Sort_id (slices_Sort _)) by apply slices_Sort_sorted. rewrite !canonicalize_component_wf by done. unfold canonicalize. f_equal.
  - destruct (mf_BottleFetcher m) as [c|]; [|done]. cbn. by rewrite canonicalize_component_wf by (by apply Hb).
  - destruct (mf_CatalogExtractor m) as [c|]; [|done]. cbn. by rewrite canonicalize_component_wf by (by apply He).
Qed.

End texts.

(** The printed manifest is read back: what [Canonical] prints, [Decode] reads as the
    canonical manifest, which prints the same and has the same digest; everything
    [Decode] accepts is valid and canonical. *)
Theorem manifest_roundtrip
  `{U : !UnicodeTables, G : !GoDigest, R : !DistributionReference, N : !NetURL, D : !Digester, UR : !RequestURI, PD : !PolicyDocuments, J : !ManifestJSON}
  (L : ManifestJSONLaws) m b (Hc : Canonical m = Ok b) (Hsize : strlen b <= maxManifestBytes) (Htext : encodable (canonicalize m)) :
  (Decode (Some b) = Ok (canonicalize m) ∧ Canonical (canonicalize m) = Ok b) ∧
  ∀ data q, Decode data = Ok q → Validate q = [] ∧ canonicalize q = q.
Proof.
  assert (∀ m u, valid_manifest m = Ok u ↔ Validate m = []) as Hvalid.
  { intros m' []. unfold valid_manifest. by destruct (Validate m'). }
  split.
  - unfold Canonical in Hc. apply bind_ok in Hc as (? & Hv%Hvalid & Hc). destruct (encodeManifest _) as [b'|] eqn:He; [|done]. injection Hc as ->.
    destruct (manifest_json _ _ Hv Htext He) as [Hd Hu]. pose proof (canonicalize_idem m Hv) as Hi. split.
    + unfold Decode. rewrite (proj2 (Z.ltb_ge _ _) Hsize). cbn [check mbind result_bind]. rewrite Hu. cbn [map_err mbind result_bind]. rewrite Hd, Hi.
      by rewrite (proj2 (Hvalid _ tt) Hv).
    + unfold Canonical. rewrite Hi, (proj2 (Hvalid _ tt) Hv). cbn [mbind result_bind]. by rewrite He.
  - intros data q. unfold Decode. destruct data as [data|]; [|done]. intros (_ & _ & H)%bind_ok. apply bind_ok in H as (_ & _ & H).
    destruct (decodeManifest data) as [m'|]; [|done]. apply bind_ok in H as (_ & Hv%Hvalid & [= <-]). split; [done|]. by apply canonicalize_idem.
Qed.

(** Only the pinned index or the pinned child of the platform is ever selected as the
    upstream frontend, on the pinned route. *)
Theorem SelectDalecFrontend_pinned `{U : !UnicodeTables, G : !GoDigest, R : !DistributionReference} pin ref route platform selection
  (Hs : SelectDalecFrontend pin ref route platform = Ok selection) :
  (sl_Index selection = fp_Index pin ∨ fp_Platforms pin !! platform = Some (sl_Index selection)) ∧ pinned (sl_Index selection) ∧
  sl_Route selection = DalecHomebrewRoute.
Proof.
  unfold SelectDalecFrontend in Hs. apply bind_ok in Hs as ([] & Hv & H). destruct (ValidateDalecFrontendPin pin) eqn:Hn; [|done]. clear Hv.
  unfold ValidateDalecFrontendPin in Hn. cbv zeta in Hn. rewrite !app_nil_iff in Hn. destruct Hn as (_ & _ & _ & Hi & Hr & _ & Hp & _).
  apply err_if_nil, negb_false_iff in Hi, Hr. apply is_ok_pinned in Hi. apply bool_decide_eq_true in Hr.
  destruct (bool_decide (ref = "")) eqn:He.
  - injection H as <-. split_and!; [by left|done|done].
  - apply bool_decide_eq_false in He. apply bind_ok in H as ([] & Hpin%check_ok & H). apply bind_ok in H as ([] & Hroute%check_ok & H).
    apply bind_ok in H as ([] & Hpl%check_ok & H). apply bind_ok in H as ([] & Href%check_ok & [= <-]). cbn.
    apply negb_false_iff, is_ok_pinned in Hpin. apply negb_false_iff, bool_decide_eq_true in Hroute. split_and!; [|done|congruence].
    rewrite andb_false_iff, !negb_false_iff, !bool_decide_eq_true in Href. destruct Href as [?|Href]; [by left|right].
    destruct (fp_Platforms pin !! platform) as [child|]; cbn in Href; [by subst|done].
Qed.

(** ** Example: a build-local release *)

Lemma Cut_Split s c : (strings_Cut s c).1.1 = hd "" (strings_Split s c).
Proof.
  induction s as [|d s IH]; [done|]. cbn. destruct (ascii_eqb d c); [done|]. pose proof (Split_nonempty s c). destruct (strings_Cut s c) as [[b a] f].
  destruct (strings_Split s c); [done|]. cbn in *. by subst.
Qed.

Module ReleaseExample.

Definition digest : string := "sha256:0123456789abcdef0123456789abcdef0123456789abcdef0123456789abcdef".

Definition digester : Digester := {| digest_FromBytes _ := digest |}.

Definition documents : PolicyDocuments :=
  {| encode_runtime_policy _ := Some "runtime"; encode_tap_policy _ := Some "taps"; embedded_tap_policy := Some (release_policy "sha256:root");
     embedded_trust_root_digest := "sha256:root" |}.

Definition ref (name : string) : string := "example.com/" +:+ name +:+ "@" +:+ digest.

Definition platform (arch : string) : Resolution.Platform := Resolution.MkPlatform "linux" arch "".

Definition component (name : string) : Component :=
  MkComponent (ref name) [MkPlatformRef (platform "amd64") (ref name); MkPlatformRef (platform "arm64") (ref name)].

Definition manifest : Manifest :=
  MkManifest SchemaVersionV2 RuntimePolicyVersionV2 (component "frontend") (component "base") (component "materializer") (Some (component "fetcher"))
    (Some (component "extractor")) "0123456789012345678901234567890123456789" "4.0.6" digest digest "v1" "v2" "" "" digest digest
    v2CatalogPolicyVersions v2FetchPolicyVersions v2ProvenancePolicyVersions.

Lemma manifest_valid :
  Validate (U := ascii_tables) (G := sha256_only) (R := pinned_only) (N := https_only) (D := digester) (UR := TapPolicy.Example.github_only)
    (PD := documents) manifest = [].
Proof. vm_compute. reflexivity. Qed.

Lemma references_laws : ReferenceLaws (R := pinned_only).
Proof.
  split. intros a b x y. unfold reference_ParseNormalizedNamed, pinned_only, repository_of. rewrite <-!Cut_Split.
  destruct (strings_Cut a "@") as [[na da] []], (strings_Cut b "@") as [[nb db] []]; try discriminate. cbn. by intros [= <-] [= <-] ->.
Qed.

End ReleaseExample.

Lemma BindingsFor_components_witness :
  ∃ b, BindingsFor (U := ascii_tables) (G := sha256_only) (R := pinned_only) (N := https_only) (D := ReleaseExample.digester)
    (UR := TapPolicy.Example.github_only) (PD := ReleaseExample.documents) ReleaseExample.manifest (ReleaseExample.platform "arm64") = Ok b ∧
    validateComponentsV2 (U := ascii_tables) (G := sha256_only) (R := pinned_only) (N := https_only) (bi_ComponentsV2 b) = [].
Proof.
  destruct (BindingsFor_components (U := ascii_tables) (G := sha256_only) (R := pinned_only) (N := https_only) (D := ReleaseExample.digester)
    (UR := TapPolicy.Example.github_only) (PD := ReleaseExample.documents) (L := ReleaseExample.references_laws) ReleaseExample.manifest
    (ReleaseExample.platform "arm64") ReleaseExample.manifest_valid eq_refl) as [(b & Hb & _ & Hv) _].
  - exists "arm64". split; [right; left|reflexivity].
  - exists b. split; [exact Hb|]. apply Hv. split_and!; vm_compute; [discriminate..|reflexivity].
Defined.
