(* ===== verification/Config.v ===== *)
(** * internal/config: what a frontend is bound to

    A release frontend has its component references, keys and policies compiled in
    ([-X] at link time); an invocation passes build arguments. [FromBuildOpts]
    merges the two: a compiled value cannot be changed, and only a complete compiled
    tuple enables third-party taps. *)

From S2P Require Import Prelude GoStrings Base64 NetUrl Resolution ClosureGraph CatalogFields CatalogSet Jws CatalogKeys PolicyV2 TapPolicy ResolutionV2 Release.
From stdpp Require Import options.
Local Open Scope Z_scope.

Module config.

Definition DefaultAttestationWaiver : string := "homebrew-jws-and-verified-oci-chain-v1".
Definition DefaultFormulaURL : string := "https://formulae.brew.sh/api/formula.jws.json".
Definition DefaultMigrationsURL : string := "https://formulae.brew.sh/api/formula_tap_migrations.jws.json".
Definition CoreWaiverPolicyVersionV1 : string := DefaultAttestationWaiver.

Definition BottleFetcherBuildArg : string := "DALEC_HOMEBREW_BOTTLE_FETCHER".
Definition CatalogExtractorBuildArg : string := "DALEC_HOMEBREW_CATALOG_EXTRACTOR".
Definition CatalogServiceOriginBuildArg : string := "DALEC_HOMEBREW_CATALOG_SERVICE_ORIGIN".
Definition IngestionJWSKeyPolicyDigestBuildArg : string := "DALEC_HOMEBREW_INGESTION_JWS_KEY_POLICY_DIGEST".
Definition TapPolicyDigestBuildArg : string := "DALEC_HOMEBREW_TAP_POLICY_DIGEST".
Definition ExecutableRuntimePolicyDigestBuildArg : string := "DALEC_HOMEBREW_EXECUTABLE_RUNTIME_POLICY_DIGEST".
Definition FrontendIndexRefBuildArg : string := "DALEC_HOMEBREW_FRONTEND_INDEX_REF".
Definition MetadataBundleDigestBuildArg : string := "DALEC_HOMEBREW_METADATA_BUNDLE_DIGEST".
Definition SupportedCatalogPolicyVersionsBuildArg : string := "DALEC_HOMEBREW_SUPPORTED_CATALOG_POLICY_VERSIONS".
Definition SupportedFetchPolicyVersionsBuildArg : string := "DALEC_HOMEBREW_SUPPORTED_FETCH_POLICY_VERSIONS".
Definition SupportedProvenancePolicyVersionsBuildArg : string := "DALEC_HOMEBREW_SUPPORTED_PROVENANCE_POLICY_VERSIONS".

Definition DalecBuildArgs : list string :=
  ["DALEC_HOMEBREW_ALLOW_UNATTESTED"; "DALEC_HOMEBREW_ATTESTATION_WAIVER"; BottleFetcherBuildArg; CatalogExtractorBuildArg;
   CatalogServiceOriginBuildArg; "DALEC_HOMEBREW_COMMIT"; ExecutableRuntimePolicyDigestBuildArg; "DALEC_HOMEBREW_FRONTEND_REF";
   FrontendIndexRefBuildArg; IngestionJWSKeyPolicyDigestBuildArg; "DALEC_HOMEBREW_KEYS_DIGEST"; "DALEC_HOMEBREW_MATERIALIZER";
   MetadataBundleDigestBuildArg; "DALEC_HOMEBREW_METADATA_MAX_AGE"; "DALEC_HOMEBREW_METADATA_NOT_BEFORE"; "DALEC_HOMEBREW_METADATA_URL";
   "DALEC_HOMEBREW_MIGRATIONS_URL"; "DALEC_HOMEBREW_RUBY_VERSION"; "DALEC_HOMEBREW_RUNTIME_BASE"; "DALEC_SKIP_TESTS";
   SupportedCatalogPolicyVersionsBuildArg; SupportedFetchPolicyVersionsBuildArg; SupportedProvenancePolicyVersionsBuildArg; TapPolicyDigestBuildArg].

Definition BuildArgNames : list string := DalecBuildArgs.

(** The variables a release build sets *)
Record Compiled := MkCompiled {
  cm_RuntimeBaseRef : string; cm_MaterializerRef : string; cm_FrontendRef : string; cm_HomebrewCommit : string; cm_MetadataBundleDigest : string;
  cm_VerificationKeysDigest : string; cm_PortableRubyVersion : string; cm_BottleFetcherRef : string; cm_CatalogExtractorRef : string;
  cm_CatalogServiceOrigin : string; cm_IngestionJWSKeyPolicyDigest : string; cm_IngestionJWSKeyPolicyBase64 : string; cm_TapPolicyDigest : string;
  cm_ExecutableRuntimePolicyDigest : string; cm_SupportedCatalogPolicyVersions : string; cm_SupportedFetchPolicyVersions : string;
  cm_SupportedProvenancePolicyVersions : string;
}.

Record Config := MkConfig {
  cf_FormulaURL : string; cf_MigrationsURL : string; cf_MetadataMaxAge : Z; cf_MetadataNotBefore : option Z; cf_RuntimeBaseRef : string;
  cf_MaterializerRef : string; cf_FrontendIndexRef : string; cf_FrontendRef : string; cf_HomebrewCommit : string; cf_MetadataBundleDigest : string;
  cf_VerificationKeysDigest : string; cf_PortableRubyVersion : string; cf_SkipTests : bool; cf_AllowUnattested : bool; cf_AttestationWaiver : string;
  cf_BottleFetcherRef : string; cf_CatalogExtractorRef : string; cf_CatalogServiceOrigin : string; cf_IngestionJWSKeyPolicyDigest : string;
  cf_IngestionJWSKeyPolicyBase64 : string; cf_TapPolicyDigest : string; cf_ExecutableRuntimePolicyDigest : string;
  cf_SupportedCatalogPolicyVersions : list string; cf_SupportedFetchPolicyVersions : list string; cf_SupportedProvenancePolicyVersions : list string;
  cf_compiledNonCoreTaps : bool;
}.

(** [time.ParseDuration] and [time.Parse] with the layout RFC 3339 *)
Class TimeParsing := { time_ParseDuration : string → option Z; time_ParseRFC3339 : string → option Z }.

Definition firstNonEmpty (a b : string) : string := if bool_decide (a = "") then b else a.

(** [strconv.ParseBool] is true of six texts. *)
Definition parseBool (s : string) : bool := bool_decide (s ∈ ["1"; "t"; "T"; "TRUE"; "true"; "True"]).

Definition nonempty (s : string) : bool := negb (bool_decide (s = "")).

(** The checks of version lists, as internal/release has them *)
Definition validatePolicyVersions : list string → bool := release.validatePolicyVersions.

Definition validateExactPolicyVersions : list string → list string → bool := release.validateExactPolicyVersions.

Definition parsePolicyVersions (raw : string) : result string (list string) :=
  if bool_decide (raw = "") then Ok []
  else
    let values := strings_Split raw "," in
    _ ← check (negb (validatePolicyVersions values)) "policy versions";
    Ok (slices_Sort values).

Definition hasNonCoreBindings (c : Config) : bool :=
  nonempty (cf_BottleFetcherRef c) || nonempty (cf_CatalogExtractorRef c) || nonempty (cf_CatalogServiceOrigin c)
  || nonempty (cf_IngestionJWSKeyPolicyDigest c) || nonempty (cf_TapPolicyDigest c) || nonempty (cf_ExecutableRuntimePolicyDigest c)
  || negb (bool_decide (cf_SupportedCatalogPolicyVersions c = [])) || negb (bool_decide (cf_SupportedFetchPolicyVersions c = []))
  || negb (bool_decide (cf_SupportedProvenancePolicyVersions c = [])).

Definition hasCompiledNonCoreBindings (c : Compiled) : bool :=
  nonempty (cm_BottleFetcherRef c) || nonempty (cm_CatalogExtractorRef c) || nonempty (cm_CatalogServiceOrigin c)
  || nonempty (cm_IngestionJWSKeyPolicyDigest c) || nonempty (cm_IngestionJWSKeyPolicyBase64 c) || nonempty (cm_TapPolicyDigest c)
  || nonempty (cm_ExecutableRuntimePolicyDigest c) || nonempty (cm_SupportedCatalogPolicyVersions c)
  || nonempty (cm_SupportedFetchPolicyVersions c) || nonempty (cm_SupportedProvenancePolicyVersions c).

Definition compiledReleaseBound (c : Compiled) : bool :=
  nonempty (cm_RuntimeBaseRef c) || nonempty (cm_MaterializerRef c) || nonempty (cm_HomebrewCommit c) || nonempty (cm_MetadataBundleDigest c)
  || nonempty (cm_VerificationKeysDigest c) || nonempty (cm_BottleFetcherRef c) || nonempty (cm_CatalogExtractorRef c)
  || nonempty (cm_CatalogServiceOrigin c) || nonempty (cm_IngestionJWSKeyPolicyDigest c) || nonempty (cm_IngestionJWSKeyPolicyBase64 c)
  || nonempty (cm_TapPolicyDigest c) || nonempty (cm_ExecutableRuntimePolicyDigest c) || nonempty (cm_SupportedCatalogPolicyVersions c)
  || nonempty (cm_SupportedFetchPolicyVersions c) || nonempty (cm_SupportedProvenancePolicyVersions c).

(** ** Build arguments *)

Definition opt (opts : gmap string string) (key : string) : string := default "" (opts !! key).

Definition build_arg (opts : gmap string string) (key : string) : string := opt opts ("build-arg:" +:+ key).

Definition get (opts : gmap string string) (key fallback : string) : string := firstNonEmpty (build_arg opts key) fallback.

Definition differs (key : string) : string := key +:+ " differs from the release-bound value".

(** [bind]: its value and the error it appends *)
Definition bind (opts : gmap string string) (key compiled : string) : string := firstNonEmpty compiled (build_arg opts key).

Definition bind_problem (opts : gmap string string) (key compiled : string) : list string :=
  let supplied := build_arg opts key in
  err_if (nonempty compiled && nonempty supplied && negb (bool_decide (supplied = compiled))) (differs key).

(** [bindCapability]: in a release an absent compiled value is bound as well *)
Definition bindCapability (releaseBound : bool) (opts : gmap string string) (key compiled : string) : string :=
  if releaseBound then compiled else build_arg opts key.

Definition capability_problem (releaseBound : bool) (opts : gmap string string) (key compiled : string) : list string :=
  let supplied := build_arg opts key in
  err_if (releaseBound && nonempty supplied && negb (bool_decide (supplied = compiled))) (differs key).

Definition parsed (raw : string) : list string := match parsePolicyVersions raw with Ok values => values | Err _ => [] end.

Definition week : Z := 7 * 24 * 3600 * 1000000000.

Section config.
Context `{U : !UnicodeTables, G : !GoDigest, R : !DistributionReference, N : !NetURL, D : !Digester, UR : !RequestURI, PD : !release.PolicyDocuments}.
Context `{S : !SignatureLib, P : !catalogkeys.PublicKeyEncoding, KJ : !catalogkeys.PolicyJSON, T : !TimeParsing}.

Definition DefaultKeySetDigest : string := digest_FromBytes homebrew1PublicKeyPEM.

Definition config_validateDigest (value : string) : bool := nonempty value && is_ok (validateDigest value).

Definition config_digest_problem (label value : string) : list string := err_if (negb (config_validateDigest value)) label.

Definition validateNonCoreBindings (c : Config) : list string :=
  if negb (hasNonCoreBindings c) then []
  else
    let localMode := nonempty (cf_CatalogExtractorRef c) in
    let serviceMode := nonempty (cf_CatalogServiceOrigin c) || nonempty (cf_IngestionJWSKeyPolicyDigest c) in
    reference_problem "bottle fetcher" (cf_BottleFetcherRef c) ++
    err_if (Bool.eqb localMode serviceMode) "non-core bindings must select exactly one of build-local extractor or hosted catalog service" ++
    (if localMode then
       reference_problem "catalog extractor" (cf_CatalogExtractorRef c) ++
       err_if (nonempty (cf_CatalogServiceOrigin c) || nonempty (cf_IngestionJWSKeyPolicyDigest c) || nonempty (cf_IngestionJWSKeyPolicyBase64 c))
         "build-local extraction cannot include hosted catalog-service bindings"
     else
       err_if (negb (ValidateServiceOrigin (cf_CatalogServiceOrigin c))) "catalog service origin" ++
       config_digest_problem "ingestion JWS key policy" (cf_IngestionJWSKeyPolicyDigest c)) ++
    config_digest_problem "tap policy" (cf_TapPolicyDigest c) ++
    config_digest_problem "executable runtime policy" (cf_ExecutableRuntimePolicyDigest c) ++
    err_if (negb (validatePolicyVersions (cf_SupportedCatalogPolicyVersions c))) "supported catalog policy versions" ++
    err_if (negb (validatePolicyVersions (cf_SupportedFetchPolicyVersions c))) "supported fetch policy versions" ++
    err_if (negb (validatePolicyVersions (cf_SupportedProvenancePolicyVersions c))) "supported provenance policy versions" ++
    err_if (negb (validateExactPolicyVersions (cf_SupportedCatalogPolicyVersions c) release.v2CatalogPolicyVersions))
      "catalog policy versions must be exactly" ++
    err_if (negb (validateExactPolicyVersions (cf_SupportedFetchPolicyVersions c) release.v2FetchPolicyVersions))
      "fetch policy versions must be exactly" ++
    err_if (negb (validateExactPolicyVersions (cf_SupportedProvenancePolicyVersions c) release.v2ProvenancePolicyVersions))
      "provenance policy versions must be exactly" ++
    release.embedded_problem "tap policy" (cf_TapPolicyDigest c) release.TapPolicyDigest ++
    release.embedded_problem "executable runtime policy" (cf_ExecutableRuntimePolicyDigest c) release.policyv2_Digest.

Definition supportsNonCoreBindings (c : Config) : bool := hasNonCoreBindings c && bool_decide (validateNonCoreBindings c = []).

Inductive key_policy_error := KeyPolicyAbsent | KeyPolicyBase64 | KeyPolicyInvalid (e : catalogkeys.policy_error) | KeyPolicyDigest.

Definition CompiledCatalogKeyPolicy (c : Compiled) : result key_policy_error catalogkeys.Policy :=
  _ ← check (bool_decide (cm_IngestionJWSKeyPolicyBase64 c = "")) KeyPolicyAbsent;
  match base64_StdDecode (cm_IngestionJWSKeyPolicyBase64 c) with
  | None => Err KeyPolicyBase64
  | Some data =>
      policy ← map_err KeyPolicyInvalid (catalogkeys.Decode data);
      digest ← map_err KeyPolicyInvalid (catalogkeys.Digest policy);
      _ ← check (bool_decide (cm_IngestionJWSKeyPolicyDigest c = "") || negb (bool_decide (digest = cm_IngestionJWSKeyPolicyDigest c))) KeyPolicyDigest;
      Ok policy
  end.

(** The fields of a configuration that [compiledNonCoreConfig] sets; the others have
    their zero values. *)
Definition compiled_config (c : Compiled) (catalog fetch provenance : list string) : Config :=
  MkConfig "" "" 0 None (cm_RuntimeBaseRef c) (cm_MaterializerRef c) "" "" (cm_HomebrewCommit c) "" (cm_VerificationKeysDigest c)
    (cm_PortableRubyVersion c) false false "" (cm_BottleFetcherRef c) (cm_CatalogExtractorRef c) (cm_CatalogServiceOrigin c)
    (cm_IngestionJWSKeyPolicyDigest c) "" (cm_TapPolicyDigest c) (cm_ExecutableRuntimePolicyDigest c) catalog fetch provenance false.

(** The configuration, if it is complete *)
Definition compiledNonCoreConfig (c : Compiled) : option Config :=
  match parsePolicyVersions (cm_SupportedCatalogPolicyVersions c), parsePolicyVersions (cm_SupportedFetchPolicyVersions c),
        parsePolicyVersions (cm_SupportedProvenancePolicyVersions c) with
  | Ok catalog, Ok fetch, Ok provenance =>
      if bool_decide (cm_CatalogExtractorRef c = "") && negb (is_ok (CompiledCatalogKeyPolicy c)) then None
      else if negb (nonempty (cm_RuntimeBaseRef c)) || negb (nonempty (cm_MaterializerRef c)) || negb (nonempty (cm_HomebrewCommit c))
              || negb (nonempty (cm_VerificationKeysDigest c)) || negb (nonempty (cm_PortableRubyVersion c)) then None
      else let cfg := compiled_config c catalog fetch provenance in if supportsNonCoreBindings cfg then Some cfg else None
  | _, _, _ => None
  end.

Definition SupportsCompiledNonCoreTaps (c : Compiled) : bool := match compiledNonCoreConfig c with Some _ => true | None => false end.

Definition SupportsNonCoreTaps (compiled : Compiled) (c : Config) : bool :=
  if negb (cf_compiledNonCoreTaps c) || negb (supportsNonCoreBindings c) then false
  else match compiledNonCoreConfig compiled with
       | None => false
       | Some k =>
           bool_decide (cf_RuntimeBaseRef c = cf_RuntimeBaseRef k) && bool_decide (cf_MaterializerRef c = cf_MaterializerRef k)
           && nonempty (cf_FrontendIndexRef c) && SameReferenceRepository (cf_FrontendRef c) (cf_FrontendIndexRef c)
           && bool_decide (cf_HomebrewCommit c = cf_HomebrewCommit k) && bool_decide (cf_VerificationKeysDigest c = cf_VerificationKeysDigest k)
           && bool_decide (cf_PortableRubyVersion c = cf_PortableRubyVersion k) && bool_decide (cf_BottleFetcherRef c = cf_BottleFetcherRef k)
           && bool_decide (cf_CatalogExtractorRef c = cf_CatalogExtractorRef k) && bool_decide (cf_CatalogServiceOrigin c = cf_CatalogServiceOrigin k)
           && bool_decide (cf_IngestionJWSKeyPolicyDigest c = cf_IngestionJWSKeyPolicyDigest k)
           && bool_decide (cf_TapPolicyDigest c = cf_TapPolicyDigest k)
           && bool_decide (cf_ExecutableRuntimePolicyDigest c = cf_ExecutableRuntimePolicyDigest k)
           && bool_decide (cf_SupportedCatalogPolicyVersions c = cf_SupportedCatalogPolicyVersions k)
           && bool_decide (cf_SupportedFetchPolicyVersions c = cf_SupportedFetchPolicyVersions k)
           && bool_decide (cf_SupportedProvenancePolicyVersions c = cf_SupportedProvenancePolicyVersions k)
       end.

(** ** [FromBuildOpts] *)

(** The metadata bundle of a release must be named by the invocation as well. *)
Definition metadata_bundle (compiled supplied : string) : string * list string :=
  if bool_decide (compiled = "") then
    ("", err_if (nonempty supplied) "compiled metadata bundle digest is required when a runtime binding is supplied")
  else if negb (config_validateDigest compiled) then ("", ["compiled metadata bundle digest"])
  else if bool_decide (supplied = "") then ("", ["metadata bundle digest is required for release-bound frontends"])
  else if negb (bool_decide (supplied = compiled)) then ("", [differs MetadataBundleDigestBuildArg])
  else (compiled, []).

Definition metadata_max_age (releaseBound : bool) (raw : string) : Z * list string :=
  if bool_decide (raw = "") then (week, [])
  else match time_ParseDuration raw with
       | Some d => if d <=? 0 then (week, ["invalid DALEC_HOMEBREW_METADATA_MAX_AGE"])
                   else if releaseBound && (week <? d) then (week, ["release-bound metadata max age exceeds 168h"])
                   else (d, [])
       | None => (week, ["invalid DALEC_HOMEBREW_METADATA_MAX_AGE"])
       end.

Definition metadata_not_before (raw : string) : option Z * list string :=
  if bool_decide (raw = "") then (None, [])
  else match time_ParseRFC3339 raw with Some t => (Some t, []) | None => (None, ["invalid DALEC_HOMEBREW_METADATA_NOT_BEFORE"]) end.

(** The fields of the configuration *)
Definition make_config (compiled : Compiled) (opts : gmap string string) : Config :=
  let releaseBound := compiledReleaseBound compiled in
  let capability := bindCapability releaseBound opts in
  MkConfig (get opts "DALEC_HOMEBREW_METADATA_URL" DefaultFormulaURL) (get opts "DALEC_HOMEBREW_MIGRATIONS_URL" DefaultMigrationsURL)
    (metadata_max_age releaseBound (get opts "DALEC_HOMEBREW_METADATA_MAX_AGE" "")).1
    (metadata_not_before (get opts "DALEC_HOMEBREW_METADATA_NOT_BEFORE" "")).1
    (bind opts "DALEC_HOMEBREW_RUNTIME_BASE" (cm_RuntimeBaseRef compiled)) (bind opts "DALEC_HOMEBREW_MATERIALIZER" (cm_MaterializerRef compiled))
    (build_arg opts FrontendIndexRefBuildArg)
    (bind opts "DALEC_HOMEBREW_FRONTEND_REF" (firstNonEmpty (cm_FrontendRef compiled) (opt opts "source")))
    (bind opts "DALEC_HOMEBREW_COMMIT" (cm_HomebrewCommit compiled))
    (metadata_bundle (cm_MetadataBundleDigest compiled) (build_arg opts MetadataBundleDigestBuildArg)).1
    (bind opts "DALEC_HOMEBREW_KEYS_DIGEST" (cm_VerificationKeysDigest compiled))
    (bind opts "DALEC_HOMEBREW_RUBY_VERSION" (firstNonEmpty (cm_PortableRubyVersion compiled) "4.0.6"))
    (parseBool (get opts "DALEC_SKIP_TESTS" "")) (parseBool (get opts "DALEC_HOMEBREW_ALLOW_UNATTESTED" "1"))
    (get opts "DALEC_HOMEBREW_ATTESTATION_WAIVER" DefaultAttestationWaiver)
    (capability BottleFetcherBuildArg (cm_BottleFetcherRef compiled)) (capability CatalogExtractorBuildArg (cm_CatalogExtractorRef compiled))
    (capability CatalogServiceOriginBuildArg (cm_CatalogServiceOrigin compiled))
    (capability IngestionJWSKeyPolicyDigestBuildArg (cm_IngestionJWSKeyPolicyDigest compiled)) ""
    (capability TapPolicyDigestBuildArg (cm_TapPolicyDigest compiled))
    (capability ExecutableRuntimePolicyDigestBuildArg (cm_ExecutableRuntimePolicyDigest compiled))
    (parsed (capability SupportedCatalogPolicyVersionsBuildArg (cm_SupportedCatalogPolicyVersions compiled)))
    (parsed (capability SupportedFetchPolicyVersionsBuildArg (cm_SupportedFetchPolicyVersions compiled)))
    (parsed (capability SupportedProvenancePolicyVersionsBuildArg (cm_SupportedProvenancePolicyVersions compiled)))
    (SupportsCompiledNonCoreTaps compiled).

(** The errors that were appended while the fields were bound *)
Definition binding_problems (compiled : Compiled) (opts : gmap string string) : list string :=
  let releaseBound := compiledReleaseBound compiled in
  let capability := bindCapability releaseBound opts in
  let capability_error := capability_problem releaseBound opts in
  capability_error SupportedCatalogPolicyVersionsBuildArg (cm_SupportedCatalogPolicyVersions compiled) ++
  capability_error SupportedFetchPolicyVersionsBuildArg (cm_SupportedFetchPolicyVersions compiled) ++
  capability_error SupportedProvenancePolicyVersionsBuildArg (cm_SupportedProvenancePolicyVersions compiled) ++
  err_of id (parsePolicyVersions (capability SupportedCatalogPolicyVersionsBuildArg (cm_SupportedCatalogPolicyVersions compiled))) ++
  err_of id (parsePolicyVersions (capability SupportedFetchPolicyVersionsBuildArg (cm_SupportedFetchPolicyVersions compiled))) ++
  err_of id (parsePolicyVersions (capability SupportedProvenancePolicyVersionsBuildArg (cm_SupportedProvenancePolicyVersions compiled))) ++
  bind_problem opts "DALEC_HOMEBREW_RUNTIME_BASE" (cm_RuntimeBaseRef compiled) ++
  bind_problem opts "DALEC_HOMEBREW_MATERIALIZER" (cm_MaterializerRef compiled) ++
  bind_problem opts "DALEC_HOMEBREW_FRONTEND_REF" (firstNonEmpty (cm_FrontendRef compiled) (opt opts "source")) ++
  bind_problem opts "DALEC_HOMEBREW_COMMIT" (cm_HomebrewCommit compiled) ++
  bind_problem opts "DALEC_HOMEBREW_KEYS_DIGEST" (cm_VerificationKeysDigest compiled) ++
  bind_problem opts "DALEC_HOMEBREW_RUBY_VERSION" (firstNonEmpty (cm_PortableRubyVersion compiled) "4.0.6") ++
  capability_error BottleFetcherBuildArg (cm_BottleFetcherRef compiled) ++
  capability_error CatalogExtractorBuildArg (cm_CatalogExtractorRef compiled) ++
  capability_error CatalogServiceOriginBuildArg (cm_CatalogServiceOrigin compiled) ++
  capability_error IngestionJWSKeyPolicyDigestBuildArg (cm_IngestionJWSKeyPolicyDigest compiled) ++
  capability_error TapPolicyDigestBuildArg (cm_TapPolicyDigest compiled) ++
  capability_error ExecutableRuntimePolicyDigestBuildArg (cm_ExecutableRuntimePolicyDigest compiled) ++
  (metadata_bundle (cm_MetadataBundleDigest compiled) (build_arg opts MetadataBundleDigestBuildArg)).2.

(** The checks of the finished configuration *)
Definition config_problems (compiled : Compiled) (opts : gmap string string) (cfg : Config) : list string :=
  let releaseBound := compiledReleaseBound compiled in
  err_if (nonempty (opt opts "source") && negb (bool_decide (cf_FrontendRef cfg = opt opts "source")))
    "frontend binding differs from the invoking gateway source" ++
  err_if (releaseBound && (negb (bool_decide (cf_FormulaURL cfg = DefaultFormulaURL)) || negb (bool_decide (cf_MigrationsURL cfg = DefaultMigrationsURL))))
    "release-bound frontends cannot override official Homebrew metadata endpoints" ++
  (metadata_max_age releaseBound (get opts "DALEC_HOMEBREW_METADATA_MAX_AGE" "")).2 ++
  (metadata_not_before (get opts "DALEC_HOMEBREW_METADATA_NOT_BEFORE" "")).2 ++
  err_if (releaseBound && cf_SkipTests cfg) "release-bound frontends cannot skip runtime tests" ++
  reference_problem "runtime base" (cf_RuntimeBaseRef cfg) ++
  reference_problem "materializer" (cf_MaterializerRef cfg) ++
  (if nonempty (cf_FrontendRef cfg) then reference_problem "frontend" (cf_FrontendRef cfg) else []) ++
  (if SupportsCompiledNonCoreTaps compiled then
     reference_problem "frontend index" (cf_FrontendIndexRef cfg) ++
     err_if (negb (SameReferenceRepository (cf_FrontendRef cfg) (cf_FrontendIndexRef cfg)))
       "frontend platform child and index must use the same repository"
   else []) ++
  err_if (bool_decide (cf_PortableRubyVersion cfg = "")) "portable Ruby version is not bound into the component tuple" ++
  err_if (bool_decide (cf_HomebrewCommit cfg = "")) "Homebrew commit is not bound into the component tuple" ++
  (if negb (config_validateDigest (cf_VerificationKeysDigest cfg)) then ["verification key set"]
   else err_if (negb (bool_decide (cf_VerificationKeysDigest cfg = DefaultKeySetDigest))) "verification key set digest does not match embedded key set") ++
  err_if (negb (cf_AllowUnattested cfg)) "upstream attestation verification is required but no verifier is configured" ++
  err_if (negb (bool_decide (cf_AttestationWaiver cfg = DefaultAttestationWaiver))) "unsupported V1 attestation waiver" ++
  validateNonCoreBindings cfg ++
  (if hasCompiledNonCoreBindings compiled && bool_decide (cm_CatalogExtractorRef compiled = "")
   then err_of (λ _, "compiled ingestion JWS key policy") (CompiledCatalogKeyPolicy compiled) else []).

Definition FromBuildOpts (compiled : Compiled) (opts : gmap string string) : Config * list string :=
  let cfg := make_config compiled opts in
  (cfg, binding_problems compiled opts ++ config_problems compiled opts cfg).

End config.

End config.

Import config.

(** ** What an accepted configuration is *)

Lemma nonempty_true s : nonempty s = true ↔ s ≠ "".
Proof. unfold nonempty. rewrite negb_true_iff, bool_decide_eq_false. done. Qed.

Lemma firstNonEmpty_bound a b : a ≠ "" → firstNonEmpty a b = a.
Proof. intros H. unfold firstNonEmpty. by rewrite bool_decide_eq_false_2. Qed.

Lemma default_ruby a : firstNonEmpty a "4.0.6" ≠ "".
Proof. unfold firstNonEmpty. by destruct (bool_decide_reflect (a = "")). Qed.

(** The configuration of a release: what the invocation cannot choose comes from the
    compiled values *)
Definition bound_config (c : Compiled) (supported : bool) (maxAge : Z) (notBefore : option Z) (frontendIndex frontend : string) : Config :=
  MkConfig DefaultFormulaURL DefaultMigrationsURL maxAge notBefore (cm_RuntimeBaseRef c) (cm_MaterializerRef c) frontendIndex frontend
    (cm_HomebrewCommit c) (cm_MetadataBundleDigest c) (cm_VerificationKeysDigest c) (firstNonEmpty (cm_PortableRubyVersion c) "4.0.6") false true
    DefaultAttestationWaiver (cm_BottleFetcherRef c) (cm_CatalogExtractorRef c) (cm_CatalogServiceOrigin c) (cm_IngestionJWSKeyPolicyDigest c) ""
    (cm_TapPolicyDigest c) (cm_ExecutableRuntimePolicyDigest c) (parsed (cm_SupportedCatalogPolicyVersions c))
    (parsed (cm_SupportedFetchPolicyVersions c)) (parsed (cm_SupportedProvenancePolicyVersions c)) supported.

Lemma config_eta c :
  c = MkConfig (cf_FormulaURL c) (cf_MigrationsURL c) (cf_MetadataMaxAge c) (cf_MetadataNotBefore c) (cf_RuntimeBaseRef c) (cf_MaterializerRef c)
    (cf_FrontendIndexRef c) (cf_FrontendRef c) (cf_HomebrewCommit c) (cf_MetadataBundleDigest c) (cf_VerificationKeysDigest c) (cf_PortableRubyVersion c)
    (cf_SkipTests c) (cf_AllowUnattested c) (cf_AttestationWaiver c) (cf_BottleFetcherRef c) (cf_CatalogExtractorRef c) (cf_CatalogServiceOrigin c)
    (cf_IngestionJWSKeyPolicyDigest c) (cf_IngestionJWSKeyPolicyBase64 c) (cf_TapPolicyDigest c) (cf_ExecutableRuntimePolicyDigest c)
    (cf_SupportedCatalogPolicyVersions c) (cf_SupportedFetchPolicyVersions c) (cf_SupportedProvenancePolicyVersions c) (cf_compiledNonCoreTaps c).
Proof. by destruct c. Qed.

Section facts.
Context `{U : !UnicodeTables, G : !GoDigest, R : !DistributionReference, N : !NetURL, D : !Digester, UR : !RequestURI, PD : !release.PolicyDocuments}.
Context `{S : !SignatureLib, P : !catalogkeys.PublicKeyEncoding, KJ : !catalogkeys.PolicyJSON, T : !TimeParsing}.

Lemma metadata_bundle_ok compiled supplied bundle :
  metadata_bundle compiled supplied = (bundle, []) → bundle = compiled ∧ supplied = compiled.
Proof.
  unfold metadata_bundle. destruct (bool_decide (compiled = "")) eqn:E.
  { apply bool_decide_eq_true in E as ->. intros [= <- H%err_if_nil]. unfold nonempty in H. apply negb_false_iff, bool_decide_eq_true in H. done. }
  destruct (negb (config_validateDigest _)); [done|]. destruct (bool_decide (supplied = "")); [done|].
  destruct (negb _) eqn:Es; [done|]. apply negb_false_iff, bool_decide_eq_true in Es. by intros [= <-].
Qed.

Lemma metadata_max_age_ok releaseBound raw age :
  metadata_max_age releaseBound raw = (age, []) → 0 < age ∧ (releaseBound = true → age <= week).
Proof.
  unfold metadata_max_age. destruct (bool_decide _); [by intros [= <-]|]. destruct (time_ParseDuration raw) as [d|]; [|done].
  destruct (d <=? 0) eqn:E; [done|]. apply Z.leb_gt in E. destruct (releaseBound && (week <? d)) eqn:Ew; [done|]. intros [= <-]. split; [done|].
  intros ->. cbn in Ew. by apply Z.ltb_ge.
Qed.

(** What an accepted configuration satisfies *)
Record accepted_config (compiled : Compiled) (opts : gmap string string) (cfg : Config) : Prop := {
  ac_base : bind opts "DALEC_HOMEBREW_RUNTIME_BASE" (cm_RuntimeBaseRef compiled) = cf_RuntimeBaseRef cfg;
  ac_materializer : bind opts "DALEC_HOMEBREW_MATERIALIZER" (cm_MaterializerRef compiled) = cf_MaterializerRef cfg;
  ac_frontend : bind opts "DALEC_HOMEBREW_FRONTEND_REF" (firstNonEmpty (cm_FrontendRef compiled) (opt opts "source")) = cf_FrontendRef cfg;
  ac_commit : bind opts "DALEC_HOMEBREW_COMMIT" (cm_HomebrewCommit compiled) = cf_HomebrewCommit cfg;
  ac_keys : bind opts "DALEC_HOMEBREW_KEYS_DIGEST" (cm_VerificationKeysDigest compiled) = cf_VerificationKeysDigest cfg;
  ac_embedded : cf_VerificationKeysDigest cfg = DefaultKeySetDigest;
  ac_source : opt opts "source" = "" ∨ cf_FrontendRef cfg = opt opts "source";
  ac_pinned : Forall (λ ref, ValidatePinnedReference ref = Ok tt) [cf_RuntimeBaseRef cfg; cf_MaterializerRef cfg];
  ac_frontend_pinned : cf_FrontendRef cfg = "" ∨ ValidatePinnedReference (cf_FrontendRef cfg) = Ok tt;
  ac_index : SupportsCompiledNonCoreTaps compiled = true →
    ValidatePinnedReference (cf_FrontendIndexRef cfg) = Ok tt ∧ SameReferenceRepository (cf_FrontendRef cfg) (cf_FrontendIndexRef cfg) = true;
  ac_age : 0 < cf_MetadataMaxAge cfg ∧ (compiledReleaseBound compiled = true → cf_MetadataMaxAge cfg <= week);
  ac_bundle : cf_MetadataBundleDigest cfg = cm_MetadataBundleDigest compiled;
  ac_ruby : cf_PortableRubyVersion cfg = firstNonEmpty (cm_PortableRubyVersion compiled) "4.0.6";
  ac_urls : compiledReleaseBound compiled = true →
    cf_FormulaURL cfg = DefaultFormulaURL ∧ cf_MigrationsURL cfg = DefaultMigrationsURL ∧ cf_SkipTests cfg = false;
  ac_attestation : cf_AllowUnattested cfg = true ∧ cf_AttestationWaiver cfg = DefaultAttestationWaiver;
  ac_capability : compiledReleaseBound compiled = true →
    cf_BottleFetcherRef cfg = cm_BottleFetcherRef compiled ∧ cf_CatalogExtractorRef cfg = cm_CatalogExtractorRef compiled ∧
    cf_CatalogServiceOrigin cfg = cm_CatalogServiceOrigin compiled ∧ cf_IngestionJWSKeyPolicyDigest cfg = cm_IngestionJWSKeyPolicyDigest compiled ∧
    cf_TapPolicyDigest cfg = cm_TapPolicyDigest compiled ∧ cf_ExecutableRuntimePolicyDigest cfg = cm_ExecutableRuntimePolicyDigest compiled ∧
    parsePolicyVersions (cm_SupportedCatalogPolicyVersions compiled) = Ok (cf_SupportedCatalogPolicyVersions cfg) ∧
    parsePolicyVersions (cm_SupportedFetchPolicyVersions compiled) = Ok (cf_SupportedFetchPolicyVersions cfg) ∧
    parsePolicyVersions (cm_SupportedProvenancePolicyVersions compiled) = Ok (cf_SupportedProvenancePolicyVersions cfg);
  ac_base64 : cf_IngestionJWSKeyPolicyBase64 cfg = "";
  ac_noncore : validateNonCoreBindings cfg = [];
  ac_supported : cf_compiledNonCoreTaps cfg = SupportsCompiledNonCoreTaps compiled;
}.

Lemma parsed_ok raw : err_of id (parsePolicyVersions raw) = [] → parsePolicyVersions raw = Ok (parsed raw).
Proof. unfold parsed. by destruct (parsePolicyVersions raw). Qed.

Lemma reference_problem_ok label ref : reference_problem label ref = [] → ValidatePinnedReference ref = Ok tt.
Proof. unfold reference_problem. rewrite err_if_nil, negb_false_iff. by destruct (ValidatePinnedReference ref) as [[]|]. Qed.

Lemma nonempty_err s (b : bool) : nonempty s && b = false → s = "" ∨ b = false.
Proof. rewrite andb_false_iff. unfold nonempty. rewrite negb_false_iff, bool_decide_eq_true. done. Qed.

Lemma FromBuildOpts_accepted compiled opts cfg : FromBuildOpts compiled opts = (cfg, []) → accepted_config compiled opts cfg.
Proof.
  unfold FromBuildOpts. intros [<- He]%pair_equal_spec. rewrite app_nil_iff in He. destruct He as [Hbind Hcfg].
  unfold binding_problems in Hbind. cbv zeta in Hbind. rewrite !app_nil_iff in Hbind.
  destruct Hbind as (_ & _ & _ & Hv1 & Hv2 & Hv3 & _ & _ & _ & _ & _ & _ & _ & _ & _ & _ & _ & _ & Hb).
  unfold config_problems in Hcfg. cbv zeta in Hcfg. rewrite !app_nil_iff in Hcfg.
  destruct Hcfg as (Hsrc & Hurl & Ha & _ & Hskip & Hp1 & Hp2 & Hp3 & Hidx & _ & _ & Hkeys & Hallow & Hwaiver & Hnon & _).
  split; try done.
  - destruct (negb _) in Hkeys; [done|]. by apply err_if_nil, negb_false_iff, bool_decide_eq_true in Hkeys.
  - apply err_if_nil, nonempty_err in Hsrc as [?|Hs]; [by left|right]. by apply negb_false_iff, bool_decide_eq_true in Hs.
  - repeat constructor; by eapply reference_problem_ok.
  - destruct (nonempty _) eqn:Hn in Hp3; [right; by eapply reference_problem_ok|left]. by apply negb_false_iff, bool_decide_eq_true in Hn.
  - intros Hs. rewrite Hs, app_nil_iff in Hidx. destruct Hidx as [Hi Hr]. split; [by eapply reference_problem_ok|].
    by apply err_if_nil, negb_false_iff in Hr.
  - apply (metadata_max_age_ok _ (get opts "DALEC_HOMEBREW_METADATA_MAX_AGE" "")). rewrite <-Ha. apply surjective_pairing.
  - apply (metadata_bundle_ok _ (build_arg opts MetadataBundleDigestBuildArg)). rewrite <-Hb. apply surjective_pairing.
  - apply firstNonEmpty_bound, default_ruby.
  - intros Hr. rewrite Hr in Hurl, Hskip. apply err_if_nil in Hurl, Hskip. apply orb_false_iff in Hurl as [H1 H2].
    apply negb_false_iff, bool_decide_eq_true in H1, H2. split_and!; [exact H1|exact H2|exact Hskip].
  - apply err_if_nil in Hallow, Hwaiver. apply negb_false_iff in Hallow. apply negb_false_iff, bool_decide_eq_true in Hwaiver. done.
  - intros Hr. unfold bindCapability in Hv1, Hv2, Hv3. rewrite Hr in Hv1, Hv2, Hv3. unfold make_config. rewrite Hr. split_and!; try done; by apply parsed_ok.
Qed.

Lemma parsed_eq raw values : parsePolicyVersions raw = Ok values → parsed raw = values.
Proof. unfold parsed. by intros ->. Qed.

(** The capability depends on these fields only. *)
Lemma validateNonCoreBindings_ext c k :
  cf_BottleFetcherRef c = cf_BottleFetcherRef k → cf_CatalogExtractorRef c = cf_CatalogExtractorRef k →
  cf_CatalogServiceOrigin c = cf_CatalogServiceOrigin k → cf_IngestionJWSKeyPolicyDigest c = cf_IngestionJWSKeyPolicyDigest k →
  cf_IngestionJWSKeyPolicyBase64 c = cf_IngestionJWSKeyPolicyBase64 k → cf_TapPolicyDigest c = cf_TapPolicyDigest k →
  cf_ExecutableRuntimePolicyDigest c = cf_ExecutableRuntimePolicyDigest k →
  cf_SupportedCatalogPolicyVersions c = cf_SupportedCatalogPolicyVersions k → cf_SupportedFetchPolicyVersions c = cf_SupportedFetchPolicyVersions k →
  cf_SupportedProvenancePolicyVersions c = cf_SupportedProvenancePolicyVersions k → supportsNonCoreBindings c = supportsNonCoreBindings k.
Proof.
  intros H1 H2 H3 H4 H5 H6 H7 H8 H9 H10. unfold supportsNonCoreBindings, validateNonCoreBindings, hasNonCoreBindings.
  by rewrite H1, H2, H3, H4, H5, H6, H7, H8, H9, H10.
Qed.

Lemma compiledNonCoreConfig_some c k :
  compiledNonCoreConfig c = Some k →
  Forall (λ s, s ≠ "") [cm_RuntimeBaseRef c; cm_MaterializerRef c; cm_HomebrewCommit c; cm_VerificationKeysDigest c; cm_PortableRubyVersion c] ∧
  k = compiled_config c (parsed (cm_SupportedCatalogPolicyVersions c)) (parsed (cm_SupportedFetchPolicyVersions c))
        (parsed (cm_SupportedProvenancePolicyVersions c)) ∧
  supportsNonCoreBindings k = true ∧ (cm_CatalogExtractorRef c = "" → is_ok (CompiledCatalogKeyPolicy c) = true).
Proof.
  unfold compiledNonCoreConfig, parsed. destruct (parsePolicyVersions (cm_SupportedCatalogPolicyVersions c)) as [v1|]; [|done].
  destruct (parsePolicyVersions (cm_SupportedFetchPolicyVersions c)) as [v2|]; [|done].
  destruct (parsePolicyVersions (cm_SupportedProvenancePolicyVersions c)) as [v3|]; [|done].
  destruct (bool_decide _ && _) eqn:Hk; [done|]. destruct (_ || _) eqn:Hn; [done|].
  destruct (supportsNonCoreBindings _) eqn:Hs; [|done]. intros [= <-]. rewrite !orb_false_iff, !negb_false_iff, !nonempty_true in Hn.
  split_and!; [repeat constructor; tauto|done|done|].
  intros He. rewrite bool_decide_eq_true_2 in Hk by done. by apply negb_false_iff in Hk.
Qed.

Lemma release_bound c : cm_RuntimeBaseRef c ≠ "" → compiledReleaseBound c = true.
Proof. intros H. unfold compiledReleaseBound. by rewrite (proj2 (nonempty_true _) H). Qed.

End facts.

(** ** Linking generated bindings *)

(** A frontend linked with the values of a binding document *)
Definition link (b : release.V2Bindings) (base materializer frontend commit bundle keys ruby fetcher origin : string) : Compiled :=
  MkCompiled base materializer frontend commit bundle keys ruby fetcher (release.vb_CatalogExtractorRef b) origin
    (release.vb_IngestionJWSKeyPolicyDigest b) (release.vb_IngestionJWSKeyPolicyBase64 b) (release.vb_TapPolicyDigest b)
    (release.vb_ExecutableRuntimePolicyDigest b) (release.vb_SupportedCatalogPolicyVersions b) (release.vb_SupportedFetchPolicyVersions b)
    (release.vb_SupportedProvenancePolicyVersions b).

Lemma generated_versions want :
  want ∈ [release.v2CatalogPolicyVersions; release.v2FetchPolicyVersions; release.v2ProvenancePolicyVersions] →
  let values := slices_Sort (strings_Split (release.joinPolicyVersions want) ",") in
  parsePolicyVersions (release.joinPolicyVersions want) = Ok values ∧ validatePolicyVersions values = true ∧
  validateExactPolicyVersions values want = true ∧ values ≠ [].
Proof.
  intros Hw. repeat (apply elem_of_cons in Hw as [->|Hw]; [vm_compute; split_and!; done|]). by apply not_elem_of_nil in Hw.
Qed.

Section link.
Context `{U : !UnicodeTables, G : !GoDigest, R : !DistributionReference, N : !NetURL, D : !Digester, UR : !RequestURI, PD : !release.PolicyDocuments}.
Context `{S : !SignatureLib, P : !catalogkeys.PublicKeyEncoding, KJ : !catalogkeys.PolicyJSON}.

Lemma versions_exact label value want : release.versions_problem label value want = [] → value = release.joinPolicyVersions want.
Proof. by intros H%err_if_nil%negb_false_iff%bool_decide_eq_true. Qed.

Lemma embedded_ok label value embedded : release.embedded_problem label value embedded = [] → embedded = Some value.
Proof. unfold release.embedded_problem. destruct embedded as [d|]; [|done]. by intros ->%err_if_nil%negb_false_iff%bool_decide_eq_true. Qed.

Lemma embedded_same label value : release.embedded_problem label value (Some value) = [].
Proof. apply err_if_nil, negb_false_iff. by apply bool_decide_eq_true. Qed.

Lemma key_policy_ok digest text :
  release.key_policy_problem digest text = [] →
  ∃ data policy, text ≠ "" ∧ base64_StdDecode text = Some data ∧ base64_StdEncode data = text ∧ catalogkeys.Decode data = Ok policy ∧
    catalogkeys.Digest policy = Ok digest.
Proof.
  unfold release.key_policy_problem. destruct (_ || _) eqn:Hsize; [done|]. apply orb_false_iff in Hsize as [Hne%bool_decide_eq_false _].
  destruct (base64_StdDecode text) as [data|]; [|done]. destruct (negb _) eqn:Hc; [done|]. apply negb_false_iff, bool_decide_eq_true in Hc.
  destruct (catalogkeys.Decode data) as [policy|] eqn:Hd; [|done]. destruct (catalogkeys.Digest policy) as [actual|] eqn:Ha; [|done].
  intros H%err_if_nil%negb_false_iff%bool_decide_eq_true. subst. by exists data, policy.
Qed.

(** What a valid binding document holds *)
Lemma ValidateV2Bindings_ok b :
  release.ValidateV2Bindings b = [] →
  (release.vb_CatalogExtractorRef b ≠ "" ∧ ValidatePinnedReference (release.vb_CatalogExtractorRef b) = Ok tt ∧
     release.vb_IngestionJWSKeyPolicyDigest b = "" ∧ release.vb_IngestionJWSKeyPolicyBase64 b = "" ∨
   release.vb_CatalogExtractorRef b = "" ∧
     release.key_policy_problem (release.vb_IngestionJWSKeyPolicyDigest b) (release.vb_IngestionJWSKeyPolicyBase64 b) = []) ∧
  release.TapPolicyDigest = Some (release.vb_TapPolicyDigest b) ∧ release.policyv2_Digest = Some (release.vb_ExecutableRuntimePolicyDigest b) ∧
  release.vb_SupportedCatalogPolicyVersions b = release.joinPolicyVersions release.v2CatalogPolicyVersions ∧
  release.vb_SupportedFetchPolicyVersions b = release.joinPolicyVersions release.v2FetchPolicyVersions ∧
  release.vb_SupportedProvenancePolicyVersions b = release.joinPolicyVersions release.v2ProvenancePolicyVersions.
Proof.
  unfold release.ValidateV2Bindings. cbv zeta. rewrite !app_nil_iff.
  intros (_ & Hmode & Hlocal & _ & _ & Hservice & Htap & Hrt & Hv1 & Hv2 & Hv3).
  split_and!; [|by eapply embedded_ok|by eapply embedded_ok|by eapply versions_exact..]. apply err_if_nil in Hmode.
  remember (negb (bool_decide (release.vb_IngestionJWSKeyPolicyDigest b = "")) || negb (bool_decide (release.vb_IngestionJWSKeyPolicyBase64 b = "")))
    as service eqn:Hs.
  destruct (bool_decide (release.vb_CatalogExtractorRef b = "")) eqn:He; cbn [negb] in *.
  - right. apply bool_decide_eq_true in He. split; [exact He|]. destruct service; [exact Hservice|discriminate Hmode].
  - left. apply bool_decide_eq_false in He. destruct service; [discriminate Hmode|]. symmetry in Hs.
    rewrite orb_false_iff, !negb_false_iff, !bool_decide_eq_true in Hs. destruct Hs as [Hj1 Hj2].
    split_and!; [exact He| |exact Hj1|exact Hj2]. by eapply reference_problem_ok.
Qed.

Lemma generated_valid b :
  (∃ ref, release.GenerateBuildLocalV2Bindings ref = Ok b) ∨ (∃ input text, release.GenerateV2Bindings input = Ok (b, text)) →
  release.ValidateV2Bindings b = [].
Proof.
  assert (∀ b', release.valid_bindings b' = Ok tt → release.ValidateV2Bindings b' = []) as Hv.
  { intros b'. unfold release.valid_bindings. by destruct (release.ValidateV2Bindings b'). }
  intros [(ref & H)|(input & text & H)].
  - unfold release.GenerateBuildLocalV2Bindings in H. do 3 apply bind_ok in H as (? & _ & H). by apply bind_ok in H as ([] & ?%Hv & [= <-]).
  - unfold release.GenerateV2Bindings in H. do 6 apply bind_ok in H as (? & _ & H). by apply bind_ok in H as ([] & ?%Hv & [= <- _]).
Qed.

(** The digests that are printed are digests. *)
Context (Hdigest : ∀ data, config_validateDigest (digest_FromBytes data) = true).

Lemma tap_digest_ok d : release.TapPolicyDigest = Some d → config_validateDigest d = true.
Proof using Hdigest. unfold release.TapPolicyDigest. by intros (? & _ & [= <-])%bind_Some. Qed.

Lemma runtime_digest_ok d : release.policyv2_Digest = Some d → config_validateDigest d = true.
Proof using Hdigest. unfold release.policyv2_Digest. by intros (? & _ & [= <-])%bind_Some. Qed.

Lemma key_digest_ok policy d : catalogkeys.Digest policy = Ok d → config_validateDigest d = true.
Proof using Hdigest. unfold catalogkeys.Digest. by intros (? & _ & [= <-])%bind_ok. Qed.

Lemma config_digest_ok label value : config_validateDigest value = true → config_digest_problem label value = [].
Proof. intros H. unfold config_digest_problem. by rewrite H. Qed.

Lemma reference_ok label ref : ValidatePinnedReference ref = Ok tt → reference_problem label ref = [].
Proof. intros H. unfold reference_problem. by rewrite H. Qed.

(** The part of the configuration that depends on the mode *)
Lemma link_supported b base materializer frontend commit bundle keys ruby fetcher origin :
  release.ValidateV2Bindings b = [] → ValidatePinnedReference fetcher = Ok tt →
  (if bool_decide (release.vb_CatalogExtractorRef b = "") then ValidateServiceOrigin origin = true else origin = "") →
  let c := link b base materializer frontend commit bundle keys ruby fetcher origin in
  supportsNonCoreBindings (compiled_config c (parsed (cm_SupportedCatalogPolicyVersions c)) (parsed (cm_SupportedFetchPolicyVersions c))
    (parsed (cm_SupportedProvenancePolicyVersions c))) = true.
Proof using Hdigest.
  intros (Hmode & Htap & Hrt & H1 & H2 & H3)%ValidateV2Bindings_ok Hf Ho c. subst c. cbn. rewrite H1, H2, H3.
  destruct (generated_versions release.v2CatalogPolicyVersions) as (Hp1%parsed_eq & Hv1 & Hx1 & Hn1); [by left|].
  destruct (generated_versions release.v2FetchPolicyVersions) as (Hp2%parsed_eq & Hv2 & Hx2 & Hn2); [by right; left|].
  destruct (generated_versions release.v2ProvenancePolicyVersions) as (Hp3%parsed_eq & Hv3 & Hx3 & Hn3); [by right; right; left|].
  rewrite Hp1, Hp2, Hp3. unfold supportsNonCoreBindings, validateNonCoreBindings, hasNonCoreBindings.
  cbn [cf_BottleFetcherRef cf_CatalogExtractorRef cf_CatalogServiceOrigin cf_IngestionJWSKeyPolicyDigest cf_TapPolicyDigest
    cf_ExecutableRuntimePolicyDigest cf_SupportedCatalogPolicyVersions cf_SupportedFetchPolicyVersions cf_SupportedProvenancePolicyVersions
    cf_IngestionJWSKeyPolicyBase64 compiled_config link cm_BottleFetcherRef cm_CatalogExtractorRef cm_CatalogServiceOrigin
    cm_IngestionJWSKeyPolicyDigest cm_TapPolicyDigest cm_ExecutableRuntimePolicyDigest].
  rewrite (bool_decide_eq_false_2 (slices_Sort (strings_Split (release.joinPolicyVersions release.v2CatalogPolicyVersions) ",") = [])) by done.
  cbn [negb]. rewrite !orb_true_r. cbn [orb negb andb]. apply bool_decide_eq_true. rewrite !app_nil_iff.
  pose proof (tap_digest_ok _ Htap) as Hd1. pose proof (runtime_digest_ok _ Hrt) as Hd2.
  rewrite (reference_ok _ _ Hf), Hv1, Hv2, Hv3, Hx1, Hx2, Hx3, Htap, Hrt, !embedded_same, (config_digest_ok _ _ Hd1), (config_digest_ok _ _ Hd2).
  destruct Hmode as [(He & Hr & Hj & _)|(He & Hk)].
  - rewrite bool_decide_eq_false_2 in Ho by done. rewrite (proj2 (nonempty_true _) He), Ho, Hj, (reference_ok _ _ Hr).
    repeat split; reflexivity.
  - rewrite He in *. rewrite bool_decide_eq_true_2 in Ho by done. apply key_policy_ok in Hk as (data & policy & _ & _ & _ & _ & Hd%key_digest_ok).
    rewrite Ho, (config_digest_ok _ _ Hd). assert (nonempty origin = true) as ->.
    { apply nonempty_true. intros ->. discriminate Ho. }
    repeat split; reflexivity.
Qed.

End link.

(** C13: A release frontend cannot be reconfigured by its invocation: every configuration it
    accepts has the compiled components, keys and policies, the official metadata
    endpoints and its tests, whatever build arguments were passed. Only the metadata age
    (at most a week), a lower bound on the metadata date and the reference of the
    frontend itself are left to the invocation, the latter only if none is compiled in
    and equal to the image that was called. *)
Theorem FromBuildOpts_release_bound
  `{U : !UnicodeTables, G : !GoDigest, R : !DistributionReference, N : !NetURL, D : !Digester, UR : !RequestURI, PD : !release.PolicyDocuments,
    S : !SignatureLib, P : !catalogkeys.PublicKeyEncoding, KJ : !catalogkeys.PolicyJSON, T : !TimeParsing} compiled opts cfg
  (Hok : FromBuildOpts compiled opts = (cfg, []))
  (Hrelease : Forall (λ s, s ≠ "") [cm_RuntimeBaseRef compiled; cm_MaterializerRef compiled; cm_HomebrewCommit compiled; cm_VerificationKeysDigest compiled]) :
  cfg = bound_config compiled (SupportsCompiledNonCoreTaps compiled) (cf_MetadataMaxAge cfg) (cf_MetadataNotBefore cfg) (cf_FrontendIndexRef cfg)
          (cf_FrontendRef cfg) ∧
  0 < cf_MetadataMaxAge cfg <= week ∧ (cm_FrontendRef compiled ≠ "" → cf_FrontendRef cfg = cm_FrontendRef compiled) ∧
  (opt opts "source" = "" ∨ cf_FrontendRef cfg = opt opts "source") ∧ cf_VerificationKeysDigest cfg = DefaultKeySetDigest ∧
  Forall (λ ref, ValidatePinnedReference ref = Ok tt) [cf_RuntimeBaseRef cfg; cf_MaterializerRef cfg].
Proof.
  pose proof (FromBuildOpts_accepted _ _ _ Hok) as []. rewrite !Forall_cons in Hrelease. destruct Hrelease as (Hbase & Hmat & Hcommit & Hkeys & _).
  pose proof (release_bound compiled Hbase) as Hb. destruct (ac_urls0 Hb) as (? & ? & ?). destruct ac_attestation0.
  destruct (ac_capability0 Hb) as (? & ? & ? & ? & ? & ? & ?%parsed_eq & ?%parsed_eq & ?%parsed_eq). destruct ac_age0 as [? Hage].
  unfold bind in *. rewrite firstNonEmpty_bound in ac_base0, ac_materializer0, ac_commit0, ac_keys0 by done. split_and!; try done; [|by apply Hage|].
  - etransitivity; [apply config_eta|]. clear Hok ac_noncore0. unfold bound_config. f_equal; done.
  - intros Hf. rewrite <-ac_frontend0. rewrite (firstNonEmpty_bound (cm_FrontendRef compiled)) by done. by apply firstNonEmpty_bound.
Qed.

(** C15: What the release generator produces is complete: a frontend linked with generated
    bindings, of either mode, with its component references and a pinned bottle fetcher
    supports third-party taps, and in service mode its embedded key policy decodes and
    has the digest that is bound. *)
Theorem generated_bindings_complete
  `{U : !UnicodeTables, G : !GoDigest, R : !DistributionReference, N : !NetURL, D : !Digester, UR : !RequestURI, PD : !release.PolicyDocuments,
    S : !SignatureLib, P : !catalogkeys.PublicKeyEncoding, KJ : !catalogkeys.PolicyJSON}
  b base materializer frontend commit bundle keys ruby fetcher origin
  (Hdigest : ∀ data, config_validateDigest (digest_FromBytes data) = true)
  (Hgenerated : (∃ ref, release.GenerateBuildLocalV2Bindings ref = Ok b) ∨ (∃ input text, release.GenerateV2Bindings input = Ok (b, text)))
  (Hset : Forall (λ s, s ≠ "") [base; materializer; commit; keys; ruby]) (Hfetcher : ValidatePinnedReference fetcher = Ok tt)
  (Horigin : if bool_decide (release.vb_CatalogExtractorRef b = "") then ValidateServiceOrigin origin = true else origin = "") :
  let compiled := link b base materializer frontend commit bundle keys ruby fetcher origin in
  SupportsCompiledNonCoreTaps compiled = true ∧
  (release.vb_CatalogExtractorRef b = "" →
   ∃ policy, CompiledCatalogKeyPolicy compiled = Ok policy ∧ catalogkeys.Digest policy = Ok (cm_IngestionJWSKeyPolicyDigest compiled)).
Proof.
  intros compiled. apply generated_valid in Hgenerated as Hvalid. pose proof (ValidateV2Bindings_ok b Hvalid) as (Hmode & _ & _ & H1 & H2 & H3).
  assert (release.vb_CatalogExtractorRef b = "" →
    ∃ policy, CompiledCatalogKeyPolicy compiled = Ok policy ∧ catalogkeys.Digest policy = Ok (cm_IngestionJWSKeyPolicyDigest compiled)) as Hkey.
  { intros He. destruct Hmode as [(Hne & _)|(_ & Hk)]; [done|]. apply key_policy_ok in Hk as (data & policy & Hne & Hd & _ & Hdec & Hdig).
    exists policy. split; [|done]. unfold CompiledCatalogKeyPolicy, compiled. cbn [cm_IngestionJWSKeyPolicyBase64 cm_IngestionJWSKeyPolicyDigest link].
    rewrite (bool_decide_eq_false_2 (release.vb_IngestionJWSKeyPolicyBase64 b = "")) by exact Hne. cbn [check mbind result_bind]. rewrite Hd, Hdec. cbn [map_err mbind result_bind]. rewrite Hdig.
    cbn [map_err mbind result_bind]. apply (key_digest_ok Hdigest), andb_prop in Hdig as [Hn%nonempty_true _].
    rewrite (bool_decide_eq_false_2 (_ = "")) by exact Hn. by rewrite (bool_decide_eq_true_2 _ eq_refl). }
  split; [|exact Hkey]. unfold SupportsCompiledNonCoreTaps, compiledNonCoreConfig.
  pose proof (link_supported Hdigest b base materializer frontend commit bundle keys ruby fetcher origin Hvalid Hfetcher Horigin) as Hs. cbv zeta in Hs.
  fold compiled in Hs.
  assert (∀ w, w ∈ [release.v2CatalogPolicyVersions; release.v2FetchPolicyVersions; release.v2ProvenancePolicyVersions] →
    parsePolicyVersions (release.joinPolicyVersions w) = Ok (parsed (release.joinPolicyVersions w))) as Hp.
  { intros w (Hp & _)%generated_versions. by rewrite (parsed_eq _ _ Hp). }
  unfold compiled at 1 2 3. cbn [cm_SupportedCatalogPolicyVersions cm_SupportedFetchPolicyVersions cm_SupportedProvenancePolicyVersions link].
  rewrite H1, H2, H3. rewrite (Hp release.v2CatalogPolicyVersions) by (by left). rewrite (Hp release.v2FetchPolicyVersions) by (by right; left).
  rewrite (Hp release.v2ProvenancePolicyVersions) by (by right; right; left). rewrite <-H1, <-H2, <-H3.
  destruct (bool_decide (cm_CatalogExtractorRef compiled = "") && _) eqn:Hk.
  { exfalso. apply andb_prop in Hk as [He%bool_decide_eq_true Hk]. destruct (Hkey He) as (policy & Hc & _). by rewrite Hc in Hk. }
  rewrite !Forall_cons in Hset. destruct Hset as (Hb & Hm & Hc & Hks & Hrb & _).
  unfold compiled at 1 2 3 4 5. cbn [cm_RuntimeBaseRef cm_MaterializerRef cm_HomebrewCommit cm_VerificationKeysDigest cm_PortableRubyVersion link].
  rewrite !(proj2 (nonempty_true _)) by assumption. cbn [negb orb]. cbn [cm_SupportedCatalogPolicyVersions cm_SupportedFetchPolicyVersions
    cm_SupportedProvenancePolicyVersions link compiled] in Hs. by rewrite Hs.
Qed.

(** C14: An invocation neither enables nor disables third-party taps: an accepted
    configuration supports them exactly if the frontend was compiled with a complete
    tuple of components and policies. *)
Theorem SupportsNonCoreTaps_compiled
  `{U : !UnicodeTables, G : !GoDigest, R : !DistributionReference, N : !NetURL, D : !Digester, UR : !RequestURI, PD : !release.PolicyDocuments,
    S : !SignatureLib, P : !catalogkeys.PublicKeyEncoding, KJ : !catalogkeys.PolicyJSON, T : !TimeParsing} compiled opts cfg
  (Hok : FromBuildOpts compiled opts = (cfg, [])) :
  SupportsNonCoreTaps compiled cfg = SupportsCompiledNonCoreTaps compiled.
Proof.
  pose proof (FromBuildOpts_accepted _ _ _ Hok) as []. unfold SupportsNonCoreTaps. rewrite ac_supported0.
  destruct (SupportsCompiledNonCoreTaps compiled) eqn:Hs; [|done]. specialize (ac_index0 eq_refl) as [Hindex Hsame]. unfold SupportsCompiledNonCoreTaps in Hs.
  destruct (compiledNonCoreConfig compiled) as [k|] eqn:Hk; [|done]. apply compiledNonCoreConfig_some in Hk as (Hall & -> & Hsupports & _).
  rewrite !Forall_cons in Hall. destruct Hall as (Hbase & Hmat & Hcommit & Hkeys & Hruby & _). pose proof (release_bound compiled Hbase) as Hb.
  destruct (ac_capability0 Hb) as (? & ? & ? & ? & ? & ? & ?%parsed_eq & ?%parsed_eq & ?%parsed_eq).
  unfold bind in *. rewrite firstNonEmpty_bound in ac_base0, ac_materializer0, ac_commit0, ac_keys0, ac_ruby0 by done.
  rewrite (validateNonCoreBindings_ext cfg (compiled_config compiled (parsed (cm_SupportedCatalogPolicyVersions compiled))
    (parsed (cm_SupportedFetchPolicyVersions compiled)) (parsed (cm_SupportedProvenancePolicyVersions compiled)))) by (cbn; congruence).
  rewrite Hsupports, Hsame. cbn [negb orb andb cf_RuntimeBaseRef]. unfold compiled_config.
  assert (nonempty (cf_FrontendIndexRef cfg) = true) as ->.
  { apply nonempty_true. intros He. rewrite He in Hindex. by apply bind_ok in Hindex as ([] & Hc%check_ok%bool_decide_eq_false & _). }
  rewrite !bool_decide_eq_true_2 by (cbn; congruence). done.
Qed.

(** ** Example: frontends in both modes *)

Module ConfigExample.

Definition digest : string := ReleaseExample.digest.
Definition digester : Digester := ReleaseExample.digester.
Definition documents : release.PolicyDocuments := ReleaseExample.documents.
Definition ref : string → string := ReleaseExample.ref.

Definition times : TimeParsing := {| time_ParseDuration s := if bool_decide (s = "24h") then Some (24 * 3600 * 1000000000) else None; time_ParseRFC3339 _ := None |}.

(** The key policy of one key, without sequence floors *)
Definition policy : catalogkeys.Policy :=
  catalogkeys.MkPolicy catalogkeys.SchemaVersion "catalog-1" [] [catalogkeys.MkKey "catalog-1" catalogkeys.CatalogSetJWSAlgorithm "pem"] [digest] [digest]
    false [].

#[local] Existing Instance catalogkeys.Policy_eq_dec.

Definition policies : catalogkeys.PolicyJSON :=
  {| catalogkeys.policy_tokens _ := JsonUnique.MkDecoder [JsonUnique.TOther] false;
     catalogkeys.encodePolicy p := if bool_decide (p = policy) then Some "policy" else None;
     catalogkeys.decodePolicy b := if bool_decide (b = "policy") then Some policy else None |}.

Definition local_bindings :=
  release.GenerateBuildLocalV2Bindings (U := ascii_tables) (G := sha256_only) (R := pinned_only) (D := digester) (UR := TapPolicy.Example.github_only)
    (PD := documents) (S := KeyExample.signatures) (P := KeyExample.encoding) (KJ := policies) (ref "extractor").

Definition service_bindings :=
  release.GenerateV2Bindings (U := ascii_tables) (G := sha256_only) (R := pinned_only) (D := digester) (UR := TapPolicy.Example.github_only)
    (PD := documents) (S := KeyExample.signatures) (P := KeyExample.encoding) (KJ := policies)
    (release.MkV2BindingsInput "catalog-1" "pem" digest digest).

Definition bindings (extractor keyDigest keyText : string) : release.V2Bindings := release.release_bindings extractor keyDigest keyText digest digest.

Lemma local_ok : local_bindings = Ok (bindings (ref "extractor") "" "").
Proof. vm_compute. reflexivity. Qed.

Lemma service_ok : service_bindings = Ok (bindings "" digest (base64_StdEncode "policy"), "policy").
Proof. vm_compute. reflexivity. Qed.

Definition compiled (b : release.V2Bindings) (origin : string) : Compiled :=
  link b (ref "base") (ref "materializer") "" "0123456789012345678901234567890123456789" digest digest "4.0.6" (ref "fetcher") origin.

Definition args : gmap string string :=
  list_to_map [("source", ref "frontend"); ("build-arg:" +:+ FrontendIndexRefBuildArg, ref "frontend");
    ("build-arg:" +:+ MetadataBundleDigestBuildArg, digest); ("build-arg:DALEC_HOMEBREW_METADATA_MAX_AGE", "24h")].

Definition parsed_options :=
  FromBuildOpts (U := ascii_tables) (G := sha256_only) (R := pinned_only) (N := https_only) (D := digester) (UR := TapPolicy.Example.github_only)
    (PD := documents) (S := KeyExample.signatures) (P := KeyExample.encoding) (KJ := policies) (T := times)
    (compiled (bindings (ref "extractor") "" "") "") args.

Lemma parsed_accepted : parsed_options = (parsed_options.1, []).
Proof. vm_compute. reflexivity. Qed.

(** A frontend in build-local mode may have a key policy compiled in as well: the check
    that forbids it looks at a field that is never set. *)
Lemma hosted_policy_accepted :
  let c := compiled (bindings (ref "extractor") "" (base64_StdEncode "policy")) "" in
  cm_CatalogExtractorRef c ≠ "" ∧ cm_IngestionJWSKeyPolicyBase64 c ≠ "" ∧
  SupportsCompiledNonCoreTaps (U := ascii_tables) (G := sha256_only) (R := pinned_only) (N := https_only) (D := digester)
    (UR := TapPolicy.Example.github_only) (PD := documents) (S := KeyExample.signatures) (P := KeyExample.encoding) (KJ := policies) c = true.
Proof. vm_compute. split_and!; [discriminate|discriminate|reflexivity]. Qed.

End ConfigExample.

Lemma FromBuildOpts_release_bound_witness :
  cf_BottleFetcherRef ConfigExample.parsed_options.1 = ConfigExample.ref "fetcher" ∧ cf_MetadataMaxAge ConfigExample.parsed_options.1 <= week.
Proof.
  destruct (FromBuildOpts_release_bound (U := ascii_tables) (G := sha256_only) (R := pinned_only) (N := https_only) (D := ConfigExample.digester)
    (UR := TapPolicy.Example.github_only) (PD := ConfigExample.documents) (S := KeyExample.signatures) (P := KeyExample.encoding)
    (KJ := ConfigExample.policies) (T := ConfigExample.times) _ ConfigExample.args ConfigExample.parsed_options.1 ConfigExample.parsed_accepted)
    as (He & Ha & _); [repeat constructor; vm_compute; discriminate|].
  split; [rewrite He; vm_compute; reflexivity|exact (proj2 Ha)].
Defined.

Lemma SupportsNonCoreTaps_compiled_witness :
  SupportsNonCoreTaps (U := ascii_tables) (G := sha256_only) (R := pinned_only) (N := https_only) (D := ConfigExample.digester)
    (UR := TapPolicy.Example.github_only) (PD := ConfigExample.documents) (S := KeyExample.signatures) (P := KeyExample.encoding)
    (KJ := ConfigExample.policies) (ConfigExample.compiled (ConfigExample.bindings (ConfigExample.ref "extractor") "" "") "")
    ConfigExample.parsed_options.1 = true.
Proof.
  etransitivity; [exact (SupportsNonCoreTaps_compiled (U := ascii_tables) (G := sha256_only) (R := pinned_only) (N := https_only)
    (D := ConfigExample.digester) (UR := TapPolicy.Example.github_only) (PD := ConfigExample.documents) (S := KeyExample.signatures)
    (P := KeyExample.encoding) (KJ := ConfigExample.policies) (T := ConfigExample.times) _ ConfigExample.args ConfigExample.parsed_options.1
    ConfigExample.parsed_accepted)|].
  vm_compute. reflexivity.
Defined.

Lemma generated_bindings_complete_witness :
  SupportsCompiledNonCoreTaps (U := ascii_tables) (G := sha256_only) (R := pinned_only) (N := https_only) (D := ConfigExample.digester)
    (UR := TapPolicy.Example.github_only) (PD := ConfigExample.documents) (S := KeyExample.signatures) (P := KeyExample.encoding)
    (KJ := ConfigExample.policies)
    (ConfigExample.compiled (ConfigExample.bindings "" ConfigExample.digest (base64_StdEncode "policy")) "https://catalog.example.com") = true.
Proof.
  refine (proj1 (generated_bindings_complete (U := ascii_tables) (G := sha256_only) (R := pinned_only) (N := https_only) (D := ConfigExample.digester)
    (UR := TapPolicy.Example.github_only) (PD := ConfigExample.documents) (S := KeyExample.signatures) (P := KeyExample.encoding)
    (KJ := ConfigExample.policies) _ _ _ _ _ _ _ _ _ _ _ _ _ _ _)).
  - intros data. vm_compute. reflexivity.
  - right. do 2 eexists. exact ConfigExample.service_ok.
  - repeat constructor; vm_compute; discriminate.
  - vm_compute. reflexivity.
  - vm_compute. reflexivity.
Defined.
