(* ===== verification/ResolverV2.v ===== *)
(** * internal/resolver: records of the second version

    [v2.go] makes the record that materialization replays from what was resolved
    and verified before: a platform result of a signed (or build-local) catalog
    set, or a core record of the first version. [project_v2.go] of
    internal/resolution is the way back, the view by rack name that installation
    works on. Every record is validated before it is returned. *)

From S2P Require Import Prelude GoStrings NetUrl FormulaId Graph ClosureGraph Resolution Resolver FetchPolicy CatalogFields CatalogRequest.
From S2P Require Import CatalogTap CatalogClosure CatalogArtifact CatalogSet ResolutionV2 ResolutionV2Facts.
From stdpp Require Import options.
Local Open Scope Z_scope.

Module resolver_v2.

(** ** Options *)

Record V2RequestedRoot := MkV2RequestedRoot { vr_Requested : string; vr_ID : string }.

Record V2Options := MkV2Options {
  vo_SpecDigest : string; vo_TargetKey : string; vo_ResolvedAt : Z; vo_CoreMetadata : SnapshotInfo;
  vo_CatalogPayload : option CatalogSetPayload; vo_Catalogs : gmap string TapCatalog; vo_CatalogSigner : Signature;
  vo_Components : ComponentsV2; vo_Runtime : RuntimePolicy; vo_SequenceFloors : gmap string Z; vo_CoreRollbackFloor : Z;
  vo_SetPayloadDigest : string; vo_SetEnvelopeDigest : string;
}.

Inductive v2_error :=
| V2Result (errs : list string) | V2CatalogKind | V2Signer | V2Platform | V2NoArtifact (id : string) | V2SourceDigest (id : string)
| V2MissingDependency (id dependency : string) | V2DuplicateRoot (id : string) | V2AbsentRoot (id : string) | V2NoRoots
| V2CoreTimestamps | V2CoreSigner | V2CatalogPolicy | V2MissingDocument (tap : string) | V2Catalog (e : served_error) | V2SetDigest
| V2Invalid (errs : list string) | V2Core (errs : list record_error) | V2Identity (e : id_error)
| V2Rack (name : string) | V2Projection.

(** ** Conversions *)

Definition convertPlatform (p : CatalogRequest.Platform) : Resolution.Platform :=
  Resolution.MkPlatform (pl_OS p) (pl_Architecture p) (pl_Variant p).

Definition convertCatalogDescriptor (d : CatalogArtifact.Descriptor) : Resolution.Descriptor :=
  Resolution.MkDescriptor (ds_Digest d) (ds_Size d) (ds_MediaType d) (convertPlatform <$> ds_Platform d)
    (foldl (λ m a, <[an_Key a := an_Value a]> m) ∅ (ds_Annotations d)).

Definition convertCatalogOCITransport (t : OCITransport) : OCITransportV2 :=
  MkOCITransportV2 (oc_Registry t) (oc_Repository t) (convertCatalogDescriptor (oc_Index t)) (convertCatalogDescriptor (oc_Manifest t))
    (convertCatalogDescriptor (oc_Config t)) (convertCatalogDescriptor (oc_Layer t)).

Definition convertCatalogHTTPSTransportV2 (t : HTTPSTransport) : HTTPSTransportV2 :=
  MkHTTPSTransportV2 (ht_URL t) (ht_ExpectedSize t) (ht_SHA256 t) (ht_Filename t) (ht_AllowedRedirectHosts t) (ht_FetchPolicyVersion t).

Definition convertCatalogLocalTransport (t : LocalTransport) : LocalTransportV2 :=
  MkLocalTransportV2 (lt_PolicyVersion t) (lt_SHA256 t) (lt_Size t) (lt_Filename t).

Definition convertCatalogTransportV2 (t : Transport) : BottleTransportV2 :=
  MkBottleTransportV2 (convertCatalogOCITransport <$> tr_OCI t) (convertCatalogHTTPSTransportV2 <$> tr_HTTPS t)
    (convertCatalogLocalTransport <$> tr_Local t).

Definition convertCatalogBottleVerificationV2 (v : BottleVerification) : BottleVerificationV2 :=
  MkBottleVerificationV2 (bv_PolicyVersion v) (bv_InventoryDigest v) (bv_EntryCount v) (bv_ExpandedSize v).

Definition convertCatalogPrebuiltDerivationV2 (d : PrebuiltDerivation) : PrebuiltDerivationV2 :=
  let source := pd_Source d in let inventory := pd_SourceInventory d in let payload := pd_Payload d in let elf := pd_ELF d in
  let formula := pd_FormulaSource d in let tap := tf_Tap (fs_Transport formula) in let derived := pd_DerivedBottle d in
  MkPrebuiltDerivationV2 (pd_PolicyVersion d) (pd_PolicyDigest d)
    (MkPrebuiltSourceArtifactV2 (ps_Filename source) (ps_Size source) (ps_SHA256 source) (ps_Format source) (convertCatalogTransportV2 (ps_Transport source)))
    (MkPrebuiltSourceInventoryV2 (pi_InventoryDigest inventory) (pi_EntryCount inventory) (pi_ExpandedSize inventory))
    (MkPrebuiltPayloadEvidenceV2 (pp_SourcePath payload) (pp_DestinationPath payload) (pp_SHA256 payload) (pp_Size payload) (pp_ArchiveMode payload)
       (pp_DerivedMode payload))
    (MkPrebuiltELFEvidenceV2 (pe_Format elf) (pe_Machine elf) (pe_StaticallyLinked elf) (pe_Interpreter elf) (pe_NeededLibraries elf) (pe_RPaths elf)
       (pe_WritableExecutableSegments elf))
    (MkPrebuiltFormulaSourceEvidenceV2
       (MkTapFormulaSourceTransportV2 (MkTapSourceV2 (ts_ID tap) (ts_Repository tap) (ts_Commit tap) (ts_TreeDigest tap) (ts_ArchiveDigest tap))
          (tf_Path (fs_Transport formula)))
       (fs_SHA256 formula) (fs_Size formula))
    (pd_RecipeDigest d)
    (MkPrebuiltDerivedBottleRelationV2 (db_Tag derived) (db_Filename derived) (db_SHA256 derived) (db_Size derived)
       (convertCatalogBottleVerificationV2 (db_Verification derived)) (db_FormulaSourceDigest derived)).

Definition convert_dependency (d : BottleRuntimeDependency) : RuntimeDependencyV2 :=
  MkRuntimeDependencyV2 (rt_ID d) (rt_HomebrewFullName d) (rt_Version d) (rt_Revision d) (rt_BottleRebuild d) (rt_PkgVersion d) (rt_DeclaredDirectly d).

Definition convert_built_on (b : BottleBuiltOn) : BuiltOn :=
  MkBuiltOn (bb_OS b) (bb_OSVersion b) (bb_CPUFamily b) (bb_OldestCPUFamily b) (bb_GlibcVersion b).

Definition convert_tab (t : CatalogArtifact.BottleTab) : BottleTabV2 :=
  MkBottleTabV2 (tb_Receiptless t) (tb_HomebrewVersion t) (tb_Arch t) (tb_Compiler t) (tb_ChangedFiles t) (convert_built_on (tb_BuiltOn t))
    (convert_dependency <$> tb_Dependencies t).

(** The annotations of an OCI manifest, in their order *)
Definition selected_annotations (t : Transport) : list KV :=
  match tr_OCI t with
  | Some oci => (λ a, MkKV (an_Key a) (an_Value a)) <$> ds_Annotations (oc_Manifest oci)
  | None => []
  end.

Definition convert_bottle (a : BottleArtifact) : BottleV2 :=
  MkBottleV2 (ba_Tag a) (ba_Filename a) (ba_Size a) (ba_SHA256 a) (ba_Cellar a) (convert_tab (ba_Tab a)) (selected_annotations (ba_Transport a))
    (ba_CurrentFormulaSourceDigest a) (ba_BottleFormulaSourceDigest a) (ba_BottleSourceRepository a) (ba_BottleSourceCommit a)
    (ba_BottleFormulaPath a) (ba_BottleSourceWaiver a) (convertCatalogBottleVerificationV2 (ba_Verification a))
    (convertCatalogTransportV2 (ba_Transport a)) (convertCatalogPrebuiltDerivationV2 <$> ba_PrebuiltDerivation a).

Definition convert_provenance (p : Provenance) : ProvenanceV2 :=
  MkProvenanceV2
    ((λ v, MkVerifiedProvenanceV2 (vp_PolicyVersion v) (vp_SubjectDigest v) (vp_StatementDigest v) (vp_BundleDigest v) (vp_SignerIdentity v) (vp_Issuer v))
       <$> pv_Verified p)
    (pw_Policy <$> pv_Waiver p).

(** A requirement without a minimum asks for the version that was selected. *)
Definition convert_requirement (nodes : gmap string CatalogClosure.Node) (owner : string) (r : CatalogClosure.Requirement) : result v2_error RequirementV2 :=
  match nodes !! rm_ID r with
  | None => Err (V2MissingDependency owner (rm_ID r))
  | Some dependency =>
      let minimum := if bool_decide (rm_MinimumPkgVersion r = "") then nd_PkgVersion dependency else rm_MinimumPkgVersion r in
      Ok (MkRequirementV2 (rm_ID r) minimum (rm_MinimumRevision r) (rm_MinimumBottleRebuild r) (rm_DeclaredDirectly r))
  end.

Definition compareRequirement : RequirementV2 → RequirementV2 → Z := cmp_on r2_ID strings_Compare.

Definition convertCatalogNodeV2 (node : CatalogClosure.Node) (artifact : BottleArtifact) (nodes : gmap string CatalogClosure.Node) : result v2_error NodeV2 :=
  deps ← mapM_res (convert_requirement nodes (nd_ID node)) (nd_Dependencies node);
  Ok (MkNodeV2 (nd_ID node) (nd_Tap node) (nd_Name node) (nd_HomebrewFullName node) (nd_FormulaVersion node) (nd_FormulaRevision node)
        (nd_PkgVersion node) (nd_VersionScheme node) (nd_BottleRebuild node) (nd_License node) (nd_KegOnly node)
        (slices_SortFunc compareRequirement deps) (convert_bottle artifact) (convert_provenance (ba_Provenance artifact)) (ba_ExecutablePaths artifact) "").

(** ** Metadata sources *)

(** Any document dated by HTTP makes the snapshot transport-dependent. *)
Fixpoint generated_at_source (documents : list DocumentInfo) : string :=
  match documents with
  | [] => CoreGeneratedAtSignedPayload
  | document :: documents =>
      if bool_decide (di_GeneratedAtSource document = "http-last-modified") then CoreGeneratedAtLastModified
      else if bool_decide (di_GeneratedAtSource document = "signed-payload") then generated_at_source documents
      else ""
  end.

Definition coreGeneratedAtSource (info : SnapshotInfo) : string := generated_at_source [sn_Formula info; sn_Migrations info].

(** The first verified signature *)
Definition core_signature (info : SnapshotInfo) : Signature :=
  match find si_Verified (di_Signatures (sn_Formula info)) with
  | Some s => MkSignature (si_KeyID s) (si_Algorithm s) true
  | None => MkSignature "" "" false
  end.

Definition core_source (info : SnapshotInfo) (commit : string) (floor : Z) : MetadataSource :=
  MkMetadataSource "homebrew/core" commit "" (core_signature info) None
    [MkMetadataDocument "formula" (sn_FormulaDigest info) (di_EnvelopeDigest (sn_Formula info));
     MkMetadataDocument "migrations" (sn_MigrationDigest info) (di_EnvelopeDigest (sn_Migrations info))]
    (sn_GeneratedAt info) (coreGeneratedAtSource info) (sn_FetchedAt info) (uint64 (time_Unix (sn_GeneratedAt info)))
    (MkRollbackEvidence CoreMetadataRollbackPolicyV1 floor (sn_Digest info)).

Definition TapCatalogPolicyVersion : string := "tap-catalog-v1".

(** [json.Marshal] of the derivation evidence *)
Class DerivationJSON := { marshal_derivation : PrebuiltDerivationV2 → option string }.

(** [strings.ReplaceAll] of one byte by another *)
Fixpoint replace_byte (c d : ascii) (s : string) : string :=
  match s with "" => "" | String b s => String (if ascii_eqb c b then d else b) (replace_byte c d s) end.

Section records.
Context `{U : !UnicodeTables, G : !GoDigest, R : !DistributionReference, N : !NetURL, I : !NetIP, D : !Digester, J : !TapCatalogJSON}.

Definition local_source (opts : V2Options) (entry : string * TapCatalog) : result v2_error MetadataSource :=
  let '(tap, document) := entry in
  canonical ← map_err V2Catalog (tapCatalogBytes document);
  let catalogDigest := digest_FromBytes canonical in
  let source := tc_Tap document in
  Ok (MkMetadataSource tap (ts_Commit source) TapCatalogPolicyVersion (MkSignature "" "" false)
        (Some (MkTapExtractionV2 BuildLocalExtractionPolicyV1 (c2_CatalogExtractorRef (vo_Components opts)) (ts_Repository source)
                 (ts_TreeDigest source) (ts_ArchiveDigest source) catalogDigest))
        [MkMetadataDocument "catalog" catalogDigest ""] (sn_GeneratedAt (vo_CoreMetadata opts)) "" (vo_ResolvedAt opts) 1
        (MkRollbackEvidence BuildLocalRollbackPolicyV1 0 catalogDigest)).

Definition reference_source (opts : V2Options) (reference : CatalogReference) : MetadataSource :=
  MkMetadataSource (ts_ID (rf_Tap reference)) (ts_Commit (rf_Tap reference)) TapCatalogPolicyVersion (vo_CatalogSigner opts) None
    [MkMetadataDocument "catalog" (rf_SHA256 reference) ""; MkMetadataDocument "set" (vo_SetPayloadDigest opts) (vo_SetEnvelopeDigest opts)]
    (rf_PublishedAt reference) "" (vo_ResolvedAt opts) (rf_Sequence reference)
    (MkRollbackEvidence MetadataRollbackPolicyV1 (default 0 (vo_SequenceFloors opts !! ts_ID (rf_Tap reference))) (rf_SHA256 reference)).

(** The references of the signed set, with the earliest time so far *)
Fixpoint reference_sources (opts : V2Options) (earliest : Z) (references : list CatalogReference) : result v2_error (list MetadataSource * Z) :=
  match references with
  | [] => Ok ([], earliest)
  | reference :: references =>
      _ ← check (bool_decide (vo_Catalogs opts !! ts_ID (rf_Tap reference) = None)) (V2MissingDocument (ts_ID (rf_Tap reference)));
      rest ← reference_sources opts (Z.min earliest (time_Unix (rf_PublishedAt reference))) references;
      Ok (reference_source opts reference :: rest.1, rest.2)
  end.

Definition set_digest_ok (value : string) : bool := digest_valid value && bool_decide (digest_Algorithm value = "sha256").

Definition metadataSourcesV2 (opts : V2Options) : result v2_error (list MetadataSource * Z) :=
  let info := vo_CoreMetadata opts in
  _ ← check ((sn_GeneratedAt info =? 0) || (sn_FetchedAt info =? 0)) V2CoreTimestamps;
  _ ← check (bool_decide (sg_KeyID (core_signature info) = "")) V2CoreSigner;
  let core := core_source info (c2_HomebrewCommit (vo_Components opts)) (vo_CoreRollbackFloor opts) in
  let earliest := time_Unix (sn_GeneratedAt info) in
  _ ← check (bool_decide (TapCatalogPolicyVersion ∉ c2_SupportedCatalogPolicyVersions (vo_Components opts))) V2CatalogPolicy;
  match vo_CatalogPayload opts with
  | None =>
      sources ← mapM_res (local_source opts) (sort_by fst (map_to_list (vo_Catalogs opts)));
      Ok (core :: sources, earliest)
  | Some payload =>
      _ ← check (negb (set_digest_ok (vo_SetPayloadDigest opts)) || negb (set_digest_ok (vo_SetEnvelopeDigest opts))) V2SetDigest;
      sources ← reference_sources opts earliest (py_Catalogs payload);
      Ok (core :: sources.1, sources.2)
  end.

(** ** The record of a catalog result *)

(** [formulaSources]: the documents in the order in which the map is ranged over *)
Definition formula_sources (range : list TapCatalog) : gmap string string :=
  foldl (λ m f, <[fm_ID f := fm_SourceDigest f]> m) ∅ (range ≫= tc_Formulae).

Definition nodes_by_id (nodes : list CatalogClosure.Node) : gmap string CatalogClosure.Node := keyed_map nd_ID ∅ nodes.

Definition artifacts_by_id (artifacts : list BottleArtifact) : gmap string BottleArtifact := keyed_map ba_ID ∅ artifacts.

Definition catalog_node (nodes : gmap string CatalogClosure.Node) (artifacts : gmap string BottleArtifact) (sources : gmap string string)
    (node : CatalogClosure.Node) : result v2_error NodeV2 :=
  match artifacts !! nd_ID node with
  | None => Err (V2NoArtifact (nd_ID node))
  | Some artifact =>
      _ ← check (negb (FormulaID_IsCore (nd_ID node)) && negb (bool_decide (sources !! nd_ID node = Some (ba_CurrentFormulaSourceDigest artifact))))
            (V2SourceDigest (nd_ID node));
      convertCatalogNodeV2 node artifact nodes
  end.

Fixpoint requested_roots (nodes : gmap string CatalogClosure.Node) (seen : gset string) (roots : list V2RequestedRoot)
    : result v2_error (list RequestedRootV2) :=
  match roots with
  | [] => Ok []
  | root :: roots =>
      _ ← check (bool_decide (vr_ID root ∈ seen)) (V2DuplicateRoot (vr_ID root));
      match nodes !! vr_ID root with
      | None => Err (V2AbsentRoot (vr_ID root))
      | Some node =>
          rest ← requested_roots nodes ({[vr_ID root]} ∪ seen) roots;
          Ok (MkRequestedRootV2 (vr_Requested root) (vr_ID root) (nd_KegOnly node) :: rest)
      end
  end.

Definition DefaultInstallPrefix : string := "/home/linuxbrew/.linuxbrew".

Definition writable_paths (nodes : list NodeV2) : list string := slices_Sort ((λ n, DefaultInstallPrefix +:+ "/var/" +:+ n2_Name n) <$> nodes).

Definition with_writable (p : RuntimePolicy) (paths : list string) : RuntimePolicy :=
  MkRuntimePolicy (rp_Profile p) (rp_User p) (rp_UID p) (rp_GID p) (rp_GeneratedPATH p) paths (rp_CPUBaseline p).

Definition valid_record (record : RecordV2) : result v2_error RecordV2 :=
  match ValidateV2 record with [] => Ok record | errs => Err (V2Invalid errs) end.

(** [clock] is the time of the call. *)
Definition RecordV2FromCatalog (clock : Z) (range : list TapCatalog) (result : PlatformResult) (requested : list V2RequestedRoot) (opts : V2Options)
    : Prelude.result v2_error RecordV2 :=
  _ ← match ValidatePlatformResult result with [] => Ok tt | errs => Err (V2Result errs) end;
  let localCatalogs := negb (present (vo_CatalogPayload opts)) && negb (bool_decide (c2_CatalogExtractorRef (vo_Components opts) = "")) in
  let serviceCatalogs := present (vo_CatalogPayload opts) in
  _ ← check (Bool.eqb localCatalogs serviceCatalogs) V2CatalogKind;
  let resolvedAt := if vo_ResolvedAt opts =? 0 then clock else vo_ResolvedAt opts in
  let signer := vo_CatalogSigner opts in
  _ ← check (serviceCatalogs && (bool_decide (sg_KeyID signer = "") || negb (bool_decide (sg_Algorithm signer = "PS512")) || negb (sg_Verified signer)))
        V2Signer;
  let platform := rs_Platform result in
  _ ← check (negb (bool_decide (pl_OS platform = "linux"))
             || (negb (bool_decide (pl_Architecture platform = "amd64")) && negb (bool_decide (pl_Architecture platform = "arm64")))) V2Platform;
  let nodesByID := nodes_by_id (items (cl_Nodes (rs_Closure result))) in
  let artifacts := artifacts_by_id (items (rs_Artifacts result)) in
  nodes ← mapM_res (catalog_node nodesByID artifacts (formula_sources range)) (items (cl_Nodes (rs_Closure result)));
  requestedV2 ← requested_roots nodesByID ∅ requested;
  _ ← check (bool_decide (requestedV2 = [])) V2NoRoots;
  let opts := MkV2Options (vo_SpecDigest opts) (vo_TargetKey opts) resolvedAt (vo_CoreMetadata opts) (vo_CatalogPayload opts) (vo_Catalogs opts)
    (vo_CatalogSigner opts) (vo_Components opts) (vo_Runtime opts) (vo_SequenceFloors opts) (vo_CoreRollbackFloor opts) (vo_SetPayloadDigest opts)
    (vo_SetEnvelopeDigest opts) in
  sources ← metadataSourcesV2 opts;
  valid_record (MkRecordV2 SchemaVersionV2 PolicyVersionV2 (MkInput (vo_SpecDigest opts) (vo_TargetKey opts) (convertPlatform platform)) sources.1
    resolvedAt sources.2 requestedV2 nodes (items (cl_InstallOrder (rs_Closure result))) (vo_Components opts)
    (with_writable (vo_Runtime opts) (writable_paths nodes)) "").

(** ** The record of a core resolution *)

Definition parse_id (name : string) : result v2_error string := map_err V2Identity (ParseFormulaID name).

Definition core_requirement (r : Resolution.Requirement) : result v2_error RequirementV2 :=
  id ← parse_id (rq_Name r); Ok (MkRequirementV2 id (rq_Minimum r) (rq_Revision r) (rq_BottleRebuild r) (rq_Direct r)).

Definition core_tab_dependency (d : RuntimeDependency) : result v2_error RuntimeDependencyV2 :=
  id ← parse_id (rd_FullName d);
  Ok (MkRuntimeDependencyV2 id id (rd_Version d) (rd_Revision d) (rd_BottleRebuild d) (rd_PkgVersion d) (rd_DeclaredDirectly d)).

Definition core_bottle (b : Resolution.Bottle) (deps : list RuntimeDependencyV2) (sourceDigest : string) : BottleV2 :=
  let tab := bt_Tab b in
  MkBottleV2 (bt_Tag b) (bt_Filename b) (d_Size (bt_Layer b)) (d_Digest (bt_Layer b)) (bt_Cellar b)
    (MkBottleTabV2 false (tab_HomebrewVersion tab) (tab_Arch tab) (tab_Compiler tab) (tab_ChangedFiles tab) (tab_BuiltOn tab) deps)
    (bt_SelectedAnnotations b) sourceDigest "" "" "" "" "" (MkBottleVerificationV2 CoreBottleVerificationDeferredV1 "" 0 0)
    (MkBottleTransportV2 (Some (MkOCITransportV2 "ghcr.io" (strings_TrimPrefix (bt_Repository b) "ghcr.io/") (bt_Index b) (bt_Manifest b) (bt_Config b)
       (bt_Layer b))) None None) None.

Definition core_node (sourceDigest : string) (n : Resolution.Node) : result v2_error NodeV2 :=
  id ← parse_id (n_Name n);
  dependencies ← mapM_res core_requirement (n_Dependencies n);
  tabDependencies ← mapM_res core_tab_dependency (tab_Dependencies (bt_Tab (n_Bottle n)));
  upstream ← (if bool_decide (n_UpstreamFormulaID n = "") then Ok "" else parse_id (n_UpstreamFormulaID n));
  Ok (MkNodeV2 id "homebrew/core" (n_Name n) id (n_FormulaVersion n) (n_FormulaRevision n) (n_PkgVersion n) (n_VersionScheme n) (n_BottleRebuild n)
        (n_License n) (n_KegOnly n) dependencies (core_bottle (n_Bottle n) tabDependencies sourceDigest)
        (MkProvenanceV2 None (Some CoreProvenanceWaiverPolicyV1)) (n_ExecutablePaths n) upstream).

Definition core_root (r : RequestedRoot) : result v2_error RequestedRootV2 :=
  id ← parse_id (rr_Canonical r); Ok (MkRequestedRootV2 (rr_Requested r) id (rr_KegOnly r)).

Definition RecordV2FromCore (core : Record_) (components : ComponentsV2) (info : SnapshotInfo) (floor : Z) : Prelude.result v2_error RecordV2 :=
  _ ← match Resolution.Validate core with [] => Ok tt | errs => Err (V2Core errs) end;
  nodes ← mapM_res (core_node (sn_FormulaDigest info)) (r_Nodes core);
  requested ← mapM_res core_root (r_Requested core);
  order ← mapM_res parse_id (r_InstallOrder core);
  _ ← check (bool_decide (sg_KeyID (core_signature info) = "")) V2CoreSigner;
  valid_record (MkRecordV2 SchemaVersionV2 PolicyVersionV2 (r_Input core) [core_source info (c2_HomebrewCommit components) floor] (r_ResolvedAt core)
    (r_SourceDateEpoch core) requested nodes order components (r_Runtime core) "").

(** ** The view by rack: internal/resolution, [project_v2.go] *)

Context `{DJ : !DerivationJSON}.

Definition RuntimePrebuiltDerivationAnnotationV2 : string := "dev.dalec.homebrew.prebuilt-derivation.v2".

Definition sort_hosts (t : HTTPSTransportV2) : HTTPSTransportV2 :=
  MkHTTPSTransportV2 (h2_URL t) (h2_ExpectedSize t) (h2_SHA256 t) (h2_Filename t) (slices_Sort (h2_AllowedRedirectHosts t)) (h2_FetchPolicyVersion t).

Definition sort_source (s : PrebuiltSourceArtifactV2) : PrebuiltSourceArtifactV2 :=
  let t := ps2_Transport s in
  MkPrebuiltSourceArtifactV2 (ps2_Filename s) (ps2_Size s) (ps2_SHA256 s) (ps2_Format s)
    (MkBottleTransportV2 (tr2_OCI t) (sort_hosts <$> tr2_HTTPS t) (tr2_Local t)).

Definition sort_elf (e : PrebuiltELFEvidenceV2) : PrebuiltELFEvidenceV2 :=
  MkPrebuiltELFEvidenceV2 (pe2_Format e) (pe2_Machine e) (pe2_StaticallyLinked e) (pe2_Interpreter e) (slices_Sort <$> pe2_NeededLibraries e)
    (slices_Sort <$> pe2_RPaths e) (pe2_WritableExecutableSegments e).

Definition sort_derivation (d : PrebuiltDerivationV2) : PrebuiltDerivationV2 :=
  MkPrebuiltDerivationV2 (pd2_PolicyVersion d) (pd2_PolicyDigest d) (sort_source (pd2_Source d)) (pd2_SourceInventory d) (pd2_Payload d)
    (sort_elf (pd2_ELF d)) (pd2_FormulaSource d) (pd2_RecipeDigest d) (pd2_DerivedBottle d).

Definition projectPrebuiltDerivationV2 (derivation : option PrebuiltDerivationV2) : result v2_error (list KV) :=
  match derivation with
  | None => Ok []
  | Some d =>
      match marshal_derivation (sort_derivation d) with
      | None => Err V2Projection
      | Some data => Ok [MkKV RuntimePrebuiltDerivationAnnotationV2 data]
      end
  end.

(** A rack belongs to one Formula. *)
Fixpoint rack_owners (owners : gmap string string) (nodes : list NodeV2) : result v2_error (gmap string string) :=
  match nodes with
  | [] => Ok owners
  | n :: nodes =>
      _ ← check (match owners !! n2_Name n with Some previous => negb (bool_decide (previous = n2_ID n)) | None => false end) (V2Rack (n2_Name n));
      rack_owners (<[n2_Name n := n2_ID n]> owners) nodes
  end.

Definition nodes2_by_id (nodes : list NodeV2) : gmap string NodeV2 := keyed_map n2_ID ∅ nodes.

(** [rackByID], filled in the same loop *)
Definition rack_by_id (nodes : list NodeV2) : gmap string string := n2_Name <$> nodes2_by_id nodes.

Definition project_requirement (byID : gmap string NodeV2) (r : RequirementV2) : result v2_error Resolution.Requirement :=
  match byID !! r2_ID r with
  | None => Err (V2MissingDependency "" (r2_ID r))
  | Some dependency => Ok (Resolution.MkRequirement (n2_Name dependency) (r2_Minimum r) (r2_Revision r) (r2_BottleRebuild r) (r2_Direct r))
  end.

Definition project_tab_dependency (d : RuntimeDependencyV2) : RuntimeDependency :=
  MkRuntimeDependency (t2_HomebrewFullName d) (t2_Version d) (t2_Revision d) (t2_BottleRebuild d) (t2_PkgVersion d) (t2_DeclaredDirectly d).

Definition no_descriptor : Resolution.Descriptor := Resolution.MkDescriptor "" 0 "" None ∅.

(** Without an OCI transport the bottle is its own layer. *)
Definition project_bottle (id : string) (b : BottleV2) (annotations : list KV) : Resolution.Bottle :=
  let tab := b2_Tab b in
  let tab1 := Resolution.MkBottleTab (tab2_HomebrewVersion tab) (tab2_Arch tab) (tab2_Compiler tab) (tab2_ChangedFiles tab) (tab2_BuiltOn tab)
    (project_tab_dependency <$> tab2_Dependencies tab) in
  match tr2_OCI (b2_Transport b) with
  | Some t => Resolution.MkBottle (b2_Tag b) (b2_Filename b) (o2_Repository t) (o2_Index t) (o2_Manifest t) (o2_Config t) (o2_Layer t) (b2_SHA256 b)
                (b2_Cellar b) tab1 annotations
  | None =>
      Resolution.MkBottle (b2_Tag b) (b2_Filename b) ("https-bottle.invalid/" +:+ replace_byte "/" "-" id) no_descriptor no_descriptor no_descriptor
        (Resolution.MkDescriptor (b2_SHA256 b) (b2_Size b) "application/vnd.oci.image.layer.v1.tar+gzip" None ∅) (b2_SHA256 b) (b2_Cellar b) tab1 annotations
  end.

Definition project_node (byID : gmap string NodeV2) (n : NodeV2) : result v2_error Resolution.Node :=
  dependencies ← mapM_res (project_requirement byID) (n2_Dependencies n);
  annotations ← projectPrebuiltDerivationV2 (b2_PrebuiltDerivation (n2_Bottle n));
  Ok (Resolution.MkNode (n2_Name n) (n2_HomebrewFullName n) (n2_FormulaVersion n) (n2_FormulaRevision n) (n2_PkgVersion n) (n2_VersionScheme n)
        (n2_BottleRebuild n) (n2_License n) (n2_KegOnly n) dependencies (project_bottle (n2_ID n) (n2_Bottle n) annotations) (n2_ExecutablePaths n)
        (n2_UpstreamFormulaID n) (n2_ID n)).

(** The parts of a record of the first version that the view leaves empty *)
Definition no_metadata : MetadataSnapshot := MkMetadataSnapshot "" "" "" "" "" "" "" 0 0 [] [] [] "" "".
Definition no_components : Components := MkComponents "" "" "" "" "" "" "" "".

Definition ProjectV2ForRuntime (record : RecordV2) : Prelude.result v2_error (Record_ * gmap string string) :=
  _ ← match ValidateV2 record with [] => Ok tt | errs => Err (V2Invalid errs) end;
  _ ← rack_owners ∅ (v2_Nodes record);
  let byID := nodes2_by_id (v2_Nodes record) in
  let rackByID := rack_by_id (v2_Nodes record) in
  nodes ← mapM_res (project_node byID) (v2_Nodes record);
  let requested := (λ root, MkRequestedRoot (q2_Requested root) (default "" (rackByID !! q2_ID root)) (q2_KegOnly root)) <$> v2_Requested record in
  let order := (λ id, default "" (rackByID !! id)) <$> v2_InstallOrder record in
  Ok (MkRecord Resolution.SchemaVersion PolicyVersionV2 (v2_Input record) no_metadata (v2_ResolvedAt record) (v2_SourceDateEpoch record) requested nodes
        order no_components (v2_Runtime record) (MkAttestationPolicy "" "") (v2_PruningPolicyDigest record), rackByID).

End records.

End resolver_v2.

Import resolver_v2.

(** ** Renaming a closure *)

Section renaming.
Context {N M : Type} (key : N → string) (deps : N → list string) (key' : M → string) (deps' : M → list string) (f : string → string).

(** The nodes of [k] are those of [l] under new names. *)
Definition renamed (l : list N) (k : list M) : Prop := Forall2 (λ n m, key' m = f (key n) ∧ deps' m = f <$> deps n) l k.

Lemma renamed_keys l k : renamed l k → key' <$> k = f <$> (key <$> l).
Proof. induction 1 as [|n m l k [Hk _] _ IH]; [done|]. cbn. by rewrite Hk, IH. Qed.

Lemma renamed_edge l k x y :
  renamed l k → edge (list_succ key' deps' k) x y ↔ ∃ a b, x = f a ∧ y = f b ∧ edge (list_succ key deps l) a b.
Proof.
  intros Hr. rewrite edge_list_succ. setoid_rewrite edge_list_succ. split.
  - intros (m & Hm & <- & Hy). apply list_elem_of_lookup in Hm as [i Hi]. eapply Forall2_lookup_r in Hr as (n & Hn & Hk & Hd); [|exact Hi].
    rewrite Hd in Hy. apply list_elem_of_fmap in Hy as (b & -> & Hb). exists (key n), b. split_and!; [done..|]. exists n. by eauto using list_elem_of_lookup_2.
  - intros (a & b & -> & -> & n & Hn & <- & Hb). apply list_elem_of_lookup in Hn as [i Hi]. eapply Forall2_lookup_l in Hr as (m & Hm & Hk & Hd); [|exact Hi].
    exists m. split_and!; [by eauto using list_elem_of_lookup_2|done|]. rewrite Hd. by apply list_elem_of_fmap_2.
Qed.

(** Different names stay different, so the renamed graph is a closure too. *)
Lemma renamed_closure l k roots order :
  renamed l k → (∀ a b, a ∈ key <$> l → b ∈ key <$> l → f a = f b → a = b) →
  closure_ok key deps roots l order → closure_ok key' deps' (f <$> roots) k (f <$> order).
Proof.
  intros Hr Hinj [Hu Hro Hd Ho Ht Hn]. pose proof (renamed_keys l k Hr) as Hkeys.
  assert (∀ x, x ∈ order ↔ x ∈ key <$> l) as Hord by (intros x; by rewrite Ho).
  assert (∀ a b, edge (list_succ key deps l) a b → a ∈ key <$> l) as Hsrc
    by (intros a b (n & Hin & <- & _)%edge_list_succ; by apply list_elem_of_fmap_2).
  split.
  - rewrite Hkeys. apply NoDup_fmap_2_strong; [|done]. eauto.
  - intros x (r & -> & Hin)%list_elem_of_fmap. rewrite Hkeys. by apply list_elem_of_fmap_2, Hro.
  - intros x y (a & b & -> & -> & He)%(renamed_edge l k); [|done]. rewrite Hkeys. apply list_elem_of_fmap_2. by eapply Hd.
  - rewrite Hkeys. by apply fmap_Permutation.
  - intros l1 x l2 Hs d (a & b & -> & -> & He)%(renamed_edge l k); [|done].
    apply fmap_app_inv in Hs as (o1 & o2 & -> & Ho2 & Horder). symmetry in Ho2. apply fmap_cons_inv in Ho2 as (a' & o3 & Ha' & _ & ->).
    apply list_elem_of_fmap_2. apply (Ht o1 a' o3 Horder). assert (a = a') as <-; [|done].
    apply Hinj; [by eapply Hsrc| |done]. apply Hord. rewrite Horder. set_solver.
  - intros x. rewrite Hkeys. intros (a & -> & Ha)%list_elem_of_fmap. destruct (Hn a Ha) as (r & Hin & Hrtc).
    exists (f r). split; [by apply list_elem_of_fmap_2|]. clear Ha Hin. induction Hrtc as [|u v z He _ IH]; [constructor|].
    econstructor; [|exact IH]. apply (renamed_edge l k); [done|]. by exists u, v.
Qed.

End renaming.

(** ** The view by rack *)

Section view.
Context `{U : !UnicodeTables, G : !GoDigest, R : !DistributionReference, N : !NetURL, I : !NetIP, DJ : !DerivationJSON}.

Lemma rack_owners_ok owners nodes :
  (∀ n, n ∈ nodes → ∀ id, owners !! n2_Name n = Some id → id = n2_ID n) →
  (∀ m n, m ∈ nodes → n ∈ nodes → n2_Name m = n2_Name n → n2_ID m = n2_ID n) → is_ok (rack_owners owners nodes) = true.
Proof.
  revert owners. induction nodes as [|n nodes IH]; intros owners Ho Hr; [done|]. cbn [rack_owners].
  assert (match owners !! n2_Name n with Some previous => negb (bool_decide (previous = n2_ID n)) | None => false end = false) as ->.
  { destruct (owners !! n2_Name n) as [previous|] eqn:Hn; [|done]. rewrite (Ho n ltac:(by left) _ Hn). by rewrite bool_decide_eq_true_2. }
  cbn. apply IH; [|set_solver]. intros m Hm id [[Heq <-]|[_ Hl]]%lookup_insert_Some; [by apply Hr; [left|right|]|]. apply (Ho m); [by right|done].
Qed.

Definition rack (r : RecordV2) (id : string) : string := default "" (rack_by_id (v2_Nodes r) !! id).

Lemma node_lookup r n : record_wf2 r → n ∈ v2_Nodes r → nodes2_by_id (v2_Nodes r) !! n2_ID n = Some n.
Proof. intros Hw Hn. apply keyed_map_lookup; [apply (rw2_closure _ Hw)|intros; apply lookup_empty|by left]. Qed.

Lemma rack_name r n : record_wf2 r → n ∈ v2_Nodes r → rack r (n2_ID n) = n2_Name n.
Proof. intros Hw Hn. unfold rack, rack_by_id. by rewrite lookup_fmap, (node_lookup r n Hw Hn). Qed.

Lemma rack_inj r a b : record_wf2 r → a ∈ n2_ID <$> v2_Nodes r → b ∈ n2_ID <$> v2_Nodes r → rack r a = rack r b → a = b.
Proof.
  intros Hw (m & -> & Hm)%list_elem_of_fmap (n & -> & Hn)%list_elem_of_fmap. rewrite !rack_name by done. by apply (rw2_racks _ Hw).
Qed.

(** A node of a valid record and its view *)
Definition viewed (r : RecordV2) (n : NodeV2) (m : Resolution.Node) : Prop :=
  n_Name m = rack r (n2_ID n) ∧ dep_names m = rack r <$> dep_ids n ∧ n_PolicyFormulaID m = n2_ID n ∧ n_PkgVersion m = n2_PkgVersion n ∧
  bt_HomebrewSHA256 (n_Bottle m) = b2_SHA256 (n2_Bottle n) ∧
  (tr2_OCI (b2_Transport (n2_Bottle n)) = None → d_Digest (bt_Layer (n_Bottle m)) = b2_SHA256 (n2_Bottle n)) ∧
  (∀ t, tr2_OCI (b2_Transport (n2_Bottle n)) = Some t → bt_Layer (n_Bottle m) = o2_Layer t) ∧
  ∃ annotations, n_Bottle m = project_bottle (n2_ID n) (n2_Bottle n) annotations.

Lemma mapM_res_total {E A B} (g : A → result E B) l : (∀ x, x ∈ l → is_ok (g x) = true) → ∃ ys, mapM_res g l = Ok ys.
Proof.
  intros Hg. induction l as [|x l IH]; [by eexists|]. cbn [mapM_res]. specialize (Hg x (list_elem_of_here x l)) as Hx.
  destruct (g x) as [y|]; [|done]. destruct IH as [ys ->]; [set_solver|]. by eexists.
Qed.

Lemma project_requirements r n :
  record_wf2 r → n ∈ v2_Nodes r →
  ∃ deps, mapM_res (project_requirement (nodes2_by_id (v2_Nodes r))) (n2_Dependencies n) = Ok deps ∧ rq_Name <$> deps = rack r <$> dep_ids n.
Proof.
  intros Hw Hn. assert (∀ q, q ∈ n2_Dependencies n → ∃ d, d ∈ v2_Nodes r ∧ n2_ID d = r2_ID q) as Hdeps.
  { intros q Hq. pose proof (rw2_closure _ Hw) as Hc.
    assert (r2_ID q ∈ n2_ID <$> v2_Nodes r) as (d & -> & Hd)%list_elem_of_fmap; [|by exists d].
    eapply (cw_deps Hc (n2_ID n)), edge_list_succ. exists n. split_and!; [done..|]. by apply list_elem_of_fmap_2. }
  unfold dep_ids. clear Hn. revert Hdeps. induction (n2_Dependencies n) as [|q l IH]; intros Hdeps; [by exists []|].
  destruct IH as (deps & Hm & Hnames); [set_solver|]. destruct (Hdeps q) as (d & Hd & Hid); [by left|].
  assert (project_requirement (nodes2_by_id (v2_Nodes r)) q =
    Ok (Resolution.MkRequirement (n2_Name d) (r2_Minimum q) (r2_Revision q) (r2_BottleRebuild q) (r2_Direct q))) as Hq.
  { unfold project_requirement. by rewrite <- Hid, (node_lookup r d Hw Hd). }
  cbn [mapM_res]. rewrite Hq, Hm. eexists. split; [reflexivity|]. cbn. by rewrite <- Hid, Hnames, (rack_name r d).
Qed.

Lemma project_node_ok r n :
  record_wf2 r → n ∈ v2_Nodes r → is_ok (projectPrebuiltDerivationV2 (b2_PrebuiltDerivation (n2_Bottle n))) = true →
  ∃ m, project_node (nodes2_by_id (v2_Nodes r)) n = Ok m ∧ viewed r n m.
Proof.
  intros Hw Hn Hd. unfold project_node. destruct (project_requirements r n Hw Hn) as (deps & -> & Hnames). cbn [mbind result_bind].
  destruct (projectPrebuiltDerivationV2 _) as [annotations|]; [|done]. eexists. split; [reflexivity|]. unfold viewed, project_bottle. cbn.
  rewrite rack_name by done. split_and!; try done; try (by destruct (tr2_OCI _); intros; simplify_eq). by exists annotations.
Qed.

Lemma project_view record :
  ValidateV2 record = [] → (∀ n, n ∈ v2_Nodes record → is_ok (projectPrebuiltDerivationV2 (b2_PrebuiltDerivation (n2_Bottle n))) = true) →
  ∃ view, ProjectV2ForRuntime record = Ok (view, rack_by_id (v2_Nodes record)) ∧ Forall2 (viewed record) (v2_Nodes record) (r_Nodes view) ∧
    rr_Canonical <$> r_Requested view = (rack record ∘ q2_ID) <$> v2_Requested record ∧ r_InstallOrder view = rack record <$> v2_InstallOrder record.
Proof.
  intros Hvalid Hprint. pose proof (proj1 (ValidateV2_nil record) Hvalid) as Hw. unfold ProjectV2ForRuntime. rewrite Hvalid. cbn [mbind result_bind].
  destruct (rack_owners ∅ (v2_Nodes record)) eqn:Ho.
  2: { exfalso. enough (is_ok (rack_owners ∅ (v2_Nodes record)) = true) by (rewrite Ho in *; done).
       apply rack_owners_ok; [by intros ? _ ? ?%lookup_empty_Some|apply Hw]. }
  destruct (mapM_res_total (project_node (nodes2_by_id (v2_Nodes record))) (v2_Nodes record)) as [nodes Hm].
  { intros n Hn. destruct (project_node_ok record n Hw Hn (Hprint n Hn)) as (m & -> & _). done. }
  rewrite Hm. cbn [mbind result_bind]. eexists. split; [reflexivity|]. cbn [r_Nodes r_Requested r_InstallOrder]. split_and!; [|by rewrite <- list_fmap_compose|done].
  apply mapM_res_ok in Hm. apply Forall2_same_length_lookup. split; [by eapply Forall2_length|]. intros i n m Hi Hj.
  pose proof (Forall2_lookup_lr _ _ _ _ _ _ Hm Hi Hj) as Hf. apply list_elem_of_lookup_2 in Hi as Hn.
  destruct (project_node_ok record n Hw Hn (Hprint n Hn)) as (m' & Hf' & Hview). by rewrite Hf in Hf'; injection Hf' as <-.
Qed.

End view.

(** C10: The view by rack of a valid record of the second version always exists (if the
    derivation evidence can be printed) and is the same graph: its nodes are those of
    the record under their rack names, which are all different, its dependencies,
    roots and install order are renamed along, so that they are again a closure in
    which every dependency comes first, and every bottle keeps its digest. *)
Theorem ProjectV2ForRuntime_closure
  `{U : !UnicodeTables, G : !GoDigest, R : !DistributionReference, N : !NetURL, I : !NetIP, DJ : !DerivationJSON} record
  (Hvalid : ValidateV2 record = [])
  (Hprint : ∀ n, n ∈ v2_Nodes record → is_ok (projectPrebuiltDerivationV2 (b2_PrebuiltDerivation (n2_Bottle n))) = true) :
  ∃ view racks, ProjectV2ForRuntime record = Ok (view, racks) ∧ Forall2 (viewed record) (v2_Nodes record) (r_Nodes view) ∧
    closure_ok n_Name dep_names (rr_Canonical <$> r_Requested view) (r_Nodes view) (r_InstallOrder view) ∧
    (∀ n, n ∈ v2_Nodes record → racks !! n2_ID n = Some (n2_Name n)).
Proof.
  pose proof (proj1 (ValidateV2_nil record) Hvalid) as Hw. destruct (project_view record Hvalid Hprint) as (view & Hp & Hv & Hroots & Horder).
  exists view, (rack_by_id (v2_Nodes record)). split_and!; [done..| |].
  - rewrite Hroots, Horder, (list_fmap_compose q2_ID (rack record)).
    eapply (renamed_closure n2_ID dep_ids); [|intros ? ?; by apply rack_inj|apply (rw2_closure _ Hw)].
    eapply Forall2_impl; [exact Hv|]. by intros n m (? & ? & _).
  - intros n Hn. unfold rack_by_id. by rewrite lookup_fmap, (node_lookup _ _ Hw Hn).
Qed.

(** ** What a record keeps of its catalog result *)

Section faithful.
Context `{U : !UnicodeTables, G : !GoDigest, R : !DistributionReference, N : !NetURL, I : !NetIP, D : !Digester, J : !TapCatalogJSON}.

Lemma keyed_lookup_elem {A} (key : A → string) m l x (a : A) :
  keyed_map key m l !! x = Some a → (a ∈ l ∧ key a = x) ∨ m !! x = Some a.
Proof.
  revert m. induction l as [|b l IH]; intros m; cbn; [by right|]. intros [[? ?]|Hm]%IH; [left; split; [by right|done]|].
  apply lookup_insert_Some in Hm as [[<- <-]|[_ Hm]]; [left; split; [by left|done]|by right].
Qed.

Lemma formula_sources_lookup range id digest :
  formula_sources range !! id = Some digest → ∃ document f, document ∈ range ∧ f ∈ tc_Formulae document ∧ fm_ID f = id ∧ fm_SourceDigest f = digest.
Proof.
  unfold formula_sources. intros H.
  assert (∃ f, f ∈ range ≫= tc_Formulae ∧ fm_ID f = id ∧ fm_SourceDigest f = digest) as (f & (document & ? & ?)%list_elem_of_bind & ? & ?); [|naive_solver].
  revert H. enough (∀ l (m : gmap string string), foldl (λ m f, <[fm_ID f := fm_SourceDigest f]> m) m l !! id = Some digest →
    (∃ f, f ∈ l ∧ fm_ID f = id ∧ fm_SourceDigest f = digest) ∨ m !! id = Some digest) as He.
  { intros [?| ?%lookup_empty_Some]%He; done. }
  induction l as [|g l IH]; intros m; cbn; [by right|]. intros [(f & ? & ?)|Hm]%IH; [left; exists f; split; [by right|done]|].
  apply lookup_insert_Some in Hm as [[? ?]|[_ Hm]]; [left; exists g; split; [by left|done]|by right].
Qed.

(** A requirement of the record and the requirement of the closure it was made from *)
Definition requirement_of (nodes : list CatalogClosure.Node) (q : CatalogClosure.Requirement) (r : RequirementV2) : Prop :=
  r2_ID r = rm_ID q ∧ r2_Revision r = rm_MinimumRevision q ∧ r2_BottleRebuild r = rm_MinimumBottleRebuild q ∧ r2_Direct r = rm_DeclaredDirectly q ∧
  ∃ d, d ∈ nodes ∧ nd_ID d = rm_ID q ∧ r2_Minimum r = (if bool_decide (rm_MinimumPkgVersion q = "") then nd_PkgVersion d else rm_MinimumPkgVersion q).

(** Evidence of the record and the evidence of the result it was made from, field by
    field. The annotations of a descriptor become a map: the last of a key stands. *)
Definition platform_of (p : CatalogRequest.Platform) (p2 : Resolution.Platform) : Prop :=
  p_OS p2 = pl_OS p ∧ p_Architecture p2 = pl_Architecture p ∧ p_Variant p2 = pl_Variant p.

Definition descriptor_of (d : CatalogArtifact.Descriptor) (d2 : Resolution.Descriptor) : Prop :=
  d_Digest d2 = ds_Digest d ∧ d_Size d2 = ds_Size d ∧ d_MediaType d2 = ds_MediaType d ∧ option_Forall2 platform_of (ds_Platform d) (d_Platform d2) ∧
  ∀ key, d_Metadata d2 !! key = an_Value <$> last (filter (λ a, an_Key a = key) (ds_Annotations d)).

Definition oci_of (t : OCITransport) (t2 : OCITransportV2) : Prop :=
  o2_Registry t2 = oc_Registry t ∧ o2_Repository t2 = oc_Repository t ∧ descriptor_of (oc_Index t) (o2_Index t2) ∧
  descriptor_of (oc_Manifest t) (o2_Manifest t2) ∧ descriptor_of (oc_Config t) (o2_Config t2) ∧ descriptor_of (oc_Layer t) (o2_Layer t2).

Definition https_of (t : HTTPSTransport) (t2 : HTTPSTransportV2) : Prop :=
  h2_URL t2 = ht_URL t ∧ h2_ExpectedSize t2 = ht_ExpectedSize t ∧ h2_SHA256 t2 = ht_SHA256 t ∧ h2_Filename t2 = ht_Filename t ∧
  h2_AllowedRedirectHosts t2 = ht_AllowedRedirectHosts t ∧ h2_FetchPolicyVersion t2 = ht_FetchPolicyVersion t.

Definition local_of (t : LocalTransport) (t2 : LocalTransportV2) : Prop :=
  l2_PolicyVersion t2 = lt_PolicyVersion t ∧ l2_SHA256 t2 = lt_SHA256 t ∧ l2_Size t2 = lt_Size t ∧ l2_Filename t2 = lt_Filename t.

Definition transport_of (t : Transport) (t2 : BottleTransportV2) : Prop :=
  option_Forall2 oci_of (tr_OCI t) (tr2_OCI t2) ∧ option_Forall2 https_of (tr_HTTPS t) (tr2_HTTPS t2) ∧ option_Forall2 local_of (tr_Local t) (tr2_Local t2).

Definition verification_of (v : BottleVerification) (v2 : BottleVerificationV2) : Prop :=
  bv2_PolicyVersion v2 = bv_PolicyVersion v ∧ bv2_InventoryDigest v2 = bv_InventoryDigest v ∧ bv2_EntryCount v2 = bv_EntryCount v ∧
  bv2_ExpandedSize v2 = bv_ExpandedSize v.

Definition dependency_of (d : BottleRuntimeDependency) (d2 : RuntimeDependencyV2) : Prop :=
  t2_ID d2 = rt_ID d ∧ t2_HomebrewFullName d2 = rt_HomebrewFullName d ∧ t2_Version d2 = rt_Version d ∧ t2_Revision d2 = rt_Revision d ∧
  t2_BottleRebuild d2 = rt_BottleRebuild d ∧ t2_PkgVersion d2 = rt_PkgVersion d ∧ t2_DeclaredDirectly d2 = rt_DeclaredDirectly d.

Record tab_of (t : CatalogArtifact.BottleTab) (t2 : BottleTabV2) : Prop := {
  ta_build : tab2_Receiptless t2 = tb_Receiptless t ∧ tab2_HomebrewVersion t2 = tb_HomebrewVersion t ∧ tab2_Arch t2 = tb_Arch t ∧
    tab2_Compiler t2 = tb_Compiler t ∧ tab2_ChangedFiles t2 = tb_ChangedFiles t;
  ta_built_on : bo_OS (tab2_BuiltOn t2) = bb_OS (tb_BuiltOn t) ∧ bo_OSVersion (tab2_BuiltOn t2) = bb_OSVersion (tb_BuiltOn t) ∧
    bo_CPUFamily (tab2_BuiltOn t2) = bb_CPUFamily (tb_BuiltOn t) ∧ bo_OldestCPUFamily (tab2_BuiltOn t2) = bb_OldestCPUFamily (tb_BuiltOn t) ∧
    bo_GlibcVersion (tab2_BuiltOn t2) = bb_GlibcVersion (tb_BuiltOn t);
  ta_dependencies : Forall2 dependency_of (tb_Dependencies t) (tab2_Dependencies t2);
}.

Record derivation_of (d : PrebuiltDerivation) (d2 : PrebuiltDerivationV2) : Prop := {
  de_policy : pd2_PolicyVersion d2 = pd_PolicyVersion d ∧ pd2_PolicyDigest d2 = pd_PolicyDigest d ∧ pd2_RecipeDigest d2 = pd_RecipeDigest d;
  de_source : ps2_Filename (pd2_Source d2) = ps_Filename (pd_Source d) ∧ ps2_Size (pd2_Source d2) = ps_Size (pd_Source d) ∧
    ps2_SHA256 (pd2_Source d2) = ps_SHA256 (pd_Source d) ∧ ps2_Format (pd2_Source d2) = ps_Format (pd_Source d) ∧
    transport_of (ps_Transport (pd_Source d)) (ps2_Transport (pd2_Source d2));
  de_inventory : pi2_InventoryDigest (pd2_SourceInventory d2) = pi_InventoryDigest (pd_SourceInventory d) ∧
    pi2_EntryCount (pd2_SourceInventory d2) = pi_EntryCount (pd_SourceInventory d) ∧
    pi2_ExpandedSize (pd2_SourceInventory d2) = pi_ExpandedSize (pd_SourceInventory d);
  de_payload : pp2_SourcePath (pd2_Payload d2) = pp_SourcePath (pd_Payload d) ∧ pp2_DestinationPath (pd2_Payload d2) = pp_DestinationPath (pd_Payload d) ∧
    pp2_SHA256 (pd2_Payload d2) = pp_SHA256 (pd_Payload d) ∧ pp2_Size (pd2_Payload d2) = pp_Size (pd_Payload d) ∧
    pp2_ArchiveMode (pd2_Payload d2) = pp_ArchiveMode (pd_Payload d) ∧ pp2_DerivedMode (pd2_Payload d2) = pp_DerivedMode (pd_Payload d);
  de_elf : pe2_Format (pd2_ELF d2) = pe_Format (pd_ELF d) ∧ pe2_Machine (pd2_ELF d2) = pe_Machine (pd_ELF d) ∧
    pe2_StaticallyLinked (pd2_ELF d2) = pe_StaticallyLinked (pd_ELF d) ∧ pe2_Interpreter (pd2_ELF d2) = pe_Interpreter (pd_ELF d) ∧
    pe2_NeededLibraries (pd2_ELF d2) = pe_NeededLibraries (pd_ELF d) ∧ pe2_RPaths (pd2_ELF d2) = pe_RPaths (pd_ELF d) ∧
    pe2_WritableExecutableSegments (pd2_ELF d2) = pe_WritableExecutableSegments (pd_ELF d);
  de_formula : let tap := tf_Tap (fs_Transport (pd_FormulaSource d)) in let tap2 := tf2_Tap (fs2_Transport (pd2_FormulaSource d2)) in
    ts2_ID tap2 = ts_ID tap ∧ ts2_Repository tap2 = ts_Repository tap ∧ ts2_Commit tap2 = ts_Commit tap ∧ ts2_TreeDigest tap2 = ts_TreeDigest tap ∧
    ts2_ArchiveDigest tap2 = ts_ArchiveDigest tap ∧ tf2_Path (fs2_Transport (pd2_FormulaSource d2)) = tf_Path (fs_Transport (pd_FormulaSource d)) ∧
    fs2_SHA256 (pd2_FormulaSource d2) = fs_SHA256 (pd_FormulaSource d) ∧ fs2_Size (pd2_FormulaSource d2) = fs_Size (pd_FormulaSource d);
  de_derived : db2_Tag (pd2_DerivedBottle d2) = db_Tag (pd_DerivedBottle d) ∧ db2_Filename (pd2_DerivedBottle d2) = db_Filename (pd_DerivedBottle d) ∧
    db2_SHA256 (pd2_DerivedBottle d2) = db_SHA256 (pd_DerivedBottle d) ∧ db2_Size (pd2_DerivedBottle d2) = db_Size (pd_DerivedBottle d) ∧
    verification_of (db_Verification (pd_DerivedBottle d)) (db2_Verification (pd2_DerivedBottle d2)) ∧
    db2_FormulaSourceDigest (pd2_DerivedBottle d2) = db_FormulaSourceDigest (pd_DerivedBottle d);
}.

Record bottle_of (a : BottleArtifact) (b : BottleV2) : Prop := {
  bf_file : b2_Tag b = ba_Tag a ∧ b2_Filename b = ba_Filename a ∧ b2_Size b = ba_Size a ∧ b2_SHA256 b = ba_SHA256 a ∧ b2_Cellar b = ba_Cellar a;
  bf_tab : tab_of (ba_Tab a) (b2_Tab b);
  bf_annotations : (λ kv, (kv_Key kv, kv_Value kv)) <$> b2_SelectedAnnotations b =
    (λ x, (an_Key x, an_Value x)) <$> (if tr_OCI (ba_Transport a) is Some t then ds_Annotations (oc_Manifest t) else []);
  bf_source : b2_CurrentFormulaSourceDigest b = ba_CurrentFormulaSourceDigest a ∧ b2_BottleFormulaSourceDigest b = ba_BottleFormulaSourceDigest a ∧
    b2_BottleSourceRepository b = ba_BottleSourceRepository a ∧ b2_BottleSourceCommit b = ba_BottleSourceCommit a ∧
    b2_BottleFormulaPath b = ba_BottleFormulaPath a ∧ b2_BottleSourceWaiver b = ba_BottleSourceWaiver a;
  bf_verification : verification_of (ba_Verification a) (b2_Verification b);
  bf_transport : transport_of (ba_Transport a) (b2_Transport b);
  bf_derivation : option_Forall2 derivation_of (ba_PrebuiltDerivation a) (b2_PrebuiltDerivation b);
}.

Definition provenance_of (p : Provenance) (p2 : ProvenanceV2) : Prop :=
  option_Forall2 (λ v v2, vp2_PolicyVersion v2 = vp_PolicyVersion v ∧ vp2_SubjectDigest v2 = vp_SubjectDigest v ∧
    vp2_StatementDigest v2 = vp_StatementDigest v ∧ vp2_BundleDigest v2 = vp_BundleDigest v ∧ vp2_SignerIdentity v2 = vp_SignerIdentity v ∧
    vp2_Issuer v2 = vp_Issuer v) (pv_Verified p) (pv2_Verified p2) ∧
  option_Forall2 (λ w policy, policy = pw_Policy w) (pv_Waiver p) (pv2_Waiver p2).

(** An option and its conversion *)
Lemma converted {A B} (P : A → B → Prop) (f : A → B) o : (∀ x, P x (f x)) → option_Forall2 P o (f <$> o).
Proof. intros Hf. by destruct o; constructor. Qed.

Lemma convert_descriptor_ok d : descriptor_of d (convertCatalogDescriptor d).
Proof.
  split_and!; [done..|by apply converted|]. intros key. cbn. induction (ds_Annotations d) as [|a l IH] using rev_ind; [done|].
  rewrite foldl_app, filter_app, last_app, filter_cons, filter_nil. case_decide as Hk; cbn.
  - rewrite Hk. by rewrite lookup_insert_eq.
  - by rewrite lookup_insert_ne.
Qed.

Lemma convert_transport_ok t : transport_of t (convertCatalogTransportV2 t).
Proof.
  split_and!; apply converted; intros x; [|by split_and!..]. split_and!; [done..| | | |]; apply convert_descriptor_ok.
Qed.

Lemma convert_bottle_ok a : bottle_of a (convert_bottle a).
Proof.
  split; cbn; try (by split_and!).
  - split; cbn; [by split_and!..|]. apply Forall2_fmap_r, Forall_Forall2_diag, Forall_forall. intros d _. by split_and!.
  - unfold selected_annotations. destruct (tr_OCI (ba_Transport a)); [|done]. by rewrite <- list_fmap_compose.
  - apply convert_transport_ok.
  - apply converted. intros d. split; cbn; try (by split_and!). split_and!; [done..|]. apply convert_transport_ok.
Qed.

(** A node of the record and the node of the result it was made from *)
Record node_of (range : list TapCatalog) (result : PlatformResult) (node : CatalogClosure.Node) (n : NodeV2) : Prop := {
  no_identity : n2_ID n = nd_ID node ∧ n2_Tap n = nd_Tap node ∧ n2_Name n = nd_Name node ∧ n2_HomebrewFullName n = nd_HomebrewFullName node;
  no_version : n2_PkgVersion n = nd_PkgVersion node ∧ n2_FormulaVersion n = nd_FormulaVersion node ∧ n2_FormulaRevision n = nd_FormulaRevision node ∧
    n2_VersionScheme n = nd_VersionScheme node ∧ n2_BottleRebuild n = nd_BottleRebuild node;
  no_flags : n2_License n = nd_License node ∧ n2_KegOnly n = nd_KegOnly node ∧ n2_UpstreamFormulaID n = "";
  no_dependencies : ∃ deps, Forall2 (requirement_of (items (cl_Nodes (rs_Closure result)))) (nd_Dependencies node) deps ∧ n2_Dependencies n ≡ₚ deps;
  no_artifact : ∃ a, a ∈ items (rs_Artifacts result) ∧ ba_ID a = nd_ID node ∧ bottle_of a (n2_Bottle n) ∧
    provenance_of (ba_Provenance a) (n2_Provenance n) ∧ n2_ExecutablePaths n = ba_ExecutablePaths a;
  no_source : FormulaID_IsCore (nd_ID node) = false →
    ∃ document f, document ∈ range ∧ f ∈ tc_Formulae document ∧ fm_ID f = nd_ID node ∧ fm_SourceDigest f = b2_CurrentFormulaSourceDigest (n2_Bottle n);
}.

Lemma catalog_node_ok range result node n :
  catalog_node (nodes_by_id (items (cl_Nodes (rs_Closure result)))) (artifacts_by_id (items (rs_Artifacts result))) (formula_sources range) node = Ok n →
  node_of range result node n.
Proof.
  unfold catalog_node. destruct (artifacts_by_id _ !! _) as [a|] eqn:Ha; [|done]. apply keyed_lookup_elem in Ha as [[Hin Hid]|?%lookup_empty_Some]; [|done].
  intros ([] & Hs%check_ok & H)%bind_ok. apply bind_ok in H as (deps & Hd%mapM_res_ok & [= <-]). split; cbn; try done; try (by split_and!).
  - exists deps. split; [|apply (SortFunc_Permutation compareRequirement)]. eapply Forall2_impl; [exact Hd|]. intros q r Hq. unfold convert_requirement in Hq.
    destruct (nodes_by_id _ !! _) as [d|] eqn:Hn; [|done]. apply keyed_lookup_elem in Hn as [[? ?]|?%lookup_empty_Some]; [|done].
    injection Hq as <-. unfold requirement_of. cbn. naive_solver.
  - exists a. split_and!; [done|done|apply convert_bottle_ok| |done]. split; apply converted; [intros v; by split_and!|done].
  - intros Hcore. rewrite Hcore in Hs. cbn in Hs. apply negb_false_iff, bool_decide_eq_true in Hs. by apply formula_sources_lookup.
Qed.

(** A root of the record and the root asked for *)
Definition root_of (nodes : list CatalogClosure.Node) (r : V2RequestedRoot) (q : RequestedRootV2) : Prop :=
  q2_Requested q = vr_Requested r ∧ q2_ID q = vr_ID r ∧ ∃ node, node ∈ nodes ∧ nd_ID node = vr_ID r ∧ q2_KegOnly q = nd_KegOnly node.

Lemma requested_roots_ok nodes seen roots out :
  requested_roots (nodes_by_id nodes) seen roots = Ok out → Forall2 (root_of nodes) roots out ∧ NoDup (vr_ID <$> roots).
Proof.
  intros H. enough (Forall2 (root_of nodes) roots out ∧ NoDup (vr_ID <$> roots) ∧ ∀ x, x ∈ vr_ID <$> roots → x ∉ seen) by naive_solver.
  revert seen out H. induction roots as [|r roots IH]; intros seen out; cbn [requested_roots].
  - intros [= <-]. split_and!; [by constructor|by apply NoDup_nil|by intros ? ?%not_elem_of_nil].
  - intros ([] & Hc%check_ok%bool_decide_eq_false & H)%bind_ok. destruct (nodes_by_id nodes !! vr_ID r) as [node|] eqn:Hn; [|done].
    apply keyed_lookup_elem in Hn as [[Hin Hid]|?%lookup_empty_Some]; [|done].
    apply bind_ok in H as (rest & (H1 & H2 & H3)%IH & [= <-]). cbn. split_and!; [|apply NoDup_cons; set_solver|set_solver].
    constructor; [|done]. split_and!; [done..|]. by exists node.
Qed.

(** The sources of a signed set *)
Lemma reference_sources_ok opts earliest references out :
  reference_sources opts earliest references = Ok out →
  out.1 = reference_source opts <$> references ∧ out.2 = foldl (λ e r, Z.min e (time_Unix (rf_PublishedAt r))) earliest references ∧
  ∀ r, r ∈ references → is_Some (vo_Catalogs opts !! ts_ID (rf_Tap r)).
Proof.
  revert earliest out. induction references as [|r references IH]; intros earliest out; cbn [reference_sources].
  - intros [= <-]. split_and!; [done..|]. by intros ? ?%not_elem_of_nil.
  - intros ([] & Hc%check_ok%bool_decide_eq_false & H)%bind_ok. apply bind_ok in H as (rest & (H1 & H2 & H3)%IH & [= <-]). cbn.
    rewrite H1. split_and!; [done| |].
    + done.
    + intros r' [->|?]%elem_of_cons; [|auto]. by apply not_eq_None_Some.
Qed.

(** The source of the core metadata: its digests, its first verified signature, the
    time it was generated and the floor it was held against *)
Definition core_source_of (opts : V2Options) (s : MetadataSource) : Prop :=
  so_Tap s = "homebrew/core" ∧ so_Commit s = c2_HomebrewCommit (vo_Components opts) ∧ so_CatalogPolicyVersion s = "" ∧ so_Extraction s = None ∧
  so_Documents s =
    [MkMetadataDocument "formula" (sn_FormulaDigest (vo_CoreMetadata opts)) (di_EnvelopeDigest (sn_Formula (vo_CoreMetadata opts)));
     MkMetadataDocument "migrations" (sn_MigrationDigest (vo_CoreMetadata opts)) (di_EnvelopeDigest (sn_Migrations (vo_CoreMetadata opts)))] ∧
  (∃ before sig after, di_Signatures (sn_Formula (vo_CoreMetadata opts)) = before ++ sig :: after ∧ Forall (λ x, si_Verified x = false) before ∧
    si_Verified sig = true ∧ si_KeyID sig ≠ "" ∧ so_Signer s = MkSignature (si_KeyID sig) (si_Algorithm sig) true) ∧
  so_GeneratedAt s = sn_GeneratedAt (vo_CoreMetadata opts) ∧ so_FetchedAt s = sn_FetchedAt (vo_CoreMetadata opts) ∧
    so_Sequence s = uint64 (time_Unix (sn_GeneratedAt (vo_CoreMetadata opts))) ∧
  (so_GeneratedAtSource s = CoreGeneratedAtSignedPayload ↔
    di_GeneratedAtSource (sn_Formula (vo_CoreMetadata opts)) = "signed-payload" ∧ di_GeneratedAtSource (sn_Migrations (vo_CoreMetadata opts)) = "signed-payload") ∧
  so_Rollback s = MkRollbackEvidence CoreMetadataRollbackPolicyV1 (vo_CoreRollbackFloor opts) (sn_Digest (vo_CoreMetadata opts)).

(** The source of a catalog of the signed set *)
Definition signed_source_of (opts : V2Options) (resolvedAt : Z) (reference : CatalogReference) (s : MetadataSource) : Prop :=
  so_Tap s = ts_ID (rf_Tap reference) ∧ so_Commit s = ts_Commit (rf_Tap reference) ∧ is_Some (vo_Catalogs opts !! ts_ID (rf_Tap reference)) ∧
  so_CatalogPolicyVersion s = "tap-catalog-v1" ∧ so_Signer s = vo_CatalogSigner opts ∧ so_Extraction s = None ∧
  so_Documents s =
    [MkMetadataDocument "catalog" (rf_SHA256 reference) ""; MkMetadataDocument "set" (vo_SetPayloadDigest opts) (vo_SetEnvelopeDigest opts)] ∧
  so_GeneratedAt s = rf_PublishedAt reference ∧ so_FetchedAt s = resolvedAt ∧ so_Sequence s = rf_Sequence reference ∧ so_GeneratedAtSource s = "" ∧
  rb_Policy (so_Rollback s) = MetadataRollbackPolicyV1 ∧ rb_StateDigest (so_Rollback s) = rf_SHA256 reference ∧
    rb_SequenceFloor (so_Rollback s) = default 0 (vo_SequenceFloors opts !! ts_ID (rf_Tap reference)).

(** The source of a catalog extracted by this build: the digest is of its bytes. *)
Definition local_source_of (opts : V2Options) (resolvedAt : Z) (entry : string * TapCatalog) (s : MetadataSource) : Prop :=
  so_Tap s = entry.1 ∧ so_Commit s = ts_Commit (tc_Tap entry.2) ∧
  so_CatalogPolicyVersion s = "tap-catalog-v1" ∧ so_Signer s = MkSignature "" "" false ∧
  (∃ bytes, tapCatalogBytes entry.2 = Ok bytes ∧ so_Documents s = [MkMetadataDocument "catalog" (digest_FromBytes bytes) ""] ∧
    so_Rollback s = MkRollbackEvidence BuildLocalRollbackPolicyV1 0 (digest_FromBytes bytes) ∧
    so_Extraction s = Some (MkTapExtractionV2 BuildLocalExtractionPolicyV1 (c2_CatalogExtractorRef (vo_Components opts)) (ts_Repository (tc_Tap entry.2))
      (ts_TreeDigest (tc_Tap entry.2)) (ts_ArchiveDigest (tc_Tap entry.2)) (digest_FromBytes bytes))) ∧
  so_GeneratedAt s = sn_GeneratedAt (vo_CoreMetadata opts) ∧ so_FetchedAt s = resolvedAt ∧ so_Sequence s = 1 ∧ so_GeneratedAtSource s = "".

(** The sources of a record: the core, then one per reference of the signed set, in its
    order, or one per extracted catalog, by tap. The epoch is the earliest time of them. *)
Definition sources_of (opts : V2Options) (resolvedAt : Z) (sources : list MetadataSource) (epoch : Z) : Prop :=
  let times := λ references, time_Unix <$> sn_GeneratedAt (vo_CoreMetadata opts) :: (rf_PublishedAt <$> references) in
  let references := if vo_CatalogPayload opts is Some payload then py_Catalogs payload else [] in
  ∃ core rest, sources = core :: rest ∧ core_source_of opts core ∧ epoch ∈ times references ∧ (∀ t, t ∈ times references → epoch <= t) ∧
    if vo_CatalogPayload opts is Some payload then Forall2 (signed_source_of opts resolvedAt) (py_Catalogs payload) rest
    else ∃ entries, entries ≡ₚ map_to_list (vo_Catalogs opts) ∧ StronglySorted (key_le fst) entries ∧ Forall2 (local_source_of opts resolvedAt) entries rest.

Lemma generated_at_signed documents :
  generated_at_source documents = CoreGeneratedAtSignedPayload ↔ Forall (λ d, di_GeneratedAtSource d = "signed-payload") documents.
Proof.
  induction documents as [|d l IH]; cbn; [done|]. rewrite Forall_cons. case_bool_decide as H1.
  - rewrite H1. split; [by intros|by intros [? _]].
  - case_bool_decide as H2; [|split; [by intros|by intros [? _]]]. rewrite IH. naive_solver.
Qed.

Lemma core_source_ok opts :
  bool_decide (sg_KeyID (core_signature (vo_CoreMetadata opts)) = "") = false →
  core_source_of opts (core_source (vo_CoreMetadata opts) (c2_HomebrewCommit (vo_Components opts)) (vo_CoreRollbackFloor opts)).
Proof.
  intros Hk%bool_decide_eq_false. unfold core_source_of. split_and!; try done.
  2: { cbn [core_source so_GeneratedAtSource]. unfold coreGeneratedAtSource. rewrite generated_at_signed, !Forall_cons, Forall_nil. naive_solver. }
  unfold core_source, core_signature in *. cbn in *.
  induction (di_Signatures _) as [|x l IH]; [done|]. cbn in *. destruct (si_Verified x) eqn:Hx.
  - exists [], x, l. by split_and!.
  - destruct IH as (before & sig & after & -> & Hb & Hr); [done|]. exists (x :: before), sig, after. destruct Hr as (? & ? & ?). split_and!; [done|by constructor|done..].
Qed.

Lemma earliest_min earliest references :
  let m := foldl (λ e r, Z.min e (time_Unix (rf_PublishedAt r))) earliest references in
  m ∈ earliest :: (time_Unix <$> (rf_PublishedAt <$> references)) ∧ ∀ t, t ∈ earliest :: (time_Unix <$> (rf_PublishedAt <$> references)) → m <= t.
Proof.
  revert earliest. induction references as [|r l IH]; intros e; cbn; [set_solver|]. destruct (IH (e `min` time_Unix (rf_PublishedAt r))) as [H1 H2]. split.
  - apply elem_of_cons in H1 as [->|H1]; [|set_solver]. destruct (Z.min_spec e (time_Unix (rf_PublishedAt r))) as [[_ ->]|[_ ->]]; set_solver.
  - assert (∀ t, e `min` time_Unix (rf_PublishedAt r) <= t → foldl (λ e r, Z.min e (time_Unix (rf_PublishedAt r))) (e `min` time_Unix (rf_PublishedAt r)) l <= t)
      as Hm by (intros t Ht; etrans; [apply H2; by left|done]).
    intros t [->|[->|Ht]%elem_of_cons]%elem_of_cons; [apply Hm; lia..|]. apply H2. by right.
Qed.

Lemma metadataSourcesV2_ok opts sources epoch :
  metadataSourcesV2 opts = Ok (sources, epoch) → sources_of opts (vo_ResolvedAt opts) sources epoch.
Proof.
  unfold metadataSourcesV2. intros ([] & _ & H)%bind_ok. apply bind_ok in H as ([] & Hk%check_ok%core_source_ok & H). apply bind_ok in H as ([] & _ & H).
  unfold sources_of. destruct (vo_CatalogPayload opts) as [payload|].
  - apply bind_ok in H as ([] & _ & H). apply bind_ok in H as (out & (Ho & He & Hc)%reference_sources_ok & [= <- <-]).
    eexists _, _. split_and!; [reflexivity|exact Hk|rewrite He; apply earliest_min..|]. rewrite Ho. apply Forall2_fmap_r, Forall_Forall2_diag, Forall_forall.
    intros r Hr. unfold signed_source_of. split_and!; try done. by apply Hc.
  - apply bind_ok in H as (out & Ho%mapM_res_ok & [= <- <-]). eexists _, _. split_and!; [reflexivity|exact Hk|by left|set_solver by lia|].
    exists (sort_by fst (map_to_list (vo_Catalogs opts))). split_and!; [apply sort_by_Permutation|apply sort_by_StronglySorted|].
    eapply Forall2_impl; [exact Ho|]. intros [tap document] s (bytes & Hb%map_err_ok & [= <-])%bind_ok. unfold local_source_of. split_and!; try done. by exists bytes.
Qed.

End faithful.

(** C9: A record made from a catalog result is valid and says what was verified and
    nothing else. It has one node per node of the closure, in its order, each with that
    node's identity, versions, revisions, rebuild, license, keg-only flag and
    requirements, and with the bottle of the artifact selected for it, field by field
    (file, digest, tab with its dependencies, source, verification, transports,
    provenance, prebuilt evidence); a third-party node was built from the Formula source
    its catalog states. The install order is the closure's and the roots are those asked
    for, each once. The metadata sources are the core's documents and one source per
    catalog, the references of a signed set or the catalogs extracted by the build, with
    the digests, signer, sequences and floors; the epoch is the earliest of their times;
    input, components and runtime policy are those of the call, with one writable path
    per node. *)
Theorem RecordV2FromCatalog_faithful
  `{U : !UnicodeTables, G : !GoDigest, R : !DistributionReference, N : !NetURL, I : !NetIP, D : !Digester, J : !TapCatalogJSON}
  clock range result requested opts record
  (Hok : RecordV2FromCatalog clock range result requested opts = Ok record) :
  record_wf2 record ∧
  Forall2 (node_of range result) (items (cl_Nodes (rs_Closure result))) (v2_Nodes record) ∧
  v2_InstallOrder record = items (cl_InstallOrder (rs_Closure result)) ∧
  Forall2 (root_of (items (cl_Nodes (rs_Closure result)))) requested (v2_Requested record) ∧ NoDup (vr_ID <$> requested) ∧
  v2_ResolvedAt record = (if vo_ResolvedAt opts =? 0 then clock else vo_ResolvedAt opts) ∧
  sources_of opts (v2_ResolvedAt record) (v2_MetadataSources record) (v2_SourceDateEpoch record) ∧
  in_DalecSpecDigest (v2_Input record) = vo_SpecDigest opts ∧ in_TargetKey (v2_Input record) = vo_TargetKey opts ∧
  platform_of (rs_Platform result) (in_Platform (v2_Input record)) ∧ v2_Components record = vo_Components opts ∧ v2_PruningPolicyDigest record = "" ∧
  (∃ writable, v2_Runtime record = MkRuntimePolicy (rp_Profile (vo_Runtime opts)) (rp_User (vo_Runtime opts)) (rp_UID (vo_Runtime opts))
      (rp_GID (vo_Runtime opts)) (rp_GeneratedPATH (vo_Runtime opts)) writable (rp_CPUBaseline (vo_Runtime opts)) ∧
    writable ≡ₚ (λ node, "/home/linuxbrew/.linuxbrew/var/" +:+ nd_Name node) <$> items (cl_Nodes (rs_Closure result))).
Proof.
  unfold RecordV2FromCatalog in Hok. apply bind_ok in Hok as (? & _ & H). do 3 apply bind_ok in H as (? & _ & H).
  apply bind_ok in H as (nodes & Hn%mapM_res_ok & H). apply bind_ok in H as (roots & (Hr & Hnd)%requested_roots_ok & H).
  apply bind_ok in H as (? & _ & H). apply bind_ok in H as ([sources epoch] & Hs%metadataSourcesV2_ok & H). unfold valid_record in H.
  destruct (ValidateV2 _) eqn:Hv; [|done]. injection H as <-. apply ValidateV2_nil in Hv.
  assert (Forall2 (node_of range result) (items (cl_Nodes (rs_Closure result))) nodes) as Hnodes
    by (eapply Forall2_impl; [exact Hn|]; intros ? ?; apply catalog_node_ok).
  split_and!; [done..|exact Hs|done|done|by split_and!|done|done|]. eexists. split; [reflexivity|]. unfold writable_paths. rewrite slices_Sort_Permutation. clear - Hnodes.
  induction Hnodes as [|node n l k Hno _ IH]; [done|]. cbn. rewrite IH. by destruct (no_identity _ _ _ _ Hno) as (_ & _ & -> & _).
Qed.

(** ** Upgrading a core record and viewing it by rack *)

Section upgrade.
Context `{U : !UnicodeTables, G : !GoDigest, R : !DistributionReference, N : !NetURL, I : !NetIP, DJ : !DerivationJSON}.

(** A node of the first version and the node it is upgraded to *)
Definition upgraded (n : Resolution.Node) (n2 : NodeV2) : Prop := ∃ digest, core_node digest n = Ok n2.

Lemma upgraded_name n n2 : upgraded n n2 → parse_id (n_Name n) = Ok (n2_ID n2) ∧ n2_Name n2 = n_Name n ∧ b2_PrebuiltDerivation (n2_Bottle n2) = None.
Proof. intros (digest & (id & Hid & H)%bind_ok). do 3 apply bind_ok in H as (? & _ & H). injection H as <-. by split_and!. Qed.

Lemma RecordV2FromCore_steps core components info floor record :
  RecordV2FromCore core components info floor = Ok record →
  Resolution.Validate core = [] ∧ ValidateV2 record = [] ∧ Forall2 upgraded (r_Nodes core) (v2_Nodes record) ∧
  Forall2 (λ a b, core_root a = Ok b) (r_Requested core) (v2_Requested record) ∧
  Forall2 (λ a b, parse_id a = Ok b) (r_InstallOrder core) (v2_InstallOrder record) ∧
  v2_Input record = r_Input core ∧ v2_ResolvedAt record = r_ResolvedAt core ∧ v2_SourceDateEpoch record = r_SourceDateEpoch core ∧
  v2_Runtime record = r_Runtime core ∧ v2_PruningPolicyDigest record = "".
Proof.
  unfold RecordV2FromCore. intros (? & Hc & H)%bind_ok. destruct (Resolution.Validate core); [|done].
  apply bind_ok in H as (nodes & Hn%mapM_res_ok & H). apply bind_ok in H as (roots & Hr%mapM_res_ok & H).
  apply bind_ok in H as (order & Ho%mapM_res_ok & H). apply bind_ok in H as (? & _ & H). unfold valid_record in H.
  destruct (ValidateV2 _) eqn:Hv; [|done]. injection H as <-. split_and!; try done. eapply Forall2_impl; [exact Hn|]. intros ? ? Hu. by exists (sn_FormulaDigest info).
Qed.

(** The rack of an upgraded name is the name. *)
Lemma upgraded_rack core record name id :
  record_wf2 record → Forall2 upgraded (r_Nodes core) (v2_Nodes record) → name ∈ n_Name <$> r_Nodes core → parse_id name = Ok id → rack record id = name.
Proof.
  intros Hw Hf (n & -> & Hn)%list_elem_of_fmap Hp. apply list_elem_of_lookup in Hn as [i Hi].
  destruct (Forall2_lookup_l _ _ _ _ _ Hf Hi) as (n2 & Hn2 & (Hid & Hname & _)%upgraded_name). rewrite Hp in Hid. injection Hid as ->.
  rewrite rack_name; [done|done|]. by eapply list_elem_of_lookup_2.
Qed.

Lemma upgraded_names core record {A B} (name : A → string) (id : B → string) (l : list A) (k : list B) :
  record_wf2 record → Forall2 upgraded (r_Nodes core) (v2_Nodes record) → (∀ a, a ∈ l → name a ∈ n_Name <$> r_Nodes core) →
  Forall2 (λ a b, parse_id (name a) = Ok (id b)) l k → (λ b, rack record (id b)) <$> k = name <$> l.
Proof.
  intros Hw Hf Hin Hall. induction Hall as [|a b l k Hab _ IH]; [done|]. cbn. rewrite IH by set_solver. f_equal.
  eapply upgraded_rack; [done|exact Hf| |exact Hab]. apply Hin. by left.
Qed.

(** The view, loop by loop *)
Lemma ProjectV2ForRuntime_steps record view racks :
  ProjectV2ForRuntime record = Ok (view, racks) →
  Forall2 (λ n m, project_node (nodes2_by_id (v2_Nodes record)) n = Ok m) (v2_Nodes record) (r_Nodes view) ∧
  r_Requested view = (λ q, MkRequestedRoot (q2_Requested q) (rack record (q2_ID q)) (q2_KegOnly q)) <$> v2_Requested record ∧
  r_Input view = v2_Input record ∧ r_ResolvedAt view = v2_ResolvedAt record ∧ r_SourceDateEpoch view = v2_SourceDateEpoch record ∧
  r_Runtime view = v2_Runtime record ∧ r_PruningPolicyDigest view = v2_PruningPolicyDigest record.
Proof.
  unfold ProjectV2ForRuntime. intros (? & _ & H)%bind_ok. apply bind_ok in H as (? & _ & H). apply bind_ok in H as (nodes & Hn%mapM_res_ok & H).
  injection H as <- <-. by split_and!.
Qed.

(** A requirement comes back as it was. *)
Lemma requirement_back core record q r q' :
  record_wf2 record → Forall2 upgraded (r_Nodes core) (v2_Nodes record) → rq_Name q ∈ n_Name <$> r_Nodes core →
  core_requirement q = Ok r → project_requirement (nodes2_by_id (v2_Nodes record)) r = Ok q' → q' = q.
Proof.
  intros Hw Hf Hin (id & Hid & [= <-])%bind_ok Hp. pose proof (upgraded_rack _ _ _ _ Hw Hf Hin Hid) as Hr.
  unfold project_requirement, rack, rack_by_id in *. cbn in Hp. rewrite lookup_fmap in Hr. destruct (nodes2_by_id _ !! id) as [d|]; [|done].
  cbn in Hr. injection Hp as <-. rewrite Hr. by destruct q.
Qed.

Lemma requirements_back core record l k l' :
  record_wf2 record → Forall2 upgraded (r_Nodes core) (v2_Nodes record) → (∀ q, q ∈ l → rq_Name q ∈ n_Name <$> r_Nodes core) →
  mapM_res core_requirement l = Ok k → mapM_res (project_requirement (nodes2_by_id (v2_Nodes record))) k = Ok l' → l' = l.
Proof.
  intros Hw Hf Hin Hk%mapM_res_ok Hl'%mapM_res_ok. revert l' Hl'. induction Hk as [|q r l k Hq _ IH]; intros l' Hl'.
  - by apply Forall2_nil_inv_l in Hl'.
  - apply Forall2_cons_inv_l in Hl' as (q' & l'' & Hq' & Hl' & ->). f_equal; [|apply IH; [set_solver|done]].
    eapply requirement_back; [exact Hw|exact Hf| |exact Hq|exact Hq']. apply Hin. by left.
Qed.

(** A dependency of the build keeps everything; its name becomes an identity. *)
Definition same_dependency (d d' : RuntimeDependency) : Prop :=
  ParseFormulaID (rd_FullName d) = Ok (rd_FullName d') ∧ rd_Version d' = rd_Version d ∧ rd_Revision d' = rd_Revision d ∧
  rd_BottleRebuild d' = rd_BottleRebuild d ∧ rd_PkgVersion d' = rd_PkgVersion d ∧ rd_DeclaredDirectly d' = rd_DeclaredDirectly d.

(** The node that comes back: the same but for its names, which become identities, the
    repository, which loses the registry, the digest, which is the layer's, and the
    annotations, which are not kept. *)
Definition back (n m : Resolution.Node) : Prop :=
  let b := n_Bottle n in let tab := bt_Tab b in
  ∃ id upstream deps, ParseFormulaID (n_Name n) = Ok id ∧
    (n_UpstreamFormulaID n = "" ∧ upstream = "" ∨ ParseFormulaID (n_UpstreamFormulaID n) = Ok upstream) ∧
    Forall2 same_dependency (tab_Dependencies tab) deps ∧
    m = Resolution.MkNode (n_Name n) id (n_FormulaVersion n) (n_FormulaRevision n) (n_PkgVersion n) (n_VersionScheme n) (n_BottleRebuild n)
      (n_License n) (n_KegOnly n) (n_Dependencies n)
      (Resolution.MkBottle (bt_Tag b) (bt_Filename b) (strings_TrimPrefix (bt_Repository b) "ghcr.io/") (bt_Index b) (bt_Manifest b) (bt_Config b)
         (bt_Layer b) (d_Digest (bt_Layer b)) (bt_Cellar b)
         (Resolution.MkBottleTab (tab_HomebrewVersion tab) (tab_Arch tab) (tab_Compiler tab) (tab_ChangedFiles tab) (tab_BuiltOn tab) deps) [])
      (n_ExecutablePaths n) upstream id.

Lemma node_back core record n n2 m :
  record_wf2 record → Forall2 upgraded (r_Nodes core) (v2_Nodes record) → (∀ q, q ∈ n_Dependencies n → rq_Name q ∈ n_Name <$> r_Nodes core) →
  upgraded n n2 → project_node (nodes2_by_id (v2_Nodes record)) n2 = Ok m → back n m.
Proof.
  intros Hw Hf Hin (digest & (id & Hid%map_err_ok & H)%bind_ok) Hp. apply bind_ok in H as (deps & Hd & H). apply bind_ok in H as (tab & Ht%mapM_res_ok & H).
  apply bind_ok in H as (upstream & Hu & [= <-]). apply bind_ok in Hp as (deps' & Hd' & Hp). cbn in Hd', Hp.
  rewrite (requirements_back _ _ _ _ _ Hw Hf Hin Hd Hd') in Hp. injection Hp as <-. exists id, upstream, (project_tab_dependency <$> tab). split_and!.
  - exact Hid.
  - destruct (bool_decide_reflect (n_UpstreamFormulaID n = "")); [left; by injection Hu as <-|right; by apply map_err_ok in Hu].
  - apply Forall2_fmap_r. eapply Forall2_impl; [exact Ht|]. intros d d2 (i & Hi%map_err_ok & [= <-])%bind_ok. by split_and!.
  - done.
Qed.

End upgrade.

(** C12: Upgrading a core record and viewing the result by rack gives the record back:
    the view exists; its roots, its install order, its input, times and runtime policy
    are those of the record, and it has the same nodes in the same order, each with the
    same versions, revisions, rebuild, license, keg-only flag, requirements, executables,
    descriptors, file name, cellar and build tab. Only what [back] names differs: Formula
    names become identities, the repository loses the registry, the checksum is the
    layer's digest and the annotations are dropped. *)
Theorem core_upgrade_roundtrip
  `{U : !UnicodeTables, G : !GoDigest, R : !DistributionReference, N : !NetURL, I : !NetIP, DJ : !DerivationJSON} core components info floor record
  (Hok : RecordV2FromCore core components info floor = Ok record) :
  ∃ view racks, ProjectV2ForRuntime record = Ok (view, racks) ∧
    r_InstallOrder view = r_InstallOrder core ∧ r_Requested view = r_Requested core ∧ Forall2 back (r_Nodes core) (r_Nodes view) ∧
    r_Input view = r_Input core ∧ r_ResolvedAt view = r_ResolvedAt core ∧ r_SourceDateEpoch view = r_SourceDateEpoch core ∧
    r_Runtime view = r_Runtime core.
Proof.
  destruct (RecordV2FromCore_steps _ _ _ _ _ Hok) as (Hc%Resolution.Validate_nil & Hv & Hn & Hr & Ho & Hin & Hat & Hep & Hrt & _).
  pose proof (proj1 (ValidateV2_nil record) Hv) as Hw. pose proof (rw_closure _ Hc) as Hcl.
  destruct (project_view record Hv) as (view & Hp & _ & _ & Horder).
  { intros n2 Hn2. apply list_elem_of_lookup in Hn2 as [i Hi]. destruct (Forall2_lookup_r _ _ _ _ _ Hn Hi) as (n & _ & (_ & _ & ->)%upgraded_name). done. }
  destruct (ProjectV2ForRuntime_steps _ _ _ Hp) as (Hview & Hroots & ? & ? & ? & ? & _).
  exists view, (rack_by_id (v2_Nodes record)). split_and!; [done| | | |congruence..].
  - rewrite Horder, <- (list_fmap_id (r_InstallOrder core)). eapply (upgraded_names core record id id); try done.
    intros a Ha. by rewrite <- (cw_order Hcl).
  - rewrite Hroots. assert (∀ a, a ∈ r_Requested core → rr_Canonical a ∈ n_Name <$> r_Nodes core) as Hrin
      by (intros a Ha; by apply (cw_roots Hcl), list_elem_of_fmap_2).
    clear - Hw Hn Hr Hrin. induction Hr as [|a q l k (id & Hid & [= <-])%bind_ok _ IH]; [done|]. cbn. rewrite IH by set_solver.
    rewrite (upgraded_rack _ _ (rr_Canonical a) id Hw Hn) by (try done; apply Hrin; by left). by destruct a.
  - apply Forall2_same_length_lookup. split; [by rewrite (Forall2_length _ _ _ Hn), (Forall2_length _ _ _ Hview)|]. intros i n m Hi Hj.
    destruct (Forall2_lookup_l _ _ _ _ _ Hn Hi) as (n2 & Hi2 & Hu). pose proof (Forall2_lookup_lr _ _ _ _ _ _ Hview Hi2 Hj) as Hm.
    eapply node_back; [exact Hw|exact Hn| |exact Hu|exact Hm]. apply list_elem_of_lookup_2 in Hi.
    intros q Hq. apply (cw_deps Hcl (n_Name n)), edge_list_succ. exists n. split_and!; [done..|]. by apply list_elem_of_fmap_2.
Qed.

(** ** Concrete records *)

Module V2Example.

Definition references : DistributionReference :=
  {| reference_ParseNormalizedNamed s :=
       let '(name, d, found) := strings_Cut s "@" in
       if found : bool then Some (MkNamed "ghcr.io" name false (Some d))
       else let '(domain, path, _) := strings_Cut s "/" in Some (MkNamed domain path false None) |}.

Definition derivations : DerivationJSON := {| marshal_derivation _ := Some "{}" |}.

Definition document : DocumentInfo := MkDocumentInfo "" example_digest "signed-payload" [MkSignatureInfo "homebrew-1" "PS512" true].

Definition info (now : Z) : SnapshotInfo := MkSnapshotInfo example_digest example_digest example_digest now now document document.

(** The result, the catalog and the reference of [CatalogSet.Example], published at the
    time of the core metadata *)
Definition reference : CatalogReference :=
  MkCatalogReference CatalogTap.Example.source example_v2.now 1 ("https://catalog.example.com/v1/catalogs/sha256/" +:+ CatalogRequest.Example.hex64) 7
    CatalogTap.Example.digest.

Definition payload : CatalogSetPayload :=
  let component name := MkComponentIdentity name "1" CatalogTap.Example.digest in
  MkCatalogSetPayload CatalogSetSchemaVersion CatalogTap.Example.digest CatalogTap.Example.digest example_v2.now (example_v2.now + 1000)
    (component "service") (component "extractor") [reference] [CatalogSet.Example.result].

Definition opts : V2Options :=
  MkV2Options example_digest "" example_v2.now (info example_v2.now) (Some payload) {["azure/tools" := CatalogSet.Example.catalog]}
    (MkSignature "key-1" "PS512" true) example_v2.components (v2_Runtime example_v2.record) {["azure/tools" := 1]} 0 example_digest example_digest.

Definition made : Prelude.result v2_error RecordV2 :=
  RecordV2FromCatalog (U := ascii_tables) (G := sha256_only) (R := references) (N := https_only) (I := no_literals) (D := CatalogSet.Example.digester)
    (J := CatalogSet.Example.catalogs) 0 [CatalogSet.Example.catalog] CatalogSet.Example.result
    [MkV2RequestedRoot "azure/tools/application" "azure/tools/app"] opts.

(** The resolved core record of [Resolver.Example], under a release that allows core bottles *)
Definition components : ComponentsV2 :=
  let c := example_v2.components in
  MkComponentsV2 (c2_FrontendIndexRef c) (c2_FrontendRef c) (c2_RuntimeBaseRef c) (c2_MaterializerRef c) (c2_BottleFetcherRef c) "" (c2_CatalogServiceOrigin c)
    (c2_IngestionJWSKeyPolicyDigest c) (c2_TapPolicyDigest c) (c2_ExecutableRuntimePolicyDigest c) (c2_HomebrewCommit c) (c2_RubyRuntime c)
    (c2_VerificationKeys c) (c2_DalecModule c) (c2_BuildKitModule c) (c2_SupportedCatalogPolicyVersions c) (c2_SupportedFetchPolicyVersions c)
    [CoreProvenanceWaiverPolicyV1; HTTPSBottleSourceWaiverPolicyV1; ProvenanceWaiverPolicyV1].

Definition core : Record_ := default (example_record []) Resolver.Example.record.

Definition upgrade : Prelude.result v2_error RecordV2 :=
  RecordV2FromCore (U := ascii_tables) (G := sha256_only) (R := references) (N := https_only) (I := no_literals) core components
    (info Resolver.Example.now) 0.

Lemma made_ok : is_ok made = true.
Proof. vm_compute. reflexivity. Qed.

Lemma upgrade_ok : is_ok upgrade = true.
Proof. vm_compute. reflexivity. Qed.

End V2Example.

Lemma ProjectV2ForRuntime_closure_witness :
  ∃ view racks, ProjectV2ForRuntime (U := ascii_tables) (G := sha256_only) (R := pinned_only) (N := https_only) (I := no_literals)
      (DJ := V2Example.derivations) example_v2.record = Ok (view, racks) ∧ racks !! "acme/tools/widget" = Some "widget".
Proof.
  destruct (ProjectV2ForRuntime_closure (U := ascii_tables) (G := sha256_only) (R := pinned_only) (N := https_only) (I := no_literals)
    (DJ := V2Example.derivations) example_v2.record example_v2.valid) as (view & racks & Hp & _ & _ & Hr).
  - intros n ->%list_elem_of_singleton. reflexivity.
  - exists view, racks. split; [exact Hp|]. apply (Hr example_v2.node). by left.
Defined.

Lemma RecordV2FromCatalog_faithful_witness :
  ∃ record, V2Example.made = Ok record ∧ v2_InstallOrder record = ["azure/tools/lib"; "azure/tools/app"].
Proof.
  pose proof V2Example.made_ok as Hok. destruct V2Example.made as [record|e] eqn:Hm; [|discriminate Hok]. exists record. split; [reflexivity|].
  destruct (RecordV2FromCatalog_faithful (U := ascii_tables) (G := sha256_only) (R := V2Example.references) (N := https_only) (I := no_literals)
    (D := CatalogSet.Example.digester) (J := CatalogSet.Example.catalogs) 0 [CatalogSet.Example.catalog] CatalogSet.Example.result
    [MkV2RequestedRoot "azure/tools/application" "azure/tools/app"] V2Example.opts record Hm) as (_ & _ & Ho & _).
  exact Ho.
Defined.

Lemma core_upgrade_roundtrip_witness :
  ∃ record view racks, V2Example.upgrade = Ok record ∧
    ProjectV2ForRuntime (U := ascii_tables) (G := sha256_only) (R := V2Example.references) (N := https_only) (I := no_literals)
      (DJ := V2Example.derivations) record = Ok (view, racks) ∧ r_InstallOrder view = r_InstallOrder V2Example.core.
Proof.
  pose proof V2Example.upgrade_ok as Hok. destruct V2Example.upgrade as [record|e] eqn:Hm; [|discriminate Hok].
  destruct (core_upgrade_roundtrip (U := ascii_tables) (G := sha256_only) (R := V2Example.references) (N := https_only) (I := no_literals)
    (DJ := V2Example.derivations) V2Example.core V2Example.components (V2Example.info Resolver.Example.now) 0 record Hm) as (view & racks & Hp & Ho & _).
  exists record, view, racks. split; [reflexivity|]. split; [exact Hp|exact Ho].
Defined.
