(* ===== verification/ResolutionV2Text.v ===== *)
(** * internal/resolution: the canonical text of a record of the second version

    [CanonicalV2] prints a record with its set-like fields sorted, [DigestV2] hashes
    that text and [DecodeV2] accepts a text only if the record it holds prints as that
    text again. The runtime profile is not part of the text. *)

From S2P Require Import Prelude GoStrings JsonUnique NetUrl FormulaId Graph ClosureGraph Resolution Resolver FetchPolicy CatalogFields CatalogRequest.
From S2P Require Import CatalogTap CatalogClosure CatalogArtifact CatalogSet CatalogPayload ResolutionV2 ResolutionV2Facts ResolverV2.
From stdpp Require Import options.
Import resolver_v2.
Local Open Scope Z_scope.

Module resolution_v2.

(** ** The canonical order *)

Definition compareDocument : MetadataDocument → MetadataDocument → Z :=
  cmp_then (cmp_on md_Name strings_Compare) (cmp_then (cmp_on md_Digest strings_Compare) (cmp_on md_EnvelopeDigest strings_Compare)).

Definition compareSource : MetadataSource → MetadataSource → Z :=
  cmp_then (cmp_on so_Tap strings_Compare) (cmp_on so_Commit strings_Compare).

Definition compareNode : NodeV2 → NodeV2 → Z := cmp_on n2_ID strings_Compare.

Definition compareTabDependency : RuntimeDependencyV2 → RuntimeDependencyV2 → Z :=
  cmp_then (cmp_on t2_ID strings_Compare) (cmp_on t2_PkgVersion strings_Compare).

Definition compareKV : KV → KV → Z := cmp_then (cmp_on kv_Key strings_Compare) (cmp_on kv_Value strings_Compare).

Definition canonicalize_components (c : ComponentsV2) : ComponentsV2 :=
  MkComponentsV2 (c2_FrontendIndexRef c) (c2_FrontendRef c) (c2_RuntimeBaseRef c) (c2_MaterializerRef c) (c2_BottleFetcherRef c)
    (c2_CatalogExtractorRef c) (c2_CatalogServiceOrigin c) (c2_IngestionJWSKeyPolicyDigest c) (c2_TapPolicyDigest c)
    (c2_ExecutableRuntimePolicyDigest c) (c2_HomebrewCommit c) (c2_RubyRuntime c) (c2_VerificationKeys c) (c2_DalecModule c) (c2_BuildKitModule c)
    (slices_Sort (c2_SupportedCatalogPolicyVersions c)) (slices_Sort (c2_SupportedFetchPolicyVersions c))
    (slices_Sort (c2_SupportedProvenancePolicyVersions c)).

Definition canonicalize_source2 (s : MetadataSource) : MetadataSource :=
  MkMetadataSource (so_Tap s) (so_Commit s) (so_CatalogPolicyVersion s) (so_Signer s) (so_Extraction s) (slices_SortFunc compareDocument (so_Documents s))
    (so_GeneratedAt s) (so_GeneratedAtSource s) (so_FetchedAt s) (so_Sequence s) (so_Rollback s).

Definition canonicalize_tab2 (t : BottleTabV2) : BottleTabV2 :=
  MkBottleTabV2 (tab2_Receiptless t) (tab2_HomebrewVersion t) (tab2_Arch t) (tab2_Compiler t) (slices_Sort (tab2_ChangedFiles t)) (tab2_BuiltOn t)
    (slices_SortFunc compareTabDependency (tab2_Dependencies t)).

Definition canonicalize_transport2 (t : BottleTransportV2) : BottleTransportV2 :=
  MkBottleTransportV2 (tr2_OCI t) (sort_hosts <$> tr2_HTTPS t) (tr2_Local t).

Definition canonicalize_bottle2 (b : BottleV2) : BottleV2 :=
  MkBottleV2 (b2_Tag b) (b2_Filename b) (b2_Size b) (b2_SHA256 b) (b2_Cellar b) (canonicalize_tab2 (b2_Tab b))
    (slices_SortFunc compareKV (b2_SelectedAnnotations b)) (b2_CurrentFormulaSourceDigest b) (b2_BottleFormulaSourceDigest b)
    (b2_BottleSourceRepository b) (b2_BottleSourceCommit b) (b2_BottleFormulaPath b) (b2_BottleSourceWaiver b) (b2_Verification b)
    (canonicalize_transport2 (b2_Transport b)) (sort_derivation <$> b2_PrebuiltDerivation b).

Definition canonicalize_node2 (n : NodeV2) : NodeV2 :=
  MkNodeV2 (n2_ID n) (n2_Tap n) (n2_Name n) (n2_HomebrewFullName n) (n2_FormulaVersion n) (n2_FormulaRevision n) (n2_PkgVersion n) (n2_VersionScheme n)
    (n2_BottleRebuild n) (n2_License n) (n2_KegOnly n) (slices_SortFunc compareRequirement (n2_Dependencies n)) (canonicalize_bottle2 (n2_Bottle n))
    (n2_Provenance n) (slices_Sort (n2_ExecutablePaths n)) (n2_UpstreamFormulaID n).

(** Times are instants here, so that rounding and the zone do not change them. *)
Definition canonicalizeV2 (r : RecordV2) : RecordV2 :=
  MkRecordV2 (v2_SchemaVersion r) (v2_PolicyVersion r) (v2_Input r)
    (slices_SortFunc compareSource (canonicalize_source2 <$> v2_MetadataSources r)) (v2_ResolvedAt r) (v2_SourceDateEpoch r) (v2_Requested r)
    (canonicalize_node2 <$> slices_SortFunc compareNode (v2_Nodes r)) (v2_InstallOrder r) (canonicalize_components (v2_Components r))
    (with_writable (v2_Runtime r) (slices_Sort (rp_WritablePaths (v2_Runtime r)))) (v2_PruningPolicyDigest r).

(** ** Texts *)

(** The profile has no JSON name: it is lost in a text. *)
Definition without_profile (r : RecordV2) : RecordV2 :=
  let p := v2_Runtime r in
  MkRecordV2 (v2_SchemaVersion r) (v2_PolicyVersion r) (v2_Input r) (v2_MetadataSources r) (v2_ResolvedAt r) (v2_SourceDateEpoch r) (v2_Requested r)
    (v2_Nodes r) (v2_InstallOrder r) (v2_Components r)
    (MkRuntimePolicy "" (rp_User p) (rp_UID p) (rp_GID p) (rp_GeneratedPATH p) (rp_WritablePaths p) (rp_CPUBaseline p)) (v2_PruningPolicyDigest r).

(** encoding/json on records: the tokens of a text, what is printed for a record (whose
    profile is not read), the strict decoder and the schema discriminator *)
Class RecordV2JSON := {
  record2_tokens : string → decoder;
  encodeRecordV2 : RecordV2 → option string;
  decodeRecordV2 : string → option RecordV2;
  decodeSchema : string → option string;
}.

Inductive text_error := TextInvalid (errs : list string) | TextEncoding | TextSize | TextDuplicate | TextUndecodable | TextNotCanonical | TextNoSchema.

Section text.
Context `{U : !UnicodeTables, G : !GoDigest, R : !DistributionReference, N : !NetURL, I : !NetIP, D : !Digester, J : !RecordV2JSON}.

Definition valid2 (r : RecordV2) : result text_error unit := match ValidateV2 r with [] => Ok tt | errs => Err (TextInvalid errs) end.

Definition CanonicalV2 (r : RecordV2) : result text_error string :=
  let c := canonicalizeV2 r in
  _ ← valid2 c;
  match encodeRecordV2 (without_profile c) with Some data => Ok data | None => Err TextEncoding end.

Definition DigestV2 (r : RecordV2) : result text_error string := data ← CanonicalV2 r; Ok (digest_FromBytes data).

Definition DecodeV2 (data : string) : result text_error RecordV2 :=
  _ ← check (maxResolutionV2Bytes <? strlen data) TextSize;
  _ ← check (negb (is_ok (validateUniqueJSONV2 (record2_tokens data)))) TextDuplicate;
  match decodeRecordV2 data with
  | None => Err TextUndecodable
  | Some decoded =>
      let r := canonicalizeV2 decoded in
      _ ← valid2 r;
      canonical ← CanonicalV2 r;
      _ ← check (negb (bool_decide (data = canonical))) TextNotCanonical;
      Ok r
  end.

Definition SchemaVersionOf (data : string) : result text_error string :=
  match decodeSchema data with
  | None => Err TextUndecodable
  | Some schema => _ ← check (bool_decide (schema = "")) TextNoSchema; Ok schema
  end.

End text.

End resolution_v2.

Import resolution_v2.

(** ** The canonical form is stable *)

#[export] Instance compareDocument_order : CmpOrder compareDocument.
Proof. unfold compareDocument. apply _. Qed.
#[export] Instance compareDocument_total : CmpTotal compareDocument.
Proof.
  apply cmp_then_total. intros [] [] H1 H2. unfold cmp_on, cmp_then in *. cbn in *. apply Compare_eq in H1. subst.
  destruct (strings_Compare _ _ =? 0) eqn:E in H2; cbn in H2; [|by rewrite H2 in E]. apply Z.eqb_eq, Compare_eq in E. apply Compare_eq in H2. congruence.
Qed.
#[export] Instance compareSource_order : CmpOrder compareSource.
Proof. unfold compareSource. apply _. Qed.
#[export] Instance compareNode_order : CmpOrder compareNode.
Proof. unfold compareNode. apply _. Qed.
#[export] Instance compareRequirement2_order : CmpOrder resolver_v2.compareRequirement.
Proof. unfold resolver_v2.compareRequirement. apply _. Qed.
#[export] Instance compareTabDependency_order : CmpOrder compareTabDependency.
Proof. unfold compareTabDependency. apply _. Qed.
#[export] Instance compareKV_order : CmpOrder compareKV.
Proof. unfold compareKV. apply _. Qed.
#[export] Instance compareKV_total : CmpTotal compareKV.
Proof. apply cmp_then_total. intros [] []. unfold cmp_on. cbn. rewrite !Compare_eq. congruence. Qed.

(** A comparison that first compares a key tells values with different keys apart. *)
Lemma cmp_then_key {A} (key : A → string) (cmp : A → A → Z) x y : cmp_then (cmp_on key strings_Compare) cmp x y = 0 → key x = key y.
Proof.
  unfold cmp_then, cmp_on. destruct (strings_Compare (key x) (key y) =? 0) eqn:E; intros H; apply Compare_eq; [by apply Z.eqb_eq|]. cbn in H. done.
Qed.

Lemma SortFunc_keyed {A} (key : A → string) (cmp : A → A → Z) `{!CmpOrder cmp} l :
  (∀ x y, cmp x y = 0 → key x = key y) → NoDup (key <$> l) → slices_SortFunc cmp (slices_SortFunc cmp l) = slices_SortFunc cmp l.
Proof.
  intros Hk Hnd. apply (SortFunc_unique_in cmp); [|apply (SortFunc_Permutation cmp)]. intros x y Hx Hy Hxy%Hk.
  rewrite (SortFunc_Permutation cmp) in Hx, Hy. by apply (NoDup_fmap_inj key l).
Qed.

Lemma sort_hosts_idemp t : sort_hosts (sort_hosts t) = sort_hosts t.
Proof. unfold sort_hosts. cbn. by rewrite slices_Sort_idemp. Qed.

Lemma sort_derivation_idemp d : sort_derivation (sort_derivation d) = sort_derivation d.
Proof.
  unfold sort_derivation, sort_source, sort_elf. cbn. rewrite !option_sort_idemp. by rewrite (option_fmap_stable sort_hosts) by apply sort_hosts_idemp.
Qed.

Lemma canonicalize_components_idemp c : canonicalize_components (canonicalize_components c) = canonicalize_components c.
Proof. unfold canonicalize_components. cbn. by rewrite !slices_Sort_idemp. Qed.

Lemma canonicalize_source2_idemp s : canonicalize_source2 (canonicalize_source2 s) = canonicalize_source2 s.
Proof. unfold canonicalize_source2. cbn. by rewrite (SortFunc_idemp compareDocument). Qed.

Lemma canonicalize_node2_stable n :
  NoDup (r2_ID <$> n2_Dependencies n) → NoDup (t2_ID <$> tab2_Dependencies (b2_Tab (n2_Bottle n))) →
  canonicalize_node2 (canonicalize_node2 n) = canonicalize_node2 n.
Proof.
  intros Hd Ht. unfold canonicalize_node2, canonicalize_bottle2, canonicalize_tab2, canonicalize_transport2. cbn.
  rewrite !slices_Sort_idemp, (SortFunc_idemp compareKV). rewrite (option_fmap_stable sort_hosts) by apply sort_hosts_idemp.
  rewrite (option_fmap_stable sort_derivation) by apply sort_derivation_idemp.
  rewrite (SortFunc_keyed t2_ID compareTabDependency) by (done || apply cmp_then_key).
  by rewrite (SortFunc_keyed r2_ID resolver_v2.compareRequirement) by (done || by intros ? ? ?%Compare_eq).
Qed.

Lemma filter_every {A} (P : A → Prop) `{!∀ x, Decision (P x)} (l : list A) : (∀ x, x ∈ l → P x) → filter P l = l.
Proof. intros Hall. induction l as [|x l IH]; [done|]. rewrite filter_cons_True by (apply Hall; by left). f_equal. apply IH. set_solver. Qed.

Section stable2.
Context `{U : !UnicodeTables, G : !GoDigest, R : !DistributionReference, N : !NetURL, I : !NetIP}.

Lemma once_parsable {A} (key : A → string) (problem : A → list string) (ok : A → bool) (dup : A → string) l :
  (∀ x, problem x = [] → ok x = true) → (l ≫= problem) = [] → each_once (λ _, []) key dup ∅ (filter (λ d, ok d = true) l) = [] → NoDup (key <$> l).
Proof.
  intros Hok Hp [_ Ho]%each_once_nil. rewrite filter_every in Ho; [done|]. intros x Hx. apply Hok. by apply (proj1 (bind_nil _ _) Hp).
Qed.

Lemma requirements_once l : validate_requirements l = [] → NoDup (r2_ID <$> l).
Proof.
  unfold validate_requirements. rewrite app_nil_iff. intros [Hp Ho]. eapply (once_parsable r2_ID); [|exact Hp|exact Ho].
  intros d. unfold validate_requirement, parsable_requirement. by destruct (parseCanonicalFormulaID _).
Qed.

Lemma tab_once tab : validate_tab tab = [] → NoDup (t2_ID <$> tab2_Dependencies tab).
Proof.
  unfold validate_tab. rewrite !app_nil_iff. intros (_ & Hp & Ho). eapply (once_parsable t2_ID); [|exact Hp|exact Ho].
  intros d. unfold validate_tab_dependency, parsable. by destruct (parseCanonicalFormulaID _).
Qed.

Lemma bottle_tab platform id b paths components commit : (validateBottleV2 platform id b paths components commit).2 = [] → validate_tab (b2_Tab b) = [].
Proof.
  unfold validateBottleV2. cbn zeta. destruct (tr2_OCI (b2_Transport b)), (tr2_HTTPS (b2_Transport b)), (tr2_Local (b2_Transport b)); cbn [snd];
    rewrite !app_nil_iff; tauto.
Qed.

Lemma node_once r sources n :
  node_problems r sources n = [] → NoDup (r2_ID <$> n2_Dependencies n) ∧ NoDup (t2_ID <$> tab2_Dependencies (b2_Tab (n2_Bottle n))).
Proof.
  unfold node_problems. destruct (parseCanonicalFormulaID _) as [id|]; [|done]. unfold validate_node2.
  pose proof (bottle_tab (in_Platform (v2_Input r)) (FormulaID_String id) (n2_Bottle n) (n2_ExecutablePaths n) (v2_Components r)) as Hb.
  destruct (validateBottleV2 _ _ _ _ _ _) as [digest errs] eqn:He. rewrite !app_nil_iff. intros H. destruct_and! H. split; [by apply requirements_once|].
  eapply tab_once, Hb. by rewrite He.
Qed.

(** The nodes of a valid canonical record are canonical. *)
Lemma canonicalV2_fixed r : ValidateV2 (canonicalizeV2 r) = [] → canonicalizeV2 (canonicalizeV2 r) = canonicalizeV2 r.
Proof.
  intros Hw%ValidateV2_nil. set (c := canonicalizeV2 r) in *. unfold canonicalizeV2.
  assert (slices_SortFunc compareSource (canonicalize_source2 <$> v2_MetadataSources c) = v2_MetadataSources c) as Hs.
  { pose proof (sw_unique _ (rw2_sources _ Hw)) as Hnd. unfold c in *. cbn in *. rewrite (SortFunc_Permutation compareSource) in Hnd.
    transitivity (slices_SortFunc compareSource (slices_SortFunc compareSource (canonicalize_source2 <$> v2_MetadataSources r)));
      [|apply (SortFunc_keyed so_Tap); [apply _|intros ? ?; apply cmp_then_key|done]].
    f_equal. transitivity (id <$> slices_SortFunc compareSource (canonicalize_source2 <$> v2_MetadataSources r)); [|by rewrite list_fmap_id].
    apply list_fmap_ext. intros i s Hi. apply list_elem_of_lookup_2 in Hi. rewrite (SortFunc_Permutation compareSource) in Hi.
    apply list_elem_of_fmap in Hi as (s0 & -> & _). apply canonicalize_source2_idemp. }
  assert (canonicalize_node2 <$> slices_SortFunc compareNode (v2_Nodes c) = v2_Nodes c) as Hn.
  { unfold c. cbn. apply (SortFunc_fmap_stable compareNode); [done| |].
    - intros x y Hx Hy Hxy%Compare_eq. apply (NoDup_fmap_inj n2_ID (v2_Nodes c)); [apply (rw2_closure _ Hw)| | |done];
        unfold c; cbn; by rewrite (SortFunc_Permutation compareNode).
    - intros x Hx. assert (x ∈ v2_Nodes c) as Hin by (unfold c; cbn; by rewrite (SortFunc_Permutation compareNode)).
      destruct (node_once _ _ _ (rw2_node _ Hw x Hin)) as [Hd Ht]. apply list_elem_of_fmap in Hx as (n & -> & _). apply canonicalize_node2_stable.
      + cbn in Hd. by rewrite (SortFunc_Permutation resolver_v2.compareRequirement) in Hd.
      + cbn in Ht. by rewrite (SortFunc_Permutation compareTabDependency) in Ht. }
  rewrite Hs, Hn. unfold c. cbn. by rewrite canonicalize_components_idemp, slices_Sort_idemp.
Qed.

End stable2.

(** ** Texts and records *)

(** *** The strings of a record *)

Definition platform_texts (p : Resolution.Platform) : list string := [p_OS p; p_Architecture p; p_Variant p].

Definition descriptor_texts (d : Resolution.Descriptor) : list string :=
  [d_Digest d; d_MediaType d] ++ from_option platform_texts [] (d_Platform d) ++ (map_to_list (d_Metadata d) ≫= λ kv, [kv.1; kv.2]).

Definition transport_texts (t : BottleTransportV2) : list string :=
  from_option (λ o, [o2_Registry o; o2_Repository o] ++ ([o2_Index o; o2_Manifest o; o2_Config o; o2_Layer o] ≫= descriptor_texts)) [] (tr2_OCI t) ++
  from_option (λ h, [h2_URL h; h2_SHA256 h; h2_Filename h; h2_FetchPolicyVersion h] ++ h2_AllowedRedirectHosts h) [] (tr2_HTTPS t) ++
  from_option (λ l, [l2_PolicyVersion l; l2_SHA256 l; l2_Filename l]) [] (tr2_Local t).

Definition verification_texts (v : BottleVerificationV2) : list string := [bv2_PolicyVersion v; bv2_InventoryDigest v].

Definition tab_texts (t : BottleTabV2) : list string :=
  let b := tab2_BuiltOn t in
  [tab2_HomebrewVersion t; tab2_Arch t; tab2_Compiler t; bo_OS b; bo_OSVersion b; bo_CPUFamily b; bo_OldestCPUFamily b; bo_GlibcVersion b] ++
  tab2_ChangedFiles t ++ (tab2_Dependencies t ≫= λ d, [t2_ID d; t2_HomebrewFullName d; t2_Version d; t2_PkgVersion d]).

Definition derivation_texts (d : PrebuiltDerivationV2) : list string :=
  let source := pd2_Source d in let elf := pd2_ELF d in let tap := tf2_Tap (fs2_Transport (pd2_FormulaSource d)) in let derived := pd2_DerivedBottle d in
  [pd2_PolicyVersion d; pd2_PolicyDigest d; pd2_RecipeDigest d; ps2_Filename source; ps2_SHA256 source; ps2_Format source;
   pi2_InventoryDigest (pd2_SourceInventory d); pp2_SourcePath (pd2_Payload d); pp2_DestinationPath (pd2_Payload d); pp2_SHA256 (pd2_Payload d);
   pe2_Format elf; pe2_Machine elf; pe2_Interpreter elf; ts2_ID tap; ts2_Repository tap; ts2_Commit tap; ts2_TreeDigest tap; ts2_ArchiveDigest tap;
   tf2_Path (fs2_Transport (pd2_FormulaSource d)); fs2_SHA256 (pd2_FormulaSource d);
   db2_Tag derived; db2_Filename derived; db2_SHA256 derived; db2_FormulaSourceDigest derived] ++
  verification_texts (db2_Verification derived) ++ transport_texts (ps2_Transport source) ++ items (pe2_NeededLibraries elf) ++ items (pe2_RPaths elf).

Definition bottle_texts (b : BottleV2) : list string :=
  [b2_Tag b; b2_Filename b; b2_SHA256 b; b2_Cellar b; b2_CurrentFormulaSourceDigest b; b2_BottleFormulaSourceDigest b; b2_BottleSourceRepository b;
   b2_BottleSourceCommit b; b2_BottleFormulaPath b; b2_BottleSourceWaiver b] ++ tab_texts (b2_Tab b) ++
  (b2_SelectedAnnotations b ≫= λ kv, [kv_Key kv; kv_Value kv]) ++ verification_texts (b2_Verification b) ++ transport_texts (b2_Transport b) ++
  from_option derivation_texts [] (b2_PrebuiltDerivation b).

Definition node_texts (n : NodeV2) : list string :=
  [n2_ID n; n2_Tap n; n2_Name n; n2_HomebrewFullName n; n2_FormulaVersion n; n2_PkgVersion n; n2_License n; n2_UpstreamFormulaID n] ++
  (n2_Dependencies n ≫= λ q, [r2_ID q; r2_Minimum q]) ++ bottle_texts (n2_Bottle n) ++
  from_option (λ v, [vp2_PolicyVersion v; vp2_SubjectDigest v; vp2_StatementDigest v; vp2_BundleDigest v; vp2_SignerIdentity v; vp2_Issuer v]) []
    (pv2_Verified (n2_Provenance n)) ++ option_list (pv2_Waiver (n2_Provenance n)) ++ n2_ExecutablePaths n.

Definition source_texts (s : MetadataSource) : list string :=
  [so_Tap s; so_Commit s; so_CatalogPolicyVersion s; sg_KeyID (so_Signer s); sg_Algorithm (so_Signer s); so_GeneratedAtSource s;
   rb_Policy (so_Rollback s); rb_StateDigest (so_Rollback s)] ++
  from_option (λ e, [te_PolicyVersion e; te_ExtractorRef e; te_Repository e; te_TreeDigest e; te_ArchiveDigest e; te_CatalogDigest e]) [] (so_Extraction s) ++
  (so_Documents s ≫= λ d, [md_Name d; md_Digest d; md_EnvelopeDigest d]).

Definition component_texts2 (c : ComponentsV2) : list string :=
  [c2_FrontendIndexRef c; c2_FrontendRef c; c2_RuntimeBaseRef c; c2_MaterializerRef c; c2_BottleFetcherRef c; c2_CatalogExtractorRef c;
   c2_CatalogServiceOrigin c; c2_IngestionJWSKeyPolicyDigest c; c2_TapPolicyDigest c; c2_ExecutableRuntimePolicyDigest c; c2_HomebrewCommit c;
   c2_RubyRuntime c; c2_VerificationKeys c; c2_DalecModule c; c2_BuildKitModule c] ++
  c2_SupportedCatalogPolicyVersions c ++ c2_SupportedFetchPolicyVersions c ++ c2_SupportedProvenancePolicyVersions c.

Definition record_texts (r : RecordV2) : list string :=
  [v2_SchemaVersion r; v2_PolicyVersion r; in_DalecSpecDigest (v2_Input r); in_TargetKey (v2_Input r); v2_PruningPolicyDigest r] ++
  platform_texts (in_Platform (v2_Input r)) ++ (v2_MetadataSources r ≫= source_texts) ++ (v2_Requested r ≫= λ q, [q2_Requested q; q2_ID q]) ++
  (v2_Nodes r ≫= node_texts) ++ v2_InstallOrder r ++ component_texts2 (v2_Components r) ++
  [rp_User (v2_Runtime r); rp_CPUBaseline (v2_Runtime r)] ++ rp_GeneratedPATH (v2_Runtime r) ++ rp_WritablePaths (v2_Runtime r).

(** encoding/json replaces bytes that are not UTF-8 by U+FFFD, so that only text comes
    back as it was. Most strings of a valid record are ASCII; the validation leaves, for
    instance, the license and the name a root was asked for under unchecked. *)
Definition encodable2 (r : RecordV2) : Prop := Forall (λ s, utf8_ValidString s = true) (record_texts r).

(** What is relied on: encoding/json reads back the canonical records it prints, if
    their strings are text. *)
Class RecordV2JSONLaws `{U : !UnicodeTables, G : !GoDigest, R : !DistributionReference, N : !NetURL, I : !NetIP, J : !RecordV2JSON} : Prop := {
  record2_roundtrip r b : ValidateV2 r = [] → canonicalizeV2 r = r → rp_Profile (v2_Runtime r) = "" → encodable2 r → encodeRecordV2 r = Some b →
    validateUniqueJSONV2 (record2_tokens b) = Ok tt ∧ decodeRecordV2 b = Some r;
}.

Section roundtrip.
Context `{U : !UnicodeTables, G : !GoDigest, R : !DistributionReference, N : !NetURL, I : !NetIP, D : !Digester, J : !RecordV2JSON}.

Lemma valid2_ok r : valid2 r = Ok tt ↔ ValidateV2 r = [].
Proof. unfold valid2. by destruct (ValidateV2 r). Qed.

Lemma CanonicalV2_ok r b : CanonicalV2 r = Ok b ↔ ValidateV2 (canonicalizeV2 r) = [] ∧ encodeRecordV2 (without_profile (canonicalizeV2 r)) = Some b.
Proof.
  unfold CanonicalV2. split.
  - intros ([] & Hv%valid2_ok & H)%bind_ok. destruct (encodeRecordV2 _); [|done]. by injection H as <-.
  - intros [Hv ->]. by rewrite (proj2 (valid2_ok _) Hv).
Qed.

Lemma without_profile_wf r : record_wf2 r → record_wf2 (without_profile r).
Proof.
  destruct r as [a b i s ra e q n o co p pr]. intros [H1 H2 H3 H4 H5 H6 H7 H8 H9 H10 H11]. split; try done; [by destruct H1; split|by destruct H3; split|by left].
Qed.

Lemma without_profile_valid r : ValidateV2 r = [] → ValidateV2 (without_profile r) = [].
Proof. rewrite !ValidateV2_nil. apply without_profile_wf. Qed.

Lemma canonicalize_profile r : canonicalizeV2 (without_profile r) = without_profile (canonicalizeV2 r).
Proof. done. Qed.

Lemma DecodeV2_ok data r :
  DecodeV2 data = Ok r → ValidateV2 r = [] ∧ canonicalizeV2 r = r ∧ CanonicalV2 r = Ok data ∧ strlen data <= maxResolutionV2Bytes.
Proof.
  unfold DecodeV2. intros ([] & Hs%check_ok%Z.ltb_ge & H)%bind_ok. apply bind_ok in H as ([] & _ & H).
  destruct (decodeRecordV2 data) as [d|]; [|done]. apply bind_ok in H as ([] & Hv%valid2_ok & H). apply bind_ok in H as (text & Hc & H).
  apply bind_ok in H as ([] & Heq%check_ok%negb_false_iff%bool_decide_eq_true & [= <-]). subst text. split_and!; [done|by apply canonicalV2_fixed|done..].
Qed.

End roundtrip.


(** ** Records are compared by value *)

#[export] Instance Resolution_Platform_eq_dec2 : EqDecision Resolution.Platform.
Proof. solve_decision. Defined.
#[export] Instance Input_eq_dec2 : EqDecision Input.
Proof. solve_decision. Defined.
#[export] Instance ComponentsV2_eq_dec2 : EqDecision ComponentsV2.
Proof. solve_decision. Defined.
#[export] Instance TapExtractionV2_eq_dec2 : EqDecision TapExtractionV2.
Proof. solve_decision. Defined.
#[export] Instance MetadataDocument_eq_dec2 : EqDecision MetadataDocument.
Proof. solve_decision. Defined.
#[export] Instance RollbackEvidence_eq_dec2 : EqDecision RollbackEvidence.
Proof. solve_decision. Defined.
#[export] Instance MetadataSource_eq_dec2 : EqDecision MetadataSource.
Proof. solve_decision. Defined.
#[export] Instance RequestedRootV2_eq_dec2 : EqDecision RequestedRootV2.
Proof. solve_decision. Defined.
#[export] Instance RequirementV2_eq_dec2 : EqDecision RequirementV2.
Proof. solve_decision. Defined.
#[export] Instance RuntimeDependencyV2_eq_dec2 : EqDecision RuntimeDependencyV2.
Proof. solve_decision. Defined.
#[export] Instance BottleTabV2_eq_dec2 : EqDecision BottleTabV2.
Proof. solve_decision. Defined.
#[export] Instance Resolution_Descriptor_eq_dec2 : EqDecision Resolution.Descriptor.
Proof. solve_decision. Defined.
#[export] Instance OCITransportV2_eq_dec2 : EqDecision OCITransportV2.
Proof. solve_decision. Defined.
#[export] Instance HTTPSTransportV2_eq_dec2 : EqDecision HTTPSTransportV2.
Proof. solve_decision. Defined.
#[export] Instance LocalTransportV2_eq_dec2 : EqDecision LocalTransportV2.
Proof. solve_decision. Defined.
#[export] Instance BottleTransportV2_eq_dec2 : EqDecision BottleTransportV2.
Proof. solve_decision. Defined.
#[export] Instance PrebuiltSourceArtifactV2_eq_dec2 : EqDecision PrebuiltSourceArtifactV2.
Proof. solve_decision. Defined.
#[export] Instance PrebuiltSourceInventoryV2_eq_dec2 : EqDecision PrebuiltSourceInventoryV2.
Proof. solve_decision. Defined.
#[export] Instance PrebuiltPayloadEvidenceV2_eq_dec2 : EqDecision PrebuiltPayloadEvidenceV2.
Proof. solve_decision. Defined.
#[export] Instance PrebuiltELFEvidenceV2_eq_dec2 : EqDecision PrebuiltELFEvidenceV2.
Proof. solve_decision. Defined.
#[export] Instance TapSourceV2_eq_dec2 : EqDecision TapSourceV2.
Proof. solve_decision. Defined.
#[export] Instance TapFormulaSourceTransportV2_eq_dec2 : EqDecision TapFormulaSourceTransportV2.
Proof. solve_decision. Defined.
#[export] Instance PrebuiltFormulaSourceEvidenceV2_eq_dec2 : EqDecision PrebuiltFormulaSourceEvidenceV2.
Proof. solve_decision. Defined.
#[export] Instance PrebuiltDerivedBottleRelationV2_eq_dec2 : EqDecision PrebuiltDerivedBottleRelationV2.
Proof. solve_decision. Defined.
#[export] Instance PrebuiltDerivationV2_eq_dec2 : EqDecision PrebuiltDerivationV2.
Proof. solve_decision. Defined.
#[export] Instance KV_eq_dec2 : EqDecision KV.
Proof. solve_decision. Defined.
#[export] Instance BottleV2_eq_dec2 : EqDecision BottleV2.
Proof. solve_decision. Defined.
#[export] Instance VerifiedProvenanceV2_eq_dec2 : EqDecision VerifiedProvenanceV2.
Proof. solve_decision. Defined.
#[export] Instance ProvenanceV2_eq_dec2 : EqDecision ProvenanceV2.
Proof. solve_decision. Defined.
#[export] Instance NodeV2_eq_dec2 : EqDecision NodeV2.
Proof. solve_decision. Defined.
#[export] Instance RuntimePolicy_eq_dec2 : EqDecision RuntimePolicy.
Proof. solve_decision. Defined.
#[export] Instance RecordV2_eq_dec2 : EqDecision RecordV2.
Proof. solve_decision. Defined.

(** ** A text *)

Module TextExample.

Definition record : RecordV2 := without_profile (canonicalizeV2 example_v2.record).

Definition texts : RecordV2JSON :=
  {| record2_tokens _ := MkDecoder [TOther] false;
     encodeRecordV2 r := if bool_decide (r = record) then Some "record" else None;
     decodeRecordV2 b := if bool_decide (b = "record") then Some record else None;
     decodeSchema _ := Some SchemaVersionV2 |}.

Lemma texts_laws : RecordV2JSONLaws (U := ascii_tables) (G := sha256_only) (R := pinned_only) (N := https_only) (I := no_literals) (J := texts).
Proof. split. intros r b _ _ _ _ H. cbn in H. case_bool_decide as Hr; [|done]. injection H as <-. by rewrite Hr. Qed.

Lemma printed :
  CanonicalV2 (U := ascii_tables) (G := sha256_only) (R := pinned_only) (N := https_only) (I := no_literals) (J := texts) example_v2.record = Ok "record".
Proof. vm_compute. reflexivity. Qed.

End TextExample.

