(* ===== verification/BottleExpectation.v ===== *)
(** * internal/bottle: verifying the bottle of a second-version record

    [ExpectationFromNodeV2] and [VerifyNodeV2] of [types.go]: what a node of a
    record says of its bottle becomes what the verifier expects of the bytes, and
    the theorem that ties the two components together. *)

From S2P Require Import Prelude GoStrings JsonUnique NetUrl Regex Version FormulaId Graph ClosureGraph Resolution Resolver CatalogFields.
From S2P Require Import FetchPolicy Fetcher CatalogRequest CatalogArtifact ResolutionV2 ResolutionV2Facts PolicyV2.
From S2P Require Import BottleStreams BottleHeader BottleLinks BottleVerify BottleFacts BottleReceipt.
From stdpp Require Import options.
Local Open Scope Z_scope.

Inductive expectation_error :=
| ClosureRepeats (id : string) | ClosureRack (name : string) | NodeAbsent (id : string) | DirectDependencyMissing (id : string).

Definition directDependencyByID (dependencies : list RequirementV2) (id : string) : bool :=
  existsb (λ d, bool_decide (r2_ID d = id) && r2_Direct d) dependencies.

(** The closure by identity and by rack *)
Definition index_closure (st : gmap string NodeV2 * gmap string string) (candidate : NodeV2)
    : result expectation_error (gmap string NodeV2 * gmap string string) :=
  let '(byID, byRack) := st in
  _ ← check (bool_decide (is_Some (byID !! n2_ID candidate))) (ClosureRepeats (n2_ID candidate));
  _ ← check (match byRack !! n2_Name candidate with Some previous => negb (bool_decide (previous = n2_ID candidate)) | None => false end)
        (ClosureRack (n2_Name candidate));
  Ok (<[n2_ID candidate := candidate]> byID, <[n2_Name candidate := n2_ID candidate]> byRack).

Definition inconsistent_node (selected : option NodeV2) (node : NodeV2) : bool :=
  match selected with
  | None => true
  | Some s => negb (bool_decide (n2_Name s = n2_Name node)) || negb (bool_decide (n2_PkgVersion s = n2_PkgVersion node))
  end.

Definition tab_dependency (dep : RuntimeDependencyV2) : ReceiptDependency :=
  let fullName := t2_HomebrewFullName dep in
  MkReceiptDependency (if strings_HasPrefix fullName "homebrew/core/" then strings_TrimPrefix fullName "homebrew/core/" else fullName)
    (t2_Version dep) (t2_Revision dep) (t2_BottleRebuild dep) (t2_PkgVersion dep) (t2_DeclaredDirectly dep) false.

(** The racks of the direct dependencies *)
Definition allow_direct (byID : gmap string NodeV2) (allowed : list string) (requirement : RequirementV2)
    : result expectation_error (list string) :=
  if negb (r2_Direct requirement) then Ok allowed
  else
    match byID !! r2_ID requirement with
    | None => Err (DirectDependencyMissing (r2_ID requirement))
    | Some dependency => Ok (allowed ++ [n2_Name dependency])
    end.

Definition certifi_rules (byID : gmap string NodeV2) (node : NodeV2) : list string :=
  match byID !! "homebrew/core/ca-certificates" with
  | Some caCertificates =>
      if bool_decide (n2_ID node = "homebrew/core/certifi") && bool_decide (n2_HomebrewFullName node = "homebrew/core/certifi")
         && directDependencyByID (n2_Dependencies node) "homebrew/core/ca-certificates"
         && bool_decide (n2_Name caCertificates = "ca-certificates")
         && bool_decide (n2_HomebrewFullName caCertificates = "homebrew/core/ca-certificates")
         && policyv2.HasEmbeddedRule (n2_ID node) ExternalSymlinkRuleCertifiSharedCA
      then [ExternalSymlinkRuleCertifiSharedCA] else []
  | None => []
  end.

Definition ExpectationFromNodeV2 (node : NodeV2) (closure : list NodeV2) : result expectation_error Expectation :=
  '(byID, _) ← foldM_res index_closure (∅, ∅) closure;
  _ ← check (inconsistent_node (byID !! n2_ID node) node) (NodeAbsent (n2_ID node));
  allowed ← foldM_res (allow_direct byID) [] (n2_Dependencies node);
  let bottle := n2_Bottle node in
  let tab := b2_Tab bottle in
  let '(compressedDigest, compressedSize) :=
    match tr2_OCI (b2_Transport bottle) with
    | Some oci => (d_Digest (o2_Layer oci), d_Size (o2_Layer oci))
    | None => (b2_SHA256 bottle, b2_Size bottle)
    end in
  let formulaIdentity := if bool_decide (n2_UpstreamFormulaID node = "") then n2_ID node else n2_UpstreamFormulaID node in
  Ok (MkExpectation (n2_Name node) (n2_HomebrewFullName node) (n2_FormulaVersion node) (n2_FormulaRevision node) (n2_PkgVersion node)
        (n2_VersionScheme node) (n2_BottleRebuild node) (b2_Tag bottle) compressedDigest compressedSize (b2_SHA256 bottle)
        (tab2_HomebrewVersion tab) (tab2_Arch tab) (tab2_Compiler tab) (n2_Tap node) (tab_dependency <$> tab2_Dependencies tab)
        formulaIdentity (slices_Sort allowed) (certifi_rules byID node)).

Inductive verify_node_error := BadExpectation (e : expectation_error) | BadBottle (e : VerificationError).

Definition VerifyNodeV2 `{!ReceiptJSON, !UnicodeTables, !BottleLib} (sp : spool) (r : option reader) (node : NodeV2) (closure : list NodeV2)
    (opts : Options) : result verify_node_error VerifyResult :=
  expectation ← map_err BadExpectation (ExpectationFromNodeV2 node closure);
  map_err BadBottle (Verify sp r expectation opts).

(** ** Facts *)

Lemma index_closure_ok closure :
  NoDup (n2_ID <$> closure) → (∀ m n, m ∈ closure → n ∈ closure → n2_Name m = n2_Name n → n2_ID m = n2_ID n) →
  ∃ byID byRack, foldM_res index_closure (∅, ∅) closure = Ok (byID, byRack) ∧ ∀ x n, byID !! x = Some n ↔ n ∈ closure ∧ n2_ID n = x.
Proof.
  intros Hnd Hracks.
  enough (∀ l visited byID byRack, visited ++ l = closure → (∀ x n, byID !! x = Some n ↔ n ∈ visited ∧ n2_ID n = x) →
    (∀ rack id, byRack !! rack = Some id → ∃ n, n ∈ visited ∧ n2_Name n = rack ∧ n2_ID n = id) →
    ∃ byID' byRack', foldM_res index_closure (byID, byRack) l = Ok (byID', byRack') ∧ ∀ x n, byID' !! x = Some n ↔ n ∈ closure ∧ n2_ID n = x) as H.
  { apply (H closure [] ∅ ∅); [done| |intros rack id; by rewrite lookup_empty].
    intros x n. rewrite lookup_empty. split; [done|]. intros [Hn _]. by apply not_elem_of_nil in Hn. }
  induction l as [|n l IH]; intros visited byID byRack Hl Hid Hrack.
  { rewrite app_nil_r in Hl. subst visited. by exists byID, byRack. }
  assert (byID !! n2_ID n = None) as Hnew.
  { apply eq_None_not_Some. intros [m Hm]. apply Hid in Hm as [Hin Heq]. rewrite <-Hl, fmap_app, fmap_cons in Hnd.
    apply NoDup_app in Hnd as (_ & Hdis & _). apply (Hdis (n2_ID n)); [|set_solver]. apply list_elem_of_fmap. by exists m. }
  assert (index_closure (byID, byRack) n = Ok (<[n2_ID n := n]> byID, <[n2_Name n := n2_ID n]> byRack)) as Hstep.
  { unfold index_closure. rewrite Hnew, bool_decide_eq_false_2 by (by intros [? ?]). cbn.
    destruct (byRack !! n2_Name n) as [id|] eqn:Hr; [|done]. apply Hrack in Hr as (m & Hm & Hname & <-).
    rewrite bool_decide_eq_true_2; [done|]. apply Hracks; [subst; set_solver..|done]. }
  cbn [foldM_res]. rewrite Hstep. apply (IH (visited ++ [n])); [by rewrite <-app_assoc| |].
  - intros x m. rewrite lookup_insert_Some, elem_of_app, list_elem_of_singleton, Hid. split.
    + intros [[<- <-]|[_ [? ?]]]; [by split; [right|]|by split; [left|]].
    + intros [[Hm| ->] Hx]; [|by left]. right. split; [|done]. intros Heq. assert (byID !! n2_ID n = Some m) as Hc by (apply Hid; split; [done|congruence]). congruence.
  - intros rack id [[<- <-]|[_ Hr]]%lookup_insert_Some; [exists n; set_solver|]. apply Hrack in Hr as (m & ? & ? & ?). exists m. set_solver.
Qed.

(** The allowed racks are those of the direct dependencies, when none is missing. *)
Lemma allow_direct_ok byID reqs :
  (∀ r, r ∈ reqs → is_Some (byID !! r2_ID r)) →
  ∃ allowed, foldM_res (allow_direct byID) [] reqs = Ok allowed ∧
    ∀ name, name ∈ allowed ↔ ∃ r n, r ∈ reqs ∧ r2_Direct r = true ∧ byID !! r2_ID r = Some n ∧ n2_Name n = name.
Proof.
  intros Hall. enough (∀ acc, ∃ allowed, foldM_res (allow_direct byID) acc reqs = Ok allowed ∧
    ∀ name, name ∈ allowed ↔ name ∈ acc ∨ ∃ r n, r ∈ reqs ∧ r2_Direct r = true ∧ byID !! r2_ID r = Some n ∧ n2_Name n = name) as H.
  { destruct (H []) as (allowed & Ha & Hin). exists allowed. split; [done|]. intros name. rewrite Hin. set_solver. }
  induction reqs as [|r reqs IH]; intros acc.
  { exists acc. split; [done|]. intros name. split; [by left|]. intros [?|(r & n & Hr & _)]; [done|]. by apply not_elem_of_nil in Hr. }
  destruct (Hall r) as [n Hn]; [set_solver|]. cbn [foldM_res].
  assert (∀ r', r' ∈ reqs → is_Some (byID !! r2_ID r')) as Hall' by (intros; apply Hall; set_solver).
  destruct (r2_Direct r) eqn:Hd.
  - assert (allow_direct byID acc r = Ok (acc ++ [n2_Name n])) as -> by (unfold allow_direct; by rewrite Hd, Hn). destruct (IH Hall' (acc ++ [n2_Name n])) as (allowed & Ha & Hin). exists allowed. split; [exact Ha|]. intros name. rewrite Hin.
    rewrite elem_of_app, list_elem_of_singleton. split.
    + intros [[?| ->]|(r' & n' & ? & ?)]; [by left|right; exists r, n; set_solver|right; exists r', n'; set_solver].
    + intros [?|(r' & n' & [->|Hr']%elem_of_cons & ? & Hn' & ?)]; [by left; left|left; right; congruence|right; by exists r', n'].
  - assert (allow_direct byID acc r = Ok acc) as -> by (unfold allow_direct; by rewrite Hd). destruct (IH Hall' acc) as (allowed & Ha & Hin). exists allowed. split; [exact Ha|]. intros name. rewrite Hin. split.
    + intros [?|(r' & n' & ? & ?)]; [by left|right; exists r', n'; set_solver].
    + intros [?|(r' & n' & [->|Hr']%elem_of_cons & ? & Hn' & ?)]; [by left|congruence|right; by exists r', n'].
Qed.

(** What normalization keeps and what it makes of the digests *)
Lemma normalizeExpectation_fields `{!UnicodeTables} e limits e' :
  normalizeExpectation e limits = Some e' →
  ex_Name e' = ex_Name e ∧ ex_PkgVersion e' = ex_PkgVersion e ∧ ex_CompressedSize e' = ex_CompressedSize e ∧
  ex_AllowedExternalSymlinkFormulae e' = slices_Sort (ex_AllowedExternalSymlinkFormulae e) ∧
  ex_AllowedExternalSymlinkRules e' = slices_Sort (ex_AllowedExternalSymlinkRules e) ∧
  ∃ oci homebrew, normalizeSHA256 (ex_CompressedSHA256 e) true = Some oci ∧ ex_CompressedSHA256 e' = "sha256:" +:+ oci ∧
    normalizeSHA256 (ex_HomebrewSHA256 e) false = Some homebrew ∧ ex_HomebrewSHA256 e' = homebrew.
Proof.
  unfold normalizeExpectation. destruct (_ || _); [done|]. destruct (normalizeSHA256 _ true) as [oci|]; [|done].
  destruct (normalizeSHA256 _ false) as [homebrew|]; [|done]. cbn. destruct (_ || _); [done|]. intros [= <-]. cbn. split_and!; [done..|].
  by exists oci, homebrew.
Qed.

Section bound.
Context `{U : !UnicodeTables, G : !GoDigest, R : !DistributionReference, N : !NetURL, I : !NetIP}.

(** The node is Homebrew's certifi with Homebrew's ca-certificates among its direct
    dependencies, and the embedded policy has the rule for its shared certificate. *)
Definition shared_ca (r : RecordV2) (n : NodeV2) : Prop :=
  n2_ID n = "homebrew/core/certifi" ∧ n2_HomebrewFullName n = "homebrew/core/certifi" ∧
  policyv2.HasEmbeddedRule (n2_ID n) ExternalSymlinkRuleCertifiSharedCA = true ∧
  (∃ req, req ∈ n2_Dependencies n ∧ r2_Direct req = true ∧ r2_ID req = "homebrew/core/ca-certificates") ∧
  ∃ ca, ca ∈ v2_Nodes r ∧ n2_ID ca = "homebrew/core/ca-certificates" ∧ n2_Name ca = "ca-certificates" ∧
    n2_HomebrewFullName ca = "homebrew/core/ca-certificates".

(** The rack is that of a direct dependency. *)
Definition direct_rack (r : RecordV2) (n : NodeV2) (name : string) : Prop :=
  ∃ req d, req ∈ n2_Dependencies n ∧ r2_Direct req = true ∧ d ∈ v2_Nodes r ∧ n2_ID d = r2_ID req ∧ n2_Name d = name.

(** A place of the prefix a link of the keg may lead to: a file of a direct
    dependency, from libexec, or for certifi the shared certificate *)
Definition link_allowed (r : RecordV2) (n : NodeV2) (path target : string) : Prop :=
  ∃ kegPath, path = n2_Name n +:+ "/" +:+ n2_PkgVersion n +:+ "/" +:+ kegPath ∧
    ((strings_HasPrefix kegPath "libexec/" = true ∧ ∃ name, direct_rack r n name ∧
       (target = path_Join ["opt"; name] ∨ strings_HasPrefix target (path_Join ["opt"; name] +:+ "/") = true)) ∨
     (shared_ca r n ∧ IsCertifiSharedCACertKegPath kegPath = true ∧ target = "etc/ca-certificates/cert.pem")).

(** What the verifier expects of the bottle of a node *)
Record expects (r : RecordV2) (n : NodeV2) (e : Expectation) : Prop := {
  xp_name : ex_Name e = n2_Name n ∧ ex_PkgVersion e = n2_PkgVersion n;
  xp_digest : ex_CompressedSHA256 e = b2_SHA256 (n2_Bottle n) ∧ ex_HomebrewSHA256 e = b2_SHA256 (n2_Bottle n);
  xp_size : ex_CompressedSize e = b2_Size (n2_Bottle n);
  xp_allowed name : name ∈ ex_AllowedExternalSymlinkFormulae e ↔ direct_rack r n name;
  xp_rules rule : rule ∈ ex_AllowedExternalSymlinkRules e ↔ rule = ExternalSymlinkRuleCertifiSharedCA ∧ shared_ca r n;
}.

Lemma certifi_rules_iff r n byID rule :
  (∀ x m, byID !! x = Some m ↔ m ∈ v2_Nodes r ∧ n2_ID m = x) → NoDup (n2_ID <$> v2_Nodes r) →
  rule ∈ certifi_rules byID n ↔ rule = ExternalSymlinkRuleCertifiSharedCA ∧ shared_ca r n.
Proof.
  intros Hby Hnd. unfold certifi_rules, shared_ca.
  assert (directDependencyByID (n2_Dependencies n) "homebrew/core/ca-certificates" = true ↔
    ∃ req, req ∈ n2_Dependencies n ∧ r2_Direct req = true ∧ r2_ID req = "homebrew/core/ca-certificates") as Hdir.
  { unfold directDependencyByID. rewrite existsb_exists. setoid_rewrite <-list_elem_of_In. setoid_rewrite andb_true_iff.
    setoid_rewrite bool_decide_eq_true. naive_solver. }
  generalize (policyv2.HasEmbeddedRule (n2_ID n) ExternalSymlinkRuleCertifiSharedCA). intros has.
  destruct (byID !! "homebrew/core/ca-certificates") as [ca|] eqn:Hca.
  - apply Hby in Hca as [Hin Hid]. destruct (_ && has) eqn:Hc.
    + rewrite !andb_true_iff, !bool_decide_eq_true, Hdir in Hc. rewrite list_elem_of_singleton. naive_solver.
    + split; [by intros ?%not_elem_of_nil|]. intros (_ & H1 & H2 & -> & H3 & ca' & Hin' & Hid' & H4 & H5). exfalso.
      assert (ca' = ca) as -> by (apply (NoDup_fmap_inj n2_ID (v2_Nodes r)); [done..|congruence]). apply Hdir in H3.
      rewrite H1, H2, H3, H4, H5 in Hc. by rewrite !(bool_decide_eq_true_2 (_ = _)) in Hc by done.
  - split; [by intros ?%not_elem_of_nil|]. intros (_ & _ & _ & _ & _ & ca & Hin & Hid & _). rewrite (proj2 (Hby _ ca) (conj Hin Hid)) in Hca. done.
Qed.

Lemma expectation_ok r n : ValidateV2 r = [] → n ∈ v2_Nodes r → ∃ e, ExpectationFromNodeV2 n (v2_Nodes r) = Ok e ∧ expects r n e.
Proof.
  intros Hr Hn. apply ValidateV2_nil in Hr. destruct (node_problems_bottle _ _ _ (rw2_node _ Hr n Hn)) as (commit & Hb & _).
  destruct (validateBottleV2_bound _ _ _ _ _ _ Hb) as (Ht & _). destruct (rw2_closure _ Hr) as [Hnd _ Hdeps _ _ _].
  destruct (index_closure_ok (v2_Nodes r) Hnd (rw2_racks _ Hr)) as (byID & byRack & Hidx & Hby).
  assert (byID !! n2_ID n = Some n) as Hself by (by apply Hby).
  destruct (allow_direct_ok byID (n2_Dependencies n)) as (allowed & Hal & Hin).
  { intros req Hreq. assert (r2_ID req ∈ n2_ID <$> v2_Nodes r) as (d & -> & Hd)%list_elem_of_fmap; [|exists d; by apply Hby].
    apply (Hdeps (n2_ID n)). apply edge_list_succ. exists n. split_and!; [done..|]. apply list_elem_of_fmap. by exists req. }
  unfold ExpectationFromNodeV2. rewrite Hidx. cbn. rewrite Hself. cbn.
  rewrite (bool_decide_eq_true_2 (n2_Name n = n2_Name n)), (bool_decide_eq_true_2 (n2_PkgVersion n = n2_PkgVersion n)) by done. cbn. rewrite Hal. cbn.
  assert (match tr2_OCI (b2_Transport (n2_Bottle n)) with
    | Some oci => (d_Digest (o2_Layer oci), d_Size (o2_Layer oci)) | None => (b2_SHA256 (n2_Bottle n), b2_Size (n2_Bottle n)) end =
    (b2_SHA256 (n2_Bottle n), b2_Size (n2_Bottle n))) as ->.
  { unfold transport_bound in Ht. destruct (tr2_OCI _) as [oci|]; [|done]. 
    destruct (tr2_HTTPS (b2_Transport (n2_Bottle n))), (tr2_Local (b2_Transport (n2_Bottle n))); try done. by destruct Ht as (-> & -> & _). }
  eexists. split; [done|]. split; cbn; [done..| |intros rule; by apply certifi_rules_iff]. intros name. rewrite elem_of_slices_Sort, Hin. split.
  - intros (req & d & ? & ? & Hd%Hby & ?). exists req, d. naive_solver.
  - intros (req & d & ? & ? & ? & ? & ?). exists req, d. split_and!; [done..| |done]. by apply Hby.
Qed.

(** What normalization leaves of an expectation allows no other links. *)
Lemma allowed_links r n e e' path target :
  expects r n e → ex_Name e' = ex_Name e → ex_PkgVersion e' = ex_PkgVersion e →
  ex_AllowedExternalSymlinkFormulae e' = slices_Sort (ex_AllowedExternalSymlinkFormulae e) →
  ex_AllowedExternalSymlinkRules e' = slices_Sort (ex_AllowedExternalSymlinkRules e) →
  allowedExternalSymlink path target e' = true → link_allowed r n path target.
Proof.
  intros [[Hn Hp] _ _ Hal Hru] Hn' Hp' Hf Hr. unfold allowedExternalSymlink, externalSymlinkKegPath, expectedKegPrefix.
  rewrite Hn', Hp', Hn, Hp, Hf, Hr. set (prefix := (n2_Name n +:+ "/" +:+ n2_PkgVersion n) +:+ "/"). set (kegPath := strings_TrimPrefix path prefix).
  case_bool_decide as Hk; [done|]. intros Ha. exists kegPath. split.
  { destruct (strings_HasPrefix path prefix) eqn:Hpre.
    - apply HasPrefix_app in Hpre as [rest ->]. unfold kegPath. rewrite TrimPrefix_app. unfold prefix. by rewrite !app_assoc_str.
    - exfalso. apply Hk. unfold kegPath, strings_TrimPrefix. by rewrite Hpre. }
  apply orb_true_iff in Ha as [[Hl He]%andb_true_iff|Ha].
  - left. split; [done|]. apply existsb_exists in He as (name & Hin & Hb). rewrite <-list_elem_of_In, elem_of_slices_Sort in Hin. exists name.
    split; [by apply Hal|]. unfold below_opt in Hb. apply orb_true_iff in Hb. by rewrite bool_decide_eq_true in Hb.
  - right. rewrite !andb_true_iff, !bool_decide_eq_true, elem_of_slices_Sort in Ha. destruct Ha as [[Hrule Hcert] ->]. by apply Hru in Hrule as [_ ?].
Qed.

(** C22: for a record [ValidateV2] accepts, the verifier always has an expectation
    of every bottle, with the digest and size of the record; it allows links out of
    the keg to the racks of exactly the direct dependencies the record lists, and,
    for Homebrew's certifi with ca-certificates as a direct dependency, the shared
    certificate of the embedded policy. When the bottle is verified, the bytes read
    are of exactly the size and digest of the record, whatever the transport was,
    its keg is the rack and version of the node, and every link of its inventory
    that leaves the keg leads to a file of a direct dependency, from libexec, or is
    certifi's link to the shared certificate. *)
Theorem VerifyNodeV2_bound `{J : !ReceiptJSON, L : !BottleLib} r n sp rd opts
  (Hr : ValidateV2 r = []) (Hn : n ∈ v2_Nodes r) :
  (∃ e, ExpectationFromNodeV2 n (v2_Nodes r) = Ok e ∧ expects r n e) ∧
  ∀ res, VerifyNodeV2 sp rd n (v2_Nodes r) opts = Ok res →
    ∃ data, rd = Some (MkReader data false) ∧ Z.of_nat (length data) = b2_Size (n2_Bottle n) ∧
      normalizeSHA256 (b2_SHA256 (n2_Bottle n)) true = Some (hex_sha256 data) ∧
      vr_CompressedSHA256 res = "sha256:" +:+ hex_sha256 data ∧ vr_KegPrefix res = n2_Name n +:+ "/" +:+ n2_PkgVersion n ∧
      ∀ entry, entry ∈ vr_Inventory res → ie_Type entry = EntrySymlink → ie_PrefixTarget entry ≠ "" →
        link_allowed r n (ie_Path entry) (ie_PrefixTarget entry).
Proof.
  destruct (expectation_ok r n Hr Hn) as (e & He & Hexp). split; [by exists e|]. intros res Hres. unfold VerifyNodeV2 in Hres. rewrite He in Hres.
  cbn in Hres. apply map_err_ok in Hres. apply bind_ok in Hres as ([res' seen] & Hv & [= ->]).
  apply verify_steps in Hv as (r' & e' & -> & Hl & Hnorm & _ & Hf & Hauth & Hver). destruct r' as [data fails]. cbn in Hf, Hauth, Hver. subst fails.
  apply normalizeExpectation_fields in Hnorm as (Hname & Hpkg & Hsize & Hfor & Hrul & oci & homebrew & Ho & Hoci & Hh & Hhb).
  apply verify_archive_ok in Hver as (Hsafe & _ & _ & _ & Hsha & Hkeg & _); [|done]. unfold authenticate in Hauth.
  apply bind_ok in Hauth as ([] & _ & H). apply bind_ok in H as ([] & Hs%check_ok & H). apply bind_ok in H as ([] & Hd%check_ok & _).
  apply negb_false_iff, Z.eqb_eq in Hs. apply negb_false_iff, bool_decide_eq_true in Hd.
  pose proof Hexp as [[Hn1 Hn2] [Hd1 _] Hsz _ _]. exists data. split_and!; [done|congruence| |done| |].
  - rewrite Hoci in Hd. rewrite !app_cons_str in Hd. repeat injection Hd as Hd. rewrite !app_nil_l_str in Hd. congruence.
  - rewrite Hkeg. unfold expectedKegPrefix. congruence.
  - intros entry Hin Ht Hp. assert (by_path (vr_Inventory res) !! ie_Path entry = Some entry) as Hlook.
    { apply elem_of_list_to_map_1; [|apply list_elem_of_fmap; by exists entry]. rewrite <-list_fmap_compose. apply (sv_paths _ _ _ Hsafe). }
    destruct (st_symlinks _ _ (sv_tree _ _ _ Hsafe) _ _ Hlook Ht) as [[? _]|(_ & _ & Ha)]; [done|].
    by apply (allowed_links r n e e').
Qed.

End bound.

(** ** An example *)

Module example_node.
Import example_bottle.

Definition digest : string := "sha256:" +:+ digest_of (length example_gzip).

Definition bottle : BottleV2 :=
  MkBottleV2 "x86_64_linux" "widget.tar.gz" 21 digest ":any"
    (MkBottleTabV2 false "4.0" "x86_64" "gcc" [] (MkBuiltOn "" "" "" "" "2.39") []) [] example_digest example_digest "" "" ""
    HTTPSBottleSourceWaiverPolicyV1 (MkBottleVerificationV2 BottleVerificationPolicyV1 example_digest 3 100)
    (MkBottleTransportV2 None (Some (MkHTTPSTransportV2 "https://ghcr.io/v2/widget" 21 digest "widget.tar.gz" ["ghcr.io"; "cdn.example.org"]
       HTTPSFetchPolicyVersionV1)) None) None.

Definition node : NodeV2 :=
  MkNodeV2 "acme/tools/widget" "acme/tools" "widget" "acme/tools/widget" "1.0" 0 "1.0" 0 0 "MIT" false [] bottle
    (MkProvenanceV2 None (Some ProvenanceWaiverPolicyV1)) ["bin/widget"] "".

Definition record : RecordV2 :=
  MkRecordV2 SchemaVersionV2 PolicyVersionV2 (v2_Input example_v2.record) (v2_MetadataSources example_v2.record) example_v2.now 1000
    (v2_Requested example_v2.record) [node] ["acme/tools/widget"] example_v2.components (v2_Runtime example_v2.record) "".

Lemma record_valid : ValidateV2 (U := ascii_tables) (G := sha256_only) (R := pinned_only) (N := https_only) (I := no_literals) record = [].
Proof. vm_compute. reflexivity. Qed.

Definition source : bytes := text_bytes ("class Widget < Formula" +:+ String newline "end").

Definition session : archive_session :=
  MkArchive 0 [MkTarItem [block] (header "widget/1.0/.brew/widget.rb" "0" (Z.of_nat (length source))) [source] [source] false]
    [block; block] true [] true true AfterEOF.

#[local] Instance lib : BottleLib := {|
  hex_sha256 b := digest_of (length b);
  open_archive _ b := if bool_decide (b = example_gzip) then Some session else None;
  marshal_inventory l := Some (concat (text_bytes ∘ ie_Path <$> l));
|}.

Definition verified :=
  VerifyNodeV2 (H := example_receipt.json) (H0 := ascii_tables) good_spool (Some (MkReader example_gzip false)) node [node] options.

Definition verified_result : VerifyResult := match verified with Ok res => res | Err _ => example_receipt.no_result end.

Lemma node_verified_ok : verified = Ok verified_result.
Proof. vm_compute. reflexivity. Qed.

End example_node.

Lemma VerifyNodeV2_bound_witness :
  example_node.verified = Ok example_node.verified_result ∧
  ∃ data, Some (MkReader example_gzip false) = Some (MkReader data false) ∧ Z.of_nat (length data) = b2_Size example_node.bottle ∧
    vr_KegPrefix example_node.verified_result = "widget/1.0".
Proof.
  split; [exact example_node.node_verified_ok|].
  destruct (proj2 (VerifyNodeV2_bound (U := ascii_tables) (G := sha256_only) (R := pinned_only) (N := https_only) (I := no_literals)
    (J := example_receipt.json) (L := example_node.lib) example_node.record example_node.node example_bottle.good_spool
    (Some (MkReader example_gzip false)) example_bottle.options example_node.record_valid ltac:(left)) example_node.verified_result
    example_node.node_verified_ok) as (data & H1 & H2 & _ & _ & H3 & _).
  exact (ex_intro _ data (conj H1 (conj H2 H3))).
Defined.
