(* ===== verification/CatalogStore.v ===== *)
(** * internal/catalogservice: the persistent operation store

    [store.go] with the operation documents of [internal/catalog] it persists:
    operation and request files by operation id, catalog documents by digest,
    and the per-tap sequence numbers. A file system call may fail, before or
    after its effect: every function takes the outcomes of its calls as a value
    of [IO], and the theorems hold for all of them. *)

From S2P Require Import Prelude GoStrings FormulaId Resolution CatalogFields.
From stdpp Require Import options.
Open Scope Z_scope.

(** ** The documents of internal/catalog

    Requests and catalog-set results are opaque to the store and to the service:
    both only pass them to the functions of [internal/catalog] and
    [internal/catalogauth] collected here. [sha256] is the encoded
    [digest.FromBytes]. *)
Class CatalogAPI := {
  Request : Type;
  CatalogSetResult : Type;
  CanonicalRequest : Request → option string;
  DecodeRequest : string → option Request;
  sha256 : string → string;
  (** [DecodeTapCatalog] accepts the bytes and [CanonicalTapCatalog] gives them back *)
  canonicalTapCatalog : string → bool;
  ValidateCatalogSetResult : CatalogSetResult → bool;
  (** the documents a verified result references, by digest *)
  verifiedCatalogs : CatalogSetResult → Request → Z → option (list string);
  (** [Service.cachedResultFresh], given [store.loadCatalog] and the time *)
  cachedResultFresh : (string → option string) → Z → Request → CatalogSetResult → bool;
}.

(** What the service relies on: canonical bytes decode to a request with the
    same canonical bytes, and an encoded SHA-256 is 64 lower-case hexadecimal
    digits. *)
Class CatalogAPILaws `{A : CatalogAPI} : Prop := {
  canonical_decodes r b : CanonicalRequest r = Some b → ∃ r', DecodeRequest b = Some r' ∧ CanonicalRequest r' = Some b;
  sha256_hex b : strlen (sha256 b) = 64 ∧ all_bytes isHexLower (sha256 b) = true;
}.

Inductive OperationStatus := OperationPending | OperationCompleted | OperationFailed.
#[export] Instance OperationStatus_eq_dec : EqDecision OperationStatus.
Proof. solve_decision. Defined.

Record Failure := MkFailure { fl_Code : string; fl_Message : string }.

Definition OperationSchemaVersion : string := "dalec-homebrew-catalog-operation/v1".
Definition MaxOperationIDBytes : Z := 128.
Definition MaxFailureMessageBytes : Z := 1024.

Definition FailureTimeout : string := "timeout".
Definition FailureUnavailable : string := "unavailable".
Definition FailurePolicy : string := "policy".

Definition FailureCode_Valid (code : string) : bool :=
  bool_decide (code ∈ [FailureTimeout; FailureUnavailable; "invalid-tap"; "missing-bottle"; FailurePolicy; "signature"]).

Definition ValidateFailure (f : Failure) : bool :=
  FailureCode_Valid (fl_Code f) && negb ((MaxFailureMessageBytes <? strlen (fl_Message f)) || hasControl (fl_Message f)).

Definition validateOperationID (value : string) : bool :=
  negb (bool_decide (value = "") || bool_decide (value = ".") || bool_decide (value = "..")
        || (MaxOperationIDBytes <? strlen value))
  && all_bytes (λ c, isLower c || isUpper c || isDigit c || ascii_eqb "-" c || ascii_eqb "_" c || ascii_eqb "." c) value.

Section store.
Context `{U : !UnicodeTables, G : !GoDigest, A : !CatalogAPI}.

Record Operation := MkOperation {
  op_SchemaVersion : string; op_ID : string; op_Status : OperationStatus;
  op_RetryAfterSeconds : Z; op_Result : option CatalogSetResult; op_Failure : option Failure;
}.

Definition is_none {B} (o : option B) : bool := match o with None => true | Some _ => false end.

Definition ValidateOperation (o : Operation) : bool :=
  bool_decide (op_SchemaVersion o = OperationSchemaVersion) && validateOperationID (op_ID o) &&
  match op_Status o with
  | OperationPending =>
      negb ((op_RetryAfterSeconds o <? 0) || (3600 <? op_RetryAfterSeconds o))
      && is_none (op_Result o) && is_none (op_Failure o)
  | OperationCompleted =>
      (op_RetryAfterSeconds o =? 0) && is_none (op_Failure o)
      && match op_Result o with Some r => ValidateCatalogSetResult r | None => false end
  | OperationFailed =>
      (op_RetryAfterSeconds o =? 0) && is_none (op_Result o)
      && match op_Failure o with Some f => ValidateFailure f | None => false end
  end.

(** [catalog.RequestDigest], its encoded part *)
Definition RequestDigest (r : Request) : option string := sha256 <$> CanonicalRequest r.

(** ** Identifiers *)

Definition validSHA256Hex (value : string) : bool :=
  (strlen value =? 64) && bool_decide (strings_ToLower value = value) && hex_decodable value.

Definition operationIDFromDigest (d : string) : string := "op-" +:+ d.

Definition OperationID (r : Request) : option string := operationIDFromDigest <$> RequestDigest r.

Definition validOperationID (value : string) : bool :=
  strings_HasPrefix value "op-" && validSHA256Hex (strings_TrimPrefix value "op-").

(** ** Files

    [operations/<id>.json] with its modification time, [requests/<id>.json],
    [catalogs/sha256/<digest>] with its modification time and
    [sequences/<owner>/<name>.json] by tap. *)

Record sequenceState := MkSequenceState {
  sq_SchemaVersion : string; sq_Tap : string; sq_Sequence : Z; sq_SourceIdentity : string;
}.

Record store := MkStore {
  st_operations : gmap string (Z * Operation);
  st_requests : gmap string string;
  st_catalogs : gmap string (Z * string);
  st_sequences : gmap string sequenceState;
}.

Definition set_operations (f : gmap string (Z * Operation) → gmap string (Z * Operation)) (st : store) : store :=
  MkStore (f (st_operations st)) (st_requests st) (st_catalogs st) (st_sequences st).
Definition set_requests (f : gmap string string → gmap string string) (st : store) : store :=
  MkStore (st_operations st) (f (st_requests st)) (st_catalogs st) (st_sequences st).
Definition set_catalogs (f : gmap string (Z * string) → gmap string (Z * string)) (st : store) : store :=
  MkStore (st_operations st) (st_requests st) (f (st_catalogs st)) (st_sequences st).
Definition set_sequences (f : gmap string sequenceState → gmap string sequenceState) (st : store) : store :=
  MkStore (st_operations st) (st_requests st) (st_catalogs st) (f (st_sequences st)).

Record storedOperationInfo := MkInfo { si_ID : string; si_ModTime : Z }.

Definition info_le : relation storedOperationInfo := λ i j, si_ModTime i <= si_ModTime j.
#[export] Instance info_le_dec : RelDecision info_le.
Proof. intros i j. unfold info_le. apply _. Defined.

(** The outcome of a write: it may fail before the file is in place, or after
    it ([syncDirectory] after the rename). *)
Inductive fault := NoFault | Fault (applied : bool).

(** The outcome of [removeOperation]: it stops at the operation file, at the
    request file, or at the directory sync. *)
Inductive removal := Removed | KeptBoth | KeptRequest | NotSynced.

(** The outcomes of the file system and clock calls of one critical section,
    each of which is made at most once per file. [io_sort] is [sort.Slice],
    which orders equal keys arbitrarily. *)
Record IO := MkIO {
  io_now : Z;
  io_mtime : Z;
  io_read_fails : string → bool;
  io_read_request_fails : string → bool;
  io_read_catalog_fails : string → bool;
  io_list_fails : bool;
  io_infos_fails : bool;
  io_put : fault;
  io_save : fault;
  io_remove : string → removal;
  io_unlink_fails : string → bool;
  io_sequence_fails : bool;
  io_sort : list storedOperationInfo → list storedOperationInfo;
}.

Definition sort_ok (io : IO) : Prop := ∀ l,
  io_sort io l ≡ₚ l ∧ StronglySorted info_le (io_sort io l).

Inductive load_error := ErrNotExist | ErrUnreadable.
#[local] Instance load_error_eq_dec : EqDecision load_error.
Proof. solve_decision. Defined.

(** ** Operations *)

(** [atomicWrite] and [writeImmutable] end with the outcome [w]. *)
Definition with_fault (w : fault) (write : store → store) (st : store) : store * bool :=
  match w with
  | NoFault => (write st, true)
  | Fault applied => (if applied then write st else st, false)
  end.

Definition saveOperation (io : IO) (o : Operation) (st : store) : store * bool :=
  if ValidateOperation o then with_fault (io_save io) (set_operations <[op_ID o := (io_mtime io, o)]>) st
  else (st, false).

Definition loadOperation (io : IO) (id : string) (st : store) : result load_error Operation :=
  if negb (validOperationID id) then Err ErrUnreadable
  else match st_operations st !! id with
       | None => Err ErrNotExist
       | Some (_, o) =>
           if io_read_fails io id then Err ErrUnreadable
           else if negb (ValidateOperation o) then Err ErrUnreadable
           else if negb (bool_decide (op_ID o = id)) then Err ErrUnreadable
           else Ok o
       end.

(** [writeImmutable]: an existing entry is compared, never replaced. *)
Definition putRequest (io : IO) (id : string) (data : string) (st : store) : store * bool :=
  if negb (validOperationID id) then (st, false)
  else if is_none (DecodeRequest data) then (st, false)
  else match st_requests st !! id with
       | Some existing => (st, negb (io_read_request_fails io id) && bool_decide (existing = data))
       | None => with_fault (io_put io) (set_requests <[id := data]>) st
       end.

Definition loadRequest (io : IO) (id : string) (st : store) : result load_error Request :=
  if negb (validOperationID id) then Err ErrUnreadable
  else match st_requests st !! id with
       | None => Err ErrNotExist
       | Some data =>
           if io_read_request_fails io id then Err ErrUnreadable
           else match DecodeRequest data with
                | None => Err ErrUnreadable
                | Some r => if bool_decide (CanonicalRequest r = Some data) then Ok r else Err ErrUnreadable
                end
       end.

(** The directory listing is sorted by name. *)
Definition operation_ids (st : store) : list string := slices_Sort (elements (dom (st_operations st))).

Definition listOperations (io : IO) (st : store) : result load_error (list string) :=
  if io_list_fails io then Err ErrUnreadable
  else if forallb validOperationID (operation_ids st) then Ok (operation_ids st) else Err ErrUnreadable.

Definition operation_info (st : store) (id : string) : storedOperationInfo :=
  MkInfo id (default 0 (fst <$> st_operations st !! id)).

Definition operationInfos (io : IO) (st : store) : result load_error (list storedOperationInfo) :=
  if io_infos_fails io then Err ErrUnreadable
  else Ok (operation_info st <$> filter (λ id, validOperationID id = true) (operation_ids st)).

Definition removeOperation (io : IO) (id : string) (st : store) : store * bool :=
  if negb (validOperationID id) then (st, false)
  else match io_remove io id with
       | Removed => (set_requests (delete id) (set_operations (delete id) st), true)
       | KeptBoth => (st, false)
       | KeptRequest => (set_operations (delete id) st, false)
       | NotSynced => (set_requests (delete id) (set_operations (delete id) st), false)
       end.

(** A catalog document is stored under the digest of its canonical bytes. *)
Definition putCatalog (io : IO) (data : string) (st : store) : store * option string :=
  if negb (canonicalTapCatalog data) then (st, None)
  else
    let encoded := sha256 data in
    let '(st', ok) :=
      match st_catalogs st !! encoded with
      | Some (_, existing) => (st, negb (io_read_catalog_fails io encoded) && bool_decide (existing = data))
      | None => with_fault (io_put io) (set_catalogs <[encoded := (io_mtime io, data)]>) st
      end in
    (st', if ok then Some ("sha256:" +:+ encoded) else None).

Definition loadCatalog (io : IO) (encoded : string) (st : store) : result load_error string :=
  if negb (validSHA256Hex encoded) then Err ErrNotExist
  else match st_catalogs st !! encoded with
       | None => Err ErrNotExist
       | Some (_, data) =>
           if io_read_catalog_fails io encoded then Err ErrUnreadable
           else if negb (bool_decide (sha256 data = encoded)) then Err ErrUnreadable
           else if negb (canonicalTapCatalog data) then Err ErrUnreadable
           else Ok data
       end.

(** The loop of [removeCatalogsExcept] over the directory entries. *)
Fixpoint removeCatalogs (io : IO) (referenced : gset string) (now retention : Z) (entries : list string)
    (st : store) : store * bool :=
  match entries with
  | [] => (st, true)
  | name :: entries =>
      if negb (validSHA256Hex name) then removeCatalogs io referenced now retention entries st
      else if decide (name ∈ referenced) then removeCatalogs io referenced now retention entries st
      else if (0 <? retention) && (now - default 0 (fst <$> st_catalogs st !! name) <? retention)
      then removeCatalogs io referenced now retention entries st
      else if io_unlink_fails io name then (st, false)
      else removeCatalogs io referenced now retention entries (set_catalogs (delete name) st)
  end.

Definition removeCatalogsExcept (io : IO) (referenced : gset string) (now retention : Z) (st : store) : store * bool :=
  removeCatalogs io referenced now retention (slices_Sort (elements (dom (st_catalogs st)))) st.

(** ** Sequence numbers *)

Inductive sequence_error :=
| SequenceTap | SequenceCore | SequenceSource | SequenceStorage | SequenceInvalid | SequenceExhausted.

Definition sequenceSchemaVersion : string := "dalec-homebrew-catalog-sequence/v2".
Definition max_uint64 : Z := 2 ^ 64 - 1.

Definition nextSequence (io : IO) (tap source : string) (st : store) : store * result sequence_error Z :=
  if negb (TapID_Validate tap) then (st, Err SequenceTap)
  else if TapID_IsCore tap then (st, Err SequenceCore)
  else if negb (is_ok (validateDigest source)) then (st, Err SequenceSource)
  else if io_sequence_fails io then (st, Err SequenceStorage)
  else
    let allocate current :=
      if current =? max_uint64 then (st, Err SequenceExhausted)
      else
        let next := current + 1 in
        let state := MkSequenceState sequenceSchemaVersion tap next source in
        let '(st', ok) := with_fault (io_save io) (set_sequences <[tap := state]>) st in
        (st', if ok then Ok next else Err SequenceStorage) in
    match st_sequences st !! tap with
    | None => allocate 0
    | Some s =>
        if negb (bool_decide (sq_SchemaVersion s = sequenceSchemaVersion)) || negb (bool_decide (sq_Tap s = tap))
           || (sq_Sequence s =? 0) || bool_decide (sq_SourceIdentity s = "")
        then (st, Err SequenceInvalid)
        else if bool_decide (sq_SourceIdentity s = source) then (st, Ok (sq_Sequence s))
        else allocate (sq_Sequence s)
    end.

(** A history of allocations, with their outcomes. *)
Fixpoint sequence_history (calls : list (IO * string * string)) (st : store)
    : list (string * string * result sequence_error Z) :=
  match calls with
  | [] => []
  | (io, tap, source) :: calls =>
      let '(st', r) := nextSequence io tap source st in (tap, source, r) :: sequence_history calls st'
  end.

(** ** Lemmas: what each call may do to the operation files *)

Lemma with_fault_cases w f st st' ok :
  with_fault w f st = (st', ok) → st' = f st ∨ st' = st ∧ ok = false.
Proof. destruct w as [|[]]; naive_solver. Qed.

Lemma saveOperation_cases io o st st' ok : saveOperation io o st = (st', ok) →
  st_operations st' = <[op_ID o := (io_mtime io, o)]> (st_operations st) ∨ st' = st ∧ ok = false.
Proof.
  unfold saveOperation. destruct (ValidateOperation o); [|naive_solver].
  intros [->|?]%with_fault_cases; [by left|by right].
Qed.

Lemma putRequest_operations io id data st : st_operations (fst (putRequest io id data st)) = st_operations st.
Proof.
  unfold putRequest. destruct (validOperationID id), (DecodeRequest data); try done.
  cbn. destruct (st_requests st !! id); [done|]. by destruct (io_put io) as [|[]].
Qed.

Lemma putCatalog_operations io data st : st_operations (fst (putCatalog io data st)) = st_operations st.
Proof.
  unfold putCatalog. destruct (canonicalTapCatalog data); [|done]. cbn.
  destruct (st_catalogs st !! _) as [[]|]; [done|]. by destruct (io_put io) as [|[]].
Qed.

Lemma sha256_validHex `{L : !CatalogAPILaws} data : validSHA256Hex (sha256 data) = true.
Proof.
  destruct (sha256_hex data) as [Hlen Hhex]. unfold validSHA256Hex. rewrite Hlen. cbn. apply andb_true_intro. split.
  - apply bool_decide_eq_true_2, ToLower_id. eapply all_bytes_impl; [|exact Hhex].
    intros c. unfold isHexLower, isDigit, isAscii, isUpper, byte_in. lia.
  - unfold hex_decodable. unfold strlen in Hlen. assert (String.length (sha256 data) = 64%nat) as -> by lia. cbn.
    eapply all_bytes_impl; [|exact Hhex]. intros c Hc. unfold isHex. by rewrite Hc.
Qed.

(** A stored document can be read back under the digest that was returned, by
    any later call whose read does not fail. *)
Lemma putCatalog_loadCatalog `{L : !CatalogAPILaws} io io' data st st' d : putCatalog io data st = (st', Some d) →
  io_read_catalog_fails io' (sha256 data) = false →
  d = "sha256:" +:+ sha256 data ∧ loadCatalog io' (sha256 data) st' = Ok data.
Proof.
  unfold putCatalog, loadCatalog. intros H Hio. destruct (canonicalTapCatalog data) eqn:Ec; [|done]. cbn in H.
  rewrite sha256_validHex.
  cbn. assert (∃ t, st_catalogs st' !! sha256 data = Some (t, data) ∧ d = "sha256:" +:+ sha256 data) as (t & -> & ->).
  { destruct (st_catalogs st !! sha256 data) as [[t existing]|] eqn:Es.
    - destruct (negb (io_read_catalog_fails io (sha256 data)) && bool_decide (existing = data)) eqn:Eb; [|done].
      case_bool. simplify_eq. by exists t.
    - destruct (with_fault _ _ st) as [st1 ok] eqn:Ew. destruct ok; [|done]. simplify_eq.
      apply with_fault_cases in Ew as [->|[_ ?]]; [|done]. exists (io_mtime io). split; [apply lookup_insert_eq|done]. }
  split; [done|]. rewrite Hio, bool_decide_eq_true_2 by done. cbn. by rewrite Ec.
Qed.

Lemma nextSequence_operations io tap source st : st_operations (fst (nextSequence io tap source st)) = st_operations st.
Proof. unfold nextSequence, with_fault. repeat case_match; simplify_eq; done. Qed.

Lemma removeCatalogs_operations io referenced now retention entries st :
  st_operations (fst (removeCatalogs io referenced now retention entries st)) = st_operations st.
Proof.
  revert st. induction entries as [|name entries IH]; intros st; cbn; [done|]. by repeat case_match; rewrite ?IH.
Qed.

Lemma removeOperation_cases io id st st' ok : removeOperation io id st = (st', ok) →
  st_operations st' = delete id (st_operations st) ∨ st' = st ∧ ok = false.
Proof. unfold removeOperation. destruct (validOperationID id); [|naive_solver]. destruct (io_remove io id); naive_solver. Qed.

Lemma loadOperation_ok io id st o : loadOperation io id st = Ok o →
  op_ID o = id ∧ validOperationID id = true ∧ ∃ t, st_operations st !! id = Some (t, o).
Proof.
  unfold loadOperation. intros H. destruct (validOperationID id) eqn:Ev; [|done]. cbn in H.
  destruct (st_operations st !! id) as [[t o']|] eqn:Eo; [|done]. res_inv H. case_bool. split_and!; [done..|]. by exists t.
Qed.

Lemma loadOperation_missing io id st : loadOperation io id st = Err ErrNotExist → st_operations st !! id = None.
Proof.
  unfold loadOperation. destruct (validOperationID id); [|done]. cbn.
  destruct (st_operations st !! id) as [[t o]|]; [|done]. by repeat case_match.
Qed.

Lemma loadRequest_ok io id st r : loadRequest io id st = Ok r → is_Some (CanonicalRequest r).
Proof.
  unfold loadRequest. intros H. destruct (validOperationID id); [|done]. cbn in H.
  destruct (st_requests st !! id); [|done]. res_inv H. destruct (DecodeRequest _); [|done]. res_inv H. case_bool. by eexists.
Qed.

Lemma elem_of_operation_ids st id : id ∈ operation_ids st ↔ is_Some (st_operations st !! id).
Proof. unfold operation_ids. by rewrite elem_of_slices_Sort, elem_of_elements, elem_of_dom. Qed.

Lemma operation_ids_NoDup st : NoDup (operation_ids st).
Proof. unfold operation_ids. rewrite slices_Sort_Permutation. apply NoDup_elements. Qed.

Lemma operation_ids_length st : length (operation_ids st) = size (st_operations st).
Proof. unfold operation_ids. by rewrite slices_Sort_Permutation, <-size_dom. Qed.

Lemma listOperations_ok io st ids : listOperations io st = Ok ids → ids = operation_ids st.
Proof. unfold listOperations. repeat case_match; naive_solver. Qed.

Lemma operationInfos_ok io st infos : operationInfos io st = Ok infos →
  NoDup (si_ID <$> infos) ∧ (∀ i, i ∈ infos → i = operation_info st (si_ID i)) ∧
  (∀ id, id ∈ si_ID <$> infos ↔ is_Some (st_operations st !! id) ∧ validOperationID id = true) ∧
  (forallb validOperationID (operation_ids st) = true → length infos = size (st_operations st)).
Proof.
  unfold operationInfos. destruct (io_infos_fails io); [done|]. intros [= <-].
  assert (si_ID <$> (operation_info st <$> filter (λ id, validOperationID id = true) (operation_ids st)) =
          filter (λ id, validOperationID id = true) (operation_ids st)) as Hid.
  { rewrite <-list_fmap_compose. apply list_fmap_id. }
  rewrite Hid. split_and!.
  - apply NoDup_filter, operation_ids_NoDup.
  - by intros i (id & -> & _)%list_elem_of_fmap.
  - intros id. rewrite list_elem_of_filter, elem_of_operation_ids. naive_solver.
  - rewrite length_fmap, <-operation_ids_length. clear. induction (operation_ids st) as [|id ids IH]; [done|].
    cbn [forallb]. intros [Hv Hall]%andb_prop. rewrite filter_cons_True by done. cbn [length]. by rewrite IH.
Qed.

(** What [removeCatalogs] keeps, and, when no call fails, removes. *)
Definition keeps_catalog (referenced : gset string) (now retention : Z) (name : string) (t : Z) : Prop :=
  validSHA256Hex name = false ∨ name ∈ referenced ∨ 0 < retention ∧ now - t < retention.

Lemma removeCatalogs_keeps io referenced now retention entries st name t data :
  st_catalogs st !! name = Some (t, data) → keeps_catalog referenced now retention name t →
  st_catalogs (fst (removeCatalogs io referenced now retention entries st)) !! name = Some (t, data).
Proof.
  intros Hst Hk. revert st Hst. induction entries as [|n entries IH]; intros st Hst; cbn; [done|].
  destruct (validSHA256Hex n) eqn:Ev; cbn [negb]; [|by apply IH]. case_decide; [by apply IH|].
  destruct (_ && _) eqn:Er; [by apply IH|]. destruct (io_unlink_fails io n); [done|]. apply IH. cbn.
  rewrite lookup_delete_ne; [done|]. intros ->. rewrite Hst in Er. destruct Hk as [?|[?|[H1 H2]]]; [congruence|done|].
  apply Z.ltb_lt in H1, H2. cbn in Er. by rewrite H1, H2 in Er.
Qed.

Lemma removeCatalogs_none io referenced now retention entries st name : st_catalogs st !! name = None →
  st_catalogs (fst (removeCatalogs io referenced now retention entries st)) !! name = None.
Proof.
  revert st. induction entries as [|n entries IH]; intros st Hn; cbn; [done|]. repeat case_match; auto.
  apply IH. cbn. destruct (decide (n = name)) as [->|]; [apply lookup_delete_eq|by rewrite lookup_delete_ne].
Qed.

Lemma removeCatalogs_removes io referenced now retention entries st name t data :
  (∀ n, io_unlink_fails io n = false) → st_catalogs st !! name = Some (t, data) → name ∈ entries →
  ¬ keeps_catalog referenced now retention name t →
  st_catalogs (fst (removeCatalogs io referenced now retention entries st)) !! name = None.
Proof.
  intros Hio Hst Hin Hk. revert st Hst. induction entries as [|n entries IH]; intros st Hst; [by apply not_elem_of_nil in Hin|].
  cbn. rewrite Hio. destruct (decide (n = name)) as [->|Hne].
  - unfold keeps_catalog in Hk. destruct (validSHA256Hex name); [|naive_solver]. cbn [negb].
    rewrite decide_False by naive_solver. rewrite Hst. cbn [default from_option].
    destruct (_ && _) eqn:Er; [case_bool; naive_solver|]. apply removeCatalogs_none. apply lookup_delete_eq.
  - apply elem_of_cons in Hin as [?|Hin]; [done|]. specialize (IH Hin). repeat case_match; try by apply IH.
    apply IH. cbn. by rewrite lookup_delete_ne.
Qed.

(** Sequence numbers only grow, and a number that stays keeps its source. *)
Definition sequences_le (a b : gmap string sequenceState) : Prop := ∀ tap s, a !! tap = Some s →
  ∃ s', b !! tap = Some s' ∧ (s' = s ∨ sq_Sequence s < sq_Sequence s').

#[export] Instance sequences_le_preorder : PreOrder sequences_le.
Proof.
  split; [intros a tap s ?; eauto|]. intros a b c Hab Hbc tap s (s1 & (s2 & ? & H2)%Hbc & H1)%Hab.
  exists s2. split; [done|]. destruct H1 as [->|?], H2 as [->|?]; auto with lia.
Qed.

Lemma sequences_le_insert m tap s : (∀ s0, m !! tap = Some s0 → sq_Sequence s0 < sq_Sequence s) → sequences_le m (<[tap := s]> m).
Proof.
  intros Hs tap' s0 H0. destruct (decide (tap' = tap)) as [->|].
  - exists s. rewrite lookup_insert_eq. auto.
  - exists s0. rewrite lookup_insert_ne by done. auto.
Qed.

(** One allocation: the sequences grow, and the answer is what is stored. *)
Lemma nextSequence_spec io tap source st st' r : nextSequence io tap source st = (st', r) →
  sequences_le (st_sequences st) (st_sequences st') ∧
  ∀ n, r = Ok n → ∃ s, st_sequences st' !! tap = Some s ∧ sq_Sequence s = n ∧ sq_SourceIdentity s = source.
Proof.
  unfold nextSequence. intros H.
  do 4 (match type of H with (if ?b then _ else _) = _ => destruct b; [simplify_eq; by split|] end).
  assert (∀ current, (∀ s0, st_sequences st !! tap = Some s0 → sq_Sequence s0 = current) →
    (if current =? max_uint64 then (st, Err SequenceExhausted)
     else let '(st', ok) := with_fault (io_save io)
            (set_sequences <[tap := MkSequenceState sequenceSchemaVersion tap (current + 1) source]>) st in
          (st', if ok then Ok (current + 1) else Err SequenceStorage)) = (st', r) →
    sequences_le (st_sequences st) (st_sequences st') ∧
    ∀ n, r = Ok n → ∃ s, st_sequences st' !! tap = Some s ∧ sq_Sequence s = n ∧ sq_SourceIdentity s = source) as Halloc.
  { clear H. intros current Hc Ha. destruct (current =? max_uint64); [simplify_eq; by split|].
    destruct (with_fault _ _ st) as [st1 ok] eqn:Ew. simplify_eq.
    apply with_fault_cases in Ew as [->|[-> ->]]; [|split; [reflexivity|by intros ? [=]]].
    split.
    - apply sequences_le_insert. intros s0 <-%Hc. cbn. lia.
    - intros n Hn. eexists. split; [apply lookup_insert_eq|]. destruct ok; by simplify_eq. }
  destruct (st_sequences st !! tap) as [s|] eqn:Es; [|by apply (Halloc 0)].
  destruct (_ || _ || _ || _); [simplify_eq; by split|]. case_bool_decide as Hsrc.
  - simplify_eq. split; [done|]. intros n [= <-]. eauto.
  - apply (Halloc (sq_Sequence s)); [by intros ? [= ->]|done].
Qed.

Lemma sequence_history_grows calls st tap source n : (tap, source, Ok n) ∈ sequence_history calls st →
  ∃ st' s, sequences_le (st_sequences st) (st_sequences st') ∧
    st_sequences st' !! tap = Some s ∧ sq_Sequence s = n ∧ sq_SourceIdentity s = source.
Proof.
  revert st. induction calls as [|[[io t] src] calls IH]; intros st; cbn; [by intros ?%not_elem_of_nil|].
  destruct (nextSequence io t src st) as [st1 r] eqn:En. apply nextSequence_spec in En as [Hle Hr].
  intros [[= <- <- <-]|Hin]%elem_of_cons.
  - destruct (Hr n eq_refl) as (s & ? & ? & ?). by exists st1, s.
  - destruct (IH st1 Hin) as (st2 & s & ? & ?). exists st2, s. split; [by etrans|done].
Qed.

(** Sequence numbers are safe across any history of allocations, whatever
    writes fail and whichever taps are interleaved: later answers for a tap are
    never smaller, and one number never names two sources. *)
Theorem sequence_history_monotone calls st i j tap src1 src2 n m
  (Hij : (i < j)%nat)
  (Hi : sequence_history calls st !! i = Some (tap, src1, Ok n))
  (Hj : sequence_history calls st !! j = Some (tap, src2, Ok m)) :
  n <= m ∧ (n = m → src1 = src2).
Proof.
  revert st i j Hij Hi Hj. induction calls as [|[[io t] src] calls IH]; intros st i j Hij Hi Hj; [done|].
  cbn in Hi, Hj. destruct (nextSequence io t src st) as [st1 r] eqn:En.
  destruct j as [|j]; [lia|]. cbn in Hj. destruct i as [|i]; [|cbn in Hi; eapply (IH st1 i j); eauto; lia].
  cbn in Hi. simplify_eq. apply nextSequence_spec in En as [_ Hr].
  destruct (Hr n eq_refl) as (s & Hs & <- & <-).
  apply list_elem_of_lookup_2, sequence_history_grows in Hj as (st2 & s2 & Hle & Hs2 & <- & <-).
  apply Hle in Hs as (s' & ? & [->|?]); simplify_eq; (split; [lia|]); [done|intros; exfalso; lia].
Qed.

End store.

(** ** A concrete instance, for the witnesses *)

Module StoreExample.

Definition hex_a : string := "aaaaaaaaaaaaaaaaaaaaaaaaaaaaaaaaaaaaaaaaaaaaaaaaaaaaaaaaaaaaaaaa".
Definition hex_b : string := "bbbbbbbbbbbbbbbbbbbbbbbbbbbbbbbbbbbbbbbbbbbbbbbbbbbbbbbbbbbbbbbb".

(** Requests are the names [a] and [b], their own canonical bytes. *)
Definition api : CatalogAPI :=
  {| Request := string; CatalogSetResult := string;
     CanonicalRequest r := if bool_decide (r ∈ ["a"; "b"]) then Some r else None;
     DecodeRequest b := if bool_decide (b ∈ ["a"; "b"]) then Some b else None;
     sha256 b := if bool_decide (b = "a") then hex_a else hex_b;
     canonicalTapCatalog _ := true;
     ValidateCatalogSetResult _ := true;
     verifiedCatalogs _ _ _ := Some [hex_a];
     cachedResultFresh _ _ _ _ := true |}.

Lemma api_laws : @CatalogAPILaws api.
Proof.
  split; cbn.
  - intros r b. case_bool_decide as Hr; [|done]. intros [= <-]. exists r. by rewrite bool_decide_eq_true_2.
  - intros b. by case_bool_decide.
Qed.

Definition by_mtime (l : list storedOperationInfo) : list storedOperationInfo :=
  merge_sort info_le l.

(** No call fails; the clock is [t]. *)
Definition io (t : Z) : IO :=
  MkIO t t (λ _, false) (λ _, false) (λ _, false) false false NoFault NoFault (λ _, Removed) (λ _, false) false by_mtime.

Lemma io_sort_ok t : sort_ok (io t).
Proof.
  intros l. split; [apply merge_sort_Permutation|]. apply StronglySorted_merge_sort.
  - intros i j k. unfold info_le. lia.
  - intros i j. unfold info_le. lia.
Qed.

Definition empty_store : @store api := MkStore ∅ ∅ ∅ ∅.

End StoreExample.

Lemma sequence_history_monotone_witness :
  ∃ n m, @sequence_history sha256_only StoreExample.api
           [(StoreExample.io 0, "acme/tools", "sha256:" +:+ StoreExample.hex_a);
            (StoreExample.io 1, "acme/tools", "sha256:" +:+ StoreExample.hex_b)] StoreExample.empty_store
         = [("acme/tools", "sha256:" +:+ StoreExample.hex_a, Ok n); ("acme/tools", "sha256:" +:+ StoreExample.hex_b, Ok m)] ∧
         n <= m.
Proof.
  eexists _, _. split; [vm_compute; reflexivity|].
  eapply (@sequence_history_monotone sha256_only StoreExample.api
    [(StoreExample.io 0, "acme/tools", "sha256:" +:+ StoreExample.hex_a);
     (StoreExample.io 1, "acme/tools", "sha256:" +:+ StoreExample.hex_b)] StoreExample.empty_store 0 1).
  - lia.
  - vm_compute. reflexivity.
  - vm_compute. reflexivity.
Defined.
