(* ===== verification/CatalogClient.v ===== *)
(** * internal/catalogclient: the frontend side of the catalog protocol

    The client posts its request, polls the operation it is given until that ends,
    verifies the signed set under the keys the release accepts and fetches every
    catalog document the set references. HTTP, the clock and sleeping are a world
    the functions pass along: every theorem holds for all of its answers. *)

From S2P Require Import Prelude GoStrings NetUrl Base64 JsonUnique FormulaId Resolution ClosureGraph FetchPolicy CatalogFields CatalogStore.
From S2P Require Import CatalogRequest CatalogTap CatalogClosure CatalogArtifact CatalogSet Jws CatalogKeys CatalogPayload CatalogAuth.
From stdpp Require Import options.
Import catalogkeys.
Open Scope Z_scope.

(** ** Operations on the wire: internal/catalog *)

Definition MaxOperationBytes : Z := Z.shiftl 64 20.

Module wire.

Definition OperationPending : string := "pending".
Definition OperationCompleted : string := "completed".
Definition OperationFailed : string := "failed".

(** A decoded operation: the status is whatever text the document has. *)
Record Operation := MkOperation {
  op_SchemaVersion : string; op_ID : string; op_Status : string;
  op_RetryAfterSeconds : Z; op_Result : option CatalogAuth.CatalogSetResult; op_Failure : option Failure;
}.

End wire.
Import wire.

(** [encoding/json] on operations and results, strictly *)
Class OperationJSON := {
  decodeOperation : string → option Operation;
  decodeResult : string → option CatalogAuth.CatalogSetResult;
}.

Section documents.
Context `{U : !UnicodeTables, J : !JSONText, OJ : !OperationJSON}.

Definition wire_ValidateOperation (o : Operation) : list string :=
  err_if (negb (bool_decide (op_SchemaVersion o = OperationSchemaVersion))) "unsupported schema_version" ++
  err_if (negb (validateOperationID (op_ID o))) "id" ++
  if bool_decide (op_Status o = OperationPending) then
    err_if ((op_RetryAfterSeconds o <? 0) || (3600 <? op_RetryAfterSeconds o)) "retry_after_seconds" ++
    err_if (present (op_Result o) || present (op_Failure o)) "pending operation cannot contain result or failure"
  else if bool_decide (op_Status o = OperationCompleted) then
    err_if (negb (op_RetryAfterSeconds o =? 0) || negb (present (op_Result o)) || present (op_Failure o)) "completed operation must contain only result" ++
    on_some (op_Result o) CatalogAuth.ValidateCatalogSetResult
  else if bool_decide (op_Status o = OperationFailed) then
    err_if (negb (op_RetryAfterSeconds o =? 0) || present (op_Result o) || negb (present (op_Failure o))) "failed operation must contain only failure" ++
    on_some (op_Failure o) (λ f, err_if (negb (ValidateFailure f)) "failure")
  else ["unsupported operation status"].

Definition DecodeOperation (data : string) : option Operation :=
  if MaxOperationBytes <? strlen data then None else
  match decodeOperation data with
  | Some o => match wire_ValidateOperation o with [] => Some o | _ => None end
  | None => None
  end.

Definition DecodeCatalogSetResult (data : string) : option CatalogAuth.CatalogSetResult :=
  if MaxOperationBytes <? strlen data then None else
  match decodeResult data with
  | Some r => match CatalogAuth.ValidateCatalogSetResult r with [] => Some r | _ => None end
  | None => None
  end.

End documents.

(** ** Durations *)

(** [time.Duration] is a 64-bit integer of nanoseconds: products wrap around. *)
Definition wrap64 (z : Z) : Z := (z + 2 ^ 63) mod 2 ^ 64 - 2 ^ 63.

Definition time_Second : Z := 1000000000.
Definition DefaultPollingDeadline : Z := 30 * 60 * time_Second.
Definition MaxPollingDeadline : Z := 24 * 60 * 60 * time_Second.
Definition defaultRetryAfter : Z := 2 * time_Second.
Definition maxRetryAfter : Z := 60 * time_Second.

Definition parseRetryAfter (value : string) : Z :=
  match strconv_Atoi (strings_TrimSpace value) with
  | Ok seconds => if seconds <=? 0 then 0 else wrap64 (seconds * time_Second)
  | Err _ => 0
  end.

(** The pause before the next poll *)
Definition poll_delay (operation : Operation) (headerRetry : Z) : Z :=
  let delay := wrap64 (op_RetryAfterSeconds operation * time_Second) in
  let delay := if delay =? 0 then headerRetry else delay in
  let delay := if delay <=? 0 then defaultRetryAfter else delay in
  if maxRetryAfter <? delay then maxRetryAfter else delay.

(** ** The world *)

Record http_request := MkHttpRequest { hq_Method : string; hq_URL : string; hq_Headers : list (string * string); hq_Body : option string }.

(** An answer: the bytes its body delivers, whether reading them ends in an error
    and whether closing it fails. An absent Content-Length is -1. *)
Record http_response := MkHttpResponse {
  hr_StatusCode : Z; hr_RetryAfter : string; hr_ContentLength : Z; hr_Body : string; hr_ReadError : bool; hr_CloseError : bool;
}.

Class World := {
  world : Type;
  (** One exchange; redirects are not followed. [None] is a request that cannot be
      built or a transport error, the polling deadline included. *)
  http_Do : http_request → world → world * option http_response;
  (** Sleeping ends early, with an error, at the polling deadline. *)
  env_Sleep : Z → world → world * bool;
  (** [Config.Now]; [None] is the zero time. *)
  env_Now : world → option Z;
  time_Now : world → Z;
}.

(** [URL.String] and [url.PathEscape] *)
Class URLText := { url_String : URL → string; url_PathEscape : string → string }.

Inductive client_error :=
| ClientOrigin | ClientPolicy | ClientPolicyDigest | ClientFloorBelowPolicy | ClientKeyID | ClientDeadline | ClientFloor
| ClientRequest | ClientHTTP | ClientRead | ClientTooLarge | ClientStatus (status : Z) | ClientUndecodable
| OperationError (code message : string) | ClientOperationStatus | PollingDeadline (id : string) | OperationIDChanged
| ResultRequestDigest | ClientAuth (e : auth_error) | ClientBinding (e : binding_error) | ClientPayload (e : payload_error) | ResultPayloadDigest
| ClientAuthorize (e : authorize_error) | ReferenceOrigin (e : reference_error) | SequenceRollback | AggregateBytes | ContentLength | CatalogSize
| CatalogDigest | CatalogDocument (e : served_error) | DuplicateCatalog | ClientPanic | ClientOutOfFuel.

Record Config := MkConfig {
  cf_Origin : string; cf_Keys : KeySet; cf_RequiredKeyID : string; cf_AllowKeyOverlap : bool; cf_KeyPolicy : option Policy;
  cf_KeyPolicyDigest : string; cf_PollingDeadline : Z; cf_MinimumSequences : gmap string Z;
}.

Record Client := MkClient {
  cl_origin : URL; cl_keys : KeySet; cl_acceptedKeyIDs : list string; cl_allowKeyOverlap : bool; cl_keyPolicy : option Policy;
  cl_pollingDeadline : Z; cl_minimumSequence : gmap string Z;
}.

Record Result := MkResult {
  re_Payload : CatalogSetPayload; re_Catalogs : gmap string TapCatalog; re_JWS : string; re_Signatures : list SignatureInfo;
  re_MinimumSequences : gmap string Z; re_SetPayloadDigest : string; re_SetEnvelopeDigest : string;
}.

(** The first [n] bytes *)
Fixpoint take_bytes (n : Z) (s : string) : string :=
  match s with "" => "" | String c s => if n <=? 0 then "" else String c (take_bytes (n - 1) s) end.

(** [io.ReadAll(io.LimitReader(body, limit))] *)
Definition read_limited (limit : Z) (r : http_response) : option string :=
  if strlen (hr_Body r) <=? limit then if hr_ReadError r then None else Some (hr_Body r) else Some (take_bytes limit (hr_Body r)).

(** ** Creating a client: [New] *)

(** What the key policy, or the configuration without one, decides *)
Record trust := MkTrust {
  tu_keys : KeySet; tu_required : string; tu_accepted : list string; tu_overlap : bool; tu_policy : option Policy; tu_floors : gmap string Z;
}.

Section new.
Context `{U : !UnicodeTables, N : !NetURL, G : !GoDigest, D : !Digester, S : !SignatureLib, P : !PublicKeyEncoding, PJ : !PolicyJSON}.

Definition parseOrigin (raw : string) : result client_error URL :=
  _ ← check (negb (ValidateServiceOrigin raw)) ClientOrigin;
  match url_Parse raw with
  | None => Err ClientOrigin
  | Some u => Ok (MkURL (url_Scheme u) (url_Opaque u) (url_HasUser u) (url_Host u) "" "" (url_ForceQuery u) (url_RawQuery u) (url_Fragment u)
                    (url_RawFragment u))
  end.

(** No supplied floor is missing or below the policy's. *)
Definition covers (supplied policyFloors : gmap string Z) : bool :=
  forallb (λ p : string * Z, match supplied !! p.1 with Some sequence => p.2 <=? sequence | None => false end) (map_to_list policyFloors).

Definition policy_trust (cfg : Config) (policy : Policy) : result client_error trust :=
  _ ← check (negb (bool_decide (Validate policy = []))) ClientPolicy;
  digest ← map_err (λ _, ClientPolicy) (Digest policy);
  _ ← check (negb (bool_decide (cf_KeyPolicyDigest cfg = "")) && negb (bool_decide (cf_KeyPolicyDigest cfg = digest))) ClientPolicyDigest;
  canonicalPolicy ← map_err (λ _, ClientPolicy) (Canonical policy);
  snapshot ← map_err (λ _, ClientPolicy) (Decode canonicalPolicy);
  match Policy_KeySet snapshot with
  | None => Err ClientPolicy
  | Some keys =>
      let policyFloors := MinimumSequences snapshot in
      let floors := cf_MinimumSequences cfg in
      floors ← (if bool_decide (floors = ∅) then Ok policyFloors else
                _ ← check (negb (covers floors policyFloors)) ClientFloorBelowPolicy;
                Ok floors);
      Ok (MkTrust keys (kp_RequiredKeyID snapshot) (AcceptedKeyIDs snapshot) (kp_AllowUnknownOverlapSigners snapshot) (Some snapshot) floors)
  end.

Definition config_trust (cfg : Config) : result client_error trust :=
  match cf_KeyPolicy cfg with
  | Some policy => policy_trust cfg policy
  | None =>
      _ ← check (negb (bool_decide (cf_KeyPolicyDigest cfg = ""))) ClientPolicyDigest;
      Ok (MkTrust (cf_Keys cfg) (cf_RequiredKeyID cfg) [cf_RequiredKeyID cfg] (cf_AllowKeyOverlap cfg) None (cf_MinimumSequences cfg))
  end.

(** A floor the client keeps *)
Definition floor_ok (tap : string) (sequence : Z) : bool := TapID_Validate tap && negb (TapID_IsCore tap) && negb (sequence =? 0).

Definition New (cfg : Config) : result client_error Client :=
  origin ← parseOrigin (cf_Origin cfg);
  t ← config_trust cfg;
  _ ← check (negb (ValidateKeyID (tu_required t))) ClientKeyID;
  _ ← check (negb (forallb ValidateKeyID (tu_accepted t))) ClientKeyID;
  let deadline := if cf_PollingDeadline cfg =? 0 then DefaultPollingDeadline else cf_PollingDeadline cfg in
  _ ← check ((deadline <=? 0) || (MaxPollingDeadline <? deadline)) ClientDeadline;
  _ ← check (negb (bool_decide (map_Forall (λ tap sequence, floor_ok tap sequence = true) (tu_floors t)))) ClientFloor;
  Ok (MkClient origin (tu_keys t) (tu_accepted t) (tu_overlap t) (tu_policy t) deadline (tu_floors t)).

End new.

(** ** The protocol *)

Record response := MkResponse { rp_status : Z; rp_body : string; rp_retryAfter : Z }.

Definition StatusOK : Z := 200.
Definition StatusAccepted : Z := 202.

Section client.
Context `{U : !UnicodeTables, N : !NetURL, R : !DistributionReference, G : !GoDigest, D : !Digester}.
Context `{J : !JSONText, S : !SignatureLib, P : !PublicKeyEncoding, PJ : !PayloadJSON, RJ : !RequestJSON, TJ : !TapCatalogJSON, OJ : !OperationJSON}.
Context `{UT : !URLText, WO : !World}.

(** A step of the client: it changes the world and succeeds or fails. *)
Definition M (X : Type) : Type := world → world * result client_error X.
#[local] Instance M_ret : MRet M := λ X x w, (w, Ok x).
#[local] Instance M_bind : MBind M := λ X Y f m w, match m w with (w, Ok x) => f x w | (w, Err e) => (w, Err e) end.

Definition lift {X} (r : result client_error X) : M X := λ w, (w, r).
Definition orElse {X} (o : option X) (e : client_error) : M X := λ w, (w, match o with Some x => Ok x | None => Err e end).
Definition exchange (q : http_request) : M http_response := λ w,
  let '(w, answer) := http_Do q w in (w, match answer with Some r => Ok r | None => Err ClientHTTP end).
Definition sleep (delay : Z) (e : client_error) : M unit := λ w,
  let '(w, ok) := env_Sleep delay w in (w, if ok : bool then Ok tt else Err e).

Variable c : Client.

Definition resolvePath (value : string) : string :=
  let u := cl_origin c in
  url_String (MkURL (url_Scheme u) (url_Opaque u) (url_HasUser u) (url_Host u) (path_Clean ("/" +:+ strings_TrimPrefix value "/")) (url_RawPath u)
                (url_ForceQuery u) (url_RawQuery u) (url_Fragment u) (url_RawFragment u)).

Definition accept_json : string * string := ("Accept", "application/json").

Definition do_request (method endpoint : string) (body : option string) : M response :=
  answer ← exchange (MkHttpRequest method endpoint (accept_json :: if present body then [("Content-Type", "application/json")] else []) body);
  data ← orElse (read_limited (MaxOperationBytes + 1) answer) ClientRead;
  _ ← lift (check (MaxOperationBytes <? strlen data) ClientTooLarge);
  mret (MkResponse (hr_StatusCode answer) data (parseRetryAfter (hr_RetryAfter answer))).

(** A missing result or failure would be dereferenced. *)
Fixpoint poll (fuel : nat) (operation : Operation) (headerRetry : Z) : M CatalogAuth.CatalogSetResult :=
  match fuel with
  | O => lift (Err ClientOutOfFuel)
  | Datatypes.S fuel =>
      if bool_decide (op_Status operation = OperationCompleted) then orElse (op_Result operation) ClientPanic
      else if bool_decide (op_Status operation = OperationFailed) then
        failure ← orElse (op_Failure operation) ClientPanic; lift (Err (OperationError (fl_Code failure) (fl_Message failure)))
      else if bool_decide (op_Status operation = OperationPending) then
        _ ← sleep (poll_delay operation headerRetry) (PollingDeadline (op_ID operation));
        response ← do_request "GET" (resolvePath ("/v1/operations/" +:+ url_PathEscape (op_ID operation))) None;
        _ ← lift (check (negb (rp_status response =? StatusOK)) (ClientStatus (rp_status response)));
        nextOperation ← orElse (DecodeOperation (rp_body response)) ClientUndecodable;
        _ ← lift (check (negb (bool_decide (op_ID nextOperation = op_ID operation))) OperationIDChanged);
        poll fuel nextOperation (rp_retryAfter response)
      else lift (Err ClientOperationStatus)
  end.

(** One catalog document: the reference is checked before anything is fetched. *)
Definition fetch_catalog (aggregate : Z) (fetched : gmap string TapCatalog) (reference : CatalogReference) : M (Z * gmap string TapCatalog) :=
  let tap := ts_ID (rf_Tap reference) in
  _ ← lift (map_err ReferenceOrigin (ValidateCatalogReferenceOrigin reference (url_String (cl_origin c))));
  let floor := default 0 (cl_minimumSequence c !! tap) in
  _ ← lift (check ((0 <? floor) && (rf_Sequence reference <? floor)) SequenceRollback);
  _ ← lift (check (MaxAggregateCatalogBytes - rf_Size reference <? aggregate) AggregateBytes);
  let aggregate := aggregate + rf_Size reference in
  answer ← exchange (MkHttpRequest "GET" (rf_URL reference) [accept_json] None);
  _ ← lift (check (negb (hr_StatusCode answer =? StatusOK)) (ClientStatus (hr_StatusCode answer)));
  _ ← lift (check ((0 <=? hr_ContentLength answer) && negb (hr_ContentLength answer =? rf_Size reference)) ContentLength);
  data ← orElse (read_limited (rf_Size reference + 1) answer) ClientRead;
  _ ← lift (check (hr_CloseError answer) ClientRead);
  _ ← lift (check (negb (strlen data =? rf_Size reference)) CatalogSize);
  _ ← lift (check (negb (bool_decide (digest_FromBytes data = rf_SHA256 reference))) CatalogDigest);
  document ← lift (map_err CatalogDocument (DecodeTapCatalog data));
  _ ← lift (map_err CatalogDocument (VerifyCatalogReference reference document));
  _ ← lift (check (bool_decide (is_Some (fetched !! tap))) DuplicateCatalog);
  mret (aggregate, <[tap := document]> fetched).

Fixpoint fetch_from (aggregate : Z) (fetched : gmap string TapCatalog) (references : list CatalogReference) : M (gmap string TapCatalog) :=
  match references with
  | [] => mret fetched
  | reference :: references =>
      state ← fetch_catalog aggregate fetched reference;
      fetch_from state.1 state.2 references
  end.

Definition fetchCatalogs (references : list CatalogReference) : M (gmap string TapCatalog) := fetch_from 0 ∅ references.

(** The answer of the service, after polling *)
Definition submit (fuel : nat) (requestBytes : string) : M CatalogAuth.CatalogSetResult :=
  response ← do_request "POST" (resolvePath "/v1/catalog-sets") (Some requestBytes);
  if rp_status response =? StatusOK then orElse (DecodeCatalogSetResult (rp_body response)) ClientUndecodable
  else if rp_status response =? StatusAccepted then
    operation ← orElse (DecodeOperation (rp_body response)) ClientUndecodable;
    poll fuel operation (rp_retryAfter response)
  else lift (Err (ClientStatus (rp_status response))).

(** The checks on the answer before any document is fetched, at a time *)
Definition authenticate (request : CatalogRequest.Request) (requestDigest : string) (r : CatalogAuth.CatalogSetResult) (now : option Z) (clock : Z) :
    result client_error VerifiedSet :=
  _ ← check (negb (bool_decide (cr_RequestDigest r = requestDigest))) ResultRequestDigest;
  verified ← map_err ClientAuth (VerifyAccepted (cr_JWS r) (cl_keys c) (cl_acceptedKeyIDs c) requestDigest (req_CoreSnapshotDigest request) now clock
    (cl_allowKeyOverlap c));
  _ ← map_err ClientBinding (ValidateCatalogSetBinding (vs_Payload verified) request);
  payloadDigest ← map_err ClientPayload (CatalogSetPayloadDigest (vs_Payload verified));
  _ ← check (negb (bool_decide (cr_PayloadDigest r = payloadDigest))) ResultPayloadDigest;
  _ ← match cl_keyPolicy c with Some policy => map_err ClientAuthorize (AuthorizePayload policy (vs_Payload verified)) | None => Ok tt end;
  Ok verified.

Definition authenticate_now (request : CatalogRequest.Request) (requestDigest : string) (r : CatalogAuth.CatalogSetResult) : M VerifiedSet :=
  λ w, (w, authenticate request requestDigest r (env_Now w) (time_Now w)).

Definition Resolve (fuel : nat) (request : CatalogRequest.Request) : M Result :=
  requestBytes ← orElse (CatalogRequest.CanonicalRequest request) ClientRequest;
  requestDigest ← orElse (CatalogSet.RequestDigest request) ClientRequest;
  r ← submit fuel requestBytes;
  verified ← authenticate_now request requestDigest r;
  catalogs ← fetchCatalogs (py_Catalogs (vs_Payload verified));
  mret (MkResult (vs_Payload verified) catalogs (cr_JWS r) (vs_Signatures verified) (cl_minimumSequence c) (cr_PayloadDigest r)
    (digest_FromBytes (cr_JWS r))).

End client.

(** ** Delays *)

Lemma wrap64_small z : - 2 ^ 63 <= z < 2 ^ 63 → wrap64 z = z.
Proof. intros H. unfold wrap64. rewrite Z.mod_small by lia. lia. Qed.

Lemma wrap64_multiple z : (512 | z) → (512 | wrap64 z).
Proof.
  intros [k ->]. unfold wrap64. rewrite Z.mod_eq by lia. exists (k - 2 ^ 55 * ((k * 512 + 2 ^ 63) / 2 ^ 64)). lia.
Qed.

Lemma seconds_multiple n : (512 | wrap64 (n * time_Second)).
Proof. apply wrap64_multiple. exists (n * 1953125). unfold time_Second. lia. Qed.

Lemma parseRetryAfter_multiple value : (512 | parseRetryAfter value).
Proof. unfold parseRetryAfter. destruct (strconv_Atoi _) as [n|]; [|by exists 0]. case_match; [by exists 0|]. apply seconds_multiple. Qed.

(** Wrapped or not, a delay is a positive multiple of 512 nanoseconds of at most a minute. *)
Lemma poll_delay_range o h : (512 | h) → 512 <= poll_delay o h <= maxRetryAfter.
Proof.
  intros Hh. unfold poll_delay. pose proof (seconds_multiple (op_RetryAfterSeconds o)) as Hr.
  set (d := if _ =? 0 then h else _). assert (512 | d) as [k Hd] by (unfold d; by case_match). clearbody d. unfold maxRetryAfter, defaultRetryAfter, time_Second.
  destruct (Z.leb_spec d 0); case_match eqn:Hm; try apply Z.ltb_lt in Hm; try apply Z.ltb_ge in Hm; lia.
Qed.

(** C32: Between two polls the client always pauses, and never for more than a minute:
    for the number of seconds the operation states, else for the seconds of the
    Retry-After header, else for two seconds, each capped at 60. Only a header beyond
    the range of [time.Duration] (9223372036 seconds) can ask for less than a second,
    because its product with [time.Second] wraps around. *)
Theorem poll_delay_bounds operation value (d := poll_delay operation (parseRetryAfter value))
  (Hstated : 0 <= op_RetryAfterSeconds operation <= 3600) :
  0 < d <= maxRetryAfter ∧
  (0 < op_RetryAfterSeconds operation → d = Z.min (op_RetryAfterSeconds operation) 60 * time_Second) ∧
  (op_RetryAfterSeconds operation = 0 →
     match strconv_Atoi (strings_TrimSpace value) with
     | Ok seconds => if seconds <=? 0 then d = defaultRetryAfter else seconds <= 9223372036 → d = Z.min seconds 60 * time_Second
     | Err _ => d = defaultRetryAfter
     end).
Proof.
  pose proof (poll_delay_range operation _ (parseRetryAfter_multiple value)) as Hr. fold d in Hr. split; [lia|].
  unfold d, poll_delay, maxRetryAfter, defaultRetryAfter, time_Second in *. rewrite (wrap64_small (_ * _)) by lia. split.
  - intros Hpos. rewrite (proj2 (Z.eqb_neq _ 0)), (proj2 (Z.leb_gt _ 0)) by lia. destruct (Z.ltb_spec (60 * 1000000000) (op_RetryAfterSeconds operation * 1000000000)); lia.
  - intros ->. change (0 * 1000000000 =? 0) with true. cbn iota. unfold parseRetryAfter. destruct (strconv_Atoi _) as [seconds|]; [|done].
    destruct (Z.leb_spec seconds 0); [done|]. unfold time_Second. intros Hmax. rewrite wrap64_small by lia.
    rewrite (proj2 (Z.leb_gt _ 0)) by lia. destruct (Z.ltb_spec (60 * 1000000000) (seconds * 1000000000)); lia.
Qed.

Definition pending : Operation := MkOperation OperationSchemaVersion "op" OperationPending 0 None None.

Lemma poll_delay_bounds_witness : poll_delay pending (parseRetryAfter " 90 ") = 60 * time_Second.
Proof.
  destruct (poll_delay_bounds pending " 90 " ltac:(cbn; lia)) as (_ & _ & H). specialize (H eq_refl).
  vm_compute in H. vm_compute. apply H. discriminate.
Defined.

(** A service that asks for 584 years is asked again after 0.29 seconds. *)
Lemma retry_after_wraps : poll_delay pending (parseRetryAfter "18446744074") = 290448384.
Proof. vm_compute. reflexivity. Qed.

(** ** Termination *)

Section steps.
Context `{WO : !World}.

Lemma M_ok {X Y} (m : M X) (f : X → M Y) w w' y :
  (M_bind _ _ f m) w = (w', Ok y) ↔ ∃ x w1, m w = (w1, Ok x) ∧ f x w1 = (w', Ok y).
Proof. unfold M_bind. destruct (m w) as [w1 [x|e]]; [naive_solver|]. split; [done|]. by intros (? & ? & [=] & _). Qed.

Lemma M_err {X Y} (m : M X) (f : X → M Y) w w' e :
  (M_bind _ _ f m) w = (w', Err e) ↔ m w = (w', Err e) ∨ ∃ x w1, m w = (w1, Ok x) ∧ f x w1 = (w', Err e).
Proof. unfold M_bind. destruct (m w) as [w1 [x|e']]; naive_solver. Qed.

Lemma lift_ok {X} (r : result client_error X) w w' x : lift r w = (w', Ok x) ↔ w' = w ∧ r = Ok x.
Proof. unfold lift. naive_solver. Qed.

Lemma orElse_ok {X} (o : option X) e w w' x : orElse o e w = (w', Ok x) ↔ w' = w ∧ o = Some x.
Proof. unfold orElse. destruct o; naive_solver. Qed.

Lemma exchange_ok q w w' r : exchange q w = (w', Ok r) ↔ http_Do q w = (w', Some r).
Proof. unfold exchange. destruct (http_Do q w) as [? [?|]]; naive_solver. Qed.

Lemma sleep_ok d e w w' u : sleep d e w = (w', Ok u) ↔ env_Sleep d w = (w', true).
Proof. unfold sleep. destruct u. destruct (env_Sleep d w) as [? []]; naive_solver. Qed.

(** A step that can neither panic nor run out of fuel *)
Definition regular (e : client_error) : Prop := e ≠ ClientPanic ∧ e ≠ ClientOutOfFuel.

Definition regular_result {X} (r : result client_error X) : Prop := match r with Ok _ => True | Err e => regular e end.

Definition safe {X} (r : world * result client_error X) : Prop := regular_result r.2.

Lemma regular_bind {X Y} (r : result client_error X) (f : X → result client_error Y) :
  regular_result r → (∀ x, regular_result (f x)) → regular_result (r ≫= f).
Proof. destruct r; cbn; naive_solver. Qed.

Lemma regular_check b e : regular e → regular_result (check b e).
Proof. unfold check. by destruct b. Qed.

Lemma regular_map_err {E X} (wrap : E → client_error) (r : result E X) : (∀ e, regular (wrap e)) → regular_result (map_err wrap r).
Proof. destruct r; cbn; naive_solver. Qed.

Lemma safe_bind {X Y} (m : M X) (f : X → M Y) w :
  safe (m w) → (∀ x w1, m w = (w1, Ok x) → safe (f x w1)) → safe (M_bind _ _ f m w).
Proof. unfold M_bind, safe, regular_result. destruct (m w) as [w1 [x|e]]; naive_solver. Qed.

Lemma safe_lift_err {X} e w : regular e → safe (lift (X := X) (Err e) w).
Proof. done. Qed.

Lemma safe_check b e w : regular e → safe (lift (check b e) w).
Proof. unfold check. by destruct b. Qed.

Lemma safe_map_err {E X} (wrap : E → client_error) (r : result E X) w : (∀ e, regular (wrap e)) → safe (lift (map_err wrap r) w).
Proof. destruct r; cbn; naive_solver. Qed.

Lemma safe_orElse {X} (o : option X) e w : regular e → safe (orElse o e w).
Proof. unfold orElse. by destruct o. Qed.

Lemma safe_exchange q w : safe (exchange q w).
Proof. unfold exchange. by destruct (http_Do q w) as [? [?|]]. Qed.

Lemma safe_sleep d e w : regular e → safe (sleep d e w).
Proof. unfold sleep. by destruct (env_Sleep d w) as [? []]. Qed.

End steps.

#[export] Hint Resolve safe_check safe_orElse safe_exchange safe_sleep safe_lift_err safe_map_err : client.
#[export] Hint Extern 1 (regular _) => done : client.
#[export] Hint Extern 2 (∀ _, regular _) => done : client.
#[export] Hint Extern 1 (safe (mret _ _)) => done : client.

(** Take a step of the client apart. *)
Ltac safe_step := apply safe_bind; [solve [eauto with client]|intros].

Section total.
Context `{U : !UnicodeTables, N : !NetURL, R : !DistributionReference, G : !GoDigest, D : !Digester}.
Context `{J : !JSONText, S : !SignatureLib, P : !PublicKeyEncoding, PJ : !PayloadJSON, RJ : !RequestJSON, TJ : !TapCatalogJSON, OJ : !OperationJSON}.
Context `{UT : !URLText, WO : !World}.

Lemma DecodeOperation_valid data o : DecodeOperation data = Some o → wire_ValidateOperation o = [].
Proof. unfold DecodeOperation. repeat case_match; naive_solver. Qed.

(** The union of the three statuses *)
Lemma operation_union o : wire_ValidateOperation o = [] →
  (op_Status o = OperationPending ∧ 0 <= op_RetryAfterSeconds o <= 3600) ∨ (op_Status o = OperationCompleted ∧ is_Some (op_Result o)) ∨
  (op_Status o = OperationFailed ∧ is_Some (op_Failure o)).
Proof.
  unfold wire_ValidateOperation. autorewrite with errs. intros (_ & _ & H). repeat case_bool_decide; autorewrite with errs in H.
  - left. split; [done|]. destruct H as [[?%Z.ltb_ge ?%Z.ltb_ge] _]. lia.
  - right. left. split; [done|]. destruct (op_Result o); [done|]. naive_solver.
  - right. right. split; [done|]. destruct (op_Failure o); [done|]. naive_solver.
  - done.
Qed.

Lemma do_request_safe method endpoint body w : safe (do_request method endpoint body w).
Proof. unfold do_request. repeat safe_step. auto with client. Qed.
Hint Resolve do_request_safe : client.

Variable c : Client.

Lemma fetch_catalog_safe aggregate fetched reference w : safe (fetch_catalog c aggregate fetched reference w).
Proof. unfold fetch_catalog. repeat safe_step. auto with client. Qed.
Hint Resolve fetch_catalog_safe : client.

Lemma fetch_from_safe aggregate fetched references w : safe (fetch_from c aggregate fetched references w).
Proof. revert aggregate fetched w. induction references; intros; cbn [fetch_from]; [auto with client|]. safe_step. auto. Qed.
Hint Resolve fetch_from_safe : client.

(** The world keeps a clock: a sleep that ends well took at least its time, time
    does not run backwards, and no answer arrives for a request begun after the
    deadline. *)
Variable clock : world → Z.
Variable deadline : Z.
Hypothesis Hsleep : ∀ d w w', env_Sleep d w = (w', true) → clock w + d <= clock w'.
Hypothesis Hdo : ∀ q w w' r, http_Do q w = (w', Some r) → clock w <= clock w' ∧ clock w <= deadline.

Lemma do_request_clock method endpoint body w w' r :
  do_request method endpoint body w = (w', Ok r) → clock w <= clock w' ∧ clock w <= deadline ∧ (512 | rp_retryAfter r).
Proof using Hdo.
  unfold do_request. intros (answer & w1 & Hq%exchange_ok & H)%M_ok.
  apply M_ok in H as (data & w2 & [-> _]%orElse_ok & H). apply M_ok in H as (u & w3 & [-> _]%lift_ok & [= <- <-]).
  destruct (Hdo _ _ _ _ Hq). split_and!; [done..|apply parseRetryAfter_multiple].
Qed.

(** Every poll takes at least 512 nanoseconds off the time that is left. *)
Lemma poll_safe fuel operation headerRetry w :
  wire_ValidateOperation operation = [] → (512 | headerRetry) → (0 < fuel)%nat → deadline - clock w < 512 * (Z.of_nat fuel - 1) →
  safe (poll c fuel operation headerRetry w).
Proof using Hsleep Hdo.
  revert operation headerRetry w. induction fuel as [|fuel IH]; intros operation h w Hv Hh H0 Hf; [lia|]. cbn [poll].
  pose proof (poll_delay_range operation h Hh) as Hd.
  destruct (operation_union _ Hv) as [[Hs _]|[[Hs [r Hr]]|[Hs [f Hr]]]]; rewrite Hs.
  - change (bool_decide (OperationPending = OperationCompleted)) with false. change (bool_decide (OperationPending = OperationFailed)) with false.
    rewrite bool_decide_eq_true_2 by done.
    apply safe_bind; [auto with client|]. intros u w1 Hw1%sleep_ok%Hsleep. apply safe_bind; [auto with client|]. intros answer w2 Hw2%do_request_clock.
    safe_step. safe_step. safe_step. apply orElse_ok in H1 as [-> Ho]. apply lift_ok in H as [-> _], H2 as [-> _].
    apply IH; [by eapply DecodeOperation_valid|apply Hw2|lia..].
  - rewrite bool_decide_eq_true_2 by done. by rewrite Hr.
  - change (bool_decide (OperationFailed = OperationCompleted)) with false. rewrite bool_decide_eq_true_2 by done. by rewrite Hr.
Qed.

Lemma submit_safe fuel requestBytes w :
  (0 < fuel)%nat → deadline - clock w < 512 * (Z.of_nat fuel - 1) → safe (submit c fuel requestBytes w).
Proof using Hsleep Hdo.
  intros H0 Hf. unfold submit. apply safe_bind; [auto with client|]. intros answer w1 (Hw & _ & Hr)%do_request_clock.
  case_match; [auto with client|]. case_match; [|auto with client]. safe_step. apply orElse_ok in H2 as [-> Ho%DecodeOperation_valid].
  apply poll_safe; try done. lia.
Qed.

Lemma authenticate_safe request digest r now clk : regular_result (authenticate c request digest r now clk).
Proof.
  unfold authenticate. repeat (apply regular_bind; [|intros]); try (by apply regular_check); try (by apply regular_map_err); [|done].
  destruct (cl_keyPolicy c); [by apply regular_map_err|done].
Qed.

End total.

(** C31: A resolution always ends, and never by a nil dereference: for every answer of
    the service and every world in which a sleep takes its time and no request begun
    after the deadline is answered, some number of polls, computed from the deadline
    alone, suffices. *)
Theorem Resolve_total
  `{U : !UnicodeTables, N : !NetURL, R : !DistributionReference, G : !GoDigest, D : !Digester}
  `{J : !JSONText, S : !SignatureLib, P : !PublicKeyEncoding, PJ : !PayloadJSON, RJ : !RequestJSON, TJ : !TapCatalogJSON, OJ : !OperationJSON}
  `{UT : !URLText, WO : !World} c (clock : world → Z) deadline fuel request w
  (Hsleep : ∀ d w w', env_Sleep d w = (w', true) → clock w + d <= clock w')
  (Hdo : ∀ q w w' r, http_Do q w = (w', Some r) → clock w <= clock w' ∧ clock w <= deadline)
  (Hfuel : (deadline - clock w) / 512 + 2 <= Z.of_nat fuel) (Hpositive : (0 < fuel)%nat) :
  ∀ w' e, Resolve c fuel request w = (w', Err e) → e ≠ ClientOutOfFuel ∧ e ≠ ClientPanic.
Proof.
  intros w' e He. enough (safe (Resolve c fuel request w)) as Hs by (rewrite He in Hs; by destruct Hs). unfold Resolve.
  safe_step. apply orElse_ok in H as [-> _]. safe_step. apply orElse_ok in H as [-> _].
  apply safe_bind; [eapply submit_safe; try done|]; [pose proof (Z.div_mod (deadline - clock w) 512); pose proof (Z.mod_pos_bound (deadline - clock w) 512); lia|].
  intros r w1 _. apply safe_bind; [apply authenticate_safe|]. intros v w2 _. apply safe_bind; [apply fetch_from_safe|]. done.
Qed.

(** ** What a resolution guarantees *)

Section trusted.
Context `{U : !UnicodeTables, N : !NetURL, R : !DistributionReference, G : !GoDigest, D : !Digester}.
Context `{J : !JSONText, S : !SignatureLib, P : !PublicKeyEncoding, PO : !PolicyJSON, PJ : !PayloadJSON, RJ : !RequestJSON, TJ : !TapCatalogJSON}.
Context `{OJ : !OperationJSON, UT : !URLText, WO : !World}.

(** The documents [fetch_catalog] accepts for a reference *)
Record fetched_as (c : Client) (reference : CatalogReference) (document : TapCatalog) : Prop := {
  fa_origin : ValidateCatalogReferenceOrigin reference (url_String (cl_origin c)) = Ok tt;
  fa_floor : ∀ floor, cl_minimumSequence c !! ts_ID (rf_Tap reference) = Some floor → 0 < floor → floor <= rf_Sequence reference;
  fa_bytes : ∃ data, strlen data = rf_Size reference ∧ digest_FromBytes data = rf_SHA256 reference ∧ DecodeTapCatalog data = Ok document;
  fa_verified : VerifyCatalogReference reference document = Ok tt;
}.

Lemma fetch_catalog_ok c aggregate fetched reference w w' st :
  fetch_catalog c aggregate fetched reference w = (w', Ok st) →
  ∃ document, fetched_as c reference document ∧ fetched !! ts_ID (rf_Tap reference) = None ∧
    st.2 = <[ts_ID (rf_Tap reference) := document]> fetched ∧ st.1 = aggregate + rf_Size reference ∧ st.1 <= MaxAggregateCatalogBytes.
Proof.
  unfold fetch_catalog. intros (u & w1 & [-> Ho%map_err_ok]%lift_ok & H)%M_ok. destruct u.
  apply M_ok in H as (u & w1 & [-> Hf%check_ok]%lift_ok & H). apply M_ok in H as (u' & w1 & [-> Ha%check_ok%Z.ltb_ge]%lift_ok & H).
  apply M_ok in H as (answer & w1 & _ & H). do 2 apply M_ok in H as (? & ? & [-> _]%lift_ok & H).
  apply M_ok in H as (data & ? & [-> _]%orElse_ok & H). apply M_ok in H as (? & ? & [-> _]%lift_ok & H).
  apply M_ok in H as (? & ? & [-> Hsize%check_ok%negb_false_iff%Z.eqb_eq]%lift_ok & H).
  apply M_ok in H as (? & ? & [-> Hd%check_ok%negb_false_iff%bool_decide_eq_true]%lift_ok & H).
  apply M_ok in H as (document & ? & [-> Hdec%map_err_ok]%lift_ok & H). apply M_ok in H as ([] & ? & [-> Hv%map_err_ok]%lift_ok & H).
  apply M_ok in H as (? & ? & [-> Hdup%check_ok%bool_decide_eq_false]%lift_ok & [= _ <-]). exists document. split_and!; [|by apply eq_None_not_Some|done..|cbn; lia].
  split; [done| |by exists data|done]. intros floor Hl Hpos. rewrite Hl in Hf. cbn in Hf. rewrite (proj2 (Z.ltb_lt _ _) Hpos) in Hf. cbn in Hf. by apply Z.ltb_ge in Hf.
Qed.

Lemma fetch_from_ok c aggregate fetched references w w' m :
  fetch_from c aggregate fetched references w = (w', Ok m) →
  fetched ⊆ m ∧ dom m = dom fetched ∪ list_to_set ((λ r, ts_ID (rf_Tap r)) <$> references) ∧
  ∀ r, r ∈ references → ∃ document, m !! ts_ID (rf_Tap r) = Some document ∧ fetched_as c r document.
Proof.
  revert aggregate fetched w. induction references as [|r references IH]; intros aggregate fetched w; cbn [fetch_from].
  - intros [= _ <-]. cbn. split_and!; [done|set_solver|]. by intros ? ?%not_elem_of_nil.
  - intros (st & w1 & (document & Ha & Hn & Hst & _)%fetch_catalog_ok & H)%M_ok. apply IH in H as (Hsub & Hdom & Hall). rewrite Hst in *.
    split_and!.
    + etrans; [|exact Hsub]. by apply insert_subseteq.
    + rewrite Hdom, dom_insert_L. cbn. set_solver.
    + intros r' [->|Hr]%elem_of_cons; [|auto]. exists document. split; [|done]. eapply lookup_weaken; [|exact Hsub]. by rewrite lookup_insert_eq.
Qed.

(** The client a key policy makes *)
Record policy_client (c : Client) (policy : Policy) : Prop := {
  pc_wf : policy_wf policy;
  pc_keys : Policy_KeySet policy = Some (cl_keys c);
  pc_accepted : cl_acceptedKeyIDs c = AcceptedKeyIDs policy;
  pc_floor : ∀ tap minimum, MinimumSequences policy !! tap = Some minimum → ∃ floor, cl_minimumSequence c !! tap = Some floor ∧ minimum <= floor;
  pc_deadline : 0 < cl_pollingDeadline c <= MaxPollingDeadline;
}.

Lemma covers_ok supplied floors tap minimum :
  covers supplied floors = true → floors !! tap = Some minimum → ∃ floor, supplied !! tap = Some floor ∧ minimum <= floor.
Proof.
  unfold covers. intros Hall Hl. eapply forallb_forall in Hall; [|by apply list_elem_of_In, elem_of_map_to_list, Hl]. cbn in Hall.
  destruct (supplied !! tap) as [floor|]; [|done]. exists floor. by apply Z.leb_le in Hall.
Qed.

Lemma New_policy cfg c policy : New cfg = Ok c → cl_keyPolicy c = Some policy → policy_client c policy.
Proof.
  unfold New. intros (origin & _ & H)%bind_ok Hp. apply bind_ok in H as (t & Ht & H). do 2 apply bind_ok in H as (? & _ & H).
  apply bind_ok in H as (? & Hd%check_ok & H). apply orb_false_iff in Hd as [Hd1%Z.leb_gt Hd2%Z.ltb_ge].
  apply bind_ok in H as (? & _ & [= <-]). cbn in Hp. unfold config_trust in Ht. destruct (cf_KeyPolicy cfg) as [p|];
    [|apply bind_ok in Ht as (? & _ & [= <-]); done].
  unfold policy_trust in Ht. apply bind_ok in Ht as (? & _ & Ht). apply bind_ok in Ht as (digest & _ & Ht). apply bind_ok in Ht as (? & _ & Ht).
  apply bind_ok in Ht as (text & _ & Ht). apply bind_ok in Ht as (snapshot & Hdec%map_err_ok%Decode_ok & Ht).
  destruct (Policy_KeySet snapshot) as [keys|] eqn:Hk; [|done]. apply bind_ok in Ht as (floors & Hfl & [= <-]). injection Hp as <-.
  split; cbn; [apply Hdec|done|done| |lia]. intros tap minimum Hm. case_bool_decide.
  - injection Hfl as <-. by exists minimum.
  - apply bind_ok in Hfl as (? & Hc%check_ok%negb_false_iff & [= <-]). by eapply covers_ok.
Qed.

Lemma foldl_floors_lookup floors (m : gmap string Z) f :
  f ∈ floors → NoDup (sf_Tap <$> floors) → foldl (λ m floor, <[sf_Tap floor := sf_Minimum floor]> m) m floors !! sf_Tap f = Some (sf_Minimum f).
Proof.
  revert m. induction floors as [|g floors IH] using rev_ind; intros m Hin Hnd; [by apply not_elem_of_nil in Hin|].
  rewrite foldl_app. cbn. rewrite fmap_app in Hnd. apply NoDup_app in Hnd as (Hnd & Hx & _). apply elem_of_app in Hin as [Hin|Hin].
  - rewrite lookup_insert_ne; [by apply IH|]. intros Heq. apply (Hx (sf_Tap f)); [by apply list_elem_of_fmap_2|]. rewrite <- Heq. by left.
  - apply list_elem_of_singleton in Hin as ->. by rewrite lookup_insert_eq.
Qed.

Lemma policy_floor policy f : policy_wf policy → f ∈ kp_SequenceFloors policy → MinimumSequences policy !! sf_Tap f = Some (sf_Minimum f).
Proof. intros Hw Hf. apply foldl_floors_lookup; [done|]. apply (kpw_floors _ Hw). Qed.

Lemma AuthorizePayload_ok policy payload : AuthorizePayload policy payload = Ok tt →
  ci_Digest (py_CatalogService payload) ∈ kp_CatalogServiceDigests policy ∧ ci_Digest (py_Extractor payload) ∈ kp_CatalogExtractorDigests policy.
Proof.
  unfold AuthorizePayload. destruct (Validate policy); [|done]. intros ([] & H1%check_ok & H2%check_ok)%bind_ok.
  by apply negb_false_iff, bool_decide_eq_true in H1, H2.
Qed.

Lemma authenticate_ok c request digest r now clk v :
  authenticate c request digest r now clk = Ok v →
  VerifyAccepted (cr_JWS r) (cl_keys c) (cl_acceptedKeyIDs c) digest (req_CoreSnapshotDigest request) now clk (cl_allowKeyOverlap c) = Ok v ∧
  ValidateCatalogSetBinding (vs_Payload v) request = Ok tt ∧ CatalogSetPayloadDigest (vs_Payload v) = Ok (cr_PayloadDigest r) ∧
  ∀ policy, cl_keyPolicy c = Some policy → AuthorizePayload policy (vs_Payload v) = Ok tt.
Proof.
  unfold authenticate. intros ([] & _ & H)%bind_ok. apply bind_ok in H as (v' & Hv%map_err_ok & H). apply bind_ok in H as ([] & Hb%map_err_ok & H).
  apply bind_ok in H as (d & Hd%map_err_ok & H). apply bind_ok in H as ([] & Heq%check_ok%negb_false_iff%bool_decide_eq_true & H).
  apply bind_ok in H as ([] & Ha & [= <-]). split_and!; [done..|by rewrite Heq|]. intros policy Hp. rewrite Hp in Ha. by apply map_err_ok in Ha.
Qed.

Lemma Resolve_steps c fuel request w w' r :
  Resolve c fuel request w = (w', Ok r) →
  ∃ bytes digest answer w1 v w2, CatalogRequest.CanonicalRequest request = Some bytes ∧ CatalogSet.RequestDigest request = Some digest ∧
    submit c fuel bytes w = (w1, Ok answer) ∧ authenticate c request digest answer (env_Now w1) (time_Now w1) = Ok v ∧
    fetchCatalogs c (py_Catalogs (vs_Payload v)) w1 = (w2, Ok (re_Catalogs r)) ∧ re_Payload r = vs_Payload v ∧ re_JWS r = cr_JWS answer ∧
    re_SetPayloadDigest r = cr_PayloadDigest answer ∧ re_SetEnvelopeDigest r = digest_FromBytes (re_JWS r).
Proof.
  unfold Resolve. intros (bytes & ? & [-> Hb]%orElse_ok & H)%M_ok. apply M_ok in H as (digest & ? & [-> Hd]%orElse_ok & H).
  apply M_ok in H as (answer & w1 & Hs & H). apply M_ok in H as (v & w2 & [= <- Ha] & H). apply M_ok in H as (catalogs & w3 & Hf & [= _ <-]).
  by exists bytes, digest, answer, w1, v, w3.
Qed.

(** What the client knows of a set it returns, at the world in which it was verified *)
Record trusted (c : Client) (policy : Policy) (request : CatalogRequest.Request) (r : Result) : Prop := {
  tr_signed : ∃ id k key raw, id ∈ AcceptedKeyIDs policy ∧ k ∈ kp_Keys policy ∧ ky_ID k = id ∧ ParseRSAPublicKeyPEM (ky_PublicPEM k) = Ok key ∧
    2048 <= modulus_bits key ∧ cl_keys c !! id = Some key ∧ signed_under (cl_keys c) (re_JWS r) id raw ∧
    CanonicalCatalogSetPayload (re_Payload r) = Ok raw ∧ re_SetPayloadDigest r = digest_FromBytes raw;
  tr_envelope : re_SetEnvelopeDigest r = digest_FromBytes (re_JWS r);
  tr_bound : ValidateCatalogSetBinding (re_Payload r) request = Ok tt;
  tr_service : ci_Digest (py_CatalogService (re_Payload r)) ∈ kp_CatalogServiceDigests policy;
  tr_extractor : ci_Digest (py_Extractor (re_Payload r)) ∈ kp_CatalogExtractorDigests policy;
  tr_taps : dom (re_Catalogs r) = list_to_set ((λ reference, ts_ID (rf_Tap reference)) <$> py_Catalogs (re_Payload r));
  tr_catalog : ∀ reference, reference ∈ py_Catalogs (re_Payload r) →
    ∃ document, re_Catalogs r !! ts_ID (rf_Tap reference) = Some document ∧ fetched_as c reference document;
  tr_rollback : ∀ reference f, reference ∈ py_Catalogs (re_Payload r) → f ∈ kp_SequenceFloors policy →
    sf_Tap f = ts_ID (rf_Tap reference) → 0 < sf_Minimum f → sf_Minimum f <= rf_Sequence reference;
}.

End trusted.

(** C3: Whatever a service or a network does, the catalogs a client with a key policy
    returns are those an accepted signer published for this request: one of the
    policy's keys, of 2048 bits or more, signed the canonical payload; the set answers
    the request and was current when it arrived; the policy authorizes the service and
    the extractor that made it; and there is exactly one document per referenced tap,
    fetched from the release's origin, with the signed size, digest, source, time and
    sequence, and never below the policy's sequence floor. *)
Theorem Resolve_trusted
  `{U : !UnicodeTables, N : !NetURL, R : !DistributionReference, G : !GoDigest, D : !Digester}
  `{J : !JSONText, S : !SignatureLib, P : !PublicKeyEncoding, PO : !PolicyJSON, PJ : !PayloadJSON, RJ : !RequestJSON, TJ : !TapCatalogJSON}
  `{OJ : !OperationJSON, UT : !URLText, WO : !World} cfg c policy fuel request w w' r
  (Hnew : New cfg = Ok c) (Hpolicy : cl_keyPolicy c = Some policy) (Hok : Resolve c fuel request w = (w', Ok r)) :
  trusted c policy request r ∧
  ∃ bytes answer w1, CatalogRequest.CanonicalRequest request = Some bytes ∧ submit c fuel bytes w = (w1, Ok answer) ∧
    py_GeneratedAt (re_Payload r) <= default (time_Now w1) (env_Now w1) < py_ExpiresAt (re_Payload r).
Proof.
  destruct (New_policy _ _ _ Hnew Hpolicy) as [Hw Hkeys Hacc Hfloor _].
  destruct (Resolve_steps _ _ _ _ _ _ Hok) as (bytes & digest & answer & w1 & v & w2 & Hb & Hd & Hs & Ha & Hf & Hp & Hj & Hpd & He).
  destruct (authenticate_ok _ _ _ _ _ _ _ Ha) as (Hv & Hbind & Hpay & Hauth). rewrite <- Hp in *. rewrite <- Hpd in Hpay. rewrite <- Hj in Hv.
  destruct (VerifyAccepted_steps _ _ _ _ _ _ _ _ _ Hv) as (id & j & Hid & Hvid & Hver & Hraw & _ & _ & Hcan & _ & _ & _ & _ & Ht). rewrite <- Hp in *.
  destruct (Policy_KeySet_accepted _ Hw) as (keys & Hks & Haccepted). rewrite Hkeys in Hks. injection Hks as <-. rewrite Hacc in Hid.
  destruct (Haccepted id Hid) as (k & key & Hk & Hkid & Hparse & Hbits & Hlook).
  destruct (AuthorizePayload_ok _ _ (Hauth _ Hpolicy)). destruct (fetch_from_ok _ _ _ _ _ _ _ Hf) as (_ & Hdom & Hall). split; [split|]; try done.
  - exists id, k, key, (vs_PayloadRaw v). split_and!; try done.
    + rewrite Hraw. eapply VerifyJWS_signed; [|done|exact Hver]. intros Hemp. by rewrite Hemp, lookup_empty in Hlook.
    + unfold CatalogSetPayloadDigest in Hpay. rewrite Hcan in Hpay. by injection Hpay as <-.
  - rewrite Hdom. set_solver.
  - intros reference f Hr Hin Htap Hpos. destruct (Hall _ Hr) as (document & _ & Hfa).
    destruct (Hfloor _ _ (policy_floor _ _ Hw Hin)) as (floor & Hl & Hle). rewrite Htap in Hl. pose proof (fa_floor _ _ _ Hfa _ Hl). lia.
  - by exists bytes, answer, w1.
Qed.

(** ** A resolution *)

(** The service accepts the request, completes it after one poll and serves the catalog. *)
Module ClientExample.

Import JwsExample.

Definition digest : string := KeyExample.digest.
Definition digester : Digester := KeyExample.digester.

Definition policy : Policy :=
  MkPolicy SchemaVersion kid [] [MkKey kid CatalogSetJWSAlgorithm "pem"] [digest] [digest] false [MkSequenceFloor "azure/tools" 1].

Definition policies : PolicyJSON :=
  {| policy_tokens _ := MkDecoder [TOther] false;
     encodePolicy p := if bool_decide (p = policy) then Some "policy" else None;
     decodePolicy b := if bool_decide (b = "policy") then Some policy else None |}.

Definition answer : CatalogAuth.CatalogSetResult := MkCatalogSetResult ResultSchemaVersion digest digest "{envelope}".

Definition operations : OperationJSON :=
  {| decodeOperation b :=
       if bool_decide (b = "pending") then Some pending
       else if bool_decide (b = "completed") then Some (MkOperation OperationSchemaVersion "op" OperationCompleted 0 (Some answer) None)
       else None;
     decodeResult _ := None |}.

Definition urls : URLText := {| url_String u := "https://" +:+ url_Host u +:+ url_Path u; url_PathEscape s := s |}.

Definition deadline : Z := 30 * time_Second.

(** The state of the world is its clock, in nanoseconds. *)
Definition service (q : http_request) : http_response :=
  if bool_decide (hq_Method q = "POST") then MkHttpResponse 202 "5" 7 "pending" false false
  else if bool_decide (hq_URL q = "https://catalog.example.com/v1/operations/op") then MkHttpResponse 200 "" (-1) "completed" false false
  else MkHttpResponse 200 "" 7 "catalog" false false.

Definition wld : World :=
  {| world := Z; http_Do q w := (w, if deadline <? w then None else Some (service q)); env_Sleep d w := (w + d, true);
     env_Now _ := Some 500; time_Now w := w |}.

Definition cfg : Config := MkConfig "https://catalog.example.com" ∅ "" false (Some policy) digest 0 ∅.

Definition made : result client_error Client :=
  New (U := ascii_tables) (N := https_only) (G := sha256_only) (D := digester) (S := KeyExample.signatures) (P := KeyExample.encoding) (PJ := policies) cfg.

Definition client : Client :=
  MkClient (MkURL "https" "" false "catalog.example.com" "" "" false "" "" "") keys [kid] false (Some policy) DefaultPollingDeadline {["azure/tools" := 1]}.

Lemma made_client : made = Ok client.
Proof. vm_compute. reflexivity. Qed.

Definition resolved : world (World := wld) * result client_error Result :=
  Resolve (U := ascii_tables) (N := https_only) (R := CatalogArtifact.Example.no_reference) (G := sha256_only) (D := digester) (J := texts)
    (S := KeyExample.signatures) (P := KeyExample.encoding) (PJ := AuthExample.payloads) (RJ := CatalogSet.Example.requests)
    (TJ := CatalogSet.Example.catalogs) (OJ := operations) (UT := urls) (WO := wld) client 3 CatalogSet.Example.request 0.

Lemma resolved_ok : resolved.1 = 5 * time_Second ∧ is_ok resolved.2 = true.
Proof. vm_compute. done. Qed.

End ClientExample.

Lemma Resolve_trusted_witness :
  ∃ r, dom (re_Catalogs r) = list_to_set ((λ reference, ts_ID (rf_Tap reference)) <$> py_Catalogs (re_Payload r)) ∧
    ci_Digest (py_CatalogService (re_Payload r)) ∈ [ClientExample.digest].
Proof.
  pose proof (proj2 ClientExample.resolved_ok) as Hok. destruct ClientExample.resolved as [w' [r|e]] eqn:Hr; [|discriminate Hok].
  destruct (Resolve_trusted (U := ascii_tables) (N := https_only) (R := CatalogArtifact.Example.no_reference) (G := sha256_only)
    (D := ClientExample.digester) (J := JwsExample.texts) (S := KeyExample.signatures) (P := KeyExample.encoding) (PO := ClientExample.policies)
    (PJ := AuthExample.payloads) (RJ := CatalogSet.Example.requests) (TJ := CatalogSet.Example.catalogs) (OJ := ClientExample.operations)
    (UT := ClientExample.urls) (WO := ClientExample.wld) ClientExample.cfg ClientExample.client ClientExample.policy 3 CatalogSet.Example.request 0 w' r
    ClientExample.made_client eq_refl Hr) as [Ht _].
  exists r. split; [exact (tr_taps _ _ _ _ Ht)|exact (tr_service _ _ _ _ Ht)].
Defined.

Lemma Resolve_total_witness :
  ∃ fuel, ∀ w' e,
    Resolve (U := ascii_tables) (N := https_only) (R := CatalogArtifact.Example.no_reference) (G := sha256_only) (D := ClientExample.digester)
      (J := JwsExample.texts) (S := KeyExample.signatures) (P := KeyExample.encoding) (PJ := AuthExample.payloads)
      (RJ := CatalogSet.Example.requests) (TJ := CatalogSet.Example.catalogs) (OJ := ClientExample.operations) (UT := ClientExample.urls)
      (WO := ClientExample.wld) ClientExample.client fuel CatalogSet.Example.request 0 = (w', Err e) → e ≠ ClientOutOfFuel ∧ e ≠ ClientPanic.
Proof.
  assert (0 <= (ClientExample.deadline - 0) / 512) as Hpos by (apply Z.div_pos; [unfold ClientExample.deadline, time_Second|]; lia).
  exists (Z.to_nat ((ClientExample.deadline - 0) / 512 + 2)).
  apply (Resolve_total (WO := ClientExample.wld) ClientExample.client (λ w : Z, w) ClientExample.deadline).
  - intros d w w1 H. injection H as <-. lia.
  - intros q w w1 r H. cbn in H. destruct (Z.ltb_spec ClientExample.deadline w); [discriminate H|]. injection H as <- _. lia.
  - rewrite Z2Nat.id; lia.
  - lia.
Defined.
