(* ===== verification/CatalogService.v ===== *)
(** * internal/catalogservice: admission, scheduling and restart

    [service.go] as a state machine. All shared state is guarded by one mutex,
    so the steps are the critical sections: the two HTTP handlers that start
    work, the end of a generation ([finishOperation]), the departure of its
    goroutine ([generationDone]), the writes of a publishing generation, [Close],
    and a new process on the same store ([New]). The state keeps the goroutines
    explicitly, between [launchGenerationLocked] and [generationDone]. *)

From S2P Require Import Prelude GoStrings FormulaId Resolution CatalogStore.
From stdpp Require Import options.
Open Scope Z_scope.

(** ** Configuration: the defaults and ranges [New] applies *)

Record Config := MkConfig {
  cf_CatalogSetLifetime : Z; cf_GenerationTimeout : Z; cf_RetryAfter : Z; cf_CatalogRefresh : Z;
  cf_MaxConcurrentGenerations : Z; cf_MaxPendingGenerations : Z; cf_MaxStoredOperations : Z;
}.

Record Limits := MkLimits {
  lm_catalogSetLifetime : Z; lm_generationTimeout : Z; lm_retryAfterSeconds : Z; lm_catalogRefresh : Z;
  lm_maxConcurrent : nat; lm_maxPending : nat; lm_maxStoredOperations : nat;
}.

Inductive config_error :=
| ConfigLifetime | ConfigTimeout | ConfigRetryAfter | ConfigRefresh
| ConfigConcurrent | ConfigPending | ConfigStored.

Definition second : Z := 10 ^ 9.
Definition MaxCatalogSetLifetime : Z := 24 * 3600 * second.
Definition DefaultGenerationTimeout : Z := 30 * 60 * second.
Definition DefaultRetryAfter : Z := 2 * second.
Definition DefaultCatalogRefresh : Z := 3600 * second.
Definition maxPendingGenerationsLimit : Z := 4096.

Definition or_default (value default : Z) : Z := if value =? 0 then default else value.

Definition service_limits (c : Config) : result config_error Limits :=
  let lifetime := or_default (cf_CatalogSetLifetime c) MaxCatalogSetLifetime in
  _ ← check ((lifetime <=? 0) || (MaxCatalogSetLifetime <? lifetime)) ConfigLifetime;
  let generationTimeout := or_default (cf_GenerationTimeout c) DefaultGenerationTimeout in
  _ ← check ((generationTimeout <=? 0) || (DefaultGenerationTimeout <? generationTimeout)) ConfigTimeout;
  let retryAfter := or_default (cf_RetryAfter c) DefaultRetryAfter in
  _ ← check ((retryAfter <? second) || (3600 * second <? retryAfter) || negb (Z.rem retryAfter second =? 0)) ConfigRetryAfter;
  let catalogRefresh := or_default (cf_CatalogRefresh c) DefaultCatalogRefresh in
  _ ← check ((catalogRefresh <=? 0) || (MaxCatalogSetLifetime <? catalogRefresh)) ConfigRefresh;
  let maxConcurrent := or_default (cf_MaxConcurrentGenerations c) 4 in
  _ ← check ((maxConcurrent <? 1) || (64 <? maxConcurrent)) ConfigConcurrent;
  let maxPending := or_default (cf_MaxPendingGenerations c) 64 in
  _ ← check ((maxPending <? 1) || (maxPendingGenerationsLimit <? maxPending)) ConfigPending;
  let maxStored := or_default (cf_MaxStoredOperations c) 4096 in
  _ ← check ((maxStored <? 1) || (100000 <? maxStored)) ConfigStored;
  Ok (MkLimits lifetime generationTimeout (Z.quot retryAfter second) catalogRefresh
        (Z.to_nat maxConcurrent) (Z.to_nat maxPending) (Z.to_nat maxStored)).

Section service.
Context `{U : !UnicodeTables, G : !GoDigest, A : !CatalogAPI}.
Variable cfg : Limits.

(** ** State *)

(** A [runGeneration] goroutine: before and after its call of
    [finishOperation]. *)
Inductive Phase := Generating | Finished.
Record Worker := MkWorker { w_id : string; w_request : Request; w_phase : Phase }.

Record State := MkState {
  s_store : store;
  s_active : gset string;
  s_queued : gmap string Request;
  s_queue : list string;
  s_slots : nat;                 (* [len(s.generationSlots)] *)
  s_terminalErrors : gset string;
  s_closed : bool;
  s_handlers : nat;              (* requests past the check of [ServeHTTP] *)
  s_workers : list Worker;
}.

Definition with_store (st : store) (s : State) : State :=
  MkState st (s_active s) (s_queued s) (s_queue s) (s_slots s) (s_terminalErrors s) (s_closed s) (s_handlers s) (s_workers s).
Definition with_active (a : gset string) (s : State) : State :=
  MkState (s_store s) a (s_queued s) (s_queue s) (s_slots s) (s_terminalErrors s) (s_closed s) (s_handlers s) (s_workers s).
Definition with_queue (m : gmap string Request) (q : list string) (s : State) : State :=
  MkState (s_store s) (s_active s) m q (s_slots s) (s_terminalErrors s) (s_closed s) (s_handlers s) (s_workers s).
Definition with_slots (n : nat) (s : State) : State :=
  MkState (s_store s) (s_active s) (s_queued s) (s_queue s) n (s_terminalErrors s) (s_closed s) (s_handlers s) (s_workers s).
Definition with_terminalErrors (t : gset string) (s : State) : State :=
  MkState (s_store s) (s_active s) (s_queued s) (s_queue s) (s_slots s) t (s_closed s) (s_handlers s) (s_workers s).
Definition with_handlers (n : nat) (s : State) : State :=
  MkState (s_store s) (s_active s) (s_queued s) (s_queue s) (s_slots s) (s_terminalErrors s) (s_closed s) n (s_workers s).
Definition with_workers (w : list Worker) (s : State) : State :=
  MkState (s_store s) (s_active s) (s_queued s) (s_queue s) (s_slots s) (s_terminalErrors s) (s_closed s) (s_handlers s) w.

(** ** HTTP requests and responses *)

(** [hr_MediaType] is the answer of [mime.ParseMediaType]. *)
Record http_request := MkHTTP {
  hr_Path : string; hr_RawQuery : string; hr_ContentEncoding : string;
  hr_MediaType : option (string * gmap string string); hr_ContentLength : Z; hr_Body : string;
}.

(** [writeHTTPFailure] *)
Record http_failure := HTTPFailure { hf_status : Z; hf_code : string; hf_message : string }.

Inductive Response :=
| Refused (f : http_failure)
| Accepted (o : Operation)
| ResultOK (r : CatalogSetResult)
| OperationOK (o : Operation)
| CatalogOK (data : string).

Definition storageUnavailable : http_failure := HTTPFailure 500 FailureUnavailable "catalog service storage is unavailable".
Definition operationStorage : http_failure := HTTPFailure 500 FailureUnavailable "catalog operation storage is unavailable".
Definition notPersisted : http_failure := HTTPFailure 500 FailureUnavailable "catalog operation could not be persisted".
Definition stateUnavailable : http_failure := HTTPFailure 500 FailureUnavailable "catalog operation state is unavailable".
Definition capacityExhausted : http_failure := HTTPFailure 503 FailureUnavailable "catalog generation capacity is exhausted".
Definition quotaExhausted : http_failure := HTTPFailure 503 FailureUnavailable "catalog operation quota is exhausted".
Definition noQueries : http_failure := HTTPFailure 400 FailurePolicy "queries are not supported".
Definition invalidRequest : http_failure := HTTPFailure 400 FailurePolicy "invalid catalog request".
Definition tooLarge : http_failure := HTTPFailure 413 FailurePolicy "catalog request exceeds size limit".
Definition operationNotFound : http_failure := HTTPFailure 404 FailureUnavailable "operation not found".

(** ** The critical sections' monad: state, and an early return *)

Definition M (X : Type) : Type := State → State * result http_failure X.
#[local] Instance M_ret : MRet M := λ X x s, (s, Ok x).
#[local] Instance M_bind : MBind M := λ X Y f m s,
  let '(s', r) := m s in match r with Ok x => f x s' | Err e => (s', Err e) end.

Definition get : M State := λ s, (s, Ok s).
Definition modify (f : State → State) : M unit := λ s, (f s, Ok tt).
Definition fail {X} (r : http_failure) : M X := λ s, (s, Err r).
Definition guard (b : bool) (r : http_failure) : M unit := if b then fail r else mret tt.
(** a call that returns an error: [if err := f(); err != nil { return r }] *)
Definition call (f : State → State * bool) (r : http_failure) : M unit := λ s,
  let '(s', ok) := f s in (s', if ok then Ok tt else Err r).
Definition store_call (f : store → store * bool) (r : http_failure) : M unit :=
  call (λ s, let '(st, ok) := f (s_store s) in (with_store st s, ok)) r.
Definition finish_request (m : M Response) (s : State) : State * Response :=
  let '(s', r) := m s in (s', match r with Ok x => x | Err e => Refused e end).

(** ** Scheduling *)

Definition pendingOperation (id : string) : Operation :=
  MkOperation OperationSchemaVersion id OperationPending (lm_retryAfterSeconds cfg) None None.

Definition cloneRequest (r : Request) : option Request := CanonicalRequest r ≫= DecodeRequest.

Definition generationCapacityAvailableLocked (id : string) (s : State) : bool :=
  bool_decide (id ∈ s_active s) || bool_decide (is_Some (s_queued s !! id))
  || (size (s_active s) + size (s_queued s) <? lm_maxPending cfg)%nat.

Definition launchGenerationLocked (id : string) (r : Request) (s : State) : State :=
  with_workers (s_workers s ++ [MkWorker id r Generating]) (with_active ({[id]} ∪ s_active s) s).

(** A send to the buffered channel [generationSlots]: it proceeds when there is
    room. *)
Definition send_slot (s : State) : option State :=
  if (s_slots s <? lm_maxConcurrent cfg)%nat then Some (with_slots (S (s_slots s)) s) else None.

(** A receive proceeds when the channel is not empty. *)
Definition receive_slot (s : State) : option State :=
  match s_slots s with O => None | S n => Some (with_slots n s) end.

Definition startLocked (id : string) (r : Request) (s : State) : State :=
  if s_closed s || bool_decide (id ∈ s_terminalErrors s) then s
  else if bool_decide (id ∈ s_active s) then s
  else if bool_decide (is_Some (s_queued s !! id)) then s
  else if negb (generationCapacityAvailableLocked id s) then s
  else match cloneRequest r with
       | None => with_terminalErrors ({[id]} ∪ s_terminalErrors s) s
       | Some cloned =>
           match send_slot s with
           | Some s' => launchGenerationLocked id cloned s'
           | None => with_queue (<[id := cloned]> (s_queued s)) (s_queue s ++ [id]) s
           end
       end.

(** The loop of [generationDone]: [None] if the send would block. *)
Fixpoint launch_next (q : list string) (s : State) : option State :=
  match q with
  | [] => Some (with_queue (s_queued s) [] s)
  | nextID :: q =>
      let request := s_queued s !! nextID in
      let s1 := with_queue (delete nextID (s_queued s)) q s in
      match request with
      | None => launch_next q s1
      | Some r =>
          if bool_decide (nextID ∈ s_terminalErrors s) then launch_next q s1
          else launchGenerationLocked nextID r <$> send_slot s1
      end
  end.

Definition generationDone (id : string) (s : State) : option State :=
  s ← receive_slot (with_active (s_active s ∖ {[id]}) s);
  if s_closed s then Some s else launch_next (s_queue s) s.

(** ** Storage limits *)

(** The loop of [evictOperationsLocked]. *)
Fixpoint evict_loop (io : IO) (max remaining : nat) (infos : list storedOperationInfo) (s : State) : State * bool :=
  match infos with
  | [] => (s, true)
  | info :: infos =>
      let id := si_ID info in
      if (remaining <=? max)%nat then (s, true)
      else if bool_decide (id ∈ s_active s) then evict_loop io max remaining infos s
      else match loadOperation io id (s_store s) with
           | Err _ => evict_loop io max remaining infos s
           | Ok operation =>
               if bool_decide (op_Status operation = OperationPending) && negb (bool_decide (id ∈ s_terminalErrors s))
               then evict_loop io max remaining infos s
               else
                 let '(st, ok) := removeOperation io id (s_store s) in
                 let s := with_store st s in
                 if ok then evict_loop io max (remaining - 1) infos (with_terminalErrors (s_terminalErrors s ∖ {[id]}) s)
                 else (s, false)
           end
  end.

Definition evictOperationsLocked (io : IO) (max : nat) (s : State) : State * bool :=
  match operationInfos io (s_store s) with
  | Err _ => (s, false)
  | Ok infos =>
      if (length infos <=? max)%nat then (s, true)
      else evict_loop io max (length infos) (io_sort io infos) s
  end.

(** The catalog documents that a completed operation with a verifiable result
    references. *)
Definition operation_references (io : IO) (st : store) (id : string) : list string :=
  match loadOperation io id st with
  | Err _ => []
  | Ok o =>
      match op_Status o, op_Result o with
      | OperationCompleted, Some result =>
          match loadRequest io id st with
          | Err _ => []
          | Ok r =>
              match RequestDigest r with
              | None => []
              | Some _ => default [] (verifiedCatalogs result r (io_now io))
              end
          end
      | _, _ => []
      end
  end.

Definition gcCatalogsLocked (io : IO) (s : State) : State :=
  match listOperations io (s_store s) with
  | Err _ => s
  | Ok ids =>
      let referenced := list_to_set (ids ≫= operation_references io (s_store s)) in
      with_store (fst (removeCatalogsExcept io referenced (io_now io) (lm_catalogSetLifetime cfg) (s_store s))) s
  end.

(** ** The end of a generation *)

Definition finishOperation (io : IO) (o : Operation) (s : State) : State :=
  let '(st, ok) := saveOperation io o (s_store s) in
  let s := with_store st s in
  if ok then
    let s := with_terminalErrors (s_terminalErrors s ∖ {[op_ID o]}) s in
    if bool_decide (op_Status o = OperationCompleted) then gcCatalogsLocked io s else s
  else with_terminalErrors ({[op_ID o]} ∪ s_terminalErrors s) s.

Definition failedOperation (id : string) (f : Failure) : Operation :=
  MkOperation OperationSchemaVersion id OperationFailed 0 None
    (Some (if ValidateFailure f then f else MkFailure FailureUnavailable "catalog generation failed")).

Definition finishFailure (io : IO) (id : string) (f : Failure) (s : State) : State :=
  finishOperation io (failedOperation id f) s.

Inductive generator_error := DeadlineExceeded | FailureError (f : Failure) | OtherError.

(** What a generation met: whether the service context and the generation
    context were done after the generator returned, whether the deadline passed
    by the time its error was classified, the generator's error, and the answer
    of [publishGenerated]. *)
Record generation := MkGeneration {
  g_cancelled : bool; g_timeout : bool; g_deadline : bool; g_error : option generator_error;
  g_published : result bool CatalogSetResult;   (* [Err true]: an [invalidGenerationError] *)
}.

Definition failureForError (deadline : bool) (e : generator_error) : Failure :=
  let timeout := MkFailure FailureTimeout "catalog generation timed out" in
  let unavailable := MkFailure FailureUnavailable "catalog generation is unavailable" in
  if deadline then timeout
  else match e with
       | DeadlineExceeded => timeout
       | FailureError f => if ValidateFailure f then f else unavailable
       | OtherError => unavailable
       end.

Definition runGeneration (io : IO) (id : string) (request : Request) (g : generation) (s : State) : State :=
  match cloneRequest request with
  | None => finishFailure io id (MkFailure FailurePolicy "persisted catalog request is invalid") s
  | Some _ =>
      if g_cancelled g then s
      else if g_timeout g then finishFailure io id (MkFailure FailureTimeout "catalog generation timed out") s
      else match g_error g with
           | Some e => finishFailure io id (failureForError (g_deadline g) e) s
           | None =>
               match g_published g with
               | Err true => finishFailure io id (MkFailure FailurePolicy "generator returned invalid catalog data") s
               | Err false => finishFailure io id (MkFailure FailureUnavailable "catalog service could not publish generated data") s
               | Ok result =>
                   finishOperation io (MkOperation OperationSchemaVersion id OperationCompleted 0 (Some result) None) s
               end
           end
  end.

(** ** Handlers *)

(** The critical section at the head of [ServeHTTP]: a request is counted in,
    or refused after [Close]. *)
Definition ServeHTTP_enter (s : State) : State * option http_failure :=
  if s_closed s then (s, Some (HTTPFailure 503 FailureUnavailable "catalog service is shutting down"))
  else (with_handlers (S (s_handlers s)) s, None).

Definition MaxRequestBytes : Z := 2 ^ 20.

(** [handleCatalogSet] before the lock: the request, its canonical bytes and its
    operation id. *)
Definition admit_request (h : http_request) : result http_failure (Request * string * string) :=
  _ ← check (negb (bool_decide (hr_RawQuery h = ""))) noQueries;
  _ ← check (negb (bool_decide (hr_ContentEncoding h = "")) && negb (strings_EqualFold (hr_ContentEncoding h) "identity"))
        (HTTPFailure 415 FailurePolicy "content encoding is not supported");
  let contentType := HTTPFailure 415 FailurePolicy "content type must be application/json" in
  _ ← match hr_MediaType h with
      | None => Err contentType
      | Some (mediaType, parameters) =>
          let invalidParameters :=
            (1 <? size parameters)%nat || ((size parameters =? 1)%nat && is_none (parameters !! "charset")) in
          let charset := default "" (parameters !! "charset") in
          check (negb (bool_decide (mediaType = "application/json")) || invalidParameters
                 || (negb (bool_decide (charset = "")) && negb (strings_EqualFold charset "utf-8"))) contentType
      end;
  _ ← check (MaxRequestBytes <? hr_ContentLength h) tooLarge;
  _ ← check (MaxRequestBytes <? strlen (hr_Body h)) tooLarge;
  match DecodeRequest (hr_Body h) with
  | None => Err invalidRequest
  | Some decoded =>
      match CanonicalRequest decoded, RequestDigest decoded with
      | Some canonical, Some d => Ok (decoded, canonical, operationIDFromDigest d)
      | _, _ => Err invalidRequest
      end
  end.

Definition fresh_result (io : IO) (s : State) (r : Request) (o : Operation) : bool :=
  match op_Result o with
  | Some result => cachedResultFresh (λ encoded, match loadCatalog io encoded (s_store s) with Ok data => Some data | Err _ => None end)
                     (io_now io) r result
  | None => false
  end.

(** Room for a new operation: capacity, eviction, quota. *)
Definition admit_new (io : IO) (id : string) : M unit :=
  s ← get;
  _ ← guard (negb (generationCapacityAvailableLocked id s)) capacityExhausted;
  _ ← call (evictOperationsLocked io (lm_maxStoredOperations cfg - 1)) operationStorage;
  s ← get;
  match listOperations io (s_store s) with
  | Err _ => fail operationStorage
  | Ok ids => guard (lm_maxStoredOperations cfg <=? length ids)%nat quotaExhausted
  end.

(** Make the operation pending and start it. *)
Definition restart_operation (io : IO) (id : string) (decoded : Request) : M Operation :=
  _ ← store_call (saveOperation io (pendingOperation id)) storageUnavailable;
  _ ← modify (startLocked id decoded);
  mret (pendingOperation id).

(** [handleCatalogSet] under the lock. *)
Definition catalogSetLocked (io : IO) (decoded : Request) (canonical id : string) : M Response :=
  s ← get;
  _ ← guard (bool_decide (id ∈ s_terminalErrors s)) notPersisted;
  let loaded := loadOperation io id (s_store s) in
  _ ← match loaded with Err ErrNotExist => admit_new io id | _ => mret tt end;
  _ ← store_call (putRequest io id canonical) storageUnavailable;
  match loaded with
  | Err ErrNotExist => o ← restart_operation io id decoded; mret (Accepted o)
  | Err ErrUnreadable => fail stateUnavailable
  | Ok operation =>
      s ← get;
      match op_Status operation, op_Result operation, fresh_result io s decoded operation with
      | OperationCompleted, Some result, true => mret (ResultOK result)
      | _, _, _ =>
          _ ← guard (negb (generationCapacityAvailableLocked id s)) capacityExhausted;
          if bool_decide (op_Status operation = OperationPending)
          then _ ← modify (startLocked id decoded); mret (Accepted operation)
          else o ← restart_operation io id decoded; mret (Accepted o)
      end
  end.

Definition handleCatalogSet (io : IO) (h : http_request) (s : State) : State * Response :=
  match admit_request h with
  | Err r => (s, Refused r)
  | Ok (decoded, canonical, id) => finish_request (catalogSetLocked io decoded canonical id) s
  end.

(** [handleOperation] under the lock. *)
Definition operationLocked (io : IO) (id : string) : M Response :=
  s ← get;
  _ ← guard (bool_decide (id ∈ s_terminalErrors s)) notPersisted;
  match loadOperation io id (s_store s) with
  | Err ErrNotExist => fail operationNotFound
  | Err ErrUnreadable => fail stateUnavailable
  | Ok operation =>
      match loadRequest io id (s_store s) with
      | Err _ => fail (HTTPFailure 500 FailureUnavailable "catalog operation request is unavailable")
      | Ok decoded =>
          _ ← guard (negb (bool_decide (OperationID decoded = Some id)))
                (HTTPFailure 500 FailureUnavailable "catalog operation request is invalid");
          operation ← (if bool_decide (op_Status operation = OperationCompleted) && negb (fresh_result io s decoded operation)
                       then
                         _ ← guard (negb (generationCapacityAvailableLocked id s)) capacityExhausted;
                         _ ← store_call (saveOperation io (pendingOperation id)) storageUnavailable;
                         mret (pendingOperation id)
                       else mret operation);
          s ← get;
          if bool_decide (op_Status operation = OperationPending)
          then
            _ ← guard (negb (generationCapacityAvailableLocked id s)) capacityExhausted;
            _ ← modify (startLocked id decoded);
            mret (OperationOK operation)
          else mret (OperationOK operation)
      end
  end.

Definition handleOperation (io : IO) (h : http_request) (s : State) : State * Response :=
  let id := strings_TrimPrefix (hr_Path h) "/v1/operations/" in
  if negb (bool_decide (hr_RawQuery h = "")) then (s, Refused noQueries)
  else if negb (validOperationID id) || strings_Contains id "/" then (s, Refused operationNotFound)
  else finish_request (operationLocked io id) s.

(** The download of a catalog document takes no lock and changes nothing. *)
Definition handleCatalog (io : IO) (h : http_request) (s : State) : Response :=
  let encoded := strings_TrimPrefix (hr_Path h) "/v1/catalogs/sha256/" in
  let notFound := HTTPFailure 404 FailureUnavailable "catalog not found" in
  if negb (bool_decide (hr_RawQuery h = "")) then Refused noQueries
  else if negb (validSHA256Hex encoded) || strings_Contains encoded "/" then Refused notFound
  else match loadCatalog io encoded (s_store s) with
       | Err ErrNotExist => Refused notFound
       | Err ErrUnreadable => Refused (HTTPFailure 500 FailureUnavailable "catalog storage is unavailable")
       | Ok data => CatalogOK data
       end.

(** ** A new process on an existing store *)

Inductive resume_error := ResumeStorage (e : load_error) | ResumeMismatch (id : string) | ResumeTooMany.

Definition pending_request (io : IO) (st : store) (id : string) : result resume_error (list (string * Request)) :=
  operation ← map_err ResumeStorage (loadOperation io id st);
  request ← map_err ResumeStorage (loadRequest io id st);
  _ ← check (negb (bool_decide (OperationID request = Some id))) (ResumeMismatch id);
  Ok (if bool_decide (op_Status operation = OperationPending) then [(id, request)] else []).

Definition resumePending (io : IO) (s : State) : result resume_error State :=
  ids ← map_err ResumeStorage (listOperations io (s_store s));
  pending ← mapM_res (pending_request io (s_store s)) ids;
  _ ← check (lm_maxPending cfg <? length (mjoin pending))%nat ResumeTooMany;
  Ok (foldl (λ s '(id, r), startLocked id r s) s (mjoin pending)).

Definition New (io : IO) (st : store) : result resume_error State :=
  resumePending io (MkState st ∅ ∅ [] 0 ∅ false 0 []).

(** [Close] up to the release of the mutex. *)
Definition Close (s : State) : State :=
  MkState (s_store s) (s_active s) (s_queued s) (s_queue s) (s_slots s) (s_terminalErrors s) true (s_handlers s) (s_workers s).

(** ** Steps

    A generation is cancelled only when the service context is, which [Close]
    does after it set [closed]. A new process may start from the store of any
    state: after [Close], or after a crash. *)

Inductive step (s : State) : State → Prop :=
| step_enter : step s (fst (ServeHTTP_enter s))
| step_catalog_set io h n : s_handlers s = S n → sort_ok io →
    step s (fst (handleCatalogSet io h (with_handlers n s)))
| step_operation io h n : s_handlers s = S n → step s (fst (handleOperation io h (with_handlers n s)))
| step_publish io w data : w ∈ s_workers s → w_phase w = Generating →
    step s (with_store (fst (putCatalog io data (s_store s))) s)
| step_sequence io w tap source : w ∈ s_workers s → w_phase w = Generating →
    step s (with_store (fst (nextSequence io tap source (s_store s))) s)
| step_run io g w1 id r w2 : s_workers s = w1 ++ MkWorker id r Generating :: w2 →
    (g_cancelled g = true → s_closed s = true) →
    step s (runGeneration io id r g (with_workers (w1 ++ MkWorker id r Finished :: w2) s))
| step_done w1 id r w2 s' : s_workers s = w1 ++ MkWorker id r Finished :: w2 →
    generationDone id (with_workers (w1 ++ w2) s) = Some s' → step s s'
| step_close : step s (Close s)
| step_new io s' : New io (s_store s) = Ok s' → step s s'.

(** The states of a service that was started on the store [st]. *)
Definition reachable (st : store) (s : State) : Prop := ∃ io s0, New io st = Ok s0 ∧ rtc step s0 s.

(** ** The invariant *)

Definition pending_stored (st : store) (id : string) : Prop :=
  ∃ t o, st_operations st !! id = Some (t, o) ∧ op_Status o = OperationPending.

(** queued, or being generated *)
Definition waiting (s : State) (id : string) : Prop :=
  id ∈ s_queue s ∨ ∃ r, MkWorker id r Generating ∈ s_workers s.

(** The generation of [id] is over but its goroutine has not been through
    [generationDone]: the id is still in [s.active]. *)
Definition leaving (s : State) (id : string) : Prop := ∃ r, MkWorker id r Finished ∈ s_workers s.

(** [B] bounds the number of operation files. *)
Record Inv (B : nat) (s : State) : Prop := {
  i_nodup : NoDup (s_queue s);
  i_queued id : id ∈ s_queue s ↔ is_Some (s_queued s !! id);
  i_disjoint id : id ∈ s_queue s → id ∉ s_active s;
  i_workers : w_id <$> s_workers s ≡ₚ elements (s_active s);
  i_slots : s_slots s = size (s_active s);
  i_concurrent : (s_slots s <= lm_maxConcurrent cfg)%nat;
  i_pending : (size (s_active s) + length (s_queue s) <= lm_maxPending cfg)%nat;
  i_waiting id : waiting s id → pending_stored (s_store s) id ∧ id ∉ s_terminalErrors s;
  i_busy : s_closed s = false → s_queue s ≠ [] → s_slots s = lm_maxConcurrent cfg;
  i_quota : (size (st_operations (s_store s)) <= B)%nat;
}.

Section invariant.
Variable B : nat.

Lemma queued_size s : Inv B s → size (s_queued s) = length (s_queue s).
Proof.
  intros Hi. rewrite <-size_dom. rewrite <-(size_list_to_set (C := gset string) (s_queue s)) by apply (i_nodup _ _ Hi).
  apply set_size_proper. intros id. rewrite elem_of_dom, elem_of_list_to_set. symmetry. apply (i_queued _ _ Hi).
Qed.

Lemma worker_active s w : Inv B s → w ∈ s_workers s → w_id w ∈ s_active s.
Proof.
  intros Hi Hw. rewrite <-elem_of_elements, <-(i_workers _ _ Hi). by apply list_elem_of_fmap_2.
Qed.

Lemma waiting_not_active_queue s id : Inv B s → waiting s id → id ∈ s_active s ∨ id ∈ s_queue s.
Proof. intros Hi [?|[r Hr]]; [by right|left]. by apply (worker_active s _ Hi Hr). Qed.

Lemma Inv_store s st : Inv B s →
  (∀ id, waiting s id → pending_stored st id) → (size (st_operations st) <= B)%nat → Inv B (with_store st s).
Proof. intros [] Hw Hs. constructor; cbn; try done. intros id Hid. split; [by apply Hw|naive_solver]. Qed.

Lemma Inv_same_operations s st : Inv B s → st_operations st = st_operations (s_store s) → Inv B (with_store st s).
Proof.
  intros Hi Ho. apply Inv_store; [done| |].
  - intros id [Hp _]%(i_waiting _ _ Hi). unfold pending_stored. by rewrite Ho.
  - rewrite Ho. apply (i_quota _ _ Hi).
Qed.

Lemma Inv_terminalErrors s t : Inv B s → (∀ id, waiting s id → id ∉ t) → Inv B (with_terminalErrors t s).
Proof. intros [] Ht. constructor; cbn; try done. intros id Hid. split; [naive_solver|by apply Ht]. Qed.

Lemma Inv_handlers s n : Inv B s → Inv B (with_handlers n s).
Proof. intros []. by constructor. Qed.

Lemma elements_insert (a : gset string) id : id ∉ a → elements ({[id]} ∪ a) ≡ₚ elements a ++ [id].
Proof. intros Hid. rewrite elements_union_singleton by done. apply Permutation_cons_append. Qed.

(** [Close s] carries the invariant without its clause on idle slots. *)
Lemma Inv_Close s : Inv B s → Inv B (Close s).
Proof. intros []. by constructor. Qed.

Lemma Inv_open s : Inv B (Close s) →
  (s_closed s = false → s_queue s ≠ [] → s_slots s = lm_maxConcurrent cfg) → Inv B s.
Proof. intros [] Hb. by constructor. Qed.

(** Launching a generation for a slot that was just taken. *)
Lemma launch_inv s id r : Inv B (Close s) → id ∉ s_active s → id ∉ s_queue s →
  (s_slots s < lm_maxConcurrent cfg)%nat →
  (s_closed s = false → s_queue s ≠ [] → S (s_slots s) = lm_maxConcurrent cfg) →
  (size (s_active s) + length (s_queue s) < lm_maxPending cfg)%nat →
  pending_stored (s_store s) id → id ∉ s_terminalErrors s →
  Inv B (launchGenerationLocked id r (with_slots (S (s_slots s)) s)).
Proof.
  intros [] Ha Hq Hs Hidle Hp Hst Ht. cbn in *. constructor; cbn; try done.
  - intros x Hx. set_solver.
  - rewrite fmap_app, elements_insert by done. by apply Permutation_app_tail.
  - rewrite size_union, size_singleton by set_solver. lia.
  - rewrite size_union, size_singleton by set_solver. lia.
  - intros x [Hx|[r' [Hr|Hr]%elem_of_app]].
    + apply i_waiting0. by left.
    + apply i_waiting0. right. eauto.
    + apply list_elem_of_singleton in Hr. by simplify_eq.
Qed.

Lemma startLocked_inv s id r : Inv B s → pending_stored (s_store s) id → Inv B (startLocked id r s).
Proof.
  intros Hi Hst. unfold startLocked. destruct (s_closed s) eqn:Hc; [done|]. cbn.
  do 3 (case_bool_decide; [done|]). destruct (generationCapacityAvailableLocked id s) eqn:Hcap; [|done]. cbn.
  unfold generationCapacityAvailableLocked in Hcap. rewrite !bool_decide_eq_false_2 in Hcap by done. cbn [orb] in Hcap. case_bool.
  rewrite queued_size in Hcap by done.
  assert (id ∉ s_queue s) as Hq by (by rewrite (i_queued _ _ Hi)).
  destruct (cloneRequest r) as [cloned|].
  2: { apply Inv_terminalErrors; [done|]. intros x Hx. rewrite not_elem_of_union, not_elem_of_singleton. split; [|by apply (i_waiting _ _ Hi)].
       intros ->. by destruct (waiting_not_active_queue _ _ Hi Hx). }
  unfold send_slot. destruct (Nat.ltb_spec (s_slots s) (lm_maxConcurrent cfg)) as [Hlt|Hge].
  - apply launch_inv; try done; [by apply Inv_Close|]. intros _ Hne. pose proof (i_busy _ _ Hi Hc Hne). lia.
  - pose proof (i_concurrent _ _ Hi). destruct Hi. constructor; cbn; try done.
    + apply NoDup_app. split_and!; [done| |apply NoDup_singleton]. intros x Hx ->%list_elem_of_singleton. done.
    + intros x. rewrite elem_of_app, list_elem_of_singleton, lookup_insert_is_Some', i_queued0. naive_solver.
    + intros x [?| ->%list_elem_of_singleton]%elem_of_app; [by apply i_disjoint0|done].
    + rewrite length_app. cbn. lia.
    + intros x [[Hx| ->%list_elem_of_singleton]%elem_of_app|Hx].
      * apply i_waiting0. by left.
      * done.
      * apply i_waiting0. by right.
    + intros. lia.
Qed.

(** *** Eviction *)

(** What eviction may not touch. *)
Definition protected (s : State) (id : string) : Prop :=
  id ∈ s_active s ∨ pending_stored (s_store s) id ∧ id ∉ s_terminalErrors s.

(** [evicts s s'] : [s'] is [s] without some unprotected operations. *)
Record evicts (s s' : State) : Prop := {
  ev_state : s' = with_terminalErrors (s_terminalErrors s') (with_store (s_store s') s);
  ev_terminal : s_terminalErrors s' ⊆ s_terminalErrors s;
  ev_operations : st_operations (s_store s') ⊆ st_operations (s_store s);
  ev_protected id : protected s id → st_operations (s_store s') !! id = st_operations (s_store s) !! id;
}.

Lemma evicts_refl s : evicts s s.
Proof. constructor; [by destruct s|done..]. Qed.

Lemma evicts_remove s st t : evicts s (with_store st s) → t ⊆ s_terminalErrors s →
  evicts s (with_terminalErrors t (with_store st s)).
Proof. intros [] Ht. constructor; [by destruct s|done..]. Qed.

Lemma evicts_trans s1 s2 s3 : evicts s1 s2 → evicts s2 s3 → evicts s1 s3.
Proof.
  intros [E1 T1 O1 P1] [E2 T2 O2 P2]. constructor; [|by etrans..|].
  - rewrite E2, E1. by destruct s1.
  - intros id Hp. rewrite P2; [by apply P1|]. destruct Hp as [Ha|[(t & o & Ho & Hs) Ht]].
    + left. by rewrite E1.
    + right. split; [|set_solver]. exists t, o. rewrite P1; [done|]. right. split; [|done]. by exists t, o.
Qed.

Lemma evict_loop_evicts io max remaining infos s s' ok :
  evict_loop io max remaining infos s = (s', ok) → evicts s s'.
Proof.
  revert remaining s. induction infos as [|info infos IH]; intros remaining s H; cbn in H.
  { simplify_eq. apply evicts_refl. }
  destruct (remaining <=? max)%nat; [simplify_eq; apply evicts_refl|].
  case_bool_decide as Ha; [by eapply IH|].
  destruct (loadOperation io (si_ID info) (s_store s)) as [o|] eqn:El; [|by eapply IH].
  destruct (bool_decide _ && _) eqn:Eb in H; [by eapply IH|].
  apply loadOperation_ok in El as (_ & _ & t & Ho).
  destruct (removeOperation io (si_ID info) (s_store s)) as [st okr] eqn:Er.
  assert (evicts s (with_store st s)) as Hev.
  { apply removeOperation_cases in Er as [Hd|[-> _]]; [|by destruct s; apply evicts_refl].
    constructor; cbn; [by destruct s|done|rewrite Hd; apply delete_subseteq|].
    intros id Hp. rewrite Hd. apply lookup_delete_ne. intros <-. destruct Hp as [?|[(t' & o' & Ho' & Hs) Ht]]; [done|].
    rewrite Ho in Ho'. injection Ho' as <- <-. rewrite bool_decide_eq_true_2, bool_decide_eq_false_2 in Eb by done. done. }
  destruct okr; [|by simplify_eq]. apply IH in H. cbn in H. eapply evicts_trans; [|exact H].
  apply evicts_remove; [done|set_solver].
Qed.

Lemma evict_evicts io max s s' ok : evictOperationsLocked io max s = (s', ok) → evicts s s'.
Proof.
  unfold evictOperationsLocked. destruct (operationInfos io (s_store s)); [|intros [= <- <-]; apply evicts_refl].
  destruct (_ <=? _)%nat; [intros [= <- <-]; apply evicts_refl|]. apply evict_loop_evicts.
Qed.

(** What eviction may remove: an operation that is not active, whose file can be
    read, and that is not waiting for a generation. *)
Definition evictable (io : IO) (s : State) (id : string) : Prop :=
  id ∉ s_active s ∧ ∃ o, loadOperation io id (s_store s) = Ok o ∧
    ¬ (op_Status o = OperationPending ∧ id ∉ s_terminalErrors s).

Lemma loadOperation_ext io id st st' : st_operations st !! id = st_operations st' !! id →
  loadOperation io id st = loadOperation io id st'.
Proof. unfold loadOperation. by intros ->. Qed.

Lemma evictable_ext io s s' id : s_active s' = s_active s →
  st_operations (s_store s') !! id = st_operations (s_store s) !! id →
  (id ∈ s_terminalErrors s' ↔ id ∈ s_terminalErrors s) → evictable io s' id ↔ evictable io s id.
Proof. intros Ha Ho Ht. unfold evictable. rewrite Ha, (loadOperation_ext io id _ _ Ho). by setoid_rewrite Ht. Qed.

(** Eviction clears a prefix of the candidates: [k] files are removed, exactly
    the evictable ones of [l1], and it stops early only below the limit. *)
Record cleared (io : IO) (max remaining : nat) (l1 l2 : list storedOperationInfo) (s s' : State) (k : nat) : Prop := {
  cl_gone id : id ∈ si_ID <$> l1 → evictable io s id → st_operations (s_store s') !! id = None;
  cl_kept id : ¬ (id ∈ si_ID <$> l1 ∧ evictable io s id) →
    st_operations (s_store s') !! id = st_operations (s_store s) !! id;
  cl_count : (size (st_operations (s_store s)) = size (st_operations (s_store s')) + k)%nat;
  cl_stop : l2 ≠ [] → (remaining <= max + k)%nat;
}.

Lemma cleared_skip io max remaining info l1 l2 s s' k : ¬ evictable io s (si_ID info) →
  cleared io max remaining l1 l2 s s' k → cleared io max remaining (info :: l1) l2 s s' k.
Proof.
  intros Hn [G1 G2 G3 G4]. constructor; [..|done|done].
  - intros id Hid He. apply G1; [|done]. rewrite fmap_cons in Hid. apply elem_of_cons in Hid as [->|?]; done.
  - intros id Hid. apply G2. intros [Hin He]. apply Hid. split; [|done]. rewrite fmap_cons. by right.
Qed.

Lemma evict_loop_cleared io max remaining infos s s' : NoDup (si_ID <$> infos) →
  evict_loop io max remaining infos s = (s', true) → ∃ l1 l2 k, infos = l1 ++ l2 ∧ cleared io max remaining l1 l2 s s' k.
Proof.
  revert remaining s. induction infos as [|info infos IH]; intros remaining s Hnd H; cbn in H.
  { simplify_eq. exists [], [], 0%nat. split; [done|]. constructor; [by intros ? ?%not_elem_of_nil|done|lia|done]. }
  rewrite fmap_cons in Hnd. apply NoDup_cons in Hnd as [Hx Hnd].
  destruct (remaining <=? max)%nat eqn:Erem.
  { simplify_eq. exists [], (info :: infos), 0%nat. split; [done|]. case_bool.
    constructor; [by intros ? ?%not_elem_of_nil|done|lia|lia]. }
  assert (∀ s, ¬ evictable io s (si_ID info) → evict_loop io max remaining infos s = (s', true) →
    ∃ l1 l2 k, info :: infos = l1 ++ l2 ∧ cleared io max remaining l1 l2 s s' k) as Hskip.
  { clear H s. intros s Hn H. destruct (IH _ _ Hnd H) as (l1 & l2 & k & -> & Hc). exists (info :: l1), l2, k.
    split; [done|]. by apply cleared_skip. }
  case_bool_decide as Ha; [apply Hskip; [|done]; by intros [? _]|].
  destruct (loadOperation io (si_ID info) (s_store s)) as [o|] eqn:El; [|apply Hskip; [|done]; intros (_ & o & ? & _); congruence].
  destruct (bool_decide _ && _) eqn:Eb in H.
  { case_bool. apply Hskip; [|done]. intros (_ & o' & Hl & Hn). rewrite El in Hl. simplify_eq. by apply Hn. }
  destruct (removeOperation io (si_ID info) (s_store s)) as [st []] eqn:Er; [|done].
  apply removeOperation_cases in Er as [Hd|[_ ?]]; [|done].
  destruct (IH _ _ Hnd H) as (l1 & l2 & k & -> & [G1 G2 G3 G4]). cbn in G1, G2, G3. rewrite fmap_app in Hx.
  set (s1 := with_terminalErrors (s_terminalErrors (with_store st s) ∖ {[si_ID info]}) (with_store st s)) in *.
  assert (∀ id, id ≠ si_ID info → evictable io s1 id ↔ evictable io s id) as Hext.
  { intros id Hne. apply evictable_ext; [done|cbn; by rewrite Hd, lookup_delete_ne|cbn; set_solver]. }
  assert (evictable io s (si_ID info)) as Hev.
  { split; [done|]. exists o. split; [done|]. intros [Hp Ht]. rewrite bool_decide_eq_true_2, bool_decide_eq_false_2 in Eb by done. done. }
  exists (info :: l1), l2, (S k). split; [done|]. constructor.
  - intros id Hid He. rewrite fmap_cons in Hid. apply elem_of_cons in Hid as [->|Hid].
    + rewrite G2 by set_solver. by rewrite Hd, lookup_delete_eq.
    + apply G1; [done|]. apply Hext; [set_solver|done].
  - intros id Hn. rewrite fmap_cons in Hn. destruct (decide (id = si_ID info)) as [->|Hne]; [exfalso; apply Hn; split; [by left|done]|].
    rewrite G2; [by rewrite Hd, lookup_delete_ne|]. intros [Hin He%Hext]; [|done]. apply Hn. split; [by right|done].
  - rewrite Hd in G3. apply loadOperation_ok in El as (_ & _ & t & Ho). rewrite map_size_delete, Ho in G3. cbn in G3.
    assert (size (st_operations (s_store s)) ≠ 0%nat); [|lia]. intros He%map_size_empty_inv. by rewrite He, lookup_empty in Ho.
  - intros Hl2. specialize (G4 Hl2). lia.
Qed.

Lemma waiting_protected s id : Inv B s → waiting s id → protected s id.
Proof. intros Hi Hw. right. by apply (i_waiting _ _ Hi). Qed.

Lemma evicts_inv s s' : Inv B s → evicts s s' → Inv B s'.
Proof.
  intros Hi [He Ht Ho Hp]. rewrite He. apply Inv_terminalErrors.
  - apply Inv_store; [done| |].
    + intros id Hw. destruct (i_waiting _ _ Hi _ Hw) as [(t & o & ? & ?) ?]. exists t, o. rewrite Hp; [done|by apply waiting_protected].
    + etrans; [by apply map_subseteq_size|apply (i_quota _ _ Hi)].
  - intros id Hw. apply (i_waiting _ _ Hi) in Hw as [_ ?]. set_solver.
Qed.

(** *** Saving *)

Definition room (id : string) (s : State) : Prop :=
  is_Some (st_operations (s_store s) !! id) ∨ (size (st_operations (s_store s)) < B)%nat.

Lemma insert_size_le (m : gmap string (Z * Operation)) id x :
  is_Some (m !! id) ∨ (size m < B)%nat → (size m <= B)%nat → (size (<[id := x]> m) <= B)%nat.
Proof. intros Hr Hle. rewrite map_size_insert. destruct (m !! id); cbn; [done|]. destruct Hr as [[? [=]]|]; lia. Qed.

(** Writing an operation that is pending, or that nothing waits for. *)
Lemma save_inv io o s st ok : Inv B s → room (op_ID o) s → (waiting s (op_ID o) → op_Status o = OperationPending) →
  saveOperation io o (s_store s) = (st, ok) → Inv B (with_store st s).
Proof.
  intros Hi Hroom Hw [Ho|[-> _]]%saveOperation_cases; [|by destruct s].
  apply Inv_store; [done| |rewrite Ho; apply insert_size_le; [done|apply (i_quota _ _ Hi)]].
  intros id Hid. unfold pending_stored. rewrite Ho. destruct (decide (id = op_ID o)) as [->|Hne].
  - rewrite lookup_insert_eq. eauto.
  - rewrite lookup_insert_ne by done. by apply (i_waiting _ _ Hi).
Qed.

(** *** Starting what was admitted *)

Definition scheduled (s : State) (id : string) : Prop := id ∈ s_active s ∨ id ∈ s_queue s.

Definition ready (id : string) (s : State) : Prop :=
  id ∉ s_terminalErrors s ∧ generationCapacityAvailableLocked id s = true.

Lemma startLocked_store id r s : s_store (startLocked id r s) = s_store s.
Proof. unfold startLocked, send_slot. by repeat case_match; simplify_eq. Qed.

Lemma startLocked_scheduled id r s : Inv B s → ready id s → is_Some (cloneRequest r) →
  s_closed (startLocked id r s) = true ∨ scheduled (startLocked id r s) id.
Proof.
  intros Hi [Ht Hcap] [cloned Hc]. unfold startLocked. destruct (s_closed s) eqn:Ecl; [by left|]. right. cbn.
  rewrite bool_decide_eq_false_2 by done. case_bool_decide; [by left|]. case_bool_decide; [by right; apply (i_queued _ _ Hi)|].
  rewrite Hcap, Hc. cbn. unfold send_slot. destruct (_ <? _)%nat; [left; cbn; set_solver|right; cbn; set_solver].
Qed.

Lemma scheduled_waiting s id : Inv B s → scheduled s id → waiting s id ∨ leaving s id.
Proof.
  intros Hi [Ha|Hq]; [|by left; left]. rewrite <-elem_of_elements, <-(i_workers _ _ Hi) in Ha.
  apply list_elem_of_fmap in Ha as ([x r []] & -> & Hw); [left; right|right]; by exists r.
Qed.

(** *** The departure of a goroutine *)

(** The state after the slot was given back, before the queue is served. *)
Definition released (id : string) (n : nat) (ws : list Worker) (s : State) : State :=
  with_slots n (with_active (s_active s ∖ {[id]}) (with_workers ws s)).

Lemma worker_leaves s w1 id r p w2 : Inv B s → s_workers s = w1 ++ MkWorker id r p :: w2 →
  id ∈ s_active s ∧ id ∉ w_id <$> (w1 ++ w2) ∧ w_id <$> (w1 ++ w2) ≡ₚ elements (s_active s ∖ {[id]}).
Proof.
  intros Hi Hw. assert (id ∈ s_active s) as Ha by (apply (worker_active s (MkWorker id r p) Hi); rewrite Hw; set_solver).
  assert (id :: (w_id <$> (w1 ++ w2)) ≡ₚ elements (s_active s)) as Hp.
  { rewrite <-(i_workers _ _ Hi), Hw, !fmap_app. cbn. apply Permutation_middle. }
  assert (NoDup (id :: (w_id <$> (w1 ++ w2)))) as [Hn Hnd]%NoDup_cons by (rewrite Hp; apply NoDup_elements).
  split_and!; [done..|]. apply NoDup_Permutation; [done|apply NoDup_elements|]. intros x.
  rewrite elem_of_elements, elem_of_difference, elem_of_singleton, <-elem_of_elements, <-Hp, elem_of_cons.
  destruct (decide (x = id)) as [->|]; naive_solver.
Qed.

Lemma released_inv s w1 id r w2 : Inv B s → s_workers s = w1 ++ MkWorker id r Finished :: w2 →
  ∃ n, s_slots s = S n ∧ Inv B (Close (released id n (w1 ++ w2) s)).
Proof.
  intros Hi Hw. destruct (worker_leaves _ _ _ _ _ _ Hi Hw) as (Ha & _ & Hp).
  assert (size (s_active s) = S (size (s_active s ∖ {[id]}))) as Hsz.
  { rewrite size_difference by set_solver. rewrite size_singleton.
    assert (size (s_active s) ≠ 0%nat); [|lia]. rewrite size_non_empty_iff. set_solver. }
  exists (size (s_active s ∖ {[id]})). destruct Hi. split; [by rewrite i_slots0|]. constructor; cbn; try done; try lia.
  - set_solver.
  - intros x [Hx|[r' Hr]]; apply i_waiting0; [by left|right]. exists r'. cbn in Hr. rewrite Hw. set_solver.
Qed.

Lemma pop_inv s x q : Inv B (Close s) → s_queue s = x :: q → Inv B (Close (with_queue (delete x (s_queued s)) q s)).
Proof.
  intros [] Hq. cbn in *. rewrite Hq in *. apply NoDup_cons in i_nodup0 as [Hx Hnd]. constructor; cbn; try done.
  - intros y. rewrite lookup_delete_is_Some, <-i_queued0, elem_of_cons. split; [|naive_solver]. intros Hy. split; [by intros ->|auto].
  - intros y Hy. apply i_disjoint0. by right.
  - cbn in *. lia.
  - intros y [Hy|Hy]; apply i_waiting0; [left; cbn; rewrite Hq; by right|by right].
Qed.

Lemma send_slot_ok s : (s_slots s < lm_maxConcurrent cfg)%nat → send_slot s = Some (with_slots (S (s_slots s)) s).
Proof. intros H. unfold send_slot. by rewrite (proj2 (Nat.ltb_lt _ _) H). Qed.

(** The goroutine always gets through: neither channel operation blocks. An open
    service launches the oldest queued generation in its place. *)
Lemma generationDone_ok s w1 id r w2 : Inv B s → s_workers s = w1 ++ MkWorker id r Finished :: w2 →
  ∃ s', generationDone id (with_workers (w1 ++ w2) s) = Some s' ∧ Inv B s' ∧
    (s_closed s = false →
       s_queue s' = tail (s_queue s) ∧
       s_active s' = list_to_set (take 1 (s_queue s)) ∪ (s_active s ∖ {[id]})).
Proof.
  intros Hi Hw. destruct (released_inv _ _ _ _ _ Hi Hw) as (n & Hn & Hr).
  unfold generationDone, receive_slot. cbn. rewrite Hn. cbn. fold (released id n (w1 ++ w2) s).
  destruct (s_closed s) eqn:Hc.
  { eexists. split; [done|]. split; [|done]. apply Inv_open; [done|]. cbn. by rewrite Hc. }
  destruct (s_queue s) as [|x q] eqn:Hq; cbn.
  { eexists. split; [done|]. split; [|cbn; intros _; split; [done|set_solver]].
    replace (with_queue _ _ _) with (released id n (w1 ++ w2) s) by (destruct s; cbn in *; by rewrite Hq).
    apply Inv_open; [done|]. cbn. by rewrite Hq. }
  assert (x ∈ s_queue s) as Hx by (rewrite Hq; by left).
  destruct (proj1 (i_queued _ _ Hi x) Hx) as [rx Hrx]. destruct (i_waiting _ _ Hi x) as [Hp Ht]; [by left|].
  rewrite Hrx, bool_decide_eq_false_2 by done.
  pose proof (i_concurrent _ _ Hi) as Hmax. rewrite Hn in Hmax.
  rewrite send_slot_ok by (cbn; lia). cbn. eexists. split; [done|].
  split; [|cbn; intros _; split; [done|set_solver]].
  pose proof (i_nodup _ _ Hi) as Hnd. rewrite Hq in Hnd. apply NoDup_cons in Hnd as [Hxq _].
  apply (launch_inv (with_queue (delete x (s_queued s)) q (released id n (w1 ++ w2) s)) x rx); cbn; try done.
  - by apply (pop_inv (released id n (w1 ++ w2) s)).
  - apply (i_disjoint _ _ Hi) in Hx. set_solver.
  - intros _ _. rewrite <-Hn. apply (i_busy _ _ Hi Hc). by rewrite Hq.
  - pose proof (i_pending _ _ Hr) as Hb. cbn in Hb. rewrite Hq in Hb. cbn in Hb. lia.
Qed.

(** *** The end of a generation *)

Lemma gcCatalogs_store io s : ∃ st, gcCatalogsLocked io s = with_store st s ∧ st_operations st = st_operations (s_store s).
Proof.
  unfold gcCatalogsLocked. destruct (listOperations io (s_store s)); [|exists (s_store s); by destruct s].
  eexists. split; [done|]. apply removeCatalogs_operations.
Qed.

Lemma finishOperation_inv io o s : Inv B s → ¬ waiting s (op_ID o) → is_Some (st_operations (s_store s) !! op_ID o) →
  Inv B (finishOperation io o s).
Proof.
  intros Hi Hw Hs. unfold finishOperation. destruct (saveOperation io o (s_store s)) as [st ok] eqn:Es.
  assert (Inv B (with_store st s)) as Hi' by (apply (save_inv io o s st ok); [done|by left|done|done]).
  assert (∀ t, (∀ id, id ∈ t → id ∈ s_terminalErrors s ∨ id = op_ID o) → Inv B (with_terminalErrors t (with_store st s))) as Ht.
  { intros t Ht. apply Inv_terminalErrors; [done|]. intros id Hid [Hin| ->]%Ht; [|done]. by apply (i_waiting _ _ Hi') in Hid as []. }
  destruct ok; [|apply Ht; set_solver]. case_bool_decide; [|apply Ht; set_solver].
  destruct (gcCatalogs_store io (with_terminalErrors (s_terminalErrors (with_store st s) ∖ {[op_ID o]}) (with_store st s))) as (st' & -> & Ho).
  apply Inv_same_operations; [|done]. apply Ht. set_solver.
Qed.

Lemma finished_inv s w1 id r w2 : Inv B s → s_workers s = w1 ++ MkWorker id r Generating :: w2 →
  let s1 := with_workers (w1 ++ MkWorker id r Finished :: w2) s in
  Inv B s1 ∧ ¬ waiting s1 id ∧ is_Some (st_operations (s_store s1) !! id).
Proof.
  intros Hi Hw. destruct (worker_leaves _ _ _ _ _ _ Hi Hw) as (Ha & Hn & _).
  assert (waiting s id) as (Hp & Ht)%(i_waiting _ _ Hi) by (right; exists r; rewrite Hw; set_solver).
  split_and!.
  - destruct Hi. constructor; cbn; try done.
    + by rewrite <-i_workers0, Hw, !fmap_app.
    + intros x [Hx|[r' Hr]]; apply i_waiting0; [by left|right]. exists r'. cbn in Hr. rewrite Hw. set_solver.
  - intros [Hq|[r' Hr]]; [by apply (i_disjoint _ _ Hi) in Hq|]. cbn in Hr. apply Hn.
    apply list_elem_of_fmap. exists (MkWorker id r' Generating). split; [done|]. set_solver.
  - cbn. destruct Hp as (t & o & -> & _). by eexists.
Qed.

Lemma runGeneration_inv io g s w1 id r w2 : Inv B s → s_workers s = w1 ++ MkWorker id r Generating :: w2 →
  Inv B (runGeneration io id r g (with_workers (w1 ++ MkWorker id r Finished :: w2) s)).
Proof.
  intros Hi Hw. destruct (finished_inv _ _ _ _ _ Hi Hw) as (Hi' & Hn & Hs). unfold runGeneration, finishFailure.
  repeat case_match; try done; by apply finishOperation_inv.
Qed.

(** *** A new process *)

(** Starting an operation that is not scheduled, with room for it. *)
Lemma startLocked_new s id r : Inv B s → s_closed s = false → s_terminalErrors s = ∅ → ¬ scheduled s id →
  (size (s_active s) + length (s_queue s) < lm_maxPending cfg)%nat → is_Some (cloneRequest r) →
  let s' := startLocked id r s in
  s_closed s' = false ∧ s_terminalErrors s' = ∅ ∧ (∀ x, scheduled s' x ↔ x = id ∨ scheduled s x) ∧
  (size (s_active s') + length (s_queue s'))%nat = S (size (s_active s) + length (s_queue s)).
Proof.
  intros Hi Hc Ht Hn Hcap [cloned Hr]. assert (id ∉ s_active s ∧ id ∉ s_queue s) as [Ha Hq] by (unfold scheduled in Hn; naive_solver).
  unfold startLocked. rewrite Hc, Ht. rewrite bool_decide_eq_false_2 by set_solver. cbn [orb].
  rewrite bool_decide_eq_false_2 by done. rewrite bool_decide_eq_false_2 by (by rewrite <-(i_queued _ _ Hi)).
  unfold generationCapacityAvailableLocked. rewrite queued_size by done.
  rewrite (proj2 (Nat.ltb_lt _ _) Hcap), orb_true_r, Hr. cbn [negb]. unfold send_slot, scheduled.
  destruct (_ <? _)%nat; cbn; split_and!; try done.
  - set_solver.
  - rewrite size_union, size_singleton by set_solver. lia.
  - set_solver.
  - rewrite length_app. cbn. lia.
Qed.

Lemma New_empty st : (size (st_operations st) <= B)%nat → Inv B (MkState st ∅ ∅ [] 0 ∅ false 0 []).
Proof.
  intros Hs. constructor; cbn; try done; try lia; [constructor|..].
  - intros id. rewrite lookup_empty, elem_of_nil. split; [done|by intros []].
  - rewrite size_empty. lia.
  - intros id [Hid|[r Hr]]; cbn in *; [by apply not_elem_of_nil in Hid|by apply not_elem_of_nil in Hr].
Qed.

Definition start_all (pending : list (string * Request)) (s : State) : State :=
  foldl (λ s '(id, r), startLocked id r s) s pending.

Lemma start_all_inv pending s : Inv B s → (∀ id r, (id, r) ∈ pending → pending_stored (s_store s) id) →
  Inv B (start_all pending s) ∧ s_store (start_all pending s) = s_store s.
Proof.
  revert s. induction pending as [|[id r] pending IH]; intros s Hi Hp; cbn; [done|].
  destruct (IH (startLocked id r s)) as [? Hst].
  - apply startLocked_inv; [done|]. apply (Hp id r). by left.
  - intros id' r' Hin. rewrite startLocked_store. apply (Hp id' r'). by right.
  - split; [done|]. unfold start_all in Hst. by rewrite Hst, startLocked_store.
Qed.

Lemma start_all_scheduled pending s : Inv B s → s_closed s = false → s_terminalErrors s = ∅ →
  (∀ id r, (id, r) ∈ pending → pending_stored (s_store s) id ∧ ¬ scheduled s id ∧ is_Some (cloneRequest r)) →
  NoDup pending.*1 → (size (s_active s) + length (s_queue s) + length pending <= lm_maxPending cfg)%nat →
  ∀ x, scheduled (start_all pending s) x ↔ scheduled s x ∨ x ∈ pending.*1.
Proof.
  revert s. induction pending as [|[id r] pending IH]; intros s Hi Hc Ht Hp Hnd Hlen x; cbn in *; [set_solver|].
  apply NoDup_cons in Hnd as [Hid Hnd]. destruct (Hp id r) as (Hst & Hns & Hr); [by left|].
  destruct (startLocked_new s id r) as (Hc' & Ht' & Hs' & Hz'); try done; [lia|].
  rewrite (IH (startLocked id r s)); try done.
  - rewrite Hs', elem_of_cons. tauto.
  - by apply startLocked_inv.
  - intros y ry Hy. destruct (Hp y ry) as (? & ? & ?); [by right|]. rewrite startLocked_store, Hs'. split_and!; [done| |done].
    intros [->|?]; [|done]. apply Hid. by apply (list_elem_of_fmap_2 fst) in Hy.
  - lia.
Qed.

Lemma pending_request_ok io st id l : pending_request io st id = Ok l →
  l = [] ∧ ¬ pending_stored st id ∨
  ∃ r, l = [(id, r)] ∧ pending_stored st id ∧ is_Some (CanonicalRequest r).
Proof.
  unfold pending_request. intros (o & (_ & _ & t & Ho)%map_err_ok%loadOperation_ok & H)%bind_ok.
  apply bind_ok in H as (r & Hr%map_err_ok%loadRequest_ok & H). apply bind_ok in H as (? & _ & [= <-]).
  case_bool_decide as Hp.
  - right. exists r. split_and!; [done| |done]. by exists t, o.
  - left. split; [done|]. intros (t' & o' & Ho' & Hs). rewrite Ho in Ho'. by simplify_eq.
Qed.

Lemma New_ok io st s : New io st = Ok s → ∃ pending,
  s = start_all (mjoin pending) (MkState st ∅ ∅ [] 0 ∅ false 0 []) ∧
  mapM_res (pending_request io st) (operation_ids st) = Ok pending ∧ (length (mjoin pending) <= lm_maxPending cfg)%nat.
Proof.
  unfold New, resumePending. cbn [s_store]. intros H. apply bind_ok in H as (ids & Hids & H). apply map_err_ok, listOperations_ok in Hids as ->.
  apply bind_ok in H as (pending & Hp & H). apply bind_ok in H as (u & Hc & [= <-]). apply check_ok in Hc. case_bool.
  exists pending. by split_and!.
Qed.

(** The resumed requests: one for each pending operation. *)
Lemma resumed_pending io st ids pending : mapM_res (pending_request io st) ids = Ok pending →
  (∀ id, id ∈ (mjoin pending).*1 ↔ id ∈ ids ∧ pending_stored st id) ∧
  (∀ id r, (id, r) ∈ mjoin pending → is_Some (CanonicalRequest r)) ∧
  (NoDup ids → NoDup (mjoin pending).*1).
Proof.
  intros Hm%mapM_res_ok. induction Hm as [|id l ids pending Hid Hm (IH1 & IH2 & IH3)]; cbn.
  { split_and!; [set_solver|by intros ?? ?%not_elem_of_nil|constructor]. }
  apply pending_request_ok in Hid as [[-> Hn]|(r & -> & Hp & Hr)]; cbn.
  - split_and!; [|done|by intros [_ ?]%NoDup_cons; auto]. intros x. rewrite IH1, elem_of_cons. naive_solver.
  - split_and!.
    + intros x. rewrite !elem_of_cons, IH1. naive_solver.
    + intros x rx [[= -> ->]|Hin]%elem_of_cons; [done|by eapply IH2].
    + intros [Hid Hnd]%NoDup_cons. constructor; [|by apply IH3]. rewrite IH1. naive_solver.
Qed.

Lemma New_inv io st s : (size (st_operations st) <= B)%nat → New io st = Ok s → Inv B s ∧ s_store s = st.
Proof.
  intros Hs (pending & -> & Hm & _)%New_ok. apply start_all_inv; [by apply New_empty|].
  intros id r Hin. apply resumed_pending in Hm as (Hm & _). apply (Hm id). by apply (list_elem_of_fmap_2 fst) in Hin.
Qed.

(** *** Triples for the critical sections: the invariant holds on every early
    return. *)

Definition triple {X} (P : State → Prop) (m : M X) (Q : X → State → Prop) : Prop :=
  ∀ s, P s → match m s with (s', Ok x) => Q x s' | (s', Err _) => Inv B s' end.

Lemma triple_bind {X Y} P (m : M X) (k : X → M Y) Q R :
  triple P m Q → (∀ x, triple (Q x) (k x) R) → triple P (m ≫= k) R.
Proof.
  intros Hm Hk s Hs. specialize (Hm s Hs). unfold mbind, M_bind. destruct (m s) as [s' [x|e]]; [by apply Hk|done].
Qed.

Lemma triple_ret {X} (P : State → Prop) (x : X) (Q : X → State → Prop) : (∀ s, P s → Q x s) → triple P (mret x) Q.
Proof. intros H s Hs. by apply H. Qed.

Lemma triple_get {X} P (k : State → M X) R : (∀ s0, triple (λ s, s = s0 ∧ P s) (k s0) R) → triple P (get ≫= k) R.
Proof. intros H s Hs. by apply (H s s). Qed.

Lemma triple_fail {X} (P : State → Prop) r (Q : X → State → Prop) : (∀ s, P s → Inv B s) → triple P (fail r) Q.
Proof. intros H s Hs. by apply H. Qed.

Lemma triple_guard {X} (P : State → Prop) b r (k : unit → M X) R : (∀ s, P s → Inv B s) →
  (b = false → triple P (k tt) R) → triple P (guard b r ≫= k) R.
Proof. intros HP H s Hs. destruct b; [by apply HP|by apply H]. Qed.

Lemma triple_modify (P : State → Prop) f (Q : unit → State → Prop) : (∀ s, P s → Q tt (f s)) → triple P (modify f) Q.
Proof. intros H s Hs. by apply H. Qed.

Lemma triple_call (P : State → Prop) f r (Q : unit → State → Prop) :
  (∀ s s' ok, P s → f s = (s', ok) → Inv B s' ∧ (ok = true → Q tt s')) → triple P (call f r) Q.
Proof.
  intros H s Hs. unfold call. destruct (f s) as [s' ok] eqn:Ef. specialize (H s s' ok Hs Ef). destruct ok; naive_solver.
Qed.

Lemma triple_store_call (P : State → Prop) f r (Q : unit → State → Prop) :
  (∀ s st ok, P s → f (s_store s) = (st, ok) → Inv B (with_store st s) ∧ (ok = true → Q tt (with_store st s))) →
  triple P (store_call f r) Q.
Proof.
  intros H. apply triple_call. intros s s' ok Hs. destruct (f (s_store s)) as [st okf] eqn:Ef.
  intros [= <- <-]. by apply (H s).
Qed.

Lemma triple_pre {X} (P P' : State → Prop) (m : M X) Q : triple P' m Q → (∀ s, P s → P' s) → triple P m Q.
Proof. intros H HP s Hs. by apply H, HP. Qed.

Lemma triple_pure {X} (P : State → Prop) (F : Prop) (m : M X) Q : (∀ s, P s → F) → (F → triple P m Q) → triple P m Q.
Proof. intros HF H s Hs. apply H; [by eapply HF|done]. Qed.

(** *** The handlers *)

(** A pending operation accepted under [id]: stored, and scheduled unless the
    service is closing. *)
Definition accepted (id : string) (s : State) : Prop :=
  Inv B s ∧ pending_stored (s_store s) id ∧ (s_closed s = true ∨ scheduled s id).

Lemma start_accepted id r : is_Some (cloneRequest r) →
  triple (λ s, Inv B s ∧ ready id s ∧ pending_stored (s_store s) id) (modify (startLocked id r)) (λ _, accepted id).
Proof.
  intros Hr. apply triple_modify. intros s (Hi & Hrd & Hp). split_and!.
  - by apply startLocked_inv.
  - by rewrite startLocked_store.
  - by apply startLocked_scheduled.
Qed.

Lemma save_pending io id r :
  triple (λ s, Inv B s ∧ ready id s ∧ room id s) (store_call (saveOperation io (pendingOperation id)) r)
    (λ _ s, Inv B s ∧ ready id s ∧ pending_stored (s_store s) id).
Proof.
  apply triple_store_call. intros s st ok (Hi & Hrd & Hroom) Hs.
  assert (Inv B (with_store st s)) by (by apply (save_inv io (pendingOperation id) s st ok)). split; [done|].
  intros ->. split_and!; [done..|]. apply saveOperation_cases in Hs as [Ho|[_ ?]]; [|done].
  unfold pending_stored. cbn. rewrite Ho, lookup_insert_eq. eauto.
Qed.

Lemma restart_accepted io id r : is_Some (cloneRequest r) →
  triple (λ s, Inv B s ∧ ready id s ∧ room id s) (restart_operation io id r)
    (λ o s, op_ID o = id ∧ op_Status o = OperationPending ∧ accepted id s).
Proof.
  intros Hr. eapply triple_bind; [apply save_pending|]. intros [].
  eapply triple_bind; [by apply start_accepted|]. intros []. by apply triple_ret.
Qed.

Hypothesis HB : (lm_maxStoredOperations cfg <= B)%nat.

Lemma admit_new_ok io id : triple (λ s, Inv B s ∧ id ∉ s_terminalErrors s) (admit_new io id)
  (λ _ s, Inv B s ∧ ready id s ∧ room id s).
Proof using HB.
  apply triple_get. intros s0. apply triple_guard; [naive_solver|]. intros Hcap. case_bool.
  apply (triple_bind _ _ _ (λ _ s, Inv B s ∧ ready id s)).
  - apply triple_call. intros s s' ok (-> & Hi & Ht) Hev%evict_evicts. pose proof (evicts_inv _ _ Hi Hev). split; [done|].
    intros _. split; [done|]. destruct Hev as [He Hsub _ _]. split; [set_solver|].
    by rewrite He.
  - intros []. apply triple_get. intros s1. destruct (listOperations io (s_store s1)) as [ids|] eqn:El; [|apply triple_fail; naive_solver].
    apply listOperations_ok in El as ->. rewrite operation_ids_length.
    intros s (-> & Hi & Hrd). unfold guard. destruct (_ <=? _)%nat eqn:Eq; [done|]. case_bool.
    split_and!; [done..|]. right. lia.
Qed.

Lemma put_request_keeps io id data r (P : State → Prop) :
  (∀ s, P s → Inv B s) → (∀ s st, P s → st_operations st = st_operations (s_store s) → P (with_store st s)) →
  triple P (store_call (putRequest io id data) r) (λ _, P).
Proof.
  intros HP Hk. apply triple_store_call. intros s st ok Hs Hput.
  assert (st_operations st = st_operations (s_store s)) as Ho by (by rewrite <-(putRequest_operations io id data (s_store s)), Hput).
  split; [by apply Inv_same_operations; [apply HP|]|]. intros []. by apply Hk.
Qed.

(** The handlers end no generation. *)
Definition ends_none {X} (m : M X) : Prop := ∀ s id, leaving (fst (m s)) id → leaving s id.

Lemma ends_bind {X Y} (m : M X) (k : X → M Y) : ends_none m → (∀ x, ends_none (k x)) → ends_none (m ≫= k).
Proof.
  intros Hm Hk s id. specialize (Hm s id). unfold mbind, M_bind. destruct (m s) as [s' [x|e]]; [|done].
  intros H%Hk. by apply Hm.
Qed.

Lemma ends_guard b r : ends_none (guard b r).
Proof. intros s id. by destruct b. Qed.

Lemma ends_store_call f r : ends_none (store_call f r).
Proof. intros s id. unfold store_call, call. by destruct (f (s_store s)). Qed.

Lemma ends_start id r : ends_none (modify (startLocked id r)).
Proof.
  intros s x [rx Hx]. exists rx. revert Hx. cbn. unfold startLocked, send_slot, launchGenerationLocked.
  repeat case_match; simplify_eq; cbn; try done. intros [?|?%list_elem_of_singleton]%elem_of_app; by simplify_eq.
Qed.

Lemma ends_evict io max r : ends_none (call (evictOperationsLocked io max) r).
Proof.
  intros s id. unfold call. destruct (evictOperationsLocked io max s) as [s' ok] eqn:E.
  apply evict_evicts in E as [-> _ _ _]. done.
Qed.

Lemma ends_here {X} (m : M X) : (∀ s, fst (m s) = s) → ends_none m.
Proof. intros Hm s id. by rewrite Hm. Qed.

Ltac ends := repeat lazymatch goal with
  | |- ends_none (_ ≫= _) => apply ends_bind
  | |- ends_none (match _ with _ => _ end) => case_match
  | |- ends_none _ => first [ apply ends_guard | apply ends_store_call | apply ends_start | apply ends_evict | by apply ends_here ]
  | |- ∀ _, _ => intros ?
  end.

Lemma catalogSetLocked_ends io decoded canonical id : ends_none (catalogSetLocked io decoded canonical id).
Proof. unfold catalogSetLocked, admit_new, restart_operation. ends. Qed.

Lemma operationLocked_ends io id : ends_none (operationLocked io id).
Proof. unfold operationLocked. ends. Qed.

(** What [handleCatalogSet] promises of its answer. *)
Definition catalogSet_post (id : string) (r : Response) (s : State) : Prop :=
  match r with
  | Accepted o => op_ID o = id ∧ op_Status o = OperationPending ∧ accepted id s
  | _ => Inv B s
  end.

Lemma catalogSetLocked_ok io decoded canonical id : is_Some (cloneRequest decoded) →
  triple (Inv B) (catalogSetLocked io decoded canonical id) (catalogSet_post id).
Proof using HB.
  intros Hclone. apply triple_get. intros s0. apply triple_guard; [naive_solver|]. intros Hterm. case_bool.
  destruct (loadOperation io id (s_store s0)) as [o|[]] eqn:El.
  - apply loadOperation_ok in El as (Hid & _ & t & Ho).
    set (P := λ s, Inv B s ∧ id ∉ s_terminalErrors s ∧ st_operations (s_store s) !! id = Some (t, o)).
    apply (triple_bind _ _ _ (λ _, P)); [apply triple_ret; by intros s (-> & Hi)|]. intros [].
    apply (triple_bind _ _ _ (λ _, P)).
    { apply put_request_keeps; [by intros s []|]. intros s st (Hi & Ht & Hs) Hst. unfold P. cbn. rewrite Hst.
      split_and!; [|done..]. by apply Inv_same_operations. }
    intros []. apply triple_get. intros s1.
    assert (triple (λ s, s = s1 ∧ P s)
      (_ ← guard (negb (generationCapacityAvailableLocked id s1)) capacityExhausted;
       if bool_decide (op_Status o = OperationPending)
       then _ ← modify (startLocked id decoded); mret (Accepted o)
       else o ← restart_operation io id decoded; mret (Accepted o)) (catalogSet_post id)) as Hstart.
    { apply triple_guard; [by intros s (-> & ? & _)|]. intros Hcap. case_bool. case_bool_decide as Hst.
      - eapply triple_bind; [eapply triple_pre; [by apply (start_accepted id decoded)|]|].
        + intros s (-> & Hi & Ht & Hs). split_and!; [done..|]. by exists t, o.
        + intros []. apply triple_ret. by intros s Hs.
      - eapply triple_bind; [eapply triple_pre; [by apply (restart_accepted io id decoded)|]|].
        + intros s (-> & Hi & Ht & Hs). split_and!; [done..|]. left. by rewrite Hs.
        + intros o'. by apply triple_ret. }
    destruct (op_Status o), (op_Result o), (fresh_result io s1 decoded o); try exact Hstart.
    apply triple_ret. by intros s (-> & ? & _).
  - eapply triple_bind; [eapply triple_pre; [apply (admit_new_ok io id)|by intros s (-> & Hi)]|]. intros [].
    eapply triple_bind.
    { apply put_request_keeps; [by intros s []|]. intros s st (Hi & Hrd & Hroom) Hst. unfold room. cbn. rewrite Hst.
      split_and!; [|done..]. by apply Inv_same_operations. }
    intros []. eapply triple_bind; [by apply restart_accepted|]. intros o. by apply triple_ret.
  - apply (triple_bind _ _ _ (λ _, Inv B)); [apply triple_ret; by intros s (-> & Hi)|]. intros [].
    apply (triple_bind _ _ _ (λ _, Inv B)); [|intros []; by apply triple_fail].
    apply put_request_keeps; [done|]. intros s st Hi Hst. by apply Inv_same_operations.
Qed.

(** What [handleOperation] promises of its answer. *)
Definition operation_post (id : string) (r : Response) (s : State) : Prop :=
  Inv B s ∧ match r with
            | OperationOK o => op_ID o = id ∧ (op_Status o = OperationPending → accepted id s)
            | _ => True
            end.

Context {L : CatalogAPILaws}.

Lemma clone_canonical r : is_Some (CanonicalRequest r) → is_Some (cloneRequest r).
Proof using L.
  intros [b Hb]. unfold cloneRequest. rewrite Hb. cbn. by destruct (canonical_decodes r b Hb) as (r' & -> & _).
Qed.

Lemma operationLocked_ok io id : triple (Inv B) (operationLocked io id) (operation_post id).
Proof using L.
  apply triple_get. intros s0. apply triple_guard; [naive_solver|]. intros Hterm. case_bool.
  destruct (loadOperation io id (s_store s0)) as [o|[]] eqn:El; [|apply triple_fail; naive_solver..].
  destruct (loadRequest io id (s_store s0)) as [r|] eqn:Er; [|apply triple_fail; naive_solver].
  apply triple_guard; [naive_solver|]. intros _.
  apply loadOperation_ok in El as (Hid & _ & t & Ho).
  assert (is_Some (cloneRequest r)) as Hclone by (by eapply clone_canonical, loadRequest_ok).
  apply (triple_bind _ _ _ (λ o' s, Inv B s ∧ id ∉ s_terminalErrors s ∧ op_ID o' = id ∧
    (op_Status o' = OperationPending → pending_stored (s_store s) id))).
  - destruct (bool_decide _ && _).
    + apply triple_guard; [naive_solver|]. intros Hcap. case_bool.
      eapply triple_bind; [eapply triple_pre; [apply (save_pending io id)|]|].
      * intros s (-> & Hi). split_and!; [done..|]. left. by rewrite Ho.
      * intros []. apply triple_ret. intros s (Hi & [Ht _] & Hp). done.
    + apply triple_ret. intros s (-> & Hi). split_and!; [done..|]. by exists t, o.
  - intros o'. apply (triple_pure _ (op_ID o' = id)); [naive_solver|]. intros Hid'. apply triple_get. intros s1.
    case_bool_decide as Hst.
    + apply triple_guard; [by intros s (-> & ? & _)|]. intros Hcap. case_bool.
      eapply triple_bind; [eapply triple_pre; [by apply (start_accepted id r)|]|].
      * intros s (-> & Hi & Ht & _ & Hp). split_and!; [done..|by apply Hp].
      * intros []. apply triple_ret. intros s Ha. by split; [destruct Ha|].
    + apply triple_ret. intros s (-> & Hi & _). split; [done|]. by split.
Qed.

(** *** Every step *)

Lemma admit_request_ok h decoded canonical id : admit_request h = Ok (decoded, canonical, id) →
  CanonicalRequest decoded = Some canonical ∧ id = operationIDFromDigest (sha256 canonical).
Proof using Type.
  unfold admit_request, RequestDigest. intros H. do 5 apply bind_ok in H as (? & _ & H).
  destruct (DecodeRequest (hr_Body h)) as [d|]; [|done]. destruct (CanonicalRequest d) eqn:Ec; [|done]. by simplify_eq/=.
Qed.

Lemma handleCatalogSet_ok io h s s' r : Inv B s → handleCatalogSet io h s = (s', r) →
  Inv B s' ∧ ∀ o, r = Accepted o → op_Status o = OperationPending ∧ accepted (op_ID o) s'.
Proof using HB L.
  intros Hi. unfold handleCatalogSet. destruct (admit_request h) as [[[d c] id]|r'] eqn:Ea.
  - apply admit_request_ok in Ea as [Hc _]. unfold finish_request.
    pose proof (catalogSetLocked_ok io d c id ltac:(apply clone_canonical; by eexists) s Hi) as Ht.
    destruct (catalogSetLocked io d c id s) as [s1 [r1|e1]]; intros [= <- <-].
    + destruct r1; cbn in Ht; try done. destruct Ht as (<- & ? & Hac). split; [by destruct Hac|]. by intros o' [= <-].
    + by split.
  - intros [= <- <-]. by split.
Qed.

Lemma handleOperation_ok io h s s' r : Inv B s → handleOperation io h s = (s', r) →
  Inv B s' ∧ ∀ o, r = OperationOK o → op_Status o = OperationPending → accepted (op_ID o) s'.
Proof using L.
  intros Hi. unfold handleOperation. set (id := strings_TrimPrefix _ _). do 2 (case_match; [by intros [= <- <-]|]).
  unfold finish_request. pose proof (operationLocked_ok io id s Hi) as Ht.
  destruct (operationLocked io id s) as [s1 [r1|e1]]; intros [= <- <-]; [|by split].
  destruct Ht as [Hi' Hp]. split; [done|]. intros o ->. destruct Hp as [<- ?]. done.
Qed.

Lemma handleCatalogSet_ends io h s s' r id : handleCatalogSet io h s = (s', r) → leaving s' id → leaving s id.
Proof using Type.
  unfold handleCatalogSet. destruct (admit_request h) as [[[d c] id']|r']; [|by intros [= <- <-]].
  pose proof (catalogSetLocked_ends io d c id' s id) as He. unfold finish_request.
  destruct (catalogSetLocked io d c id' s) as [s1 r1]. by intros [= <- _].
Qed.

Lemma handleOperation_ends io h s s' r id : handleOperation io h s = (s', r) → leaving s' id → leaving s id.
Proof using Type.
  unfold handleOperation. set (id' := strings_TrimPrefix _ _). do 2 (case_match; [by intros [= <- <-]|]).
  pose proof (operationLocked_ends io id' s id) as He. unfold finish_request.
  destruct (operationLocked io id' s) as [s1 r1]. by intros [= <- _].
Qed.

Lemma step_inv s s' : Inv B s → step s s' → Inv B s'.
Proof using HB L.
  intros Hi Hst. destruct Hst as [|io h n|io h n|io w data|io w tap source|io g w1 id r w2 Hw|w1 id r w2 s' Hw Hd| |io s' Hn].
  - unfold ServeHTTP_enter. destruct (s_closed s); [done|by apply Inv_handlers].
  - destruct (handleCatalogSet io h (with_handlers n s)) as [s' r] eqn:E.
    eapply handleCatalogSet_ok in E as [? _]; [done|by apply Inv_handlers].
  - destruct (handleOperation io h (with_handlers n s)) as [s' r] eqn:E.
    eapply handleOperation_ok in E as [? _]; [done|by apply Inv_handlers].
  - apply Inv_same_operations; [done|apply putCatalog_operations].
  - apply Inv_same_operations; [done|apply nextSequence_operations].
  - by apply runGeneration_inv.
  - destruct (generationDone_ok _ _ _ _ _ Hi Hw) as (s1 & Hd' & Hi' & _). rewrite Hd in Hd'. by simplify_eq.
  - by apply Inv_Close.
  - by apply (New_inv io (s_store s)); [apply (i_quota _ _ Hi)|].
Qed.

End invariant.

(** ** Properties *)

(** Eviction that reports success never touches an active operation or one
    that waits for a generation; it removes the oldest evictable operations
    first, and it leaves an evictable one only when the store is down to the
    limit. *)
Theorem evictOperations_exact io max s s' (Hsort : sort_ok io)
  (Hev : evictOperationsLocked io max s = (s', true)) :
  (∀ id, protected s id → st_operations (s_store s') !! id = st_operations (s_store s) !! id) ∧
  (∀ x y tx ty ox oy, st_operations (s_store s) !! x = Some (tx, ox) → st_operations (s_store s') !! x = None →
     st_operations (s_store s) !! y = Some (ty, oy) → st_operations (s_store s') !! y = Some (ty, oy) →
     evictable io s y → tx <= ty) ∧
  (∀ y, evictable io s y → is_Some (st_operations (s_store s') !! y) →
     forallb validOperationID (operation_ids (s_store s)) = true → (size (st_operations (s_store s')) <= max)%nat).
Proof.
  split; [by destruct (evict_evicts _ _ _ _ _ Hev)|]. unfold evictOperationsLocked in Hev.
  destruct (operationInfos io (s_store s)) as [infos|] eqn:Ei; [|done].
  apply operationInfos_ok in Ei as (Hnd & Hinfo & Hin & Hlen). destruct (_ <=? _)%nat eqn:El.
  { simplify_eq. case_bool. split; [congruence|]. intros y _ _ Hv. rewrite <-Hlen by done. done. }
  clear El. destruct (Hsort infos) as [Hp Hs].
  apply evict_loop_cleared in Hev as (l1 & l2 & k & Hl & [G1 G2 G3 G4]); [|by rewrite Hp]. rewrite Hl in Hp, Hs.
  assert (∀ y, evictable io s y → is_Some (st_operations (s_store s') !! y) → ∃ i, i ∈ l2 ∧ si_ID i = y) as Hy.
  { intros y He [x Hx]. assert (y ∈ si_ID <$> infos) as Hyi.
    { apply Hin. destruct He as (_ & o & (_ & ? & t & Ho)%loadOperation_ok & _). by rewrite Ho. }
    rewrite <-Hp, fmap_app in Hyi. apply elem_of_app in Hyi as [Hyi|(i & -> & ?)%list_elem_of_fmap]; [|by exists i].
    rewrite G1 in Hx; done. }
  split.
  - intros x y tx ty ox oy Hx Hx' Hy1 Hy2 He. destruct (Hy y He) as (j & Hj & <-); [by rewrite Hy2|].
    destruct (decide (x ∈ si_ID <$> l1)) as [(i & -> & Hi)%list_elem_of_fmap|Hn]; [|rewrite G2 in Hx'; naive_solver].
    pose proof (StronglySorted_app_1_elem_of _ _ _ i j Hs Hi Hj) as Hle. unfold info_le in Hle.
    rewrite (Hinfo i), (Hinfo j) in Hle by (rewrite <-Hp; set_solver). cbn in Hle. by rewrite Hx, Hy1 in Hle.
  - intros y He Hs' Hv. destruct (Hy y He Hs') as (j & Hj & _). specialize (Hlen Hv). assert (l2 ≠ []) as Hne by (by intros ->; apply not_elem_of_nil in Hj).
    specialize (G4 Hne). lia.
Qed.

(** Collecting catalog documents removes exactly those that no completed
    operation with a verifiable result references and that are at least one
    catalog-set lifetime old; a fault can only keep more. *)
Theorem gcCatalogs_exact io s name t data (Hd : st_catalogs (s_store s) !! name = Some (t, data))
  (Hname : validSHA256Hex name = true) (Hlife : 0 < lm_catalogSetLifetime cfg) :
  let live := (∃ id, is_Some (st_operations (s_store s) !! id) ∧ name ∈ operation_references io (s_store s) id) ∨
              io_now io - t < lm_catalogSetLifetime cfg in
  (live → st_catalogs (s_store (gcCatalogsLocked io s)) !! name = Some (t, data)) ∧
  (¬ live → is_ok (listOperations io (s_store s)) = true → (∀ n, io_unlink_fails io n = false) →
   st_catalogs (s_store (gcCatalogsLocked io s)) !! name = None).
Proof.
  intros live. unfold gcCatalogsLocked. destruct (listOperations io (s_store s)) as [ids|] eqn:El; [|by split].
  apply listOperations_ok in El as ->.
  set (referenced := list_to_set (operation_ids (s_store s) ≫= operation_references io (s_store s)) : gset string).
  assert (keeps_catalog referenced (io_now io) (lm_catalogSetLifetime cfg) name t ↔ live) as Hk.
  { unfold keeps_catalog, live, referenced. rewrite elem_of_list_to_set, list_elem_of_bind.
    setoid_rewrite elem_of_operation_ids. rewrite Hname. naive_solver. }
  cbn. split.
  - intros Hl%Hk. by apply removeCatalogs_keeps.
  - intros Hl _ Hio. eapply removeCatalogs_removes; [done..| |by rewrite Hk].
    rewrite elem_of_slices_Sort, elem_of_elements, elem_of_dom. by rewrite Hd.
Qed.

Context {L : CatalogAPILaws}.

Definition quota (st : store) : nat := lm_maxStoredOperations cfg `max` size (st_operations st).

Lemma reachable_inv st s : reachable st s → Inv (quota st) s.
Proof using L.
  intros (io & s0 & Hnew & Hrtc). apply (New_inv (quota st)) in Hnew as [Hi _]; [|unfold quota; lia].
  induction Hrtc as [|s1 s2 s3 Hstep _ IH]; [done|]. apply IH. eapply step_inv; [|done..]. unfold quota. lia.
Qed.

(** C36: In every state the service can reach, across faults, shutdown and
    restart: the queue has no duplicates and is the domain of the queued
    requests; no id is both active and queued; there is exactly one goroutine
    per active id and one slot taken per goroutine, within the concurrency
    limit; active and queued generations stay within the admission limit;
    everything queued or generating is pending in the store and has no terminal
    error; the number of stored operations stays within the greater of the
    configured quota and what the store held when the first process opened it.
    While the service is open (not after [Close], when nothing is launched any
    more) no slot is free as long as something is queued. *)
Theorem service_invariant st s (Hr : reachable st s) : Inv (quota st) s.
Proof using L. by apply reachable_inv. Qed.

(** C38: A goroutine that finished its generation always gets through
    [generationDone]: neither the receive nor the send on the slot channel
    blocks while it holds the mutex. An open service then runs the head of the
    queue in its place, so queued generations start in order of arrival. *)
Theorem generationDone_progress st s w1 id r w2
  (Hr : reachable st s) (Hw : s_workers s = w1 ++ MkWorker id r Finished :: w2) :
  ∃ s', generationDone id (with_workers (w1 ++ w2) s) = Some s' ∧
    (s_closed s = false →
       s_queue s' = tail (s_queue s) ∧
       s_active s' = list_to_set (take 1 (s_queue s)) ∪ (s_active s ∖ {[id]})).
Proof using L.
  apply reachable_inv in Hr. destruct (generationDone_ok _ _ _ _ _ _ Hr Hw) as (s' & ? & _ & ?). by exists s'.
Qed.

(** C39: What the handlers promise of an operation they answer as pending: it is
    pending in the store; and unless the service is closing, it is queued or a
    goroutine is generating it. There is one exception, and only one: when the
    goroutine of an earlier generation of the same operation had finished before
    the request came and has not yet been through [generationDone]; then the id
    still counts as active and is not started again. *)
Theorem pending_answer_scheduled st s io h s' r o (Hr : reachable st s)
  (Hh : handleCatalogSet io h s = (s', r) ∧ r = Accepted o ∨
        handleOperation io h s = (s', r) ∧ r = OperationOK o ∧ op_Status o = OperationPending) :
  op_Status o = OperationPending ∧ pending_stored (s_store s') (op_ID o) ∧
  (s_closed s' = false →
     op_ID o ∈ s_queue s' ∨ (∃ r, MkWorker (op_ID o) r Generating ∈ s_workers s') ∨
     (∃ r, MkWorker (op_ID o) r Finished ∈ s_workers s)).
Proof using L.
  apply reachable_inv in Hr. assert (lm_maxStoredOperations cfg <= quota st)%nat as HB by (unfold quota; lia).
  assert (op_Status o = OperationPending ∧ accepted (quota st) (op_ID o) s' ∧ (leaving s' (op_ID o) → leaving s (op_ID o)))
    as (Hp & (Hi & Hst & Hs) & Hl).
  { destruct Hh as [[Hh ->]|(Hh & -> & Hp)].
    - split_and!; [| |by eapply handleCatalogSet_ends];
        apply (handleCatalogSet_ok _ HB) in Hh as [_ Hh]; [by apply Hh|done|by apply Hh|done].
    - split_and!; [done| |by eapply handleOperation_ends].
      apply (handleOperation_ok (quota st)) in Hh as [_ Hh]; [by apply Hh|done]. }
  split_and!; [done..|]. intros Hc. destruct Hs as [?|Hs]; [congruence|].
  destruct (scheduled_waiting _ _ _ Hi Hs) as [[?|?]|?%Hl]; auto.
Qed.

(** A new process on an existing store runs or queues exactly the operations
    that were pending in it, in one go and within the admission limit. *)
Theorem New_resumes io st s (Hn : New io st = Ok s) id :
  (id ∈ s_active s ∨ id ∈ s_queue s) ↔ pending_stored st id.
Proof using L.
  pose proof (New_empty (size (st_operations st)) st ltac:(done)) as Hi.
  apply New_ok in Hn as (pending & -> & Hm & Hlen). apply resumed_pending in Hm as (Hm & Hr & Hnd).
  change (scheduled (start_all (mjoin pending) (MkState st ∅ ∅ [] 0 ∅ false 0 [])) id ↔ pending_stored st id).
  rewrite (start_all_scheduled _ _ _ Hi); try done.
  - rewrite Hm, elem_of_operation_ids. unfold scheduled. cbn. split; [|intros (t & o & Ho & ?); right; split; [by rewrite Ho|by exists t, o]].
    intros [[?|?%not_elem_of_nil]|[_ ?]]; [set_solver|done|done].
  - intros x r Hin. split_and!.
    + apply (Hm x). by apply (list_elem_of_fmap_2 fst) in Hin.
    + unfold scheduled. cbn. intros [?|?%not_elem_of_nil]; [set_solver|done].
    + by eapply clone_canonical, Hr.
  - by apply Hnd, operation_ids_NoDup.
Qed.

End service.

(** Only bytes with the requested digest are served. *)
Lemma handleCatalog_content `{U : !UnicodeTables, A : !CatalogAPI} io h s data : handleCatalog io h s = CatalogOK data →
  sha256 data = strings_TrimPrefix (hr_Path h) "/v1/catalogs/sha256/" ∧ canonicalTapCatalog data = true.
Proof.
  unfold handleCatalog. set (encoded := strings_TrimPrefix _ _). do 2 (case_match; [done|]).
  destruct (loadCatalog io encoded (s_store s)) as [d|[]] eqn:El; [|done..]. intros [= ->].
  unfold loadCatalog in El. destruct (validSHA256Hex encoded); [|done]. cbn in El.
  destruct (st_catalogs (s_store s) !! encoded) as [[t d]|]; [|done]. res_inv El. case_bool. done.
Qed.

Lemma sha256_operationID `{U : !UnicodeTables, A : !CatalogAPI, L : !CatalogAPILaws} r id :
  OperationID r = Some id → validOperationID id = true ∧ validateOperationID id = true.
Proof.
  unfold OperationID, RequestDigest. destruct (CanonicalRequest r) as [b|]; [|done]. intros [= <-].
  destruct (sha256_hex b) as [Hlen Hhex]. unfold operationIDFromDigest.
  change ("op-" +:+ sha256 b) with (String "o" (String "p" (String "-" (sha256 b)))).
  assert (strings_TrimPrefix (String "o" (String "p" (String "-" (sha256 b)))) "op-" = sha256 b) as Htrim.
  { unfold strings_TrimPrefix. cbn. by destruct (sha256 b). }
  split.
  - unfold validOperationID. rewrite Htrim, sha256_validHex. cbn. by destruct (sha256 b).
  - unfold validateOperationID. rewrite !strlen_cons, Hlen. cbn.
    eapply all_bytes_impl; [|exact Hhex]. intros c. unfold isHexLower, isDigit, isLower, byte_in. lia.
Qed.

(** Every operation document the service writes for a request is valid: its
    id is a valid operation id, and the pending and failed documents under it
    pass [ValidateOperation] for every accepted configuration and every failure,
    so only the file system can make a save fail. *)
Theorem service_documents_valid `{U : !UnicodeTables, A : !CatalogAPI, L : !CatalogAPILaws} c cfg r id f
  (Hc : service_limits c = Ok cfg) (Hid : OperationID r = Some id) :
  validOperationID id = true ∧ ValidateOperation (pendingOperation cfg id) = true ∧
  ValidateOperation (failedOperation id f) = true ∧ (1 <= lm_maxConcurrent cfg <= 64)%nat.
Proof.
  destruct (sha256_operationID r id Hid) as [Hv Ho]. unfold service_limits in Hc. res_inv Hc. case_bool. split; [done|].
  unfold ValidateOperation. cbn. rewrite !Ho. cbn. split_and!.
  - rewrite !andb_true_r. apply negb_true_iff, orb_false_intro; [apply Z.ltb_ge|apply Z.ltb_ge].
    + apply Z.quot_pos; unfold second in *; lia.
    + apply Z.quot_le_upper_bound; unfold second in *; lia.
  - destruct (ValidateFailure f) eqn:Ef; [by rewrite Ef|]. vm_compute. reflexivity.
  - lia.
  - lia.
Qed.

(** ** Concrete runs *)

Module ServiceExample.
Import StoreExample.

#[local] Instance U : UnicodeTables := ascii_tables.
#[local] Instance G : GoDigest := sha256_only.
#[local] Instance A : CatalogAPI := api.
#[local] Instance L : CatalogAPILaws := api_laws.

(** One generation at a time, at most one pending, at most two stored. *)
Definition config : Config := MkConfig 0 0 0 0 1 1 2.
Definition limits : Limits := MkLimits MaxCatalogSetLifetime DefaultGenerationTimeout 2 DefaultCatalogRefresh 1 1 2.

Lemma config_limits : service_limits config = Ok limits.
Proof. vm_compute. reflexivity. Qed.

Definition post (body : string) : http_request :=
  MkHTTP "/v1/catalog-sets" "" "" (Some ("application/json", ∅)) 1 body.

Definition started : State := MkState empty_store ∅ ∅ [] 0 ∅ false 0 [].

Lemma started_new : New limits (io 0) empty_store = Ok started.
Proof. vm_compute. reflexivity. Qed.

(** Two requests are let in. *)
Definition two_handlers : State := fst (ServeHTTP_enter (fst (ServeHTTP_enter started))).

Lemma two_handlers_reachable : reachable limits empty_store two_handlers.
Proof.
  exists (io 0), started. split; [apply started_new|].
  eapply rtc_l; [apply step_enter|]. eapply rtc_l; [apply step_enter|]. constructor.
Qed.

(** A request is posted and its generation started. *)
Definition running : State := fst (handleCatalogSet limits (io 1) (post "a") (with_handlers 1 two_handlers)).

Lemma running_reachable : reachable limits empty_store running.
Proof.
  destruct two_handlers_reachable as (io0 & s0 & Hn & Hr). exists io0, s0. split; [done|].
  eapply rtc_r; [exact Hr|]. apply step_catalog_set; [reflexivity|apply io_sort_ok].
Qed.

(** The generation fails. *)
Definition outcome : generation := MkGeneration false true true None (Err true).
Definition failed : State :=
  runGeneration limits (io 2) ("op-" +:+ hex_a) "a" outcome
    (with_workers [MkWorker ("op-" +:+ hex_a) "a" Finished] running).

Lemma failed_reachable : reachable limits empty_store failed.
Proof.
  destruct running_reachable as (io0 & s0 & Hn & Hr). exists io0, s0. split; [done|].
  eapply rtc_r; [exact Hr|]. apply (step_run limits running (io 2) outcome [] ("op-" +:+ hex_a) "a" []).
  - vm_compute. reflexivity.
  - discriminate.
Qed.

(** The failed request is posted again before the goroutine has left: the answer
    is pending, nothing is queued or generating, and nothing is after the
    goroutine has left; the next poll of the operation starts it. *)
Definition reposted : State := fst (handleCatalogSet limits (io 3) (post "a") (with_handlers 0 failed)).
Definition poll : http_request := MkHTTP ("/v1/operations/op-" +:+ hex_a) "" "" None 0 "".

Example reposted_waits_for_poll :
  snd (handleCatalogSet limits (io 3) (post "a") (with_handlers 0 failed)) = Accepted (pendingOperation limits ("op-" +:+ hex_a)) ∧
  ∃ s, generationDone limits ("op-" +:+ hex_a) (with_workers [] reposted) = Some s ∧
    s_workers s = [] ∧ s_queue s = [] ∧
    snd (handleOperation limits (io 4) poll s) = OperationOK (pendingOperation limits ("op-" +:+ hex_a)) ∧
    s_workers (fst (handleOperation limits (io 4) poll s)) = [MkWorker ("op-" +:+ hex_a) "a" Generating].
Proof.
  split; [vm_compute; reflexivity|].
  exists (default reposted (generationDone limits ("op-" +:+ hex_a) (with_workers [] reposted))).
  do 4 (split; [vm_compute; reflexivity|]). vm_compute. reflexivity.
Qed.

Lemma answers (p : State * Response) r : snd p = r → p = (fst p, r).
Proof. intros <-. apply surjective_pairing. Qed.

(** Both requests are handled while the service is open. *)
Definition open_a : State := fst (handleCatalogSet limits (io 3) (post "a") (with_handlers 1 two_handlers)).
Definition open_ab : State := fst (handleCatalogSet limits (io 3) (post "b") (with_handlers 0 open_a)).

(** Both requests reach their critical section only after [Close]. *)
Definition closing : State := Close two_handlers.
Definition closing_a : State := fst (handleCatalogSet limits (io 3) (post "a") (with_handlers 1 closing)).
Definition closing_ab : State := fst (handleCatalogSet limits (io 3) (post "b") (with_handlers 0 closing_a)).

Lemma closing_reachable : reachable limits empty_store closing_ab.
Proof.
  destruct two_handlers_reachable as (io0 & s0 & Hn & Hr). exists io0, s0. split; [done|].
  eapply rtc_r.
  - eapply rtc_r.
    + eapply rtc_r; [exact Hr|]. apply step_close.
    + apply (step_catalog_set limits closing (io 3) (post "a") 1); [reflexivity|apply io_sort_ok].
  - apply (step_catalog_set limits closing_a (io 3) (post "b") 0); [vm_compute; reflexivity|apply io_sort_ok].
Qed.

End ServiceExample.

(** No call of the file system fails. *)
Definition no_faults (io : IO) : Prop :=
  (∀ n, io_read_fails io n = false ∧ io_read_request_fails io n = false ∧ io_read_catalog_fails io n = false ∧
        io_remove io n = Removed ∧ io_unlink_fails io n = false) ∧
  io_list_fails io = false ∧ io_infos_fails io = false ∧ io_put io = NoFault ∧ io_save io = NoFault ∧
  io_sequence_fails io = false.

(** C40: The shutdown path lets the store hold more pending operations than the
    admission limit, without any fault of the file system. Two requests are let
    in by [ServeHTTP]. Handled while the service is open, the first is accepted
    and the second refused for lack of capacity, and a process started on the
    store after [Close] resumes. Handled after [Close], both are accepted as
    pending and stored, and the next process refuses to start on that store. *)
Theorem shutdown_can_block_restart : ∃ c cfg st io ha hb s0 s1 s2,
  let catalogSet := @handleCatalogSet ascii_tables StoreExample.api cfg io in
  let new := @New ascii_tables StoreExample.api cfg io in
  service_limits c = Ok cfg ∧ sort_ok io ∧ no_faults io ∧
  new st = Ok s0 ∧ ServeHTTP_enter s0 = (s1, None) ∧ ServeHTTP_enter s1 = (s2, None) ∧
  (∃ a ab o, catalogSet ha (with_handlers 1 s2) = (a, Accepted o) ∧
     catalogSet hb (with_handlers 0 a) = (ab, Refused capacityExhausted) ∧
     is_ok (new (s_store (Close ab))) = true) ∧
  (∃ a ab oa ob, catalogSet ha (with_handlers 1 (Close s2)) = (a, Accepted oa) ∧
     catalogSet hb (with_handlers 0 a) = (ab, Accepted ob) ∧ op_ID oa ≠ op_ID ob ∧
     @reachable ascii_tables sha256_only StoreExample.api cfg st ab ∧
     new (s_store ab) = Err ResumeTooMany).
Proof.
  exists ServiceExample.config, ServiceExample.limits, StoreExample.empty_store, (StoreExample.io 3),
    (ServiceExample.post "a"), (ServiceExample.post "b"), ServiceExample.started,
    (fst (ServeHTTP_enter ServiceExample.started)), ServiceExample.two_handlers. intros catalogSet new.
  split; [apply ServiceExample.config_limits|]. split; [apply StoreExample.io_sort_ok|]. split; [by split_and!|].
  do 3 (split; [vm_compute; reflexivity|]). split.
  - exists ServiceExample.open_a, ServiceExample.open_ab,
      (@pendingOperation StoreExample.api ServiceExample.limits ("op-" +:+ StoreExample.hex_a)).
    do 2 (split; [apply ServiceExample.answers; vm_compute; reflexivity|]). vm_compute. reflexivity.
  - exists ServiceExample.closing_a, ServiceExample.closing_ab,
      (@pendingOperation StoreExample.api ServiceExample.limits ("op-" +:+ StoreExample.hex_a)),
      (@pendingOperation StoreExample.api ServiceExample.limits ("op-" +:+ StoreExample.hex_b)).
    do 2 (split; [apply ServiceExample.answers; vm_compute; reflexivity|]). split; [discriminate|].
    split; [apply ServiceExample.closing_reachable|]. vm_compute. reflexivity.
Qed.

Lemma service_invariant_witness :
  s_active ServiceExample.running = {["op-" +:+ StoreExample.hex_a]} ∧
  @Inv StoreExample.api ServiceExample.limits 2 ServiceExample.running.
Proof.
  split; [vm_compute; reflexivity|].
  apply (@service_invariant ascii_tables sha256_only StoreExample.api ServiceExample.limits StoreExample.api_laws
    StoreExample.empty_store ServiceExample.running).
  apply ServiceExample.running_reachable.
Defined.

Lemma generationDone_progress_witness :
  ∃ s', @generationDone StoreExample.api ServiceExample.limits ("op-" +:+ StoreExample.hex_a)
          (with_workers [] ServiceExample.failed) = Some s'.
Proof.
  destruct (@generationDone_progress ascii_tables sha256_only StoreExample.api ServiceExample.limits StoreExample.api_laws
    StoreExample.empty_store ServiceExample.failed [] ("op-" +:+ StoreExample.hex_a) "a" []) as (s' & Hs & _).
  - apply ServiceExample.failed_reachable.
  - vm_compute. reflexivity.
  - exists s'. exact Hs.
Defined.

Lemma pending_answer_scheduled_witness :
  @pending_stored StoreExample.api
    (s_store (fst (@handleCatalogSet ascii_tables StoreExample.api ServiceExample.limits (StoreExample.io 1)
                     (ServiceExample.post "a") ServiceExample.two_handlers))) ("op-" +:+ StoreExample.hex_a).
Proof.
  apply (@pending_answer_scheduled ascii_tables sha256_only StoreExample.api ServiceExample.limits StoreExample.api_laws
    StoreExample.empty_store ServiceExample.two_handlers (StoreExample.io 1) (ServiceExample.post "a") _
    (snd (@handleCatalogSet ascii_tables StoreExample.api ServiceExample.limits (StoreExample.io 1)
            (ServiceExample.post "a") ServiceExample.two_handlers))
    (@pendingOperation StoreExample.api ServiceExample.limits ("op-" +:+ StoreExample.hex_a))).
  - apply ServiceExample.two_handlers_reachable.
  - left. split; [apply surjective_pairing|vm_compute; reflexivity].
Defined.

Lemma New_resumes_witness : ∃ s,
  @New ascii_tables StoreExample.api ServiceExample.limits (StoreExample.io 9) (s_store ServiceExample.running) = Ok s ∧
  (("op-" +:+ StoreExample.hex_a) ∈ s_active s ∨ ("op-" +:+ StoreExample.hex_a) ∈ s_queue s).
Proof.
  assert (is_ok (@New ascii_tables StoreExample.api ServiceExample.limits (StoreExample.io 9) (s_store ServiceExample.running)) = true)
    as Hok by (vm_compute; reflexivity).
  destruct (@New ascii_tables StoreExample.api ServiceExample.limits (StoreExample.io 9) (s_store ServiceExample.running))
    as [s|e] eqn:E; [|discriminate Hok].
  exists s. split; [reflexivity|].
  apply (@New_resumes ascii_tables StoreExample.api ServiceExample.limits StoreExample.api_laws
    (StoreExample.io 9) (s_store ServiceExample.running) s E).
  exists 1, (@pendingOperation StoreExample.api ServiceExample.limits ("op-" +:+ StoreExample.hex_a)).
  split; vm_compute; reflexivity.
Defined.

(** After the failed generation has left, its operation can be evicted. *)
Lemma evictOperations_exact_witness : ∃ s',
  @evictOperationsLocked ascii_tables StoreExample.api (StoreExample.io 9) 0
    (with_active ∅ ServiceExample.failed) = (s', true) ∧
  st_operations (s_store s') !! ("op-" +:+ StoreExample.hex_a) = None ∧
  (∀ id, protected (with_active ∅ ServiceExample.failed) id →
     st_operations (s_store s') !! id = st_operations (s_store (with_active ∅ ServiceExample.failed)) !! id).
Proof.
  destruct (@evictOperationsLocked ascii_tables StoreExample.api (StoreExample.io 9) 0 (with_active ∅ ServiceExample.failed))
    as [s' ok] eqn:E.
  assert (ok = true) as -> by (transitivity (snd (s', ok)); [reflexivity|rewrite <-E; vm_compute; reflexivity]).
  exists s'. split; [reflexivity|]. split.
  - change s' with (fst (s', true)). rewrite <-E. vm_compute. reflexivity.
  - exact (proj1 (@evictOperations_exact ascii_tables StoreExample.api (StoreExample.io 9) 0
      (with_active ∅ ServiceExample.failed) s' (StoreExample.io_sort_ok 9) E)).
Defined.

Lemma gcCatalogs_exact_witness :
  let s := @with_store StoreExample.api (set_catalogs <[StoreExample.hex_b := (0, "b")]> StoreExample.empty_store) ServiceExample.started in
  st_catalogs (s_store (@gcCatalogsLocked ascii_tables StoreExample.api ServiceExample.limits (StoreExample.io 5) s)) !! StoreExample.hex_b
  = Some (0, "b").
Proof.
  apply (@gcCatalogs_exact ascii_tables StoreExample.api ServiceExample.limits (StoreExample.io 5)
    (@with_store StoreExample.api (set_catalogs <[StoreExample.hex_b := (0, "b")]> StoreExample.empty_store) ServiceExample.started)
    StoreExample.hex_b 0 "b").
  - vm_compute. reflexivity.
  - vm_compute. reflexivity.
  - vm_compute. reflexivity.
  - right. vm_compute. reflexivity.
Defined.

Lemma service_documents_valid_witness :
  @ValidateOperation StoreExample.api (@pendingOperation StoreExample.api ServiceExample.limits ("op-" +:+ StoreExample.hex_a)) = true.
Proof.
  apply (@service_documents_valid ascii_tables StoreExample.api StoreExample.api_laws ServiceExample.config ServiceExample.limits
    "a" ("op-" +:+ StoreExample.hex_a) (MkFailure "" "")); vm_compute; reflexivity.
Defined.
